(* ===== verification/_CoqProject ===== *)
-Q . S2P
Prelude.v
PyFloat.v
PyText.v
Uuid.v
Models.v
Serialization.v
Truncation.v
Redaction.v
AuditSanitize.v
Events.v
Plans.v
RunPackets.v
ReflexRules.v
Lifecycle.v
Envelope.v
Budgets.v
Suppression.v
EventStore.v
QueueSpec.v
TaskQueue.v
ReadyQueue.v
MessageQueue.v
RateLimit.v
CircuitBreaker.v
Decision.v
Policy.v
Guards.v
Retries.v
Concurrency.v
Dependencies.v
Approvals.v
Tools.v
PlanValidation.v
Enforcement.v
Rows.v
Repos.v
PacketStore.v
Outcomes.v
Executor.v
AuditTrail.v
Persistence.v
Triggers.v
Engine.v
ApprovalsService.v
FsSafety.v
Urls.v
NetSafety.v
HttpTool.v
Webhook.v
FsTools.v
Safeguards.v
Memory.v
Maintenance.v
Queries.v
Worker.v
Planning.v
