(* ===== verification/Prelude.v ===== *)
(** * Reflexor: a verification library

    Reflexor is a runtime for policy-controlled workflows, written in Python
    (src/src/reflexor, called reflexor/ below). Events arrive; a reflex router
    answers them with ready-made tasks or asks for planning; a planner proposes
    tasks; the tasks are validated, stored and put on a queue; an executor
    leases one task at a time, asks guards, policy and (for sensitive scopes) a
    human approval, runs a tool and stores the outcome. The library models this
    core, from the data model to the executor, and proves what makes it correct.

    ** Files and what they model

    Foundations, without a counterpart of their own under src/:
    - Prelude: JSON values, exceptions and the result type, dictionaries in
      insertion order, Python's ordering and heaps, the validation combinators
      of pydantic, generic lemmas, tactics and hints;
    - PyFloat, PyText, Uuid: binary64 floats, text operations, uuid.UUID.

    Data (reflexor/domain, reflexor/orchestrator):
    - Models, Lifecycle: domain/models.py, enums.py; lifecycle.py,
      execution_state.py;
    - Serialization: domain/serialization.py; Events: domain/models_event.py;
      Plans: orchestrator/plans.py; Budgets: orchestrator/budgets.py;
    - Truncation, Redaction, AuditSanitize: observability/truncation.py,
      redaction.py, audit_sanitize.py;
    - RunPackets: domain/models_run_packet.py, the record of one run.

    Queues: Envelope (orchestrator/queue/task_envelope.py, interface.py),
    QueueSpec (what semantics.py promises, as the class [QueueLaws]), TaskQueue
    and ReadyQueue (infra/queue/task_queue_in_memory.py, in_memory_queue/; the
    instances of the class), MessageQueue (infra/queue/in_memory.py).

    Deciding on events and plans: ReflexRules (orchestrator/reflex_rules/),
    PlanValidation (orchestrator/validation.py), Suppression
    (orchestrator/event_suppression.py with its table and its command).

    Safety around a tool call: Decision (tools/sdk, the decision records), Policy
    (security/policy/rules.py, gate.py), Guards, RateLimit, CircuitBreaker
    (guards/), Approvals (security/policy/approvals.py,
    executor/approval_store.py), Tools (tools/registry.py, normalization.py,
    runner.py), Enforcement (security/policy/enforcement/).

    Tools and their confinement: FsSafety (security/fs_safety.py over a file
    system of directories, files and links) and FsTools
    (tools/impl/fs.py); Urls (urllib.parse and ipaddress of the standard
    library), NetSafety (security/net_safety.py), HttpTool (tools/impl/http.py) and
    Webhook (tools/impl/webhook.py, security/secrets.py); Safeguards, the policy
    gate over the real checks of paths and URLs.

    Storage: Rows (infra/db/models.py, mappers.py), Repos (infra/db/repos/ of
    tasks, tool calls, approvals and the idempotency ledger), EventStore
    (infra/db/repos/events.py), PacketStore (infra/db/repos/runs,
    run_packets.py, and the decoding of a stored packet; its record [store] is
    the database as a whole).

    Around the stored runs: Memory (memory/, infra/db/repos/memory.py), Maintenance
    (application/maintenance_service.py), Queries (the status of a run and the
    listings of infra/db/repos/runs and application/services), ApprovalsService
    (application/approvals_service.py).

    Engine: Persistence (orchestrator/persistence.py), Triggers
    (orchestrator/triggers.py), Engine (orchestrator/engine/, and the stubs of
    interfaces.py).

    Execution: Retries, Concurrency, Dependencies, Outcomes, Executor
    (executor/, executor/service/); AuditTrail (executor/service/audit.py), with
    [store_database], the executor's storage over the tables of PacketStore. Worker
    (worker/runner.py) is the loop that leases tasks, hands them to the executor and
    settles what it could not process; Planning (planning/) the planners that stand
    behind the engine.

    ** How code becomes definitions

    - A dataclass or pydantic model is a record, an enum an inductive type, an
      object that is mutated a record threaded through a state monad [st]; an
      exception is a value of [exn], a fallible function gives [res]. A pydantic
      constructor is its validators in the order in which pydantic runs them,
      with their errors collected ([vld]).
    - Text is its UTF-8 bytes; case folding and white space are those of ASCII.
      Integers are unbounded, floats are IEEE 754 binary64 with the rounding of
      the hardware. A dict that is only looked up is a [gmap], one that is
      iterated an association list in insertion order.
    - Clock readings, random numbers and fresh identifiers are arguments.
    - The code is asynchronous: what runs under a lock, and what runs between two
      awaits, is one step; where the order of steps matters the theorems
      quantify over all sequences of steps (queues, limiter, lifecycle).
      A handler of the executor is one step for one task. The engine is
      suspended at each call of the store, the queue and a lock; what others do
      then is a function [others] of the world, about which a theorem assumes
      only that it respects a relation ([respects]). What a run does to the queue
      is a trace of steps ([queued]), in which its own envelopes are told apart from
      what the others do.
    - A unit of work keeps its writes only when its body returns.

    ** Interfaces

    Clients are proved against classes, implementations are instances:
    [QueueOps] and [QueueLaws] (queues), [RateLimiter] and [RateLimiterLaws],
    [ApprovalStore] and [ApprovalStoreLaws] (approvals in memory or in the
    database), [ApprovalRepo] and its laws, [Database], [DatabaseLaws] and
    [ApprovalsKeepTasks] (what the executor needs of storage), [Checks] (parsing
    of URLs, host matching, path resolution; discharged by Safeguards), [Entropy] (fresh ids and clock),
    [FloatRepr] (float.__repr__ is injective text), [SanitizerLaws] (what the
    tool runner needs of output sanitisation, discharged by Redaction).
    SHA-256 is a parameter, injective on the inputs a theorem compares.

    ** Parameters

    Code that is not under src/ is an argument of the definitions that use it, with
    the documented behaviour a theorem needs as hypothesis: SHA-256 and HMAC, the
    patterns of the redactor, the decoding of UTF-8 and the codecs of files, the
    tables of IDNA and NFKC, the limit on links and the home directories of the
    system, whether a write fails half-way, the resolver and the HTTP client; LIKE,
    lower and the text of a JSON column of the database; the endpoint of the
    planner, the parser of JSON and the schemas and lenient conversions of pydantic;
    uuid4. Every theorem with such a hypothesis has a witness with a concrete
    function.

    ** Theorems

    - Invariants and types: validation is idempotent and gives exactly the
      documented conditions (Models); a task and its call stay consistent and the
      attempts bounded in every run of operations (Lifecycle); caps of the
      limiter, buckets, circuits.
    - Refinement: both in-memory queues implement the documented queue, and a
      client of the laws alone never sees an acknowledged envelope again; the
      event suppressor is one automaton per signature.
    - Functional correctness: what the gate, the guard chain, the breaker, the
      retries, the dependency search, plan validation, the router and the
      sanitiser answer on every branch.
    - Safety: an approved call runs only as approved, a decision is final, one
      event per de-duplication key, a tool runs at most once per lease and only
      for a counted attempt, a lease is settled once, the ledger keeps a success,
      no secret is left by redaction.
    - Termination: the searches, scans and loops end; a fuel argument is always
      shown to be enough (length of the text, number of tasks, items on the
      stack).
    - Composition: tasks are in the store before they are on the queue, at every
      point at which a worker could look; a planning cycle puts each ready task on
      the queue and keeps its events when an error names no queued task; every event
      comes to one of six ends; an event that comes again does nothing; approving is
      all or nothing; the worker settles every lease once.
    - Confinement: what the gate allows touches only paths of the workspace and, for
      a URL of ASCII text without a host in brackets, only allowed hosts by https;
      the HTTP tool sends only what was checked; a file is replaced as a whole or
      not at all; a webhook goes to a listed target, signed.
    - Stored runs: memory items are written and read back, a search finds what the
      database finds in the stored text, the backfill of memory ends, the status of
      a run is what its tasks say.
    - Errors: what the code cannot do is stated too: requests that raise, events
      that are stored but unreadable, permits that are never given back,
      dependents that are stranded, brackets that the URL guard takes off, retention
      that never ends, events that stop all planning.

    ** Bounds and fuel

    Loops over data are structural or run on fuel that a theorem shows to be
    enough. [str] of an integer assumes fewer digits than Python's limit for
    printing integers. Recursion over JSON is bounded in Python by its recursion limit, an
    argument where the code depends on it (PlanValidation).

    ** Not modelled

    - Entry points and wiring: api/, cli/, the signals and processes around the
      worker, bootstrap/, config/, operations/, replay/: input and output around the
      core, or configuration.
    - Redis (infra/queue/redis_streams, infra/guards): programs in Lua that run
      in a server.
    - The subprocess sandbox (tools/execution_backend, sandbox) and the tools for
      tests (echo, mock).
    - Metrics, tracing, logging, queue observers beyond the calls they receive.
    - Regular expressions of the redactor, SHA-256, float printing: parameters.
    - The parts of the database layer outside the tables above, and migrations.
*)

From Stdlib Require Import ZArith SpecFloat OrdersEx Sorted Permutation.
From stdpp Require Export base strings list gmap.
From stdpp Require Import sorting.

#[export] Set Default Goal Selector "1".
Open Scope Z_scope.

Declare Scope py_scope.
Delimit Scope py_scope with py.
Create HintDb py discriminated.

(** ** Python values that reach JSON columns, payloads and error contexts

    [JOpaque] stands for any object [json.dumps] refuses (a [datetime], a
    class instance, ...); [JObj] is a [dict] with string keys in insertion
    order. *)
Inductive json : Type :=
| JNull
| JBool (b : bool)
| JInt (n : Z)
| JFloat (f : spec_float)
| JStr (s : string)
| JArr (items : list json)
| JObj (fields : list (string * json))
| JOpaque (repr : string).

(** ** Exceptions

    One constructor per exception class the modelled code raises, with the
    message (and the structured context of the domain errors). *)
Inductive exn : Type :=
| ValueError (msg : string)
| TypeError (msg : string)
| KeyError (msg : string)
| OverflowError (msg : string)
| AssertionError
| RuntimeError (msg : string)
| QueueClosed (msg : string)
| ValidationError (errors : list (string * exn))
| InvalidTransition (msg : string) (current_state requested_state : string)
    (context : list (string * json))
| BudgetExceeded (msg budget : string) (context : list (string * json))
| PlanValidationError (msg : string)
| TemplateValidationError (msg : string)
| TemplateResolutionError (msg : string)
| TaskEnqueueError (enqueued_task_ids : list string) (failed_task_id : string)
    (failed_tool_call_id : option string)
| PlannerMemoryLoadError (msg : string)
| PlannerRequestError (msg : string)
| PlannerResponseError (msg : string)
| TaskNotFound (task_id : string)
| ToolCallMissing (task_id : string)
| DependentEnqueueError (task_id upstream_task_id : string)
| ApprovalPersistError (approval_id : string)
| RunPacketPersistError
| TimeoutError
| OtherError (class_name msg : string).

(** ** Fallible computations *)
Inductive res (A : Type) : Type :=
| Ok (a : A)
| Raise (e : exn).
Arguments Ok {A} a.
Arguments Raise {A} e.

#[export] Instance res_ret : MRet res := @Ok.
#[export] Instance res_bind : MBind res := fun A B f m =>
  match m with Ok a => f a | Raise e => Raise e end.
#[export] Instance res_fmap : FMap res := fun A B f m =>
  match m with Ok a => Ok (f a) | Raise e => Raise e end.

(** [raise_if b e] is the statement [if b: raise e]. *)
Definition raise_if (b : bool) (e : exn) : res unit :=
  if b then Raise e else Ok tt.

Definition is_ok {A} (m : res A) : bool :=
  match m with Ok _ => true | Raise _ => false end.

Lemma res_bind_Ok {A B} (f : A -> res B) (m : res A) (b : B) :
  (m ≫= f) = Ok b <-> exists a, m = Ok a /\ f a = Ok b.
Proof.
  destruct m as [a|e]; cbn; split.
  - eauto.
  - by intros (? & [= ->] & ?).
  - done.
  - by intros (? & [=] & ?).
Qed.

Lemma raise_if_Ok b e u : raise_if b e = Ok u <-> b = false.
Proof. destruct b, u; cbn; split; congruence. Qed.

(** ** Stateful computations

    A method that mutates [self] and may raise: the state reached is returned
    with the result also when it raises, since a Python exception does not
    undo the assignments made before it. *)
Definition st (S A : Type) : Type := S -> res A * S.

#[export] Instance st_ret {S} : MRet (st S) := fun A a s => (Ok a, s).
#[export] Instance st_bind {S} : MBind (st S) := fun A B f m s =>
  match m s with
  | (Ok a, s') => f a s'
  | (Raise e, s') => (Raise e, s')
  end.

Definition get {S} : st S S := fun s => (Ok s, s).
Definition put {S} (s : S) : st S unit := fun _ => (Ok tt, s).
Definition modify {S} (f : S -> S) : st S unit := fun s => (Ok tt, f s).
Definition lift {S A} (m : res A) : st S A := fun s => (m, s).
Definition throw {S A} (e : exn) : st S A := fun s => (Raise e, s).

(** [step m s s'] relates the states around a method call that returned. *)
Definition returns {S A} (m : st S A) (s : S) (a : A) (s' : S) : Prop :=
  m s = (Ok a, s').

Lemma st_bind_Ok {S A B} (f : A -> st S B) (m : st S A) s b s' :
  (m ≫= f) s = (Ok b, s') <-> exists a s1, m s = (Ok a, s1) /\ f a s1 = (Ok b, s').
Proof.
  unfold mbind, st_bind. destruct (m s) as [[a|e] s1]; split.
  - eauto.
  - by intros (? & ? & [= -> ->] & ?).
  - done.
  - by intros (? & ? & [=] & ?).
Qed.

(** Executions of a sequence of operations, exceptions included. *)
Inductive steps {S O : Type} (step : O -> S -> S) : S -> list O -> S -> Prop :=
| steps_nil s : steps step s [] s
| steps_cons s o s' os s'' :
    s' = step o s -> steps step s' os s'' -> steps step s (o :: os) s''.

Lemma steps_invariant {S O} (step : O -> S -> S) (I : S -> Prop) :
  (forall o s, I s -> I (step o s)) ->
  forall s os s', steps step s os s' -> I s -> I s'.
Proof. induction 2 as [|s o s' os s'' -> Hs IH]; eauto. Qed.

Lemma steps_foldl {S O} (step : O -> S -> S) s os : steps step s os (foldl (fun s o => step o s) s os).
Proof. revert s. induction os as [|o os IH]; intros s; [constructor|]. by econstructor. Qed.

(** ** Tactics of the development *)

(** Split a [match]/[if] of the goal or a hypothesis, keeping the equation. *)
Ltac split_match :=
  match goal with
  | |- context [match ?x with _ => _ end] => destruct x eqn:?
  | H : context [match ?x with _ => _ end] |- _ => destruct x eqn:?
  end.

(** Turn boolean comparisons in hypotheses and goal into propositions. *)
Ltac bool_to_prop :=
  repeat match goal with
  | H : (_ && _)%bool = true |- _ => apply andb_prop in H as [? ?]
  | H : (_ || _)%bool = false |- _ => apply orb_false_elim in H as [? ?]
  | H : negb _ = true |- _ => apply negb_true_iff in H
  | H : negb _ = false |- _ => apply negb_false_iff in H
  | H : Z.leb _ _ = true |- _ => apply Z.leb_le in H
  | H : Z.leb _ _ = false |- _ => apply Z.leb_gt in H
  | H : Z.ltb _ _ = true |- _ => apply Z.ltb_lt in H
  | H : Z.ltb _ _ = false |- _ => apply Z.ltb_ge in H
  | H : Z.eqb _ _ = true |- _ => apply Z.eqb_eq in H
  | H : Z.eqb _ _ = false |- _ => apply Z.eqb_neq in H
  | H : bool_decide _ = true |- _ => apply bool_decide_eq_true_1 in H
  | H : bool_decide _ = false |- _ => apply bool_decide_eq_false_1 in H
  | H : raise_if _ _ = Ok _ |- _ => apply raise_if_Ok in H
  end.

(** Invert a successful monadic computation in a hypothesis. *)
Ltac res_inv :=
  repeat match goal with
  | H : (_ ≫= _) = Ok _ |- _ =>
      apply res_bind_Ok in H; destruct H as (? & ? & ?)
  | H : Ok _ = Ok _ |- _ => injection H as H
  | H : Raise _ = Ok _ |- _ => discriminate H
  | H : Ok _ = Raise _ |- _ => discriminate H
  end; bool_to_prop; simplify_eq.

(** ** Python strings

    A [str] is modelled by Stdlib's [string], a list of 8-bit characters read
    as the code points 0..255. *)

(** [str.isspace] on the code points 0..255. *)
Definition is_space (c : Ascii.ascii) : bool :=
  let n := Ascii.N_of_ascii c in
  ((9 <=? n) && (n <=? 13))%N || ((28 <=? n) && (n <=? 32))%N
  || (n =? 133)%N || (n =? 160)%N.

(** [s.lstrip(chars)], [s.rstrip(chars)] and [s.strip(chars)] for the set of
    characters [p]. *)
Fixpoint lstrip_by (p : Ascii.ascii -> bool) (s : string) : string :=
  match s with
  | EmptyString => EmptyString
  | String c s' => if p c then lstrip_by p s' else s
  end.

Fixpoint rstrip_by (p : Ascii.ascii -> bool) (s : string) : string :=
  match s with
  | EmptyString => EmptyString
  | String c s' =>
      match rstrip_by p s' with
      | EmptyString => if p c then EmptyString else String c EmptyString
      | r => String c r
      end
  end.

Definition strip_by (p : Ascii.ascii -> bool) (s : string) : string :=
  rstrip_by p (lstrip_by p s).

(** [str.strip()] *)
Definition strip : string -> string := strip_by is_space.

Definition is_empty (s : string) : bool :=
  match s with EmptyString => true | _ => false end.

(** [x.strip() or None] *)
Definition strip_or_none (s : string) : option string :=
  if is_empty (strip s) then None else Some (strip s).

Definition map_ascii (f : Ascii.ascii -> Ascii.ascii) : string -> string :=
  fix go s := match s with
              | EmptyString => EmptyString
              | String c s' => String (f c) (go s')
              end.

(** [str.lower()] and [str.upper()]: ASCII letters; the characters above 127
    are left as they are (the strings the code folds are tool names, header
    keys and error codes). *)
Definition lower_ascii (c : Ascii.ascii) : Ascii.ascii :=
  let n := Ascii.N_of_ascii c in
  if ((65 <=? n) && (n <=? 90))%N then Ascii.ascii_of_N (n + 32) else c.
Definition upper_ascii (c : Ascii.ascii) : Ascii.ascii :=
  let n := Ascii.N_of_ascii c in
  if ((97 <=? n) && (n <=? 122))%N then Ascii.ascii_of_N (n - 32) else c.
Definition lower : string -> string := map_ascii lower_ascii.
Definition upper : string -> string := map_ascii upper_ascii.

(** The first character is not one of [p]. *)
Definition starts_solid (p : Ascii.ascii -> bool) (s : string) : bool :=
  match s with EmptyString => true | String c _ => negb (p c) end.

Lemma lstrip_solid p s : starts_solid p (lstrip_by p s) = true.
Proof. induction s as [|c s IH]; cbn; [done|]. by destruct (p c) eqn:E; cbn; rewrite ?E. Qed.

Lemma lstrip_id p s : starts_solid p s = true -> lstrip_by p s = s.
Proof. destruct s as [|c s]; cbn; [done|]. by destruct (p c). Qed.

Lemma rstrip_starts_solid p s : starts_solid p s = true -> starts_solid p (rstrip_by p s) = true.
Proof.
  destruct s as [|c s]; cbn; [done|]. intros H.
  destruct (rstrip_by p s); cbn; [|done].
  destruct (p c) eqn:E; cbn; by rewrite ?E.
Qed.

Lemma rstrip_idemp p s : rstrip_by p (rstrip_by p s) = rstrip_by p s.
Proof.
  induction s as [|c s IH]; cbn; [done|].
  destruct (rstrip_by p s) as [|c' r] eqn:E.
  - destruct (p c) eqn:Hc; [done|]. cbn. by rewrite Hc.
  - cbn in *. by rewrite IH.
Qed.

Lemma strip_by_idemp p s : strip_by p (strip_by p s) = strip_by p s.
Proof.
  unfold strip_by. rewrite (lstrip_id p (rstrip_by p _)).
  - apply rstrip_idemp.
  - apply rstrip_starts_solid, lstrip_solid.
Qed.

Lemma strip_idemp s : strip (strip s) = strip s.
Proof. apply strip_by_idemp. Qed.

(** Stripping a string none of whose characters is in [p] changes nothing. *)
Fixpoint all_chars (q : Ascii.ascii -> bool) (s : string) : bool :=
  match s with EmptyString => true | String c s' => q c && all_chars q s' end.

Lemma strip_by_id p s : all_chars (fun c => negb (p c)) s = true -> strip_by p s = s.
Proof.
  unfold strip_by. intros H. rewrite lstrip_id.
  - induction s as [|c s IH]; cbn in *; [done|].
    apply andb_prop in H as [Hc%negb_true_iff Hs]. rewrite IH by done.
    destruct s; [by rewrite Hc|done].
  - destruct s as [|c s]; cbn in *; [done|]. by apply andb_prop in H as [Hc _].
Qed.

Lemma is_empty_spec s : is_empty s = true <-> s = "".
Proof. destruct s; cbn; split; congruence. Qed.

Lemma strip_or_none_strip s t : strip_or_none s = Some t -> strip t = t /\ t <> "".
Proof.
  unfold strip_or_none. destruct (is_empty (strip s)) eqn:E; [done|].
  intros [= <-]. split; [apply strip_idemp|]. intros H. by rewrite H in E.
Qed.

Lemma strip_or_none_fix s : strip s = s -> s <> "" -> strip_or_none s = Some s.
Proof.
  unfold strip_or_none. intros -> ?. destruct (is_empty s) eqn:E; [|done].
  by apply is_empty_spec in E.
Qed.

(** ** Comparison of Python tuples

    [heapq] and [list.sort] compare tuples lexicographically with [<]. *)
Class PyOrd (A : Type) := pcmp : A -> A -> comparison.

Class PyOrdLaws (A : Type) `{PyOrd A} : Prop := {
  pcmp_eq : forall x y : A, pcmp x y = Eq -> x = y;
  pcmp_refl : forall x : A, pcmp x x = Eq;
  pcmp_antisym : forall x y : A, pcmp y x = CompOpp (pcmp x y);
  pcmp_trans : forall x y z : A, pcmp x y = Lt -> pcmp y z = Lt -> pcmp x z = Lt;
}.

(** [x <= y] *)
Definition ple {A} `{PyOrd A} (x y : A) : bool :=
  match pcmp x y with Gt => false | _ => true end.

#[export] Instance Z_PyOrd : PyOrd Z := Z.compare.
#[export] Instance string_PyOrd : PyOrd string := String.compare.
#[export] Instance pair_PyOrd {A B} `{PyOrd A, PyOrd B} : PyOrd (A * B) :=
  fun p q => match pcmp p.1 q.1 with Eq => pcmp p.2 q.2 | c => c end.

#[export] Instance Z_PyOrdLaws : PyOrdLaws Z.
Proof.
  split; unfold pcmp, Z_PyOrd; intros.
  - by apply Z.compare_eq_iff.
  - by apply Z.compare_refl.
  - apply Z.compare_antisym.
  - rewrite Z.compare_lt_iff in *. lia.
Qed.

#[export] Instance string_PyOrdLaws : PyOrdLaws string.
Proof.
  split; unfold pcmp, string_PyOrd; intros.
  - by apply String.compare_eq_iff.
  - pose proof (String.compare_antisym x x) as Hx. by destruct (String.compare x x).
  - apply String.compare_antisym.
  - eapply (StrictOrder_Transitive (StrictOrder := OrdersEx.String_as_OT.lt_strorder)); eauto.
Qed.

#[export] Instance pair_PyOrdLaws {A B} `{PyOrdLaws A, PyOrdLaws B} : PyOrdLaws (A * B).
Proof.
  split; unfold pcmp, pair_PyOrd.
  - intros [a b] [c d]; cbn. destruct (pcmp a c) eqn:E; [|done..].
    intros ->%pcmp_eq. by apply pcmp_eq in E as ->.
  - intros [a b]; cbn. by rewrite !pcmp_refl.
  - intros [a b] [c d]; cbn. rewrite (pcmp_antisym a c), (pcmp_antisym b d).
    by destruct (pcmp a c).
  - intros [a b] [c d] [e f]; cbn.
    destruct (pcmp a c) eqn:E1; [|intros _|done];
      destruct (pcmp c e) eqn:E2; try done; intros.
    + apply pcmp_eq in E1 as ->. rewrite E2. eauto using pcmp_trans.
    + apply pcmp_eq in E1 as ->. by rewrite E2.
    + apply pcmp_eq in E2 as <-. by rewrite E1.
    + by rewrite (pcmp_trans _ _ _ E1 E2).
Qed.

Section order.
Context {A : Type} `{PyOrdLaws A}.

Lemma ple_refl (x : A) : ple x x = true.
Proof. unfold ple. by rewrite pcmp_refl. Qed.

Lemma ple_false (x y : A) : ple x y = false -> ple y x = true.
Proof. unfold ple. rewrite (pcmp_antisym x y). by destruct (pcmp x y). Qed.

Lemma ple_trans (x y z : A) : ple x y = true -> ple y z = true -> ple x z = true.
Proof.
  unfold ple. destruct (pcmp x y) eqn:E1; [| |done]; destruct (pcmp y z) eqn:E2; try done; intros _ _.
  - apply pcmp_eq in E1 as ->, E2 as ->. by rewrite pcmp_refl.
  - apply pcmp_eq in E1 as ->. by rewrite E2.
  - apply pcmp_eq in E2 as <-. by rewrite E1.
  - by rewrite (pcmp_trans _ _ _ E1 E2).
Qed.

Lemma ple_antisym (x y : A) : ple x y = true -> ple y x = true -> x = y.
Proof.
  unfold ple. rewrite (pcmp_antisym x y). destruct (pcmp x y) eqn:E; [|done..].
  intros _ _. by apply pcmp_eq.
Qed.
End order.

(** A tuple that is not greater has a first component that is not greater. *)
Lemma ple_fst {B} `{PyOrd B} (x y : Z * B) : ple x y = true -> x.1 <= y.1.
Proof.
  destruct x as [a r], y as [a' r']. unfold ple, pcmp, pair_PyOrd. unfold pcmp at 1, Z_PyOrd at 1.
  cbn [fst]. intros Hp. destruct (Z.compare_spec a a'); [lia|lia|done].
Qed.

(** ** [heapq]

    A heap is observed through [heappush], [heappop] (which returns a smallest
    element) and [h[0]]; it is modelled by the sorted list of its elements. *)
Section heap.
Context {A : Type} `{PyOrdLaws A}.

Fixpoint heappush (x : A) (h : list A) : list A :=
  match h with
  | [] => [x]
  | y :: h' => if ple x y then x :: h else y :: heappush x h'
  end.

Definition heappop (h : list A) : option (A * list A) :=
  match h with [] => None | x :: h' => Some (x, h') end.

(** Every element is at least the head. *)
Definition heap_ok : list A -> Prop := StronglySorted (fun x y => ple x y = true).

Lemma heappush_perm x h : heappush x h ≡ₚ x :: h.
Proof.
  induction h as [|y h IH]; cbn; [done|]. destruct (ple x y); [done|].
  rewrite IH. by apply perm_swap.
Qed.

Lemma elem_of_heappush x y h : y ∈ heappush x h <-> y = x \/ y ∈ h.
Proof. rewrite heappush_perm. set_solver. Qed.

Lemma heappush_ok x h : heap_ok h -> heap_ok (heappush x h).
Proof.
  unfold heap_ok. induction 1 as [|y h Hs IH Hall]; cbn; [by repeat constructor|].
  destruct (ple x y) eqn:E.
  - constructor; [by constructor|]. constructor; [done|].
    eapply Forall_impl; [exact Hall|]. cbn. intros z Hz. by eapply ple_trans.
  - constructor; [done|]. rewrite heappush_perm. constructor; [by apply ple_false|done].
Qed.

Lemma heappop_ok x h h' : heappop h = Some (x, h') -> heap_ok h ->
  heap_ok h' /\ (forall y, y ∈ h' -> ple x y = true) /\ h = x :: h'.
Proof.
  unfold heap_ok. destruct h as [|y h]; cbn; [done|]. intros [= -> ->].
  inversion 1; subst. split_and!; [done| |done]. by apply Forall_forall.
Qed.
End heap.
#[export] Hint Resolve heappush_ok : py.

(** [x is not None] *)
Definition is_set {A} (x : option A) : bool := match x with Some _ => true | None => false end.

Lemma is_set_true {A} (x : option A) : is_set x = true <-> x <> None.
Proof. by destruct x. Qed.
Lemma is_set_false {A} (x : option A) : is_set x = false <-> x = None.
Proof. by destruct x. Qed.

(** ** Lists *)
Lemma filter_all {A} (P : A -> Prop) `{!forall x, Decision (P x)} (l : list A) :
  Forall P l -> filter P l = l.
Proof.
  induction 1 as [|x l Hx Hl IH]; [done|]. by rewrite filter_cons_True, IH.
Qed.

(** ** Python dictionaries that are iterated

    A [dict] or [OrderedDict] whose order is observed: an association list in
    insertion order. [aset] overwrites in place, [move_to_end] and
    [popitem_first] are those of [OrderedDict]. *)
Section odict.
Context {K : Type} `{EqDecision K} {V : Type}.
Implicit Types (d : list (K * V)) (k : K).

Fixpoint aget k d : option V :=
  match d with
  | [] => None
  | (k', v) :: d' => if decide (k = k') then Some v else aget k d'
  end.

Fixpoint aset k (v : V) d : list (K * V) :=
  match d with
  | [] => [(k, v)]
  | (k', v') :: d' => if decide (k = k') then (k, v) :: d' else (k', v') :: aset k v d'
  end.

Fixpoint adel k d : list (K * V) :=
  match d with
  | [] => []
  | (k', v') :: d' => if decide (k = k') then d' else (k', v') :: adel k d'
  end.

Definition move_to_end k d : list (K * V) :=
  match aget k d with None => d | Some v => adel k d ++ [(k, v)] end.

Definition popitem_first d : list (K * V) := tail d.

Definition keys d : list K := d.*1.

Lemma aget_None k d : aget k d = None <-> k ∉ keys d.
Proof.
  unfold keys. induction d as [|[k' v] d IH]; cbn; [set_solver|].
  destruct (decide (k = k')) as [->|]; set_solver.
Qed.

Lemma aget_Some_elem k v d : aget k d = Some v -> (k, v) ∈ d.
Proof.
  induction d as [|[k' v'] d IH]; cbn; [done|].
  destruct (decide (k = k')) as [->|]; [|set_solver]. intros [= ->]. set_solver.
Qed.

Lemma elem_aget k v d : NoDup (keys d) -> (k, v) ∈ d -> aget k d = Some v.
Proof.
  unfold keys. induction d as [|[k' v'] d IH]; cbn; [set_solver|].
  intros [Hn Hd]%NoDup_cons [[= -> ->]|Hin]%elem_of_cons.
  - by rewrite decide_True.
  - rewrite decide_False; [by apply IH|]. intros ->. apply Hn.
    apply list_elem_of_fmap. by exists (k', v).
Qed.

Lemma aget_aset k k' v d : aget k' (aset k v d) = if decide (k' = k) then Some v else aget k' d.
Proof.
  induction d as [|[k0 v0] d IH]; cbn; [by repeat case_decide; simplify_eq|].
  destruct (decide (k = k0)) as [->|]; cbn; repeat case_decide; simplify_eq; try done;
    rewrite IH; by rewrite ?decide_True, ?decide_False by done.
Qed.

Lemma keys_aset k v d :
  keys (aset k v d) = if decide (k ∈ keys d) then keys d else keys d ++ [k].
Proof.
  unfold keys. induction d as [|[k0 v0] d IH]; cbn; [done|].
  destruct (decide (k = k0)) as [->|Hne]; cbn.
  - rewrite decide_True by set_solver. done.
  - rewrite IH. repeat case_decide; try done; set_solver.
Qed.

Lemma NoDup_keys_aset k v d : NoDup (keys d) -> NoDup (keys (aset k v d)).
Proof.
  intros Hd. rewrite keys_aset. case_decide; [done|].
  apply NoDup_app. split_and!; [done|set_solver|apply NoDup_singleton].
Qed.

Lemma keys_adel k d : NoDup (keys d) ->
  keys (adel k d) = filter (fun k' => k' <> k) (keys d).
Proof.
  unfold keys. induction d as [|[k0 v0] d IH]; [done|].
  rewrite fmap_cons; cbn [fst adel]. intros [Hn Hd]%NoDup_cons.
  destruct (decide (k = k0)) as [->|Hne].
  - rewrite filter_cons_False by auto. symmetry. apply filter_all.
    apply Forall_forall. intros x Hx ->. done.
  - rewrite fmap_cons, filter_cons_True by auto. cbn [fst]. by rewrite <- IH.
Qed.

Lemma aget_adel k k' d : NoDup (keys d) ->
  aget k' (adel k d) = if decide (k' = k) then None else aget k' d.
Proof.
  unfold keys. induction d as [|[k0 v0] d IH]; cbn; [by case_decide|].
  intros [Hn Hd]%NoDup_cons. destruct (decide (k = k0)) as [->|Hne]; cbn.
  - case_decide as E; [subst|done]. by apply aget_None.
  - rewrite IH by done. repeat case_decide; simplify_eq; done.
Qed.

Lemma NoDup_keys_adel k d : NoDup (keys d) -> NoDup (keys (adel k d)).
Proof. intros. rewrite keys_adel by done. by apply NoDup_filter. Qed.

Lemma length_adel k v d : aget k d = Some v -> length d = S (length (adel k d)).
Proof.
  induction d as [|[k0 v0] d IH]; cbn; [done|]. case_decide; [done|].
  intros Hk. cbn. by rewrite <- IH.
Qed.

Lemma keys_move_to_end k d : NoDup (keys d) -> k ∈ keys d ->
  keys (move_to_end k d) = filter (fun k' => k' <> k) (keys d) ++ [k].
Proof.
  intros Hd Hk. unfold move_to_end. destruct (aget k d) eqn:E.
  - unfold keys. rewrite fmap_app. cbn. f_equal. by apply keys_adel.
  - by apply aget_None in E.
Qed.

Lemma NoDup_keys_move_to_end k d : NoDup (keys d) -> NoDup (keys (move_to_end k d)).
Proof.
  intros Hd. destruct (decide (k ∈ keys d)) as [Hk|Hk].
  - rewrite keys_move_to_end by done. apply NoDup_app.
    split_and!; [by apply NoDup_filter| |apply NoDup_singleton].
    intros x Hx. apply list_elem_of_filter in Hx. set_solver.
  - unfold move_to_end. apply aget_None in Hk. by rewrite Hk.
Qed.

Lemma aget_app k d1 d2 :
  aget k (d1 ++ d2) = match aget k d1 with Some v => Some v | None => aget k d2 end.
Proof. induction d1 as [|[k0 v0] d1 IH]; cbn; [done|]. by case_decide. Qed.

Lemma aget_move_to_end k k' d : NoDup (keys d) -> aget k' (move_to_end k d) = aget k' d.
Proof.
  intros Hd. unfold move_to_end. destruct (aget k d) eqn:E; [|done].
  rewrite aget_app, aget_adel by done. case_decide; subst; cbn.
  - by rewrite decide_True.
  - destruct (aget k' d); [done|]. by rewrite decide_False.
Qed.

Lemma length_move_to_end k d : length (move_to_end k d) = length d.
Proof.
  unfold move_to_end. destruct (aget k d) eqn:E; [|done].
  rewrite length_app; cbn. rewrite (length_adel k v d) by done. lia.
Qed.
End odict.
#[export] Hint Resolve NoDup_keys_aset NoDup_keys_adel NoDup_keys_move_to_end : py.
