(* ===== verification/PyFloat.v ===== *)
(** * Python floats

    A Python [float] is an IEEE 754 binary64 number: the model is Stdlib's
    [spec_float] at precision 53 and maximal exponent 1024, with the correctly
    rounded operations of [SpecFloat]. The file gives the conversions the code
    uses ([float(int)], [int(float)], [math.isfinite], [min], [max]) and the
    ordering and rounding lemmas the guards rely on: the order of the
    comparisons, the sign of sums, products and quotients, the fact that
    rounded results are again binary64 numbers, and [fsub_between], the exact
    bounds of a subtraction that does not cross zero. *)

From Stdlib Require Import ZArith SpecFloat Lia.
From S2P Require Import Prelude.

Definition prec : Z := 53.
Definition emax : Z := 1024.

Definition fadd : spec_float -> spec_float -> spec_float := SFadd prec emax.
Definition fsub : spec_float -> spec_float -> spec_float := SFsub prec emax.
Definition fmul : spec_float -> spec_float -> spec_float := SFmul prec emax.
Definition fdiv : spec_float -> spec_float -> spec_float := SFdiv prec emax.
(** [x < y], [x <= y] and [x == y]; all false on a NaN. *)
Definition flt : spec_float -> spec_float -> bool := SFltb.
Definition fle : spec_float -> spec_float -> bool := SFleb.
Definition feq : spec_float -> spec_float -> bool := SFeqb.

(** A number Python can hold in a [float] (the bit pattern exists). *)
Definition fvalid (x : spec_float) : bool := valid_binary prec emax x.

(** [math.isfinite] *)
Definition isfinite (x : spec_float) : bool :=
  match x with S754_zero _ | S754_finite _ _ _ => true | _ => false end.
Definition isnan (x : spec_float) : bool :=
  match x with S754_nan => true | _ => false end.

Definition fzero : spec_float := S754_zero false.
(** [n] rounded to nearest even. *)
Definition of_Z (n : Z) : spec_float := binary_normalize prec emax n 0 false.

(** [float(n)] of an [int]. *)
Definition float_of_int (n : Z) : res spec_float :=
  if isfinite (of_Z n) then Ok (of_Z n)
  else Raise (OverflowError "int too large to convert to float").

(** Truncation towards zero of a finite number. *)
Definition ftrunc (x : spec_float) : Z :=
  match x with
  | S754_finite s m e => cond_Zopp s (Z.shiftl (Zpos m) e)
  | _ => 0
  end.

(** [int(x)] of a [float]. *)
Definition int_of_float (x : spec_float) : res Z :=
  match x with
  | S754_nan => Raise (ValueError "cannot convert float NaN to integer")
  | S754_infinity _ => Raise (OverflowError "cannot convert float infinity to integer")
  | _ => Ok (ftrunc x)
  end.

(** The builtins [min(a, b)] and [max(a, b)]: the first argument is kept
    unless the second one is strictly smaller (larger). *)
Definition fmin (a b : spec_float) : spec_float := if flt b a then b else a.
Definition fmax (a b : spec_float) : spec_float := if flt a b then b else a.

(** The literal [n / d], for decimal literals such as [0.1]. *)
Definition lit (n d : Z) : spec_float := fdiv (of_Z n) (of_Z d).

Example lit_01 : lit 1 10 = S754_finite false 7205759403792794 (-56).
Proof. reflexivity. Qed.
Example int_trunc : map int_of_float [lit 29 10; lit (-29) 10; of_Z 7] = [Ok 2; Ok (-2); Ok 7].
Proof. reflexivity. Qed.

(** ** The order *)

Lemma fcompare_antisym x y :
  SFcompare y x = option_map CompOpp (SFcompare x y).
Proof.
  destruct x as [|[]| |[] mx ex], y as [|[]| |[] my ey]; cbn; try done;
    rewrite (Z.compare_antisym ex ey); destruct (ex ?= ey) eqn:E; cbn; try done;
    change (Pos.compare_cont Eq my mx) with (Pos.compare my mx);
    change (Pos.compare_cont Eq mx my) with (Pos.compare mx my);
    rewrite (Pos.compare_antisym mx my); by rewrite ?CompOpp_involutive.
Qed.

Lemma fle_refl x : isnan x = false -> fle x x = true.
Proof.
  destruct x as [|[]| |[] m e]; try done; intros _; unfold fle, SFleb; cbn;
    rewrite Z.compare_refl; change (Pos.compare_cont Eq m m) with (Pos.compare m m);
    by rewrite Pos.compare_refl.
Qed.

Lemma flt_fle x y : flt x y = true -> fle x y = true.
Proof. unfold flt, fle, SFltb, SFleb. by destruct (SFcompare x y) as [[]|]. Qed.

Lemma fle_notnan x y : fle x y = true -> isnan x = false /\ isnan y = false.
Proof. by destruct x as [| | |], y as [| | |]. Qed.

Lemma flt_irrefl x : flt x x = false.
Proof.
  destruct (isnan x) eqn:E; [by destruct x|].
  apply fle_refl in E. unfold flt, fle, SFltb, SFleb in *.
  pose proof (fcompare_antisym x x) as H. by destruct (SFcompare x x) as [[]|].
Qed.

Lemma flt_not_ge x y : flt x y = true -> fle y x = false.
Proof.
  unfold flt, fle, SFltb, SFleb. rewrite (fcompare_antisym x y).
  by destruct (SFcompare x y) as [[]|].
Qed.

Lemma flt_false_fle x y :
  isnan x = false -> isnan y = false -> flt x y = false -> fle y x = true.
Proof.
  intros Hx Hy. unfold flt, fle, SFltb, SFleb. rewrite (fcompare_antisym x y).
  destruct (SFcompare x y) as [[]|] eqn:E; try done.
  by destruct x as [|[]| |[]], y as [|[]| |[]].
Qed.

(** Lexicographic comparison of (exponent, mantissa). *)
Lemma fcompare_mag_trans ex mx ey my ez mz :
  let c e m e' m' := match e ?= e' with Eq => (m ?= m')%positive | r => r end in
  c ex mx ey my <> Gt -> c ey my ez mz <> Gt -> c ex mx ez mz <> Gt.
Proof.
  cbn. intros H1 H2.
  destruct (Z.compare_spec ex ey), (Z.compare_spec ey ez), (Z.compare_spec ex ez);
    subst; try done; try lia; try (rewrite Pos.compare_gt_iff in *; lia).
Qed.

Lemma fle_trans x y z : fle x y = true -> fle y z = true -> fle x z = true.
Proof.
  unfold fle, SFleb.
  destruct x as [|[]| |[] mx ex], y as [|[]| |[] my ey], z as [|[]| |[] mz ez];
    cbn; try done; unfold Pos.compare_cont; fold Pos.compare_cont;
    change (Pos.compare_cont Eq) with Pos.compare; intros H1 H2.
  - pose proof (fcompare_mag_trans ez mz ey my ex mx) as T; cbn in T.
    rewrite (Z.compare_antisym ex ey), (Z.compare_antisym ey ez), (Z.compare_antisym ex ez),
      (Pos.compare_antisym mx my), (Pos.compare_antisym my mz), (Pos.compare_antisym mx mz) in T.
    destruct (ex ?= ey), (ey ?= ez), (ex ?= ez), (mx ?= my)%positive, (my ?= mz)%positive,
      (mx ?= mz)%positive; cbn in *; try done; exfalso; by apply T.
  - pose proof (fcompare_mag_trans ex mx ey my ez mz) as T; cbn in T.
    destruct (ex ?= ey), (ey ?= ez), (ex ?= ez), (mx ?= my)%positive, (my ?= mz)%positive,
      (mx ?= mz)%positive; cbn in *; try done; exfalso; by apply T.
Qed.

Lemma fmin_le_l a b : isnan a = false -> isnan b = false -> fle (fmin a b) a = true.
Proof.
  intros Ha Hb. unfold fmin. destruct (flt b a) eqn:E; [by apply flt_fle|by apply fle_refl].
Qed.

Lemma fmin_le_r a b : isnan a = false -> isnan b = false -> fle (fmin a b) b = true.
Proof.
  intros Ha Hb. unfold fmin. destruct (flt b a) eqn:E; [by apply fle_refl|].
  by apply flt_false_fle.
Qed.

Lemma fmin_ge c a b : fle c a = true -> fle c b = true -> fle c (fmin a b) = true.
Proof. unfold fmin. by destruct (flt b a). Qed.

Lemma fmax_ge_l a b : isnan a = false -> fle a (fmax a b) = true.
Proof. intros Ha. unfold fmax. destruct (flt a b) eqn:E; [by apply flt_fle|by apply fle_refl]. Qed.

(** A number is non-negative when its sign bit is clear or it is a zero. *)
Lemma fnonneg_iff x :
  fle fzero x = true <->
  match x with S754_zero _ | S754_finite false _ _ | S754_infinity false => True | _ => False end.
Proof. by destruct x as [|[]| |[]]. Qed.

#[export] Hint Resolve fle_refl flt_fle fmin_le_l fmin_le_r fmin_ge : py.

(** ** Rounding *)

Lemma digits2_log2 (p : positive) : Zpos (digits2_pos p) = Z.log2 (Zpos p) + 1.
Proof.
  induction p as [p IH|p IH|]; [| |done]; cbn [digits2_pos].
  - rewrite Pos2Z.inj_succ, IH, (Pos2Z.inj_xI p). rewrite Z.log2_succ_double; lia.
  - rewrite Pos2Z.inj_succ, IH, (Pos2Z.inj_xO p). rewrite Z.log2_double; lia.
Qed.

(** [digits m] is the number of bits of a mantissa. *)
Definition digits (m : Z) : Z := Zdigits2 m.

Lemma digits_spec m : 0 < m -> 2 ^ (digits m - 1) <= m < 2 ^ digits m.
Proof.
  intros Hm. destruct m as [|p|p]; try lia. unfold digits, Zdigits2. rewrite digits2_log2.
  replace (Z.log2 (Zpos p) + 1 - 1) with (Z.log2 (Zpos p)) by lia.
  pose proof (Z.log2_spec (Zpos p)) as H. rewrite <- Z.add_1_r in H. by apply H.
Qed.

Lemma digits_pos m : 0 < m -> 0 < digits m.
Proof.
  intros Hm. destruct m as [|p|p]; try lia. unfold digits, Zdigits2. lia.
Qed.

(** Characterisation of [digits] by powers of two. *)
Lemma digits_le m d : 0 < m -> 0 <= d -> (digits m <= d <-> m < 2 ^ d).
Proof.
  intros Hm Hd. pose proof (digits_spec m Hm). pose proof (digits_pos m Hm). split; intros H1.
  - assert (2 ^ digits m <= 2 ^ d) by (apply Z.pow_le_mono_r; lia). lia.
  - destruct (Z.le_gt_cases (digits m) d) as [|Hlt]; [done|].
    assert (2 ^ d <= 2 ^ (digits m - 1)) by (apply Z.pow_le_mono_r; lia). lia.
Qed.

Lemma digits_unique m d : 0 < m -> 0 < d -> 2 ^ (d - 1) <= m < 2 ^ d -> digits m = d.
Proof.
  intros Hm Hd [H1 H2]. apply Z.le_antisymm; [by apply digits_le; lia|].
  destruct (Z.le_gt_cases d (digits m)) as [|Hlt]; [done|].
  assert (digits m <= d - 1) as H3%digits_le by lia; lia.
Qed.

Lemma digits_shl m k : 0 < m -> 0 <= k -> digits (m * 2 ^ k) = digits m + k.
Proof.
  intros Hm Hk. pose proof (digits_spec m Hm). pose proof (digits_pos m Hm).
  pose proof (Z.pow_pos_nonneg 2 k).
  apply digits_unique; [nia|lia|].
  replace (digits m + k - 1) with (digits m - 1 + k) by lia.
  rewrite !Z.pow_add_r by lia. nia.
Qed.

Lemma digits_shr m k : 0 < m -> 0 <= k < digits m ->
  0 < m / 2 ^ k /\ digits (m / 2 ^ k) = digits m - k.
Proof.
  intros Hm Hk. pose proof (digits_spec m Hm) as [H1 H2].
  assert (0 < 2 ^ k) by (apply Z.pow_pos_nonneg; lia).
  assert (2 ^ (digits m - k - 1) <= m / 2 ^ k) as H3.
  { apply Z.div_le_lower_bound; [done|]. rewrite <- Z.pow_add_r by lia.
    replace (k + (digits m - k - 1)) with (digits m - 1) by lia. lia. }
  assert (m / 2 ^ k < 2 ^ (digits m - k)) as H4.
  { apply Z.div_lt_upper_bound; [done|]. rewrite <- Z.pow_add_r by lia.
    replace (k + (digits m - k)) with (digits m) by lia. lia. }
  assert (0 < 2 ^ (digits m - k - 1)) by (apply Z.pow_pos_nonneg; lia).
  split; [lia|]. apply digits_unique; lia.
Qed.

Lemma digits_mono m m' : 0 < m <= m' -> digits m <= digits m'.
Proof. intros H. apply digits_le; [lia|..]; pose proof (digits_spec m'); pose proof (digits_pos m'); lia. Qed.

(** The exponent binary64 gives to a number of [d] bits: [fexp (d + e)]. *)
Notation fexp64 := (fexp prec emax).

Lemma fexp64_eq x : fexp64 x = Z.max (x - 53) (-1074).
Proof. done. Qed.

Lemma shl_align_eq m e e' :
  shl_align m e e' = if e' <? e then (Z.to_pos (Zpos m * 2 ^ (e - e')), e') else (m, e).
Proof.
  unfold shl_align. destruct (Z.ltb_spec e' e) as [H|H]; destruct (e' - e) as [|d|d] eqn:E; try lia; try done.
  f_equal. apply Pos2Z.inj. assert (e - e' = Zpos d) as -> by lia.
  assert (0 < 2 ^ Zpos d) by (apply Z.pow_pos_nonneg; lia). rewrite Z2Pos.id by nia.
  clear. induction d as [|d IHd] using Pos.peano_ind; [cbn; lia|].
  rewrite Pos.iter_succ, Pos2Z.inj_succ, Z.pow_succ_r, (Pos2Z.inj_xO (Pos.iter _ _ _)), IHd by lia.
  lia.
Qed.

(** Shifting right keeps the quotient, and is exact when nothing is lost. *)
Definition shr_inv (m : Z) (k : Z) (r : shr_record) : Prop :=
  shr_m r = m / 2 ^ k /\ (loc_of_shr_record r = loc_Exact <-> m mod 2 ^ k = 0).

Lemma shr_1_inv m k r : 0 <= m -> 0 <= k -> shr_inv m k r -> shr_inv m (k + 1) (shr_1 r).
Proof.
  intros Hm Hk [H1 H2]. destruct r as [q rb s]. cbn in H1. unfold shr_inv.
  assert (0 < 2 ^ k) by (apply Z.pow_pos_nonneg; lia).
  rewrite Z.pow_add_r, Z.pow_1_r by lia.
  assert (m / (2 ^ k * 2) = q / 2) as -> by (rewrite <- Z.div_div, <- H1; lia).
  assert (m mod (2 ^ k * 2) = 2 ^ k * (q mod 2) + m mod 2 ^ k) as ->
    by (rewrite Z.rem_mul_r, <- H1; lia).
  assert (0 <= q) by (subst; by apply Z.div_pos).
  assert (0 <= m mod 2 ^ k < 2 ^ k) by (apply Z.mod_pos_bound; lia).
  assert ((rb || s)%bool = false <-> m mod 2 ^ k = 0) as Hs.
  { rewrite <- H2. by destruct rb, s. }
  assert (forall a b : Z, (q = 2 * a + b /\ (b = 0 \/ b = 1)) -> q / 2 = a /\ q mod 2 = b) as Hq
    by (intros a b Hab; Z.to_euclidean_division_equations; lia).
  destruct q as [|[p|p|]|]; try lia; cbn [shr_1 shr_m].
  - destruct (Hq 0 0) as [-> ->]; [lia|]. rewrite Z.mul_0_r, Z.add_0_l, <- Hs. by destruct rb, s.
  - destruct (Hq (Zpos p) 1) as [-> ->]; [lia|]. split; [done|].
    cbn. destruct (rb || s)%bool; split; try done; lia.
  - destruct (Hq (Zpos p) 0) as [-> ->]; [lia|].
    rewrite Z.mul_0_r, Z.add_0_l, <- Hs. by destruct rb, s.
  - destruct (Hq 0 1) as [-> ->]; [lia|]. split; [done|].
    cbn. destruct (rb || s)%bool; split; try done; lia.
Qed.

Lemma shr_iter_inv m p r k : 0 <= m -> 0 <= k -> shr_inv m k r ->
  shr_inv m (k + Zpos p) (SpecFloat.iter_pos shr_1 p r).
Proof.
  intros Hm. revert r k. induction p as [p IH|p IH|]; intros r k Hk Hr; cbn [SpecFloat.iter_pos].
  - replace (k + Zpos p~1) with (k + 1 + Zpos p + Zpos p) by lia.
    apply IH; [lia|]. apply IH; [lia|]. by apply shr_1_inv.
  - replace (k + Zpos p~0) with (k + Zpos p + Zpos p) by lia. apply IH; [lia|]. by apply IH.
  - by apply shr_1_inv.
Qed.

(** [shr_fexp] of an exact mantissa brings it to the exponent of its size,
    when that exponent is larger. *)
Lemma shr_fexp_spec m e : 0 <= m ->
  let n := Z.max 0 (fexp64 (digits m + e) - e) in
  exists r, shr_fexp prec emax m e loc_Exact = (r, e + n) /\ shr_inv m n r.
Proof.
  intros Hm n. unfold shr_fexp, shr. fold (digits m).
  assert (shr_inv m 0 (shr_record_of_loc m loc_Exact)) as H0.
  { split; cbn; [by rewrite Z.div_1_r|]. by rewrite Z.mod_1_r. }
  subst n. destruct (fexp64 (digits m + e) - e) as [|p|p].
  - eexists. rewrite Z.add_0_r. split; [done|]. apply H0.
  - eexists. split; [done|]. apply (shr_iter_inv m p _ 0); [done..|].  apply H0.
  - eexists. rewrite Z.add_0_r. split; [done|]. apply H0.
Qed.

Lemma round_nearest_even_bounds q l :
  q <= round_nearest_even q l <= q + 1 /\ (l = loc_Exact -> round_nearest_even q l = q).
Proof. destruct l as [|[]]; cbn; [| |lia..|]; try (destruct (Z.even q)); split; try lia; done. Qed.

(** The two shifts of [binary_round_aux]: [m * 2^e] rounded to the exponent
    [e1], renormalised to [e2] when rounding carried. *)
Record rounded (m e m1 e1 m2 e2 : Z) : Prop := {
  rnd_e1 : e1 = Z.max e (fexp64 (digits m + e));
  rnd_lo : m / 2 ^ (e1 - e) <= m1;
  rnd_hi : m1 <= m / 2 ^ (e1 - e) + 1;
  rnd_exact : m mod 2 ^ (e1 - e) = 0 -> m1 = m / 2 ^ (e1 - e);
  rnd_e2 : e2 = Z.max e1 (fexp64 (digits m1 + e1));
  rnd_m2 : m2 = m1 / 2 ^ (e2 - e1);
}.

Lemma binary_round_aux_rounded s m e : 0 < m ->
  exists m1 e1 m2 e2, rounded m e m1 e1 m2 e2 /\ 0 <= m2 /\
    binary_round_aux prec emax s m e loc_Exact =
      match m2 with
      | Zpos p => if e2 <=? 971 then S754_finite s p e2 else S754_infinity s
      | _ => S754_zero s
      end.
Proof.
  intros Hm. unfold binary_round_aux.
  destruct (shr_fexp_spec m e) as (r & -> & Hr1 & Hr2); [lia|].
  set (n := Z.max 0 (fexp64 (digits m + e) - e)) in *.
  assert (0 < 2 ^ n) by (apply Z.pow_pos_nonneg; lia).
  assert (0 <= m / 2 ^ n) by (apply Z.div_pos; lia).
  pose proof (round_nearest_even_bounds (shr_m r) (loc_of_shr_record r)) as [Hb He].
  set (m1 := round_nearest_even _ _) in *.
  destruct (shr_fexp_spec m1 (e + n)) as (r2 & -> & Hr3 & _); [lia|].
  set (n2 := Z.max 0 (fexp64 (digits m1 + (e + n)) - (e + n))) in *.
  assert (0 < 2 ^ n2) by (apply Z.pow_pos_nonneg; lia).
  assert (0 <= m1 / 2 ^ n2) by (apply Z.div_pos; lia).
  exists m1, (e + n), (m1 / 2 ^ n2), (e + n + n2). split_and!.
  - split.
    + lia.
    + replace (e + n - e) with n by lia. lia.
    + replace (e + n - e) with n by lia. lia.
    + replace (e + n - e) with n by lia. intros Hz. rewrite He by tauto. lia.
    + lia.
    + by replace (e + n + n2 - (e + n)) with n2 by lia.
  - done.
  - rewrite Hr3. by destruct (m1 / 2 ^ n2).
Qed.

(** Rounding never passes a representable bound. *)
Lemma rounded_bound m e m1 e1 m2 e2 mx ex :
  0 < m -> rounded m e m1 e1 m2 e2 ->
  0 < mx -> fexp64 (digits mx + ex) = ex -> e <= ex -> m <= mx * 2 ^ (ex - e) ->
  e2 <= ex /\ m2 <= mx * 2 ^ (ex - e2).
Proof.
  intros Hm [He1 Hlo Hhi Hex He2 Hm2] Hmx Hcan Hle Hb.
  assert (digits m <= digits mx + (ex - e)) as Hd.
  { rewrite <- digits_shl by lia. apply digits_mono. lia. }
  assert (e1 <= ex) by (rewrite fexp64_eq in *; lia).
  assert (0 < 2 ^ (e1 - e)) by (apply Z.pow_pos_nonneg; lia).
  assert (0 < 2 ^ (ex - e1)) by (apply Z.pow_pos_nonneg; lia).
  assert (mx * 2 ^ (ex - e) = mx * 2 ^ (ex - e1) * 2 ^ (e1 - e)) as Heq.
  { rewrite <- Z.mul_assoc, <- Z.pow_add_r by lia. do 2 f_equal. lia. }
  assert (m1 <= mx * 2 ^ (ex - e1)) as Hm1.
  { pose proof (Z.div_mod m (2 ^ (e1 - e))) as Hdm.
    pose proof (Z.mod_pos_bound m (2 ^ (e1 - e))) as Hmod.
    destruct (Z.eq_dec (m mod 2 ^ (e1 - e)) 0) as [Hz|Hz]; [specialize (Hex Hz)|]; nia. }
  assert (0 <= m1) by (pose proof (Z.div_pos m (2 ^ (e1 - e))); lia).
  assert (e2 <= ex).
  { destruct (Z.eq_dec m1 0) as [->|]; [cbn in He2; rewrite fexp64_eq in *; lia|].
    assert (digits m1 <= digits mx + (ex - e1)); [|rewrite fexp64_eq in *; lia].
    rewrite <- digits_shl by lia. apply digits_mono. lia. }
  split; [done|].
  assert (0 < 2 ^ (e2 - e1)) by (apply Z.pow_pos_nonneg; lia).
  rewrite Hm2. apply Z.div_le_upper_bound; [done|].
  replace (2 ^ (e2 - e1) * (mx * 2 ^ (ex - e2))) with (mx * 2 ^ (ex - e1)); [done|].
  replace (ex - e1) with (e2 - e1 + (ex - e2)) by lia. rewrite Z.pow_add_r by lia. lia.
Qed.

(** The rounded mantissa has the exponent of its size. *)
Lemma rounded_canonical m e m1 e1 m2 e2 :
  0 < m -> e <= fexp64 (digits m + e) -> rounded m e m1 e1 m2 e2 -> 0 < m2 ->
  fexp64 (digits m2 + e2) = e2.
Proof.
  intros Hm Hge [He1 Hlo Hhi _ He2 Hm2] Hpos. rewrite !fexp64_eq in *.
  pose proof (digits_pos m Hm). set (n := e1 - e) in *.
  assert (0 < 2 ^ n) by (apply Z.pow_pos_nonneg; lia).
  assert (0 < m1) by (destruct (Z.le_gt_cases m1 0); [exfalso|lia];
    assert (m1 / 2 ^ (e2 - e1) <= 0); [apply Z.div_le_upper_bound|]; try nia;
    pose proof (Z.pow_pos_nonneg 2 (e2 - e1)); lia).
  assert (digits m1 <= 54 /\ (digits m1 = 54 -> m1 = 2 ^ 53)
          /\ (e1 = -1074 \/ 53 <= digits m1)) as (Hd1 & Hd2 & Hd3).
  { destruct (Z.lt_ge_cases n (digits m)) as [Hn|Hn].
    - destruct (digits_shr m n) as [Hq Hdq]; [lia..|].
      assert (digits (m / 2 ^ n) <= 53) as Hq53%digits_le by lia; [|lia..].
      pose proof (digits_mono (m / 2 ^ n) m1).
      split_and!; [apply digits_le; lia| |lia].
      intros H54. destruct (Z.lt_ge_cases m1 (2 ^ 53)) as [Hlt|]; [|lia].
      apply digits_le in Hlt; lia.
    - assert (m / 2 ^ n = 0) as Hz.
      { apply Z.div_small. pose proof (digits_spec m Hm).
        assert (2 ^ digits m <= 2 ^ n) by (apply Z.pow_le_mono_r; lia). lia. }
      assert (m1 = 1) as -> by lia. cbn. split_and!; lia. }
  pose proof (digits_pos m1). 
  destruct (Z.eq_dec (digits m1) 54) as [H54|H54].
  - rewrite H54 in He2. assert (e2 - e1 = 1) as He by lia.
    rewrite Hm2, He, (Hd2 H54). change (digits (2 ^ 53 / 2 ^ 1)) with 53. lia.
  - assert (e2 = e1) as -> by lia. rewrite Hm2, Z.sub_diag, Z.div_1_r. lia.
Qed.

Definition finite_pos (m e : Z) : spec_float := S754_finite false (Z.to_pos m) e.

Lemma fvalid_finite s m e :
  fvalid (S754_finite s m e) = true <-> fexp64 (digits (Zpos m) + e) = e /\ e <= 971.
Proof.
  unfold fvalid, valid_binary, bounded, canonical_mantissa, digits, Zdigits2.
  rewrite andb_true_iff, Z.eqb_eq, Z.leb_le. done.
Qed.

Lemma binary_round_aux_valid s m e : 0 < m -> e <= fexp64 (digits m + e) ->
  fvalid (binary_round_aux prec emax s m e loc_Exact) = true.
Proof.
  intros Hm He. destruct (binary_round_aux_rounded s m e) as (m1 & e1 & m2 & e2 & Hr & H2 & ->); [done|].
  destruct m2 as [|p|p]; [done| |done]. destruct (e2 <=? 971) eqn:E; [|done].
  apply fvalid_finite. split; [by eapply rounded_canonical|by apply Z.leb_le].
Qed.

(** What [binary_round] hands to [binary_round_aux]: the same number, at an
    exponent no larger than the one of its size. *)
Lemma binary_round_aux_eq s p e : exists m e', 0 < m /\ e' <= e /\ m = Zpos p * 2 ^ (e - e') /\
  e' <= fexp64 (digits m + e') /\ binary_round prec emax s p e = binary_round_aux prec emax s m e' loc_Exact.
Proof.
  unfold binary_round. rewrite shl_align_eq. fold (digits (Zpos p)).
  change (Zpos (digits2_pos p)) with (digits (Zpos p)).
  destruct (Z.ltb_spec (fexp64 (digits (Zpos p) + e)) e) as [H|H].
  - set (e' := fexp64 (digits (Zpos p) + e)) in *.
    assert (0 < 2 ^ (e - e')) by (apply Z.pow_pos_nonneg; lia).
    exists (Zpos p * 2 ^ (e - e')), e'. split_and!; [lia|lia|done| |by rewrite Z2Pos.id by lia].
    rewrite digits_shl by lia. replace (digits (Zpos p) + (e - e') + e') with (digits (Zpos p) + e) by lia.
    unfold e'. lia.
  - exists (Zpos p), e. rewrite Z.sub_diag. split_and!; try done; lia.
Qed.

Lemma binary_round_valid s p e : fvalid (binary_round prec emax s p e) = true.
Proof.
  destruct (binary_round_aux_eq s p e) as (m & e' & Hm & _ & _ & He & ->).
  by apply binary_round_aux_valid.
Qed.

Lemma binary_round_aux_sign s m e : 0 < m ->
  match binary_round_aux prec emax s m e loc_Exact with
  | S754_zero s' | S754_infinity s' | S754_finite s' _ _ => s' = s
  | S754_nan => False
  end.
Proof.
  intros Hm. destruct (binary_round_aux_rounded s m e) as (m1 & e1 & m2 & e2 & _ & H2 & ->); [done|].
  destruct m2 as [|p|p]; [done| |done]. by destruct (e2 <=? 971).
Qed.

Lemma binary_round_nonneg p e : fle fzero (binary_round prec emax false p e) = true.
Proof.
  destruct (binary_round_aux_eq false p e) as (m & e' & Hm & _ & _ & _ & ->).
  pose proof (binary_round_aux_sign false m e' Hm). apply fnonneg_iff.
  by destruct (binary_round_aux _ _ _ _ _ _) as [[]|[]| |[]].
Qed.

(** Rounding a number below a representable one stays below it. *)
Lemma binary_round_bound p e mx ex :
  fvalid (S754_finite false mx ex) = true -> e <= ex -> Zpos p <= Zpos mx * 2 ^ (ex - e) ->
  isfinite (binary_round prec emax false p e) = true /\
  fle (binary_round prec emax false p e) (S754_finite false mx ex) = true.
Proof.
  intros [Hc Hb]%fvalid_finite He Hle.
  destruct (binary_round_aux_eq false p e) as (m & e' & Hm & He' & -> & _ & ->).
  destruct (binary_round_aux_rounded false (Zpos p * 2 ^ (e - e')) e')
    as (m1 & e1 & m2 & e2 & Hr & H2 & ->); [done|].
  destruct (rounded_bound _ _ _ _ _ _ (Zpos mx) ex Hm Hr) as [H3 H4]; [lia|done|lia| |].
  { replace (ex - e') with (ex - e + (e - e')) by lia. rewrite Z.pow_add_r by lia.
    assert (0 < 2 ^ (e - e')) by (apply Z.pow_pos_nonneg; lia). nia. }
  destruct m2 as [|q|q]; [done| |done].
  rewrite (proj2 (Z.leb_le e2 971)) by lia. split; [done|].
  unfold fle, SFleb; cbn. destruct (Z.compare_spec e2 ex) as [->| |]; [|done|lia].
  rewrite Z.sub_diag, Z.mul_1_r in H4.
  change (Pos.compare_cont Eq q mx) with (q ?= mx)%positive.
  destruct (Pos.compare_spec q mx); try done; lia.
Qed.

(** The order of positive numbers is the order of their values. *)
Lemma fle_value my ey mx ex :
  fvalid (S754_finite false my ey) = true -> fvalid (S754_finite false mx ex) = true ->
  fle (S754_finite false my ey) (S754_finite false mx ex) = true ->
  let ez := Z.min ex ey in Zpos my * 2 ^ (ey - ez) <= Zpos mx * 2 ^ (ex - ez).
Proof.
  intros [Hcy _]%fvalid_finite [Hcx _]%fvalid_finite. unfold fle, SFleb; cbn.
  change (Pos.compare_cont Eq my mx) with (my ?= mx)%positive.
  destruct (Z.compare_spec ey ex) as [->|H|H]; intros Hc; [| |done].
  - rewrite Z.min_id, Z.sub_diag, !Z.mul_1_r. destruct (Pos.compare_spec my mx); try done; lia.
  - rewrite Z.min_r, Z.sub_diag, Z.mul_1_r by lia. rewrite fexp64_eq in *.
    assert (Zpos my < 2 ^ 53) as Hy by (apply digits_le; lia).
    destruct (digits_spec (Zpos mx)) as [Hx _]; [lia|].
    replace (digits (Zpos mx) - 1) with 52 in Hx by lia.
    assert (2 ^ 1 <= 2 ^ (ex - ey)) by (apply Z.pow_le_mono_r; lia). nia.
Qed.

(** The difference of two positive numbers, aligned to the smaller exponent. *)
Lemma fsub_pos mx ex my ey : let ez := Z.min ex ey in
  fsub (S754_finite false mx ex) (S754_finite false my ey) =
  binary_normalize prec emax (Zpos mx * 2 ^ (ex - ez) - Zpos my * 2 ^ (ey - ez)) ez false.
Proof.
  cbv zeta. cbn [fsub SFsub cond_Zopp]. rewrite !shl_align_eq. set (ez := Z.min ex ey).
  assert (forall m e, ez <= e ->
    Zpos (fst (if ez <? e then (Z.to_pos (Zpos m * 2 ^ (e - ez)), ez) else (m, e))) = Zpos m * 2 ^ (e - ez)) as Hal.
  { intros m e He. assert (0 < 2 ^ (e - ez)) by (apply Z.pow_pos_nonneg; lia).
    destruct (Z.ltb_spec ez e); cbn [fst]; [by rewrite Z2Pos.id by lia|].
    replace (e - ez) with 0 by lia. lia. }
  by rewrite !Hal by lia.
Qed.

(** The difference of [x] and a non-negative [y <= x] is finite, non-negative,
    at most [x], and again a binary64 number. *)
Lemma fsub_between x y :
  fvalid x = true -> fvalid y = true -> isfinite x = true ->
  fle fzero y = true -> fle y x = true ->
  let r := fsub x y in
  isfinite r = true /\ fle fzero r = true /\ fle r x = true /\ fvalid r = true.
Proof.
  intros Hx Hy Hf Hy0%fnonneg_iff Hle.
  destruct x as [sx| | |sx mx ex], y as [sy|[]| |[] my ey]; try done.
  - by destruct sx, sy.
  - destruct sx; [done|]. cbn zeta. split_and!; [done..|by apply fle_refl|done].
  - destruct sx; [by exfalso|].
    pose proof (fle_value my ey mx ex Hy Hx Hle) as Hv. rewrite fsub_pos. cbn zeta in *.
    set (ez := Z.min ex ey) in *.
    assert (0 < 2 ^ (ey - ez)) by (apply Z.pow_pos_nonneg; lia).
    destruct (Zpos mx * 2 ^ (ex - ez) - Zpos my * 2 ^ (ey - ez)) as [|p|p] eqn:E; [done| |lia].
    cbn [binary_normalize]. destruct (binary_round_bound p ez mx ex Hx) as [H1 H2]; [lia..|].
    split_and!; auto using binary_round_nonneg, binary_round_valid.
Qed.

Lemma binary_round_neg p e : flt fzero (binary_round prec emax true p e) = false.
Proof.
  destruct (binary_round_aux_eq true p e) as (m & e' & Hm & _ & _ & _ & ->).
  pose proof (binary_round_aux_sign true m e' Hm).
  by destruct (binary_round_aux _ _ _ _ _ _) as [[]|[]| |[]].
Qed.

(** A positive difference means that the subtrahend is the smaller number. *)
Lemma fsub_positive x y : fvalid x = true -> fvalid y = true ->
  isfinite x = true -> isfinite y = true -> fle fzero x = true -> fle fzero y = true ->
  flt fzero (fsub x y) = true -> fle y x = true.
Proof.
  intros Hx Hy Hfx Hfy Hx0%fnonneg_iff Hy0%fnonneg_iff.
  destruct x as [[]|[]| |[] mx ex], y as [[]|[]| |[] my ey]; try done.
  - rewrite fsub_pos. cbv zeta. set (ez := Z.min ex ey). intros Hpos.
    destruct (fle (S754_finite false my ey) (S754_finite false mx ex)) eqn:E; [done|].
    assert (fle (S754_finite false mx ex) (S754_finite false my ey) = true) as Hle.
    { apply flt_false_fle; [done|done|].
      destruct (flt (S754_finite false my ey) (S754_finite false mx ex)) eqn:E'; [|done].
      apply flt_fle in E'. by rewrite E in E'. }
    pose proof (fle_value mx ex my ey Hx Hy Hle) as Hv. cbv zeta in Hv.
    replace (Z.min ey ex) with ez in Hv by (unfold ez; lia).
    destruct (Zpos mx * 2 ^ (ex - ez) - Zpos my * 2 ^ (ey - ez)) as [|p|p] eqn:Ed; [done|lia|].
    cbn [binary_normalize] in Hpos. by rewrite binary_round_neg in Hpos.
Qed.

Lemma fadd_nonneg x y : fvalid x = true -> fvalid y = true ->
  fle fzero x = true -> fle fzero y = true ->
  fle fzero (fadd x y) = true /\ fvalid (fadd x y) = true.
Proof.
  intros Hvx Hvy Hx%fnonneg_iff Hy%fnonneg_iff.
  destruct x as [[]|[]| |[] mx ex], y as [[]|[]| |[] my ey]; try done.
  cbn [fadd SFadd cond_Zopp]. split; [apply binary_round_nonneg|apply binary_round_valid].
Qed.

Lemma digits_mul m m' : 0 < m -> 0 < m' -> digits m + digits m' - 1 <= digits (m * m').
Proof.
  intros Hm Hm'. pose proof (digits_spec m Hm). pose proof (digits_spec m' Hm').
  pose proof (digits_pos m Hm). pose proof (digits_pos m' Hm').
  pose proof (digits_spec (m * m')) as [_ Hd]; [nia|]. pose proof (digits_pos (m * m')).
  apply Z.nlt_ge. intros Hlt.
  assert (2 ^ digits (m * m') <= 2 ^ (digits m - 1 + (digits m' - 1))) as Hp
    by (apply Z.pow_le_mono_r; lia).
  rewrite Z.pow_add_r in Hp by lia. nia.
Qed.

Lemma fmul_nonneg x y : fvalid x = true -> fvalid y = true ->
  isfinite x = true -> isfinite y = true -> fle fzero x = true -> fle fzero y = true ->
  fle fzero (fmul x y) = true /\ fvalid (fmul x y) = true.
Proof.
  intros Hvx Hvy Hfx Hfy Hx%fnonneg_iff Hy%fnonneg_iff.
  destruct x as [[]|[]| |[] mx ex], y as [[]|[]| |[] my ey]; try done.
  apply fvalid_finite in Hvx as [Hcx _], Hvy as [Hcy _].
  cbn [fmul SFmul xorb]. rewrite Pos2Z.inj_mul. split.
  - pose proof (binary_round_aux_sign false (Zpos mx * Zpos my) (ex + ey) ltac:(lia)) as Hs.
    apply fnonneg_iff. by destruct (binary_round_aux _ _ _ _ _ _) as [[]|[]| |[]].
  - apply binary_round_aux_valid; [lia|]. rewrite fexp64_eq in *.
    pose proof (digits_mul (Zpos mx) (Zpos my) ltac:(lia) ltac:(lia)).
    pose proof (digits_pos (Zpos mx)). pose proof (digits_pos (Zpos my)). lia.
Qed.

(** Rounding a non-negative mantissa, exact or not, gives no negative number. *)
Lemma shr_fexp_nonneg m e l : 0 <= m -> 0 <= shr_m (shr_fexp prec emax m e l).1.
Proof.
  intros Hm. assert (forall r, 0 <= shr_m r -> 0 <= shr_m (shr_1 r)) as Hs.
  { intros [[|[p|p|]|p] ? ?]; cbn; lia. }
  assert (0 <= shr_m (shr_record_of_loc m l)) as Hr by by destruct l as [|[]].
  unfold shr_fexp, shr. destruct (fexp prec emax (Zdigits2 m + e) - e) as [|p|p]; try done. cbn [fst].
  revert Hr. generalize (shr_record_of_loc m l). induction p as [p IH|p IH|]; intros r Hr; cbn [SpecFloat.iter_pos].
  - by apply IH, IH, Hs.
  - by apply IH, IH.
  - by apply Hs.
Qed.

Lemma binary_round_aux_nonneg m e l : 0 <= m -> fle fzero (binary_round_aux prec emax false m e l) = true.
Proof.
  intros Hm. unfold binary_round_aux. pose proof (shr_fexp_nonneg m e l Hm) as H1.
  destruct (shr_fexp prec emax m e l) as [r1 e1]. cbn [fst] in H1.
  assert (0 <= round_nearest_even (shr_m r1) (loc_of_shr_record r1)) as H2.
  { unfold round_nearest_even. destruct (loc_of_shr_record r1) as [|[]]; try lia.
    destruct (Z.even (shr_m r1)); lia. }
  pose proof (shr_fexp_nonneg _ e1 loc_Exact H2) as H3.
  destruct (shr_fexp prec emax _ e1 loc_Exact) as [r2 e2]. cbn [fst] in H3.
  destruct (shr_m r2) as [|q|q]; [done| |lia]. by destruct (e2 <=? emax - prec).
Qed.

Lemma fdiv_nonneg x y : isfinite x = true -> isfinite y = true -> fle fzero x = true -> flt fzero y = true ->
  fle fzero (fdiv x y) = true.
Proof.
  intros Hfx Hfy Hx%fnonneg_iff Hy. destruct y as [|[]| |[] my ey]; try done.
  destruct x as [[]|[]| |[] mx ex]; try done. unfold fdiv, SFdiv.
  destruct (SFdiv_core_binary prec emax (Zpos mx) ex (Zpos my) ey) as [[q e'] l'] eqn:E.
  apply binary_round_aux_nonneg. unfold SFdiv_core_binary in E.
  set (n := Z.min _ _) in E. set (m' := match _ with Z0 => _ | _ => _ end) in E.
  assert (0 <= m') as Hm'.
  { unfold m'. destruct (ex - ey - n); [lia| |lia]. apply Z.shiftl_nonneg. lia. }
  pose proof (Z.div_pos m' (Zpos my) Hm' ltac:(lia)) as Hq. unfold Z.div in Hq.
  destruct (Z.div_eucl m' (Zpos my)) as [q' r]. injection E as <- _ _. done.
Qed.

Lemma fmin_valid a b : fvalid a = true -> fvalid b = true -> fvalid (fmin a b) = true.
Proof. unfold fmin. by destruct (flt b a). Qed.

(** A finite number bounds only finite non-negative numbers. *)
Lemma fle_finite x y : fle fzero x = true -> fle x y = true -> isfinite y = true -> isfinite x = true.
Proof. intros H%fnonneg_iff. by destruct x as [|[]| |[]], y as [|[]| |[]]. Qed.

#[export] Hint Resolve fmin_valid binary_round_valid binary_round_nonneg : py.
