(* ===== verification/PyText.v ===== *)
(** * Text operations of Python: [repr], [str] of integers, splitting

    Shared by the components that parse or print text: tools, network and
    path safety, rule templates. *)

From Stdlib Require Import ZArith Lia Ascii DecimalString.
From S2P Require Import Prelude.

(** [str(n)] of an integer. *)
Definition str_of_Z (n : Z) : string := NilZero.string_of_int (Z.to_int n).

Definition ch (s : string) : ascii := match s with String c _ => c | EmptyString => zero end.

(** [repr(s)]: single quotes unless the text has one and no double quote. *)
Definition squote : ascii := "'"%char.
Definition dquote : ascii := ascii_of_N 34.
Definition backslash : ascii := ascii_of_N 92.

Definition lower_hex (n : N) : ascii := ascii_of_N (if (n <? 10)%N then 48 + n else 87 + n).

Definition repr_char (quote c : ascii) : string :=
  let n := N_of_ascii c in
  if (c =? quote)%char || (c =? backslash)%char then String backslash (String c "")
  else if (n =? 10)%N then String backslash "n"
  else if (n =? 13)%N then String backslash "r"
  else if (n =? 9)%N then String backslash "t"
  else if (n <? 32)%N || (n =? 127)%N || ((128 <=? n) && (n <=? 160))%N || (n =? 173)%N
  then String backslash (String "x"%char (String (lower_hex (n / 16)) (String (lower_hex (n mod 16)) "")))
  else String c "".

Fixpoint repr_body (quote : ascii) (s : string) : string :=
  match s with EmptyString => "" | String c s' => repr_char quote c +:+ repr_body quote s' end.

Fixpoint has_char (c : ascii) (s : string) : bool :=
  match s with EmptyString => false | String d s' => (c =? d)%char || has_char c s' end.

Definition py_repr (s : string) : string :=
  let quote := if has_char squote s && negb (has_char dquote s) then dquote else squote in
  String quote (repr_body quote s +:+ String quote "").

Example py_repr_values : py_repr "a b" = "'a b'" /\ py_repr "it's" = String dquote ("it's" +:+ String dquote "").
Proof. by vm_compute. Qed.

(** [str(exc)] of a [KeyError] is the [repr] of its argument. *)
Definition str_KeyError (msg : string) : string := py_repr msg.

(** [path.split(".")] *)
Fixpoint split_dots (acc s : string) : list string :=
  match s with
  | EmptyString => [acc]
  | String c s' => if (c =? ".")%char then acc :: split_dots "" s' else split_dots (acc +:+ String c "") s'
  end.

(** ** Searching and slicing *)
Fixpoint sdrop (n : nat) (s : string) : string :=
  match n, s with S n', String _ s' => sdrop n' s' | _, _ => s end.
Fixpoint stake (n : nat) (s : string) : string :=
  match n, s with S n', String c s' => String c (stake n' s') | _, _ => "" end.

(** [s.find(needle)] *)
Fixpoint find (needle s : string) : option nat :=
  if String.prefix needle s then Some 0%nat
  else match s with EmptyString => None | String _ s' => S <$> find needle s' end.

Example finds : find "${" "a$${b}" = Some 2%nat /\ find "}" "ab" = None /\ sdrop 2 "abcd" = "cd" /\ stake 2 "abcd" = "ab".
Proof. by vm_compute. Qed.

Lemma sdrop_app a b : sdrop (String.length a) (a +:+ b) = b.
Proof. induction a as [|c a IH]; [by destruct b|exact IH]. Qed.
Lemma stake_app a b : stake (String.length a) (a +:+ b) = a.
Proof. induction a as [|c a IH]; [by destruct b|]. cbn. by f_equal. Qed.

(** The first occurrence. *)
Lemma prefix_app n s : String.prefix n s = true -> exists b, s = n +:+ b.
Proof.
  revert s. induction n as [|c n IH]; intros s; [by exists s|]. destruct s as [|d s]; cbn; [done|].
  destruct (ascii_dec c d) as [->|]; [|done]. intros [b ->]%IH. by exists b.
Qed.
Lemma prefix_longer n a b : String.prefix n a = true -> String.prefix n (a +:+ b) = true.
Proof.
  revert a. induction n as [|c n IH]; intros a; [by destruct (a +:+ b)|]. destruct a as [|d a]; [done|].
  change (String d a +:+ b) with (String d (a +:+ b)). cbn. destruct (ascii_dec c d); [apply IH|done].
Qed.

Lemma find_Some n s i : n <> "" -> find n s = Some i ->
  exists a b, s = a +:+ n +:+ b /\ String.length a = i /\ find n a = None.
Proof.
  intros Hn. assert (find n "" = None) as H0 by (cbn; by destruct n). revert i.
  induction s as [|c s IH]; intros i; cbn [find]; destruct (String.prefix n _) eqn:E.
  - by destruct n.
  - done.
  - intros [= <-]. apply prefix_app in E as [b E]. exists "", b. split_and!; [exact E|done|exact H0].
  - destruct (find n s) as [j|]; [|done]. intros [= <-]. destruct (IH j eq_refl) as (a & b & -> & <- & Ha).
    exists (String c a), b. split_and!; [done..|]. cbn [find]. rewrite Ha. destruct (String.prefix n (String c a)) eqn:E'; [|done].
    apply (prefix_longer _ _ (n +:+ b)) in E'. change (String c a +:+ (n +:+ b)) with (String c (a +:+ n +:+ b)) in E'. by rewrite E in E'.
Qed.

(** A needle with one character, or with two different ones, has no occurrence
    that straddles its own beginning. *)
Lemma find_char c a b : find (String c "") a = None -> find (String c "") (a +:+ String c b) = Some (String.length a).
Proof.
  induction a as [|d a IH]; intros Ha.
  - change ("" +:+ String c b) with (String c b). cbn. by destruct (ascii_dec c c), b.
  - change (String d a +:+ String c b) with (String d (a +:+ String c b)). cbn [find] in *.
    destruct (String.prefix (String c "") (String d a)) eqn:E; [done|]. destruct (find _ a) eqn:Ea; [done|]. rewrite IH by done.
    replace (String.prefix (String c "") (String d (a +:+ String c b))) with false; [done|]. cbn in *.
    destruct (ascii_dec c d); [by destruct a|done].
Qed.
Lemma find_pair c d a b : c <> d -> find (String c (String d "")) a = None ->
  find (String c (String d "")) (a +:+ String c (String d b)) = Some (String.length a).
Proof.
  intros Hcd. induction a as [|x a IH]; intros Ha.
  - change ("" +:+ String c (String d b)) with (String c (String d b)). cbn. by destruct (ascii_dec c c), (ascii_dec d d), b.
  - change (String x a +:+ String c (String d b)) with (String x (a +:+ String c (String d b))). cbn [find] in *.
    destruct (String.prefix _ (String x a)) eqn:E; [done|]. destruct (find _ a) eqn:Ea; [done|]. rewrite IH by done.
    destruct (String.prefix (String c (String d "")) (String x (a +:+ _))) eqn:E'; [|done].
    destruct a as [|y a].
    + change ("" +:+ String c (String d b)) with (String c (String d b)) in E'. cbn in E'.
      destruct (ascii_dec c x); [|done]. by destruct (ascii_dec d c) as [->|].
    + change (String y a +:+ String c (String d b)) with (String y (a +:+ String c (String d b))) in E'. cbn in E, E'.
      destruct (ascii_dec c x); [|done]. destruct (ascii_dec d y); [|done]. by destruct a.
Qed.
Lemma str_app_length (a b : string) : String.length (a +:+ b) = (String.length a + String.length b)%nat.
Proof. induction a as [|x a IH]; [done|]. exact (f_equal S IH). Qed.
