(* ===== verification/Uuid.v ===== *)
(** * UUID4 identifiers

    Every identifier of the domain ([task_id], [run_id], [tool_call_id],
    [approval_id], [envelope_id], [lease_id]) goes through the same validator:
    parse with [uuid.UUID], require version 4, keep [str(parsed)]. The file
    models the constructor [UUID(hex)] and [str] of the standard library on
    strings, the property [version], and the validators of
    [domain/models.py]. The main lemma is [uuid4_str_idemp]: validating an
    identifier that has been validated gives the same identifier back. *)

From Stdlib Require Import ZArith Lia Ascii.
From S2P Require Import Prelude.

(** ** Hexadecimal digits *)
Definition hex_value (c : ascii) : option Z :=
  let n := Z.of_N (N_of_ascii c) in
  if (48 <=? n) && (n <=? 57) then Some (n - 48)
  else if (97 <=? n) && (n <=? 102) then Some (n - 87)
  else if (65 <=? n) && (n <=? 70) then Some (n - 55)
  else None.

Definition hex_char (d : Z) : ascii :=
  ascii_of_N (Z.to_N (if d <? 10 then d + 48 else d + 87)).

(** The [k] lowest hexadecimal digits of [n], most significant first. *)
Fixpoint to_hex (k : nat) (n : Z) : string :=
  match k with
  | O => EmptyString
  | S k' => String (hex_char ((n / 16 ^ Z.of_nat k') mod 16)) (to_hex k' n)
  end.

(** ** [str.replace(pat, "")] *)
Fixpoint remove_sub (pat : string) (skip : nat) (s : string) : string :=
  match s with
  | EmptyString => EmptyString
  | String c s' =>
      match skip with
      | S k => remove_sub pat k s'
      | O => if String.prefix pat s then remove_sub pat (String.length pat - 1) s'
             else String c (remove_sub pat 0 s')
      end
  end.

(** ** [int(s, 16)]

    Surrounding whitespace, a sign, a [0x] prefix, and single underscores
    between digits are accepted. [digits] reads digits; [after_digit] says
    whether an underscore may come next. *)
Fixpoint hex_digits (s : string) (after_digit : bool) (acc : Z) : option Z :=
  match s with
  | EmptyString => if after_digit then Some acc else None
  | String c s' =>
      if (c =? "_")%char then
        match s' with
        | EmptyString => None
        | _ => if after_digit then hex_digits s' false acc else None
        end
      else match hex_value c with
           | Some d => hex_digits s' true (16 * acc + d)
           | None => None
           end
  end.

Definition hex_unsigned (s : string) : option Z :=
  match s with
  | String z (String x s') =>
      if (z =? "0")%char && ((x =? "x")%char || (x =? "X")%char)
      then match s' with
           | String u s'' => if (u =? "_")%char then hex_digits s'' false 0 else hex_digits s' false 0
           | EmptyString => None
           end
      else hex_digits s false 0
  | _ => hex_digits s false 0
  end.

Definition int16 (s : string) : option Z :=
  match strip s with
  | String c s' =>
      if (c =? "+")%char then hex_unsigned s'
      else if (c =? "-")%char then option_map Z.opp (hex_unsigned s')
      else hex_unsigned (strip s)
  | EmptyString => None
  end.

Definition is_brace (c : ascii) : bool := (c =? "{")%char || (c =? "}")%char.

(** [UUID(value).int] *)
Definition uuid_parse (s : string) : res Z :=
  let h := remove_sub "uuid:" 0 (remove_sub "urn:" 0 s) in
  let h := remove_sub "-" 0 (strip_by is_brace h) in
  if negb (String.length h =? 32)%nat
  then Raise (ValueError "badly formed hexadecimal UUID string")
  else match int16 h with
       | None => Raise (ValueError "invalid literal for int() with base 16")
       | Some n => if (0 <=? n) && (n <? 2 ^ 128) then Ok n
                   else Raise (ValueError "int is out of range (need a 128-bit value)")
       end.

(** [parsed.version]: only RFC 4122 variants have one. *)
Definition uuid_version (n : Z) : option Z :=
  if Z.testbit n 63 && negb (Z.testbit n 62) then Some (Z.land (Z.shiftr n 76) 15) else None.

(** [str(parsed)]: the 8-4-4-4-12 groups. *)
Definition uuid_str (n : Z) : string :=
  to_hex 8 (n / 16 ^ 24) +:+ "-" +:+ to_hex 4 (n / 16 ^ 20) +:+ "-" +:+
  to_hex 4 (n / 16 ^ 16) +:+ "-" +:+ to_hex 4 (n / 16 ^ 12) +:+ "-" +:+ to_hex 12 n.

(** ** The validators *)

(** What a field with an identifier validator receives. *)
Inductive id_input : Type :=
| IdNone                 (** [None] *)
| IdUUID (int : Z)       (** a [UUID] instance *)
| IdStr (s : string)     (** a [str] *)
| IdOther.               (** anything else *)

Definition require_version4 (field_name : string) (n : Z) : res string :=
  if decide (uuid_version n = Some 4) then Ok (uuid_str n)
  else Raise (ValueError (field_name +:+ " must be a UUID4")).

Definition parse_id (field_name : string) (value : id_input) : res string :=
  match value with
  | IdUUID n => require_version4 field_name n
  | IdStr s =>
      match uuid_parse s with
      | Ok n => require_version4 field_name n
      | Raise _ => Raise (ValueError (field_name +:+ " must be a valid UUID"))
      end
  | _ => Raise (TypeError (field_name +:+ " must be a UUID or UUID string"))
  end.

(** A missing identifier is replaced by a fresh one ([fresh] is what
    [str(uuid4())] returns). *)
Definition validate_generated_id (field_name fresh : string) (value : id_input) : res string :=
  match value with IdNone => Ok fresh | _ => parse_id field_name value end.

(** A missing identifier is refused. *)
Definition validate_required_id (field_name : string) (value : id_input) : res string :=
  match value with
  | IdNone => Raise (ValueError (field_name +:+ " is required"))
  | _ => parse_id field_name value
  end.

Definition is_uuid4_str (s : string) : bool :=
  match uuid_parse s with
  | Ok n => bool_decide (uuid_version n = Some 4) && String.eqb (uuid_str n) s
  | Raise _ => false
  end.

Example uuid_braces :
  validate_required_id "run_id" (IdStr "{URN:A1B2C3D4-e5f6-4789-8ABC-0123456789ab}")
  = Raise (ValueError "run_id must be a valid UUID").
Proof. reflexivity. Qed.
Example uuid_urn :
  validate_required_id "run_id" (IdStr "urn:uuid:{A1B2C3D4-e5f6-4789-8ABC-0123456789ab}")
  = Ok "a1b2c3d4-e5f6-4789-8abc-0123456789ab".
Proof. reflexivity. Qed.
Example uuid_v1 :
  validate_required_id "run_id" (IdStr "a1b2c3d4-e5f6-1789-8abc-0123456789ab")
  = Raise (ValueError "run_id must be a UUID4").
Proof. reflexivity. Qed.

(** ** Round trip *)

Lemma hex_char_all (q : ascii -> bool) :
  forallb (fun d => q (hex_char (Z.of_nat d))) (seq 0 16) = true ->
  forall d, 0 <= d < 16 -> q (hex_char d) = true.
Proof.
  intros H d Hd. rewrite forallb_forall in H. rewrite <- (Z2Nat.id d) by lia.
  apply H, in_seq. lia.
Qed.

Lemma hex_value_char d : 0 <= d < 16 -> hex_value (hex_char d) = Some d.
Proof.
  intros Hd. assert (d ∈ (Z.of_nat <$> seq 0 16)) as Hin.
  { apply list_elem_of_fmap. exists (Z.to_nat d). rewrite Z2Nat.id by lia.
    split; [done|]. apply elem_of_seq. lia. }
  clear Hd. cbn in Hin. repeat (apply elem_of_cons in Hin as [->|Hin]; [done|]). set_solver.
Qed.

Lemma to_hex_all q k n :
  forallb (fun d => q (hex_char (Z.of_nat d))) (seq 0 16) = true ->
  all_chars q (to_hex k n) = true.
Proof.
  intros Hq. induction k as [|k IH]; [done|]. cbn [to_hex all_chars].
  rewrite IH, andb_true_r. apply hex_char_all; [done|]. apply Z.mod_pos_bound. lia.
Qed.

Lemma all_chars_app q s t : all_chars q (s +:+ t) = all_chars q s && all_chars q t.
Proof.
  induction s as [|c s IH]; [done|].
  change (String c s +:+ t) with (String c (s +:+ t)). cbn [all_chars].
  by rewrite IH, andb_assoc.
Qed.

Lemma length_to_hex k n : String.length (to_hex k n) = k.
Proof. induction k as [|k IH]; [done|]. cbn. by rewrite IH. Qed.

Lemma to_hex_app j k n : to_hex j (n / 16 ^ Z.of_nat k) +:+ to_hex k n = to_hex (j + k) n.
Proof.
  induction j as [|j IH]; [done|]. cbn [to_hex Nat.add].
  change (String ?c ?s +:+ ?t) with (String c (s +:+ t)). rewrite IH.
  rewrite Z.div_div by (try apply Z.pow_nonzero; try apply Z.pow_pos_nonneg; lia).
  rewrite <- Z.pow_add_r, <- Nat2Z.inj_add by lia. by rewrite (Nat.add_comm k j).
Qed.

Lemma prefix_all_chars q pat s :
  String.prefix pat s = true -> all_chars q s = true -> all_chars q pat = true.
Proof.
  revert s. induction pat as [|c pat IH]; intros s; [done|].
  destruct s as [|c' s]; cbn; [done|]. destruct (ascii_dec c c') as [->|]; [|done].
  intros Hp [Hc Hs]%andb_prop. rewrite Hc. cbn. eauto.
Qed.

(** Nothing is replaced when the pattern uses a character the string lacks. *)
Lemma remove_sub_id q pat s :
  all_chars q pat = false -> all_chars q s = true -> remove_sub pat 0 s = s.
Proof.
  intros Hpat. induction s as [|c s IH]; [done|]. intros Hs. cbn [remove_sub].
  destruct (String.prefix pat (String c s)) eqn:E.
  - pose proof (prefix_all_chars q _ _ E Hs). congruence.
  - cbn in Hs. apply andb_prop in Hs as [_ Hs]. by rewrite IH.
Qed.

Lemma remove_dash_app s t :
  remove_sub "-" 0 (s +:+ t) = remove_sub "-" 0 s +:+ remove_sub "-" 0 t.
Proof.
  induction s as [|c s IH]; [done|].
  change (String c s +:+ t) with (String c (s +:+ t)). cbn [remove_sub].
  assert (forall u, String.prefix "-" (String c u) = (if ascii_dec "-" c then true else false)) as Hp.
  { intros u. change (String.prefix "-" (String c u))
      with (if ascii_dec "-" c then String.prefix "" u else false).
    by destruct u. }
  rewrite !Hp. destruct (ascii_dec "-" c); cbn [String.length Nat.sub]; rewrite IH; done.
Qed.

Lemma remove_dash_to_hex k n : remove_sub "-" 0 (to_hex k n) = to_hex k n.
Proof. by apply (remove_sub_id (fun c => negb (c =? "-")%char)); [|apply to_hex_all]. Qed.

Lemma hex_digits_to_hex k n b acc :
  hex_digits (to_hex (S k) n) b acc = Some (acc * 16 ^ Z.of_nat (S k) + n mod 16 ^ Z.of_nat (S k)).
Proof.
  revert b acc. induction k as [|k IH]; intros b acc.
  - cbn [to_hex]. rewrite Z.pow_0_r, Z.div_1_r.
    set (d := n mod 16). assert (0 <= d < 16) by (apply Z.mod_pos_bound; lia).
    cbn [hex_digits]. rewrite (hex_value_char d) by done.
    pose proof (hex_char_all (fun c => negb (c =? "_")%char) eq_refl d) as ->%negb_true_iff; [|done].
    change (16 ^ Z.of_nat 1) with 16. fold d. f_equal. lia.
  - set (d := (n / 16 ^ Z.of_nat (S k)) mod 16).
    assert (0 <= d < 16) by (apply Z.mod_pos_bound; lia).
    change (to_hex (S (S k)) n) with (String (hex_char d) (to_hex (S k) n)).
    cbn [hex_digits]. rewrite (hex_value_char d) by done.
    pose proof (hex_char_all (fun c => negb (c =? "_")%char) eq_refl d) as ->%negb_true_iff; [|done].
    rewrite IH. f_equal. set (P := 16 ^ Z.of_nat (S k)) in *.
    assert (0 < P) by (apply Z.pow_pos_nonneg; lia).
    replace (16 ^ Z.of_nat (S (S k))) with (P * 16)
      by (unfold P; rewrite (Nat2Z.inj_succ (S k)), Z.pow_succ_r by lia; lia).
    rewrite Z.rem_mul_r by lia. fold d. lia.
Qed.

Lemma int16_to_hex k n : int16 (to_hex (S (S k)) n) = Some (n mod 16 ^ Z.of_nat (S (S k))).
Proof.
  unfold int16, strip.
  rewrite strip_by_id by (by apply (to_hex_all (fun c => negb (is_space c)))).
  set (d := (n / 16 ^ Z.of_nat (S k)) mod 16). set (d' := (n / 16 ^ Z.of_nat k) mod 16).
  assert (0 <= d < 16) by (apply Z.mod_pos_bound; lia).
  assert (0 <= d' < 16) by (apply Z.mod_pos_bound; lia).
  assert (to_hex (S (S k)) n = String (hex_char d) (String (hex_char d') (to_hex k n))) as Heq by done.
  rewrite Heq.
  pose proof (hex_char_all (fun c => negb (c =? "+")%char) eq_refl d) as ->%negb_true_iff; [|done].
  pose proof (hex_char_all (fun c => negb (c =? "-")%char) eq_refl d) as ->%negb_true_iff; [|done].
  unfold hex_unsigned.
  pose proof (hex_char_all (fun c => negb (c =? "x")%char) eq_refl d') as ->%negb_true_iff; [|done].
  pose proof (hex_char_all (fun c => negb (c =? "X")%char) eq_refl d') as ->%negb_true_iff; [|done].
  rewrite andb_false_r, <- Heq, hex_digits_to_hex. f_equal; lia.
Qed.

Lemma uuid_str_chars q n : q "-"%char = true ->
  forallb (fun d => q (hex_char (Z.of_nat d))) (seq 0 16) = true -> all_chars q (uuid_str n) = true.
Proof.
  intros Hq Hh. unfold uuid_str. rewrite !all_chars_app. cbn [all_chars].
  by rewrite !to_hex_all, Hq by done.
Qed.

(** Parsing the canonical form of a 128-bit number gives it back. *)
Lemma uuid_parse_str n : 0 <= n < 2 ^ 128 -> uuid_parse (uuid_str n) = Ok n.
Proof.
  intros Hn. unfold uuid_parse.
  rewrite (remove_sub_id (fun c => negb (c =? ":")%char) "urn:") by (first [done | by apply uuid_str_chars]).
  rewrite (remove_sub_id (fun c => negb (c =? ":")%char) "uuid:") by (first [done | by apply uuid_str_chars]).
  rewrite strip_by_id by (by apply uuid_str_chars).
  unfold uuid_str. rewrite !remove_dash_app, !remove_dash_to_hex.
  change (remove_sub "-" 0 "-") with "". 
  assert (forall s, "" +:+ s = s) as Hnil by done. rewrite !Hnil.
  rewrite (to_hex_app 4 12 n : to_hex 4 (n / 16 ^ 12) +:+ to_hex 12 n = _).
  rewrite (to_hex_app 4 16 n : to_hex 4 (n / 16 ^ 16) +:+ to_hex (4 + 12) n = _).
  rewrite (to_hex_app 4 20 n : to_hex 4 (n / 16 ^ 20) +:+ to_hex (4 + 16) n = _).
  rewrite (to_hex_app 8 24 n : to_hex 8 (n / 16 ^ 24) +:+ to_hex (4 + 20) n = _).
  change (8 + 24)%nat with 32%nat. rewrite length_to_hex. cbn [Nat.eqb negb].
  rewrite int16_to_hex, Z.mod_small by done.
  by rewrite (proj2 (Z.leb_le 0 n)), (proj2 (Z.ltb_lt n _)) by lia.
Qed.

Lemma uuid_parse_bound s n : uuid_parse s = Ok n -> 0 <= n < 2 ^ 128.
Proof.
  unfold uuid_parse. destruct (negb _); [done|]. destruct (int16 _); [|done].
  destruct (_ && _) eqn:E; [|done]. intros [= <-]. bool_to_prop. lia.
Qed.

(** What a validator of a string returns, it returns unchanged. *)
Lemma validate_required_id_idemp f g s t :
  validate_required_id f (IdStr s) = Ok t -> validate_required_id g (IdStr t) = Ok t.
Proof.
  cbn. destruct (uuid_parse s) as [n|] eqn:E; [|done]. unfold require_version4.
  destruct (decide _) as [Hv|]; [|done]. intros [= <-].
  rewrite uuid_parse_str by (by eapply uuid_parse_bound). by rewrite decide_True.
Qed.

Lemma validate_generated_id_str f fresh s :
  validate_generated_id f fresh (IdStr s) = validate_required_id f (IdStr s).
Proof. done. Qed.

Lemma is_uuid4_str_validate f s :
  is_uuid4_str s = true <-> validate_required_id f (IdStr s) = Ok s.
Proof.
  unfold is_uuid4_str. cbn. destruct (uuid_parse s) as [n|] eqn:E; [|done].
  unfold require_version4. rewrite andb_true_iff, bool_decide_eq_true, String.eqb_eq.
  destruct (decide _); split; [by intros [_ ->]|by intros [= ->]|by intros [? _]|done].
Qed.

Lemma is_uuid4_str_inv s : is_uuid4_str s = true ->
  exists n, uuid_parse s = Ok n /\ uuid_version n = Some 4 /\ uuid_str n = s.
Proof.
  unfold is_uuid4_str. destruct (uuid_parse s) as [n|]; [|done].
  intros [Hv%bool_decide_eq_true Hs%String.eqb_eq]%andb_prop. eauto.
Qed.

Lemma strip_uuid4_str s : is_uuid4_str s = true -> strip s = s /\ is_empty s = false.
Proof.
  intros (n & _ & _ & <-)%is_uuid4_str_inv. split; [|done].
  unfold strip. apply strip_by_id. by apply uuid_str_chars.
Qed.
