(* ===== verification/Models.v ===== *)
(** * Domain models: [domain/enums.py] and [domain/models.py]

    The status enumerations, the records [ToolCall], [Task] and [Approval],
    and their [model_validate]: every field validator in field order, then the
    model validators. A record value is used both for the data handed to
    [model_validate] (a dumped or copied model) and for its result; what
    distinguishes the two is validity, [valid_tool_call] and so on. The
    results: validation normalises (it is idempotent), and a validated record
    satisfies exactly the documented field and timestamp conditions. *)

From Stdlib Require Import ZArith SpecFloat Lia.
From S2P Require Import Prelude PyFloat Uuid.

(** ** Enumerations ([domain/enums.py]) *)
Module TaskStatus.
Inductive t := PENDING | QUEUED | WAITING_APPROVAL | RUNNING | SUCCEEDED | FAILED | CANCELED | ARCHIVED.
#[global] Instance eq_dec : EqDecision t.
Proof. solve_decision. Defined.
Definition value (s : t) : string :=
  match s with
  | PENDING => "pending" | QUEUED => "queued" | WAITING_APPROVAL => "waiting_approval"
  | RUNNING => "running" | SUCCEEDED => "succeeded" | FAILED => "failed"
  | CANCELED => "canceled" | ARCHIVED => "archived"
  end.
End TaskStatus.

Module ToolCallStatus.
Inductive t := PENDING | RUNNING | SUCCEEDED | FAILED | DENIED | CANCELED.
#[global] Instance eq_dec : EqDecision t.
Proof. solve_decision. Defined.
Definition value (s : t) : string :=
  match s with
  | PENDING => "pending" | RUNNING => "running" | SUCCEEDED => "succeeded"
  | FAILED => "failed" | DENIED => "denied" | CANCELED => "canceled"
  end.
End ToolCallStatus.

Module ApprovalStatus.
Inductive t := PENDING | APPROVED | DENIED | EXPIRED | CANCELED.
#[global] Instance eq_dec : EqDecision t.
Proof. solve_decision. Defined.
Definition value (s : t) : string :=
  match s with
  | PENDING => "pending" | APPROVED => "approved" | DENIED => "denied"
  | EXPIRED => "expired" | CANCELED => "canceled"
  end.
End ApprovalStatus.

(** ** Validation

    A validation run collects the [ValueError]s of all fields; any other
    exception aborts it. Model validators run once the fields are valid. *)
Inductive vld (A : Type) : Type :=
| VOk (a : A)
| VErr (errors : list (string * exn))
| VAbort (e : exn).
Arguments VOk {A} a.
Arguments VErr {A} errors.
Arguments VAbort {A} e.

Definition vap {A B} (f : vld (A -> B)) (x : vld A) : vld B :=
  match f, x with
  | VAbort e, _ => VAbort e
  | _, VAbort e => VAbort e
  | VErr l, VErr l' => VErr (l ++ l')
  | VErr l, VOk _ => VErr l
  | VOk _, VErr l => VErr l
  | VOk g, VOk a => VOk (g a)
  end.
Notation "f <*> x" := (vap f x) (at level 61, left associativity) : py_scope.

(** The outcome of the validator of the field [loc]. *)
Definition field {A} (loc : string) (r : res A) : vld A :=
  match r with
  | Ok a => VOk a
  | Raise (ValueError m) => VErr [(loc, ValueError m)]
  | Raise (TemplateValidationError m) => VErr [(loc, TemplateValidationError m)]
  | Raise AssertionError => VErr [(loc, AssertionError)]
  | Raise (ValidationError l) => VErr ((fun p => (loc +:+ "." +:+ p.1, p.2)) <$> l)
  | Raise e => VAbort e
  end.

(** A [model_validator(mode="after")]. *)
Definition after {A} (check : A -> res unit) (x : vld A) : vld A :=
  match x with
  | VOk a => vap (VOk (fun _ => a)) (field "" (check a))
  | _ => x
  end.

Definition run {A} (x : vld A) : res A :=
  match x with
  | VOk a => Ok a
  | VErr l => Raise (ValidationError l)
  | VAbort e => Raise e
  end.

Lemma vap_VOk {A B} (f : vld (A -> B)) x b :
  vap f x = VOk b <-> exists g a, f = VOk g /\ x = VOk a /\ g a = b.
Proof.
  destruct f, x; cbn; split; try done; try (by intros (? & ? & ? & ? & ?)).
  - intros [= <-]. eauto.
  - by intros (? & ? & [= ->] & [= ->] & ->).
Qed.

Lemma field_VOk {A} loc (r : res A) a : field loc r = VOk a <-> r = Ok a.
Proof. destruct r as [|[]]; cbn; split; congruence. Qed.

Lemma after_VOk {A} check (x : vld A) a :
  after check x = VOk a <-> x = VOk a /\ check a = Ok tt.
Proof.
  destruct x as [b| |]; [|cbn; split; [done|by intros []]..].
  unfold after. rewrite vap_VOk. split.
  - intros (g & u & [= <-] & Hu%field_VOk & <-). by destruct u.
  - intros [[= ->] Hc]. exists (fun _ => a), tt. by rewrite field_VOk.
Qed.

Lemma run_Ok {A} (x : vld A) a : run x = Ok a <-> x = VOk a.
Proof. destruct x; cbn; split; congruence. Qed.

Create HintDb vld discriminated.
#[export] Hint Rewrite @run_Ok @after_VOk @vap_VOk @field_VOk : vld.

(** ** Field validators *)

(** Trimmed, non-empty ([_validate_tool_name] and its siblings). *)
Definition non_empty (field_name value : string) : res string :=
  if is_empty (strip value) then Raise (ValueError (field_name +:+ " must be non-empty"))
  else Ok (strip value).

(** [_normalize_result_ref], [_normalize_decided_by], [_normalize_payload_hash]. *)
Definition normalize_optional (value : option string) : res (option string) :=
  match value with None => Ok None | Some v => Ok (strip_or_none v) end.

(** [depends_on] and [labels]. *)
Fixpoint non_empty_entries (field_name : string) (value : list string) : res (list string) :=
  match value with
  | [] => Ok []
  | item :: rest =>
      if is_empty (strip item)
      then Raise (ValueError (field_name +:+ " entries must be non-empty"))
      else normalized ← non_empty_entries field_name rest; Ok (strip item :: normalized)
  end.

(** [json.dumps(value, allow_nan=False)] succeeds. *)
Fixpoint jsonable (v : json) : bool :=
  match v with
  | JFloat f => isfinite f
  | JArr l => forallb jsonable l
  | JObj l => forallb (fun p => jsonable p.2) l
  | JOpaque _ => false
  | _ => true
  end.

Definition ensure_jsonable (field_name : string) (value : list (string * json))
  : res (list (string * json)) :=
  if jsonable (JObj value) then Ok value
  else Raise (ValueError (field_name +:+ " must be valid JSON")).

Definition positive_int (field_name : string) (value : Z) : res Z :=
  if value <=? 0 then Raise (ValueError (field_name +:+ " must be > 0")) else Ok value.

Definition non_negative_int (field_name : string) (value : Z) : res Z :=
  if value <? 0 then Raise (ValueError (field_name +:+ " must be >= 0")) else Ok value.

(** [_validate_timestamps], shared by [ToolCall] and [Task]. *)
Definition validate_timestamps (created_at_ms : Z) (started_at_ms completed_at_ms : option Z) : res unit :=
  raise_if (match started_at_ms with Some s => s <? created_at_ms | None => false end)
    (ValueError "started_at_ms must be >= created_at_ms");;
  match completed_at_ms with
  | None => Ok tt
  | Some c =>
      raise_if (match started_at_ms with Some s => c <? s | None => false end)
        (ValueError "completed_at_ms must be >= started_at_ms");;
      raise_if (c <? created_at_ms) (ValueError "completed_at_ms must be >= created_at_ms")
  end.

(** ** [ToolCall] *)
Record ToolCall := mkToolCall {
  tool_call_id : string;
  tool_name : string;
  args : list (string * json);
  permission_scope : string;
  idempotency_key : string;
  tc_status : ToolCallStatus.t;
  tc_created_at_ms : Z;
  tc_started_at_ms : option Z;
  tc_completed_at_ms : option Z;
  result_ref : option string;
}.

Definition ToolCall_fields (tc : ToolCall) : vld ToolCall :=
  (VOk mkToolCall
   <*> field "tool_call_id" (validate_generated_id "tool_call_id" "" (IdStr (tool_call_id tc)))
   <*> field "tool_name" (non_empty "tool_name" (tool_name tc))
   <*> field "args" (ensure_jsonable "args" (args tc))
   <*> field "permission_scope" (non_empty "permission_scope" (permission_scope tc))
   <*> field "idempotency_key" (non_empty "idempotency_key" (idempotency_key tc))
   <*> VOk (tc_status tc)
   <*> VOk (tc_created_at_ms tc)
   <*> VOk (tc_started_at_ms tc)
   <*> VOk (tc_completed_at_ms tc)
   <*> field "result_ref" (normalize_optional (result_ref tc)))%py.

Definition ToolCall_validate_timestamps (tc : ToolCall) : res unit :=
  validate_timestamps (tc_created_at_ms tc) (tc_started_at_ms tc) (tc_completed_at_ms tc).

(** [ToolCall.model_validate] *)
Definition ToolCall_model_validate (tc : ToolCall) : res ToolCall :=
  run (after ToolCall_validate_timestamps (ToolCall_fields tc)).

(** ** [Task] *)
Record Task := mkTask {
  task_id : string;
  run_id : string;
  name : string;
  status : TaskStatus.t;
  tool_call : option ToolCall;
  attempts : Z;
  max_attempts : Z;
  timeout_s : Z;
  depends_on : list string;
  created_at_ms : Z;
  started_at_ms : option Z;
  completed_at_ms : option Z;
  labels : list string;
  metadata : list (string * json);
}.

Definition Task_validate_tool_call (tc : option ToolCall) : res (option ToolCall) :=
  match tc with None => Ok None | Some c => v ← ToolCall_model_validate c; Ok (Some v) end.

Definition Task_fields (t : Task) : vld Task :=
  (VOk mkTask
   <*> field "task_id" (validate_generated_id "task_id" "" (IdStr (task_id t)))
   <*> field "run_id" (validate_required_id "run_id" (IdStr (run_id t)))
   <*> field "name" (non_empty "name" (name t))
   <*> VOk (status t)
   <*> field "tool_call" (Task_validate_tool_call (tool_call t))
   <*> field "attempts" (non_negative_int "attempts" (attempts t))
   <*> field "max_attempts" (positive_int "max_attempts" (max_attempts t))
   <*> field "timeout_s" (positive_int "timeout_s" (timeout_s t))
   <*> field "depends_on" (non_empty_entries "depends_on" (depends_on t))
   <*> VOk (created_at_ms t)
   <*> VOk (started_at_ms t)
   <*> VOk (completed_at_ms t)
   <*> field "labels" (non_empty_entries "labels" (labels t))
   <*> field "metadata" (ensure_jsonable "metadata" (metadata t)))%py.

Definition Task_validate_attempt_limits (t : Task) : res unit :=
  raise_if (max_attempts t <? attempts t) (ValueError "attempts must be <= max_attempts").

Definition Task_validate_timestamps (t : Task) : res unit :=
  validate_timestamps (created_at_ms t) (started_at_ms t) (completed_at_ms t).

(** [Task.model_validate] *)
Definition Task_model_validate (t : Task) : res Task :=
  run (after Task_validate_timestamps (after Task_validate_attempt_limits (Task_fields t))).

(** ** [Approval] *)
Record Approval := mkApproval {
  approval_id : string;
  ap_run_id : string;
  ap_task_id : string;
  ap_tool_call_id : string;
  ap_status : ApprovalStatus.t;
  ap_created_at_ms : Z;
  decided_at_ms : option Z;
  decided_by : option string;
  payload_hash : option string;
  preview : option string;
}.

Definition DEFAULT_MAX_APPROVAL_PREVIEW_CHARS : nat := 1000.

Definition validate_approval_status (s : ApprovalStatus.t) : res ApprovalStatus.t :=
  match s with
  | ApprovalStatus.PENDING | ApprovalStatus.APPROVED | ApprovalStatus.DENIED => Ok s
  | _ => Raise (ValueError "status must be one of: pending, approved, denied")
  end.

Definition normalize_preview (value : option string) : res (option string) :=
  match value with
  | None => Ok None
  | Some v =>
      if is_empty (strip v) then Ok None
      else Ok (Some (String.substring 0 DEFAULT_MAX_APPROVAL_PREVIEW_CHARS (strip v)))
  end.

Definition Approval_fields (a : Approval) : vld Approval :=
  (VOk mkApproval
   <*> field "approval_id" (validate_generated_id "approval_id" "" (IdStr (approval_id a)))
   <*> field "run_id" (validate_required_id "run_id" (IdStr (ap_run_id a)))
   <*> field "task_id" (validate_required_id "task_id" (IdStr (ap_task_id a)))
   <*> field "tool_call_id" (validate_required_id "tool_call_id" (IdStr (ap_tool_call_id a)))
   <*> field "status" (validate_approval_status (ap_status a))
   <*> VOk (ap_created_at_ms a)
   <*> VOk (decided_at_ms a)
   <*> field "decided_by" (normalize_optional (decided_by a))
   <*> field "payload_hash" (normalize_optional (payload_hash a))
   <*> field "preview" (normalize_preview (preview a)))%py.

Definition Approval_validate_decision_fields (a : Approval) : res unit :=
  raise_if (match decided_at_ms a with Some d => d <? ap_created_at_ms a | None => false end)
    (ValueError "decided_at_ms must be >= created_at_ms");;
  match ap_status a with
  | ApprovalStatus.PENDING =>
      raise_if (bool_decide (decided_at_ms a <> None))
        (ValueError "decided_at_ms must be null when status is pending");;
      raise_if (bool_decide (decided_by a <> None))
        (ValueError "decided_by must be null when status is pending")
  | _ =>
      raise_if (bool_decide (decided_at_ms a = None))
        (ValueError "decided_at_ms is required when status is approved/denied")
  end.

Definition Approval_model_validate (a : Approval) : res Approval :=
  run (after Approval_validate_decision_fields (Approval_fields a)).

(** [Approval._decide]; [now_ms] is [int(time.time() * 1000)]. *)
Definition Approval_decide (now_ms : Z) (a : Approval) (new_status : ApprovalStatus.t)
    (by_ : option string) (at_ms : option Z) : res Approval :=
  raise_if (bool_decide (ap_status a <> ApprovalStatus.PENDING))
    (ValueError "approval has already been decided");;
  let decided_at := match at_ms with Some d => d | None => now_ms end in
  let normalized_decided_by := match by_ with Some s => strip_or_none s | None => None end in
  Approval_model_validate
    {| approval_id := approval_id a; ap_run_id := ap_run_id a; ap_task_id := ap_task_id a;
       ap_tool_call_id := ap_tool_call_id a; ap_status := new_status;
       ap_created_at_ms := ap_created_at_ms a; decided_at_ms := Some decided_at;
       decided_by := normalized_decided_by; payload_hash := payload_hash a;
       preview := preview a |}.

Definition Approval_approve (now_ms : Z) (a : Approval) := Approval_decide now_ms a ApprovalStatus.APPROVED.
Definition Approval_deny (now_ms : Z) (a : Approval) := Approval_decide now_ms a ApprovalStatus.DENIED.

(** ** Properties of validation *)

(** Field-wise validity, the contract of a constructed [ToolCall]. *)
Definition is_trimmed (s : string) : Prop := strip s = s /\ s <> "".

Definition timestamps_ok (created : Z) (started completed : option Z) : Prop :=
  (forall s, started = Some s -> created <= s) /\
  (forall c, completed = Some c -> created <= c) /\
  (forall s c, started = Some s -> completed = Some c -> s <= c).

Record valid_tool_call (tc : ToolCall) : Prop := {
  vtc_id : is_uuid4_str (tool_call_id tc) = true;
  vtc_name : is_trimmed (tool_name tc);
  vtc_scope : is_trimmed (permission_scope tc);
  vtc_key : is_trimmed (idempotency_key tc);
  vtc_args : jsonable (JObj (args tc)) = true;
  vtc_ref : forall r, result_ref tc = Some r -> is_trimmed r;
  vtc_times : timestamps_ok (tc_created_at_ms tc) (tc_started_at_ms tc) (tc_completed_at_ms tc);
}.

Record valid_task (t : Task) : Prop := {
  vt_id : is_uuid4_str (task_id t) = true;
  vt_run_id : is_uuid4_str (run_id t) = true;
  vt_name : is_trimmed (name t);
  vt_tool_call : forall tc, tool_call t = Some tc -> valid_tool_call tc;
  vt_attempts : 0 <= attempts t <= max_attempts t;
  vt_max_attempts : 0 < max_attempts t;
  vt_timeout : 0 < timeout_s t;
  vt_depends_on : Forall is_trimmed (depends_on t);
  vt_labels : Forall is_trimmed (labels t);
  vt_metadata : jsonable (JObj (metadata t)) = true;
  vt_times : timestamps_ok (created_at_ms t) (started_at_ms t) (completed_at_ms t);
}.

Lemma timestamps_started c s d : timestamps_ok c (Some s) d -> c <= s.
Proof. intros (H & _ & _). by apply H. Qed.
Lemma timestamps_order c s d : timestamps_ok c (Some s) (Some d) -> s <= d.
Proof. intros (_ & _ & H). by apply H. Qed.
Lemma timestamps_completed c s d : timestamps_ok c s (Some d) -> c <= d.
Proof. intros (_ & H & _). by apply H. Qed.

Lemma non_empty_Ok f s t : non_empty f s = Ok t <-> t = strip s /\ strip s <> "".
Proof.
  unfold non_empty. destruct (is_empty (strip s)) eqn:E; [apply is_empty_spec in E|].
  - split; [done|by intros []].
  - split; [intros [= <-]; split; [done|]|by intros [-> _]]. intros H. by rewrite H in E.
Qed.

Lemma non_empty_fix f s : is_trimmed s -> non_empty f s = Ok s.
Proof. intros [Hs Hn]. apply non_empty_Ok. by rewrite Hs. Qed.

Lemma strip_trimmed s : strip s <> "" -> is_trimmed (strip s).
Proof. intros H. split; [apply strip_idemp|done]. Qed.

Lemma normalize_optional_Ok v w :
  normalize_optional v = Ok w -> forall r, w = Some r -> is_trimmed r.
Proof. destruct v; cbn; intros [= <-] r Hr; [by apply strip_or_none_strip in Hr|done]. Qed.

Lemma normalize_optional_fix v :
  (forall r, v = Some r -> is_trimmed r) -> normalize_optional v = Ok v.
Proof.
  destruct v as [r|]; [|done]. intros H. destruct (H r) as [H1 H2]; [done|]. cbn.
  by rewrite strip_or_none_fix.
Qed.

Lemma non_empty_entries_Ok f l l' : non_empty_entries f l = Ok l' ->
  l' = strip <$> l /\ Forall is_trimmed l'.
Proof.
  revert l'. induction l as [|s l IH]; intros l'; cbn; [by intros [= <-]|].
  destruct (is_empty (strip s)) eqn:E; [done|].
  intros (k & Hk & [= <-])%res_bind_Ok. destruct (IH _ Hk) as [-> Hf].
  split; [done|]. constructor; [|done]. apply strip_trimmed. intros H. by rewrite H in E.
Qed.

Lemma non_empty_entries_fix f l : Forall is_trimmed l -> non_empty_entries f l = Ok l.
Proof.
  induction 1 as [|s l [Hs Hn] _ IH]; cbn; [done|]. rewrite Hs.
  destruct (is_empty s) eqn:E; [by apply is_empty_spec in E|]. by rewrite IH.
Qed.

Lemma validate_timestamps_Ok c s d : validate_timestamps c s d = Ok tt <-> timestamps_ok c s d.
Proof.
  unfold validate_timestamps, timestamps_ok. split.
  - intros H. destruct s, d; cbn in H; res_inv; split_and!; intros; simplify_eq; lia.
  - intros (H1 & H2 & H3).
    destruct s as [s|], d as [d|]; cbn;
      rewrite ?(proj2 (Z.ltb_ge _ _)) by auto; done.
Qed.

Lemma ensure_jsonable_Ok f v w : ensure_jsonable f v = Ok w <-> w = v /\ jsonable (JObj v) = true.
Proof. unfold ensure_jsonable. destruct (jsonable _); naive_solver. Qed.

Lemma positive_int_Ok f v w : positive_int f v = Ok w <-> w = v /\ 0 < v.
Proof. unfold positive_int. destruct (Z.leb_spec v 0); split; try done; [lia|by intros [= <-]|by intros [-> _]]. Qed.

Lemma non_negative_int_Ok f v w : non_negative_int f v = Ok w <-> w = v /\ 0 <= v.
Proof. unfold non_negative_int. destruct (Z.ltb_spec v 0); split; try done; [lia|by intros [= <-]|by intros [-> _]]. Qed.

Lemma positive_int_fix f v : 0 < v -> positive_int f v = Ok v.
Proof. intros. by apply positive_int_Ok. Qed.

Lemma non_negative_int_fix f v : 0 <= v -> non_negative_int f v = Ok v.
Proof. intros. by apply non_negative_int_Ok. Qed.

Lemma ensure_jsonable_fix f v : jsonable (JObj v) = true -> ensure_jsonable f v = Ok v.
Proof. intros. by apply ensure_jsonable_Ok. Qed.

Lemma uuid_trim f s t : validate_required_id f (IdStr s) = Ok t -> is_uuid4_str t = true.
Proof. intros H. apply (is_uuid4_str_validate f). by eapply validate_required_id_idemp. Qed.

Lemma jsonable_aset k v l : jsonable v = true -> jsonable (JObj l) = true -> jsonable (JObj (aset k v l)) = true.
Proof.
  intros Hv. cbn. induction l as [|[k' v'] l IH]; cbn; [by rewrite Hv|]. intros [H1 H2]%andb_prop.
  destruct (decide _); cbn; [by rewrite Hv, H2|]. rewrite H1. by apply IH.
Qed.

(** Peel an applicative field record: every field validator succeeded. *)
Ltac vld_inv :=
  repeat match goal with
  | H : run _ = Ok _ |- _ => apply run_Ok in H
  | H : after _ _ = VOk _ |- _ => apply after_VOk in H; destruct H as [H ?]
  | H : vap _ _ = VOk _ |- _ => apply vap_VOk in H; destruct H as (? & ? & H & ? & ?)
  | H : VOk _ = VOk _ |- _ => injection H as H
  | H : field _ _ = VOk _ |- _ => apply field_VOk in H
  end; subst.

(** What [ToolCall.model_validate] returns is valid... *)
Lemma ToolCall_model_validate_valid tc tc' :
  ToolCall_model_validate tc = Ok tc' -> valid_tool_call tc'.
Proof.
  unfold ToolCall_model_validate, ToolCall_fields. intros H. vld_inv.
  repeat match goal with
  | H : non_empty _ _ = Ok _ |- _ => apply non_empty_Ok in H as [-> ?]
  | H : ensure_jsonable _ _ = Ok _ |- _ => apply ensure_jsonable_Ok in H as [-> ?]
  end.
  split; cbn; eauto using strip_trimmed, uuid_trim, normalize_optional_Ok.
  by apply validate_timestamps_Ok.
Qed.

(** ... and validating a valid record changes nothing. *)
Lemma ToolCall_model_validate_fix tc : valid_tool_call tc -> ToolCall_model_validate tc = Ok tc.
Proof.
  intros []. unfold ToolCall_model_validate. apply run_Ok, after_VOk. split.
  - unfold ToolCall_fields. rewrite validate_generated_id_str.
    rewrite (proj1 (is_uuid4_str_validate _ _)) by done.
    rewrite !non_empty_fix, normalize_optional_fix by done.
    rewrite ensure_jsonable_fix by done. by destruct tc.
  - by apply validate_timestamps_Ok.
Qed.

Lemma Task_model_validate_valid t t' : Task_model_validate t = Ok t' -> valid_task t'.
Proof.
  unfold Task_model_validate, Task_fields. intros H. vld_inv.
  repeat match goal with
  | H : non_empty _ _ = Ok _ |- _ => apply non_empty_Ok in H as [-> ?]
  | H : ensure_jsonable _ _ = Ok _ |- _ => apply ensure_jsonable_Ok in H as [-> ?]
  | H : positive_int _ _ = Ok _ |- _ => apply positive_int_Ok in H as [-> ?]
  | H : non_negative_int _ _ = Ok _ |- _ => apply non_negative_int_Ok in H as [-> ?]
  | H : non_empty_entries _ _ = Ok _ |- _ => apply non_empty_entries_Ok in H as [_ ?]
  | H : Task_validate_attempt_limits _ = Ok _ |- _ => apply raise_if_Ok in H; cbn in H; apply Z.ltb_ge in H
  end.
  split; cbn; eauto using strip_trimmed, uuid_trim.
  - destruct (tool_call t); cbn in *; [|naive_solver]. intros tc ->.
    res_inv. eauto using ToolCall_model_validate_valid.
  - by apply validate_timestamps_Ok.
Qed.

Lemma Task_model_validate_fix t : valid_task t -> Task_model_validate t = Ok t.
Proof.
  intros []. unfold Task_model_validate. apply run_Ok, after_VOk. split; [apply after_VOk; split|].
  - unfold Task_fields. rewrite validate_generated_id_str.
    rewrite !(proj1 (is_uuid4_str_validate _ _)) by done.
    rewrite !non_empty_fix, !non_empty_entries_fix by done.
    rewrite ensure_jsonable_fix by done.
    rewrite !positive_int_fix, non_negative_int_fix by lia.
    assert (Task_validate_tool_call (tool_call t) = Ok (tool_call t)) as ->.
    { destruct (tool_call t); [|done]. cbn. by rewrite ToolCall_model_validate_fix by auto. }
    by destruct t.
  - apply raise_if_Ok. apply Z.ltb_ge. lia.
  - by apply validate_timestamps_Ok.
Qed.

(** The fields that validation normalises are normal already: then validation
    decides the remaining conditions and returns its argument. *)
Record normal_task (t : Task) : Prop := {
  nt_id : is_uuid4_str (task_id t) = true;
  nt_run_id : is_uuid4_str (run_id t) = true;
  nt_name : is_trimmed (name t);
  nt_tool_call : forall tc, tool_call t = Some tc -> valid_tool_call tc;
  nt_depends_on : Forall is_trimmed (depends_on t);
  nt_labels : Forall is_trimmed (labels t);
  nt_metadata : jsonable (JObj (metadata t)) = true;
}.

Record normal_tool_call (tc : ToolCall) : Prop := {
  ntc_id : is_uuid4_str (tool_call_id tc) = true;
  ntc_name : is_trimmed (tool_name tc);
  ntc_scope : is_trimmed (permission_scope tc);
  ntc_key : is_trimmed (idempotency_key tc);
  ntc_args : jsonable (JObj (args tc)) = true;
  ntc_ref : forall r, result_ref tc = Some r -> is_trimmed r;
}.

Lemma Task_model_validate_iff t t' : normal_task t ->
  Task_model_validate t = Ok t' <-> t' = t /\ valid_task t.
Proof.
  intros []. split; [|by intros [-> ?]; apply Task_model_validate_fix].
  intros H. assert (valid_task t) as Hv; [|apply Task_model_validate_fix in Hv as H'; split; congruence].
  unfold Task_model_validate, Task_fields in H. vld_inv.
  repeat match goal with
  | H : positive_int _ _ = Ok _ |- _ => apply positive_int_Ok in H as [-> ?]
  | H : non_negative_int _ _ = Ok _ |- _ => apply non_negative_int_Ok in H as [-> ?]
  | H : Task_validate_attempt_limits _ = Ok _ |- _ => apply raise_if_Ok in H; cbn in H; apply Z.ltb_ge in H
  | H : Task_validate_timestamps _ = Ok _ |- _ => apply validate_timestamps_Ok in H
  end.
  by split.
Qed.

Lemma ToolCall_model_validate_iff tc tc' : normal_tool_call tc ->
  ToolCall_model_validate tc = Ok tc' <-> tc' = tc /\ valid_tool_call tc.
Proof.
  intros []. split; [|by intros [-> ?]; apply ToolCall_model_validate_fix].
  intros H. assert (valid_tool_call tc) as Hv;
    [|apply ToolCall_model_validate_fix in Hv as H'; split; congruence].
  unfold ToolCall_model_validate, ToolCall_fields in H. vld_inv.
  match goal with H : ToolCall_validate_timestamps _ = Ok _ |- _ => apply validate_timestamps_Ok in H end.
  by split.
Qed.

Lemma valid_task_normal t : valid_task t -> normal_task t.
Proof. by intros []. Qed.
Lemma valid_tool_call_normal tc : valid_tool_call tc -> normal_tool_call tc.
Proof. by intros []. Qed.

#[export] Hint Resolve valid_task_normal valid_tool_call_normal : py.
#[export] Hint Resolve ToolCall_model_validate_valid Task_model_validate_valid : py.

(** ** Properties *)

(** validation normalises: what [Task.model_validate] returns satisfies
    every documented field, attempt and timestamp condition (nested tool call
    included), and validating it again returns it unchanged. *)
Theorem task_validation_normalises t t' : Task_model_validate t = Ok t' ->
  valid_task t' /\ Task_model_validate t' = Ok t'.
Proof.
  intros H%Task_model_validate_valid. split; [done|]. by apply Task_model_validate_fix.
Qed.

Definition raw_task : Task :=
  mkTask "00000000-0000-4000-8000-00000000000B" "urn:uuid:00000000-0000-4000-8000-00000000000c"
    "  write " TaskStatus.PENDING None 0 2 60 [" first "] 1000 None None [] [("k", JInt 1)].

Lemma task_validation_normalises_witness : exists t', Task_model_validate raw_task = Ok t' /\
  name t' = "write" /\ depends_on t' = ["first"] /\ Task_model_validate t' = Ok t'.
Proof.
  eexists. split; [vm_compute; reflexivity|]. split; [reflexivity|]. split; [reflexivity|].
  apply (task_validation_normalises raw_task). vm_compute. reflexivity.
Defined.

Lemma Approval_validate_decided a a' : Approval_model_validate a = Ok a' ->
  ap_status a' = ap_status a /\ decided_at_ms a' = decided_at_ms a /\
  ap_created_at_ms a' = ap_created_at_ms a /\
  Approval_validate_decision_fields a' = Ok tt.
Proof.
  unfold Approval_model_validate, Approval_fields. intros H. vld_inv.
  match goal with H : validate_approval_status ?s = Ok _ |- _ => destruct s; cbn in H; simplify_eq end;
    done.
Qed.

(** a decision is final. Approving or denying an approval that is pending
    gives one with the requested status, the decision time (not before the
    creation) set, and any further decision on that one is refused. *)
Theorem approval_decided_once now now' a s by_ at_ms a' :
  s ∈ [ApprovalStatus.APPROVED; ApprovalStatus.DENIED] ->
  Approval_decide now a s by_ at_ms = Ok a' ->
  ap_status a = ApprovalStatus.PENDING /\ ap_status a' = s /\
  decided_at_ms a' = Some (default now at_ms) /\ ap_created_at_ms a' <= default now at_ms /\
  forall s' by' at', Approval_decide now' a' s' by' at' = Raise (ValueError "approval has already been decided").
Proof.
  intros Hs (u & Hp & H)%res_bind_Ok. apply raise_if_Ok, bool_decide_eq_false, dec_stable in Hp.
  apply Approval_validate_decided in H as (H1 & H2 & H3 & H4). cbn in *.
  unfold Approval_validate_decision_fields in H4. rewrite H2, H3 in H4.
  split; [done|]. split; [done|]. split; [by rewrite H2; destruct at_ms|].
  apply res_bind_Ok in H4 as (u' & Hlt & _). apply raise_if_Ok, Z.ltb_ge in Hlt.
  split; [by rewrite H3; destruct at_ms|]. intros s' by' at'. unfold Approval_decide.
  rewrite bool_decide_true; [done|]. rewrite H1. intros ->. set_solver.
Qed.

Definition sample_approval : Approval :=
  mkApproval "00000000-0000-4000-8000-000000000001" "00000000-0000-4000-8000-000000000002"
    "00000000-0000-4000-8000-000000000003" "00000000-0000-4000-8000-000000000004"
    ApprovalStatus.PENDING 1000 None None None None.

Lemma approval_decided_once_witness : exists a',
  Approval_approve 2000 sample_approval (Some " ops ") None = Ok a' /\
  Approval_deny 3000 a' None None = Raise (ValueError "approval has already been decided").
Proof.
  eexists. split; [vm_compute; reflexivity|].
  eapply (approval_decided_once 2000 3000 sample_approval ApprovalStatus.APPROVED (Some " ops ") None).
  - by left.
  - vm_compute. reflexivity.
Defined.
