(* ===== verification/Serialization.v ===== *)
(** * Canonical JSON and stable digests: [domain/serialization.py]

    [canonical_json] and [stable_sha256], from which idempotency keys, approval
    hashes and event signatures are made. What SHA-256 makes of bytes and how
    Python prints a float are parameters. The results: the parts of a digest
    can be read back from what is hashed, and two values have the same
    canonical text exactly if they differ in the order of dictionary keys at
    most, so that equal keys mean equal calls up to a collision of SHA-256. *)

From Stdlib Require Import ZArith SpecFloat Lia Ascii Sorted DecimalString DecimalZ DecimalPos.
From S2P Require Import Prelude PyFloat PyText Models.

(** ** Text *)

(** A character of a JSON string with [ensure_ascii=False]. *)
Definition escape_char (c : ascii) : string :=
  let n := N_of_ascii c in
  if (c =? dquote)%char || (c =? backslash)%char then String backslash (String c "")
  else if (n =? 8)%N then String backslash "b"
  else if (n =? 12)%N then String backslash "f"
  else if (n =? 10)%N then String backslash "n"
  else if (n =? 13)%N then String backslash "r"
  else if (n =? 9)%N then String backslash "t"
  else if (n <? 32)%N
  then String backslash ("u00" +:+ String (lower_hex (n / 16)) (String (lower_hex (n mod 16)) ""))
  else String c "".

Fixpoint escape (s : string) : string :=
  match s with EmptyString => "" | String c s' => escape_char c +:+ escape s' end.
Definition json_str (s : string) : string := String dquote (escape s +:+ String dquote "").

Fixpoint join (sep : string) (l : list string) : string :=
  match l with
  | [] => ""
  | [s] => s
  | s :: l' => s +:+ sep +:+ join sep l'
  end.

(** [sorted(d.items())]: the keys of a dictionary are distinct. *)
Fixpoint insert_item {A} (p : string * A) (l : list (string * A)) : list (string * A) :=
  match l with
  | [] => [p]
  | q :: l' => if ple p.1 q.1 then p :: l else q :: insert_item p l'
  end.
Definition sort_items {A} (l : list (string * A)) : list (string * A) := foldr insert_item [] l.

Fixpoint sequence {A} (l : list (res A)) : res (list A) :=
  match l with [] => Ok [] | m :: l' => x ← m; xs ← sequence l'; Ok (x :: xs) end.

Lemma sequence_Ok {A B} (f : A -> res B) l r : sequence (map f l) = Ok r <-> Forall2 (fun a b => f a = Ok b) l r.
Proof.
  revert r. induction l as [|a l IH]; intros r; cbn.
  - split; [intros [= <-]; constructor|by inversion 1].
  - rewrite res_bind_Ok. split.
    + intros (b & Hb & (bs & Hbs%IH & [= <-])%res_bind_Ok). by constructor.
    + inversion 1 as [|? b ? bs Hb Hbs]; subst. exists b. split; [done|]. apply IH in Hbs. by rewrite Hbs.
Qed.

Section canonical.
(** [float.__repr__] of a finite float *)
Variable float_repr : spec_float -> string.

Definition member (p : string * res string) : res string := v ← p.2; Ok (json_str p.1 +:+ ":" +:+ v).

Fixpoint canonical_json (v : json) : res string :=
  match v with
  | JNull => Ok "null"
  | JBool true => Ok "true"
  | JBool false => Ok "false"
  | JInt n => Ok (str_of_Z n)
  | JFloat f =>
      if isfinite f then Ok (float_repr f)
      else Raise (ValueError "Out of range float values are not JSON compliant")
  | JStr s => Ok (json_str s)
  | JArr l => items ← sequence (map canonical_json l); Ok ("[" +:+ join "," items +:+ "]")
  | JObj l =>
      members ← sequence (map member (sort_items (map (fun p => (p.1, canonical_json p.2)) l)));
      Ok ("{" +:+ join "," members +:+ "}")
  | JOpaque _ => Raise (TypeError "Object is not JSON serializable")
  end.

(** [json.dumps(value, ensure_ascii=False, separators=(",", ":"), allow_nan=False)]:
    the same with the keys in the order of the dictionary. *)
Fixpoint compact_json (v : json) : res string :=
  match v with
  | JArr l => items ← sequence (map compact_json l); Ok ("[" +:+ join "," items +:+ "]")
  | JObj l =>
      members ← sequence (map (fun p => member (p.1, compact_json p.2)) l);
      Ok ("{" +:+ join "," members +:+ "}")
  | _ => canonical_json v
  end.

(** ** Digests *)

(** [len(data).to_bytes(8, "big")] *)
Fixpoint big_endian (width : nat) (n : Z) : string :=
  match width with
  | O => ""
  | S w => String (ascii_of_N (Z.to_N (n / 256 ^ Z.of_nat w))) (big_endian w (n mod 256 ^ Z.of_nat w))
  end.
Definition frame_part (data : string) : res string :=
  let n := Z.of_nat (String.length data) in
  raise_if (256 ^ 8 <=? n) (OverflowError "int too big to convert");; Ok (big_endian 8 n +:+ data).

(** What the hasher is updated with. *)
Fixpoint frame (parts : list string) : res string :=
  match parts with
  | [] => Ok ""
  | data :: rest => s ← frame_part data; t ← frame rest; Ok (s +:+ t)
  end.

(** [hashlib.sha256(data).hexdigest()] *)
Variable sha256_hex : string -> string.

Definition stable_sha256 (parts : list string) : res string := s ← frame parts; Ok (sha256_hex s).

(** [make_idempotency_key] *)
Definition make_idempotency_key (tool_name : string) (args : list (string * json)) (event_id : string) : res string :=
  raise_if (is_empty (strip tool_name)) (ValueError "tool_name must be non-empty");;
  raise_if (is_empty (strip event_id)) (ValueError "event_id must be non-empty");;
  text ← canonical_json (JObj args);
  stable_sha256 [strip tool_name; text; strip event_id].
End canonical.

Example canonical_sorts : canonical_json (fun _ => "") (JObj [("b", JArr [JInt (-12); JNull]); ("a", JStr "x")]) =
  Ok ("{" +:+ json_str "a" +:+ ":" +:+ json_str "x" +:+ "," +:+ json_str "b" +:+ ":[-12,null]}").
Proof. by vm_compute. Qed.

(** ** Values up to the order of keys *)

(** The value with the keys of every dictionary in order. *)
Fixpoint canon (v : json) : json :=
  match v with
  | JArr l => JArr (map canon l)
  | JObj l => JObj (sort_items (map (fun p => (p.1, canon p.2)) l))
  | _ => v
  end.

(** Floats are floats of the machine. *)
Fixpoint floats_valid (v : json) : Prop :=
  match v with
  | JFloat f => fvalid f = true
  | JArr l => fold_right and True (map floats_valid l)
  | JObj l => fold_right and True (map (fun p => floats_valid p.2) l)
  | _ => True
  end.

Lemma json_nested_ind (P : json -> Prop) :
  P JNull -> (forall b, P (JBool b)) -> (forall n, P (JInt n)) -> (forall f, P (JFloat f)) -> (forall s, P (JStr s)) ->
  (forall l, Forall P l -> P (JArr l)) -> (forall l, Forall (fun p => P p.2) l -> P (JObj l)) ->
  (forall r, P (JOpaque r)) -> forall v, P v.
Proof.
  intros Hn Hb Hi Hf Hs Ha Ho Hr. fix IH 1. intros [| | | | |l|l|]; [done|apply Hb|apply Hi|apply Hf|apply Hs| | |apply Hr].
  - apply Ha. induction l as [|v l IHl]; constructor; [apply IH|exact IHl].
  - apply Ho. induction l as [|p l IHl]; constructor; [apply IH|exact IHl].
Qed.

(** ** Sorting items *)
Lemma insert_item_perm {A} (p : string * A) l : insert_item p l ≡ₚ p :: l.
Proof. induction l as [|q l IH]; cbn; [done|]. destruct (ple _ _); [done|]. rewrite IH. apply perm_swap. Qed.
Lemma sort_items_perm {A} (l : list (string * A)) : sort_items l ≡ₚ l.
Proof. induction l as [|p l IH]; [done|]. change (insert_item p (sort_items l) ≡ₚ p :: l). by rewrite insert_item_perm, IH. Qed.

Lemma sort_items_map {A B} (f : string * A -> string * B) l : (forall p, (f p).1 = p.1) ->
  sort_items (map f l) = map f (sort_items l).
Proof.
  intros Hf. assert (forall p l, insert_item (f p) (map f l) = map f (insert_item p l)) as Hi.
  { intros p l'. induction l' as [|q l' IH]; cbn; [done|]. rewrite !Hf. destruct (ple _ _); [done|]. cbn. by rewrite IH. }
  induction l as [|p l IH]; [done|]. change (insert_item (f p) (sort_items (map f l)) = map f (insert_item p (sort_items l))).
  by rewrite IH, Hi.
Qed.

Definition items_sorted {A} (l : list (string * A)) : Prop := StronglySorted (fun p q => ple p.1 q.1 = true) l.
Lemma insert_item_sorted {A} (p : string * A) l : items_sorted l -> items_sorted (insert_item p l).
Proof.
  induction 1 as [|q l Hl IH Hq]; cbn; [repeat constructor|]. destruct (ple p.1 q.1) eqn:E.
  - constructor; [by constructor|]. constructor; [done|]. eapply Forall_impl; [exact Hq|]. cbn. intros x Hx. by eapply ple_trans.
  - constructor; [exact IH|]. rewrite insert_item_perm. constructor; [|exact Hq]. by apply ple_false.
Qed.
Lemma sort_items_sorted {A} (l : list (string * A)) : items_sorted (sort_items l).
Proof. induction l as [|p l IH]; [constructor|]. by apply insert_item_sorted. Qed.
Lemma sort_items_id {A} (l : list (string * A)) : items_sorted l -> sort_items l = l.
Proof.
  induction 1 as [|p l Hl IH Hp]; [done|]. change (insert_item p (sort_items l) = p :: l). rewrite IH. destruct l as [|q l]; cbn; [done|].
  apply Forall_cons in Hp as [-> _]. done.
Qed.

(** ** Text that is read back *)
Lemma str_app_cons c (a b : string) : String c a +:+ b = String c (a +:+ b).
Proof. done. Qed.
Lemma str_app_empty (b : string) : "" +:+ b = b.
Proof. done. Qed.
Lemma str_app_assoc (a b c : string) : (a +:+ b) +:+ c = a +:+ b +:+ c.
Proof. induction a as [|x a IH]; [done|]. exact (f_equal (String x) IH). Qed.
Lemma str_app_nil (a : string) : a +:+ "" = a.
Proof. induction a as [|x a IH]; [done|]. exact (f_equal (String x) IH). Qed.
Hint Rewrite str_app_cons str_app_empty str_app_assoc : text.

Lemma str_app_split (a b x y : string) : String.length a = String.length b -> a +:+ x = b +:+ y -> a = b /\ x = y.
Proof.
  revert b. induction a as [|c a IH]; intros [|d b]; try done. intros [= Hl]. autorewrite with text. intros [= -> He].
  destruct (IH b Hl He) as [-> ->]. done.
Qed.

Definition delimiter (c : ascii) : bool := (c =? ",")%char || (c =? "]")%char || (c =? "}")%char.
Definition delimited (r : string) : Prop := match r with EmptyString => True | String c _ => delimiter c = true end.
Definition token (s : string) : Prop := all_chars (fun c => negb (delimiter c)) s = true.

(** Two tokens before delimiters. *)
Lemma token_read s s' r r' : token s -> token s' -> delimited r -> delimited r' -> s +:+ r = s' +:+ r' -> s = s' /\ r = r'.
Proof.
  unfold token. revert s'. induction s as [|c s IH]; intros [|d s']; autorewrite with text; try done.
  - intros _ [Hd _]%andb_prop Hr _ ->. cbn in Hr. by rewrite Hr in Hd.
  - intros [Hd _]%andb_prop _ _ Hr <-. cbn in Hr. by rewrite Hr in Hd.
  - intros [_ Hs]%andb_prop [_ Hs']%andb_prop Hr Hr' [= -> He]. destruct (IH s' Hs Hs' Hr Hr' He) as [-> ->]. done.
Qed.

(** Reads one escaped character. *)
Definition hex_digit (c : ascii) : N := let n := N_of_ascii c in if (n <? 58)%N then n - 48 else n - 87.
Definition read_char (t : string) : option (ascii * string) :=
  match t with
  | String c rest =>
      if (c =? dquote)%char then None
      else if (c =? backslash)%char then
        match rest with
        | String "b" x => Some (ascii_of_N 8, x) | String "f" x => Some (ascii_of_N 12, x)
        | String "n" x => Some (ascii_of_N 10, x) | String "r" x => Some (ascii_of_N 13, x)
        | String "t" x => Some (ascii_of_N 9, x)
        | String "u" (String _ (String _ (String h (String l x)))) => Some (ascii_of_N (16 * hex_digit h + hex_digit l), x)
        | String d x => Some (d, x)
        | EmptyString => None
        end
      else Some (c, rest)
  | EmptyString => None
  end.

Lemma read_escaped c x : read_char (escape_char c +:+ x) = Some (c, x).
Proof. destruct c as [[] [] [] [] [] [] [] []]; reflexivity. Qed.

Lemma json_str_read s s' r r' : json_str s +:+ r = json_str s' +:+ r' -> s = s' /\ r = r'.
Proof.
  unfold json_str. autorewrite with text. intros [= He]. revert s' He.
  induction s as [|c s IH]; intros [|d s']; cbn [escape]; autorewrite with text; intros He.
  - by injection He.
  - pose proof (read_escaped d (escape s' +:+ String dquote r')) as Hd. by rewrite <- He in Hd.
  - pose proof (read_escaped c (escape s +:+ String dquote r)) as Hc. by rewrite He in Hc.
  - pose proof (read_escaped c (escape s +:+ String dquote r)) as Hc. rewrite He, read_escaped in Hc.
    injection Hc as -> Hc. destruct (IH s') as [-> ->]; [|done]. by autorewrite with text.
Qed.

(** ** Numbers *)
Definition number_char (c : ascii) : bool :=
  let n := N_of_ascii c in (n =? 45)%N || ((48 <=? n) && (n <? 58))%N.

Lemma uint_chars d : all_chars number_char (NilEmpty.string_of_uint d) = true.
Proof. by induction d. Qed.
Lemma str_of_Z_chars n : exists c s, str_of_Z n = String c s /\ all_chars number_char (String c s) = true.
Proof.
  assert (forall d, exists c s, NilZero.string_of_uint d = String c s /\ all_chars number_char (String c s) = true) as Hu.
  { intros d. pose proof (uint_chars d) as Hd. destruct d; cbn in *; eauto. }
  unfold str_of_Z. destruct (Z.to_int n) as [d|d]; cbn [NilZero.string_of_int]; [apply Hu|].
  destruct (Hu d) as (c & s & -> & Hs). by eexists _, _.
Qed.
Lemma str_of_Z_inj n m : str_of_Z n = str_of_Z m -> n = m.
Proof.
  unfold str_of_Z. intros He. apply DecimalZ.to_int_inj.
  assert (forall k, NilZero.int_of_string (NilZero.string_of_int (Z.to_int k)) = Some (Z.to_int k)) as Hk.
  { intros [|p|p]; [done|..]; apply NilZero.isi; cbn; try done; intros [= E]; by eapply DecimalPos.Unsigned.to_uint_nonnil. }
  pose proof (Hk n) as Hn. rewrite He, Hk in Hn. by injection Hn.
Qed.

Lemma number_char_token s : all_chars number_char s = true -> token s.
Proof.
  unfold token. induction s as [|c s IH]; [done|]. cbn. intros [Hc Hs]%andb_prop. rewrite IH by done. rewrite andb_true_r.
  revert Hc. destruct c as [[] [] [] [] [] [] [] []]; by cbn.
Qed.

(** How Python prints finite floats: by the shortest text that reads back, which
    has a fraction or an exponent. *)
Record FloatRepr (float_repr : spec_float -> string) : Prop := {
  fr_text : forall x, isfinite x = true -> token (float_repr x) /\
    exists c s, float_repr x = String c s /\ number_char c = true;
  fr_not_int : forall x n, isfinite x = true -> float_repr x <> str_of_Z n;
  fr_inj : forall x y, isfinite x = true -> isfinite y = true -> fvalid x = true -> fvalid y = true ->
    float_repr x = float_repr y -> x = y;
}.

(** ** Sequences of items between commas *)
Section items.
Context {A B : Type} (enc : A -> res string) (nf : A -> B) (ok : A -> Prop) (close : ascii).
Hypothesis close_delimiter : delimiter close = true.
Hypothesis close_no_comma : close <> ","%char.
Hypothesis enc_head : forall a t, enc a = Ok t -> exists c s, t = String c s /\ delimiter c = false.

Definition readable (a : A) : Prop := forall a' t t' r r', ok a' -> enc a = Ok t -> enc a' = Ok t' ->
  delimited r -> delimited r' -> t +:+ r = t' +:+ r' -> nf a = nf a' /\ r = r'.

Definition tail_text (ts : list string) : string := foldr (fun u acc => "," +:+ u +:+ acc) "" ts.
Lemma join_cons t ts : join "," (t :: ts) = t +:+ tail_text ts.
Proof.
  revert t. induction ts as [|u ts IH]; intros t; [cbn; by rewrite str_app_nil|].
  change (t +:+ "," +:+ join "," (u :: ts) = t +:+ "," +:+ u +:+ tail_text ts). by rewrite IH.
Qed.
Lemma tail_delimited ts r : delimited (tail_text ts +:+ String close r).
Proof. by destruct ts. Qed.

Lemma sequence_cons_Ok (m : res string) l ts : sequence (m :: l) = Ok ts <->
  exists t ts', ts = t :: ts' /\ m = Ok t /\ sequence l = Ok ts'.
Proof.
  cbn. split.
  - intros (t & -> & (ts' & E & [= <-])%res_bind_Ok)%res_bind_Ok. eauto.
  - intros (t & ts' & -> & -> & E). cbn. by rewrite E.
Qed.

Lemma tail_read l l' ts ts' r r' : Forall readable l -> Forall ok l' ->
  sequence (map enc l) = Ok ts -> sequence (map enc l') = Ok ts' ->
  tail_text ts +:+ String close r = tail_text ts' +:+ String close r' -> map nf l = map nf l' /\ r = r'.
Proof.
  intros Hl. revert l' ts ts'. induction Hl as [|a l Ha Hl IH]; intros [|a' l'] ts ts' Hok.
  - intros [= <-] [= <-]. autorewrite with text. cbn. by intros [= ->].
  - cbn [map]. intros [= <-] (t & us & -> & _ & _)%sequence_cons_Ok. cbn [tail_text foldr]. autorewrite with text. by intros [= ? _].
  - cbn [map]. intros (t & us & -> & _ & _)%sequence_cons_Ok [= <-]. cbn [tail_text foldr]. autorewrite with text. by intros [= ? _].
  - cbn [map]. intros (t & us & -> & Et & Es)%sequence_cons_Ok (t' & us' & -> & Et' & Es')%sequence_cons_Ok.
    apply Forall_cons in Hok as [Ho Hok]. cbn [tail_text foldr]. autorewrite with text. intros [= He].
    destruct (Ha a' t t' _ _ Ho Et Et' (tail_delimited _ _) (tail_delimited _ _) He) as [-> Hr].
    by destruct (IH l' us us' Hok Es Es' Hr) as [-> ->].
Qed.

Lemma items_read l l' ts ts' r r' : Forall readable l -> Forall ok l' ->
  sequence (map enc l) = Ok ts -> sequence (map enc l') = Ok ts' ->
  join "," ts +:+ String close r = join "," ts' +:+ String close r' -> map nf l = map nf l' /\ r = r'.
Proof.
  intros Hl Hok E E' He. destruct l as [|a l], l' as [|a' l']; cbn [map] in *.
  - injection E as <-. injection E' as <-. by injection He.
  - injection E as <-. apply sequence_cons_Ok in E' as (t & us & -> & Et & Es). rewrite join_cons in He.
    destruct (enc_head _ _ Et) as (c & s & -> & Hc). autorewrite with text in He. injection He as -> _. congruence.
  - injection E' as <-. apply sequence_cons_Ok in E as (t & us & -> & Et & Es). rewrite join_cons in He.
    destruct (enc_head _ _ Et) as (c & s & -> & Hc). autorewrite with text in He. injection He as -> _. congruence.
  - apply sequence_cons_Ok in E as (t & us & -> & Et & Es). apply sequence_cons_Ok in E' as (t' & us' & -> & Et' & Es').
    rewrite !join_cons in He. autorewrite with text in He.
    apply Forall_cons in Hok as [Ho Hok]. apply Forall_cons in Hl as [Ha Hl].
    destruct (Ha a' t t' _ _ Ho Et Et' (tail_delimited _ _) (tail_delimited _ _) He) as [-> Hr].
    by destruct (tail_read l l' us us' r r' Hl Hok Es Es' Hr) as [-> ->].
Qed.
End items.

(** ** Canonical text determines the value *)
Section faithful.
Variable float_repr : spec_float -> string.
Context (Hfloats : FloatRepr float_repr).
Notation canonical := (canonical_json float_repr).

(** The kinds of value that the first character of the text tells apart. *)
Definition shape (v : json) : nat :=
  match v with
  | JNull => 0 | JBool true => 1 | JBool false => 2 | JInt _ | JFloat _ => 3 | JStr _ => 4 | JArr _ => 5 | JObj _ => 6
  | JOpaque _ => 7
  end.
Definition shape_of_char (c : ascii) : nat :=
  if (c =? "n")%char then 0 else if (c =? "t")%char then 1 else if (c =? "f")%char then 2
  else if number_char c then 3 else if (c =? dquote)%char then 4 else if (c =? "[")%char then 5 else 6.

Lemma number_shape c : number_char c = true -> shape_of_char c = 3%nat /\ delimiter c = false.
Proof. destruct c as [[] [] [] [] [] [] [] []]; by cbn. Qed.

Lemma canonical_head v t : canonical v = Ok t ->
  exists c s, t = String c s /\ shape_of_char c = shape v /\ delimiter c = false.
Proof.
  destruct v as [|[]|n|f|s|l|l|]; cbn [canonical_json shape]; intros E.
  - injection E as <-. by eexists _, _.
  - injection E as <-. by eexists _, _.
  - injection E as <-. by eexists _, _.
  - injection E as <-. destruct (str_of_Z_chars n) as (c & s & -> & [Hc _]%andb_prop). destruct (number_shape c Hc). by eexists _, _.
  - destruct (isfinite f) eqn:Ef; [|done]. injection E as <-.
    destruct (fr_text _ Hfloats f Ef) as (_ & c & s & -> & Hc). destruct (number_shape c Hc). by eexists _, _.
  - injection E as <-. by eexists _, _.
  - apply res_bind_Ok in E as (ts & _ & [= <-]). by eexists _, _.
  - apply res_bind_Ok in E as (ts & _ & [= <-]). by eexists _, _.
  - done.
Qed.

Lemma scalar_token v t : canonical v = Ok t -> (shape v < 4)%nat -> token t.
Proof.
  destruct v as [|[]|n|f|s|l|l|]; cbn [canonical_json shape]; intros E Hv; try lia.
  - by injection E as <-.
  - by injection E as <-.
  - by injection E as <-.
  - injection E as <-. destruct (str_of_Z_chars n) as (c & s & -> & Hs). by apply number_char_token.
  - destruct (isfinite f) eqn:Ef; [|done]. injection E as <-. by apply (fr_text _ Hfloats).
Qed.

Lemma scalar_eq v v' t : shape v = shape v' -> (shape v < 4)%nat -> floats_valid v -> floats_valid v' ->
  canonical v = Ok t -> canonical v' = Ok t -> v = v'.
Proof.
  destruct v as [|[]|n|f|s|l|l|], v' as [|[]|n'|f'|s'|l'|l'|]; cbn [shape floats_valid canonical_json];
    intros Hs Hv Hf Hf' E E'; try done; try lia;
    repeat match goal with H : (if isfinite ?x then _ else _) = _ |- _ => destruct (isfinite x) eqn:?; [|done] end;
    injection E as E; injection E' as E'; rewrite <- E' in E.
  - f_equal. by apply str_of_Z_inj.
  - symmetry in E. by apply (fr_not_int _ Hfloats) in E.
  - by apply (fr_not_int _ Hfloats) in E.
  - f_equal. by apply (fr_inj _ Hfloats).
Qed.

Lemma map_member l : map (member) (sort_items (map (fun p => (p.1, canonical p.2)) l)) =
  map (fun p => member (p.1, canonical p.2)) (sort_items l).
Proof. rewrite sort_items_map by done. by rewrite map_map. Qed.

Lemma member_head p t : member (p.1, canonical p.2) = Ok t -> exists c s, t = String c s /\ delimiter c = false.
Proof. intros (u & _ & [= <-])%res_bind_Ok. by eexists _, _. Qed.

Lemma floats_forall {A} (f : A -> json) l : fold_right and True (map (fun x => floats_valid (f x)) l) <-> Forall (fun x => floats_valid (f x)) l.
Proof. induction l as [|x l IH]; cbn; [done|]. by rewrite Forall_cons, IH. Qed.

Definition reads_back (v : json) : Prop := forall v' t t' r r', floats_valid v' -> canonical v = Ok t -> canonical v' = Ok t' ->
  delimited r -> delimited r' -> t +:+ r = t' +:+ r' -> canon v = canon v' /\ r = r'.

Lemma member_reads p : reads_back p.2 ->
  readable (fun p => member (p.1, canonical p.2)) (fun p => (p.1, canon p.2)) (fun p => floats_valid p.2) p.
Proof.
  intros Hp p' t t' r r' Hf (u & Eu & [= <-])%res_bind_Ok (u' & Eu' & [= <-])%res_bind_Ok Hr Hr' He.
  rewrite !str_app_assoc in He. apply json_str_read in He as [-> He]. autorewrite with text in He. injection He as He.
  by destruct (Hp p'.2 u u' r r' Hf Eu Eu' Hr Hr' He) as [-> ->].
Qed.

Lemma same_head v v' t t' r r' : canonical v = Ok t -> canonical v' = Ok t' -> t +:+ r = t' +:+ r' -> shape v = shape v'.
Proof.
  intros (c & u & -> & <- & _)%canonical_head (c' & u' & -> & <- & _)%canonical_head. autorewrite with text. by intros [= -> _].
Qed.

Lemma scalar_canon v : (shape v < 4)%nat -> canon v = v.
Proof. destruct v; cbn; by try lia. Qed.

Lemma scalar_reads v : (shape v < 4)%nat -> floats_valid v -> reads_back v.
Proof.
  intros Hs Hf v' t t' r r' Hf' E E' Hr Hr' He. pose proof (same_head _ _ _ _ _ _ E E' He) as Hsh.
  assert (shape v' < 4)%nat as Hs' by (by rewrite <- Hsh).
  destruct (token_read t t' r r') as [<- ->]; eauto using scalar_token.
  rewrite !scalar_canon by done. split; [|done]. by eapply scalar_eq.
Qed.

Lemma canonical_reads v : floats_valid v -> reads_back v.
Proof.
  induction v as [|b|n|f|s|l IH|l IH|x] using json_nested_ind; intros Hf.
  1-4: apply scalar_reads; [cbn; try destruct b; lia|done].
  - intros v' t t' r r' Hf' E E' Hr Hr' He. pose proof (same_head _ _ _ _ _ _ E E' He).
    destruct v' as [|[]| | |s'| | |]; try done. injection E as <-. injection E' as <-. by apply json_str_read in He as [-> ->].
  - intros v' t t' r r' Hf' E E' Hr Hr' He. pose proof (same_head _ _ _ _ _ _ E E' He).
    destruct v' as [|[]| | | |l'| |]; try done. cbn in E, E', Hf, Hf'.
    apply res_bind_Ok in E as (ts & E & [= <-]). apply res_bind_Ok in E' as (ts' & E' & [= <-]).
    autorewrite with text in He. injection He as He. apply floats_forall in Hf, Hf'.
    destruct (items_read canonical canon floats_valid "]" ltac:(done) ltac:(done)
      ltac:(intros a u (c & s & ? & _ & ?)%canonical_head; eauto) l l' ts ts' r r') as [Hm ->]; try done.
    { apply Forall_forall. intros a Ha. rewrite Forall_forall in IH, Hf. exact (IH a Ha (Hf a Ha)). }
    split; [|done]. cbn. by rewrite Hm.
  - intros v' t t' r r' Hf' E E' Hr Hr' He. pose proof (same_head _ _ _ _ _ _ E E' He).
    destruct v' as [|[]| | | | |l'|]; try done. cbn in E, E', Hf, Hf'.
    apply res_bind_Ok in E as (ts & E & [= <-]). apply res_bind_Ok in E' as (ts' & E' & [= <-]). rewrite map_member in E, E'.
    autorewrite with text in He. injection He as He. apply floats_forall in Hf, Hf'.
    destruct (items_read (fun p => member (p.1, canonical p.2)) (fun p => (p.1, canon p.2)) (fun p => floats_valid p.2) "}"
      ltac:(done) ltac:(done) (fun p u => member_head p u) (sort_items l) (sort_items l') ts ts' r r') as [Hm ->]; try done.
    { rewrite sort_items_perm. apply Forall_forall. intros p Hp. rewrite Forall_forall in IH, Hf. apply member_reads. exact (IH p Hp (Hf p Hp)). }
    { by rewrite sort_items_perm. }
    split; [|done]. cbn. by rewrite !sort_items_map, Hm.
  - by intros v' t t' r r' _ E.
Qed.

(** The order of keys does not change the text. *)
Lemma canonical_canon v : canonical (canon v) = canonical v.
Proof.
  induction v as [|b|n|f|s|l IH|l IH|x] using json_nested_ind; try done.
  - cbn. rewrite map_map. do 2 f_equal. apply map_ext_Forall. exact IH.
  - cbn. rewrite sort_items_map, sort_items_map by done. rewrite (sort_items_map _ (sort_items _)) by done.
    rewrite (sort_items_id (sort_items l)) by apply sort_items_sorted. rewrite sort_items_map by done. rewrite !map_map.
    do 2 f_equal. apply map_ext_Forall. rewrite sort_items_perm. eapply Forall_impl; [exact IH|]. cbn. intros p Hp.
    unfold member. cbn. by rewrite Hp.
Qed.

Lemma sequence_ok {A} (l : list (res A)) : is_ok (sequence l) = forallb is_ok l.
Proof. induction l as [|[a|e] l IH]; cbn; [done| |done]. rewrite <- IH. by destruct (sequence l). Qed.

Lemma sequence_map_ok {A B} (f : A -> res B) (ok : A -> bool) l : Forall (fun a => is_ok (f a) = ok a) l ->
  is_ok (sequence (map f l)) = forallb ok l.
Proof. intros Hl. rewrite sequence_ok. induction Hl as [|a l Ha Hl IH]; cbn; [done|]. by rewrite Ha, IH. Qed.

Lemma forallb_perm {A} (f : A -> bool) l l' : l ≡ₚ l' -> forallb f l = forallb f l'.
Proof. induction 1; cbn; [done|congruence| |congruence]. by rewrite !andb_assoc, (andb_comm (f y)). Qed.

Lemma canonical_ok v : is_ok (canonical v) = jsonable v.
Proof.
  induction v as [|[]|n|f|s|l IH|l IH|x] using json_nested_ind; cbn; try done; [by destruct (isfinite f)|..].
  - rewrite <- (sequence_map_ok canonical jsonable) by done. by destruct (sequence _).
  - rewrite map_member, <- (forallb_perm _ _ _ (sort_items_perm l)).
    rewrite <- (sequence_map_ok (fun p => member (p.1, canonical p.2)) (fun p => jsonable p.2)); [by destruct (sequence _)|].
    rewrite sort_items_perm. eapply Forall_impl; [exact IH|]. cbn. intros p <-. unfold member. cbn. by destruct (canonical p.2).
Qed.

Lemma compact_ok v : is_ok (compact_json float_repr v) = jsonable v.
Proof.
  induction v as [|[]|n|f|s|l IH|l IH|x] using json_nested_ind; cbn; try done; [by destruct (isfinite f)|..].
  - rewrite <- (sequence_map_ok (compact_json float_repr) jsonable) by done. by destruct (sequence _).
  - rewrite <- (sequence_map_ok (fun p => member (p.1, compact_json float_repr p.2)) (fun p => jsonable p.2)); [by destruct (sequence _)|].
    eapply Forall_impl; [exact IH|]. cbn. intros p <-. unfold member. cbn. by destruct (compact_json float_repr p.2).
Qed.

(** The canonical text of a JSON value exists, and two values have the same text
    exactly if they differ in the order of keys only. *)
Lemma canonical_same v v' t t' : floats_valid v -> floats_valid v' -> canonical v = Ok t -> canonical v' = Ok t' ->
  t = t' <-> canon v = canon v'.
Proof.
  intros Hf Hf' E E'. split; intros He.
  - destruct (canonical_reads v Hf v' t t' "" "") as [Hc _]; try done. by rewrite He.
  - rewrite <- canonical_canon, He, canonical_canon in E. congruence.
Qed.

(** ... and an order of keys is no more than that. *)
Lemma insert_item_comm {A} (p q : string * A) l : p.1 <> q.1 ->
  insert_item p (insert_item q l) = insert_item q (insert_item p l).
Proof.
  intros Hn. assert (forall x y : string * A, x.1 <> y.1 -> ple x.1 y.1 = true -> ple y.1 x.1 = false) as Ha.
  { intros x y Hxy E. destruct (ple y.1 x.1) eqn:E'; [|done]. by destruct Hxy; apply ple_antisym. }
  induction l as [|r l IH]; cbn.
  - destruct (ple p.1 q.1) eqn:E; [by rewrite Ha|]. by rewrite (ple_false _ _ E).
  - destruct (ple p.1 r.1) eqn:Ep, (ple q.1 r.1) eqn:Eq; cbn; rewrite ?Ep, ?Eq.
    + destruct (ple p.1 q.1) eqn:E; [by rewrite Ha|]. by rewrite (ple_false _ _ E).
    + destruct (ple q.1 p.1) eqn:E; [|done]. by rewrite (ple_trans _ _ _ E Ep) in Eq.
    + destruct (ple p.1 q.1) eqn:E; [|done]. by rewrite (ple_trans _ _ _ E Eq) in Ep.
    + by rewrite IH.
Qed.

Lemma sort_items_order {A} (l l' : list (string * A)) : l ≡ₚ l' -> NoDup l.*1 -> sort_items l = sort_items l'.
Proof.
  induction 1 as [|p l l' Hp IH|p q l|l l' l'' Hp1 IH1 Hp2 IH2]; intros Hd; [done|..].
  - apply NoDup_cons in Hd as [_ Hd]. change (insert_item p (sort_items l) = insert_item p (sort_items l')). by rewrite IH.
  - apply insert_item_comm. apply NoDup_cons in Hd as [Hd _]. intros He. apply Hd. rewrite He. by left.
  - rewrite IH1 by done. apply IH2. by rewrite <- Hp1.
Qed.

Lemma canonical_order l l' : l ≡ₚ l' -> NoDup l.*1 -> canonical (JObj l) = canonical (JObj l').
Proof.
  intros Hp Hd. rewrite <- (canonical_canon (JObj l)), <- (canonical_canon (JObj l')). cbn [canon].
  rewrite (sort_items_order _ (map (fun p => (p.1, canon p.2)) l')); [done|by apply fmap_Permutation|].
  change (NoDup ((fun p => (p.1, canon p.2)) <$> l).*1). by rewrite <- list_fmap_compose.
Qed.
End faithful.

(** ** What is hashed determines the parts *)
Fixpoint be_value (acc : Z) (s : string) : Z :=
  match s with EmptyString => acc | String c s' => be_value (256 * acc + Z.of_N (N_of_ascii c)) s' end.

Lemma be_length w n : String.length (big_endian w n) = w.
Proof. revert n. induction w as [|w IH]; intros n; cbn [big_endian String.length]; [done|]. by rewrite IH. Qed.
Lemma be_read w n acc : 0 <= n < 256 ^ Z.of_nat w -> be_value acc (big_endian w n) = acc * 256 ^ Z.of_nat w + n.
Proof.
  revert n acc. induction w as [|w IH]; intros n acc Hn.
  - cbn in *. lia.
  - rewrite Nat2Z.inj_succ, Z.pow_succ_r in * by lia. cbn [big_endian be_value].
    pose proof (Z.pow_pos_nonneg 256 (Z.of_nat w) ltac:(lia) ltac:(lia)) as Hp.
    assert (0 <= n / 256 ^ Z.of_nat w < 256) as Hd by (split; [apply Z.div_pos; lia|apply Z.div_lt_upper_bound; lia]).
    rewrite N_ascii_embedding by lia. rewrite IH by (by apply Z.mod_pos_bound).
    rewrite Z2N.id by lia. pose proof (Z_div_mod_eq_full n (256 ^ Z.of_nat w)). nia.
Qed.

Opaque big_endian.
Lemma frame_part_Ok data s : frame_part data = Ok s ->
  Z.of_nat (String.length data) < 256 ^ 8 /\ s = big_endian 8 (Z.of_nat (String.length data)) +:+ data.
Proof. unfold frame_part. intros (u & Hu%raise_if_Ok & [= <-])%res_bind_Ok. split; [by apply Z.leb_gt|done]. Qed.

Lemma frame_parts_inj parts parts' s : frame parts = Ok s -> frame parts' = Ok s -> parts = parts'.
Proof.
  revert parts' s. induction parts as [|a l IH]; intros [|a' l'] s; cbn [frame].
  - done.
  - intros [= <-] (x & [_ ->]%frame_part_Ok & (y & _ & [=])%res_bind_Ok)%res_bind_Ok.
  - intros (x & [_ ->]%frame_part_Ok & (y & _ & [= <-])%res_bind_Ok)%res_bind_Ok [=].
  - intros (x & [Hx ->]%frame_part_Ok & (y & Ey & [= <-])%res_bind_Ok)%res_bind_Ok.
    intros (x' & [Hx' ->]%frame_part_Ok & (y' & Ey' & He)%res_bind_Ok)%res_bind_Ok.
    assert (forall a b : string, Ok a = Ok b -> a = b) as Hok by congruence. apply Hok in He.
    rewrite !str_app_assoc in He. apply str_app_split in He as [Hn He]; [|by rewrite !be_length].
    pose proof (f_equal (be_value 0) Hn) as Hl. rewrite !be_read in Hl by (change (Z.of_nat 8) with 8; lia).
    apply str_app_split in He as [-> ->]; [|lia]. f_equal. by eapply IH.
Qed.
Transparent big_endian.

(** ** A printer of floats with these properties *)
Definition float_code (x : spec_float) : positive :=
  match x with
  | S754_finite s m e => encode (s, Some (m, e))
  | S754_zero s => encode (s, @None (positive * Z))
  | _ => 1
  end.
Definition sample_float_repr (x : spec_float) : string := "0e" +:+ str_of_Z (Zpos (float_code x)).

Lemma sample_float_repr_ok : FloatRepr sample_float_repr.
Proof.
  split.
  - intros x _. destruct (str_of_Z_chars (Zpos (float_code x))) as (c & s & E & Hs). unfold sample_float_repr. rewrite E.
    split; [|by eexists _, _]. apply number_char_token in Hs. exact Hs.
  - intros x n _ E. destruct (str_of_Z_chars n) as (c & s & E' & Hs). rewrite E' in E. unfold sample_float_repr in E.
    injection E as <- <-. done.
  - intros x y Hx Hy _ _ E. assert (float_code x = float_code y) as Hc.
    { injection E as E. apply str_of_Z_inj in E. by injection E. }
    destruct x as [s| | |s m e], y as [s'| | |s' m' e']; try done; unfold float_code in Hc; apply (inj encode) in Hc; by simplify_eq.
Qed.
