(* ===== verification/Truncation.v ===== *)
(** * Truncation: [observability/truncation.py]

    Size estimates and truncation of JSON-like values to a budget of bytes.
    Text is UTF-8; an object that is no JSON value is its [str]. Byte strings,
    tuples and cycles are not JSON values and are left out. The results: a
    truncated value never has more bytes than its budget, and a value with room
    to spare is not changed. *)

From Stdlib Require Import ZArith SpecFloat Lia Ascii.
From S2P Require Import Prelude PyFloat PyText Models Serialization.

Definition TRUNCATION_MARKER : string := "<truncated>".
Definition NONFINITE_FLOAT_REPLACEMENT : string := "<non-finite-float>".

Definition bytes (s : string) : Z := Z.of_nat (String.length s).

(** [data.decode("utf-8", errors="ignore")] of the beginning of valid UTF-8:
    the characters that are there as a whole. *)
Definition utf8_length (c : ascii) : nat :=
  let n := N_of_ascii c in if (n <? 192)%N then 1 else if (n <? 224)%N then 2 else if (n <? 240)%N then 3 else 4.
Fixpoint whole_chars (fuel : nat) (s : string) : string :=
  match fuel, s with
  | S fuel', String c _ =>
      if (utf8_length c <=? String.length s)%nat
      then stake (utf8_length c) s +:+ whole_chars fuel' (sdrop (utf8_length c) s)
      else ""
  | _, _ => ""
  end.
Definition decode_ignore (s : string) : string := whole_chars (String.length s) s.

(** The body of [truncate_str], for [max_bytes] >= 0. *)
Definition truncate_text (value : string) (max_bytes : Z) (marker : string) : string :=
  if bytes value <=? max_bytes then value
  else if max_bytes <=? bytes marker then decode_ignore (stake (Z.to_nat max_bytes) marker)
  else decode_ignore (stake (Z.to_nat (max_bytes - bytes marker)) value) +:+ marker.
Definition truncate_str (value : string) (max_bytes : Z) (marker : string) : res string :=
  raise_if (max_bytes <? 0) (ValueError "max_bytes must be >= 0");;
  Ok (truncate_text value max_bytes marker).

Example truncates : truncate_text "abcdefghijklmnop" 13 TRUNCATION_MARKER = "ab<truncated>" /\ truncate_text "abcdef" 3 TRUNCATION_MARKER = "<tr".
Proof. by vm_compute. Qed.

Section truncation.
Variable float_repr : spec_float -> string.
Variables (max_depth max_items : nat).

(** [_estimate_size_bytes] of a value that is no container. *)
Definition scalar_size (v : json) : Z :=
  match v with
  | JBool b => if b then 4 else 5
  | JInt n => bytes (str_of_Z n)
  | JFloat f => if isfinite f then bytes (float_repr f) else bytes NONFINITE_FLOAT_REPLACEMENT
  | JStr s => bytes s
  | JOpaque r => bytes r
  | _ => 0
  end.

(** [_estimate_size_bytes], with the depth that is left. *)
Definition zsum (l : list Z) : Z := foldr Z.add 0 l.
Fixpoint estimate (room : nat) (v : json) : Z :=
  match v, room with
  | JObj _, O | JArr _, O | JOpaque _, O => bytes TRUNCATION_MARKER
  | JObj l, S room =>
      zsum (take max_items (map (fun p => bytes p.1 + estimate room p.2) l)) +
      (if (max_items <? length l)%nat then bytes TRUNCATION_MARKER else 0)
  | JArr l, S room =>
      zsum (take max_items (map (estimate room) l)) + (if (max_items <? length l)%nat then bytes TRUNCATION_MARKER else 0)
  | v, _ => scalar_size v
  end.
Definition estimate_size_bytes (v : json) : Z := estimate max_depth v.

(** A piece of text in the place of a value. *)
Definition replaced (text : string) (budget : Z) : json * Z * bool := (JStr text, Z.max 0 (budget - bytes text), true).

Variable marker : string.

(** The end of the loop over a mapping and over a sequence. *)
Definition mark_object (remaining : Z) (result : list (string * json)) : list (string * json) :=
  let marker_key := truncate_text marker remaining marker in
  if is_empty marker_key then result else aset marker_key (JStr "") result.
Definition end_object (total : nat) (remaining : Z) (result : list (string * json)) : json * Z * bool :=
  if (length result <? total)%nat && (0 <? remaining) then (JObj (mark_object remaining result), 0, true)
  else (JObj result, remaining, false).
Definition mark_array (remaining : Z) (items : list json) : list json :=
  (items ++ [JStr (truncate_text marker remaining marker)])%list.
Definition end_array (total : nat) (remaining : Z) (items : list json) : json * Z * bool :=
  if (length items <? total)%nat && (0 <? remaining) then (JArr (mark_array remaining items), 0, true)
  else (JArr items, remaining, false).

(** What is kept back for the marker while items follow. *)
Definition reserve (total idx : nat) : Z := if (S idx <? total)%nat then bytes marker else 0.

(** The loops; [truncate] cuts a value to a budget. *)
Section loops.
Variable truncate : json -> Z -> json.
Variable total : nat.

Fixpoint object_items (rest : list (string * json)) (idx : nat) (remaining : Z) (result : list (string * json)) : json * Z * bool :=
  match rest with
  | [] => end_object total remaining result
  | (key, value) :: rest =>
      if (max_items <=? idx)%nat then (JObj (if 0 <? remaining then mark_object remaining result else result), 0, true)
      else
        let item_budget := remaining - reserve total idx in
        if (item_budget <=? 0) || (item_budget <? bytes key) then end_object total remaining result
        else
          let out_value := truncate value (item_budget - bytes key) in
          let item_size := bytes key + estimate_size_bytes out_value in
          if item_budget <? item_size then end_object total remaining result
          else object_items rest (S idx) (remaining - item_size) (aset key out_value result)
  end.

Fixpoint array_items (rest : list json) (idx : nat) (remaining : Z) (items : list json) : json * Z * bool :=
  match rest with
  | [] => end_array total remaining items
  | item :: rest =>
      if (max_items <=? idx)%nat then (JArr (if 0 <? remaining then mark_array remaining items else items), 0, true)
      else
        let item_budget := remaining - reserve total idx in
        if item_budget <=? 0 then end_array total remaining items
        else
          let out_item := truncate item item_budget in
          let item_size := estimate_size_bytes out_item in
          if item_budget <? item_size then end_array total remaining items
          else array_items rest (S idx) (remaining - item_size) (items ++ [out_item])%list
  end.
End loops.

(** [_truncate_with_budget], with the depth that is left: the value, the rest of
    the budget, and whether something was cut. *)
Definition emptied (v : json) : json := match v with JObj _ => JObj [] | JArr _ => JArr [] | _ => JStr "" end.
Definition truncate_scalar (v : json) (budget : Z) : json * Z * bool :=
  if scalar_size v <=? budget then (v, budget - scalar_size v, false) else (JStr (truncate_text marker budget marker), 0, true).
Fixpoint truncate_with_budget (room : nat) (v : json) (budget : Z) : json * Z * bool :=
  if budget <=? 0 then (emptied v, 0, true)
  else
    match v, room with
    | JFloat f, _ =>
        if isfinite f then truncate_scalar v budget else replaced (truncate_text NONFINITE_FLOAT_REPLACEMENT budget marker) budget
    | JStr s, _ => if bytes s <=? budget then (v, budget - bytes s, false) else replaced (truncate_text s budget marker) budget
    | JObj l, S room =>
        object_items (fun value item_budget => (truncate_with_budget room value item_budget).1.1) (length l) l 0 budget []
    | JArr l, S room =>
        array_items (fun item item_budget => (truncate_with_budget room item item_budget).1.1) (length l) l 0 budget []
    | JOpaque text, S _ =>
        let cut := truncate_text text budget marker in
        (JStr cut, Z.max 0 (budget - bytes cut), negb (cut =? text)%string)
    | JObj _, O | JArr _, O | JOpaque _, O => replaced (truncate_text marker budget marker) budget
    | v, _ => truncate_scalar v budget
    end.

(** [truncate_collection] *)
Definition truncate_collection (v : json) (max_bytes : Z) : res json :=
  raise_if (max_bytes <? 0) (ValueError "max_bytes must be >= 0");;
  Ok (truncate_with_budget max_depth v max_bytes).1.1.
End truncation.

Example truncates_items :
  truncate_collection (fun _ => "") 8 200 TRUNCATION_MARKER (JObj [("a", JStr "0123456789"); ("b", JArr [JInt 1; JNull]); ("c", JInt 5)]) 25 =
  Ok (JObj [("a", JStr "0123456789"); ("b", JArr [JStr "<t"]); ("c", JInt 5)]).
Proof. by vm_compute. Qed.

(** ** Sizes *)
Lemma length_stake n s : (String.length (stake n s) <= n)%nat.
Proof. revert s. induction n as [|n IH]; intros [|c s]; cbn; [lia..|]. specialize (IH s). lia. Qed.
Lemma length_stake_sdrop n s : (String.length (stake n s) + String.length (sdrop n s) = String.length s)%nat.
Proof. revert s. induction n as [|n IH]; intros [|c s]; cbn; [lia..|]. specialize (IH s). lia. Qed.
Lemma length_whole fuel s : (String.length (whole_chars fuel s) <= String.length s)%nat.
Proof.
  revert s. induction fuel as [|fuel IH]; intros [|c s]; cbn [whole_chars]; [cbn; lia..|]. destruct (_ <=? _)%nat; [|cbn; lia].
  rewrite str_app_length. pose proof (length_stake_sdrop (utf8_length c) (String c s)). specialize (IH (sdrop (utf8_length c) (String c s))). lia.
Qed.
Lemma decode_stake_bytes n s : 0 <= n -> bytes (decode_ignore (stake (Z.to_nat n) s)) <= n.
Proof. intros. unfold bytes, decode_ignore. pose proof (length_whole (String.length (stake (Z.to_nat n) s)) (stake (Z.to_nat n) s)). pose proof (length_stake (Z.to_nat n) s). lia. Qed.
Lemma bytes_app a b : bytes (a +:+ b) = bytes a + bytes b.
Proof. unfold bytes. rewrite str_app_length. lia. Qed.
Lemma bytes_nonneg s : 0 <= bytes s.
Proof. unfold bytes. lia. Qed.

Lemma truncate_text_bytes value n marker : 0 <= n -> bytes (truncate_text value n marker) <= n.
Proof.
  intros Hn. unfold truncate_text. destruct (Z.leb_spec (bytes value) n); [done|]. destruct (Z.leb_spec n (bytes marker)); [by apply decode_stake_bytes|].
  rewrite bytes_app. pose proof (decode_stake_bytes (n - bytes marker) value ltac:(lia)). lia.
Qed.

Section facts.
Variable float_repr : spec_float -> string.
Variables (max_depth max_items : nat).
Variable marker : string.

(** The bytes of all keys and scalars. *)
Fixpoint full_size (v : json) : Z :=
  match v with
  | JObj l => zsum (map (fun p => bytes p.1 + full_size p.2) l)
  | JArr l => zsum (map full_size l)
  | v => scalar_size float_repr v
  end.
Definition item_size (p : string * json) : Z := bytes p.1 + full_size p.2.

Lemma scalar_size_nonneg v : 0 <= scalar_size float_repr v.
Proof. destruct v as [|[]| |f| | | |]; cbn; try lia; try apply bytes_nonneg. by destruct (isfinite f); apply bytes_nonneg. Qed.
Lemma zsum_app l l' : zsum (l ++ l') = zsum l + zsum l'.
Proof. induction l as [|n l IH]; cbn [zsum foldr app]; [done|]. fold (zsum (l ++ l')) (zsum l). lia. Qed.
Lemma zsum_cons n l : zsum (n :: l) = n + zsum l.
Proof. done. Qed.
Lemma zsum_le {A} (f g : A -> Z) l : Forall (fun a => f a <= g a) l -> zsum (map f l) <= zsum (map g l).
Proof. induction 1; cbn [map]; rewrite ?zsum_cons; lia. Qed.
Lemma zsum_nonneg l : Forall (Z.le 0) l -> 0 <= zsum l.
Proof. induction 1; rewrite ?zsum_cons; cbn; lia. Qed.
Lemma full_size_nonneg v : 0 <= full_size v.
Proof.
  induction v as [|b|n|f|s|l IH|l IH|x] using json_nested_ind; cbn [full_size]; try apply scalar_size_nonneg; apply zsum_nonneg, Forall_map.
  - done.
  - eapply Forall_impl; [exact IH|]. intros p Hp. cbn in *. pose proof (bytes_nonneg p.1). lia.
Qed.
Lemma item_size_nonneg p : 0 <= item_size p.
Proof. unfold item_size. pose proof (bytes_nonneg p.1). pose proof (full_size_nonneg p.2). lia. Qed.
Lemma sizes_aset k v l : zsum (map item_size (aset k v l)) <= zsum (map item_size l) + (bytes k + full_size v).
Proof.
  change (bytes k + full_size v) with (item_size (k, v)). induction l as [|[k' v'] l IH]; cbn [aset map]; [rewrite !zsum_cons; cbn; lia|]. case_decide; cbn [map]; rewrite !zsum_cons; [|lia].
  pose proof (item_size_nonneg (k', v')). lia.
Qed.

(** *** The budget is kept *)
#[local] Notation estimate_size_bytes := (estimate_size_bytes float_repr max_depth max_items).
#[local] Notation truncate := (truncate_with_budget float_repr max_depth max_items marker).

(** An estimate that leaves enough depth counts every byte. *)
Definition counted (room : nat) (v : json) : Prop := forall m, (room <= m)%nat -> full_size v <= estimate float_repr max_items m v.

Definition small_marker : Prop := bytes marker <= bytes TRUNCATION_MARKER.

(** A list within the limit, or one longer by a marker. *)
Definition within_items {A} (size : A -> Z) (l : list A) : Prop :=
  (length l <= max_items)%nat \/
  exists l' x, l = (l' ++ [x])%list /\ length l' = max_items /\ size x <= bytes TRUNCATION_MARKER.

Lemma capped_sum {A} (f g : A -> Z) l : within_items f l -> Forall (fun a => f a <= g a) l ->
  zsum (map f l) <= zsum (take max_items (map g l)) + (if (max_items <? length l)%nat then bytes TRUNCATION_MARKER else 0).
Proof.
  intros [Hl|(l' & x & -> & Hl & Hx)] Hfg.
  - rewrite take_ge by (by rewrite length_map). destruct (Nat.ltb_spec max_items (length l)); [lia|]. pose proof (zsum_le f g l Hfg). lia.
  - rewrite !map_app, take_app_le by (rewrite length_map; lia). rewrite take_ge by (rewrite length_map; lia).
    apply Forall_app in Hfg as [Hfg _]. pose proof (zsum_le f g l' Hfg). rewrite zsum_app. cbn [map]. rewrite zsum_cons.
    rewrite length_app. cbn [length]. destruct (Nat.ltb_spec max_items (length l' + 1)); [|lia]. cbn. lia.
Qed.

Lemma counted_array room l : within_items full_size l -> Forall (counted room) l -> counted (S room) (JArr l).
Proof.
  intros Hl Hc [|m] Hm; [lia|]. cbn [full_size estimate]. apply capped_sum; [done|]. eapply Forall_impl; [exact Hc|].
  intros v Hv. apply Hv. lia.
Qed.
Lemma counted_object room l : within_items item_size l -> Forall (fun p => counted room p.2) l -> counted (S room) (JObj l).
Proof.
  intros Hl Hc [|m] Hm; [lia|]. cbn [full_size estimate]. apply (capped_sum item_size); [done|]. eapply Forall_impl; [exact Hc|].
  intros p Hp. unfold item_size. specialize (Hp m ltac:(lia)). lia.
Qed.
Lemma counted_scalar room v : (forall l, v <> JObj l) -> (forall l, v <> JArr l) -> (forall s, v <> JOpaque s) -> counted room v.
Proof. intros Ho Ha Hq m _. destruct v; cbn [full_size estimate]; try (by destruct m); naive_solver. Qed.
Lemma counted_str room s : counted room (JStr s).
Proof. by apply counted_scalar. Qed.
Lemma counted_empty room v : counted room (emptied v).
Proof.
  pose proof (bytes_nonneg TRUNCATION_MARKER). intros m _. destruct v; cbn [emptied full_size]; try (by destruct m);
    (destruct m; cbn [estimate map]; [done|rewrite take_nil; by destruct (_ <? _)%nat]).
Qed.

Lemma aset_absent {A} (k : string) (v : A) l : k ∉ keys l -> aset k v l = (l ++ [(k, v)])%list.
Proof.
  induction l as [|[k' v'] l IH]; cbn; [done|]. intros [Hk Hl]%not_elem_of_cons. rewrite decide_False by done. by rewrite IH.
Qed.
Lemma length_aset {A} (k : string) (v : A) l : k ∈ keys l -> length (aset k v l) = length l.
Proof. intros Hk. assert (length (keys (aset k v l)) = length (keys l)) as H by (by rewrite keys_aset, decide_True). unfold keys in H. by rewrite !length_fmap in H. Qed.
Lemma length_aset_le {A} (k : string) (v : A) l : (length (aset k v l) <= S (length l))%nat.
Proof. destruct (decide (k ∈ keys l)); [rewrite length_aset by done; lia|]. rewrite aset_absent, length_app by done. cbn. lia. Qed.
Lemma Forall_aset {A} (P : A -> Prop) (k : string) v l : P v -> Forall (fun p => P p.2) l -> Forall (fun p => P p.2) (aset k v l).
Proof. intros Hv. induction 1 as [|[k' v'] l Hp Hl IH]; cbn [aset]; [by constructor|]. case_decide; by constructor. Qed.

Lemma marker_bytes n : 0 <= n -> small_marker -> bytes (truncate_text marker n marker) <= bytes TRUNCATION_MARKER.
Proof.
  intros Hn Hm. unfold truncate_text. destruct (Z.leb_spec (bytes marker) n); [done|]. destruct (Z.leb_spec n (bytes marker)); [|lia].
  pose proof (decode_stake_bytes n marker Hn). unfold small_marker in Hm. lia.
Qed.

(** What a loop may return for a budget. *)
Definition keeps (room : nat) (budget : Z) (r : json * Z * bool) : Prop := full_size r.1.1 <= budget /\ counted room r.1.1.

Lemma mark_object_keeps room budget remaining result : small_marker -> 0 <= remaining -> (length result <= max_items)%nat ->
  zsum (map item_size result) <= budget - remaining -> Forall (fun p => counted room p.2) result ->
  keeps (S room) budget (JObj (mark_object marker remaining result), 0, true).
Proof.
  intros Hm Hr Hl Hs Hc. unfold keeps, mark_object. cbn [fst]. set (mk := truncate_text marker remaining marker).
  pose proof (truncate_text_bytes marker remaining marker Hr) as Hb. pose proof (marker_bytes remaining Hr Hm) as Hb'. fold mk in Hb, Hb'.
  destruct (is_empty mk); [split; [cbn [full_size]; fold item_size; change (zsum (map item_size result) <= budget); lia|]; apply counted_object; [by left|done]|].
  split.
  - cbn [full_size]. change (zsum (map item_size (aset mk (JStr "") result)) <= budget). pose proof (sizes_aset mk (JStr "") result) as Ha.
    cbn [full_size scalar_size] in Ha. change (bytes "") with 0 in Ha. lia.
  - apply counted_object; [|by apply (Forall_aset (counted room)); [apply counted_str|]].
    destruct (decide (mk ∈ keys result)) as [Hk|Hk]; [left; by rewrite length_aset|]. rewrite aset_absent by done.
    destruct (decide (length result = max_items)); [|left; rewrite length_app; cbn; lia].
    right. exists result, (mk, JStr ""). split_and!; [done|done|]. change (bytes mk + 0 <= bytes TRUNCATION_MARKER). lia.
Qed.

Lemma end_object_keeps room budget total remaining result : small_marker -> 0 <= remaining -> (length result <= max_items)%nat ->
  zsum (map item_size result) <= budget - remaining -> Forall (fun p => counted room p.2) result ->
  keeps (S room) budget (end_object marker total remaining result).
Proof.
  intros Hm Hr Hl Hs Hc. unfold end_object. destruct (_ && _); [by apply mark_object_keeps|].
  split; cbn [fst full_size]; [change (zsum (map item_size result) <= budget); lia|apply counted_object; [by left|done]].
Qed.

Lemma object_items_keeps room budget f total rest idx remaining result : small_marker -> (S room <= max_depth)%nat ->
  (forall v b, 0 <= b -> full_size (f v b) <= b /\ counted room (f v b)) ->
  0 <= remaining -> (length result <= idx)%nat -> (idx <= max_items)%nat ->
  zsum (map item_size result) <= budget - remaining -> Forall (fun p => counted room p.2) result ->
  keeps (S room) budget (object_items float_repr max_depth max_items marker f total rest idx remaining result).
Proof.
  intros Hm Hroom Hf. revert idx remaining result. induction rest as [|[key value] rest IH]; intros idx remaining result Hr Hl Hi Hs Hc;
    cbn [object_items]; [apply end_object_keeps; (done || lia)|].
  destruct (Nat.leb_spec max_items idx).
  - destruct (0 <? remaining); [apply mark_object_keeps; (done || lia)|].
    split; cbn [fst full_size]; [change (zsum (map item_size result) <= budget); lia|apply counted_object; [left; lia|done]].
  - assert (0 <= reserve marker total idx) by (unfold reserve; pose proof (bytes_nonneg marker); destruct (_ <? _)%nat; lia).
    destruct (_ || _) eqn:E; [apply end_object_keeps; (done || lia)|]. apply orb_false_iff in E as [E1%Z.leb_gt E2%Z.ltb_ge].
    destruct (Hf value (remaining - reserve marker total idx - bytes key)) as [Hv Hcv]; [lia|].
    set (out := f value _) in *. pose proof (Hcv max_depth ltac:(lia)) as Hest. unfold Truncation.estimate_size_bytes.
    destruct (Z.ltb_spec (remaining - reserve marker total idx) (bytes key + estimate float_repr max_items max_depth out));
      [apply end_object_keeps; (done || lia)|].
    apply IH; [lia|pose proof (length_aset_le key out result); lia|lia| |by apply (Forall_aset (counted room))].
    pose proof (sizes_aset key out result) as Ha. lia.
Qed.

Lemma mark_array_keeps room budget remaining items : small_marker -> 0 <= remaining -> (length items <= max_items)%nat ->
  zsum (map full_size items) <= budget - remaining -> Forall (counted room) items ->
  keeps (S room) budget (JArr (mark_array marker remaining items), 0, true).
Proof.
  intros Hm Hr Hl Hs Hc. unfold keeps, mark_array. cbn [fst]. set (mk := truncate_text marker remaining marker).
  pose proof (truncate_text_bytes marker remaining marker Hr) as Hb. pose proof (marker_bytes remaining Hr Hm) as Hb'. fold mk in Hb, Hb'. split.
  - cbn [full_size]. rewrite map_app, zsum_app. cbn. lia.
  - apply counted_array; [|apply Forall_app; split; [done|repeat constructor; apply counted_str]].
    destruct (decide (length items = max_items)); [|left; rewrite length_app; cbn; lia]. right. by exists items, (JStr mk).
Qed.
Lemma end_array_keeps room budget total remaining items : small_marker -> 0 <= remaining -> (length items <= max_items)%nat ->
  zsum (map full_size items) <= budget - remaining -> Forall (counted room) items ->
  keeps (S room) budget (end_array marker total remaining items).
Proof.
  intros Hm Hr Hl Hs Hc. unfold end_array. destruct (_ && _); [by apply mark_array_keeps|].
  split; cbn [fst full_size]; [lia|apply counted_array; [by left|done]].
Qed.
Lemma array_items_keeps room budget f total rest idx remaining items : small_marker -> (S room <= max_depth)%nat ->
  (forall v b, 0 <= b -> full_size (f v b) <= b /\ counted room (f v b)) ->
  0 <= remaining -> (length items <= idx)%nat -> (idx <= max_items)%nat ->
  zsum (map full_size items) <= budget - remaining -> Forall (counted room) items ->
  keeps (S room) budget (array_items float_repr max_depth max_items marker f total rest idx remaining items).
Proof.
  intros Hm Hroom Hf. revert idx remaining items. induction rest as [|item rest IH]; intros idx remaining items Hr Hl Hi Hs Hc;
    cbn [array_items]; [apply end_array_keeps; (done || lia)|].
  destruct (Nat.leb_spec max_items idx).
  - destruct (0 <? remaining); [apply mark_array_keeps; (done || lia)|].
    split; cbn [fst full_size]; [lia|apply counted_array; [left; lia|done]].
  - assert (0 <= reserve marker total idx) by (unfold reserve; pose proof (bytes_nonneg marker); destruct (_ <? _)%nat; lia).
    destruct (Z.leb_spec (remaining - reserve marker total idx) 0); [apply end_array_keeps; (done || lia)|].
    destruct (Hf item (remaining - reserve marker total idx)) as [Hv Hcv]; [lia|].
    set (out := f item _) in *. pose proof (Hcv max_depth ltac:(lia)) as Hest. unfold Truncation.estimate_size_bytes.
    destruct (Z.ltb_spec (remaining - reserve marker total idx) (estimate float_repr max_items max_depth out));
      [apply end_array_keeps; (done || lia)|].
    apply IH; [lia|rewrite length_app; cbn; lia|lia| |by apply Forall_app; split; [|by repeat constructor]].
    rewrite map_app, zsum_app. cbn. lia.
Qed.

Lemma keeps_room room room' budget r : (room <= room')%nat -> keeps room budget r -> keeps room' budget r.
Proof. intros Hr [Hs Hc]. split; [done|]. intros m Hm. apply Hc. lia. Qed.
Lemma keeps_text budget text r b : 0 <= budget -> keeps 0 budget (JStr (truncate_text text budget marker), r, b).
Proof. intros. split; [by apply truncate_text_bytes|apply counted_str]. Qed.
Lemma keeps_scalar v budget : 0 <= budget -> (forall l, v <> JObj l) -> (forall l, v <> JArr l) -> (forall s, v <> JOpaque s) ->
  keeps 0 budget (truncate_scalar float_repr marker v budget).
Proof.
  intros Hb Ho Ha Hq. unfold truncate_scalar. destruct (Z.leb_spec (scalar_size float_repr v) budget); [|by apply keeps_text].
  split; [|by apply counted_scalar]. cbn [fst]. destruct v; try done; naive_solver.
Qed.

Lemma truncate_keeps room v budget : small_marker -> (room <= max_depth)%nat -> 0 <= budget -> keeps room budget (truncate room v budget).
Proof.
  intros Hm. revert v budget. induction room as [|room IH]; intros v budget Hroom Hb; cbn [truncate_with_budget];
    (destruct (Z.leb_spec budget 0); [apply (keeps_room 0); [lia|]; split; [by destruct v|apply counted_empty]|]).
  - destruct v; try (by apply keeps_scalar); try (by apply keeps_text).
    + destruct (isfinite f); [by apply keeps_scalar|by apply keeps_text].
    + destruct (Z.leb_spec (bytes s) budget); [by split; [|apply counted_str]|by apply keeps_text].
  - assert (forall v b, 0 <= b -> full_size (truncate room v b).1.1 <= b /\ counted room (truncate room v b).1.1) as Hf
      by (intros w b ?; by apply IH; [lia|]).
    destruct v; try (by apply (keeps_room 0); [lia|apply keeps_scalar]); try (by apply (keeps_room 0); [lia|apply keeps_text]).
    + apply (keeps_room 0); [lia|]. destruct (isfinite f); [by apply keeps_scalar|by apply keeps_text].
    + apply (keeps_room 0); [lia|]. destruct (Z.leb_spec (bytes s) budget); [by split; [|apply counted_str]|by apply keeps_text].
    + apply array_items_keeps; try done; cbn; lia.
    + apply object_items_keeps; try done; cbn; lia.
Qed.

(** *** Values with room to spare are kept *)

(** Containers around containers. *)
Fixpoint nesting (v : json) : nat :=
  match v with
  | JObj l => S (list_max (map (fun p => nesting p.2) l))
  | JArr l => S (list_max (map nesting l))
  | _ => 0
  end.
Inductive plain : json -> Prop :=
| plain_scalar v : (forall l, v <> JObj l) -> (forall l, v <> JArr l) -> jsonable v = true -> plain v
| plain_object l : NoDup (keys l) -> (length l <= max_items)%nat -> Forall (fun p => plain p.2) l -> plain (JObj l)
| plain_array l : (length l <= max_items)%nat -> Forall plain l -> plain (JArr l).

Lemma list_max_elem n l : In n l -> (n <= list_max l)%nat.
Proof. intros H. pose proof (proj1 (list_max_le l (list_max l)) (le_n _)) as Hl. rewrite List.Forall_forall in Hl. by apply Hl. Qed.

Lemma plain_estimate v m : plain v -> (nesting v <= m)%nat -> estimate float_repr max_items m v = full_size v.
Proof.
  intros Hv. revert m. induction v as [|b|n|f|s|l IH|l IH|x] using json_nested_ind; intros m Hm; try (by destruct m).
  - inversion Hv as [? ? Ha| |? Hl Hp]; subst; [by destruct (Ha l)|]. destruct m as [|m]; [cbn in Hm; lia|].
    cbn [estimate full_size nesting] in *. rewrite take_ge by (by rewrite length_map).
    destruct (Nat.ltb_spec max_items (length l)); [lia|]. rewrite Z.add_0_r. f_equal. apply map_ext_in. intros v Hin.
    rewrite Forall_forall in *. apply IH; [by apply list_elem_of_In|by apply Hp, list_elem_of_In|].
    pose proof (list_max_elem (nesting v) (map nesting l) (in_map _ _ _ Hin)). lia.
  - inversion Hv as [? Ho| ? Hn Hl Hp|]; subst; [by destruct (Ho l)|]. destruct m as [|m]; [cbn in Hm; lia|].
    cbn [estimate full_size nesting] in *. rewrite take_ge by (by rewrite length_map).
    destruct (Nat.ltb_spec max_items (length l)); [lia|]. rewrite Z.add_0_r. f_equal. apply map_ext_in. intros p Hin.
    rewrite Forall_forall in *. rewrite (IH p); [done|by apply list_elem_of_In|by apply Hp, list_elem_of_In|].
    pose proof (list_max_elem (nesting p.2) (map (fun p => nesting p.2) l) (in_map (fun p => nesting p.2) _ _ Hin)). lia.
  - inversion Hv; done.
Qed.

(** The room a value needs besides its own bytes. *)
Definition slack (v : json) : Z := bytes marker * Z.of_nat (nesting v).

Lemma array_items_same m f total rest idx remaining items :
  (forall v b, v ∈ rest -> full_size v + slack v < b -> f v b = v) -> Forall plain rest -> 0 <= m ->
  (forall v, v ∈ rest -> (nesting v <= max_depth)%nat /\ slack v <= m) -> idx = length items -> total = (length items + length rest)%nat -> (total <= max_items)%nat ->
  zsum (map full_size rest) + m + bytes marker < remaining ->
  array_items float_repr max_depth max_items marker f total rest idx remaining items =
    (JArr (items ++ rest), remaining - zsum (map full_size rest), false).
Proof.
  intros Hf Hp Hm Hn. revert idx remaining items. induction Hp as [|v rest Hv Hp IH]; intros idx remaining items Hi Ht Hmax Hr; cbn [array_items map].
  - unfold end_array. subst total. cbn [length]. rewrite Nat.add_0_r, Nat.ltb_irrefl. cbn. rewrite app_nil_r. do 2 f_equal. lia.
  - cbn [map] in Hr. rewrite zsum_cons in Hr. cbn [length] in Ht. destruct (Nat.leb_spec max_items idx); [lia|].
    pose proof (bytes_nonneg marker). pose proof (full_size_nonneg v).
    assert (0 <= reserve marker total idx <= bytes marker) as Hres by (unfold reserve; destruct (_ <? _)%nat; lia).
    assert (0 <= zsum (map full_size rest)) as Hz by (apply zsum_nonneg, Forall_map, Forall_true; intros; apply full_size_nonneg).
    destruct (Hn v ltac:(left)) as [Hnv Hslack].
    destruct (Z.leb_spec (remaining - reserve marker total idx) 0); [lia|]. cbv zeta.
    rewrite (Hf v) by (first [left|lia]). unfold Truncation.estimate_size_bytes. rewrite plain_estimate by (done || lia).
    destruct (Z.ltb_spec (remaining - reserve marker total idx) (full_size v)); [lia|].
    rewrite IH; [|by intros w b Hw; apply Hf; right|by intros w Hw; apply Hn; right|rewrite length_app; cbn; lia|rewrite length_app; cbn; lia|lia|lia].
    rewrite <- app_assoc, zsum_cons. do 2 f_equal. lia.
Qed.

Lemma object_items_same m f total rest idx remaining result :
  (forall p b, p ∈ rest -> full_size p.2 + slack p.2 < b -> f p.2 b = p.2) -> Forall (fun p => plain p.2) rest ->
  (forall p, p ∈ rest -> (nesting p.2 <= max_depth)%nat /\ slack p.2 <= m) -> NoDup (keys (result ++ rest)) -> 0 <= m ->
  idx = length result -> total = (length result + length rest)%nat -> (total <= max_items)%nat ->
  zsum (map item_size rest) + m + bytes marker < remaining ->
  object_items float_repr max_depth max_items marker f total rest idx remaining result =
    (JObj (result ++ rest), remaining - zsum (map item_size rest), false).
Proof.
  intros Hf Hp Hn Hkeys Hm. revert idx remaining result Hkeys. induction Hp as [|[key v] rest Hv Hp IH]; intros idx remaining result Hkeys Hi Ht Hmax Hr;
    cbn [object_items map].
  - unfold end_object. subst total. cbn [length]. rewrite Nat.add_0_r, Nat.ltb_irrefl. cbn. rewrite app_nil_r. do 2 f_equal. lia.
  - cbn [map] in Hr. rewrite zsum_cons in Hr. unfold item_size at 1 in Hr. cbn [fst snd] in *. cbn [length] in Ht.
    destruct (Nat.leb_spec max_items idx); [lia|].
    pose proof (bytes_nonneg marker). pose proof (bytes_nonneg key). pose proof (full_size_nonneg v).
    assert (0 <= reserve marker total idx <= bytes marker) as Hres by (unfold reserve; destruct (_ <? _)%nat; lia).
    assert (0 <= zsum (map item_size rest)) as Hz by (apply zsum_nonneg, Forall_map, Forall_true; intros; apply item_size_nonneg).
    destruct (Hn (key, v) ltac:(left)) as [Hnv Hslack]. cbn [snd] in Hnv, Hslack.
    cbv zeta. destruct (Z.leb_spec (remaining - reserve marker total idx) 0); [lia|].
    destruct (Z.ltb_spec (remaining - reserve marker total idx) (bytes key)); [lia|]. cbn [orb].
    pose proof (Hf (key, v) (remaining - reserve marker total idx - bytes key) ltac:(left)) as Hfv. cbn [snd] in Hfv.
    rewrite Hfv by lia. unfold Truncation.estimate_size_bytes. rewrite plain_estimate by (done || lia).
    destruct (Z.ltb_spec (remaining - reserve marker total idx) (bytes key + full_size v)); [lia|].
    assert (key ∉ keys result) as Hfresh.
    { unfold keys in Hkeys. rewrite fmap_app in Hkeys. apply NoDup_app in Hkeys as (_ & Hd & _). intros Hk. apply (Hd _ Hk). left. }
    rewrite aset_absent by done. rewrite IH; [|by intros w b Hw; apply Hf; right|by intros w Hw; apply Hn; right|by rewrite <- app_assoc
      |rewrite length_app; cbn; lia|rewrite length_app; cbn; lia|lia|lia].
    rewrite <- app_assoc, zsum_cons. unfold item_size at 2. cbn [fst snd]. do 2 f_equal. lia.
Qed.

Lemma truncate_scalar_same room v budget : (forall l, v <> JObj l) -> (forall l, v <> JArr l) -> jsonable v = true ->
  0 < budget -> full_size v <= budget -> truncate room v budget = (v, budget - full_size v, false).
Proof.
  intros Ho Ha Hj Hb Hs. assert (forall w, scalar_size float_repr w <= budget ->
    truncate_scalar float_repr marker w budget = (w, budget - scalar_size float_repr w, false)) as Hscalar.
  { intros w Hw. unfold truncate_scalar. by rewrite (proj2 (Z.leb_le _ _)). }
  destruct v as [|b|n|f|s|l|l|x]; try naive_solver; try discriminate; cbn [full_size] in *; destruct room; cbn [truncate_with_budget];
    rewrite (proj2 (Z.leb_gt budget 0)) by done; try (by apply Hscalar).
  - cbn in Hj. rewrite Hj. by apply Hscalar.
  - cbn in Hj. rewrite Hj. by apply Hscalar.
  - by rewrite (proj2 (Z.leb_le _ _)).
  - by rewrite (proj2 (Z.leb_le _ _)).
Qed.

Lemma truncate_same room v budget : plain v -> (nesting v <= room)%nat -> (room <= max_depth)%nat -> full_size v + slack v < budget ->
  truncate room v budget = (v, budget - full_size v, false).
Proof.
  revert v budget. induction room as [|room IH]; intros v budget Hv Hn Hroom Hb; pose proof (full_size_nonneg v); pose proof (bytes_nonneg marker);
    assert (0 <= slack v) as Hslack by (unfold slack; lia);
    (inversion Hv as [? Ho Ha Hj|l Hk Hl Hp|l Hl Hp]; subst; [apply truncate_scalar_same; (done || lia)| |]); try (cbn in Hn; lia);
    unfold slack in Hb; cbn [truncate_with_budget full_size nesting] in *; rewrite (proj2 (Z.leb_gt budget 0)) by lia;
    rewrite Forall_forall in Hp.
  - change (map (fun p => bytes p.1 + full_size p.2) l) with (map item_size l) in *.
    assert (forall p, p ∈ l -> (nesting p.2 <= list_max (map (fun p => nesting p.2) l))%nat) as Hnest.
    { intros p Hin%list_elem_of_In. apply list_max_elem. apply (in_map (fun p => nesting p.2) _ _ Hin). }
    apply (object_items_same (bytes marker * Z.of_nat (list_max (map (fun p => nesting p.2) l)))); try done; try lia; [|by apply Forall_forall|].
    + intros p b Hin Hb'. pose proof (Hnest p Hin). by rewrite IH; [|apply Hp|lia|lia|].
    + intros p Hin. pose proof (Hnest p Hin). split; [lia|]. unfold slack. apply Z.mul_le_mono_nonneg_l; lia.
  - assert (forall v, v ∈ l -> (nesting v <= list_max (map nesting l))%nat) as Hnest.
    { intros v Hin%list_elem_of_In. by apply list_max_elem, in_map. }
    apply (array_items_same (bytes marker * Z.of_nat (list_max (map nesting l)))); try done; try lia; [|by apply Forall_forall|].
    + intros v b Hin Hb'. pose proof (Hnest v Hin). by rewrite IH; [|apply Hp|lia|lia|].
    + intros v Hin. pose proof (Hnest v Hin). split; [lia|]. unfold slack. apply Z.mul_le_mono_nonneg_l; lia.
Qed.

(** truncation keeps its budget. [truncate_collection] gives a value whose
    keys and scalars have at most [max_bytes] bytes, whatever the value, the depth
    and the number of items; and a value with no more than [max_items] items in a
    container, nested no deeper than [max_depth], that leaves the room of a marker
    for every level is returned as it is. *)
Theorem truncation_bounded v max_bytes : small_marker -> 0 <= max_bytes ->
  exists w, truncate_collection float_repr max_depth max_items marker v max_bytes = Ok w /\ full_size w <= max_bytes /\
    (plain v -> (nesting v <= max_depth)%nat -> full_size v + slack v < max_bytes -> w = v).
Proof.
  intros Hm Hb. unfold truncate_collection. rewrite (proj2 (Z.ltb_ge _ _)) by done. eexists. split; [done|]. split.
  - by apply (truncate_keeps max_depth v max_bytes Hm (le_n _) Hb).
  - intros Hv Hn Hs. by rewrite truncate_same.
Qed.
End facts.

Lemma truncation_bounded_witness : exists w,
  truncate_collection (fun _ => "") 8 200 TRUNCATION_MARKER (JObj [("a", JArr [JStr "0123456789"; JInt 5])]) 30 = Ok w /\
  full_size (fun _ => "") w <= 30.
Proof.
  destruct (truncation_bounded (fun _ => "") 8 200 TRUNCATION_MARKER (JObj [("a", JArr [JStr "0123456789"; JInt 5])]) 30) as (w & E & H & _).
  - vm_compute. discriminate.
  - discriminate.
  - exists w. exact (conj E H).
Defined.

(** A collection that fits may still be cut, since the room of a marker is kept
    back while items follow; and the estimate of a result may exceed the budget,
    since the empty container left at the depth limit counts as a marker. *)
Example cut_although_it_fits : estimate_size_bytes (fun _ => "") 8 200 (JArr [JStr "0123456789"; JInt 5]) = 11 /\
  truncate_collection (fun _ => "") 8 200 TRUNCATION_MARKER (JArr [JStr "0123456789"; JInt 5]) 11 = Ok (JArr [JStr "<truncated>"]).
Proof. by vm_compute. Qed.
Example estimate_beyond_budget :
  truncate_collection (fun _ => "") 1 200 TRUNCATION_MARKER (JObj [("abc", JObj [("x", JInt 1)])]) 3 = Ok (JObj [("abc", JObj [])]) /\
  estimate_size_bytes (fun _ => "") 1 200 (JObj [("abc", JObj [])]) = 14.
Proof. by vm_compute. Qed.
