(* ===== verification/Redaction.v ===== *)
(** * Redaction: [observability/redaction.py], [sanitize_tool_output]

    Secrets are taken out of JSON-like values before they are logged or stored:
    the values of sensitive keys and the texts that match a pattern; then the
    value is truncated. What the patterns of a [Redactor] make of a text is a
    parameter. The results: no value of a sensitive key and no text that did not
    go through the patterns is left, at any depth. *)

From Stdlib Require Import ZArith SpecFloat Lia Ascii.
From S2P Require Import Prelude PyFloat PyText Models Serialization Truncation.

(** [_normalize_key]: letters are folded in ASCII. *)
Definition key_char (c : ascii) : bool := let n := N_of_ascii c in ((97 <=? n) && (n <=? 122) || (48 <=? n) && (n <=? 57))%N.
Fixpoint squeeze (in_run : bool) (s : string) : string :=
  match s with
  | EmptyString => ""
  | String c s' =>
      if key_char c then String c (squeeze false s')
      else if in_run then squeeze true s' else String "_" (squeeze true s')
  end.
Definition normalize_key (key : string) : string := strip_by (fun c => (c =? "_")%char) (squeeze false (lower (strip key))).

Definition DEFAULT_REDACT_KEYS : list string :=
  ["access_token"; "api_key"; "apikey"; "authorization"; "cookie"; "id_token"; "password"; "passphrase"; "private_key";
   "proxy_authorization"; "refresh_token"; "secret"; "secret_key"; "session_id"; "session_token"; "set_cookie"; "token"; "x_api_key"].
Definition SENSITIVE_SUFFIXES : list string :=
  ["_api_key"; "_apikey"; "_authorization"; "_cookie"; "_password"; "_passphrase"; "_private_key"; "_secret"; "_session_id";
   "_session_token"; "_token"].
Definition ends_with (suffix s : string) : bool :=
  (String.length suffix <=? String.length s)%nat && (sdrop (String.length s - String.length suffix) s =? suffix)%string.

(** [_should_redact_key] *)
Definition should_redact_key (redact_keys : list string) (normalized_key : string) : bool :=
  bool_decide (normalized_key ∈ redact_keys) || existsb (fun suffix => ends_with suffix normalized_key) SENSITIVE_SUFFIXES.

Example keys_redacted :
  map (fun k => should_redact_key DEFAULT_REDACT_KEYS (normalize_key k)) [" X-Api-Key"; "Stripe.Secret"; "__TOKEN__"; "tokens"; "note"] =
  [true; true; true; false; false].
Proof. by vm_compute. Qed.

(** ** [Redactor] *)
Record Redactor := mkRedactor {
  redact_keys : list string;
  replacement : string;
  rd_max_depth : nat;
  rd_max_items : nat;
}.
Definition DEFAULT_REPLACEMENT : string := "<redacted>".
(** [__post_init__], for limits that are not negative *)
Definition Redactor_new (redact_keys : list string) (replacement : string) (max_depth max_items : Z) : res Redactor :=
  raise_if (max_depth <? 0) (ValueError "max_depth must be >= 0");;
  raise_if (max_items <? 0) (ValueError "max_items must be >= 0");;
  Ok (mkRedactor (map normalize_key redact_keys) replacement (Z.to_nat max_depth) (Z.to_nat max_items)).

Section redactor.
Variable r : Redactor.
Variable float_repr : spec_float -> string.
(** [_redact_text] *)
Variable redact_text : string -> string.

Definition sensitive (key : string) : bool := should_redact_key (redact_keys r) (normalize_key key).

(** [_redact_mapping] and [_redact_sequence]; [redact] is [_redact] one level
    deeper. *)
Section loops.
Variable redact : json -> json.
Fixpoint redact_mapping (total : nat) (items : list (string * json)) (idx : nat) (result : list (string * json)) : list (string * json) :=
  match items with
  | [] => result
  | (key, value) :: items =>
      if (rd_max_items r <=? idx)%nat
      then aset "<TRUNCATED>" (JStr (str_of_Z (Z.of_nat total - Z.of_nat (rd_max_items r)) +:+ " more items")) result
      else redact_mapping total items (S idx) (aset key (if sensitive key then JStr (replacement r) else redact value) result)
  end.
Fixpoint redact_sequence (items : list json) (idx : nat) : list json :=
  match items with
  | [] => []
  | item :: items => if (rd_max_items r <=? idx)%nat then [JStr "<TRUNCATED>"] else redact item :: redact_sequence items (S idx)
  end.
End loops.

(** [_redact], with the depth that is left *)
Fixpoint redact_value (room : nat) (v : json) : json :=
  match v, room with
  | JFloat f, _ => if isfinite f then v else JStr NONFINITE_FLOAT_REPLACEMENT
  | JStr s, _ => JStr (redact_text s)
  | JObj _, O | JArr _, O | JOpaque _, O => JStr "<MAX_DEPTH>"
  | JObj l, S room => JObj (redact_mapping (redact_value room) (length l) l 0 [])
  | JArr l, S room => JArr (redact_sequence (redact_value room) l 0)
  | JOpaque text, S _ => JStr (redact_text text)
  | v, _ => v
  end.

(** [redact] *)
Definition redact (v : json) (max_bytes : option Z) : res json :=
  let redacted := redact_value (rd_max_depth r) v in
  match max_bytes with
  | None => Ok redacted
  | Some n => truncate_collection float_repr (rd_max_depth r) (rd_max_items r) TRUNCATION_MARKER redacted n
  end.
End redactor.

(** ** [sanitize_tool_output] *)
Definition default_redactor : Redactor := mkRedactor (map normalize_key DEFAULT_REDACT_KEYS) DEFAULT_REPLACEMENT 8 200.
Definition sanitize_tool_output (float_repr : spec_float -> string) (redact_text : string -> string)
    (max_run_packet_bytes max_tool_output_bytes : Z) (v : json) : res json :=
  redact default_redactor float_repr redact_text v (Some (Z.min max_tool_output_bytes max_run_packet_bytes)).

(** ** What is left in a value *)
Section safe.
Variable sens : string -> bool.

(** Texts satisfy [T], and the values of sensitive keys are texts with [R]. *)
Inductive safe (T R : string -> Prop) : json -> Prop :=
| safe_scalar v : (forall l, v <> JObj l) -> (forall l, v <> JArr l) -> (forall s, v <> JStr s) -> jsonable v = true -> safe T R v
| safe_str s : T s -> safe T R (JStr s)
| safe_arr l : Forall (safe T R) l -> safe T R (JArr l)
| safe_obj l : Forall (fun p => (sens p.1 = true -> exists s, p.2 = JStr s /\ R s) /\ (sens p.1 = false -> safe T R p.2)) l -> safe T R (JObj l).

Definition entry_safe (T R : string -> Prop) (p : string * json) : Prop :=
  (sens p.1 = true -> exists s, p.2 = JStr s /\ R s) /\ (sens p.1 = false -> safe T R p.2).

Lemma safe_str_inv T R s : safe T R (JStr s) -> T s.
Proof. inversion 1; naive_solver. Qed.
Lemma safe_arr_inv T R l : safe T R (JArr l) -> Forall (safe T R) l.
Proof. inversion 1; naive_solver. Qed.
Lemma safe_obj_inv T R l : safe T R (JObj l) -> Forall (entry_safe T R) l.
Proof. inversion 1; naive_solver. Qed.
Lemma safe_opaque T R s : ~ safe T R (JOpaque s).
Proof. inversion 1; naive_solver. Qed.

Lemma Forall_aset_entry {A} (P : string * A -> Prop) k v l : P (k, v) -> Forall P l -> Forall P (aset k v l).
Proof. intros Hv. induction 1 as [|[k' v'] l Hp Hl IH]; cbn [aset]; [by constructor|]. case_decide; subst; by constructor. Qed.

Lemma safe_mono (T R T' R' : string -> Prop) v : (forall s, T s -> T' s) -> (forall s, R s -> R' s) -> safe T R v -> safe T' R' v.
Proof.
  intros HT HR. induction v as [|b|n|f|s|l IH|l IH|x] using json_nested_ind; intros Hv; try (by apply safe_scalar).
  - inversion Hv; subst; by apply safe_scalar.
  - by apply safe_str, HT, safe_str_inv with R.
  - apply safe_arr_inv in Hv. apply safe_arr. rewrite Forall_forall in *. auto.
  - apply safe_obj_inv in Hv. apply safe_obj. rewrite Forall_forall in *. intros p Hp. destruct (Hv p Hp) as [H1 H2].
    split; [intros (s & Es & Hs)%H1; eauto|intros Hk; apply IH; auto].
  - by destruct (safe_opaque _ _ _ Hv).
Qed.

(** A text, or what is left of it after truncation. *)
Definition cut (P : string -> Prop) (s : string) : Prop :=
  exists t, P t /\ (s = t \/ exists n, s = truncate_text t n TRUNCATION_MARKER).
Lemma cut_self (P : string -> Prop) s : P s -> cut P s.
Proof. exists s. auto. Qed.
Lemma cut_text (P : string -> Prop) s n : P s -> cut P (truncate_text s n TRUNCATION_MARKER).
Proof. exists s. eauto. Qed.

Section truncate.
Variables (float_repr : spec_float -> string) (max_depth max_items : nat).
Variables T R : string -> Prop.
Hypothesis T_empty : T "".
Hypothesis R_empty : R "".
Hypothesis T_marker : T TRUNCATION_MARKER.
Hypothesis T_nonfinite : T NONFINITE_FLOAT_REPLACEMENT.
#[local] Notation safe_cut := (safe (cut T) (cut R)).
#[local] Notation entry_cut := (entry_safe (cut T) (cut R)).

Lemma text_safe s n : T s -> safe_cut (JStr (truncate_text s n TRUNCATION_MARKER)).
Proof. intros. by apply safe_str, cut_text. Qed.
Lemma empty_entry k : entry_cut (k, JStr "").
Proof. split; cbn; intros _; [exists ""; split; [done|by apply cut_self]|by apply safe_str, cut_self]. Qed.

Lemma mark_object_safe n result : Forall entry_cut result -> Forall entry_cut (mark_object TRUNCATION_MARKER n result).
Proof. intros. unfold mark_object. destruct (is_empty _); [done|]. apply Forall_aset_entry; [apply empty_entry|done]. Qed.

Lemma object_items_safe f total rest idx remaining result :
  (forall p b, p ∈ rest -> entry_cut (p.1, f p.2 b)) -> Forall entry_cut result ->
  safe_cut (object_items float_repr max_depth max_items TRUNCATION_MARKER f total rest idx remaining result).1.1.
Proof.
  assert (forall remaining result, Forall entry_cut result -> safe_cut (end_object TRUNCATION_MARKER total remaining result).1.1) as Hend.
  { intros n res Hres. unfold end_object. destruct (_ && _); cbn [fst]; apply safe_obj; [by apply mark_object_safe|done]. }
  revert idx remaining result. induction rest as [|[k v] rest IH]; intros idx remaining result Hf Hr; cbn [object_items]; [by apply Hend|].
  destruct (_ <=? _)%nat.
  - cbn [fst]. apply safe_obj. destruct (0 <? remaining); [by apply mark_object_safe|done].
  - cbv zeta. destruct (_ || _); [by apply Hend|]. destruct (_ <? _); [by apply Hend|]. apply IH; [intros p b Hp; apply Hf; by right|].
    apply Forall_aset_entry; [|done]. apply (Hf (k, v)). left.
Qed.

Lemma array_items_safe f total rest idx remaining items :
  (forall v b, v ∈ rest -> safe_cut (f v b)) -> Forall safe_cut items ->
  safe_cut (array_items float_repr max_depth max_items TRUNCATION_MARKER f total rest idx remaining items).1.1.
Proof.
  assert (forall remaining items, Forall safe_cut items -> Forall safe_cut (mark_array TRUNCATION_MARKER remaining items)) as Hmark.
  { intros n res Hres. apply Forall_app. split; [done|]. apply Forall_singleton. by apply text_safe. }
  assert (forall remaining items, Forall safe_cut items -> safe_cut (end_array TRUNCATION_MARKER total remaining items).1.1) as Hend.
  { intros n res Hres. unfold end_array. destruct (_ && _); cbn [fst]; apply safe_arr; [by apply Hmark|done]. }
  revert idx remaining items. induction rest as [|v rest IH]; intros idx remaining items Hf Hr; cbn [array_items]; [by apply Hend|].
  destruct (_ <=? _)%nat.
  - cbn [fst]. apply safe_arr. destruct (0 <? remaining); [by apply Hmark|done].
  - cbv zeta. destruct (_ <=? _); [by apply Hend|]. destruct (_ <? _); [by apply Hend|]. apply IH; [intros p b Hp; apply Hf; by right|].
    apply Forall_app. split; [done|]. apply Forall_singleton, Hf. left.
Qed.

Lemma truncate_str_cases room s b : (truncate_with_budget float_repr max_depth max_items TRUNCATION_MARKER room (JStr s) b).1.1 = JStr "" \/
  (truncate_with_budget float_repr max_depth max_items TRUNCATION_MARKER room (JStr s) b).1.1 = JStr s \/
  (truncate_with_budget float_repr max_depth max_items TRUNCATION_MARKER room (JStr s) b).1.1 = JStr (truncate_text s b TRUNCATION_MARKER).
Proof. destruct room; cbn [truncate_with_budget]; (destruct (b <=? 0); [by left|]); (destruct (_ <=? b); [by right; left|by right; right]). Qed.

Lemma truncate_safe room v b : safe T R v -> safe_cut (truncate_with_budget float_repr max_depth max_items TRUNCATION_MARKER room v b).1.1.
Proof.
  revert v b. induction room as [|room IH]; intros v b Hv; cbn [truncate_with_budget];
    (destruct (b <=? 0); [destruct v; cbn [emptied fst]; try (by apply safe_str, cut_self); [by apply safe_arr|by apply safe_obj]|]).
  all: assert (forall w, (forall l, w <> JObj l) -> (forall l, w <> JArr l) -> (forall s, w <> JStr s) -> jsonable w = true ->
    safe_cut (truncate_scalar float_repr TRUNCATION_MARKER w b).1.1) as Hs
    by (intros w ? ? ? ?; unfold truncate_scalar; destruct (_ <=? _); cbn [fst]; [by apply safe_scalar|by apply text_safe]).
  all: destruct v as [|x|n|f|s|l|l|s]; try (by apply Hs); try (by destruct (safe_opaque _ _ _ Hv)); try (by apply text_safe).
  all: try (destruct (isfinite f) eqn:Ef; [by apply Hs|by apply text_safe]).
  all: try (apply safe_str_inv in Hv; destruct (_ <=? b); cbn [fst]; [by apply safe_str, cut_self|by apply text_safe]).
  - apply array_items_safe; [|done]. intros v b' Hin. apply safe_arr_inv in Hv. rewrite Forall_forall in Hv. by apply IH, Hv.
  - apply object_items_safe; [|done]. intros p b' Hin. apply safe_obj_inv in Hv. rewrite Forall_forall in Hv. destruct (Hv p Hin) as [Hs1 Hs2].
    split; cbn [fst snd]; [|intros; by apply IH, Hs2]. intros (s & -> & Hrs)%Hs1.
    destruct (truncate_str_cases room s b') as [-> | [-> | ->]]; eexists; (split; [done|]); [by apply cut_self|by apply cut_self|by apply cut_text].
Qed.
End truncate.
End safe.

(** ** The redactor *)
Section redactor_facts.
Variable r : Redactor.
Variable float_repr : spec_float -> string.
Variable redact_text : string -> string.
#[local] Notation redact_at := (redact_value r redact_text).

(** What the redactor itself writes. *)
Definition note (s : string) : Prop :=
  s ∈ [""; TRUNCATION_MARKER; NONFINITE_FLOAT_REPLACEMENT; "<MAX_DEPTH>"; "<TRUNCATED>"] \/ exists n, s = str_of_Z n +:+ " more items".
Definition redacted_text (s : string) : Prop := (exists t, s = redact_text t) \/ note s.
Definition replaced_value (s : string) : Prop := s = replacement r \/ note s.
#[local] Notation entry_redacted := (entry_safe (sensitive r) redacted_text replaced_value).

Lemma note_elem s : s ∈ [""; TRUNCATION_MARKER; NONFINITE_FLOAT_REPLACEMENT; "<MAX_DEPTH>"; "<TRUNCATED>"] -> note s.
Proof. by left. Qed.
Hint Extern 1 (note _) => (apply note_elem; set_solver) : core.
Hint Unfold redacted_text replaced_value : core.

Lemma redact_mapping_safe f total l idx result : (forall p, p ∈ l -> safe (sensitive r) redacted_text replaced_value (f p.2)) ->
  Forall entry_redacted result -> Forall entry_redacted (redact_mapping r f total l idx result).
Proof.
  revert idx result. induction l as [|[k v] l IH]; intros idx result Hf Hr; cbn [redact_mapping]; [done|]. destruct (_ <=? _)%nat.
  - apply Forall_aset_entry; [|done]. assert (note (str_of_Z (Z.of_nat total - Z.of_nat (rd_max_items r)) +:+ " more items")) by (right; eauto).
    split; cbn [snd]; intros _; [eexists; split; [done|by right]|by apply safe_str; right].
  - apply IH; [intros p Hp; apply Hf; by right|]. apply Forall_aset_entry; [|done]. split; cbn [fst snd].
    + intros ->. eexists. split; [done|by left].
    + intros ->. apply (Hf (k, v)). left.
Qed.
Lemma redact_sequence_safe f l idx : (forall v, v ∈ l -> safe (sensitive r) redacted_text replaced_value (f v)) ->
  Forall (safe (sensitive r) redacted_text replaced_value) (redact_sequence r f l idx).
Proof.
  revert idx. induction l as [|v l IH]; intros idx Hf; cbn [redact_sequence]; [done|]. destruct (_ <=? _)%nat.
  - apply Forall_singleton, safe_str. auto.
  - constructor; [apply Hf; left|apply IH; intros w Hw; apply Hf; by right].
Qed.
Lemma redact_value_safe room v : safe (sensitive r) redacted_text replaced_value (redact_at room v).
Proof.
  revert v. induction room as [|room IH]; intros v; destruct v as [|b|n|f|s|l|l|s]; cbn [redact_value];
    try (by apply safe_scalar); try (by apply safe_str; eauto);
    try (destruct (isfinite f) eqn:Ef; [by apply safe_scalar|apply safe_str; auto]).
  - apply safe_arr, redact_sequence_safe. intros v _. apply IH.
  - apply safe_obj, redact_mapping_safe; [|done]. intros p _. apply IH.
Qed.

(** The depth of what is left is the limit at most. *)
Lemma redact_value_nesting room v : (nesting (redact_at room v) <= room)%nat.
Proof.
  revert v. induction room as [|room IH]; intros v; destruct v as [|b|n|f|s|l|l|s]; cbn [redact_value nesting]; try lia;
    try (destruct (isfinite f); cbn; lia).
  - apply le_n_S, list_max_le. rewrite List.Forall_forall. intros n (v & <- & Hv)%in_map_iff. revert Hv. generalize 0%nat as idx.
    induction l as [|w l IHl]; intros idx; cbn [redact_sequence]; [done|]. destruct (_ <=? _)%nat; [intros [<-|[]]; cbn; lia|].
    intros [<-|Hv]; [apply IH|by eapply IHl].
  - apply le_n_S, list_max_le. rewrite List.Forall_forall. intros n (p & <- & Hp)%in_map_iff.
    assert (forall total idx result, Forall (fun p : string * json => (nesting p.2 <= room)%nat) result ->
      Forall (fun p => (nesting p.2 <= room)%nat) (redact_mapping r (redact_at room) total l idx result)) as Hl.
    { clear Hp. induction l as [|[k w] l IHl]; intros total idx result Hr; cbn [redact_mapping]; [done|].
      destruct (_ <=? _)%nat; [apply Forall_aset_entry; [cbn; lia|done]|]. apply IHl, Forall_aset_entry; [|done]. cbn [snd].
      destruct (sensitive r k); [cbn; lia|apply IH]. }
    specialize (Hl (length l) 0%nat [] (Forall_nil_2 _)). rewrite Forall_forall in Hl. by apply Hl, list_elem_of_In.
Qed.

(** C26: secrets are redacted. Whatever value is redacted, at any depth of the
    result the value of a sensitive key is the replacement, or what truncation
    leaves of it, and every text is the outcome of the redaction patterns on some
    text, or what truncation leaves of that, or a marker of the redactor:
    redaction comes before truncation, so that no piece of a secret escapes the
    patterns by being cut. With a budget the keys and scalars of the result have
    at most that many bytes; without one the result is nested no deeper than the
    limit of the redactor. *)
Theorem redaction_leaves_no_secret v max_bytes w : redact r float_repr redact_text v max_bytes = Ok w ->
  safe (sensitive r) (cut redacted_text) (cut replaced_value) w /\
  match max_bytes with
  | Some n => full_size float_repr w <= n
  | None => (nesting w <= rd_max_depth r)%nat
  end.
Proof.
  unfold redact. pose proof (redact_value_safe (rd_max_depth r) v) as Hs. destruct max_bytes as [n|].
  - unfold truncate_collection. destruct (Z.ltb_spec n 0); [done|]. intros [= <-]. split; [apply truncate_safe; auto|].
    by apply (truncate_keeps float_repr (rd_max_depth r)).
  - intros [= <-]. split; [|apply redact_value_nesting]. by apply (safe_mono _ redacted_text replaced_value); [apply cut_self..|].
Qed.
End redactor_facts.

Lemma redaction_leaves_no_secret_witness : exists w,
  redact default_redactor (fun _ => "") (fun _ => "text")
    (JObj [("Api-Key", JArr [JStr "sk-1"]); ("note", JStr "Bearer abcdefghij")]) (Some 200) = Ok w /\
  safe (sensitive default_redactor) (cut (redacted_text (fun _ => "text"))) (cut (replaced_value default_redactor)) w.
Proof.
  exists (JObj [("Api-Key", JStr "<redacted>"); ("note", JStr "text")]).
  assert (redact default_redactor (fun _ => "") (fun _ => "text")
    (JObj [("Api-Key", JArr [JStr "sk-1"]); ("note", JStr "Bearer abcdefghij")]) (Some 200) =
      Ok (JObj [("Api-Key", JStr "<redacted>"); ("note", JStr "text")])) as E by (by vm_compute).
  exact (conj E (proj1 (redaction_leaves_no_secret default_redactor (fun _ => "") (fun _ => "text") _ (Some 200) _ E))).
Defined.


(** ** What [sanitize_tool_output] makes of a value *)
Lemma strip_solid_char c s : is_space c = false -> strip (String c s) <> "".
Proof. intros Hc. unfold strip, strip_by. cbn [lstrip_by]. rewrite Hc. cbn [rstrip_by]. rewrite Hc. by destruct (rstrip_by _ s). Qed.
Lemma strip_app_solid a b : strip b <> "" -> strip (a +:+ b) <> "".
Proof.
  intros Hb. induction a as [|c a IH]; [done|]. change (String c a +:+ b) with (String c (a +:+ b)).
  destruct (is_space c) eqn:Hc; [|by apply strip_solid_char]. unfold strip, strip_by in *. cbn [lstrip_by]. by rewrite Hc.
Qed.
Lemma truncate_text_solid s n : 0 < n -> strip s <> "" -> strip (truncate_text s n TRUNCATION_MARKER) <> "".
Proof.
  intros Hn Hs. unfold truncate_text. destruct (_ <=? n); [done|]. destruct (n <=? _); [|by apply strip_app_solid].
  replace (Z.to_nat n) with (S (Z.to_nat (n - 1))) by lia. unfold TRUNCATION_MARKER. cbn [stake]. unfold decode_ignore. cbn [String.length whole_chars].
  change (utf8_length "<"%char) with 1%nat. cbn [Nat.leb stake sdrop]. set (rest := whole_chars _ _). by apply (strip_solid_char "<"%char rest).
Qed.

Lemma safe_jsonable sens T R v : safe sens T R v -> jsonable v = true.
Proof.
  induction v as [|b|n|f|s|l IH|l IH|x] using json_nested_ind; intros Hv; try done.
  - inversion Hv; naive_solver.
  - apply safe_arr_inv in Hv. cbn. apply forallb_forall. intros w Hw%list_elem_of_In. rewrite Forall_forall in *. auto.
  - apply safe_obj_inv in Hv. cbn. apply forallb_forall. intros p Hp%list_elem_of_In. rewrite Forall_forall in *.
    destruct (Hv p Hp) as [H1 H2]. destruct (sens p.1); [|by apply IH, H2]. by destruct H1 as (s & -> & _).
  - by destruct (safe_opaque _ _ _ _ Hv).
Qed.

Lemma object_items_object fr md mi mk f total rest idx remaining result :
  exists d, (object_items fr md mi mk f total rest idx remaining result).1.1 = JObj d.
Proof.
  revert idx remaining result. induction rest as [|[k v] rest IH]; intros idx remaining result; cbn [object_items]; unfold end_object; cbv zeta;
    repeat (case_match; try (by eexists)); eauto.
Qed.

Section sanitized.
Variable float_repr : spec_float -> string.
Variable redact_text : string -> string.
Variables max_run_packet_bytes max_tool_output_bytes : Z.
Hypothesis budgets : 0 < max_run_packet_bytes /\ 0 < max_tool_output_bytes.
#[local] Notation sanitize := (sanitize_tool_output float_repr redact_text max_run_packet_bytes max_tool_output_bytes).

Lemma sanitized_json v : exists w, sanitize v = Ok w /\ jsonable w = true.
Proof.
  unfold sanitize_tool_output, redact, truncate_collection. rewrite (proj2 (Z.ltb_ge _ _)) by lia. eexists. split; [done|].
  apply (safe_jsonable (sensitive default_redactor) (cut (redacted_text redact_text)) (cut (replaced_value default_redactor))).
  assert (forall s, s ∈ [""; TRUNCATION_MARKER; NONFINITE_FLOAT_REPLACEMENT; "<MAX_DEPTH>"; "<TRUNCATED>"] -> note s) as Hn by (by left).
  apply truncate_safe; [right|right|right|right|by apply redact_value_safe]; apply Hn; set_solver.
Qed.
Lemma sanitized_str s : (forall s, strip s <> "" -> strip (redact_text s) <> "") -> strip s <> "" ->
  exists s', sanitize (JStr s) = Ok (JStr s') /\ strip s' <> "".
Proof.
  intros Hr Hs. unfold sanitize_tool_output, redact, truncate_collection. set (n := Z.min _ _). assert (0 < n) as Hn by lia.
  rewrite (proj2 (Z.ltb_ge n 0)) by lia. cbn [redact_value rd_max_depth default_redactor].
  cbn [truncate_with_budget]. rewrite (proj2 (Z.leb_gt n 0)) by lia. destruct (_ <=? n); eexists; (split; [done|]); [by apply Hr|].
  apply truncate_text_solid; [done|by apply Hr].
Qed.
Lemma sanitized_dict d : exists d', sanitize (JObj d) = Ok (JObj d').
Proof.
  unfold sanitize_tool_output, redact, truncate_collection. set (n := Z.min _ _). assert (0 < n) as Hn by lia.
  rewrite (proj2 (Z.ltb_ge n 0)) by lia. cbn [redact_value rd_max_depth default_redactor].
  set (l := redact_mapping _ _ _ _ _ _). cbn [truncate_with_budget]. rewrite (proj2 (Z.leb_gt n 0)) by lia.
  match goal with |- context [object_items ?fr ?md ?mi ?mk ?f ?t ?l ?i ?b ?r] =>
    destruct (object_items_object fr md mi mk f t l i b r) as [d' Hd] end.
  exists d'. cbn [raise_if mbind res_bind]. by rewrite Hd.
Qed.
End sanitized.
