(* ===== verification/AuditSanitize.v ===== *)
(** * Audit packets: [sanitize_for_audit] of [observability/audit_sanitize.py]

    What is stored of a run packet: redacted, truncated to a budget, and with the
    identifiers an auditor needs put back in place. The results: the identifiers
    of the run, the event, the tasks and the tool calls survive, and the stored
    value keeps its budget unless nothing but the identifiers is left. *)

From Stdlib Require Import ZArith SpecFloat Lia.
From S2P Require Import Prelude PyFloat PyText Models Serialization Truncation Redaction.

#[local] Notation dict := (list (string * json)).

(** ** [_extract_audit_anchors] *)
Record anchors := mkAnchors {
  an_run_id : option string;
  an_event_id : option string;
  an_tasks : list (string * option string);
  an_tool_call_ids : list string;
}.

(** [d.get(key)] when it is a string, a mapping, a sequence *)
Definition get_str (key : string) (d : dict) : option string := match aget key d with Some (JStr s) => Some s | _ => None end.
Definition get_dict (key : string) (d : dict) : option dict := match aget key d with Some (JObj l) => Some l | _ => None end.
Definition get_list (key : string) (d : dict) : option (list json) := match aget key d with Some (JArr l) => Some l | _ => None end.
Definition as_dict (v : json) : option dict := match v with JObj d => Some d | _ => None end.

Definition task_anchor (v : json) : option (string * option string) :=
  task ← as_dict v;
  task_id ← get_str "task_id" task;
  Some (task_id, tool_call ← get_dict "tool_call" task; get_str "tool_call_id" tool_call).
Definition result_anchor (v : json) : option string := result ← as_dict v; get_str "tool_call_id" result.
Definition extract_audit_anchors (packet : dict) : anchors :=
  mkAnchors (get_str "run_id" packet) (event ← get_dict "event" packet; get_str "event_id" event)
    (omap task_anchor (default [] (get_list "tasks" packet))) (omap result_anchor (default [] (get_list "tool_results" packet))).

(** ** [_build_minimal_audit_packet] *)
Definition task_min (a : string * option string) : dict :=
  ("task_id", JStr a.1) :: match a.2 with Some id => [("tool_call", JObj [("tool_call_id", JStr id)])] | None => [] end.
Definition result_min (id : string) : dict := [("tool_call_id", JStr id)].
Definition build_minimal_audit_packet (a : anchors) : dict :=
  (match an_run_id a with Some id => [("run_id", JStr id)] | None => [] end ++
   match an_event_id a with Some id => [("event", JObj [("event_id", JStr id)])] | None => [] end ++
   match an_tasks a with [] => [] | l => [("tasks", JArr (map (fun t => JObj (task_min t)) l))] end ++
   match an_tool_call_ids a with [] => [] | l => [("tool_results", JArr (map (fun id => JObj (result_min id)) l))] end)%list.

(** ** [_order_packet_keys], [_order_event_keys] *)
Definition order_keys (priority : list string) (d : dict) : dict :=
  let ordered := foldl (fun o key => match aget key d with Some v => aset key v o | None => o end) [] priority in
  foldl (fun o p => if is_set (aget p.1 o) then o else aset p.1 p.2 o) ordered d.
Definition order_packet_keys : dict -> dict :=
  order_keys ["run_id"; "event"; "tasks"; "tool_results"; "policy_decisions"; "reflex_decision"; "plan"; "parent_run_id";
    "created_at_ms"; "started_at_ms"; "completed_at_ms"].
Definition order_event_keys : dict -> dict :=
  order_keys ["event_id"; "type"; "source"; "received_at_ms"; "payload"; "dedupe_key"].

(** ** [_apply_anchors] *)

(** [tool_call["tool_call_id"] = id] in the first task with the id *)
Definition with_tool_call_id (id : string) (task : dict) : dict :=
  aset "tool_call" (JObj (aset "tool_call_id" (JStr id) (default [] (get_dict "tool_call" task)))) task.
Fixpoint anchor_first (task_id id : string) (tasks : list dict) : list dict :=
  match tasks with
  | [] => []
  | task :: rest =>
      if bool_decide (get_str "task_id" task = Some task_id) then with_tool_call_id id task :: rest
      else task :: anchor_first task_id id rest
  end.
Definition anchor_task (present : list string) (tasks : list dict) (a : string * option string) : list dict :=
  if bool_decide (a.1 ∈ present)
  then match a.2 with Some id => anchor_first a.1 id tasks | None => tasks end
  else (tasks ++ [task_min a])%list.
Definition anchored_tasks (existing : list json) (l : list (string * option string)) : list dict :=
  let normalized_tasks := omap as_dict existing in
  foldl (anchor_task (omap (get_str "task_id") normalized_tasks)) normalized_tasks l.
Definition anchored_results (existing : list json) (l : list string) : list dict :=
  let normalized_results := omap as_dict existing in
  let present_ids := omap (get_str "tool_call_id") normalized_results in
  (normalized_results ++ map result_min (filter (fun id => id ∉ present_ids) l))%list.

Definition apply_anchors (packet : dict) (a : anchors) : dict :=
  let packet := match an_run_id a with Some id => aset "run_id" (JStr id) packet | None => packet end in
  let packet :=
    match an_event_id a with
    | Some id => aset "event" (JObj (order_event_keys (aset "event_id" (JStr id) (default [] (get_dict "event" packet))))) packet
    | None => packet
    end in
  let packet :=
    match an_tasks a with
    | [] => packet
    | l => aset "tasks" (JArr (map JObj (anchored_tasks (default [] (get_list "tasks" packet)) l))) packet
    end in
  let packet :=
    match an_tool_call_ids a with
    | [] => packet
    | l => aset "tool_results" (JArr (map JObj (anchored_results (default [] (get_list "tool_results" packet)) l))) packet
    end in
  order_packet_keys packet.

(** ** The settings and the redactor *)
Record audit_settings := mkAuditSettings {
  max_event_payload_bytes : Z;
  max_tool_output_bytes : Z;
  max_run_packet_bytes : Z;
}.

Section sanitize.
Variable float_repr : spec_float -> string.
Variable redact_text : string -> string.
Variable settings : audit_settings.

#[local] Notation redactor_redact := (redact default_redactor float_repr redact_text).
#[local] Notation truncate := (truncate_collection float_repr (rd_max_depth default_redactor) (rd_max_items default_redactor) TRUNCATION_MARKER).
#[local] Notation size v := (estimate_size_bytes float_repr 8 200 v).
#[local] Notation sanitize_output :=
  (sanitize_tool_output float_repr redact_text (max_run_packet_bytes settings) (max_tool_output_bytes settings)).

(** [_sanitize_tool_result_entry] *)
Definition truncate_values (budget : Z) (d : dict) : res dict :=
  sequence (map (fun p => v ← truncate p.2 budget; Ok (p.1, v)) d).
Definition sanitize_tool_result_entry (v : json) : res json :=
  match v with
  | JObj _ =>
      redacted ← redactor_redact v None;
      match redacted with
      | JObj d =>
          l ← truncate_values (Z.min (max_tool_output_bytes settings) (max_run_packet_bytes settings)) d;
          Ok (JObj l)
      | _ => sanitize_output v
      end
  | _ => sanitize_output v
  end.

(** [_prepare_packet_for_audit] *)
Definition prepare_event (event : dict) : res dict :=
  event ← (match aget "payload" event with
           | Some payload =>
               redacted ← redactor_redact payload (Some (Z.min (max_event_payload_bytes settings) (max_run_packet_bytes settings)));
               Ok (aset "payload" redacted event)
           | None => Ok event
           end : res dict);
  Ok (order_event_keys event).
Definition prepare_packet_for_audit (packet : dict) : res dict :=
  packet ← (match get_dict "event" packet with
            | Some event => event ← prepare_event event; Ok (aset "event" (JObj event) packet)
            | None => Ok packet
            end : res dict);
  packet ← (match get_list "tool_results" packet with
            | Some l => l ← sequence (map sanitize_tool_result_entry l); Ok (aset "tool_results" (JArr l) packet)
            | None => Ok packet
            end : res dict);
  Ok (order_packet_keys packet).

(** [_with_truncation_marker] *)
Definition with_truncation_marker (packet : dict) : dict :=
  if is_set (aget TRUNCATION_MARKER packet) then packet else aset TRUNCATION_MARKER (JStr "") packet.

(** The anchors put back after truncation, when they fit. *)
Definition reanchor (packet : dict) (a : anchors) (otherwise : dict) : res dict :=
  retruncated ← truncate (JObj packet) (max_run_packet_bytes settings);
  match retruncated with
  | JObj d => if size (JObj (apply_anchors d a)) <=? max_run_packet_bytes settings then Ok (apply_anchors d a) else Ok otherwise
  | _ => Ok otherwise
  end.

(** [sanitize_for_audit] *)
Definition sanitize_for_audit (packet : dict) : res dict :=
  let a := extract_audit_anchors packet in
  let minimal := build_minimal_audit_packet a in
  if max_run_packet_bytes settings <? size (JObj minimal) then
    redacted ← redactor_redact (JObj minimal) None;
    truncated ← truncate redacted (max_run_packet_bytes settings);
    Ok (match truncated with JObj d => d | _ => minimal end)
  else
    prepared ← prepare_packet_for_audit packet;
    sanitized ← redactor_redact (JObj prepared) (Some (max_run_packet_bytes settings));
    match sanitized with
    | JObj d =>
        let anchored := apply_anchors d a in
        if size (JObj anchored) <=? max_run_packet_bytes settings then Ok anchored
        else reanchor anchored a (with_truncation_marker minimal)
    | _ => Ok (with_truncation_marker minimal)
    end.
End sanitize.

(** ** The anchors are there *)
Definition task_ids (packet : dict) : list string := omap (fun v => task ← as_dict v; get_str "task_id" task) (default [] (get_list "tasks" packet)).
Definition result_ids (packet : dict) : list string := omap result_anchor (default [] (get_list "tool_results" packet)).

Record has_anchors (a : anchors) (packet : dict) : Prop := {
  ha_run : forall id, an_run_id a = Some id -> get_str "run_id" packet = Some id;
  ha_event : forall id, an_event_id a = Some id -> (event ← get_dict "event" packet; get_str "event_id" event) = Some id;
  ha_tasks : forall t, t ∈ an_tasks a -> t.1 ∈ task_ids packet;
  ha_tool_calls : NoDup (an_tasks a).*1 -> forall t id, t ∈ an_tasks a -> t.2 = Some id ->
    (t.1, Some id) ∈ omap task_anchor (default [] (get_list "tasks" packet));
  ha_results : forall id, id ∈ an_tool_call_ids a -> id ∈ result_ids packet;
}.

Lemma aget_order_keys priority d k : aget k (order_keys priority d) = aget k d.
Proof.
  unfold order_keys. assert (forall l (o : dict), aget k (foldl (fun o p => if is_set (aget p.1 o) then o else aset p.1 p.2 o) o l) =
    match aget k o with Some v => Some v | None => aget k l end) as H2.
  { induction l as [|[k' v'] l IH]; intros o; cbn [foldl]; [by destruct (aget k o)|]. rewrite IH. cbn [fst snd aget].
    destruct (aget k' o) as [w|] eqn:E; cbn [is_set].
    - destruct (decide (k = k')) as [->|]; [by rewrite E|done].
    - rewrite aget_aset. destruct (decide (k = k')) as [->|]; [by rewrite E|done]. }
  assert (forall l (o : dict), (forall v, aget k o = Some v -> aget k d = Some v) ->
    forall v, aget k (foldl (fun o key => match aget key d with Some v => aset key v o | None => o end) o l) = Some v -> aget k d = Some v) as H1.
  { induction l as [|k' l IH]; intros o Ho; cbn [foldl]; [done|]. apply IH. destruct (aget k' d) as [w|] eqn:E; [|done].
    intros v. rewrite aget_aset. case_decide; [subst; congruence|by apply Ho]. }
  rewrite H2. destruct (aget k (foldl _ [] priority)) as [v|] eqn:E; [|done]. symmetry. by apply (H1 priority []).
Qed.
Lemma get_str_order_keys priority d k : get_str k (order_keys priority d) = get_str k d.
Proof. unfold get_str. by rewrite aget_order_keys. Qed.
Lemma get_dict_order_keys priority d k : get_dict k (order_keys priority d) = get_dict k d.
Proof. unfold get_dict. by rewrite aget_order_keys. Qed.
Lemma get_list_order_keys priority d k : get_list k (order_keys priority d) = get_list k d.
Proof. unfold get_list. by rewrite aget_order_keys. Qed.
Lemma get_str_aset k k' v d : get_str k (aset k' v d) = if decide (k = k') then match v with JStr s => Some s | _ => None end else get_str k d.
Proof. unfold get_str. rewrite aget_aset. by case_decide. Qed.
Lemma get_dict_aset k k' v d : get_dict k (aset k' v d) = if decide (k = k') then as_dict v else get_dict k d.
Proof. unfold get_dict. rewrite aget_aset. by case_decide. Qed.
Lemma get_list_aset k k' v d : get_list k (aset k' v d) = if decide (k = k') then match v with JArr l => Some l | _ => None end else get_list k d.
Proof. unfold get_list. rewrite aget_aset. by case_decide. Qed.

Lemma anchor_first_ids x id tasks : get_str "task_id" <$> anchor_first x id tasks = get_str "task_id" <$> tasks.
Proof.
  induction tasks as [|t tasks IH]; cbn [anchor_first]; [done|]. case_bool_decide; cbn; [|by rewrite IH].
  f_equal. unfold with_tool_call_id. by rewrite get_str_aset.
Qed.
Lemma anchor_first_others x id tasks t : t ∈ tasks -> get_str "task_id" t <> Some x -> t ∈ anchor_first x id tasks.
Proof.
  induction tasks as [|t' tasks IH]; cbn [anchor_first]; [done|]. intros [->|Ht]%elem_of_cons Hn; [by rewrite bool_decide_false; [left|]|].
  case_bool_decide; [by right|right; auto].
Qed.
Lemma task_anchor_min t : task_anchor (JObj (task_min t)) = Some t.
Proof. by destruct t as [? [?|]]. Qed.
Lemma anchor_first_found x id tasks : Some x ∈ get_str "task_id" <$> tasks -> (x, Some id) ∈ omap task_anchor (JObj <$> anchor_first x id tasks).
Proof.
  induction tasks as [|t tasks IH]; intros H; [inversion H|]. cbn [fmap list_fmap anchor_first] in *. case_bool_decide as Hd.
  - cbn [fmap list_fmap omap list_omap]. unfold task_anchor at 1, with_tool_call_id. cbn [as_dict mbind option_bind].
    rewrite get_str_aset, decide_False by done. rewrite Hd. cbn [mbind option_bind]. rewrite get_dict_aset, decide_True by done.
    cbn [as_dict mbind option_bind]. rewrite get_str_aset, decide_True by done. left.
  - apply elem_of_cons in H as [H|H]; [by rewrite H in Hd|]. cbn [fmap list_fmap omap list_omap].
    destruct (task_anchor (JObj t)); [right|]; by apply IH.
Qed.

Lemma anchor_task_grows present tasks t x : Some x ∈ get_str "task_id" <$> tasks -> Some x ∈ get_str "task_id" <$> anchor_task present tasks t.
Proof.
  intros Hx. unfold anchor_task. case_bool_decide; [destruct (t.2); [by rewrite anchor_first_ids|done]|].
  rewrite fmap_app. apply elem_of_app. by left.
Qed.
Lemma anchor_task_present present tasks t : (forall x, x ∈ present -> Some x ∈ get_str "task_id" <$> tasks) ->
  Some t.1 ∈ get_str "task_id" <$> anchor_task present tasks t.
Proof.
  intros Hp. unfold anchor_task. case_bool_decide as Hd; [destruct (t.2); [rewrite anchor_first_ids|]; by apply Hp|].
  rewrite fmap_app. apply elem_of_app. right. apply list_elem_of_singleton. by destruct t as [? [?|]].
Qed.
Lemma anchor_task_call present tasks t id : (forall x, x ∈ present -> Some x ∈ get_str "task_id" <$> tasks) -> t.2 = Some id ->
  (t.1, Some id) ∈ omap task_anchor (JObj <$> anchor_task present tasks t).
Proof.
  intros Hp Ht. unfold anchor_task. case_bool_decide as Hd; [rewrite Ht; by apply anchor_first_found, Hp|].
  rewrite fmap_app, omap_app. apply elem_of_app. right. cbn [fmap list_fmap omap list_omap]. rewrite task_anchor_min.
  destruct t as [x o]. cbn in Ht. subst. left.
Qed.
Lemma anchor_task_keeps present tasks t x c : x <> t.1 -> (x, c) ∈ omap task_anchor (JObj <$> tasks) ->
  (x, c) ∈ omap task_anchor (JObj <$> anchor_task present tasks t).
Proof.
  intros Hn (v & Hv & Ha)%list_elem_of_omap. apply list_elem_of_fmap in Hv as (d & -> & Hd).
  assert (get_str "task_id" d = Some x) as Hx.
  { unfold task_anchor in Ha. cbn in Ha. destruct (get_str "task_id" d); [|done]. cbn in Ha. congruence. }
  apply list_elem_of_omap. exists (JObj d). split; [|done]. apply list_elem_of_fmap_2. unfold anchor_task. case_bool_decide.
  - destruct (t.2); [apply anchor_first_others; [done|congruence]|done].
  - apply elem_of_app. by left.
Qed.

Lemma anchored_tasks_spec existing l :
  (forall t, t ∈ l -> Some t.1 ∈ get_str "task_id" <$> anchored_tasks existing l) /\
  (NoDup l.*1 -> forall t id, t ∈ l -> t.2 = Some id -> (t.1, Some id) ∈ omap task_anchor (JObj <$> anchored_tasks existing l)).
Proof.
  unfold anchored_tasks. set (ts := omap as_dict existing).
  assert (forall x, x ∈ omap (get_str "task_id") ts -> Some x ∈ get_str "task_id" <$> ts) as Hp.
  { intros x (d & Hd & Hx)%list_elem_of_omap. rewrite <- Hx. by apply list_elem_of_fmap_2. }
  revert Hp. generalize (omap (get_str "task_id") ts) as present. intros present. clearbody ts. revert ts.
  induction l as [|t l IH]; intros ts Hp; cbn [foldl]; [split; [intros t Ht|intros _ t id Ht]; by inversion Ht|].
  destruct (IH (anchor_task present ts t)) as [IH1 IH2]; [intros x Hx; by apply anchor_task_grows, Hp|].
  assert (forall x ts, Some x ∈ get_str "task_id" <$> ts -> Some x ∈ get_str "task_id" <$> foldl (anchor_task present) ts l) as Hgrow.
  { clear. induction l as [|t l IH]; intros x ts Hx; cbn [foldl]; [done|]. by apply IH, anchor_task_grows. }
  assert (forall x c ts, x ∉ l.*1 -> (x, c) ∈ omap task_anchor (JObj <$> ts) ->
    (x, c) ∈ omap task_anchor (JObj <$> foldl (anchor_task present) ts l)) as Hkeep.
  { clear. induction l as [|t l IH]; intros x c ts Hx Hc; cbn [foldl]; [done|]. apply not_elem_of_cons in Hx as [Hx Hl].
    by apply IH, anchor_task_keeps. }
  split.
  - intros t' [->|Ht]%elem_of_cons; [by apply Hgrow, anchor_task_present|by apply IH1].
  - intros [Hn Hl]%NoDup_cons t' id [->|Ht]%elem_of_cons He; [|by apply IH2]. by apply Hkeep, anchor_task_call.
Qed.
Lemma anchored_results_spec existing l id : id ∈ l -> id ∈ omap result_anchor (JObj <$> anchored_results existing l).
Proof.
  intros Hid. unfold anchored_results. rewrite fmap_app, omap_app. apply elem_of_app.
  set (rs := omap as_dict existing). destruct (decide (id ∈ omap (get_str "tool_call_id") rs)) as [Hd|Hd].
  - left. apply list_elem_of_omap in Hd as (d & Hd & Hx). apply list_elem_of_omap. exists (JObj d). split; [by apply list_elem_of_fmap_2|done].
  - right. apply list_elem_of_omap. exists (JObj (result_min id)). split; [|done]. apply list_elem_of_fmap_2, list_elem_of_fmap_2.
    by apply list_elem_of_filter.
Qed.

Lemma task_ids_anchored (l : list dict) x : Some x ∈ get_str "task_id" <$> l -> x ∈ omap (fun v => task ← as_dict v; get_str "task_id" task) (JObj <$> l).
Proof.
  intros (d & Hx & Hd)%list_elem_of_fmap. apply list_elem_of_omap. exists (JObj d). split; [by apply list_elem_of_fmap_2|]. by rewrite Hx.
Qed.

Lemma apply_anchors_has a packet : has_anchors a (apply_anchors packet a).
Proof.
  unfold apply_anchors, order_packet_keys. set (p1 := match an_run_id a with Some id => aset "run_id" (JStr id) packet | None => packet end).
  set (p2 := match an_event_id a with Some id => aset "event" _ p1 | None => p1 end).
  set (p3 := match an_tasks a with [] => p2 | l => aset "tasks" _ p2 end).
  set (p4 := match an_tool_call_ids a with [] => p3 | l => aset "tool_results" _ p3 end).
  assert (forall k, k <> "tool_results" -> aget k p4 = aget k p3) as H4.
  { intros k Hk. unfold p4. destruct (an_tool_call_ids a); [done|]. by rewrite aget_aset, decide_False. }
  assert (forall k, k <> "tasks" -> aget k p3 = aget k p2) as H3.
  { intros k Hk. unfold p3. destruct (an_tasks a); [done|]. by rewrite aget_aset, decide_False. }
  assert (forall k, k <> "event" -> aget k p2 = aget k p1) as H2.
  { intros k Hk. unfold p2. destruct (an_event_id a); [|done]. by rewrite aget_aset, decide_False. }
  split.
  - intros id Hid. rewrite get_str_order_keys. unfold get_str. rewrite H4, H3, H2 by done. unfold p1. rewrite Hid.
    by rewrite aget_aset, decide_True.
  - intros id Hid. rewrite get_dict_order_keys. unfold get_dict at 1. rewrite H4, H3 by done. unfold p2. rewrite Hid.
    rewrite aget_aset, decide_True by done. cbn [mbind option_bind]. unfold order_event_keys. rewrite get_str_order_keys.
    by rewrite get_str_aset, decide_True.
  - intros t Ht. unfold task_ids. rewrite get_list_order_keys. unfold get_list. rewrite H4 by done. unfold p3.
    destruct (an_tasks a) as [|t0 l] eqn:Ea; [by inversion Ht|]. rewrite aget_aset, decide_True by done. cbn [default].
    by apply task_ids_anchored, anchored_tasks_spec.
  - intros Hn t id Ht Hid. rewrite get_list_order_keys. unfold get_list. rewrite H4 by done. unfold p3.
    destruct (an_tasks a) as [|t0 l] eqn:Ea; [by inversion Ht|]. rewrite aget_aset, decide_True by done. cbn [default].
    by apply anchored_tasks_spec.
  - intros id Hid. unfold result_ids. rewrite get_list_order_keys. unfold get_list, p4.
    destruct (an_tool_call_ids a) as [|t0 l] eqn:Ea; [by inversion Hid|]. rewrite aget_aset, decide_True by done. cbn [default].
    by apply anchored_results_spec.
Qed.

Lemma minimal_has a : has_anchors a (build_minimal_audit_packet a).
Proof.
  destruct a as [run event tasks calls]. unfold build_minimal_audit_packet.
  cbn [an_run_id an_event_id an_tasks an_tool_call_ids].
  assert (forall l, omap task_anchor (map (fun t => JObj (task_min t)) l) = l) as Htasks.
  { induction l as [|t l IH]; [done|]. cbn [map omap list_omap]. by rewrite task_anchor_min, IH. }
  assert (forall l, omap (fun v => task ← as_dict v; get_str "task_id" task) (map (fun t => JObj (task_min t)) l) = l.*1) as Hids.
  { induction l as [|t l IH]; [done|]. cbn [map omap list_omap]. rewrite IH. by destruct t as [? [?|]]. }
  assert (forall l, omap result_anchor (map (fun id => JObj (result_min id)) l) = l) as Hcalls.
  { induction l as [|t l IH]; [done|]. cbn [map omap list_omap]. by rewrite IH. }
  split; unfold task_ids, result_ids; cbn [an_run_id an_event_id an_tasks an_tool_call_ids].
  - intros id ->. done.
  - intros id ->. by destruct run.
  - intros t Ht. destruct tasks as [|t0 l]; [by inversion Ht|]. assert (t.1 ∈ (t0 :: l).*1) as Hin by (by apply list_elem_of_fmap_2).
    rewrite <- Hids in Hin. by destruct run, event.
  - intros _ t id Ht Hid. destruct tasks as [|t0 l]; [by inversion Ht|]. destruct t as [x o]. cbn in Hid. subst o.
    rewrite <- (Htasks (t0 :: l)) in Ht. by destruct run, event.
  - intros id Hid. destruct calls as [|c l]; [by inversion Hid|]. rewrite <- (Hcalls (c :: l)) in Hid. by destruct run, event, tasks.
Qed.

Lemma with_marker_has a packet : has_anchors a packet -> has_anchors a (with_truncation_marker packet).
Proof.
  unfold with_truncation_marker. destruct (is_set _); [done|]. intros []. unfold task_ids, result_ids in *.
  split; unfold task_ids, result_ids; by rewrite ?get_str_aset, ?get_dict_aset, ?get_list_aset, decide_False.
Qed.

Section sanitized.
Variable float_repr : spec_float -> string.
Variable redact_text : string -> string.
Variable settings : audit_settings.
Hypothesis caps : 0 < max_event_payload_bytes settings /\ 0 < max_tool_output_bytes settings /\ 0 < max_run_packet_bytes settings.

Lemma sequence_exists {A B} (f : A -> res B) l : (forall a, a ∈ l -> exists b, f a = Ok b) -> exists bs, sequence (map f l) = Ok bs.
Proof.
  induction l as [|a l IH]; intros Hf; [by eexists|]. destruct (Hf a) as [b Hb]; [left|]. destruct IH as [bs Hbs]; [intros; apply Hf; by right|].
  exists (b :: bs). cbn [map sequence]. by rewrite Hb, Hbs.
Qed.
Lemma truncate_returns d i v n : 0 <= n -> exists w, truncate_collection float_repr d i TRUNCATION_MARKER v n = Ok w.
Proof. intros Hn. unfold truncate_collection. rewrite (proj2 (Z.ltb_ge _ _)) by done. by eexists. Qed.
Lemma redact_returns v n : match n with Some n => 0 <= n | None => True end -> exists w, redact default_redactor float_repr redact_text v n = Ok w.
Proof. unfold redact. destruct n; [by apply truncate_returns|by eexists]. Qed.
Lemma sanitize_entry_returns v : exists w, sanitize_tool_result_entry float_repr redact_text settings v = Ok w.
Proof.
  destruct caps as (H1 & H2 & H3). unfold sanitize_tool_result_entry.
  assert (exists w, sanitize_tool_output float_repr redact_text (max_run_packet_bytes settings) (max_tool_output_bytes settings) v = Ok w) as [w Hw]
    by (apply redact_returns; lia).
  destruct v as [| | | | | |l|]; try (by exists w). destruct (redact_returns (JObj l) None I) as [r ->]. cbn [mbind res_bind].
  destruct r as [| | | | | |d|]; try (by exists w). unfold truncate_values.
  destruct (sequence_exists (fun p => v ← truncate_collection float_repr (rd_max_depth default_redactor) (rd_max_items default_redactor)
    TRUNCATION_MARKER p.2 (Z.min (max_tool_output_bytes settings) (max_run_packet_bytes settings)); Ok (p.1, v)) d) as [bs ->]; [|by eexists].
  intros p _. destruct (truncate_returns (rd_max_depth default_redactor) (rd_max_items default_redactor) p.2
    (Z.min (max_tool_output_bytes settings) (max_run_packet_bytes settings)) ltac:(lia)) as [x ->]. by eexists.
Qed.
Lemma prepare_returns packet : exists p, prepare_packet_for_audit float_repr redact_text settings packet = Ok p.
Proof.
  destruct caps as (H1 & H2 & H3). unfold prepare_packet_for_audit, prepare_event.
  match goal with |- context [mbind _ ?x] => assert (exists p, x = Ok p) as [p1 ->] end.
  { destruct (get_dict "event" packet) as [e|]; [|by eexists]. destruct (aget "payload" e) as [v|]; [|by eexists].
    destruct (redact_returns v (Some (Z.min (max_event_payload_bytes settings) (max_run_packet_bytes settings))) ltac:(cbn; lia)) as [w ->]. by eexists. }
  cbn [mbind res_bind]. destruct (get_list "tool_results" p1) as [l|]; [|by eexists].
  destruct (sequence_exists (sanitize_tool_result_entry float_repr redact_text settings) l) as [bs ->]; [|by eexists].
  intros v _. apply sanitize_entry_returns.
Qed.

#[local] Notation size v := (estimate_size_bytes float_repr 8 200 v).

(** What sanitising gives: always a packet, and in a budget that has room for the
    identifiers one with all of them. *)
Lemma sanitize_anchored packet (a := extract_audit_anchors packet) :
  exists p', sanitize_for_audit float_repr redact_text settings packet = Ok p' /\
    (size (JObj (build_minimal_audit_packet a)) <= max_run_packet_bytes settings ->
     has_anchors a p' /\
     (size (JObj p') <= max_run_packet_bytes settings \/ p' = with_truncation_marker (build_minimal_audit_packet a))).
Proof.
  unfold sanitize_for_audit. fold a. set (minimal := build_minimal_audit_packet a).
  destruct caps as (H1 & H2 & H3). destruct (Z.ltb_spec (max_run_packet_bytes settings) (size (JObj minimal))).
  - destruct (redact_returns (JObj minimal) None I) as [r ->]. cbn [mbind res_bind].
    destruct (truncate_returns (rd_max_depth default_redactor) (rd_max_items default_redactor) r (max_run_packet_bytes settings) ltac:(lia)) as [t ->].
    eexists. split; [done|]. lia.
  - destruct (prepare_returns packet) as [prepared ->]. cbn [mbind res_bind].
    destruct (redact_returns (JObj prepared) (Some (max_run_packet_bytes settings)) ltac:(cbn; lia)) as [s ->]. cbn [mbind res_bind].
    pose proof (with_marker_has a minimal (minimal_has a)) as Hmin.
    destruct s as [| | | | | |d|]; try (eexists; split; [done|]; by auto).
    destruct (Z.leb_spec (size (JObj (apply_anchors d a))) (max_run_packet_bytes settings)).
    + eexists. split; [done|]. intros _. split; [apply apply_anchors_has|by left].
    + unfold reanchor. destruct (truncate_returns (rd_max_depth default_redactor) (rd_max_items default_redactor) (JObj (apply_anchors d a))
        (max_run_packet_bytes settings) ltac:(lia)) as [t ->]. cbn [mbind res_bind].
      destruct t as [| | | | | |d'|]; try (eexists; split; [done|]; by auto).
      destruct (Z.leb_spec (size (JObj (apply_anchors d' a))) (max_run_packet_bytes settings)); (eexists; split; [done|]); [|by auto].
      intros _. split; [apply apply_anchors_has|by left].
Qed.

(** C29: what is stored of a run packet still says whose it is. Sanitising always
    gives a packet. When the identifiers alone fit in the budget, the result has
    the run id and event id of the packet, every task id, with its tool call id
    when the task ids differ, and every tool call id of the results, whatever was
    redacted and cut; and it is within the budget by its estimate, or else it is
    the identifiers and a marker. *)
Theorem anchors_survive packet : let a := extract_audit_anchors packet in
  exists p', sanitize_for_audit float_repr redact_text settings packet = Ok p' /\
    (size (JObj (build_minimal_audit_packet a)) <= max_run_packet_bytes settings ->
     has_anchors a p' /\
     (size (JObj p') <= max_run_packet_bytes settings \/ p' = with_truncation_marker (build_minimal_audit_packet a))).
Proof. apply sanitize_anchored. Qed.
End sanitized.

(** Two tasks and a large note in a budget of 150 bytes. *)
Definition sample_packet : list (string * json) :=
  [("run_id", JStr "r1"); ("event", JObj [("event_id", JStr "e1"); ("payload", JObj [("token", JStr "t"); ("note", JStr "a long note that is cut")])]);
   ("tasks", JArr [JObj [("task_id", JStr "a"); ("tool_call", JObj [("tool_call_id", JStr "c")])]; JObj [("task_id", JStr "b")]]);
   ("reflex_decision", JObj [("reason", JStr "a reason that is longer than what is left of the budget of this packet")])].
Lemma anchors_survive_witness : exists p',
  sanitize_for_audit (fun _ => "") id (mkAuditSettings 64 64 150) sample_packet = Ok p' /\
  has_anchors (extract_audit_anchors sample_packet) p'.
Proof.
  destruct (anchors_survive (fun _ => "") id (mkAuditSettings 64 64 150)) with (packet := sample_packet) as (p' & E & H).
  - split; [reflexivity|split; reflexivity].
  - exists p'. split; [exact E|]. apply H. vm_compute. discriminate.
Defined.
