(* ===== verification/Events.v ===== *)
(** * Events: [domain/models_event.py]

    The event record and its validators, among them the caps on the payload: a
    count of keys by an explicit stack and a size in bytes. The results: the
    stack loop ends and counts the keys of all nested dictionaries, and a
    validated event is within the caps. *)

From Stdlib Require Import ZArith SpecFloat Lia.
From S2P Require Import Prelude PyFloat PyText Uuid Models Serialization.

Definition DEFAULT_MAX_PAYLOAD_KEYS : Z := 200.
Definition DEFAULT_MAX_PAYLOAD_BYTES : Z := 64000.

(** ** Counting keys *)

(** One round of the loop of [_count_payload_keys]: what is pushed (the last
    pushed value is popped first) and what is added to the count. *)
Definition expand (current : json) : list json * Z :=
  match current with
  | JObj l => (rev (map snd l), Z.of_nat (length l))
  | JArr l => (rev l, 0)
  | _ => ([], 0)
  end.

Fixpoint count_loop (fuel : nat) (stack : list json) (count : Z) : option Z :=
  match stack with
  | [] => Some count
  | current :: rest =>
      match fuel with
      | O => None
      | S fuel => let '(pushed, n) := expand current in count_loop fuel (pushed ++ rest) (count + n)
      end
  end.

(** How many values there are in a value, itself included. *)
Fixpoint nodes (v : json) : nat :=
  match v with
  | JArr l => S (list_sum (map nodes l))
  | JObj l => S (list_sum (map (fun p => nodes p.2) l))
  | _ => 1
  end.

(** Every value is popped once ([count_payload_keys_spec]). *)
Definition count_payload_keys (v : json) : Z := default 0 (count_loop (nodes v) [v] 0).

(** ** The model *)
Record Event := mkEvent {
  event_id : string;
  ev_type : string;
  ev_source : string;
  received_at_ms : Z;
  ev_payload : list (string * json);
  dedupe_key : option string;
}.

(** What the constructor is called with. *)
Record event_input := mkEventInput {
  in_event_id : id_input;
  in_type : string;
  in_source : string;
  in_received_at_ms : Z;
  in_event_payload : list (string * json);
  in_dedupe_key : option string;
}.

Section events.
Variable float_repr : spec_float -> string.

(** [_payload_bytes]: text is bytes here. *)
Definition payload_bytes (v : json) : res Z := s ← compact_json float_repr v; Ok (Z.of_nat (String.length s)).

(** [max_payload_bytes] is the entry of the validation context. *)
Definition validate_payload (max_payload_bytes : option Z) (value : list (string * json)) : res (list (string * json)) :=
  let key_count := count_payload_keys (JObj value) in
  raise_if (DEFAULT_MAX_PAYLOAD_KEYS <? key_count)
    (ValueError ("payload has too many keys (" +:+ str_of_Z key_count +:+ "); max is " +:+ str_of_Z DEFAULT_MAX_PAYLOAD_KEYS));;
  raise_if (match max_payload_bytes with Some n => n <=? 0 | None => false end) (ValueError "max_payload_bytes must be > 0");;
  let max_bytes := default DEFAULT_MAX_PAYLOAD_BYTES max_payload_bytes in
  size_bytes ← match payload_bytes (JObj value) with
    | Raise (TypeError _) | Raise (ValueError _) => Raise (ValueError "payload must be valid JSON")
    | r => r
    end;
  raise_if (max_bytes <? size_bytes)
    (ValueError ("payload is too large (" +:+ str_of_Z size_bytes +:+ " bytes); max is " +:+ str_of_Z max_bytes));;
  Ok value.

(** The constructor [Event(...)]; [fresh] is what [str(uuid4())] returns. *)
Definition Event_validate (max_payload_bytes : option Z) (fresh : string) (i : event_input) : res Event :=
  run (VOk mkEvent
    <*> field "event_id" (validate_generated_id "event_id" fresh (in_event_id i))
    <*> field "type" (non_empty "type" (in_type i))
    <*> field "source" (non_empty "source" (in_source i))
    <*> VOk (in_received_at_ms i)
    <*> field "payload" (validate_payload max_payload_bytes (in_event_payload i))
    <*> field "dedupe_key" (normalize_optional (in_dedupe_key i)))%py.

(** ** The count *)

(** The keys of all nested dictionaries. *)
Fixpoint nested_keys (v : json) : nat :=
  match v with
  | JArr l => list_sum (map nested_keys l)
  | JObj l => length l + list_sum (map (fun p => nested_keys p.2) l)
  | _ => 0
  end.

#[local] Arguments list_sum : simpl never.
Lemma list_sum_cons n l : list_sum (n :: l) = (n + list_sum l)%nat.
Proof. done. Qed.

Lemma list_sum_rev l : list_sum (rev l) = list_sum l.
Proof. induction l as [|n l IH]; [done|]. cbn [rev]. rewrite list_sum_app, IH, !list_sum_cons. change (list_sum []) with 0%nat. lia. Qed.

Lemma expand_spec v pushed n : expand v = (pushed, n) ->
  nodes v = S (list_sum (map nodes pushed)) /\
  Z.of_nat (nested_keys v) = n + Z.of_nat (list_sum (map nested_keys pushed)).
Proof.
  destruct v; cbn; intros [= <- <-]; try (by split; cbn); rewrite !map_rev, !list_sum_rev, ?map_map; split; try done; lia.
Qed.

Lemma count_loop_spec fuel stack count : (list_sum (map nodes stack) <= fuel)%nat ->
  count_loop fuel stack count = Some (count + Z.of_nat (list_sum (map nested_keys stack))).
Proof.
  revert stack count. induction fuel as [|fuel IH]; intros [|v stack] count;
    [intros _; cbn [map count_loop]; f_equal; change (list_sum []) with 0%nat; lia| |
     intros _; cbn [map count_loop]; f_equal; change (list_sum []) with 0%nat; lia|];
    cbn [map count_loop]; rewrite !list_sum_cons; destruct (expand v) as [pushed n] eqn:E;
    apply expand_spec in E as [-> Hk]; [lia|].
  intros Hf. rewrite IH; rewrite map_app, list_sum_app; [|lia]. f_equal. lia.
Qed.
Lemma count_loop_one v : count_loop (nodes v) [v] 0 = Some (Z.of_nat (nested_keys v)).
Proof.
  rewrite count_loop_spec by (cbn [map]; rewrite list_sum_cons; change (list_sum []) with 0%nat; lia).
  cbn [map]. rewrite list_sum_cons. change (list_sum []) with 0%nat. f_equal. lia.
Qed.

Record valid_event (limit : Z) (e : Event) : Prop := {
  ve_id : is_uuid4_str (event_id e) = true;
  ve_type : is_trimmed (ev_type e);
  ve_source : is_trimmed (ev_source e);
  ve_key : forall k, dedupe_key e = Some k -> is_trimmed k;
  ve_keys : Z.of_nat (nested_keys (JObj (ev_payload e))) <= DEFAULT_MAX_PAYLOAD_KEYS;
  ve_json : jsonable (JObj (ev_payload e)) = true;
  ve_bytes : exists n, payload_bytes (JObj (ev_payload e)) = Ok n /\ n <= limit;
}.

Lemma count_payload_keys_eq v : count_payload_keys v = Z.of_nat (nested_keys v).
Proof. unfold count_payload_keys. by rewrite count_loop_one. Qed.

Lemma validate_payload_ok limit p q : validate_payload limit p = Ok q -> q = p /\
  Z.of_nat (nested_keys (JObj p)) <= DEFAULT_MAX_PAYLOAD_KEYS /\
  exists n, payload_bytes (JObj p) = Ok n /\ n <= default DEFAULT_MAX_PAYLOAD_BYTES limit.
Proof.
  unfold validate_payload. rewrite count_payload_keys_eq. intros (? & Hk%raise_if_Ok & E)%res_bind_Ok.
  apply res_bind_Ok in E as (? & _ & E). apply res_bind_Ok in E as (n & En & E).
  apply res_bind_Ok in E as (? & Hn%raise_if_Ok & [= <-]). apply Z.ltb_ge in Hk, Hn. split_and!; [done|done|].
  exists n. split; [|done]. by destruct (payload_bytes _) as [|[]].
Qed.

Lemma payload_bytes_jsonable v n : payload_bytes v = Ok n -> jsonable v = true.
Proof. intros (s & E & _)%res_bind_Ok. by rewrite <- (compact_ok float_repr), E. Qed.

(** The values of the UUID class. *)
Definition id_ok (i : id_input) : Prop := match i with IdUUID n => 0 <= n < 2 ^ 128 | _ => True end.
Lemma generated_id_ok f fresh i s : is_uuid4_str fresh = true -> id_ok i -> validate_generated_id f fresh i = Ok s ->
  is_uuid4_str s = true.
Proof.
  intros Hf Hi. destruct i as [|n|t|]; cbn [validate_generated_id]; [by intros [= <-]| |by apply (uuid_trim f t)|done].
  cbn. unfold require_version4. destruct (decide _) as [Hv|]; [|done]. intros [= <-]. unfold is_uuid4_str.
  rewrite uuid_parse_str by done. by rewrite bool_decide_true, String.eqb_refl.
Qed.

Lemma Event_validate_ok limit fresh i e : is_uuid4_str fresh = true -> id_ok (in_event_id i) ->
  Event_validate limit fresh i = Ok e ->
  valid_event (default DEFAULT_MAX_PAYLOAD_BYTES limit) e.
Proof.
  intros Hu Hi E. unfold Event_validate in E. vld_inv.
  match goal with H : validate_payload _ _ = Ok _ |- _ => apply validate_payload_ok in H as (-> & Hk & n & En & Hn) end.
  split; cbn; eauto using payload_bytes_jsonable, normalize_optional_Ok.
  - by eapply generated_id_ok.
  - match goal with H : non_empty "type" _ = Ok _ |- _ => apply non_empty_Ok in H as [-> ?] end. by apply strip_trimmed.
  - match goal with H : non_empty "source" _ = Ok _ |- _ => apply non_empty_Ok in H as [-> ?] end. by apply strip_trimmed.
  - by eapply (payload_bytes_jsonable (JObj _)).
Qed.

(** A valid event is built as it is. *)
Definition event_dict (e : Event) : event_input :=
  mkEventInput (IdStr (event_id e)) (ev_type e) (ev_source e) (received_at_ms e) (ev_payload e) (dedupe_key e).
Lemma Event_validate_fix fresh e : valid_event DEFAULT_MAX_PAYLOAD_BYTES e -> Event_validate None fresh (event_dict e) = Ok e.
Proof.
  intros [Hid Ht Hs Hk Hkeys Hj (n & En & Hn)]. unfold Event_validate, event_dict. cbn [in_event_id in_type
    in_source in_received_at_ms in_event_payload in_dedupe_key].
  rewrite validate_generated_id_str. rewrite (proj1 (is_uuid4_str_validate _ _)) by done. rewrite !non_empty_fix by done.
  assert (validate_payload None (ev_payload e) = Ok (ev_payload e)) as ->.
  { unfold validate_payload. rewrite count_payload_keys_eq, En. rewrite (proj2 (Z.ltb_ge _ _)) by done. cbn [default raise_if].
    unfold mbind, res_bind. rewrite (proj2 (Z.ltb_ge _ _)) by done. done. }
  rewrite normalize_optional_fix by done. by destruct e.
Qed.

(** the payload caps. The stack loop that counts the keys of a payload ends
    after one round per nested value and counts the keys of all nested
    dictionaries; and an event is accepted only with a payload that is valid
    JSON, with at most 200 keys in all and at most the given number of bytes of
    compact JSON, with trimmed type, source and key and a UUID4. *)
Theorem event_payload_capped limit fresh i e : is_uuid4_str fresh = true -> id_ok (in_event_id i) ->
  Event_validate limit fresh i = Ok e ->
  (forall v, count_loop (nodes v) [v] 0 = Some (Z.of_nat (nested_keys v))) /\
  valid_event (default DEFAULT_MAX_PAYLOAD_BYTES limit) e.
Proof.
  intros Hu Hi E. split; [exact count_loop_one|by eapply Event_validate_ok].
Qed.
End events.

Definition sample_event_input : event_input :=
  mkEventInput IdNone " page.created " "webhook" 5 [("a", JObj [("b", JInt 1)]); ("c", JArr [JObj [("d", JNull)]])] (Some " k ").
Lemma event_payload_capped_witness : valid_event (fun _ => "") 64000
  (mkEvent (uuid_str (4 * 16 ^ 19 + 8 * 16 ^ 15)) "page.created" "webhook" 5 (in_event_payload sample_event_input) (Some "k")).
Proof.
  apply (event_payload_capped (fun _ => "") None (uuid_str (4 * 16 ^ 19 + 8 * 16 ^ 15)) sample_event_input);
    [vm_compute; reflexivity|exact I|vm_compute; reflexivity].
Defined.
