(* ===== verification/Plans.v ===== *)
(** * Planning contracts: [orchestrator/plans.py]

    What planners and reflex rules hand to the orchestrator: proposed tasks,
    plans with their budget assertions, the planning input and the reflex
    decision, each with its validators in field order. *)

From Stdlib Require Import ZArith SpecFloat Lia.
From S2P Require Import Prelude PyFloat Uuid Models Serialization Events.

(** ** [ProposedTask] *)
Record ProposedTask := mkProposedTask {
  pt_name : string;
  pt_tool_name : string;
  pt_args : list (string * json);
  pt_depends_on : list string;
  pt_timeout_s : Z;
  pt_timeout_set : bool;                 (** ["timeout_s" in model_fields_set] *)
  pt_max_attempts : Z;
  pt_priority : option Z;
  idempotency_seed : option string;
  declared_permission_scope : option string;
  approval_required : option bool;
  expected_side_effects : option bool;
  execution_class : option string;
}.

Definition json_dict (field_name : string) (value : list (string * json)) : res (list (string * json)) :=
  if jsonable (JObj value) then Ok value else Raise (ValueError (field_name +:+ " must be JSON-serializable")).

Definition validate_optional {A B} (f : A -> res B) (value : option A) : res (option B) :=
  match value with None => Ok None | Some v => w ← f v; Ok (Some w) end.

Definition ProposedTask_validate (t : ProposedTask) : res ProposedTask :=
  run (VOk mkProposedTask
    <*> field "name" (non_empty "name" (pt_name t))
    <*> field "tool_name" (non_empty "tool_name" (pt_tool_name t))
    <*> field "args" (json_dict "args" (pt_args t))
    <*> field "depends_on" (non_empty_entries "depends_on" (pt_depends_on t))
    <*> field "timeout_s" (positive_int "timeout_s" (pt_timeout_s t))
    <*> VOk (pt_timeout_set t)
    <*> field "max_attempts" (positive_int "max_attempts" (pt_max_attempts t))
    <*> field "priority" (validate_optional (non_negative_int "priority") (pt_priority t))
    <*> field "idempotency_seed" (normalize_optional (idempotency_seed t))
    <*> field "declared_permission_scope" (normalize_optional (declared_permission_scope t))
    <*> VOk (approval_required t)
    <*> VOk (expected_side_effects t)
    <*> field "execution_class" (normalize_optional (execution_class t)))%py.

(** ** [BudgetAssertions] and [Plan] *)
Record BudgetAssertions := mkBudgetAssertions {
  ba_max_tool_calls : Z;
  ba_max_runtime_s : spec_float;
  ba_max_tokens : Z;
  ba_max_tasks : option Z;
}.

Definition positive_float (field_name : string) (value : spec_float) : res spec_float :=
  if fle value fzero then Raise (ValueError (field_name +:+ " must be > 0")) else Ok value.

Definition BudgetAssertions_validate (b : BudgetAssertions) : res BudgetAssertions :=
  run (VOk mkBudgetAssertions
    <*> field "max_tool_calls" (positive_int "max_tool_calls" (ba_max_tool_calls b))
    <*> field "max_runtime_s" (positive_float "max_runtime_s" (ba_max_runtime_s b))
    <*> field "max_tokens" (positive_int "max_tokens" (ba_max_tokens b))
    <*> field "max_tasks" (validate_optional (positive_int "max_tasks") (ba_max_tasks b)))%py.

Record Plan := mkPlan {
  plan_id : string;
  summary : string;
  plan_tasks : list ProposedTask;
  estimated_cost : option spec_float;
  required_approvals : list string;
  budget_assertions : BudgetAssertions;
  planner_version : option string;
  planning_notes : list string;
  plan_metadata : list (string * json);
}.

Definition non_negative_float (field_name : string) (value : spec_float) : res spec_float :=
  if flt value fzero then Raise (ValueError (field_name +:+ " must be >= 0")) else Ok value.

(** Its tasks and assertions are models, valid already. *)
Definition Plan_validate (fresh : string) (id : id_input) (p : Plan) : res Plan :=
  run (VOk mkPlan
    <*> field "plan_id" (validate_generated_id "plan_id" fresh id)
    <*> field "summary" (non_empty "summary" (summary p))
    <*> VOk (plan_tasks p)
    <*> field "estimated_cost" (validate_optional (non_negative_float "estimated_cost") (estimated_cost p))
    <*> field "required_approvals" (non_empty_entries "required_approvals" (required_approvals p))
    <*> VOk (budget_assertions p)
    <*> field "planner_version" (normalize_optional (planner_version p))
    <*> field "planning_notes" (non_empty_entries "planning_notes" (planning_notes p))
    <*> field "metadata" (json_dict "metadata" (plan_metadata p)))%py.

(** ** [LimitsSnapshot] and [PlanningInput] *)
Record LimitsSnapshot := mkLimitsSnapshot {
  ls_max_tasks : option Z;
  ls_max_tool_calls : option Z;
  ls_max_tokens : option Z;
  ls_max_runtime_s : option spec_float;
}.

Definition LimitsSnapshot_validate (l : LimitsSnapshot) : res LimitsSnapshot :=
  run (VOk mkLimitsSnapshot
    <*> field "max_tasks" (validate_optional (positive_int "max_tasks") (ls_max_tasks l))
    <*> field "max_tool_calls" (validate_optional (positive_int "max_tool_calls") (ls_max_tool_calls l))
    <*> field "max_tokens" (validate_optional (positive_int "max_tokens") (ls_max_tokens l))
    <*> field "max_runtime_s" (validate_optional (positive_float "max_runtime_s") (ls_max_runtime_s l)))%py.

Inductive PlanningTrigger := Tick | OnEvent.
#[export] Instance PlanningTrigger_eq_dec : EqDecision PlanningTrigger.
Proof. solve_decision. Defined.
Definition trigger_value (t : PlanningTrigger) : string := match t with Tick => "tick" | OnEvent => "event" end.

Record PlanningInput := mkPlanningInput {
  pi_trigger : PlanningTrigger;
  pi_events : list Event;
  pi_limits : LimitsSnapshot;
  pi_now_ms : Z;
}.

Definition is_nil {A} (l : list A) : bool := match l with [] => true | _ => false end.

Definition validate_trigger_requires_event (p : PlanningInput) : res unit :=
  raise_if (bool_decide (pi_trigger p = OnEvent) && is_nil (pi_events p))
    (ValueError "events must be non-empty when trigger='event'").

Definition PlanningInput_validate (p : PlanningInput) : res PlanningInput :=
  run (after validate_trigger_requires_event
    (VOk mkPlanningInput <*> VOk (pi_trigger p) <*> VOk (pi_events p) <*> VOk (pi_limits p)
     <*> field "now_ms" (non_negative_int "now_ms" (pi_now_ms p)))%py).

(** ** [ReflexDecision] *)
Module ReflexAction.
Inductive t := FAST_TASKS | NEEDS_PLANNING | DROP | FLAG.
#[global] Instance eq_dec : EqDecision t.
Proof. solve_decision. Defined.
Definition value (a : t) : string :=
  match a with FAST_TASKS => "fast_tasks" | NEEDS_PLANNING => "needs_planning" | DROP => "drop" | FLAG => "flag" end.
End ReflexAction.

Record ReflexDecision := mkReflexDecision {
  rd_action : ReflexAction.t;
  rd_reason : string;
  proposed_tasks : list ProposedTask;
  rd_flag : option (list (string * json));
}.

Definition validate_action_payloads (d : ReflexDecision) : res unit :=
  match rd_action d with
  | ReflexAction.FAST_TASKS => raise_if (is_nil (proposed_tasks d)) (ValueError "fast_tasks requires proposed_tasks")
  | a =>
      raise_if (negb (is_nil (proposed_tasks d))) (ValueError (ReflexAction.value a +:+ " must not include proposed_tasks"));;
      raise_if (bool_decide (a = ReflexAction.FLAG) && negb (is_set (rd_flag d))) (ValueError "flag action requires flag payload");;
      raise_if (bool_decide (a <> ReflexAction.FLAG) && is_set (rd_flag d))
        (ValueError (ReflexAction.value a +:+ " must not include flag payload"))
  end.

Definition ReflexDecision_validate (d : ReflexDecision) : res ReflexDecision :=
  run (after validate_action_payloads
    (VOk mkReflexDecision <*> VOk (rd_action d) <*> field "reason" (non_empty "reason" (rd_reason d))
     <*> VOk (proposed_tasks d) <*> field "flag" (validate_optional (json_dict "flag") (rd_flag d)))%py).

(** ** [model_dump(mode="json")] *)
Definition json_of {A} (f : A -> json) (o : option A) : json := match o with None => JNull | Some a => f a end.

Definition ProposedTask_dump (t : ProposedTask) : json := JObj [
  ("name", JStr (pt_name t)); ("tool_name", JStr (pt_tool_name t)); ("args", JObj (pt_args t));
  ("depends_on", JArr (map JStr (pt_depends_on t))); ("timeout_s", JInt (pt_timeout_s t));
  ("max_attempts", JInt (pt_max_attempts t)); ("priority", json_of JInt (pt_priority t));
  ("idempotency_seed", json_of JStr (idempotency_seed t));
  ("declared_permission_scope", json_of JStr (declared_permission_scope t));
  ("approval_required", json_of JBool (approval_required t));
  ("expected_side_effects", json_of JBool (expected_side_effects t));
  ("execution_class", json_of JStr (execution_class t))].

Definition BudgetAssertions_dump (b : BudgetAssertions) : json := JObj [
  ("max_tool_calls", JInt (ba_max_tool_calls b)); ("max_runtime_s", JFloat (ba_max_runtime_s b));
  ("max_tokens", JInt (ba_max_tokens b)); ("max_tasks", json_of JInt (ba_max_tasks b))].

Definition Plan_dump (p : Plan) : list (string * json) := [
  ("plan_id", JStr (plan_id p)); ("summary", JStr (summary p)); ("tasks", JArr (map ProposedTask_dump (plan_tasks p)));
  ("estimated_cost", json_of JFloat (estimated_cost p)); ("required_approvals", JArr (map JStr (required_approvals p)));
  ("budget_assertions", BudgetAssertions_dump (budget_assertions p)); ("planner_version", json_of JStr (planner_version p));
  ("planning_notes", JArr (map JStr (planning_notes p))); ("metadata", JObj (plan_metadata p))].

Definition ReflexDecision_dump (d : ReflexDecision) : list (string * json) := [
  ("action", JStr (ReflexAction.value (rd_action d))); ("reason", JStr (rd_reason d));
  ("proposed_tasks", JArr (map ProposedTask_dump (proposed_tasks d))); ("flag", json_of JObj (rd_flag d))].
