(* ===== verification/RunPackets.v ===== *)
(** * Run packets: [domain/models_run_packet.py]

    The audit record of a run: the event, the decision or plan, the tasks, what
    their tools answered and what policy decided, under caps on the size of
    every part and of the whole. Every [with_*] operation dumps the packet and
    validates the result again. The results: what a validated packet satisfies,
    that validation changes nothing of it, and what the [with_*] operations give
    on every branch. *)

From Stdlib Require Import ZArith SpecFloat Lia.
From S2P Require Import Prelude PyFloat PyText Uuid Models Serialization Events Plans.

Definition DEFAULT_MAX_REFLEX_DECISION_BYTES : Z := 32000.
Definition DEFAULT_MAX_PLAN_BYTES : Z := 128000.
Definition DEFAULT_MAX_TOOL_RESULT_BYTES : Z := 64000.
Definition DEFAULT_MAX_POLICY_DECISION_BYTES : Z := 32000.
Definition DEFAULT_MAX_PACKET_BYTES : Z := 512000.
Definition DEFAULT_MAX_TASKS : Z := 500.

Record RunPacket := mkRunPacket {
  pk_run_id : string;
  parent_run_id : option string;
  pk_event : Event;
  reflex_decision : list (string * json);
  plan : list (string * json);
  pk_tasks : list Task;
  tool_results : list (list (string * json));
  policy_decisions : list (list (string * json));
  pk_created_at_ms : Z;
  pk_started_at_ms : option Z;
  pk_completed_at_ms : option Z;
}.

(** ** [model_dump(mode="json")] *)
Definition ToolCall_dump (c : ToolCall) : json := JObj [
  ("tool_call_id", JStr (tool_call_id c)); ("tool_name", JStr (tool_name c)); ("args", JObj (args c));
  ("permission_scope", JStr (permission_scope c)); ("idempotency_key", JStr (idempotency_key c));
  ("status", JStr (ToolCallStatus.value (tc_status c))); ("created_at_ms", JInt (tc_created_at_ms c));
  ("started_at_ms", json_of JInt (tc_started_at_ms c)); ("completed_at_ms", json_of JInt (tc_completed_at_ms c));
  ("result_ref", json_of JStr (result_ref c))].
Definition Task_dump (t : Task) : json := JObj [
  ("task_id", JStr (task_id t)); ("run_id", JStr (run_id t)); ("name", JStr (name t));
  ("status", JStr (TaskStatus.value (status t))); ("tool_call", json_of ToolCall_dump (tool_call t));
  ("attempts", JInt (attempts t)); ("max_attempts", JInt (max_attempts t)); ("timeout_s", JInt (timeout_s t));
  ("depends_on", JArr (map JStr (depends_on t))); ("created_at_ms", JInt (created_at_ms t));
  ("started_at_ms", json_of JInt (started_at_ms t)); ("completed_at_ms", json_of JInt (completed_at_ms t));
  ("labels", JArr (map JStr (labels t))); ("metadata", JObj (metadata t))].
Definition Event_dump (e : Event) : json := JObj [
  ("event_id", JStr (event_id e)); ("type", JStr (ev_type e)); ("source", JStr (ev_source e));
  ("received_at_ms", JInt (received_at_ms e)); ("payload", JObj (ev_payload e)); ("dedupe_key", json_of JStr (dedupe_key e))].
Definition RunPacket_dump (p : RunPacket) : list (string * json) := [
  ("run_id", JStr (pk_run_id p)); ("parent_run_id", json_of JStr (parent_run_id p)); ("event", Event_dump (pk_event p));
  ("reflex_decision", JObj (reflex_decision p)); ("plan", JObj (plan p)); ("tasks", JArr (map Task_dump (pk_tasks p)));
  ("tool_results", JArr (map JObj (tool_results p))); ("policy_decisions", JArr (map JObj (policy_decisions p)));
  ("created_at_ms", JInt (pk_created_at_ms p)); ("started_at_ms", json_of JInt (pk_started_at_ms p));
  ("completed_at_ms", json_of JInt (pk_completed_at_ms p))].

Section packets.
Variable float_repr : spec_float -> string.

(** [_json_bytes] *)
Definition json_bytes (v : json) : res Z := s ← compact_json float_repr v; Ok (Z.of_nat (String.length s)).

(** The size of a part, or the error its validator turns a failure into. *)
Definition part_bytes (field_name : string) (v : json) : res Z :=
  match json_bytes v with
  | Raise (TypeError _) | Raise (ValueError _) => Raise (ValueError (field_name +:+ " must be valid JSON"))
  | r => r
  end.
(** [what] is the subject of the message. *)
Definition within_cap (field_name what : string) (cap : Z) (v : json) : res unit :=
  size_bytes ← part_bytes field_name v;
  raise_if (cap <? size_bytes)
    (ValueError (what +:+ " is too large (" +:+ str_of_Z size_bytes +:+ " bytes); max is " +:+ str_of_Z cap)).

(** The field validators *)
Definition validate_reflex_decision (value : list (string * json)) : res (list (string * json)) :=
  within_cap "reflex_decision" "reflex_decision" DEFAULT_MAX_REFLEX_DECISION_BYTES (JObj value);; Ok value.
Definition validate_plan (value : list (string * json)) : res (list (string * json)) :=
  within_cap "plan" "plan" DEFAULT_MAX_PLAN_BYTES (JObj value);; Ok value.
Fixpoint validate_entries (field_name : string) (cap : Z) (value : list (list (string * json))) : res unit :=
  match value with
  | [] => Ok tt
  | item :: rest => within_cap field_name (field_name +:+ " entry") cap (JObj item);; validate_entries field_name cap rest
  end.
Definition validate_tool_results (value : list (list (string * json))) : res (list (list (string * json))) :=
  validate_entries "tool_results" DEFAULT_MAX_TOOL_RESULT_BYTES value;; Ok value.
Definition validate_policy_decisions (value : list (list (string * json))) : res (list (list (string * json))) :=
  validate_entries "policy_decisions" DEFAULT_MAX_POLICY_DECISION_BYTES value;; Ok value.
Definition validate_tasks (value : list Task) : res (list Task) :=
  raise_if (DEFAULT_MAX_TASKS <? Z.of_nat (length value))
    (ValueError ("too many tasks (" +:+ str_of_Z (Z.of_nat (length value)) +:+ "); max is " +:+ str_of_Z DEFAULT_MAX_TASKS));;
  Ok value.

(** The model validators *)
Definition validate_task_run_ids (p : RunPacket) : res unit :=
  let mismatched := map task_id (filter (fun t => run_id t <> pk_run_id p) (pk_tasks p)) in
  raise_if (negb (is_nil mismatched))
    (ValueError ("tasks must all share run_id=" +:+ pk_run_id p +:+ "; mismatched task_ids=[" +:+ join ", " (map py_repr mismatched) +:+ "]")).
Definition validate_parent_linkage (p : RunPacket) : res unit :=
  raise_if (match parent_run_id p with Some r => (r =? pk_run_id p)%string | None => false end)
    (ValueError "parent_run_id must differ from run_id").
Definition packet_timestamps (p : RunPacket) : res unit :=
  validate_timestamps (pk_created_at_ms p) (pk_started_at_ms p) (pk_completed_at_ms p).
Definition validate_total_size (p : RunPacket) : res unit :=
  within_cap "run packet" "run packet" DEFAULT_MAX_PACKET_BYTES (JObj (RunPacket_dump p)).

(** The constructor, with the outcome of the fields [event] and [tasks]: a model
    instance is taken as it is, a dumped one is validated again. *)
Definition RunPacket_fields (event : vld Event) (tasks : vld (list Task)) (p : RunPacket) : vld RunPacket :=
  (VOk mkRunPacket
   <*> field "run_id" (validate_required_id "run_id" (IdStr (pk_run_id p)))
   <*> field "parent_run_id" (validate_optional (fun r => validate_required_id "parent_run_id" (IdStr r)) (parent_run_id p))
   <*> event
   <*> field "reflex_decision" (validate_reflex_decision (reflex_decision p))
   <*> field "plan" (validate_plan (plan p))
   <*> match tasks with VOk l => field "tasks" (validate_tasks l) | _ => tasks end
   <*> field "tool_results" (validate_tool_results (tool_results p))
   <*> field "policy_decisions" (validate_policy_decisions (policy_decisions p))
   <*> VOk (pk_created_at_ms p)
   <*> VOk (pk_started_at_ms p)
   <*> VOk (pk_completed_at_ms p))%py.
Definition RunPacket_build (event : vld Event) (tasks : vld (list Task)) (p : RunPacket) : res RunPacket :=
  run (after validate_total_size (after packet_timestamps (after validate_parent_linkage (after validate_task_run_ids
    (RunPacket_fields event tasks p))))).

(** [RunPacket(event=event, tasks=tasks, ...)] with model instances *)
Definition RunPacket_new (p : RunPacket) : res RunPacket := RunPacket_build (VOk (pk_event p)) (VOk (pk_tasks p)) p.

(** The entries of [model_dump()], validated again; the elements of the list have
    their index in the location. *)
Definition dumped_event (e : Event) : vld Event :=
  field "event" (Event_validate float_repr None "" (event_dict e)).
Fixpoint dumped_tasks (idx : nat) (l : list Task) : vld (list Task) :=
  match l with
  | [] => VOk []
  | t :: l => (VOk cons <*> field ("tasks." +:+ str_of_Z (Z.of_nat idx)) (Task_model_validate t) <*> dumped_tasks (S idx) l)%py
  end.

(** ** The [with_*] operations *)
Definition set_tasks (l : list Task) (p : RunPacket) : RunPacket :=
  mkRunPacket (pk_run_id p) (parent_run_id p) (pk_event p) (reflex_decision p) (plan p) l (tool_results p) (policy_decisions p)
    (pk_created_at_ms p) (pk_started_at_ms p) (pk_completed_at_ms p).
Definition set_tool_results (l : list (list (string * json))) (p : RunPacket) : RunPacket :=
  mkRunPacket (pk_run_id p) (parent_run_id p) (pk_event p) (reflex_decision p) (plan p) (pk_tasks p) l (policy_decisions p)
    (pk_created_at_ms p) (pk_started_at_ms p) (pk_completed_at_ms p).
Definition set_policy_decisions (l : list (list (string * json))) (p : RunPacket) : RunPacket :=
  mkRunPacket (pk_run_id p) (parent_run_id p) (pk_event p) (reflex_decision p) (plan p) (pk_tasks p) (tool_results p) l
    (pk_created_at_ms p) (pk_started_at_ms p) (pk_completed_at_ms p).

Definition with_task_added (t : Task) (p : RunPacket) : res RunPacket :=
  let updated := set_tasks (pk_tasks p ++ [t]) p in RunPacket_build (dumped_event (pk_event p)) (VOk (pk_tasks updated)) updated.

(** Every task with the id is replaced. *)
Definition upserted (t : Task) (l : list Task) : list Task :=
  if existsb (fun existing => (task_id existing =? task_id t)%string) l
  then map (fun existing => if (task_id existing =? task_id t)%string then t else existing) l
  else (l ++ [t])%list.
Definition with_task_upserted (t : Task) (p : RunPacket) : res RunPacket :=
  let updated := set_tasks (upserted t (pk_tasks p)) p in
  RunPacket_build (dumped_event (pk_event p)) (VOk (pk_tasks updated)) updated.

Definition with_tool_result_added (r : list (string * json)) (p : RunPacket) : res RunPacket :=
  RunPacket_build (dumped_event (pk_event p)) (dumped_tasks 0 (pk_tasks p)) (set_tool_results (tool_results p ++ [r]) p).
Definition with_policy_decision_added (r : list (string * json)) (p : RunPacket) : res RunPacket :=
  RunPacket_build (dumped_event (pk_event p)) (dumped_tasks 0 (pk_tasks p)) (set_policy_decisions (policy_decisions p ++ [r]) p).
End packets.

(** ** What a packet satisfies *)
Section facts.
Variable float_repr : spec_float -> string.

Definition sized (cap : Z) (v : json) : Prop := exists n, json_bytes float_repr v = Ok n /\ n <= cap.

Record packet_ok (p : RunPacket) : Prop := {
  po_run : is_uuid4_str (pk_run_id p) = true;
  po_parent : forall r, parent_run_id p = Some r -> is_uuid4_str r = true /\ r <> pk_run_id p;
  po_reflex : sized DEFAULT_MAX_REFLEX_DECISION_BYTES (JObj (reflex_decision p));
  po_plan : sized DEFAULT_MAX_PLAN_BYTES (JObj (plan p));
  po_count : Z.of_nat (length (pk_tasks p)) <= DEFAULT_MAX_TASKS;
  po_tasks : Forall (fun t => run_id t = pk_run_id p) (pk_tasks p);
  po_results : Forall (fun r => sized DEFAULT_MAX_TOOL_RESULT_BYTES (JObj r)) (tool_results p);
  po_decisions : Forall (fun r => sized DEFAULT_MAX_POLICY_DECISION_BYTES (JObj r)) (policy_decisions p);
  po_times : timestamps_ok (pk_created_at_ms p) (pk_started_at_ms p) (pk_completed_at_ms p);
  po_total : sized DEFAULT_MAX_PACKET_BYTES (JObj (RunPacket_dump p));
}.

Lemma within_cap_Ok f w cap v : within_cap float_repr f w cap v = Ok tt <-> sized cap v.
Proof.
  unfold within_cap, part_bytes, sized. destruct (json_bytes float_repr v) as [n|e].
  - cbn. rewrite raise_if_Ok, Z.ltb_ge. split; [eauto|by intros (? & [= <-] & ?)].
  - split; [|by intros (? & ? & ?)]. destruct e; by cbn.
Qed.
Lemma validate_entries_Ok f cap l : validate_entries float_repr f cap l = Ok tt <-> Forall (fun r => sized cap (JObj r)) l.
Proof.
  induction l as [|r l IH]; cbn [validate_entries]; [by split; [constructor|]|]. rewrite Forall_cons, <- IH, <- (within_cap_Ok f (f +:+ " entry")).
  destruct (within_cap _ _ _ _ _) as [[]|]; cbn; naive_solver.
Qed.
Lemma validate_tasks_Ok l l' : validate_tasks l = Ok l' <-> l' = l /\ Z.of_nat (length l) <= DEFAULT_MAX_TASKS.
Proof.
  unfold validate_tasks. destruct (Z.ltb_spec DEFAULT_MAX_TASKS (Z.of_nat (length l))); cbn; split; [done|intros [_ ?]; lia|by intros [= <-]|by intros [-> _]].
Qed.
Lemma seq_unit_Ok {A} (r : res unit) (a b : A) : (r;; Ok a) = Ok b <-> r = Ok tt /\ b = a.
Proof. destruct r as [[]|]; cbn; split; [by intros [= <-]|by intros [_ ->]|done|by intros []]. Qed.

Lemma task_run_ids_Ok p : validate_task_run_ids p = Ok tt <-> Forall (fun t => run_id t = pk_run_id p) (pk_tasks p).
Proof.
  unfold validate_task_run_ids. rewrite raise_if_Ok, negb_false_iff. induction (pk_tasks p) as [|t l IH]; [by split; [constructor|]|].
  rewrite Forall_cons, <- IH, filter_cons. case_decide as Hd; cbn; [split; [done|by intros [? _]]|]. split; [|by intros [_ ?]].
  split; [|done]. by destruct (decide (run_id t = pk_run_id p)).
Qed.
Lemma parent_linkage_Ok p : validate_parent_linkage p = Ok tt <-> forall r, parent_run_id p = Some r -> r <> pk_run_id p.
Proof.
  unfold validate_parent_linkage. rewrite raise_if_Ok. destruct (parent_run_id p) as [r|]; [|by split].
  rewrite String.eqb_neq. naive_solver.
Qed.

(** What a successful construction gives. *)
Lemma build_Ok event tasks p p' : RunPacket_build float_repr event tasks p = Ok p' ->
  packet_ok p' /\ event = VOk (pk_event p') /\ tasks = VOk (pk_tasks p') /\
  p' = mkRunPacket (pk_run_id p') (parent_run_id p') (pk_event p') (reflex_decision p) (plan p) (pk_tasks p') (tool_results p)
         (policy_decisions p) (pk_created_at_ms p) (pk_started_at_ms p) (pk_completed_at_ms p) /\
  validate_required_id "run_id" (IdStr (pk_run_id p)) = Ok (pk_run_id p') /\
  validate_optional (fun r => validate_required_id "parent_run_id" (IdStr r)) (parent_run_id p) = Ok (parent_run_id p').
Proof.
  unfold RunPacket_build, RunPacket_fields, validate_reflex_decision, validate_plan, validate_tool_results, validate_policy_decisions.
  intros Hb. vld_inv. destruct tasks as [l| |]; [|done..]. vld_inv.
  repeat match goal with
  | H : (_;; Ok _) = Ok _ |- _ => apply seq_unit_Ok in H as [H ->]
  | H : within_cap _ _ _ _ _ = Ok tt |- _ => apply within_cap_Ok in H
  | H : validate_entries _ _ _ _ = Ok tt |- _ => apply validate_entries_Ok in H
  | H : validate_tasks _ = Ok _ |- _ => apply validate_tasks_Ok in H as [-> ?]
  | H : validate_task_run_ids _ = Ok tt |- _ => apply task_run_ids_Ok in H
  | H : validate_parent_linkage _ = Ok tt |- _ => rewrite parent_linkage_Ok in H
  | H : packet_timestamps _ = Ok tt |- _ => apply validate_timestamps_Ok in H
  | H : validate_total_size _ _ = Ok tt |- _ => apply within_cap_Ok in H
  end. cbn [pk_run_id parent_run_id pk_event reflex_decision plan pk_tasks tool_results policy_decisions pk_created_at_ms pk_started_at_ms
    pk_completed_at_ms] in *.
  split; [|done]. split; cbn; eauto using uuid_trim. intros r ->. split; [|eauto].
  match goal with H : validate_optional _ _ = Ok _ |- _ => rename H into Hp end.
  destruct (parent_run_id p) as [r'|]; [|done]. cbn in Hp. apply res_bind_Ok in Hp as (x & Hx & [= ->]). by apply uuid_trim in Hx.
Qed.

Lemma optional_id_fix f p : (forall r, p = Some r -> is_uuid4_str r = true) ->
  validate_optional (fun r => validate_required_id f (IdStr r)) p = Ok p.
Proof. destruct p as [r|]; [|done]. intros H. cbn [validate_optional]. by rewrite (proj1 (is_uuid4_str_validate _ _)) by auto. Qed.

(** A packet that satisfies this is built as it is. *)
Lemma build_fix p : packet_ok p -> RunPacket_build float_repr (VOk (pk_event p)) (VOk (pk_tasks p)) p = Ok p.
Proof.
  intros []. apply run_Ok. repeat (apply after_VOk; split); [|by apply task_run_ids_Ok|apply parent_linkage_Ok; naive_solver
    |by apply validate_timestamps_Ok|by apply within_cap_Ok].
  unfold RunPacket_fields. rewrite (proj1 (is_uuid4_str_validate _ _)) by done.
  rewrite optional_id_fix by naive_solver.
  unfold validate_reflex_decision, validate_plan, validate_tool_results, validate_policy_decisions.
  rewrite !(proj2 (within_cap_Ok _ _ _ _)), !(proj2 (validate_entries_Ok _ _ _)) by done.
  rewrite (proj2 (validate_tasks_Ok _ _)) by done. by destruct p.
Qed.

(** With identifiers that are normal already, a packet is built exactly if it
    is within the caps. *)
Lemma rebuild_exact p p' : is_uuid4_str (pk_run_id p) = true -> (forall r, parent_run_id p = Some r -> is_uuid4_str r = true) ->
  RunPacket_build float_repr (VOk (pk_event p)) (VOk (pk_tasks p)) p = Ok p' <-> p' = p /\ packet_ok p'.
Proof.
  intros Hr Hp. split; [|intros [-> ?]; by apply build_fix]. intros (Hok & Ee & Et & E & Erun & Epar)%build_Ok. split; [|done].
  injection Ee as Ee. injection Et as Et. rewrite (proj1 (is_uuid4_str_validate _ _)) in Erun by done. injection Erun as Erun.
  rewrite optional_id_fix in Epar by done. injection Epar as Epar. rewrite E, <- Ee, <- Et, <- Erun, <- Epar. by destruct p.
Qed.

Lemma dumped_event_fix e : valid_event float_repr DEFAULT_MAX_PAYLOAD_BYTES e -> dumped_event float_repr e = VOk e.
Proof. intros He. apply field_VOk. by apply Event_validate_fix. Qed.
Lemma dumped_tasks_fix idx l : Forall valid_task l -> dumped_tasks idx l = VOk l.
Proof.
  revert idx. induction l as [|t l IH]; intros idx; cbn [dumped_tasks]; [done|]. intros [Ht Hl]%Forall_cons.
  by rewrite Task_model_validate_fix, IH.
Qed.

(** What upserting means for a list of tasks: the tasks with the identifier give
    way, in place, and when there is none, the task comes last. *)
Record upserts (t : Task) (l l' : list Task) : Prop := {
  up_new : task_id t ∉ map task_id l -> l' = (l ++ [t])%list;
  up_known : task_id t ∈ map task_id l -> length l' = length l /\
    forall i x, l !! i = Some x -> (task_id x = task_id t -> l' !! i = Some t) /\ (task_id x <> task_id t -> l' !! i = Some x);
}.
Lemma existsb_task t l : existsb (fun x => (task_id x =? task_id t)%string) l = true <-> task_id t ∈ map task_id l.
Proof.
  rewrite existsb_exists, list_elem_of_fmap. split; intros (x & H1 & H2); exists x.
  - apply String.eqb_eq in H2. by split; [|apply list_elem_of_In].
  - subst. rewrite String.eqb_eq. by split; [apply list_elem_of_In|].
Qed.
Lemma upserted_upserts t l : upserts t l (upserted t l).
Proof.
  unfold upserted. destruct (existsb _ l) eqn:E; split; intros H.
  - by apply existsb_task in E.
  - split; [apply length_map|]. intros i x Hx. rewrite list_lookup_fmap, Hx. cbn. split; intros Hi; [by rewrite (proj2 (String.eqb_eq _ _) Hi)|].
    by rewrite (proj2 (String.eqb_neq _ _) Hi).
  - done.
  - apply existsb_task in H. congruence.
Qed.
Lemma upserts_unique t l l1 l2 : upserts t l l1 -> upserts t l l2 -> l1 = l2.
Proof.
  intros [N1 K1] [N2 K2]. destruct (decide (task_id t ∈ map task_id l)) as [H|H]; [|by rewrite N1, N2].
  destruct (K1 H) as [L1 E1], (K2 H) as [L2 E2]. apply list_eq. intros i. destruct (l !! i) as [x|] eqn:Ex.
  - destruct (E1 _ _ Ex) as [A1 B1], (E2 _ _ Ex) as [A2 B2]. destruct (decide (task_id x = task_id t)); [by rewrite A1, A2|by rewrite B1, B2].
  - apply lookup_ge_None in Ex. by rewrite !lookup_ge_None_2 by lia.
Qed.

(** C27: what a run packet is, and what adding to it does. Whatever is built is
    within every cap, belongs to one run and is in order, and is built again
    unchanged. Take a packet within the caps whose event is valid (its payload
    within 64,000 bytes) and whose tasks are. Adding a tool result, a policy
    decision or a task gives exactly the packet with that entry at the end of its
    list; upserting a task gives exactly the packet with the task in the place of
    each task with its id, or at the end when there is none; and all four raise
    exactly when that packet is not within the caps. *)
Theorem run_packet_capped p :
  (forall p', RunPacket_new float_repr p = Ok p' -> packet_ok p' /\ RunPacket_new float_repr p' = Ok p') /\
  (packet_ok p -> valid_event float_repr DEFAULT_MAX_PAYLOAD_BYTES (pk_event p) -> Forall valid_task (pk_tasks p) ->
   let updated tasks results decisions :=
     mkRunPacket (pk_run_id p) (parent_run_id p) (pk_event p) (reflex_decision p) (plan p) tasks results decisions
       (pk_created_at_ms p) (pk_started_at_ms p) (pk_completed_at_ms p) in
   (forall r p', with_tool_result_added float_repr r p = Ok p' <->
      p' = updated (pk_tasks p) (tool_results p ++ [r])%list (policy_decisions p) /\ packet_ok p') /\
   (forall r p', with_policy_decision_added float_repr r p = Ok p' <->
      p' = updated (pk_tasks p) (tool_results p) (policy_decisions p ++ [r])%list /\ packet_ok p') /\
   (forall t p', with_task_added float_repr t p = Ok p' <->
      p' = updated (pk_tasks p ++ [t])%list (tool_results p) (policy_decisions p) /\ packet_ok p') /\
   (forall t p', with_task_upserted float_repr t p = Ok p' <->
      (exists l, upserts t (pk_tasks p) l /\ p' = updated l (tool_results p) (policy_decisions p)) /\ packet_ok p')).
Proof.
  split; [intros p' Hp; apply build_Ok in Hp as (Hok & _); split; [done|]; by apply build_fix|].
  intros [] He Ht. unfold with_tool_result_added, with_policy_decision_added, with_task_added, with_task_upserted.
  rewrite dumped_event_fix, dumped_tasks_fix by done. split_and!; intros r p'.
  - apply (rebuild_exact (set_tool_results _ p)); naive_solver.
  - apply (rebuild_exact (set_policy_decisions _ p)); naive_solver.
  - apply (rebuild_exact (set_tasks _ p)); naive_solver.
  - etrans; [apply (rebuild_exact (set_tasks _ p)); naive_solver|]. split; intros [E Hok]; (split; [|exact Hok]).
    + exists (upserted r (pk_tasks p)). split; [apply upserted_upserts|exact E].
    + destruct E as (l & Hl & ->). by rewrite (upserts_unique _ _ _ _ Hl (upserted_upserts r (pk_tasks p))).
Qed.
End facts.

(** ** A concrete packet *)
Definition bare_packet (tasks : list Task) : RunPacket :=
  mkRunPacket "00000000-0000-4000-8000-000000000001" None
    (mkEvent "00000000-0000-4000-8000-000000000002" "page" "web" 7 [("note", JStr "n")] None) [("action", JStr "fast_tasks")] [] tasks [] [] 1000 None None.
Definition bare_task : Task :=
  mkTask "00000000-0000-4000-8000-000000000003" "00000000-0000-4000-8000-000000000001" "t" TaskStatus.PENDING None 0 1 60 [] 1000 None None [] [].

Lemma bare_packet_ok tasks : tasks = [] \/ tasks = [bare_task] -> packet_ok (fun _ => "") (bare_packet tasks).
Proof.
  assert (forall cap v n, json_bytes (fun _ => "") v = Ok n -> n <=? cap = true -> sized (fun _ => "") cap v) as Hs.
  { intros cap v n E H. exists n. split; [done|]. by apply Z.leb_le. }
  intros [-> | ->]; (split; [reflexivity|discriminate| | |discriminate|by repeat constructor|constructor|constructor|done|]);
    (eapply Hs; vm_compute; reflexivity).
Qed.
Lemma bare_event_ok tasks : valid_event (fun _ => "") DEFAULT_MAX_PAYLOAD_BYTES (pk_event (bare_packet tasks)).
Proof.
  split; try (by vm_compute); try (by split; vm_compute); try done.
  eexists. split; [vm_compute; reflexivity|vm_compute; discriminate].
Qed.
Lemma run_packet_capped_witness : with_task_upserted (fun _ => "") bare_task (bare_packet []) = Ok (bare_packet [bare_task]).
Proof.
  destruct (run_packet_capped (fun _ => "") (bare_packet [])) as [_ H].
  destruct (H (bare_packet_ok [] (or_introl eq_refl)) (bare_event_ok []) (Forall_nil_2 _)) as (_ & _ & _ & Hu).
  apply (Hu bare_task (bare_packet [bare_task])). split; [|exact (bare_packet_ok [bare_task] (or_intror eq_refl))].
  exists [bare_task]. split; [|reflexivity]. split; [reflexivity|]. intros Hin. exfalso. inversion Hin.
Defined.
