(* ===== verification/ReflexRules.v ===== *)
(** * Reflex rules: [orchestrator/reflex_rules/]

    Rule templates with [${...}] placeholders, the rules with their matching and
    validation, and the rule-based router. The results: scanning and rendering a
    template is substitution in its decomposition into text and placeholders,
    and the router answers for the first matching rule, with a template
    resolution error as its only failure. *)

From Stdlib Require Import ZArith SpecFloat Lia Ascii.
From S2P Require Import Prelude PyFloat PyText Uuid Models Serialization Events Plans.

(** ** Placeholders: [template.py] *)

(** [template.find(needle, cursor)]; [slice a b s] is [s[a:b]]. *)
Definition find_from (needle s : string) (cursor : nat) : option nat :=
  (fun i => (cursor + i)%nat) <$> find needle (sdrop cursor s).
Definition slice (first last : nat) (s : string) : string := stake (last - first) (sdrop first s).

(** [_iter_placeholder_spans]; every round moves the cursor, so that the length
    of the template is enough fuel. *)
Definition unclosed : exn := TemplateValidationError "unclosed placeholder (missing '}')".
Fixpoint placeholder_spans (fuel : nat) (template : string) (cursor : nat) : res (list (nat * nat * string)) :=
  match find_from "${" template cursor with
  | None => Ok []
  | Some start =>
      match find_from "}" template (start + 2) with
      | None => Raise unclosed
      | Some stop =>
          match fuel with
          | O => Ok []
          | S fuel' =>
              rest ← placeholder_spans fuel' template (stop + 1);
              Ok ((start, (stop + 1)%nat, slice (start + 2) stop template) :: rest)
          end
      end
  end.
Definition iter_placeholder_spans (template : string) : res (list (nat * nat * string)) :=
  placeholder_spans (String.length template) template 0.

Definition is_letter (c : ascii) : bool :=
  let n := N_of_ascii c in ((65 <=? n) && (n <=? 90) || (97 <=? n) && (n <=? 122) || (n =? 95))%N.
Definition is_word (c : ascii) : bool := let n := N_of_ascii c in is_letter c || ((48 <=? n) && (n <=? 57))%N.
Definition is_identifier (s : string) : bool :=
  match s with EmptyString => false | String c s' => is_letter c && all_chars is_word s' end.

(** [_DOT_PATH_RE] and [_PLACEHOLDER_EXPR_RE], with [fullmatch] *)
Definition dot_path (s : string) : bool := forallb is_identifier (split_dots "" s).
Definition placeholder_expr (s : string) : bool := dot_path s && (2 <=? length (split_dots "" s))%nat.

Definition ALLOWED_EVENT_FIELDS : list string := ["event_id"; "type"; "source"; "received_at_ms"; "payload"; "dedupe_key"].

(** [_validate_placeholder_expression] *)
Definition validate_placeholder_expression (expression : string) : res unit :=
  raise_if (is_empty expression) (TemplateValidationError "empty placeholder expression");;
  raise_if (negb (placeholder_expr expression))
    (TemplateValidationError "invalid placeholder expression; only strict dot paths like 'payload.url' are allowed");;
  match split_dots "" expression with
  | root :: rest =>
      raise_if (negb (bool_decide (root ∈ ["payload"; "event"]))) (TemplateValidationError ("unknown placeholder root: " +:+ py_repr root));;
      if (root =? "event")%string then
        match rest with
        | field :: deeper =>
            raise_if (negb (bool_decide (field ∈ ALLOWED_EVENT_FIELDS)))
              (TemplateValidationError ("unknown event field in placeholder: " +:+ py_repr field));;
            raise_if (negb (field =? "payload")%string && negb (is_nil deeper))
              (TemplateValidationError ("placeholder path cannot descend into event." +:+ field +:+ " (not a mapping)"))
        | [] => Raise (OtherError "IndexError" "list index out of range")
        end
      else Ok tt
  | [] => Raise (OtherError "IndexError" "list index out of range")
  end.

(** [_validate_placeholders_in_obj] *)
Fixpoint validate_placeholders_in_obj (value : json) : res unit :=
  match value with
  | JObj l => sequence (map (fun p => validate_placeholders_in_obj p.2) l);; Ok tt
  | JArr l => sequence (map validate_placeholders_in_obj l);; Ok tt
  | JStr s =>
      spans ← iter_placeholder_spans s;
      sequence (map (fun span => validate_placeholder_expression span.2) spans);; Ok tt
  | _ => Ok tt
  end.

(** [_split_payload_key_path] *)
Definition split_payload_key_path (key_path : string) : res (list string) :=
  let trimmed := strip key_path in
  raise_if (is_empty trimmed) (ValueError "payload key path must be non-empty");;
  raise_if (negb (dot_path trimmed)) (ValueError "payload key path must be a strict dot path");;
  Ok (split_dots "" trimmed).

(** [_lookup_mapping_path] *)
Fixpoint lookup_mapping_path (context : string) (current : json) (segments : list string) : res json :=
  match segments with
  | [] => Ok current
  | segment :: rest =>
      match current with
      | JObj l =>
          match aget segment l with
          | Some v => lookup_mapping_path context v rest
          | None => Raise (TemplateResolutionError (context +:+ " missing key " +:+ py_repr segment))
          end
      | _ => Raise (TemplateResolutionError (context +:+ " is not a mapping at " +:+ py_repr segment))
      end
  end.

Section rendering.
Variable float_repr : spec_float -> string.
(** [getattr(event, name)] for a name that is not a field of the event: methods
    and class attributes; validated templates never ask for one. *)
Variable other_attribute : Event -> string -> res json.

Definition event_attribute (e : Event) (field : string) : res json :=
  if (field =? "event_id")%string then Ok (JStr (event_id e))
  else if (field =? "type")%string then Ok (JStr (ev_type e))
  else if (field =? "source")%string then Ok (JStr (ev_source e))
  else if (field =? "received_at_ms")%string then Ok (JInt (received_at_ms e))
  else if (field =? "dedupe_key")%string then Ok (json_of JStr (dedupe_key e))
  else other_attribute e field.

(** [_resolve_placeholder] *)
Definition resolve_placeholder (expression : string) (e : Event) : res json :=
  match split_dots "" expression with
  | root :: rest =>
      if (root =? "payload")%string then lookup_mapping_path "payload" (JObj (ev_payload e)) rest
      else if (root =? "event")%string then
        match rest with
        | field :: deeper =>
            if (field =? "payload")%string then lookup_mapping_path "event.payload" (JObj (ev_payload e)) deeper
            else event_attribute e field
        | [] => Raise (OtherError "IndexError" "list index out of range")
        end
      else Raise (TemplateResolutionError ("unknown placeholder root: " +:+ py_repr root))
  | [] => Raise (OtherError "IndexError" "list index out of range")
  end.

(** [_stringify_placeholder_value] *)
Definition stringify_placeholder_value (value : json) : res string :=
  match value with JStr s => Ok s | _ => compact_json float_repr value end.

Fixpoint render_parts (template : string) (cursor : nat) (spans : list (nat * nat * string)) (e : Event) : res string :=
  match spans with
  | [] => Ok (sdrop cursor template)
  | (start, stop, expression) :: rest =>
      value ← resolve_placeholder expression e;
      text ← stringify_placeholder_value value;
      tail ← render_parts template stop rest e;
      Ok (slice cursor start template +:+ text +:+ tail)
  end.

Definition render_string (template : string) (e : Event) : res json :=
  spans ← iter_placeholder_spans template;
  match spans with
  | [] => Ok (JStr template)
  | [(O, stop, expression)] =>
      if (stop =? String.length template)%nat then resolve_placeholder expression e
      else text ← render_parts template 0 spans e; Ok (JStr text)
  | _ => text ← render_parts template 0 spans e; Ok (JStr text)
  end.

(** [render_template_value] *)
Fixpoint render_template_value (template : json) (e : Event) : res json :=
  match template with
  | JObj l => fields ← sequence (map (fun p => v ← render_template_value p.2 e; Ok (p.1, v)) l); Ok (JObj fields)
  | JArr l => items ← sequence (map (fun v => render_template_value v e) l); Ok (JArr items)
  | JStr s => render_string s e
  | v => Ok v
  end.
End rendering.

(** ** Rules: [models.py] *)

(** [==] on JSON values: numbers of all types and booleans are compared by
    value, dictionaries without their order. *)
Definition as_int (v : json) : option Z :=
  match v with JBool b => Some (if b then 1 else 0) | JInt n => Some n | _ => None end.
Definition float_eq_int (f : spec_float) (n : Z) : bool :=
  match f with
  | S754_zero _ => n =? 0
  | S754_finite s m e =>
      let v := if s then Zneg m else Zpos m in
      if 0 <=? e then v * 2 ^ e =? n else v =? n * 2 ^ (- e)
  | _ => false
  end.
Fixpoint py_eq (v w : json) : bool :=
  match v, w with
  | JNull, JNull => true
  | JStr a, JStr b => (a =? b)%string
  | JArr l, JArr l' =>
      (fix eqs (l l' : list json) : bool :=
         match l, l' with
         | [], [] => true
         | x :: l, y :: l' => py_eq x y && eqs l l'
         | _, _ => false
         end) l l'
  | JObj l, JObj l' =>
      (length l =? length l')%nat &&
      forallb (fun p => match aget p.1 l' with Some y => py_eq p.2 y | None => false end) l
  | JFloat a, JFloat b => feq a b
  | JFloat a, w => match as_int w with Some n => float_eq_int a n | None => false end
  | v, JFloat b => match as_int v with Some n => float_eq_int b n | None => false end
  | v, w => match as_int v, as_int w with Some a, Some b => a =? b | _, _ => false end
  end.

Example py_eq_values :
  py_eq (JObj [("a", JInt 1); ("b", JArr [JBool true])]) (JObj [("b", JArr [JFloat (of_Z 1)]); ("a", JBool true)]) = true /\
  py_eq (JArr [JInt 1]) (JArr [JInt 1; JInt 2]) = false /\ py_eq (JStr "1") (JInt 1) = false.
Proof. by vm_compute. Qed.

Record ReflexRuleMatch := mkMatch {
  rm_event_type : string;
  rm_source : option string;
  rm_payload_equals : option (list (string * json));
  rm_payload_has_keys : option (list string);
}.

Definition validate_payload_has_keys (value : list string) : res (list string) :=
  sequence (map (fun item => parts ← split_payload_key_path item; Ok (join "." parts)) value).

Fixpoint normalize_equals (value normalized : list (string * json)) : res (list (string * json)) :=
  match value with
  | [] => Ok normalized
  | (key, expected) :: rest =>
      parts ← split_payload_key_path key;
      normalize_equals rest (aset (join "." parts) expected normalized)
  end.
Definition validate_payload_equals (value : list (string * json)) : res (list (string * json)) :=
  normalized ← normalize_equals value [];
  json_dict "payload_equals" normalized.

Definition ReflexRuleMatch_validate (m : ReflexRuleMatch) : res ReflexRuleMatch :=
  run (VOk mkMatch
    <*> field "event_type" (non_empty "event_type" (rm_event_type m))
    <*> field "source" (normalize_optional (rm_source m))
    <*> field "payload_equals" (validate_optional validate_payload_equals (rm_payload_equals m))
    <*> field "payload_has_keys" (validate_optional validate_payload_has_keys (rm_payload_has_keys m)))%py.

Definition payload_value (e : Event) (key_path : string) : res json :=
  lookup_mapping_path "payload" (JObj (ev_payload e)) (split_dots "" key_path).

(** [matches] *)
Definition matches (m : ReflexRuleMatch) (e : Event) : bool :=
  (ev_type e =? rm_event_type m)%string &&
  match rm_source m with None => true | Some s => (ev_source e =? s)%string end &&
  forallb (fun key_path => is_ok (payload_value e key_path)) (default [] (rm_payload_has_keys m)) &&
  forallb (fun p => match payload_value e p.1 with Ok actual => py_eq actual p.2 | Raise _ => false end)
    (default [] (rm_payload_equals m)).

Inductive Severity := Low | Medium | High.
Definition severity_value (s : Severity) : string := match s with Low => "low" | Medium => "medium" | High => "high" end.

Inductive ReflexRuleAction :=
| FastToolAction (tool_name : string) (args_template : list (string * json))
| NeedsPlanningAction
| DropAction
| FlagAction (severity : Severity) (note_template : option string) (tags : list string).
Definition action_kind (a : ReflexRuleAction) : string :=
  match a with
  | FastToolAction _ _ => "fast_tool" | NeedsPlanningAction => "needs_planning" | DropAction => "drop" | FlagAction _ _ _ => "flag"
  end.

Definition validate_args_template (value : list (string * json)) : res (list (string * json)) :=
  value ← json_dict "args_template" value;
  validate_placeholders_in_obj (JObj value);;
  Ok value.
Definition validate_note_template (value : option string) : res (option string) :=
  match value with
  | None => Ok None
  | Some v =>
      match strip_or_none v with
      | None => Ok None
      | Some trimmed => validate_placeholders_in_obj (JObj [("note_template", JStr trimmed)]);; Ok (Some trimmed)
      end
  end.
Definition action_validate (a : ReflexRuleAction) : res ReflexRuleAction :=
  match a with
  | FastToolAction tool_name args_template =>
      run (VOk FastToolAction
        <*> field "tool_name" (non_empty "tool_name" tool_name)
        <*> field "args_template" (validate_args_template args_template))%py
  | FlagAction severity note_template tags =>
      run (VOk FlagAction <*> VOk severity
        <*> field "note_template" (validate_note_template note_template)
        <*> field "tags" (non_empty_entries "tags" tags))%py
  | a => Ok a
  end.

Record ReflexRule := mkRule { rule_id : string; rule_match : ReflexRuleMatch; rule_action : ReflexRuleAction }.

(** [_validate_action_placeholders] *)
Definition validate_action_placeholders (r : ReflexRule) : res unit :=
  match rule_action r with
  | FastToolAction _ args_template =>
      match validate_placeholders_in_obj (JObj args_template) with
      | Raise (TemplateValidationError m) => Raise (ValueError m)
      | x => x
      end
  | _ => Ok tt
  end.
Definition ReflexRule_validate (r : ReflexRule) : res ReflexRule :=
  run (after validate_action_placeholders (VOk mkRule
    <*> field "rule_id" (non_empty "rule_id" (rule_id r))
    <*> field "match" (ReflexRuleMatch_validate (rule_match r))
    <*> field ("action." +:+ action_kind (rule_action r)) (action_validate (rule_action r)))%py).

(** ** The router: [router.py] *)
Section router.
Variable float_repr : spec_float -> string.
Variable other_attribute : Event -> string -> res json.
#[local] Notation render := (render_template_value float_repr other_attribute).

(** [_validate_rule_ids_unique] *)
Fixpoint check_rule_ids (seen : list string) (rules : list ReflexRule) : res unit :=
  match rules with
  | [] => Ok tt
  | r :: rest =>
      if bool_decide (rule_id r ∈ seen) then Raise (ValueError ("duplicate reflex rule_id: " +:+ py_repr (rule_id r)))
      else check_rule_ids (rule_id r :: seen) rest
  end.
Definition validate_rule_ids_unique (rules : list ReflexRule) : res (list ReflexRule) := check_rule_ids [] rules;; Ok rules.

(** [from_raw_rules] *)
Definition from_raw_rules (rules : list ReflexRule) : res (list ReflexRule) :=
  parsed ← sequence (map ReflexRule_validate rules); validate_rule_ids_unique parsed.

(** [except ReflexTemplateError as exc: raise TemplateResolutionError(...)] *)
Definition rule_error {A} (rule_id : string) (m : res A) : res A :=
  match m with
  | Raise (TemplateValidationError x) | Raise (TemplateResolutionError x) =>
      Raise (TemplateResolutionError ("rule " +:+ rule_id +:+ ": " +:+ x))
  | _ => m
  end.

(** The note of a flag. *)
Definition flag_note (r : ReflexRule) (note_template : option string) (e : Event) : res (list (string * json)) :=
  match note_template with
  | None => Ok []
  | Some template =>
      rendered_note ← rule_error (rule_id r) (render (JStr template) e);
      match rendered_note with
      | JStr s => Ok [("note", JStr s)]
      | _ => Raise (TemplateResolutionError ("rule " +:+ rule_id r +:+ ": note_template must render to a string"))
      end
  end.

Definition proposed_task (r : ReflexRule) (tool_name : string) (args : list (string * json)) : res ProposedTask :=
  ProposedTask_validate (mkProposedTask (rule_id r +:+ ":" +:+ tool_name) tool_name args [] 60 false 1 None None None None None None).

(** What the router answers for a rule that matches. *)
Definition decide_rule (r : ReflexRule) (e : Event) : res ReflexDecision :=
  match rule_action r with
  | NeedsPlanningAction => ReflexDecision_validate (mkReflexDecision ReflexAction.NEEDS_PLANNING (rule_id r) [] None)
  | DropAction => ReflexDecision_validate (mkReflexDecision ReflexAction.DROP (rule_id r) [] None)
  | FlagAction severity note_template tags =>
      note ← flag_note r note_template e;
      ReflexDecision_validate (mkReflexDecision ReflexAction.FLAG (rule_id r) []
        (Some ([("severity", JStr (severity_value severity)); ("tags", JArr (map JStr tags))] ++ note)%list))
  | FastToolAction tool_name args_template =>
      rendered ← rule_error (rule_id r) (render (JObj args_template) e);
      match rendered with
      | JObj args =>
          task ← proposed_task r tool_name args;
          ReflexDecision_validate (mkReflexDecision ReflexAction.FAST_TASKS (rule_id r) [task] None)
      | _ => Raise (TemplateResolutionError ("rule " +:+ rule_id r +:+ ": args_template must render to a JSON object"))
      end
  end.

Fixpoint route_rules (rules : list ReflexRule) (e : Event) : res (option ReflexDecision) :=
  match rules with
  | [] => Ok None
  | r :: rest =>
      if matches (rule_match r) e then decision ← decide_rule r e; Ok (Some decision)
      else route_rules rest e
  end.

(** [route] *)
Definition route (classifier : option (Event -> PlanningInput -> res (option ReflexDecision))) (rules : list ReflexRule)
    (e : Event) (ctx : PlanningInput) : res ReflexDecision :=
  found ← route_rules rules e;
  match found with
  | Some decision => Ok decision
  | None =>
      classified ← match classifier with None => Ok None | Some classify => classify e ctx end;
      match classified with
      | Some decision => Ok decision
      | None => ReflexDecision_validate (mkReflexDecision ReflexAction.NEEDS_PLANNING "no_matching_rule" [] None)
      end
  end.
End router.

(** ** Templates as text with placeholders *)

(** A template is a list of texts, each followed by a placeholder, and a last
    text. *)
Definition print_template (l : list (string * string)) (tail : string) : string :=
  foldr (fun p rest => p.1 +:+ "${" +:+ p.2 +:+ "}" +:+ rest) tail l.
Record template_pieces (l : list (string * string)) (tail : string) : Prop := {
  tp_holes : Forall (fun p => find "${" p.1 = None /\ find "}" p.2 = None) l;
  tp_tail : find "${" tail = None;
}.

Fixpoint spans_of (position : nat) (l : list (string * string)) : list (nat * nat * string) :=
  match l with
  | [] => []
  | (text, x) :: rest =>
      let start := (position + String.length text)%nat in
      let stop := (start + 2 + String.length x + 1)%nat in
      (start, stop, x) :: spans_of stop rest
  end.

Lemma find_from_app needle a b cursor : cursor = String.length a ->
  find_from needle (a +:+ b) cursor = (fun i => (cursor + i)%nat) <$> find needle b.
Proof. intros ->. unfold find_from. by rewrite sdrop_app. Qed.
Lemma slice_app a b c first last : first = String.length a -> last = (String.length a + String.length b)%nat ->
  slice first last (a +:+ b +:+ c) = b.
Proof.
  intros -> ->. unfold slice. rewrite sdrop_app. replace (_ - _)%nat with (String.length b) by lia. apply stake_app.
Qed.

(** Scanning finds the placeholders. *)
Lemma scan_pieces l tail fuel pre : template_pieces l tail -> (length l <= fuel)%nat ->
  placeholder_spans fuel (pre +:+ print_template l tail) (String.length pre) = Ok (spans_of (String.length pre) l).
Proof.
  intros [Hl Ht]. revert fuel pre. induction Hl as [|[t x] l [Htx Hx] Hl IH]; intros fuel pre Hf; cbn [print_template foldr fst snd].
  - destruct fuel; cbn [placeholder_spans]; rewrite find_from_app by done; by rewrite Ht.
  - destruct fuel as [|fuel]; [cbn in Hf; lia|]. cbn [placeholder_spans spans_of]. cbn [fst snd] in *.
    fold (print_template l tail). set (rest := print_template l tail) in *.
    rewrite find_from_app by done. change ("${" +:+ x +:+ "}" +:+ rest) with (String "$" (String "{" (x +:+ "}" +:+ rest))).
    rewrite find_pair by done. cbn [fmap option_fmap option_map].
    assert (pre +:+ t +:+ String "$" (String "{" (x +:+ "}" +:+ rest)) = (pre +:+ t +:+ "${") +:+ x +:+ String "}" rest) as ->.
    { autorewrite with text. done. }
    assert (String.length (pre +:+ t +:+ "${") = (String.length pre + String.length t + 2)%nat) as Hlen.
    { rewrite !str_app_length. cbn. lia. }
    rewrite find_from_app by lia. rewrite find_char by done. cbn [fmap option_fmap option_map].
    assert ((pre +:+ t +:+ "${") +:+ x +:+ String "}" rest = ((pre +:+ t +:+ "${") +:+ x +:+ "}") +:+ rest) as Hassoc.
    { autorewrite with text. done. }
    rewrite (slice_app (pre +:+ t +:+ "${") x (String "}" rest)) by lia. rewrite Hassoc.
    assert (String.length ((pre +:+ t +:+ "${") +:+ x +:+ "}") = (String.length pre + String.length t + 2 + String.length x + 1)%nat) as Hstop.
    { rewrite str_app_length, Hlen, str_app_length. cbn. lia. }
    rewrite <- Hstop. rewrite IH by (cbn in Hf; lia). done.
Qed.

(** Every text is such a list, or has a placeholder that is not closed. *)
Lemma scan_unclosed n s : (String.length s <= n)%nat ->
  (exists l tail, template_pieces l tail /\ s = print_template l tail) \/
  (forall fuel pre, (String.length s <= fuel)%nat -> placeholder_spans fuel (pre +:+ s) (String.length pre) = Raise unclosed).
Proof.
  revert s. induction n as [|n IH]; intros s Hs.
  { destruct s; [|cbn in Hs; lia]. left. by exists [], "". }
  destruct (find "${" s) as [i|] eqn:Ei; [|left; by exists [], s].
  apply find_Some in Ei as (t & s' & -> & <- & Ht); [|done].
  assert (forall fuel pre, placeholder_spans fuel (pre +:+ t +:+ "${" +:+ s') (String.length pre) =
    match find_from "}" (pre +:+ t +:+ "${" +:+ s') (String.length pre + String.length t + 2) with
    | None => Raise unclosed
    | Some stop => match fuel with O => Ok [] | S fuel' =>
        rest ← placeholder_spans fuel' (pre +:+ t +:+ "${" +:+ s') (stop + 1);
        Ok (((String.length pre + String.length t)%nat, (stop + 1)%nat,
             slice (String.length pre + String.length t + 2) stop (pre +:+ t +:+ "${" +:+ s')) :: rest) end
    end) as Hstep.
  { intros fuel pre. change ("${" +:+ s') with (String "$" (String "{" s')).
    destruct fuel; cbn [placeholder_spans]; rewrite (find_from_app "${" pre) by done; rewrite find_pair by done; done. }
  assert (forall pre, String.length (pre +:+ t +:+ "${") = (String.length pre + String.length t + 2)%nat) as Hlen.
  { intros pre. rewrite !str_app_length. cbn. lia. }
  assert (forall pre, pre +:+ t +:+ "${" +:+ s' = (pre +:+ t +:+ "${") +:+ s') as Hassoc by (intros; by autorewrite with text).
  destruct (find "}" s') as [j|] eqn:Ej.
  - apply find_Some in Ej as (x & s'' & -> & <- & Hx); [|done].
    destruct (IH s'') as [(l & tail & [Hl Htail] & ->)|Hraise].
    + rewrite !str_app_length in Hs. cbn in Hs. lia.
    + left. exists ((t, x) :: l), tail. split; [split; [by constructor|done]|done].
    + right. intros fuel pre Hf. rewrite !str_app_length in Hf. cbn in Hf.
      rewrite Hstep, Hassoc, find_from_app by done. change ("}" +:+ s'') with (String "}" s''). rewrite find_char by done.
      cbn [fmap option_fmap option_map]. change (String "}" s'') with ("}" +:+ s''). destruct fuel as [|fuel]; [lia|].
      assert ((pre +:+ t +:+ "${") +:+ x +:+ "}" +:+ s'' = ((pre +:+ t +:+ "${") +:+ x +:+ "}") +:+ s'') as -> by (by autorewrite with text).
      assert (String.length pre + String.length t + 2 + String.length x + 1 = String.length ((pre +:+ t +:+ "${") +:+ x +:+ "}"))%nat as ->.
      { rewrite (str_app_length (pre +:+ t +:+ "${")), Hlen, str_app_length. cbn. lia. }
      by rewrite (Hraise fuel ((pre +:+ t +:+ "${") +:+ x +:+ "}")) by lia.
  - right. intros fuel pre _. rewrite Hstep, Hassoc, find_from_app by done. by rewrite Ej.
Qed.

Lemma length_pieces l tail : (length l <= String.length (print_template l tail))%nat.
Proof.
  induction l as [|[t x] l IH]; [cbn; lia|]. cbn [print_template foldr fst snd length]. fold (print_template l tail).
  rewrite !str_app_length. cbn. lia.
Qed.
Lemma scan_template l tail : template_pieces l tail -> iter_placeholder_spans (print_template l tail) = Ok (spans_of 0 l).
Proof. intros Hl. apply (scan_pieces l tail _ ""); [done|apply length_pieces]. Qed.

Section render_facts.
Variable float_repr : spec_float -> string.
Variable other_attribute : Event -> string -> res json.
#[local] Notation resolve := (resolve_placeholder other_attribute).

(** Substitution: the reference for rendering. *)
Definition substitute (x : string) (e : Event) : res string :=
  value ← resolve x e; stringify_placeholder_value float_repr value.
Fixpoint fill (l : list (string * string)) (tail : string) (e : Event) : res string :=
  match l with
  | [] => Ok tail
  | (text, x) :: rest => inserted ← substitute x e; filled ← fill rest tail e; Ok (text +:+ inserted +:+ filled)
  end.
Definition fill_template (l : list (string * string)) (tail : string) (e : Event) : res json :=
  match l with
  | [] => Ok (JStr tail)
  | [(text, x)] => if is_empty text && is_empty tail then resolve x e else filled ← fill l tail e; Ok (JStr filled)
  | _ => filled ← fill l tail e; Ok (JStr filled)
  end.

Lemma render_parts_fill l tail e pre :
  render_parts float_repr other_attribute (pre +:+ print_template l tail) (String.length pre) (spans_of (String.length pre) l) e =
  fill l tail e.
Proof.
  revert pre. induction l as [|[t x] l IH]; intros pre; cbn [print_template foldr fst snd spans_of render_parts fill].
  - by rewrite sdrop_app.
  - fold (print_template l tail). unfold substitute. destruct (resolve x e) as [value|]; [|done]. cbn [mbind res_bind].
    destruct (stringify_placeholder_value float_repr value) as [text|]; [|done]. cbn [mbind res_bind].
    rewrite (slice_app pre t) by lia.
    assert (pre +:+ t +:+ "${" +:+ x +:+ "}" +:+ print_template l tail = (pre +:+ t +:+ "${" +:+ x +:+ "}") +:+ print_template l tail) as ->
      by (by autorewrite with text).
    assert (String.length pre + String.length t + 2 + String.length x + 1 = String.length (pre +:+ t +:+ "${" +:+ x +:+ "}"))%nat as ->.
    { rewrite !str_app_length. cbn. lia. }
    by rewrite IH.
Qed.

Lemma render_template_pieces l tail e : template_pieces l tail ->
  render_string float_repr other_attribute (print_template l tail) e = fill_template l tail e.
Proof.
  intros Hl. unfold render_string. rewrite (scan_template _ _ Hl). cbn [mbind res_bind].
  pose proof (render_parts_fill l tail e "") as Hr. change ("" +:+ print_template l tail) with (print_template l tail) in Hr.
  change (String.length "") with 0%nat in Hr. destruct l as [|[t x] [|p l]]; [done| |].
  - cbn [spans_of] in *. cbn [print_template foldr fst snd] in *. rewrite !str_app_length.
    destruct t as [|c t]; cbn [fill_template is_empty andb Nat.add String.length] in *; [|by rewrite Hr].
    destruct tail as [|c tail]; cbn [is_empty andb].
    + replace (_ =? _)%nat with true; [done|]. symmetry. apply Nat.eqb_eq. cbn. lia.
    + replace (_ =? _)%nat with false; [by rewrite Hr|]. symmetry. apply Nat.eqb_neq. cbn. lia.
  - cbn [spans_of] in *. rewrite Hr. by destruct (0 + String.length t)%nat, p.
Qed.

(** rendering a template is substitution. A template that is text with
    closed placeholders is rendered to that text with the placeholders replaced
    by the values they name, strings as they are and other values as compact
    JSON; a template that is one placeholder and nothing else gives the value
    itself; a template without placeholders is unchanged. Every template has
    such a form, but for those with a placeholder that is not closed, which
    raise. The scan ends within one round per placeholder. *)
Theorem rendering_is_substitution template e :
  (exists l tail, template_pieces l tail /\ template = print_template l tail /\
     iter_placeholder_spans template = Ok (spans_of 0 l) /\
     render_string float_repr other_attribute template e = fill_template l tail e) \/
  ((forall l tail, template_pieces l tail -> template <> print_template l tail) /\
     iter_placeholder_spans template = Raise unclosed /\
     render_string float_repr other_attribute template e = Raise unclosed).
Proof.
  destruct (scan_unclosed _ template (le_n _)) as [(l & tail & Hl & ->)|Hraise].
  - left. exists l, tail. split_and!; [done|done|by apply scan_template|by apply render_template_pieces].
  - right. specialize (Hraise (String.length template) "" (le_n _)).
    assert (iter_placeholder_spans template = Raise unclosed) as Hs by exact Hraise. split_and!; [|done|].
    + intros l tail Hl ->. by rewrite (scan_template _ _ Hl) in Hs.
    + unfold render_string. by rewrite Hs.
Qed.

(** ** Validated templates only fail to resolve *)
Definition resolves {A} (P : A -> Prop) (m : res A) : Prop :=
  match m with Ok a => P a | Raise (TemplateResolutionError _) => True | Raise _ => False end.
Lemma resolves_bind {A B} (P : A -> Prop) (Q : B -> Prop) (m : res A) (f : A -> res B) :
  resolves P m -> (forall a, P a -> resolves Q (f a)) -> resolves Q (m ≫= f).
Proof. destruct m as [a|[]]; cbn; try done. auto. Qed.
Lemma resolves_sequence {A B} (P : B -> Prop) (f : A -> res B) l :
  Forall (fun a => resolves P (f a)) l -> resolves (Forall P) (sequence (map f l)).
Proof.
  induction 1 as [|a l Ha Hl IH]; cbn [map sequence]; [by constructor|]. apply (resolves_bind P); [done|]. intros b Hb.
  apply (resolves_bind (Forall P)); [done|]. intros bs Hbs. by constructor.
Qed.

Definition is_jsonable (v : json) : Prop := jsonable v = true.
Lemma lookup_resolves context v segments : is_jsonable v -> resolves is_jsonable (lookup_mapping_path context v segments).
Proof.
  revert v. induction segments as [|x segments IH]; intros v Hv; [done|]. cbn [lookup_mapping_path]. destruct v; try done.
  destruct (aget x fields) as [v|] eqn:E; [|done]. apply IH. apply aget_Some_elem in E. unfold is_jsonable in *. cbn in Hv.
  rewrite forallb_forall in Hv. apply (Hv (x, v)). by apply list_elem_of_In.
Qed.

Lemma resolve_resolves x e : validate_placeholder_expression x = Ok tt -> is_jsonable (JObj (ev_payload e)) ->
  resolves is_jsonable (resolve x e).
Proof.
  intros Hx Hp. unfold validate_placeholder_expression in Hx. apply res_bind_Ok in Hx as (? & _ & Hx).
  apply res_bind_Ok in Hx as (? & _ & Hx). unfold resolve_placeholder. destruct (split_dots "" x) as [|root rest]; [done|].
  apply res_bind_Ok in Hx as (? & Hroot & Hx). destruct (root =? "payload")%string; [by apply lookup_resolves|].
  destruct (root =? "event")%string; [|done]. destruct rest as [|field deeper]; [done|].
  apply res_bind_Ok in Hx as (? & Hf%raise_if_Ok & _). apply negb_false_iff, bool_decide_eq_true in Hf.
  destruct (field =? "payload")%string eqn:Ep; [by apply lookup_resolves|].
  unfold event_attribute, ALLOWED_EVENT_FIELDS in *. rewrite !elem_of_cons in Hf. apply String.eqb_neq in Ep.
  destruct Hf as [->|[->|[->|[->|[->|[->|[]%elem_of_nil]]]]]]; cbn; try done. by destruct (dedupe_key e).
Qed.

Lemma sequence_unit {A} (f : A -> res unit) l : is_ok (sequence (map f l)) = true -> Forall (fun a => f a = Ok tt) l.
Proof.
  destruct (sequence _) as [bs|] eqn:E; [|done]. intros _. apply sequence_Ok in E. induction E as [|a [] l bs]; constructor; auto.
Qed.

(** What placeholder validation accepts. *)
Definition valid_string (s : string) : Prop :=
  exists spans, iter_placeholder_spans s = Ok spans /\ Forall (fun span => validate_placeholder_expression span.2 = Ok tt) spans.
Lemma validate_Ok_string s : validate_placeholders_in_obj (JStr s) = Ok tt -> valid_string s.
Proof.
  cbn. intros (spans & Hs & (? & Hv & _)%res_bind_Ok)%res_bind_Ok. exists spans. split; [done|]. apply sequence_unit. by rewrite Hv.
Qed.

Lemma stringify_resolves v : is_jsonable v -> resolves (fun _ => True) (stringify_placeholder_value float_repr v).
Proof.
  intros Hv. pose proof (compact_ok float_repr v) as H. unfold is_jsonable in Hv. rewrite Hv in H.
  destruct v; cbn [stringify_placeholder_value]; try done; by destruct (compact_json _ _).
Qed.

Lemma render_parts_resolves template cursor spans e : is_jsonable (JObj (ev_payload e)) ->
  Forall (fun span => validate_placeholder_expression span.2 = Ok tt) spans ->
  resolves (fun _ => True) (render_parts float_repr other_attribute template cursor spans e).
Proof.
  intros Hp Hs. revert cursor. induction Hs as [|[[start stop] x] spans Hx Hs IH]; intros cursor; [done|]. cbn [render_parts snd] in *.
  apply (resolves_bind is_jsonable); [by apply resolve_resolves|]. intros v Hv.
  apply (resolves_bind (fun _ => True)); [by apply stringify_resolves|]. intros text _.
  by apply (resolves_bind (fun _ => True)).
Qed.

Lemma render_string_resolves s e : is_jsonable (JObj (ev_payload e)) -> valid_string s ->
  resolves is_jsonable (render_string float_repr other_attribute s e).
Proof.
  intros Hp (spans & Hs & Hv). unfold render_string. rewrite Hs. cbn [mbind res_bind].
  assert (resolves is_jsonable (text ← render_parts float_repr other_attribute s 0 spans e; Ok (JStr text))) as Hr.
  { apply (resolves_bind (fun _ => True)); [by apply render_parts_resolves|done]. }
  destruct spans as [|[[[|n] stop] x] [|]]; try done. inversion_clear Hv. destruct (_ =? _)%nat; [by apply resolve_resolves|done].
Qed.

Lemma render_resolves v e : is_jsonable (JObj (ev_payload e)) -> is_jsonable v -> validate_placeholders_in_obj v = Ok tt ->
  resolves is_jsonable (render_template_value float_repr other_attribute v e).
Proof.
  intros Hp. induction v as [|b|n|f|s|l IH|l IH|x] using json_nested_ind; intros Hj Hv; try done.
  - by apply render_string_resolves, validate_Ok_string.
  - unfold is_jsonable in Hj. cbn [render_template_value validate_placeholders_in_obj jsonable] in *. apply res_bind_Ok in Hv as (us & Hv & _).
    pose proof (sequence_unit validate_placeholders_in_obj l ltac:(by rewrite Hv)) as Hl. rewrite forallb_forall in Hj.
    apply (resolves_bind (Forall is_jsonable)).
    + apply resolves_sequence. rewrite Forall_forall in *. intros w Hw. apply IH; [done| |by apply Hl]. by apply (Hj w), list_elem_of_In.
    + intros items Hi. unfold resolves, is_jsonable. cbn. apply forallb_forall. intros w Hw%list_elem_of_In. rewrite Forall_forall in Hi. by apply Hi.
  - unfold is_jsonable in Hj. cbn [render_template_value validate_placeholders_in_obj jsonable] in *. apply res_bind_Ok in Hv as (us & Hv & _).
    pose proof (sequence_unit (fun p => validate_placeholders_in_obj p.2) l ltac:(by rewrite Hv)) as Hl. rewrite forallb_forall in Hj.
    apply (resolves_bind (Forall (fun p => is_jsonable p.2))).
    + apply resolves_sequence. rewrite Forall_forall in *. intros w Hw.
      apply (resolves_bind is_jsonable); [|done]. apply IH; [done| |by apply Hl]. by apply (Hj w), list_elem_of_In.
    + intros items Hi. unfold resolves, is_jsonable. cbn. apply forallb_forall. intros w Hw%list_elem_of_In. rewrite Forall_forall in Hi. by apply Hi.
Qed.
End render_facts.

(** ** The router *)
Lemma trimmed_solid s : strip s = s -> starts_solid is_space s = true /\ rstrip_by is_space s = s.
Proof.
  intros Hs. assert (starts_solid is_space s = true) as H.
  { rewrite <- Hs. apply rstrip_starts_solid, lstrip_solid. }
  split; [done|]. unfold strip, strip_by in Hs. by rewrite lstrip_id in Hs.
Qed.
Lemma rstrip_app p a b : b <> "" -> rstrip_by p b = b -> rstrip_by p (a +:+ b) = a +:+ b.
Proof.
  intros Hb Hr. induction a as [|c a IH]; [done|]. change (String c a +:+ b) with (String c (a +:+ b)). cbn [rstrip_by].
  rewrite IH. destruct (a +:+ b) eqn:E; [|done]. by destruct a, b.
Qed.
Lemma trimmed_app a m b : is_trimmed a -> is_trimmed b -> is_trimmed (a +:+ m +:+ b).
Proof.
  intros [Ha Hna] [Hb Hnb]. apply trimmed_solid in Ha as [Ha _], Hb as [_ Hb]. destruct a as [|c a]; [done|]. split; [|done].
  unfold strip, strip_by. rewrite lstrip_id by done. rewrite <- str_app_assoc. by apply rstrip_app.
Qed.

(** What validation establishes of a rule. *)
Definition action_ok (a : ReflexRuleAction) : Prop :=
  match a with
  | FastToolAction tool_name args_template =>
      is_trimmed tool_name /\ is_jsonable (JObj args_template) /\ validate_placeholders_in_obj (JObj args_template) = Ok tt
  | FlagAction _ (Some note) _ => validate_placeholders_in_obj (JStr note) = Ok tt
  | _ => True
  end.
Record rule_ok (r : ReflexRule) : Prop := {
  ro_id : is_trimmed (rule_id r);
  ro_action : action_ok (rule_action r);
}.

Lemma action_validate_ok a a' : action_validate a = Ok a' -> action_ok a'.
Proof.
  destruct a as [tool args| | |severity note tags]; cbn [action_validate]; [|by intros [= <-]..|].
  - intros E. vld_inv. match goal with H : non_empty _ _ = Ok _ |- _ => apply non_empty_Ok in H as [-> ?] end.
    match goal with H : validate_args_template _ = Ok _ |- _ => rename H into Hv end. unfold validate_args_template in Hv.
    apply res_bind_Ok in Hv as (l & Hj & ([] & Hv & [= <-])%res_bind_Ok). unfold json_dict in Hj.
    destruct (jsonable _) eqn:E; [|done]. injection Hj as ->. split_and!; [by apply strip_trimmed|done|done].
  - intros E. vld_inv. match goal with H : validate_note_template _ = Ok _ |- _ => rename H into Hv end. cbn [action_ok].
    unfold validate_note_template in Hv. destruct note as [v|]; [|by injection Hv as <-].
    destruct (strip_or_none v) as [t|]; [|by injection Hv as <-]. apply res_bind_Ok in Hv as ([] & Hv & [= <-]).
    cbn [validate_placeholders_in_obj map sequence snd] in *. apply res_bind_Ok in Hv as (us & Hv & _).
    by apply res_bind_Ok in Hv as ([] & Hv & _).
Qed.
Lemma ReflexRule_validate_ok raw r : ReflexRule_validate raw = Ok r -> rule_ok r.
Proof.
  intros E. unfold ReflexRule_validate in E. vld_inv. split; cbn [rule_id rule_action].
  - match goal with H : non_empty _ _ = Ok _ |- _ => apply non_empty_Ok in H as [-> ?] end. by apply strip_trimmed.
  - by eapply action_validate_ok.
Qed.

Section routing.
Variable float_repr : spec_float -> string.
Variable other_attribute : Event -> string -> res json.
#[local] Notation render := (render_template_value float_repr other_attribute).

(** The decision a rule stands for. *)
Definition flag_fields (severity : Severity) (tags : list string) : list (string * json) :=
  [("severity", JStr (severity_value severity)); ("tags", JArr (map JStr tags))].
Definition answers (r : ReflexRule) (e : Event) (d : ReflexDecision) : Prop :=
  match rule_action r with
  | NeedsPlanningAction => d = mkReflexDecision ReflexAction.NEEDS_PLANNING (rule_id r) [] None
  | DropAction => d = mkReflexDecision ReflexAction.DROP (rule_id r) [] None
  | FlagAction severity None tags => d = mkReflexDecision ReflexAction.FLAG (rule_id r) [] (Some (flag_fields severity tags))
  | FlagAction severity (Some template) tags => exists note, render (JStr template) e = Ok (JStr note) /\
      d = mkReflexDecision ReflexAction.FLAG (rule_id r) [] (Some (flag_fields severity tags ++ [("note", JStr note)])%list)
  | FastToolAction tool_name args_template => exists args, render (JObj args_template) e = Ok (JObj args) /\
      d = mkReflexDecision ReflexAction.FAST_TASKS (rule_id r)
        [mkProposedTask (rule_id r +:+ ":" +:+ tool_name) tool_name args [] 60 false 1 None None None None None None] None
  end.

Lemma jsonable_strings l : forallb jsonable (map JStr l) = true.
Proof. by induction l. Qed.

Lemma decision_intro d : is_trimmed (rd_reason d) -> validate_action_payloads d = Ok tt ->
  (forall f, rd_flag d = Some f -> is_jsonable (JObj f)) -> ReflexDecision_validate d = Ok d.
Proof.
  destruct d as [action reason tasks flag]. intros Hr Ha Hf. unfold ReflexDecision_validate. cbn [rd_action rd_reason proposed_tasks rd_flag] in *.
  rewrite non_empty_fix by done. unfold validate_optional, json_dict. destruct flag as [f|].
  - rewrite (Hf f) by done. cbn -[validate_action_payloads]. by rewrite Ha.
  - cbn -[validate_action_payloads]. by rewrite Ha.
Qed.

Lemma proposed_task_intro r tool args : is_trimmed (rule_id r) -> is_trimmed tool -> is_jsonable (JObj args) ->
  proposed_task r tool args =
  Ok (mkProposedTask (rule_id r +:+ ":" +:+ tool) tool args [] 60 false 1 None None None None None None).
Proof.
  intros Hr Ht Ha. unfold proposed_task, ProposedTask_validate. cbn [pt_name pt_tool_name pt_args pt_depends_on pt_timeout_s
    pt_timeout_set pt_max_attempts pt_priority idempotency_seed declared_permission_scope approval_required expected_side_effects execution_class].
  rewrite !non_empty_fix by (done || by apply trimmed_app). unfold json_dict. by rewrite Ha.
Qed.

Lemma flag_intro r severity tags extra : is_trimmed (rule_id r) -> is_jsonable (JObj extra) ->
  ReflexDecision_validate (mkReflexDecision ReflexAction.FLAG (rule_id r) [] (Some (flag_fields severity tags ++ extra)%list)) =
  Ok (mkReflexDecision ReflexAction.FLAG (rule_id r) [] (Some (flag_fields severity tags ++ extra)%list)).
Proof.
  intros Hr He. apply decision_intro; [done|done|]. intros f [= <-]. unfold is_jsonable in *. cbn in *. by rewrite jsonable_strings.
Qed.

(** A rule that matches gives its decision, or a placeholder does not resolve. *)
Lemma decide_rule_spec r e : rule_ok r -> is_jsonable (JObj (ev_payload e)) ->
  (exists d, decide_rule float_repr other_attribute r e = Ok d /\ answers r e d) \/
  (exists m, decide_rule float_repr other_attribute r e = Raise (TemplateResolutionError m) /\ forall d, ~ answers r e d).
Proof.
  intros [Hid Ha] Hp. unfold decide_rule, answers. destruct (rule_action r) as [tool args| | |severity [note|] tags]; cbn [action_ok] in Ha.
  - destruct Ha as (Ht & Hj & Hv). pose proof (render_resolves float_repr other_attribute _ e Hp Hj Hv) as Hr.
    destruct (render (JObj args) e) as [v|x] eqn:E; cbn [rule_error mbind res_bind].
    + assert (exists args', v = JObj args') as [args' ->].
      { cbn [render_template_value] in E. apply res_bind_Ok in E as (fs & _ & [= <-]). by exists fs. }
      left. rewrite proposed_task_intro by done. cbn [mbind res_bind]. eexists. split; [by apply decision_intro|]. by exists args'.
    + right. destruct x; try done. eexists. split; [done|]. by intros d (? & ? & _).
  - left. eexists. split; [by apply decision_intro|done].
  - left. eexists. split; [by apply decision_intro|done].
  - pose proof (render_string_resolves float_repr other_attribute note e Hp (validate_Ok_string _ Ha)) as Hr.
    change (render_string float_repr other_attribute note e) with (render (JStr note) e) in Hr. unfold flag_note.
    destruct (render (JStr note) e) as [v|x] eqn:E; cbn [rule_error mbind res_bind].
    + destruct v; try (right; eexists; split; [done|]; by intros d (? & ? & _)).
      left. eexists. split; [by apply (flag_intro r severity tags [("note", JStr s)])|]. by exists s.
    + right. destruct x; try done. eexists. split; [done|]. by intros d (? & ? & _).
  - left. eexists. unfold flag_note. cbn [mbind res_bind]. split; [by apply (flag_intro r severity tags [])|done].
Qed.

Definition no_matching_rule : ReflexDecision := mkReflexDecision ReflexAction.NEEDS_PLANNING "no_matching_rule" [] None.

(** the router. With validated rules and a payload that is JSON, an event is
    answered by the first rule that matches it, with the decision the rule stands
    for (the rendered tool call, the rendered flag, planning, or a drop, with the
    rule's id as the reason), and the router raises only when a placeholder of
    that rule does not resolve for the event; an event without a matching rule is
    left to the classifier, if there is one and it has an answer, and otherwise
    to planning. *)
Theorem router_answers classifier rules e ctx : Forall (fun r => exists raw, ReflexRule_validate raw = Ok r) rules ->
  jsonable (JObj (ev_payload e)) = true ->
  let answer := route float_repr other_attribute classifier rules e ctx in
  match List.find (fun r => matches (rule_match r) e) rules with
  | Some r => (exists d, answer = Ok d /\ answers r e d) \/
              (exists m, answer = Raise (TemplateResolutionError m) /\ forall d, ~ answers r e d)
  | None => answer = match classifier with
                     | None => Ok no_matching_rule
                     | Some classify => found ← classify e ctx; Ok (default no_matching_rule found)
                     end
  end.
Proof.
  intros Hrules Hp answer. unfold answer, route. induction Hrules as [|r rules [raw Hraw] _ IH]; cbn [List.find route_rules].
  - destruct classifier as [classify|]; [|done]. cbn [mbind res_bind]. by destruct (classify e ctx) as [[d|]|].
  - destruct (matches (rule_match r) e); [|exact IH].
    destruct (decide_rule_spec r e (ReflexRule_validate_ok _ _ Hraw) Hp) as [(d & -> & Hd)|(m & -> & Hd)].
    + left. by exists d.
    + right. by exists m.
Qed.
End routing.

(** ** A concrete rule set *)
Definition no_attribute (e : Event) (name : string) : res json := Raise (OtherError "AttributeError" name).
Definition note_rule : ReflexRule :=
  mkRule "note" (mkMatch "page.created" None (Some [("kind", JStr "page")]) (Some ["author.name"]))
    (FastToolAction "fs.write_text" [("path", JStr "notes/${payload.author.name}-${event.received_at_ms}.txt"); ("text", JStr "${payload.author}")]).
Definition skip_rule : ReflexRule := mkRule "skip" (mkMatch "tick" None None None) DropAction.
Definition sample_rules : list ReflexRule := [skip_rule; note_rule].
Definition page_event : Event :=
  mkEvent "e" "page.created" "web" 7 [("kind", JStr "page"); ("author", JObj [("name", JStr "ann")])] None.
Definition page_input : PlanningInput := mkPlanningInput OnEvent [page_event] (mkLimitsSnapshot None None None None) 7.

Example note_rendered : route (fun _ => "") no_attribute None sample_rules page_event page_input =
  Ok (mkReflexDecision ReflexAction.FAST_TASKS "note"
    [mkProposedTask "note:fs.write_text" "fs.write_text"
       [("path", JStr "notes/ann-7.txt"); ("text", JObj [("name", JStr "ann")])] [] 60 false 1 None None None None None None] None).
Proof. by vm_compute. Qed.

Lemma router_answers_witness : exists d, route (fun _ => "") no_attribute None sample_rules page_event page_input = Ok d /\
  answers (fun _ => "") no_attribute note_rule page_event d.
Proof.
  destruct (router_answers (fun _ => "") no_attribute None sample_rules page_event page_input) as [H|(m & E & _)].
  - constructor; [exists skip_rule; vm_compute; reflexivity|]. constructor; [exists note_rule; vm_compute; reflexivity|]. constructor.
  - reflexivity.
  - exact H.
  - exfalso. vm_compute in E. discriminate.
Defined.
