(* ===== verification/Lifecycle.v ===== *)
(** * Lifecycle: [domain/lifecycle.py] and [domain/execution_state.py]

    The transition tables of tasks and tool calls, [transition_task] and
    [transition_tool_call] with their invariant checks and error contexts, and
    the helpers that move a task and its tool call together. The results: the
    invariant checks decide the predicates [task_consistent] and
    [tool_call_consistent]; on valid records a transition succeeds exactly when
    the table, the attempt budget and the invariants allow it, and returns
    exactly the updated record; every sequence of operations keeps a task and
    its tool call valid, consistent and linked. *)

From Stdlib Require Import ZArith Lia.
From S2P Require Import Prelude Uuid Models.

(** ** Transition tables *)
Definition TASK_ALLOWED_TRANSITIONS (s : TaskStatus.t) : list TaskStatus.t :=
  match s with
  | TaskStatus.PENDING => [TaskStatus.QUEUED; TaskStatus.RUNNING; TaskStatus.CANCELED]
  | TaskStatus.QUEUED => [TaskStatus.WAITING_APPROVAL; TaskStatus.RUNNING; TaskStatus.CANCELED]
  | TaskStatus.RUNNING =>
      [TaskStatus.WAITING_APPROVAL; TaskStatus.SUCCEEDED; TaskStatus.FAILED; TaskStatus.CANCELED]
  | TaskStatus.WAITING_APPROVAL => [TaskStatus.QUEUED; TaskStatus.CANCELED]
  | TaskStatus.FAILED => [TaskStatus.RUNNING; TaskStatus.CANCELED; TaskStatus.ARCHIVED]
  | TaskStatus.SUCCEEDED => [TaskStatus.ARCHIVED]
  | TaskStatus.CANCELED => [TaskStatus.ARCHIVED]
  | TaskStatus.ARCHIVED => []
  end.

Definition TOOL_CALL_ALLOWED_TRANSITIONS (s : ToolCallStatus.t) : list ToolCallStatus.t :=
  match s with
  | ToolCallStatus.PENDING => [ToolCallStatus.RUNNING; ToolCallStatus.DENIED; ToolCallStatus.CANCELED]
  | ToolCallStatus.RUNNING => [ToolCallStatus.SUCCEEDED; ToolCallStatus.FAILED; ToolCallStatus.CANCELED]
  | ToolCallStatus.FAILED => [ToolCallStatus.RUNNING; ToolCallStatus.CANCELED]
  | ToolCallStatus.SUCCEEDED => []
  | ToolCallStatus.DENIED => []
  | ToolCallStatus.CANCELED => []
  end.

(** A status of either kind: [can_transition] and [transition] dispatch on it. *)
Inductive any_status :=
| ATask (s : TaskStatus.t)
| AToolCall (s : ToolCallStatus.t).

Definition can_transition (current target : any_status) : res bool :=
  match current, target with
  | ATask c, ATask t => Ok (bool_decide (t ∈ TASK_ALLOWED_TRANSITIONS c))
  | AToolCall c, AToolCall t => Ok (bool_decide (t ∈ TOOL_CALL_ALLOWED_TRANSITIONS c))
  | _, _ => Raise (TypeError "can_transition expects TaskStatus->TaskStatus or ToolCallStatus->ToolCallStatus")
  end.

(** ** Record updates ([model_copy(update=...)]) *)
Definition task_set_status (s : TaskStatus.t) (t : Task) : Task :=
  mkTask (task_id t) (run_id t) (name t) s (tool_call t) (attempts t) (max_attempts t)
    (timeout_s t) (depends_on t) (created_at_ms t) (started_at_ms t) (completed_at_ms t)
    (labels t) (metadata t).
Definition task_set_tool_call (tc : option ToolCall) (t : Task) : Task :=
  mkTask (task_id t) (run_id t) (name t) (status t) tc (attempts t) (max_attempts t)
    (timeout_s t) (depends_on t) (created_at_ms t) (started_at_ms t) (completed_at_ms t)
    (labels t) (metadata t).
Definition task_set_attempts (n : Z) (t : Task) : Task :=
  mkTask (task_id t) (run_id t) (name t) (status t) (tool_call t) n (max_attempts t)
    (timeout_s t) (depends_on t) (created_at_ms t) (started_at_ms t) (completed_at_ms t)
    (labels t) (metadata t).
Definition task_set_started (v : option Z) (t : Task) : Task :=
  mkTask (task_id t) (run_id t) (name t) (status t) (tool_call t) (attempts t) (max_attempts t)
    (timeout_s t) (depends_on t) (created_at_ms t) v (completed_at_ms t) (labels t) (metadata t).
Definition task_set_completed (v : option Z) (t : Task) : Task :=
  mkTask (task_id t) (run_id t) (name t) (status t) (tool_call t) (attempts t) (max_attempts t)
    (timeout_s t) (depends_on t) (created_at_ms t) (started_at_ms t) v (labels t) (metadata t).

Definition tc_set_status (s : ToolCallStatus.t) (c : ToolCall) : ToolCall :=
  mkToolCall (tool_call_id c) (tool_name c) (args c) (permission_scope c) (idempotency_key c) s
    (tc_created_at_ms c) (tc_started_at_ms c) (tc_completed_at_ms c) (result_ref c).
Definition tc_set_started (v : option Z) (c : ToolCall) : ToolCall :=
  mkToolCall (tool_call_id c) (tool_name c) (args c) (permission_scope c) (idempotency_key c)
    (tc_status c) (tc_created_at_ms c) v (tc_completed_at_ms c) (result_ref c).
Definition tc_set_completed (v : option Z) (c : ToolCall) : ToolCall :=
  mkToolCall (tool_call_id c) (tool_name c) (args c) (permission_scope c) (idempotency_key c)
    (tc_status c) (tc_created_at_ms c) (tc_started_at_ms c) v (result_ref c).

(** ** Invariant checks *)

Section invariants.
Variable current_state : TaskStatus.t.

(** The closure [fail] of [_validate_task_invariants]. *)
Definition task_fail {A} (t : Task) (reason : string) (extra : list (string * json)) : res A :=
  Raise (InvalidTransition reason (TaskStatus.value current_state) (TaskStatus.value (status t))
           (("entity", JStr "Task") :: extra)).

Definition fail_if (b : bool) (t : Task) (reason : string) (extra : list (string * json)) : res unit :=
  if b then task_fail t reason extra else Ok tt.

Definition require_tool_call (t : Task) (reason : string) : res ToolCall :=
  match tool_call t with None => task_fail t reason [] | Some c => Ok c end.

Definition tc_status_ctx (c : ToolCall) : list (string * json) :=
  [("tool_call_status", JStr (ToolCallStatus.value (tc_status c)))].
Definition attempts_ctx (t : Task) : list (string * json) := [("attempts", JInt (attempts t))].
Definition opt_int (v : option Z) : json := match v with Some n => JInt n | None => JNull end.

Definition validate_waiting_approval (t : Task) : res unit :=
  c ← require_tool_call t "waiting approval task must have tool_call";
  fail_if (negb (bool_decide (tc_status c ∈ [ToolCallStatus.PENDING; ToolCallStatus.RUNNING]))) t
    "waiting approval task must have pending/running tool_call" (tc_status_ctx c);;
  fail_if (is_set (completed_at_ms t)) t
    "waiting approval task must not have completed_at_ms set" [];;
  fail_if (is_set (tc_completed_at_ms c)) t
    "waiting approval task must not have completed tool_call"
    [("tool_call_completed_at_ms", opt_int (tc_completed_at_ms c))];;
  (if decide (tc_status c = ToolCallStatus.PENDING) then
     fail_if (is_set (tc_started_at_ms c)) t
       "waiting approval task must not have started tool_call"
       [("tool_call_started_at_ms", opt_int (tc_started_at_ms c))];;
     fail_if (is_set (started_at_ms t)) t
       "waiting approval task must not have started_at_ms set" []
   else Ok tt);;
  (if decide (tc_status c = ToolCallStatus.RUNNING) then
     fail_if (negb (is_set (started_at_ms t))) t
       "waiting approval task must have started_at_ms when tool_call is running" [];;
     fail_if (attempts t <=? 0) t
       "waiting approval task must have attempts >= 1" (attempts_ctx t)
   else Ok tt).

(** The branch for [SUCCEEDED] and [FAILED]. *)
Definition validate_completed (expected : ToolCallStatus.t) (t : Task) : res unit :=
  c ← require_tool_call t "task cannot complete without tool_call";
  fail_if (bool_decide (tc_status c <> expected)) t "task status must match tool_call status"
    (tc_status_ctx c ++ [("expected_tool_call_status", JStr (ToolCallStatus.value expected))]);;
  fail_if (negb (is_set (started_at_ms t))) t "task cannot complete without started_at_ms" [];;
  fail_if (negb (is_set (completed_at_ms t))) t "task cannot complete without completed_at_ms" [];;
  fail_if (attempts t <=? 0) t "completed task must have attempts >= 1" (attempts_ctx t).

(** The branches for [CANCELED] and [ARCHIVED]. *)
Definition validate_inactive (allowed : list ToolCallStatus.t) (no_completed active : string) (t : Task)
  : res unit :=
  fail_if (negb (is_set (completed_at_ms t))) t no_completed [];;
  match tool_call t with
  | None => Ok tt
  | Some c => fail_if (negb (bool_decide (tc_status c ∈ allowed))) t active (tc_status_ctx c)
  end.

Definition validate_task_invariants (t : Task) : res unit :=
  match status t with
  | TaskStatus.PENDING =>
      fail_if (is_set (started_at_ms t) || is_set (completed_at_ms t)) t
        "pending task cannot have started_at_ms/completed_at_ms set" []
  | TaskStatus.QUEUED =>
      c ← require_tool_call t "queued task must have tool_call";
      fail_if (bool_decide (tc_status c <> ToolCallStatus.PENDING)) t
        "queued task must have pending tool_call" (tc_status_ctx c);;
      fail_if (is_set (started_at_ms t) || is_set (completed_at_ms t)) t
        "queued task cannot have started_at_ms/completed_at_ms set" []
  | TaskStatus.WAITING_APPROVAL => validate_waiting_approval t
  | TaskStatus.RUNNING =>
      c ← require_tool_call t "task cannot run without tool_call";
      fail_if (bool_decide (tc_status c <> ToolCallStatus.RUNNING)) t
        "task cannot run unless tool_call is running" (tc_status_ctx c);;
      fail_if (negb (is_set (started_at_ms t))) t "task cannot run without started_at_ms" [];;
      fail_if (is_set (completed_at_ms t)) t "running task must not have completed_at_ms set" [];;
      fail_if (attempts t <=? 0) t "running task must have attempts >= 1" (attempts_ctx t)
  | TaskStatus.SUCCEEDED => validate_completed ToolCallStatus.SUCCEEDED t
  | TaskStatus.FAILED => validate_completed ToolCallStatus.FAILED t
  | TaskStatus.CANCELED =>
      validate_inactive [ToolCallStatus.CANCELED; ToolCallStatus.DENIED]
        "canceled task must have completed_at_ms" "canceled task must not have an active tool_call" t
  | TaskStatus.ARCHIVED =>
      validate_inactive [ToolCallStatus.SUCCEEDED; ToolCallStatus.FAILED; ToolCallStatus.CANCELED;
                         ToolCallStatus.DENIED]
        "archived task must have completed_at_ms" "archived task must not have an active tool_call" t
  end.
End invariants.

Definition validate_tool_call_invariants (current_state : ToolCallStatus.t) (c : ToolCall) : res unit :=
  let fail_if (b : bool) (reason : string) : res unit :=
    raise_if b (InvalidTransition reason (ToolCallStatus.value current_state)
                  (ToolCallStatus.value (tc_status c)) [("entity", JStr "ToolCall")]) in
  match tc_status c with
  | ToolCallStatus.PENDING =>
      fail_if (is_set (tc_started_at_ms c) || is_set (tc_completed_at_ms c))
        "pending tool call cannot have started_at_ms/completed_at_ms set"
  | ToolCallStatus.RUNNING =>
      fail_if (negb (is_set (tc_started_at_ms c))) "tool call cannot run without started_at_ms";;
      fail_if (is_set (tc_completed_at_ms c)) "running tool call must not have completed_at_ms set"
  | ToolCallStatus.SUCCEEDED | ToolCallStatus.FAILED =>
      fail_if (negb (is_set (tc_started_at_ms c))) "tool call cannot complete without started_at_ms";;
      fail_if (negb (is_set (tc_completed_at_ms c))) "tool call cannot complete without completed_at_ms"
  | ToolCallStatus.DENIED =>
      fail_if (is_set (tc_started_at_ms c)) "denied tool call must not have started_at_ms set";;
      fail_if (negb (is_set (tc_completed_at_ms c))) "denied tool call must have completed_at_ms set"
  | ToolCallStatus.CANCELED =>
      fail_if (negb (is_set (tc_completed_at_ms c))) "canceled tool call must have completed_at_ms set"
  end.

(** ** Transitions *)
Definition starts_attempt (current target : TaskStatus.t) : bool :=
  bool_decide (target = TaskStatus.RUNNING) &&
  bool_decide (current ∈ [TaskStatus.PENDING; TaskStatus.QUEUED; TaskStatus.FAILED]).

Definition transition_task (task : Task) (target : TaskStatus.t) : res Task :=
  let current := status task in
  allowed ← can_transition (ATask current) (ATask target);
  raise_if (negb allowed)
    (InvalidTransition "invalid task status transition" (TaskStatus.value current)
       (TaskStatus.value target) [("entity", JStr "Task")]);;
  let updated := task_set_status target task in
  updated ←
    (if starts_attempt current target then
       raise_if (max_attempts task <=? attempts task)
         (InvalidTransition "max_attempts reached; cannot retry task" (TaskStatus.value current)
            (TaskStatus.value target)
            [("entity", JStr "Task"); ("attempts", JInt (attempts task));
             ("max_attempts", JInt (max_attempts task))]);;
       Ok (task_set_completed None (task_set_attempts (attempts task + 1) updated))
     else Ok updated);
  transitioned ← Task_model_validate updated;
  validate_task_invariants current transitioned;;
  Ok transitioned.

Definition starts_call (current target : ToolCallStatus.t) : bool :=
  bool_decide (target = ToolCallStatus.RUNNING) &&
  bool_decide (current ∈ [ToolCallStatus.PENDING; ToolCallStatus.FAILED]).

Definition transition_tool_call (c : ToolCall) (target : ToolCallStatus.t) : res ToolCall :=
  let current := tc_status c in
  allowed ← can_transition (AToolCall current) (AToolCall target);
  raise_if (negb allowed)
    (InvalidTransition "invalid tool call status transition" (ToolCallStatus.value current)
       (ToolCallStatus.value target) [("entity", JStr "ToolCall")]);;
  let updated := tc_set_status target c in
  let updated := if starts_call current target then tc_set_completed None updated else updated in
  transitioned ← ToolCall_model_validate updated;
  validate_tool_call_invariants current transitioned;;
  Ok transitioned.

(** [transition], which dispatches on the entity. *)
Inductive entity :=
| ETask (t : Task)
| EToolCall (c : ToolCall).

Definition transition (e : entity) (target : any_status) : res entity :=
  match e, target with
  | ETask t, ATask s => t' ← transition_task t s; Ok (ETask t')
  | ETask _, _ => Raise (TypeError "Task transition target must be a TaskStatus")
  | EToolCall c, AToolCall s => c' ← transition_tool_call c s; Ok (EToolCall c')
  | EToolCall _, _ => Raise (TypeError "ToolCall transition target must be a ToolCallStatus")
  end.

(** ** [domain/execution_state.py] *)
Record ExecutionState := mkExecutionState { es_task : Task; es_tool_call : ToolCall }.

Definition start_execution (task : Task) (c : ToolCall) (now_ms : Z) : res ExecutionState :=
  let prepared_tool_call := tc_set_completed None (tc_set_started (Some now_ms) c) in
  running_tool_call ← transition_tool_call prepared_tool_call ToolCallStatus.RUNNING;
  let prepared_task :=
    task_set_completed None (task_set_started (Some now_ms)
      (task_set_tool_call (Some running_tool_call) task)) in
  running_task ← transition_task prepared_task TaskStatus.RUNNING;
  Ok (mkExecutionState running_task running_tool_call).

Definition mark_waiting_approval (task : Task) (c : ToolCall) : res ExecutionState :=
  waiting_task ← transition_task (task_set_tool_call (Some c) task) TaskStatus.WAITING_APPROVAL;
  Ok (mkExecutionState waiting_task c).

(** The common body of the four [complete_*] functions. *)
Definition complete_with (tool_target : ToolCallStatus.t) (task_target : TaskStatus.t)
    (task : Task) (c : ToolCall) (now_ms : Z) : res ExecutionState :=
  completed_tool_call ← transition_tool_call (tc_set_completed (Some now_ms) c) tool_target;
  completed_task ← transition_task
    (task_set_completed (Some now_ms) (task_set_tool_call (Some completed_tool_call) task)) task_target;
  Ok (mkExecutionState completed_task completed_tool_call).

Definition complete_succeeded := complete_with ToolCallStatus.SUCCEEDED TaskStatus.SUCCEEDED.
Definition complete_failed := complete_with ToolCallStatus.FAILED TaskStatus.FAILED.
Definition complete_denied := complete_with ToolCallStatus.DENIED TaskStatus.CANCELED.
Definition complete_canceled := complete_with ToolCallStatus.CANCELED TaskStatus.CANCELED.

#[global] Arguments transition_task : simpl never.
#[global] Arguments transition_tool_call : simpl never.
#[global] Arguments start_execution : simpl never.
#[global] Arguments mark_waiting_approval : simpl never.
#[global] Arguments complete_with : simpl never.

(** ** The documented invariants *)

(** What [_validate_tool_call_invariants] requires of each status. *)
Definition tool_call_consistent (c : ToolCall) : Prop :=
  match tc_status c with
  | ToolCallStatus.PENDING => tc_started_at_ms c = None /\ tc_completed_at_ms c = None
  | ToolCallStatus.RUNNING => tc_started_at_ms c <> None /\ tc_completed_at_ms c = None
  | ToolCallStatus.SUCCEEDED | ToolCallStatus.FAILED =>
      tc_started_at_ms c <> None /\ tc_completed_at_ms c <> None
  | ToolCallStatus.DENIED => tc_started_at_ms c = None /\ tc_completed_at_ms c <> None
  | ToolCallStatus.CANCELED => tc_completed_at_ms c <> None
  end.

(** The task has a tool call that satisfies [P]. *)
Definition with_call (t : Task) (P : ToolCall -> Prop) : Prop :=
  match tool_call t with Some c => P c | None => False end.
Definition if_call (t : Task) (P : ToolCall -> Prop) : Prop :=
  match tool_call t with Some c => P c | None => True end.

Definition was_attempted (t : Task) : Prop := started_at_ms t <> None /\ 1 <= attempts t.

(** What [_validate_task_invariants] requires of each status. *)
Definition task_consistent (t : Task) : Prop :=
  match status t with
  | TaskStatus.PENDING => started_at_ms t = None /\ completed_at_ms t = None
  | TaskStatus.QUEUED =>
      with_call t (fun c => tc_status c = ToolCallStatus.PENDING) /\
      started_at_ms t = None /\ completed_at_ms t = None
  | TaskStatus.WAITING_APPROVAL =>
      completed_at_ms t = None /\
      with_call t (fun c => tc_completed_at_ms c = None /\
        (tc_status c = ToolCallStatus.PENDING /\ tc_started_at_ms c = None /\ started_at_ms t = None \/
         tc_status c = ToolCallStatus.RUNNING /\ was_attempted t))
  | TaskStatus.RUNNING =>
      with_call t (fun c => tc_status c = ToolCallStatus.RUNNING) /\
      completed_at_ms t = None /\ was_attempted t
  | TaskStatus.SUCCEEDED =>
      with_call t (fun c => tc_status c = ToolCallStatus.SUCCEEDED) /\
      completed_at_ms t <> None /\ was_attempted t
  | TaskStatus.FAILED =>
      with_call t (fun c => tc_status c = ToolCallStatus.FAILED) /\
      completed_at_ms t <> None /\ was_attempted t
  | TaskStatus.CANCELED =>
      completed_at_ms t <> None /\
      if_call t (fun c => tc_status c ∈ [ToolCallStatus.CANCELED; ToolCallStatus.DENIED])
  | TaskStatus.ARCHIVED =>
      completed_at_ms t <> None /\
      if_call t (fun c => tc_status c ∈ [ToolCallStatus.SUCCEEDED; ToolCallStatus.FAILED;
                                          ToolCallStatus.CANCELED; ToolCallStatus.DENIED])
  end.

(** *** The checks decide the invariants *)

Lemma fail_if_Ok cur b t r e u : fail_if cur b t r e = Ok u <-> b = false.
Proof. destruct b, u; cbn; unfold task_fail; split; congruence. Qed.

Lemma require_tool_call_Ok cur t r c : require_tool_call cur t r = Ok c <-> tool_call t = Some c.
Proof. unfold require_tool_call, task_fail. destruct (tool_call t); split; congruence. Qed.

Lemma negb_bool_decide_false P `{Decision P} : negb (bool_decide P) = false <-> P.
Proof. rewrite negb_false_iff. apply bool_decide_eq_true. Qed.

Lemma bool_decide_neq_false {A} `{EqDecision A} (x y : A) : bool_decide (x <> y) = false <-> x = y.
Proof. rewrite bool_decide_eq_false. split; [apply dec_stable|by intros -> []]. Qed.

(** Sequencing of unit checks is conjunction. *)
Lemma seq_Ok (m : res unit) (k : res unit) : (m;; k) = Ok tt <-> m = Ok tt /\ k = Ok tt.
Proof. rewrite res_bind_Ok. split; [by intros ([] & ? & ?)|by intros [? ?]; exists tt]. Qed.

Lemma attempts_check t : (attempts t <=? 0) = false <-> 1 <= attempts t.
Proof. rewrite Z.leb_gt. lia. Qed.

Ltac checks :=
  rewrite ?seq_Ok, ?fail_if_Ok, ?raise_if_Ok, ?orb_false_iff, ?negb_bool_decide_false,
    ?bool_decide_neq_false, ?negb_false_iff, ?is_set_true, ?is_set_false, ?attempts_check.

Lemma with_call_bind cur t r (k : ToolCall -> res unit) :
  (c ← require_tool_call cur t r; k c) = Ok tt <-> with_call t (fun c => k c = Ok tt).
Proof. unfold with_call, require_tool_call, task_fail. destruct (tool_call t); cbn; [done|by split]. Qed.

(** Case analysis on the tool call, then on the checks. *)
Ltac call_checks t :=
  rewrite ?with_call_bind; unfold with_call, was_attempted;
  destruct (tool_call t); checks; [|intuition congruence].

Lemma validate_completed_Ok cur e t : validate_completed cur e t = Ok tt <->
  with_call t (fun c => tc_status c = e) /\ completed_at_ms t <> None /\ was_attempted t.
Proof.
  unfold validate_completed. call_checks t. intuition congruence.
Qed.

Lemma validate_inactive_Ok cur l r1 r2 t : validate_inactive cur l r1 r2 t = Ok tt <->
  completed_at_ms t <> None /\ if_call t (fun c => tc_status c ∈ l).
Proof.
  unfold validate_inactive, if_call. rewrite seq_Ok. checks.
  destruct (tool_call t); [by checks|intuition congruence].
Qed.

Lemma validate_waiting_approval_Ok cur t : validate_waiting_approval cur t = Ok tt <->
  completed_at_ms t = None /\
  with_call t (fun c => tc_completed_at_ms c = None /\
    (tc_status c = ToolCallStatus.PENDING /\ tc_started_at_ms c = None /\ started_at_ms t = None \/
     tc_status c = ToolCallStatus.RUNNING /\ was_attempted t)).
Proof.
  unfold validate_waiting_approval. call_checks t.
  repeat case_decide; checks; destruct (tc_status _) eqn:E; try done; set_solver.
Qed.

Lemma validate_task_invariants_Ok cur t : validate_task_invariants cur t = Ok tt <-> task_consistent t.
Proof.
  unfold validate_task_invariants, task_consistent. destruct (status t).
  - by checks.
  - call_checks t. intuition congruence.
  - apply validate_waiting_approval_Ok.
  - call_checks t. intuition congruence.
  - apply validate_completed_Ok.
  - apply validate_completed_Ok.
  - apply validate_inactive_Ok.
  - apply validate_inactive_Ok.
Qed.

Lemma validate_tool_call_invariants_Ok cur c :
  validate_tool_call_invariants cur c = Ok tt <-> tool_call_consistent c.
Proof.
  unfold validate_tool_call_invariants, tool_call_consistent.
  destruct (tc_status c); by checks.
Qed.

(** ** Transitions *)

(** The record a transition builds before validation. *)
Definition task_updated (t : Task) (target : TaskStatus.t) : Task :=
  if starts_attempt (status t) target
  then task_set_completed None (task_set_attempts (attempts t + 1) (task_set_status target t))
  else task_set_status target t.

Definition tc_updated (c : ToolCall) (target : ToolCallStatus.t) : ToolCall :=
  if starts_call (tc_status c) target then tc_set_completed None (tc_set_status target c)
  else tc_set_status target c.

Lemma transition_task_Ok t s t' : transition_task t s = Ok t' <->
  s ∈ TASK_ALLOWED_TRANSITIONS (status t) /\
  (starts_attempt (status t) s = true -> attempts t < max_attempts t) /\
  Task_model_validate (task_updated t s) = Ok t' /\ task_consistent t'.
Proof.
  unfold transition_task, task_updated. cbn [can_transition]. split.
  - intros (_ & [= <-] & H)%res_bind_Ok. apply res_bind_Ok in H as ([] & Ha & H).
    apply res_bind_Ok in H as (u & Hu & H). apply res_bind_Ok in H as (v & Hv & H).
    apply res_bind_Ok in H as ([] & Hc & [= <-]). apply validate_task_invariants_Ok in Hc.
    bool_to_prop. destruct (starts_attempt _ _); res_inv; done.
  - intros (Hin & Hn & Hv & Hc). cbn. rewrite bool_decide_true by done. cbn.
    destruct (starts_attempt _ _).
    + rewrite (proj2 (Z.leb_gt _ _)) by auto. cbn. rewrite Hv. cbn.
      by rewrite (proj2 (validate_task_invariants_Ok _ _)).
    + cbn. rewrite Hv. cbn. by rewrite (proj2 (validate_task_invariants_Ok _ _)).
Qed.

Lemma transition_tool_call_Ok c s c' : transition_tool_call c s = Ok c' <->
  s ∈ TOOL_CALL_ALLOWED_TRANSITIONS (tc_status c) /\
  ToolCall_model_validate (tc_updated c s) = Ok c' /\ tool_call_consistent c'.
Proof.
  unfold transition_tool_call, tc_updated. cbn [can_transition]. split.
  - intros (_ & [= <-] & H)%res_bind_Ok. apply res_bind_Ok in H as ([] & Ha & H).
    apply res_bind_Ok in H as (v & Hv & H). apply res_bind_Ok in H as ([] & Hc & [= <-]).
    apply validate_tool_call_invariants_Ok in Hc. by bool_to_prop.
  - intros (Hin & Hv & Hc). cbn. rewrite bool_decide_true by done. cbn. rewrite Hv. cbn.
    by rewrite (proj2 (validate_tool_call_invariants_Ok _ _)).
Qed.

(** *** Transitions of valid records *)
Lemma normal_task_updated t s : normal_task t -> normal_task (task_updated t s).
Proof. unfold task_updated. intros []. by destruct (starts_attempt _ _). Qed.

Lemma normal_tc_updated c s : normal_tool_call c -> normal_tool_call (tc_updated c s).
Proof. unfold tc_updated. intros []. by destruct (starts_call _ _). Qed.

Lemma transition_task_iff t s t' : normal_task t ->
  transition_task t s = Ok t' <->
  s ∈ TASK_ALLOWED_TRANSITIONS (status t) /\
  (starts_attempt (status t) s = true -> attempts t < max_attempts t) /\
  t' = task_updated t s /\ valid_task t' /\ task_consistent t'.
Proof.
  intros Hn. rewrite transition_task_Ok, Task_model_validate_iff by auto using normal_task_updated.
  naive_solver.
Qed.

Lemma transition_tool_call_iff c s c' : normal_tool_call c ->
  transition_tool_call c s = Ok c' <->
  s ∈ TOOL_CALL_ALLOWED_TRANSITIONS (tc_status c) /\
  c' = tc_updated c s /\ valid_tool_call c' /\ tool_call_consistent c'.
Proof.
  intros Hn. rewrite transition_tool_call_Ok, ToolCall_model_validate_iff by auto using normal_tc_updated.
  naive_solver.
Qed.

(** *** Moving a task and its tool call together *)

(** The operations a caller applies to an [ExecutionState]. *)
Inductive exec_op :=
| OpStart (now_ms : Z)
| OpWait
| OpSucceed (now_ms : Z)
| OpFail (now_ms : Z)
| OpDeny (now_ms : Z)
| OpCancel (now_ms : Z)
| OpTransition (target : TaskStatus.t).

Definition exec_run (o : exec_op) (s : ExecutionState) : res ExecutionState :=
  let '(mkExecutionState t c) := s in
  match o with
  | OpStart now => start_execution t c now
  | OpWait => mark_waiting_approval t c
  | OpSucceed now => complete_succeeded t c now
  | OpFail now => complete_failed t c now
  | OpDeny now => complete_denied t c now
  | OpCancel now => complete_canceled t c now
  | OpTransition target => t' ← transition_task t target; Ok (mkExecutionState t' c)
  end.

(** An operation that raises leaves the caller's records as they were. *)
Definition exec_step (o : exec_op) (s : ExecutionState) : ExecutionState :=
  match exec_run o s with Ok s' => s' | Raise _ => s end.

(** The task and the tool call are valid, consistent with their status, and
    the task embeds the tool call. *)
Record exec_ok (s : ExecutionState) : Prop := {
  ok_task : valid_task (es_task s);
  ok_link : tool_call (es_task s) = Some (es_tool_call s);
  ok_task_consistent : task_consistent (es_task s);
  ok_call_consistent : tool_call_consistent (es_tool_call s);
}.

Lemma exec_ok_call s : exec_ok s -> valid_tool_call (es_tool_call s).
Proof. intros []. by eapply vt_tool_call. Qed.

Lemma normal_with_call c t : normal_task t -> valid_tool_call c ->
  normal_task (task_set_tool_call (Some c) t).
Proof. intros [] Hc. split; cbn; try done. by intros ? [= <-]. Qed.

Lemma normal_set_started v t : normal_task t -> normal_task (task_set_started v t).
Proof. by intros []. Qed.
Lemma normal_set_completed v t : normal_task t -> normal_task (task_set_completed v t).
Proof. by intros []. Qed.
Lemma normal_tc_started v c : normal_tool_call c -> normal_tool_call (tc_set_started v c).
Proof. by intros []. Qed.
Lemma normal_tc_completed v c : normal_tool_call c -> normal_tool_call (tc_set_completed v c).
Proof. by intros []. Qed.
#[export] Hint Resolve normal_with_call normal_set_started normal_set_completed
  normal_tc_started normal_tc_completed : py.

Lemma tool_call_updated t s : tool_call (task_updated t s) = tool_call t.
Proof. unfold task_updated. by destruct (starts_attempt _ _). Qed.

Lemma to_running cur : TaskStatus.RUNNING ∈ TASK_ALLOWED_TRANSITIONS cur <->
  starts_attempt cur TaskStatus.RUNNING = true.
Proof. unfold starts_attempt. destruct cur; cbn; set_solver. Qed.

Lemma starts_attempt_running cur : starts_attempt cur TaskStatus.RUNNING = true <->
  cur ∈ [TaskStatus.PENDING; TaskStatus.QUEUED; TaskStatus.FAILED].
Proof. unfold starts_attempt. rewrite andb_true_iff, !bool_decide_eq_true. naive_solver. Qed.

Lemma call_to_running cur : ToolCallStatus.RUNNING ∈ TOOL_CALL_ALLOWED_TRANSITIONS cur <->
  cur ∈ [ToolCallStatus.PENDING; ToolCallStatus.FAILED].
Proof. destruct cur; cbn; set_solver. Qed.

(** What [start_execution] makes of a task and its tool call. *)
Definition call_running (c : ToolCall) (now : Z) : ToolCall :=
  tc_set_status ToolCallStatus.RUNNING (tc_set_completed None (tc_set_started (Some now) c)).
Definition task_running (t : Task) (c : ToolCall) (now : Z) : Task :=
  task_set_status TaskStatus.RUNNING (task_set_attempts (attempts t + 1)
    (task_set_completed None (task_set_started (Some now) (task_set_tool_call (Some c) t)))).

Lemma tool_call_start_iff c now c' : valid_tool_call c ->
  transition_tool_call (tc_set_completed None (tc_set_started (Some now) c)) ToolCallStatus.RUNNING = Ok c' <->
  tc_status c ∈ [ToolCallStatus.PENDING; ToolCallStatus.FAILED] /\ tc_created_at_ms c <= now /\
  c' = call_running c now.
Proof.
  intros Hv. rewrite transition_tool_call_iff by auto with py. cbn [tc_status]. rewrite call_to_running.
  assert (forall b : bool, (if b then tc_set_completed None (call_running c now) else call_running c now)
    = call_running c now) as Hu by by intros [].
  unfold tc_updated; cbn. setoid_rewrite Hu. split.
  - intros (Hs & -> & Hv' & _). split_and!; [done| |done]. by apply (timestamps_started _ _ _ (vtc_times _ Hv')).
  - intros (Hs & Hn & ->). destruct Hv. split_and!; [done|done| |done].
    split; try done. split_and!; cbn; naive_solver.
Qed.

Lemma start_execution_iff t c now s' : valid_task t -> valid_tool_call c ->
  start_execution t c now = Ok s' <->
  (status t ∈ [TaskStatus.PENDING; TaskStatus.QUEUED; TaskStatus.FAILED] /\
   tc_status c ∈ [ToolCallStatus.PENDING; ToolCallStatus.FAILED] /\
   attempts t < max_attempts t /\ created_at_ms t <= now /\ tc_created_at_ms c <= now) /\
  s' = mkExecutionState (task_running t (call_running c now) now) (call_running c now).
Proof.
  intros Ht Hc. unfold start_execution. rewrite res_bind_Ok. setoid_rewrite tool_call_start_iff; [|done..].
  setoid_rewrite res_bind_Ok. split.
  - intros (c' & (Hs & Hn & ->) & t' & H & [= <-]).
    assert (valid_tool_call (call_running c now)) as Hc'.
    { destruct Hc. split; try done. split_and!; cbn; naive_solver. }
    apply transition_task_iff in H as (Hin & Ha & -> & Hv & _); [|auto with py].
    rewrite to_running in Hin. specialize (Ha Hin). unfold task_updated in *. rewrite Hin in *. cbn in *.
    apply starts_attempt_running in Hin.
    split_and!; [done..| |done|done]. by apply (timestamps_started _ _ _ (vt_times _ Hv)).
  - intros ((Hst & Hcs & Ha & Hcr & Hccr) & ->). exists (call_running c now). split_and!; [done..|].
    assert (valid_tool_call (call_running c now)) as Hc'.
    { destruct Hc. split; try done. split_and!; cbn; naive_solver. }
    eexists; split; [|done]. apply transition_task_iff; [auto with py|].
    apply starts_attempt_running in Hst. rewrite to_running. cbn [status task_set_completed task_set_started task_set_tool_call].
    unfold task_updated. cbn. rewrite Hst. split; [done|]. split; [done|]. split; [done|]. split.
    + destruct Ht. split; cbn; try done; try lia.
      * by intros ? [= <-].
      * split_and!; naive_solver.
    + cbn. destruct Ht. unfold task_consistent, with_call, was_attempted; cbn. split_and!; [done..|lia].
Qed.

(** What the [complete_*] functions make of a task and its tool call. *)
Definition call_completed (c : ToolCall) (s : ToolCallStatus.t) (now : Z) : ToolCall :=
  tc_set_status s (tc_set_completed (Some now) c).
Definition task_completed (t : Task) (c : ToolCall) (s : TaskStatus.t) (now : Z) : Task :=
  task_set_status s (task_set_completed (Some now) (task_set_tool_call (Some c) t)).

Lemma not_running_updated t s : s <> TaskStatus.RUNNING -> task_updated t s = task_set_status s t.
Proof. intros Hs. unfold task_updated, starts_attempt. by rewrite bool_decide_false. Qed.
Lemma not_running_tc_updated c s : s <> ToolCallStatus.RUNNING -> tc_updated c s = tc_set_status s c.
Proof. intros Hs. unfold tc_updated, starts_call. by rewrite bool_decide_false. Qed.
Lemma not_running_no_attempt cur s : s <> TaskStatus.RUNNING -> starts_attempt cur s = false.
Proof. intros Hs. unfold starts_attempt. by rewrite bool_decide_false. Qed.

Lemma valid_call_completed c s now : valid_tool_call c ->
  valid_tool_call (call_completed c s now) <->
  timestamps_ok (tc_created_at_ms c) (tc_started_at_ms c) (Some now).
Proof. intros []. split; [by intros []|]. by intros; split. Qed.

Lemma valid_task_completed t c s now : valid_task t -> valid_tool_call c ->
  valid_task (task_completed t c s now) <->
  timestamps_ok (created_at_ms t) (started_at_ms t) (Some now).
Proof.
  intros [] Hc. split; [by intros []|]. intros; split; cbn; try done. by intros ? [= <-].
Qed.

Lemma complete_with_iff ts tk t c now s' :
  valid_task t -> valid_tool_call c -> ts <> ToolCallStatus.RUNNING -> tk <> TaskStatus.RUNNING ->
  let c' := call_completed c ts now in
  let t' := task_completed t c' tk now in
  complete_with ts tk t c now = Ok s' <->
  (ts ∈ TOOL_CALL_ALLOWED_TRANSITIONS (tc_status c) /\ tk ∈ TASK_ALLOWED_TRANSITIONS (status t) /\
   timestamps_ok (tc_created_at_ms c) (tc_started_at_ms c) (Some now) /\
   timestamps_ok (created_at_ms t) (started_at_ms t) (Some now) /\
   tool_call_consistent c' /\ task_consistent t') /\ s' = mkExecutionState t' c'.
Proof.
  intros Ht Hc Hts Htk c' t'. unfold complete_with. rewrite res_bind_Ok.
  setoid_rewrite transition_tool_call_iff; [|auto with py].
  setoid_rewrite not_running_tc_updated; [|done]. setoid_rewrite res_bind_Ok. split.
  - intros (? & (Hin & -> & Hv & Hcc) & t1 & H & [= <-]).
    apply transition_task_iff in H as (Hin' & _ & -> & Hv' & Htc); [|auto with py].
    rewrite not_running_updated in * by done.
    apply valid_call_completed in Hv as Hv2; [|done]. apply valid_task_completed in Hv'; done.
  - intros ((Hin & Hin' & Htc & Htt & Hcc & Hct) & ->). exists c'.
    assert (valid_tool_call c') by by apply valid_call_completed.
    split; [done|]. exists t'. split; [|done].
    apply transition_task_iff; [auto with py|].
    rewrite not_running_updated, not_running_no_attempt by done.
    split; [done|]. split; [done|]. split; [done|]. split; [|done]. by apply valid_task_completed.
Qed.

(** *** Executions *)
Lemma transition_task_pair t c s t' : normal_task t -> tool_call t = Some c -> tool_call_consistent c ->
  transition_task t s = Ok t' -> exec_ok (mkExecutionState t' c).
Proof.
  intros Hn Hl Hc H. apply transition_task_iff in H as (_ & _ & -> & Hv & Ht); [|done].
  split; try done. cbn. by rewrite tool_call_updated.
Qed.

Lemma complete_with_ok ts tk s now s' : exec_ok s ->
  complete_with ts tk (es_task s) (es_tool_call s) now = Ok s' -> exec_ok s'.
Proof.
  intros Hs (c' & Hc & (t' & Ht & [= <-])%res_bind_Ok)%res_bind_Ok.
  pose proof (exec_ok_call _ Hs) as Hv. destruct Hs.
  apply transition_tool_call_iff in Hc as (_ & _ & Hc' & Hcc); [|auto with py].
  refine (transition_task_pair _ _ _ _ _ _ _ Ht); [auto with py|done|done].
Qed.

Lemma start_execution_ok s now s' : exec_ok s ->
  start_execution (es_task s) (es_tool_call s) now = Ok s' -> exec_ok s'.
Proof.
  intros Hs (c' & Hc & (t' & Ht & [= <-])%res_bind_Ok)%res_bind_Ok.
  pose proof (exec_ok_call _ Hs) as Hv. destruct Hs.
  apply transition_tool_call_iff in Hc as (_ & _ & Hc' & Hcc); [|auto with py].
  refine (transition_task_pair _ _ _ _ _ _ _ Ht); [auto with py|done|done].
Qed.

Lemma exec_run_ok o s s' : exec_ok s -> exec_run o s = Ok s' -> exec_ok s'.
Proof.
  destruct s as [t c]. intros Hs. pose proof (exec_ok_call _ Hs) as Hv.
  destruct o; cbn [exec_run]; intros H;
    try (by apply (complete_with_ok _ _ _ _ _ Hs H)); try (by apply (start_execution_ok _ _ _ Hs H));
    apply res_bind_Ok in H as (t' & Ht & [= <-]); destruct Hs; cbn [es_task es_tool_call] in *;
    refine (transition_task_pair _ _ _ _ _ _ _ Ht); auto with py.
Qed.

Lemma exec_step_ok o s : exec_ok s -> exec_ok (exec_step o s).
Proof. intros Hs. unfold exec_step. destruct (exec_run o s) eqn:E; [|done]. by eapply exec_run_ok. Qed.

(** A bare transition cannot start an attempt: the embedded tool call is not running. *)
Lemma transition_never_starts t c t' : exec_ok (mkExecutionState t c) ->
  transition_task t TaskStatus.RUNNING <> Ok t'.
Proof.
  intros [Hv Hl Hc _] H. cbn in *. apply transition_task_iff in H as (Hin & _ & -> & _ & Ht); [|auto with py].
  apply to_running in Hin as Hs. apply starts_attempt_running in Hs.
  unfold task_updated in Ht. apply to_running in Hin. rewrite Hin in Ht.
  unfold task_consistent, with_call, was_attempted in *. cbn in Ht. rewrite Hl in *.
  destruct (status t); cbn in *; try done; intuition congruence.
Qed.

(** Characterise a [complete_*] call in a hypothesis. *)
Ltac complete_inv E :=
  lazymatch type of E with
  | complete_with _ _ _ _ _ = _ => apply complete_with_iff in E; [|done..]
  | _ => unfold complete_succeeded, complete_failed, complete_denied, complete_canceled in E;
      lazymatch type of E with
      | complete_with _ _ _ _ _ = _ => apply complete_with_iff in E; [|done..]
      end
  end.

(** Does the operation start an attempt in the state [s]? *)
Definition started (o : exec_op) (s : ExecutionState) : Z :=
  match o with OpStart _ => if is_ok (exec_run o s) then 1 else 0 | _ => 0 end.

Lemma task_updated_attempts t s : s <> TaskStatus.RUNNING ->
  attempts (task_updated t s) = attempts t.
Proof. intros. by rewrite not_running_updated. Qed.

Lemma task_updated_max t s : max_attempts (task_updated t s) = max_attempts t.
Proof. unfold task_updated. by destruct (starts_attempt _ _). Qed.

Lemma exec_step_attempts o s : exec_ok s ->
  attempts (es_task (exec_step o s)) = attempts (es_task s) + started o s /\
  max_attempts (es_task (exec_step o s)) = max_attempts (es_task s).
Proof.
  intros Hs. unfold exec_step. destruct (exec_run o s) as [s'|e] eqn:E.
  2: { unfold started. rewrite E. cbn. destruct o; cbn; lia. }
  pose proof (exec_ok_call _ Hs) as Hc. pose proof (ok_task _ Hs) as Ht. destruct s as [t c]; cbn in *.
  destruct o; cbn [started exec_run] in *; rewrite ?Z.add_0_r;
    try (complete_inv E; destruct E as [_ ->]; done).
  - rewrite E. apply start_execution_iff in E as [_ ->]; done.
  - apply res_bind_Ok in E as (t' & H & [= <-]). apply transition_task_iff in H as (_ & _ & -> & _); [|auto with py].
    cbn. by rewrite task_updated_attempts, task_updated_max.
  - apply res_bind_Ok in E as (t' & H & [= <-]). cbn.
    destruct (decide (target = TaskStatus.RUNNING)) as [->|Hn]; [by apply (transition_never_starts _ c) in H|].
    apply transition_task_iff in H as (_ & _ & -> & _); [|auto with py].
    by rewrite task_updated_attempts, task_updated_max.
Qed.

(** A history: the operations attempted one after the other. *)
Fixpoint exec_all (os : list exec_op) (s : ExecutionState) : ExecutionState :=
  match os with [] => s | o :: os' => exec_all os' (exec_step o s) end.
Fixpoint starts (os : list exec_op) (s : ExecutionState) : Z :=
  match os with [] => 0 | o :: os' => started o s + starts os' (exec_step o s) end.

Lemma exec_all_ok os s : exec_ok s -> exec_ok (exec_all os s).
Proof. revert s. induction os as [|o os IH]; cbn; auto using exec_step_ok. Qed.

(** Once a status is final, only archiving is possible. *)
Definition final (t : Task) : Prop :=
  status t ∈ [TaskStatus.SUCCEEDED; TaskStatus.CANCELED; TaskStatus.ARCHIVED].

Lemma final_targets t s : final t -> s ∈ TASK_ALLOWED_TRANSITIONS (status t) -> s = TaskStatus.ARCHIVED.
Proof. unfold final. destruct (status t); cbn; set_solver. Qed.

Lemma final_step o s : exec_ok s -> final (es_task s) ->
  exec_step o s = s \/
  exec_step o s = mkExecutionState (task_set_status TaskStatus.ARCHIVED (es_task s)) (es_tool_call s).
Proof.
  intros Hs Hf. pose proof (exec_ok_call _ Hs) as Hc. pose proof (ok_task _ Hs) as Ht.
  destruct s as [t c]; cbn [es_task es_tool_call] in *. unfold exec_step.
  destruct (exec_run o _) as [s'|e] eqn:E; [|by left].
  destruct o; cbn [exec_run] in E; try (complete_inv E; destruct E as [(_ & Hin & _) _];
    by apply final_targets in Hin).
  - apply start_execution_iff in E as [(Hin & _) _]; [|done..]. unfold final in Hf.
    destruct (status t); set_solver.
  - apply res_bind_Ok in E as (t' & H & _).
    apply transition_task_iff in H as (Hin & _); [|auto with py].
    by apply final_targets in Hin.
  - apply res_bind_Ok in E as (t' & H & [= <-]). right.
    apply transition_task_iff in H as (Hin & _ & -> & _); [|auto with py].
    apply final_targets in Hin as ->; [|done]. by rewrite not_running_updated.
Qed.

(** ** Sample records, used by the witnesses *)
Definition sample_uuid (c : string) : string := "00000000-0000-4000-8000-00000000000" +:+ c.

Definition sample_call : ToolCall :=
  mkToolCall (sample_uuid "a") "fs.write" [("path", JStr "out.txt")] "fs.write" "key-1"
    ToolCallStatus.PENDING 1000 None None None.

Definition sample_task : Task :=
  mkTask (sample_uuid "b") (sample_uuid "c") "write" TaskStatus.QUEUED (Some sample_call)
    0 2 60 [] 1000 None None ["a"] [].

Definition sample_state : ExecutionState := mkExecutionState sample_task sample_call.

Lemma sample_call_valid : valid_tool_call sample_call.
Proof. apply (ToolCall_model_validate_valid sample_call). by vm_compute. Qed.
Lemma sample_task_valid : valid_task sample_task.
Proof. apply (Task_model_validate_valid sample_task). by vm_compute. Qed.

Lemma sample_state_ok : exec_ok sample_state.
Proof. split; [apply sample_task_valid|done|done|done]. Qed.

(** ** Properties *)

(** C22: whatever sequence of [start_execution], [mark_waiting_approval],
    [complete_*] and [transition_task] calls is attempted on a task and its tool
    call, with any clock values, the records held by the caller stay valid,
    satisfy the invariants of their status, and stay linked. *)
Theorem lifecycle_invariant os s : exec_ok s -> exec_ok (exec_all os s).
Proof. apply exec_all_ok. Qed.

Lemma lifecycle_invariant_witness :
  exec_ok (exec_all [OpStart 1005; OpFail 1010; OpStart 900; OpStart 1020; OpSucceed 1030] sample_state).
Proof. apply (lifecycle_invariant _ sample_state). apply sample_state_ok. Defined.

(** C13: over any history the attempt counter counts exactly the calls of
    [start_execution] that returned, so no history starts a task more often
    than [max_attempts] allows. *)
Theorem attempts_bounded os s : exec_ok s ->
  attempts (es_task (exec_all os s)) = attempts (es_task s) + starts os s /\
  attempts (es_task s) + starts os s <= max_attempts (es_task s).
Proof.
  intros Hs.
  assert (attempts (es_task (exec_all os s)) = attempts (es_task s) + starts os s /\
    max_attempts (es_task (exec_all os s)) = max_attempts (es_task s)) as [Ha Hm].
  { revert s Hs. induction os as [|o os IH]; intros s Hs; cbn; [lia|].
    destruct (IH (exec_step o s) (exec_step_ok _ _ Hs)). destruct (exec_step_attempts o s Hs). lia. }
  pose proof (vt_attempts _ (ok_task _ (exec_all_ok os s Hs))). lia.
Qed.

Lemma attempts_bounded_witness :
  starts [OpStart 1005; OpFail 1010; OpStart 1020; OpFail 1030; OpStart 1040] sample_state = 2 /\
  0 + starts [OpStart 1005; OpFail 1010; OpStart 1020; OpFail 1030; OpStart 1040] sample_state <= 2.
Proof.
  split; [by vm_compute|].
  apply (attempts_bounded [OpStart 1005; OpFail 1010; OpStart 1020; OpFail 1030; OpStart 1040] sample_state).
  apply sample_state_ok.
Defined.

(** [start_execution] on a valid task and tool call succeeds exactly for a
    pending, queued or failed task with a pending or failed tool call, an
    attempt left, and a clock not before either creation time; it then returns
    both records running from [now_ms], the attempt counted. *)
Theorem start_execution_spec t c now s' : valid_task t -> valid_tool_call c ->
  start_execution t c now = Ok s' <->
  (status t ∈ [TaskStatus.PENDING; TaskStatus.QUEUED; TaskStatus.FAILED] /\
   tc_status c ∈ [ToolCallStatus.PENDING; ToolCallStatus.FAILED] /\
   attempts t < max_attempts t /\ created_at_ms t <= now /\ tc_created_at_ms c <= now) /\
  s' = mkExecutionState (task_running t (call_running c now) now) (call_running c now).
Proof. apply start_execution_iff. Qed.

Lemma start_execution_spec_witness :
  start_execution sample_task sample_call 1005 =
  Ok (mkExecutionState (task_running sample_task (call_running sample_call 1005) 1005)
        (call_running sample_call 1005)).
Proof.
  apply (start_execution_spec sample_task sample_call 1005);
    [apply sample_task_valid|apply sample_call_valid|].
  split; [|done]. cbn. split; [set_solver|]. split; [set_solver|]. lia.
Defined.

Lemma running_call s : exec_ok s -> status (es_task s) = TaskStatus.RUNNING ->
  tc_status (es_tool_call s) = ToolCallStatus.RUNNING /\ was_attempted (es_task s).
Proof. intros [_ Hl Hc _] Hr. unfold task_consistent, with_call in Hc. rewrite Hr, Hl in Hc. tauto. Qed.

(** The clock reading [now] is not before [v], when [v] is set. *)
Definition not_before (v : option Z) (now : Z) : Prop := forall s, v = Some s -> s <= now.

Lemma timestamps_complete cr st o now : timestamps_ok cr st o -> st <> None ->
  not_before st now -> timestamps_ok cr st (Some now).
Proof.
  destruct st as [v|]; [|done]. intros H%timestamps_started _ Hn. specialize (Hn v eq_refl).
  split_and!; intros; simplify_eq; lia.
Qed.

Lemma complete_running_iff (good : bool) s now s' : exec_ok s ->
  let ts := if good then ToolCallStatus.SUCCEEDED else ToolCallStatus.FAILED in
  let tk := if good then TaskStatus.SUCCEEDED else TaskStatus.FAILED in
  let c' := call_completed (es_tool_call s) ts now in
  complete_with ts tk (es_task s) (es_tool_call s) now = Ok s' <->
  status (es_task s) = TaskStatus.RUNNING /\
  not_before (started_at_ms (es_task s)) now /\ not_before (tc_started_at_ms (es_tool_call s)) now /\
  s' = mkExecutionState (task_completed (es_task s) c' tk now) c'.
Proof.
  intros Hs ts tk c'. pose proof (exec_ok_call _ Hs) as Hc.
  rewrite complete_with_iff; [|by apply Hs|done|by destruct good..]. fold c'. split.
  - intros ((_ & Hin & (_ & _ & H1) & (_ & _ & H2) & _) & ->). split_and!; [| | |done].
    + unfold tk in Hin. destruct (status (es_task s)), good; cbn in Hin; set_solver.
    + intros v Hv. by apply (H2 v).
    + intros v Hv. by apply (H1 v).
  - intros (Hr & Ht & Htc & ->). destruct (running_call s Hs Hr) as [Hcr [Hst Hat]].
    pose proof (ok_call_consistent _ Hs) as Hcc. unfold tool_call_consistent in Hcc. rewrite Hcr in Hcc.
    split; [|done]. split_and!.
    + rewrite Hcr. unfold ts. destruct good; cbn; set_solver.
    + rewrite Hr. unfold tk. destruct good; cbn; set_solver.
    + eapply timestamps_complete; [apply (vtc_times _ Hc)|apply Hcc|done].
    + eapply timestamps_complete; [apply (vt_times _ (ok_task _ Hs))|done|done].
    + unfold tool_call_consistent, c', ts. destruct good; cbn; by split; [apply Hcc|].
    + unfold task_consistent, tk, with_call, was_attempted, c', ts. destruct good; cbn; split_and!; done.
Qed.

(** on consistent records [complete_succeeded] succeeds exactly while the
    task runs and the clock is not before the two start times; both records are
    then completed at [now_ms] and nothing else of them changes. *)
Theorem complete_succeeded_spec s now s' : exec_ok s ->
  complete_succeeded (es_task s) (es_tool_call s) now = Ok s' <->
  status (es_task s) = TaskStatus.RUNNING /\
  not_before (started_at_ms (es_task s)) now /\ not_before (tc_started_at_ms (es_tool_call s)) now /\
  s' = mkExecutionState
         (task_completed (es_task s) (call_completed (es_tool_call s) ToolCallStatus.SUCCEEDED now)
            TaskStatus.SUCCEEDED now)
         (call_completed (es_tool_call s) ToolCallStatus.SUCCEEDED now).
Proof. apply (complete_running_iff true). Qed.

Lemma complete_succeeded_spec_witness : exists s',
  complete_succeeded (es_task (exec_step (OpStart 1005) sample_state))
    (es_tool_call (exec_step (OpStart 1005) sample_state)) 1005 = Ok s'.
Proof.
  eexists. apply (complete_succeeded_spec (exec_step (OpStart 1005) sample_state) 1005).
  - apply exec_step_ok, sample_state_ok.
  - split_and!; [by vm_compute| | |reflexivity]; vm_compute; intros ? [= <-]; done.
Defined.

(** a succeeded, canceled or archived task stays final: no sequence of
    operations changes its tool call or any field of it but the status, which
    may become archived. *)
Theorem final_is_final os s : exec_ok s -> final (es_task s) ->
  es_tool_call (exec_all os s) = es_tool_call s /\
  (es_task (exec_all os s) = es_task s \/
   es_task (exec_all os s) = task_set_status TaskStatus.ARCHIVED (es_task s)).
Proof.
  intros Hs Hf. revert s Hs Hf. induction os as [|o os IH]; intros s Hs Hf; cbn; [by split; [|left]|].
  assert (exec_ok (exec_step o s)) as Hs' by by apply exec_step_ok.
  destruct (final_step o s Hs Hf) as [He|He].
  - rewrite He. by apply IH.
  - destruct (IH (exec_step o s)) as [H1 H2]; [done|rewrite He; unfold final; cbn; set_solver|].
    rewrite H1. rewrite He in H2 |- *. split; [done|]. right. by destruct H2 as [-> | ->].
Qed.

Lemma final_is_final_witness :
  let s := exec_all [OpStart 1005; OpSucceed 1010] sample_state in
  es_tool_call (exec_all [OpStart 1020; OpTransition TaskStatus.ARCHIVED; OpCancel 1030] s) = es_tool_call s.
Proof.
  apply (final_is_final [OpStart 1020; OpTransition TaskStatus.ARCHIVED; OpCancel 1030]
           (exec_all [OpStart 1005; OpSucceed 1010] sample_state)).
  - apply exec_all_ok, sample_state_ok.
  - vm_compute. by left.
Defined.

(** A task that asked for approval while its tool call was running. *)
Definition suspended (s : ExecutionState) : Prop :=
  status (es_task s) = TaskStatus.WAITING_APPROVAL /\
  tc_status (es_tool_call s) = ToolCallStatus.RUNNING.

Lemma suspended_step o s : exec_ok s -> suspended s ->
  exec_step o s = s \/ status (es_task (exec_step o s)) = TaskStatus.CANCELED.
Proof.
  intros Hs [Hw Hr]. pose proof (exec_ok_call _ Hs) as Hc. pose proof (ok_task _ Hs) as Ht.
  destruct s as [t c]; cbn [es_task es_tool_call] in *. unfold exec_step.
  destruct (exec_run o _) as [s'|e] eqn:E; [|by left].
  destruct o; cbn [exec_run] in E;
    try (complete_inv E; destruct E as [(Hin1 & Hin2 & _) ->];
         rewrite Hw in Hin2; rewrite Hr in Hin1; cbn in *; first [by right|set_solver]).
  - apply start_execution_iff in E as [(Hin & _) _]; [|done..]. rewrite Hw in Hin. set_solver.
  - apply res_bind_Ok in E as (t' & H & _). apply transition_task_iff in H as (Hin & _); [|auto with py].
    cbn in Hin. rewrite Hw in Hin. cbn in Hin. set_solver.
  - apply res_bind_Ok in E as (t' & H & [= <-]).
    apply transition_task_iff in H as (Hin & _ & -> & _ & Hcs); [|auto with py].
    rewrite Hw in Hin. unfold task_consistent, with_call in Hcs. pose proof (ok_link _ Hs) as Hl. cbn in Hl. rewrite tool_call_updated, Hl in Hcs.
    cbn in Hin, Hcs. apply elem_of_cons in Hin as [->|Hin]; [|right; set_solver].
    rewrite not_running_updated in Hcs by done. cbn in Hcs. intuition congruence.
Qed.

(** a task suspended for approval while its tool call runs can never be
    queued or run again: whatever is attempted, it stays as it is until it is
    canceled (and possibly archived). *)
Theorem suspended_is_dead_end os s : exec_ok s -> suspended s ->
  exec_all os s = s \/
  status (es_task (exec_all os s)) ∈ [TaskStatus.CANCELED; TaskStatus.ARCHIVED].
Proof.
  intros Hs Hw. revert s Hs Hw.
  assert (forall os s, exec_ok s -> status (es_task s) ∈ [TaskStatus.CANCELED; TaskStatus.ARCHIVED] ->
    status (es_task (exec_all os s)) ∈ [TaskStatus.CANCELED; TaskStatus.ARCHIVED]) as Hfin.
  { clear. intros os. induction os as [|o os IH]; intros s Hs Hf; [done|]. cbn.
    apply IH; [by apply exec_step_ok|].
    destruct (final_step o s Hs) as [->| ->]; [unfold final; set_solver|done|cbn; set_solver]. }
  induction os as [|o os IH]; intros s Hs Hw; cbn; [by left|].
  destruct (suspended_step o s Hs Hw) as [He|He]; [rewrite He; by apply IH|].
  right. apply Hfin; [by apply exec_step_ok|]. rewrite He. set_solver.
Qed.

Lemma suspended_is_dead_end_witness :
  let s := exec_all [OpStart 1005; OpWait] sample_state in
  suspended s /\
  (exec_all [OpTransition TaskStatus.QUEUED] s = s \/
   status (es_task (exec_all [OpTransition TaskStatus.QUEUED] s)) ∈ [TaskStatus.CANCELED; TaskStatus.ARCHIVED]).
Proof.
  assert (suspended (exec_all [OpStart 1005; OpWait] sample_state)) as H by by vm_compute.
  split; [exact H|]. apply suspended_is_dead_end; [apply exec_all_ok, sample_state_ok|exact H].
Defined.
