(* ===== verification/Envelope.v ===== *)
(** * Queue items: [orchestrator/queue/task_envelope.py], [interface.py] and
    the correlation ids of [observer.py]

    [TaskEnvelope] and [Lease] with their validators, and the specification
    that both in-memory task queues implement. The specification describes a
    queue by a map from envelope ids to items; [QueueLaws] states, operation by
    operation, the invariants documented in [orchestrator/queue/semantics.py]
    as equations between such maps. *)

From Stdlib Require Import ZArith SpecFloat Lia.
From S2P Require Import Prelude PyFloat Uuid Models.

(** ** [TaskEnvelope] *)
Record TaskEnvelope := mkTaskEnvelope {
  envelope_id : string;
  env_task_id : string;
  env_run_id : string;
  attempt : Z;
  env_created_at_ms : Z;
  env_available_at_ms : Z;
  priority : option Z;
  correlation_ids : option (list (string * option string));
  trace : option (list (string * json));
  payload : option (list (string * json));
}.

(** The keyword arguments of the constructor; a field left out is [None]. *)
Record envelope_input := {
  in_envelope_id : id_input;
  in_task_id : id_input;
  in_run_id : id_input;
  in_attempt : Z;
  in_created_at_ms : option Z;
  in_available_at_ms : option Z;
  in_priority : option Z;
  in_correlation_ids : option (list (string * option string));
  in_trace : option (list (string * json));
  in_payload : option (list (string * json));
}.

(** [_populate_default_timestamps]: the creation time and the availability
    after defaulting; [now_ms] is [int(time.time() * 1000)]. *)
Definition populate_default_timestamps (now_ms : Z) (created available : option Z) : Z * Z :=
  let created_at_ms := default now_ms created in
  (created_at_ms, default created_at_ms available).

Definition validate_priority (value : option Z) : res (option Z) :=
  match value with
  | None => Ok None
  | Some v => if v <? 0 then Raise (ValueError "priority must be >= 0") else Ok (Some v)
  end.

Fixpoint normalize_correlation_ids (items normalized : list (string * option string))
  : res (list (string * option string)) :=
  match items with
  | [] => Ok normalized
  | (key, raw) :: rest =>
      if is_empty (strip key) then Raise (ValueError "correlation_ids keys must be non-empty")
      else
        let normalized_value := match raw with None => None | Some r => strip_or_none r end in
        normalize_correlation_ids rest (aset (strip key) normalized_value normalized)
  end.

Definition validate_correlation_ids (value : option (list (string * option string)))
  : res (option (list (string * option string))) :=
  match value with
  | None => Ok None
  | Some items => n ← normalize_correlation_ids items []; Ok (Some n)
  end.

Definition validate_optional_json_dict (field_name : string) (value : option (list (string * json)))
  : res (option (list (string * json))) :=
  match value with
  | None => Ok None
  | Some d => if jsonable (JObj d) then Ok (Some d)
              else Raise (ValueError (field_name +:+ " must be JSON-serializable"))
  end.

Definition validate_timestamp_order (e : TaskEnvelope) : res unit :=
  raise_if (env_available_at_ms e <? env_created_at_ms e)
    (ValueError "available_at_ms must be >= created_at_ms").

(** The constructor [TaskEnvelope(...)]; [fresh] is what [str(uuid4())] returns. *)
Definition TaskEnvelope_validate (fresh : string) (now_ms : Z) (i : envelope_input) : res TaskEnvelope :=
  let '(created, available) := populate_default_timestamps now_ms (in_created_at_ms i) (in_available_at_ms i) in
  run (after validate_timestamp_order
    (VOk mkTaskEnvelope
     <*> field "envelope_id" (validate_generated_id "envelope_id" fresh (in_envelope_id i))
     <*> field "task_id" (validate_required_id "task_id" (in_task_id i))
     <*> field "run_id" (validate_required_id "run_id" (in_run_id i))
     <*> field "attempt" (non_negative_int "attempt" (in_attempt i))
     <*> field "created_at_ms" (non_negative_int "created_at_ms" created)
     <*> field "available_at_ms" (non_negative_int "available_at_ms" available)
     <*> field "priority" (validate_priority (in_priority i))
     <*> field "correlation_ids" (validate_correlation_ids (in_correlation_ids i))
     <*> field "trace" (validate_optional_json_dict "trace" (in_trace i))
     <*> field "payload" (validate_optional_json_dict "payload" (in_payload i)))%py).

(** [is_available] *)
Definition is_available (now_ms : Z) (e : TaskEnvelope) : bool := env_available_at_ms e <=? now_ms.

(** [model_copy(update={"attempt": a, "available_at_ms": v})] *)
Definition env_copy (a v : Z) (e : TaskEnvelope) : TaskEnvelope :=
  mkTaskEnvelope (envelope_id e) (env_task_id e) (env_run_id e) a (env_created_at_ms e) v
    (priority e) (correlation_ids e) (trace e) (payload e).
Definition env_set_available (v : Z) (e : TaskEnvelope) : TaskEnvelope := env_copy (attempt e) v e.

(** [build_queue_correlation_ids] *)
Definition build_queue_correlation_ids (e : TaskEnvelope) : list (string * option string) :=
  aset "run_id" (Some (env_run_id e))
    (aset "task_id" (Some (env_task_id e))
      (aset "envelope_id" (Some (envelope_id e)) (default [] (correlation_ids e)))).

(** ** [Lease] *)
Record Lease := mkLease {
  lease_id : string;
  lease_envelope : TaskEnvelope;
  leased_at_ms : Z;
  visibility_timeout_s : spec_float;
  lease_attempt : Z;
}.

Definition validate_lease_id (fresh : string) (value : id_input) : res string :=
  match value with
  | IdNone => Ok fresh
  | IdUUID n => if decide (uuid_version n = Some 4) then Ok (uuid_str n)
                else Raise (ValueError "lease_id UUIDs must be UUID4")
  | IdStr s =>
      if is_empty (strip s) then Raise (ValueError "lease_id must be non-empty")
      else match uuid_parse (strip s) with
           | Raise _ => Ok (strip s)
           | Ok n => if decide (uuid_version n = Some 4) then Ok (uuid_str n)
                     else Raise (ValueError "lease_id UUID strings must be UUID4")
           end
  | IdOther => Raise (TypeError "lease_id must be a string or UUID")
  end.

Definition validate_visibility_timeout_s (value : spec_float) : res spec_float :=
  if negb (isfinite value) || fle value fzero
  then Raise (ValueError "visibility_timeout_s must be finite and > 0") else Ok value.

Definition validate_attempt_matches_envelope (l : Lease) : res unit :=
  raise_if (negb (lease_attempt l =? attempt (lease_envelope l)))
    (ValueError "attempt must mirror envelope.attempt").

(** The constructor [Lease(...)] with a string id. *)
Definition Lease_validate (l : Lease) : res Lease :=
  run (after validate_attempt_matches_envelope
    (VOk mkLease
     <*> field "lease_id" (validate_lease_id "" (IdStr (lease_id l)))
     <*> VOk (lease_envelope l)
     <*> field "leased_at_ms" (non_negative_int "leased_at_ms" (leased_at_ms l))
     <*> field "visibility_timeout_s" (validate_visibility_timeout_s (visibility_timeout_s l))
     <*> field "attempt" (non_negative_int "attempt" (lease_attempt l)))%py).

(** [int(seconds * 1000)] *)
Definition ms_of_s (seconds : spec_float) : res Z := int_of_float (fmul seconds (of_Z 1000)).

(** [is_expired] *)
Definition is_expired (now_ms : Z) (l : Lease) : res bool :=
  timeout ← ms_of_s (visibility_timeout_s l); Ok (leased_at_ms l + timeout <=? now_ms).

(** ** Lemmas on validation *)
Lemma ms_of_s_nonneg v ms : fle fzero v = true -> ms_of_s v = Ok ms -> 0 <= ms.
Proof.
  intros H%fnonneg_iff. unfold ms_of_s. destruct v as [[]|[]| |[] m e]; try done;
    try (cbn; intros E; injection E as <-; lia).
  change (fmul _ _) with
    (SpecFloat.binary_round_aux prec emax false (Zpos (m * 8796093022208000)) (e + -43) loc_Exact).
  pose proof (binary_round_aux_sign false (Zpos (m * 8796093022208000)) (e + -43) ltac:(lia)) as Hs.
  destruct (SpecFloat.binary_round_aux _ _ _ _ _ _) as [[]|[]| |[] m' e']; try done;
    intros E; injection E as <-; cbn; try lia. apply Z.shiftl_nonneg. lia.
Qed.

Lemma validate_lease_id_uuid fresh s : is_uuid4_str s = true -> validate_lease_id fresh (IdStr s) = Ok s.
Proof.
  intros Hs. destruct (strip_uuid4_str s Hs) as [H1 H2]. cbn. rewrite H1, H2.
  apply is_uuid4_str_inv in Hs as (n & -> & Hv & <-). by rewrite decide_True.
Qed.

(** What the constructor of [Lease] accepts from a queue. *)
Lemma Lease_validate_ok f env now vt a :
  is_uuid4_str f = true -> 0 <= now -> isfinite vt = true -> fle vt fzero = false ->
  0 <= a -> attempt env = a ->
  Lease_validate (mkLease f env now vt a) = Ok (mkLease f env now vt a).
Proof.
  intros Hf Hn Hfin Hpos Ha He. unfold Lease_validate.
  cbn [lease_id lease_envelope leased_at_ms visibility_timeout_s lease_attempt].
  rewrite validate_lease_id_uuid, !non_negative_int_fix by done.
  apply run_Ok, after_VOk. split; [|by apply raise_if_Ok; cbn; rewrite He, Z.eqb_refl].
  unfold validate_visibility_timeout_s. by rewrite Hfin, Hpos.
Qed.
