(* ===== verification/Budgets.v ===== *)
(** * Budgets of a run: [orchestrator/budgets.py]

    The limits, and the tracker that counts what a run was granted and watches
    its deadline on the monotonic clock. The results: what was granted never
    exceeds a limit, whatever the sequence of requests, and a request is granted
    exactly if it is positive, in time and within the limit. *)

From Stdlib Require Import ZArith SpecFloat Lia.
From S2P Require Import Prelude PyFloat Models Envelope.

Record BudgetLimits := mkBudgetLimits {
  max_tasks_per_run : option Z;
  max_tool_calls_per_run : option Z;
  max_tokens_per_run : option Z;
  max_wall_time_s : option spec_float;
  max_events_per_planning_cycle : option Z;
  max_backlog_events : option Z;
}.

Definition validate_optional_positive_int (field_name : string) (value : option Z) : res unit :=
  match value with
  | None => Ok tt
  | Some v => raise_if (v <=? 0) (ValueError (field_name +:+ " must be > 0"))
  end.

(** [__post_init__] *)
Definition BudgetLimits_new (l : BudgetLimits) : res BudgetLimits :=
  validate_optional_positive_int "max_tasks_per_run" (max_tasks_per_run l);;
  validate_optional_positive_int "max_tool_calls_per_run" (max_tool_calls_per_run l);;
  validate_optional_positive_int "max_tokens_per_run" (max_tokens_per_run l);;
  validate_optional_positive_int "max_events_per_planning_cycle" (max_events_per_planning_cycle l);;
  validate_optional_positive_int "max_backlog_events" (max_backlog_events l);;
  raise_if (match max_wall_time_s l with Some s => fle s fzero | None => false end) (ValueError "max_wall_time_s must be > 0");;
  Ok l.

(** The entry of the audit trail. *)
Definition budget_exceeded_to_audit_dict (message : string) (context : list (string * json)) : list (string * json) :=
  [("type", JStr "budget_exceeded"); ("message", JStr message); ("context", JObj context)].

(** [BudgetExceeded(...)]: its [__post_init__] adds the name of the budget. *)
Definition budget_exceeded (message budget : string) (context : list (string * json)) : exn :=
  BudgetExceeded message budget (if is_set (aget "budget" context) then context else context ++ [("budget", JStr budget)])%list.

Module BudgetTracker.

Record t := mk {
  limits : BudgetLimits;
  tasks_accepted : Z;
  tool_calls_accepted : Z;
  events_seen_in_planning_cycle : Z;
  backlog_events_seen : Z;
  started_monotonic_ms : Z;
  deadline_monotonic_ms : option Z;
  clock_reads : nat;
}.

Inductive kind := TASKS | TOOL_CALLS | PLANNING_EVENTS | BACKLOG_EVENTS.

#[global] Instance kind_eq_dec : EqDecision kind.
Proof. solve_decision. Defined.
Definition kind_name (k : kind) : string :=
  match k with TASKS => "tasks" | TOOL_CALLS => "tool_calls" | PLANNING_EVENTS => "planning_events" | BACKLOG_EVENTS => "backlog_events" end.
Definition budget_name (k : kind) : string :=
  match k with
  | TASKS => "max_tasks_per_run" | TOOL_CALLS => "max_tool_calls_per_run"
  | PLANNING_EVENTS => "max_events_per_planning_cycle" | BACKLOG_EVENTS => "max_backlog_events"
  end.
Definition current (k : kind) (b : t) : Z :=
  match k with
  | TASKS => tasks_accepted b | TOOL_CALLS => tool_calls_accepted b
  | PLANNING_EVENTS => events_seen_in_planning_cycle b | BACKLOG_EVENTS => backlog_events_seen b
  end.
Definition limit (k : kind) (l : BudgetLimits) : option Z :=
  match k with
  | TASKS => max_tasks_per_run l | TOOL_CALLS => max_tool_calls_per_run l
  | PLANNING_EVENTS => max_events_per_planning_cycle l | BACKLOG_EVENTS => max_backlog_events l
  end.
Definition set_current (k : kind) (n : Z) (b : t) : t :=
  match k with
  | TASKS => mk (limits b) n (tool_calls_accepted b) (events_seen_in_planning_cycle b) (backlog_events_seen b) (started_monotonic_ms b) (deadline_monotonic_ms b) (clock_reads b)
  | TOOL_CALLS => mk (limits b) (tasks_accepted b) n (events_seen_in_planning_cycle b) (backlog_events_seen b) (started_monotonic_ms b) (deadline_monotonic_ms b) (clock_reads b)
  | PLANNING_EVENTS => mk (limits b) (tasks_accepted b) (tool_calls_accepted b) n (backlog_events_seen b) (started_monotonic_ms b) (deadline_monotonic_ms b) (clock_reads b)
  | BACKLOG_EVENTS => mk (limits b) (tasks_accepted b) (tool_calls_accepted b) (events_seen_in_planning_cycle b) n (started_monotonic_ms b) (deadline_monotonic_ms b) (clock_reads b)
  end.

Section tracker.
(** [clock.monotonic_ms()], reading by reading *)
Variable monotonic_ms : nat -> Z.

Definition compute_deadline_ms (start_monotonic_ms : Z) (max_wall_time_s : option spec_float) : res (option Z) :=
  match max_wall_time_s with
  | None => Ok None
  | Some s => limit_ms ← ms_of_s s; Ok (Some (start_monotonic_ms + limit_ms))
  end.

(** [__post_init__]; [reads] is how often the clock was read before. *)
Definition new (l : BudgetLimits) (reads : nat) : res t :=
  let start := monotonic_ms reads in
  deadline ← compute_deadline_ms start (max_wall_time_s l);
  Ok (mk l 0 0 0 0 start deadline (S reads)).

Definition check_wall_time : st t unit := fun b =>
  match deadline_monotonic_ms b with
  | None => (Ok tt, b)
  | Some deadline =>
      let now_ms := monotonic_ms (clock_reads b) in
      let b' := mk (limits b) (tasks_accepted b) (tool_calls_accepted b) (events_seen_in_planning_cycle b)
                  (backlog_events_seen b) (started_monotonic_ms b) (deadline_monotonic_ms b) (S (clock_reads b)) in
      (raise_if (negb (now_ms <? deadline))
         (budget_exceeded "wall-time budget exceeded" "max_wall_time_s"
            [("now_monotonic_ms", JInt now_ms); ("deadline_monotonic_ms", JInt deadline);
             ("started_monotonic_ms", JInt (started_monotonic_ms b)); ("elapsed_ms", JInt (now_ms - started_monotonic_ms b));
             ("limit_ms", JInt (deadline - started_monotonic_ms b))]), b')
  end.

Definition accept_count (k : kind) (count : Z) (source : option string) : st t unit :=
  check_wall_time;;
  lift (raise_if (count <=? 0) (ValueError "count must be > 0"));;
  b ← get;
  match limit k (limits b) with
  | None => mret tt
  | Some l =>
      let next_total := current k b + count in
      if next_total <=? l then mret tt
      else throw (budget_exceeded (kind_name k +:+ " budget exceeded") (budget_name k)
             ([("kind", JStr (kind_name k)); ("limit", JInt l); ("current", JInt (current k b)); ("requested", JInt count);
               ("would_be", JInt next_total)] ++ match source with None => [] | Some s => [("source", JStr s)] end)%list)
  end.

(** [accept_tasks], [accept_tool_calls], [observe_planning_events] and
    [observe_backlog_events] *)
Definition accept (k : kind) (count : Z) (source : option string) : st t unit :=
  accept_count k count source;;
  modify (fun b => set_current k (current k b + count) b).

Definition reset_planning_cycle : st t unit := modify (set_current PLANNING_EVENTS 0).

(** ** Bounds *)
Inductive op := Accept (k : kind) (count : Z) (source : option string) | CheckWallTime | Reset.
Definition perform (o : op) (b : t) : t :=
  match o with
  | Accept k n s => (accept k n s b).2
  | CheckWallTime => (check_wall_time b).2
  | Reset => (reset_planning_cycle b).2
  end.

Definition within (l : BudgetLimits) (b : t) : Prop :=
  limits b = l /\ forall k, 0 <= current k b /\ forall m, limit k l = Some m -> current k b <= m.

(** The clock allows a request. *)
Definition in_time (b : t) : Prop := forall d, deadline_monotonic_ms b = Some d -> monotonic_ms (clock_reads b) < d.
Definition fits (k : kind) (n : Z) (b : t) : Prop := 0 < n /\ forall m, limit k (limits b) = Some m -> current k b + n <= m.

Lemma check_wall_time_spec b : exists b', limits b' = limits b /\ (forall k, current k b' = current k b) /\
  deadline_monotonic_ms b' = deadline_monotonic_ms b /\
  (in_time b /\ check_wall_time b = (Ok tt, b') \/ ~ in_time b /\ exists c, check_wall_time b = (Raise (BudgetExceeded "wall-time budget exceeded" "max_wall_time_s" c), b')).
Proof.
  unfold check_wall_time, in_time. destruct (deadline_monotonic_ms b) as [d|] eqn:E.
  - exists (mk (limits b) (tasks_accepted b) (tool_calls_accepted b) (events_seen_in_planning_cycle b)
      (backlog_events_seen b) (started_monotonic_ms b) (deadline_monotonic_ms b) (S (clock_reads b))).
    split_and!; [done|by intros []|by rewrite E|]. cbn zeta. rewrite E. destruct (Z.ltb_spec (monotonic_ms (clock_reads b)) d); [left|right].
    + split; [|done]. by intros d' [= <-].
    + split; [intros Hd; specialize (Hd d eq_refl); lia|]. by eexists.
  - exists b. split_and!; try done. left. by split.
Qed.

Lemma accept_spec k n s b : exists b', limits b' = limits b /\
  (in_time b /\ fits k n b /\ accept k n s b = (Ok tt, b') /\ current k b' = current k b + n /\ (forall k', k' <> k -> current k' b' = current k' b) \/
   ~ (in_time b /\ fits k n b) /\ (exists e, accept k n s b = (Raise e, b')) /\ forall k', current k' b' = current k' b).
Proof.
  destruct (check_wall_time_spec b) as (b1 & Hl & Hc & Hd & [[Ht E]|[Ht [c E]]]).
  2: { exists b1. split; [done|]. right. split; [tauto|]. split; [|done]. unfold accept, accept_count, mbind, st_bind. rewrite E. by eexists. }
  unfold accept, accept_count. unfold mbind, st_bind. rewrite E. cbn.
  destruct (Z.leb_spec n 0); cbn.
  { exists b1. split; [done|]. right. split; [intros [_ [Hn _]]; lia|]. split; [by eexists|done]. }
  rewrite Hl, Hc. destruct (limit k (limits b)) as [m|] eqn:Em; [destruct (Z.leb_spec (current k b + n) m)|]; cbn.
  - exists (set_current k (current k b1 + n) b1). split; [by destruct k|]. left. split; [done|]. split; [split; [done|]; intros ? ?; simplify_eq; done|].
    split; [done|]. rewrite <- Hc. split; [by destruct k|]. intros k' Hk. rewrite <- Hc. by destruct k, k'.
  - exists b1. split; [done|]. right. split; [intros [_ [_ Hm]]; specialize (Hm m Em); lia|]. split; [by eexists|done].
  - exists (set_current k (current k b1 + n) b1). split; [by destruct k|]. left. split; [done|]. split; [split; [done|congruence]|].
    split; [done|]. rewrite <- Hc. split; [by destruct k|]. intros k' Hk. rewrite <- Hc. by destruct k, k'.
Qed.
Definition positive_limit (o : option Z) : Prop := forall m, o = Some m -> 0 < m.
Lemma validate_positive f o u : validate_optional_positive_int f o = Ok u -> positive_limit o.
Proof. destruct o as [v|]; [|done]. cbn. intros Hv%raise_if_Ok m [= ->]. by apply Z.leb_gt in Hv. Qed.
Lemma limits_positive l k : BudgetLimits_new l = Ok l -> positive_limit (limit k l).
Proof. unfold BudgetLimits_new. intros Hl. res_inv. destruct k; by eapply validate_positive. Qed.

Lemma new_within l reads b : BudgetLimits_new l = Ok l -> new l reads = Ok b -> within l b.
Proof.
  intros Hl (d & _ & [= <-])%res_bind_Ok. split; [done|]. intros k. assert (current k (mk l 0 0 0 0 (monotonic_ms reads) d (S reads)) = 0) as ->
    by (by destruct k). split; [done|]. intros m Hm%(limits_positive l k Hl). lia.
Qed.

Lemma perform_within l o b : BudgetLimits_new l = Ok l -> within l b -> within l (perform o b).
Proof.
  intros Hl [Hb Hw]. destruct o as [k n s| |]; cbn [perform].
  - destruct (accept_spec k n s b) as (b' & Hb' & [(Ht & [Hn Hm] & -> & Hk & Ho)|(_ & [e ->] & Hk)]).
    + split; [cbn; congruence|]. intros k'. cbn. destruct (decide (k' = k)) as [->|Hne]; [|rewrite Ho by done; apply Hw].
      rewrite Hk, <- Hb. destruct (Hw k). split; [lia|done].
    + split; [cbn; congruence|]. intros k'. cbn. rewrite Hk. apply Hw.
  - destruct (check_wall_time_spec b) as (b' & Hb' & Hc & _ & [[_ ->]|[_ [c ->]]]); (split; [cbn; congruence|]; intros k; cbn; rewrite Hc; apply Hw).
  - split; [done|]. intros k. destruct (decide (k = PLANNING_EVENTS)) as [->|Hk].
    + cbn. split; [done|]. intros m Hm%(limits_positive l PLANNING_EVENTS Hl). lia.
    + replace (current k _) with (current k b) by (by destruct k). apply Hw.
Qed.

(** no budget is exceeded. From a new tracker, over any sequence of
    requests, deadline checks and resets, every counter stays between 0 and its
    limit; a request is granted exactly if the deadline has not passed, the
    count is positive and the total stays within the limit, and then adds
    exactly the count to its counter and nothing to the others; a refused one
    adds nothing. *)
Theorem budgets_bound l reads b0 ops b k n source :
  BudgetLimits_new l = Ok l -> new l reads = Ok b0 -> steps perform b0 ops b ->
  within l b /\ exists b', within l b' /\
  (in_time b /\ fits k n b /\ accept k n source b = (Ok tt, b') /\ current k b' = current k b + n /\
     (forall k', k' <> k -> current k' b' = current k' b) \/
   ~ (in_time b /\ fits k n b) /\ (exists e, accept k n source b = (Raise e, b')) /\ forall k', current k' b' = current k' b).
Proof.
  intros Hl Hnew Hs. assert (within l b) as Hb.
  { eapply (steps_invariant perform (within l)); [|exact Hs|by eapply new_within]. intros o b1. by apply perform_within. }
  split; [done|]. pose proof (perform_within l (Accept k n source) b Hl Hb) as Hb'. cbn in Hb'.
  destruct (accept_spec k n source b) as (b' & _ & Hcase). exists b'. split; [|exact Hcase].
  destruct Hcase as [(_ & _ & E & _)|(_ & [e E] & _)]; by rewrite E in Hb'.
Qed.
End tracker.
End BudgetTracker.

(** A tracker with three tasks and one second, after two of them. *)
Definition sample_limits : BudgetLimits := mkBudgetLimits (Some 3) None None (Some (of_Z 1)) (Some 1) None.
Lemma budgets_bound_witness :
  let ticks := fun n => Z.of_nat n * 10 in
  exists b0, BudgetTracker.new ticks sample_limits 0 = Ok b0 /\
  let b := foldl (fun b o => BudgetTracker.perform ticks o b) b0 [BudgetTracker.Accept BudgetTracker.TASKS 2 None; BudgetTracker.CheckWallTime] in
  BudgetTracker.within sample_limits b /\ is_ok (BudgetTracker.accept ticks BudgetTracker.TASKS 2 None b).1 = false.
Proof.
  set (ticks := fun n => Z.of_nat n * 10).
  assert (exists b0, BudgetTracker.new ticks sample_limits 0 = Ok b0) as [b0 E0] by (eexists; vm_compute; reflexivity).
  exists b0. split; [exact E0|]. cbv zeta. split.
  - destruct (BudgetTracker.budgets_bound ticks sample_limits 0 b0
      [BudgetTracker.Accept BudgetTracker.TASKS 2 None; BudgetTracker.CheckWallTime] _ BudgetTracker.TASKS 2 None eq_refl E0 (steps_foldl _ _ _)) as [Hw _].
    exact Hw.
  - vm_compute in E0. injection E0 as <-. vm_compute. reflexivity.
Defined.
