(* ===== verification/Suppression.v ===== *)
(** * Event suppression: [orchestrator/event_suppression.py],
    [infra/db/repos/event_suppressions.py], [application/suppressions_service.py]

    The counter per event signature that stops runaway loops, its table, and the
    operator's command that clears a suppression. The result is a refinement:
    whatever the sequence of events and clears, the suppressor answers like one
    small automaton per signature. *)

From Stdlib Require Import ZArith SpecFloat Lia Ascii.
From S2P Require Import Prelude PyFloat PyText Models Serialization Events Envelope.

Record EventSuppressionRecord := mkSuppression {
  signature_hash : string;
  es_event_type : string;
  es_event_source : string;
  signature : list (string * json);
  window_start_ms : Z;
  count : Z;
  es_threshold : Z;
  es_window_ms : Z;
  suppressed_until_ms : option Z;
  resume_required : bool;
  cleared_at_ms : option Z;
  cleared_by : option string;
  cleared_request_id : option string;
  es_created_at_ms : Z;
  es_updated_at_ms : Z;
  expires_at_ms : Z;
}.

(** ** The repository *)
Module SuppressionRepo.
Definition t := list (string * EventSuppressionRecord).

Definition optional_str (o : option string) : option string := match o with None => None | Some s => strip_or_none s end.

Definition validated_record (r : EventSuppressionRecord) : res EventSuppressionRecord :=
  raise_if (is_empty (strip (signature_hash r))) (ValueError "signature_hash must be non-empty");;
  raise_if (is_empty (strip (es_event_type r))) (ValueError "event_type must be non-empty");;
  raise_if (is_empty (strip (es_event_source r))) (ValueError "event_source must be non-empty");;
  raise_if (count r <? 0) (ValueError "count must be >= 0");;
  raise_if (es_threshold r <=? 0) (ValueError "threshold must be > 0");;
  raise_if (es_window_ms r <=? 0) (ValueError "window_ms must be > 0");;
  raise_if (window_start_ms r <? 0) (ValueError "window_start_ms must be >= 0");;
  raise_if (es_created_at_ms r <? 0) (ValueError "created_at_ms must be >= 0");;
  raise_if (es_updated_at_ms r <? es_created_at_ms r) (ValueError "updated_at_ms must be >= created_at_ms");;
  raise_if (expires_at_ms r <? es_updated_at_ms r) (ValueError "expires_at_ms must be >= updated_at_ms");;
  (match suppressed_until_ms r with
   | None => Ok tt
   | Some u =>
       raise_if (u <? es_updated_at_ms r) (ValueError "suppressed_until_ms must be >= updated_at_ms");;
       raise_if (expires_at_ms r <? u) (ValueError "expires_at_ms must be >= suppressed_until_ms")
   end);;
  (match cleared_at_ms r with
   | None => Ok tt
   | Some c =>
       raise_if (c <? es_created_at_ms r) (ValueError "cleared_at_ms must be >= created_at_ms");;
       raise_if (es_updated_at_ms r <? c) (ValueError "cleared_at_ms must be <= updated_at_ms")
   end);;
  Ok (mkSuppression (strip (signature_hash r)) (strip (es_event_type r)) (strip (es_event_source r)) (signature r)
    (window_start_ms r) (count r) (es_threshold r) (es_window_ms r) (suppressed_until_ms r) (resume_required r)
    (cleared_at_ms r) (optional_str (cleared_by r)) (optional_str (cleared_request_id r))
    (es_created_at_ms r) (es_updated_at_ms r) (expires_at_ms r)).

Definition required_hash (h : string) : res string :=
  raise_if (is_empty (strip h)) (ValueError "signature_hash must be non-empty");; Ok (strip h).

Definition get (h : string) : st t (option EventSuppressionRecord) := fun d => (k ← required_hash h; Ok (aget k d), d).

Definition upsert (r : EventSuppressionRecord) : st t EventSuppressionRecord := fun d =>
  match validated_record r with
  | Raise e => (Raise e, d)
  | Ok v => (Ok v, aset (signature_hash v) v d)
  end.

Definition delete (h : string) : st t unit := fun d =>
  match required_hash h with Raise e => (Raise e, d) | Ok k => (Ok tt, adel k d) end.

Definition is_active (now_ms : Z) (r : EventSuppressionRecord) : bool :=
  match suppressed_until_ms r with None => false | Some u => (now_ms <? u) && (now_ms <? expires_at_ms r) end.
Definition count_active (now_ms : Z) (d : t) : Z := Z.of_nat (length (filter (fun p => is_active now_ms p.2 = true) d)).
End SuppressionRepo.

(** [async with uow] around a body on the table. *)
Definition suppression_uow {A} (body : st SuppressionRepo.t A) : st SuppressionRepo.t A := fun d =>
  match body d with (Ok a, d') => (Ok a, d') | (Raise e, _) => (Raise e, d) end.

(** ** The signature *)

Fixpoint follow (current : json) (parts : list string) : option json :=
  match parts with
  | [] => Some current
  | part :: rest =>
      match current with
      | JObj l => match aget part l with Some v => follow v rest | None => None end
      | _ => None
      end
  end.

Fixpoint extract_payload_fields (payload : list (string * json)) (field_paths : list string) (extracted : list (string * json))
  : list (string * json) :=
  match field_paths with
  | [] => extracted
  | raw_path :: rest =>
      let path := strip raw_path in
      if is_empty path then extract_payload_fields payload rest extracted
      else match follow (JObj payload) (split_dots "" path) with
           | None => extract_payload_fields payload rest extracted
           | Some v => extract_payload_fields payload rest (aset path v extracted)
           end
  end.

Example extracts : extract_payload_fields [("a", JObj [("b", JInt 1)]); ("c", JNull)] [" a.b "; "a.x"; "c.d"; ""] [] = [("a.b", JInt 1)].
Proof. reflexivity. Qed.

(** ** The suppressor *)
Record DbEventSuppressor := mkSuppressor {
  signature_fields : list string;
  window_s : spec_float;
  threshold : Z;
  ttl_s : spec_float;
  max_signature_bytes : Z;
}.

(** [__post_init__] *)
Definition DbEventSuppressor_new (c : DbEventSuppressor) : res DbEventSuppressor :=
  raise_if (negb (isfinite (window_s c)) || fle (window_s c) fzero) (ValueError "window_s must be finite and > 0");;
  raise_if (threshold c <=? 0) (ValueError "threshold must be > 0");;
  raise_if (negb (isfinite (ttl_s c)) || fle (ttl_s c) fzero) (ValueError "ttl_s must be finite and > 0");;
  raise_if (max_signature_bytes c <=? 0) (ValueError "max_signature_bytes must be > 0");;
  Ok c.

Section suppressor.
Variable cfg : DbEventSuppressor.
Variable float_repr : spec_float -> string.
Variable sha256_hex : string -> string.
(** [redactor.redact(value, max_bytes=...)] of a dictionary *)
Variable redact : Z -> list (string * json) -> list (string * json).

Definition signature_of (e : Event) : list (string * json) :=
  let base := [("type", JStr (strip (ev_type e))); ("source", JStr (strip (ev_source e)))] in
  redact (max_signature_bytes cfg)
    (match signature_fields cfg with
     | [] => match dedupe_key e with None => base | Some k => base ++ [("dedupe_key", JStr k)] end
     | fields => base ++ [("fields", JObj (extract_payload_fields (ev_payload e) fields []))]
     end)%list.

Definition hash_of (sig : list (string * json)) : res string :=
  text ← canonical_json float_repr (JObj sig); stable_sha256 sha256_hex [text].

(** The record written while the signature is suppressed. *)
Definition counted (h : string) (e : Event) (sig : list (string * json)) (now_ms : Z) (existing : EventSuppressionRecord)
    (until : Z) : EventSuppressionRecord :=
  mkSuppression h (strip (ev_type e)) (strip (ev_source e)) sig (window_start_ms existing) (count existing + 1)
    (es_threshold existing) (es_window_ms existing) (Some until) (resume_required existing) (cleared_at_ms existing)
    (cleared_by existing) (cleared_request_id existing) (es_created_at_ms existing) now_ms (expires_at_ms existing).

(** The record written otherwise. *)
Definition next_record (h : string) (e : Event) (sig : list (string * json)) (now_ms window_ms ttl_ms : Z)
    (existing : option EventSuppressionRecord) : EventSuppressionRecord :=
  let '(window_start, n, created) :=
    match existing with
    | None => (now_ms, 1, now_ms)
    | Some r => if window_ms <=? now_ms - window_start_ms r then (now_ms, 1, now_ms)
                else (window_start_ms r, count r + 1, es_created_at_ms r)
    end in
  let until := if threshold cfg <? n then Some (now_ms + ttl_ms) else None in
  mkSuppression h (strip (ev_type e)) (strip (ev_source e)) sig window_start n (threshold cfg) window_ms until false
    (existing ≫= cleared_at_ms) (existing ≫= cleared_by) (existing ≫= cleared_request_id) created now_ms
    (default (window_start + window_ms) until).

(** The unit of work of [observe]. *)
Definition observe_signature (h : string) (e : Event) (sig : list (string * json)) (now_ms window_ms ttl_ms : Z)
  : st SuppressionRepo.t (bool * EventSuppressionRecord) :=
  found ← SuppressionRepo.get h;
  existing ← match found with
    | Some r => if expires_at_ms r <=? now_ms then SuppressionRepo.delete h;; mret None else mret (Some r)
    | None => mret None
    end;
  let record existing :=
    stored ← SuppressionRepo.upsert (next_record h e sig now_ms window_ms ttl_ms existing);
    mret (is_set (suppressed_until_ms (next_record h e sig now_ms window_ms ttl_ms existing)), stored) in
  match existing with
  | Some r =>
      match suppressed_until_ms r with
      | Some until =>
          if now_ms <? until
          then stored ← SuppressionRepo.upsert (counted h e sig now_ms r until); mret (true, stored)
          else SuppressionRepo.delete h;; record None
      | None => record (Some r)
      end
  | None => record None
  end.

(** [observe] *)
Definition observe (now_ms : Z) (e : Event) : st SuppressionRepo.t (bool * EventSuppressionRecord) :=
  window_ms ← lift (ms_of_s (window_s cfg));
  ttl_ms ← lift (ms_of_s (ttl_s cfg));
  let sig := signature_of e in
  h ← lift (hash_of sig);
  suppression_uow (observe_signature h e sig now_ms window_ms ttl_ms).
End suppressor.

(** [EventSuppressionCommandService.clear] *)
Definition clear (now_ms : Z) (h : string) (by_ request_id : option string) : st SuppressionRepo.t EventSuppressionRecord :=
  k ← lift (SuppressionRepo.required_hash h);
  let actor := SuppressionRepo.optional_str by_ in
  let request := SuppressionRepo.optional_str request_id in
  suppression_uow (
    record ← SuppressionRepo.get k;
    match record with
    | Some r =>
        if SuppressionRepo.is_active now_ms r
        then SuppressionRepo.upsert (mkSuppression (signature_hash r) (es_event_type r) (es_event_source r) (signature r) now_ms 0
               (es_threshold r) (es_window_ms r) None false (Some now_ms) actor request (es_created_at_ms r) now_ms
               (now_ms + es_window_ms r))
        else throw (KeyError ("event suppression not found: " +:+ py_repr k))
    | None => throw (KeyError ("event suppression not found: " +:+ py_repr k))
    end).

(** ** The specification: an automaton per signature *)
Inductive phase :=
| Counting (start n : Z)        (** [n] events since [start] *)
| Suppressed (until : Z).

Section automaton.
Variables threshold window ttl : Z.

(** An event at [now]: is it suppressed, and what comes after. *)
Definition phase_observe (now : Z) (p : option phase) : bool * phase :=
  match p with
  | Some (Counting start n) =>
      if start + window <=? now then (false, Counting now 1)
      else if threshold <? n + 1 then (true, Suppressed (now + ttl))
      else (false, Counting start (n + 1))
  | Some (Suppressed until) => if now <? until then (true, Suppressed until) else (false, Counting now 1)
  | None => (false, Counting now 1)
  end.

(** A clear at [now]: is there anything to clear, and what comes after. *)
Definition phase_clear (now : Z) (p : option phase) : bool * option phase :=
  match p with
  | Some (Suppressed until) => if now <? until then (true, Some (Counting now 0)) else (false, p)
  | _ => (false, p)
  end.
End automaton.

Inductive suppression_op := Observe (now : Z) (e : Event) | Clear (now : Z) (h : string) (by_ request_id : option string).
Definition op_time (o : suppression_op) : Z := match o with Observe now _ => now | Clear now _ _ _ => now end.

(** The answer to an operation; [None] when it raises. *)
Definition answer {A} (f : A -> bool) (r : res A) : option bool := match r with Ok a => Some (f a) | Raise _ => None end.

(** The clock does not go back. *)
Fixpoint in_order (last : Z) (ops : list suppression_op) : Prop :=
  match ops with [] => True | o :: rest => last <= op_time o /\ in_order (op_time o) rest end.

Section refinement.
Variable cfg : DbEventSuppressor.
Variable float_repr : spec_float -> string.
Variable sha256_hex : string -> string.
Variable redact : Z -> list (string * json) -> list (string * json).
Variables window ttl : Z.
Hypothesis cfg_ok : DbEventSuppressor_new cfg = Ok cfg.
Hypothesis window_ok : ms_of_s (window_s cfg) = Ok window /\ 0 < window.
Hypothesis ttl_ok : ms_of_s (ttl_s cfg) = Ok ttl.

Notation observe := (observe cfg float_repr sha256_hex redact).
Notation key e := (hash_of float_repr sha256_hex (signature_of cfg redact e)).

(** The redactor gives JSON and a digest is text without space around it; the
    event is a validated one. *)
Definition event_ok (e : Event) : Prop :=
  strip (ev_type e) <> "" /\ strip (ev_source e) <> "" /\ exists h, key e = Ok h /\ strip h = h /\ h <> "".

Definition run_op (o : suppression_op) (d : SuppressionRepo.t) : option bool * SuppressionRepo.t :=
  match o with
  | Observe now e => let '(r, d') := observe now e d in (answer fst r, d')
  | Clear now h by_ request => let '(r, d') := clear now h by_ request d in (answer (fun _ => true) r, d')
  end.
Fixpoint answers (ops : list suppression_op) (d : SuppressionRepo.t) : list (option bool) :=
  match ops with [] => [] | o :: rest => let '(a, d') := run_op o d in a :: answers rest d' end.

Definition spec_op (o : suppression_op) (p : string -> option phase) : option bool * (string -> option phase) :=
  match o with
  | Observe now e =>
      match key e with
      | Raise _ => (None, p)
      | Ok h => let '(b, q) := phase_observe (threshold cfg) window ttl now (p h) in
                (Some b, fun h' => if decide (h' = h) then Some q else p h')
      end
  | Clear now h _ _ =>
      let '(b, q) := phase_clear now (p (strip h)) in
      (if b then Some true else None, fun h' => if decide (h' = strip h) then q else p h')
  end.
Fixpoint spec_answers (ops : list suppression_op) (p : string -> option phase) : list (option bool) :=
  match ops with [] => [] | o :: rest => let '(a, p') := spec_op o p in a :: spec_answers rest p' end.

(** *** The simulation *)
#[local] Arguments strip : simpl never.

Definition phase_of (r : EventSuppressionRecord) : phase :=
  match suppressed_until_ms r with None => Counting (window_start_ms r) (count r) | Some u => Suppressed u end.

Record record_ok (last : Z) (h : string) (r : EventSuppressionRecord) : Prop := {
  ro_hash : signature_hash r = h /\ strip h = h /\ h <> "";
  ro_type : strip (es_event_type r) <> "" /\ strip (es_event_source r) <> "";
  ro_times : 0 <= es_created_at_ms r <= es_updated_at_ms r /\ es_updated_at_ms r <= last /\ 0 <= window_start_ms r;
  ro_counts : 0 <= count r /\ es_threshold r = threshold cfg /\ es_window_ms r = window;
  ro_cleared : forall c, cleared_at_ms r = Some c -> es_created_at_ms r <= c <= es_updated_at_ms r;
  ro_alive : es_updated_at_ms r <= expires_at_ms r;
  ro_expires : expires_at_ms r = match suppressed_until_ms r with None => window_start_ms r + window | Some u => u end;
}.

Record simulated (last : Z) (d : SuppressionRepo.t) (p : string -> option phase) : Prop := {
  si_nodup : NoDup (keys d);
  si_records : forall h r, aget h d = Some r -> record_ok last h r;
  si_phases : forall h, p h = phase_of <$> aget h d;
}.

Lemma threshold_pos : 0 < threshold cfg.
Proof. unfold DbEventSuppressor_new in cfg_ok. res_inv. lia. Qed.
Lemma ttl_nonneg : 0 <= ttl.
Proof.
  eapply (ms_of_s_nonneg (ttl_s cfg)); [|exact ttl_ok]. unfold DbEventSuppressor_new in cfg_ok.
  apply res_bind_Ok in cfg_ok as (? & _ & E). apply res_bind_Ok in E as (? & _ & E).
  apply res_bind_Ok in E as (? & [Hf Hl]%raise_if_Ok%orb_false_iff & _). apply negb_false_iff in Hf.
  by destruct (ttl_s cfg) as [[]|[]| |[] m e'].
Qed.
Lemma record_ok_later last last' h r : last <= last' -> record_ok last h r -> record_ok last' h r.
Proof. intros Hl []. split; try done. intuition lia. Qed.

Definition set_phase (h : string) (q : option phase) (p : string -> option phase) : string -> option phase :=
  fun h' => if decide (h' = h) then q else p h'.

Lemma simulated_upsert last now d p h v : simulated last d p -> last <= now -> record_ok now h v ->
  simulated now (aset h v d) (set_phase h (Some (phase_of v)) p).
Proof.
  intros [Hn Hr Hp] Hl Hv. split; [by apply NoDup_keys_aset| |].
  - intros h' r. rewrite aget_aset. case_decide as E; [intros [= <-]; by rewrite E|]. intros E'%Hr. by eapply record_ok_later.
  - intros h'. unfold set_phase. rewrite aget_aset. by case_decide.
Qed.
Lemma simulated_delete last d p h : simulated last d p -> simulated last (adel h d) (set_phase h None p).
Proof.
  intros [Hn Hr Hp]. split; [by apply NoDup_keys_adel| |].
  - intros h' r. rewrite aget_adel by done. case_decide; [done|]. apply Hr.
  - intros h'. unfold set_phase. rewrite aget_adel by done. by case_decide.
Qed.

Lemma optional_str_none o : SuppressionRepo.optional_str o = None \/ exists s, SuppressionRepo.optional_str o = Some s.
Proof. destruct (SuppressionRepo.optional_str o); eauto. Qed.

Lemma validated_ok last h r : record_ok last h r -> exists v, SuppressionRepo.validated_record r = Ok v /\
  signature_hash v = h /\ record_ok last h v /\ phase_of v = phase_of r.
Proof.
  intros [(Hh & Hs & Hne) [Ht1 Ht2] (Hc & Hu & Hw) (Hn & Hth & Hwin) Hcl Hal He].
  destruct window_ok as [_ Hwp]. pose proof threshold_pos as Htp.
  assert (forall s, s <> "" -> is_empty s = false) as Hemp by (by intros []).
  eexists. split; [|split; [|split]].
  - unfold SuppressionRepo.validated_record. rewrite Hh, Hs, Hth, Hwin.
    assert (raise_if (is_empty h) (ValueError "signature_hash must be non-empty") = Ok tt) as -> by (by rewrite Hemp). cbn [mbind res_bind].
    rewrite !Hemp by done.
    rewrite (proj2 (Z.ltb_ge (count r) 0)), (proj2 (Z.leb_gt (threshold cfg) 0)), (proj2 (Z.leb_gt window 0)),
      (proj2 (Z.ltb_ge (window_start_ms r) 0)), (proj2 (Z.ltb_ge (es_created_at_ms r) 0)),
      (proj2 (Z.ltb_ge (es_updated_at_ms r) (es_created_at_ms r))), (proj2 (Z.ltb_ge (expires_at_ms r) (es_updated_at_ms r))) by lia.
    cbn [raise_if mbind res_bind].
    replace (match suppressed_until_ms r with Some _ => _ | None => Ok tt end) with (@Ok unit tt).
    2: { destruct (suppressed_until_ms r) as [u|]; [|done]. rewrite He, (proj2 (Z.ltb_ge u (es_updated_at_ms r))), Z.ltb_irrefl by lia. done. }
    replace (match cleared_at_ms r with Some _ => _ | None => Ok tt end) with (@Ok unit tt); [done|].
    destruct (cleared_at_ms r) as [c|]; [|done]. specialize (Hcl c eq_refl).
    by rewrite (proj2 (Z.ltb_ge c (es_created_at_ms r))), (proj2 (Z.ltb_ge (es_updated_at_ms r) c)) by lia.
  - done.
  - split; cbn; rewrite ?strip_idemp; try done.
  - done.
Qed.
Lemma upsert_ok last h r d : record_ok last h r -> exists v, SuppressionRepo.upsert r d = (Ok v, aset h v d) /\
  record_ok last h v /\ phase_of v = phase_of r.
Proof.
  intros (v & E & Hh & Hv & Hp)%validated_ok. exists v. unfold SuppressionRepo.upsert. by rewrite E, Hh.
Qed.

(** The record that is written next, and the phase it stands for. *)
Lemma next_record_ok now h e sig existing : 0 <= now -> strip (ev_type e) <> "" -> strip (ev_source e) <> "" -> strip h = h -> h <> "" ->
  (forall r, existing = Some r -> record_ok now h r /\ suppressed_until_ms r = None /\ now < expires_at_ms r) ->
  let '(b, q) := phase_observe (threshold cfg) window ttl now (phase_of <$> existing) in
  let r := next_record cfg h e sig now window ttl existing in
  record_ok now h r /\ phase_of r = q /\ is_set (suppressed_until_ms r) = b.
Proof.
  intros Hnow Ht Hs Hh Hne Hex. pose proof threshold_pos. pose proof ttl_nonneg. destruct window_ok as [_ Hw].
  destruct existing as [r|]; cbn.
  - destruct (Hex r eq_refl) as ([Hhash Htype Htimes Hcounts Hcl Hal He] & Hu & Hlive). rewrite Hu in He.
    unfold phase_of at 1. rewrite Hu. cbn. unfold next_record.
    rewrite (proj2 (Z.leb_gt (window_start_ms r + window) now)) by lia. rewrite (proj2 (Z.leb_gt window (now - window_start_ms r))) by lia.
    destruct (Z.ltb_spec (threshold cfg) (count r + 1)); (split; [split|split; [|done]]); cbn;
      rewrite ?strip_idemp; try done; try lia; intros c Hc%Hcl; lia.
  - unfold next_record. rewrite (proj2 (Z.ltb_ge (threshold cfg) 1)) by lia.
    split; [split|split; [|done]]; cbn; rewrite ?strip_idemp; try done; lia.
Qed.

Lemma observe_step last now e d p : simulated last d p -> last <= now -> 0 <= now -> event_ok e ->
  let '(a, p') := spec_op (Observe now e) p in
  exists d', run_op (Observe now e) d = (a, d') /\ simulated now d' p'.
Proof.
  intros Hsim Hl Hnow (Ht & Hs & h & Hk & Hh & Hne). destruct window_ok as [Ew _]. cbn [spec_op run_op]. rewrite Hk.
  unfold Suppression.observe. rewrite Ew, ttl_ok, Hk. unfold lift, mbind, st_bind, suppression_uow, observe_signature, SuppressionRepo.get.
  assert (SuppressionRepo.required_hash h = Ok h) as Hreq.
  { unfold SuppressionRepo.required_hash. rewrite Hh. by destruct h. }
  unfold mbind, st_bind. rewrite Hreq. cbn. rewrite (si_phases _ _ _ Hsim h).
  set (sig := signature_of cfg redact e).
  assert (forall d0 p0 existing, simulated last d0 p0 -> p0 h = phase_of <$> existing -> (forall h', h' <> h -> p0 h' = p h') ->
    (forall r, existing = Some r -> record_ok now h r /\ suppressed_until_ms r = None /\ now < expires_at_ms r) ->
    let '(b, q) := phase_observe (threshold cfg) window ttl now (phase_of <$> existing) in
    exists v, SuppressionRepo.upsert (next_record cfg h e sig now window ttl existing) d0 = (Ok v, aset h v d0) /\
      is_set (suppressed_until_ms (next_record cfg h e sig now window ttl existing)) = b /\
      simulated now (aset h v d0) (fun h' => if decide (h' = h) then Some q else p h')) as Hwrite.
  { intros d0 p0 existing Hsim0 Hp0 Ho Hex. pose proof (next_record_ok now h e sig existing Hnow Ht Hs Hh Hne Hex) as Hn.
    destruct (phase_observe _ _ _ _ _) as [b q]. destruct Hn as (Hr & <- & Hb). destruct (upsert_ok now h _ d0 Hr) as (v & E & Hv & Hpv).
    exists v. split; [done|]. split; [done|]. rewrite <- Hpv. pose proof (simulated_upsert last now d0 p0 h v Hsim0 Hl Hv) as [H1' H2' H3'].
    split; [done|done|]. intros h'. rewrite <- H3'. unfold set_phase. case_decide; [done|]. by symmetry; apply Ho. }
  destruct (aget h d) as [r|] eqn:Er; cbn.
  2: { specialize (Hwrite d p None Hsim ltac:(by rewrite (si_phases _ _ _ Hsim), Er) ltac:(done) ltac:(done)). cbn in Hwrite.
       destruct Hwrite as (v & -> & Hb & Hv). cbn. rewrite Hb. by eexists. }
  pose proof (si_records _ _ _ Hsim h r Er) as Hr. pose proof (ro_expires _ _ _ Hr) as He.
  pose proof (simulated_delete last d p h Hsim) as Hdel.
  assert (forall h', h' <> h -> set_phase h None p h' = p h') as Hother by (intros h' Hn; unfold set_phase; by rewrite decide_False).
  specialize (Hwrite (adel h d) (set_phase h None p) None Hdel ltac:(unfold set_phase; by rewrite decide_True) Hother ltac:(done)) as Hnew.
  cbn in Hnew. destruct Hnew as (v & Ev & Hbv & Hv).
  unfold SuppressionRepo.delete. rewrite Hreq. cbn. destruct (Z.leb_spec (expires_at_ms r) now) as [Hexp|Hlive]; cbn.
  - rewrite Ev. cbn. unfold phase_of. destruct (suppressed_until_ms r) as [u|] eqn:Eu; cbn.
    + rewrite (proj2 (Z.ltb_ge now u)) by lia. rewrite Hbv. by eexists.
    + rewrite (proj2 (Z.leb_le (window_start_ms r + window) now)) by lia. rewrite Hbv. by eexists.
  - destruct (suppressed_until_ms r) as [u|] eqn:Eu; cbn.
    + rewrite (proj2 (Z.ltb_lt now u)) by lia. unfold phase_of at 1. rewrite Eu. cbn. rewrite (proj2 (Z.ltb_lt now u)) by lia.
      destruct (upsert_ok now h (counted h e sig now r u) d) as (v' & -> & Hv' & Hp').
      { destruct (record_ok_later last now h r Hl Hr) as [Hhash Htype Htimes Hcounts Hcl Hal He'].
        split; cbn; rewrite ?strip_idemp; try done; try lia.
        intros c Hc%Hcl. pose proof (ro_times _ _ _ Hr). lia. }
      cbn. eexists. split; [done|]. pose proof (simulated_upsert last now d p h v' Hsim Hl Hv') as Hs'. rewrite Hp' in Hs'. exact Hs'.
    + specialize (Hwrite d p (Some r) Hsim ltac:(by rewrite (si_phases _ _ _ Hsim), Er) ltac:(done)
        ltac:(intros ? [= <-]; split; [exact (record_ok_later last now h r Hl Hr)|done])). cbn in Hwrite.
      unfold phase_of at 1 in Hwrite. unfold phase_of at 1. rewrite Eu in *. cbn in *.
      rewrite (proj2 (Z.leb_gt (window_start_ms r + window) now)) in * by lia.
      destruct (threshold cfg <? count r + 1); destruct Hwrite as (v' & -> & Hb & Hs'); cbn; rewrite Hb; by eexists.
Qed.

Lemma clear_step last now h by_ request d p : simulated last d p -> last <= now -> 0 <= now ->
  let '(a, p') := spec_op (Clear now h by_ request) p in
  exists d', run_op (Clear now h by_ request) d = (a, d') /\ simulated now d' p'.
Proof.
  intros Hsim Hl Hnow. destruct window_ok as [_ Hw]. cbn [spec_op run_op].
  assert (simulated now d p) as Hsame.
  { destruct Hsim as [H1' H2' H3']. split; [done| |done]. intros h' r Hr%H2'. exact (record_ok_later last now h' r Hl Hr). }
  assert (forall q, q = p (strip h) -> simulated now d (fun h' => if decide (h' = strip h) then q else p h')) as Hkeep.
  { intros q ->. destruct Hsame as [H1' H2' H3']. split; [done|done|]. intros h'. case_decide as E; [rewrite E|]; apply H3'. }
  unfold clear. destruct (is_empty (strip h)) eqn:Eh.
  { unfold SuppressionRepo.required_hash. rewrite Eh. cbn. apply is_empty_spec in Eh. rewrite Eh in *.
    assert (aget "" d = None) as En.
    { destruct (aget "" d) as [r|] eqn:E; [|done]. apply (si_records _ _ _ Hsim) in E. by destruct (ro_hash _ _ _ E) as (_ & _ & []). }
    assert (p "" = None) as Hp by (by rewrite (si_phases _ _ _ Hsim), En). rewrite Hp. cbn.
    exists d. split; [done|]. apply Hkeep. by rewrite Hp. }
  assert (SuppressionRepo.required_hash h = Ok (strip h)) as Hreq by (unfold SuppressionRepo.required_hash; by rewrite Eh).
  assert (SuppressionRepo.required_hash (strip h) = Ok (strip h)) as Hreq' by (unfold SuppressionRepo.required_hash; by rewrite strip_idemp, Eh).
  rewrite Hreq. unfold lift, mbind, st_bind, suppression_uow, SuppressionRepo.get. unfold mbind, st_bind. rewrite Hreq'. cbn.
  destruct (aget (strip h) d) as [r|] eqn:Er; cbn.
  2: { assert (p (strip h) = None) as Hp by (by rewrite (si_phases _ _ _ Hsim), Er). rewrite Hp. cbn. exists d. split; [done|]. apply Hkeep. by rewrite Hp. }
  pose proof (si_records _ _ _ Hsim _ r Er) as Hr. pose proof (ro_expires _ _ _ Hr) as He.
  assert (p (strip h) = Some (phase_of r)) as Hp by (by rewrite (si_phases _ _ _ Hsim), Er).
  rewrite Hp. unfold SuppressionRepo.is_active, phase_of. destruct (suppressed_until_ms r) as [u|] eqn:Eu; cbn.
  2: { exists d. split; [done|]. apply Hkeep. rewrite Hp. unfold phase_of. by rewrite Eu. }
  rewrite He, andb_diag. destruct (Z.ltb_spec now u) as [Hlt|Hge]; cbn.
  2: { exists d. split; [done|]. apply Hkeep. rewrite Hp. unfold phase_of. by rewrite Eu. }
  match goal with |- context [SuppressionRepo.upsert ?x d] => destruct (upsert_ok now (strip h) x d) as (v & -> & Hv & Hpv) end.
  { destruct Hr as [Hhash Htype Htimes Hcounts Hcl Hal _]. destruct Hcounts as (_ & Hth & ->).
    split; cbn; try done; try lia. intros c [= <-]. lia. }
  cbn. eexists. split; [done|]. pose proof (simulated_upsert last now d p (strip h) v Hsim Hl Hv) as Hs'. rewrite Hpv in Hs'. exact Hs'.
Qed.

(** C4: the suppressor is one automaton per event signature. For any sequence of
    events and clears on a clock that does not go back, the database-backed
    suppressor gives the answers of [phase_observe] and [phase_clear]: a
    signature's events pass while at most [threshold] of them fall into a window
    from the first; the next one is suppressed and so are all others until
    [ttl] after it, or until an operator clears the suppression; then counting
    starts anew. Signatures do not affect each other, no event makes it raise,
    and clear answers exactly for a signature that is suppressed. *)
Theorem suppression_refines ops : in_order 0 ops -> (forall now e, Observe now e ∈ ops -> event_ok e) ->
  answers ops [] = spec_answers ops (fun _ => None).
Proof.
  assert (forall l last d p, 0 <= last -> in_order last l -> (forall now e, Observe now e ∈ l -> event_ok e) -> simulated last d p ->
    answers l d = spec_answers l p) as Hall.
  { induction l as [|o l IH]; intros last d p Hlast; [by intros|]. cbn [in_order answers spec_answers]. intros [Hle Hord] Hev Hsim.
    assert (let '(a, p') := spec_op o p in exists d', run_op o d = (a, d') /\ simulated (op_time o) d' p') as Hstep.
    { destruct o as [now e|now h by_ request]; cbn [op_time] in *.
      - eapply observe_step; [done|done|lia|]. eapply Hev. by left.
      - eapply clear_step; [done|done|lia]. }
    destruct (spec_op o p) as [a p'] eqn:Es. destruct Hstep as (d' & Er & Hsim'). rewrite Er. f_equal.
    apply (IH (op_time o)); [lia|done| |done]. intros now e Hin. eapply Hev. by right. }
  intros Ho He. apply (Hall ops 0 [] (fun _ => None)); [lia|exact Ho|exact He|]. split; [constructor|done|done].
Qed.
End refinement.

(** Two events pass, the third and fourth of the window do not, a clear lets the
    fifth pass. *)
Definition sample_suppressor : DbEventSuppressor := mkSuppressor [] (of_Z 1) 2 (of_Z 5) 4096.
Definition looping_event : Event := mkEvent "e" "tick" "loop" 0 [] None.
Definition sample_digest (s : string) : string := "h" +:+ str_of_Z (Z.of_nat (String.length s)).
Definition sample_hash : string := "h39".
Definition suppression_ops : list suppression_op :=
  [Observe 100 looping_event; Observe 200 looping_event; Observe 300 looping_event; Observe 400 looping_event;
   Clear 500 sample_hash None None; Observe 600 looping_event].

Lemma suppression_refines_witness :
  answers sample_suppressor (fun _ => "") sample_digest (fun _ sig => sig) suppression_ops [] =
    [Some false; Some false; Some true; Some true; Some true; Some false] /\
  answers sample_suppressor (fun _ => "") sample_digest (fun _ sig => sig) suppression_ops [] =
    spec_answers sample_suppressor (fun _ => "") sample_digest (fun _ sig => sig) 1000 5000 suppression_ops (fun _ => None).
Proof.
  split; [vm_compute; reflexivity|]. apply suppression_refines.
  - vm_compute. reflexivity.
  - split; [vm_compute; reflexivity|lia].
  - vm_compute. reflexivity.
  - cbn. lia.
  - intros now e He. assert (e = looping_event) as ->.
    { repeat (apply elem_of_cons in He as [He|He]; [by inversion He|]). by apply elem_of_nil in He. }
    split; [by vm_compute|]. split; [by vm_compute|]. exists sample_hash. split; [vm_compute; reflexivity|]. by split; vm_compute.
Defined.
