(* ===== verification/EventStore.v ===== *)
(** * Stored events: [infra/db/repos/events.py], the event mappers

    The tables of events and of de-duplication keys and the repository over
    them. Reading a row validates it again, with the default cap on the payload.
    The results: rows are read back, a de-duplication key gives one event per
    window, and an event that was accepted under a larger configured cap is
    stored but cannot be read. *)

From Stdlib Require Import ZArith SpecFloat Lia Ascii.
From S2P Require Import Prelude PyFloat PyText Uuid Models Serialization Events.

Record EventRow := mkEventRow {
  er_event_id : string;
  er_type : string;
  er_source : string;
  er_received_at_ms : Z;
  er_payload : list (string * json);
  er_dedupe_key : option string;
}.

Record EventDedupeRow := mkDedupeRow {
  dr_event_id : string;
  dr_created_at_ms : Z;
  dr_updated_at_ms : Z;
  dr_expires_at_ms : Z;
}.

Record event_tables := mkEventTables {
  event_rows : list (string * EventRow);
  dedupe_rows : list ((string * string) * EventDedupeRow);
}.

Definition event_to_row_dict (e : Event) : EventRow :=
  mkEventRow (event_id e) (ev_type e) (ev_source e) (received_at_ms e) (ev_payload e) (dedupe_key e).

Definition DEFAULT_DEDUPE_WINDOW_MS : Z := 86400000.

Section repo.
Variable float_repr : spec_float -> string.

(** [event_from_row_dict]: [Event.model_validate] without a context *)
Definition event_from_row_dict (r : EventRow) : res Event :=
  Event_validate float_repr None "" (mkEventInput (IdStr (er_event_id r)) (er_type r) (er_source r) (er_received_at_ms r)
    (er_payload r) (er_dedupe_key r)).

Definition required_text (field_name s : string) : res string :=
  match strip_or_none s with None => Raise (ValueError (field_name +:+ " must be non-empty")) | Some t => Ok t end.

Definition integrity_error : exn := OtherError "IntegrityError" "UNIQUE constraint failed".

(** [except IntegrityError] *)
Definition is_integrity_error (x : exn) : bool :=
  match x with OtherError n _ => String.eqb n "IntegrityError" | _ => false end.

(** [session.add(EventRow(...))] and [flush] *)
Definition insert_event (e : Event) : st event_tables unit := fun d =>
  if is_set (aget (event_id e) (event_rows d)) then (Raise integrity_error, d)
  else (Ok tt, mkEventTables (event_rows d ++ [(event_id e, event_to_row_dict e)]) (dedupe_rows d))%list.

Definition create (e : Event) : st event_tables Event := insert_event e;; mret e.

Definition get (event_id : string) : st event_tables (option Event) := fun d =>
  (k ← (raise_if (is_empty (strip event_id)) (ValueError "event_id must be non-empty");; Ok (strip event_id));
   match aget k (event_rows d) with
   | None => Ok None
   | Some r => e ← event_from_row_dict r; Ok (Some e)
   end, d).

Definition get_by_dedupe (source key : string) (active_at_ms : option Z) : st event_tables (option Event) := fun d =>
  (source ← required_text "source" source;
   key ← required_text "dedupe_key" key;
   match aget (source, key) (dedupe_rows d) with
   | None => Ok None
   | Some r =>
       if match active_at_ms with Some now => dr_expires_at_ms r <=? now | None => false end then Ok None
       else match aget (dr_event_id r) (event_rows d) with
            | None => Ok None
            | Some row => e ← event_from_row_dict row; Ok (Some e)
            end
   end, d).

(** [model_copy(update={"source": ..., "dedupe_key": ...})] *)
Definition with_key (source key : string) (e : Event) : Event :=
  mkEvent (event_id e) (ev_type e) source (received_at_ms e) (ev_payload e) (Some key).

(** The body of the savepoint. *)
Definition store_dedupe_row (source key id : string) (anchor expires : Z) : st event_tables unit := fun d =>
  let stored := mkEventTables (event_rows d) (aset (source, key) (mkDedupeRow id anchor anchor expires) (dedupe_rows d)) in
  match aget (source, key) (dedupe_rows d) with
  | Some r => if anchor <? dr_expires_at_ms r then (Raise integrity_error, d) else (Ok tt, stored)
  | None => (Ok tt, stored)
  end.
Definition store_deduped (source key : string) (e : Event) (anchor expires : Z) : st event_tables unit :=
  insert_event e;; store_dedupe_row source key (event_id e) anchor expires.

(** [begin_nested]: undone when the body raises. *)
Definition savepoint {A} (body : st event_tables A) : st event_tables A := fun d =>
  match body d with (Ok a, d') => (Ok a, d') | (Raise e, _) => (Raise e, d) end.

(** After the first lookup found nothing. *)
Definition create_deduped (source key : string) (stored : Event) (anchor window : Z) : st event_tables (Event * bool) := fun d =>
  match savepoint (store_deduped source key stored anchor (anchor + window)) d with
  | (Ok _, d') => (Ok (stored, true), d')
  | (Raise x, d') =>
      if is_integrity_error x then
        (again ← get_by_dedupe source key (Some anchor);
         match again with
         | Some found => mret (found, false)
         | None => throw x
         end) d'
      else (Raise x, d')
  end.

(** [now_ms] is [int(time.time() * 1000)]. *)
Definition create_or_get_by_dedupe (now_ms : Z) (source key : string) (e : Event) (dedupe_window_ms active_at_ms : option Z)
  : st event_tables (Event * bool) :=
  source ← lift (required_text "source" source);
  key ← lift (required_text "dedupe_key" key);
  let anchor := default now_ms active_at_ms in
  let window := default DEFAULT_DEDUPE_WINDOW_MS dedupe_window_ms in
  lift (raise_if (window <=? 0) (ValueError "dedupe_window_ms must be > 0 when provided"));;
  existing ← get_by_dedupe source key (Some anchor);
  match existing with
  | Some found => mret (found, false)
  | None => create_deduped source key (with_key source key e) anchor window
  end.

(** [prune_expired_dedupe]: the rows in order of expiry, source and key. *)
Definition prune_key (p : (string * string) * EventDedupeRow) : Z * (string * string) := (dr_expires_at_ms p.2, p.1).
Fixpoint insert_by_expiry (p : (string * string) * EventDedupeRow) (l : list ((string * string) * EventDedupeRow)) :=
  match l with
  | [] => [p]
  | q :: l' => if ple (prune_key p) (prune_key q) then p :: l else q :: insert_by_expiry p l'
  end.
Definition prune_expired_dedupe (now_ms limit : Z) : st event_tables Z := fun d =>
  if limit <? 0 then (Raise (ValueError "limit must be >= 0"), d)
  else
    let expired := foldr insert_by_expiry [] (filter (fun p => dr_expires_at_ms p.2 <=? now_ms = true) (dedupe_rows d)) in
    let pairs := take (Z.to_nat limit) expired in
    (Ok (Z.of_nat (length pairs)), mkEventTables (event_rows d) (foldl (fun rows p => adel p.1 rows) (dedupe_rows d) pairs)).

(** ** Reading back *)
Lemma event_roundtrip e : valid_event float_repr DEFAULT_MAX_PAYLOAD_BYTES e -> event_from_row_dict (event_to_row_dict e) = Ok e.
Proof.
  apply Event_validate_fix.
Qed.
End repo.

(** ** One event per key and window *)
Section dedupe.
Variable float_repr : spec_float -> string.
#[local] Notation create_or_get := (create_or_get_by_dedupe float_repr).
#[local] Notation lookup := (get_by_dedupe float_repr).

(** What the repository's callers do in between. *)
Inductive event_op :=
| OpCreate (e : Event)
| OpCreateOrGet (now_ms : Z) (source key : string) (e : Event) (window active_at : option Z)
| OpPrune (now_ms limit : Z).
Definition event_step (o : event_op) (d : event_tables) : event_tables :=
  match o with
  | OpCreate e => (create e d).2
  | OpCreateOrGet now s k e w a => (create_or_get now s k e w a d).2
  | OpPrune now limit => (prune_expired_dedupe now limit d).2
  end.

(** The clock of an operation, when it reads one. *)
Definition op_before (expires : Z) (o : event_op) : Prop :=
  match o with
  | OpCreate _ => True
  | OpCreateOrGet now _ _ _ _ a => default now a < expires
  | OpPrune now _ => now < expires
  end.

(** The row of the key names the stored event. *)
Record holds (source key : string) (e : Event) (expires : Z) (d : event_tables) : Prop := {
  ho_keys : NoDup (keys (dedupe_rows d));
  ho_row : exists r, aget (source, key) (dedupe_rows d) = Some r /\ dr_expires_at_ms r = expires /\
    aget (dr_event_id r) (event_rows d) = Some (event_to_row_dict e);
}.

Lemma required_text_Ok f s t : required_text f s = Ok t <-> t = strip s /\ strip s <> "".
Proof.
  unfold required_text, strip_or_none. destruct (strip s) as [|c u] eqn:E; cbn; split.
  - done.
  - by intros [].
  - by intros [= <-].
  - by intros [-> _].
Qed.
Lemma required_text_fix f s : strip s <> "" -> required_text f s = Ok (strip s).
Proof. intros. by apply required_text_Ok. Qed.
Lemma required_text_strip f s : strip s <> "" -> required_text f (strip s) = Ok (strip s).
Proof. intros. apply required_text_Ok. by rewrite strip_idemp. Qed.

Lemma st_run {S A B} (f : A -> st S B) (m : st S A) d a d' : m d = (Ok a, d') -> (m ≫= f) d = f a d'.
Proof. unfold mbind, st_bind. by intros ->. Qed.
Lemma lift_ret {S A B} (f : A -> st S B) (a : A) d : (lift (Ok a) ≫= f) d = f a d.
Proof. done. Qed.

Lemma lookup_holds s k e expires d t : strip s <> "" -> strip k <> "" ->
  valid_event float_repr DEFAULT_MAX_PAYLOAD_BYTES e -> holds (strip s) (strip k) e expires d -> t < expires ->
  lookup (strip s) (strip k) (Some t) d = (Ok (Some e), d).
Proof.
  intros Hs Hk He [_ (r & Er & Ex & Ee)] Ht. unfold get_by_dedupe. rewrite !required_text_strip by done. cbn.
  rewrite Er, Ex, (proj2 (Z.leb_gt _ _)) by done. rewrite Ee, event_roundtrip by done. done.
Qed.

Lemma create_or_get_found now s k e0 w a e d : strip s <> "" -> strip k <> "" ->
  0 < default DEFAULT_DEDUPE_WINDOW_MS w -> lookup (strip s) (strip k) (Some (default now a)) d = (Ok (Some e), d) ->
  create_or_get now s k e0 w a d = (Ok (e, false), d).
Proof.
  intros Hs Hk Hw E. unfold create_or_get_by_dedupe. rewrite !required_text_fix, (proj2 (Z.leb_gt _ _)) by done.
  unfold raise_if. by rewrite !lift_ret, (st_run _ _ _ _ _ E).
Qed.

Lemma insert_holds s k e expires e' d d' : holds s k e expires d -> insert_event e' d = (Ok tt, d') -> holds s k e expires d'.
Proof.
  intros [Hn (r & Er & Ex & Ee)]. unfold insert_event. case_match; [done|]. intros [= <-]. split; [done|].
  exists r. cbn. by rewrite aget_app, Ee.
Qed.

Lemma store_row_holds s k e expires s' k' id anchor x d d' : holds s k e expires d -> anchor < expires ->
  store_dedupe_row s' k' id anchor x d = (Ok tt, d') -> holds s k e expires d'.
Proof.
  intros [Hn (r & Er & Ex & Ee)] Ha. unfold store_dedupe_row. destruct (decide ((s, k) = (s', k'))) as [[= -> ->]|Hne].
  - rewrite Er, Ex, (proj2 (Z.ltb_lt _ _)) by done. done.
  - intros E. assert (d' = mkEventTables (event_rows d) (aset (s', k') (mkDedupeRow id anchor anchor x) (dedupe_rows d))) as ->
      by (repeat case_match; by injection E).
    split; cbn; [by apply NoDup_keys_aset|]. exists r. by rewrite aget_aset, decide_False.
Qed.

Lemma savepoint_Ok {A} (body : st event_tables A) d a d' : savepoint body d = (Ok a, d') <-> body d = (Ok a, d').
Proof. unfold savepoint. by destruct (body d) as [[]]. Qed.
Lemma savepoint_Raise {A} (body : st event_tables A) d x d' : savepoint body d = (Raise x, d') -> d' = d.
Proof. unfold savepoint. destruct (body d) as [[]]; by intros [=]. Qed.

Lemma store_deduped_holds s k e expires s' k' e' anchor x d d' : holds s k e expires d -> anchor < expires ->
  store_deduped s' k' e' anchor x d = (Ok tt, d') -> holds s k e expires d'.
Proof.
  intros H Ha ([] & d1 & E1 & E2)%st_bind_Ok. eapply store_row_holds; [|exact Ha|exact E2]. by eapply insert_holds.
Qed.

Lemma lookup_same s k t d : (lookup s k t d).2 = d.
Proof. done. Qed.

Lemma create_deduped_holds s k e expires s' k' e' anchor w d : holds s k e expires d -> anchor < expires ->
  holds s k e expires (create_deduped float_repr s' k' e' anchor w d).2.
Proof.
  intros H Ha. unfold create_deduped. destruct (savepoint _ d) as [[[]|x] d'] eqn:E.
  - apply (proj1 (savepoint_Ok _ _ _ _)) in E. by apply (store_deduped_holds _ _ _ _ _ _ _ _ _ _ _ H Ha E).
  - apply savepoint_Raise in E as ->. destruct (is_integrity_error x); [|done]. unfold mbind, st_bind.
    pose proof (lookup_same s' k' (Some anchor) d) as Hd. destruct (lookup _ _ _ d) as [[[]|] d1]; cbn in *; by subst d1.
Qed.

Lemma create_or_get_holds s k e expires now s' k' e' w a d : holds s k e expires d -> default now a < expires ->
  holds s k e expires (create_or_get now s' k' e' w a d).2.
Proof.
  intros H Ha. unfold create_or_get_by_dedupe. destruct (required_text "source" s') as [s1|]; [|done].
  rewrite lift_ret. destruct (required_text "dedupe_key" k') as [k1|]; [|done]. rewrite lift_ret.
  destruct (raise_if _ _) as [[]|]; [|done]. rewrite lift_ret. unfold mbind at 1, st_bind at 1.
  pose proof (lookup_same s1 k1 (Some (default now a)) d) as Hd. destruct (lookup _ _ _ d) as [r d1]. cbn in Hd. subst d1.
  destruct r as [[found|]|]; [done| |done]. by apply create_deduped_holds.
Qed.

Lemma elem_insert_by_expiry p q l : p ∈ insert_by_expiry q l -> p = q \/ p ∈ l.
Proof.
  induction l as [|r l IH]; cbn; [by rewrite list_elem_of_singleton; left|]. case_match; rewrite !elem_of_cons; naive_solver.
Qed.
Lemma elem_sort_by_expiry p l : p ∈ foldr insert_by_expiry [] l -> p ∈ l.
Proof. induction l as [|q l IH]; cbn; [done|]. intros [->|]%elem_insert_by_expiry; rewrite elem_of_cons; auto. Qed.

Lemma aget_deleted {A} key (pairs rows : list ((string * string) * A)) : NoDup (keys rows) -> key ∉ pairs.*1 ->
  NoDup (keys (foldl (fun rows p => adel p.1 rows) rows pairs)) /\
  aget key (foldl (fun rows p => adel p.1 rows) rows pairs) = aget key rows.
Proof.
  revert rows. induction pairs as [|p pairs IH]; intros rows Hn Hk; [done|]. cbn in *. apply not_elem_of_cons in Hk as [Hp Hk].
  destruct (IH (adel p.1 rows)) as [? ->]; [by apply NoDup_keys_adel|done|]. split; [done|]. by rewrite aget_adel, decide_False.
Qed.

Lemma prune_holds s k e expires now limit d : holds s k e expires d -> now < expires ->
  holds s k e expires (prune_expired_dedupe now limit d).2.
Proof.
  intros [Hn (r & Er & Ex & Ee)] Ht. unfold prune_expired_dedupe. case_match; [by split; eauto|]. cbn.
  match goal with |- context [take ?n ?l] => set (pairs := take n l) end.
  destruct (aget_deleted (s, k) pairs (dedupe_rows d)) as [Hn' Hg]; [done| |].
  - intros ([k1 r1] & Ek & Hp)%list_elem_of_fmap. cbn in Ek. subst k1.
    apply elem_of_take in Hp as (i & Hi & _). apply list_elem_of_lookup_2, elem_sort_by_expiry, list_elem_of_filter in Hi as [Hx Hi].
    apply elem_aget in Hi; [|done]. cbn in Hx. apply Z.leb_le in Hx. assert (r1 = r) as -> by congruence. lia.
  - split; [done|]. exists r. cbn. by rewrite Hg.
Qed.

Lemma event_step_holds s k e expires o d : holds s k e expires d -> op_before expires o ->
  holds s k e expires (event_step o d).
Proof.
  intros H. destruct o as [e'|now s' k' e' w a|now limit]; cbn [op_before event_step]; intros Ho.
  - unfold create, mbind, st_bind. destruct (insert_event e' d) as [[[]|x] d'] eqn:E; cbn; [by eapply insert_holds|].
    unfold insert_event in E. case_match; [injection E as _ <-|]; done.
  - by apply create_or_get_holds.
  - by apply prune_holds.
Qed.
Lemma event_steps_holds s k e expires ops d : holds s k e expires d -> Forall (op_before expires) ops ->
  holds s k e expires (foldl (fun d o => event_step o d) d ops).
Proof.
  revert d. induction ops as [|o ops IH]; intros d H Ho; [done|]. inversion_clear Ho. apply IH; [by apply event_step_holds|done].
Qed.

Lemma with_key_valid limit s k e : strip s <> "" -> strip k <> "" -> valid_event float_repr limit e ->
  valid_event float_repr limit (with_key (strip s) (strip k) e).
Proof.
  intros Hs Hk []. split; cbn; try done; [by apply strip_trimmed|]. intros ? [= <-]. by apply strip_trimmed.
Qed.

Lemma store_deduped_Ok s k e anchor x d : aget (event_id e) (event_rows d) = None ->
  (forall r, aget (s, k) (dedupe_rows d) = Some r -> dr_expires_at_ms r <= anchor) ->
  store_deduped s k e anchor x d = (Ok tt, mkEventTables (event_rows d ++ [(event_id e, event_to_row_dict e)])
    (aset (s, k) (mkDedupeRow (event_id e) anchor anchor x) (dedupe_rows d))).
Proof.
  intros He Hr. unfold store_deduped, mbind, st_bind, insert_event. rewrite He. cbn. unfold store_dedupe_row. cbn.
  destruct (aget (s, k) (dedupe_rows d)) as [r|] eqn:E; [|done]. by rewrite (proj2 (Z.ltb_ge _ _)) by (by apply Hr).
Qed.

Lemma lookup_miss s k t d : strip s <> "" -> strip k <> "" ->
  (forall r, aget (strip s, strip k) (dedupe_rows d) = Some r -> dr_expires_at_ms r <= t) ->
  lookup (strip s) (strip k) (Some t) d = (Ok None, d).
Proof.
  intros Hs Hk Hr. unfold get_by_dedupe. rewrite !required_text_strip by done. cbn.
  destruct (aget _ _) as [r|]; [|done]. by rewrite (proj2 (Z.leb_le _ _)) by (by apply Hr).
Qed.

(** A key whose window is over, and a new event. *)
Lemma create_or_get_new now s k e w a d : strip s <> "" -> strip k <> "" -> 0 < default DEFAULT_DEDUPE_WINDOW_MS w ->
  aget (event_id e) (event_rows d) = None ->
  (forall r, aget (strip s, strip k) (dedupe_rows d) = Some r -> dr_expires_at_ms r <= default now a) ->
  let stored := with_key (strip s) (strip k) e in
  let expires := default now a + default DEFAULT_DEDUPE_WINDOW_MS w in
  create_or_get now s k e w a d = (Ok (stored, true),
    mkEventTables (event_rows d ++ [(event_id e, event_to_row_dict stored)])
      (aset (strip s, strip k) (mkDedupeRow (event_id e) (default now a) (default now a) expires) (dedupe_rows d))).
Proof.
  intros Hs Hk Hw He Hr. unfold create_or_get_by_dedupe. rewrite !required_text_fix, (proj2 (Z.leb_gt _ _)) by done.
  unfold raise_if. rewrite !lift_ret, (st_run _ _ _ _ _ (lookup_miss _ _ _ _ Hs Hk Hr)). unfold create_deduped, savepoint.
  by rewrite store_deduped_Ok.
Qed.

(** C14: one event per key and window. With a valid event with a new id and no
    unexpired row for the (source, key) pair, [create_or_get_by_dedupe] stores
    the event under that key; from then on and until the window ends, whatever
    other events are created, de-duplicated or pruned, a call with the same
    pair, however written, answers with that same event, read back from its row
    unchanged, and stores nothing; once the row has expired the pair is free
    for a new event. *)
Theorem event_deduped now s k e w a d : NoDup (keys (dedupe_rows d)) ->
  valid_event float_repr DEFAULT_MAX_PAYLOAD_BYTES e -> strip s <> "" -> strip k <> "" -> 0 < default DEFAULT_DEDUPE_WINDOW_MS w ->
  aget (event_id e) (event_rows d) = None ->
  (forall r, aget (strip s, strip k) (dedupe_rows d) = Some r -> dr_expires_at_ms r <= default now a) ->
  let stored := with_key (strip s) (strip k) e in
  let expires := default now a + default DEFAULT_DEDUPE_WINDOW_MS w in
  exists d1, create_or_get now s k e w a d = (Ok (stored, true), d1) /\
  forall ops, Forall (op_before expires) ops ->
  let d2 := foldl (fun d o => event_step o d) d1 ops in
  (forall now2 s2 k2 e2 w2 a2, strip s2 = strip s -> strip k2 = strip k -> 0 < default DEFAULT_DEDUPE_WINDOW_MS w2 ->
    default now2 a2 < expires -> create_or_get now2 s2 k2 e2 w2 a2 d2 = (Ok (stored, false), d2)) /\
  (forall now2 s2 k2 e2 w2 a2, strip s2 = strip s -> strip k2 = strip k -> 0 < default DEFAULT_DEDUPE_WINDOW_MS w2 ->
    expires <= default now2 a2 -> aget (event_id e2) (event_rows d2) = None ->
    (create_or_get now2 s2 k2 e2 w2 a2 d2).1 = Ok (with_key (strip s) (strip k) e2, true)).
Proof.
  intros Hn He Hs Hk Hw Hnew Hr stored expires. eexists. split; [by apply create_or_get_new|]. intros ops Ho d2.
  assert (holds (strip s) (strip k) stored expires d2) as H2.
  { apply event_steps_holds; [|done]. split; cbn; [by apply NoDup_keys_aset|]. eexists. rewrite aget_aset, decide_True by done.
    split; [done|]. split; [done|]. cbn. rewrite aget_app, Hnew. cbn. by rewrite decide_True. }
  split; intros now2 s2 k2 e2 w2 a2 Es Ek Hw2 Ht.
  - apply create_or_get_found; rewrite ?Es, ?Ek; try done.
    by apply (lookup_holds _ _ _ expires); [..|by apply with_key_valid| |].
  - intros Hnew2. rewrite create_or_get_new; rewrite ?Es, ?Ek; try done.
    intros r Er. destruct H2 as [_ (r' & Er' & Ex & _)]. assert (r = r') as -> by congruence. lia.
Qed.

(** stored events beyond the default cap. An event that is valid under a
    larger configured cap but has more than 64,000 bytes of payload is stored by
    [create_or_get_by_dedupe]; but rows are validated with the default cap, so
    that every later call of that key within the window, and every [get] of its
    id, raises a validation error instead of answering with the event. *)
Theorem large_event_unreadable now s k e w a d limit n : valid_event float_repr limit e ->
  payload_bytes float_repr (JObj (ev_payload e)) = Ok n -> DEFAULT_MAX_PAYLOAD_BYTES < n ->
  strip s <> "" -> strip k <> "" -> 0 < default DEFAULT_DEDUPE_WINDOW_MS w ->
  aget (event_id e) (event_rows d) = None ->
  (forall r, aget (strip s, strip k) (dedupe_rows d) = Some r -> dr_expires_at_ms r <= default now a) ->
  let expires := default now a + default DEFAULT_DEDUPE_WINDOW_MS w in
  exists d1 x, create_or_get now s k e w a d = (Ok (with_key (strip s) (strip k) e, true), d1) /\
    (forall now2 e2 w2 a2, 0 < default DEFAULT_DEDUPE_WINDOW_MS w2 -> default now2 a2 < expires ->
       create_or_get now2 s k e2 w2 a2 d1 = (Raise (ValidationError [("payload", ValueError x)]), d1)) /\
    get float_repr (event_id e) d1 = (Raise (ValidationError [("payload", ValueError x)]), d1).
Proof.
  intros He En Hbig Hs Hk Hw Hnew Hr expires. eexists _, _. split; [by apply create_or_get_new|].
  set (x := "payload is too large (" +:+ str_of_Z n +:+ " bytes); max is " +:+ str_of_Z DEFAULT_MAX_PAYLOAD_BYTES).
  assert (event_from_row_dict float_repr (event_to_row_dict (with_key (strip s) (strip k) e)) =
    Raise (ValidationError [("payload", ValueError x)])) as Ebad.
  { pose proof (with_key_valid _ _ _ _ Hs Hk He) as [Hid Ht Hsrc Hkey Hkeys _ _].
    unfold event_from_row_dict, Event_validate, event_to_row_dict. cbn [in_event_id in_type in_source in_received_at_ms in_event_payload
      in_dedupe_key er_event_id er_type er_source er_received_at_ms er_payload er_dedupe_key].
    rewrite validate_generated_id_str, (proj1 (is_uuid4_str_validate _ _)), !non_empty_fix by done.
    assert (validate_payload float_repr None (ev_payload (with_key (strip s) (strip k) e)) = Raise (ValueError x)) as ->.
    { unfold validate_payload. rewrite count_payload_keys_eq, (proj2 (Z.ltb_ge _ _)) by done. cbn [raise_if default with_key ev_payload].
      unfold mbind, res_bind. rewrite En. by rewrite (proj2 (Z.ltb_lt _ _)) by done. }
    by rewrite normalize_optional_fix. }
  split.
  - intros now2 e2 w2 a2 Hw2 Ht. unfold create_or_get_by_dedupe. rewrite !required_text_fix, (proj2 (Z.leb_gt _ _)) by done.
    unfold raise_if. rewrite !lift_ret. unfold mbind, st_bind at 1, get_by_dedupe. rewrite !required_text_strip by done. cbn.
    rewrite aget_aset, decide_True by done. cbn. rewrite (proj2 (Z.leb_gt _ _)) by done. rewrite aget_app, Hnew. cbn.
    rewrite decide_True by done. by rewrite Ebad.
  - destruct He as [Hid _ _ _ _ _ _]. apply strip_uuid4_str in Hid as [Es Ee]. unfold get. rewrite Es, Ee. cbn.
    rewrite aget_app, Hnew. cbn. rewrite decide_True by done. by rewrite Ebad.
Qed.
End dedupe.

(** ** Concrete events *)
Definition sample_event (n : Z) (payload : list (string * json)) : Event :=
  mkEvent (uuid_str (4 * 16 ^ 19 + 8 * 16 ^ 15 + n)) "page.created" "feed" 5 payload None.
Definition sample_small : Event := sample_event 0 [("a", JInt 1)].
Definition no_events : event_tables := mkEventTables [] [].

Lemma event_deduped_witness :
  exists d1, create_or_get_by_dedupe (fun _ => "") 1000 " web " "k" sample_small (Some 60) None no_events =
    (Ok (with_key "web" "k" sample_small, true), d1) /\
  let d2 := foldl (fun d o => event_step (fun _ => "") o d) d1
    [OpCreate (sample_event 1 []); OpPrune 1059 10;
     OpCreateOrGet 1010 "web" "other" (sample_event 2 []) None None] in
  create_or_get_by_dedupe (fun _ => "") 1059 "web" " k" (sample_event 3 []) None None d2 =
    (Ok (with_key "web" "k" sample_small, false), d2) /\
  (create_or_get_by_dedupe (fun _ => "") 1060 "web" "k" (sample_event 3 []) None None d2).1 =
    Ok (with_key "web" "k" (sample_event 3 []), true).
Proof.
  edestruct (event_deduped (fun _ => "") 1000 " web " "k" sample_small (Some 60) None no_events) as (d1 & E & H).
  - constructor.
  - split; try (vm_compute; reflexivity); try (vm_compute; split; [reflexivity|discriminate]); [discriminate| |].
    + vm_compute. discriminate.
    + exists 7. vm_compute. split; [reflexivity|discriminate].
  - vm_compute. discriminate.
  - vm_compute. discriminate.
  - reflexivity.
  - reflexivity.
  - intros r. vm_compute. discriminate.
  - exists d1. split; [exact E|]. intros d2.
    edestruct (H [OpCreate (sample_event 1 []); OpPrune 1059 10; OpCreateOrGet 1010 "web" "other" (sample_event 2 []) None None])
      as [H1 H2].
    + repeat constructor; reflexivity.
    + split.
      * exact (H1 1059 "web" " k" (sample_event 3 []) None None eq_refl eq_refl eq_refl eq_refl).
      * refine (H2 1060 "web" "k" (sample_event 3 []) None None eq_refl eq_refl eq_refl _ _); [discriminate|].
        subst d2. rewrite <- (f_equal snd E : (create_or_get_by_dedupe _ _ _ _ _ _ _ _).2 = d1). vm_compute. reflexivity.
Defined.

Fixpoint xs (n : nat) : string := match n with O => "" | S n' => String "x"%char (xs n') end.
Lemma json_str_xs n : String.length (json_str (xs n)) = (n + 2)%nat.
Proof.
  unfold json_str. cbn [String.length]. enough (String.length (escape (xs n) +:+ String dquote "") = (n + 1)%nat) as -> by lia.
  induction n as [|n IH]; [done|]. cbn [xs escape]. change (escape_char "x"%char) with "x". autorewrite with text. cbn [String.length].
  by rewrite IH.
Qed.
Definition sample_large : Event := sample_event 0 [("a", JStr (xs (Z.to_nat 70000)))].
Lemma sample_large_bytes : payload_bytes (fun _ => "") (JObj (ev_payload sample_large)) = Ok 70008.
Proof.
  unfold payload_bytes, sample_large. remember (Z.to_nat 70000) as n eqn:E.
  change (compact_json _ _) with (Ok ("{" +:+ (json_str "a" +:+ ":" +:+ json_str (xs n)) +:+ "}")).
  cbn [mbind res_bind]. change (json_str "a") with (String dquote (String "a"%char (String dquote ""))).
  f_equal. rewrite !str_app_length, json_str_xs. cbn [String.length]. subst n. lia.
Qed.

Lemma large_event_unreadable_witness : exists d1 x,
  create_or_get_by_dedupe (fun _ => "") 1000 "web" "k" sample_large (Some 60) None no_events =
    (Ok (with_key "web" "k" sample_large, true), d1) /\
  create_or_get_by_dedupe (fun _ => "") 1059 "web" "k" sample_small None None d1 =
    (Raise (ValidationError [("payload", ValueError x)]), d1) /\
  get (fun _ => "") (event_id sample_large) d1 = (Raise (ValidationError [("payload", ValueError x)]), d1).
Proof.
  destruct (large_event_unreadable (fun _ => "") 1000 "web" "k" sample_large (Some 60) None no_events 100000 70008)
    as (d1 & x & E1 & E2 & E3).
  - split; try (vm_compute; reflexivity); try (vm_compute; split; [reflexivity|discriminate]); [discriminate| |].
    + vm_compute. discriminate.
    + exists 70008. split; [exact sample_large_bytes|discriminate].
  - exact sample_large_bytes.
  - reflexivity.
  - discriminate.
  - discriminate.
  - reflexivity.
  - reflexivity.
  - intros r. discriminate.
  - exists d1, x. exact (conj E1 (conj (E2 1059 sample_small None None eq_refl eq_refl) E3)).
Defined.
