(* ===== verification/QueueSpec.v ===== *)
(** * What a task queue promises: [orchestrator/queue/semantics.py]

    A queue is seen through a map from envelope ids to items. [QueueLaws] says
    what each operation of the protocol [Queue] does to that map, as a step of
    an executable specification; the two in-memory queues are instances. The
    client theorems at the end are proved from the laws alone: the delivery
    attempts of an envelope strictly increase, and an envelope that has been
    acknowledged is not delivered again. *)

From Stdlib Require Import ZArith SpecFloat Lia Sorted.
From S2P Require Import Prelude PyFloat Uuid Models Envelope.

(** An envelope held by the queue: the envelope with its current availability,
    the attempt its next delivery carries, and the active lease with its
    deadline. *)
Record item := mkItem {
  it_env : TaskEnvelope;
  it_next : Z;
  it_lease : option (string * Z);
}.

Definition it_avail (it : item) : Z := env_available_at_ms (it_env it).

(** The item may be delivered at [now]. *)
Definition eligible (now : Z) (it : item) : Prop := it_lease it = None /\ it_avail it <= now.

#[export] Instance eligible_dec now it : Decision (eligible now it).
Proof. unfold eligible. apply _. Defined.

(** The item is leased under [lid]. *)
Definition leased_as (lid : string) (it : item) : Prop := fst <$> it_lease it = Some lid.

#[export] Instance leased_as_dec lid it : Decision (leased_as lid it).
Proof. unfold leased_as. apply _. Defined.

Definition it_set_avail (v : Z) (it : item) : item :=
  mkItem (env_set_available v (it_env it)) (it_next it) None.

(** The message of the [ValueError] for a duplicate envelope. *)
Definition already_enqueued (id : string) : exn :=
  ValueError ("envelope already enqueued: '" +:+ id +:+ "'").

(** The operations of the protocol [Queue], at a clock reading [now], without
    waiting ([wait_s=0]). [fresh] is the identifier [uuid4] returns. *)
Class QueueOps (Q : Type) := {
  q_view : Q -> gmap string item;
  (** the availability of an item whose lease expires, from its former one *)
  q_redeliver : Z -> Z -> Z;
  (** lease ids the queue still refers to *)
  q_used : Q -> string -> Prop;
  q_closed : Q -> bool;
  q_ok : Q -> Prop;
  q_default_timeout : Q -> spec_float;
  q_enqueue : Z -> TaskEnvelope -> st Q unit;
  q_dequeue : string -> Z -> option spec_float -> st Q (option Lease);
  q_ack : Z -> Lease -> st Q unit;
  q_nack : Z -> Lease -> option spec_float -> st Q unit;
}.

Section spec.
Context {Q : Type} {QO : QueueOps Q}.

(** A lease is over once its deadline is reached. *)
Definition expire_item (now : Z) (it : item) : item :=
  match it_lease it with
  | Some (_, deadline) =>
      if deadline <=? now then it_set_avail (q_redeliver now (it_avail it)) it else it
  | None => it
  end.

(** The queue as it stands at [now]. *)
Definition observe (now : Z) (q : Q) : gmap string item := expire_item now <$> q_view q.

(** Nothing in the map is due to expire. *)
Definition settled (now : Z) (m : gmap string item) : Prop :=
  forall id it, m !! id = Some it -> expire_item now it = it.

(** *** The specification of the operations on maps *)
Definition spec_enqueue (e : TaskEnvelope) (m : gmap string item) : gmap string item :=
  <[envelope_id e := mkItem e (attempt e) None]> m.

Definition spec_lease (fresh : string) (now : Z) (vt : spec_float) (it : item) : Lease :=
  mkLease fresh (env_copy (it_next it) (it_avail it) (it_env it)) now vt (it_next it).

Definition spec_dequeue (fresh : string) (now ms : Z) (id : string) (it : item)
    (m : gmap string item) : gmap string item :=
  expire_item now <$>
    <[id := mkItem (it_env it) (it_next it + 1) (Some (fresh, now + ms))]> m.

Definition spec_ack (l : Lease) (m : gmap string item) : gmap string item :=
  filter (fun p => ~ leased_as (lease_id l) p.2) m.

Definition spec_nack (now ms : Z) (l : Lease) (m : gmap string item) : gmap string item :=
  (fun it => if decide (leased_as (lease_id l) it) then it_set_avail (now + ms) it else it) <$> m.

Lemma expire_unleased now it : it_lease it = None -> expire_item now it = it.
Proof. unfold expire_item. by intros ->. Qed.

Lemma expire_item_idemp now it : expire_item now (expire_item now it) = expire_item now it.
Proof.
  unfold expire_item at 2 3. destruct (it_lease it) as [[l d]|] eqn:E; [|by apply expire_unleased].
  destruct (d <=? now) eqn:Ed; [done|]. unfold expire_item. by rewrite E, Ed.
Qed.

Lemma settled_observe now q : settled now (observe now q).
Proof.
  intros id it. unfold observe. rewrite lookup_fmap_Some. intros (it' & <- & _). apply expire_item_idemp.
Qed.

Lemma settled_expire now m : settled now m -> expire_item now <$> m = m.
Proof.
  intros Hm. apply map_eq. intros id. rewrite lookup_fmap. destruct (m !! id) eqn:E; [|done].
  cbn. f_equal. by eapply Hm.
Qed.

Lemma settled_insert now id it m : settled now m -> expire_item now it = it -> settled now (<[id := it]> m).
Proof. intros Hm Hi id' it' [[-> ->]|[_ H]]%lookup_insert_Some; [done|]. by eapply Hm. Qed.

Lemma settled_enqueue now e m : settled now m -> settled now (spec_enqueue e m).
Proof. intros Hm. by apply settled_insert. Qed.

Lemma settled_ack now l m : settled now m -> settled now (spec_ack l m).
Proof. intros Hm id it [H _]%map_lookup_filter_Some. by eapply Hm. Qed.

Lemma settled_nack now ms l m : settled now m -> settled now (spec_nack now ms l m).
Proof.
  intros Hm id it. unfold spec_nack. rewrite lookup_fmap_Some. intros (it' & <- & H).
  case_decide; [done|]. by eapply Hm.
Qed.

(** What an operation leaves is what is observed, up to leases that are over. *)
Lemma observe_settled now q m : settled now m -> q_view q = m -> observe now q = m.
Proof. intros Hm Hv. unfold observe. rewrite Hv. by apply settled_expire. Qed.
End spec.
#[export] Hint Resolve settled_observe settled_enqueue settled_ack settled_nack : py.

(** The timeout given to [dequeue], or the default of the queue. *)
Definition timeout_or {Q} `{QueueOps Q} (q : Q) (t : option spec_float) : spec_float :=
  default (q_default_timeout q) t.
Definition delay_or_zero (d : option spec_float) : spec_float := default fzero d.

Class QueueLaws (Q : Type) `{QueueOps Q} : Prop := {
  law_enqueue (q : Q) now e : q_ok q -> q_closed q = false -> 0 <= attempt e ->
    let '(r, q') := q_enqueue now e q in
    q_ok q' /\ q_closed q' = false /\
    match observe now q !! envelope_id e with
    | Some _ => r = Raise (already_enqueued (envelope_id e)) /\ observe now q' = observe now q
    | None => r = Ok tt /\ observe now q' = spec_enqueue e (observe now q)
    end;
  law_dequeue (q : Q) fresh now t ms : q_ok q -> q_closed q = false ->
    is_uuid4_str fresh = true -> ~ q_used q fresh -> 0 <= now ->
    isfinite (timeout_or q t) = true -> flt fzero (timeout_or q t) = true ->
    ms_of_s (timeout_or q t) = Ok ms ->
    exists l q', q_dequeue fresh now t q = (Ok l, q') /\ q_ok q' /\ q_closed q' = false /\
    match l with
    | Some l => exists id it, observe now q !! id = Some it /\ eligible now it /\
        envelope_id (it_env it) = id /\
        l = spec_lease fresh now (timeout_or q t) it /\
        observe now q' = spec_dequeue fresh now ms id it (observe now q)
    | None => (forall id it, observe now q !! id = Some it -> ~ eligible now it) /\
        observe now q' = observe now q
    end;
  law_ack (q : Q) now l : q_ok q -> q_closed q = false ->
    exists q', q_ack now l q = (Ok tt, q') /\ q_ok q' /\ q_closed q' = false /\
    observe now q' = spec_ack l (observe now q);
  law_nack (q : Q) now l d ms : q_ok q -> q_closed q = false ->
    isfinite (delay_or_zero d) = true -> fle fzero (delay_or_zero d) = true ->
    ms_of_s (delay_or_zero d) = Ok ms ->
    exists q', q_nack now l d q = (Ok tt, q') /\ q_ok q' /\ q_closed q' = false /\
    observe now q' = spec_nack now ms l (observe now q);
}.

(** ** Clients of the laws *)

(** A call together with what the environment supplies. A call whose arguments
    the queue refuses is not part of a history. *)
Inductive call :=
| CEnqueue (now : Z) (e : TaskEnvelope)
| CDequeue (fresh : string) (now : Z) (t : option spec_float)
| CAck (now : Z) (l : Lease)
| CNack (now : Z) (l : Lease) (d : option spec_float).

Section client.
Context {Q : Type} `{QL : QueueLaws Q}.

Definition call_ok (q : Q) (c : call) : Prop :=
  match c with
  | CEnqueue _ e => 0 <= attempt e
  | CDequeue fresh now t =>
      is_uuid4_str fresh = true /\ ~ q_used q fresh /\ 0 <= now /\
      isfinite (timeout_or q t) = true /\ flt fzero (timeout_or q t) = true /\
      is_ok (ms_of_s (timeout_or q t)) = true
  | CAck _ _ => True
  | CNack _ _ d =>
      isfinite (delay_or_zero d) = true /\ fle fzero (delay_or_zero d) = true /\
      is_ok (ms_of_s (delay_or_zero d)) = true
  end.

(** The call: the lease it returns, if any, and the queue after it. *)
Definition perform (c : call) (q : Q) : option Lease * Q :=
  match c with
  | CEnqueue now e => (None, (q_enqueue now e q).2)
  | CDequeue fresh now t =>
      let '(r, q') := q_dequeue fresh now t q in
      (match r with Ok l => l | Raise _ => None end, q')
  | CAck now l => (None, (q_ack now l q).2)
  | CNack now l d => (None, (q_nack now l d q).2)
  end.

(** The leases delivered by a history of calls. *)
Inductive history : Q -> list call -> list Lease -> Q -> Prop :=
| history_nil q : history q [] [] q
| history_cons q c l q1 cs ls q' :
    call_ok q c -> perform c q = (l, q1) -> history q1 cs ls q' ->
    history q (c :: cs) (option_list l ++ ls) q'.

(** The history of a list of calls, computed. *)
Fixpoint run_calls (cs : list call) (q : Q) : list Lease * Q :=
  match cs with
  | [] => ([], q)
  | c :: cs' =>
      let '(ls, q') := run_calls cs' (perform c q).2 in (option_list (perform c q).1 ++ ls, q')
  end.

Fixpoint calls_ok (cs : list call) (q : Q) : Prop :=
  match cs with [] => True | c :: cs' => call_ok q c /\ calls_ok cs' (perform c q).2 end.

Lemma run_calls_history cs q : calls_ok cs q -> history q cs (run_calls cs q).1 (run_calls cs q).2.
Proof.
  revert q. induction cs as [|c cs IH]; intros q; cbn; [constructor|]. intros [Hc Hcs].
  apply IH in Hcs. destruct (perform c q) as [l q1] eqn:E. cbn in *.
  destruct (run_calls cs q1) as [ls q']. cbn in *. by econstructor.
Qed.

Definition enqueues (id : string) (c : call) : bool :=
  match c with CEnqueue _ e => bool_decide (envelope_id e = id) | _ => false end.

(** The attempts with which [id] was delivered. *)
Definition deliveries (id : string) (ls : list Lease) : list Z :=
  lease_attempt <$> filter (fun l => envelope_id (lease_envelope l) = id) ls.

(** The attempt the next delivery of [id] carries. *)
Definition next_of (q : Q) (id : string) : option Z := it_next <$> q_view q !! id.

Lemma next_expire now it : it_next (expire_item now it) = it_next it.
Proof. unfold expire_item, it_set_avail. destruct (it_lease it) as [[l d]|]; [|done]. by destruct (d <=? now). Qed.

Lemma next_of_observe now q id : next_of q id = it_next <$> observe now q !! id.
Proof.
  unfold next_of, observe. rewrite lookup_fmap. destruct (q_view q !! id); cbn; [|done].
  by rewrite next_expire.
Qed.

(** One call, as seen by the envelope [id]. *)
Lemma perform_next c q l q' id : q_ok q -> q_closed q = false -> call_ok q c ->
  perform c q = (l, q') -> enqueues id c = false ->
  q_ok q' /\ q_closed q' = false /\
  match l with
  | Some l =>
      if decide (envelope_id (lease_envelope l) = id)
      then next_of q id = Some (lease_attempt l) /\ next_of q' id = Some (lease_attempt l + 1)
      else next_of q' id = next_of q id
  | None => next_of q' id = next_of q id \/ next_of q' id = None
  end.
Proof.
  intros Hok Hcl Hc Hp He. destruct c as [now e|fresh now t|now lo|now lo d]; cbn in Hp.
  - pose proof (law_enqueue q now e Hok Hcl Hc) as HL. destruct (q_enqueue now e q) as [r q1]. cbn in Hp.
    simplify_eq. destruct HL as (? & ? & HL). split_and!; [done..|]. left.
    rewrite !(next_of_observe now). apply bool_decide_eq_false in He.
    destruct (observe now q !! envelope_id e); destruct HL as [_ ->]; [done|].
    unfold spec_enqueue. by rewrite lookup_insert_ne.
  - destruct Hc as (Hu & Hf & Hn & Hfin & Hpos & Hms).
    destruct (ms_of_s (timeout_or q t)) as [ms|] eqn:Ems; [|done].
    destruct (law_dequeue q fresh now t ms) as (lo & q1 & E & ? & ? & HL); [done..|].
    rewrite E in Hp. simplify_eq. split_and!; [done..|]. rewrite !(next_of_observe now).
    destruct l as [l|]; [|left; by destruct HL as [_ ->]].
    destruct HL as (id' & it & Hit & _ & Hid & -> & ->). cbn. rewrite Hid. unfold spec_dequeue.
    rewrite lookup_fmap. case_decide as Hd.
    + subst id. rewrite lookup_insert_eq, Hit. cbn [fmap option_fmap option_map]. by rewrite next_expire.
    + rewrite lookup_insert_ne by done. destruct (observe now q !! id); cbn; [|done].
      by rewrite next_expire.
  - destruct (law_ack q now lo) as (q1 & E & ? & ? & HL); [done..|]. rewrite E in Hp. simplify_eq. cbn [snd].
    split_and!; [done..|]. rewrite !(next_of_observe now), HL. unfold spec_ack.
    rewrite map_lookup_filter. destruct (observe now q !! id) as [it|]; cbn; [|by left].
    case_guard; [by left|by right].
  - destruct Hc as (Hfin & Hpos & Hms). destruct (ms_of_s (delay_or_zero d)) as [ms|] eqn:Ems; [|done].
    destruct (law_nack q now lo d ms) as (q1 & E & ? & ? & HL); [done..|]. rewrite E in Hp. simplify_eq. cbn [snd].
    split_and!; [done..|]. left. rewrite !(next_of_observe now), HL. unfold spec_nack.
    rewrite lookup_fmap. destruct (observe now q !! id) as [it|]; cbn; [|done]. by case_decide.
Qed.

Lemma deliveries_cons id l ls : deliveries id (l :: ls) =
  if decide (envelope_id (lease_envelope l) = id) then lease_attempt l :: deliveries id ls
  else deliveries id ls.
Proof. unfold deliveries. rewrite filter_cons. by case_decide. Qed.

(** The deliveries of an envelope that is not enqueued in the meantime start
    at its next attempt and strictly increase; without one there are none. *)
Lemma history_deliveries q cs ls q' id : history q cs ls q' -> q_ok q -> q_closed q = false ->
  Forall (fun c => enqueues id c = false) cs ->
  StronglySorted Z.lt (deliveries id ls) /\
  match next_of q id with
  | Some n => Forall (fun a => n <= a) (deliveries id ls)
  | None => deliveries id ls = []
  end.
Proof.
  induction 1 as [q|q c l q1 cs ls q' Hc Hp Hh IH]; intros Hok Hcl Hcs.
  - cbn. split; [constructor|]. by destruct (next_of q id).
  - inversion Hcs as [|? ? Hc1 Hcs1]; subst.
    destruct (perform_next c q l q1 id) as (Hok1 & Hcl1 & Hl); [done..|].
    destruct (IH Hok1 Hcl1 Hcs1) as [Hs Hn]. clear IH.
    destruct l as [l|]; [change (option_list (Some l) ++ ls) with (l :: ls)|change (option_list (@None Lease) ++ ls) with ls].
    + rewrite deliveries_cons. destruct (decide (envelope_id (lease_envelope l) = id)) as [Hid|Hid]; cbn.
      * destruct Hl as [E1 E2]. rewrite E1. rewrite E2 in Hn. split.
        -- constructor; [done|]. eapply Forall_impl; [exact Hn|]. cbn. lia.
        -- constructor; [lia|]. eapply Forall_impl; [exact Hn|]. cbn. lia.
      * rewrite Hl in Hn. done.
    + split; [done|]. destruct Hl as [E|E]; rewrite E in Hn; [done|]. rewrite Hn. by destruct (next_of q id).
Qed.

(** After the active lease of an envelope is acknowledged in time, the envelope
    is delivered no more. *)
Lemma history_after_ack q now l id it q1 cs ls q' : q_ok q -> q_closed q = false ->
  observe now q !! id = Some it -> leased_as (lease_id l) it -> q1 = (q_ack now l q).2 ->
  history q1 cs ls q' -> Forall (fun c => enqueues id c = false) cs -> deliveries id ls = [].
Proof.
  intros Hok Hcl Hit Hl -> Hh Hcs. destruct (law_ack q now l Hok Hcl) as (q2 & E & Hok2 & Hcl2 & Hv).
  rewrite E in Hh. cbn in Hh. destruct (history_deliveries q2 cs ls q' id) as [_ Hn]; [done..|].
  rewrite (next_of_observe now), Hv in Hn. unfold spec_ack in Hn.
  rewrite map_lookup_filter, Hit in Hn. cbn in Hn. rewrite option_guard_False in Hn by tauto. done.
Qed.
End client.
