(* ===== verification/TaskQueue.v ===== *)
(** * The heap queue: [infra/queue/task_queue_in_memory.py]

    [InMemoryTaskQueue]: envelope states in a dictionary, leases in a second
    one (iterated, hence an association list), and a heap of availability
    entries that may be stale. A mutated [_EnvelopeState] is written back to
    the dictionary that owns it. The queue is an instance of the laws of
    [QueueSpec]; [lost_on_overflow] shows what a non-finite timeout does. *)

From Stdlib Require Import ZArith SpecFloat Lia Sorted.
From S2P Require Import Prelude PyFloat Uuid Models Envelope QueueSpec.

Module TaskQueue.

Record EnvelopeState := mkState {
  st_envelope : TaskEnvelope;
  st_available_at_ms : Z;
  st_priority : Z;
  st_seq : Z;
  st_version : Z;
  st_next_attempt : Z;
  st_active_lease_id : option string;
  st_leased_until_ms : option Z;
}.

(** [(available_at_ms, -priority, version, seq, envelope_id)] *)
Definition entry : Type := Z * (Z * (Z * (Z * string))).
Definition entry_id (e : entry) : string := e.2.2.2.2.

Record t := mkQueue {
  default_visibility_timeout_s : spec_float;
  closed : bool;
  seq : Z;
  states : gmap string EnvelopeState;
  leases : list (string * string);
  available_heap : list entry;
}.

Definition init (default_timeout : spec_float) : res t :=
  raise_if (fle default_timeout fzero) (ValueError "default_visibility_timeout_s must be > 0");;
  Ok (mkQueue default_timeout false 0 ∅ [] []).

Definition set_states s (q : t) : t :=
  mkQueue (default_visibility_timeout_s q) (closed q) (seq q) s (leases q) (available_heap q).
Definition set_leases l (q : t) : t :=
  mkQueue (default_visibility_timeout_s q) (closed q) (seq q) (states q) l (available_heap q).
Definition set_heap h (q : t) : t :=
  mkQueue (default_visibility_timeout_s q) (closed q) (seq q) (states q) (leases q) h.
Definition incr_seq (q : t) : t :=
  mkQueue (default_visibility_timeout_s q) (closed q) (seq q + 1) (states q) (leases q) (available_heap q).

Definition state_entry (id : string) (s : EnvelopeState) : entry :=
  (st_available_at_ms s, (- st_priority s, (st_version s, (st_seq s, id)))).

(** The state without its lease, available from [v]. *)
Definition st_release (v : Z) (s : EnvelopeState) : EnvelopeState :=
  mkState (st_envelope s) v (st_priority s) (st_seq s) (st_version s) (st_next_attempt s) None None.
Definition st_lease (lid : string) (until : Z) (s : EnvelopeState) : EnvelopeState :=
  mkState (st_envelope s) (st_available_at_ms s) (st_priority s) (st_seq s) (st_version s)
    (st_next_attempt s) (Some lid) (Some until).
Definition st_incr_attempt (s : EnvelopeState) : EnvelopeState :=
  mkState (st_envelope s) (st_available_at_ms s) (st_priority s) (st_seq s) (st_version s)
    (st_next_attempt s + 1) (st_active_lease_id s) (st_leased_until_ms s).
Definition st_incr_version (s : EnvelopeState) : EnvelopeState :=
  mkState (st_envelope s) (st_available_at_ms s) (st_priority s) (st_seq s) (st_version s + 1)
    (st_next_attempt s) (st_active_lease_id s) (st_leased_until_ms s).

Definition push_available (id : string) (s : EnvelopeState) (q : t) : t :=
  let s := st_incr_version s in
  set_heap (heappush (state_entry id s) (available_heap q)) (set_states (<[id := s]> (states q)) q).

Definition enqueue (now : Z) (e : TaskEnvelope) : st t unit := fun q =>
  if closed q then (Raise (QueueClosed "queue is closed"), q)
  else match states q !! envelope_id e with
  | Some _ => (Raise (already_enqueued (envelope_id e)), q)
  | None =>
      let s := mkState e (env_available_at_ms e) (default 0 (priority e)) (seq q) 0 (attempt e) None None in
      (Ok tt, push_available (envelope_id e) s (incr_seq q))
  end.

(** [_release_expired_leases]: the leases to release, then the loop over them. *)
Definition lease_expired (now : Z) (q : t) (p : string * string) : bool :=
  match states q !! p.2 with
  | None => true
  | Some s => match st_leased_until_ms s with None => true | Some until => until <=? now end
  end.

Definition release_one (q : t) (p : string * string) : t :=
  let q := set_leases (adel p.1 (leases q)) q in
  match states q !! p.2 with
  | None => q
  | Some s =>
      if decide (st_active_lease_id s = Some p.1)
      then push_available p.2 (st_release (st_available_at_ms s) s) q
      else q
  end.

Definition release_expired_leases (now : Z) (q : t) : t :=
  fold_left release_one (List.filter (lease_expired now q) (leases q)) q.

(** Is the heap entry out of date? *)
Definition stale (q : t) (e : entry) (s : EnvelopeState) : bool :=
  let '(available, (neg_priority, (version, (sq, _)))) := e in
  negb (st_version s =? version) || negb (st_seq s =? sq)
  || is_set (st_active_lease_id s)
  || negb (available =? st_available_at_ms s) || negb (neg_priority =? - st_priority s).

(** The [while] loop of [dequeue]: the state to lease, if any, and the heap
    left; every iteration pops the smallest entry. *)
Fixpoint scan (now : Z) (q : t) (heap : list entry) : option (string * EnvelopeState) * list entry :=
  match heap with
  | [] => (None, [])
  | e :: rest =>
      match states q !! entry_id e with
      | None => scan now q rest
      | Some s =>
          if stale q e s then scan now q rest
          else if now <? st_available_at_ms s then (None, heappush e rest)
          else (Some (entry_id e, s), rest)
      end
  end.

Definition dequeue (fresh : string) (now : Z) (timeout_s : option spec_float) : st t (option Lease) := fun q =>
  if closed q then (Raise (QueueClosed "queue is closed"), q)
  else
    let vt := default (default_visibility_timeout_s q) timeout_s in
    if fle vt fzero then (Raise (ValueError "timeout_s must be > 0"), q)
    else
      let q := release_expired_leases now q in
      let '(found, heap) := scan now q (available_heap q) in
      let q := set_heap heap q in
      match found with
      | None => (Ok None, q)
      | Some (id, s) =>
          let attempt := st_next_attempt s in
          let s := st_incr_attempt s in
          let q := set_states (<[id := s]> (states q)) q in
          match ms_of_s vt with
          | Raise e => (Raise e, q)
          | Ok ms =>
              let s := st_lease fresh (now + ms) s in
              let q := set_leases (aset fresh id (leases q)) (set_states (<[id := s]> (states q)) q) in
              let leased_envelope := env_copy attempt (st_available_at_ms s) (st_envelope s) in
              (Some <$> Lease_validate (mkLease fresh leased_envelope now vt attempt), q)
          end
      end.

(** The state leased under the id of [l], as [ack] and [nack] look it up. *)
Definition find_leased (l : Lease) (q : t) : option (string * EnvelopeState) :=
  match aget (lease_id l) (leases q) with
  | None => None
  | Some id =>
      match states q !! id with
      | None => None
      | Some s => if decide (st_active_lease_id s = Some (lease_id l)) then Some (id, s) else None
      end
  end.

Definition ack (now : Z) (l : Lease) : st t unit := fun q =>
  if closed q then (Raise (QueueClosed "queue is closed"), q)
  else
    let q := release_expired_leases now q in
    match find_leased l q with
    | None => (Ok tt, q)
    | Some (id, _) => (Ok tt, set_states (delete id (states q)) (set_leases (adel (lease_id l) (leases q)) q))
    end.

Definition nack (now : Z) (l : Lease) (delay_s : option spec_float) : st t unit := fun q =>
  if closed q then (Raise (QueueClosed "queue is closed"), q)
  else
    let delay := default fzero delay_s in
    if flt delay fzero then (Raise (ValueError "delay_s must be >= 0"), q)
    else
      let q := release_expired_leases now q in
      match find_leased l q with
      | None => (Ok tt, q)
      | Some (id, s) =>
          let released := st_release (st_available_at_ms s) s in
          match ms_of_s delay with
          | Raise e => (Raise e, set_states (<[id := released]> (states q)) q)
          | Ok ms =>
              let s := st_release (now + ms) s in
              (Ok tt, push_available id s (set_leases (adel (lease_id l) (leases q)) q))
          end
      end.

Definition aclose (q : t) : t :=
  mkQueue (default_visibility_timeout_s q) true (seq q) ∅ [] [].

(** ** The view of the queue *)
Definition view_item (s : EnvelopeState) : item :=
  mkItem (env_set_available (st_available_at_ms s) (st_envelope s)) (st_next_attempt s)
    match st_active_lease_id s, st_leased_until_ms s with
    | Some lid, Some until => Some (lid, until)
    | _, _ => None
    end.

Record state_ok (q : t) (id : string) (s : EnvelopeState) : Prop := {
  so_id : envelope_id (st_envelope s) = id;
  so_next : 0 <= st_next_attempt s;
  so_lease : st_active_lease_id s = None <-> st_leased_until_ms s = None;
  so_heap : st_active_lease_id s = None -> state_entry id s ∈ available_heap q;
}.

Record ok (q : t) : Prop := {
  ok_heap : heap_ok (available_heap q);
  ok_leases : NoDup (keys (leases q));
  ok_states : forall id s, states q !! id = Some s -> state_ok q id s;
  ok_active : forall lid id, aget lid (leases q) = Some id <->
    exists s, states q !! id = Some s /\ st_active_lease_id s = Some lid;
}.

#[export] Instance ops : QueueOps t := {
  q_view q := view_item <$> states q;
  q_redeliver _ available := available;
  q_used q lid := lid ∈ keys (leases q);
  q_closed := closed;
  q_ok := ok;
  q_default_timeout := default_visibility_timeout_s;
  q_enqueue := enqueue;
  q_dequeue := dequeue;
  q_ack := ack;
  q_nack := nack;
}.

(** ** The invariant *)

Definition view (q : t) : gmap string item := view_item <$> states q.

(** A state that is ready to be pushed. *)
Record unleased (id : string) (s : EnvelopeState) : Prop := {
  un_id : envelope_id (st_envelope s) = id;
  un_next : 0 <= st_next_attempt s;
  un_active : st_active_lease_id s = None;
  un_until : st_leased_until_ms s = None;
}.

(** The invariant of everything but the envelope [id], which has no lease. *)
Record ok_rest (id : string) (q : t) : Prop := {
  or_heap : heap_ok (available_heap q);
  or_leases : NoDup (keys (leases q));
  or_states : forall id' s, id' <> id -> states q !! id' = Some s -> state_ok q id' s;
  or_active : forall lid id', aget lid (leases q) = Some id' <->
    id' <> id /\ exists s, states q !! id' = Some s /\ st_active_lease_id s = Some lid;
}.

Lemma state_ok_mono q q' id s :
  (forall e, e ∈ available_heap q -> e ∈ available_heap q') -> state_ok q id s -> state_ok q' id s.
Proof. intros Hh []. by split; auto. Qed.

Lemma ok_rest_push id s q : ok_rest id q -> unleased id s -> ok (push_available id s q).
Proof.
  intros [Hh Hl Hs Ha] [Hid Hn Hac Hu]. split; cbn.
  - by apply heappush_ok.
  - done.
  - intros id' s' H. apply lookup_insert_Some in H as [[<- <-]|[Hne H]].
    + split; cbn; [done|done|by rewrite Hac, Hu|]. intros _. apply elem_of_heappush. by left.
    + eapply state_ok_mono; [|by apply Hs]. cbn. intros e He. apply elem_of_heappush. by right.
  - intros lid id'. rewrite Ha. split.
    + intros (Hne & s' & H1 & H2). exists s'. by rewrite lookup_insert_ne.
    + intros (s' & H1 & H2). apply lookup_insert_Some in H1 as [[<- <-]|[Hne H1]]; [cbn in H2; congruence|].
      split; [done|]. by exists s'.
Qed.

Lemma ok_rest_release lid id s q : ok q -> states q !! id = Some s -> st_active_lease_id s = Some lid ->
  ok_rest id (set_leases (adel lid (leases q)) q).
Proof.
  intros [Hh Hl Hs Ha] Hst Hac. split; cbn.
  - done.
  - by apply NoDup_keys_adel.
  - intros id' s' _ H. eapply state_ok_mono; [|by apply Hs]. done.
  - intros lid' id'. rewrite aget_adel by done. case_decide as E; [subst lid'|].
    + split; [done|]. intros (Hne & s' & H1 & H2). assert (aget lid (leases q) = Some id') by (apply Ha; eauto).
      assert (aget lid (leases q) = Some id) by (apply Ha; eauto). congruence.
    + rewrite Ha. split; [|naive_solver]. intros (s' & H1 & H2). split; [|by exists s'].
      intros ->. congruence.
Qed.

Lemma ok_rest_delete id q : ok_rest id q -> ok (set_states (delete id (states q)) q).
Proof.
  intros [Hh Hl Hs Ha]. split; cbn; [done|done| |].
  - intros id' s [Hne H]%lookup_delete_Some. eapply state_ok_mono; [|by apply Hs]. done.
  - intros lid id'. rewrite Ha. split.
    + intros (Hne & s & H1 & H2). exists s. by rewrite lookup_delete_ne.
    + intros (s & [Hne H1]%lookup_delete_Some & H2). eauto.
Qed.

Lemma ok_rest_new id q : ok q -> states q !! id = None -> ok_rest id (incr_seq q).
Proof.
  intros [Hh Hl Hs Ha] Hn. split; cbn; [done|done| |].
  - intros id' s _ H. eapply state_ok_mono; [|by apply Hs]. done.
  - intros lid id'. rewrite Ha. split; [|naive_solver]. intros (s & H1 & H2). split; [|by exists s].
    intros ->. congruence.
Qed.

Lemma view_push id s q : view (push_available id s q) = <[id := view_item s]> (view q).
Proof. unfold view. cbn. by rewrite fmap_insert. Qed.

(** *** Releasing expired leases *)
Definition release_item (lid : string) (it : item) : item :=
  if decide (leased_as lid it) then it_set_avail (it_avail it) it else it.

Lemma view_item_leased q id s lid : state_ok q id s ->
  leased_as lid (view_item s) <-> st_active_lease_id s = Some lid.
Proof.
  intros []. unfold leased_as, view_item. cbn.
  destruct (st_active_lease_id s), (st_leased_until_ms s); cbn; try done; naive_solver.
Qed.

Lemma view_lookup q id it : view q !! id = Some it <->
  exists s, states q !! id = Some s /\ it = view_item s.
Proof. unfold view. rewrite lookup_fmap_Some. naive_solver. Qed.

Lemma env_set_available_twice v w e : env_set_available v (env_set_available w e) = env_set_available v e.
Proof. done. Qed.

Lemma view_release v s : view_item (st_release v s) = it_set_avail v (view_item s).
Proof. done. Qed.

(** Only the state found through [leases] is leased under [lid]. *)
Lemma view_update_leased lid id s (f : item -> item) q : ok q ->
  aget lid (leases q) = Some id -> states q !! id = Some s ->
  <[id := f (view_item s)]> (view q) =
  (fun it => if decide (leased_as lid it) then f it else it) <$> view q.
Proof.
  intros Hok Hl Hs. apply map_eq. intros id'. rewrite lookup_fmap.
  assert (st_active_lease_id s = Some lid) as Hac.
  { apply (ok_active _ Hok) in Hl as (s' & H1 & H2). congruence. }
  destruct (decide (id' = id)) as [->|Hne].
  - rewrite lookup_insert_eq. unfold view. rewrite lookup_fmap, Hs. cbn. f_equal.
    rewrite decide_True; [done|]. eapply view_item_leased; [|done]. by eapply ok_states.
  - rewrite lookup_insert_ne by done. unfold view. rewrite lookup_fmap.
    destruct (states q !! id') as [s'|] eqn:E; cbn; [|done]. f_equal. rewrite decide_False; [done|].
    intros H%(view_item_leased q id'); [|by eapply ok_states]. apply Hne.
    assert (aget lid (leases q) = Some id') by (apply (ok_active _ Hok); eauto). congruence.
Qed.

Lemma release_one_ok q lid id : ok q -> aget lid (leases q) = Some id ->
  ok (release_one q (lid, id)) /\ view (release_one q (lid, id)) = release_item lid <$> view q /\
  leases (release_one q (lid, id)) = adel lid (leases q).
Proof.
  intros Hok Hl. pose proof Hl as (s & Hs & Hac)%(ok_active _ Hok). unfold release_one. cbn.
  rewrite Hs, decide_True by done. split; [|split].
  - apply ok_rest_push; [by eapply ok_rest_release|]. destruct (ok_states _ Hok _ _ Hs). by split.
  - rewrite view_push, view_release. unfold release_item.
    rewrite <- (view_update_leased lid id s (fun it => it_set_avail (it_avail it) it)) by done. done.
  - done.
Qed.

Definition release_items (lids : list string) (it : item) : item :=
  match it_lease it with
  | Some (lid, _) => if decide (lid ∈ lids) then it_set_avail (it_avail it) it else it
  | None => it
  end.

Lemma release_items_cons lid lids it :
  release_items lids (release_item lid it) = release_items (lid :: lids) it.
Proof.
  unfold release_items, release_item. destruct it as [e n [[l d]|]].
  - case_decide as H; unfold leased_as in H; cbn in *.
    + injection H as ->. rewrite decide_True by set_solver. done.
    + apply decide_ext. assert (l <> lid) by congruence. set_solver.
  - rewrite decide_False; [done|]. by unfold leased_as.
Qed.

Lemma release_fold_ok L q : ok q -> NoDup L.*1 -> (forall p, p ∈ L -> aget p.1 (leases q) = Some p.2) ->
  ok (fold_left release_one L q) /\ view (fold_left release_one L q) = release_items L.*1 <$> view q.
Proof.
  revert q. induction L as [|[lid id] L IH]; intros q Hok Hnd HL.
  - split; [done|]. cbn [fold_left]. symmetry. apply map_eq. intros id. rewrite lookup_fmap.
    destruct (view q !! id) as [it|]; [|done]. cbn. unfold release_items.
    destruct (it_lease it) as [[l d]|]; [|done]. rewrite decide_False; [done|]. set_solver.
  - cbn in Hnd. apply NoDup_cons in Hnd as [Hni Hnd]. cbn [fold_left].
    destruct (release_one_ok q lid id Hok) as (Hok' & Hv & Hl'); [by apply (HL (lid, id)); left|].
    destruct (IH (release_one q (lid, id))) as [H1 H2]; [done|done| |].
    + intros p Hp. rewrite Hl', aget_adel by apply Hok. rewrite decide_False; [apply HL; by right|].
      intros E. apply Hni. rewrite <- E. by apply list_elem_of_fmap_2.
    + split; [done|]. rewrite H2, Hv, <- map_fmap_compose. apply map_fmap_ext. intros i x _.
      cbn. apply release_items_cons.
Qed.

Lemma closed_release L q : closed (fold_left release_one L q) = closed q /\
  default_visibility_timeout_s (fold_left release_one L q) = default_visibility_timeout_s q /\
  (forall lid, lid ∈ keys (leases (fold_left release_one L q)) -> lid ∈ keys (leases q)).
Proof.
  revert q. induction L as [|p L IH]; intros q; [done|]. cbn [fold_left].
  destruct (IH (release_one q p)) as (-> & -> & H). unfold release_one, push_available in *.
  assert (forall lid, lid ∈ keys (adel p.1 (leases q)) -> lid ∈ keys (leases q)) as Hsub.
  { intros lid. unfold keys. generalize (leases q). induction l as [|[k v] l IHl]; [done|].
    rewrite fmap_cons. cbn [adel fst]. case_decide; [set_solver|]. rewrite fmap_cons. cbn [fst]. set_solver. }
  cbn in *. destruct (states q !! p.2) as [s|]; [|by split_and!; auto].
  case_decide; by split_and!; auto.
Qed.

Lemma in_keys {A} k (v : A) (l : list (string * A)) : (k, v) ∈ l -> k ∈ keys l.
Proof. intros H. unfold keys. by apply (list_elem_of_fmap_2 fst _ (k, v)). Qed.

Lemma elem_List_filter {A} (f : A -> bool) x (l : list A) : x ∈ List.filter f l <-> x ∈ l /\ f x = true.
Proof. rewrite !list_elem_of_In. apply filter_In. Qed.

Lemma NoDup_List_filter_keys {A} (f : string * A -> bool) (l : list (string * A)) :
  NoDup (keys l) -> NoDup (List.filter f l).*1.
Proof.
  unfold keys. induction l as [|p l IH]; [done|]. rewrite fmap_cons. intros [Hn Hd]%NoDup_cons.
  cbn [List.filter]. destruct (f p); [|by apply IH]. rewrite fmap_cons. apply NoDup_cons.
  split; [|by apply IH]. intros H. apply Hn. apply list_elem_of_fmap in H as (p' & -> & H).
  apply elem_List_filter in H as [H _]. by apply list_elem_of_fmap_2.
Qed.

(** Releasing the expired leases brings the queue to what is observed at [now]. *)
Lemma release_expired_ok now q : ok q ->
  ok (release_expired_leases now q) /\ view (release_expired_leases now q) = observe now q /\
  closed (release_expired_leases now q) = closed q /\
  default_visibility_timeout_s (release_expired_leases now q) = default_visibility_timeout_s q /\
  (forall lid, lid ∈ keys (leases (release_expired_leases now q)) -> lid ∈ keys (leases q)).
Proof.
  intros Hok. unfold release_expired_leases. set (L := List.filter _ _).
  assert (forall p, p ∈ L <-> p ∈ leases q /\ lease_expired now q p = true) as HL
    by (intros; apply elem_List_filter).
  destruct (release_fold_ok L q) as [H1 H2]; [done| | |].
  - by apply NoDup_List_filter_keys, ok_leases.
  - intros [lid id] [Hp _]%HL. cbn. by apply elem_aget; [apply ok_leases|].
  - destruct (closed_release L q) as (H3 & H4 & H5). split_and!; [done| |done..].
    rewrite H2. unfold observe. cbn. change (view_item <$> states q) with (view q).
    apply map_fmap_ext. intros id it (s & Hs & ->)%view_lookup.
    pose proof (ok_states _ Hok _ _ Hs) as Hso. unfold release_items, expire_item, view_item. cbn.
    destruct (st_active_lease_id s) as [lid|] eqn:Ea; [|done].
    destruct (st_leased_until_ms s) as [d|] eqn:Eu; [|done].
    assert (lid ∈ L.*1 <-> d <= now) as Hiff.
    { assert (aget lid (leases q) = Some id) as Hg by (apply (ok_active _ Hok); eauto).
      assert (lease_expired now q (lid, id) = (d <=? now)) as Hle
        by (unfold lease_expired; cbn; by rewrite Hs, Eu).
      rewrite list_elem_of_fmap. split.
      - intros ([lid' id'] & E & [Hp He]%HL). cbn in E. subst lid'.
        apply elem_aget in Hp; [|by apply ok_leases]. assert (id' = id) as -> by congruence.
        rewrite Hle in He. by apply Z.leb_le.
      - intros Hd. exists (lid, id). split; [done|]. apply HL. split; [by apply aget_Some_elem|].
        rewrite Hle. by apply Z.leb_le. }
    destruct (decide (lid ∈ L.*1)) as [Hin|Hin]; rewrite Hiff in Hin.
    + by rewrite (proj2 (Z.leb_le _ _)) by done.
    + by rewrite (proj2 (Z.leb_gt _ _)) by lia.
Qed.

(** *** The scan *)
Definition covers (q : t) (h : list entry) : Prop :=
  forall id s, states q !! id = Some s -> st_active_lease_id s = None -> state_entry id s ∈ h.

Lemma stale_false q e s : stale q e s = false <->
  e = state_entry (entry_id e) s /\ st_active_lease_id s = None.
Proof.
  destruct e as (a & p & v & sq & id). unfold stale, state_entry, entry_id. cbn.
  rewrite !orb_false_iff, !negb_false_iff, !Z.eqb_eq, is_set_false. split; [|naive_solver].
  intros ((((-> & ->) & ?) & ->) & ->). done.
Qed.

Lemma scan_ok now q h found h' : heap_ok h -> covers q h -> scan now q h = (found, h') ->
  heap_ok h' /\
  match found with
  | Some (id, s) =>
      states q !! id = Some s /\ st_active_lease_id s = None /\ st_available_at_ms s <= now /\
      (forall id' s', id' <> id -> states q !! id' = Some s' -> st_active_lease_id s' = None ->
        state_entry id' s' ∈ h')
  | None =>
      (forall id s, states q !! id = Some s -> st_active_lease_id s = None -> now < st_available_at_ms s) /\
      covers q h'
  end.
Proof.
  induction h as [|e h IH]; intros Hh Hc; cbn [scan].
  - intros [= <- <-]. split; [done|]. split; [|done]. intros id s H1 H2.
    apply (Hc id s H1) in H2. by apply elem_of_nil in H2.
  - assert (heap_ok h /\ forall y, y ∈ h -> ple e y = true) as [Hh' Hmin].
    { unfold heap_ok in *. inversion Hh; subst. split; [done|]. by apply Forall_forall. }
    destruct (states q !! entry_id e) as [s|] eqn:Es; [destruct (stale q e s) eqn:Est|].
    + apply IH; [done|]. intros id s' H1 H2. pose proof (Hc id s' H1 H2) as [<-|H]%elem_of_cons; [|done].
      cbn in Es. rewrite Es in H1. simplify_eq. exfalso.
      assert (stale q (state_entry id s') s' = false) by by apply stale_false. congruence.
    + apply stale_false in Est as [He Ha]. destruct (Z.ltb_spec now (st_available_at_ms s)) as [Hlt|Hle].
      * intros [= <- <-]. split; [by apply heappush_ok|]. split.
        -- intros id s' H1 H2. pose proof (Hc id s' H1 H2) as [Heq|Hin]%elem_of_cons.
           ++ rewrite He in Heq. injection Heq. intros. lia.
           ++ apply Hmin, ple_fst in Hin. rewrite He in Hin. cbn in Hin. lia.
        -- intros id s' H1 H2. apply elem_of_heappush. apply elem_of_cons. by apply Hc.
      * intros [= <- <-]. split; [done|]. split_and!; [done..|].
        intros id' s' Hne H1 H2. pose proof (Hc id' s' H1 H2) as [<-|H]%elem_of_cons; [|done].
        by destruct Hne.
    + apply IH; [done|]. intros id s' H1 H2. pose proof (Hc id s' H1 H2) as [<-|H]%elem_of_cons; [|done].
      cbn in Es. congruence.
Qed.

(** ** The laws *)
Lemma covers_ok q : ok q -> covers q (available_heap q).
Proof. intros Hok id s H1 H2. by apply (so_heap _ _ _ (ok_states _ Hok _ _ H1)). Qed.

Lemma find_leased_ok l q : ok q ->
  match find_leased l q with
  | Some (id, s) => aget (lease_id l) (leases q) = Some id /\ states q !! id = Some s /\
      st_active_lease_id s = Some (lease_id l)
  | None => forall id it, view q !! id = Some it -> ~ leased_as (lease_id l) it
  end.
Proof.
  intros Hok. unfold find_leased. destruct (aget (lease_id l) (leases q)) as [id|] eqn:E.
  - pose proof E as (s & Hs & Ha)%(ok_active _ Hok). rewrite Hs, decide_True by done. done.
  - intros id it (s & Hs & ->)%view_lookup. rewrite (view_item_leased q id) by (by eapply ok_states).
    intros Ha. assert (aget (lease_id l) (leases q) = Some id) by (apply (ok_active _ Hok); eauto). congruence.
Qed.

Lemma law_enqueue_ok q now e : ok q -> closed q = false -> 0 <= attempt e ->
  let '(r, q') := enqueue now e q in
  ok q' /\ closed q' = false /\
  match observe now q !! envelope_id e with
  | Some _ => r = Raise (already_enqueued (envelope_id e)) /\ observe now q' = observe now q
  | None => r = Ok tt /\ observe now q' = spec_enqueue e (observe now q)
  end.
Proof.
  intros Hok Hcl Ha. unfold enqueue. rewrite Hcl. unfold observe at 1; cbn [q_view ops].
  rewrite !lookup_fmap. destruct (states q !! envelope_id e) as [s|] eqn:E; [done|].
  split; [apply ok_rest_push; [by apply ok_rest_new|by split]|]. split; [done|]. split; [done|].
  unfold observe. cbn [q_view ops]. cbn. rewrite !fmap_insert.
  unfold spec_enqueue. f_equal. cbn. unfold view_item. cbn. by destruct e.
Qed.

Lemma law_ack_ok q now l : ok q -> closed q = false ->
  exists q', ack now l q = (Ok tt, q') /\ ok q' /\ closed q' = false /\
  observe now q' = spec_ack l (observe now q).
Proof.
  intros Hok Hcl. destruct (release_expired_ok now q Hok) as (Hok1 & Hv & Hcl1 & _).
  unfold ack. rewrite Hcl. set (q1 := release_expired_leases now q) in *.
  pose proof (find_leased_ok l q1 Hok1) as Hf. destruct (find_leased l q1) as [[id s]|].
  - destruct Hf as (Hl & Hs & Ha). eexists. split; [done|].
    split; [by apply (ok_rest_delete id (set_leases (adel (lease_id l) (leases q1)) q1)); eapply ok_rest_release|]. split; [cbn; congruence|].
    apply observe_settled; [auto with py|]. rewrite <- Hv. cbn. rewrite fmap_delete.
    change (view_item <$> states q1) with (view q1). apply map_eq. intros id'. unfold spec_ack.
    rewrite map_lookup_filter. destruct (decide (id' = id)) as [->|Hne].
    + rewrite lookup_delete_eq. destruct (view q1 !! id) as [it|] eqn:Eit; [|done]. cbn.
      rewrite option_guard_False; [done|]. cbn. intros Hn. apply Hn.
      apply view_lookup in Eit as (s' & Hs' & ->). rewrite (view_item_leased q1 id); [congruence|by apply ok_states].
    + rewrite lookup_delete_ne by done. destruct (view q1 !! id') as [it|] eqn:Eit; [|done]. cbn.
      rewrite option_guard_True; [done|]. cbn. intros Hn. apply Hne.
      apply view_lookup in Eit as (s' & Hs' & ->). rewrite (view_item_leased q1 id') in Hn by by apply ok_states.
      assert (aget (lease_id l) (leases q1) = Some id') by (apply (ok_active _ Hok1); eauto). congruence.
  - eexists. split; [done|]. split; [done|]. split; [congruence|].
    apply observe_settled; [auto with py|]. rewrite <- Hv. change (view q1 = spec_ack l (view q1)).
    unfold spec_ack. symmetry. apply map_filter_id. intros id it Hit. cbn. by eapply Hf.
Qed.

Lemma law_nack_ok q now l d ms : ok q -> closed q = false ->
  fle fzero (delay_or_zero d) = true -> ms_of_s (delay_or_zero d) = Ok ms ->
  exists q', nack now l d q = (Ok tt, q') /\ ok q' /\ closed q' = false /\
  observe now q' = spec_nack now ms l (observe now q).
Proof.
  intros Hok Hcl Hd Hms. destruct (release_expired_ok now q Hok) as (Hok1 & Hv & Hcl1 & _).
  unfold nack. rewrite Hcl. unfold delay_or_zero in *. rewrite Hms.
  assert (flt (default fzero d) fzero = false) as ->.
  { destruct (flt (default fzero d) fzero) eqn:E; [|done]. apply flt_not_ge in E. congruence. }
  set (q1 := release_expired_leases now q) in *.
  pose proof (find_leased_ok l q1 Hok1) as Hf. destruct (find_leased l q1) as [[id s]|].
  - destruct Hf as (Hl & Hs & Ha). eexists. split; [done|].
    split; [apply ok_rest_push; [by eapply ok_rest_release|]; destruct (ok_states _ Hok1 _ _ Hs); by split|].
    split; [cbn; congruence|]. apply observe_settled; [auto with py|]. rewrite <- Hv.
    change (view (push_available id (st_release (now + ms) s) (set_leases (adel (lease_id l) (leases q1)) q1))
      = spec_nack now ms l (view q1)).
    rewrite view_push, view_release. change (view (set_leases _ q1)) with (view q1).
    by apply (view_update_leased _ _ _ (it_set_avail (now + ms))).
  - eexists. split; [done|]. split; [done|]. split; [congruence|].
    apply observe_settled; [auto with py|]. rewrite <- Hv. change (view q1 = spec_nack now ms l (view q1)).
    apply map_eq. intros id. unfold spec_nack. rewrite lookup_fmap.
    destruct (view q1 !! id) as [it|] eqn:E; [|done]. cbn. rewrite decide_False; [done|]. by eapply Hf.
Qed.

(** The queue after the scan found the state of [id] and leased it. *)
Definition leased (fresh : string) (until : Z) (id : string) (s : EnvelopeState) (q : t) : t :=
  set_leases (aset fresh id (leases q))
    (set_states (<[id := st_lease fresh until (st_incr_attempt s)]> (states q)) q).

Lemma leased_ok fresh until id s q h : ok q -> states q !! id = Some s -> st_active_lease_id s = None ->
  fresh ∉ keys (leases q) -> heap_ok h ->
  (forall id' s', id' <> id -> states q !! id' = Some s' -> st_active_lease_id s' = None ->
    state_entry id' s' ∈ h) ->
  ok (leased fresh until id s (set_heap h q)).
Proof.
  intros [Hh Hl Hs Ha] Hst Hun Hf Hho Hcov. apply aget_None in Hf. split; cbn.
  - done.
  - by apply NoDup_keys_aset.
  - intros id' s' [[<- <-]|[Hne H]]%lookup_insert_Some.
    + destruct (Hs _ _ Hst). split; cbn; try done. lia.
    + destruct (Hs _ _ H). split; try done. intros Hn. by apply (Hcov id' s').
  - intros lid id'. rewrite aget_aset. case_decide as E; [subst lid|].
    + split.
      * intros [= <-]. exists (st_lease fresh until (st_incr_attempt s)). by rewrite lookup_insert_eq.
      * intros (s' & [[<- <-]|[Hne H]]%lookup_insert_Some & Hac); [done|].
        assert (aget fresh (leases q) = Some id') by (apply Ha; eauto). congruence.
    + rewrite Ha. split.
      * intros (s' & H1 & H2). exists s'. rewrite lookup_insert_ne; [done|]. intros ->. congruence.
      * intros (s' & [[<- <-]|[Hne H]]%lookup_insert_Some & Hac); [cbn in Hac; congruence|]. eauto.
Qed.

Lemma law_dequeue_ok q fresh now tm ms : ok q -> closed q = false ->
  is_uuid4_str fresh = true -> fresh ∉ keys (leases q) -> 0 <= now ->
  isfinite (timeout_or q tm) = true -> flt fzero (timeout_or q tm) = true ->
  ms_of_s (timeout_or q tm) = Ok ms ->
  exists l q', dequeue fresh now tm q = (Ok l, q') /\ ok q' /\ closed q' = false /\
  match l with
  | Some l => exists id it, observe now q !! id = Some it /\ eligible now it /\
      envelope_id (it_env it) = id /\
      l = spec_lease fresh now (timeout_or q tm) it /\
      observe now q' = spec_dequeue fresh now ms id it (observe now q)
  | None => (forall id it, observe now q !! id = Some it -> ~ eligible now it) /\
      observe now q' = observe now q
  end.
Proof.
  intros Hok Hcl Hu Hf Hn Hfin Hpos Hms.
  destruct (release_expired_ok now q Hok) as (Hok1 & Hv & Hcl1 & Hd1 & Hk1).
  unfold dequeue. rewrite Hcl. unfold timeout_or in *; cbn [q_default_timeout ops] in *.
  rewrite (flt_not_ge _ _ Hpos), Hms. set (q1 := release_expired_leases now q) in *.
  set (vt := default _ tm) in *.
  destruct (scan now q1 (available_heap q1)) as [found h] eqn:Esc.
  apply scan_ok in Esc as [Hh Hsc]; [|apply Hok1|by apply covers_ok].
  destruct found as [[id s]|].
  - destruct Hsc as (Hs & Ha & Hav & Hcov). destruct (ok_states _ Hok1 _ _ Hs) as [Hid Hnx Hle _].
    rewrite Lease_validate_ok; [|done|done|done|by apply flt_not_ge|done|done].
    eexists (Some _), (leased fresh (now + ms) id s (set_heap h q1)). split.
    { cbn. unfold leased. cbn. by rewrite insert_insert_eq. }
    split; [apply leased_ok; try done; by intros ?%Hk1|]. split; [cbn; congruence|].
    exists id, (view_item s). assert (st_leased_until_ms s = None) as Hun by by apply Hle.
    rewrite <- Hv. split; [by apply view_lookup; exists s|]. split.
    { split; [|done]. unfold view_item. cbn. by rewrite Ha. }
    split; [done|]. split; [done|].
    unfold observe, spec_dequeue. cbn [q_view ops]. f_equal. cbn. rewrite fmap_insert. done.
  - destruct Hsc as [Hlt Hcov]. eexists None, _. split; [done|]. split.
    { split; [done|apply Hok1| |apply Hok1]. intros id s H. destruct (ok_states _ Hok1 _ _ H).
      split; try done. by apply Hcov. }
    split; [cbn; congruence|]. split.
    + intros id it. rewrite <- Hv. intros (s & Hs & ->)%view_lookup [Hl Hav]. cbn in Hav.
      destruct (ok_states _ Hok1 _ _ Hs) as [_ _ Hle _]. assert (now < st_available_at_ms s); [|lia].
      apply (Hlt id); [done|]. unfold view_item in Hl. cbn in Hl.
      destruct (st_active_lease_id s), (st_leased_until_ms s); try done. by apply Hle.
    + apply observe_settled; [auto with py|]. by rewrite <- Hv.
Qed.

#[export] Instance laws : QueueLaws t.
Proof.
  split.
  - apply law_enqueue_ok.
  - apply law_dequeue_ok.
  - apply law_ack_ok.
  - intros q now l d ms H1 H2 _. by apply law_nack_ok.
Qed.

Lemma init_ok d q : init d = Ok q -> ok q /\ closed q = false /\ view q = ∅.
Proof.
  unfold init. intros (u & _ & [= <-])%res_bind_Ok. split; [|done].
  split; cbn; [constructor|constructor|done|]. intros. split; [done|]. by intros (s & ? & ?).
Qed.
End TaskQueue.

(** ** Properties *)
Import TaskQueue.

Definition sample_envelope (n : Z) : TaskEnvelope :=
  mkTaskEnvelope (uuid_str (4 * 16 ^ 19 + 8 * 16 ^ 15 + n)) "00000000-0000-4000-8000-00000000000b"
    "00000000-0000-4000-8000-00000000000c" 0 1000 1000 None None None None.
Definition sample_lease_id (n : Z) : string := uuid_str (4 * 16 ^ 19 + 8 * 16 ^ 15 + 1000 + n).

Definition empty_queue : t := mkQueue (of_Z 60) false 0 ∅ [] [].
Lemma empty_queue_ok : ok empty_queue.
Proof. by apply (init_ok (of_Z 60)). Qed.

(** C5: the heap queue implements the queue contract. From any reachable state
    and at any clock reading, enqueue, ack and nack have exactly the effect of
    their specification on the observed map of envelopes, and dequeue leases an
    eligible envelope (one that is not leased and whose availability has
    passed), or returns [None] when there is none. *)
Theorem task_queue_refines : QueueLaws t.
Proof. exact laws. Qed.

(** over any history of calls the attempts with which the heap queue
    delivers an envelope strictly increase, as long as the envelope is not
    enqueued again; and once its lease has been acknowledged in time it is not
    delivered any more. *)
Theorem task_queue_deliveries q id cs ls q' : ok q -> closed q = false ->
  history q cs ls q' -> Forall (fun c => enqueues id c = false) cs ->
  StronglySorted Z.lt (deliveries id ls) /\
  forall q0 now l it, ok q0 -> closed q0 = false -> observe now q0 !! id = Some it ->
    leased_as (lease_id l) it -> q = (ack now l q0).2 -> deliveries id ls = [].
Proof.
  intros Hok Hcl Hh Hcs. split; [by apply (history_deliveries q cs ls q')|].
  intros q0 now l it H1 H2 H3 H4 H5. by apply (history_after_ack q0 now l id it q cs ls q').
Qed.

Definition sample_queue : t := (enqueue 1000 (sample_envelope 1) empty_queue).2.

Lemma sample_queue_ok : ok sample_queue /\ closed sample_queue = false.
Proof.
  pose proof (law_enqueue_ok empty_queue 1000 (sample_envelope 1) empty_queue_ok eq_refl ltac:(done)) as H.
  unfold sample_queue. destruct (enqueue _ _ _). tauto.
Qed.

Definition sample_calls : list call :=
  [CDequeue (sample_lease_id 1) 1000 None; CDequeue (sample_lease_id 2) 70000 None].

Lemma task_queue_deliveries_witness :
  deliveries (envelope_id (sample_envelope 1)) (run_calls sample_calls sample_queue).1 = [0; 1] /\
  StronglySorted Z.lt (deliveries (envelope_id (sample_envelope 1)) (run_calls sample_calls sample_queue).1).
Proof.
  split; [vm_compute; reflexivity|].
  apply (task_queue_deliveries sample_queue _ sample_calls _ (run_calls sample_calls sample_queue).2
           (proj1 sample_queue_ok) (proj2 sample_queue_ok)); [|by repeat constructor].
  apply run_calls_history. split; [|split; [|done]]; split_and!; try (by vm_compute); cbn.
  - by apply not_elem_of_nil.
  - vm_compute. intros H. apply elem_of_cons in H as [H|H]; [done|]. by apply elem_of_nil in H.
Defined.

(** a visibility timeout whose milliseconds overflow is accepted by
    [dequeue] and loses the envelope: the call raises after taking the entry
    off the heap, the envelope stays in the queue without a lease although it
    is due, and no later [dequeue] returns it or changes anything. *)
Theorem task_queue_overflow_loses d q0 e now fresh tm exc :
  init d = Ok q0 -> env_available_at_ms e <= now -> fle tm fzero = false -> ms_of_s tm = Raise exc ->
  let '(r, q) := dequeue fresh now (Some tm) (enqueue now e q0).2 in
  r = Raise exc /\
  (exists it, q_view q !! envelope_id e = Some it /\ eligible now it) /\
  forall fresh' now' tm', (dequeue fresh' now' tm' q).2 = q /\
    forall l, (dequeue fresh' now' tm' q).1 <> Ok (Some l).
Proof.
  intros Hi Hav Htm Hms. unfold init in Hi. apply res_bind_Ok in Hi as (u & _ & [= <-]).
  set (s := mkState e (env_available_at_ms e) (default 0 (priority e)) 0 1 (attempt e) None None).
  set (q1 := mkQueue d false 1 (<[envelope_id e := s]> ∅) [] [state_entry (envelope_id e) s]).
  assert ((enqueue now e (mkQueue d false 0 ∅ [] [])).2 = q1) as ->.
  { unfold enqueue. cbn [closed states]. by rewrite lookup_empty. }
  assert (states q1 !! envelope_id e = Some s) as Hs by by cbn; rewrite lookup_insert_eq.
  assert (scan now q1 (available_heap q1) = (Some (envelope_id e, s), [])) as Hsc.
  { cbn [available_heap q1 scan]. change (entry_id _) with (envelope_id e). rewrite Hs.
    rewrite (proj2 (stale_false _ _ _)) by done.
    change (st_available_at_ms s) with (env_available_at_ms e). by rewrite (proj2 (Z.ltb_ge _ _) Hav). }
  unfold dequeue at 1. cbn [closed q1]. change (default d (Some tm)) with tm.
  change (default _ (Some tm)) with tm. rewrite Htm.
  change (release_expired_leases now _) with q1. rewrite Hsc, Hms. split; [done|]. split.
  - exists (view_item (st_incr_attempt s)). cbn [q_view ops states set_states set_heap].
    by rewrite lookup_fmap, lookup_insert_eq.
  - intros fresh' now' tm'. unfold dequeue. cbn. destruct (fle (default d tm') fzero); (split; [done|intros l; cbn; congruence]).
Qed.

Lemma task_queue_overflow_loses_witness :
  let q := (dequeue (sample_lease_id 1) 1000 (Some (S754_infinity false)) sample_queue).2 in
  (dequeue (sample_lease_id 2) 5000 None q).2 = q.
Proof.
  pose proof (task_queue_overflow_loses (of_Z 60) empty_queue (sample_envelope 1) 1000 (sample_lease_id 1)
    (S754_infinity false) (OverflowError "cannot convert float infinity to integer")
    eq_refl ltac:(done) eq_refl eq_refl) as H.
  unfold sample_queue. destruct (dequeue (sample_lease_id 1) 1000 _ _) as [r q].
  destruct H as (_ & _ & H). apply (H (sample_lease_id 2) 5000 None).
Defined.
