(* ===== verification/ReadyQueue.v ===== *)
(** * The FIFO queue: [infra/queue/in_memory_queue/]

    [InMemoryQueue]: a FIFO of ready envelope ids, a heap of delayed ones, and
    leases with a heap of deadlines, both heaps with entries that may be stale.
    A mutated [_EnvelopeState] is written back to the dictionary that owns it.
    The two events only wake up waiting consumers and are not part of the
    state; a blocking [dequeue] is the sequence of its passes, each of which
    holds the lock. The queue is the second instance of the laws of
    [QueueSpec], and reports every operation to its observer. *)

From Stdlib Require Import ZArith SpecFloat Lia Sorted.
From S2P Require Import Prelude PyFloat Uuid Models Envelope QueueSpec.

Module ReadyQueue.

Record EnvelopeState := mkState {
  st_envelope : TaskEnvelope;
  st_next_attempt : Z;
  st_available_at_ms : Z;
  st_in_ready : bool;
  st_active_lease_id : option string;
}.

Record InFlight := mkInFlight {
  if_envelope_id : string;
  if_attempt : Z;
  if_leased_at_ms : Z;
  if_deadline_ms : Z;
  if_visibility_timeout_s : spec_float;
}.

Record t := mkQueue {
  default_visibility_timeout_s : spec_float;
  closed : bool;
  ready : list string;
  states : gmap string EnvelopeState;
  in_flight : gmap string InFlight;
  lease_deadlines : list (Z * string);
  delayed : list (Z * (Z * string));
  seq : Z;
}.

(** *** Observations ([orchestrator/queue/observer.py]) *)
Inductive observation :=
| ObsEnqueue (e : TaskEnvelope) (correlation : list (string * option string)) (now_ms queue_depth : Z)
| ObsDequeue (l : option Lease) (correlation : option (list (string * option string)))
    (now_ms queue_depth : Z)
| ObsAck (l : Lease) (correlation : list (string * option string)) (now_ms queue_depth : Z)
| ObsNack (l : Lease) (correlation : list (string * option string)) (delay_s : spec_float)
    (reason : option string) (now_ms queue_depth : Z)
| ObsRedeliver (e : TaskEnvelope) (correlation : list (string * option string))
    (expired_lease_id : string) (expired_attempt leased_at_ms deadline_ms : Z)
    (visibility_timeout_s : spec_float) (now_ms queue_depth : Z).

Definition init (default_timeout : spec_float) : res t :=
  raise_if (negb (isfinite default_timeout) || fle default_timeout fzero)
    (ValueError "default_visibility_timeout_s must be finite and > 0");;
  Ok (mkQueue default_timeout false [] ∅ ∅ [] [] 0).

Definition set_ready r (q : t) : t := mkQueue (default_visibility_timeout_s q) (closed q) r
  (states q) (in_flight q) (lease_deadlines q) (delayed q) (seq q).
Definition store id s (q : t) : t := mkQueue (default_visibility_timeout_s q) (closed q) (ready q)
  (<[id := s]> (states q)) (in_flight q) (lease_deadlines q) (delayed q) (seq q).
Definition remove id (q : t) : t := mkQueue (default_visibility_timeout_s q) (closed q) (ready q)
  (delete id (states q)) (in_flight q) (lease_deadlines q) (delayed q) (seq q).
Definition set_in_flight f (q : t) : t := mkQueue (default_visibility_timeout_s q) (closed q) (ready q)
  (states q) f (lease_deadlines q) (delayed q) (seq q).
Definition set_deadlines h (q : t) : t := mkQueue (default_visibility_timeout_s q) (closed q) (ready q)
  (states q) (in_flight q) h (delayed q) (seq q).
Definition set_delayed h n (q : t) : t := mkQueue (default_visibility_timeout_s q) (closed q) (ready q)
  (states q) (in_flight q) (lease_deadlines q) h n.

Definition depth (q : t) : Z := Z.of_nat (size (states q)).

Definition st_set_in_ready b (s : EnvelopeState) : EnvelopeState :=
  mkState (st_envelope s) (st_next_attempt s) (st_available_at_ms s) b (st_active_lease_id s).
(** [state.active_lease_id = None; state.available_at_ms = v] and the copy of
    the envelope available from [v]. *)
Definition st_release v (s : EnvelopeState) : EnvelopeState :=
  mkState (env_set_available v (st_envelope s)) (st_next_attempt s) v (st_in_ready s) None.
Definition st_incr_attempt (s : EnvelopeState) : EnvelopeState :=
  mkState (st_envelope s) (st_next_attempt s + 1) (st_available_at_ms s) (st_in_ready s) (st_active_lease_id s).
Definition st_lease lid (s : EnvelopeState) : EnvelopeState :=
  mkState (st_envelope s) (st_next_attempt s) (st_available_at_ms s) (st_in_ready s) (Some lid).

(** *** [state.py] *)
Definition push_ready (id : string) (s : EnvelopeState) (q : t) : t :=
  if st_in_ready s || is_set (st_active_lease_id s) then store id s q
  else set_ready (ready q ++ [id]) (store id (st_set_in_ready true s) q).

Definition push_delayed (id : string) (s : EnvelopeState) (q : t) : t :=
  if is_set (st_active_lease_id s) then store id s q
  else set_delayed (heappush (st_available_at_ms s, (seq q + 1, id)) (delayed q)) (seq q + 1) (store id s q).

Definition promote_one (available_at_ms : Z) (id : string) (q : t) : t :=
  match states q !! id with
  | None => q
  | Some s =>
      if is_set (st_active_lease_id s) then q
      else if st_in_ready s then q
      else if negb (st_available_at_ms s =? available_at_ms) then q
      else push_ready id s q
  end.

Fixpoint promote_loop (now : Z) (heap : list (Z * (Z * string))) (q : t) : t :=
  match heap with
  | [] => q
  | (available_at_ms, (_, id)) :: rest =>
      if available_at_ms <=? now
      then promote_loop now rest (promote_one available_at_ms id (set_delayed rest (seq q) q))
      else q
  end.
Definition promote_delayed (now : Z) (q : t) : t := promote_loop now (delayed q) q.

(** *** [leases.py] *)
Definition expire_one (now : Z) (lid : string) (q : t) : t * list observation :=
  match in_flight q !! lid with
  | None => (q, [])
  | Some i =>
      let q := set_in_flight (delete lid (in_flight q)) q in
      match states q !! if_envelope_id i with
      | None => (q, [])
      | Some s =>
          if decide (st_active_lease_id s = Some lid) then
            let s := st_release now s in
            let q := push_ready (if_envelope_id i) s q in
            (q, [ObsRedeliver (st_envelope s) (build_queue_correlation_ids (st_envelope s)) lid
                   (if_attempt i) (if_leased_at_ms i) (if_deadline_ms i) (if_visibility_timeout_s i)
                   now (depth q)])
          else (q, [])
      end
  end.

Fixpoint expire_loop (now : Z) (heap : list (Z * string)) (q : t) : t * list observation :=
  match heap with
  | [] => (q, [])
  | (deadline, lid) :: rest =>
      if deadline <=? now then
        let '(q, obs) := expire_one now lid (set_deadlines rest q) in
        let '(q, obs') := expire_loop now rest q in
        (q, obs ++ obs')
      else (q, [])
  end.
Definition expire_leases (now : Z) (q : t) : t * list observation := expire_loop now (lease_deadlines q) q.

(** The loop of [try_dequeue] up to the state to lease. *)
Fixpoint take_ready (now : Z) (ids : list string) (q : t) : option (string * EnvelopeState) * t :=
  match ids with
  | [] => (None, q)
  | id :: rest =>
      let q := set_ready rest q in
      match states q !! id with
      | None => take_ready now rest q
      | Some s =>
          let s := st_set_in_ready false s in
          if is_set (st_active_lease_id s) then take_ready now rest (store id s q)
          else if now <? st_available_at_ms s then take_ready now rest (push_delayed id s q)
          else (Some (id, s), store id s q)
      end
  end.

Definition try_dequeue (fresh : string) (now : Z) (vt : spec_float) : st t (option Lease) := fun q =>
  let '(found, q) := take_ready now (ready q) q in
  match found with
  | None => (Ok None, q)
  | Some (id, s) =>
      let attempt := st_next_attempt s in
      let s := st_incr_attempt s in
      match ms_of_s vt with
      | Raise e => (Raise e, store id s q)
      | Ok ms =>
          let deadline_ms := now + ms in
          let q := store id (st_lease fresh s) q in
          let q := set_in_flight (<[fresh := mkInFlight id attempt now deadline_ms vt]> (in_flight q)) q in
          let q := set_deadlines (heappush (deadline_ms, fresh) (lease_deadlines q)) q in
          let leased_envelope := env_copy attempt (st_available_at_ms s) (st_envelope s) in
          (Some <$> Lease_validate (mkLease fresh leased_envelope now vt attempt), q)
      end
  end.

(** *** [core.py] *)
Definition enqueue (now : Z) (e : TaskEnvelope) : st t (list observation) := fun q =>
  if closed q then (Raise (QueueClosed "queue is closed"), q)
  else
    let '(q, redeliver) := expire_leases now q in
    let q := promote_delayed now q in
    match states q !! envelope_id e with
    | Some _ => (Raise (already_enqueued (envelope_id e)), q)
    | None =>
        let s := mkState e (attempt e) (env_available_at_ms e) false None in
        let q := if st_available_at_ms s <=? now then push_ready (envelope_id e) s q
                 else push_delayed (envelope_id e) s q in
        (Ok (redeliver ++ [ObsEnqueue e (build_queue_correlation_ids e) now (depth q)]), q)
    end.

(** How long [dequeue] may still wait after a pass that found nothing. *)
Inductive waiting :=
| NoWait                              (** [wait_s=0] *)
| WaitFor (remaining_s : spec_float)  (** until the deadline *)
| WaitForever.                        (** [wait_s=None] *)

Inductive pass_result :=
| Return (l : option Lease)
| KeepWaiting.

Definition stop_waiting (w : waiting) : bool :=
  match w with NoWait => true | WaitFor r => fle r fzero | WaitForever => false end.

(** One pass of the loop of [dequeue], with its observations. *)
Definition dequeue_pass (fresh : string) (now : Z) (vt : spec_float) (w : waiting)
  : st t (pass_result * list observation) := fun q =>
  if closed q then (Raise (QueueClosed "queue is closed"), q)
  else
    let '(q, redeliver) := expire_leases now q in
    let q := promote_delayed now q in
    match try_dequeue fresh now vt q with
    | (Raise e, q) => (Raise e, q)
    | (Ok (Some l), q) =>
        (Ok (Return (Some l), redeliver ++
           [ObsDequeue (Some l) (Some (build_queue_correlation_ids (lease_envelope l))) now (depth q)]), q)
    | (Ok None, q) =>
        if stop_waiting w
        then (Ok (Return None, redeliver ++ [ObsDequeue None None now (depth q)]), q)
        else (Ok (KeepWaiting, redeliver), q)
    end.

(** The checks of the arguments of [dequeue]. *)
Definition dequeue_args (timeout_s wait_s : option spec_float) (q : t) : res spec_float :=
  raise_if (closed q) (QueueClosed "queue is closed");;
  let vt := default (default_visibility_timeout_s q) timeout_s in
  raise_if (negb (isfinite vt) || fle vt fzero) (ValueError "timeout_s must be finite and > 0");;
  raise_if (match wait_s with
            | Some w => negb (isfinite w) || flt w fzero
            | None => false
            end) (ValueError "wait_s must be finite and >= 0 when provided");;
  Ok vt.

(** [dequeue(timeout_s)], which does not wait. *)
Definition dequeue (fresh : string) (now : Z) (timeout_s : option spec_float)
  : st t (pass_result * list observation) := fun q =>
  match dequeue_args timeout_s (Some fzero) q with
  | Raise e => (Raise e, q)
  | Ok vt => dequeue_pass fresh now vt NoWait q
  end.

(** The in-flight record and the state leased under the id of [l]. *)
Definition find_leased (l : Lease) (q : t) : option (string * EnvelopeState) :=
  match in_flight q !! lease_id l with
  | None => None
  | Some i =>
      match states q !! if_envelope_id i with
      | None => None
      | Some s => if decide (st_active_lease_id s = Some (lease_id l)) then Some (if_envelope_id i, s) else None
      end
  end.
Definition pop_in_flight (lid : string) (q : t) : t := set_in_flight (delete lid (in_flight q)) q.

Definition ack (now : Z) (l : Lease) : st t (list observation) := fun q =>
  if closed q then (Raise (QueueClosed "queue is closed"), q)
  else
    let '(q, redeliver) := expire_leases now q in
    let found := find_leased l q in
    let q := pop_in_flight (lease_id l) q in
    match found with
    | None => (Ok redeliver, q)
    | Some (id, _) =>
        let q := remove id q in
        (Ok (redeliver ++
           [ObsAck l (build_queue_correlation_ids (lease_envelope l)) now (depth q)]), q)
    end.

Definition nack (now : Z) (l : Lease) (delay_s : option spec_float) (reason : option string)
  : st t (list observation) := fun q =>
  if closed q then (Raise (QueueClosed "queue is closed"), q)
  else
    let delay := default fzero delay_s in
    if negb (isfinite delay) || flt delay fzero
    then (Raise (ValueError "delay_s must be finite and >= 0"), q)
    else
      let '(q, redeliver) := expire_leases now q in
      let q := promote_delayed now q in
      let found := find_leased l q in
      let q := pop_in_flight (lease_id l) q in
      match found with
      | None => (Ok redeliver, q)
      | Some (id, s) =>
          match ms_of_s delay with
          | Raise e => (Raise e, store id (mkState (st_envelope s) (st_next_attempt s)
                                   (st_available_at_ms s) (st_in_ready s) None) q)
          | Ok ms =>
              let s := st_release (now + ms) s in
              let q := if st_available_at_ms s <=? now then push_ready id s q else push_delayed id s q in
              (Ok (redeliver ++
                 [ObsNack l (build_queue_correlation_ids (lease_envelope l)) delay reason now (depth q)]), q)
          end
      end.

Definition aclose (q : t) : t :=
  if closed q then q
  else mkQueue (default_visibility_timeout_s q) true [] ∅ ∅ [] [] (seq q).

(** *** [background.py]: what the two background tasks do under the lock *)
Definition promoter_tick (now : Z) (q : t) : t := if closed q then q else promote_delayed now q.
Definition reaper_tick (now : Z) (q : t) : t * list observation :=
  if closed q then (q, []) else expire_leases now q.

(** ** The view and the invariant *)
Definition lease_of (q : t) (s : EnvelopeState) : option (string * Z) :=
  match st_active_lease_id s with
  | None => None
  | Some lid => (fun i => (lid, if_deadline_ms i)) <$> in_flight q !! lid
  end.

Definition view_item (q : t) (s : EnvelopeState) : item :=
  mkItem (env_set_available (st_available_at_ms s) (st_envelope s)) (st_next_attempt s) (lease_of q s).

Definition view (q : t) : gmap string item := view_item q <$> states q.

Record state_ok (q : t) (id : string) (s : EnvelopeState) : Prop := {
  so_id : envelope_id (st_envelope s) = id;
  so_next : 0 <= st_next_attempt s;
  so_ready : st_in_ready s = true -> id ∈ ready q /\ st_active_lease_id s = None;
  so_active : forall lid, st_active_lease_id s = Some lid ->
    exists i, in_flight q !! lid = Some i /\ if_envelope_id i = id /\
      (if_deadline_ms i, lid) ∈ lease_deadlines q;
  so_delayed : st_active_lease_id s = None -> st_in_ready s = false ->
    exists n, (st_available_at_ms s, (n, id)) ∈ delayed q;
}.

Record ok (q : t) : Prop := {
  ok_deadlines : heap_ok (lease_deadlines q);
  ok_delayed : heap_ok (delayed q);
  ok_nodup : NoDup (ready q);
  ok_ready : forall id, id ∈ ready q -> exists s, states q !! id = Some s /\ st_in_ready s = true;
  ok_states : forall id s, states q !! id = Some s -> state_ok q id s;
  ok_in_flight : forall lid i, in_flight q !! lid = Some i ->
    exists s, states q !! if_envelope_id i = Some s /\ st_active_lease_id s = Some lid;
  ok_stale : forall d lid i, (d, lid) ∈ lease_deadlines q -> in_flight q !! lid = Some i ->
    if_deadline_ms i = d;
}.

#[export] Instance ops : QueueOps t := {
  q_view := view;
  q_redeliver now _ := now;
  q_used q lid := is_Some (in_flight q !! lid) \/ exists d, (d, lid) ∈ lease_deadlines q;
  q_closed := closed;
  q_ok := ok;
  q_default_timeout := default_visibility_timeout_s;
  q_enqueue now e := _ ← enqueue now e; mret tt;
  q_dequeue fresh now timeout_s :=
    p ← dequeue fresh now timeout_s; mret match p.1 with Return l => l | KeepWaiting => None end;
  q_ack now l := _ ← ack now l; mret tt;
  q_nack now l delay_s := _ ← nack now l delay_s None; mret tt;
}.

(** The invariant of everything but the envelope [id], which is neither leased
    nor ready. *)
Record ok_rest (id : string) (q : t) : Prop := {
  or_deadlines : heap_ok (lease_deadlines q);
  or_delayed : heap_ok (delayed q);
  or_nodup : NoDup (ready q);
  or_ready : forall id', id' ∈ ready q -> id' <> id /\ exists s, states q !! id' = Some s /\ st_in_ready s = true;
  or_states : forall id' s, id' <> id -> states q !! id' = Some s -> state_ok q id' s;
  or_in_flight : forall lid i, in_flight q !! lid = Some i ->
    if_envelope_id i <> id /\ exists s, states q !! if_envelope_id i = Some s /\ st_active_lease_id s = Some lid;
  or_stale : forall d lid i, (d, lid) ∈ lease_deadlines q -> in_flight q !! lid = Some i ->
    if_deadline_ms i = d;
}.

Record idle (id : string) (s : EnvelopeState) : Prop := {
  idle_id : envelope_id (st_envelope s) = id;
  idle_next : 0 <= st_next_attempt s;
  idle_ready : st_in_ready s = false;
  idle_active : st_active_lease_id s = None;
}.

(** The state of an envelope is consistent with a queue that has more ready
    and delayed entries. *)
Lemma ready_state_ok_mono q q' id s :
  (forall x, x ∈ ready q -> x ∈ ready q') -> (forall x, x ∈ delayed q -> x ∈ delayed q') ->
  in_flight q' = in_flight q -> lease_deadlines q' = lease_deadlines q ->
  state_ok q id s -> state_ok q' id s.
Proof.
  intros Hr Hd Hf Hl []. split; try done.
  - intros H. destruct (so_ready0 H). auto.
  - by rewrite Hf, Hl.
  - intros H1 H2. destruct (so_delayed0 H1 H2) as [n ?]. eauto.
Qed.

Lemma ok_rest_push_ready id s q : ok_rest id q -> idle id s -> ok (push_ready id s q).
Proof.
  intros Hr [Hid Hn Hre Ha]. unfold push_ready. rewrite Hre, Ha. cbn [is_set orb].
  destruct Hr as [H1 H2 H3 H4 H5 H6 H7]. split; cbn; try done.
  - apply NoDup_app. split_and!; [done| |apply NoDup_singleton]. intros x [Hx _]%H4. set_solver.
  - intros id' [[Hne (s' & ? & ?)]%H4| ->%list_elem_of_singleton]%elem_of_app.
    + exists s'. by rewrite lookup_insert_ne.
    + eexists. by rewrite lookup_insert_eq.
  - intros id' s' [[<- <-]|[Hne H]]%lookup_insert_Some.
    + split; cbn; try done; [set_solver|by rewrite Ha].
    + eapply ready_state_ok_mono; [..|by apply H5]; cbn; try done. set_solver.
  - intros lid i (Hne & s' & ? & ?)%H6. exists s'. by rewrite lookup_insert_ne.
Qed.

Lemma ok_rest_push_delayed id s q : ok_rest id q -> idle id s -> ok (push_delayed id s q).
Proof.
  intros Hr [Hid Hn Hre Ha]. unfold push_delayed. rewrite Ha. cbn [is_set].
  destruct Hr as [H1 H2 H3 H4 H5 H6 H7]. split; cbn; try done.
  - by apply heappush_ok.
  - intros id' [Hne (s' & ? & ?)]%H4. exists s'. by rewrite lookup_insert_ne.
  - intros id' s' [[<- <-]|[Hne H]]%lookup_insert_Some.
    + split; cbn; try done; try congruence. intros _ _. exists (seq q + 1).
      apply elem_of_heappush. by left.
    + eapply ready_state_ok_mono; [..|by apply H5]; cbn; try done. intros x Hx. apply elem_of_heappush. by right.
  - intros lid i (Hne & s' & ? & ?)%H6. exists s'. by rewrite lookup_insert_ne.
Qed.

(** Taking a ready envelope off the list. *)
Lemma ok_rest_take id rest q : ok q -> ready q = id :: rest -> ok_rest id (set_ready rest q).
Proof.
  intros [H1 H2 H3 H4 H5 H6 H7] Hr. rewrite Hr in *. apply NoDup_cons in H3 as [Hni Hnd].
  destruct (H4 id) as (s & Hs & Hsr); [set_solver|]. split; cbn; try done.
  - intros id' Hin. split; [by intros ->|]. apply H4. set_solver.
  - intros id' s' Hne H. destruct (H5 _ _ H). split; cbn; try done. intros Hr'.
    destruct (so_ready0 Hr') as [Hx ?]. rewrite Hr in Hx. set_solver.
  - intros lid i H. destruct (H6 _ _ H) as (s' & Hs' & Ha). split; [|by exists s'].
    intros E. subst id. rewrite Hs in Hs'. simplify_eq. destruct (so_ready _ _ _ (H5 _ _ Hs) Hsr). congruence.
Qed.

(** Ending the active lease of an envelope. *)
Lemma ready_ok_rest_release lid i s q : ok q -> in_flight q !! lid = Some i ->
  states q !! if_envelope_id i = Some s -> st_active_lease_id s = Some lid ->
  ok_rest (if_envelope_id i) (pop_in_flight lid q).
Proof.
  intros [H1 H2 H3 H4 H5 H6 H7] Hi Hs Ha. split; cbn; try done.
  - intros id' Hin. split; [|by apply H4]. intros ->. destruct (H4 _ Hin) as (s' & Hs' & Hr).
    rewrite Hs in Hs'. simplify_eq. destruct (so_ready _ _ _ (H5 _ _ Hs) Hr). congruence.
  - intros id' s' Hne H. destruct (H5 _ _ H). split; cbn; try done.
    intros lid' Ha'. destruct (so_active0 lid' Ha') as (i' & Hi' & He & Hd). exists i'.
    rewrite lookup_delete_ne; [done|]. intros <-. congruence.
  - intros lid' i' [Hne H]%lookup_delete_Some. destruct (H6 _ _ H) as (s' & Hs' & Ha').
    split; [|by exists s']. intros E. rewrite E, Hs in Hs'. by simplify_eq.
  - intros d lid' i' Hin [_ H]%lookup_delete_Some. by eapply H7.
Qed.

Lemma ready_ok_rest_new id q : ok q -> states q !! id = None -> ok_rest id q.
Proof.
  intros [H1 H2 H3 H4 H5 H6 H7] Hn. split; try done.
  - intros id' Hin. split; [|by apply H4]. intros ->. destruct (H4 _ Hin) as (? & ? & _). congruence.
  - intros id' s _ H. by apply H5.
  - intros lid i H. destruct (H6 _ _ H) as (s & Hs & Ha). split; [|by exists s]. intros E. congruence.
Qed.

Lemma ok_rest_remove id q : ok_rest id q -> ok (remove id q).
Proof.
  intros [H1 H2 H3 H4 H5 H6 H7]. split; cbn; try done.
  - intros id' [Hne (s & ? & ?)]%H4. exists s. by rewrite lookup_delete_ne.
  - intros id' s [Hne H]%lookup_delete_Some. eapply ready_state_ok_mono; [..|by apply H5]; done.
  - intros lid i (Hne & s & ? & ?)%H6. exists s. by rewrite lookup_delete_ne.
Qed.

(** *** Views *)
Lemma ready_view_lookup q id it : view q !! id = Some it <->
  exists s, states q !! id = Some s /\ it = view_item q s.
Proof. unfold view. rewrite lookup_fmap_Some. naive_solver. Qed.

Lemma view_leased q id s lid : state_ok q id s ->
  leased_as lid (view_item q s) <-> st_active_lease_id s = Some lid.
Proof.
  intros []. unfold leased_as, view_item, lease_of. cbn.
  destruct (st_active_lease_id s) as [lid'|]; [|done].
  destruct (so_active0 lid' eq_refl) as (i & -> & _). cbn. done.
Qed.

Lemma view_unleased q id s : state_ok q id s ->
  it_lease (view_item q s) = None <-> st_active_lease_id s = None.
Proof.
  intros []. cbn. unfold lease_of. destruct (st_active_lease_id s) as [lid'|]; [|done].
  by destruct (so_active0 lid' eq_refl) as (i & -> & _).
Qed.

Lemma view_push_ready id s q : idle id s ->
  view (push_ready id s q) = <[id := view_item q s]> (view q).
Proof. intros [_ _ Hr Ha]. unfold push_ready. rewrite Hr, Ha. unfold view. cbn. by rewrite fmap_insert. Qed.

Lemma view_push_delayed id s q : idle id s ->
  view (push_delayed id s q) = <[id := view_item q s]> (view q).
Proof. intros [_ _ Hr Ha]. unfold push_delayed. rewrite Ha. unfold view. cbn. by rewrite fmap_insert. Qed.

Definition release_at (lid : string) (v : Z) (it : item) : item :=
  if decide (leased_as lid it) then it_set_avail v it else it.

Lemma view_pop_in_flight lid i q : ok q -> in_flight q !! lid = Some i ->
  forall id, id <> if_envelope_id i ->
  view (pop_in_flight lid q) !! id = view q !! id.
Proof.
  intros Hok Hi id Hne. unfold view. rewrite !lookup_fmap. cbn [states pop_in_flight set_in_flight].
  destruct (states q !! id) as [s|] eqn:Es; [|done]. cbn. f_equal. unfold view_item. f_equal.
  unfold lease_of. destruct (st_active_lease_id s) as [lid'|] eqn:Ea; [|done]. cbn.
  rewrite lookup_delete_ne; [done|]. intros <-.
  destruct (so_active _ _ _ (ok_states _ Hok _ _ Es) _ Ea) as (i' & Hi' & He & _). congruence.
Qed.

(** Ending the lease [lid] of its envelope. *)
Lemma view_end_lease lid i s v q : ok q -> in_flight q !! lid = Some i ->
  states q !! if_envelope_id i = Some s -> st_active_lease_id s = Some lid ->
  <[if_envelope_id i := it_set_avail v (view_item q s)]> (view (pop_in_flight lid q)) =
  release_at lid v <$> view q.
Proof.
  intros Hok Hi Hs Ha. apply map_eq. intros id. rewrite lookup_fmap. unfold release_at.
  destruct (decide (id = if_envelope_id i)) as [->|Hne].
  - rewrite lookup_insert_eq. unfold view. rewrite lookup_fmap, Hs. cbn. rewrite decide_True; [done|].
    eapply view_leased; [by eapply ok_states|done].
  - rewrite lookup_insert_ne, (view_pop_in_flight lid i) by done.
    destruct (view q !! id) as [it|] eqn:E; [|done]. cbn. rewrite decide_False; [done|].
    apply ready_view_lookup in E as (s' & Hs' & ->). rewrite (view_leased q id) by by apply ok_states.
    intros Ha'. destruct (so_active _ _ _ (ok_states _ Hok _ _ Hs') _ Ha') as (i' & Hi' & He & _). congruence.
Qed.

Lemma idle_release v id s q lid : state_ok q id s -> st_active_lease_id s = Some lid -> idle id (st_release v s).
Proof.
  intros [] Ha. split; cbn; try done. destruct (st_in_ready s) eqn:E; [|done].
  destruct (so_ready0 eq_refl). congruence.
Qed.

(** *** Expiry *)
Lemma ok_drop_deadline d lid rest q : ok q -> lease_deadlines q = (d, lid) :: rest ->
  in_flight q !! lid = None -> ok (set_deadlines rest q).
Proof.
  intros [H1 H2 H3 H4 H5 H6 H7] Hd Hn. rewrite Hd in *. split; cbn; try done.
  - unfold heap_ok in *. by inversion H1.
  - intros id s H. destruct (H5 _ _ H). split; cbn; try done. intros lid' Ha.
    destruct (so_active0 _ Ha) as (i & Hi & He & Hin). exists i. split_and!; [done..|].
    rewrite Hd in Hin. apply elem_of_cons in Hin as [[= _ ->]|Hin]; [congruence|done].
  - intros d' lid' i Hin. apply H7. by right.
Qed.

Lemma ok_rest_drop_deadline id d lid rest q : ok_rest id q -> lease_deadlines q = (d, lid) :: rest ->
  in_flight q !! lid = None -> ok_rest id (set_deadlines rest q).
Proof.
  intros [H1 H2 H3 H4 H5 H6 H7] Hd Hn. rewrite Hd in *. split; cbn; try done.
  - unfold heap_ok in *. by inversion H1.
  - intros id' s Hne H. destruct (H5 _ _ Hne H). split; cbn; try done. intros lid' Ha.
    destruct (so_active0 _ Ha) as (i & Hi & He & Hin). exists i. split_and!; [done..|].
    rewrite Hd in Hin. apply elem_of_cons in Hin as [[= _ ->]|Hin]; [congruence|done].
  - intros d' lid' i Hin. apply H7. by right.
Qed.

(** What every step of the maintenance loops keeps. *)
Record same (q q' : t) : Prop := {
  same_closed : closed q' = closed q;
  same_timeout : default_visibility_timeout_s q' = default_visibility_timeout_s q;
  same_used : forall lid, q_used q' lid -> q_used q lid;
}.

#[export] Instance same_preorder : PreOrder same.
Proof. split; [by split|]. intros x y z [] []. split; [congruence..|auto]. Qed.

Lemma same_push_ready id s q : same q (push_ready id s q).
Proof. unfold push_ready. by destruct (_ || _). Qed.
Lemma same_push_delayed id s q : same q (push_delayed id s q).
Proof. unfold push_delayed. by destruct (is_set _). Qed.

Lemma is_Some_lookup_delete {A} x y (m : gmap string A) : is_Some (delete x m !! y) -> is_Some (m !! y).
Proof. intros [a [_ H]%lookup_delete_Some]. eauto. Qed.

Lemma same_pop lid q : same q (pop_in_flight lid q).
Proof. split; cbn; [done|done|]. intros x [H|H]; [left; by eapply is_Some_lookup_delete|by right]. Qed.

Lemma same_drop d lid rest q : lease_deadlines q = (d, lid) :: rest -> same q (set_deadlines rest q).
Proof.
  intros Hd. split; cbn; [done|done|]. intros x [H|[d' H]]; [by left|right]. exists d'. rewrite Hd. by right.
Qed.

Lemma expire_one_ok now d lid rest q : ok q -> lease_deadlines q = (d, lid) :: rest -> d <= now ->
  let q1 := (expire_one now lid (set_deadlines rest q)).1 in
  ok q1 /\ lease_deadlines q1 = rest /\ same q q1 /\
  expire_item now <$> view q1 = expire_item now <$> view q.
Proof.
  intros Hok Hd Hle. unfold expire_one. cbn [in_flight set_deadlines].
  destruct (in_flight q !! lid) as [i|] eqn:Hi; cycle 1.
  { cbn. split; [by eapply ok_drop_deadline|]. split; [done|]. split; [by eapply same_drop|done]. }
  destruct (ok_in_flight _ Hok _ _ Hi) as (s & Hs & Ha). cbn [states set_in_flight set_deadlines].
  rewrite Hs, decide_True by done. cbn [fst].
  change (set_in_flight (delete lid (in_flight q)) (set_deadlines rest q)) with
    (set_deadlines rest (pop_in_flight lid q)).
  pose proof (ok_states _ Hok _ _ Hs) as Hso. pose proof (idle_release now _ _ _ _ Hso Ha) as Hidle.
  split; [|split; [|split]].
  - apply ok_rest_push_ready; [|done]. eapply ok_rest_drop_deadline; [by eapply ready_ok_rest_release|done|].
    apply lookup_delete_eq.
  - unfold push_ready. by destruct (_ || _).
  - etrans; [|apply same_push_ready]. etrans; [by apply (same_pop lid)|]. by eapply same_drop.
  - rewrite view_push_ready by done.
    change (view_item _ (st_release now s)) with (it_set_avail now (view_item q s)).
    change (view (set_deadlines rest (pop_in_flight lid q))) with (view (pop_in_flight lid q)).
    rewrite (view_end_lease lid i s now q) by done. rewrite <- map_fmap_compose. apply map_fmap_ext.
    intros id it (s' & Hs' & ->)%ready_view_lookup. cbn. unfold release_at. case_decide as Hl; [|done].
    apply (view_leased q id) in Hl; [|by apply ok_states]. unfold expire_item. cbn. unfold lease_of.
    rewrite Hl, Hi. cbn. rewrite (ok_stale _ Hok d lid i) by (first [done | rewrite Hd; by left]).
    by rewrite (proj2 (Z.leb_le _ _)).
Qed.

(** All remaining leases run past [now]. *)
Lemma deadlines_future now q : ok q ->
  (forall d lid rest, lease_deadlines q = (d, lid) :: rest -> now < d) ->
  expire_item now <$> view q = view q.
Proof.
  intros Hok Hh. apply map_eq. intros id. rewrite lookup_fmap.
  destruct (view q !! id) as [it|] eqn:E; [|done]. cbn. f_equal.
  apply ready_view_lookup in E as (s & Hs & ->). unfold expire_item. cbn. unfold lease_of.
  destruct (st_active_lease_id s) as [lid|] eqn:Ea; [|done].
  destruct (so_active _ _ _ (ok_states _ Hok _ _ Hs) _ Ea) as (i & Hi & He & Hin). rewrite Hi. cbn.
  rewrite (proj2 (Z.leb_gt _ _)); [done|]. pose proof (ok_deadlines _ Hok) as Hs'. unfold heap_ok in Hs'.
  destruct (lease_deadlines q) as [|[d lid'] rest] eqn:El; [by apply elem_of_nil in Hin|].
  specialize (Hh d lid' rest eq_refl). inversion Hs' as [|? ? _ Hf]; subst.
  apply elem_of_cons in Hin as [[= -> ->]|Hin]; [done|]. rewrite Forall_forall in Hf.
  apply Hf, ple_fst in Hin. cbn in Hin. lia.
Qed.

Lemma expire_loop_ok now h q : ok q -> lease_deadlines q = h ->
  let q1 := (expire_loop now h q).1 in
  ok q1 /\ same q q1 /\ view q1 = expire_item now <$> view q.
Proof.
  revert q. induction h as [|[d lid] rest IH]; intros q Hok Hd; cbn [expire_loop].
  - cbn. split; [done|]. split; [done|]. symmetry. apply deadlines_future; [done|]. intros. congruence.
  - destruct (Z.leb_spec d now) as [Hle|Hlt].
    + pose proof (expire_one_ok now d lid rest q Hok Hd Hle) as (H1 & H2 & H3 & H4).
      destruct (expire_one _ _ _) as [q1 obs]. cbn in *. destruct (IH q1 H1 H2) as (H5 & H6 & H7).
      destruct (expire_loop now rest q1) as [q2 obs']. cbn in *. split; [done|]. split; [by etrans|].
      by rewrite H7.
    + cbn. split; [done|]. split; [done|]. symmetry. apply deadlines_future; [done|]. intros ? ? ? E.
      rewrite Hd in E. by simplify_eq.
Qed.

Lemma expire_leases_ok now q : ok q ->
  let q1 := (expire_leases now q).1 in ok q1 /\ same q q1 /\ view q1 = observe now q.
Proof. intros Hok. by apply expire_loop_ok. Qed.

(** *** Promotion of delayed envelopes *)
Lemma ok_rest_idle id s q : ok q -> states q !! id = Some s ->
  st_active_lease_id s = None -> st_in_ready s = false -> ok_rest id q.
Proof.
  intros [H1 H2 H3 H4 H5 H6 H7] Hs Ha Hr. split; try done.
  - intros id' Hin. split; [|by apply H4]. intros ->. destruct (H4 _ Hin) as (s' & Hs' & ?). congruence.
  - intros id' s' _ H. by apply H5.
  - intros lid i H. destruct (H6 _ _ H) as (s' & Hs' & Ha'). split; [|by exists s']. intros E. congruence.
Qed.

Lemma ok_drop_delayed a n id rest q : ok q -> delayed q = (a, (n, id)) :: rest ->
  (forall s, states q !! id = Some s -> st_active_lease_id s = None -> st_in_ready s = false ->
    st_available_at_ms s <> a) ->
  ok (set_delayed rest (seq q) q).
Proof.
  intros [H1 H2 H3 H4 H5 H6 H7] Hd Hst. rewrite Hd in *. split; cbn; try done.
  - unfold heap_ok in *. by inversion H2.
  - intros id' s H. destruct (H5 _ _ H). split; cbn; try done. intros Ha Hr.
    destruct (so_delayed0 Ha Hr) as [n' Hin]. exists n'. rewrite Hd in Hin.
    apply elem_of_cons in Hin as [E|Hin]; [|done]. exfalso. injection E as E1 _ E2.
    apply (Hst s); congruence.
Qed.

Lemma ok_rest_drop_delayed a n id rest q : ok_rest id q -> delayed q = (a, (n, id)) :: rest ->
  ok_rest id (set_delayed rest (seq q) q).
Proof.
  intros [H1 H2 H3 H4 H5 H6 H7] Hd. rewrite Hd in *. split; cbn; try done.
  - unfold heap_ok in *. by inversion H2.
  - intros id' s Hne H. destruct (H5 _ _ Hne H). split; cbn; try done. intros Ha Hr.
    destruct (so_delayed0 Ha Hr) as [n' Hin]. exists n'. rewrite Hd in Hin.
    apply elem_of_cons in Hin as [E|Hin]; [|done]. by injection E.
Qed.

Lemma view_push_same id s q : idle id s -> states q !! id = Some s -> view (push_ready id s q) = view q.
Proof.
  intros Hi Hs. rewrite view_push_ready by done. apply insert_id. apply ready_view_lookup. by exists s.
Qed.

Lemma promote_one_ok a n id rest q : ok q -> delayed q = (a, (n, id)) :: rest ->
  let q1 := promote_one a id (set_delayed rest (seq q) q) in
  ok q1 /\ same q q1 /\ view q1 = view q /\ delayed q1 = rest.
Proof.
  intros Hok Hd. unfold promote_one. cbn [states set_delayed].
  destruct (states q !! id) as [s|] eqn:Hs.
  2: { cbn. split; [eapply ok_drop_delayed; [done..|]; congruence|done]. }
  destruct (st_active_lease_id s) as [lid|] eqn:Ha; cbn [is_set].
  { cbn. split; [eapply ok_drop_delayed; [done..|]; congruence|done]. }
  destruct (st_in_ready s) eqn:Hr.
  { cbn. split; [eapply ok_drop_delayed; [done..|]; congruence|done]. }
  destruct (Z.eqb_spec (st_available_at_ms s) a) as [He|He]; cbn [negb].
  2: { cbn. split; [eapply ok_drop_delayed; [done..|]; congruence|done]. }
  pose proof (ok_states _ Hok _ _ Hs) as Hso. assert (idle id s) as Hi by (destruct Hso; by split).
  cbv zeta. split.
  { apply ok_rest_push_ready; [|done]. eapply ok_rest_drop_delayed; [|done]. by eapply ok_rest_idle. }
  split; [etrans; [|apply same_push_ready]; by split|]. split; [by rewrite view_push_same|].
  unfold push_ready. by rewrite Hr, Ha.
Qed.

(** Every envelope that waits outside the ready list is due after [now]. *)
Definition promoted (now : Z) (q : t) : Prop :=
  forall id s, states q !! id = Some s -> st_active_lease_id s = None -> st_in_ready s = false ->
  now < st_available_at_ms s.

Lemma delayed_future now q : ok q ->
  (forall a x rest, delayed q = (a, x) :: rest -> now < a) -> promoted now q.
Proof.
  intros Hok Hh id s Hs Ha Hr. destruct (so_delayed _ _ _ (ok_states _ Hok _ _ Hs) Ha Hr) as [n Hin].
  pose proof (ok_delayed _ Hok) as Hd. unfold heap_ok in Hd.
  destruct (delayed q) as [|[a x] rest] eqn:E; [by apply elem_of_nil in Hin|].
  specialize (Hh a x rest eq_refl). inversion Hd as [|? ? _ Hf]; subst.
  apply elem_of_cons in Hin as [Heq|Hin]; [injection Heq; intros; lia|]. rewrite Forall_forall in Hf.
  apply Hf, ple_fst in Hin. cbn in Hin. lia.
Qed.

Lemma promote_loop_ok now h q : ok q -> delayed q = h ->
  let q1 := promote_loop now h q in ok q1 /\ same q q1 /\ view q1 = view q /\ promoted now q1.
Proof.
  revert q. induction h as [|[a [n id]] rest IH]; intros q Hok Hd; cbn [promote_loop].
  - cbn. split_and!; [done..|]. apply delayed_future; [done|]. intros. congruence.
  - destruct (Z.leb_spec a now) as [Hle|Hlt].
    + destruct (promote_one_ok a n id rest q Hok Hd) as (H1 & H2 & H3 & H4).
      destruct (IH _ H1 H4) as (H5 & H6 & H7 & H8). split; [done|]. split; [by etrans|].
      split; [congruence|done].
    + split_and!; [done..|]. apply delayed_future; [done|]. intros ? ? ? E. rewrite Hd in E. by simplify_eq.
Qed.

Lemma promote_delayed_ok now q : ok q ->
  let q1 := promote_delayed now q in ok q1 /\ same q q1 /\ view q1 = view q /\ promoted now q1.
Proof. intros Hok. by apply promote_loop_ok. Qed.

(** *** Taking a ready envelope *)

(** The item of a state without a lease. *)
Definition idle_item (s : EnvelopeState) : item :=
  mkItem (env_set_available (st_available_at_ms s) (st_envelope s)) (st_next_attempt s) None.

Lemma view_item_idle q s : st_active_lease_id s = None -> view_item q s = idle_item s.
Proof. intros Ha. unfold view_item, lease_of. by rewrite Ha. Qed.

Lemma take_ready_ok now ids q : ok q -> ready q = ids -> promoted now q ->
  match take_ready now ids q with
  | (Some (id, s), q1) =>
      exists q0, ok_rest id q0 /\ q1 = store id s q0 /\ same q q0 /\ view q0 = view q /\ idle id s /\
        st_available_at_ms s <= now /\ view q !! id = Some (idle_item s)
  | (None, q1) =>
      ok q1 /\ same q q1 /\ view q1 = view q /\
      forall id s, states q1 !! id = Some s -> st_active_lease_id s = None -> now < st_available_at_ms s
  end.
Proof.
  revert q. induction ids as [|id rest IH]; intros q Hok Hr Hp; cbn [take_ready].
  - split_and!; [done..|]. intros id s Hs Ha. apply (Hp id s); [done..|].
    destruct (st_in_ready s) eqn:E; [|done]. destruct (so_ready _ _ _ (ok_states _ Hok _ _ Hs) E) as [Hin _].
    rewrite Hr in Hin. by apply elem_of_nil in Hin.
  - destruct (ok_ready _ Hok id) as (s & Hs & Hsr); [rewrite Hr; by left|].
    pose proof (ok_states _ Hok _ _ Hs) as Hso. destruct (so_ready _ _ _ Hso Hsr) as [_ Ha].
    pose proof (ok_rest_take _ _ _ Hok Hr) as Hrest. set (s0 := st_set_in_ready false s).
    assert (idle id s0) as Hidle by (by destruct Hso).
    cbn [states set_ready]. rewrite Hs. fold s0. rewrite (idle_active _ _ Hidle). cbn [is_set].
    assert (view q !! id = Some (idle_item s0)) as Hv.
    { apply ready_view_lookup. exists s. split; [done|]. by rewrite view_item_idle. }
    destruct (Z.ltb_spec now (st_available_at_ms s0)) as [Hlt|Hle].
    + set (q1 := push_delayed id s0 (set_ready rest q)).
      assert (view q1 = view q) as Hv1.
      { unfold q1. rewrite view_push_delayed by done. rewrite view_item_idle by by destruct Hidle. by apply insert_id. }
      assert (same q q1) as Hs1 by (etrans; [|apply same_push_delayed]; by split).
      assert (ok q1) as Hok1 by by apply ok_rest_push_delayed.
      assert (ready q1 = rest /\ states q1 = <[id := s0]> (states q)) as [Hr1 Hst1].
      { unfold q1, push_delayed. by rewrite (idle_active _ _ Hidle). }
      assert (promoted now q1) as Hp1.
      { intros id' s'. rewrite Hst1. intros [[<- <-]|[Hne H]]%lookup_insert_Some; [done|]. by apply (Hp id' s'). }
      specialize (IH q1 Hok1 Hr1 Hp1). rewrite <- Hv1.
      destruct (take_ready now rest q1) as [[[id' s']|] q2].
      * destruct IH as (q0 & ? & ? & ? & ? & ? & ? & ?). exists q0. split_and!; try done; by etrans.
      * destruct IH as (? & ? & ? & ?). split_and!; try done. by etrans.
    + by exists (set_ready rest q).
Qed.

(** *** Leasing *)
Definition leased (fresh : string) (i : InFlight) (s : EnvelopeState) (q : t) : t :=
  let id := if_envelope_id i in
  set_deadlines (heappush (if_deadline_ms i, fresh) (lease_deadlines q))
    (set_in_flight (<[fresh := i]> (in_flight q)) (store id (st_lease fresh s) q)).

Lemma ready_leased_ok fresh i s q : ok_rest (if_envelope_id i) q -> idle (if_envelope_id i) s ->
  ~ q_used q fresh -> ok (leased fresh i s q).
Proof.
  intros [H1 H2 H3 H4 H5 H6 H7] [Hid Hn Hr Ha] Hf.
  assert (in_flight q !! fresh = None) as Hfl.
  { destruct (in_flight q !! fresh) eqn:E; [|done]. destruct Hf. left. by rewrite E. }
  assert (forall d, (d, fresh) ∉ lease_deadlines q) as Hfd by (intros d Hin; apply Hf; right; eauto).
  split; cbn; try done.
  - by apply heappush_ok.
  - intros id' [Hne (s' & ? & ?)]%H4. exists s'. by rewrite lookup_insert_ne.
  - intros id' s' [[<- <-]|[Hne H]]%lookup_insert_Some.
    + split; cbn; try done; [by rewrite Hr|]. intros lid [= <-]. exists i. rewrite lookup_insert_eq.
      split_and!; [done..|]. apply elem_of_heappush. by left.
    + destruct (H5 id' s') as [S1 S2 S3 S4 S5]; [done..|]. split; cbn; try done.
      intros lid Hl. destruct (S4 lid Hl) as (i' & ? & ? & ?). exists i'.
      rewrite lookup_insert_ne by congruence. split_and!; [done..|]. apply elem_of_heappush. by right.
  - intros lid i' [[<- <-]|[Hne H]]%lookup_insert_Some.
    + exists (st_lease fresh s). by rewrite lookup_insert_eq.
    + destruct (H6 _ _ H) as (Hne' & s' & ? & ?). exists s'. by rewrite lookup_insert_ne.
  - intros d lid i' [E|Hin]%elem_of_heappush.
    + injection E as -> ->. rewrite lookup_insert_eq. by intros [= ->].
    + rewrite lookup_insert_ne; [by apply H7|]. intros <-. by apply (Hfd d).
Qed.

Lemma view_leased_eq fresh i s q : in_flight q !! fresh = None ->
  (forall id s, id <> if_envelope_id i -> states q !! id = Some s -> st_active_lease_id s <> Some fresh) ->
  view (leased fresh i s q) =
  <[if_envelope_id i := mkItem (env_set_available (st_available_at_ms s) (st_envelope s))
      (st_next_attempt s) (Some (fresh, if_deadline_ms i))]> (view q).
Proof.
  intros Hf Hs. apply map_eq. intros id. unfold view. rewrite lookup_fmap. cbn [states leased set_deadlines set_in_flight store].
  destruct (decide (id = if_envelope_id i)) as [->|Hne].
  - rewrite !lookup_insert_eq. cbn. unfold view_item, lease_of. cbn. by rewrite lookup_insert_eq.
  - rewrite !lookup_insert_ne, lookup_fmap by done. destruct (states q !! id) as [s'|] eqn:E; [|done].
    cbn. f_equal. unfold view_item. f_equal. unfold lease_of.
    destruct (st_active_lease_id s') as [lid|] eqn:El; [|done]. cbn. rewrite lookup_insert_ne; [done|].
    intros <-. by apply (Hs id s').
Qed.

(** ** The laws *)

(** The state in which every operation but [ack] looks up its envelope. *)
Lemma maintained now q : ok q ->
  let q2 := promote_delayed now (expire_leases now q).1 in
  ok q2 /\ same q q2 /\ view q2 = observe now q /\ promoted now q2.
Proof.
  intros Hok. destruct (expire_leases_ok now q Hok) as (H1 & H2 & H3).
  destruct (promote_delayed_ok now _ H1) as (H4 & H5 & H6 & H7).
  split; [done|]. split; [by etrans|]. split; [congruence|done].
Qed.

Lemma ready_view_push id s now q : ok_rest id q -> idle id s ->
  let q1 := if st_available_at_ms s <=? now then push_ready id s q else push_delayed id s q in
  ok q1 /\ same q q1 /\ view q1 = <[id := idle_item s]> (view q).
Proof.
  intros Hr Hi q1. pose proof (idle_active _ _ Hi) as Ha. unfold q1. destruct (_ <=? now).
  - split; [by apply ok_rest_push_ready|]. split; [apply same_push_ready|].
    by rewrite view_push_ready, view_item_idle.
  - split; [by apply ok_rest_push_delayed|]. split; [apply same_push_delayed|].
    by rewrite view_push_delayed, view_item_idle.
Qed.

Lemma ready_law_enqueue_ok q now e : ok q -> closed q = false -> 0 <= attempt e ->
  let '(r, q') := q_enqueue now e q in
  ok q' /\ closed q' = false /\
  match observe now q !! envelope_id e with
  | Some _ => r = Raise (already_enqueued (envelope_id e)) /\ observe now q' = observe now q
  | None => r = Ok tt /\ observe now q' = spec_enqueue e (observe now q)
  end.
Proof.
  intros Hok Hcl Ha. cbn [q_enqueue ops]. unfold mbind, st_bind, enqueue. rewrite Hcl.
  destruct (maintained now q Hok) as (H1 & H2 & H3 & H4). destruct (expire_leases now q) as [q1 obs].
  cbn [fst] in *. set (q2 := promote_delayed now q1) in *. rewrite <- H3. unfold view at 1. rewrite lookup_fmap.
  destruct (states q2 !! envelope_id e) as [s|] eqn:E; cbn [fmap option_fmap option_map].
  - split; [done|]. split; [by rewrite (same_closed _ _ H2)|]. split; [done|].
    rewrite H3. by apply observe_settled; [auto with py|].
  - set (s := mkState e _ _ _ _). destruct (ready_view_push (envelope_id e) s now q2) as (V1 & V2 & V3);
      [by apply ready_ok_rest_new|by split|].
    split; [done|]. split; [by rewrite (same_closed _ _ V2), (same_closed _ _ H2)|]. split; [done|].
    apply observe_settled; [rewrite H3; auto with py|]. cbn [q_view ops]. rewrite V3. unfold spec_enqueue.
    f_equal. unfold idle_item. by destruct e.
Qed.

Lemma ready_find_leased_ok l q : ok q ->
  match find_leased l q with
  | Some (id, s) => exists i, in_flight q !! lease_id l = Some i /\ if_envelope_id i = id /\
      states q !! id = Some s /\ st_active_lease_id s = Some (lease_id l)
  | None => in_flight q !! lease_id l = None /\
      forall id it, view q !! id = Some it -> ~ leased_as (lease_id l) it
  end.
Proof.
  intros Hok. unfold find_leased. destruct (in_flight q !! lease_id l) as [i|] eqn:E.
  - destruct (ok_in_flight _ Hok _ _ E) as (s & Hs & Ha). rewrite Hs, decide_True by done. by exists i.
  - split; [done|]. intros id it (s & Hs & ->)%ready_view_lookup. pose proof (ok_states _ Hok _ _ Hs) as Hso.
    rewrite (view_leased q id) by done. intros Ha. destruct (so_active _ _ _ Hso _ Ha) as (i & Hi & _). congruence.
Qed.

Lemma pop_absent lid q : in_flight q !! lid = None -> pop_in_flight lid q = q.
Proof. intros Hn. unfold pop_in_flight. rewrite delete_id by done. by destruct q. Qed.

Lemma ready_law_ack_ok q now l : ok q -> closed q = false ->
  exists q', q_ack now l q = (Ok tt, q') /\ ok q' /\ closed q' = false /\
  observe now q' = spec_ack l (observe now q).
Proof.
  intros Hok Hcl. cbn [q_ack ops]. unfold mbind, st_bind, ack. rewrite Hcl.
  destruct (expire_leases_ok now q Hok) as (H1 & H2 & H3). destruct (expire_leases now q) as [q1 obs].
  cbn [fst] in *. pose proof (ready_find_leased_ok l q1 H1) as Hf. destruct (find_leased l q1) as [[id s]|].
  - destruct Hf as (i & Hi & <- & Hs & Ha). eexists. split; [done|].
    split; [by apply ok_rest_remove; eapply ready_ok_rest_release|]. split; [cbn; by rewrite (same_closed _ _ H2)|].
    apply observe_settled; [auto with py|]. rewrite <- H3. cbn [q_view ops].
    assert (view (remove (if_envelope_id i) (pop_in_flight (lease_id l) q1)) =
      delete (if_envelope_id i) (view (pop_in_flight (lease_id l) q1))) as ->.
    { unfold view. cbn. by rewrite fmap_delete. }
    apply map_eq. intros id. unfold spec_ack. rewrite map_lookup_filter.
    destruct (decide (id = if_envelope_id i)) as [->|Hne].
    + rewrite lookup_delete_eq. unfold view. rewrite lookup_fmap, Hs. cbn. rewrite option_guard_False; [done|].
      cbn. intros Hn. apply Hn. by eapply view_leased; [by eapply ok_states|].
    + rewrite lookup_delete_ne, (view_pop_in_flight _ i) by done.
      destruct (view q1 !! id) as [it|] eqn:Eit; [|done]. cbn. rewrite option_guard_True; [done|]. cbn.
      apply ready_view_lookup in Eit as (s' & Hs' & ->). pose proof (ok_states _ H1 _ _ Hs') as Hso.
      rewrite (view_leased q1 id) by done. intros Ha'. destruct (so_active _ _ _ Hso _ Ha') as (i' & Hi' & He & _). congruence.
  - destruct Hf as [Hn Hf]. rewrite pop_absent by done. eexists. split; [done|]. split; [done|].
    split; [by rewrite (same_closed _ _ H2)|]. apply observe_settled; [auto with py|]. rewrite <- H3.
    unfold spec_ack. symmetry. apply map_filter_id. intros id it Hit. cbn. by eapply Hf.
Qed.

Lemma ready_law_nack_ok q now l d ms : ok q -> closed q = false ->
  isfinite (delay_or_zero d) = true -> fle fzero (delay_or_zero d) = true ->
  ms_of_s (delay_or_zero d) = Ok ms ->
  exists q', q_nack now l d q = (Ok tt, q') /\ ok q' /\ closed q' = false /\
  observe now q' = spec_nack now ms l (observe now q).
Proof.
  intros Hok Hcl Hfin Hd Hms. cbn [q_nack ops]. unfold mbind, st_bind, nack. rewrite Hcl.
  unfold delay_or_zero in *. rewrite Hfin, Hms.
  assert (flt (default fzero d) fzero = false) as ->.
  { destruct (flt (default fzero d) fzero) eqn:E; [|done]. apply flt_not_ge in E. congruence. }
  destruct (maintained now q Hok) as (H1 & H2 & H3 & H4). destruct (expire_leases now q) as [q1 obs].
  cbn [fst negb orb] in *. set (q2 := promote_delayed now q1) in *.
  pose proof (ready_find_leased_ok l q2 H1) as Hf. destruct (find_leased l q2) as [[id s]|].
  - destruct Hf as (i & Hi & <- & Hs & Ha). pose proof (ok_states _ H1 _ _ Hs) as Hso.
    pose proof (idle_release (now + ms) _ _ _ _ Hso Ha) as Hidle.
    destruct (ready_view_push (if_envelope_id i) (st_release (now + ms) s) now (pop_in_flight (lease_id l) q2))
      as (V1 & V2 & V3); [by eapply ready_ok_rest_release|done|].
    eexists. split; [done|]. split; [done|].
    split; [by rewrite (same_closed _ _ V2), (same_closed _ _ (same_pop _ _)), (same_closed _ _ H2)|].
    apply observe_settled; [auto with py|]. cbn [q_view ops]. rewrite V3, <- H3.
    change (idle_item (st_release (now + ms) s)) with (it_set_avail (now + ms) (view_item q2 s)).
    by rewrite (view_end_lease _ i s (now + ms) q2).
  - destruct Hf as [Hn Hf]. rewrite pop_absent by done. eexists. split; [done|]. split; [done|].
    split; [by rewrite (same_closed _ _ H2)|]. apply observe_settled; [auto with py|]. rewrite <- H3.
    cbn [q_view ops]. apply map_eq. intros id. unfold spec_nack. rewrite lookup_fmap.
    destruct (view q2 !! id) as [it|] eqn:E; [|done]. cbn. rewrite decide_False; [done|]. by eapply Hf.
Qed.

Lemma dequeue_args_ok tm q : closed q = false ->
  isfinite (timeout_or q tm) = true -> flt fzero (timeout_or q tm) = true ->
  dequeue_args tm (Some fzero) q = Ok (timeout_or q tm).
Proof.
  intros Hcl Hfin Hpos. unfold dequeue_args. rewrite Hcl. unfold timeout_or in *.
  cbn [q_default_timeout ops] in *. cbn [raise_if]. cbn.
  by rewrite Hfin, (flt_not_ge _ _ Hpos).
Qed.

Lemma ready_law_dequeue_ok q fresh now tm ms : ok q -> closed q = false ->
  is_uuid4_str fresh = true -> ~ q_used q fresh -> 0 <= now ->
  isfinite (timeout_or q tm) = true -> flt fzero (timeout_or q tm) = true ->
  ms_of_s (timeout_or q tm) = Ok ms ->
  exists l q', q_dequeue fresh now tm q = (Ok l, q') /\ ok q' /\ closed q' = false /\
  match l with
  | Some l => exists id it, observe now q !! id = Some it /\ eligible now it /\
      envelope_id (it_env it) = id /\
      l = spec_lease fresh now (timeout_or q tm) it /\
      observe now q' = spec_dequeue fresh now ms id it (observe now q)
  | None => (forall id it, observe now q !! id = Some it -> ~ eligible now it) /\
      observe now q' = observe now q
  end.
Proof.
  intros Hok Hcl Hu Hf Hn Hfin Hpos Hms. cbn [q_dequeue ops]. unfold mbind, st_bind, dequeue.
  rewrite dequeue_args_ok by done. set (vt := timeout_or q tm) in *. unfold dequeue_pass. rewrite Hcl.
  destruct (maintained now q Hok) as (H1 & H2 & H3 & H4). destruct (expire_leases now q) as [q1 obs].
  cbn [fst] in *. set (q2 := promote_delayed now q1) in *.
  pose proof (take_ready_ok now (ready q2) q2 H1 eq_refl H4) as Ht. unfold try_dequeue.
  destruct (take_ready now (ready q2) q2) as [[[id s]|] q3].
  - destruct Ht as (q0 & Hr & -> & Hsame & Hv & Hidle & Hav & Hit). rewrite Hms.
    destruct Hidle as [Hid Hnx Hrd Hac] eqn:Hi.
    rewrite Lease_validate_ok; [|done|done|done|by apply flt_not_ge|done|done].
    set (i := mkInFlight id (st_next_attempt s) now (now + ms) vt).
    eexists (Some _), (leased fresh i (st_incr_attempt s) q0). split.
    { cbn. unfold leased, store, set_in_flight, set_deadlines. cbn. by rewrite insert_insert_eq. }
    assert (~ q_used q0 fresh) as Hf0 by (intros ?%(same_used _ _ Hsame)%(same_used _ _ H2); done).
    assert (ok (leased fresh i (st_incr_attempt s) q0)) as Hok'.
    { apply ready_leased_ok; [done| |done]. split; cbn; try done. lia. }
    split; [done|]. split; [cbn; by rewrite (same_closed _ _ Hsame), (same_closed _ _ H2)|].
    exists id, (idle_item s). rewrite <- H3. split; [done|]. split; [by split|]. split; [done|]. split; [done|].
    unfold observe, spec_dequeue. cbn [q_view ops]. f_equal. rewrite view_leased_eq.
    + rewrite Hv. done.
    + destruct (in_flight q0 !! fresh) eqn:E; [|done]. destruct Hf0. left. by rewrite E.
    + intros id' s' Hne Hs' Ha'. destruct (or_states _ _ Hr id' s' Hne Hs') as [_ _ _ S4 _].
      destruct (S4 _ Ha') as (i' & Hi' & _). destruct Hf0. left. by rewrite Hi'.
  - destruct Ht as (Hok3 & Hsame & Hv & Hlt). eexists None, q3. split; [done|]. split; [done|].
    split; [by rewrite (same_closed _ _ Hsame), (same_closed _ _ H2)|]. split.
    + intros id it. rewrite <- H3, <- Hv. intros (s & Hs & ->)%ready_view_lookup [Hl Hav].
      apply (view_unleased q3 id) in Hl; [|by apply ok_states]. specialize (Hlt _ _ Hs Hl). cbn in Hav. lia.
    + apply observe_settled; [auto with py|]. cbn [q_view ops]. congruence.
Qed.

#[export] Instance laws : QueueLaws t.
Proof.
  split; [apply ready_law_enqueue_ok|apply ready_law_dequeue_ok|apply ready_law_ack_ok|apply ready_law_nack_ok].
Qed.

Lemma ready_init_ok d q : init d = Ok q -> ok q /\ closed q = false /\ view q = ∅.
Proof.
  unfold init. intros (u & _ & [= <-])%res_bind_Ok. split; [|done].
  split; cbn; try done; try constructor; try (by intros ? ?%elem_of_nil); set_solver.
Qed.

(** The background tasks only do what every operation does first. *)
Lemma ticks_ok now q : ok q -> closed q = false ->
  ok (promoter_tick now q) /\ observe now (promoter_tick now q) = observe now q /\
  ok (reaper_tick now q).1 /\ observe now (reaper_tick now q).1 = observe now q.
Proof.
  intros Hok Hcl. unfold promoter_tick, reaper_tick. rewrite Hcl.
  destruct (promote_delayed_ok now q Hok) as (H1 & _ & H2 & _).
  destruct (expire_leases_ok now q Hok) as (H3 & _ & H4). split_and!; try done.
  - unfold observe at 1. cbn [q_view ops]. by rewrite H2.
  - apply observe_settled; [auto with py|done].
Qed.
End ReadyQueue.

(** ** Properties *)
Import ReadyQueue.

Definition ready_envelope (n : Z) : TaskEnvelope :=
  mkTaskEnvelope (uuid_str (4 * 16 ^ 19 + 8 * 16 ^ 15 + n)) "00000000-0000-4000-8000-00000000000b"
    "00000000-0000-4000-8000-00000000000c" 0 1000 1000 None None None None.
Definition ready_lease_id (n : Z) : string := uuid_str (4 * 16 ^ 19 + 8 * 16 ^ 15 + 1000 + n).

Definition empty_ready_queue : t := mkQueue (of_Z 60) false [] ∅ ∅ [] [] 0.
Lemma empty_ready_queue_ok : ok empty_ready_queue.
Proof. by apply (ready_init_ok (of_Z 60)). Qed.

Definition sample_ready_queue : t := (enqueue 1000 (ready_envelope 1) empty_ready_queue).2.

Lemma sample_ready_queue_ok : ok sample_ready_queue /\ closed sample_ready_queue = false.
Proof.
  pose proof (ready_law_enqueue_ok empty_ready_queue 1000 (ready_envelope 1) empty_ready_queue_ok eq_refl ltac:(done)) as H.
  cbn [q_enqueue ops] in H. unfold mbind, st_bind in H. unfold sample_ready_queue.
  destruct (enqueue _ _ _) as [[] q]; cbn in *; tauto.
Qed.

(** C6: the FIFO queue implements the same contract as the heap queue: enqueue,
    dequeue, ack and nack act on the observed map of envelopes exactly as
    specified, whatever stale entries its two heaps hold, except that an expired
    envelope becomes available from the time its expiry is noticed. *)
Theorem ready_queue_refines : QueueLaws t.
Proof. exact laws. Qed.

(** over any history of calls the attempts with which the FIFO queue
    delivers an envelope strictly increase while it is not enqueued again, and
    after a timely acknowledgement it is not delivered any more. *)
Theorem ready_queue_deliveries q id cs ls q' : ok q -> closed q = false ->
  history q cs ls q' -> Forall (fun c => enqueues id c = false) cs ->
  StronglySorted Z.lt (deliveries id ls) /\
  forall q0 now l it, ok q0 -> closed q0 = false -> observe now q0 !! id = Some it ->
    leased_as (lease_id l) it -> q = (ack now l q0).2 -> deliveries id ls = [].
Proof.
  intros Hok Hcl Hh Hcs. split; [by apply (history_deliveries q cs ls q')|].
  intros q0 now l it H1 H2 H3 H4 H5. apply (history_after_ack q0 now l id it q cs ls q'); try done.
  rewrite H5. cbn [q_ack ops]. unfold mbind, st_bind. by destruct (ack now l q0) as [[] ?].
Qed.

Definition ready_calls : list call :=
  [CDequeue (ready_lease_id 1) 1000 None; CDequeue (ready_lease_id 2) 70000 None].

Lemma ready_queue_deliveries_witness :
  deliveries (envelope_id (ready_envelope 1)) (run_calls ready_calls sample_ready_queue).1 = [0; 1] /\
  StronglySorted Z.lt (deliveries (envelope_id (ready_envelope 1)) (run_calls ready_calls sample_ready_queue).1).
Proof.
  split; [vm_compute; reflexivity|].
  apply (ready_queue_deliveries sample_ready_queue _ ready_calls _ (run_calls ready_calls sample_ready_queue).2
           (proj1 sample_ready_queue_ok) (proj2 sample_ready_queue_ok)); [|by repeat constructor].
  apply run_calls_history. split; [|split; [|done]]; split_and!; try (by vm_compute);
    vm_compute; intros H; destruct H as [H|H]; (destruct H as [x H]); try done.
  - by apply elem_of_nil in H.
  - apply elem_of_cons in H as [H|H]; [done|]. by apply elem_of_nil in H.
Defined.

(** a pass of a blocking [dequeue] that goes on waiting found nothing to
    deliver and left the observed queue unchanged, and so did a pass that
    returns [None]; neither the promoter nor the reaper task changes what is
    observed. *)
Theorem ready_queue_waits fresh now vt w q r obs q' : ok q -> closed q = false ->
  dequeue_pass fresh now vt w q = (Ok (r, obs), q') -> (forall l, r <> Return (Some l)) ->
  (forall id it, observe now q !! id = Some it -> ~ eligible now it) /\
  observe now q' = observe now q /\
  observe now (promoter_tick now q) = observe now q /\ observe now (reaper_tick now q).1 = observe now q.
Proof.
  intros Hok Hcl Hp Hr. destruct (ticks_ok now q Hok Hcl) as (_ & Ht1 & _ & Ht2).
  cut ((forall id it, observe now q !! id = Some it -> ~ eligible now it) /\ observe now q' = observe now q);
    [tauto|]. unfold dequeue_pass in Hp. rewrite Hcl in Hp.
  destruct (maintained now q Hok) as (H1 & H2 & H3 & H4). destruct (expire_leases now q) as [q1 obs1].
  cbn [fst] in *. set (q2 := promote_delayed now q1) in *.
  pose proof (take_ready_ok now (ready q2) q2 H1 eq_refl H4) as Ht. unfold try_dequeue in Hp.
  destruct (take_ready now (ready q2) q2) as [[[id s]|] q3].
  - destruct (ms_of_s vt); [|done]. destruct (Lease_validate _); cbn in Hp; simplify_eq. by edestruct Hr.
  - destruct Ht as (Hok3 & Hsame & Hv & Hlt). assert (q' = q3) as -> by (destruct (stop_waiting w); congruence).
    split.
    + intros id it. rewrite <- H3, <- Hv. intros (s & Hs & ->)%ready_view_lookup [Hl Hav].
      apply (view_unleased q3 id) in Hl; [|by apply ok_states]. specialize (Hlt _ _ Hs Hl). cbn in Hav. lia.
    + apply observe_settled; [auto with py|]. cbn [q_view ops]. congruence.
Qed.

Lemma ready_queue_waits_witness : exists obs q',
  dequeue_pass (ready_lease_id 1) 500 (of_Z 60) WaitForever sample_ready_queue = (Ok (KeepWaiting, obs), q') /\
  observe 500 q' = observe 500 sample_ready_queue.
Proof.
  eexists _, _. split; [vm_compute; reflexivity|].
  eapply (ready_queue_waits (ready_lease_id 1) 500 (of_Z 60) WaitForever sample_ready_queue KeepWaiting).
  - apply sample_ready_queue_ok.
  - apply sample_ready_queue_ok.
  - vm_compute. reflexivity.
  - done.
Defined.
