(* ===== verification/MessageQueue.v ===== *)
(** * The message queue backend: [infra/queue/in_memory.py] and
    [orchestrator/queue/contracts.py]

    [QueueMessage.new] and [InMemoryQueueBackend]: named queues of messages
    with visibility leases and de-duplication keys. [leased] is iterated, hence
    an association list. The results: a backend invariant kept by every
    operation, what [reserve] delivers, and that a de-duplication key enqueues
    at most one live message. *)

From Stdlib Require Import ZArith Lia Sorted.
From S2P Require Import Prelude Uuid Models.

Module MessageQueue.

Record QueueMessage := mkMessage {
  message_id : string;
  queue_name : string;
  payload : list (string * json);
  enqueued_at_ms : Z;
  available_at_ms : Z;
  attempts : Z;
  dedupe_key : option string;
}.

(** [_MessageState]: the message and [leased_until_ms]. *)
Record MessageState := mkMessageState {
  to_message : QueueMessage;
  leased_until_ms : option Z;
}.

Definition entry : Type := Z * (Z * string).

Record QueueState := mkQueueState {
  available_heap : list entry;
  messages : gmap string MessageState;
  leased : list (string * Z);
  dedupe : gmap string string;
}.

(** The backend: the dictionary [_queues]. *)
Notation t := (gmap string QueueState).

Definition empty_queue : QueueState := mkQueueState [] ∅ [] ∅.
Definition queue (name : string) (b : t) : QueueState := default empty_queue (b !! name).

Definition normalize_queue_name (name : string) : res string :=
  if is_empty (strip name) then Raise (ValueError "queue_name must be non-empty") else Ok (strip name).

(** [QueueMessage.new]; [fresh] is [str(uuid4())]. *)
Definition message_new (fresh : string) (now : Z) (name : string) (pl : list (string * json))
    (available : option Z) (key : option string) : res QueueMessage :=
  name ← normalize_queue_name name;
  raise_if (negb (jsonable (JObj pl))) (ValueError "payload must be JSON-serializable");;
  Ok (mkMessage fresh name pl now (default now available) 0
        match key with None => None | Some k => strip_or_none k end).

Definition msg_entry (m : QueueMessage) : entry := (available_at_ms m, (enqueued_at_ms m, message_id m)).

Definition set_available (v : Z) (m : QueueMessage) : QueueMessage :=
  mkMessage (message_id m) (queue_name m) (payload m) (enqueued_at_ms m) v (attempts m) (dedupe_key m).
Definition incr_attempts (m : QueueMessage) : QueueMessage :=
  mkMessage (message_id m) (queue_name m) (payload m) (enqueued_at_ms m) (available_at_ms m)
    (attempts m + 1) (dedupe_key m).

(** The message an [enqueue] with the key of [m] finds, if any. *)
Definition find_duplicate (m : QueueMessage) (q : QueueState) : option MessageState :=
  match dedupe_key m with
  | None => None
  | Some k => match dedupe q !! k with None => None | Some id => messages q !! id end
  end.

Definition add_message (m : QueueMessage) (q : QueueState) : QueueState :=
  mkQueueState (heappush (msg_entry m) (available_heap q))
    (<[message_id m := mkMessageState m None]> (messages q)) (leased q)
    match dedupe_key m with None => dedupe q | Some k => <[k := message_id m]> (dedupe q) end.

Definition enqueue (fresh : string) (now : Z) (name : string) (pl : list (string * json))
    (key : option string) (available : option Z) : st t QueueMessage := fun b =>
  match message_new fresh now name pl available key with
  | Raise e => (Raise e, b)
  | Ok m =>
      let q := queue (queue_name m) b in
      match find_duplicate m q with
      | Some s => (Ok (to_message s), <[queue_name m := q]> b)
      | None => (Ok m, <[queue_name m := add_message m q]> b)
      end
  end.

(** [_release_expired_leases] *)
Definition release_one (q : QueueState) (p : string * Z) : QueueState :=
  let q := mkQueueState (available_heap q) (messages q) (adel p.1 (leased q)) (dedupe q) in
  match messages q !! p.1 with
  | None => q
  | Some s =>
      mkQueueState (heappush (msg_entry (to_message s)) (available_heap q))
        (<[p.1 := mkMessageState (to_message s) None]> (messages q)) (leased q) (dedupe q)
  end.
Definition release_expired_leases (now : Z) (q : QueueState) : QueueState :=
  fold_left release_one (filter (fun p => p.2 <= now) (leased q)) q.

(** The loop of [reserve]. *)
Fixpoint scan (now : Z) (msgs : gmap string MessageState) (heap : list entry)
  : option MessageState * list entry :=
  match heap with
  | [] => (None, [])
  | e :: rest =>
      match msgs !! e.2.2 with
      | None => scan now msgs rest
      | Some s =>
          if is_set (leased_until_ms s) then scan now msgs rest
          else if negb ((available_at_ms (to_message s) =? e.1) && (enqueued_at_ms (to_message s) =? e.2.1))
          then scan now msgs rest
          else if now <? available_at_ms (to_message s) then (None, heappush e rest)
          else (Some s, rest)
      end
  end.

Definition reserve_in (now lease_ms : Z) (q : QueueState) : option QueueMessage * QueueState :=
  let q := release_expired_leases now q in
  let '(found, heap) := scan now (messages q) (available_heap q) in
  match found with
  | None => (None, mkQueueState heap (messages q) (leased q) (dedupe q))
  | Some s =>
      let m := incr_attempts (to_message s) in
      let until := now + lease_ms in
      (Some m, mkQueueState heap (<[message_id m := mkMessageState m (Some until)]> (messages q))
                 (aset (message_id m) until (leased q)) (dedupe q))
  end.

Definition reserve (now : Z) (name : string) (lease_ms : Z) : st t (option QueueMessage) := fun b =>
  if lease_ms <=? 0 then (Raise (ValueError "lease_ms must be > 0"), b)
  else match normalize_queue_name name with
  | Raise e => (Raise e, b)
  | Ok name =>
      let '(m, q) := reserve_in now lease_ms (queue name b) in (Ok m, <[name := q]> b)
  end.

Definition unknown_message (id : string) : exn := KeyError ("unknown message_id: " +:+ id).

Definition ack (name id : string) : st t unit := fun b =>
  match normalize_queue_name name with
  | Raise e => (Raise e, b)
  | Ok name =>
      let q := queue name b in
      match messages q !! id with
      | None => (Raise (unknown_message id), <[name := q]> b)
      | Some s =>
          let dedupe' :=
            match dedupe_key (to_message s) with
            | Some k => if decide (dedupe q !! k = Some id) then delete k (dedupe q) else dedupe q
            | None => dedupe q
            end in
          (Ok tt, <[name := mkQueueState (available_heap q) (delete id (messages q)) (adel id (leased q)) dedupe']> b)
      end
  end.

Definition nack (now : Z) (name id : string) (delay_ms : Z) : st t unit := fun b =>
  if delay_ms <? 0 then (Raise (ValueError "delay_ms must be >= 0"), b)
  else match normalize_queue_name name with
  | Raise e => (Raise e, b)
  | Ok name =>
      let q := queue name b in
      match messages q !! id with
      | None => (Raise (unknown_message id), <[name := q]> b)
      | Some s =>
          match leased_until_ms s with
          | None => (Raise (ValueError "nack requires a leased (reserved) message"), <[name := q]> b)
          | Some _ =>
              let m := set_available (now + delay_ms) (to_message s) in
              (Ok tt, <[name := mkQueueState (heappush (available_at_ms m, (enqueued_at_ms m, id)) (available_heap q))
                          (<[id := mkMessageState m None]> (messages q)) (adel id (leased q)) (dedupe q)]> b)
          end
      end
  end.

(** ** The invariant of a queue *)
Record ok (q : QueueState) : Prop := {
  ok_heap : heap_ok (available_heap q);
  ok_nodup : NoDup (keys (leased q));
  ok_id : forall id s, messages q !! id = Some s -> message_id (to_message s) = id;
  ok_leased : forall id until, aget id (leased q) = Some until <->
    exists s, messages q !! id = Some s /\ leased_until_ms s = Some until;
  ok_available : forall id s, messages q !! id = Some s -> leased_until_ms s = None ->
    msg_entry (to_message s) ∈ available_heap q;
}.

(** The message may be reserved at [now]. *)
Definition due (now : Z) (s : MessageState) : Prop :=
  match leased_until_ms s with Some until => until <= now | None => True end /\
  available_at_ms (to_message s) <= now.

Lemma ok_empty : ok empty_queue.
Proof. split; cbn; try constructor; try done. by intros (s & ? & ?). Qed.

(** Un-leasing a message and pushing its entry. *)
Lemma ok_push id m q : ok q -> message_id m = id ->
  ok (mkQueueState (heappush (msg_entry m) (available_heap q))
        (<[id := mkMessageState m None]> (messages q)) (adel id (leased q)) (dedupe q)).
Proof.
  intros [H1 H2 H3 H4 H5] Hid. split; cbn.
  - by apply heappush_ok.
  - by apply NoDup_keys_adel.
  - intros id' s [[<- <-]|[_ H]]%lookup_insert_Some; [done|by apply H3].
  - intros id' until. rewrite aget_adel by done. case_decide as E; [subst id'|].
    + split; [done|]. intros (s & Hs & Hl). rewrite lookup_insert_eq in Hs. by simplify_eq.
    + rewrite H4, lookup_insert_ne by done. done.
  - intros id' s [[<- <-]|[_ H]]%lookup_insert_Some Hl; apply elem_of_heappush; [by left|right; by eapply H5].
Qed.

Lemma adel_absent {A} id (l : list (string * A)) : aget id l = None -> adel id l = l.
Proof.
  induction l as [|[k v] l IH]; [done|]. cbn. case_decide; [done|]. intros H'. by rewrite IH.
Qed.

Lemma ok_add_message m q : ok q -> messages q !! message_id m = None -> ok (add_message m q).
Proof.
  intros Hok Hn. pose proof (ok_push (message_id m) m q Hok eq_refl) as H.
  rewrite adel_absent in H; [by destruct H; split|].
  destruct (aget (message_id m) (leased q)) eqn:E; [|done].
  apply (ok_leased _ Hok) in E as (s & Hs & _). congruence.
Qed.

Lemma msg_release_one_ok q id until : ok q -> aget id (leased q) = Some until ->
  ok (release_one q (id, until)) /\ leased (release_one q (id, until)) = adel id (leased q) /\
  exists s, messages q !! id = Some s /\
    messages (release_one q (id, until)) = <[id := mkMessageState (to_message s) None]> (messages q).
Proof.
  intros Hok Hl. pose proof Hl as (s & Hs & _)%(ok_leased _ Hok). unfold release_one. cbn. rewrite Hs.
  split; [by apply (ok_push id (to_message s) q); [|by eapply ok_id]|]. split; [done|]. by exists s.
Qed.

(** What releasing the expired leases does to a message. *)
Definition expire (now : Z) (s : MessageState) : MessageState :=
  match leased_until_ms s with
  | Some until => if until <=? now then mkMessageState (to_message s) None else s
  | None => s
  end.

Lemma to_message_expire now s : to_message (expire now s) = to_message s.
Proof. unfold expire. destruct (leased_until_ms s); [|done]. by case_match. Qed.

Definition clear_in (ids : list string) (id : string) (s : MessageState) : MessageState :=
  if decide (id ∈ ids) then mkMessageState (to_message s) None else s.

Lemma msg_release_fold_ok L q : ok q -> NoDup L.*1 -> (forall p, p ∈ L -> aget p.1 (leased q) = Some p.2) ->
  ok (fold_left release_one L q) /\
  forall id, messages (fold_left release_one L q) !! id = clear_in L.*1 id <$> messages q !! id.
Proof.
  revert q. induction L as [|[id0 u0] L IH]; intros q Hok Hnd HL.
  - split; [done|]. intros id. cbn. destruct (messages q !! id); done.
  - rewrite fmap_cons in Hnd. apply NoDup_cons in Hnd as [Hni Hnd]. cbn [fold_left].
    destruct (msg_release_one_ok q id0 u0 Hok) as (H1 & H2 & s & Hs & H3); [by apply (HL (id0, u0)); left|].
    destruct (IH (release_one q (id0, u0))) as [H4 H5]; [done|done| |].
    + intros p Hp. rewrite H2, aget_adel by apply Hok. rewrite decide_False; [apply HL; by right|].
      intros E. apply Hni. cbn. rewrite <- E. by apply list_elem_of_fmap_2.
    + split; [done|]. intros id. rewrite H5, H3. unfold clear_in. rewrite fmap_cons. cbn [fst].
      destruct (decide (id = id0)) as [->|Hne].
      * rewrite lookup_insert_eq, Hs. cbn. rewrite decide_False by done. by rewrite decide_True by by left.
      * rewrite lookup_insert_ne by done. destruct (messages q !! id); cbn; [|done]. f_equal.
        apply decide_ext. set_solver.
Qed.

Lemma msg_release_expired_ok now q : ok q ->
  ok (release_expired_leases now q) /\ messages (release_expired_leases now q) = expire now <$> messages q.
Proof.
  intros Hok. unfold release_expired_leases. set (L := filter _ _).
  destruct (msg_release_fold_ok L q) as [H1 H2]; [done| | |].
  - assert (forall l : list (string * Z), NoDup (keys l) -> NoDup (filter (fun p => p.2 <= now) l).*1) as Hf;
      [|by apply Hf, ok_nodup].
    unfold keys. induction l as [|p l IH]; [by rewrite filter_nil|]. rewrite fmap_cons, filter_cons.
    intros [Hn Hd]%NoDup_cons. case_decide; [|by apply IH]. rewrite fmap_cons. apply NoDup_cons.
    split; [|by apply IH]. intros (p' & E & [_ Hp]%list_elem_of_filter)%list_elem_of_fmap.
    apply Hn. rewrite E. by apply list_elem_of_fmap_2.
  - intros [id u] [_ Hp]%list_elem_of_filter. cbn. by apply elem_aget; [apply ok_nodup|].
  - split; [done|]. apply map_eq. intros id. rewrite H2, lookup_fmap.
    destruct (messages q !! id) as [s|] eqn:Es; [|done]. cbn. f_equal. unfold clear_in, expire.
    assert (id ∈ L.*1 <-> exists u, leased_until_ms s = Some u /\ u <= now) as Hiff.
    { rewrite list_elem_of_fmap. split.
      - intros ([id' u] & -> & [Hu Hp]%list_elem_of_filter). apply elem_aget in Hp; [|apply Hok].
        apply (ok_leased _ Hok) in Hp as (s' & Hs' & Hl). cbn in *. exists u. split; [congruence|done].
      - intros (u & Hl & Hu). exists (id, u). split; [done|]. apply list_elem_of_filter. split; [done|].
        apply aget_Some_elem. apply (ok_leased _ Hok). eauto. }
    destruct (decide (id ∈ L.*1)) as [Hin|Hin]; rewrite Hiff in Hin.
    + destruct Hin as (u & -> & Hu). by rewrite (proj2 (Z.leb_le _ _)).
    + destruct (leased_until_ms s) as [u|]; [|done]. destruct (Z.leb_spec u now); [|done].
      destruct Hin. eauto.
Qed.

Definition covers (msgs : gmap string MessageState) (h : list entry) : Prop :=
  forall id s, msgs !! id = Some s -> leased_until_ms s = None -> msg_entry (to_message s) ∈ h.

Lemma msg_scan_ok now msgs h found h' : heap_ok h -> covers msgs h ->
  (forall id s, msgs !! id = Some s -> message_id (to_message s) = id) ->
  scan now msgs h = (found, h') ->
  heap_ok h' /\
  match found with
  | Some s =>
      msgs !! message_id (to_message s) = Some s /\ leased_until_ms s = None /\
      available_at_ms (to_message s) <= now /\
      (forall id' s', id' <> message_id (to_message s) -> msgs !! id' = Some s' -> leased_until_ms s' = None ->
        msg_entry (to_message s') ∈ h')
  | None =>
      (forall id s, msgs !! id = Some s -> leased_until_ms s = None -> now < available_at_ms (to_message s)) /\
      covers msgs h'
  end.
Proof.
  intros Hh Hc Hid. revert Hh Hc. induction h as [|e h IH]; intros Hh Hc; cbn [scan].
  - intros [= <- <-]. split; [done|]. split; [|done]. intros id s H1 H2.
    apply (Hc id s H1) in H2. by apply elem_of_nil in H2.
  - assert (heap_ok h /\ forall y, y ∈ h -> ple e y = true) as [Hh' Hmin].
    { unfold heap_ok in *. inversion Hh; subst. split; [done|]. by apply Forall_forall. }
    assert ((forall s, msgs !! e.2.2 = Some s -> leased_until_ms s = None -> msg_entry (to_message s) <> e) ->
      covers msgs h) as Hskip.
    { intros Hs id s H1 H2. pose proof (Hc id s H1 H2) as [E|H]%elem_of_cons; [|done]. exfalso.
      apply (Hs s); [|done|done]. rewrite <- E. cbn. by rewrite (Hid _ _ H1). }
    destruct (msgs !! e.2.2) as [s|] eqn:Es; [|apply IH; [done|]; apply Hskip; congruence].
    destruct (leased_until_ms s) as [u|] eqn:El; cbn [is_set];
      [apply IH; [done|]; apply Hskip; intros; congruence|].
    destruct ((available_at_ms (to_message s) =? e.1) && (enqueued_at_ms (to_message s) =? e.2.1)) eqn:Ee;
      cbn [negb]; cycle 1.
    { apply IH; [done|]. apply Hskip. intros s' [= <-] _ E. rewrite <- E in Ee. cbn in Ee.
      by rewrite !Z.eqb_refl in Ee. }
    apply andb_prop in Ee as [E1%Z.eqb_eq E2%Z.eqb_eq].
    destruct (Z.ltb_spec now (available_at_ms (to_message s))) as [Hlt|Hle]; intros [= <- <-].
    + split; [by apply heappush_ok|]. split; intros id s' H1 H2.
      * pose proof (Hc id s' H1 H2) as [E|Hin]%elem_of_cons; [rewrite <- E in E1; cbn in E1; lia|].
        apply Hmin, ple_fst in Hin. cbn in Hin. lia.
      * apply elem_of_heappush, elem_of_cons. by eapply Hc.
    + split; [done|]. rewrite (Hid _ _ Es). split_and!; [done..|]. intros id' s' Hne H1 H2.
      pose proof (Hc id' s' H1 H2) as [E|Hin]%elem_of_cons; [|done]. destruct Hne.
      rewrite <- E. cbn. by rewrite (Hid _ _ H1).
Qed.

(** What [reserve] does to the queue. *)
Lemma reserve_in_ok now lease_ms q r q' : ok q -> reserve_in now lease_ms q = (r, q') ->
  ok q' /\ dedupe q' = dedupe q /\
  match r with
  | Some m => exists s, messages q !! message_id m = Some s /\ due now s /\
      m = incr_attempts (to_message s) /\
      messages q' = <[message_id m := mkMessageState m (Some (now + lease_ms))]> (expire now <$> messages q)
  | None => (forall id s, messages q !! id = Some s -> ~ due now s) /\ messages q' = expire now <$> messages q
  end.
Proof.
  intros Hok. unfold reserve_in. destruct (msg_release_expired_ok now q Hok) as [Hok1 Hm].
  assert (dedupe (release_expired_leases now q) = dedupe q) as Hd.
  { unfold release_expired_leases. generalize (filter (fun p : string * Z => p.2 <= now) (leased q)).
    intros L. clear. revert q. induction L as [|p L IH]; intros q; [done|]. cbn [fold_left]. rewrite IH.
    unfold release_one. cbn. by destruct (messages q !! p.1). }
  set (q1 := release_expired_leases now q) in *.
  assert (forall id s, messages q1 !! id = Some s <-> exists s0, messages q !! id = Some s0 /\ s = expire now s0) as Hl.
  { intros id s. rewrite Hm, lookup_fmap_Some. split; intros (s0 & H1 & H2); exists s0; naive_solver. }
  destruct (scan now (messages q1) (available_heap q1)) as [found h] eqn:Es.
  apply msg_scan_ok in Es as [Hh Hf]; [|apply Hok1|intros id s; apply Hok1|intros id s; apply Hok1].
  destruct found as [s|]; intros [= <- <-].
  - destruct Hf as (Hs & Hn & Hav & Hcov). set (id := message_id (to_message s)) in *. split; [|split; [done|]].
    + split; cbn; [done|apply NoDup_keys_aset, Hok1| | |].
      * intros id' s' [[<- <-]|[_ H]]%lookup_insert_Some; [done|by apply Hok1].
      * intros id' u. rewrite aget_aset. change (message_id (incr_attempts _)) with id. case_decide as E; [subst id'|].
        -- rewrite lookup_insert_eq. naive_solver.
        -- rewrite lookup_insert_ne by done. apply Hok1.
      * intros id' s' [[<- <-]|[Hne H]]%lookup_insert_Some Hn'; [done|]. by apply (Hcov id').
    + apply Hl in Hs as (s0 & Hs0 & ->). exists s0.
      unfold id in *. clear id. rewrite to_message_expire in *. split; [done|]. split; [|split; [done|]].
      * split; [|done]. unfold expire in Hn. destruct (leased_until_ms s0) as [u|] eqn:El; [|done].
        destruct (Z.leb_spec u now); [done|]. congruence.
      * cbn. by rewrite Hm.
  - destruct Hf as [Hlt Hcov]. split; [|split; [done|split; [|done]]].
    + destruct Hok1. by split.
    + intros id s Hs [Hu Hav]. specialize (Hlt id (expire now s)). unfold expire in Hlt.
      assert (now < available_at_ms (to_message s)); [|lia].
      destruct (leased_until_ms s) as [u|] eqn:El.
      * rewrite (proj2 (Z.leb_le _ _)) in Hlt by done. apply Hlt; [|done]. apply Hl. exists s.
        unfold expire. by rewrite El, (proj2 (Z.leb_le _ _)).
      * apply Hlt; [|done]. apply Hl. exists s. unfold expire. by rewrite El.
Qed.

(** ** The backend *)

(** A live message with a key is the one the key names. *)
Definition keyed (q : QueueState) : Prop :=
  forall id s k, messages q !! id = Some s -> dedupe_key (to_message s) = Some k -> dedupe q !! k = Some id.

Definition wf (b : t) : Prop := forall name, ok (queue name b) /\ keyed (queue name b).

Inductive op :=
| Enqueue (fresh : string) (now : Z) (name : string) (pl : list (string * json))
    (key : option string) (available : option Z)
| Reserve (now : Z) (name : string) (lease_ms : Z)
| Ack (name id : string)
| Nack (now : Z) (name id : string) (delay_ms : Z).

Definition apply (o : op) (b : t) : t :=
  match o with
  | Enqueue fresh now name pl key available => (enqueue fresh now name pl key available b).2
  | Reserve now name lease_ms => (reserve now name lease_ms b).2
  | Ack name id => (ack name id b).2
  | Nack now name id delay_ms => (nack now name id delay_ms b).2
  end.

(** A new message gets an id that no message has. *)
Definition fresh_for (b : t) (o : op) : Prop :=
  match o with
  | Enqueue fresh _ _ _ _ _ => forall name, messages (queue name b) !! fresh = None
  | _ => True
  end.

Inductive reachable : t -> Prop :=
| reachable_init : reachable ∅
| reachable_step b o : reachable b -> fresh_for b o -> reachable (apply o b).

Lemma queue_insert name name' q b :
  queue name' (<[name := q]> b) = if decide (name' = name) then q else queue name' b.
Proof. unfold queue. case_decide; [subst; by rewrite lookup_insert_eq|by rewrite lookup_insert_ne]. Qed.

Lemma wf_insert name q b : wf b -> ok q -> keyed q -> wf (<[name := q]> b).
Proof. intros Hb Hq Hk name'. rewrite queue_insert. case_decide; [done|apply Hb]. Qed.

Lemma wf_touch name b : wf b -> wf (<[name := queue name b]> b).
Proof. intros Hb. by apply wf_insert; [|apply Hb|apply Hb]. Qed.

(** Messages whose key and id are those of [q] stay keyed. *)
Lemma keyed_mono q q' : keyed q -> dedupe q' = dedupe q ->
  (forall id s', messages q' !! id = Some s' -> exists s, messages q !! id = Some s /\
    dedupe_key (to_message s') = dedupe_key (to_message s)) -> keyed q'.
Proof. intros Hk Hd Hm id s' k Hs Hkey. rewrite Hd. destruct (Hm _ _ Hs) as (s & H1 & H2). apply (Hk id s); congruence. Qed.

Lemma enqueue_wf fresh now name pl key available b : wf b ->
  (forall name, messages (queue name b) !! fresh = None) -> wf (enqueue fresh now name pl key available b).2.
Proof.
  intros Hb Hf. unfold enqueue. destruct (message_new _ _ _ _ _ _) as [m|] eqn:Em; [|done].
  assert (message_id m = fresh) as Hid.
  { unfold message_new in Em. by res_inv. }
  destruct (find_duplicate m (queue (queue_name m) b)) as [s|] eqn:Ed; [by apply wf_touch|].
  destruct (Hb (queue_name m)) as [Hok Hk]. assert (messages (queue (queue_name m) b) !! message_id m = None) as Hn
    by (rewrite Hid; apply Hf).
  apply wf_insert; [done|by apply ok_add_message|]. unfold find_duplicate in Ed. intros id s k. cbn.
  intros [[<- <-]|[Hne Hs]]%lookup_insert_Some Hkey.
  - cbn in Hkey. rewrite Hkey. by rewrite lookup_insert_eq.
  - specialize (Hk id s k Hs Hkey). destruct (dedupe_key m) as [k'|]; [|done].
    rewrite lookup_insert_ne; [done|]. intros ->. rewrite Hk in Ed. congruence.
Qed.

Lemma reserve_wf now name lease_ms b : wf b -> wf (reserve now name lease_ms b).2.
Proof.
  intros Hb. unfold reserve. destruct (_ <=? 0); [done|]. destruct (normalize_queue_name name) as [n|]; [|done].
  destruct (reserve_in now lease_ms (queue n b)) as [r q'] eqn:E. destruct (Hb n) as [Hok Hk].
  destruct (reserve_in_ok _ _ _ _ _ Hok E) as (Hok' & Hd & Hr). apply wf_insert; [done|done|].
  apply (keyed_mono (queue n b)); [done|done|]. intros id s'.
  destruct r as [m|]; [destruct Hr as (s & Hs & _ & -> & ->)|destruct Hr as [_ ->]].
  - intros [[<- <-]|[_ H]]%lookup_insert_Some; [by exists s|].
    apply lookup_fmap_Some in H as (s0 & <- & H). exists s0. by rewrite to_message_expire.
  - intros (s0 & <- & H)%lookup_fmap_Some. exists s0. by rewrite to_message_expire.
Qed.

Lemma ack_wf name id b : wf b -> wf (ack name id b).2.
Proof.
  intros Hb. unfold ack. destruct (normalize_queue_name name) as [n|]; [|done].
  destruct (messages (queue n b) !! id) as [s|] eqn:Es; [|by apply wf_touch].
  destruct (Hb n) as [[H1 H2 H3 H4 H5] Hk]. apply wf_insert; [done| |].
  - split; cbn; [done|by apply NoDup_keys_adel| | |].
    + intros id' s' [_ H]%lookup_delete_Some. by apply H3.
    + intros id' u. rewrite aget_adel by done. case_decide as E; [subst id'|].
      * split; [done|]. intros (s' & Hs' & _). by rewrite lookup_delete_eq in Hs'.
      * rewrite H4, lookup_delete_ne by done. done.
    + intros id' s' [_ H]%lookup_delete_Some. by apply H5 with id'.
  - intros id' s' k; cbn [messages]; intros [Hne Hs']%lookup_delete_Some Hkey. specialize (Hk _ _ _ Hs' Hkey). cbn.
    destruct (dedupe_key (to_message s)) as [k'|]; [|done]. case_decide as E; [|done].
    rewrite lookup_delete_ne; [done|]. intros ->. congruence.
Qed.

Lemma nack_wf now name id delay_ms b : wf b -> wf (nack now name id delay_ms b).2.
Proof.
  intros Hb. unfold nack. destruct (delay_ms <? 0); [done|]. destruct (normalize_queue_name name) as [n|]; [|done].
  destruct (messages (queue n b) !! id) as [s|] eqn:Es; [|by apply wf_touch].
  destruct (leased_until_ms s) as [u|]; [|by apply wf_touch]. destruct (Hb n) as [Hok Hk].
  pose proof (ok_id _ Hok _ _ Es) as Hid. apply wf_insert; [done| |].
  - pose proof (ok_push id (set_available (now + delay_ms) (to_message s)) _ Hok Hid) as H.
    unfold msg_entry in H. cbn in H. by rewrite Hid in H.
  - apply (keyed_mono (queue n b)); [done|done|]. intros id' s'; cbn [messages]; intros [[<- <-]|[_ H]]%lookup_insert_Some; [by exists s|].
    by exists s'.
Qed.

Lemma reachable_wf b : reachable b -> wf b.
Proof.
  induction 1 as [|b o _ IH Hf].
  - intros name. unfold queue. rewrite lookup_empty. split; [apply ok_empty|]. by intros ?.
  - destruct o; cbn; auto using reserve_wf, ack_wf, nack_wf. by apply enqueue_wf.
Qed.
End MessageQueue.

(** ** Properties *)
Import MessageQueue.

(** [reserve], on a queue reached by any sequence of operations, returns
    [None] only when no message is due (unleased or with its lease over, and
    available); otherwise it leases one due message until [now + lease_ms],
    counts the attempt, and changes no other message except that expired
    leases end. *)
Theorem message_reserve_spec b name now lease_ms r q' : reachable b ->
  reserve_in now lease_ms (queue name b) = (r, q') ->
  match r with
  | Some m => exists s, messages (queue name b) !! message_id m = Some s /\ due now s /\
      m = incr_attempts (to_message s) /\
      messages q' = <[message_id m := mkMessageState m (Some (now + lease_ms))]>
                      (expire now <$> messages (queue name b))
  | None => (forall id s, messages (queue name b) !! id = Some s -> ~ due now s) /\
      messages q' = expire now <$> messages (queue name b)
  end.
Proof.
  intros Hr H. destruct (reachable_wf b Hr name) as [Hok _].
  by destruct (reserve_in_ok _ _ _ _ _ Hok H) as (_ & _ & Hm).
Qed.

Definition sample_backend : MessageQueue.t :=
  apply (Enqueue "m2" 10 " jobs " [("n", JInt 2)] (Some "k") None)
    (apply (Enqueue "m1" 5 "jobs" [("n", JInt 1)] (Some " k ") (Some 7)) ∅).

Lemma sample_backend_reachable : reachable sample_backend.
Proof.
  apply reachable_step; [apply reachable_step; [apply reachable_init|]|].
  - intros name. unfold queue. by rewrite lookup_empty.
  - intros name. destruct (decide (name = "jobs")) as [->|Hne]; [by vm_compute|].
    change (messages (queue name (<["jobs" :=
      add_message (mkMessage "m1" "jobs" [("n", JInt 1)] 5 7 0 (Some "k")) (queue "jobs" ∅)]> ∅)) !! "m2" = None).
    rewrite queue_insert, decide_False by done. unfold queue. by rewrite lookup_empty.
Qed.

Lemma message_reserve_spec_witness : exists m q',
  reserve_in 8 60 (queue "jobs" sample_backend) = (Some m, q') /\ message_id m = "m1" /\
  exists s, messages (queue "jobs" sample_backend) !! message_id m = Some s /\ due 8 s.
Proof.
  eexists _, _. split; [vm_compute; reflexivity|]. split; [reflexivity|].
  destruct (message_reserve_spec sample_backend "jobs" 8 60
    (Some (mkMessage "m1" "jobs" [("n", JInt 1)] 5 7 1 (Some "k"))) _ sample_backend_reachable
    ltac:(vm_compute; reflexivity)) as (s & H1 & H2 & _). by exists s.
Defined.

(** a de-duplication key protects against double enqueue: after any
    sequence of operations, two live messages of one queue with the same key
    are the same message, and enqueueing with the key of a live message returns
    that message and adds none. *)
Theorem message_dedupe b name : reachable b ->
  (forall id id' s s' k, messages (queue name b) !! id = Some s -> messages (queue name b) !! id' = Some s' ->
    dedupe_key (to_message s) = Some k -> dedupe_key (to_message s') = Some k -> id = id') /\
  (forall fresh now pl key available id s k, strip name = name -> name <> "" ->
    jsonable (JObj pl) = true -> key = Some k -> strip_or_none k = dedupe_key (to_message s) ->
    dedupe_key (to_message s) <> None -> messages (queue name b) !! id = Some s ->
    exists b', enqueue fresh now name pl key available b = (Ok (to_message s), b') /\
      queue name b' = queue name b).
Proof.
  intros Hr. destruct (reachable_wf b Hr name) as [Hok Hk]. split.
  - intros id id' s s' k H1 H2 H3 H4. pose proof (Hk _ _ _ H1 H3). pose proof (Hk _ _ _ H2 H4). congruence.
  - intros fresh now pl key available id s k Hn1 Hn2 Hj -> Hke Hsome Hs. unfold enqueue, message_new, normalize_queue_name.
    rewrite Hn1. destruct (is_empty name) eqn:En; [by apply is_empty_spec in En|]. cbn -[jsonable]. rewrite Hj. cbn.
    unfold find_duplicate. cbn. rewrite Hke. destruct (dedupe_key (to_message s)) as [k'|] eqn:Ek; [|done].
    rewrite (Hk _ _ _ Hs Ek), Hs. eexists. split; [done|]. rewrite queue_insert. by rewrite decide_True.
Qed.

Lemma message_dedupe_witness : exists s b',
  messages (queue "jobs" sample_backend) !! "m1" = Some s /\
  enqueue "m3" 20 "jobs" [] (Some "k ") None sample_backend = (Ok (to_message s), b').
Proof.
  eexists.
  assert (exists b', enqueue "m3" 20 "jobs" [] (Some "k ") None sample_backend =
    (Ok (to_message (mkMessageState (mkMessage "m1" "jobs" [("n", JInt 1)] 5 7 0 (Some "k")) None)), b') /\
    queue "jobs" b' = queue "jobs" sample_backend) as (b' & H & _).
  { apply (proj2 (message_dedupe sample_backend "jobs" sample_backend_reachable)
             "m3" 20 [] (Some "k ") None "m1" _ "k "); try reflexivity; try done; vm_compute; reflexivity. }
  exists b'. split; [|exact H]. vm_compute. reflexivity.
Defined.
