(* ===== verification/RateLimit.v ===== *)
(** * Rate limiting: [guards/rate_limit/]

    [RateLimitSpec], [RateLimitKey], the token bucket on binary64 numbers, the
    in-memory limiter with its LRU and idle-time eviction, the limiter backed by
    a store, and the policy that consumes several buckets for one tool call.
    Time comes in as an argument of every operation. The results: a bucket
    never holds a negative, infinite or too large number of tokens and never
    raises on admissible input; a limiter remembers at most [max_keys] buckets,
    most recently used last, and keeps the buckets apart. *)

From Stdlib Require Import ZArith SpecFloat Lia.
From S2P Require Import Prelude PyFloat.

(** ** [spec.py] *)
Record RateLimitSpec := mkRateLimitSpec {
  capacity : spec_float;
  refill_rate_per_s : spec_float;
  burst : spec_float;
}.

Definition negative_or_not_finite (x : spec_float) : bool := negb (isfinite x) || flt x fzero.

(** The constructor: [__post_init__]. *)
Definition RateLimitSpec_new (capacity refill burst : spec_float) : res RateLimitSpec :=
  raise_if (negative_or_not_finite capacity) (ValueError "capacity must be finite and >= 0");;
  raise_if (negative_or_not_finite refill) (ValueError "refill_rate_per_s must be finite and >= 0");;
  raise_if (negative_or_not_finite burst) (ValueError "burst must be finite and >= 0");;
  raise_if (fle (fadd capacity burst) fzero) (ValueError "capacity + burst must be > 0");;
  Ok (mkRateLimitSpec capacity refill burst).

Definition max_tokens (s : RateLimitSpec) : spec_float := fadd (capacity s) (burst s).

(** ** [key.py] *)
Record RateLimitKey := mkRateLimitKey {
  rk_scope : option string;
  rk_tool_name : option string;
  rk_destination : option string;
  rk_run_id : option string;
}.

#[export] Instance RateLimitKey_eq_dec : EqDecision RateLimitKey.
Proof. solve_decision. Defined.

Definition normalize_optional_str (field_name : string) (value : option string) : res (option string) :=
  match value with
  | None => Ok None
  | Some v => if is_empty (strip v)
              then Raise (ValueError (field_name +:+ " must be non-empty when provided"))
              else Ok (Some (strip v))
  end.

Definition RateLimitKey_new (scope tool_name destination run_id : option string) : res RateLimitKey :=
  scope ← normalize_optional_str "scope" scope;
  tool_name ← normalize_optional_str "tool_name" tool_name;
  destination ← normalize_optional_str "destination" destination;
  run_id ← normalize_optional_str "run_id" run_id;
  raise_if (negb (is_set scope || is_set tool_name || is_set destination || is_set run_id))
    (ValueError "at least one of scope/tool_name/destination/run_id must be set");;
  Ok (mkRateLimitKey scope tool_name destination run_id).

(** ** [token_bucket.py] *)
Record TokenBucketState := mkTokenBucketState {
  tokens : spec_float;
  updated_at_s : spec_float;
}.

(** The checks shared by [TokenBucketState] and [TokenBucket]. *)
Definition bucket_new (tokens updated_at : spec_float) : res TokenBucketState :=
  raise_if (negative_or_not_finite tokens) (ValueError "tokens must be finite and >= 0");;
  raise_if (negative_or_not_finite updated_at) (ValueError "updated_at_s must be finite and >= 0");;
  Ok (mkTokenBucketState tokens updated_at).

(** A [TokenBucket] is its [spec] and its state. *)
Definition TokenBucket_new (spec : RateLimitSpec) (now_s : spec_float) : res TokenBucketState :=
  raise_if (negative_or_not_finite now_s) (ValueError "now_s must be finite and >= 0");;
  bucket_new (max_tokens spec) now_s.

Definition from_state (spec : RateLimitSpec) (state : option TokenBucketState) (now_s : spec_float)
  : res TokenBucketState :=
  match state with
  | None => TokenBucket_new spec now_s
  | Some s => bucket_new (fmin (max_tokens spec) (tokens s)) (updated_at_s s)
  end.

(** [_refill] *)
Definition refill (spec : RateLimitSpec) (now_s : spec_float) (b : TokenBucketState) : res TokenBucketState :=
  raise_if (negative_or_not_finite now_s) (ValueError "now_s must be finite and >= 0");;
  let elapsed_s := fmax fzero (fsub now_s (updated_at_s b)) in
  if fle elapsed_s fzero then Ok (mkTokenBucketState (tokens b) now_s)
  else
    let amount := fmul elapsed_s (refill_rate_per_s spec) in
    Ok (mkTokenBucketState (fmin (max_tokens spec) (fadd (tokens b) amount)) now_s).

(** [consume]: whether the call is allowed, after how long to retry, and the bucket. *)
Definition bucket_consume (spec : RateLimitSpec) (cost now_s : spec_float) (b : TokenBucketState)
  : res ((bool * option spec_float) * TokenBucketState) :=
  raise_if (negative_or_not_finite cost) (ValueError "cost must be finite and >= 0");;
  b ← refill spec now_s b;
  if flt (max_tokens spec) cost then Ok ((false, None), b)
  else if fle cost (tokens b)
  then Ok ((true, Some fzero), mkTokenBucketState (fsub (tokens b) cost) (updated_at_s b))
  else
    let deficit := fsub cost (tokens b) in
    if fle (refill_rate_per_s spec) fzero then Ok ((false, None), b)
    else Ok ((false, Some (fdiv deficit (refill_rate_per_s spec))), b).

(** ** [limiter.py] and the store-backed limiter *)
Record RateLimitResult := mkRateLimitResult {
  allowed : bool;
  retry_after_s : option spec_float;
}.

(** The protocol [RateLimiter]. *)
Class RateLimiter (L : Type) :=
  limiter_consume : RateLimitKey -> RateLimitSpec -> spec_float -> spec_float -> st L RateLimitResult.

(** One consumption on the stored state of a bucket, and the state to store. *)
Definition consume_state (spec : RateLimitSpec) (cost now_s : spec_float) (state : option TokenBucketState)
  : res (RateLimitResult * TokenBucketState) :=
  bucket ← from_state spec state now_s;
  p ← bucket_consume spec cost now_s bucket;
  let '((ok, retry), bucket) := p in
  state ← bucket_new (tokens bucket) (updated_at_s bucket);
  Ok (mkRateLimitResult ok retry, state).

(** [TokenBucketRateLimiter.consume] over a store [S] that can load and save. *)
Section stored.
Context {S : Type}.
Variable load : RateLimitKey -> st S (option TokenBucketState).
Variable save : RateLimitKey -> TokenBucketState -> st S unit.

Definition stored_consume (key : RateLimitKey) (spec : RateLimitSpec) (cost now_s : spec_float)
  : st S RateLimitResult :=
  state ← load key;
  p ← lift (consume_state spec cost now_s state);
  save key p.2;;
  mret p.1.
End stored.

(** [InMemoryTokenBucketStore]: a dict, read and written without copies; the
    states are frozen. *)
Definition store_load (key : RateLimitKey) : st (list (RateLimitKey * TokenBucketState)) (option TokenBucketState) :=
  fun d => (Ok (aget key d), d).
Definition store_save (key : RateLimitKey) (b : TokenBucketState) : st (list (RateLimitKey * TokenBucketState)) unit :=
  fun d => (Ok tt, aset key b d).

#[export] Instance stored_limiter : RateLimiter (list (RateLimitKey * TokenBucketState)) :=
  stored_consume store_load store_save.

(** ** [in_memory.py] *)
Record InMemoryRateLimiter := mkLimiter {
  max_keys : nat;
  ttl_s : spec_float;
  buckets : list (RateLimitKey * TokenBucketState);
}.

Definition InMemoryRateLimiter_new (max_keys : Z) (ttl_s : spec_float) : res InMemoryRateLimiter :=
  raise_if (max_keys <=? 0) (ValueError "max_keys must be > 0");;
  raise_if (negb (isfinite ttl_s) || fle ttl_s fzero) (ValueError "ttl_s must be finite and > 0");;
  Ok (mkLimiter (Z.to_nat max_keys) ttl_s []).

Definition set_buckets b (l : InMemoryRateLimiter) : InMemoryRateLimiter := mkLimiter (max_keys l) (ttl_s l) b.

Definition is_expired_bucket (ttl_s now_s : spec_float) (s : TokenBucketState) : bool :=
  flt ttl_s (fsub now_s (updated_at_s s)).

Fixpoint evict_expired (ttl_s now_s : spec_float) (d : list (RateLimitKey * TokenBucketState)) :=
  match d with
  | [] => []
  | (_, s) :: d' => if is_expired_bucket ttl_s now_s s then evict_expired ttl_s now_s d' else d
  end.

(** [_evict_lru] pops oldest entries while there are more than [max_keys]. *)
Fixpoint evict_lru {A} (max_keys : nat) (d : list A) : list A :=
  match d with
  | [] => []
  | _ :: d' => if (max_keys <? length d)%nat then evict_lru max_keys d' else d
  end.

Definition InMemoryRateLimiter_consume (key : RateLimitKey) (spec : RateLimitSpec) (cost now_s : spec_float)
  : st InMemoryRateLimiter RateLimitResult := fun l =>
  if negative_or_not_finite now_s then (Raise (ValueError "now_s must be finite and >= 0"), l)
  else
    let d := evict_expired (ttl_s l) now_s (buckets l) in
    match consume_state spec cost now_s (aget key d) with
    | Raise e => (Raise e, set_buckets d l)
    | Ok (r, s) =>
        (Ok r, set_buckets (evict_lru (max_keys l) (move_to_end key (aset key s d))) l)
    end.

#[export] Instance InMemoryRateLimiter_limiter : RateLimiter InMemoryRateLimiter := InMemoryRateLimiter_consume.

(** ** [policy.py] *)

(** The settings the policy reads; [destination] is the hostname it extracts
    from the arguments of the call. *)
Record rate_settings := {
  rate_limits_enabled : bool;
  rate_limit_default : option RateLimitSpec;
  rate_limit_per_tool : gmap string RateLimitSpec;
  rate_limit_per_destination : gmap string RateLimitSpec;
  rate_limit_per_run : option RateLimitSpec;
}.

Definition normalize_tool_name (tool_name : string) : string := lower (strip tool_name).

Definition or_default (cfg : rate_settings) (c : option RateLimitSpec) : option RateLimitSpec :=
  match c with Some s => Some s | None => rate_limit_default cfg end.

(** A check: the key is validated, and the configured numbers once more. *)
Definition make_check (key : res RateLimitKey) (c : option RateLimitSpec)
  : res (list (RateLimitKey * RateLimitSpec)) :=
  match c with
  | None => Ok []
  | Some s =>
      k ← key;
      s ← RateLimitSpec_new (capacity s) (refill_rate_per_s s) (burst s);
      Ok [(k, s)]
  end.

Definition resolve_checks (cfg : rate_settings) (tool_name : string) (destination run_id : option string)
  : res (list (RateLimitKey * RateLimitSpec)) :=
  if negb (rate_limits_enabled cfg) then Ok []
  else
    let tool_name := normalize_tool_name tool_name in
    c1 ← make_check (RateLimitKey_new None (Some tool_name) None None)
           (or_default cfg (rate_limit_per_tool cfg !! tool_name));
    c2 ← match destination with
         | None => Ok []
         | Some d => make_check (RateLimitKey_new None None (Some d) None)
                       (or_default cfg (rate_limit_per_destination cfg !! d))
         end;
    c3 ← match rate_limit_per_run cfg, run_id with
         | Some s, Some r =>
             let normalized := lower (strip r) in
             if is_empty normalized then Ok []
             else make_check (RateLimitKey_new None None None (Some normalized)) (Some s)
         | _, _ => Ok []
         end;
    Ok (c1 ++ c2 ++ c3).

(** The accumulator of the loop of [RateLimitPolicy.consume]. *)
Record verdict := mkVerdict {
  v_allowed : bool;
  v_unsatisfiable : bool;
  v_retry : option spec_float;
}.

Definition add_result (v : verdict) (r : RateLimitResult) : verdict :=
  if allowed r then v
  else match retry_after_s r with
  | None => mkVerdict false true (v_retry v)
  | Some x =>
      mkVerdict false (v_unsatisfiable v)
        (Some match v_retry v with None => x | Some y => fmax y x end)
  end.

Definition final_result (v : verdict) : RateLimitResult :=
  if v_allowed v then mkRateLimitResult true None
  else if v_unsatisfiable v then mkRateLimitResult false None
  else mkRateLimitResult false (v_retry v).

Section policy.
Context {L : Type} `{RateLimiter L}.

Fixpoint consume_checks (cost now_s : spec_float) (checks : list (RateLimitKey * RateLimitSpec)) (v : verdict)
  : st L verdict :=
  match checks with
  | [] => mret v
  | (key, spec) :: rest =>
      r ← limiter_consume key spec cost now_s;
      consume_checks cost now_s rest (add_result v r)
  end.

Definition policy_consume (cfg : rate_settings) (tool_name : string) (destination run_id : option string)
    (cost now_s : spec_float) : st L RateLimitResult :=
  if negb (rate_limits_enabled cfg) then mret (mkRateLimitResult true None)
  else
    checks ← lift (resolve_checks cfg tool_name destination run_id);
    match checks with
    | [] => mret (mkRateLimitResult true None)
    | _ => v ← consume_checks cost now_s checks (mkVerdict true false None); mret (final_result v)
    end.
End policy.

(** ** Token buckets *)

(** A non-negative finite binary64 number. *)
Record quantity (x : spec_float) : Prop := {
  qty_valid : fvalid x = true;
  qty_finite : isfinite x = true;
  qty_nonneg : fle fzero x = true;
}.

Record spec_ok (s : RateLimitSpec) : Prop := {
  sp_capacity : quantity (capacity s);
  sp_refill : quantity (refill_rate_per_s s);
  sp_burst : quantity (burst s);
  sp_max : isfinite (max_tokens s) = true;
}.

Record state_valid (b : TokenBucketState) : Prop := {
  sv_tokens : quantity (tokens b);
  sv_updated : quantity (updated_at_s b);
}.

(** A state of a bucket with specification [s]. *)
Record bucket_ok (s : RateLimitSpec) (b : TokenBucketState) : Prop := {
  bo_state : state_valid b;
  bo_max : fle (tokens b) (max_tokens s) = true;
}.

Lemma quantity_accepted x : quantity x -> negative_or_not_finite x = false.
Proof.
  intros [_ Hf Hn]. unfold negative_or_not_finite. rewrite Hf. cbn.
  destruct (flt x fzero) eqn:E; [|done]. apply flt_not_ge in E. congruence.
Qed.

Lemma quantity_notnan x : quantity x -> isnan x = false.
Proof. intros [_ Hf _]. by destruct x. Qed.

Lemma max_tokens_quantity s : spec_ok s -> quantity (max_tokens s).
Proof.
  intros [[] _ [] Hm]. destruct (fadd_nonneg (capacity s) (burst s)) as [H1 H2]; [done..|]. by split.
Qed.

Lemma bucket_new_ok t u : quantity t -> quantity u -> bucket_new t u = Ok (mkTokenBucketState t u).
Proof. intros Ht Hu. unfold bucket_new. by rewrite !quantity_accepted. Qed.

Lemma fmin_quantity m x : quantity m -> fvalid x = true -> fle fzero x = true ->
  quantity (fmin m x) /\ fle (fmin m x) m = true.
Proof.
  intros Hm Hv Hn. assert (isnan x = false) as Hx by by apply fle_notnan in Hn as [_ ?].
  pose proof (quantity_notnan _ Hm) as Hmn. destruct Hm.
  assert (fle (fmin m x) m = true) as Hle by by apply fmin_le_l.
  split; [|done]. assert (fle fzero (fmin m x) = true) as H0 by by apply fmin_ge.
  split; [by apply fmin_valid|by apply (fle_finite _ m)|done].
Qed.

(** Refilling keeps a bucket within its bounds and moves its clock. *)
Lemma refill_ok s now b : spec_ok s -> bucket_ok s b -> quantity now ->
  exists b', refill s now b = Ok b' /\ bucket_ok s b' /\ updated_at_s b' = now.
Proof.
  intros Hs [[Ht Hu] Hm] Hn. unfold refill. rewrite quantity_accepted by done. cbn.
  pose proof (max_tokens_quantity s Hs) as Hmq.
  destruct (fle (fmax fzero (fsub now (updated_at_s b))) fzero) eqn:E; [by eexists|].
  eexists. split; [done|]. cbn [updated_at_s]. split; [|done].
  assert (fmax fzero (fsub now (updated_at_s b)) = fsub now (updated_at_s b) /\
    flt fzero (fsub now (updated_at_s b)) = true) as [-> Hpos].
  { unfold fmax in *. by destruct (flt fzero (fsub now (updated_at_s b))). }
  destruct Hn as [N1 N2 N3], Hu as [U1 U2 U3].
  apply fsub_positive in Hpos; [|done..].
  destruct (fsub_between now (updated_at_s b)) as (H1 & H2 & _ & H4); [done..|].
  destruct (sp_refill _ Hs) as [R1 R2 R3].
  destruct (fmul_nonneg (fsub now (updated_at_s b)) (refill_rate_per_s s)) as [H5 H6]; [done..|].
  destruct (fadd_nonneg (tokens b) (fmul (fsub now (updated_at_s b)) (refill_rate_per_s s))) as [H7 H8];
    [apply Ht|done|apply Ht|done|].
  destruct (fmin_quantity _ _ Hmq H8 H7) as [H9 H10]. by split; [split|].
Qed.

Lemma not_fle_flt x y : isnan x = false -> isnan y = false -> fle x y = false -> flt y x = true.
Proof.
  intros Hx Hy H. destruct (flt y x) eqn:E; [done|]. apply flt_false_fle in E; [congruence|done|done].
Qed.

Lemma bucket_consume_ok s cost now b : spec_ok s -> bucket_ok s b -> quantity cost -> quantity now ->
  exists full ok retry b', refill s now b = Ok full /\
    bucket_consume s cost now b = Ok ((ok, retry), b') /\ bucket_ok s b' /\ updated_at_s b' = now /\
    match ok with
    | true => fle cost (tokens full) = true /\ tokens b' = fsub (tokens full) cost /\ retry = Some fzero
    | false => flt (tokens full) cost = true /\ b' = full /\
        (retry = None <-> flt (max_tokens s) cost = true \/ fle (refill_rate_per_s s) fzero = true) /\
        forall x, retry = Some x -> x = fdiv (fsub cost (tokens full)) (refill_rate_per_s s) /\ fle fzero x = true
    end.
Proof.
  intros Hs Hb Hc Hn. destruct (refill_ok s now b Hs Hb Hn) as (full & Hr & Hf & Hu).
  destruct Hf as [[Ft Fu] Fm] eqn:EF. pose proof (quantity_notnan _ Hc). pose proof (quantity_notnan _ Ft).
  unfold bucket_consume. rewrite quantity_accepted, Hr by done. cbn.
  destruct (flt (max_tokens s) cost) eqn:E1.
  - exists full, false, None, full. split; [done|]. split; [done|]. split; [done|]. split; [done|].
    split; [|split; [done|split; [by split; [left|]|done]]]. apply not_fle_flt; [done..|].
    destruct (fle cost (tokens full)) eqn:E; [|done]. apply flt_not_ge in E1.
    assert (fle cost (max_tokens s) = true) by by eapply fle_trans. congruence.
  - destruct (fle cost (tokens full)) eqn:E2.
    + destruct Ft as [T1 T2 T3] eqn:ET, Hc as [C1 C2 C3] eqn:EC.
      destruct (fsub_between (tokens full) cost) as (H1 & H2 & H3 & H4); [done..|].
      eexists full, true, _, _. split; [done|]. split; [done|]. split; [|done].
      split; [by split|]. cbn. by eapply fle_trans.
    + assert (flt (tokens full) cost = true) as Hlt by by apply not_fle_flt.
      destruct (fle (refill_rate_per_s s) fzero) eqn:E3.
      * exists full, false, None, full. split_and!; try done. split; [by right|done].
      * eexists full, false, (Some _), full. split; [done|]. split; [done|]. split; [done|]. split; [done|].
        split; [done|]. split; [done|]. split; [by split; [|intros []]|]. intros x [= <-]. split; [done|].
        pose proof (sp_refill s Hs) as Hrate. pose proof (quantity_notnan _ Hrate).
        destruct (fsub_between cost (tokens full)) as (Hf1 & Hf2 & _); [apply Hc|apply Ft|apply Hc|apply Ft|by apply flt_fle|].
        apply fdiv_nonneg; [done|apply Hrate|done|by apply not_fle_flt].
Qed.

(** What a denied result tells: never a negative delay, never a NaN. *)
Definition result_ok (r : RateLimitResult) : Prop :=
  allowed r = false -> forall x, retry_after_s r = Some x -> fle fzero x = true.

(** A stored state, of whatever specification, serves any admissible call. *)
Lemma consume_state_ok s cost now st : spec_ok s -> quantity cost -> quantity now ->
  (forall b, st = Some b -> state_valid b) ->
  exists r b', consume_state s cost now st = Ok (r, b') /\ bucket_ok s b' /\ updated_at_s b' = now /\
    result_ok r.
Proof.
  intros Hs Hc Hn Hst. pose proof (max_tokens_quantity s Hs) as Hm. unfold consume_state.
  assert (exists b, from_state s st now = Ok b /\ bucket_ok s b) as (b & -> & Hb).
  { unfold from_state, TokenBucket_new. destruct st as [b|].
    - destruct (Hst b eq_refl) as [Ht Hu].
      destruct (fmin_quantity (max_tokens s) (tokens b) Hm) as [H1 H2]; [apply Ht..|].
      rewrite bucket_new_ok by done. by eexists.
    - rewrite quantity_accepted, bucket_new_ok by done. eexists. split; [done|]. split; [done|].
      by apply fle_refl, quantity_notnan. }
  cbn. destruct (bucket_consume_ok s cost now b) as (full & ok & retry & b' & _ & -> & Hb' & Hu & Hr); [done..|].
  cbn. assert (result_ok (mkRateLimitResult ok retry)) as Hres.
  { unfold result_ok. cbn. intros -> x Hx. by apply Hr. }
  destruct Hb' as [[T U] M]. rewrite bucket_new_ok by done. cbn. eexists _, _.
  by destruct b'.
Qed.

(** ** The in-memory limiter *)
Record limiter_ok (l : InMemoryRateLimiter) : Prop := {
  lo_max : (0 < max_keys l)%nat;
  lo_nodup : NoDup (keys (buckets l));
  lo_size : (length (buckets l) <= max_keys l)%nat;
  lo_valid : forall k b, aget k (buckets l) = Some b -> state_valid b;
}.

Lemma evict_expired_suffix t n d : exists k, evict_expired t n d = drop k d.
Proof.
  induction d as [|[k s] d [n' IH]]; [by exists 0%nat|]. cbn. destruct (is_expired_bucket t n s).
  - exists (Datatypes.S n'). done.
  - by exists 0%nat.
Qed.

Lemma evict_lru_drop {A} m (d : list A) : evict_lru m d = drop (length d - m) d.
Proof.
  induction d as [|x d IH]; [by rewrite drop_nil|]. cbn [evict_lru length].
  destruct (Nat.ltb_spec m (S (length d))).
  - rewrite IH. replace (S (length d) - m)%nat with (S (length d - m)) by lia. done.
  - by replace (S (length d) - m)%nat with 0%nat by lia.
Qed.

Lemma last_drop_lt {A} n (l : list A) : (n < length l)%nat -> last (drop n l) = last l.
Proof.
  intros Hn. rewrite <- (take_drop n l) at 2. rewrite last_app.
  destruct (last (drop n l)) eqn:E; [done|]. apply last_None in E.
  apply (f_equal length) in E. rewrite length_drop in E. cbn in E. lia.
Qed.

Section drops.
Context {K V : Type} `{EqDecision K}.

Lemma keys_drop n (d : list (K * V)) : keys (drop n d) = drop n (keys d).
Proof. unfold keys. by rewrite fmap_drop. Qed.

Lemma NoDup_keys_drop n (d : list (K * V)) : NoDup (keys d) -> NoDup (keys (drop n d)).
Proof.
  rewrite keys_drop. intros Hd. rewrite <- (take_drop n (keys d)) in Hd. by apply NoDup_app in Hd as (_ & _ & ?).
Qed.

Lemma aget_drop n k v (d : list (K * V)) : NoDup (keys d) -> aget k (drop n d) = Some v -> aget k d = Some v.
Proof.
  intros Hd H%aget_Some_elem. apply elem_aget; [done|]. rewrite <- (take_drop n d). set_solver.
Qed.

Lemma elem_keys_aset k v (d : list (K * V)) : k ∈ keys (aset k v d).
Proof. rewrite keys_aset. case_decide; set_solver. Qed.

(** Storing under [k] and marking it as the most recent. *)
Definition touch k (v : V) (d : list (K * V)) : list (K * V) := move_to_end k (aset k v d).

Lemma NoDup_touch k v (d : list (K * V)) : NoDup (keys d) -> NoDup (keys (touch k v d)).
Proof. intros. by apply NoDup_keys_move_to_end, NoDup_keys_aset. Qed.

Lemma aget_touch k k' v (d : list (K * V)) : NoDup (keys d) ->
  aget k' (touch k v d) = if decide (k' = k) then Some v else aget k' d.
Proof. intros Hd. unfold touch. rewrite aget_move_to_end by by apply NoDup_keys_aset. apply aget_aset. Qed.

Lemma last_touch k v (d : list (K * V)) : NoDup (keys d) -> last (keys (touch k v d)) = Some k.
Proof.
  intros Hd. unfold touch. rewrite keys_move_to_end;
    [by rewrite last_snoc|by apply NoDup_keys_aset|apply elem_keys_aset].
Qed.

Lemma aget_drop_last n k (d : list (K * V)) : NoDup (keys d) -> last (keys d) = Some k ->
  (n < length d)%nat -> aget k (drop n d) = aget k d.
Proof.
  intros Hd Hl Hn. destruct (aget k (drop n d)) as [v|] eqn:E; [by rewrite (aget_drop n k v)|].
  apply aget_None in E. destruct E. rewrite keys_drop.
  assert (last (drop n (keys d)) = Some k) as Hl'.
  { rewrite last_drop_lt; [done|]. unfold keys. by rewrite length_fmap. }
  by apply last_Some_elem_of in Hl'.
Qed.
End drops.

(** The effect of [consume] on admissible input. *)
Lemma limiter_consume_ok l key s cost now : limiter_ok l -> spec_ok s -> quantity cost -> quantity now ->
  let d := evict_expired (ttl_s l) now (buckets l) in
  exists r b' l', InMemoryRateLimiter_consume key s cost now l = (Ok r, l') /\
    consume_state s cost now (aget key d) = Ok (r, b') /\
    limiter_ok l' /\ last (keys (buckets l')) = Some key /\ aget key (buckets l') = Some b' /\
    bucket_ok s b' /\ result_ok r /\
    forall k b, k <> key -> aget k (buckets l') = Some b -> aget k (buckets l) = Some b.
Proof.
  intros [Hmax Hnd Hsz Hval] Hs Hc Hn d. destruct (evict_expired_suffix (ttl_s l) now (buckets l)) as [n Hd].
  fold d in Hd. assert (NoDup (keys d)) as Hdn by (rewrite Hd; by apply NoDup_keys_drop).
  assert (forall k b, aget k d = Some b -> aget k (buckets l) = Some b) as Hsub.
  { intros k b. rewrite Hd. by apply aget_drop. }
  destruct (consume_state_ok s cost now (aget key d)) as (r & b' & E & Hb & Hu & Hr); [done..| |].
  { intros b Hb. apply (Hval key). by apply Hsub. }
  unfold InMemoryRateLimiter_consume. rewrite quantity_accepted by done. fold d. rewrite E.
  set (d' := touch key b' d). assert (NoDup (keys d')) as Hd' by by apply NoDup_touch.
  change (move_to_end key (aset key b' d)) with d'.
  eexists r, b', _. split; [done|]. split; [done|]. cbn [buckets set_buckets]. rewrite evict_lru_drop.
  assert (last (keys d') = Some key) as Hlast by by apply last_touch.
  assert (d' <> []) as Hne by (intros E'; by rewrite E' in Hlast).
  assert ((length d' - max_keys l < length d')%nat) as Hlt by (destruct d'; [done|cbn; lia]).
  assert (forall k b, aget k d' = Some b -> k = key /\ b = b' \/ k <> key /\ aget k d = Some b) as Hget.
  { intros k b. unfold d'. rewrite aget_touch by done. case_decide; naive_solver. }
  split; [split|]; cbn [max_keys buckets set_buckets].
  - done.
  - by apply NoDup_keys_drop.
  - rewrite length_drop. lia.
  - intros k b H%aget_drop; [|done].
    apply Hget in H as [[-> ->]|[_ H]]; [apply Hb|]. by apply (Hval k), Hsub.
  - split; [|split; [|split; [done|split; [done|]]]].
    + rewrite keys_drop, last_drop_lt; [done|]. unfold keys. by rewrite length_fmap.
    + rewrite aget_drop_last by done. unfold d'. by rewrite aget_touch, decide_True by done.
    + intros k b Hk H%aget_drop; [|done]. apply Hget in H as [[-> _]|[_ H]]; [done|]. by apply Hsub.
Qed.

(** ** The limiter seen by its clients *)

(** The promise of a limiter, on the states [Inv]: admissible calls return. *)
Class RateLimiterLaws (L : Type) `{RateLimiter L} (Inv : L -> Prop) : Prop :=
  limiter_returns : forall key s cost now l, Inv l -> spec_ok s -> quantity cost -> quantity now ->
    exists r l', limiter_consume key s cost now l = (Ok r, l') /\ Inv l' /\ result_ok r.

#[export] Instance InMemoryRateLimiter_laws : RateLimiterLaws InMemoryRateLimiter limiter_ok.
Proof.
  intros key s cost now l Hl Hs Hc Hn.
  destruct (limiter_consume_ok l key s cost now) as (r & b' & l' & E & Ec & Hl' & _ & _ & _ & Hr & _); [done..|].
  by exists r, l'.
Qed.

(** The store-backed limiter keeps the same promise. *)
#[export] Instance stored_laws : RateLimiterLaws (list (RateLimitKey * TokenBucketState))
  (fun d => forall k b, aget k d = Some b -> state_valid b).
Proof.
  intros key s cost now d Hd Hs Hc Hn.
  destruct (consume_state_ok s cost now (aget key d)) as (r & b & E & Hb & _ & Hr); [done..|by apply Hd|].
  exists r, (aset key b d). split; [|split; [|done]].
  - unfold limiter_consume, stored_limiter, stored_consume. apply st_bind_Ok. exists (aget key d), d.
    split; [done|]. apply st_bind_Ok. exists (r, b), d. split; [|done]. unfold lift. by rewrite E.
  - intros k b'. rewrite aget_aset. case_decide; [|by apply Hd]. intros [= <-]. apply Hb.
Qed.

(** ** The policy *)

(** The checks of a call made one after the other. *)
Section checked.
Context {L : Type} `{RateLimiter L}.

Inductive checked (cost now_s : spec_float) :
  list (RateLimitKey * RateLimitSpec) -> L -> list RateLimitResult -> L -> Prop :=
| checked_nil l : checked cost now_s [] l [] l
| checked_cons key s rest l r l' rs l'' :
    limiter_consume key s cost now_s l = (Ok r, l') -> checked cost now_s rest l' rs l'' ->
    checked cost now_s ((key, s) :: rest) l (r :: rs) l''.

Lemma consume_checks_checked cost now checks l rs l' v : checked cost now checks l rs l' ->
  consume_checks cost now checks v l = (Ok (foldl add_result v rs), l').
Proof.
  intros Hc. revert v. induction Hc as [|key s rest l r l' rs l'' E _ IH]; intros v; [done|].
  cbn [consume_checks]. apply st_bind_Ok. exists r, l'. split; [done|]. apply IH.
Qed.

Lemma checks_total Inv `{!RateLimiterLaws L Inv} cost now checks l : Inv l -> quantity cost -> quantity now ->
  Forall (fun c => spec_ok c.2) checks ->
  exists rs l', checked cost now checks l rs l' /\ Inv l' /\ Forall result_ok rs.
Proof.
  intros Hl Hc Hn Hs. revert l Hl. induction Hs as [|[key s] rest Hs _ IH]; intros l Hl.
  - exists [], l. split; [constructor|done].
  - destruct (limiter_returns key s cost now l) as (r & l1 & E & Hl1 & Hr); [done..|].
    destruct (IH l1 Hl1) as (rs & l2 & Hrs & Hl2 & Hok). exists (r :: rs), l2.
    split; [by econstructor|]. auto.
Qed.
End checked.

(** The delays of the denied results, and whether one has none. *)
Definition delays (rs : list RateLimitResult) : list spec_float :=
  omap (fun r => if allowed r then None else retry_after_s r) rs.
Definition hopeless (r : RateLimitResult) : bool := negb (allowed r) && negb (is_set (retry_after_s r)).

Lemma add_results_allowed rs v : v_allowed (foldl add_result v rs) = v_allowed v && forallb allowed rs.
Proof.
  revert v. induction rs as [|[[] [x|]] rs IH]; intros v; cbn; rewrite ?IH, ?andb_true_r; try done; cbn.
  all: by rewrite ?andb_false_r.
Qed.

Lemma add_results_unsatisfiable rs v :
  v_unsatisfiable (foldl add_result v rs) = v_unsatisfiable v || existsb hopeless rs.
Proof.
  revert v. induction rs as [|[[] [x|]] rs IH]; intros v; cbn; rewrite ?IH, ?orb_false_r; try done; cbn.
  all: by rewrite ?orb_true_r.
Qed.

Definition longest (a : option spec_float) (x : spec_float) : option spec_float :=
  Some match a with None => x | Some y => fmax y x end.

Lemma add_results_retry rs v : v_retry (foldl add_result v rs) = foldl longest (v_retry v) (delays rs).
Proof. revert v. induction rs as [|[[] [x|]] rs IH]; intros v; cbn; by rewrite ?IH. Qed.

Lemma longest_spec xs a m : (forall y, a = Some y -> isnan y = false) -> Forall (fun x => isnan x = false) xs ->
  foldl longest a xs = Some m ->
  (a = Some m \/ m ∈ xs) /\ (forall y, a = Some y \/ y ∈ xs -> fle y m = true).
Proof.
  intros Ha Hxs. revert a Ha. induction Hxs as [|x xs Hx Hxs IH]; intros a Ha E; cbn in E.
  - subst a. split; [by left|]. intros y [[= ->]|Hy]; [|by apply elem_of_nil in Hy]. by apply fle_refl, Ha.
  - apply IH in E as [H1 H2].
    + destruct a as [y|]; cbn in *.
      * specialize (Ha y eq_refl). split.
        -- destruct H1 as [[= <-]|H1]; [|set_solver]. unfold fmax. destruct (flt y x); [right; set_solver|by left].
        -- assert (fle (fmax y x) m = true) as Hm by by apply H2; left.
           intros z [[= <-]|[-> | Hz]%elem_of_cons]; [| |by apply H2; right].
           ++ eapply fle_trans; [by apply fmax_ge_l|done].
           ++ eapply fle_trans; [|done]. unfold fmax. destruct (flt y x) eqn:El; [by apply fle_refl|].
              by apply flt_false_fle.
      * split; [right; destruct H1 as [[= <-]|H1]; set_solver|].
        intros z [[=]|[-> | Hz]%elem_of_cons]; apply H2; auto.
    + intros y [= <-]. destruct a as [z|]; [|done]. unfold fmax. specialize (Ha z eq_refl). by destruct (flt z x).
Qed.

Lemma denied_result rs : forallb allowed rs = false -> existsb hopeless rs = false -> delays rs <> [].
Proof.
  induction rs as [|[[] [x|]] rs IH]; cbn; done.
Qed.

Lemma longest_is_set xs a : is_set a = true \/ xs <> [] -> foldl longest a xs <> None.
Proof. revert a. induction xs as [|x xs IH]; intros a H; cbn; [destruct a, H; done|]. apply IH. by left. Qed.

(** ** Properties *)

(** The state of a bucket created at [now0] after a sequence of calls (cost and time). *)
Definition bucket_after (s : RateLimitSpec) (now0 : spec_float) (calls : list (spec_float * spec_float))
  : res TokenBucketState :=
  foldl (fun m call => b ← m; p ← bucket_consume s call.1 call.2 b; Ok p.2) (TokenBucket_new s now0) calls.

Lemma bucket_after_ok s now0 calls : spec_ok s -> quantity now0 ->
  Forall (fun c => quantity c.1 /\ quantity c.2) calls ->
  exists b, bucket_after s now0 calls = Ok b /\ bucket_ok s b.
Proof.
  intros Hs Hn Hc. unfold bucket_after.
  assert (exists b, TokenBucket_new s now0 = Ok b /\ bucket_ok s b) as (b & -> & Hb).
  { pose proof (max_tokens_quantity s Hs) as Hm. unfold TokenBucket_new.
    rewrite quantity_accepted, bucket_new_ok by done. eexists. split; [done|]. split; [done|].
    by apply fle_refl, quantity_notnan. }
  revert b Hb. induction Hc as [|[c n] calls [Hc1 Hc2] _ IH]; intros b Hb; [by exists b|].
  cbn [foldl fst snd]. destruct (bucket_consume_ok s c n b) as (full & ok & r & b' & _ & E & Hb' & _); [done..|].
  cbn. rewrite E. by apply IH.
Qed.

(** C25: a token bucket on binary64 numbers never raises on finite non-negative
    input: after any sequence of calls it holds between 0 and
    [capacity + burst] tokens, and the next call first refills it, is allowed
    exactly if the refilled bucket covers the cost, pays exactly the cost then
    and nothing otherwise, and reports no retry delay exactly if no waiting can
    ever help, otherwise the missing tokens over the refill rate, which is not
    negative. *)
Theorem token_bucket_spec s now0 calls cost now :
  spec_ok s -> quantity now0 -> Forall (fun c => quantity c.1 /\ quantity c.2) calls ->
  quantity cost -> quantity now ->
  exists b full ok retry b', bucket_after s now0 calls = Ok b /\
    fle fzero (tokens b) = true /\ fle (tokens b) (max_tokens s) = true /\
    refill s now b = Ok full /\ fle (tokens full) (max_tokens s) = true /\
    bucket_consume s cost now b = Ok ((ok, retry), b') /\
    ok = fle cost (tokens full) /\ updated_at_s b' = now /\
    tokens b' = (if ok then fsub (tokens full) cost else tokens full) /\
    match retry with
    | None => ok = false /\ (flt (max_tokens s) cost = true \/ fle (refill_rate_per_s s) fzero = true)
    | Some x => fle fzero x = true /\
        x = if ok then fzero else fdiv (fsub cost (tokens full)) (refill_rate_per_s s)
    end.
Proof.
  intros Hs Hn0 Hcalls Hc Hn. destruct (bucket_after_ok s now0 calls) as (b & Ea & Hb); [done..|].
  destruct (refill_ok s now b) as (full' & Er' & Hf & _); [done..|].
  destruct (bucket_consume_ok s cost now b) as (full & ok & retry & b' & Er & E & Hb' & Hu & Hk); [done..|].
  assert (full' = full) as -> by congruence.
  exists b, full, ok, retry, b'. split; [done|]. split; [apply Hb|]. split; [apply Hb|].
  split; [done|]. split; [apply Hf|]. split; [done|]. destruct ok.
  - destruct Hk as (H1 & H2 & ->). by rewrite H1.
  - destruct Hk as (H1 & -> & H2 & H3). apply flt_not_ge in H1 as ->. split; [done|]. split; [done|]. split; [done|].
    destruct retry as [x|]; [by destruct (H3 x eq_refl)|]. split; [done|by apply H2].
Qed.

(** An in-memory limiter after a sequence of calls. *)
Record limiter_call := mkLimiterCall {
  lc_key : RateLimitKey; lc_spec : RateLimitSpec; lc_cost : spec_float; lc_now : spec_float;
}.
Definition call_ok (c : limiter_call) : Prop := spec_ok (lc_spec c) /\ quantity (lc_cost c) /\ quantity (lc_now c).
Definition limiter_step (c : limiter_call) (l : InMemoryRateLimiter) : InMemoryRateLimiter :=
  (InMemoryRateLimiter_consume (lc_key c) (lc_spec c) (lc_cost c) (lc_now c) l).2.

Lemma limiter_new_ok m ttl l : InMemoryRateLimiter_new m ttl = Ok l -> limiter_ok l /\ max_keys l = Z.to_nat m.
Proof.
  unfold InMemoryRateLimiter_new. intros H. res_inv. bool_to_prop. subst. split; [|done].
  split; cbn; [lia|constructor|lia|done].
Qed.

Lemma limiter_step_max c l : max_keys (limiter_step c l) = max_keys l.
Proof.
  unfold limiter_step, InMemoryRateLimiter_consume. destruct (negative_or_not_finite _); [done|].
  by destruct (consume_state _ _ _ _) as [[]|].
Qed.

Lemma limiter_run_ok calls l l' : limiter_ok l -> Forall call_ok calls -> steps limiter_step l calls l' ->
  limiter_ok l' /\ max_keys l' = max_keys l.
Proof.
  intros Hl Hc Hs. revert Hl Hc. induction Hs as [l|l c l1 cs l2 -> Hs IH]; intros Hl Hc; [done|].
  apply Forall_cons in Hc as [(Hc1 & Hc2 & Hc3) Hc].
  destruct (limiter_consume_ok l (lc_key c) (lc_spec c) (lc_cost c) (lc_now c)) as (r & b' & l' & E & _ & Hl' & _); [done..|].
  rewrite <- (limiter_step_max c l). apply IH; [|done]. unfold limiter_step. by rewrite E.
Qed.

(** the in-memory limiter, after any sequence of admissible calls,
    answers the next one: with the bucket it remembers for the key, or a full
    one if it remembers none (never used, idle for longer than the TTL, or
    evicted); it then remembers at most [max_keys] buckets, the one just used
    as the most recent, and the call changes the bucket of no other key. *)
Theorem rate_limiter_spec m ttl l0 calls l c :
  InMemoryRateLimiter_new m ttl = Ok l0 -> Forall call_ok calls -> steps limiter_step l0 calls l -> call_ok c ->
  exists r b l', InMemoryRateLimiter_consume (lc_key c) (lc_spec c) (lc_cost c) (lc_now c) l = (Ok r, l') /\
    consume_state (lc_spec c) (lc_cost c) (lc_now c)
      (aget (lc_key c) (evict_expired (ttl_s l) (lc_now c) (buckets l))) = Ok (r, b) /\
    (length (buckets l') <= Z.to_nat m)%nat /\ NoDup (keys (buckets l')) /\
    last (keys (buckets l')) = Some (lc_key c) /\ aget (lc_key c) (buckets l') = Some b /\
    (forall k b', k <> lc_key c -> aget k (buckets l') = Some b' -> aget k (buckets l) = Some b').
Proof.
  intros Hnew Hcalls Hrun (H1 & H2 & H3). apply limiter_new_ok in Hnew as [Hl Hm].
  destruct (limiter_run_ok calls l0 l) as [Hl' Hm']; [done..|].
  destruct (limiter_consume_ok l (lc_key c) (lc_spec c) (lc_cost c) (lc_now c))
    as (r & b & l' & E & Ec & Hl2 & Hlast & Hget & _ & _ & Hother); [done..|].
  exists r, b, l'. split; [done|]. split; [done|].
  assert (max_keys l' = Z.to_nat m) as <-.
  { rewrite <- Hm, <- Hm', <- (limiter_step_max c l). unfold limiter_step. by rewrite E. }
  split; [apply Hl2|]. split; [apply Hl2|done].
Qed.

(** the policy over any limiter that answers: every check of the call is
    made, in order, whatever the earlier ones answered; the call is allowed
    exactly if all of them are; a denied call gets no retry delay exactly if
    one denied check has none, and otherwise the longest of their delays. *)
Theorem policy_consume_spec (L : Type) `{RateLimiter L} Inv `{!RateLimiterLaws L Inv}
    cfg tool_name destination run_id cost now l checks :
  rate_limits_enabled cfg = true -> resolve_checks cfg tool_name destination run_id = Ok checks ->
  Inv l -> quantity cost -> quantity now -> Forall (fun c => spec_ok c.2) checks ->
  exists r rs l', policy_consume cfg tool_name destination run_id cost now l = (Ok r, l') /\ Inv l' /\
    checked cost now checks l rs l' /\ allowed r = forallb allowed rs /\
    (allowed r = false -> (retry_after_s r = None <-> existsb hopeless rs = true)) /\
    (forall x, retry_after_s r = Some x -> x ∈ delays rs /\ forall y, y ∈ delays rs -> fle y x = true).
Proof.
  intros He Hr Hl Hc Hn Hs. destruct (checks_total Inv cost now checks l) as (rs & l' & Hch & Hl' & Hok); [done..|].
  set (r := final_result (foldl add_result (mkVerdict true false None) rs)).
  assert (policy_consume cfg tool_name destination run_id cost now l = (Ok r, l')) as E.
  { unfold policy_consume. rewrite He, Hr. cbn. destruct checks as [|c checks].
    - inversion Hch. by subst.
    - change ((v ← consume_checks cost now (c :: checks) (mkVerdict true false None); mret (final_result v)) l = (Ok r, l')).
      apply st_bind_Ok. eexists _, l'. split; [by apply consume_checks_checked|done]. }
  exists r, rs, l'. split; [done|]. split; [done|]. split; [done|]. unfold r, final_result. clear E r.
  rewrite add_results_allowed, add_results_unsatisfiable, add_results_retry. cbn [v_allowed v_unsatisfiable v_retry].
  rewrite andb_true_l, orb_false_l.
  assert (Forall (fun x => isnan x = false) (delays rs)) as Hnan.
  { apply Forall_forall. intros x (y & Hy & Hx)%list_elem_of_omap. rewrite Forall_forall in Hok.
    specialize (Hok y Hy). unfold result_ok in Hok. destruct (allowed y); [done|].
    by destruct (fle_notnan _ _ (Hok eq_refl x Hx)). }
  destruct (forallb allowed rs) eqn:Ea; [done|]. destruct (existsb hopeless rs) eqn:Eh; [done|].
  cbn [allowed retry_after_s]. split; [done|]. split; [split; [|done]|].
  - intros Hnone. exfalso. revert Hnone. apply longest_is_set. right. by apply denied_result.
  - intros x Hx. apply longest_spec in Hx as [H1 H2]; [|done|done].
    split; [by destruct H1|]. intros y Hy. apply H2. by right.
Qed.

(** [RateLimitSpec] checks that [capacity] and [burst] are finite, not
    that their sum is: a specification whose sum overflows is accepted by the
    constructor and then makes every first use of a key raise ValueError, at
    any time and cost. *)
Theorem rate_limit_spec_overflow c r b s key cost now l :
  RateLimitSpec_new c r b = Ok s -> isfinite (max_tokens s) = false -> quantity now ->
  aget key (evict_expired (ttl_s l) now (buckets l)) = None ->
  (InMemoryRateLimiter_consume key s cost now l).1 = Raise (ValueError "tokens must be finite and >= 0").
Proof.
  intros _ Hm Hn Hk. unfold InMemoryRateLimiter_consume, consume_state, from_state, TokenBucket_new, bucket_new.
  assert (negative_or_not_finite (max_tokens s) = true) as E by (unfold negative_or_not_finite; by rewrite Hm).
  rewrite Hk, E, quantity_accepted by done. done.
Qed.

(** ** Witnesses *)
Definition q (n d : Z) : spec_float := lit n d.
(** Two tokens and one of burst, half a token per second. *)
Definition sample_spec : RateLimitSpec := mkRateLimitSpec (q 2 1) (q 1 2) (q 1 1).
Definition tool_key (t : string) : RateLimitKey := mkRateLimitKey None (Some t) None None.

Ltac solve_quantity := split; vm_compute; reflexivity.

Lemma sample_spec_ok : spec_ok sample_spec.
Proof. split; try solve_quantity. Qed.

Lemma token_bucket_spec_witness : exists b full ok retry b',
  bucket_after sample_spec (q 10 1) [(q 2 1, q 10 1); (q 1 1, q 11 1)] = Ok b /\
  refill sample_spec (q 11 1) b = Ok full /\ bucket_consume sample_spec (q 1 1) (q 11 1) b = Ok ((ok, retry), b') /\
  ok = false /\ retry = Some (q 1 1).
Proof.
  destruct (token_bucket_spec sample_spec (q 10 1) [(q 2 1, q 10 1); (q 1 1, q 11 1)] (q 1 1) (q 11 1))
    as (b & full & ok & retry & b' & E1 & _ & _ & E2 & _ & E3 & _).
  - apply sample_spec_ok.
  - solve_quantity.
  - repeat constructor; vm_compute; reflexivity.
  - solve_quantity.
  - solve_quantity.
  - exists b, full, ok, retry, b'. split; [exact E1|]. split; [exact E2|]. split; [exact E3|].
    vm_compute in E1. injection E1 as <-. vm_compute in E3. by injection E3 as <- <- _.
Defined.

Definition sample_calls : list limiter_call :=
  [mkLimiterCall (tool_key "a") sample_spec (q 3 1) (q 1 1); mkLimiterCall (tool_key "b") sample_spec (q 1 1) (q 1 1)].
Definition sample_limiter : InMemoryRateLimiter :=
  foldl (fun l c => limiter_step c l) (mkLimiter 1 (q 60 1) []) sample_calls.

Lemma rate_limiter_spec_witness : exists r b l',
  InMemoryRateLimiter_consume (tool_key "a") sample_spec (q 3 1) (q 2 1) sample_limiter = (Ok r, l') /\
  allowed r = true /\ keys (buckets sample_limiter) = [tool_key "b"] /\ aget (tool_key "a") (buckets l') = Some b.
Proof.
  destruct (rate_limiter_spec 1 (q 60 1) (mkLimiter 1 (q 60 1) []) sample_calls sample_limiter
              (mkLimiterCall (tool_key "a") sample_spec (q 3 1) (q 2 1)))
    as (r & b & l' & E & _ & _ & _ & _ & Hget & _).
  - vm_compute. reflexivity.
  - repeat constructor; try apply sample_spec_ok; solve_quantity.
  - repeat (econstructor; [reflexivity|]). constructor.
  - split; [apply sample_spec_ok|]. split; solve_quantity.
  - exists r, b, l'. split; [exact E|]. cbn in E. vm_compute in E. injection E as <- _.
    split; [reflexivity|]. split; [vm_compute; reflexivity|exact Hget].
Defined.

Definition sample_settings : rate_settings := {|
  rate_limits_enabled := true; rate_limit_default := Some sample_spec;
  rate_limit_per_tool := {["net.http" := mkRateLimitSpec (q 5 1) (q 1 1) fzero]};
  rate_limit_per_destination := ∅; rate_limit_per_run := Some sample_spec |}.

Lemma policy_consume_spec_witness : exists r rs l' checks,
  resolve_checks sample_settings " Net.HTTP " (Some "example.com") (Some "R1") = Ok checks /\
  length checks = 3%nat /\
  policy_consume sample_settings " Net.HTTP " (Some "example.com") (Some "R1") (q 1 1) (q 1 1)
    (mkLimiter 10 (q 60 1) []) = (Ok r, l') /\ allowed r = forallb allowed rs.
Proof.
  destruct (policy_consume_spec InMemoryRateLimiter limiter_ok sample_settings " Net.HTTP " (Some "example.com")
    (Some "R1") (q 1 1) (q 1 1) (mkLimiter 10 (q 60 1) [])
    [(tool_key "net.http", mkRateLimitSpec (q 5 1) (q 1 1) fzero);
     (mkRateLimitKey None None (Some "example.com") None, sample_spec);
     (mkRateLimitKey None None None (Some "r1"), sample_spec)]) as (r & rs & l' & E & _ & _ & Ea & _).
  - reflexivity.
  - vm_compute. reflexivity.
  - split; cbn; [lia|constructor|lia|done].
  - solve_quantity.
  - solve_quantity.
  - repeat constructor; try apply sample_spec_ok; try solve_quantity; vm_compute; reflexivity.
  - exists r, rs, l'. eexists. split; [vm_compute; reflexivity|]. split; [reflexivity|]. split; [exact E|exact Ea].
Defined.

Lemma rate_limit_spec_overflow_witness :
  (InMemoryRateLimiter_consume (tool_key "a") (mkRateLimitSpec (of_Z (10 ^ 308)) fzero (of_Z (10 ^ 308))) fzero fzero
    (mkLimiter 10 (q 60 1) [])).1 = Raise (ValueError "tokens must be finite and >= 0").
Proof.
  apply (rate_limit_spec_overflow (of_Z (10 ^ 308)) fzero (of_Z (10 ^ 308))).
  - vm_compute. reflexivity.
  - vm_compute. reflexivity.
  - solve_quantity.
  - reflexivity.
Defined.
