(* ===== verification/CircuitBreaker.v ===== *)
(** * Circuit breaking: [guards/circuit_breaker/]

    [CircuitBreakerSpec], [CircuitBreakerKey] and [InMemoryCircuitBreaker]: a
    circuit per key with the states CLOSED, OPEN and HALF_OPEN, bounded by LRU
    and idle-time eviction. The operations of one circuit are functions on the
    record [Circuit]; [allow_call] and [record_result] look the circuit up,
    touch it and write the changed circuit back, as the code mutates the object
    the dict holds. The results: the invariant of every reachable circuit, the
    effect of both operations on every state, and what becomes of a probe
    permit that is never given back. *)

From Stdlib Require Import ZArith SpecFloat Lia.
From S2P Require Import Prelude PyFloat RateLimit.

Module CircuitBreaker.

(** ** [spec.py] *)
Record CircuitBreakerSpec := mkSpec {
  failure_threshold : Z;
  window_s : spec_float;
  open_cooldown_s : spec_float;
  half_open_max_calls : Z;
  success_threshold : Z;
}.

Definition CircuitBreakerSpec_new (failure_threshold : Z) (window_s open_cooldown_s : spec_float)
    (half_open_max_calls success_threshold : Z) : res CircuitBreakerSpec :=
  raise_if (failure_threshold <=? 0) (ValueError "failure_threshold must be > 0");;
  raise_if (negb (isfinite window_s) || fle window_s fzero) (ValueError "window_s must be finite and > 0");;
  raise_if (negb (isfinite open_cooldown_s) || flt open_cooldown_s fzero)
    (ValueError "open_cooldown_s must be finite and >= 0");;
  raise_if (half_open_max_calls <=? 0) (ValueError "half_open_max_calls must be > 0");;
  raise_if (success_threshold <=? 0) (ValueError "success_threshold must be > 0");;
  Ok (mkSpec failure_threshold window_s open_cooldown_s half_open_max_calls success_threshold).

Definition half_open_permit_limit (s : CircuitBreakerSpec) : Z :=
  Z.min (half_open_max_calls s) (success_threshold s).

(** ** [key.py]; the strings are normalised as those of a rate-limit key. *)
Record CircuitBreakerKey := mkKey {
  k_tool_name : option string;
  k_destination : option string;
  k_scope : option string;
  k_signature : option string;
}.

#[global] Instance CircuitBreakerKey_eq_dec : EqDecision CircuitBreakerKey.
Proof. solve_decision. Defined.

Definition CircuitBreakerKey_new (tool_name destination scope signature : option string) : res CircuitBreakerKey :=
  tool_name ← normalize_optional_str "tool_name" tool_name;
  destination ← normalize_optional_str "destination" destination;
  scope ← normalize_optional_str "scope" scope;
  signature ← normalize_optional_str "signature" signature;
  raise_if (negb (is_set tool_name || is_set destination || is_set scope || is_set signature))
    (ValueError "at least one of tool_name/destination/scope/signature must be set");;
  Ok (mkKey tool_name destination scope signature).

(** [key_for_tool_call], given the hostname extracted from the URL-like
    argument of the call, when there is one. *)
Definition key_for_tool_call (tool_name : string) (destination : option string) : res CircuitBreakerKey :=
  match destination with
  | None => CircuitBreakerKey_new (Some (normalize_tool_name tool_name)) None None None
  | Some d => CircuitBreakerKey_new (Some (normalize_tool_name tool_name)) (Some d) None None
  end.

(** ** [types.py] *)
Inductive CircuitState := CLOSED | OPEN | HALF_OPEN.

#[global] Instance CircuitState_eq_dec : EqDecision CircuitState.
Proof. solve_decision. Defined.

Record CircuitBreakerDecision := mkDecision {
  allowed : bool;
  state : CircuitState;
  retry_after_s : option spec_float;
}.

(** ** [in_memory.py]: one circuit *)
Record Circuit := mkCircuit {
  c_state : CircuitState;
  failures : list spec_float;
  opened_at_s : option spec_float;
  half_open_in_flight : Z;
  half_open_successes : Z;
  last_seen_s : spec_float;
}.

Definition new_circuit (now_s : spec_float) : Circuit := mkCircuit CLOSED [] None 0 0 now_s.

Definition seen (now_s : spec_float) (c : Circuit) : Circuit :=
  mkCircuit (c_state c) (failures c) (opened_at_s c) (half_open_in_flight c) (half_open_successes c) now_s.

Fixpoint drop_before (cutoff : spec_float) (l : list spec_float) : list spec_float :=
  match l with
  | [] => []
  | x :: l' => if flt x cutoff then drop_before cutoff l' else l
  end.

Definition set_failures (l : list spec_float) (c : Circuit) : Circuit :=
  mkCircuit (c_state c) l (opened_at_s c) (half_open_in_flight c) (half_open_successes c) (last_seen_s c).
Definition set_in_flight (n : Z) (c : Circuit) : Circuit :=
  mkCircuit (c_state c) (failures c) (opened_at_s c) n (half_open_successes c) (last_seen_s c).
Definition set_successes (n : Z) (c : Circuit) : Circuit :=
  mkCircuit (c_state c) (failures c) (opened_at_s c) (half_open_in_flight c) n (last_seen_s c).
Definition set_opened_at (t : spec_float) (c : Circuit) : Circuit :=
  mkCircuit (c_state c) (failures c) (Some t) (half_open_in_flight c) (half_open_successes c) (last_seen_s c).

Definition prune_failures (s : CircuitBreakerSpec) (now_s : spec_float) (c : Circuit) : Circuit :=
  set_failures (drop_before (fsub now_s (window_s s)) (failures c)) c.

(** [_open], [_half_open] and [_close] *)
Definition open_circuit (now_s : spec_float) (c : Circuit) : Circuit :=
  mkCircuit OPEN [] (Some now_s) 0 0 (last_seen_s c).
Definition half_open_circuit (c : Circuit) : Circuit := mkCircuit HALF_OPEN [] None 0 0 (last_seen_s c).
Definition close_circuit (c : Circuit) : Circuit := mkCircuit CLOSED [] None 0 0 (last_seen_s c).

Definition failure_count (c : Circuit) : Z := Z.of_nat (length (failures c)).

(** [allow_call] in state HALF_OPEN *)
Definition allow_half_open (s : CircuitBreakerSpec) (c : Circuit) : CircuitBreakerDecision * Circuit :=
  if half_open_permit_limit s <=? half_open_in_flight c
  then (mkDecision false HALF_OPEN (Some fzero), c)
  else (mkDecision true HALF_OPEN None, set_in_flight (half_open_in_flight c + 1) c).

(** The part of [allow_call] after the circuit is found and touched. *)
Definition allow_circuit (s : CircuitBreakerSpec) (now : spec_float) (c : Circuit)
  : res (CircuitBreakerDecision * Circuit) :=
  let c := prune_failures s now c in
  match c_state c with
  | OPEN =>
      match opened_at_s c with
      | None => Raise AssertionError
      | Some t =>
          let remaining := fsub (fadd t (open_cooldown_s s)) now in
          if flt fzero remaining then Ok (mkDecision false OPEN (Some remaining), c)
          else Ok (allow_half_open s (half_open_circuit c))
      end
  | HALF_OPEN => Ok (allow_half_open s c)
  | CLOSED =>
      if failure_threshold s <=? failure_count c
      then Ok (mkDecision false OPEN (Some (open_cooldown_s s)), open_circuit now c)
      else Ok (mkDecision true CLOSED None, c)
  end.

(** The part of [record_result] after the circuit is found and touched. *)
Definition record_circuit (s : CircuitBreakerSpec) (ok : bool) (now : spec_float) (c : Circuit) : Circuit :=
  let c := prune_failures s now c in
  match c_state c with
  | HALF_OPEN =>
      let c := if 0 <? half_open_in_flight c then set_in_flight (half_open_in_flight c - 1) c else c in
      if negb ok then open_circuit now c
      else
        let c := set_successes (half_open_successes c + 1) c in
        if success_threshold s <=? half_open_successes c then close_circuit c else c
  | OPEN => if negb ok then set_opened_at now c else c
  | CLOSED =>
      if ok then c
      else
        let c := prune_failures s now (set_failures (failures c ++ [now]) c) in
        if failure_threshold s <=? failure_count c then open_circuit now c else c
  end.

(** ** The circuits of all keys *)
Record t := mkBreaker {
  spec : CircuitBreakerSpec;
  max_keys : nat;
  ttl_s : spec_float;
  circuits : list (CircuitBreakerKey * Circuit);
}.

Definition init (spec : CircuitBreakerSpec) (max_keys : Z) (ttl_s : spec_float) : res t :=
  raise_if (max_keys <=? 0) (ValueError "max_keys must be > 0");;
  raise_if (negb (isfinite ttl_s) || fle ttl_s fzero) (ValueError "ttl_s must be finite and > 0");;
  Ok (mkBreaker spec (Z.to_nat max_keys) ttl_s []).

Definition set_circuits d (b : t) : t := mkBreaker (spec b) (max_keys b) (ttl_s b) d.

Definition is_expired (ttl_s now_s : spec_float) (c : Circuit) : bool := flt ttl_s (fsub now_s (last_seen_s c)).

Fixpoint evict_expired (ttl_s now_s : spec_float) (d : list (CircuitBreakerKey * Circuit)) :=
  match d with
  | [] => []
  | (_, c) :: d' => if is_expired ttl_s now_s c then evict_expired ttl_s now_s d' else d
  end.

(** [_get_or_create] with its [_touch]: the circuit and the dict that holds it last. *)
Definition get_or_create (key : CircuitBreakerKey) (now_s : spec_float) (d : list (CircuitBreakerKey * Circuit)) :=
  let c := seen now_s (default (new_circuit now_s) (aget key d)) in
  (c, move_to_end key (aset key c d)).

(** What both operations do before they look at the state. *)
Definition lookup_circuit (key : CircuitBreakerKey) (now : spec_float) (b : t) : Circuit * t :=
  let '(c, d) := get_or_create key now (evict_expired (ttl_s b) now (circuits b)) in
  (c, set_circuits (evict_lru (max_keys b) d) b).

(** Mutating the circuit changes the dict entry, if it was not evicted. *)
Definition store_circuit (key : CircuitBreakerKey) (c : Circuit) (b : t) : t :=
  match aget key (circuits b) with
  | Some _ => set_circuits (aset key c (circuits b)) b
  | None => b
  end.

Definition check_now (now : spec_float) : res unit :=
  raise_if (negative_or_not_finite now) (ValueError "now_s must be finite and >= 0").

Definition allow_call (key : CircuitBreakerKey) (now : spec_float) : st t CircuitBreakerDecision := fun b =>
  match check_now now with
  | Raise e => (Raise e, b)
  | Ok _ =>
      let '(c, b) := lookup_circuit key now b in
      match allow_circuit (spec b) now c with
      | Raise e => (Raise e, store_circuit key (prune_failures (spec b) now c) b)
      | Ok (d, c') => (Ok d, store_circuit key c' b)
      end
  end.

Definition record_result (key : CircuitBreakerKey) (ok : bool) (now : spec_float) : st t unit := fun b =>
  match check_now now with
  | Raise e => (Raise e, b)
  | Ok _ =>
      let '(c, b) := lookup_circuit key now b in
      (Ok tt, store_circuit key (record_circuit (spec b) ok now c) b)
  end.

(** [size] and [snapshot_keys] *)
Definition size (b : t) : nat := length (circuits b).
Definition snapshot_keys (b : t) : list CircuitBreakerKey := keys (circuits b).

(** The spec of [guards/defaults.py]. *)
Definition default_spec : CircuitBreakerSpec := mkSpec 5 (of_Z 60) (of_Z 10) 1 1.

(** ** The invariant *)
Record spec_ok (s : CircuitBreakerSpec) : Prop := {
  so_failures : 0 < failure_threshold s;
  so_calls : 0 < half_open_max_calls s;
  so_successes : 0 < success_threshold s;
}.

(** What holds of every circuit between two operations. *)
Definition circuit_ok (s : CircuitBreakerSpec) (c : Circuit) : Prop :=
  match c_state c with
  | CLOSED => failure_count c < failure_threshold s /\ opened_at_s c = None /\
      half_open_in_flight c = 0 /\ half_open_successes c = 0
  | OPEN => is_set (opened_at_s c) = true /\ failures c = [] /\
      half_open_in_flight c = 0 /\ half_open_successes c = 0
  | HALF_OPEN => opened_at_s c = None /\ failures c = [] /\
      0 <= half_open_in_flight c <= half_open_permit_limit s /\
      0 <= half_open_successes c < success_threshold s
  end.

Record breaker_ok (b : t) : Prop := {
  bo_spec : spec_ok (spec b);
  bo_max : (0 < max_keys b)%nat;
  bo_nodup : NoDup (keys (circuits b));
  bo_size : (length (circuits b) <= max_keys b)%nat;
  bo_circuits : forall k c, aget k (circuits b) = Some c -> circuit_ok (spec b) c;
}.

Lemma breaker_new_ok s m ttl b : spec_ok s -> init s m ttl = Ok b ->
  breaker_ok b /\ spec b = s /\ max_keys b = Z.to_nat m /\ ttl_s b = ttl.
Proof.
  intros Hs H. unfold init in H. res_inv. bool_to_prop. subst. split; [|done].
  split; cbn; [done|lia|constructor|lia|done].
Qed.

Lemma drop_before_suffix x l : exists n, drop_before x l = drop n l.
Proof.
  induction l as [|y l [n IH]]; [by exists 0%nat|]. cbn. destruct (flt y x); [by exists (S n)|by exists 0%nat].
Qed.

Lemma drop_before_length x l : (length (drop_before x l) <= length l)%nat.
Proof. destruct (drop_before_suffix x l) as [n ->]. rewrite length_drop. lia. Qed.

(** Pruning changes nothing but the failures, and only drops some of them. *)
Lemma prune_ok s now c : circuit_ok s c -> circuit_ok s (prune_failures s now c).
Proof.
  unfold circuit_ok, prune_failures, failure_count. cbn. destruct (c_state c); cbn.
  - pose proof (drop_before_length (fsub now (window_s s)) (failures c)). intuition lia.
  - intros (H1 & -> & H2 & H3). done.
  - intros (H1 & -> & H2 & H3). done.
Qed.

Lemma seen_ok s now c : circuit_ok s (seen now c) <-> circuit_ok s c.
Proof. done. Qed.

Lemma new_circuit_ok s now : spec_ok s -> circuit_ok s (new_circuit now).
Proof. intros []. unfold circuit_ok, failure_count. cbn. by split_and!. Qed.

Lemma permit_limit_pos s : spec_ok s -> 0 < half_open_permit_limit s <= success_threshold s.
Proof. intros []. unfold half_open_permit_limit. lia. Qed.

Lemma allow_half_open_ok s c : spec_ok s -> c_state c = HALF_OPEN -> circuit_ok s c ->
  circuit_ok s (allow_half_open s c).2.
Proof.
  intros Hs Hc. unfold allow_half_open, circuit_ok. rewrite Hc. intros (H1 & H2 & H3 & H4).
  destruct (Z.leb_spec (half_open_permit_limit s) (half_open_in_flight c)); cbn; rewrite Hc; [done|].
  split_and!; try done; lia.
Qed.

Lemma half_open_circuit_ok s c : spec_ok s -> circuit_ok s (half_open_circuit c).
Proof. intros Hs. pose proof (permit_limit_pos s Hs). unfold circuit_ok. cbn. split_and!; try done; lia. Qed.

Lemma open_circuit_ok s now c : circuit_ok s (open_circuit now c).
Proof. done. Qed.

Lemma close_circuit_ok s c : spec_ok s -> circuit_ok s (close_circuit c).
Proof. intros []. done. Qed.

(** [allow_call] never meets an open circuit without its opening time. *)
Lemma allow_circuit_ok s now c : spec_ok s -> circuit_ok s c ->
  exists d c', allow_circuit s now c = Ok (d, c') /\ circuit_ok s c'.
Proof.
  intros Hs Hc. apply (prune_ok s now) in Hc. unfold allow_circuit. cbv zeta.
  destruct (c_state (prune_failures s now c)) eqn:E.
  - destruct (failure_threshold s <=? _); eexists _, _; (split; [done|]); [apply open_circuit_ok|done].
  - assert (exists t, opened_at_s (prune_failures s now c) = Some t) as [t ->].
    { unfold circuit_ok in Hc. rewrite E in Hc. destruct Hc as (H & _). by destruct (opened_at_s _); [eexists|]. }
    destruct (flt fzero _); [by eexists _, _|].
    destruct (allow_half_open s (half_open_circuit (prune_failures s now c))) as [d c'] eqn:E2.
    exists d, c'. split; [done|]. change c' with (d, c').2. rewrite <- E2.
    apply allow_half_open_ok; [done|done|by apply half_open_circuit_ok].
  - destruct (allow_half_open s (prune_failures s now c)) as [d c'] eqn:E2.
    exists d, c'. split; [done|]. change c' with (d, c').2. rewrite <- E2. by apply allow_half_open_ok.
Qed.

Lemma record_circuit_ok s ok now c : spec_ok s -> circuit_ok s c -> circuit_ok s (record_circuit s ok now c).
Proof.
  intros Hs Hc. apply (prune_ok s now) in Hc. unfold record_circuit. cbv zeta.
  destruct (c_state (prune_failures s now c)) eqn:E.
  - destruct ok; [done|].
    destruct (Z.leb_spec (failure_threshold s) (failure_count (prune_failures s now
      (set_failures (failures (prune_failures s now c) ++ [now]) (prune_failures s now c))))) as [H|H];
      [apply open_circuit_ok|].
    unfold circuit_ok in *. cbn in *. rewrite E in *. destruct Hc as (_ & H1 & H2 & H3). done.
  - destruct ok; cbn; [done|]. unfold circuit_ok in *. cbn in *. rewrite E in *. by destruct Hc as (_ & H1 & H2 & H3).
  - unfold circuit_ok in Hc. rewrite E in Hc. destruct Hc as (H1 & H2 & H3 & H4).
    set (p := prune_failures s now c) in *. clearbody p.
    set (c1 := if 0 <? half_open_in_flight p then _ else p).
    assert (c_state c1 = HALF_OPEN /\ opened_at_s c1 = None /\ failures c1 = [] /\
      0 <= half_open_in_flight c1 <= half_open_permit_limit s /\ half_open_successes c1 = half_open_successes p)
      as (F1 & F2 & F3 & F4 & F5).
    { unfold c1. destruct (Z.ltb_spec 0 (half_open_in_flight p)); split_and!; cbn; try done; lia. }
    destruct ok; cbn [negb]; [|apply open_circuit_ok].
    destruct (Z.leb_spec (success_threshold s) (half_open_successes (set_successes (half_open_successes c1 + 1) c1)))
      as [H|H]; [by apply close_circuit_ok|].
    unfold circuit_ok. cbn in *. rewrite F1. split_and!; try done; lia.
Qed.

(** ** The dict *)
Lemma expired_suffix ttl now d : exists n, evict_expired ttl now d = drop n d.
Proof.
  induction d as [|[k c] d [n IH]]; [by exists 0%nat|]. cbn.
  destruct (is_expired ttl now c); [by exists (S n)|by exists 0%nat].
Qed.

(** The circuit an operation at [now] finds for [key]. *)
Definition current (key : CircuitBreakerKey) (now : spec_float) (b : t) : Circuit :=
  seen now (default (new_circuit now) (aget key (evict_expired (ttl_s b) now (circuits b)))).

Definition same_config (b b' : t) : Prop := spec b' = spec b /\ max_keys b' = max_keys b /\ ttl_s b' = ttl_s b.

(** The keys of [b'] other than [key] have the circuits they have in [b]. *)
Definition others_kept (key : CircuitBreakerKey) (b b' : t) : Prop :=
  forall k c, k <> key -> aget k (circuits b') = Some c -> aget k (circuits b) = Some c.

(** Looking a circuit up and writing back a well-formed one. *)
Lemma lookup_store_ok key now b c' : let c := current key now b in
  breaker_ok b -> (circuit_ok (spec b) c -> circuit_ok (spec b) c') ->
  exists b1, lookup_circuit key now b = (c, b1) /\ same_config b b1 /\ circuit_ok (spec b) c /\
    let b' := store_circuit key c' b1 in
    breaker_ok b' /\ same_config b b' /\ last (keys (circuits b')) = Some key /\
    aget key (circuits b') = Some c' /\ others_kept key b b'.
Proof.
  intros c [Hs Hmax Hnd Hsz Hok] Hf. destruct (expired_suffix (ttl_s b) now (circuits b)) as [n Hd].
  set (d := evict_expired (ttl_s b) now (circuits b)) in *.
  assert (NoDup (keys d)) as Hdn by (rewrite Hd; by apply NoDup_keys_drop).
  assert (forall k c2, aget k d = Some c2 -> aget k (circuits b) = Some c2) as Hsub.
  { intros k c2. rewrite Hd. by apply aget_drop. }
  assert (circuit_ok (spec b) c) as Hc.
  { unfold c, current. fold d. apply seen_ok. destruct (aget key d) eqn:E; [by apply (Hok key), Hsub|].
    by apply new_circuit_ok. }
  set (d' := touch key c d). assert (NoDup (keys d')) as Hd' by by apply NoDup_touch.
  set (d2 := evict_lru (max_keys b) d'). exists (set_circuits d2 b).
  split; [done|]. split; [done|]. split; [done|]. cbv zeta.
  assert (last (keys d') = Some key) as Hlast by by apply last_touch.
  assert (d' <> []) as Hne by (intros E; by rewrite E in Hlast).
  assert ((length d' - max_keys b < length d')%nat) as Hlt by (destruct d'; [done|cbn; lia]).
  unfold d2. rewrite evict_lru_drop. set (m := (length d' - max_keys b)%nat) in *.
  assert (aget key (drop m d') = Some c) as Hget.
  { rewrite aget_drop_last by done. unfold d'. by rewrite aget_touch, decide_True by done. }
  assert (NoDup (keys (drop m d'))) as Hdrop by by apply NoDup_keys_drop.
  assert (keys (aset key c' (drop m d')) = keys (drop m d')) as Hkeys.
  { rewrite keys_aset, decide_True; [done|]. apply aget_Some_elem in Hget. unfold keys.
    by apply (list_elem_of_fmap_2 fst _ (key, c)). }
  assert (others_kept key b (set_circuits (aset key c' (drop m d')) b)) as Hoth.
  { intros k c2 Hk. cbn. rewrite aget_aset, decide_False by done. intros H%aget_drop; [|done].
    unfold d' in H. rewrite aget_touch, decide_False in H by done. by apply Hsub. }
  unfold store_circuit. cbn [circuits set_circuits]. rewrite Hget.
  split; [|split; [done|split; [|split; [|done]]]].
  - split; cbn [spec max_keys circuits set_circuits]; [done|done|by rewrite Hkeys| |].
    + rewrite <- (length_fmap fst). change (length (keys (aset key c' (drop m d'))) <= max_keys b)%nat.
      rewrite Hkeys. unfold keys. rewrite length_fmap, length_drop. unfold m. lia.
    + intros k c2. rewrite aget_aset. case_decide as Hk; [|intros H; apply (Hok k)].
      * intros [= <-]. by apply Hf.
      * apply Hoth; [done|]. cbn. by rewrite aget_aset, decide_False.
  - cbn [circuits set_circuits]. rewrite Hkeys, keys_drop, last_drop_lt; [done|]. unfold keys. by rewrite length_fmap.
  - cbn. by rewrite aget_aset, decide_True.
Qed.

(** The two operations on a well-formed breaker. *)
Lemma allow_call_ok key now b : breaker_ok b -> quantity now ->
  exists d c' b', allow_call key now b = (Ok d, b') /\ allow_circuit (spec b) now (current key now b) = Ok (d, c') /\
    breaker_ok b' /\ same_config b b' /\ last (keys (circuits b')) = Some key /\
    aget key (circuits b') = Some c' /\ others_kept key b b'.
Proof.
  intros Hb Hn. pose proof (bo_spec b Hb) as Hs.
  destruct (lookup_store_ok key now b (new_circuit now) Hb) as (_ & _ & _ & Hc & _);
    [intros; by apply new_circuit_ok|].
  destruct (allow_circuit_ok (spec b) now _ Hs Hc) as (d & c' & Ea & Hc').
  destruct (lookup_store_ok key now b c' Hb) as (b1 & E & (Es & _ & _) & _ & H); [done|].
  exists d, c', (store_circuit key c' b1). split; [|done].
  unfold allow_call, check_now. rewrite quantity_accepted by done. cbn [raise_if]. by rewrite E, Es, Ea.
Qed.

Lemma record_result_ok key ok now b : breaker_ok b -> quantity now ->
  exists b', record_result key ok now b = (Ok tt, b') /\
    breaker_ok b' /\ same_config b b' /\ last (keys (circuits b')) = Some key /\
    aget key (circuits b') = Some (record_circuit (spec b) ok now (current key now b)) /\ others_kept key b b'.
Proof.
  intros Hb Hn. pose proof (bo_spec b Hb) as Hs.
  destruct (lookup_store_ok key now b (record_circuit (spec b) ok now (current key now b)) Hb)
    as (b1 & E & (Es & _ & _) & _ & H); [intros; by apply record_circuit_ok|].
  eexists. split; [|done]. unfold record_result, check_now. rewrite quantity_accepted by done.
  cbn [raise_if]. by rewrite E, Es.
Qed.

(** ** Properties *)
Inductive op :=
| Allow (key : CircuitBreakerKey) (now : spec_float)
| Report (key : CircuitBreakerKey) (ok : bool) (now : spec_float).

Definition op_now (o : op) : spec_float := match o with Allow _ now | Report _ _ now => now end.

(** The breaker after an operation, and whether the operation returned. *)
Definition run (o : op) (b : t) : bool * t :=
  match o with
  | Allow key now => let '(r, b') := allow_call key now b in (is_ok r, b')
  | Report key ok now => let '(r, b') := record_result key ok now b in (is_ok r, b')
  end.

Definition after (o : op) (b : t) : t := (run o b).2.

Lemma run_ok o b : breaker_ok b -> quantity (op_now o) ->
  exists b', run o b = (true, b') /\ breaker_ok b' /\ same_config b b'.
Proof.
  intros Hb Hn. destruct o as [key now|key ok now]; cbn in *.
  - destruct (allow_call_ok key now b Hb Hn) as (d & c' & b' & E & _ & H1 & H2 & _). rewrite E. by exists b'.
  - destruct (record_result_ok key ok now b Hb Hn) as (b' & E & H1 & H2 & _). rewrite E. by exists b'.
Qed.

Lemma run_steps_ok b ops b' : steps after b ops b' -> breaker_ok b ->
  Forall (fun o => quantity (op_now o)) ops -> breaker_ok b' /\ same_config b b'.
Proof.
  induction 1 as [b|b o b1 ops b2 -> _ IH]; intros Hb Ho; [done|].
  apply Forall_cons in Ho as [Ho Hos]. destruct (run_ok o b Hb Ho) as (b' & E & Hb' & H1 & H2 & H3).
  unfold after in IH. rewrite E in IH. destruct (IH Hb' Hos) as (H & G1 & G2 & G3). split; [done|].
  cbn in *. split; [congruence|]. split; congruence.
Qed.

(** the invariant of the breaker. Whatever calls were made on it, it
    remembers at most [max_keys] circuits, and of each circuit: a closed one
    holds fewer failures than the threshold (so the branch of [allow_call] that
    opens a closed circuit is never taken), an open one has its opening time
    and no counts, a half-open one has given out between 0 and
    min([half_open_max_calls], [success_threshold]) permits and counted fewer
    successes than needed to close. No further call raises. *)
Theorem breaker_invariant ft w cd hm sm s m ttl b0 ops b o :
  CircuitBreakerSpec_new ft w cd hm sm = Ok s -> init s m ttl = Ok b0 ->
  steps after b0 ops b -> Forall (fun o => quantity (op_now o)) (o :: ops) ->
  (length (circuits b) <= Z.to_nat m)%nat /\ NoDup (snapshot_keys b) /\
  (forall k c, aget k (circuits b) = Some c ->
    match c_state c with
    | CLOSED => failure_count c < ft /\ opened_at_s c = None /\ half_open_in_flight c = 0 /\ half_open_successes c = 0
    | OPEN => opened_at_s c <> None /\ failures c = [] /\ half_open_in_flight c = 0 /\ half_open_successes c = 0
    | HALF_OPEN => opened_at_s c = None /\ failures c = [] /\
        0 <= half_open_in_flight c <= Z.min hm sm /\ 0 <= half_open_successes c < sm
    end) /\
  (run o b).1 = true.
Proof.
  intros Hs Hi Hr Ho. apply Forall_cons in Ho as [Ho Hos].
  assert (spec_ok s /\ ft = failure_threshold s /\ hm = half_open_max_calls s /\ sm = success_threshold s)
    as (Hok & -> & -> & ->).
  { unfold CircuitBreakerSpec_new in Hs. res_inv. bool_to_prop. subst. cbn. repeat (split; try done). }
  destruct (breaker_new_ok s m ttl b0 Hok Hi) as (Hb0 & Es & Em & _).
  destruct (run_steps_ok b0 ops b Hr Hb0 Hos) as (Hb & Es' & Em' & _).
  split; [rewrite <- Em, <- Em'; apply Hb|]. split; [apply Hb|]. split.
  - intros k c Hc. pose proof (bo_circuits b Hb k c Hc) as H. rewrite Es', Es in H. unfold circuit_ok in H.
    destruct (c_state c); try done. by rewrite is_set_true in H.
  - destruct (run_ok o b Hb Ho) as (b' & E & _). by rewrite E.
Qed.

(** the decision of [allow_call], by the state of the circuit it finds. A
    closed circuit lets the call pass. An open one denies it, with the rest of
    the cooldown as delay, exactly while the cooldown lasts; then the circuit
    half-opens and the call is its first probe. A half-open one hands out a
    permit if fewer than min([half_open_max_calls], [success_threshold]) are
    out, and otherwise denies without changing. No other key's circuit changes. *)
Theorem allow_call_spec key now b : breaker_ok b -> quantity now ->
  let c := current key now b in
  exists d c' b', allow_call key now b = (Ok d, b') /\ breaker_ok b' /\ aget key (circuits b') = Some c' /\
    others_kept key b b' /\
    match c_state c with
    | CLOSED => d = mkDecision true CLOSED None /\ c_state c' = CLOSED /\ failures c' `suffix_of` failures c
    | OPEN => exists opened, opened_at_s c = Some opened /\
        let remaining := fsub (fadd opened (open_cooldown_s (spec b))) now in
        if flt fzero remaining then d = mkDecision false OPEN (Some remaining) /\ c' = c
        else d = mkDecision true HALF_OPEN None /\ c_state c' = HALF_OPEN /\
             half_open_in_flight c' = 1 /\ half_open_successes c' = 0
    | HALF_OPEN =>
        if half_open_in_flight c <? half_open_permit_limit (spec b)
        then d = mkDecision true HALF_OPEN None /\ c' = set_in_flight (half_open_in_flight c + 1) c
        else d = mkDecision false HALF_OPEN (Some fzero) /\ c' = c
    end.
Proof.
  intros Hb Hn c. pose proof (bo_spec b Hb) as Hs. pose proof (permit_limit_pos _ Hs) as Hlim.
  destruct (lookup_store_ok key now b (new_circuit now) Hb) as (_ & _ & _ & Hc & _);
    [intros; by apply new_circuit_ok|]. fold c in Hc.
  destruct (allow_call_ok key now b Hb Hn) as (d & c' & b' & E & Ea & H1 & _ & _ & H2 & H3). fold c in Ea.
  exists d, c', b'. do 4 (split; [done|]). clear E H1 H2 H3. clearbody c.
  unfold circuit_ok in Hc. unfold allow_circuit, prune_failures, set_failures in Ea. cbn [c_state failures opened_at_s] in Ea.
  destruct c as [st fs op fl su ls]. cbn [c_state failures opened_at_s half_open_in_flight half_open_successes last_seen_s] in *.
  destruct st.
  - destruct Hc as (Hf & _). unfold failure_count in *. cbn [failures] in *.
    pose proof (drop_before_length (fsub now (window_s (spec b))) fs) as Hlen.
    destruct (Z.leb_spec (failure_threshold (spec b)) (Z.of_nat (length (drop_before (fsub now (window_s (spec b))) fs))));
      [lia|]. injection Ea as <- <-. split; [done|]. split; [done|]. cbn.
    destruct (drop_before_suffix (fsub now (window_s (spec b))) fs) as [n ->]. by apply suffix_drop.
  - destruct Hc as (Ht & -> & -> & ->). destruct op as [t0|]; [|done]. exists t0. split; [done|]. cbv zeta.
    cbn [drop_before] in Ea. destruct (flt fzero _); [by injection Ea as <- <-|].
    unfold allow_half_open, half_open_circuit in Ea. cbn [half_open_in_flight last_seen_s] in Ea.
    destruct (Z.leb_spec (half_open_permit_limit (spec b)) 0); [lia|]. by injection Ea as <- <-.
  - destruct Hc as (-> & -> & _ & _). unfold allow_half_open in Ea. cbn [drop_before half_open_in_flight] in Ea.
    rewrite Z.leb_antisym in Ea. destruct (fl <? _); cbn [negb] in Ea; by injection Ea as <- <-.
Qed.

(** A time is never before the window that ends at it. *)
Lemma now_in_window now w : quantity now -> quantity w -> flt now (fsub now w) = false.
Proof.
  intros [N1 N2 N3] [W1 W2 W3]. destruct (flt now (fsub now w)) eqn:E; [|done].
  pose proof (flt_not_ge _ _ E) as Hge. destruct (fle_notnan _ _ (flt_fle _ _ E)) as [_ Hnan].
  destruct (flt fzero (fsub now w)) eqn:E0.
  - apply fsub_positive in E0; [|done..]. destruct (fsub_between now w) as (_ & _ & H & _); [done..|]. congruence.
  - apply flt_false_fle in E0; [|done..]. assert (fle (fsub now w) now = true) by by eapply fle_trans. congruence.
Qed.

Lemma drop_before_snoc x l y : flt y x = false -> drop_before x (drop_before x l ++ [y]) = drop_before x l ++ [y].
Proof.
  intros Hy. induction l as [|z l IH]; cbn; [by rewrite Hy|].
  destruct (flt z x) eqn:E; [done|]. cbn. by rewrite E.
Qed.

(** the effect of [record_result], by the state of the circuit it finds. A
    failure on a closed circuit opens it exactly if, with the failures still
    in the window, it makes [failure_threshold] of them, and is remembered
    otherwise. A success on a half-open circuit gives its permit back and
    closes the circuit if it is the [success_threshold]th; a failure reopens
    it. A failure on an open circuit restarts its cooldown. No other key's
    circuit changes. *)
Theorem record_result_spec key ok now b : breaker_ok b -> quantity now -> quantity (window_s (spec b)) ->
  let c := current key now b in
  let recent := drop_before (fsub now (window_s (spec b))) (failures c) in
  exists c' b', record_result key ok now b = (Ok tt, b') /\ breaker_ok b' /\ aget key (circuits b') = Some c' /\
    others_kept key b b' /\
    match c_state c, ok with
    | CLOSED, true => c' = set_failures recent c
    | CLOSED, false =>
        if failure_threshold (spec b) <=? Z.of_nat (length recent) + 1 then c' = open_circuit now c
        else c' = set_failures (recent ++ [now]) c
    | HALF_OPEN, true =>
        if success_threshold (spec b) <=? half_open_successes c + 1 then c' = close_circuit c
        else c_state c' = HALF_OPEN /\ half_open_successes c' = half_open_successes c + 1 /\
             half_open_in_flight c' = Z.max 0 (half_open_in_flight c - 1)
    | HALF_OPEN, false => c' = open_circuit now c
    | OPEN, true => c' = c
    | OPEN, false => c' = set_opened_at now c
    end.
Proof.
  intros Hb Hn Hw c recent. pose proof (bo_spec b Hb) as Hs.
  destruct (lookup_store_ok key now b (new_circuit now) Hb) as (_ & _ & _ & Hc & _);
    [intros; by apply new_circuit_ok|]. fold c in Hc.
  destruct (record_result_ok key ok now b Hb Hn) as (b' & E & H1 & _ & _ & H2 & H3). fold c in H2.
  exists (record_circuit (spec b) ok now c), b'. do 4 (split; [done|]). clear E H1 H2 H3 b'. clearbody c.
  pose proof (now_in_window now (window_s (spec b)) Hn Hw) as Hnw.
  unfold circuit_ok in Hc. unfold record_circuit, prune_failures, set_failures, recent.
  destruct c as [st fs op fl su ls]. cbn [c_state failures opened_at_s half_open_in_flight half_open_successes last_seen_s] in *.
  destruct st.
  - destruct ok; [done|]. rewrite drop_before_snoc by done. unfold failure_count. cbn [failures].
    rewrite length_app, Nat2Z.inj_add. cbn [length]. by destruct (failure_threshold (spec b) <=? _).
  - destruct Hc as (_ & -> & -> & ->). by destruct ok.
  - destruct Hc as (-> & -> & Hfl & Hsu). cbn [drop_before]. destruct ok; cbn [negb]; [|by destruct (0 <? fl)].
    destruct (Z.ltb_spec 0 fl); cbn; destruct (success_threshold (spec b) <=? su + 1); cbn; repeat split; try done; lia.
Qed.

Lemma evict_expired_keeps ttl now key c d : NoDup (keys d) -> aget key d = Some c ->
  is_expired ttl now c = false -> aget key (evict_expired ttl now d) = Some c.
Proof.
  intros Hd Hk He. induction d as [|[k c'] d IH]; [done|]. cbn [evict_expired].
  destruct (is_expired ttl now c') eqn:E; [|done]. cbn in Hd. apply NoDup_cons in Hd as [Hnin Hd].
  apply IH; [done|]. cbn in Hk. case_decide; [|done]. congruence.
Qed.

(** Calls at [times] after [prev], each within the time-to-live of the previous one. *)
Fixpoint polled (ttl_s prev : spec_float) (times : list spec_float) : bool :=
  match times with
  | [] => true
  | now :: rest => negb (flt ttl_s (fsub now prev)) && polled ttl_s now rest
  end.

Definition saturated (s : CircuitBreakerSpec) (c : Circuit) : Prop :=
  c_state c = HALF_OPEN /\ half_open_in_flight c = half_open_permit_limit s.

(** A saturated circuit asked before its idle time ends. *)
Lemma allow_saturated key now b c : breaker_ok b -> aget key (circuits b) = Some c -> saturated (spec b) c ->
  quantity now -> flt (ttl_s b) (fsub now (last_seen_s c)) = false ->
  exists b', allow_call key now b = (Ok (mkDecision false HALF_OPEN (Some fzero)), b') /\
    breaker_ok b' /\ same_config b b' /\ aget key (circuits b') = Some (seen now c).
Proof.
  intros Hb Hk [Hst Hfl] Hn He.
  assert (current key now b = seen now c) as Hcur.
  { unfold current. rewrite (evict_expired_keeps (ttl_s b) now key c); [done|apply Hb|done|exact He]. }
  destruct (allow_call_ok key now b Hb Hn) as (d & c' & b' & E & Ea & H1 & H2 & _ & H3 & _). rewrite Hcur in Ea.
  pose proof (bo_circuits b Hb key c Hk) as Hc. unfold circuit_ok in Hc. rewrite Hst in Hc.
  destruct Hc as (Hop & Hf & _). unfold allow_circuit, prune_failures, allow_half_open in Ea.
  destruct c as [st fs op fl su ls]. cbn [seen set_failures c_state failures opened_at_s half_open_in_flight half_open_successes] in *.
  subst. cbn [drop_before] in Ea. rewrite Z.leb_refl in Ea. injection Ea as <- <-. by exists b'.
Qed.

(** The breaker after [allow_call]. *)
Definition ask (key : CircuitBreakerKey) (now : spec_float) (b : t) : t := (allow_call key now b).2.

(** a probe permit is given back only by [record_result]. When the probes
    of a half-open circuit are never reported (the service reports only tools
    that ran, and a later guard can delay or deny the call after the breaker
    gave the permit), the circuit denies every later call, however long after
    the cooldown, as long as the key is asked at least once per TTL: asking
    refreshes the idle timer that would forget the circuit. *)
Theorem lost_permit_blocks_forever key b c times now b' :
  breaker_ok b -> aget key (circuits b) = Some c -> saturated (spec b) c ->
  Forall quantity (times ++ [now]) -> polled (ttl_s b) (last_seen_s c) (times ++ [now]) = true ->
  steps (ask key) b times b' ->
  (allow_call key now b').1 = Ok (mkDecision false HALF_OPEN (Some fzero)).
Proof.
  intros Hb Hk Hsat Hq Hp Hs. revert c Hk Hsat Hp Hq. induction Hs as [b|b t1 b1 ts b2 -> _ IH]; intros c Hk Hsat Hp Hq.
  - cbn in Hp, Hq. apply Forall_cons in Hq as [Hq _]. apply andb_prop in Hp as [Hp%negb_true_iff _].
    destruct (allow_saturated key now b c) as (b' & E & _); [done..|]. by rewrite E.
  - cbn in Hp, Hq. apply Forall_cons in Hq as [Hq Hqs]. apply andb_prop in Hp as [Hp%negb_true_iff Hps].
    destruct (allow_saturated key t1 b c) as (b1 & E & Hb1 & (E1 & E2 & E3) & Hk1); [done..|]. unfold ask in IH. rewrite E in IH. cbn in IH.
    apply (IH Hb1 (seen t1 c)); [done| |by rewrite E3|done]. unfold saturated. by rewrite E1.
Qed.

(** ** Witnesses *)
Definition http_key : CircuitBreakerKey := mkKey (Some "net.http") None None None.

(** Five failures within four seconds, then a call eleven seconds later. *)
Definition sample_ops : list op :=
  map (fun n => Report http_key false (of_Z n)) [100; 101; 102; 103; 104] ++ [Allow http_key (of_Z 115)].
Definition fresh_breaker : t := mkBreaker default_spec 100 (of_Z 3600) [].
Definition probing : t := foldl (fun b o => after o b) fresh_breaker sample_ops.
Definition tripped : t := foldl (fun b o => after o b) fresh_breaker (take 5 sample_ops).

Example tripped_state : (c_state <$> aget http_key (circuits tripped), c_state <$> aget http_key (circuits probing))
  = (Some OPEN, Some HALF_OPEN).
Proof. vm_compute. reflexivity. Qed.

Lemma fresh_ok : breaker_ok fresh_breaker.
Proof. split; cbn; [by split|lia|constructor|lia|done]. Qed.

Ltac solve_times := repeat (apply Forall_cons; split; [solve_quantity|]); apply Forall_nil; exact I.

Lemma tripped_ok : breaker_ok tripped /\ breaker_ok probing.
Proof.
  split; [eapply (run_steps_ok fresh_breaker (take 5 sample_ops))|eapply (run_steps_ok fresh_breaker sample_ops)];
    [exact (steps_foldl after _ _)|apply fresh_ok|solve_times|exact (steps_foldl after _ _)|apply fresh_ok|solve_times].
Qed.

Lemma breaker_invariant_witness :
  (length (circuits probing) <= 100)%nat /\ (run (Allow http_key (of_Z 116)) probing).1 = true.
Proof.
  destruct (breaker_invariant 5 (of_Z 60) (of_Z 10) 1 1 default_spec 100 (of_Z 3600) fresh_breaker sample_ops
    probing (Allow http_key (of_Z 116))) as (H1 & _ & _ & H2).
  - vm_compute. reflexivity.
  - vm_compute. reflexivity.
  - exact (steps_foldl after fresh_breaker sample_ops).
  - solve_times.
  - split; [exact H1|exact H2].
Defined.

Lemma allow_call_spec_witness : exists d b', allow_call http_key (of_Z 115) tripped = (Ok d, b') /\
  d = mkDecision true HALF_OPEN None.
Proof.
  destruct (allow_call_spec http_key (of_Z 115) tripped) as (d & c' & b' & E & _).
  - apply tripped_ok.
  - solve_quantity.
  - exists d, b'. split; [exact E|]. vm_compute in E. injection E as <- _. reflexivity.
Defined.

Lemma record_result_spec_witness : exists c b', record_result http_key true (of_Z 116) probing = (Ok tt, b') /\
  aget http_key (circuits b') = Some c /\ c_state c = CLOSED.
Proof.
  destruct (record_result_spec http_key true (of_Z 116) probing) as (c & b' & E & _ & H & _ & _).
  - apply tripped_ok.
  - solve_quantity.
  - solve_quantity.
  - exists c, b'. split; [exact E|]. split; [exact H|]. vm_compute in E. injection E as <-.
    vm_compute in H. injection H as <-. reflexivity.
Defined.

(** The probe is never reported; the breaker is asked every 3000 seconds. *)
Lemma lost_permit_blocks_forever_witness : exists b c,
  steps (ask http_key) probing [of_Z 3000; of_Z 6000; of_Z 9000] b /\
  aget http_key (circuits probing) = Some c /\
  (allow_call http_key (of_Z 12000) b).1 = Ok (mkDecision false HALF_OPEN (Some fzero)).
Proof.
  eexists _, _. assert (steps (ask http_key) probing [of_Z 3000; of_Z 6000; of_Z 9000]
    (foldl (fun b now => ask http_key now b) probing [of_Z 3000; of_Z 6000; of_Z 9000])) as Hs.
  { exact (steps_foldl (ask http_key) probing _). }
  split; [exact Hs|]. split; [vm_compute; reflexivity|].
  eapply (lost_permit_blocks_forever http_key probing); [apply tripped_ok|vm_compute; reflexivity| | | |exact Hs].
  - split; vm_compute; reflexivity.
  - solve_times.
  - vm_compute. reflexivity.
Defined.

End CircuitBreaker.
