(* ===== verification/Decision.v ===== *)
(** * Decisions and tool contracts

    The values that policy, guards, tools and the executor exchange:
    [ToolManifest] and [ToolResult] ([tools/sdk/contracts.py], [compat.py]),
    [PolicyDecision] ([security/policy/decision.py]) and [GuardDecision]
    ([guards/decision.py]), each with the validation its constructor runs, and
    [float(str)], which the delay of a guard decision may go through. *)

From Stdlib Require Import ZArith SpecFloat Lia Ascii.
From S2P Require Import Prelude PyFloat Models.

Open Scope py_scope.

(** ** [float(str)]: a decimal literal, correctly rounded *)
Definition digit_value (c : ascii) : option Z :=
  let n := Z.of_nat (nat_of_ascii c) in
  if (48 <=? n) && (n <=? 57) then Some (n - 48) else None.

(** A run of digits with single underscores between them: the value, the number
    of digits and the rest. [prev] tells whether a digit was just read. *)
Fixpoint read_digits (s : string) (prev : bool) (acc : Z) (count : Z) : Z * Z * string :=
  match s with
  | EmptyString => (acc, count, s)
  | String c s' =>
      match digit_value c with
      | Some d => read_digits s' true (10 * acc + d) (count + 1)
      | None =>
          if prev && (c =? "_")%char then
            match s' with
            | String c' _ => if is_set (digit_value c') then read_digits s' false acc count else (acc, count, s)
            | EmptyString => (acc, count, s)
            end
          else (acc, count, s)
      end
  end.

Definition read_sign (s : string) : bool * string :=
  match s with
  | String c s' => if (c =? "-")%char then (true, s') else if (c =? "+")%char then (false, s') else (false, s)
  | EmptyString => (false, s)
  end.

(** [m * 10^e], correctly rounded. *)
Definition of_decimal (neg : bool) (m e : Z) : spec_float :=
  let x := if 0 <=? e then of_Z (m * 10 ^ e)
           else match m with
                | Zpos p => SFdiv prec emax (S754_finite false p 0) (S754_finite false (Z.to_pos (10 ^ (- e))) 0)
                | _ => fzero
                end in
  if neg then SFopp x else x.

Definition float_of_str (s : string) : res spec_float :=
  let bad := Raise (ValueError "could not convert string to float") in
  let '(neg, body) := read_sign (strip s) in
  let word := lower body in
  if (word =? "inf")%string || (word =? "infinity")%string then Ok (S754_infinity neg)
  else if (word =? "nan")%string then Ok S754_nan
  else
    let '(m, n, rest) := read_digits body false 0 0 in
    let '(m, k, n2, rest) :=
      match rest with
      | String c rest' =>
          if (c =? ".")%char
          then let '(m', n', rest'') := read_digits rest' false m n in (m', n' - n, n', rest'')
          else (m, 0, n, rest)
      | EmptyString => (m, 0, n, rest)
      end in
    if n2 =? 0 then bad
    else match rest with
    | EmptyString => Ok (of_decimal neg m (- k))
    | String c rest' =>
        if (c =? "e")%char || (c =? "E")%char then
          let '(eneg, digits) := read_sign rest' in
          let '(e, en, tail) := read_digits digits false 0 0 in
          if (en =? 0) || negb (is_empty tail) then bad
          else Ok (of_decimal neg m ((if eneg then - e else e) - k))
        else bad
    end.

Example float_of_str_values :
  map float_of_str [" 0.1 "; "-1_0.5e1"; "1e400"; ".5"; "Inf"] =
  [Ok (lit 1 10); Ok (of_Z (-105)); Ok (S754_infinity false); Ok (lit 1 2); Ok (S754_infinity false)].
Proof. vm_compute. reflexivity. Qed.
Example float_of_str_rejects :
  forallb (fun s => negb (is_ok (float_of_str s))) [""; "."; "1__0"; "_1"; "1e"; "1 0"; "0x1"] = true.
Proof. vm_compute. reflexivity. Qed.

(** ** [tools/sdk/compat.py] *)

(** [0|\[1-9\]\d*] *)
Definition is_version_number (s : string) : bool :=
  match s with
  | EmptyString => false
  | String c s' => all_chars (fun c => is_set (digit_value c)) s && (is_empty s' || negb (c =? "0")%char)
  end.

Fixpoint split_at_dot (s : string) : option (string * string) :=
  match s with
  | EmptyString => None
  | String c s' =>
      if (c =? ".")%char then Some (EmptyString, s')
      else match split_at_dot s' with Some (a, b) => Some (String c a, b) | None => None end
  end.

(** Numbers without leading zeros print as they are written. *)
Definition normalize_tool_sdk_version (value : string) : res string :=
  let trimmed := strip value in
  raise_if (is_empty trimmed) (ValueError "sdk_version must be non-empty");;
  match split_at_dot trimmed with
  | Some (major, minor) =>
      if is_version_number major && is_version_number minor then Ok trimmed
      else Raise (ValueError "sdk_version must be in 'MAJOR.MINOR' form (e.g. '1.0')")
  | None => Raise (ValueError "sdk_version must be in 'MAJOR.MINOR' form (e.g. '1.0')")
  end.

Definition is_supported_tool_sdk_version (value : string) : res bool :=
  v ← normalize_tool_sdk_version value; Ok (v =? "1.0")%string.

(** ** [tools/sdk/contracts.py] *)
Record ToolManifest := mkToolManifest {
  mf_sdk_version : string;
  mf_name : string;
  mf_version : string;
  mf_description : string;
  mf_permission_scope : string;
  mf_side_effects : bool;
  mf_idempotent : bool;
  mf_default_timeout_s : Z;
  mf_max_output_bytes : Z;
  mf_tags : list string;
  mf_input_schema : option (list (string * json));
  mf_output_schema : option (list (string * json));
}.

Fixpoint dedupe_preserving_order (seen items : list string) : list string :=
  match items with
  | [] => []
  | item :: rest =>
      if bool_decide (item ∈ seen) then dedupe_preserving_order seen rest
      else item :: dedupe_preserving_order (item :: seen) rest
  end.

Definition normalize_tags (value : list string) : res (list string) :=
  l ← non_empty_entries "tags" value; Ok (dedupe_preserving_order [] l).

(** [_require_json_serializable] on an optional value. *)
Definition require_json_serializable (field_name : string) (value : option json) : res (option json) :=
  match value with
  | None => Ok None
  | Some v => if jsonable v then Ok (Some v)
              else Raise (ValueError (field_name +:+ " must be JSON-serializable"))
  end.

Definition optional_dict (field_name : string) (value : option (list (string * json)))
  : res (option (list (string * json))) :=
  match value with
  | None => Ok None
  | Some v => if jsonable (JObj v) then Ok (Some v)
              else Raise (ValueError (field_name +:+ " must be JSON-serializable"))
  end.

Definition ToolManifest_validate (m : ToolManifest) : res ToolManifest :=
  run (VOk mkToolManifest
    <*> field "sdk_version" (normalize_tool_sdk_version (mf_sdk_version m))
    <*> field "name" (non_empty "name" (mf_name m))
    <*> field "version" (non_empty "version" (mf_version m))
    <*> field "description" (non_empty "description" (mf_description m))
    <*> field "permission_scope" (non_empty "permission_scope" (mf_permission_scope m))
    <*> VOk (mf_side_effects m)
    <*> VOk (mf_idempotent m)
    <*> field "default_timeout_s" (positive_int "default_timeout_s" (mf_default_timeout_s m))
    <*> field "max_output_bytes" (positive_int "max_output_bytes" (mf_max_output_bytes m))
    <*> field "tags" (normalize_tags (mf_tags m))
    <*> field "input_schema" (optional_dict "input_schema" (mf_input_schema m))
    <*> field "output_schema" (optional_dict "output_schema" (mf_output_schema m))).

Record ToolResult := mkToolResult {
  ok : bool;
  data : option json;
  error_code : option string;
  error_message : option string;
  debug : option (list (string * json));
  produced_artifacts : option json;
}.

Definition normalize_error_str (field_name : string) (value : option string) : res (option string) :=
  match value with
  | None => Ok None
  | Some v => if is_empty (strip v)
              then Raise (ValueError (field_name +:+ " must be non-empty when provided"))
              else Ok (Some (strip v))
  end.

Definition ToolResult_invariants (r : ToolResult) : res unit :=
  if ok r
  then raise_if (is_set (error_code r) || is_set (error_message r))
         (ValueError "ok=true must not include error_code/error_message")
  else raise_if (negb (is_set (error_message r))) (ValueError "ok=false requires error_message").

Definition ToolResult_validate (r : ToolResult) : res ToolResult :=
  run (after ToolResult_invariants (VOk mkToolResult
    <*> VOk (ok r)
    <*> field "data" (require_json_serializable "data" (data r))
    <*> field "error_code" (normalize_error_str "error_code" (error_code r))
    <*> field "error_message" (normalize_error_str "error_message" (error_message r))
    <*> field "debug" (optional_dict "debug" (debug r))
    <*> field "produced_artifacts" (require_json_serializable "produced_artifacts" (produced_artifacts r)))).

(** [ToolSpec] of [security/policy/context.py]; the argument model is opaque here. *)
Record ToolSpec := mkToolSpec { ts_tool_name : string; ts_manifest : ToolManifest }.

(** ** Fields shared by both kinds of decision *)
Definition normalize_reason_code (value : string) : res string :=
  if is_empty (strip value) then Raise (ValueError "reason_code must be non-empty") else Ok (strip value).

Definition metadata_json_safe (value : list (string * json)) : res (list (string * json)) :=
  if jsonable (JObj value) then Ok value else Raise (ValueError "metadata must be JSON-serializable").

(** ** [security/policy/decision.py] *)
Module PolicyAction.
Inductive t := ALLOW | DENY | REQUIRE_APPROVAL.

#[global] Instance eq_dec : EqDecision t.
Proof. solve_decision. Defined.

Definition value (a : t) : string :=
  match a with ALLOW => "allow" | DENY => "deny" | REQUIRE_APPROVAL => "require_approval" end.
End PolicyAction.

Record PolicyDecision := mkPolicyDecision {
  pd_action : PolicyAction.t;
  pd_reason_code : string;
  pd_message : option string;
  pd_rule_id : option string;
  pd_metadata : list (string * json);
}.

Definition PolicyDecision_new (action : PolicyAction.t) (reason_code : string) (message rule_id : option string)
    (metadata : list (string * json)) : res PolicyDecision :=
  run (VOk (mkPolicyDecision action)
    <*> field "reason_code" (normalize_reason_code reason_code)
    <*> field "message" (normalize_optional message)
    <*> field "rule_id" (normalize_optional rule_id)
    <*> field "metadata" (metadata_json_safe metadata)).

Definition PolicyDecision_allow := PolicyDecision_new PolicyAction.ALLOW.
Definition PolicyDecision_deny := PolicyDecision_new PolicyAction.DENY.
Definition PolicyDecision_require_approval := PolicyDecision_new PolicyAction.REQUIRE_APPROVAL.

Definition requires_approval (d : PolicyDecision) : bool :=
  bool_decide (pd_action d = PolicyAction.REQUIRE_APPROVAL).

(** ** [guards/decision.py] *)
Module GuardAction.
Inductive t := ALLOW | DENY | DELAY | REQUIRE_APPROVAL.

#[global] Instance eq_dec : EqDecision t.
Proof. solve_decision. Defined.
End GuardAction.

Record GuardDecision := mkGuardDecision {
  gd_action : GuardAction.t;
  gd_reason_code : string;
  gd_message : option string;
  gd_guard_id : option string;
  gd_metadata : list (string * json);
}.

(** [float(delay_s)] of the metadata entry; None when it is not a number. *)
Definition delay_number (v : json) : option (res spec_float) :=
  match v with
  | JBool b => Some (Ok (of_Z (if b then 1 else 0)))
  | JInt n => Some (float_of_int n)
  | JFloat f => Some (Ok f)
  | JStr s => Some (float_of_str s)
  | _ => None
  end.

Definition validate_delay_shape (d : GuardDecision) : res unit :=
  if bool_decide (gd_action d <> GuardAction.DELAY) then Ok tt
  else match aget "delay_s" (gd_metadata d) with
  | None | Some JNull => Ok tt
  | Some v =>
      match delay_number v with
      | None => Raise (ValueError "delay_s metadata must be a number")
      | Some (Raise (OverflowError m)) => Raise (OverflowError m)
      | Some (Raise _) => Raise (ValueError "delay_s metadata must be a number")
      | Some (Ok delay) => raise_if (flt delay fzero) (ValueError "delay_s metadata must be >= 0")
      end
  end.

Definition GuardDecision_new (action : GuardAction.t) (reason_code : string) (message guard_id : option string)
    (metadata : list (string * json)) : res GuardDecision :=
  run (after validate_delay_shape (VOk (mkGuardDecision action)
    <*> field "reason_code" (normalize_reason_code reason_code)
    <*> field "message" (normalize_optional message)
    <*> field "guard_id" (normalize_optional guard_id)
    <*> field "metadata" (metadata_json_safe metadata))).

Definition GuardDecision_allow := GuardDecision_new GuardAction.ALLOW.
Definition GuardDecision_deny := GuardDecision_new GuardAction.DENY.
Definition GuardDecision_require_approval := GuardDecision_new GuardAction.REQUIRE_APPROVAL.

(** [allow()] without arguments. *)
Definition allow_ok : GuardDecision := mkGuardDecision GuardAction.ALLOW "ok" None None [].

Definition GuardDecision_delay (delay_s : spec_float) (reason_code : string) (message guard_id : option string)
    (metadata : list (string * json)) : res GuardDecision :=
  raise_if (flt delay_s fzero) (ValueError "delay_s must be >= 0");;
  GuardDecision_new GuardAction.DELAY reason_code message guard_id (aset "delay_s" (JFloat delay_s) metadata).

(** ** What the constructors return *)
Lemma GuardDecision_new_ok act rc msg id md d : GuardDecision_new act rc msg id md = Ok d ->
  d = mkGuardDecision act (strip rc) (msg ≫= strip_or_none) (id ≫= strip_or_none) md /\ jsonable (JObj md) = true.
Proof.
  unfold GuardDecision_new, normalize_reason_code, metadata_json_safe, normalize_optional. intros H.
  autorewrite with vld in H. destruct H as [H _].
  repeat match goal with
  | H : _ /\ _ |- _ => destruct H
  | H : exists _, _ |- _ => destruct H
  | H : context [vap _ _ = VOk _] |- _ => rewrite vap_VOk in H
  | H : context [field _ _ = VOk _] |- _ => rewrite field_VOk in H
  end.
  destruct (is_empty (strip rc)); [done|]. destruct (jsonable (JObj md)); [|done].
  repeat match goal with H : VOk _ = VOk _ |- _ => injection H as <- end.
  repeat match goal with H : Ok _ = Ok _ |- _ => injection H as <- end. subst.
  split; [|done]. destruct msg, id; cbn in *; congruence.
Qed.

Lemma allow_ok_new : GuardDecision_allow "ok" None None [] = Ok allow_ok.
Proof. reflexivity. Qed.
