(* ===== verification/Policy.v ===== *)
(** * The policy gate: [security/policy/]

    [PolicyContext], the five rules of [rules.py], [PolicyGate] and
    [evaluate_rules]. The parsing of URLs, host matching and path resolution
    are the operations of the interface [Checks]; the rules are the code around
    them. The results: what the gate answers for any list of rules, and what
    must hold of a call the default rules let pass. *)

From Stdlib Require Import ZArith SpecFloat Lia Ascii.
From S2P Require Import Prelude PyFloat Models Decision.


(** ** [context.py] *)
Record PolicyContext := mkPolicyContext {
  profile : string;
  dry_run : bool;
  enabled_scopes : list string;
  approval_required_scopes : list string;
  approval_required_domains : list string;
  approval_required_payload_keywords : list string;
  http_allowed_domains : list string;
  webhook_allowed_targets : list string;
  workspace_root : string;
}.

Definition is_scope_enabled (ctx : PolicyContext) (scope : string) : bool :=
  bool_decide (scope ∈ enabled_scopes ctx).
Definition requires_scope_approval (ctx : PolicyContext) (scope : string) : bool :=
  bool_decide (scope ∈ approval_required_scopes ctx).

(** ** [security/scopes.py] *)
Module Scope.
Definition NET_HTTP : string := "net.http".
Definition FS_READ : string := "fs.read".
Definition FS_WRITE : string := "fs.write".
Definition WEBHOOK_EMIT : string := "webhook.emit".
End Scope.

Definition ALL_SCOPES : list string := [Scope.NET_HTTP; Scope.FS_READ; Scope.FS_WRITE; Scope.WEBHOOK_EMIT].

(** The loop of [validate_scopes]: normalised and unknown entries. *)
Fixpoint sort_scopes (scopes normalized unknown : list string) : res (list string * list string) :=
  match scopes with
  | [] => Ok (normalized, unknown)
  | raw :: rest =>
      let scope := strip raw in
      if is_empty scope then Raise (ValueError "scope entries must be non-empty")
      else if negb (bool_decide (scope ∈ ALL_SCOPES)) then sort_scopes rest normalized (unknown ++ [scope])
      else if bool_decide (scope ∈ normalized) then sort_scopes rest normalized unknown
      else sort_scopes rest (normalized ++ [scope]) unknown
  end.

Definition validate_scopes (scopes : list string) : res (list string) :=
  p ← sort_scopes scopes [] [];
  match p.2 with
  | [] => Ok p.1
  | _ => Raise (ValueError "unknown scope(s)")
  end.

(** ** Parsed arguments

    The fields of the argument model in declaration order. *)
Inductive argval :=
| AStr (s : string)
| APath (p : string)
| AModel (fields : list (string * argval))
| AList (items : list argval)
| ADict (items : list (string * argval))
| AOther (v : json).

Definition parsed_args := list (string * argval).

(** ["url" in name] *)
Definition contains (sub s : string) : bool := is_set (String.index 0 sub s).

Definition url_of (v : option argval) : option string :=
  match v with Some (AStr s) => strip_or_none s | _ => None end.

Fixpoint first_some {A B} (f : A -> option B) (l : list A) : option B :=
  match l with [] => None | x :: l' => match f x with Some y => Some y | None => first_some f l' end end.

(** [_extract_url] *)
Definition extract_url (args : parsed_args) : option string :=
  match first_some (fun name => url_of (aget name args)) ["url"; "target_url"; "webhook_url"; "endpoint_url"] with
  | Some u => Some u
  | None => first_some (fun p => if contains "url" (lower p.1) then url_of (Some p.2) else None) args
  end.

(** [_iter_paths_for_field] and [_iter_candidate_paths] *)
Fixpoint paths_for_field (field_name : string) (value : argval) : list (string * string) :=
  match value with
  | APath p => [(field_name, p)]
  | AModel fields => concat (map (fun f => paths_for_field f.1 f.2) fields)
  | AStr s => if contains "path" (lower field_name)
              then match strip_or_none s with Some p => [(field_name, p)] | None => [] end else []
  | AList items => concat (map (paths_for_field field_name) items)
  | ADict items => concat (map (fun p => paths_for_field field_name p.2) items)
  | AOther _ => []
  end.

Definition iter_candidate_paths (args : parsed_args) : list (string * string) :=
  concat (map (fun f => paths_for_field f.1 f.2) args).

(** ** What the rules use of [net_safety], [fs_safety], [urllib] and pydantic *)
Class Checks := {
  (** [urlsplit(url).hostname] and [urlsplit(url).fragment] *)
  url_hostname : string -> res (option string);
  url_fragment : string -> res string;
  (** [validate_and_normalize_url], with the allowed domains when given *)
  validate_and_normalize_url : string -> option (list string) -> res string;
  hostname_matches_allowlist : string -> list string -> res bool;
  webhook_target_matches_allowlist : string -> list string -> res bool;
  (** [resolve_path_in_workspace(path, workspace_root, must_exist=False)] *)
  resolve_path_in_workspace : string -> string -> res string;
  (** [json.dumps(parsed_args.model_dump(mode="json"), ensure_ascii=False)] *)
  dump_text : parsed_args -> string;
}.

Section rules.
Context `{Checks}.

Definition rule := ToolCall -> ToolSpec -> parsed_args -> PolicyContext -> res (option PolicyDecision).

Definition deny_with (reason message rule_id : string) (metadata : list (string * json)) : res (option PolicyDecision) :=
  d ← PolicyDecision_deny reason (Some message) (Some rule_id) metadata; Ok (Some d).
Definition approval_with (reason message rule_id : string) (metadata : list (string * json)) : res (option PolicyDecision) :=
  d ← PolicyDecision_require_approval reason (Some message) (Some rule_id) metadata; Ok (Some d).

Definition ScopeMatchesManifestRule : rule := fun tc spec _ _ =>
  let expected := mf_permission_scope (ts_manifest spec) in
  let actual := permission_scope tc in
  if (expected =? actual)%string then Ok None
  else deny_with "scope_mismatch" "tool_call permission_scope does not match tool manifest" "scope_matches_manifest"
    [("tool_name", JStr (ts_tool_name spec)); ("expected_scope", JStr expected); ("actual_scope", JStr actual)].

Definition ScopeEnabledRule : rule := fun tc spec _ ctx =>
  if is_scope_enabled ctx (permission_scope tc) then Ok None
  else deny_with "scope_disabled" "scope is not enabled" "scope_enabled"
    [("scope", JStr (permission_scope tc)); ("tool_name", JStr (ts_tool_name spec))].

Definition NETWORK_SCOPES : list string := [Scope.NET_HTTP; Scope.WEBHOOK_EMIT].
Definition FILESYSTEM_SCOPES : list string := [Scope.FS_READ; Scope.FS_WRITE].
Definition NETWORK_ARGS_INVALID_MESSAGES : list string :=
  ["url must use https"; "url must include a host"; "url must not include credentials"; "url has invalid port"].

Definition classify_network_validation_error (message : string) : string :=
  if contains "allowed_domains" message then "domain_not_allowlisted"
  else if bool_decide (message ∈ NETWORK_ARGS_INVALID_MESSAGES) then "args_invalid"
  else "ssrf_blocked".

(** [host.lower().rstrip(".")] *)
Definition lower_host (host : string) : string := rstrip_by (fun c => (c =? ".")%char) (lower host).

Definition host_entry (host : option string) : list (string * json) :=
  match host with
  | Some h => if is_empty h then [] else [("host", JStr (lower_host h))]
  | None => []
  end.

Definition NetworkAllowlistRule : rule := fun tc spec args ctx =>
  let scope := permission_scope tc in
  let base := [("scope", JStr scope); ("tool_name", JStr (ts_tool_name spec))] in
  if negb (bool_decide (scope ∈ NETWORK_SCOPES)) then Ok None
  else match extract_url args with
  | None => deny_with "args_invalid" "network-scoped tools must include a URL in args" "network_allowlist" base
  | Some raw_url =>
      fragment ← url_fragment raw_url;
      if negb (is_empty fragment)
      then deny_with "args_invalid" "url fragments are not supported" "network_allowlist" (base ++ [("url", JStr raw_url)])
      else
        let allowed := if (scope =? Scope.NET_HTTP)%string then Some (http_allowed_domains ctx) else None in
        match validate_and_normalize_url raw_url allowed with
        | Raise (ValueError message) =>
            host ← url_hostname raw_url;
            deny_with (classify_network_validation_error message) message "network_allowlist"
              (base ++ host_entry host ++ [("url", JStr raw_url)])
        | Raise e => Raise e
        | Ok normalized_url =>
            listed ← (if (scope =? Scope.WEBHOOK_EMIT)%string
                      then webhook_target_matches_allowlist normalized_url (webhook_allowed_targets ctx) else Ok true);
            if negb listed
            then
              host ← url_hostname normalized_url;
              deny_with "domain_not_allowlisted" "webhook target is not allowlisted" "network_allowlist"
                (base ++ [("url", JStr normalized_url)] ++ host_entry host)
            else Ok None
        end
  end.

Fixpoint check_paths (tc : ToolCall) (spec : ToolSpec) (root : string) (paths : list (string * string))
  : res (option PolicyDecision) :=
  match paths with
  | [] => Ok None
  | (field_name, path) :: rest =>
      match resolve_path_in_workspace path root with
      | Ok _ => check_paths tc spec root rest
      | Raise (ValueError message) =>
          deny_with "workspace_violation" message "workspace_confinement"
            [("scope", JStr (permission_scope tc)); ("tool_name", JStr (ts_tool_name spec));
             ("field", JStr field_name); ("path", JStr path)]
      | Raise e => Raise e
      end
  end.

Definition WorkspaceRule : rule := fun tc spec args ctx =>
  if negb (bool_decide (permission_scope tc ∈ FILESYSTEM_SCOPES)) then Ok None
  else check_paths tc spec (workspace_root ctx) (iter_candidate_paths args).

(** The destination and keyword checks of [ApprovalRequiredRule]. *)
Definition domain_requires_approval (args : parsed_args) (ctx : PolicyContext) : res (option string) :=
  match extract_url args with
  | None => Ok None
  | Some raw_url =>
      host ← url_hostname raw_url;
      match host with
      | Some h =>
          if is_empty h then Ok None
          else found ← hostname_matches_allowlist h (approval_required_domains ctx); Ok (if found : bool then Some h else None)
      | None => Ok None
      end
  end.

Definition matching_keyword (args : parsed_args) (ctx : PolicyContext) : option string :=
  find (fun k => contains k (lower (dump_text args))) (approval_required_payload_keywords ctx).

Definition ApprovalRequiredRule : rule := fun tc spec args ctx =>
  let scope := permission_scope tc in
  let base := [("scope", JStr scope); ("tool_name", JStr (ts_tool_name spec))] in
  if requires_scope_approval ctx scope
  then approval_with "approval_required" "scope requires approval" "approval_required" base
  else
    host ← domain_requires_approval args ctx;
    match host with
    | Some h => approval_with "approval_required" "destination domain requires approval" "approval_required"
                  (base ++ [("host", JStr (lower_host h))])
    | None =>
        match matching_keyword args ctx with
        | Some k => approval_with "approval_required" "payload classification requires approval" "approval_required"
                      (base ++ [("keyword", JStr k)])
        | None =>
            if (profile ctx =? "prod")%string && mf_side_effects (ts_manifest spec) && negb (dry_run ctx)
            then approval_with "profile_guardrail" "side-effecting tools in prod require approval" "approval_required"
                   ([("profile", JStr (profile ctx)); ("dry_run", JBool (dry_run ctx))] ++ base)
            else Ok None
        end
    end.

Definition build_default_policy_rules : list (string * rule) :=
  [("scope_matches_manifest", ScopeMatchesManifestRule); ("scope_enabled", ScopeEnabledRule);
   ("network_allowlist", NetworkAllowlistRule); ("workspace_confinement", WorkspaceRule);
   ("approval_required", ApprovalRequiredRule)].
End rules.

(** ** [gate.py] *)
Record PolicyTraceEntry := mkPolicyTraceEntry { te_rule_id : string; te_decision : option PolicyDecision }.

Definition policy_ok : PolicyDecision := mkPolicyDecision PolicyAction.ALLOW "ok" None None [].

Section gate.
Context {R : Type} (eval : R -> res (option PolicyDecision)).

(** [_evaluate_with_trace]; a rule is its id and what it answers. *)
Fixpoint evaluate_with_trace (rules : list (string * R)) (first_approval : option PolicyDecision)
    (trace : list PolicyTraceEntry) : res (PolicyDecision * list PolicyTraceEntry) :=
  match rules with
  | [] => match first_approval with
          | Some d => Ok (d, trace)
          | None => d ← PolicyDecision_allow "ok" None None []; Ok (d, trace)
          end
  | (rule_id, r) :: rest =>
      decision ← eval r;
      let trace := trace ++ [mkPolicyTraceEntry rule_id decision] in
      match decision with
      | None => evaluate_with_trace rest first_approval trace
      | Some d =>
          match pd_action d with
          | PolicyAction.DENY => Ok (d, trace)
          | PolicyAction.REQUIRE_APPROVAL =>
              evaluate_with_trace rest (match first_approval with None => Some d | a => a end) trace
          | PolicyAction.ALLOW => evaluate_with_trace rest first_approval trace
          end
      end
  end.

(** [evaluate_rules] of [rules.py] *)
Fixpoint evaluate_rules (rules : list R) : res PolicyDecision :=
  match rules with
  | [] => PolicyDecision_allow "ok" None None []
  | r :: rest =>
      decision ← eval r;
      match decision with
      | None => evaluate_rules rest
      | Some d => if bool_decide (pd_action d = PolicyAction.ALLOW) then evaluate_rules rest else Ok d
      end
  end.
End gate.

(** [PolicyGate.evaluate] *)
Definition gate_evaluate (rules : list (string * rule)) (tc : ToolCall) (spec : ToolSpec) (args : parsed_args)
    (ctx : PolicyContext) : res PolicyDecision :=
  p ← evaluate_with_trace (fun r : rule => r tc spec args ctx) rules None [];
  Ok p.1.

(** ** The gate over any rules *)
Definition is_action (a : PolicyAction.t) (o : option PolicyDecision) : option PolicyDecision :=
  match o with Some d => if bool_decide (pd_action d = a) then Some d else None | None => None end.

(** The answers up to the first denial, included. *)
Fixpoint until_deny (ds : list (option PolicyDecision)) : list (option PolicyDecision) :=
  match ds with
  | [] => []
  | o :: ds' => o :: (if is_set (is_action PolicyAction.DENY o) then [] else until_deny ds')
  end.

(** The first denial, else the first request for approval, else [allow]. *)
Definition precedence (first_approval : option PolicyDecision) (ds : list (option PolicyDecision)) : PolicyDecision :=
  match first_some (is_action PolicyAction.DENY) ds with
  | Some d => d
  | None => default policy_ok
      (match first_approval with Some d => Some d | None => first_some (is_action PolicyAction.REQUIRE_APPROVAL) ds end)
  end.

Lemma evaluate_with_trace_eq {R} (eval : R -> res (option PolicyDecision)) rules ds fa trace :
  Forall2 (fun r o => eval r.2 = Ok o) rules ds ->
  exists trace', evaluate_with_trace eval rules fa trace = Ok (precedence fa ds, (trace ++ trace')%list) /\
    map te_decision trace' = until_deny ds.
Proof.
  intros H. revert fa trace. induction H as [|[id r] o rules ds E _ IH]; intros fa trace.
  - exists []. rewrite app_nil_r. cbn. by destruct fa.
  - cbn [evaluate_with_trace]. cbn in E. rewrite E.
    assert (forall fa', is_action PolicyAction.DENY o = None -> precedence fa' ds = precedence fa (o :: ds) ->
      exists trace', evaluate_with_trace eval rules fa' (trace ++ [mkPolicyTraceEntry id o]) =
        Ok (precedence fa (o :: ds), (trace ++ trace')%list) /\ map te_decision trace' = until_deny (o :: ds)) as Hrec.
    { intros fa' Hnd <-. destruct (IH fa' (trace ++ [mkPolicyTraceEntry id o])%list) as (t' & Et & Em).
      exists (mkPolicyTraceEntry id o :: t'). rewrite Et, <- app_assoc. split; [done|]. cbn. by rewrite Hnd, Em. }
    cbn [mbind res_bind]. destruct o as [d|]; [|by apply Hrec]. destruct (pd_action d) eqn:Ea.
    + apply Hrec; [cbn; by rewrite Ea|]. unfold precedence. cbn. by rewrite Ea.
    + exists [mkPolicyTraceEntry id (Some d)]. unfold precedence. cbn. by rewrite Ea.
    + apply Hrec; [cbn; by rewrite Ea|]. unfold precedence. cbn. rewrite Ea.
      destruct (first_some (is_action PolicyAction.DENY) ds); [done|]. by destruct fa.
Qed.

(** When no rule answers [ALLOW], the gate allows exactly if no rule objects. *)
Lemma gate_allows {R} (eval : R -> res (option PolicyDecision)) rules d trace fa tr0 :
  (forall r o, r ∈ rules.*2 -> eval r = Ok (Some o) -> pd_action o <> PolicyAction.ALLOW) ->
  (forall a, fa = Some a -> pd_action a <> PolicyAction.ALLOW) ->
  evaluate_with_trace eval rules fa tr0 = Ok (d, trace) ->
  (pd_action d = PolicyAction.ALLOW <-> fa = None /\ Forall (fun r => eval r = Ok None) rules.*2).
Proof.
  revert fa tr0. induction rules as [|[id r] rules IH]; intros fa tr0 Hne Hfa E.
  - cbn in *. destruct fa as [a|]; [injection E as <- <-; split; [by intros ?%Hfa|by intros [[=] _]]|].
    injection E as <- <-. done.
  - cbn [evaluate_with_trace] in E. cbn. destruct (eval r) as [[o|]|e] eqn:Er; cbn [mbind res_bind] in E; [| |done].
    + assert (pd_action o <> PolicyAction.ALLOW) as Ho by (apply (Hne r o); [by apply elem_of_cons; left|done]).
      destruct (pd_action o) eqn:Ea; [done| |].
      * injection E as <- <-. rewrite Ea. split; [done|]. intros [_ H]. inversion H; congruence.
      * apply IH in E; [|intros r0 o0 Hr0 Ho0; apply (Hne r0 o0); [by apply elem_of_cons; right|done]|].
        -- rewrite E. split; [by destruct fa; intros [[=] _]|]. intros [_ H]. inversion H. congruence.
        -- destruct fa as [a|]; [done|]. intros a [= <-]. congruence.
    + apply IH in E; [|intros r0 o0 Hr0 Ho0; apply (Hne r0 o0); [by apply elem_of_cons; right|done]|done].
      rewrite E. split; intros [H1 H2]; (split; [done|]); [by constructor|by inversion H2].
Qed.

(** ** The default rules *)
Section default_rules.
Context `{Checks}.

Lemma decision_new_action act rc msg id md d : PolicyDecision_new act rc msg id md = Ok d -> pd_action d = act.
Proof.
  unfold PolicyDecision_new. intros E%run_Ok. repeat (apply vap_VOk in E as (? & ? & E & _ & <-)).
  by injection E as <-.
Qed.

Lemma deny_with_action reason msg id md o : deny_with reason msg id md = Ok o ->
  exists d, o = Some d /\ pd_action d = PolicyAction.DENY.
Proof. unfold deny_with. intros (d & E & [= <-])%res_bind_Ok. exists d. by apply decision_new_action in E. Qed.

Lemma approval_with_action reason msg id md o : approval_with reason msg id md = Ok o ->
  exists d, o = Some d /\ pd_action d = PolicyAction.REQUIRE_APPROVAL.
Proof. unfold approval_with. intros (d & E & [= <-])%res_bind_Ok. exists d. by apply decision_new_action in E. Qed.
End default_rules.

Section default_gate.
Context `{Checks}.

(** A rule is a guard on the call: it answers nothing exactly if [ok] holds of
    the call, and never answers [ALLOW]. *)
Definition guards_call (r : rule) (ok : ToolCall -> ToolSpec -> parsed_args -> PolicyContext -> Prop) : Prop :=
  forall tc spec args ctx, (r tc spec args ctx = Ok None <-> ok tc spec args ctx) /\
    forall d, r tc spec args ctx = Ok (Some d) -> pd_action d <> PolicyAction.ALLOW.

Definition network_ok (tc : ToolCall) (spec : ToolSpec) (args : parsed_args) (ctx : PolicyContext) : Prop :=
  permission_scope tc ∈ NETWORK_SCOPES -> exists url normalized, extract_url args = Some url /\
    url_fragment url = Ok "" /\
    validate_and_normalize_url url
      (if (permission_scope tc =? Scope.NET_HTTP)%string then Some (http_allowed_domains ctx) else None) = Ok normalized /\
    (permission_scope tc = Scope.WEBHOOK_EMIT ->
      webhook_target_matches_allowlist normalized (webhook_allowed_targets ctx) = Ok true).

Definition workspace_ok (tc : ToolCall) (spec : ToolSpec) (args : parsed_args) (ctx : PolicyContext) : Prop :=
  permission_scope tc ∈ FILESYSTEM_SCOPES ->
    forall field path, (field, path) ∈ iter_candidate_paths args ->
    exists resolved, resolve_path_in_workspace path (workspace_root ctx) = Ok resolved.

Definition no_approval_needed (tc : ToolCall) (spec : ToolSpec) (args : parsed_args) (ctx : PolicyContext) : Prop :=
  permission_scope tc ∉ approval_required_scopes ctx /\
  (forall url, extract_url args = Some url -> exists host, url_hostname url = Ok host /\
    forall h, host = Some h -> h = "" \/ hostname_matches_allowlist h (approval_required_domains ctx) = Ok false) /\
  (forall k, k ∈ approval_required_payload_keywords ctx -> contains k (lower (dump_text args)) = false) /\
  ~ (profile ctx = "prod" /\ mf_side_effects (ts_manifest spec) = true /\ dry_run ctx = false).

(** An answer made by [deny_with] or [approval_with] is one, and not [ALLOW]. *)
Ltac answers :=
  repeat match goal with
  | |- _ <-> _ => split
  | |- _ /\ _ => split
  | |- forall _, _ = Ok _ -> _ => intros
  | |- _ = Ok None -> _ => intro
  | E : deny_with _ _ _ _ = Ok _ |- _ => apply deny_with_action in E as (? & [= ->] & ?)
  | E : approval_with _ _ _ _ = Ok _ |- _ => apply approval_with_action in E as (? & [= ->] & ?)
  end; try congruence.

Lemma scope_matches_guards : guards_call ScopeMatchesManifestRule
  (fun tc spec _ _ => mf_permission_scope (ts_manifest spec) = permission_scope tc).
Proof.
  intros tc spec args ctx. unfold ScopeMatchesManifestRule.
  destruct (String.eqb_spec (mf_permission_scope (ts_manifest spec)) (permission_scope tc)); [by split|answers].
Qed.

Lemma scope_enabled_guards : guards_call ScopeEnabledRule (fun tc _ _ ctx => permission_scope tc ∈ enabled_scopes ctx).
Proof.
  intros tc spec args ctx. unfold ScopeEnabledRule, is_scope_enabled.
  case_bool_decide; [by split|answers; done].
Qed.

Lemma check_paths_spec tc spec root paths :
  (check_paths tc spec root paths = Ok None <->
     forall field path, (field, path) ∈ paths -> exists r, resolve_path_in_workspace path root = Ok r) /\
  forall d, check_paths tc spec root paths = Ok (Some d) -> pd_action d <> PolicyAction.ALLOW.
Proof.
  induction paths as [|[f p] paths [IH1 IH2]]; cbn [check_paths].
  - split; [split; [by intros _ f p ?%elem_of_nil|done]|done].
  - destruct (resolve_path_in_workspace p root) as [r|e] eqn:E.
    + split; [|done]. rewrite IH1. split; intros Hp f' p'; [|intros ?; apply (Hp f'); by apply elem_of_cons; right].
      intros [[= -> ->]|Hin]%elem_of_cons; [by exists r|by apply (Hp f')].
    + assert (~ forall field path, (field, path) ∈ (f, p) :: paths -> exists r, resolve_path_in_workspace path root = Ok r).
      { intros Hp. destruct (Hp f p) as [r Hr]; [by apply elem_of_cons; left|congruence]. }
      destruct e; answers; done.
Qed.

Lemma workspace_guards : guards_call WorkspaceRule workspace_ok.
Proof.
  intros tc spec args ctx. unfold WorkspaceRule, workspace_ok. case_bool_decide; cbn [negb]; [|by split].
  destruct (check_paths_spec tc spec (workspace_root ctx) (iter_candidate_paths args)) as [E1 E2].
  split; [|done]. rewrite E1. split; [by intros ? _|intros Hp; by apply Hp].
Qed.

Lemma is_empty_false s : is_empty s = false <-> s <> "".
Proof. rewrite <- is_empty_spec. by destruct (is_empty s). Qed.

Lemma network_guards : guards_call NetworkAllowlistRule network_ok.
Proof.
  intros tc spec args ctx. unfold NetworkAllowlistRule, network_ok. case_bool_decide as Hn; cbn [negb]; [|by split].
  destruct (extract_url args) as [url|]; [|answers; intros Hok; by destruct (Hok Hn) as (? & ? & ? & _)].
  destruct (url_fragment url) as [frag|e] eqn:Ef; cbn [mbind res_bind];
    [|split; [split; [done|]|done]; intros Hok; destruct (Hok Hn) as (? & ? & [= <-] & ? & _); congruence].
  destruct (is_empty frag) eqn:Eem; cbn [negb];
    [|answers; intros Hok; destruct (Hok Hn) as (? & ? & [= <-] & ? & _); apply is_empty_false in Eem; congruence].
  apply is_empty_spec in Eem as ->.
  destruct (validate_and_normalize_url url _) as [n|e] eqn:Ev.
  - destruct (String.eqb_spec (permission_scope tc) Scope.WEBHOOK_EMIT) as [Ew|Ew]; cbn [mbind res_bind negb].
    + destruct (webhook_target_matches_allowlist n (webhook_allowed_targets ctx)) as [[]|] eqn:Em; cbn [mbind res_bind negb];
        [| |split; [split; [done|]|done]; intros Hok; destruct (Hok Hn) as (? & n' & [= <-] & _ & Hv & Hw); specialize (Hw Ew); congruence].
      * split; [|done]. split; [|done]. intros _ _. by exists url, n.
      * assert (~ (permission_scope tc ∈ NETWORK_SCOPES -> exists url0 normalized, Some url = Some url0 /\
          url_fragment url0 = Ok "" /\ validate_and_normalize_url url0
            (if (permission_scope tc =? Scope.NET_HTTP)%string then Some (http_allowed_domains ctx) else None) = Ok normalized /\
          (permission_scope tc = Scope.WEBHOOK_EMIT ->
            webhook_target_matches_allowlist normalized (webhook_allowed_targets ctx) = Ok true))).
        { intros Hok. destruct (Hok Hn) as (? & n' & [= <-] & _ & Hv & Hw). specialize (Hw Ew). congruence. }
        destruct (url_hostname n); cbn [mbind res_bind]; answers; done.
    + split; [|done]. split; [|done]. intros _ _. exists url, n. by split_and!.
  - assert (forall n, validate_and_normalize_url url (if (permission_scope tc =? Scope.NET_HTTP)%string
      then Some (http_allowed_domains ctx) else None) <> Ok n) as Hne by congruence.
    destruct e; try destruct (url_hostname url); cbn [mbind res_bind]; answers; try done;
      intros Hok; destruct (Hok Hn) as (? & n' & [= <-] & _ & Hv & _); by apply Hne in Hv.
Qed.

Lemma domain_spec args ctx : domain_requires_approval args ctx = Ok None <->
  forall url, extract_url args = Some url -> exists host, url_hostname url = Ok host /\
    forall h, host = Some h -> h = "" \/ hostname_matches_allowlist h (approval_required_domains ctx) = Ok false.
Proof.
  unfold domain_requires_approval. destruct (extract_url args) as [url|]; [|by split].
  destruct (url_hostname url) as [host|e] eqn:E; cbn [mbind res_bind];
    [|split; [done|]; intros Hh; destruct (Hh url eq_refl) as (? & ? & _); congruence].
  assert ((match host with
    | Some h => if is_empty h then Ok None
                else found ← hostname_matches_allowlist h (approval_required_domains ctx); Ok (if found : bool then Some h else None)
    | None => Ok None end = Ok None) <->
    forall h, host = Some h -> h = "" \/ hostname_matches_allowlist h (approval_required_domains ctx) = Ok false) as Hhost.
  { destruct host as [h|]; [|done]. destruct (is_empty h) eqn:Eh.
    - apply is_empty_spec in Eh. split; [|done]. intros _ h' [= <-]. by left.
    - apply is_empty_false in Eh. destruct (hostname_matches_allowlist h _) as [[]|] eqn:Em; cbn; split; try done;
        try (intros Hh; destruct (Hh h eq_refl); congruence).
      intros _ h' [= <-]. by right. }
  rewrite Hhost. split; [by intros Hh ? [= <-]; exists host|].
  intros Hh. destruct (Hh url eq_refl) as (host' & E' & Hh'). by assert (host' = host) as -> by congruence.
Qed.

Lemma matching_keyword_spec args ctx : matching_keyword args ctx = None <->
  forall k, k ∈ approval_required_payload_keywords ctx -> contains k (lower (dump_text args)) = false.
Proof.
  unfold matching_keyword. induction (approval_required_payload_keywords ctx) as [|k ks IH]; cbn.
  - split; [by intros _ k ?%elem_of_nil|done].
  - destruct (contains k (lower (dump_text args))) eqn:E.
    + split; [done|]. intros Hk. specialize (Hk k). rewrite E in Hk. by discriminate Hk; apply elem_of_cons; left.
    + rewrite IH. split; intros Hk k'; [|by intros ?; apply Hk, elem_of_cons; right].
      intros [->|?]%elem_of_cons; auto.
Qed.

Lemma approval_guards : guards_call ApprovalRequiredRule no_approval_needed.
Proof.
  intros tc spec args ctx. unfold ApprovalRequiredRule, no_approval_needed, requires_scope_approval.
  case_bool_decide as Hs; [answers; tauto|]. rewrite <- domain_spec, <- matching_keyword_spec.
  destruct (domain_requires_approval args ctx) as [[h|]|e]; cbn [mbind res_bind];
    [answers; intros (_ & ? & _); congruence| |split; [split; [done|]|done]; intros (_ & ? & _); congruence].
  destruct (matching_keyword args ctx); [answers; intros (_ & _ & ? & _); congruence|].
  destruct (String.eqb_spec (profile ctx) "prod"), (mf_side_effects (ts_manifest spec)), (dry_run ctx); cbn [andb negb];
    try (split; [|done]; split; [intros _; split_and!; try done; naive_solver|done]).
  answers. intros (_ & _ & _ & Hn). by destruct Hn.
Qed.

(** What the default rules demand of a call. *)
Record call_allowed (tc : ToolCall) (spec : ToolSpec) (args : parsed_args) (ctx : PolicyContext) : Prop := {
  ca_scope : mf_permission_scope (ts_manifest spec) = permission_scope tc;
  ca_enabled : permission_scope tc ∈ enabled_scopes ctx;
  ca_network : network_ok tc spec args ctx;
  ca_workspace : workspace_ok tc spec args ctx;
  ca_approval : no_approval_needed tc spec args ctx;
}.

Lemma default_rules_allow tc spec args ctx d :
  gate_evaluate build_default_policy_rules tc spec args ctx = Ok d ->
  (pd_action d = PolicyAction.ALLOW <-> call_allowed tc spec args ctx).
Proof.
  unfold gate_evaluate. intros ([d' trace] & E & [= ->])%res_bind_Ok.
  apply gate_allows in E; [|..|done].
  - rewrite E. cbn. rewrite !Forall_cons, Forall_nil.
    rewrite (proj1 (scope_matches_guards tc spec args ctx)), (proj1 (scope_enabled_guards tc spec args ctx)),
      (proj1 (network_guards tc spec args ctx)), (proj1 (workspace_guards tc spec args ctx)),
      (proj1 (approval_guards tc spec args ctx)).
    split; [by intros (_ & ? & ? & ? & ? & ? & _)|]. by intros [].
  - intros r o Hr Eo. cbn in Hr. revert Eo.
    repeat (apply elem_of_cons in Hr as [-> | Hr]); [..|by apply elem_of_nil in Hr].
    + apply scope_matches_guards.
    + apply scope_enabled_guards.
    + apply network_guards.
    + apply workspace_guards.
    + apply approval_guards.
Qed.
End default_gate.

(** ** Properties *)

(** the gate over any rules that answer: its decision is the first denial
    in rule order if there is one, otherwise the first request for approval,
    otherwise [allow]; its trace is the answers of the rules up to and
    including the first denial, the rules after which are not evaluated. *)
Theorem gate_precedence {R} (eval : R -> res (option PolicyDecision)) rules ds :
  Forall2 (fun r o => eval r.2 = Ok o) rules ds ->
  exists trace, evaluate_with_trace eval rules None [] = Ok (precedence None ds, trace) /\
    map te_decision trace = until_deny ds.
Proof. intros H. destruct (evaluate_with_trace_eq eval rules ds None [] H) as (t & E & Em). by exists t. Qed.

(** C16: the default gate allows a call exactly if its scope is the one of the
    tool's manifest and is enabled; if it is a network scope, the URL in the
    arguments has no fragment, passes the SSRF and allowlist validation, and is
    an allowlisted webhook target when the scope is [webhook.emit]; if it is a
    filesystem scope, every path in the arguments resolves inside the
    workspace; and neither its scope, nor its host, nor its payload, nor a
    side effect in production asks for approval. *)
Theorem default_gate_allows `{Checks} tc spec args ctx d :
  gate_evaluate build_default_policy_rules tc spec args ctx = Ok d ->
  (pd_action d = PolicyAction.ALLOW <-> call_allowed tc spec args ctx).
Proof. apply default_rules_allow. Qed.

(** ** Witnesses *)
Definition approval_answer : PolicyDecision :=
  mkPolicyDecision PolicyAction.REQUIRE_APPROVAL "approval_required" None (Some "a") [].
Definition deny_answer : PolicyDecision := mkPolicyDecision PolicyAction.DENY "scope_disabled" None (Some "b") [].

(** A request for approval, then a denial: the denial wins, the last rule is not asked. *)
Lemma gate_precedence_witness : exists trace,
  evaluate_with_trace Ok [("a", Some approval_answer); ("b", Some deny_answer); ("c", None)] None [] = Ok (deny_answer, trace) /\
  length trace = 2%nat.
Proof.
  destruct (gate_precedence Ok [("a", Some approval_answer); ("b", Some deny_answer); ("c", None)]
    [Some approval_answer; Some deny_answer; None]) as (trace & E & Em).
  - repeat constructor.
  - exists trace. split; [exact E|]. apply (f_equal length) in Em. rewrite length_map in Em. exact Em.
Defined.

(** A world in which every path below [/ws] resolves and no URL is valid. *)
Definition sample_checks : Checks := {|
  url_hostname := fun _ => Ok (Some "example.com");
  url_fragment := fun _ => Ok "";
  validate_and_normalize_url := fun _ _ => Raise (ValueError "url must use https");
  hostname_matches_allowlist := fun h l => Ok (bool_decide (h ∈ l));
  webhook_target_matches_allowlist := fun u l => Ok (bool_decide (u ∈ l));
  resolve_path_in_workspace := fun p root => Ok (root +:+ "/" +:+ p);
  dump_text := fun _ => "{}";
|}.

Definition read_manifest : ToolManifest :=
  mkToolManifest "1.0" "fs.read_text" "1" "Read a file" "fs.read" false true 60 64000 [] None None.
Definition read_spec : ToolSpec := mkToolSpec "fs.read_text" read_manifest.
Definition read_call : ToolCall :=
  {| tool_call_id := "00000000-0000-4000-8000-000000000001"; tool_name := "fs.read_text"; args := [("path", JStr "a.txt")];
     permission_scope := "fs.read"; idempotency_key := "k"; tc_status := ToolCallStatus.PENDING;
     tc_created_at_ms := 0; tc_started_at_ms := None; tc_completed_at_ms := None; result_ref := None |}.
Definition sample_ctx : PolicyContext := mkPolicyContext "prod" false ["fs.read"] ["fs.write"] [] [] [] [] "/ws".

Lemma default_gate_allows_witness : exists d,
  @gate_evaluate (@build_default_policy_rules sample_checks) read_call read_spec [("path", AStr "a.txt")] sample_ctx = Ok d /\
  @call_allowed sample_checks read_call read_spec [("path", AStr "a.txt")] sample_ctx.
Proof.
  exists policy_ok. split; [vm_compute; reflexivity|].
  apply (@default_gate_allows sample_checks _ _ _ _ policy_ok); vm_compute; reflexivity.
Defined.
