(* ===== verification/Guards.v ===== *)
(** * Execution guards: [guards/chain.py], [policy_guard.py],
    [rate_limit/guard.py], [circuit_breaker/guard.py]

    A guard is a stateful check that answers a [GuardDecision]; [GuardChain]
    asks its guards in order and lets the most severe answer win. The file
    models the chain over any guards, the three guards of the default chain on
    the state they share, and the default chain itself. The results: the
    precedence of the chain, what the default chain guarantees of a call it
    lets pass, and how it can take a probe permit for a call that does not
    run. *)

From Stdlib Require Import ZArith SpecFloat Lia.
From S2P Require Import Prelude PyFloat Models RateLimit CircuitBreaker Decision Policy.

(** ** [context.py] *)
Record GuardContext := mkGuardContext {
  gc_policy : PolicyContext;
  gc_now_ms : Z;
  gc_emit_metrics : bool;
  gc_approval_status : option ApprovalStatus.t;
  gc_run_id : option string;
}.

(** ** [interface.py] and [chain.py] *)
Definition guard (S : Type) := ToolCall -> ToolSpec -> parsed_args -> GuardContext -> st S GuardDecision.

Definition ACTION_RANK (a : GuardAction.t) : Z :=
  match a with
  | GuardAction.ALLOW => 0
  | GuardAction.DELAY => 1
  | GuardAction.REQUIRE_APPROVAL => 2
  | GuardAction.DENY => 3
  end.

Section chain.
Context {S : Type}.

Fixpoint check_guards (guards : list (st S GuardDecision)) (best : GuardDecision) (best_rank : Z)
  : st S GuardDecision :=
  match guards with
  | [] => mret best
  | g :: rest =>
      decision ← g;
      let rank := ACTION_RANK (gd_action decision) in
      if bool_decide (gd_action decision = GuardAction.DENY) then mret decision
      else if best_rank <? rank then check_guards rest decision rank
      else check_guards rest best best_rank
  end.

(** [GuardChain.check] *)
Definition chain_check (guards : list (guard S)) (tc : ToolCall) (spec : ToolSpec) (args : parsed_args)
    (ctx : GuardContext) : st S GuardDecision :=
  best ← lift (GuardDecision_allow "ok" None None []);
  check_guards (map (fun g => g tc spec args ctx) guards) best (ACTION_RANK (gd_action best)).
End chain.

(** ** [policy_guard.py] *)
Definition guard_action (a : PolicyAction.t) : GuardAction.t :=
  match a with
  | PolicyAction.ALLOW => GuardAction.ALLOW
  | PolicyAction.DENY => GuardAction.DENY
  | PolicyAction.REQUIRE_APPROVAL => GuardAction.REQUIRE_APPROVAL
  end.

Definition opt_str (o : option string) : json := match o with Some s => JStr s | None => JNull end.

(** The guard's answer to a decision of the gate. *)
Definition policy_guard_decision (d : PolicyDecision) (approval_status : option ApprovalStatus.t) : res GuardDecision :=
  if bool_decide (pd_action d = PolicyAction.REQUIRE_APPROVAL) &&
     bool_decide (approval_status = Some ApprovalStatus.APPROVED)
  then GuardDecision_allow "approved_override" (Some "approval approved") (Some "guard.policy")
         (aset "required_rule_id" (opt_str (pd_rule_id d))
            (aset "required_reason_code" (JStr (pd_reason_code d)) (pd_metadata d)))
  else GuardDecision_new (guard_action (pd_action d)) (pd_reason_code d) (pd_message d) (pd_rule_id d) (pd_metadata d).

Definition PolicyGuard_check {S} (rules : list (string * rule)) : guard S := fun tc spec args ctx =>
  lift (d ← gate_evaluate rules tc spec args (gc_policy ctx);
        policy_guard_decision d (gc_approval_status ctx)).

(** [float(ctx.now_ms) / 1000.0] *)
Definition seconds_of_ms (now_ms : Z) : res spec_float :=
  x ← float_of_int now_ms; Ok (fdiv x (of_Z 1000)).

(** ** [rate_limit/guard.py] *)
Section rate_limit_guard.
Context {L : Type} `{RateLimiter L}.
(** [_extract_destination_hostname] of the parsed arguments *)
Variable destination : parsed_args -> option string.

Definition rate_limit_decision (result : RateLimitResult) : res GuardDecision :=
  if RateLimit.allowed result then Ok allow_ok
  else match RateLimit.retry_after_s result with
  | None =>
      GuardDecision_deny "rate_limit_unsatisfiable"
        (Some "rate limit would never allow this request (check capacity/refill/cost)") (Some "guard.rate_limit") []
  | Some retry =>
      GuardDecision_delay (fmax fzero retry) "rate_limited" (Some "rate limited") (Some "guard.rate_limit") []
  end.

Definition RateLimitGuard_new (cost : spec_float) : res spec_float :=
  raise_if (negative_or_not_finite cost) (ValueError "cost must be finite and >= 0");; Ok cost.

Definition RateLimitGuard_check (cfg : rate_settings) (cost : spec_float) : guard L := fun tc spec args ctx =>
  if negb (rate_limits_enabled cfg) then mret allow_ok
  else
    now_s ← lift (seconds_of_ms (gc_now_ms ctx));
    result ← policy_consume cfg (tool_name tc) (destination args) (gc_run_id ctx) cost now_s;
    lift (rate_limit_decision result).
End rate_limit_guard.

(** ** [circuit_breaker/guard.py] *)
Section circuit_breaker_guard.
Context `{Checks}.
(** [extract_destination_hostname(extract_url_like_value(parsed_args))] *)
Variable destination : parsed_args -> option string.

(** Whether policy still asks for an approval, so that the call cannot run yet. *)
Definition still_needs_approval (tc : ToolCall) (spec : ToolSpec) (args : parsed_args) (ctx : GuardContext) : res bool :=
  let policy := gc_policy ctx in
  if negb (bool_decide (gc_approval_status ctx = Some ApprovalStatus.APPROVED)) &&
     (negb (bool_decide (approval_required_scopes policy = [])) ||
      negb (bool_decide (approval_required_domains policy = [])) ||
      negb (bool_decide (approval_required_payload_keywords policy = [])) ||
      ((profile policy =? "prod")%string && mf_side_effects (ts_manifest spec) && negb (dry_run policy)))
  then d ← ApprovalRequiredRule tc spec args policy; Ok (is_set d)
  else Ok false.

Definition circuit_state_value (s : CircuitBreaker.CircuitState) : string :=
  match s with
  | CircuitBreaker.CLOSED => "closed" | CircuitBreaker.OPEN => "open" | CircuitBreaker.HALF_OPEN => "half_open"
  end.

Definition circuit_key_entry (key : CircuitBreaker.CircuitBreakerKey) : string * json :=
  ("circuit_key", JObj [("tool_name", opt_str (CircuitBreaker.k_tool_name key));
                        ("destination", opt_str (CircuitBreaker.k_destination key))]).

Definition circuit_decision (throttle_delay_s : spec_float) (key : CircuitBreaker.CircuitBreakerKey)
    (d : CircuitBreaker.CircuitBreakerDecision) : res GuardDecision :=
  let state := circuit_state_value (CircuitBreaker.state d) in
  if CircuitBreaker.allowed d
  then GuardDecision_allow "ok" None (Some "guard.circuit_breaker")
         [("circuit_state", JStr state); circuit_key_entry key]
  else
    let delay := match CircuitBreaker.retry_after_s d with None => fzero | Some r => fmax fzero r end in
    let delay := if (state =? "half_open")%string && fle delay fzero then throttle_delay_s else delay in
    GuardDecision_delay delay (if (state =? "open")%string then "circuit_open" else "circuit_half_open")
      (Some "circuit breaker blocked execution") (Some "guard.circuit_breaker")
      [("circuit_state", JStr state);
       ("circuit_retry_after_s", match CircuitBreaker.retry_after_s d with None => JNull | Some r => JFloat r end);
       circuit_key_entry key].

Definition CircuitBreakerGuard_new (half_open_throttle_delay_s : spec_float) : res spec_float :=
  raise_if (negative_or_not_finite half_open_throttle_delay_s)
    (ValueError "half_open_throttle_delay_s must be finite and >= 0");; Ok half_open_throttle_delay_s.

Definition CircuitBreakerGuard_check (throttle_delay_s : spec_float) : guard CircuitBreaker.t := fun tc spec args ctx =>
  waits ← lift (still_needs_approval tc spec args ctx);
  if (waits : bool) then mret allow_ok
  else
    key ← lift (CircuitBreaker.key_for_tool_call (tool_name tc) (destination args));
    now_s ← lift (seconds_of_ms (gc_now_ms ctx));
    d ← CircuitBreaker.allow_call key now_s;
    lift (circuit_decision throttle_delay_s key d).
End circuit_breaker_guard.

(** ** [defaults.py]: the default chain *)

(** The state its guards keep. *)
Record guard_state := mkGuardState { gs_breaker : CircuitBreaker.t; gs_limiter : InMemoryRateLimiter }.

Definition on_breaker (g : guard CircuitBreaker.t) : guard guard_state := fun tc spec args ctx s =>
  let '(r, b) := g tc spec args ctx (gs_breaker s) in (r, mkGuardState b (gs_limiter s)).
Definition on_limiter (g : guard InMemoryRateLimiter) : guard guard_state := fun tc spec args ctx s =>
  let '(r, l) := g tc spec args ctx (gs_limiter s) in (r, mkGuardState (gs_breaker s) l).

(** The chain with a circuit breaker; the destination is that of both resolvers. *)
Definition build_default_policy_guard_chain `{Checks} (destination : parsed_args -> option string) (cfg : rate_settings)
  : list (guard guard_state) :=
  [PolicyGuard_check build_default_policy_rules;
   on_breaker (CircuitBreakerGuard_check destination (lit 1 10));
   on_limiter (RateLimitGuard_check destination cfg (of_Z 1))].

(** ** The chain *)
Section precedence.
Context {S : Type}.

(** The guards asked on a state, up to the first denial, and their answers. *)
Inductive asked : list (st S GuardDecision) -> S -> list GuardDecision -> S -> Prop :=
| asked_nil s : asked [] s [] s
| asked_deny g rest s d s' :
    g s = (Ok d, s') -> gd_action d = GuardAction.DENY -> asked (g :: rest) s [d] s'
| asked_cons g rest s d s' ds s'' :
    g s = (Ok d, s') -> gd_action d <> GuardAction.DENY -> asked rest s' ds s'' -> asked (g :: rest) s (d :: ds) s''.

(** [d] is the first of [ds] that no other exceeds in rank. *)
Definition first_strongest (d : GuardDecision) (ds : list GuardDecision) : Prop :=
  exists pre post, ds = (pre ++ d :: post)%list /\
    Forall (fun x => ACTION_RANK (gd_action x) < ACTION_RANK (gd_action d)) pre /\
    Forall (fun x => ACTION_RANK (gd_action x) <= ACTION_RANK (gd_action d)) post.

Lemma ACTION_RANK_deny a : a <> GuardAction.DENY <-> ACTION_RANK a < ACTION_RANK GuardAction.DENY.
Proof. by destruct a. Qed.

Lemma check_guards_asked guards s ds s' best : asked guards s ds s' -> gd_action best <> GuardAction.DENY ->
  exists d, check_guards guards best (ACTION_RANK (gd_action best)) s = (Ok d, s') /\ first_strongest d (best :: ds).
Proof.
  intros Ha. revert best. induction Ha as [s|g rest s d s' E Hd|g rest s d s' ds s'' E Hd _ IH]; intros best Hb.
  - exists best. split; [done|]. by exists [], [].
  - exists d. cbn [check_guards]. unfold mbind, st_bind. rewrite E, bool_decide_true by done.
    split; [done|]. exists [best], []. split; [done|]. split; [|done].
    constructor; [|done]. rewrite Hd. by apply ACTION_RANK_deny.
  - cbn [check_guards]. unfold mbind, st_bind. rewrite E, bool_decide_false by done.
    destruct (Z.ltb_spec (ACTION_RANK (gd_action best)) (ACTION_RANK (gd_action d))) as [Hlt|Hle].
    + destruct (IH d Hd) as (w & Ew & pre & post & El & Hpre & Hpost). exists w. split; [done|].
      exists (best :: pre), post. split; [by rewrite El|]. split; [|done]. constructor; [|done].
      destruct pre as [|x pre]; cbn in El; injection El as -> El; [done|].
      apply Forall_cons in Hpre as [? _]. lia.
    + destruct (IH best Hb) as (w & Ew & pre & post & El & Hpre & Hpost). exists w. split; [done|].
      destruct pre as [|x pre]; cbn in El; injection El as -> El.
      * exists [], (d :: ds). split; [done|]. split; [done|]. constructor; [done|by rewrite El].
      * exists (x :: d :: pre), post. split; [by rewrite El|]. apply Forall_cons in Hpre as [Hx Hpre].
        split; [|done]. constructor; [done|]. constructor; [lia|done].
Qed.

(** A chain that answers has asked its guards. *)
Lemma check_guards_inv guards s best rank d s' : check_guards guards best rank s = (Ok d, s') ->
  exists ds, asked guards s ds s'.
Proof.
  revert s best rank. induction guards as [|g guards IH]; intros s best rank E.
  - cbn in E. injection E as -> ->. exists []. constructor.
  - cbn [check_guards] in E. apply st_bind_Ok in E as (x & s1 & Eg & E).
    destruct (decide (gd_action x = GuardAction.DENY)) as [Hd|Hd].
    + rewrite bool_decide_true in E by done. injection E as -> ->. exists [d]. by constructor.
    + rewrite bool_decide_false in E by done.
      destruct (rank <? ACTION_RANK (gd_action x)); apply IH in E as [ds Ha]; exists (x :: ds); by econstructor.
Qed.
End precedence.

Lemma first_strongest_unique d d' ds : first_strongest d ds -> first_strongest d' ds -> d = d'.
Proof.
  intros (p1 & q1 & -> & P1 & Q1) (p2 & q2 & E & P2 & Q2).
  revert p2 E P2. induction p1 as [|x p1 IH]; intros [|y p2] E P2; cbn in E; injection E as E1 E2; [done| | |].
  - subst y. apply Forall_cons in P2 as [P2 _]. rewrite E2, Forall_app, Forall_cons in Q1. lia.
  - subst d'. apply Forall_cons in P1 as [P1 _]. rewrite <- E2, Forall_app, Forall_cons in Q2. lia.
  - apply Forall_cons in P1 as [_ P1], P2 as [_ P2]. by apply (IH P1 p2).
Qed.

(** ** The default chain *)
Lemma policy_guard_spec d st g : policy_guard_decision d st = Ok g ->
  (gd_action g = GuardAction.ALLOW <-> pd_action d = PolicyAction.ALLOW \/
     pd_action d = PolicyAction.REQUIRE_APPROVAL /\ st = Some ApprovalStatus.APPROVED).
Proof.
  unfold policy_guard_decision. case_bool_decide as H1; [case_bool_decide as H2|]; cbn [andb]; intros E;
    apply GuardDecision_new_ok in E as [-> _]; cbn [gd_action].
  - rewrite H1. split; [by right|done].
  - rewrite H1. split; [done|]. by intros [|[]].
  - destruct (pd_action d); cbn; split; try done; [by left|by intros [|[]]].
Qed.

Lemma first_strongest_allow d ds : first_strongest d ds -> gd_action d = GuardAction.ALLOW ->
  Forall (fun x => gd_action x = GuardAction.ALLOW) ds.
Proof.
  intros (pre & post & -> & Hpre & Hpost) Hd. rewrite Hd in *. apply Forall_app. split; [|constructor; [done|]].
  - eapply Forall_impl; [exact Hpre|]. intros x Hx. cbn beta in Hx. destruct (gd_action x); cbn in Hx; first [done|exfalso; lia].
  - eapply Forall_impl; [exact Hpost|]. intros x Hx. cbn beta in Hx. destruct (gd_action x); cbn in Hx; first [done|exfalso; lia].
Qed.

(** ** Properties *)

(** a guard chain answers with the first of its guards' answers of the
    highest rank (DENY over REQUIRE_APPROVAL over DELAY over ALLOW, and a plain
    ALLOW for no guards); it asks the guards in order, each on the state the
    previous one left, and stops at the first DENY only: guards after a DELAY
    or REQUIRE_APPROVAL are still asked. *)
Theorem chain_precedence {S} (guards : list (guard S)) tc spec args ctx s d s' :
  chain_check guards tc spec args ctx s = (Ok d, s') <->
  exists ds, asked (map (fun g => g tc spec args ctx) guards) s ds s' /\ first_strongest d (allow_ok :: ds).
Proof.
  unfold chain_check. change (lift (GuardDecision_allow "ok" None None [])) with (lift (S := S) (Ok allow_ok)).
  change ((best ← lift (Ok allow_ok); check_guards (map (fun g => g tc spec args ctx) guards) best
    (ACTION_RANK (gd_action best))) s) with (check_guards (map (fun g => g tc spec args ctx) guards) allow_ok 0 s).
  assert (forall ds s1, asked (map (fun g => g tc spec args ctx) guards) s ds s1 -> exists d,
    check_guards (map (fun g => g tc spec args ctx) guards) allow_ok 0 s = (Ok d, s1) /\ first_strongest d (allow_ok :: ds))
    as Hask by (intros; by apply (check_guards_asked _ _ _ _ allow_ok)).
  split.
  - intros E. destruct (check_guards_inv _ _ _ _ _ _ E) as [ds Ha]. exists ds. split; [done|].
    destruct (Hask ds s' Ha) as (d' & E' & H). congruence.
  - intros (ds & Ha & Hf). destruct (Hask ds s' Ha) as (d' & E' & H). rewrite E'. f_equal. f_equal.
    by eapply first_strongest_unique.
Qed.

Lemma asked_three {S} (g1 g2 g3 : st S GuardDecision) s ds s' : asked [g1; g2; g3] s ds s' ->
  Forall (fun x => gd_action x = GuardAction.ALLOW) ds ->
  exists d1 d2 d3 s1 s2, g1 s = (Ok d1, s1) /\ g2 s1 = (Ok d2, s2) /\ g3 s2 = (Ok d3, s') /\
    gd_action d1 = GuardAction.ALLOW /\ gd_action d2 = GuardAction.ALLOW /\ gd_action d3 = GuardAction.ALLOW.
Proof.
  intros Ha Hds.
  do 3 (inversion Ha as [|? ? ? ? ? ? Hx|? ? ? ? ? ? ? ? ? Ha']; subst; clear Ha;
    [apply Forall_cons in Hds as [Hc _]; congruence|]; apply Forall_cons in Hds as [? Hds]; rename Ha' into Ha).
  inversion Ha; subst. repeat eexists; eauto.
Qed.

Lemma on_breaker_Ok g tc spec args ctx s d s' : on_breaker g tc spec args ctx s = (Ok d, s') ->
  g tc spec args ctx (gs_breaker s) = (Ok d, gs_breaker s') /\ gs_limiter s' = gs_limiter s.
Proof. unfold on_breaker. destruct (g tc spec args ctx (gs_breaker s)). by intros [= -> <-]. Qed.

Lemma on_limiter_Ok g tc spec args ctx s d s' : on_limiter g tc spec args ctx s = (Ok d, s') ->
  g tc spec args ctx (gs_limiter s) = (Ok d, gs_limiter s') /\ gs_breaker s' = gs_breaker s.
Proof. unfold on_limiter. destruct (g tc spec args ctx (gs_limiter s)). by intros [= -> <-]. Qed.

Lemma lift_Ok {S A} (m : res A) (s : S) a s' : lift m s = (Ok a, s') <-> m = Ok a /\ s' = s.
Proof. unfold lift. split; [by intros [= -> ->]|by intros [-> ->]]. Qed.

Section default_chain.
Context `{Checks} (destination : parsed_args -> option string).

(** The gate does not allow a call that still waits for its approval. *)
Lemma still_needs_approval_true tc spec args ctx : still_needs_approval tc spec args ctx = Ok true ->
  gc_approval_status ctx <> Some ApprovalStatus.APPROVED /\ ~ call_allowed tc spec args (gc_policy ctx).
Proof.
  unfold still_needs_approval. case_bool_decide as Ha; [done|]. cbn [negb andb].
  destruct (_ || _ || _ || _); [|done]. intros (o & E & Ho)%res_bind_Ok. split; [done|].
  intros [_ _ _ _ Hn]. apply (proj1 (approval_guards tc spec args (gc_policy ctx))) in Hn.
  rewrite E in Hn. by injection Hn as ->.
Qed.

Lemma breaker_guard_allow throttle tc spec args ctx b d b' :
  CircuitBreakerGuard_check destination throttle tc spec args ctx b = (Ok d, b') -> gd_action d = GuardAction.ALLOW ->
  still_needs_approval tc spec args ctx = Ok true \/
  exists key now dec, CircuitBreaker.key_for_tool_call (tool_name tc) (destination args) = Ok key /\
    seconds_of_ms (gc_now_ms ctx) = Ok now /\ CircuitBreaker.allow_call key now b = (Ok dec, b') /\
    CircuitBreaker.allowed dec = true.
Proof.
  unfold CircuitBreakerGuard_check. intros E Hd.
  apply st_bind_Ok in E as (waits & b1 & [Ew ->]%lift_Ok & E). destruct waits; [by left|]. right.
  apply st_bind_Ok in E as (key & b1 & [Ek ->]%lift_Ok & E).
  apply st_bind_Ok in E as (now & b1 & [En ->]%lift_Ok & E).
  apply st_bind_Ok in E as (dec & b1 & Ea & [E ->]%lift_Ok).
  exists key, now, dec. do 3 (split; [done|]). unfold circuit_decision in E.
  destruct (CircuitBreaker.allowed dec); [done|]. unfold GuardDecision_delay in E.
  apply res_bind_Ok in E as (? & _ & E). apply GuardDecision_new_ok in E as [-> _]. done.
Qed.

Lemma rate_guard_allow {L} `{RateLimiter L} cfg cost tc spec args ctx l d l' :
  RateLimitGuard_check destination cfg cost tc spec args ctx l = (Ok d, l') -> gd_action d = GuardAction.ALLOW ->
  rate_limits_enabled cfg = true ->
  exists now r, seconds_of_ms (gc_now_ms ctx) = Ok now /\
    policy_consume cfg (tool_name tc) (destination args) (gc_run_id ctx) cost now l = (Ok r, l') /\
    RateLimit.allowed r = true.
Proof.
  unfold RateLimitGuard_check. intros E Hd He. rewrite He in E. cbn [negb] in E.
  apply st_bind_Ok in E as (now & b1 & [En ->]%lift_Ok & E).
  apply st_bind_Ok in E as (r & b1 & Er & [E ->]%lift_Ok).
  exists now, r. do 2 (split; [done|]). unfold rate_limit_decision in E. destruct (RateLimit.allowed r); [done|].
  destruct (RateLimit.retry_after_s r); unfold GuardDecision_delay in E; res_inv;
    match goal with E : _ = Ok d |- _ => apply GuardDecision_new_ok in E as [-> _] end; done.
Qed.
End default_chain.

(** a call the default chain lets pass was let pass by each guard: the
    policy gate allows it, or asks for an approval that is there; the circuit
    breaker was asked for the call's key and allowed it; and, when rate limits
    are enabled, all its rate limits were charged and allowed it. *)
Theorem default_chain_allows `{Checks} destination cfg tc spec args ctx s d s' :
  chain_check (build_default_policy_guard_chain destination cfg) tc spec args ctx s = (Ok d, s') ->
  gd_action d = GuardAction.ALLOW ->
  (call_allowed tc spec args (gc_policy ctx) \/
    gc_approval_status ctx = Some ApprovalStatus.APPROVED /\
    exists pd, gate_evaluate build_default_policy_rules tc spec args (gc_policy ctx) = Ok pd /\
      pd_action pd = PolicyAction.REQUIRE_APPROVAL) /\
  (exists key now dec, CircuitBreaker.key_for_tool_call (tool_name tc) (destination args) = Ok key /\
    seconds_of_ms (gc_now_ms ctx) = Ok now /\
    CircuitBreaker.allow_call key now (gs_breaker s) = (Ok dec, gs_breaker s') /\ CircuitBreaker.allowed dec = true) /\
  (rate_limits_enabled cfg = true -> exists now r, seconds_of_ms (gc_now_ms ctx) = Ok now /\
    policy_consume cfg (tool_name tc) (destination args) (gc_run_id ctx) (of_Z 1) now (gs_limiter s) =
      (Ok r, gs_limiter s') /\ RateLimit.allowed r = true).
Proof.
  intros E Hd. unfold chain_check in E. apply st_bind_Ok in E as (best & s0 & [Eb ->]%lift_Ok & E).
  rewrite allow_ok_new in Eb. injection Eb as <-.
  destruct (check_guards_inv _ _ _ _ _ _ E) as [ds Ha].
  destruct (check_guards_asked _ _ _ _ allow_ok Ha) as (d' & E' & Hf); [done|].
  change (ACTION_RANK (gd_action allow_ok)) with 0 in E, E'. assert (d' = d) as -> by congruence.
  apply first_strongest_allow in Hf; [|done]. apply Forall_cons in Hf as [_ Hf].
  apply asked_three in Ha as (d1 & d2 & d3 & s1 & s2 & E1 & E2 & E3 & A1 & A2 & A3); [|done].
  apply lift_Ok in E1 as [E1 ->]. apply res_bind_Ok in E1 as (pd & Eg & Ep).
  apply on_breaker_Ok in E2 as [E2 Hl2]. apply on_limiter_Ok in E3 as [E3 Hb3].
  apply (policy_guard_spec pd (gc_approval_status ctx)) in Ep. rewrite Ep, (default_rules_allow _ _ _ _ _ Eg) in A1.
  rewrite Hb3, <- Hl2. split; [|split].
  - destruct A1 as [A1|[A1 A1']]; [by left|]. right. split; [done|]. by exists pd.
  - apply breaker_guard_allow in E2 as [E2|E2]; [|done|done].
    apply still_needs_approval_true in E2 as [Hn1 Hn2]. by destruct A1 as [|[]].
  - intros He. by apply (rate_guard_allow destination) in E3.
Qed.

Lemma GuardDecision_new_intro act rc msg id md : strip rc <> "" -> jsonable (JObj md) = true ->
  validate_delay_shape (mkGuardDecision act (strip rc) (msg ≫= strip_or_none) (id ≫= strip_or_none) md) = Ok tt ->
  GuardDecision_new act rc msg id md = Ok (mkGuardDecision act (strip rc) (msg ≫= strip_or_none) (id ≫= strip_or_none) md).
Proof.
  intros Hrc Hmd Hv. unfold GuardDecision_new, normalize_reason_code, metadata_json_safe.
  apply is_empty_false in Hrc. rewrite Hrc, Hmd.
  assert (forall o, normalize_optional o = Ok (o ≫= strip_or_none)) as Ho by by intros [].
  rewrite !Ho. cbn. unfold after. by rewrite Hv.
Qed.

Lemma rate_limited_decision x : fle fzero x = true -> isfinite x = true ->
  exists d, rate_limit_decision (mkRateLimitResult false (Some x)) = Ok d /\
    gd_action d = GuardAction.DELAY /\ gd_reason_code d = "rate_limited".
Proof.
  intros H0 Hf. unfold rate_limit_decision, GuardDecision_delay. cbn [RateLimit.allowed RateLimit.retry_after_s].
  assert (flt (fmax fzero x) fzero = false /\ isfinite (fmax fzero x) = true) as [H1 H2].
  { unfold fmax. destruct (flt fzero x) eqn:E; [|done]. split; [|done].
    destruct (flt x fzero) eqn:E2; [|done]. apply flt_not_ge in E2. congruence. }
  rewrite H1. cbn [raise_if mbind res_bind]. rewrite GuardDecision_new_intro.
  - by eexists.
  - done.
  - cbn. by rewrite H2.
  - change (raise_if (flt (fmax fzero x) fzero) (ValueError "delay_s metadata must be >= 0") = Ok tt). by rewrite H1.
Qed.

Lemma circuit_allow_decision throttle key st : exists d,
  circuit_decision throttle key (CircuitBreaker.mkDecision true st None) = Ok d /\ gd_action d = GuardAction.ALLOW.
Proof.
  unfold circuit_decision, GuardDecision_allow. cbn [CircuitBreaker.allowed]. rewrite GuardDecision_new_intro; [by eexists|done| |done].
  by destruct key as [[] [] ? ?].
Qed.

(** the default chain can spend a probe permit on a call that does not run.
    When the breaker lets the call pass as a probe of the half-open circuit and
    a rate limit then denies it with a finite delay, the chain answers DELAY
    and the permit stays out; if the specification gives out one permit, as the
    default one does, the circuit is saturated. *)
Theorem chain_wastes_permit `{Checks} destination cfg tc spec args ctx s g1 key now dec b' r x l' :
  CircuitBreaker.breaker_ok (gs_breaker s) -> quantity now ->
  PolicyGuard_check build_default_policy_rules tc spec args ctx s = (Ok g1, s) -> gd_action g1 = GuardAction.ALLOW ->
  still_needs_approval tc spec args ctx = Ok false ->
  CircuitBreaker.key_for_tool_call (tool_name tc) (destination args) = Ok key -> seconds_of_ms (gc_now_ms ctx) = Ok now ->
  CircuitBreaker.allow_call key now (gs_breaker s) = (Ok dec, b') ->
  dec = CircuitBreaker.mkDecision true CircuitBreaker.HALF_OPEN None ->
  rate_limits_enabled cfg = true ->
  policy_consume cfg (tool_name tc) (destination args) (gc_run_id ctx) (of_Z 1) now (gs_limiter s) = (Ok r, l') ->
  r = mkRateLimitResult false (Some x) -> fle fzero x = true -> isfinite x = true ->
  exists d c, chain_check (build_default_policy_guard_chain destination cfg) tc spec args ctx s =
      (Ok d, mkGuardState b' l') /\
    gd_action d = GuardAction.DELAY /\ gd_reason_code d = "rate_limited" /\
    aget key (CircuitBreaker.circuits b') = Some c /\ CircuitBreaker.c_state c = CircuitBreaker.HALF_OPEN /\
    1 <= CircuitBreaker.half_open_in_flight c /\
    (CircuitBreaker.half_open_permit_limit (CircuitBreaker.spec b') = 1 ->
      CircuitBreaker.saturated (CircuitBreaker.spec b') c).
Proof.
  intros Hb Hn E1 A1 Hw Hk Hs Ha -> He Hr -> Hx Hf.
  destruct (circuit_allow_decision (lit 1 10) key CircuitBreaker.HALF_OPEN) as (g2 & Eg2 & A2).
  destruct (rate_limited_decision x Hx Hf) as (g3 & Eg3 & A3 & R3).
  assert (asked (map (fun g => g tc spec args ctx) (build_default_policy_guard_chain destination cfg)) s [g1; g2; g3]
    (mkGuardState b' l')) as Hask.
  { eapply asked_cons; [exact E1|congruence|]. eapply (asked_cons _ _ _ g2 (mkGuardState b' (gs_limiter s))).
    - unfold on_breaker, CircuitBreakerGuard_check, mbind, st_bind, lift. by rewrite Hw, Hk, Hs, Ha, Eg2.
    - congruence.
    - eapply (asked_cons _ _ _ g3 (mkGuardState b' l')); [|congruence|constructor].
      unfold on_limiter, RateLimitGuard_check, mbind, st_bind, lift. cbn [gs_limiter gs_breaker].
      rewrite He, Hs. cbn [negb]. by rewrite Hr, Eg3. }
  destruct (check_guards_asked _ _ _ _ allow_ok Hask) as (d & E & Hd); [done|].
  assert (first_strongest g3 [allow_ok; g1; g2; g3]) as Hg3.
  { exists [allow_ok; g1; g2], []. split; [done|]. split; [|done]. rewrite A3. repeat constructor; [by rewrite A1|by rewrite A2]. }
  apply (first_strongest_unique _ g3) in Hd as ->; [|done].
  destruct (CircuitBreaker.allow_call_spec key now (gs_breaker s) Hb Hn) as (dec & c & b2 & Ea & Hb2 & Hc & _ & Hst).
  rewrite Ha in Ea. injection Ea as <- <-.
  exists g3, c. split; [exact E|]. do 2 (split; [done|]). split; [done|].
  assert (CircuitBreaker.c_state c = CircuitBreaker.HALF_OPEN /\ 1 <= CircuitBreaker.half_open_in_flight c) as [Hc1 Hc2].
  { destruct (CircuitBreaker.lookup_store_ok key now (gs_breaker s) (CircuitBreaker.new_circuit now) Hb)
      as (_ & _ & _ & Hcur & _); [intros; apply CircuitBreaker.new_circuit_ok, Hb|].
    unfold CircuitBreaker.circuit_ok in Hcur. match type of Hcur with context [match CircuitBreaker.c_state ?c with _ => _ end] => destruct (CircuitBreaker.c_state c) eqn:Es end.
    - by destruct Hst.
    - destruct Hst as (t0 & _ & Hst). cbv zeta in Hst. match type of Hst with context [if ?b then _ else _] => destruct b end; [by destruct Hst|].
      destruct Hst as (_ & ? & -> & _). split; [done|lia].
    - match type of Hst with context [if ?b then _ else _] => destruct b end; [|by destruct Hst]. destruct Hst as [_ ->].
      split; [exact Es|]. cbn [CircuitBreaker.set_in_flight CircuitBreaker.half_open_in_flight]. destruct Hcur as (_ & _ & ? & _). lia. }
  do 2 (split; [done|]). intros Hl. split; [done|].
  pose proof (CircuitBreaker.bo_circuits b' Hb2 key c Hc) as Hok. unfold CircuitBreaker.circuit_ok in Hok.
  rewrite Hc1 in Hok. lia.
Qed.

(** A retry delay that overflows (a positive refill rate so small that the
    quotient is infinite) is not reported as a delay: the rate-limit guard
    raises, because an infinite [delay_s] is not JSON, and the chain with it. *)
Theorem infinite_delay_raises x : fle fzero x = true -> isfinite x = false ->
  exists e, rate_limit_decision (mkRateLimitResult false (Some x)) = Raise (ValidationError e).
Proof.
  intros H0 Hf. unfold rate_limit_decision, GuardDecision_delay. cbn [RateLimit.allowed RateLimit.retry_after_s].
  destruct x as [[]|[]| |[]]; try done. eexists. reflexivity.
Qed.

(** ** Witnesses *)
Definition no_limits : rate_settings := {|
  rate_limits_enabled := false; rate_limit_default := None; rate_limit_per_tool := ∅;
  rate_limit_per_destination := ∅; rate_limit_per_run := None |}.
Definition read_ctx (now_ms : Z) : GuardContext := mkGuardContext sample_ctx now_ms true None None.
Definition fresh_state : guard_state := mkGuardState CircuitBreaker.fresh_breaker (mkLimiter 100 (of_Z 3600) []).
Definition read_args : parsed_args := [("path", AStr "a.txt")].
Definition no_destination (_ : parsed_args) : option string := None.

Definition sample_chain (cfg : rate_settings) : list (guard guard_state) :=
  @build_default_policy_guard_chain sample_checks no_destination cfg.

Definition read_answer : GuardDecision :=
  mkGuardDecision GuardAction.ALLOW "ok" None None [].

(** Two guards: a delay, then a request for approval, which wins. *)
Definition constant_guard (d : GuardDecision) : guard unit := fun _ _ _ _ => mret d.
Definition delay_answer : GuardDecision :=
  mkGuardDecision GuardAction.DELAY "rate_limited" None None [("delay_s", JFloat (of_Z 1))].
Definition wait_answer : GuardDecision := mkGuardDecision GuardAction.REQUIRE_APPROVAL "approval_required" None None [].

Lemma chain_precedence_witness :
  chain_check [constant_guard delay_answer; constant_guard wait_answer] read_call read_spec read_args (read_ctx 0) tt =
    (Ok wait_answer, tt) /\
  exists ds, asked (map (fun g => g read_call read_spec read_args (read_ctx 0))
    [constant_guard delay_answer; constant_guard wait_answer]) tt ds tt /\ first_strongest wait_answer (allow_ok :: ds).
Proof.
  split; [reflexivity|]. apply (chain_precedence [constant_guard delay_answer; constant_guard wait_answer]). reflexivity.
Defined.

Lemma default_chain_allows_witness : exists d s',
  chain_check (sample_chain no_limits) read_call read_spec read_args (read_ctx 5000) fresh_state = (Ok d, s') /\
  @call_allowed sample_checks read_call read_spec read_args sample_ctx.
Proof.
  destruct (chain_check (sample_chain no_limits) read_call read_spec read_args (read_ctx 5000) fresh_state)
    as [r s'] eqn:E. vm_compute in E. injection E as <- <-.
  eexists _, _. split; [reflexivity|].
  destruct (@default_chain_allows sample_checks no_destination no_limits read_call read_spec read_args (read_ctx 5000)
    fresh_state read_answer (mkGuardState
      (CircuitBreaker.ask (CircuitBreaker.mkKey (Some "fs.read_text") None None None) (of_Z 5) CircuitBreaker.fresh_breaker)
      (mkLimiter 100 (of_Z 3600) []))) as [[Ha|[Ha _]] _].
  - vm_compute. reflexivity.
  - reflexivity.
  - exact Ha.
  - discriminate Ha.
Defined.

Definition read_key : CircuitBreaker.CircuitBreakerKey := CircuitBreaker.mkKey (Some "fs.read_text") None None None.
Definition read_failures : list CircuitBreaker.op :=
  map (fun n => CircuitBreaker.Report read_key false (of_Z n)) [100; 101; 102; 103; 104].
Definition read_tripped : CircuitBreaker.t :=
  foldl (fun b o => CircuitBreaker.after o b) CircuitBreaker.fresh_breaker read_failures.

(** One token, refilled in a second. *)
Definition one_per_second : RateLimitSpec := mkRateLimitSpec (of_Z 1) (of_Z 1) fzero.
Definition tight_limits : rate_settings := {|
  rate_limits_enabled := true; rate_limit_default := Some one_per_second; rate_limit_per_tool := ∅;
  rate_limit_per_destination := ∅; rate_limit_per_run := None |}.
Definition empty_bucket : InMemoryRateLimiter :=
  mkLimiter 100 (of_Z 3600) [(tool_key "fs.read_text", mkTokenBucketState fzero (of_Z 115))].
Definition tripped_guards : guard_state := mkGuardState read_tripped empty_bucket.

Lemma read_tripped_ok : CircuitBreaker.breaker_ok read_tripped.
Proof.
  eapply (CircuitBreaker.run_steps_ok CircuitBreaker.fresh_breaker read_failures);
    [exact (steps_foldl CircuitBreaker.after _ _)|apply CircuitBreaker.fresh_ok|CircuitBreaker.solve_times].
Qed.

(** Five failures at 100..104 s; at 115 s the call is the probe, and delayed. *)
Lemma chain_wastes_permit_witness : exists d c b' l',
  chain_check (sample_chain tight_limits) read_call read_spec read_args (read_ctx 115000) tripped_guards =
    (Ok d, mkGuardState b' l') /\ gd_action d = GuardAction.DELAY /\
  aget read_key (CircuitBreaker.circuits b') = Some c /\ CircuitBreaker.saturated CircuitBreaker.default_spec c.
Proof.
  destruct (@chain_wastes_permit sample_checks no_destination tight_limits read_call read_spec read_args (read_ctx 115000)
    tripped_guards read_answer read_key (of_Z 115) (CircuitBreaker.mkDecision true CircuitBreaker.HALF_OPEN None)
    (CircuitBreaker.ask read_key (of_Z 115) read_tripped) (mkRateLimitResult false (Some (of_Z 1))) (of_Z 1)
    empty_bucket) as (d & c & E & A & _ & Hc & _ & _ & Hs).
  - exact read_tripped_ok.
  - solve_quantity.
  - vm_compute. reflexivity.
  - reflexivity.
  - vm_compute. reflexivity.
  - reflexivity.
  - vm_compute. reflexivity.
  - vm_compute. reflexivity.
  - reflexivity.
  - reflexivity.
  - vm_compute. reflexivity.
  - reflexivity.
  - vm_compute. reflexivity.
  - reflexivity.
  - exists d, c, (CircuitBreaker.ask read_key (of_Z 115) read_tripped), empty_bucket.
    split; [exact E|]. split; [exact A|]. split; [exact Hc|].
    assert (CircuitBreaker.spec (CircuitBreaker.ask read_key (of_Z 115) read_tripped) = CircuitBreaker.default_spec) as Hspec
      by (vm_compute; reflexivity).
    rewrite Hspec in Hs. apply Hs. vm_compute. reflexivity.
Defined.

Lemma infinite_delay_raises_witness : exists x e,
  fdiv (of_Z 1) (S754_finite false 1 (-1074)) = x /\
  rate_limit_decision (mkRateLimitResult false (Some x)) = Raise (ValidationError e).
Proof.
  destruct (infinite_delay_raises (S754_infinity false)) as [e E]; [reflexivity|reflexivity|].
  exists (S754_infinity false), e. split; [vm_compute; reflexivity|exact E].
Defined.
