(* ===== verification/Retries.v ===== *)
(** * Retries: [executor/retries.py]

    [RetryPolicy], the exponential backoff, the jittered strategy and the
    classification of failed tool results. [math.log2] is the C library's and a
    parameter. The results: the bounds of the backoff, the policies on which it
    raises, and that error codes are matched without regard to case and
    surrounding space. *)

From Stdlib Require Import ZArith SpecFloat Lia.
From S2P Require Import Prelude PyFloat Models RateLimit Decision.

Inductive RetryDisposition := TRANSIENT | PERMANENT | APPROVAL_REQUIRED.

Fixpoint normalize_error_codes (codes : list string) : res (gset string) :=
  match codes with
  | [] => Ok ∅
  | code :: rest =>
      raise_if (is_empty (strip code)) (ValueError "retryable_error_codes entries must be non-empty");;
      normalized ← normalize_error_codes rest;
      Ok ({[upper (strip code)]} ∪ normalized)
  end.

Fixpoint normalize_http_statuses (statuses : list Z) : res (gset Z) :=
  match statuses with
  | [] => Ok ∅
  | status :: rest =>
      raise_if ((status <? 100) || (599 <? status))
        (ValueError "retryable_http_statuses entries must be valid HTTP status codes");;
      normalized ← normalize_http_statuses rest;
      Ok ({[status]} ∪ normalized)
  end.

Record RetryPolicy := mkRetryPolicy {
  rp_max_attempts : Z;
  base_delay_s : spec_float;
  max_delay_s : spec_float;
  jitter : spec_float;
  retryable_error_codes : gset string;
  retryable_http_statuses : gset Z;
}.

Definition not_finite_or_not_positive (x : spec_float) : bool := negb (isfinite x) || fle x fzero.

Definition RetryPolicy_new (max_attempts : Z) (base_delay_s max_delay_s jitter : spec_float)
    (codes : list string) (statuses : list Z) : res RetryPolicy :=
  raise_if (max_attempts <=? 0) (ValueError "max_attempts must be > 0");;
  raise_if (not_finite_or_not_positive base_delay_s) (ValueError "base_delay_s must be finite and > 0");;
  raise_if (not_finite_or_not_positive max_delay_s) (ValueError "max_delay_s must be finite and > 0");;
  raise_if (flt max_delay_s base_delay_s) (ValueError "max_delay_s must be >= base_delay_s");;
  raise_if (negb (isfinite jitter) || flt jitter fzero || flt (of_Z 1) jitter)
    (ValueError "jitter must be finite and in [0, 1]");;
  codes ← normalize_error_codes codes;
  statuses ← normalize_http_statuses statuses;
  Ok (mkRetryPolicy max_attempts base_delay_s max_delay_s jitter codes statuses).

(** The default policy. *)
Definition default_policy : res RetryPolicy :=
  RetryPolicy_new 3 (of_Z 1) (of_Z 60) fzero ["TIMEOUT"; "TOOL_ERROR"] [408; 429; 500; 502; 503; 504].

(** [math.ceil] of a float *)
Definition fceil (x : spec_float) : res Z :=
  n ← int_of_float x; Ok (match x with
    | S754_finite false m e => if feq (of_Z n) x then n else n + 1
    | _ => n
    end).

Section backoff.
(** [math.log2] *)
Variable log2 : spec_float -> spec_float.

Definition exponential_backoff_s (attempt : Z) (base_delay max_delay : spec_float) : res spec_float :=
  raise_if (attempt <=? 0) (ValueError "attempt must be >= 1");;
  raise_if (not_finite_or_not_positive base_delay) (ValueError "base_delay_s must be finite and > 0");;
  raise_if (not_finite_or_not_positive max_delay) (ValueError "max_delay_s must be finite and > 0");;
  raise_if (flt max_delay base_delay) (ValueError "max_delay_s must be >= base_delay_s");;
  if fle max_delay base_delay then Ok max_delay
  else
    c ← fceil (log2 (fdiv max_delay base_delay));
    let max_exponent := Z.max 0 c in
    let exponent := Z.min (attempt - 1) max_exponent in
    factor ← float_of_int (2 ^ exponent);
    Ok (fmin max_delay (fmul base_delay factor)).

(** [BackoffStrategy.next_delay]; [random] is what the generator returns. *)
Definition next_delay (policy : RetryPolicy) (random : spec_float) (attempt : Z) : res spec_float :=
  raise_if (attempt <=? 0) (ValueError "attempt must be >= 1");;
  base ← exponential_backoff_s attempt (base_delay_s policy) (max_delay_s policy);
  if fle (jitter policy) fzero then Ok base
  else
    raise_if (negb (isfinite random) || flt random fzero || flt (of_Z 1) random)
      (ValueError "rng.random() must return a finite value in [0, 1]");;
    let factor := fadd (of_Z 1) (fmul (fsub (fmul (of_Z 2) random) (of_Z 1)) (jitter policy)) in
    Ok (fmin (max_delay_s policy) (fmul base factor)).
End backoff.

(** [_extract_http_status]: a [bool] is an [int]. *)
Definition int_entry (v : option json) : option Z :=
  match v with Some (JInt n) => Some n | Some (JBool b) => Some (if b then 1 else 0) | _ => None end.

Definition status_from_mapping (fields : list (string * json)) : option Z :=
  match int_entry (aget "status_code" fields) with
  | Some n => Some n
  | None => match int_entry (aget "http_status" fields) with
            | Some n => Some n
            | None => int_entry (aget "status" fields)
            end
  end.

Definition extract_http_status (r : ToolResult) : option Z :=
  match (match data r with Some (JObj fields) => status_from_mapping fields | _ => None end) with
  | Some n => Some n
  | None => match debug r with Some fields => status_from_mapping fields | None => None end
  end.

(** [(error_code or "").strip().upper()] *)
Definition canonical_code (code : option string) : string := upper (strip (default "" code)).

Definition classify (policy : RetryPolicy) (r : ToolResult) : RetryDisposition :=
  if ok r then PERMANENT
  else
    let code := canonical_code (error_code r) in
    if (code =? "APPROVAL_REQUIRED")%string then APPROVAL_REQUIRED
    else if match extract_http_status r with
            | Some n => bool_decide (n ∈ retryable_http_statuses policy)
            | None => false
            end then TRANSIENT
    else if negb (is_empty code) && bool_decide (code ∈ retryable_error_codes policy) then TRANSIENT
    else PERMANENT.

(** ** Lemmas *)
Lemma normalize_error_codes_spec codes set : normalize_error_codes codes = Ok set ->
  forall c, c ∈ set <-> exists raw, raw ∈ codes /\ c = upper (strip raw).
Proof.
  revert set. induction codes as [|raw codes IH]; intros set E c.
  - injection E as <-. set_solver.
  - cbn in E. apply res_bind_Ok in E as (_ & _ & E). apply res_bind_Ok in E as (s & Es & [= <-]).
    rewrite elem_of_union, elem_of_singleton, (IH _ Es). split.
    + intros [-> |(r & Hr & ->)]; [exists raw|exists r]; (split; [|done]); set_solver.
    + intros (r & Hr & ->). apply elem_of_cons in Hr as [-> | Hr]; [by left|right; by exists r].
Qed.

(** A number the checks accept as a delay. *)
Record positive_delay (x : spec_float) : Prop := {
  pdl_valid : fvalid x = true;
  pdl_finite : isfinite x = true;
  pdl_positive : flt fzero x = true;
}.

Lemma positive_delay_accepted x : positive_delay x -> not_finite_or_not_positive x = false.
Proof.
  intros [_ H1 H2]. unfold not_finite_or_not_positive. rewrite H1. cbn. by apply flt_not_ge.
Qed.

Lemma fmin_below m x : isnan m = false -> fle (fmin m x) m = true.
Proof. intros Hm. unfold fmin. destruct (flt x m) eqn:E; [by apply flt_fle|by apply fle_refl]. Qed.

(** The powers of two below [2 ** 1024] are floats. *)
Definition usable (r : res spec_float) : bool :=
  match r with Ok x => fvalid x && isfinite x && fle fzero x | Raise _ => false end.

Lemma powers_usable : forallb (fun k => usable (float_of_int (2 ^ Z.of_nat k))) (seq 0 1024) = true.
Proof. vm_compute. reflexivity. Qed.

Lemma float_of_pow2 k : 0 <= k <= 1023 -> exists x, float_of_int (2 ^ k) = Ok x /\
  fvalid x = true /\ isfinite x = true /\ fle fzero x = true.
Proof.
  intros Hk. pose proof (proj1 (List.forallb_forall _ _) powers_usable (Z.to_nat k)) as H.
  cbn beta in H. rewrite Z2Nat.id in H by lia. assert (List.In (Z.to_nat k) (seq 0 1024)) as Hin by (apply List.in_seq; lia). specialize (H Hin).
  unfold usable in H. destruct (float_of_int (2 ^ k)) as [x|]; [|done]. exists x. bool_to_prop. done.
Qed.

(** ** Properties *)

(** the backoff of an accepted policy: it returns a finite delay between 0
    and [max_delay_s] for every attempt up to 1024, provided the ratio of
    the delays is finite, which [log2] keeps finite; equal delays need no logarithm. *)
Theorem backoff_bounds log2 attempt base max :
  (forall x, isfinite x = true -> isfinite (log2 x) = true) ->
  positive_delay base -> positive_delay max -> fle base max = true -> isfinite (fdiv max base) = true ->
  1 <= attempt <= 1024 ->
  exists d, exponential_backoff_s log2 attempt base max = Ok d /\
    fle fzero d = true /\ fle d max = true /\ isfinite d = true.
Proof.
  intros Hlog Hb Hm Hle Hr Ha. unfold exponential_backoff_s. rewrite !positive_delay_accepted by done.
  assert (isnan max = false /\ fle fzero max = true) as [Hmn Hm0].
  { destruct Hm as [_ _ H]. apply flt_fle in H. split; [by apply fle_notnan in H as [_ ?]|done]. }
  assert (flt max base = false) as ->.
  { destruct (flt max base) eqn:E; [|done]. apply flt_not_ge in E. congruence. }
  destruct (Z.leb_spec attempt 0); [lia|]. cbn [raise_if mbind res_bind].
  destruct (fle max base) eqn:Emb; [exists max; split_and!; [done|done|by apply fle_refl|apply Hm]|].
  assert (exists c, fceil (log2 (fdiv max base)) = Ok c) as [c ->].
  { specialize (Hlog _ Hr). unfold fceil. destruct (log2 (fdiv max base)); try done; by eexists. }
  cbn [mbind res_bind].
  destruct (float_of_pow2 (Z.min (attempt - 1) (Z.max 0 c))) as (f & -> & Hf1 & Hf2 & Hf3); [lia|].
  cbn [mbind res_bind]. eexists. split; [done|].
  destruct (fmul_nonneg base f) as [H1 H2];
    [apply Hb|done|apply Hb|done|by apply flt_fle, Hb|done|].
  assert (fle fzero (fmin max (fmul base f)) = true) as H3 by by apply fmin_ge.
  assert (fle (fmin max (fmul base f)) max = true) as H4 by by apply fmin_below.
  split; [done|]. split; [done|]. apply (fle_finite _ max); [done|done|apply Hm].
Qed.

(** [RetryPolicy] accepts delays whose ratio overflows; for these
    [exponential_backoff_s] raises OverflowError at every attempt, whatever
    finite delay it should cap to. *)
Theorem backoff_overflow log2 base max attempt_limit jitter codes statuses policy attempt :
  RetryPolicy_new attempt_limit base max jitter codes statuses = Ok policy ->
  log2 (S754_infinity false) = S754_infinity false -> fdiv max base = S754_infinity false ->
  fle max base = false -> 1 <= attempt ->
  exponential_backoff_s log2 attempt base max = Raise (OverflowError "cannot convert float infinity to integer").
Proof.
  intros Hp Hlog Hr Hle Ha. unfold RetryPolicy_new in Hp. res_inv. bool_to_prop.
  unfold exponential_backoff_s, not_finite_or_not_positive in *.
  repeat match goal with H : (_ || _)%bool = false |- _ => apply orb_false_elim in H as [? ?] end.
  repeat match goal with H : _ = false |- _ => rewrite H; clear H | H : _ = true |- _ => rewrite H; clear H end.
  destruct (Z.leb_spec attempt 0); [lia|]. cbn [raise_if mbind res_bind orb]. by rewrite Hr, Hlog.
Qed.

(** error codes are configured and reported in any case, with any
    surrounding space: a failure whose code is one of the configured codes up to
    that is transient (unless it asks for an approval), and two failures that
    differ only in the spelling of their code are classified alike. *)
Theorem classify_normalises attempts base max jitter codes statuses policy r raw :
  RetryPolicy_new attempts base max jitter codes statuses = Ok policy ->
  ok r = false -> raw ∈ codes -> canonical_code (error_code r) = upper (strip raw) ->
  upper (strip raw) <> "APPROVAL_REQUIRED" ->
  classify policy r = TRANSIENT /\
  forall code, canonical_code (Some code) = canonical_code (error_code r) ->
    classify policy (mkToolResult false (data r) (Some code) (error_message r) (debug r) (produced_artifacts r)) = TRANSIENT.
Proof.
  intros Hp Hok Hraw Hc Hna.
  assert (upper (strip raw) ∈ retryable_error_codes policy /\ upper (strip raw) <> "") as [Hin Hne].
  { unfold RetryPolicy_new in Hp. res_inv. subst. cbn [retryable_error_codes].
    match goal with H : normalize_error_codes _ = Ok ?s |- _ =>
      split; [apply (normalize_error_codes_spec _ _ H); by exists raw|];
      clear -H Hraw; revert s H Hraw end.
    induction codes as [|c codes IH]; intros s E Hraw; [by apply elem_of_nil in Hraw|].
    cbn in E. apply res_bind_Ok in E as (u & Eu & E). apply res_bind_Ok in E as (s' & Es & _).
    apply elem_of_cons in Hraw as [-> | Hraw]; [|by apply (IH s')].
    apply raise_if_Ok in Eu. by destruct (strip c). }
  assert (forall r', ok r' = false -> canonical_code (error_code r') = upper (strip raw) -> classify policy r' = TRANSIENT) as H.
  { intros r' Hr' Hc'. unfold classify. rewrite Hr', Hc'. rewrite (proj2 (String.eqb_neq _ _) Hna).
    destruct (match extract_http_status r' with Some n => _ | None => false end); [done|].
    rewrite bool_decide_true by done. destruct (upper (strip raw)); done. }
  split; [by apply H|]. intros code Hcode. apply H; [done|]. cbn [error_code]. congruence.
Qed.

(** ** Witnesses *)

(** The logarithm of the default ratio 60. *)
Definition sample_log2 (x : spec_float) : spec_float := if feq x (of_Z 60) then lit 59069 10000 else if isfinite x then fzero else x.

Lemma backoff_bounds_witness : exists d, exponential_backoff_s sample_log2 4 (of_Z 1) (of_Z 60) = Ok d /\ d = of_Z 8.
Proof.
  destruct (backoff_bounds sample_log2 4 (of_Z 1) (of_Z 60)) as (d & E & _).
  - intros x Hx. unfold sample_log2. destruct (feq x (of_Z 60)); [reflexivity|]. by rewrite Hx.
  - split; vm_compute; reflexivity.
  - split; vm_compute; reflexivity.
  - vm_compute. reflexivity.
  - vm_compute. reflexivity.
  - lia.
  - exists d. split; [exact E|]. vm_compute in E. injection E as <-. vm_compute. reflexivity.
Defined.

Lemma backoff_overflow_witness : exists policy,
  RetryPolicy_new 3 (lit 1 (10 ^ 200)) (of_Z (10 ^ 200)) fzero [] [] = Ok policy /\
  exponential_backoff_s sample_log2 1 (lit 1 (10 ^ 200)) (of_Z (10 ^ 200)) =
    Raise (OverflowError "cannot convert float infinity to integer").
Proof.
  eexists. assert (RetryPolicy_new 3 (lit 1 (10 ^ 200)) (of_Z (10 ^ 200)) fzero [] [] =
    Ok (mkRetryPolicy 3 (lit 1 (10 ^ 200)) (of_Z (10 ^ 200)) fzero ∅ ∅)) as E by (vm_compute; reflexivity).
  split; [exact E|]. eapply (backoff_overflow sample_log2); [exact E| | | |lia]; vm_compute; reflexivity.
Defined.

Lemma classify_normalises_witness : exists policy, default_policy = Ok policy /\
  classify policy (mkToolResult false None (Some " timeout") (Some "m") None None) = TRANSIENT.
Proof.
  assert (is_ok default_policy = true) as E by (vm_compute; reflexivity).
  destruct default_policy as [policy|] eqn:Ep; [|discriminate E]. exists policy. split; [reflexivity|].
  apply (classify_normalises 3 (of_Z 1) (of_Z 60) fzero ["TIMEOUT"; "TOOL_ERROR"] [408; 429; 500; 502; 503; 504]
    policy (mkToolResult false None (Some " timeout") (Some "m") None None) "TIMEOUT").
  - exact Ep.
  - reflexivity.
  - apply elem_of_cons. by left.
  - vm_compute. reflexivity.
  - discriminate.
  - reflexivity.
Defined.
