(* ===== verification/Concurrency.v ===== *)
(** * Concurrency: [executor/concurrency.py]

    [ConcurrencyLimits] and [ConcurrencyLimiter] with its global and per-tool
    counters. The condition variable makes every acquisition and release atomic
    and admits a waiter only when [_has_capacity] holds; the tasks that hold a
    slot are a list next to the limiter, and a run is any interleaving of
    admissions and releases. The results: both caps hold in every run, the
    counters count the holders, and no slot is ever lost. *)

From Stdlib Require Import ZArith Lia Permutation.
From S2P Require Import Prelude.

Module Concurrency.

Record ConcurrencyLimits := mkLimits {
  max_global : Z;
  per_tool : list (string * Z);
}.

(** The loop of [__post_init__] over the items of [per_tool]. *)
Fixpoint normalize_limits (max_global : Z) (items normalized : list (string * Z)) : res (list (string * Z)) :=
  match items with
  | [] => Ok normalized
  | (tool_name, limit) :: rest =>
      let name := strip tool_name in
      raise_if (is_empty name) (ValueError "per_tool keys must be non-empty");;
      raise_if (limit <=? 0) (ValueError "per_tool values must be > 0");;
      raise_if (max_global <? limit) (ValueError "per_tool values must be <= max_global");;
      raise_if (is_set (aget name normalized))
        (ValueError "per_tool contains duplicate tool names after normalization");;
      normalize_limits max_global rest (aset name limit normalized)
  end.

Definition ConcurrencyLimits_new (max_global : Z) (per_tool : list (string * Z)) : res ConcurrencyLimits :=
  raise_if (max_global <=? 0) (ValueError "max_global must be > 0");;
  normalized ← normalize_limits max_global per_tool [];
  Ok (mkLimits max_global normalized).

Record t := mkLimiter {
  limits : ConcurrencyLimits;
  in_flight_total : Z;
  in_flight_by_tool : list (string * Z);
}.

Definition init (max_global : Z) (per_tool : list (string * Z)) : res t :=
  limits ← ConcurrencyLimits_new max_global per_tool;
  Ok (mkLimiter limits 0 []).

(** [self._in_flight_by_tool.get(tool_name, 0)] *)
Definition in_flight (tool_name : string) (l : t) : Z := default 0 (aget tool_name (in_flight_by_tool l)).

Definition has_capacity (tool_name : string) (l : t) : bool :=
  if max_global (limits l) <=? in_flight_total l then false
  else match aget tool_name (per_tool (limits l)) with
  | None => true
  | Some tool_limit => in_flight tool_name l <? tool_limit
  end.

(** [_acquire] once the wait is over. *)
Definition acquire (tool_name : string) (l : t) : t :=
  mkLimiter (limits l) (in_flight_total l + 1)
    (aset tool_name (in_flight tool_name l + 1) (in_flight_by_tool l)).

Definition release (tool_name : string) (l : t) : t :=
  let remaining := in_flight tool_name l - 1 in
  mkLimiter (limits l) (in_flight_total l - 1)
    (if 0 <? remaining then aset tool_name remaining (in_flight_by_tool l)
     else adel tool_name (in_flight_by_tool l)).

(** [limit(tool_name)] normalises the name before anything else. *)
Definition limit_name (tool_name : string) : res string :=
  if is_empty (strip tool_name) then Raise (ValueError "tool_name must be non-empty") else Ok (strip tool_name).

(** The steps of a run: [limit] is entered when there is capacity for the tool,
    and left by one of the tasks inside (whether its body returns or raises). *)
Inductive step : t * list string -> t * list string -> Prop :=
| step_enter l hs raw name :
    limit_name raw = Ok name -> has_capacity name l = true -> step (l, hs) (acquire name l, name :: hs)
| step_leave l hs1 name hs2 :
    step (l, (hs1 ++ name :: hs2)%list) (release name l, (hs1 ++ hs2)%list).

Inductive reachable (l0 : t) : t * list string -> Prop :=
| reach_init : reachable l0 (l0, [])
| reach_step s s' : reachable l0 s -> step s s' -> reachable l0 s'.

(** ** The invariant *)
Definition held (name : string) (hs : list string) : Z := Z.of_nat (length (filter (fun n => n = name) hs)).

Record limiter_inv (l : t) (hs : list string) : Prop := {
  li_total : in_flight_total l = Z.of_nat (length hs);
  li_nodup : NoDup (keys (in_flight_by_tool l));
  li_count : forall name, aget name (in_flight_by_tool l) = if 0 <? held name hs then Some (held name hs) else None;
  li_global : in_flight_total l <= max_global (limits l);
  li_tool : forall name n, aget name (per_tool (limits l)) = Some n -> held name hs <= n;
}.

Lemma held_cons name n hs : held name (n :: hs) = (if decide (n = name) then 1 else 0) + held name hs.
Proof. unfold held. rewrite filter_cons. destruct (decide (n = name)); cbn [length]; lia. Qed.

Lemma held_app name hs1 hs2 : held name (hs1 ++ hs2) = held name hs1 + held name hs2.
Proof. unfold held. rewrite filter_app, length_app. lia. Qed.

Lemma held_nonneg name hs : 0 <= held name hs.
Proof. unfold held. lia. Qed.

Lemma in_flight_held l hs name : limiter_inv l hs -> in_flight name l = held name hs.
Proof.
  intros H. unfold in_flight. rewrite (li_count l hs H). pose proof (held_nonneg name hs).
  destruct (Z.ltb_spec 0 (held name hs)); cbn; lia.
Qed.

Lemma acquire_inv l hs name : limiter_inv l hs -> has_capacity name l = true -> limiter_inv (acquire name l) (name :: hs).
Proof.
  intros H Hc. pose proof (in_flight_held l hs name H) as Hf. pose proof (held_nonneg name hs) as H0.
  destruct H as [Ht Hn Hcount Hg Htool]. unfold has_capacity in Hc.
  destruct (Z.leb_spec (max_global (limits l)) (in_flight_total l)); [done|].
  unfold acquire. split; cbn [in_flight_total in_flight_by_tool limits length].
  - lia.
  - by apply NoDup_keys_aset.
  - intros n. rewrite aget_aset, held_cons, Hf. destruct (decide (n = name)) as [->|Hne].
    + rewrite decide_True by done. destruct (Z.ltb_spec 0 (1 + held name hs)); [|lia]. f_equal. lia.
    + rewrite decide_False by done. by rewrite Z.add_0_l.
  - lia.
  - intros n m Hm. rewrite held_cons. specialize (Htool n m Hm). destruct (decide (name = n)) as [->|]; [|lia].
    rewrite Hm, Hf in Hc. bool_to_prop. lia.
Qed.

Lemma release_inv l hs1 name hs2 : limiter_inv l (hs1 ++ name :: hs2) -> limiter_inv (release name l) (hs1 ++ hs2).
Proof.
  intros H. pose proof (in_flight_held l _ name H) as Hf.
  assert (forall n, held n (hs1 ++ name :: hs2) = (if decide (name = n) then 1 else 0) + held n (hs1 ++ hs2)) as Hh.
  { intros n. rewrite !held_app, held_cons. lia. }
  destruct H as [Ht Hn Hcount Hg Htool]. rewrite length_app in Ht. cbn [length] in Ht.
  unfold release. rewrite Hf, (Hh name), decide_True by done. pose proof (held_nonneg name (hs1 ++ hs2)) as H0.
  split; cbn [in_flight_total in_flight_by_tool limits].
  - rewrite length_app. lia.
  - destruct (0 <? _); [by apply NoDup_keys_aset|by apply NoDup_keys_adel].
  - intros n. replace (1 + held name (hs1 ++ hs2) - 1) with (held name (hs1 ++ hs2)) by lia.
    specialize (Hcount n). rewrite (Hh n) in Hcount.
    destruct (Z.ltb_spec 0 (held name (hs1 ++ hs2))) as [Hp|Hp]; [rewrite aget_aset|rewrite aget_adel by done];
      destruct (decide (n = name)) as [->|Hne].
    + destruct (Z.ltb_spec 0 (held name (hs1 ++ hs2))); [done|lia].
    + rewrite decide_False in Hcount by done. done.
    + destruct (Z.ltb_spec 0 (held name (hs1 ++ hs2))); [lia|done].
    + rewrite decide_False in Hcount by done. done.
  - lia.
  - intros n m Hm. specialize (Htool n m Hm). rewrite Hh in Htool. destruct (decide (name = n)); lia.
Qed.

Lemma normalize_limits_ok mg items norm out : normalize_limits mg items norm = Ok out ->
  (forall name n, aget name norm = Some n -> 0 < n <= mg) -> forall name n, aget name out = Some n -> 0 < n <= mg.
Proof.
  revert norm. induction items as [|[raw limit] items IH]; intros norm E Hn; cbn in E; [by injection E as <-|].
  res_inv. bool_to_prop. eapply IH; [done|]. intros name n. rewrite aget_aset. case_decide; [|apply Hn].
  intros [= <-]. lia.
Qed.

Lemma limiter_init_inv mg pt l : init mg pt = Ok l ->
  limiter_inv l [] /\ max_global (limits l) = mg /\ 0 < mg /\ in_flight_total l = 0 /\ in_flight_by_tool l = [] /\
  forall name n, aget name (per_tool (limits l)) = Some n -> 0 < n <= mg.
Proof.
  unfold init, ConcurrencyLimits_new. intros H. apply res_bind_Ok in H as (lim & H & [= <-]).
  apply res_bind_Ok in H as (u & Hmg & H). apply raise_if_Ok, Z.leb_gt in Hmg.
  apply res_bind_Ok in H as (norm & Hnorm & [= <-]). cbn.
  pose proof (normalize_limits_ok mg pt [] norm Hnorm) as Hpos.
  assert (forall name n, aget name norm = Some n -> 0 < n <= mg) as Hpos' by by apply Hpos.
  clear Hpos. rename Hpos' into Hpos.
  split; [split; cbn; [done|constructor|done|lia|]|by split_and!].
  intros name n Hm. apply Hpos in Hm. unfold held. cbn. lia.
Qed.

Lemma reachable_inv l0 s : limiter_inv l0 [] -> reachable l0 s ->
  limiter_inv s.1 s.2 /\ limits s.1 = limits l0.
Proof.
  intros H0. induction 1 as [|s s' _ [IH1 IH2] Hs]; [done|]. destruct Hs as [l hs raw name Hn Hc|l hs1 name hs2]; cbn in *.
  - split; [by apply acquire_inv|done].
  - split; [by apply release_inv|done].
Qed.

(** ** Properties *)

(** in every interleaving of [limit] blocks on a limiter the two caps hold:
    at most [max_global] tasks are inside, at most [per_tool\[name\]] of them
    for a tool with a limit, and the counters are the numbers of tasks inside.
    A task is kept out only while a cap that concerns it is reached by tasks
    that are inside. When all tasks have left, the limiter is as it was at the
    start: no slot is lost, whatever the order. *)
Theorem limiter_caps mg pt l0 l hs :
  init mg pt = Ok l0 -> reachable l0 (l, hs) ->
  Z.of_nat (length hs) <= mg /\ in_flight_total l = Z.of_nat (length hs) /\
  (forall name, in_flight name l = held name hs /\
    forall n, aget name (per_tool (limits l0)) = Some n -> held name hs <= n) /\
  (forall name, has_capacity name l = false <->
    Z.of_nat (length hs) = mg \/ aget name (per_tool (limits l0)) = Some (held name hs)) /\
  (hs = [] -> l = l0).
Proof.
  intros Hi Hr. apply limiter_init_inv in Hi as (Hinv & Hmg & Hmg0 & Ht0 & Hb0 & Hpos).
  destruct (reachable_inv l0 (l, hs) Hinv Hr) as [H Hlim]. cbn in H, Hlim.
  pose proof (li_total l hs H) as Ht. pose proof (li_global l hs H) as Hg. rewrite Hlim, Hmg in Hg.
  assert (forall name n, aget name (per_tool (limits l0)) = Some n -> held name hs <= n) as Htool.
  { intros name n. rewrite <- Hlim. apply (li_tool l hs H). }
  split; [lia|]. split; [done|]. split; [|split].
  - intros name. split; [by apply in_flight_held|by apply Htool].
  - intros name. unfold has_capacity. rewrite Hlim, Hmg, (in_flight_held l hs name H).
    specialize (Htool name). destruct (Z.leb_spec mg (in_flight_total l)).
    + split; [left; lia|done].
    + destruct (aget name (per_tool (limits l0))) as [n|]; [|split; [done|intros [?|[=]]; lia]].
      specialize (Htool n eq_refl). rewrite Z.ltb_ge. split; [right; f_equal; lia|]. intros [?|[= ->]]; lia.
  - intros E. subst hs. destruct l as [lim tot by_], l0 as [lim0 tot0 by0]. cbn in *. subst. f_equal.
    pose proof (li_count _ _ H) as Hc. cbn in Hc. destruct by_ as [|[k v] by_]; [done|].
    specialize (Hc k). cbn in Hc. by destruct (decide (k = k)).
Qed.

(** Two tools, one of them limited to one task. *)
Lemma limiter_caps_witness : exists l0 l,
  init 2 [(" http ", 1)] = Ok l0 /\ reachable l0 (l, ["fs"; "http"]) /\
  in_flight_total l = 2 /\ has_capacity "fs" l = false.
Proof.
  eexists _, (acquire "fs" (acquire "http" (mkLimiter (mkLimits 2 [("http", 1)]) 0 []))).
  split; [vm_compute; reflexivity|].
  assert (reachable (mkLimiter (mkLimits 2 [("http", 1)]) 0 [])
    (acquire "fs" (acquire "http" (mkLimiter (mkLimits 2 [("http", 1)]) 0 [])), ["fs"; "http"])) as Hr.
  { eapply reach_step; [eapply reach_step; [apply reach_init|]|];
      [apply (step_enter _ _ "http"); reflexivity|apply (step_enter _ _ "fs"); reflexivity]. }
  split; [exact Hr|].
  destruct (limiter_caps 2 [(" http ", 1)] (mkLimiter (mkLimits 2 [("http", 1)]) 0 []) _ _ eq_refl Hr) as (_ & E & _ & Hc & _).
  split; [exact E|]. apply Hc. left. reflexivity.
Defined.

End Concurrency.
