(* ===== verification/Dependencies.v ===== *)
(** * Dependencies between the tasks of a run: [executor/service/dependencies.py]

    Which task waits, which tasks a success makes ready, which tasks a failure
    blocks (a breadth-first search through the pending dependents), and the
    envelope that queues a ready task. The results: the search ends, and it
    finds exactly the pending tasks that depend on the failed one, directly or
    through other pending tasks, each once. *)

From Stdlib Require Import ZArith Lia.
From S2P Require Import Prelude PyFloat Uuid Models Lifecycle Envelope.

(** [{candidate.task_id: candidate for candidate in tasks}] *)
Definition index_tasks (tasks : list Task) : list (string * Task) :=
  foldl (fun d t => aset (task_id t) t d) [] tasks.

Definition is_succeeded (o : option Task) : bool :=
  match o with Some t => bool_decide (status t = TaskStatus.SUCCEEDED) | None => false end.

Definition has_unmet_dependencies (task : Task) (all_tasks : list Task) : bool :=
  let tasks_by_id := index_tasks all_tasks in
  existsb (fun dependency_id => negb (is_succeeded (aget dependency_id tasks_by_id))) (depends_on task).

Definition ready_dependents_after_success (task : Task) (all_tasks : list Task) : list Task :=
  let tasks_by_id := index_tasks all_tasks in
  filter (fun candidate =>
    status candidate = TaskStatus.PENDING /\
    task_id task ∈ depends_on candidate /\
    forallb (fun d => is_succeeded (aget d tasks_by_id)) (depends_on candidate) = true) all_tasks.

(** [dependents_by_task_id] *)
Definition add_dependent (candidate : Task) (m : list (string * list Task)) (dependency_id : string) :=
  aset dependency_id (default [] (aget dependency_id m) ++ [candidate])%list m.
Definition dependents_by_task_id (pending : list Task) : list (string * list Task) :=
  foldl (fun m candidate => foldl (add_dependent candidate) m (depends_on candidate)) [] pending.

(** The state of the search. *)
Record search := mkSearch {
  s_queue : list string;
  s_seen : gset string;
  s_blocked_ids : gset string;
  s_blocked : list Task;
}.

(** The body of the inner loop. *)
Definition visit (s : search) (dependent : Task) : search :=
  if bool_decide (task_id dependent ∈ s_seen s) || bool_decide (task_id dependent ∈ s_blocked_ids s) then s
  else mkSearch (s_queue s ++ [task_id dependent]) (s_seen s)
         ({[task_id dependent]} ∪ s_blocked_ids s) (s_blocked s ++ [dependent]).

(** The outer loop; [None] when the fuel runs out. *)
Fixpoint search_loop (fuel : nat) (dependents : list (string * list Task)) (s : search) : option (list Task) :=
  match fuel with
  | O => None
  | S fuel =>
      match s_queue s with
      | [] => Some (s_blocked s)
      | dependency_id :: queue =>
          if bool_decide (dependency_id ∈ s_seen s)
          then search_loop fuel dependents (mkSearch queue (s_seen s) (s_blocked_ids s) (s_blocked s))
          else
            let s := mkSearch queue ({[dependency_id]} ∪ s_seen s) (s_blocked_ids s) (s_blocked s) in
            search_loop fuel dependents (foldl visit s (default [] (aget dependency_id dependents)))
      end
  end.

Definition pending_tasks (all_tasks : list Task) : list Task :=
  (index_tasks (filter (fun t => status t = TaskStatus.PENDING) all_tasks)).*2.

(** Every dependent enters the queue at most once, so this many rounds do. *)
Definition blocked_dependents_after_failure (task : Task) (all_tasks : list Task) : option (list Task) :=
  let pending := pending_tasks all_tasks in
  search_loop (length pending + 2) (dependents_by_task_id pending) (mkSearch [task_id task] ∅ ∅ []).

(** [dependency_ready_envelope]; [event_id] and [otel] are what the context of the
    call holds, [fresh] the identifier the envelope gets. *)
Definition dependency_ready_envelope (event_id : option string) (otel : list (string * json)) (fresh : string)
    (task : Task) (now_ms : Z) (upstream_task_id : string) : res TaskEnvelope :=
  match tool_call task with
  | None => Raise (ValueError "dependency_ready_envelope requires task.tool_call")
  | Some tc =>
      let trace_payload :=
        [("reason", JStr "dependency_satisfied"); ("source", JStr "executor");
         ("upstream_task_id", JStr upstream_task_id)] ++ (match otel with [] => [] | _ => [("otel", JObj otel)] end) in
      TaskEnvelope_validate fresh now_ms {|
        in_envelope_id := IdNone; in_task_id := IdStr (task_id task); in_run_id := IdStr (run_id task);
        in_attempt := attempts task; in_created_at_ms := Some now_ms; in_available_at_ms := Some now_ms;
        in_priority := None;
        in_correlation_ids := Some [("event_id", event_id); ("run_id", strip_or_none (run_id task));
          ("task_id", strip_or_none (task_id task)); ("tool_call_id", strip_or_none (tool_call_id tc))];
        in_trace := Some trace_payload;
        in_payload := Some [("tool_call_id", JStr (tool_call_id tc)); ("tool_name", JStr (tool_name tc));
          ("permission_scope", JStr (permission_scope tc)); ("idempotency_key", JStr (idempotency_key tc));
          ("upstream_task_id", JStr upstream_task_id)] |}
  end%list.

(** ** Indexing *)

(** The tasks that can be looked up: the last one of each id. *)
Lemma index_tasks_snoc tasks t : index_tasks (tasks ++ [t]) = aset (task_id t) t (index_tasks tasks).
Proof. unfold index_tasks. by rewrite foldl_app. Qed.

Lemma index_tasks_ok tasks : NoDup (keys (index_tasks tasks)) /\
  forall id t, aget id (index_tasks tasks) = Some t -> task_id t = id /\ t ∈ tasks.
Proof.
  induction tasks as [|t tasks [IH1 IH2]] using rev_ind; [split; [constructor|done]|].
  rewrite index_tasks_snoc. split; [by apply NoDup_keys_aset|]. intros id t'. rewrite aget_aset. case_decide.
  - intros [= <-]. split; [done|]. set_solver.
  - intros H'%IH2. set_solver.
Qed.

Lemma index_tasks_unique tasks t : NoDup (task_id <$> tasks) -> t ∈ tasks -> aget (task_id t) (index_tasks tasks) = Some t.
Proof.
  induction tasks as [|t' tasks IH] using rev_ind; intros Hd Ht; [by apply elem_of_nil in Ht|].
  rewrite fmap_app in Hd. apply NoDup_app in Hd as (Hd1 & Hd2 & _). rewrite index_tasks_snoc, aget_aset.
  apply elem_of_app in Ht as [Ht|Ht%list_elem_of_singleton]; [|subst; by rewrite decide_True].
  rewrite decide_False; [by apply IH|]. intros E. apply (Hd2 (task_id t)); [by apply list_elem_of_fmap_2|].
  rewrite E. cbn. by left.
Qed.

Lemma pending_tasks_ok all_tasks : NoDup (task_id <$> pending_tasks all_tasks) /\
  forall t, t ∈ pending_tasks all_tasks -> t ∈ all_tasks /\ status t = TaskStatus.PENDING.
Proof.
  unfold pending_tasks. set (l := filter _ all_tasks). destruct (index_tasks_ok l) as [H1 H2].
  assert (task_id <$> (index_tasks l).*2 = keys (index_tasks l)) as Hk.
  { unfold keys. rewrite <- list_fmap_compose. apply list_fmap_ext. intros i [k t] Hi. cbn.
    apply list_elem_of_lookup_2 in Hi. apply elem_aget in Hi; [|done]. by apply H2 in Hi as [? _]. }
  split; [by rewrite Hk|]. intros t ([k t'] & -> & Ht)%list_elem_of_fmap. cbn.
  apply elem_aget in Ht; [|done]. apply H2 in Ht as [_ Ht]. unfold l in Ht. by apply list_elem_of_filter in Ht as [? ?].
Qed.

Lemma pending_tasks_unique all_tasks t : NoDup (task_id <$> all_tasks) ->
  (t ∈ pending_tasks all_tasks <-> t ∈ all_tasks /\ status t = TaskStatus.PENDING).
Proof.
  intros Hd. split; [apply pending_tasks_ok|]. intros [Ht Hs]. unfold pending_tasks. apply list_elem_of_fmap.
  exists (task_id t, t). split; [done|]. apply aget_Some_elem, index_tasks_unique.
  - eapply sublist_NoDup; [exact Hd|]. apply (fmap_sublist task_id), sublist_filter.
  - by apply list_elem_of_filter.
Qed.

(** The dependents of an id among [pending]. *)
Lemma dependents_spec pending d t : t ∈ default [] (aget d (dependents_by_task_id pending)) <->
  t ∈ pending /\ d ∈ depends_on t.
Proof.
  assert (forall c ds m, t ∈ default [] (aget d (foldl (add_dependent c) m ds)) <->
    t ∈ default [] (aget d m) \/ t = c /\ d ∈ ds) as Hin.
  { intros c ds. induction ds as [|d' ds IH]; intros m; cbn; [set_solver|]. rewrite IH. unfold add_dependent at 1.
    rewrite aget_aset. case_decide; subst; cbn; set_solver. }
  assert (forall l m, t ∈ default [] (aget d (foldl (fun m c => foldl (add_dependent c) m (depends_on c)) m l)) <->
    t ∈ default [] (aget d m) \/ t ∈ l /\ d ∈ depends_on t) as H.
  { intros l. induction l as [|c l IH]; intros m; cbn; [set_solver|]. rewrite IH, Hin. set_solver. }
  unfold dependents_by_task_id. rewrite H. cbn. set_solver.
Qed.

(** ** The search *)
Section blocked.
Variables (root : string) (pending : list Task).
Hypothesis pending_nodup : NoDup (task_id <$> pending).

(** A pending task that depends on [root], directly or through pending tasks. *)
Inductive blocked_by : Task -> Prop :=
| blocked_direct t : t ∈ pending -> root ∈ depends_on t -> blocked_by t
| blocked_chain u t : blocked_by u -> t ∈ pending -> task_id u ∈ depends_on t -> blocked_by t.

Lemma blocked_pending t : blocked_by t -> t ∈ pending.
Proof. by destruct 1. Qed.

(** What holds between any two steps of the search once [root] is processed. *)
Record basic (s : search) : Prop := {
  b_nodup : NoDup (task_id <$> s_blocked s);
  b_ids : forall id, id ∈ s_blocked_ids s <-> id ∈ task_id <$> s_blocked s;
  b_sound : forall t, t ∈ s_blocked s -> blocked_by t /\ task_id t <> root;
  b_seen : forall id, id ∈ s_seen s -> id = root \/ id ∈ s_blocked_ids s;
  b_queue : forall id, id ∈ s_queue s -> id ∈ s_blocked_ids s;
  b_todo : forall id, id ∈ s_blocked_ids s -> id ∈ s_seen s \/ id ∈ s_queue s;
  b_root : root ∈ s_seen s;
}.

(** The dependents of a processed task are found. *)
Definition closed (s : search) : Prop :=
  forall id t, id ∈ s_seen s -> t ∈ pending -> id ∈ depends_on t -> task_id t ∈ s_seen s \/ task_id t ∈ s_blocked_ids s.

Lemma blocked_subset s : basic s -> (length (s_blocked s) <= length pending)%nat.
Proof.
  intros Hb. rewrite <- (length_fmap task_id (s_blocked s)), <- (length_fmap task_id pending).
  apply submseteq_length, NoDup_submseteq; [apply Hb|]. intros id (t & -> & Ht)%list_elem_of_fmap.
  apply list_elem_of_fmap_2, blocked_pending. by apply Hb.
Qed.

Definition measure (s : search) : nat := (length (s_queue s) + (length pending - length (s_blocked s)))%nat.

Lemma visit_ok s t : basic s -> blocked_by t ->
  basic (visit s t) /\ s_seen (visit s t) = s_seen s /\ s_blocked_ids s ⊆ s_blocked_ids (visit s t) /\
  (task_id t ∈ s_seen s \/ task_id t ∈ s_blocked_ids (visit s t)) /\ measure (visit s t) = measure s.
Proof.
  intros Hb Ht. unfold visit. case_bool_decide as H1; [cbn; split_and!; try done; by left|].
  case_bool_decide as H2; [cbn; split_and!; try done; by right|]. cbn [orb].
  destruct Hb as [B1 B2 B3 B4 B5 B6 B7] eqn:Eb.
  assert (basic (mkSearch (s_queue s ++ [task_id t]) (s_seen s) ({[task_id t]} ∪ s_blocked_ids s) (s_blocked s ++ [t]))) as Hb'.
  { split; cbn [s_queue s_seen s_blocked_ids s_blocked].
    - rewrite fmap_app. apply NoDup_app. split; [done|]. split; [|apply NoDup_singleton].
      intros id Hid Hid'. cbn in Hid'. apply list_elem_of_singleton in Hid' as ->. by apply B2 in Hid.
    - intros id. rewrite fmap_app. change (task_id <$> [t]) with [task_id t]. rewrite elem_of_union, elem_of_app, B2, elem_of_singleton, list_elem_of_singleton. tauto.
    - intros u [Hu| ->%list_elem_of_singleton]%elem_of_app; [by apply B3|]. split; [done|]. congruence.
    - intros id Hid. apply B4 in Hid as [?|?]; [by left|]. right. set_solver.
    - intros id [Hid| ->%list_elem_of_singleton]%elem_of_app; [apply B5 in Hid|]; set_solver.
    - intros id [->%elem_of_singleton|Hid]%elem_of_union; [right; set_solver|]. apply B6 in Hid as [?|?]; [by left|right; set_solver].
    - done. }
  split; [done|]. cbn [s_seen s_blocked_ids]. split; [done|]. split; [set_solver|]. split; [right; set_solver|].
  apply blocked_subset in Hb'. cbn [s_blocked] in Hb'. unfold measure. cbn [s_queue s_blocked]. rewrite !length_app in *.
  cbn [length] in *. lia.
Qed.

Lemma visits_ok l s : basic s -> Forall blocked_by l ->
  basic (foldl visit s l) /\ s_seen (foldl visit s l) = s_seen s /\ s_blocked_ids s ⊆ s_blocked_ids (foldl visit s l) /\
  (forall t, t ∈ l -> task_id t ∈ s_seen s \/ task_id t ∈ s_blocked_ids (foldl visit s l)) /\
  measure (foldl visit s l) = measure s.
Proof.
  revert s. induction l as [|t l IH]; intros s Hb Hl; cbn [foldl]; [by split_and!; try done; intros ? ?%elem_of_nil|].
  apply Forall_cons in Hl as [Ht Hl]. destruct (visit_ok s t Hb Ht) as (H1 & H2 & H3 & H4 & H5).
  destruct (IH (visit s t) H1 Hl) as (G1 & G2 & G3 & G4 & G5). split; [done|]. split; [congruence|].
  split; [set_solver|]. split; [|congruence]. rewrite H2 in G4. intros u [-> | Hu]%elem_of_cons; [|by apply G4].
  destruct H4; [by left|right; set_solver].
Qed.

(** Processing an id whose dependents are blocked: the state after the round. *)
Lemma round_ok s d queue :
  (d = root \/ exists u, blocked_by u /\ task_id u = d) ->
  basic (mkSearch queue ({[d]} ∪ s_seen s) (s_blocked_ids s) (s_blocked s)) -> closed s ->
  let s1 := mkSearch queue ({[d]} ∪ s_seen s) (s_blocked_ids s) (s_blocked s) in
  let s' := foldl visit s1 (default [] (aget d (dependents_by_task_id pending))) in
  basic s' /\ closed s' /\ measure s' = measure s1.
Proof.
  intros Hd Hb Hcl s1 s'. destruct (visits_ok (default [] (aget d (dependents_by_task_id pending))) s1) as (H1 & H2 & H3 & H4 & H5).
  - done.
  - apply Forall_forall. intros t [Ht Hdt]%dependents_spec. destruct Hd as [-> |(u & Hu & <-)].
    + by apply blocked_direct.
    + by eapply blocked_chain.
  - split; [done|]. split; [|done]. fold s' in H2, H3, H4. intros id t Hid Ht Hdep. rewrite H2 in *. cbn [s_seen s1] in *.
    apply elem_of_union in Hid as [->%elem_of_singleton|Hid].
    + apply H4. by apply dependents_spec.
    + destruct (Hcl id t Hid Ht Hdep) as [?|?]; [left; set_solver|right]. apply H3. done.
Qed.

Lemma loop_ok fuel s : basic s -> closed s -> (measure s < fuel)%nat ->
  exists bl, search_loop fuel (dependents_by_task_id pending) s = Some bl /\ NoDup (task_id <$> bl) /\
    forall t, t ∈ bl <-> blocked_by t /\ task_id t <> root.
Proof.
  revert s. induction fuel as [|fuel IH]; intros s Hb Hcl Hf; [lia|]. cbn [search_loop].
  destruct (s_queue s) as [|d queue] eqn:Eq.
  - exists (s_blocked s). split; [done|]. split; [apply Hb|]. intros t. split; [apply Hb|]. intros [Ht Hne].
    assert (forall id, id ∈ s_blocked_ids s -> id ∈ s_seen s) as Hall.
    { intros id Hid. destruct (b_todo s Hb id Hid) as [|Hq]; [done|]. rewrite Eq in Hq. by apply elem_of_nil in Hq. }
    assert (forall u, blocked_by u -> task_id u ∈ s_seen s) as Hseen.
    { induction 1 as [u Hu Hr|v u _ IHv Hu Hv]; [destruct (Hcl root u (b_root s Hb) Hu Hr)|destruct (Hcl _ u IHv Hu Hv)]; auto. }
    specialize (Hseen t Ht). apply (b_seen s Hb) in Hseen as [?|Hid]; [done|]. apply (b_ids s Hb) in Hid.
    apply list_elem_of_fmap in Hid as (u & E & Hu). replace t with u; [done|].
    apply (b_sound s Hb) in Hu as [Hu%blocked_pending _]. apply blocked_pending in Ht.
    apply list_elem_of_lookup in Hu as [i Hi], Ht as [j Hj].
    assert (i = j) as ->; [|congruence]. eapply (NoDup_lookup _ i j (task_id t)); [exact pending_nodup|..];
      rewrite list_lookup_fmap; [rewrite Hi|rewrite Hj]; cbn; congruence.
  - unfold measure in Hf. rewrite Eq in Hf. cbn [length] in Hf.
    assert (d ∈ s_blocked_ids s) as Hd by (apply (b_queue s Hb); rewrite Eq; set_solver).
    case_bool_decide as Hds.
    + apply IH; [|done|unfold measure; cbn; lia]. destruct Hb as [B1 B2 B3 B4 B5 B6 B7]. rewrite Eq in *.
      split; cbn [s_queue s_seen s_blocked_ids s_blocked]; try done.
      * intros id Hid. apply B5. set_solver.
      * intros id Hid. destruct (B6 id Hid) as [|[-> |]%elem_of_cons]; auto.
    + destruct (round_ok s d queue) as (H1 & H2 & H3).
      * right. apply (b_ids s Hb), list_elem_of_fmap in Hd as (u & -> & Hu). exists u. split; [by apply (b_sound s Hb)|done].
      * destruct Hb as [B1 B2 B3 B4 B5 B6 B7]. rewrite Eq in *. split; cbn [s_queue s_seen s_blocked_ids s_blocked]; try done.
        -- intros id [->%elem_of_singleton|Hid]%elem_of_union; [by right|by apply B4].
        -- intros id Hid. apply B5. set_solver.
        -- intros id Hid. destruct (B6 id Hid) as [|[-> |]%elem_of_cons]; [left|left|right]; set_solver.
        -- set_solver.
      * done.
      * apply IH; [done|done|]. rewrite H3. unfold measure. cbn. lia.
Qed.

Lemma search_ok : exists bl,
  search_loop (length pending + 2) (dependents_by_task_id pending) (mkSearch [root] ∅ ∅ []) = Some bl /\
  NoDup (task_id <$> bl) /\ forall t, t ∈ bl <-> blocked_by t /\ task_id t <> root.
Proof.
  replace (length pending + 2)%nat with (S (length pending + 1)) by lia. cbn [search_loop s_queue].
  rewrite bool_decide_false by set_solver.
  destruct (round_ok (mkSearch [root] ∅ ∅ []) root []) as (H1 & H2 & H3).
  - by left.
  - split; cbn [s_queue s_seen s_blocked_ids s_blocked]; try set_solver. constructor.
  - intros id t Hid. set_solver.
  - apply loop_ok; [done|done|]. cbn [s_seen s_blocked_ids s_blocked] in *. rewrite H3. unfold measure. cbn. lia.
Qed.
End blocked.

Lemma is_succeeded_spec all_tasks d : NoDup (task_id <$> all_tasks) ->
  (is_succeeded (aget d (index_tasks all_tasks)) = true <->
   exists u, u ∈ all_tasks /\ task_id u = d /\ status u = TaskStatus.SUCCEEDED).
Proof.
  intros Hd. unfold is_succeeded. split.
  - destruct (aget d (index_tasks all_tasks)) as [u|] eqn:E; [|done]. case_bool_decide; [|done]. intros _.
    apply index_tasks_ok in E as [? ?]. by exists u.
  - intros (u & Hu & <- & Hs). rewrite index_tasks_unique by done. by apply bool_decide_eq_true_2.
Qed.

Lemma unmet_spec task all_tasks : NoDup (task_id <$> all_tasks) ->
  (has_unmet_dependencies task all_tasks = false <->
   forall d, d ∈ depends_on task -> exists u, u ∈ all_tasks /\ task_id u = d /\ status u = TaskStatus.SUCCEEDED).
Proof.
  intros Hd. unfold has_unmet_dependencies. induction (depends_on task) as [|d ds IH]; cbn.
  - split; [by intros _ d ?%elem_of_nil|done].
  - rewrite orb_false_iff, negb_false_iff, is_succeeded_spec, IH by done. split.
    + intros [H1 H2] d' [-> | ?]%elem_of_cons; auto.
    + intros H. split; [apply H; by left|]. intros d' ?. apply H. by right.
Qed.

Lemma ready_spec task all_tasks t : NoDup (task_id <$> all_tasks) ->
  (t ∈ ready_dependents_after_success task all_tasks <->
   t ∈ all_tasks /\ status t = TaskStatus.PENDING /\ task_id task ∈ depends_on t /\
   has_unmet_dependencies t all_tasks = false).
Proof.
  intros Hd. unfold ready_dependents_after_success. rewrite list_elem_of_filter.
  assert (forallb (fun d => is_succeeded (aget d (index_tasks all_tasks))) (depends_on t) = true <->
    has_unmet_dependencies t all_tasks = false) as ->; [|tauto].
  unfold has_unmet_dependencies. induction (depends_on t) as [|d ds IH]; cbn; [done|].
  by rewrite andb_true_iff, orb_false_iff, negb_false_iff, IH.
Qed.

(** ** Properties *)

(** the tasks a success makes ready are the pending tasks of the run that
    name the task among their dependencies and all of whose dependencies are
    tasks of the run that have succeeded: exactly those that [process_lease]
    would not send back for unmet dependencies. *)
Theorem ready_dependents_spec task all_tasks t : NoDup (task_id <$> all_tasks) ->
  (t ∈ ready_dependents_after_success task all_tasks <->
    t ∈ all_tasks /\ status t = TaskStatus.PENDING /\ task_id task ∈ depends_on t /\
    forall d, d ∈ depends_on t -> exists u, u ∈ all_tasks /\ task_id u = d /\ status u = TaskStatus.SUCCEEDED) /\
  (t ∈ ready_dependents_after_success task all_tasks -> has_unmet_dependencies t all_tasks = false).
Proof.
  intros Hd. rewrite ready_spec by done. split; [|tauto]. by rewrite unmet_spec.
Qed.

(** the search for the tasks a failure blocks ends, and finds exactly the
    pending tasks of the run that depend on the failed task, directly or
    through a chain of pending tasks (the failed task itself excepted), each
    of them once. *)
Theorem blocked_dependents_spec task all_tasks : NoDup (task_id <$> all_tasks) ->
  exists blocked, blocked_dependents_after_failure task all_tasks = Some blocked /\
    NoDup (task_id <$> blocked) /\
    (forall t, t ∈ blocked <-> blocked_by (task_id task) (pending_tasks all_tasks) t /\ task_id t <> task_id task) /\
    (forall t, t ∈ pending_tasks all_tasks <-> t ∈ all_tasks /\ status t = TaskStatus.PENDING).
Proof.
  intros Hd. destruct (search_ok (task_id task) (pending_tasks all_tasks)) as (bl & E & H1 & H2); [apply pending_tasks_ok|].
  exists bl. split; [done|]. split; [done|]. split; [done|]. intros t. by apply pending_tasks_unique.
Qed.

(** ** Witnesses *)
Definition task_with (id : string) (s : TaskStatus.t) (deps : list string) : Task :=
  mkTask id (sample_uuid "c") "t" s (Some sample_call) 0 2 60 deps 1000 None None [] [].

(** b depends on a, c on b, d on c and on the running e; f is independent. *)
Definition sample_run : list Task :=
  [task_with "a" TaskStatus.SUCCEEDED []; task_with "b" TaskStatus.PENDING ["a"];
   task_with "c" TaskStatus.PENDING ["b"]; task_with "d" TaskStatus.PENDING ["c"; "e"];
   task_with "e" TaskStatus.RUNNING []; task_with "f" TaskStatus.PENDING []].

Lemma ready_dependents_spec_witness :
  task_with "b" TaskStatus.PENDING ["a"] ∈ ready_dependents_after_success (task_with "a" TaskStatus.SUCCEEDED []) sample_run /\
  task_with "c" TaskStatus.PENDING ["b"] ∉ ready_dependents_after_success (task_with "a" TaskStatus.SUCCEEDED []) sample_run.
Proof.
  assert (NoDup (task_id <$> sample_run)) as Hd by (apply (bool_decide_unpack _); vm_compute; exact I).
  split.
  - apply (ready_dependents_spec (task_with "a" TaskStatus.SUCCEEDED []) sample_run (task_with "b" TaskStatus.PENDING ["a"]) Hd).
    split; [apply elem_of_cons; right; apply elem_of_cons; by left|]. split; [reflexivity|].
    split; [apply elem_of_cons; by left|]. intros d Hin. apply list_elem_of_singleton in Hin. subst d.
    exists (task_with "a" TaskStatus.SUCCEEDED []). split; [apply elem_of_cons; by left|]. split; reflexivity.
  - intros Hin.
    apply (proj1 (proj1 (ready_dependents_spec (task_with "a" TaskStatus.SUCCEEDED []) sample_run
      (task_with "c" TaskStatus.PENDING ["b"]) Hd))) in Hin.
    destruct Hin as (_ & _ & Hin & _). apply list_elem_of_singleton in Hin. discriminate Hin.
Defined.

Lemma blocked_dependents_spec_witness : exists blocked,
  blocked_dependents_after_failure (task_with "b" TaskStatus.FAILED ["a"]) sample_run = Some blocked /\
  task_id <$> blocked = ["c"; "d"].
Proof.
  assert (NoDup (task_id <$> sample_run)) as Hd by (apply (bool_decide_unpack _); vm_compute; exact I).
  destruct (blocked_dependents_spec (task_with "b" TaskStatus.FAILED ["a"]) sample_run Hd) as (bl & E & _).
  exists bl. split; [exact E|]. vm_compute in E. injection E as <-. reflexivity.
Defined.
