(* ===== verification/Approvals.v ===== *)
(** * Approval stores: [security/policy/approvals.py], [executor/approval_store.py]

    The protocol [ApprovalStore] as a class, the in-memory store, and the
    store backed by a repository of approvals. Approvals go in and out as deep
    copies, so they are values. The results, for the in-memory store: there is
    one approval per tool call whatever is asked, a decision is final, and
    every operation answers as documented. *)

From Stdlib Require Import ZArith Lia Sorted.
From S2P Require Import Prelude PyFloat Uuid Models.

(** The protocol [ApprovalStore]; [decide] reads the clock. *)
Class ApprovalStore (S : Type) := {
  create_pending : Approval -> st S Approval;
  get_approval : string -> st S (option Approval);
  get_by_tool_call : string -> st S (option Approval);
  list_pending : Z -> Z -> st S (list Approval);
  decide_approval : Z -> string -> ApprovalStatus.t -> option string -> st S Approval;
}.

(** What a client of a store relies on: a lookup changes nothing, and a request
    for a tool call without an approval is answered with the request. *)
Class ApprovalStoreLaws (S : Type) `{ApprovalStore S} : Prop := {
  lookup_keeps : forall tc s r s', get_by_tool_call tc s = (r, s') -> s' = s;
  created_as_asked : forall a s s1 b s', get_by_tool_call (ap_tool_call_id a) s = (Ok None, s1) ->
    ap_status a = ApprovalStatus.PENDING -> create_pending a s = (Ok b, s') -> b = a;
}.

Module InMemoryApprovalStore.

Record t := mkStore {
  approvals : list (string * Approval);
  by_tool_call : list (string * string);
}.

Definition init : t := mkStore [] [].

Definition is_pending (a : Approval) : bool := bool_decide (ap_status a = ApprovalStatus.PENDING).

Definition create_pending (approval : Approval) : st t Approval := fun s =>
  if negb (is_pending approval) then (Raise (ValueError "create_pending requires approval.status=pending"), s)
  else match aget (ap_tool_call_id approval) (by_tool_call s) with
  | Some existing_id =>
      match aget existing_id (approvals s) with
      | Some existing => (Ok existing, s)
      | None => (Raise (KeyError existing_id), s)
      end
  | None =>
      (Ok approval, mkStore (aset (approval_id approval) approval (approvals s))
                            (aset (ap_tool_call_id approval) (approval_id approval) (by_tool_call s)))
  end.

Definition get (approval_id : string) : st t (option Approval) := fun s => (Ok (aget approval_id (approvals s)), s).

Definition get_by_tool_call (tool_call_id : string) : st t (option Approval) := fun s =>
  match aget tool_call_id (by_tool_call s) with
  | None => (Ok None, s)
  | Some id => match aget id (approvals s) with
               | Some a => (Ok (Some a), s)
               | None => (Raise (KeyError id), s)
               end
  end.

(** [pending.sort(key=...)]: stable insertion by creation time and id. *)
Definition sort_key (a : Approval) : Z * string := (ap_created_at_ms a, approval_id a).

Fixpoint insert_sorted (a : Approval) (l : list Approval) : list Approval :=
  match l with
  | [] => [a]
  | b :: l' => if ple (sort_key a) (sort_key b) then a :: l else b :: insert_sorted a l'
  end.

Definition list_pending (limit offset : Z) : st t (list Approval) := fun s =>
  if limit <? 0 then (Raise (ValueError "limit must be >= 0"), s)
  else if offset <? 0 then (Raise (ValueError "offset must be >= 0"), s)
  else if limit =? 0 then (Ok [], s)
  else
    let pending := filter (fun a => ap_status a = ApprovalStatus.PENDING) (approvals s).*2 in
    (Ok (take (Z.to_nat limit) (drop (Z.to_nat offset) (foldr insert_sorted [] pending))), s).

Definition decide (now_ms : Z) (approval_id : string) (decision : ApprovalStatus.t) (decided_by : option string)
  : st t Approval := fun s =>
  if negb (bool_decide (decision ∈ [ApprovalStatus.APPROVED; ApprovalStatus.DENIED]))
  then (Raise (ValueError "decision must be approved or denied"), s)
  else match aget approval_id (approvals s) with
  | None => (Raise (KeyError ("unknown approval_id: " +:+ approval_id)), s)
  | Some approval =>
      if bool_decide (ap_status approval = decision) then (Ok approval, s)
      else if negb (is_pending approval)
      then (Raise (ValueError ("approval has already been decided as " +:+ ApprovalStatus.value (ap_status approval))), s)
      else
        match (if bool_decide (decision = ApprovalStatus.APPROVED)
               then Approval_approve now_ms approval decided_by None
               else Approval_deny now_ms approval decided_by None) with
        | Ok updated => (Ok updated, mkStore (aset approval_id updated (approvals s)) (by_tool_call s))
        | Raise e => (Raise e, s)
        end
  end.

#[global] Instance store_ops : ApprovalStore t := {|
  Approvals.create_pending := create_pending;
  get_approval := get;
  Approvals.get_by_tool_call := get_by_tool_call;
  Approvals.list_pending := list_pending;
  decide_approval := decide;
|}.

#[global] Instance laws : ApprovalStoreLaws t.
Proof.
  split.
  - intros tc s r s'. cbn. unfold get_by_tool_call.
    destruct (aget tc (by_tool_call s)) as [i|]; [destruct (aget i _)|]; by intros [= _ <-].
  - intros a s s1 b s'. cbn. unfold get_by_tool_call, create_pending. intros E Hp.
    unfold is_pending. rewrite bool_decide_true by done. cbn [negb].
    destruct (aget (ap_tool_call_id a) (by_tool_call s)) as [i|]; [destruct (aget i _); discriminate|].
    by intros [= <- _].
Qed.
End InMemoryApprovalStore.

(** ** [executor/approval_store.py]: the store over an [ApprovalRepo] *)
Class ApprovalRepo (D : Type) := {
  repo_get : string -> st D (option Approval);
  repo_get_by_tool_call : string -> st D (option Approval);
  repo_create : Approval -> st D Approval;
  repo_list : Z -> Z -> option ApprovalStatus.t -> st D (list Approval);
  repo_update_status : string -> ApprovalStatus.t -> option string -> st D Approval;
}.

(** What the store over a repository relies on. *)
Class ApprovalRepoLaws (D : Type) `{ApprovalRepo D} : Prop := {
  repo_lookup_keeps : forall tc d r d', repo_get_by_tool_call tc d = (r, d') -> d' = d;
  repo_create_returns : forall a d b d', repo_create a d = (Ok b, d') -> b = a;
}.

(** A unit of work: its changes are undone when its body raises. *)
Definition unit_of_work {D A} (body : st D A) : st D A := fun d =>
  match body d with (Ok a, d') => (Ok a, d') | (Raise e, _) => (Raise e, d) end.

Section db.
Context {D : Type} `{ApprovalRepo D}.

Definition db_create_pending (approval : Approval) : st D Approval :=
  if bool_decide (ap_status approval <> ApprovalStatus.PENDING)
  then throw (ValueError "create_pending requires approval.status=pending")
  else unit_of_work (
    existing ← repo_get_by_tool_call (ap_tool_call_id approval);
    match existing with
    | Some a => mret a
    | None => repo_create approval
    end).

Definition db_get (approval_id : string) : st D (option Approval) := unit_of_work (repo_get approval_id).
Definition db_get_by_tool_call (tool_call_id : string) : st D (option Approval) :=
  unit_of_work (repo_get_by_tool_call tool_call_id).
Definition db_list_pending (limit offset : Z) : st D (list Approval) :=
  unit_of_work (repo_list limit offset (Some ApprovalStatus.PENDING)).
Definition db_decide (now_ms : Z) (approval_id : string) (decision : ApprovalStatus.t) (decided_by : option string)
  : st D Approval :=
  if negb (bool_decide (decision ∈ [ApprovalStatus.APPROVED; ApprovalStatus.DENIED]))
  then throw (ValueError "decision must be approved or denied")
  else unit_of_work (repo_update_status approval_id decision decided_by).

#[export] Instance DbApprovalStore : ApprovalStore D := {|
  create_pending := db_create_pending;
  get_approval := db_get;
  get_by_tool_call := db_get_by_tool_call;
  list_pending := db_list_pending;
  decide_approval := db_decide;
|}.

#[export] Instance DbApprovalStore_laws `{!ApprovalRepoLaws D} : ApprovalStoreLaws D.
Proof.
  split.
  - intros tc d r d'. cbn. unfold db_get_by_tool_call, unit_of_work.
    destruct (repo_get_by_tool_call tc d) as [[o|e] d1] eqn:E; intros [= _ <-]; [|done]. by eapply repo_lookup_keeps.
  - intros a d d1 b d'. cbn. unfold db_get_by_tool_call, db_create_pending, unit_of_work. intros E Hp.
    rewrite bool_decide_false by auto. unfold mbind, st_bind.
    destruct (repo_get_by_tool_call (ap_tool_call_id a) d) as [[o|e] d2]; [|done]. injection E as -> ->.
    destruct (repo_create a d1) as [[b'|e] d3] eqn:Ec; [|done]. intros [= <- _]. by eapply repo_create_returns.
Qed.
End db.

(** ** What the in-memory store keeps *)
Section in_memory.
Import InMemoryApprovalStore.

(** Both dictionaries describe the same approvals. *)
Record wf (s : t) : Prop := {
  wf_id : forall id a, aget id (approvals s) = Some a ->
    approval_id a = id /\ aget (ap_tool_call_id a) (by_tool_call s) = Some id /\
    is_uuid4_str id = true /\ is_uuid4_str (ap_tool_call_id a) = true;
  wf_call : forall tc id, aget tc (by_tool_call s) = Some id ->
    exists a, aget id (approvals s) = Some a /\ ap_tool_call_id a = tc;
}.

(** Requests to the store. *)
Inductive op : Type :=
| OpCreate (a : Approval)
| OpDecide (now_ms : Z) (id : string) (decision : ApprovalStatus.t) (decided_by : option string).

Definition step (o : op) (s : t) : t :=
  match o with
  | OpCreate a => (create_pending a s).2
  | OpDecide now id d by_ => (decide now id d by_ s).2
  end.

(** The approvals that are put in have validated ids, and an approval id is
    used for one tool call only (it is drawn at random). *)
Definition ids_ok (calls : string -> string) (o : op) : Prop :=
  match o with
  | OpCreate a => is_uuid4_str (approval_id a) = true /\ is_uuid4_str (ap_tool_call_id a) = true /\
                  calls (approval_id a) = ap_tool_call_id a
  | OpDecide _ _ _ _ => True
  end.

Lemma decided_keeps now a d by_ at_ms a' : Approval_decide now a d by_ at_ms = Ok a' ->
  is_uuid4_str (approval_id a) = true -> is_uuid4_str (ap_tool_call_id a) = true ->
  ap_status a = ApprovalStatus.PENDING /\ approval_id a' = approval_id a /\
  ap_tool_call_id a' = ap_tool_call_id a /\ ap_status a' = d.
Proof.
  intros (u & Hp & H)%res_bind_Ok H1 H2. apply raise_if_Ok, bool_decide_eq_false, dec_stable in Hp.
  unfold Approval_model_validate, Approval_fields in H. cbn [approval_id ap_tool_call_id ap_status] in H.
  rewrite validate_generated_id_str, (proj1 (is_uuid4_str_validate _ _) H1),
    (proj1 (is_uuid4_str_validate _ _) H2) in H.
  vld_inv. cbn. simplify_eq. destruct d; cbn in *; simplify_eq; done.
Qed.

(** [decide] leaves the store alone or replaces a pending approval. *)
Lemma decide_cases now id d by_ s r s' : decide now id d by_ s = (r, s') ->
  s' = s \/ exists a a', aget id (approvals s) = Some a /\ Approval_decide now a d by_ None = Ok a' /\
    r = Ok a' /\ s' = mkStore (aset id a' (approvals s)) (by_tool_call s).
Proof.
  unfold decide. case_bool_decide as Hd; cbn [negb]; [|intros [= <- <-]; by left].
  destruct (aget id (approvals s)) as [a|] eqn:Ha; [|intros [= <- <-]; by left].
  case_bool_decide; [intros [= <- <-]; by left|]. destruct (is_pending a); cbn [negb]; [|intros [= <- <-]; by left].
  assert ((if bool_decide (d = ApprovalStatus.APPROVED) then Approval_approve now a by_ None
           else Approval_deny now a by_ None) = Approval_decide now a d by_ None) as ->.
  { unfold Approval_approve, Approval_deny. case_bool_decide; [by subst|].
    apply elem_of_cons in Hd as [?|Hd%list_elem_of_singleton]; [done|by subst]. }
  destruct (Approval_decide now a d by_ None) as [a'|e] eqn:E; intros [= <- <-]; [right|by left]. by exists a, a'.
Qed.

Lemma create_cases a s r s' : create_pending a s = (r, s') ->
  s' = s \/ is_pending a = true /\ aget (ap_tool_call_id a) (by_tool_call s) = None /\ r = Ok a /\
    s' = mkStore (aset (approval_id a) a (approvals s)) (aset (ap_tool_call_id a) (approval_id a) (by_tool_call s)).
Proof.
  unfold create_pending. destruct (is_pending a); cbn [negb]; [|intros [= <- <-]; by left].
  destruct (aget (ap_tool_call_id a) _) as [id|] eqn:E; [destruct (aget id _)|]; intros [= <- <-]; auto.
Qed.

Variable calls : string -> string.

(** What holds of the store in every execution. *)
Definition inv (s : t) : Prop :=
  wf s /\ forall id a, aget id (approvals s) = Some a -> calls id = ap_tool_call_id a.

Lemma inv_init : inv init.
Proof. by split. Qed.

Lemma inv_step o s : ids_ok calls o -> inv s -> inv (step o s).
Proof.
  intros Ho [[Hid Hcall] Hc]. destruct o as [a|now id d by_]; cbn [step].
  - destruct (create_pending a s) as [r s'] eqn:E. cbn.
    apply create_cases in E as [->|(_ & Hn & _ & ->)]; [done|]. destruct Ho as (V1 & V2 & V3).
    assert (forall b, aget (approval_id a) (approvals s) = Some b -> False) as Hnew.
    { intros b Hb. pose proof (Hc _ _ Hb) as H1. apply Hid in Hb as (_ & Hb & _). rewrite <- H1, V3, Hn in Hb. done. }
    split; [split|]; cbn [approvals by_tool_call].
    + intros id b. rewrite !aget_aset. case_decide; [intros [= <-]; subst; by rewrite decide_True|].
      intros Hb. pose proof (Hid _ _ Hb) as (? & Hb' & ? & ?). rewrite decide_False by congruence. done.
    + intros tc id. rewrite aget_aset. case_decide; [intros [= <-]; exists a; by rewrite aget_aset, decide_True|].
      intros (b & Hb & <-)%Hcall. exists b. rewrite aget_aset, decide_False; [done|].
      intros ->. by apply Hnew in Hb.
    + intros id b. rewrite aget_aset. case_decide; [intros [= <-]; by subst|apply Hc].
  - destruct (decide now id d by_ s) as [r s'] eqn:E. cbn.
    apply decide_cases in E as [->|(a & a' & Ha & Hd & _ & ->)]; [done|].
    pose proof (Hid _ _ Ha) as (I1 & I2 & I3 & I4).
    apply decided_keeps in Hd as (_ & K1 & K2 & _); [|by rewrite I1|done].
    split; [split|]; cbn [approvals by_tool_call].
    + intros id' b. rewrite aget_aset. case_decide; [intros [= <-]; subst id'; rewrite K1, K2; done|apply Hid].
    + intros tc id' (b & Hb & <-)%Hcall. rewrite aget_aset. case_decide; [|by exists b].
      exists a'. split; [done|]. rewrite K2. congruence.
    + intros id' b. rewrite aget_aset. case_decide; [intros [= <-]; subst; rewrite K2; by apply Hc|apply Hc].
Qed.

(** A decided approval stays as it is. *)
Lemma step_keeps_decided o s id a : ids_ok calls o -> inv s ->
  aget id (approvals s) = Some a -> is_pending a = false -> aget id (approvals (step o s)) = Some a.
Proof.
  intros Ho [[Hid _] Hc] Ha Hp. destruct o as [b|now id' d by_]; cbn [step].
  - destruct (create_pending b s) as [r s'] eqn:E. cbn.
    apply create_cases in E as [->|(_ & Hn & _ & ->)]; [done|]. destruct Ho as (_ & _ & V3). cbn.
    rewrite aget_aset, decide_False; [done|]. intros ->. pose proof (Hc _ _ Ha) as H1.
    apply Hid in Ha as (_ & Ha & _). congruence.
  - destruct (decide now id' d by_ s) as [r s'] eqn:E. cbn.
    apply decide_cases in E as [->|(b & b' & Hb & Hd & _ & ->)]; [done|]. cbn.
    rewrite aget_aset, decide_False; [done|]. intros ->. rewrite Ha in Hb. injection Hb as <-.
    apply res_bind_Ok in Hd as (u & Hd & _). apply raise_if_Ok, bool_decide_eq_false, dec_stable in Hd.
    apply bool_decide_eq_false in Hp. by apply Hp.
Qed.

Lemma inv_steps os s s' : Forall (ids_ok calls) os -> steps step s os s' -> inv s -> inv s'.
Proof.
  intros Ho H. induction H as [|s o s' os s'' -> _ IH]; [done|]. apply Forall_cons in Ho as [? ?]. eauto using inv_step.
Qed.

Lemma steps_keep_decided os s s' id a : Forall (ids_ok calls) os -> steps step s os s' -> inv s ->
  aget id (approvals s) = Some a -> is_pending a = false -> aget id (approvals s') = Some a.
Proof.
  intros Ho H. induction H as [|s o s' os s'' -> _ IH]; [done|]. apply Forall_cons in Ho as [? ?].
  eauto using inv_step, step_keeps_decided.
Qed.

(** The approval of a tool call stays its approval. *)
Lemma step_keeps_call o s tc id : aget tc (by_tool_call s) = Some id -> aget tc (by_tool_call (step o s)) = Some id.
Proof.
  intros Ha. destruct o as [b|now id' d by_]; cbn [step].
  - destruct (create_pending b s) as [r s'] eqn:E. cbn.
    apply create_cases in E as [->|(_ & Hn & _ & ->)]; [done|]. cbn.
    rewrite aget_aset, decide_False; [done|]. congruence.
  - destruct (decide now id' d by_ s) as [r s'] eqn:E. cbn.
    by apply decide_cases in E as [->|(b & b' & Hb & Hd & _ & ->)].
Qed.

Lemma steps_keep_call os s s' tc id : steps step s os s' ->
  aget tc (by_tool_call s) = Some id -> aget tc (by_tool_call s') = Some id.
Proof. intros H. induction H as [|s o s' os s'' -> _ IH]; eauto using step_keeps_call. Qed.

Lemma create_pending_found a s : inv s -> is_pending a = true ->
  create_pending a s = match aget (ap_tool_call_id a) (by_tool_call s) with
    | Some id => (Ok (default a (aget id (approvals s))), s)
    | None => (Ok a, mkStore (aset (approval_id a) a (approvals s)) (aset (ap_tool_call_id a) (approval_id a) (by_tool_call s)))
    end.
Proof.
  intros [[_ Hcall] _] Hp. unfold create_pending. rewrite Hp. cbn [negb].
  destruct (aget (ap_tool_call_id a) _) as [id|] eqn:E; [|done]. by apply Hcall in E as (b & -> & _).
Qed.

(** a decision in the store is final. After any requests there is one
    approval per tool call, and an approval that has been decided is what
    later reads return whatever is asked in between: the same decision again
    answers with it, the opposite one is refused, and neither changes the store. *)
Theorem approval_store_final os os' s s' :
  Forall (ids_ok calls) os -> Forall (ids_ok calls) os' -> steps step init os s -> steps step s os' s' ->
  (forall id1 id2 a1 a2, aget id1 (approvals s) = Some a1 -> aget id2 (approvals s) = Some a2 ->
     ap_tool_call_id a1 = ap_tool_call_id a2 -> id1 = id2) /\
  forall id a, aget id (approvals s) = Some a -> is_pending a = false ->
    InMemoryApprovalStore.get id s' = (Ok (Some a), s') /\
    get_by_tool_call (ap_tool_call_id a) s' = (Ok (Some a), s') /\
    forall now d by_, d ∈ [ApprovalStatus.APPROVED; ApprovalStatus.DENIED] ->
      decide now id d by_ s' =
        (if bool_decide (ap_status a = d) then Ok a
         else Raise (ValueError ("approval has already been decided as " +:+ ApprovalStatus.value (ap_status a))), s').
Proof.
  intros Ho Ho' H H'. pose proof (inv_steps _ _ _ Ho H inv_init) as Hi.
  pose proof (inv_steps _ _ _ Ho' H' Hi) as [[Hid' _] _]. split.
  - destruct Hi as [[Hid _] _]. intros id1 id2 a1 a2 (_ & H1 & _)%Hid (_ & H2 & _)%Hid E. congruence.
  - intros id a Ha Hp. pose proof (steps_keep_decided _ _ _ _ _ Ho' H' Hi Ha Hp) as Ha'.
    pose proof (Hid' _ _ Ha') as (_ & Hc & _). split_and!.
    + unfold InMemoryApprovalStore.get. by rewrite Ha'.
    + unfold get_by_tool_call. by rewrite Hc, Ha'.
    + intros now d by_ Hd. unfold decide. rewrite (bool_decide_true _ Hd), Ha', Hp. cbn [negb].
      by case_bool_decide.
Qed.

(** asking for an approval is idempotent per tool call. A pending approval
    put in after any requests is stored unless the tool call has one, and from
    then on every request for that tool call, with whatever new approval,
    gives the approval with the identifier of the first and changes nothing. *)
Theorem create_pending_idempotent os os' s a b s1 s2 a2 :
  Forall (ids_ok calls) os -> Forall (ids_ok calls) os' -> ids_ok calls (OpCreate a) ->
  steps step init os s -> create_pending a s = (Ok b, s1) -> steps step s1 os' s2 ->
  is_pending a2 = true -> ap_tool_call_id a2 = ap_tool_call_id a ->
  ap_tool_call_id b = ap_tool_call_id a /\
  (match get_by_tool_call (ap_tool_call_id a) s with
   | (Ok (Some c), _) => b = c /\ s1 = s
   | (Ok None, _) => b = a /\ InMemoryApprovalStore.get (approval_id a) s1 = (Ok (Some a), s1)
   | (Raise _, _) => False end) /\
  exists b2, create_pending a2 s2 = (Ok b2, s2) /\ approval_id b2 = approval_id b /\ ap_tool_call_id b2 = ap_tool_call_id a.
Proof.
  intros Ho Ho' Ha H Hc H' Hp2 Htc. pose proof (inv_steps _ _ _ Ho H inv_init) as Hi.
  assert (is_pending a = true) as Hp.
  { unfold create_pending in Hc. by destruct (is_pending a). }
  assert (inv s1) as Hi1. { pose proof (inv_step _ _ Ha Hi) as Hx. cbn [step] in Hx. by rewrite Hc in Hx. }
  pose proof (inv_steps _ _ _ Ho' H' Hi1) as Hi2.
  rewrite (create_pending_found _ _ Hi2 Hp2), Htc.
  assert (aget (ap_tool_call_id a) (by_tool_call s1) = Some (approval_id b) /\ ap_tool_call_id b = ap_tool_call_id a /\
    (match get_by_tool_call (ap_tool_call_id a) s with
     | (Ok (Some c), _) => b = c /\ s1 = s
     | (Ok None, _) => b = a /\ InMemoryApprovalStore.get (approval_id a) s1 = (Ok (Some a), s1)
     | (Raise _, _) => False end)) as (Hb & Hb' & Hcase).
  { rewrite (create_pending_found _ _ Hi Hp) in Hc. unfold get_by_tool_call.
    destruct (aget (ap_tool_call_id a) (by_tool_call s)) as [id|] eqn:E.
    - destruct Hi as [[Hid Hcall] _]. pose proof (Hcall _ _ E) as (c & Hc' & Hc2). rewrite Hc' in Hc |- *.
      cbn [default] in Hc. injection Hc as <- <-. destruct (Hid _ _ Hc') as (-> & _). done.
    - injection Hc as <- <-. cbn. rewrite aget_aset, decide_True by done. split_and!; try done.
      unfold InMemoryApprovalStore.get. cbn. by rewrite aget_aset, decide_True. }
  split; [done|]. split; [done|].
  rewrite (steps_keep_call _ _ _ _ _ H' Hb). destruct Hi2 as [[Hid2 Hcall2] _].
  destruct (Hcall2 _ _ (steps_keep_call _ _ _ _ _ H' Hb)) as (c & Hc2 & Hc3). rewrite Hc2.
  exists c. split; [done|]. split; [by apply Hid2 in Hc2 as [? _]|done].
Qed.
End in_memory.

(** [list_pending] returns a window of the pending approvals, oldest first. *)
Section listing.
Import InMemoryApprovalStore.

Lemma insert_sorted_perm a l : insert_sorted a l ≡ₚ a :: l.
Proof. induction l as [|b l IH]; cbn; [done|]. case_match; [done|]. rewrite IH. constructor. Qed.

Definition oldest_first (l : list Approval) : Prop := StronglySorted (fun a b => ple (sort_key a) (sort_key b) = true) l.

Lemma insert_sorted_ok a l : oldest_first l -> oldest_first (insert_sorted a l).
Proof.
  unfold oldest_first. induction 1 as [|b l Hs IH Hb]; cbn; [repeat constructor|].
  case_match eqn:E.
  - constructor; [by constructor|]. constructor; [done|]. eapply List.Forall_impl; [|exact Hb].
    intros c Hc. by eapply ple_trans.
  - constructor; [done|]. rewrite insert_sorted_perm. constructor; [by apply ple_false|done].
Qed.

Theorem list_pending_spec limit offset s : 0 < limit -> 0 <= offset ->
  exists l, list_pending limit offset s = (Ok (take (Z.to_nat limit) (drop (Z.to_nat offset) l)), s) /\
    oldest_first l /\ l ≡ₚ filter (fun a => ap_status a = ApprovalStatus.PENDING) (approvals s).*2.
Proof.
  intros Hl Ho. unfold list_pending. rewrite (proj2 (Z.ltb_ge _ _)), (proj2 (Z.ltb_ge _ _)) by lia.
  rewrite (proj2 (Z.eqb_neq _ _)) by lia. set (p := filter _ _). exists (foldr insert_sorted [] p). split; [done|].
  clearbody p. induction p as [|a p [IH1 IH2]]; cbn; [split; constructor|].
  split; [by apply insert_sorted_ok|]. by rewrite insert_sorted_perm, IH2.
Qed.
End listing.

(** ** The hypotheses can hold *)
Definition sample_calls : string -> string := fun _ => ap_tool_call_id sample_approval.

Lemma sample_create_ok : ids_ok sample_calls (OpCreate sample_approval).
Proof. by vm_compute. Qed.

Lemma approval_store_final_witness :
  let s := foldl (fun s o => step o s) InMemoryApprovalStore.init
    [OpCreate sample_approval; OpDecide 2000 (approval_id sample_approval) ApprovalStatus.APPROVED (Some "ops")] in
  let s' := step (OpCreate sample_approval) s in
  InMemoryApprovalStore.decide 3000 (approval_id sample_approval) ApprovalStatus.DENIED None s'
    = (Raise (ValueError "approval has already been decided as approved"), s').
Proof.
  assert (Forall (ids_ok sample_calls) [OpCreate sample_approval;
    OpDecide 2000 (approval_id sample_approval) ApprovalStatus.APPROVED (Some "ops")]) as H1
    by (repeat constructor; apply sample_create_ok).
  assert (Forall (ids_ok sample_calls) [OpCreate sample_approval]) as H2 by (repeat constructor; apply sample_create_ok).
  destruct (approval_store_final sample_calls _ _ _ _ H1 H2 (steps_foldl step _ _) (steps_foldl step _ _)) as [_ H].
  specialize (H (approval_id sample_approval)).
  destruct (aget (approval_id sample_approval) _) as [a|] eqn:E in H; [|vm_compute in E; discriminate E].
  specialize (H a eq_refl). vm_compute in E. injection E as <-.
  destruct (H eq_refl) as (_ & _ & H3). apply H3. right. by left.
Defined.

Lemma create_pending_idempotent_witness :
  let s1 := step (OpCreate sample_approval) InMemoryApprovalStore.init in
  let s2 := step (OpDecide 2000 (approval_id sample_approval) ApprovalStatus.APPROVED None) s1 in
  exists b2, InMemoryApprovalStore.create_pending sample_approval s2 = (Ok b2, s2) /\
    approval_id b2 = approval_id sample_approval.
Proof.
  intros s1 s2.
  assert (Forall (ids_ok sample_calls) [OpDecide 2000 (approval_id sample_approval) ApprovalStatus.APPROVED None]) as H2
    by by repeat constructor.
  destruct (create_pending_idempotent sample_calls [] _ InMemoryApprovalStore.init sample_approval sample_approval s1 s2
    sample_approval (List.Forall_nil _) H2 sample_create_ok (steps_nil _ _) eq_refl (steps_foldl step _ _) eq_refl eq_refl)
    as (_ & _ & b2 & H3 & H4 & _).
  exists b2. split; [exact H3|exact H4].
Defined.
