(* ===== verification/Tools.v ===== *)
(** * Tools: [tools/registry.py], [normalization.py], [runner.py], the
    in-process backend

    The registry of tools, the normalisation of arguments (paths into the
    workspace, URLs to their checked form), the in-process execution backend
    and [ToolRunner]. What a tool does is a parameter: a step on a state of its
    own that may raise or run out of time. The results: the runner turns every
    outcome of a tool into a result, the registry is a map, and arguments that
    reach a tool are confined. *)

From Stdlib Require Import ZArith SpecFloat Lia Ascii.
From S2P Require Import Prelude PyFloat PyText Models Truncation Redaction Decision Policy.

(** ** A tool *)

(** [ArgsModel.model_validate(args)]: the parsed arguments, or
    [exc.errors(include_input=False)]. *)
Inductive validation :=
| Valid (parsed : parsed_args)
| Invalid (errors : json).

Record Tool := mkTool {
  manifest : ToolManifest;
  ArgsModel : list (string * json) -> validation;
}.

(** [tool_spec_from_tool] *)
Definition tool_spec_from_tool (tool : Tool) : ToolSpec := mkToolSpec (mf_name (manifest tool)) (manifest tool).

(** ** [registry.py]: the tools by name, in registration order *)
Module ToolRegistry.

Definition t := list (string * Tool).

Definition init : t := [].

Definition register (tool : Tool) : st t unit := fun r =>
  let name := mf_name (manifest tool) in
  if is_set (aget name r) then (Raise (ValueError ("tool already registered: " +:+ py_repr name)), r)
  else (Ok tt, aset name tool r).

Definition get (name : string) (r : t) : res Tool :=
  match aget name r with
  | Some tool => Ok tool
  | None => Raise (KeyError ("unknown tool: " +:+ py_repr name))
  end.

Definition validate_exists (name : string) (r : t) : res unit :=
  if is_set (aget name r) then Ok tt else Raise (KeyError ("unknown tool: " +:+ py_repr name)).

Definition list_manifests (r : t) : list ToolManifest := map manifest r.*2.

(** [override]: [body] runs with the tool replaced; the entry is put back
    whatever [body] does. *)
Definition override {A} (name : string) (tool : Tool) (body : st t A) : st t A := fun r =>
  if negb (mf_name (manifest tool) =? name)%string
  then (Raise (ValueError ("override name must match tool.manifest.name (got name=" +:+ py_repr name +:+
                           ", manifest.name=" +:+ py_repr (mf_name (manifest tool)) +:+ ")")), r)
  else
    let previous := aget name r in
    let '(a, r') := body (aset name tool r) in
    (a, match previous with None => adel name r' | Some p => aset name p r' end).
End ToolRegistry.

(** ** [normalization.py] *)
Section normalization.
Context `{Checks}.
Variable workspace_root : string.

Definition normalize_path_in_workspace (path : string) : res string := resolve_path_in_workspace path workspace_root.
Definition normalize_http_url (value : string) : res string := validate_and_normalize_url value None.

(** [_normalize_value], with [normalize_tool_args] and the loops over lists and
    dictionaries; containers are copied, which does not show in their value. *)
Fixpoint normalize_value (field_name : string) (value : argval) : res argval :=
  match value with
  | APath p => q ← normalize_path_in_workspace p; Ok (APath q)
  | AModel fields =>
      fields ← (fix go fs := match fs with
        | [] => Ok []
        | (name, v) :: fs' => v ← normalize_value name v; rest ← go fs'; Ok ((name, v) :: rest)
        end) fields;
      Ok (AModel fields)
  | AStr s => if contains "url" (lower field_name) then u ← normalize_http_url s; Ok (AStr u) else Ok (AStr s)
  | ADict items =>
      items ← (fix go fs := match fs with
        | [] => Ok []
        | (key, v) :: fs' => v ← normalize_value field_name v; rest ← go fs'; Ok ((key, v) :: rest)
        end) items;
      Ok (ADict items)
  | AList items =>
      items ← (fix go l := match l with
        | [] => Ok []
        | v :: l' => v ← normalize_value field_name v; rest ← go l'; Ok (v :: rest)
        end) items;
      Ok (AList items)
  | AOther v => Ok (AOther v)
  end.

Fixpoint normalize_tool_args (args : parsed_args) : res parsed_args :=
  match args with
  | [] => Ok []
  | (name, v) :: rest => v ← normalize_value name v; rest ← normalize_tool_args rest; Ok ((name, v) :: rest)
  end.
End normalization.

(** ** Execution *)

(** [tools/sdk] [ToolContext]: what the runner and the policy layer read of it. *)
Record ToolContext := mkToolContext {
  ctx_workspace_root : string;
  ctx_dry_run : bool;
  ctx_timeout_s : spec_float;
  ctx_correlation_ids : list (string * option string);
}.

(** [type(exc).__name__] *)
Definition exn_name (e : exn) : string :=
  match e with
  | ValueError _ => "ValueError" | TypeError _ => "TypeError" | KeyError _ => "KeyError"
  | OverflowError _ => "OverflowError" | AssertionError => "AssertionError" | RuntimeError _ => "RuntimeError"
  | QueueClosed _ => "QueueClosed" | ValidationError _ => "ValidationError"
  | InvalidTransition _ _ _ _ => "InvalidTransition" | BudgetExceeded _ _ _ => "BudgetExceeded"
  | PlanValidationError _ => "PlanValidationError" | TaskNotFound _ => "TaskNotFound"
  | ToolCallMissing _ => "ToolCallMissing" | DependentEnqueueError _ _ => "DependentEnqueueError"
  | ApprovalPersistError _ => "ApprovalPersistError" | RunPacketPersistError => "RunPacketPersistError"
  | TimeoutError => "TimeoutError" | TemplateValidationError _ => "TemplateValidationError"
  | TemplateResolutionError _ => "TemplateResolutionError" | TaskEnqueueError _ _ _ => "TaskEnqueueError"
  | PlannerMemoryLoadError _ => "PlannerMemoryLoadError" | PlannerRequestError _ => "PlannerRequestError"
  | PlannerResponseError _ => "PlannerResponseError" | OtherError name _ => name
  end.

(** What a tool's [run] gives back: any object; [model_validate] accepts the
    fields of a result, and otherwise reports errors. *)
Inductive raw_result :=
| RawResult (r : ToolResult)
| RawInvalid (errors : json).

Definition failure (error_code error_message : string) (debug : option (list (string * json))) : res ToolResult :=
  ToolResult_validate (mkToolResult false None (Some error_code) (Some error_message) debug None).

Section runner.
Context `{Checks} {W : Type}.

(** [asyncio.wait_for(tool.run(args, ctx), timeout)]: raises [TimeoutError]
    when the time is up. *)
Variable run_body : Tool -> parsed_args -> ToolContext -> st W raw_result.
(** [f"{ctx.timeout_s}"] *)
Variable show_float : spec_float -> string.
(** [sanitize_tool_output(value, settings)] with that [max_tool_output_bytes] *)
Variable sanitize_tool_output : Z -> json -> json.
(** [exc.errors()] of a [ToolResult] that is refused *)
Variable errors_of : list (string * exn) -> json.

(** [InProcessBackend.execute] *)
Definition execute_in_process (tool : Tool) (args : parsed_args) (ctx : ToolContext) : st W ToolResult := fun w =>
  match run_body tool args ctx w with
  | (Raise TimeoutError, w') =>
      (failure "TIMEOUT" ("tool execution exceeded timeout_s=" +:+ show_float (ctx_timeout_s ctx)) None, w')
  | (Raise e, w') =>
      (failure "TOOL_ERROR" ("tool raised " +:+ exn_name e) (Some [("exception_type", JStr (exn_name e))]), w')
  | (Ok (RawInvalid errors), w') =>
      (failure "TOOL_ERROR" "tool returned invalid result" (Some [("errors", errors)]), w')
  | (Ok (RawResult r), w') =>
      match ToolResult_validate r with
      | Raise (ValidationError es) =>
          (failure "TOOL_ERROR" "tool returned invalid result" (Some [("errors", errors_of es)]), w')
      | other => (other, w')
      end
  end.

(** [ToolResult.model_validate(payload)] of a payload whose sanitised entries can
    be any JSON value. *)
Definition as_str (v : json) : res string := match v with JStr s => Ok s | _ => Raise (ValueError "string_type") end.
Definition as_dict (v : json) : res (list (string * json)) :=
  match v with JObj l => Ok l | _ => Raise (ValueError "dict_type") end.
Definition as_artifacts (v : json) : res json :=
  match v with
  | JArr l => if forallb (fun x => match x with JObj _ => true | _ => false end) l then Ok v else Raise (ValueError "dict_type")
  | _ => Raise (ValueError "list_type")
  end.

Definition map_option {A B} (f : A -> res B) (o : option A) : res (option B) :=
  match o with None => Ok None | Some v => w ← f v; Ok (Some w) end.

Definition ToolResult_of_payload (is_ok : bool) (data : option json) (error_code : option string)
    (error_message debug produced_artifacts : option json) : res ToolResult :=
  run (after ToolResult_invariants (VOk mkToolResult
    <*> VOk is_ok
    <*> field "data" (require_json_serializable "data" data)
    <*> field "error_code" (normalize_error_str "error_code" error_code)
    <*> field "error_message" (m ← map_option as_str error_message; normalize_error_str "error_message" m)
    <*> field "debug" (d ← map_option as_dict debug; optional_dict "debug" d)
    <*> field "produced_artifacts"
          (a ← map_option as_artifacts produced_artifacts; require_json_serializable "produced_artifacts" a)))%py.

(** [ToolRunner._sanitize_result] *)
Definition sanitize_result (settings_max_output_bytes tool_manifest_max_output_bytes : Z) (result : ToolResult)
  : res ToolResult :=
  let max_output_bytes := Z.min settings_max_output_bytes tool_manifest_max_output_bytes in
  let clean := sanitize_tool_output max_output_bytes in
  if negb (is_set (data result) || is_set (error_message result) || is_set (debug result) ||
           is_set (produced_artifacts result))
  then Ok result
  else ToolResult_of_payload (ok result) (option_map clean (data result)) (error_code result)
         (option_map (fun m => clean (JStr m)) (error_message result))
         (option_map (fun d => clean (JObj d)) (debug result))
         (option_map clean (produced_artifacts result)).

(** [ToolRunner.run_tool] *)
Definition run_tool (registry : ToolRegistry.t) (settings_max_output_bytes : Z)
    (backend : Tool -> parsed_args -> ToolContext -> st W ToolResult)
    (tool_name : string) (raw_args : list (string * json)) (ctx : ToolContext) : st W ToolResult :=
  let sanitized (limit : Z) (r : res ToolResult) : st W ToolResult :=
    lift (result ← r; sanitize_result settings_max_output_bytes limit result) in
  match ToolRegistry.get tool_name registry with
  | Raise (KeyError msg) =>
      sanitized settings_max_output_bytes (failure "UNKNOWN_TOOL" (str_KeyError msg) None)
  | Raise e => throw e
  | Ok tool =>
      let limit := mf_max_output_bytes (manifest tool) in
      match ArgsModel tool raw_args with
      | Invalid errors => sanitized limit (failure "INVALID_ARGS" "invalid tool args" (Some [("errors", errors)]))
      | Valid args_model =>
          match normalize_tool_args (ctx_workspace_root ctx) args_model with
          | Raise (ValueError msg) => sanitized limit (failure "INVALID_ARGS" msg None)
          | Raise e => throw e
          | Ok normalized_args => fun w =>
              match backend tool normalized_args ctx w with
              | (Raise e, w') =>
                  sanitized limit (failure "TOOL_ERROR" "tool backend failed"
                                     (Some [("exception_type", JStr (exn_name e))])) w'
              | (Ok result, w') => sanitized limit (Ok result) w'
              end
          end
      end
  end.
End runner.

(** ** The runner returns

    What the sanitiser promises for a budget of at least one byte: JSON, text that
    is not blank for text that is not blank, and a dictionary for a dictionary.
    It does not keep a list of dictionaries one: what is cut off is replaced by a
    piece of text. *)
Record SanitizerLaws (clean : json -> json) : Prop := {
  sl_json : forall v, jsonable (clean v) = true;
  sl_str : forall s, strip s <> "" -> exists s', clean (JStr s) = JStr s' /\ strip s' <> "";
  sl_dict : forall d, exists d', clean (JObj d) = JObj d';
}.

Lemma normalize_error_str_Ok f v w : normalize_error_str f v = Ok w -> forall s, w = Some s -> strip s <> "".
Proof.
  destruct v as [v|]; cbn; [|by intros [= <-]]. destruct (is_empty (strip v)) eqn:E; [done|]. intros [= <-] s [= <-].
  rewrite strip_idemp. intros H. by rewrite H in E.
Qed.

(** A result a tool can hold: validated, with artifacts that are a list of dictionaries. *)
Definition result_ok (r : ToolResult) : Prop :=
  ToolResult_invariants r = Ok tt /\
  (forall s, error_code r = Some s -> strip s = s /\ s <> "") /\ (forall s, error_message r = Some s -> strip s <> "") /\
  (forall v, produced_artifacts r = Some v -> is_ok (as_artifacts v) = true).

(** The artifacts are no list of dictionaries any more. *)
Definition artifacts_cut (clean : json -> json) (r : ToolResult) : Prop :=
  exists v, produced_artifacts r = Some v /\ is_ok (as_artifacts (clean v)) = false.

Lemma as_artifacts_same v : is_ok (as_artifacts v) = true -> as_artifacts v = Ok v.
Proof. unfold as_artifacts. destruct v as [| | | | |l|l|]; try done. by destruct (forallb _ l). Qed.
Lemma as_artifacts_raises v : is_ok (as_artifacts v) = false -> exists m, as_artifacts v = Raise (ValueError m).
Proof. unfold as_artifacts. destruct v as [| | | | |l|l|]; try by eexists. destruct (forallb _ l); [done|by eexists]. Qed.

Lemma sanitize_returns clean_of a b r : SanitizerLaws (clean_of (Z.min a b)) -> result_ok r ->
  (exists r', sanitize_result clean_of a b r = Ok r' /\ ok r' = ok r /\ error_code r' = error_code r) \/
  (artifacts_cut (clean_of (Z.min a b)) r /\ exists es, sanitize_result clean_of a b r = Raise (ValidationError es)).
Proof.
  intros Hl (H1 & H2 & H3 & H4). unfold sanitize_result. set (clean := clean_of (Z.min a b)).
  destruct Hl as [L1 L2 L3]. fold clean in L1, L2, L3.
  destruct (negb _); [left; by exists r|]. unfold ToolResult_of_payload.
  assert (exists c, normalize_error_str "error_code" (error_code r) = Ok c /\ c = error_code r) as (c & -> & ->).
  { destruct (error_code r) as [s|]; [|by exists None]. destruct (H2 s eq_refl) as [E1 E2]. cbn. rewrite E1.
    destruct (is_empty s) eqn:E; [by apply is_empty_spec in E|]. eauto. }
  assert (exists m, (m ← map_option as_str (option_map (fun m => clean (JStr m)) (error_message r));
    normalize_error_str "error_message" m) = Ok m /\ is_set m = is_set (error_message r)) as (m & -> & Hm).
  { destruct (error_message r) as [s|]; [|by exists None]. destruct (L2 s (H3 s eq_refl)) as (s' & E1 & E2).
    cbn. rewrite E1. cbn. destruct (is_empty (strip s')) eqn:E; [by apply is_empty_spec in E|]. eauto. }
  assert (exists d, (d ← map_option as_dict (option_map (fun d => clean (JObj d)) (debug r)); optional_dict "debug" d) = Ok d) as (d & ->).
  { destruct (debug r) as [d|]; [|by exists None]. destruct (L3 d) as (d' & E1).
    pose proof (L1 (JObj d)) as Hj. rewrite E1 in Hj. cbn [option_map map_option]. rewrite E1.
    cbn [as_dict mbind res_bind]. unfold optional_dict. rewrite Hj. eauto. }
  assert (exists x, require_json_serializable "data" (option_map clean (data r)) = Ok x) as (x & ->).
  { destruct (data r) as [v'|]; cbn; [rewrite L1|]; eauto. }
  assert ((exists v, (a ← map_option as_artifacts (option_map clean (produced_artifacts r));
      require_json_serializable "produced_artifacts" a) = Ok v) \/
    artifacts_cut clean r /\ exists m, (a ← map_option as_artifacts (option_map clean (produced_artifacts r));
      require_json_serializable "produced_artifacts" a) = Raise (ValueError m)) as [(v & ->)|(Hcut & e & ->)].
  { unfold artifacts_cut. destruct (produced_artifacts r) as [v|]; [|left; by exists None].
    cbn [option_map map_option]. destruct (is_ok (as_artifacts (clean v))) eqn:Ec.
    - left. rewrite as_artifacts_same by done. cbn. rewrite L1. eauto.
    - right. split; [by exists v|]. destruct (as_artifacts_raises _ Ec) as [m' ->]. by exists m'. }
  - left. cbn. unfold after.
    assert (ToolResult_invariants (mkToolResult (ok r) x (error_code r) m d v) = Ok tt) as ->; [|by eexists].
    unfold ToolResult_invariants in *. cbn. by rewrite Hm.
  - right. split; [done|]. eexists. by cbn.
Qed.

Lemma sanitize_failure clean_of a b r : SanitizerLaws (clean_of (Z.min a b)) -> result_ok r -> produced_artifacts r = None ->
  exists r', sanitize_result clean_of a b r = Ok r' /\ ok r' = ok r.
Proof.
  intros Hl Hr Hp. destruct (sanitize_returns clean_of a b r Hl Hr) as [(r' & ? & ? & _)|[(v & Hv & _) _]]; [eauto|]. by rewrite Hp in Hv.
Qed.

Lemma strip_solid c s : is_space c = false -> strip (String c s) <> "".
Proof. intros Hc. unfold strip, strip_by. cbn [lstrip_by]. rewrite Hc. cbn [rstrip_by]. rewrite Hc. by destruct (rstrip_by _ s). Qed.

Lemma failure_ok code msg debug r : failure code msg debug = Ok r ->
  result_ok r /\ ok r = false /\ produced_artifacts r = None.
Proof.
  unfold failure, ToolResult_validate. cbn [ok data error_code error_message Decision.debug produced_artifacts]. intros H.
  vld_inv. cbn [require_json_serializable] in *. simplify_eq.
  match goal with H : normalize_error_str "error_code" _ = Ok ?c |- _ => rename H into Hc end.
  match goal with H : normalize_error_str "error_message" _ = Ok ?m |- _ => rename H into Hm end.
  split; [split; [done|]|].
  - cbn [error_code error_message produced_artifacts]. split; [|split; [|done]].
    + intros s E. cbn in Hc. destruct (is_empty (strip code)) eqn:Ec; [done|]. injection Hc as <-. injection E as <-.
      split; [apply strip_idemp|]. intros E. by rewrite E in Ec.
    + intros s E. by eapply normalize_error_str_Ok.
  - done.
Qed.

Lemma failure_returns code msg debug : strip code <> "" -> strip msg <> "" -> jsonable (JObj (default [] debug)) = true ->
  exists r, failure code msg debug = Ok r.
Proof.
  intros Hc Hm Hd. unfold failure, ToolResult_validate.
  cbn [ok data error_code error_message Decision.debug produced_artifacts normalize_error_str require_json_serializable].
  destruct (is_empty (strip code)) eqn:E1; [by apply is_empty_spec in E1|].
  destruct (is_empty (strip msg)) eqn:E2; [by apply is_empty_spec in E2|].
  destruct debug as [d|]; unfold optional_dict; [change (jsonable (JObj d) = true) in Hd; rewrite Hd|]; cbn; eauto.
Qed.

(** Validation collects errors unless a check raises something else. *)
Definition collected {A} (r : res A) : Prop :=
  match r with Ok _ | Raise (ValueError _) | Raise AssertionError | Raise (ValidationError _) => True | _ => False end.
Definition no_abort {A} (x : vld A) : Prop := forall e, x <> VAbort e.

Lemma no_abort_vap {A B} (f : vld (A -> B)) x : no_abort f -> no_abort x -> no_abort (vap f x).
Proof. unfold no_abort. intros Hf Hx e. destruct f, x; cbn; try done; intros [= ->]; first [by eapply Hf|by eapply Hx]. Qed.
Lemma no_abort_field {A} loc (r : res A) : collected r -> no_abort (field loc r).
Proof. by destruct r as [|[]]. Qed.
Lemma no_abort_after {A} check (x : vld A) : no_abort x -> (forall a, collected (check a)) -> no_abort (after check x).
Proof. intros Hx Hc. destruct x; cbn; [|done..]. by apply (no_abort_vap (VOk (fun _ : unit => a))), no_abort_field. Qed.
Lemma no_abort_run {A} (x : vld A) : no_abort x -> (exists a, run x = Ok a) \/ exists es, run x = Raise (ValidationError es).
Proof. destruct x; cbn; [eauto..|]. intros H. by destruct (H e). Qed.

Section returns.
Context `{Checks} {W : Type}.
Variables (workspace_root : string).

(** The checks of paths and URLs refuse with a [ValueError] that says why. *)
Hypothesis path_refusal : forall p root e, resolve_path_in_workspace p root = Raise e ->
  exists m, e = ValueError m /\ strip m <> "".
Hypothesis url_refusal : forall u l e, validate_and_normalize_url u l = Raise e ->
  exists m, e = ValueError m /\ strip m <> "".

Lemma normalize_value_raises f v e : normalize_value workspace_root f v = Raise e ->
  exists m, e = ValueError m /\ strip m <> "".
Proof.
  revert f v e. fix IH 2. intros f [s|p|fields|items|items|v] e; cbn [normalize_value].
  - destruct (contains _ _); [|done]. unfold normalize_http_url.
    destruct (validate_and_normalize_url s None) eqn:E; [done|]. intros [= <-]. by eapply url_refusal.
  - unfold normalize_path_in_workspace.
    destruct (resolve_path_in_workspace p workspace_root) eqn:E; [done|]. intros [= <-]. by eapply path_refusal.
  - match goal with |- ((_ ← ?g fields; _) = _) -> _ => assert (forall e, g fields = Raise e -> exists m, e = ValueError m /\ strip m <> "") as Hg end.
    { clear e. induction fields as [|[n v] fields IHf]; intros e; cbn; [done|].
      destruct (normalize_value workspace_root n v) eqn:E; cbn; [|intros [= <-]; by eapply IH].
      match goal with |- context [mbind _ ?x] => destruct x eqn:E2 end; cbn; [done|]. intros [= <-]. by apply IHf. }
    match goal with |- context [mbind _ ?x] => destruct x eqn:E end; cbn; [done|]. intros [= <-]. by apply Hg.
  - match goal with |- ((_ ← ?g items; _) = _) -> _ => assert (forall e, g items = Raise e -> exists m, e = ValueError m /\ strip m <> "") as Hg end.
    { clear e. induction items as [|v items IHf]; intros e; cbn; [done|].
      destruct (normalize_value workspace_root f v) eqn:E; cbn; [|intros [= <-]; by eapply IH].
      match goal with |- context [mbind _ ?x] => destruct x eqn:E2 end; cbn; [done|]. intros [= <-]. by apply IHf. }
    match goal with |- context [mbind _ ?x] => destruct x eqn:E end; cbn; [done|]. intros [= <-]. by apply Hg.
  - match goal with |- ((_ ← ?g items; _) = _) -> _ => assert (forall e, g items = Raise e -> exists m, e = ValueError m /\ strip m <> "") as Hg end.
    { clear e. induction items as [|[n v] items IHf]; intros e; cbn; [done|].
      destruct (normalize_value workspace_root f v) eqn:E; cbn; [|intros [= <-]; by eapply IH].
      match goal with |- context [mbind _ ?x] => destruct x eqn:E2 end; cbn; [done|]. intros [= <-]. by apply IHf. }
    match goal with |- context [mbind _ ?x] => destruct x eqn:E end; cbn; [done|]. intros [= <-]. by apply Hg.
  - done.
Qed.

Lemma normalize_tool_args_raises args e : normalize_tool_args workspace_root args = Raise e ->
  exists m, e = ValueError m /\ strip m <> "".
Proof.
  induction args as [|[n v] args IH]; cbn; [done|].
  destruct (normalize_value workspace_root n v) eqn:E; cbn; [|intros [= <-]; by eapply normalize_value_raises].
  destruct (normalize_tool_args workspace_root args) eqn:E2; cbn; [done|]. intros [= <-]. by apply IH.
Qed.
End returns.

Section runner_returns.
Context `{Checks} {W : Type}.
Variable run_body : Tool -> parsed_args -> ToolContext -> st W raw_result.
Variable show_float : spec_float -> string.
Variable sanitize_tool_output : Z -> json -> json.
Variable errors_of : list (string * exn) -> json.

Hypothesis path_refusal : forall p root e, resolve_path_in_workspace p root = Raise e ->
  exists m, e = ValueError m /\ strip m <> "".
Hypothesis url_refusal : forall u l e, validate_and_normalize_url u l = Raise e ->
  exists m, e = ValueError m /\ strip m <> "".
Hypothesis sanitizer : forall n, 0 < n -> SanitizerLaws (sanitize_tool_output n).
(** Error reports are JSON, and artifacts are a list of dictionaries by their type. *)
Variable registry : ToolRegistry.t.
Hypothesis budgets : forall name tool, aget name registry = Some tool -> 0 < mf_max_output_bytes (manifest tool).
Hypothesis args_errors : forall name tool args errors,
  aget name registry = Some tool -> ArgsModel tool args = Invalid errors -> jsonable errors = true.
Hypothesis result_errors : forall es, jsonable (errors_of es) = true.
Hypothesis raw_errors : forall tool args ctx w errors w',
  run_body tool args ctx w = (Ok (RawInvalid errors), w') -> jsonable errors = true.
Hypothesis raw_artifacts : forall tool args ctx w r w' v,
  run_body tool args ctx w = (Ok (RawResult r), w') -> produced_artifacts r = Some v -> is_ok (as_artifacts v) = true.

Lemma ToolResult_validate_ok r r' : ToolResult_validate r = Ok r' ->
  (forall v, produced_artifacts r = Some v -> is_ok (as_artifacts v) = true) ->
  result_ok r' /\ ok r' = ok r /\ produced_artifacts r' = produced_artifacts r.
Proof.
  unfold ToolResult_validate. intros E Ha. vld_inv.
  match goal with H : normalize_error_str "error_code" _ = Ok ?c |- _ => rename H into Hc end.
  match goal with H : normalize_error_str "error_message" _ = Ok ?m |- _ => rename H into Hm end.
  match goal with H : require_json_serializable "produced_artifacts" _ = Ok _ |- _ => rename H into Hp end.
  assert (forall v, (produced_artifacts r) = v -> require_json_serializable "produced_artifacts" v = Ok v \/ exists e,
    require_json_serializable "produced_artifacts" v = Raise e) as Hkeep.
  { intros [v|] _; cbn; [destruct (jsonable v); eauto|eauto]. }
  destruct (Hkeep _ eq_refl) as [Hk|[e Hk]]; rewrite Hk in Hp; [injection Hp as <-|done]. clear Hkeep.
  split; [|done]. split; [done|]. cbn [error_code error_message produced_artifacts]. split; [|split; [|done]].
  - intros s ->. unfold normalize_error_str in Hc. destruct (error_code r) as [c|]; [|done].
    destruct (is_empty (strip c)) eqn:Ec; [done|]. injection Hc as <-. split; [apply strip_idemp|].
    intros E. by rewrite E in Ec.
  - intros s ->. by eapply normalize_error_str_Ok.
Qed.

Lemma ToolResult_validate_raises r e : ToolResult_validate r = Raise e -> exists es, e = ValidationError es.
Proof.
  unfold ToolResult_validate. match goal with |- run ?x = _ -> _ => destruct (no_abort_run x) as [[a ->]|[es ->]] end.
  - assert (forall f v, collected (require_json_serializable f v)) as Hj by (intros f [v|]; cbn; by repeat case_match).
    assert (forall f v, collected (normalize_error_str f v)) as Hs by (intros f [v|]; cbn; by repeat case_match).
    apply no_abort_after; [|by intros a; unfold ToolResult_invariants, raise_if; repeat case_match].
    repeat apply no_abort_vap; try apply no_abort_field; try done; try apply Hj; try apply Hs.
    unfold optional_dict. by repeat case_match.
  - done.
  - intros [= <-]. eauto.
Qed.

Lemma jsonable_entry k v : jsonable (JObj [(k, v)]) = jsonable v.
Proof. cbn. by rewrite andb_true_r. Qed.

(** The tool ran and gave a result: when the outcome says [ok], or has artifacts. *)
Definition backend_ran tool args ctx w (r : ToolResult) (w' : W) : Prop :=
  ok r = true \/ is_set (produced_artifacts r) = true -> exists raw,
    run_body tool args ctx w = (Ok (RawResult raw), w') /\ ok raw = ok r /\ produced_artifacts raw = produced_artifacts r.
Lemma failure_ran tool args ctx w r w' : ok r = false -> produced_artifacts r = None -> backend_ran tool args ctx w r w'.
Proof. intros Hok Ha. unfold backend_ran. rewrite Hok, Ha. by intros [|]. Qed.

(** What the in-process backend answers, whatever the tool does. *)
Lemma execute_in_process_returns tool args ctx w :
  exists r w', execute_in_process run_body show_float errors_of tool args ctx w = (Ok r, w') /\ result_ok r /\
    backend_ran tool args ctx w r w'.
Proof.
  assert (forall msg k v w', strip msg <> "" -> jsonable v = true -> exists r w'',
    (failure "TOOL_ERROR" msg (Some [(k, v)]), w' : W) = (Ok r, w'') /\ result_ok r /\
    backend_ran tool args ctx w r w'') as Hf.
  { intros msg k v w' Hm Hv. destruct (failure_returns "TOOL_ERROR" msg (Some [(k, v)])) as (r & E); [done|done| |].
    { change (jsonable (JObj [(k, v)]) = true). by rewrite jsonable_entry. }
    exists r, w'. rewrite E. split; [done|]. apply failure_ok in E as (? & ? & ?). split; [done|]. by apply failure_ran. }
  unfold execute_in_process. destruct (run_body tool args ctx w) as [[[raw|errors]|e] w'] eqn:E.
  - destruct (ToolResult_validate raw) as [r|e] eqn:Ev.
    + exists r, w'. split; [done|]. apply ToolResult_validate_ok in Ev as (? & Hok & Ha); [|by intros v; eapply raw_artifacts].
      split; [done|]. intros _. by exists raw.
    + apply ToolResult_validate_raises in Ev as (es & ->). by apply Hf.
  - apply Hf; [done|]. by eapply raw_errors.
  - destruct e; try (apply Hf; [by apply strip_solid|done]).
    destruct (failure_returns "TIMEOUT" ("tool execution exceeded timeout_s=" +:+ show_float (ctx_timeout_s ctx)) None)
      as (r & Er); [done|by apply strip_solid|done|].
    exists r, w'. rewrite Er. split; [done|]. apply failure_ok in Er as (? & ? & ?). split; [done|]. by apply failure_ran.
Qed.

(** The registered tool ran, on the arguments parsed and normalised. *)
Definition tool_ran name raw_args ctx w raw w' : Prop :=
  exists tool parsed normalized, ToolRegistry.get name registry = Ok tool /\ ArgsModel tool raw_args = Valid parsed /\
    normalize_tool_args (ctx_workspace_root ctx) parsed = Ok normalized /\ run_body tool normalized ctx w = (Ok (RawResult raw), w').

(** the tool runner returns. Whatever the tool does (raise, run out of
    time, return something that is not a result), whether or not it is
    registered and its arguments parse and normalise, [run_tool] gives a
    result, with one exception: after a tool ran whose artifacts are beyond the
    budget of its output, what the sanitiser leaves of them is no list of
    dictionaries and a [ValidationError] is raised. A result that says [ok]
    comes from the registered tool, run once on the arguments parsed and confined
    to the workspace and the allowed URLs. *)
Theorem run_tool_returns limit name raw_args ctx w : 0 < limit ->
  exists out w', run_tool sanitize_tool_output registry limit (execute_in_process run_body show_float errors_of)
                   name raw_args ctx w = (out, w') /\
    match out with
    | Ok r => ok r = true -> exists raw, tool_ran name raw_args ctx w raw w' /\ ok raw = true
    | Raise e => (exists es, e = ValidationError es) /\ exists raw tool, tool_ran name raw_args ctx w raw w' /\
        aget name registry = Some tool /\ artifacts_cut (sanitize_tool_output (Z.min limit (mf_max_output_bytes (manifest tool)))) raw
    end.
Proof.
  intros Hlimit.
  assert (forall code msg debug lim (P : ToolResult -> W -> Prop) (Q : exn -> W -> Prop), 0 < lim -> strip code <> "" -> strip msg <> "" ->
    jsonable (JObj (default [] debug)) = true -> exists out w',
    lift (result ← failure code msg debug; sanitize_result sanitize_tool_output limit lim result) w = (out, w') /\
    match out with Ok r => ok r = true -> P r w' | Raise e => Q e w' end) as Hf.
  { intros code msg debug lim P Q Hlim Hc Hm Hd. destruct (failure_returns code msg debug Hc Hm Hd) as (r & E).
    rewrite E. apply failure_ok in E as (Hr & Hok & Ha).
    destruct (sanitize_failure sanitize_tool_output limit lim r (sanitizer (Z.min limit lim) ltac:(lia)) Hr Ha) as (r' & E' & Hok').
    exists (Ok r'), w. unfold lift. cbn [mbind res_bind]. rewrite E'. split; [done|]. by rewrite Hok', Hok. }
  unfold run_tool, tool_ran, ToolRegistry.get. destruct (aget name registry) as [tool|] eqn:Et.
  2: { apply Hf; [lia|done| |done]. unfold str_KeyError, py_repr. destruct (_ && _); by apply strip_solid. }
  pose proof (budgets _ _ Et) as Hbudget.
  destruct (ArgsModel tool raw_args) as [parsed|errors] eqn:Ea.
  - destruct (normalize_tool_args (ctx_workspace_root ctx) parsed) as [normalized|e] eqn:En.
    + destruct (execute_in_process_returns tool normalized ctx w) as (r & w' & -> & Hr & Hrun).
      unfold lift. cbn [mbind res_bind].
      destruct (sanitize_returns sanitize_tool_output limit (mf_max_output_bytes (manifest tool)) r (sanitizer (Z.min limit (mf_max_output_bytes (manifest tool))) ltac:(lia)) Hr)
        as [(r' & E' & Hok' & _)|[(v & Hv & Hcut) [es E']]]; rewrite E'.
      * exists (Ok r'), w'. split; [done|]. rewrite Hok'. intros Hok. destruct (Hrun (or_introl Hok)) as (raw & Eraw & Hraw & _).
        exists raw. split; [by exists tool, parsed, normalized|]. by rewrite Hraw.
      * exists (Raise (ValidationError es)), w'. split; [done|]. split; [eauto|].
        destruct (Hrun ltac:(right; by rewrite Hv)) as (raw & Eraw & _ & Ha). exists raw, tool. split; [by exists tool, parsed, normalized|].
        split; [done|]. exists v. by rewrite Ha.
    + destruct (normalize_tool_args_raises (ctx_workspace_root ctx) path_refusal url_refusal parsed e En) as (m & -> & Hm).
      by apply Hf.
  - apply Hf; [lia|done|done|]. change (jsonable (JObj [("errors", errors)]) = true). rewrite jsonable_entry.
    by eapply args_errors.
Qed.
End runner_returns.

(** ** The sanitiser of the program keeps the promise *)
Definition sanitizer (float_repr : spec_float -> string) (redact_text : string -> string) (max_run_packet_bytes max_tool_output_bytes : Z)
    (v : json) : json :=
  match Redaction.sanitize_tool_output float_repr redact_text max_run_packet_bytes max_tool_output_bytes v with Ok w => w | Raise _ => JNull end.

Lemma sanitizer_laws float_repr redact_text packet n : (forall s, strip s <> "" -> strip (redact_text s) <> "") ->
  0 < packet -> 0 < n -> SanitizerLaws (sanitizer float_repr redact_text packet n).
Proof.
  intros Hr Hp Hn. unfold sanitizer. split.
  - intros v. by destruct (sanitized_json float_repr redact_text packet n (conj Hp Hn) v) as (w & -> & Hw).
  - intros s Hs. destruct (sanitized_str float_repr redact_text packet n (conj Hp Hn) s Hr Hs) as (s' & -> & Hs'). eauto.
  - intros d. destruct (sanitized_dict float_repr redact_text packet n (conj Hp Hn) d) as (d' & ->). eauto.
Qed.

(** ** A tool that reads a file *)
Definition sample_clean : Z -> json -> json := sanitizer (fun _ => "1.5") id 512000.
Lemma sample_clean_laws n : 0 < n -> SanitizerLaws (sample_clean n).
Proof. by apply sanitizer_laws. Qed.

Definition read_args_model (args : list (string * json)) : validation :=
  match aget "path" args with Some (JStr p) => Valid [("path", APath p)] | _ => Invalid (JArr [JStr "path: Field required"]) end.
Definition read_tool : Tool := mkTool read_manifest read_args_model.
Definition read_registry : ToolRegistry.t := [("fs.read_text", read_tool)].

(** It counts its calls and answers with the path it read. *)
Definition read_body (tool : Tool) (args : parsed_args) (ctx : ToolContext) : st nat raw_result := fun n =>
  match aget "path" args with
  | Some (APath p) => (Ok (RawResult (mkToolResult true (Some (JStr p)) None None None None)), S n)
  | _ => (Raise (TypeError "path"), n)
  end.

Definition sample_tool_context : ToolContext := mkToolContext "/ws" false (of_Z 60) [].

Lemma run_tool_returns_witness : exists r w',
  @run_tool sample_checks nat sample_clean read_registry 1000
    (execute_in_process read_body (fun _ => "60.0") (fun _ => JNull)) "fs.read_text" [("path", JStr "a.txt")]
    sample_tool_context 0%nat = (Ok r, w') /\ data r = Some (JStr "/ws/a.txt") /\
  exists tool, ToolRegistry.get "fs.read_text" read_registry = Ok tool.
Proof.
  assert (forall name tool args errors, aget name read_registry = Some tool -> ArgsModel tool args = Invalid errors ->
    jsonable errors = true) as Ha.
  { intros name tool args errors Hg. cbn in Hg. destruct (decide _); [|done]. injection Hg as <-. cbn. unfold read_args_model.
    destruct (aget "path" args) as [[]|]; try done; by intros [= <-]. }
  edestruct (@run_tool_returns sample_checks nat read_body (fun _ => "60.0") sample_clean (fun _ => JNull))
    with (registry := read_registry) (limit := 1000) (name := "fs.read_text") (raw_args := [("path", JStr "a.txt")])
      (ctx := sample_tool_context) (w := 0%nat) as (r & w' & E & Hok).
  - done.
  - intros u l e [= <-]. by eexists.
  - exact sample_clean_laws.
  - intros name tool Hg. cbn in Hg. destruct (decide _); [|done]. injection Hg as <-. reflexivity.
  - exact Ha.
  - done.
  - intros tool args ctx w errors w'. unfold read_body. by destruct (aget "path" args) as [[]|].
  - intros tool args ctx w r w' v. unfold read_body. destruct (aget "path" args) as [[]|]; try done.
    by intros [= <- <-].
  - reflexivity.
  - vm_compute in E. injection E as <- <-. destruct (Hok eq_refl) as (raw & (tool & _ & _ & Ht & _) & _).
    eexists _, _. split; [vm_compute; reflexivity|]. split; [reflexivity|]. exists tool. exact Ht.
Defined.

(** A tool whose artifacts are more than the sanitiser keeps has run, and the
    runner raises. *)
Definition listing_body (tool : Tool) (args : parsed_args) (ctx : ToolContext) : st nat raw_result := fun n =>
  (Ok (RawResult (mkToolResult true None None None None (Some (JArr (repeat (JObj [("path", JStr "a.txt")]) 201))))), S n).
Example artifacts_cut_raises :
  @run_tool sample_checks nat sample_clean read_registry 64000
    (execute_in_process listing_body (fun _ => "60.0") (fun _ => JNull)) "fs.read_text" [("path", JStr "a.txt")] sample_tool_context 0%nat =
  (Raise (ValidationError [("produced_artifacts", ValueError "dict_type")]), 1%nat).
Proof. by vm_compute. Qed.
