(* ===== verification/PlanValidation.v ===== *)
(** * From proposed tasks to tasks: [orchestrator/validation.py]

    The check of the dependency names of a plan (a depth-first search for
    cycles), the idempotency key, and [PlanValidator]. The search is recursive:
    [limit] is the number of nested calls Python's stack has room for, and a
    call past it raises [RecursionError]. The results: the search ends within a
    depth of the number of tasks, it accepts exactly the plans whose names are
    distinct and whose dependencies are known and free of cycles, and the tasks
    that are built are valid, only use enabled scopes, carry pairwise distinct
    idempotency keys and can be run in some order. *)

From Stdlib Require Import ZArith SpecFloat Lia.
From S2P Require Import Prelude PyFloat PyText Uuid Models Serialization Events Plans Decision Policy Tools.

(** ** Dependency names *)

(** The inner loop of the second pass: without duplicates, every name checked. *)
Fixpoint dedupe_dependencies (names : list string) (task_name : string) (seen deduped depends_on : list string)
  : res (list string) :=
  match depends_on with
  | [] => Ok deduped
  | dependency_name :: rest =>
      if (dependency_name =? task_name)%string
      then Raise (PlanValidationError ("task " +:+ py_repr task_name +:+ " cannot depend on itself"))
      else if negb (bool_decide (dependency_name ∈ names))
      then Raise (PlanValidationError ("task " +:+ py_repr task_name +:+ " depends on unknown task " +:+ py_repr dependency_name))
      else if bool_decide (dependency_name ∈ seen) then dedupe_dependencies names task_name seen deduped rest
      else dedupe_dependencies names task_name (dependency_name :: seen) (deduped ++ [dependency_name]) rest
  end%list.

(** The first pass. *)
Fixpoint check_names (seen : list string) (tasks : list ProposedTask) : res unit :=
  match tasks with
  | [] => Ok tt
  | t :: rest =>
      if bool_decide (pt_name t ∈ seen) then Raise (PlanValidationError ("duplicate task name in plan: " +:+ py_repr (pt_name t)))
      else check_names (pt_name t :: seen) rest
  end.

Fixpoint normalize_all (names : list string) (tasks : list ProposedTask) : res (list (string * list string)) :=
  match tasks with
  | [] => Ok []
  | t :: rest =>
      deduped ← dedupe_dependencies names (pt_name t) [] [] (pt_depends_on t);
      normalized ← normalize_all names rest;
      Ok ((pt_name t, deduped) :: normalized)
  end.

(** The sets of the search. *)
Record marks := mkMarks { visiting : gset string; visited : gset string }.

Fixpoint fold_res {A S} (f : A -> S -> res S) (l : list A) (s : S) : res S :=
  match l with [] => Ok s | x :: l' => s' ← f x s; fold_res f l' s' end.

(** [visit(name)] with room for [limit] nested calls. *)
Fixpoint visit (limit : nat) (normalized : list (string * list string)) (name : string) (m : marks) : res marks :=
  match limit with
  | O => Raise (OtherError "RecursionError" "maximum recursion depth exceeded")
  | S limit =>
      if bool_decide (name ∈ visited m) then Ok m
      else if bool_decide (name ∈ visiting m)
      then Raise (PlanValidationError ("cyclic dependency detected at task " +:+ py_repr name))
      else
        m' ← fold_res (visit limit normalized) (default [] (aget name normalized)) (mkMarks ({[name]} ∪ visiting m) (visited m));
        Ok (mkMarks (visiting m' ∖ {[name]}) ({[name]} ∪ visited m'))
  end.

Definition normalize_dependency_names (limit : nat) (tasks : list ProposedTask) : res (list (string * list string)) :=
  check_names [] tasks;;
  normalized ← normalize_all (map pt_name tasks) tasks;
  fold_res (visit limit normalized) (keys normalized) (mkMarks ∅ ∅);;
  Ok normalized.

(** ** What the first two passes establish *)
Section passes.
Variable tasks : list ProposedTask.
Let names := map pt_name tasks.

Lemma check_names_spec seen l : match check_names seen l with
  | Ok _ => NoDup (map pt_name l) /\ forall n, n ∈ map pt_name l -> n ∉ seen
  | Raise e => (exists m, e = PlanValidationError m) /\ (NoDup (map pt_name l) -> exists n, n ∈ map pt_name l /\ n ∈ seen)
  end.
Proof.
  revert seen. induction l as [|t l IH]; intros seen; cbn; [split; [constructor|set_solver]|].
  case_bool_decide as Hin; [split; [eauto|]; intros _; exists (pt_name t); set_solver|].
  specialize (IH (pt_name t :: seen)). destruct (check_names _ l) as [u|e].
  - destruct IH as [Hd Hn]. split; [|set_solver]. constructor; [|done]. intros Ht. apply (Hn _ Ht). by left.
  - destruct IH as [He Hd]. split; [done|]. intros [Ht Hnd]%NoDup_cons. destruct (Hd Hnd) as (n & Hn & Hs). set_solver.
Qed.

(** The dependencies of a task, each once, in order of first appearance. *)
Lemma dedupe_spec ns n seen acc l : match dedupe_dependencies ns n seen acc l with
  | Ok r => (forall d, d ∈ r <-> d ∈ acc \/ d ∈ l /\ d ∉ seen) /\ (forall d, d ∈ l -> d <> n /\ d ∈ ns)
  | Raise e => (exists m, e = PlanValidationError m) /\ exists d, d ∈ l /\ (d = n \/ d ∉ ns)
  end.
Proof.
  revert seen acc. induction l as [|d l IH]; intros seen acc; cbn [dedupe_dependencies].
  { split; [|set_solver]. intros d. set_solver. }
  destruct (String.eqb_spec d n) as [->|Hn]; [split; [eauto|]; exists n; set_solver|].
  case_bool_decide as Hns; cbn [negb]; [|split; [eauto|]; exists d; set_solver].
  case_bool_decide as Hs.
  - specialize (IH seen acc). destruct (dedupe_dependencies _ _ _ _ _); [|set_solver]. destruct IH as [H1 H2]. split.
    + intros x. rewrite H1, elem_of_cons. destruct (decide (x = d)); naive_solver.
    + intros x [->|Hx]%elem_of_cons; [done|by apply H2].
  - specialize (IH (d :: seen) (acc ++ [d])%list). destruct (dedupe_dependencies _ _ _ _ _); [|set_solver].
    destruct IH as [H1 H2]. split.
    + intros x. rewrite H1, elem_of_app, list_elem_of_singleton, !elem_of_cons. destruct (decide (x = d)); naive_solver.
    + intros x [->|Hx]%elem_of_cons; [done|by apply H2].
Qed.

Lemma normalize_all_spec ns l : match normalize_all ns l with
  | Ok r => keys r = map pt_name l /\ Forall2 (fun t p => forall d, d ∈ p.2 <-> d ∈ pt_depends_on t) l r /\
            forall t d, t ∈ l -> d ∈ pt_depends_on t -> d <> pt_name t /\ d ∈ ns
  | Raise e => (exists m, e = PlanValidationError m) /\ exists t d, t ∈ l /\ d ∈ pt_depends_on t /\ (d = pt_name t \/ d ∉ ns)
  end.
Proof.
  induction l as [|t l IH]; cbn; [split_and!; [done|constructor|set_solver]|].
  pose proof (dedupe_spec ns (pt_name t) [] [] (pt_depends_on t)) as Hd.
  destruct (dedupe_dependencies _ _ _ _ _) as [r|e]; cbn.
  - destruct Hd as [Hr Hk]. destruct (normalize_all ns l) as [rs|e]; cbn.
    + destruct IH as (Hks & Hf & Hl). split_and!; [by rewrite <- Hks|constructor; [intros d; cbn; rewrite Hr; set_solver|done]|].
      intros t' d [->|Ht]%elem_of_cons; [apply Hk|by apply Hl].
    + destruct IH as (He & t' & d & Ht & Hd & Hx). split; [done|]. exists t', d. set_solver.
  - destruct Hd as (He & d & Hd & Hx). split; [done|]. exists t, d. set_solver.
Qed.
End passes.

(** ** The search *)
Section search.
Variable g : list (string * list string).
Notation deps n := (default [] (aget n g)).
Notation nodes := (list_to_set (keys g) : gset string).
Definition edge (a b : string) : Prop := b ∈ deps a.
Hypothesis closed : forall a b, edge a b -> b ∈ nodes.

(** Orders in which every name comes after its dependencies. *)
Inductive finished : list string -> Prop :=
| finished_nil : finished []
| finished_snoc l n : finished l -> n ∉ l -> n ∈ nodes -> (forall d, edge n d -> d ∈ l) -> finished (l ++ [n]).

Record search_ok (m : marks) (l : list string) : Prop := {
  so_visited : visited m = list_to_set l;
  so_finished : finished l;
  so_disjoint : visiting m ## visited m;
  so_nodes : visiting m ⊆ nodes;
}.

(** What a call that found no cycle did. *)
Definition searched (m m' : marks) (l : list string) (done_names : list string) : Prop :=
  visiting m' = visiting m /\ exists l', search_ok m' (l ++ l') /\ forall n, n ∈ done_names -> n ∈ (l ++ l')%list.
Definition found_cycle (e : exn) : Prop := (exists msg, e = PlanValidationError msg) /\ exists x, tc edge x x.


Lemma loop_spec f V ns :
  (forall d m l, d ∈ ns -> search_ok m l -> visiting m = V ->
     match f d m with Ok m' => searched m m' l [d] | Raise e => found_cycle e end) ->
  forall m l, search_ok m l -> visiting m = V ->
  match fold_res f ns m with Ok m' => searched m m' l ns | Raise e => found_cycle e end.
Proof.
  induction ns as [|d ns IH]; intros Hf m l Hm HV; cbn [fold_res].
  { split; [done|]. exists []. rewrite app_nil_r. split; [done|set_solver]. }
  pose proof (Hf d m l ltac:(by left) Hm HV) as Hd. destruct (f d m) as [m2|e]; cbn; [|done].
  destruct Hd as (Hg2 & l2 & Hm2 & Hd2).
  specialize (IH ltac:(intros x; intros; by apply Hf; [right|..]) m2 (l ++ l2)%list Hm2 ltac:(congruence)).
  destruct (fold_res _ ns m2); [|done]. destruct IH as (Hg3 & l3 & Hm3 & Hd3). split; [congruence|].
  exists (l2 ++ l3)%list. rewrite app_assoc. split; [done|]. intros x [->|Hx]%elem_of_cons; [|by apply Hd3].
  apply elem_of_app. left. apply Hd2. by left.
Qed.

Lemma visit_spec limit n m l : search_ok m l -> n ∈ nodes -> (forall v, v ∈ visiting m -> tc edge v n) ->
  (size nodes < limit + size (visiting m))%nat ->
  match visit limit g n m with Ok m' => searched m m' l [n] | Raise e => found_cycle e end.
Proof.
  revert n m l. induction limit as [|limit IH]; intros n m l Hm Hn Hp Hl.
  { pose proof (subseteq_size _ _ (so_nodes _ _ Hm)). lia. }
  cbn [visit]. case_bool_decide as Hv.
  { split; [done|]. exists []. rewrite app_nil_r. split; [done|]. intros x ->%list_elem_of_singleton.
    rewrite (so_visited _ _ Hm) in Hv. set_solver. }
  case_bool_decide as Hg; [split; [eauto|]; exists n; by apply Hp|].
  assert (search_ok (mkMarks ({[n]} ∪ visiting m) (visited m)) l) as Hm1.
  { destruct Hm. split; cbn; [done|done|set_solver|set_solver]. }
  pose proof (loop_spec (visit limit g) ({[n]} ∪ visiting m) (deps n)) as Hloop.
  specialize (Hloop ltac:(intros d m1 l1 Hd Hm2 Hg1; apply IH; rewrite ?Hg1;
    [done|by eapply closed|intros v [->%elem_of_singleton|Hvm]%elem_of_union; [by apply tc_once|eapply tc_r; [by apply Hp|done]]
    |rewrite size_union, size_singleton by set_solver; lia]) _ l Hm1 ltac:(done)).
  destruct (fold_res _ _ _) as [m'|e]; cbn; [|done].
  destruct Hloop as (Hg' & l' & [Hv' Hf' Hx' Hn'] & Hd'). cbn in *.
  split; cbn; [set_solver|]. exists (l' ++ [n])%list. rewrite app_assoc. split; [|set_solver]. split; cbn.
  - rewrite Hv', list_to_set_app_L. cbn. set_solver.
  - constructor; [done| |done|intros d Hd; by apply Hd']. intros Hin. rewrite Hg', Hv' in Hx'. set_solver.
  - rewrite Hg', Hv' in *. set_solver.
  - set_solver.
Qed.

Lemma finished_ok l : finished l -> NoDup l /\ (forall n, n ∈ l -> n ∈ nodes) /\
  forall i n d, l !! i = Some n -> edge n d -> exists j, (j < i)%nat /\ l !! j = Some d.
Proof.
  induction 1 as [|l n Hl (Hd & Hn & Hj) Hnl Hnn He]; [split_and!; [constructor|set_solver|done]|]. split_and!.
  - apply NoDup_app. split_and!; [done|set_solver|apply NoDup_singleton].
  - set_solver.
  - intros i x d [Hi|[Hi [_ <-]%list_lookup_singleton_Some]]%lookup_app_Some Hxd.
    + destruct (Hj i x d Hi Hxd) as (j & Hlt & Hl'). exists j. split; [done|]. by apply lookup_app_l_Some.
    + apply He in Hxd as (j & Hl')%list_elem_of_lookup. exists j. split; [apply lookup_lt_Some in Hl'; lia|by apply lookup_app_l_Some].
Qed.

(** All names, from none visited. *)
Lemma search_spec limit : NoDup (keys g) -> (length (keys g) < limit)%nat ->
  match fold_res (visit limit g) (keys g) (mkMarks ∅ ∅) with
  | Ok _ => exists order, order ≡ₚ keys g /\
      forall i n d, order !! i = Some n -> edge n d -> exists j, (j < i)%nat /\ order !! j = Some d
  | Raise e => found_cycle e
  end.
Proof.
  intros Hd Hl. pose proof (loop_spec (visit limit g) ∅ (keys g)) as Hloop.
  assert (size nodes = length (keys g)) as Hs by (by apply size_list_to_set).
  specialize (Hloop ltac:(intros d m l Hin Hm Hg; apply visit_spec; rewrite ?Hg; [done|by apply elem_of_list_to_set|set_solver|lia])
    (mkMarks ∅ ∅) [] ltac:(split; cbn; [done|constructor|set_solver|set_solver]) ltac:(done)).
  destruct (fold_res _ _ _) as [m|e]; cbn; [|done]. destruct Hloop as (_ & l & [_ Hf _ _] & Hall). cbn in *.
  destruct (finished_ok l Hf) as (Hnd & Hn & Ho). exists l. split; [|done]. apply NoDup_Permutation; [done|done|].
  intros x. split; [intros Hx%Hn; by apply elem_of_list_to_set in Hx|apply Hall].
Qed.
End search.

(** ** Plans *)

(** Task [a] of the plan depends on the name [b]. *)
Definition depends (tasks : list ProposedTask) (a b : string) : Prop :=
  exists t, t ∈ tasks /\ pt_name t = a /\ b ∈ pt_depends_on t.

(** An order of the names in which each task comes after what it depends on. *)
Definition runnable (tasks : list ProposedTask) (order : list string) : Prop :=
  order ≡ₚ map pt_name tasks /\
  forall i n d, order !! i = Some n -> depends tasks n d -> exists j, (j < i)%nat /\ order !! j = Some d.

Record plan_ok (tasks : list ProposedTask) : Prop := {
  po_names : NoDup (map pt_name tasks);
  po_known : forall a b, depends tasks a b -> b <> a /\ b ∈ map pt_name tasks;
  po_order : exists order, runnable tasks order;
}.

Lemma order_no_cycle tasks order x : runnable tasks order -> ~ tc (depends tasks) x x.
Proof.
  intros [Hp Ho] Hx. assert (forall a b, tc (depends tasks) a b -> forall i, order !! i = Some a -> exists j, (j < i)%nat /\ order !! j = Some b) as Hall.
  { induction 1 as [a b Hab|a b c Hab Hbc IH]; intros i Hi; [by apply (Ho i a b)|].
    destruct (Ho i a b Hi Hab) as (j & Hj & Hb). destruct (IH j Hb) as (k & Hk & Hc). exists k. split; [lia|done]. }
  assert (x ∈ order) as (i & Hi)%list_elem_of_lookup.
  { rewrite Hp. assert (exists y, depends tasks x y) as (y & t & Ht & <- & _) by (inversion Hx; eauto).
    apply list_elem_of_In, in_map. by apply list_elem_of_In. }
  revert Hi. induction (lt_wf i) as [i _ IH]. intros Hi. destruct (Hall x x Hx i Hi) as (j & Hj & Hx'). by apply (IH j Hj).
Qed.

Lemma tc_edge_depends tasks g : (forall a b, edge g a b -> depends tasks a b) -> forall a b, tc (edge g) a b -> tc (depends tasks) a b.
Proof. intros He a b. induction 1 as [a b Hab|a b c Hab Hbc IH]; [by apply tc_once, He|]. eapply tc_l; [by apply He|done]. Qed.

Lemma normalized_edges tasks g : NoDup (map pt_name tasks) -> keys g = map pt_name tasks ->
  Forall2 (fun t p => forall d, d ∈ p.2 <-> d ∈ pt_depends_on t) tasks g ->
  forall a b, edge g a b <-> depends tasks a b.
Proof.
  intros Hd Hk Hf a b. unfold edge, depends. rewrite <- Hk in Hd. split.
  - destruct (aget a g) as [ds|] eqn:E; cbn; [|set_solver]. intros Hb. apply aget_Some_elem in E.
    apply list_elem_of_lookup in E as (i & Hi). destruct (Forall2_lookup_r _ _ _ _ _ Hf Hi) as (t & Ht & Hds).
    exists t. split_and!; [by eapply list_elem_of_lookup_2| |by apply Hds].
    assert (keys g !! i = Some a) as Hka by (unfold keys; by rewrite list_lookup_fmap, Hi).
    rewrite Hk in Hka. change (map pt_name tasks) with (pt_name <$> tasks) in Hka. rewrite list_lookup_fmap, Ht in Hka. by injection Hka.
  - intros (t & Ht & <- & Hb). apply list_elem_of_lookup in Ht as (i & Ht). destruct (Forall2_lookup_l _ _ _ _ _ Hf Ht) as ([n ds] & Hi & Hds).
    assert (n = pt_name t) as ->.
    { assert (keys g !! i = Some n) as Hka by (unfold keys; by rewrite list_lookup_fmap, Hi).
      rewrite Hk in Hka. change (map pt_name tasks) with (pt_name <$> tasks) in Hka. rewrite list_lookup_fmap, Ht in Hka. by injection Hka. }
    rewrite (elem_aget _ ds) by (done || by eapply list_elem_of_lookup_2). by apply Hds.
Qed.

Lemma normalize_spec limit tasks : (length tasks < limit)%nat ->
  match normalize_dependency_names limit tasks with
  | Ok g => plan_ok tasks /\ keys g = map pt_name tasks /\ forall a b, edge g a b <-> depends tasks a b
  | Raise e => (exists m, e = PlanValidationError m) /\ ~ plan_ok tasks
  end.
Proof.
  intros Hl. unfold normalize_dependency_names. pose proof (check_names_spec [] tasks) as Hc.
  destruct (check_names [] tasks) as [u|e]; cbn.
  2: { destruct Hc as [He Hd]. split; [done|]. intros [Hn _ _]. apply Hd in Hn as (n & _ & Hn). set_solver. }
  destruct Hc as [Hnd _]. pose proof (normalize_all_spec (map pt_name tasks) tasks) as Ha.
  destruct (normalize_all _ tasks) as [g|e]; cbn.
  2: { destruct Ha as (He & t & d & Ht & Hd & Hx). split; [done|]. intros [_ Hk _].
       destruct (Hk (pt_name t) d) as [H1 H2]; [by exists t|]. naive_solver. }
  destruct Ha as (Hk & Hf & Hkn). pose proof (normalized_edges tasks g Hnd Hk Hf) as He.
  assert (forall a b, depends tasks a b -> b <> a /\ b ∈ map pt_name tasks) as Hknown.
  { intros a b (t & Ht & <- & Hb). by apply Hkn. }
  pose proof (search_spec g) as Hs. specialize (Hs ltac:(intros a b Hab%He%Hknown; rewrite elem_of_list_to_set, Hk; apply Hab)
    limit ltac:(by rewrite Hk) ltac:(by rewrite Hk, length_map)).
  destruct (fold_res _ _ _) as [m|e]; cbn.
  - destruct Hs as (order & Hp & Ho). split_and!; [|done|done]. split; [done|done|]. exists order. rewrite Hk in Hp.
    split; [done|]. intros i n d Hi Hd. apply (Ho i n d Hi). by apply He.
  - destruct Hs as (Hm & x & Hx). split; [done|]. intros [_ _ (order & Hr)]. eapply order_no_cycle; [done|].
    eapply tc_edge_depends; [|done]. intros. by apply He.
Qed.

Lemma same_name tasks t t' : NoDup (map pt_name tasks) -> t ∈ tasks -> t' ∈ tasks -> pt_name t' = pt_name t -> t' = t.
Proof.
  intros Hd (i & Hi)%list_elem_of_lookup (j & Hj)%list_elem_of_lookup Hn.
  assert (j = i) as ->; [|congruence]. eapply NoDup_lookup; [exact Hd|..]; change (map pt_name tasks) with (pt_name <$> tasks);
    rewrite list_lookup_fmap; [by rewrite Hj|by rewrite Hi, Hn].
Qed.

(** C10: the check of the dependencies of a plan ends and is exact. With room
    for more nested calls than the plan has tasks the search for cycles does
    not run out of stack; it returns if and only if the names are distinct,
    every dependency is another task of the plan, and the tasks can be put in
    an order in which each comes after what it depends on; and then each task
    keeps exactly its dependencies. Otherwise it raises [PlanValidationError]
    and nothing else. *)
Theorem plan_dependencies_checked limit tasks : (length tasks < limit)%nat ->
  match normalize_dependency_names limit tasks with
  | Ok g => plan_ok tasks /\ keys g = map pt_name tasks /\
            forall t d, t ∈ tasks -> d ∈ default [] (aget (pt_name t) g) <-> d ∈ pt_depends_on t
  | Raise e => (exists m, e = PlanValidationError m) /\ ~ plan_ok tasks
  end.
Proof.
  intros Hl. pose proof (normalize_spec limit tasks Hl) as Hs. destruct (normalize_dependency_names _ _) as [g|e]; [|done].
  destruct Hs as (Hp & Hk & He). split_and!; [done|done|]. intros t d Ht. change (edge g (pt_name t) d <-> d ∈ pt_depends_on t).
  rewrite He. split; [|by exists t]. intros (t' & Ht' & Hn & Hd). by rewrite <- (same_name tasks t t' (po_names _ Hp) Ht Ht' Hn).
Qed.

(** ** [PlanValidator] *)

(** Where identifiers and the time of records come from: [uuid4] and [time.time]. *)
Class Entropy (W : Type) := {
  fresh_uuid : st W string;
  wall_ms : st W Z;
}.

Inductive TaskSeedSource := SeedReflex | SeedPlanning.

(** [model_dump(mode="json")] of parsed arguments *)
Fixpoint dump_value (v : argval) : json :=
  match v with
  | AStr s | APath s => JStr s
  | AModel fields => JObj (map (fun p => (p.1, dump_value p.2)) fields)
  | AList items => JArr (map dump_value items)
  | ADict items => JObj (map (fun p => (p.1, dump_value p.2)) items)
  | AOther v => v
  end.
Definition dump_args (args : parsed_args) : list (string * json) := map (fun p => (p.1, dump_value p.2)) args.

Definition resolve_idempotency_seed (t : ProposedTask) (source : TaskSeedSource) (run_id : string) (event_id : option string) : res string :=
  match idempotency_seed t with
  | Some s =>
      raise_if (is_empty (strip s)) (PlanValidationError "idempotency_seed must be non-empty when provided");; Ok (strip s)
  | None =>
      match source with
      | SeedReflex =>
          match event_id with
          | None => Raise (PlanValidationError "event_id is required when seed_source='reflex'")
          | Some e =>
              raise_if (is_empty (strip e)) (PlanValidationError "event_id must be non-empty when seed_source='reflex'");; Ok (strip e)
          end
      | SeedPlanning =>
          raise_if (is_empty (strip run_id)) (PlanValidationError "run_id must be non-empty when seed_source='planning'");;
          Ok (strip run_id)
      end
  end.

Definition validate_permission_scope (permission_scope : string) : res string :=
  raise_if (is_empty (strip permission_scope)) (PlanValidationError "tool manifest permission_scope must be non-empty");;
  Ok (strip permission_scope).

Definition validate_tool_args (tool : Tool) (raw_args : list (string * json)) : res (list (string * json)) :=
  match ArgsModel tool raw_args with
  | Invalid _ => Raise (PlanValidationError "invalid tool args")
  | Valid parsed => Ok (dump_args parsed)
  end.

Section validator.
Variable float_repr : spec_float -> string.
Variable sha256_hex : string -> string.
(** [registry], [enabled_scopes] and [approval_required_scopes] *)
Variable registry : ToolRegistry.t.
Variables enabled_scopes approval_required_scopes : list string.
Context {W : Type} `{Entropy W}.

Definition compute_idempotency_key (tool_name : string) (args : list (string * json)) (seed : string) : res string :=
  raise_if (is_empty (strip tool_name)) (ValueError "tool_name must be non-empty");;
  raise_if (is_empty (strip seed)) (ValueError "seed must be non-empty");;
  text ← canonical_json float_repr (JObj args);
  stable_sha256 sha256_hex [strip tool_name; text; strip seed].

(** The checks of [build_task] on what the planner declared. *)
Definition check_declared (t : ProposedTask) (m : ToolManifest) (permission_scope : string) : res unit :=
  raise_if (negb (bool_decide (permission_scope ∈ enabled_scopes)))
    (PlanValidationError "tool manifest permission_scope is not enabled for planning execution");;
  raise_if (match declared_permission_scope t with Some d => negb (d =? permission_scope)%string | None => false end)
    (PlanValidationError "declared_permission_scope does not match tool manifest permission_scope");;
  raise_if (match expected_side_effects t with Some e => negb (Bool.eqb e (mf_side_effects m)) | None => false end)
    (PlanValidationError "expected_side_effects does not match tool manifest side_effects");;
  raise_if (match approval_required t with
            | Some a => negb (Bool.eqb a (bool_decide (permission_scope ∈ approval_required_scopes))) | None => false end)
    (PlanValidationError "approval_required does not match configured approval requirements").

(** The entries of [metadata["planner"]]. *)
Definition entry {A} (key : string) (f : A -> json) (o : option A) : list (string * json) :=
  match o with None => [] | Some a => [(key, f a)] end.
Definition planner_metadata (t : ProposedTask) : list (string * json) :=
  entry "declared_permission_scope" JStr (declared_permission_scope t) ++
  entry "approval_required" JBool (approval_required t) ++
  entry "expected_side_effects" JBool (expected_side_effects t) ++
  entry "execution_class" JStr (execution_class t) ++
  entry "priority" JInt (pt_priority t).
Definition task_metadata (planner : list (string * json)) : list (string * json) :=
  match planner with [] => [] | _ => [("planner", JObj planner)] end.

(** The constructors [ToolCall(...)] and [Task(...)]. *)
Definition new_tool_call (tool_name : string) (args : list (string * json)) (permission_scope idempotency_key : string) : st W ToolCall :=
  id ← fresh_uuid;
  now ← wall_ms;
  lift (ToolCall_model_validate (mkToolCall id tool_name args permission_scope idempotency_key ToolCallStatus.PENDING now None None None)).
Definition new_task (run_id name : string) (c : ToolCall) (max_attempts timeout_s : Z) (depends_on : list string)
    (metadata : list (string * json)) : st W Task :=
  id ← fresh_uuid;
  now ← wall_ms;
  lift (Task_model_validate (mkTask id run_id name TaskStatus.PENDING (Some c) 0 max_attempts timeout_s depends_on now None None []
    metadata)).

Definition build_task (t : ProposedTask) (run_id : string) (source : TaskSeedSource) (event_id : option string) : st W Task :=
  tool ← lift (match ToolRegistry.get (pt_tool_name t) registry with
               | Raise (KeyError m) => Raise (PlanValidationError (str_KeyError m))
               | r => r
               end);
  permission_scope ← lift (validate_permission_scope (mf_permission_scope (manifest tool)));
  lift (check_declared t (manifest tool) permission_scope);;
  args ← lift (validate_tool_args tool (pt_args t));
  seed ← lift (resolve_idempotency_seed t source run_id event_id);
  key ← lift (compute_idempotency_key (mf_name (manifest tool)) args seed);
  c ← new_tool_call (mf_name (manifest tool)) args permission_scope key;
  new_task run_id (pt_name t) c (pt_max_attempts t)
    (if pt_timeout_set t then pt_timeout_s t else mf_default_timeout_s (manifest tool)) (pt_depends_on t)
    (task_metadata (planner_metadata t)).

(** [built_by_name] *)
Fixpoint build_all (tasks : list ProposedTask) (run_id : string) (source : TaskSeedSource) (event_id : option string)
  : st W (list (string * Task)) :=
  match tasks with
  | [] => mret []
  | t :: rest =>
      built ← build_task t run_id source event_id;
      others ← build_all rest run_id source event_id;
      mret ((pt_name t, built) :: others)
  end.

Fixpoint validate_unique_idempotency_keys (seen : list (string * string)) (built : list (string * Task)) : res unit :=
  match built with
  | [] => Ok tt
  | (task_name, t) :: rest =>
      match tool_call t with
      | None => validate_unique_idempotency_keys seen rest
      | Some c =>
          match aget (idempotency_key c) seen with
          | Some previous =>
              Raise (PlanValidationError ("duplicate idempotency_key in plan for tasks " +:+ py_repr previous +:+ " and " +:+
                                          py_repr task_name))
          | None => validate_unique_idempotency_keys (aset (idempotency_key c) task_name seen) rest
          end
      end
  end.

(** [model_copy(update={"depends_on": ..., "metadata": ...})] *)
Definition task_with_dependencies (ids : list string) (m : list (string * json)) (t : Task) : Task :=
  mkTask (task_id t) (run_id t) (name t) (status t) (tool_call t) (attempts t) (max_attempts t) (timeout_s t) ids
    (created_at_ms t) (started_at_ms t) (completed_at_ms t) (labels t) m.

(** The body of the last loop of [build_tasks]; a missing name is a [KeyError],
    which does not happen ([build_tasks_spec]). *)
Definition resolve_ids (built : list (string * Task)) (names : list string) : res (list string) :=
  sequence (map (fun n => match aget n built with Some t => Ok (task_id t) | None => Raise (KeyError n) end) names).
Definition metadata_with_names (names : list string) (m : list (string * json)) : list (string * json) :=
  let existing := match aget "planner" m with Some (JObj l) => l | _ => [] end in
  let planner := match names with [] => existing | _ => aset "dependency_names" (JArr (map JStr names)) existing end in
  match planner with [] => m | _ => aset "planner" (JObj planner) m end.
Definition resolve_task (built : list (string * Task)) (names : list string) (t : Task) : res Task :=
  ids ← resolve_ids built names; Ok (task_with_dependencies ids (metadata_with_names names (metadata t)) t).

Definition build_tasks (limit : nat) (tasks : list ProposedTask) (run_id : string) (source : TaskSeedSource)
    (event_id : option string) : st W (list Task) :=
  dependency_names ← lift (normalize_dependency_names limit tasks);
  built ← build_all tasks run_id source event_id;
  lift (validate_unique_idempotency_keys [] built);;
  lift (sequence (map (fun p => resolve_task built (default [] (aget p.1 dependency_names)) p.2) built)).
End validator.

(** ** Idempotency keys *)
Section keys.
Variable float_repr : spec_float -> string.
Variable sha256_hex : string -> string.
Notation key_of := (compute_idempotency_key float_repr sha256_hex).

(** What the key is the digest of. *)
Definition key_preimage (tool_name : string) (args : list (string * json)) (seed : string) : res string :=
  text ← canonical_json float_repr (JObj args); frame [strip tool_name; text; strip seed].

Lemma compute_key_Ok n a s k : key_of n a s = Ok k -> exists x, key_preimage n a s = Ok x /\ k = sha256_hex x.
Proof.
  unfold compute_idempotency_key, key_preimage, stable_sha256.
  intros (u & _ & (v & _ & (text & -> & (x & E & [= <-])%res_bind_Ok)%res_bind_Ok)%res_bind_Ok)%res_bind_Ok. by exists x.
Qed.

(** C12: the idempotency key identifies the call. The keys of two calls are the
    digests of texts that are equal exactly if the trimmed tool names and seeds
    are equal and the arguments are the same JSON value up to the order of
    dictionary keys. So the same call always has the same key, and different
    calls share a key only by a collision of SHA-256. *)
Theorem idempotency_key_faithful n a s k n' a' s' k' : FloatRepr float_repr ->
  floats_valid (JObj a) -> floats_valid (JObj a') -> key_of n a s = Ok k -> key_of n' a' s' = Ok k' ->
  exists x x', key_preimage n a s = Ok x /\ key_preimage n' a' s' = Ok x' /\ k = sha256_hex x /\ k' = sha256_hex x' /\
    (x = x' <-> strip n = strip n' /\ canon (JObj a) = canon (JObj a') /\ strip s = strip s').
Proof.
  intros Hfl Hv Hv' (x & Ex & ->)%compute_key_Ok (x' & Ex' & ->)%compute_key_Ok. exists x, x'. split_and!; try done.
  unfold key_preimage in *. apply res_bind_Ok in Ex as (t & Et & Ex). apply res_bind_Ok in Ex' as (t' & Et' & Ex').
  pose proof (canonical_same float_repr Hfl _ _ t t' Hv Hv' Et Et') as Ht. split.
  - intros <-. assert ([strip n; t; strip s] = [strip n'; t'; strip s']) as [= -> ->%Ht ->] by (by eapply frame_parts_inj). done.
  - intros (Hn & Ha%Ht & Hs). rewrite Hn, Ha, Hs in Ex. congruence.
Qed.
End keys.

(** ** The tasks that are built *)
Section built.
Variable float_repr : spec_float -> string.
Variable sha256_hex : string -> string.
Variable registry : ToolRegistry.t.
Variables enabled_scopes approval_required_scopes : list string.
Context {W : Type} `{Entropy W}.
Notation build_task := (build_task float_repr sha256_hex registry enabled_scopes approval_required_scopes).
Notation build_all := (build_all float_repr sha256_hex registry enabled_scopes approval_required_scopes).
Notation build_tasks := (build_tasks float_repr sha256_hex registry enabled_scopes approval_required_scopes).

(** The tool call of a task built for [t]. *)
Record call_built (t : ProposedTask) (run_id : string) (source : TaskSeedSource) (event_id : option string) (c : ToolCall) : Prop := {
  cb_tool : exists tool parsed seed, ToolRegistry.get (pt_tool_name t) registry = Ok tool /\
    ArgsModel tool (pt_args t) = Valid parsed /\ args c = dump_args parsed /\
    tool_name c = strip (mf_name (manifest tool)) /\ permission_scope c = strip (mf_permission_scope (manifest tool)) /\
    resolve_idempotency_seed t source run_id event_id = Ok seed /\
    (exists k, compute_idempotency_key float_repr sha256_hex (mf_name (manifest tool)) (dump_args parsed) seed = Ok k /\
      idempotency_key c = strip k);
  cb_scope : permission_scope c ∈ enabled_scopes;
  cb_status : tc_status c = ToolCallStatus.PENDING;
}.

Record task_built (t : ProposedTask) (run : string) (source : TaskSeedSource) (event_id : option string) (b : Task) : Prop := {
  tb_valid : valid_task b;
  tb_name : name b = strip (pt_name t);
  tb_run : validate_required_id "run_id" (IdStr run) = Ok (run_id b);
  tb_status : status b = TaskStatus.PENDING;
  tb_attempts : attempts b = 0 /\ max_attempts b = pt_max_attempts t;
  tb_call : exists c, tool_call b = Some c /\ call_built t run source event_id c;
}.

Lemma new_tool_call_Ok n a p k w c w' : new_tool_call n a p k w = (Ok c, w') ->
  tool_name c = strip n /\ args c = a /\ permission_scope c = strip p /\ idempotency_key c = strip k /\
  tc_status c = ToolCallStatus.PENDING /\ valid_tool_call c.
Proof.
  unfold new_tool_call. intros (id & w1 & _ & (now & w2 & _ & [= E _])%st_bind_Ok)%st_bind_Ok.
  pose proof (ToolCall_model_validate_valid _ _ E) as Hv. unfold ToolCall_model_validate, ToolCall_fields in E. vld_inv. cbn in *.
  repeat match goal with
  | H : non_empty _ _ = Ok _ |- _ => apply non_empty_Ok in H as [-> ?]
  | H : ensure_jsonable _ _ = Ok _ |- _ => apply ensure_jsonable_Ok in H as [-> ?]
  end. done.
Qed.

Lemma new_task_Ok run n c ma ts ds md w t w' : new_task run n c ma ts ds md w = (Ok t, w') -> valid_tool_call c ->
  valid_task t /\ name t = strip n /\ validate_required_id "run_id" (IdStr run) = Ok (run_id t) /\ status t = TaskStatus.PENDING /\
  attempts t = 0 /\ max_attempts t = ma /\ tool_call t = Some c /\ metadata t = md.
Proof.
  unfold new_task. intros (id & w1 & _ & (now & w2 & _ & [= E _])%st_bind_Ok)%st_bind_Ok Hc.
  pose proof (Task_model_validate_valid _ _ E) as Hv. unfold Task_model_validate, Task_fields in E. vld_inv. cbn in *.
  repeat match goal with
  | H : non_empty _ _ = Ok _ |- _ => apply non_empty_Ok in H as [-> ?]
  | H : ensure_jsonable _ _ = Ok _ |- _ => apply ensure_jsonable_Ok in H as [-> ?]
  | H : positive_int _ _ = Ok _ |- _ => apply positive_int_Ok in H as [-> ?]
  | H : non_negative_int _ _ = Ok _ |- _ => apply non_negative_int_Ok in H as [-> ?]
  end. split_and!; try done; [congruence|].
  match goal with H : ToolCall_model_validate _ ≫= _ = Ok _ |- _ => rewrite ToolCall_model_validate_fix in H by done; by injection H as <- end.
Qed.

Lemma build_task_Ok t run source ev w b w' : build_task t run source ev w = (Ok b, w') ->
  task_built t run source ev b /\ metadata b = task_metadata (planner_metadata t).
Proof.
  unfold PlanValidation.build_task.
  intros (tool & w1 & [= Et ->] & E)%st_bind_Ok. apply st_bind_Ok in E as (scope & w2 & [= Es ->] & E).
  apply st_bind_Ok in E as ([] & w3 & [= Ec ->] & E). apply st_bind_Ok in E as (args & w4 & [= Ea ->] & E).
  apply st_bind_Ok in E as (seed & w5 & [= Esd ->] & E). apply st_bind_Ok in E as (key & w6 & [= Ek ->] & E).
  apply st_bind_Ok in E as (c & w7 & Hc & E). apply new_tool_call_Ok in Hc as (H1' & H2' & H3' & H4' & H5' & H6').
  apply new_task_Ok in E as (T1 & T2 & T3 & T4 & T5 & T6 & T7 & T8); [|done]. split; [|done].
  unfold validate_permission_scope in Es. apply res_bind_Ok in Es as (? & _ & [= <-]). unfold validate_tool_args in Ea.
  destruct (ArgsModel tool (pt_args t)) as [parsed|] eqn:Ep; [|done]. injection Ea as <-.
  destruct (ToolRegistry.get _ _) as [tool'|[]] eqn:Er; try done. injection Et as ->.
  split; try done. exists c. split; [done|]. rewrite strip_idemp in H3'. split; [|rewrite H3'|done].
  - exists tool, parsed, seed. split_and!; try done. by exists key.
  - unfold check_declared in Ec. apply res_bind_Ok in Ec as ([] & Hs%raise_if_Ok & _). apply negb_false_iff in Hs.
    by apply bool_decide_eq_true in Hs.
Qed.
Lemma build_all_Ok l run source ev w built w' : build_all l run source ev w = (Ok built, w') ->
  Forall2 (fun t p => p.1 = pt_name t /\ task_built t run source ev p.2 /\ metadata p.2 = task_metadata (planner_metadata t)) l built.
Proof.
  revert w built. induction l as [|t l IH]; intros w built; cbn [PlanValidation.build_all].
  - intros [= <- _]. constructor.
  - intros (b & w1 & Hb & (bs & w2 & Hbs & [= <- <-])%st_bind_Ok)%st_bind_Ok. apply build_task_Ok in Hb. constructor; [split; [done|exact Hb]|by eapply IH].
Qed.

Definition idempotency_keys (ts : list Task) : list string := omap (fun t => idempotency_key <$> tool_call t) ts.
Lemma unique_keys seen built : validate_unique_idempotency_keys seen built = Ok tt ->
  NoDup (idempotency_keys built.*2) /\ forall k, k ∈ idempotency_keys built.*2 -> k ∉ keys seen.
Proof.
  revert seen. induction built as [|[n t] built IH]; intros seen; cbn; [intros _; split; [constructor|set_solver]|].
  destruct (tool_call t) as [c|]; cbn; [|by intros []%IH].
  destruct (aget (idempotency_key c) seen) as [p|] eqn:E; [done|]. apply aget_None in E. intros [Hd Hn]%IH. split.
  - constructor; [|done]. intros Hk%Hn. apply Hk. rewrite keys_aset. case_decide; set_solver.
  - intros k [->|Hk]%elem_of_cons; [done|]. apply Hn in Hk. intros Hs. apply Hk. rewrite keys_aset. case_decide; set_solver.
Qed.

Lemma resolve_ids_Ok built names ids : NoDup (keys built) -> resolve_ids built names = Ok ids ->
  forall id, id ∈ ids <-> exists n b, n ∈ names /\ (n, b) ∈ built /\ id = task_id b.
Proof.
  intros Hd Hs%sequence_Ok id. split.
  - intros (i & Hi)%list_elem_of_lookup. destruct (Forall2_lookup_r _ _ _ _ _ Hs Hi) as (n & Hn & E).
    destruct (aget n built) as [b|] eqn:Eb; [|done]. injection E as <-.
    exists n, b. split_and!; [by eapply list_elem_of_lookup_2|by apply aget_Some_elem|done].
  - intros (n & b & (i & Hi)%list_elem_of_lookup & Hb & ->). destruct (Forall2_lookup_l _ _ _ _ _ Hs Hi) as (id & Hid & E).
    rewrite (elem_aget _ b) in E by done. injection E as ->. by eapply list_elem_of_lookup_2.
Qed.

(** The identifiers of the tasks that [t] depends on. *)
Definition dependency_ids (tasks : list ProposedTask) (ts : list Task) (t : ProposedTask) (id : string) : Prop :=
  exists j t' b', tasks !! j = Some t' /\ ts !! j = Some b' /\ pt_name t' ∈ pt_depends_on t /\ id = task_id b'.

Lemma metadata_jsonable planner names : jsonable (JObj (task_metadata planner)) = true ->
  jsonable (JObj (metadata_with_names names (task_metadata planner))) = true.
Proof.
  intros Hm. unfold metadata_with_names. set (existing := match aget "planner" (task_metadata planner) with Some (JObj l) => l | _ => [] end).
  assert (jsonable (JObj existing) = true) as He.
  { subst existing. destruct planner as [|p planner]; [done|]. cbn in *. by rewrite andb_true_r in Hm. }
  set (p := match names with [] => existing | _ => _ end). assert (jsonable (JObj p) = true) as Hp.
  { subst p. destruct names as [|n names]; [done|]. apply jsonable_aset; [|done]. cbn. by induction names. }
  clearbody p. destruct p; [done|]. by apply jsonable_aset.
Qed.

Lemma resolve_task_Ok t run source ev built names b b' : task_built t run source ev b -> metadata b = task_metadata (planner_metadata t) ->
  Forall (fun p => valid_task p.2) built -> resolve_task built names b = Ok b' ->
  task_built t run source ev b' /\ task_id b' = task_id b /\ resolve_ids built names = Ok (depends_on b') /\
  tool_call b' = tool_call b.
Proof.
  intros [Hv Hn Hr Hs Ha Hc] Hm Hall (ids & Eids & [= <-])%res_bind_Ok. split_and!; try done. split; try done.
  destruct Hv as [V1 V2 V3 V4 V5 V6 V7 V8 V9 V10 V11].
  split; cbn [task_id run_id name tool_call attempts max_attempts timeout_s depends_on labels metadata created_at_ms started_at_ms completed_at_ms task_with_dependencies];
    try done; [|rewrite Hm in *; by apply metadata_jsonable].
  apply sequence_Ok in Eids. apply Forall_forall. intros id (i & Hi)%list_elem_of_lookup.
  destruct (Forall2_lookup_r _ _ _ _ _ Eids Hi) as (n & _ & E). destruct (aget n built) as [x|] eqn:Ex; [|done]. injection E as <-.
  apply aget_Some_elem in Ex. rewrite Forall_forall in Hall. apply Hall in Ex. cbn in Ex. split; [by apply strip_uuid4_str, Ex|].
  intros Hempty. destruct (strip_uuid4_str _ (vt_id _ Ex)) as [_ He]. by rewrite Hempty in He.
Qed.

(** C3: a plan that is accepted becomes tasks that can all be run. [build_tasks]
    returns only for a plan whose names are distinct and whose dependencies can
    be ordered; every task it returns is valid, pending, not attempted, and
    calls the tool the plan names with its validated arguments, in an enabled
    scope and under the idempotency key of the call; it depends on exactly the
    tasks built for the names it depends on; and no two tasks have the same
    idempotency key. *)
Theorem build_tasks_spec limit tasks run source ev w ts w' : (length tasks < limit)%nat ->
  build_tasks limit tasks run source ev w = (Ok ts, w') ->
  plan_ok tasks /\ Forall2 (fun t b => task_built t run source ev b) tasks ts /\
  (forall i t b, tasks !! i = Some t -> ts !! i = Some b -> forall id, id ∈ depends_on b <-> dependency_ids tasks ts t id) /\
  NoDup (idempotency_keys ts).
Proof.
  intros Hl (g & w1 & [= Eg ->] & (built & w2 & Hb%build_all_Ok & ([] & w3 & [= Hk ->] & [= Er ->])%st_bind_Ok)%st_bind_Ok)%st_bind_Ok.
  pose proof (normalize_spec limit tasks Hl) as Hn. rewrite Eg in Hn. destruct Hn as (Hp & _ & Hedge).
  apply unique_keys in Hk as [Hk _]. apply sequence_Ok in Er.
  assert (keys built = map pt_name tasks) as Hkeys.
  { clear -Hb. induction Hb as [|t p l l' (Hn & _) _ IH]; [done|]. change (p.1 :: keys l' = pt_name t :: map pt_name l). by rewrite Hn, IH. }
  assert (NoDup (keys built)) as Hd by (rewrite Hkeys; apply Hp).
  assert (Forall (fun p => valid_task p.2) built) as Hvalid.
  { clear -Hb. induction Hb as [|t p l l' (_ & Ht & _) _ IH]; constructor; [apply Ht|done]. }
  assert (forall i p t, built !! i = Some p -> tasks !! i = Some t ->
    exists b', ts !! i = Some b' /\ task_built t run source ev b' /\ task_id b' = task_id p.2 /\
      resolve_ids built (default [] (aget (pt_name t) g)) = Ok (depends_on b') /\ tool_call b' = tool_call p.2) as Hres.
  { intros i p t Hi Ht. destruct (Forall2_lookup_l _ _ _ _ _ Er Hi) as (b' & Hb' & E).
    destruct (Forall2_lookup_lr _ _ _ _ _ _ Hb Ht Hi) as (Hpn & Htb & Hmd). rewrite Hpn in E.
    exists b'. split; [done|]. by eapply resolve_task_Ok. }
  assert (length tasks = length built) as Hlb by (by eapply Forall2_length).
  assert (length built = length ts) as Hlt by (by eapply Forall2_length).
  split_and!; [done| | |].
  - apply Forall2_same_length_lookup_2; [congruence|]. intros i t b Ht Hb'.
    destruct (Forall2_lookup_l _ _ _ _ _ Hb Ht) as (p & Hi & _). destruct (Hres i p t Hi Ht) as (b2 & Hb2 & Htb & _). congruence.
  - intros i t b Ht Hb' id. destruct (Forall2_lookup_l _ _ _ _ _ Hb Ht) as (p & Hi & _).
    destruct (Hres i p t Hi Ht) as (b2 & Hb2 & _ & _ & Eids & _). assert (b2 = b) as -> by congruence.
    rewrite (resolve_ids_Ok _ _ _ Hd Eids). split.
    + intros (n & x & Hn & (j & Hj)%list_elem_of_lookup & ->). destruct (Forall2_lookup_r _ _ _ _ _ Hb Hj) as (t' & Ht' & Hpn & _).
      destruct (Hres j _ t' Hj Ht') as (b' & Hb2' & _ & Hid & _). exists j, t', b'. split_and!; [done|done| |done].
      cbn in Hpn. subst n. apply Hedge in Hn as (t2 & Ht2 & Hn2 & Hd2).
      by rewrite <- (same_name tasks t t2 (po_names _ Hp) (list_elem_of_lookup_2 _ _ _ Ht) Ht2 Hn2).
    + intros (j & t' & b' & Ht' & Hb2' & Hd' & ->). destruct (Forall2_lookup_l _ _ _ _ _ Hb Ht') as (p' & Hj & Hpn & _).
      destruct (Hres j p' t' Hj Ht') as (b3 & Hb3 & _ & Hid & _). assert (b3 = b') as -> by congruence.
      exists (pt_name t'), p'.2. split_and!; [|rewrite <- Hpn; destruct p'; by eapply list_elem_of_lookup_2|done].
      apply Hedge. exists t. split_and!; [by eapply list_elem_of_lookup_2|done|done].
  - assert (idempotency_keys ts = idempotency_keys built.*2) as ->; [|done].
    assert (Forall2 (fun p b => tool_call b = tool_call p.2) built ts) as Hc.
    { apply Forall2_same_length_lookup_2; [done|]. intros i p b Hi Hb'. destruct (Forall2_lookup_r _ _ _ _ _ Hb Hi) as (t & Ht & _).
      destruct (Hres i p t Hi Ht) as (b2 & Hb2 & _ & _ & _ & E). congruence. }
    clear -Hc. unfold idempotency_keys. induction Hc as [|p b l l' E _ IH]; [done|]. cbn. by rewrite E, IH.
Qed.
End built.

(** ** A plan of two reads, the second after the first *)
Definition proposed (name path : string) (after : list string) : ProposedTask :=
  mkProposedTask name "fs.read_text" [("path", JStr path)] after 60 false 2 (Some 1) None None None None None.
Definition sample_plan_tasks : list ProposedTask := [proposed "second" "b" ["first"; "first"]; proposed "first" "a" []].

Lemma plan_dependencies_checked_witness :
  normalize_dependency_names 3 sample_plan_tasks = Ok [("second", ["first"]); ("first", [])] /\ plan_ok sample_plan_tasks.
Proof.
  split; [vm_compute; reflexivity|]. pose proof (plan_dependencies_checked 3 sample_plan_tasks ltac:(cbn; lia)) as E.
  assert (normalize_dependency_names 3 sample_plan_tasks = Ok [("second", ["first"]); ("first", [])]) as Hn by (vm_compute; reflexivity).
  rewrite Hn in E. apply E.
Defined.

(** Identifiers that count, and a clock that ticks. *)
#[export] Instance counting_entropy : Entropy Z := {|
  fresh_uuid := fun n => (Ok (uuid_str (4 * 16 ^ 19 + 8 * 16 ^ 15 + n)), n + 1);
  wall_ms := fun n => (Ok n, n);
|}.
Definition sample_run_id : string := uuid_str (4 * 16 ^ 19 + 8 * 16 ^ 15 + 777).
Definition sample_build : res (list Task) * Z :=
  build_tasks sample_float_repr (fun s => s) read_registry ["fs.read"] [] 3 sample_plan_tasks sample_run_id SeedPlanning None 0.

Lemma build_tasks_spec_witness : exists ts, sample_build.1 = Ok ts /\ plan_ok sample_plan_tasks /\ NoDup (idempotency_keys ts).
Proof.
  assert (exists ts, sample_build = (Ok ts, 4)) as [ts E] by (eexists; vm_compute; reflexivity).
  exists ts. split; [rewrite E; reflexivity|].
  destruct (build_tasks_spec _ _ _ _ _ 3 sample_plan_tasks sample_run_id SeedPlanning None 0 ts 4 ltac:(cbn; lia) E) as (Hp & _ & _ & Hk).
  exact (conj Hp Hk).
Defined.

Definition sample_key : string -> list (string * json) -> string -> res string :=
  compute_idempotency_key sample_float_repr (fun s => s).
Definition call_args : list (string * json) := [("path", JStr "a"); ("n", JInt 1)].
Definition swapped_args : list (string * json) := [("n", JInt 1); ("path", JStr "a")].

Lemma idempotency_key_faithful_witness : exists x x',
  key_preimage sample_float_repr "fs.read_text" call_args " r" = Ok x /\
  key_preimage sample_float_repr " fs.read_text" swapped_args "r" = Ok x' /\ x = x'.
Proof.
  assert (exists k, sample_key "fs.read_text" call_args " r" = Ok k) as [k Ek] by (eexists; vm_compute; reflexivity).
  assert (exists k, sample_key " fs.read_text" swapped_args "r" = Ok k) as [k' Ek'] by (eexists; vm_compute; reflexivity).
  destruct (idempotency_key_faithful sample_float_repr (fun s => s) "fs.read_text" call_args " r" k " fs.read_text" swapped_args "r" k'
    sample_float_repr_ok ltac:(cbn; done) ltac:(cbn; done) Ek Ek') as (x & x' & E & E' & _ & _ & Heq).
  exists x, x'. split; [exact E|]. split; [exact E'|]. apply Heq. split; [|split]; vm_compute; reflexivity.
Defined.
