(* ===== verification/Enforcement.v ===== *)
(** * The enforcement boundary: [security/policy/enforcement/]

    [PolicyEnforcedToolRunner]: a tool call is looked up, its arguments are
    parsed, the guards decide, a decision that requires an approval goes
    through the approval store, and only then the tool runs. The guards, the
    approval store (any [ApprovalStore]), the approval builder and the tool
    runner are the operations of other components; the world below holds their
    states and records every run of a tool. The results: when a tool runs, and
    what the outcome says about it. *)

From Stdlib Require Import ZArith SpecFloat Lia.
From S2P Require Import Prelude PyFloat PyText Uuid Models RateLimit CircuitBreaker Decision Policy Guards Approvals Tools.

(** ** [types.py] *)
Definition POLICY_DENIED_ERROR_CODE : string := "policy_denied".
Definition APPROVAL_REQUIRED_ERROR_CODE : string := "approval_required".
Definition EXECUTION_DELAYED_ERROR_CODE : string := "execution_delayed".

Record ToolExecutionOutcome := mkOutcome {
  oc_tool_call_id : string;
  oc_tool_name : string;
  oc_decision : PolicyDecision;
  oc_result : ToolResult;
  oc_guard_decision : option GuardDecision;
  oc_approval_id : option string;
  oc_approval_status : option ApprovalStatus.t;
}.

(** ** [guards.py], [utils.py] *)
Definition policy_decision_from_guard (g : GuardDecision) : res PolicyDecision :=
  match gd_action g with
  | GuardAction.ALLOW =>
      PolicyDecision_allow (gd_reason_code g) (gd_message g) (gd_guard_id g) (gd_metadata g)
  | GuardAction.DENY =>
      PolicyDecision_deny (gd_reason_code g) (gd_message g) (gd_guard_id g) (gd_metadata g)
  | GuardAction.REQUIRE_APPROVAL =>
      PolicyDecision_require_approval (gd_reason_code g) (gd_message g) (gd_guard_id g) (gd_metadata g)
  | GuardAction.DELAY =>
      Raise (ValueError "cannot map guard action to policy decision: <GuardAction.DELAY: 'delay'>")
  end.

Definition coerce_uuid4_str (value : option string) : option string :=
  match value with
  | None => None
  | Some v =>
      if is_empty (strip v) then None
      else match uuid_parse (strip v) with
      | Raise _ => None
      | Ok parsed => if bool_decide (uuid_version parsed = Some 4) then Some (uuid_str parsed) else None
      end
  end.

(** ** The world

    The states of the guards, of the approval store and of the caller, how
    often the clock was read and an identifier drawn, and the runs of tools,
    the last one first. *)
Record world (G A X : Type) := mkWorld {
  w_guards : G;
  w_approvals : A;
  w_client : X;
  w_ticks : nat;
  w_drawn : nat;
  w_runs : list (string * list (string * json));
}.
Arguments mkWorld {G A X}.
Arguments w_guards {G A X}.
Arguments w_approvals {G A X}.
Arguments w_client {G A X}.
Arguments w_ticks {G A X}.
Arguments w_drawn {G A X}.
Arguments w_runs {G A X}.

Section enforcement.
Context {G A X : Type} `{ApprovalStore A}.
Notation world := (world G A X).

(** What the runner is built from. *)
Variable registry : ToolRegistry.t.
Variable guard_chain : list (guard G).
Variable policy_ctx : PolicyContext.
(** [ApprovalBuilder]: the hash of the arguments and the preview. *)
Variable build_payload_hash_for_args : list (string * json) -> string.
Variable build_preview : ToolCall -> ToolSpec -> parsed_args -> PolicyDecision -> string.
(** [now_ms], [int(time.time() * 1000)] and [uuid4]. *)
Variable clock : nat -> Z.
Variable uuid4 : nat -> string.
(** [run_tool] of the tool runner; what it answers can depend on earlier runs. *)
Variable run_tool : list (string * list (string * json)) -> string -> list (string * json) -> ToolContext -> res ToolResult.
(** [get_correlation_ids().get("run_id")] *)
Variable correlation_run_id : option string.

Definition on_guards {B} (m : st G B) : st world B := fun w =>
  let '(r, g) := m (w_guards w) in
  (r, mkWorld g (w_approvals w) (w_client w) (w_ticks w) (w_drawn w) (w_runs w)).
Definition on_approvals {B} (m : st A B) : st world B := fun w =>
  let '(r, a) := m (w_approvals w) in
  (r, mkWorld (w_guards w) a (w_client w) (w_ticks w) (w_drawn w) (w_runs w)).
Definition on_client {B} (m : st X B) : st world B := fun w =>
  let '(r, x) := m (w_client w) in
  (r, mkWorld (w_guards w) (w_approvals w) x (w_ticks w) (w_drawn w) (w_runs w)).
Definition now : st world Z := fun w =>
  (Ok (clock (w_ticks w)), mkWorld (w_guards w) (w_approvals w) (w_client w) (S (w_ticks w)) (w_drawn w) (w_runs w)).
Definition draw : st world string := fun w =>
  (Ok (uuid4 (w_drawn w)), mkWorld (w_guards w) (w_approvals w) (w_client w) (w_ticks w) (S (w_drawn w)) (w_runs w)).
Definition run (name : string) (args : list (string * json)) (ctx : ToolContext) : st world ToolResult := fun w =>
  (run_tool (w_runs w) name args ctx,
   mkWorld (w_guards w) (w_approvals w) (w_client w) (w_ticks w) (w_drawn w) ((name, args) :: w_runs w)).

(** [PolicyEnforcedToolRunner.evaluate_guards] *)
Definition evaluate_guards (tc : ToolCall) (spec : ToolSpec) (parsed : parsed_args)
    (approval_status : option ApprovalStatus.t) (emit_metrics : bool) : st world GuardDecision :=
  now_ms ← now;
  on_guards (chain_check guard_chain tc spec parsed
               (mkGuardContext policy_ctx now_ms emit_metrics approval_status correlation_run_id)).

(** A result that reports why nothing ran. *)
Definition refusal (error_code error_message : string) (data : option json) (debug : option (list (string * json)))
  : res ToolResult :=
  ToolResult_validate (mkToolResult false data (Some error_code) (Some error_message) debug None).

Definition or_else (o : option string) (d : string) : string := match o with Some s => if is_empty s then d else s | None => d end.

Definition approval_data (approval_id : string) : option json := Some (JObj [("approval_id", JStr approval_id)]).

(** ** [approval_flow.py] *)

(** [{**required_decision.metadata, ...}] of the override decisions *)
Definition override_metadata (required : PolicyDecision) (approval_id : string) : list (string * json) :=
  aset "required_rule_id" (opt_str (pd_rule_id required))
    (aset "required_reason_code" (JStr (pd_reason_code required))
       (aset "approval_id" (JStr approval_id) (pd_metadata required))).

Definition execute_approved (tc : ToolCall) (spec : ToolSpec) (parsed : parsed_args) (ctx : ToolContext)
    (approval_id : string) (approval_status : ApprovalStatus.t) (required : PolicyDecision)
    (on_before_execute : option (st world unit)) : st world ToolExecutionOutcome :=
  let outcome d r g := mkOutcome (tool_call_id tc) (tool_name tc) d r g (Some approval_id) (Some approval_status) in
  g ← evaluate_guards tc spec parsed (Some ApprovalStatus.APPROVED) false;
  match gd_action g with
  | GuardAction.DENY =>
      denied ← lift (policy_decision_from_guard g);
      result ← lift (refusal POLICY_DENIED_ERROR_CODE
        (or_else (pd_message denied) ("policy denied: " +:+ pd_reason_code denied)) (approval_data approval_id) None);
      mret (outcome denied result (Some g))
  | GuardAction.DELAY =>
      decision ← lift (PolicyDecision_allow (gd_reason_code g) (gd_message g) (gd_guard_id g) (gd_metadata g));
      result ← lift (refusal EXECUTION_DELAYED_ERROR_CODE (or_else (gd_message g) "execution delayed")
        (approval_data approval_id) (Some (gd_metadata g)));
      mret (outcome decision result (Some g))
  | GuardAction.REQUIRE_APPROVAL =>
      still_required ← lift (PolicyDecision_require_approval (gd_reason_code g) (gd_message g) (gd_guard_id g)
        (aset "approval_status" (JStr (ApprovalStatus.value approval_status))
           (aset "approval_id" (JStr approval_id) (gd_metadata g))));
      result ← lift (refusal APPROVAL_REQUIRED_ERROR_CODE (or_else (pd_message still_required) "approval required")
        (approval_data approval_id) None);
      mret (outcome still_required result (Some g))
  | GuardAction.ALLOW =>
      override ← lift (PolicyDecision_allow "approved_override" (Some "approval approved")
        (Some "policy_enforced_runner") (override_metadata required approval_id));
      match on_before_execute with Some before => before | None => mret tt end;;
      result ← run (tool_name tc) (args tc) ctx;
      mret (outcome override result None)
  end.

(** What follows from the status of the approval that was found or created. *)
Definition after_approval (tc : ToolCall) (spec : ToolSpec) (parsed : parsed_args) (ctx : ToolContext)
    (a : Approval) (required : PolicyDecision) (guard_decision : GuardDecision)
    (on_before_execute : option (st world unit)) : st world ToolExecutionOutcome :=
  let outcome d r :=
    mkOutcome (tool_call_id tc) (tool_name tc) d r (Some guard_decision) (Some (approval_id a)) (Some (ap_status a)) in
  if bool_decide (ap_status a = ApprovalStatus.APPROVED)
  then execute_approved tc spec parsed ctx (approval_id a) (ap_status a) required on_before_execute
  else if bool_decide (ap_status a = ApprovalStatus.DENIED)
  then
    override ← lift (PolicyDecision_deny "approval_denied" (Some "approval denied") (Some "policy_enforced_runner")
      (override_metadata required (approval_id a)));
    result ← lift (refusal POLICY_DENIED_ERROR_CODE "approval denied" (approval_data (approval_id a)) None);
    mret (outcome override result)
  else
    result ← lift (refusal APPROVAL_REQUIRED_ERROR_CODE "approval required" (approval_data (approval_id a)) None);
    mret (outcome required result).

(** [ApprovalBuilder.build_pending] *)
Definition build_pending (run_id task_id : string) (tc : ToolCall) (spec : ToolSpec) (parsed : parsed_args)
    (decision : PolicyDecision) : st world Approval :=
  id ← draw;
  created_at_ms ← now;
  lift (Approval_model_validate
    (mkApproval id run_id task_id (tool_call_id tc) ApprovalStatus.PENDING created_at_ms None None
       (Some (build_payload_hash_for_args (args tc))) (Some (build_preview tc spec parsed decision)))).

Definition uuid_or_new (value : option string) : st world string :=
  match coerce_uuid4_str value with Some s => mret s | None => draw end.

Definition handle_require_approval (tc : ToolCall) (spec : ToolSpec) (parsed : parsed_args) (ctx : ToolContext)
    (required : PolicyDecision) (guard_decision : GuardDecision) (on_before_execute : option (st world unit))
  : st world ToolExecutionOutcome :=
  existing ← on_approvals (get_by_tool_call (tool_call_id tc));
  match existing with
  | Some a =>
      let expected_hash := build_payload_hash_for_args (args tc) in
      if match payload_hash a with Some h => negb (h =? expected_hash)%string | None => false end
      then
        mismatch ← lift (PolicyDecision_deny "args_invalid" (Some "approval payload_hash does not match tool_call args")
          (Some "policy_enforced_runner") [("tool_name", JStr (tool_name tc)); ("approval_id", JStr (approval_id a))]);
        result ← lift (refusal POLICY_DENIED_ERROR_CODE "approval does not match current tool_call args"
          (approval_data (approval_id a)) None);
        mret (mkOutcome (tool_call_id tc) (tool_name tc) mismatch result (Some guard_decision)
                (Some (approval_id a)) (Some (ap_status a)))
      else after_approval tc spec parsed ctx a required guard_decision on_before_execute
  | None =>
      run_id ← uuid_or_new (aget "run_id" (ctx_correlation_ids ctx) ≫= id);
      task_id ← uuid_or_new (aget "task_id" (ctx_correlation_ids ctx) ≫= id);
      attempted ← build_pending run_id task_id tc spec parsed required;
      created ← on_approvals (create_pending attempted);
      after_approval tc spec parsed ctx created required guard_decision on_before_execute
  end.

(** ** [core.py] *)
Definition execute_tool_call (tc : ToolCall) (ctx : ToolContext) (on_before_execute : option (st world unit))
  : st world ToolExecutionOutcome :=
  let outcome d r g := mkOutcome (tool_call_id tc) (tool_name tc) d r g None None in
  match ToolRegistry.get (tool_name tc) registry with
  | Raise (KeyError msg) =>
      decision ← lift (PolicyDecision_deny "tool_unknown" (Some "unknown tool") (Some "policy_enforced_runner")
        [("tool_name", JStr (tool_name tc))]);
      result ← lift (refusal POLICY_DENIED_ERROR_CODE (str_KeyError msg) None None);
      mret (outcome decision result None)
  | Raise e => throw e
  | Ok tool =>
      let spec := tool_spec_from_tool tool in
      match ArgsModel tool (args tc) with
      | Invalid errors =>
          decision ← lift (PolicyDecision_deny "args_invalid" (Some "invalid tool args") (Some "policy_enforced_runner")
            [("tool_name", JStr (tool_name tc)); ("errors", errors)]);
          result ← lift (refusal POLICY_DENIED_ERROR_CODE "invalid tool args" None (Some [("errors", errors)]));
          mret (outcome decision result None)
      | Valid parsed =>
          g ← evaluate_guards tc spec parsed None true;
          match gd_action g with
          | GuardAction.DELAY =>
              decision ← lift (PolicyDecision_allow (gd_reason_code g) (gd_message g) (gd_guard_id g) (gd_metadata g));
              result ← lift (refusal EXECUTION_DELAYED_ERROR_CODE (or_else (gd_message g) "execution delayed") None
                (Some (gd_metadata g)));
              mret (outcome decision result (Some g))
          | GuardAction.DENY =>
              decision ← lift (policy_decision_from_guard g);
              result ← lift (refusal POLICY_DENIED_ERROR_CODE
                (or_else (pd_message decision) ("policy denied: " +:+ pd_reason_code decision)) None None);
              mret (outcome decision result (Some g))
          | GuardAction.REQUIRE_APPROVAL =>
              decision ← lift (policy_decision_from_guard g);
              handle_require_approval tc spec parsed ctx decision g on_before_execute
          | GuardAction.ALLOW =>
              decision ← lift (policy_decision_from_guard g);
              match on_before_execute with Some before => before | None => mret tt end;;
              result ← run (tool_name tc) (args tc) ctx;
              mret (outcome decision result None)
          end
      end
  end.

(** ** What an execution did *)
Definition quiet {B} (m : st world B) : Prop := forall w r w', m w = (r, w') -> w_runs w' = w_runs w.

Lemma quiet_lift {B} (r : res B) : quiet (lift r).
Proof. by intros w r' w' [= _ <-]. Qed.
Lemma quiet_now : quiet now.
Proof. by intros w r' w' [= _ <-]. Qed.
Lemma quiet_draw : quiet draw.
Proof. by intros w r' w' [= _ <-]. Qed.
Lemma quiet_guards {B} (m : st G B) : quiet (on_guards m).
Proof. intros w r w'. unfold on_guards. destruct (m _). by intros [= _ <-]. Qed.
Lemma quiet_approvals {B} (m : st A B) : quiet (on_approvals m).
Proof. intros w r w'. unfold on_approvals. destruct (m _). by intros [= _ <-]. Qed.
Lemma quiet_client {B} (m : st X B) : quiet (on_client m).
Proof. intros w r w'. unfold on_client. destruct (m _). by intros [= _ <-]. Qed.
Lemma quiet_bind {B C} (m : st world B) (k : B -> st world C) : quiet m -> (forall b, quiet (k b)) -> quiet (m ≫= k).
Proof.
  intros Hm Hk w r w'. unfold mbind, st_bind. destruct (m w) as [[b|e] w1] eqn:E; apply Hm in E.
  - intros E2%Hk. congruence.
  - by intros [= _ <-].
Qed.
Lemma quiet_ret {B} (b : B) : quiet (mret b).
Proof. by intros w r w' [= _ <-]. Qed.

Lemma quiet_evaluate tc spec parsed a m : quiet (evaluate_guards tc spec parsed a m).
Proof. apply quiet_bind; [apply quiet_now|]. intros n. apply quiet_guards. Qed.
Lemma quiet_uuid_or_new v : quiet (uuid_or_new v).
Proof. unfold uuid_or_new. destruct (coerce_uuid4_str v); [apply quiet_ret|apply quiet_draw]. Qed.
Lemma quiet_build r t tc spec parsed d : quiet (build_pending r t tc spec parsed d).
Proof. repeat (apply quiet_bind; [apply quiet_draw || apply quiet_now|intros ?]). apply quiet_lift. Qed.

(** The callback before an execution runs no tool itself; it succeeds. *)
Definition quiet_before (before : option (st world unit)) : Prop :=
  match before with Some b => quiet b | None => True end.
Definition succeeds (before : option (st world unit)) : Prop :=
  match before with Some b => forall w, (b w).1 = Ok tt | None => True end.

(** The error code of the outcomes of which nothing ran. *)
Definition refusal_code (a : PolicyAction.t) : string :=
  match a with
  | PolicyAction.DENY => POLICY_DENIED_ERROR_CODE
  | PolicyAction.REQUIRE_APPROVAL => APPROVAL_REQUIRED_ERROR_CODE
  | PolicyAction.ALLOW => EXECUTION_DELAYED_ERROR_CODE
  end.

(** Nothing ran, and an outcome says so. *)
Definition refused (w : world) (r : res ToolExecutionOutcome) (w' : world) : Prop :=
  w_runs w' = w_runs w /\
  forall o, r = Ok o -> ok (oc_result o) = false /\
    error_code (oc_result o) = Some (refusal_code (pd_action (oc_decision o))) /\
    (pd_action (oc_decision o) = PolicyAction.ALLOW -> oc_guard_decision o <> None).

(** The tool ran once, after everything else, and the outcome carries its result. *)
Definition ran (tc : ToolCall) (ctx : ToolContext) (w : world) (r : res ToolExecutionOutcome) (w' : world) : Prop :=
  w_runs w' = (tool_name tc, args tc) :: w_runs w /\
  match r with
  | Ok o => pd_action (oc_decision o) = PolicyAction.ALLOW /\ oc_guard_decision o = None /\
            run_tool (w_runs w) (tool_name tc) (args tc) ctx = Ok (oc_result o)
  | Raise e => run_tool (w_runs w) (tool_name tc) (args tc) ctx = Raise e
  end.

Lemma refused_quiet {B} (m : st world B) (k : B -> st world ToolExecutionOutcome) w r w' :
  quiet m -> (m ≫= k) w = (r, w') ->
  (exists e, r = Raise e /\ w_runs w' = w_runs w) \/
  exists b w1, m w = (Ok b, w1) /\ w_runs w1 = w_runs w /\ k b w1 = (r, w').
Proof.
  intros Hm. unfold mbind, st_bind. destruct (m w) as [[b|e] w1] eqn:E; pose proof (Hm _ _ _ E) as Hq.
  - intros E2. right. by exists b, w1.
  - intros [= <- <-]. left. by exists e.
Qed.

Lemma refused_raise w e w' : w_runs w' = w_runs w -> refused w (Raise e) w'.
Proof. by split. Qed.
Lemma refused_from w w1 r w' : w_runs w1 = w_runs w -> refused w1 r w' -> refused w r w'.
Proof. intros E [H1 H2]. split; [congruence|done]. Qed.
Lemma ran_from tc ctx w w1 r w' : w_runs w1 = w_runs w -> ran tc ctx w1 r w' -> ran tc ctx w r w'.
Proof. unfold ran. by intros ->. Qed.

(** The first computation of a bind is quiet: it raised, or its value is at hand. *)
Ltac quiet_step E :=
  apply refused_quiet in E;
    [destruct E as [(e & -> & E)|(?b & ?w & ?Eb & ?Eq & E)]; [solve [left; apply refused_raise; congruence]|]
    |first [apply quiet_lift|apply quiet_evaluate|apply quiet_approvals|apply quiet_uuid_or_new|apply quiet_build]].

Lemma refusal_spec code msg d debug r : strip code = code -> refusal code msg d debug = Ok r ->
  ok r = false /\ error_code r = Some code.
Proof.
  intros Hs. unfold refusal, ToolResult_validate. cbn [ok data error_code error_message Decision.debug produced_artifacts].
  intros E. vld_inv. cbn [ok error_code]. split; [done|].
  match goal with H : normalize_error_str "error_code" _ = Ok _ |- _ => cbn in H; rewrite Hs in H end.
  destruct (is_empty code); congruence.
Qed.

(** A refusal built from a decision and a result. *)
Lemma refuse_outcome w w1 w' d r code msg dat dbg id name g ai as_ :
  w_runs w1 = w_runs w -> lift (refusal code msg dat dbg) w1 = (Ok r, w') ->
  code = refusal_code (pd_action d) -> (pd_action d = PolicyAction.ALLOW -> g <> None) ->
  refused w (Ok (mkOutcome id name d r g ai as_)) w'.
Proof.
  intros E1 E2 -> Hg. unfold lift in E2. injection E2 as E2 <-.
  apply refusal_spec in E2 as [Ho Hc]; [|by destruct (pd_action d)].
  split; [done|]. by intros o [= <-].
Qed.

Lemma run_step tc ctx (mk : ToolResult -> ToolExecutionOutcome) (before : option (st world unit)) w r w' :
  quiet_before before -> (forall x, oc_result (mk x) = x /\ pd_action (oc_decision (mk x)) = PolicyAction.ALLOW /\ oc_guard_decision (mk x) = None) ->
  ((match before with Some b => b | None => mret tt end);;
   result ← run (tool_name tc) (args tc) ctx; mret (mk result)) w = (r, w') ->
  refused w r w' \/ ran tc ctx w r w'.
Proof.
  intros Hq Hmk E. apply refused_quiet in E as [(e & -> & E)|([] & w1 & _ & Eq & E)].
  - left. by apply refused_raise.
  - right. apply (ran_from _ _ _ w1); [done|]. unfold mbind, st_bind in E. cbn [run] in E. unfold run in E.
    unfold ran. destruct (run_tool (w_runs w1) (tool_name tc) (args tc) ctx) as [x|e] eqn:Er; injection E as <- <-; cbn.
    + destruct (Hmk x) as (-> & -> & ->). done.
    + done.
  - destruct before; [apply Hq|apply quiet_ret].
Qed.

Lemma execute_approved_runs tc spec parsed ctx id ast required before w r w' : quiet_before before ->
  execute_approved tc spec parsed ctx id ast required before w = (r, w') ->
  refused w r w' \/
  ran tc ctx w r w' /\ exists g w1, evaluate_guards tc spec parsed (Some ApprovalStatus.APPROVED) false w = (Ok g, w1) /\
    gd_action g = GuardAction.ALLOW.
Proof.
  intros Hq. unfold execute_approved. intros E. quiet_step E. rename b into g.
  destruct (gd_action g) eqn:Eg.
  - quiet_step E. apply run_step in E as [E|E]; [| |done|].
    + left. eapply refused_from; [|exact E]. congruence.
    + right. split; [|by exists g, w0]. eapply ran_from; [|exact E]. congruence.
    + intros x. cbn. apply lift_Ok in Eb0 as [Eb0 _]. by apply decision_new_action in Eb0.
  - quiet_step E. rename b into d. quiet_step E. unfold mret, st_ret in E. injection E as <- <-. left.
    eapply refuse_outcome; [|exact Eb1| |done]; [congruence|].
    apply lift_Ok in Eb0 as [Eb0 _]. unfold policy_decision_from_guard in Eb0. rewrite Eg in Eb0.
    by rewrite (decision_new_action _ _ _ _ _ _ Eb0).
  - quiet_step E. rename b into d. quiet_step E. injection E as <- <-. left.
    eapply refuse_outcome; [|exact Eb1| |done]; [congruence|].
    apply lift_Ok in Eb0 as [Eb0 _]. by rewrite (decision_new_action _ _ _ _ _ _ Eb0).
  - quiet_step E. rename b into d. quiet_step E. injection E as <- <-. left.
    eapply refuse_outcome; [|exact Eb1| |done]; [congruence|].
    apply lift_Ok in Eb0 as [Eb0 _]. by rewrite (decision_new_action _ _ _ _ _ _ Eb0).
Qed.

(** An approved approval lets the call run after the guards allow it again. *)
Definition released (tc : ToolCall) (spec : ToolSpec) (parsed : parsed_args) (a : Approval) (w : world) : Prop :=
  ap_status a = ApprovalStatus.APPROVED /\
  exists g w1, evaluate_guards tc spec parsed (Some ApprovalStatus.APPROVED) false w = (Ok g, w1) /\
    gd_action g = GuardAction.ALLOW.

Lemma after_approval_runs tc spec parsed ctx a required g before w r w' :
  quiet_before before -> pd_action required = PolicyAction.REQUIRE_APPROVAL ->
  after_approval tc spec parsed ctx a required g before w = (r, w') ->
  refused w r w' \/ ran tc ctx w r w' /\ released tc spec parsed a w.
Proof.
  intros Hq Hr. unfold after_approval. case_bool_decide as Ha; [|case_bool_decide as Hd].
  - intros [E|[E1 E2]]%execute_approved_runs; [by left|by right|done].
  - intros E. quiet_step E. rename b into d. quiet_step E. injection E as <- <-. left.
    eapply refuse_outcome; [|exact Eb0| |done]; [congruence|].
    apply lift_Ok in Eb as [Eb _]. by rewrite (decision_new_action _ _ _ _ _ _ Eb).
  - intros E. quiet_step E. injection E as <- <-. left.
    eapply refuse_outcome; [|exact Eb| |done]; [done|]. by rewrite Hr.
Qed.

(** The approval the store gives for a call: one that it had, whose hash is
    that of the arguments if it has one, or the answer to a new request. *)
Inductive obtained (tc : ToolCall) (w : world) : Approval -> world -> Prop :=
| obtained_found a w1 :
    on_approvals (get_by_tool_call (tool_call_id tc)) w = (Ok (Some a), w1) ->
    (forall h, payload_hash a = Some h -> h = build_payload_hash_for_args (args tc)) ->
    obtained tc w a w1
| obtained_created attempted a w1 w2 w3 :
    on_approvals (get_by_tool_call (tool_call_id tc)) w = (Ok None, w1) ->
    w_approvals w2 = w_approvals w1 -> ap_status attempted = ApprovalStatus.PENDING ->
    (is_uuid4_str (tool_call_id tc) = true -> ap_tool_call_id attempted = tool_call_id tc) ->
    on_approvals (create_pending attempted) w2 = (Ok a, w3) ->
    obtained tc w a w3.

Lemma keeps_approvals_uuid v w s w' : uuid_or_new v w = (Ok s, w') -> w_approvals w' = w_approvals w.
Proof. unfold uuid_or_new. destruct (coerce_uuid4_str v); by intros [= _ <-]. Qed.

Lemma build_pending_spec r t tc spec parsed d w a w' : build_pending r t tc spec parsed d w = (Ok a, w') ->
  w_approvals w' = w_approvals w /\ ap_status a = ApprovalStatus.PENDING /\
  (is_uuid4_str (tool_call_id tc) = true -> ap_tool_call_id a = tool_call_id tc).
Proof.
  unfold build_pending. intros (id & w1 & [= <- <-] & E)%st_bind_Ok. apply st_bind_Ok in E as (n & w1 & [= <- <-] & E).
  apply lift_Ok in E as [E ->]. split; [done|]. split; [by apply Approval_validate_decided in E as [-> _]|].
  intros Hid. unfold Approval_model_validate, Approval_fields in E. cbn [ap_tool_call_id] in E.
  rewrite (proj1 (is_uuid4_str_validate "tool_call_id" _) Hid) in E. vld_inv. cbn. by simplify_eq.
Qed.

Lemma handle_runs tc spec parsed ctx required g before w r w' :
  quiet_before before -> pd_action required = PolicyAction.REQUIRE_APPROVAL ->
  handle_require_approval tc spec parsed ctx required g before w = (r, w') ->
  refused w r w' \/ ran tc ctx w r w' /\ exists a w1, obtained tc w a w1 /\ released tc spec parsed a w1.
Proof.
  intros Hq Hr. unfold handle_require_approval. intros E. quiet_step E. destruct b as [a|].
  - destruct (match payload_hash a with Some h => negb (h =? build_payload_hash_for_args (args tc))%string | None => false end) eqn:Eh.
    + quiet_step E. rename b into d. quiet_step E. injection E as <- <-. left.
      eapply refuse_outcome; [|exact Eb1| |done]; [congruence|].
      apply lift_Ok in Eb0 as [Eb0 _]. by rewrite (decision_new_action _ _ _ _ _ _ Eb0).
    + apply after_approval_runs in E as [E|[E1 E2]]; [| |done..].
      * left. by eapply refused_from.
      * right. split; [by eapply ran_from|]. exists a, w0. split; [|done]. constructor; [done|].
        intros h Hh. rewrite Hh in Eh. by apply negb_false_iff, String.eqb_eq in Eh.
  - quiet_step E. rename b into run_id. quiet_step E. rename b into task_id. quiet_step E. rename b into attempted.
    quiet_step E. rename b into a.
    apply after_approval_runs in E as [E|[E1 E2]]; [| |done..].
    + left. eapply refused_from; [|exact E]. congruence.
    + right. split; [eapply ran_from; [|exact E1]; congruence|]. exists a, w4. split; [|done].
      apply (obtained_created tc w attempted a w0 w3 w4); [done| | | |done].
      * apply keeps_approvals_uuid in Eb0, Eb1. apply build_pending_spec in Eb2 as (-> & _). congruence.
      * by apply build_pending_spec in Eb2 as (_ & ? & _).
      * by apply build_pending_spec in Eb2 as (_ & _ & ?).
Qed.

(** What a call needs to run: a known tool, arguments that parse, and guards
    that allow it, or that ask for an approval which is there. *)
Definition cleared (tc : ToolCall) (w : world)
    (approved : ToolSpec -> parsed_args -> world -> Prop) : Prop :=
  exists tool parsed g w1, ToolRegistry.get (tool_name tc) registry = Ok tool /\ ArgsModel tool (args tc) = Valid parsed /\
    evaluate_guards tc (tool_spec_from_tool tool) parsed None true w = (Ok g, w1) /\
    (gd_action g = GuardAction.ALLOW \/
     gd_action g = GuardAction.REQUIRE_APPROVAL /\ approved (tool_spec_from_tool tool) parsed w1).

Lemma execute_runs tc ctx before w r w' : quiet_before before -> execute_tool_call tc ctx before w = (r, w') ->
  refused w r w' \/
  ran tc ctx w r w' /\ cleared tc w (fun spec parsed w1 =>
    exists a w2, obtained tc w1 a w2 /\ released tc spec parsed a w2).
Proof.
  intros Hq. unfold execute_tool_call, cleared. destruct (ToolRegistry.get (tool_name tc) registry) as [tool|e] eqn:Et.
  2: { unfold ToolRegistry.get in Et. destruct (aget _ registry); [done|]. injection Et as <-. intros E.
    quiet_step E. rename b into d. quiet_step E. injection E as <- <-. left.
    apply lift_Ok in Eb as [Eb ->]. apply decision_new_action in Eb.
    eapply refuse_outcome; [|exact Eb0| |]; [done|by rewrite Eb|by rewrite Eb]. }
  destruct (ArgsModel tool (args tc)) as [parsed|errors] eqn:Ep.
  2: { intros E. quiet_step E. rename b into d. quiet_step E. injection E as <- <-. left.
    apply lift_Ok in Eb as [Eb _]. apply decision_new_action in Eb.
    eapply refuse_outcome; [|exact Eb0| |]; [congruence|by rewrite Eb|by rewrite Eb]. }
  intros E. quiet_step E. rename b into g. destruct (gd_action g) eqn:Eg.
  - quiet_step E. apply run_step in E as [E|E]; [| |done|].
    + left. eapply refused_from; [|exact E]. congruence.
    + right. split; [eapply ran_from; [|exact E]; congruence|]. exists tool, parsed, g, w0. auto.
    + intros x. cbn. apply lift_Ok in Eb0 as [Eb0 _]. unfold policy_decision_from_guard in Eb0. rewrite Eg in Eb0.
      by apply decision_new_action in Eb0.
  - quiet_step E. rename b into d. quiet_step E. injection E as <- <-. left.
    apply lift_Ok in Eb0 as [Eb0 _]. unfold policy_decision_from_guard in Eb0. rewrite Eg in Eb0.
    eapply refuse_outcome; [|exact Eb1| |done]; [congruence|]. by rewrite (decision_new_action _ _ _ _ _ _ Eb0).
  - quiet_step E. rename b into d. quiet_step E. injection E as <- <-. left.
    apply lift_Ok in Eb0 as [Eb0 _].
    eapply refuse_outcome; [|exact Eb1| |done]; [congruence|]. by rewrite (decision_new_action _ _ _ _ _ _ Eb0).
  - quiet_step E. rename b into d. apply lift_Ok in Eb0 as [Eb0 ->].
    unfold policy_decision_from_guard in Eb0. rewrite Eg in Eb0. apply decision_new_action in Eb0.
    apply handle_runs in E as [E|[E1 (a & w2 & E2)]]; [left; by eapply refused_from| |done..].
    right. split; [by eapply ran_from|]. exists tool, parsed, g, w0. repeat split; try done. right. split; [done|]. by exists a, w2.
Qed.

(** *** What an execution leaves alone

    A reflexive and transitive relation between worlds that holds across every
    step holds across an execution. *)
Definition keeps {B} (R : world -> world -> Prop) (m : st world B) : Prop := forall w r w', m w = (r, w') -> R w w'.

Lemma keeps_bind {B C} R `{!PreOrder R} (m : st world B) (k : B -> st world C) :
  keeps R m -> (forall b, keeps R (k b)) -> keeps R (m ≫= k).
Proof.
  intros Hm Hk w r w'. unfold mbind, st_bind. destruct (m w) as [[b|e] w1] eqn:E.
  - intros E2%Hk. etrans; [by eapply Hm|done].
  - intros [= _ <-]. by eapply Hm.
Qed.
Lemma keeps_lift {B} R `{!PreOrder R} (r : res B) : keeps R (lift r).
Proof. by intros w r' w' [= _ <-]. Qed.
Lemma keeps_ret {B} R `{!PreOrder R} (b : B) : keeps R (mret b).
Proof. by intros w r w' [= _ <-]. Qed.

Section keeping.
Variables (R : world -> world -> Prop) (tc : ToolCall) (ctx : ToolContext) (before : option (st world unit)).
Context `{!PreOrder R}.
Hypothesis keeps_guards : forall B (m : st G B), keeps R (on_guards m).
Hypothesis keeps_lookup : keeps R (on_approvals (get_by_tool_call (tool_call_id tc))).
Hypothesis keeps_request : forall a, keeps R (on_approvals (create_pending a)).
Hypothesis keeps_now : keeps R now.
Hypothesis keeps_draw : keeps R draw.
Hypothesis keeps_run : forall mk : ToolResult -> ToolExecutionOutcome,
  keeps R ((match before with Some b => b | None => mret tt end);; result ← run (tool_name tc) (args tc) ctx; mret (mk result)).

Lemma keeps_evaluate spec parsed a m : keeps R (evaluate_guards tc spec parsed a m).
Proof. apply keeps_bind; [done|done|]. intros n. apply keeps_guards. Qed.

Ltac keep :=
  repeat first [apply keeps_lift; done | apply keeps_ret; done | apply keeps_run | apply keeps_evaluate | done
    | apply keeps_bind; [done| |intros ?]].

Lemma keeps_approved spec parsed id ast required : keeps R (execute_approved tc spec parsed ctx id ast required before).
Proof. unfold execute_approved. apply keeps_bind; [done|apply keeps_evaluate|]. intros g. destruct (gd_action g); keep. Qed.

Lemma keeps_after spec parsed a required g : keeps R (after_approval tc spec parsed ctx a required g before).
Proof. unfold after_approval. repeat case_bool_decide; [apply keeps_approved|keep|keep]. Qed.

Lemma keeps_uuid_or_new v : keeps R (uuid_or_new v).
Proof. unfold uuid_or_new. destruct (coerce_uuid4_str v); keep. Qed.

Lemma keeps_handle spec parsed required g : keeps R (handle_require_approval tc spec parsed ctx required g before).
Proof.
  unfold handle_require_approval. apply keeps_bind; [done|done|]. intros [a|].
  - destruct (match payload_hash a with Some _ => _ | None => _ end); [keep|apply keeps_after].
  - do 2 (apply keeps_bind; [done|apply keeps_uuid_or_new|intros ?]). apply keeps_bind; [done|unfold build_pending; keep|intros ?].
    apply keeps_bind; [done|apply keeps_request|intros ?]. apply keeps_after.
Qed.

Lemma execute_keeps : keeps R (execute_tool_call tc ctx before).
Proof.
  unfold execute_tool_call. destruct (ToolRegistry.get (tool_name tc) registry) as [tool|e].
  - destruct (ArgsModel tool (args tc)) as [parsed|errors]; [|keep]. apply keeps_bind; [done|apply keeps_evaluate|].
    intros g. destruct (gd_action g); [keep..|]. apply keeps_bind; [done|keep|]. intros d. apply keeps_handle.
  - destruct e; try (by intros w r' w' [= _ <-]). keep.
Qed.
End keeping.

(** C11: no tool runs unless policy lets it. Executing a tool call, with a
    callback that runs no tool itself, either runs
    nothing, and an outcome then is not ok and carries the error code of the
    refusal (policy denied, approval required or execution delayed, which is
    the only one with an ALLOW decision and then names the delaying guard); or
    runs exactly that tool once, with the call's arguments, after all checks,
    and the outcome is its result under an ALLOW decision without a guard. In
    the second case the tool is registered, the arguments parse, and the guards
    allow the call, or they ask for an approval, the store has or returns one
    that is approved (an existing one with the hash of these arguments), and
    the guards, asked again, allow the call. *)
Theorem enforcement_safe tc ctx before w r w' : quiet_before before -> execute_tool_call tc ctx before w = (r, w') ->
  refused w r w' \/
  ran tc ctx w r w' /\ cleared tc w (fun spec parsed w1 =>
    exists a w2, obtained tc w1 a w2 /\ released tc spec parsed a w2).
Proof. apply execute_runs. Qed.

(** ** Completeness *)

(** What the constructors of [GuardDecision] guarantee. *)
Definition gd_ok (g : GuardDecision) : Prop :=
  strip (gd_reason_code g) <> "" /\ jsonable (JObj (gd_metadata g)) = true.

Lemma PolicyDecision_new_intro act rc msg id md : strip rc <> "" -> jsonable (JObj md) = true ->
  exists d, PolicyDecision_new act rc msg id md = Ok d /\ pd_action d = act /\ pd_metadata d = md.
Proof.
  intros Hrc Hmd. unfold PolicyDecision_new, normalize_reason_code, metadata_json_safe. rewrite Hmd.
  destruct (is_empty (strip rc)) eqn:E; [by apply is_empty_spec in E|].
  assert (forall o, normalize_optional o = Ok (o ≫= strip_or_none)) as Ho by by intros [].
  rewrite !Ho. by eexists.
Qed.

Lemma run_step_ran tc ctx (mk : ToolResult -> ToolExecutionOutcome) (before : option (st world unit)) w r w' :
  quiet_before before -> succeeds before ->
  ((match before with Some b => b | None => mret tt end);;
   result ← run (tool_name tc) (args tc) ctx; mret (mk result)) w = (r, w') ->
  w_runs w' = (tool_name tc, args tc) :: w_runs w.
Proof.
  intros Hq Hb E. assert (exists w1, (match before with Some b => b | None => mret tt end) w = (Ok tt, w1) /\
    w_runs w1 = w_runs w) as (w1 & E1 & Er).
  { destruct before as [b|]; [|by exists w]. specialize (Hb w). destruct (b w) as [q x] eqn:Eb. cbn in Hb. subst q.
    exists x. split; [done|]. by eapply Hq. }
  unfold mbind at 1, st_bind at 1 in E. rewrite E1 in E. unfold mbind, st_bind, run in E.
  destruct (run_tool _ _ _ _); injection E as <- <-; cbn; by rewrite Er.
Qed.

(** The approval that is there: found by tool call, with the hash of the
    arguments if it has one, and approved. *)
Definition found_approved (tc : ToolCall) (spec : ToolSpec) (parsed : parsed_args) (w : world) : Prop :=
  exists a w1, on_approvals (get_by_tool_call (tool_call_id tc)) w = (Ok (Some a), w1) /\
    (forall h, payload_hash a = Some h -> h = build_payload_hash_for_args (args tc)) /\ released tc spec parsed a w1.

Section complete.
Hypothesis guards_ok : forall tc spec parsed ast m w g w1, evaluate_guards tc spec parsed ast m w = (Ok g, w1) -> gd_ok g.

Lemma execute_approved_complete tc spec parsed ctx id ast required before w r w' g w1 :
  quiet_before before -> succeeds before ->
  jsonable (JObj (pd_metadata required)) = true ->
  evaluate_guards tc spec parsed (Some ApprovalStatus.APPROVED) false w = (Ok g, w1) -> gd_action g = GuardAction.ALLOW ->
  execute_approved tc spec parsed ctx id ast required before w = (r, w') ->
  w_runs w' = (tool_name tc, args tc) :: w_runs w.
Proof.
  intros Hq Hb Hj Eg Hg E. unfold execute_approved in E. unfold mbind at 1, st_bind at 1 in E. rewrite Eg, Hg in E.
  destruct (PolicyDecision_new_intro PolicyAction.ALLOW "approved_override" (Some "approval approved")
    (Some "policy_enforced_runner") (override_metadata required id)) as (d & Ed & _).
  { done. }
  { unfold override_metadata. repeat apply jsonable_aset; try done. by destruct (pd_rule_id required). }
  unfold PolicyDecision_allow in E. rewrite Ed in E. unfold lift at 1 in E. unfold mbind at 1, st_bind at 1 in E.
  apply run_step_ran in E; [|done..]. rewrite E. f_equal. by eapply quiet_evaluate.
Qed.

Lemma execute_complete tc ctx before w r w' :
  quiet_before before -> succeeds before ->
  cleared tc w (found_approved tc) -> execute_tool_call tc ctx before w = (r, w') ->
  w_runs w' = (tool_name tc, args tc) :: w_runs w.
Proof.
  intros Hqb Hb (tool & parsed & g & w1 & Et & Ep & Eg & Hg) E. unfold execute_tool_call in E. rewrite Et, Ep in E.
  unfold mbind at 1, st_bind at 1 in E. rewrite Eg in E. destruct (guards_ok _ _ _ _ _ _ _ _ Eg) as [G1 G2].
  pose proof (quiet_evaluate _ _ _ _ _ _ _ _ Eg) as Hq.
  destruct Hg as [Hg|[Hg (a & w2 & Ea & Hh & Hr & g2 & w3 & Eg2 & Hg2)]]; rewrite Hg in E.
  - destruct (PolicyDecision_new_intro PolicyAction.ALLOW _ (gd_message g) (gd_guard_id g) _ G1 G2) as (d & Ed & _).
    unfold policy_decision_from_guard, PolicyDecision_allow in E. rewrite Hg, Ed in E.
    unfold lift at 1 in E. unfold mbind at 1, st_bind at 1 in E. apply run_step_ran in E; [|done..]. by rewrite E, Hq.
  - destruct (PolicyDecision_new_intro PolicyAction.REQUIRE_APPROVAL _ (gd_message g) (gd_guard_id g) _ G1 G2) as (d & Ed & _ & Em).
    unfold policy_decision_from_guard, PolicyDecision_require_approval in E. rewrite Hg, Ed in E.
    unfold lift at 1 in E. unfold mbind at 1, st_bind at 1 in E.
    unfold handle_require_approval in E. unfold mbind at 1, st_bind at 1 in E. rewrite Ea in E.
    assert (match payload_hash a with Some h => negb (h =? build_payload_hash_for_args (args tc))%string | None => false end
      = false) as Hf.
    { destruct (payload_hash a) as [h|]; [|done]. rewrite (Hh h eq_refl). by rewrite String.eqb_refl. }
    rewrite Hf in E. unfold after_approval in E. rewrite bool_decide_true in E by done.
    eapply execute_approved_complete in E; [|done|done|by rewrite Em|exact Eg2|done].
    rewrite E, <- Hq. f_equal. by eapply quiet_approvals.
Qed.
End complete.
End enforcement.

(** ** With an approval store that answers requests as asked *)
Section lawful.
Context {G A X : Type} `{ApprovalStoreLaws A}.
Notation world := (world G A X).
Variables (registry : ToolRegistry.t) (guard_chain : list (guard G)) (policy_ctx : PolicyContext)
  (build_payload_hash_for_args : list (string * json) -> string)
  (build_preview : ToolCall -> ToolSpec -> parsed_args -> PolicyDecision -> string)
  (clock : nat -> Z) (uuid4 : nat -> string)
  (run_tool : list (string * list (string * json)) -> string -> list (string * json) -> ToolContext -> res ToolResult)
  (correlation_run_id : option string).

Notation obtained := (@obtained G A X _ build_payload_hash_for_args).
Notation found_approved := (@found_approved G A X _ guard_chain policy_ctx
  build_payload_hash_for_args clock correlation_run_id).

(** What the store answers to a new request is pending. *)
Lemma obtained_approved tc (w : world) a w1 : is_uuid4_str (tool_call_id tc) = true -> obtained tc w a w1 ->
  ap_status a = ApprovalStatus.APPROVED ->
  on_approvals (get_by_tool_call (tool_call_id tc)) w = (Ok (Some a), w1) /\
  (forall h, payload_hash a = Some h -> h = build_payload_hash_for_args (args tc)).
Proof.
  intros Hid [a' w1' E Hh|attempted a' w1' w2 w3 E1 E2 Ep Et E3] Ha; [done|]. exfalso.
  unfold on_approvals in E1, E3. rewrite E2 in E3.
  destruct (get_by_tool_call (tool_call_id tc) (w_approvals w)) as [o s1] eqn:El. injection E1 as -> <-.
  cbn [w_approvals] in E3. pose proof (lookup_keeps _ _ _ _ El) as ->. rewrite <- (Et Hid) in El.
  destruct (create_pending attempted (w_approvals w)) as [b s2] eqn:Ec. injection E3 as -> _.
  apply (created_as_asked _ _ _ _ _ El Ep) in Ec. congruence.
Qed.

Notation execute := (@execute_tool_call G A X _ registry guard_chain policy_ctx
  build_payload_hash_for_args build_preview clock uuid4 run_tool correlation_run_id).

(** C2: a tool runs exactly when policy lets it, now, whichever lawful
    approval store is used. Over guards whose decisions are well formed, and when the
    callback before the execution runs no tool and succeeds, executing a call runs its tool,
    once, if and only if the tool is known, the arguments parse and the guards
    allow the call, or they ask for an approval, the store holds an approved
    one for this call (with the hash of these arguments if it has a hash), and
    the guards, asked again with it, allow the call. Otherwise nothing runs: in
    particular a call that policy sends to approval for the first time does
    not run, and one whose arguments changed since the approval does not. *)
Theorem enforcement_exact tc ctx (before : option (st world unit)) (w : world) r w' :
  is_uuid4_str (tool_call_id tc) = true ->
  (forall tc spec parsed ast m (w : world) g w1,
     evaluate_guards guard_chain policy_ctx clock correlation_run_id tc spec parsed ast m w = (Ok g, w1) -> gd_ok g) ->
  quiet_before before -> succeeds before ->
  execute tc ctx before w = (r, w') ->
  (w_runs w' = w_runs w \/ w_runs w' = (tool_name tc, args tc) :: w_runs w) /\
  (w_runs w' = (tool_name tc, args tc) :: w_runs w <->
   cleared registry guard_chain policy_ctx clock correlation_run_id tc w (found_approved tc)).
Proof.
  intros Hid Hg Hq Hb E. pose proof (execute_runs registry guard_chain policy_ctx build_payload_hash_for_args build_preview
    clock uuid4 run_tool correlation_run_id tc ctx before w r w' Hq E) as Hr.
  assert (forall l : list (string * list (string * json)), l = (tool_name tc, args tc) :: l -> False) as Hl.
  { intros l Hl. apply (f_equal length) in Hl. cbn in Hl. lia. }
  split; [destruct Hr as [[Hr _]|[[Hr _] _]]; auto|]. split.
  - intros Hrun. destruct Hr as [[Hr _]|[_ Hc]]; [destruct (Hl (w_runs w)); congruence|].
    destruct Hc as (tool & parsed & g & w1 & H1 & H2 & H3 & H4). exists tool, parsed, g, w1. do 3 (split; [done|]).
    destruct H4 as [H4|(H4 & a & w2 & Ho & Hrel)]; [by left|]. right. split; [done|].
    destruct (obtained_approved _ _ _ _ Hid Ho (proj1 Hrel)) as [Hf Hh]. by exists a, w2.
  - intros Hc. exact (execute_complete registry guard_chain policy_ctx build_payload_hash_for_args build_preview
      clock uuid4 run_tool correlation_run_id Hg tc ctx before w r w' Hq Hb Hc E).
Qed.
End lawful.

(** ** The decisions of the default chain are well formed *)
Lemma GuardDecision_new_gd_ok act rc msg id md d : GuardDecision_new act rc msg id md = Ok d -> gd_ok d.
Proof.
  intros E. pose proof (GuardDecision_new_ok _ _ _ _ _ _ E) as [-> Hj]. split; [|done]. cbn [gd_reason_code].
  rewrite strip_idemp. unfold GuardDecision_new in E. vld_inv.
  match goal with H : normalize_reason_code rc = Ok _ |- _ => unfold normalize_reason_code in H end.
  destruct (is_empty (strip rc)) eqn:Ee; [done|]. intros Hs. by rewrite Hs in Ee.
Qed.

Lemma GuardDecision_delay_gd_ok x rc msg id md d : GuardDecision_delay x rc msg id md = Ok d -> gd_ok d.
Proof. intros (u & _ & E)%res_bind_Ok. by eapply GuardDecision_new_gd_ok. Qed.

Lemma allow_ok_gd_ok : gd_ok allow_ok.
Proof. by split. Qed.

Lemma asked_forall {S} (P : GuardDecision -> Prop) (guards : list (st S GuardDecision)) s ds s' :
  (forall g s d s', g ∈ guards -> g s = (Ok d, s') -> P d) -> asked guards s ds s' -> Forall P ds.
Proof.
  intros Hg Ha. induction Ha as [s|g rest s d s' E Hd|g rest s d s' ds s'' E Hd _ IH]; [constructor|..].
  - constructor; [|constructor]. eapply Hg; [|exact E]. set_solver.
  - constructor; [eapply Hg; [|exact E]; set_solver|]. apply IH. intros g' s1 d1 s2 Hin. apply Hg. set_solver.
Qed.

Lemma chain_gd_ok {S} (guards : list (guard S)) tc spec parsed ctx s d s' :
  (forall g s d s', g ∈ guards -> g tc spec parsed ctx s = (Ok d, s') -> gd_ok d) ->
  chain_check guards tc spec parsed ctx s = (Ok d, s') -> gd_ok d.
Proof.
  intros Hg E. unfold chain_check in E. apply st_bind_Ok in E as (best & s0 & [Eb ->]%lift_Ok & E).
  rewrite allow_ok_new in Eb. injection Eb as <-. destruct (check_guards_inv _ _ _ _ _ _ E) as [ds Ha].
  destruct (check_guards_asked _ _ _ _ allow_ok Ha) as (d' & E' & pre & post & Hl & _); [done|].
  assert (d' = d) as -> by congruence. apply (asked_forall gd_ok) in Ha.
  - assert (Forall gd_ok (allow_ok :: ds)) as Hf by (constructor; [apply allow_ok_gd_ok|done]).
    rewrite Hl in Hf. by apply Forall_app in Hf as [_ [? _]%Forall_cons].
  - intros g s1 d1 s2 Hin E1. apply list_elem_of_fmap in Hin as (g' & -> & Hin). by eapply Hg.
Qed.

Lemma default_chain_gd_ok `{Checks} destination cfg tc spec parsed ctx s d s' :
  chain_check (build_default_policy_guard_chain destination cfg) tc spec parsed ctx s = (Ok d, s') -> gd_ok d.
Proof.
  apply chain_gd_ok. intros g s1 d1 s2 Hin E.
  apply elem_of_cons in Hin as [->|Hin]; [|apply elem_of_cons in Hin as [->|Hin%list_elem_of_singleton]].
  - apply lift_Ok in E as [(pd & _ & E)%res_bind_Ok _]. unfold policy_guard_decision in E.
    destruct (_ && _); by eapply GuardDecision_new_gd_ok.
  - apply on_breaker_Ok in E as [E _]. unfold CircuitBreakerGuard_check in E.
    apply st_bind_Ok in E as (waits & b1 & _ & E). destruct waits; [injection E as <- _; apply allow_ok_gd_ok|].
    apply st_bind_Ok in E as (key & b2 & _ & E). apply st_bind_Ok in E as (now & b3 & _ & E).
    apply st_bind_Ok in E as (dec & b4 & _ & [E _]%lift_Ok). unfold circuit_decision in E.
    destruct (CircuitBreaker.allowed dec); [by eapply GuardDecision_new_gd_ok|by eapply GuardDecision_delay_gd_ok].
  - subst g. apply on_limiter_Ok in E as [E _]. unfold RateLimitGuard_check in E.
    destruct (negb _); [injection E as <- _; apply allow_ok_gd_ok|].
    apply st_bind_Ok in E as (now & b1 & _ & E). apply st_bind_Ok in E as (r & b2 & _ & [E _]%lift_Ok).
    unfold rate_limit_decision in E. destruct (RateLimit.allowed r); [injection E as <-; apply allow_ok_gd_ok|].
    destruct (RateLimit.retry_after_s r); [by eapply GuardDecision_delay_gd_ok|by eapply GuardDecision_new_gd_ok].
Qed.

(** ** A call that is sent to approval, approved, and run *)
Definition approval_ctx : PolicyContext := mkPolicyContext "prod" false ["fs.read"] ["fs.read"] [] [] [] [] "/ws".

Definition sample_world (a : InMemoryApprovalStore.t) : world guard_state InMemoryApprovalStore.t unit :=
  mkWorld fresh_state a tt 0 0 [].

(** The store after a person approved the read call. *)
Definition read_approval : Approval :=
  mkApproval "00000000-0000-4000-8000-00000000000a" "00000000-0000-4000-8000-000000000002"
    "00000000-0000-4000-8000-000000000003" "00000000-0000-4000-8000-000000000001" ApprovalStatus.PENDING 1000 None None
    (Some "hash") None.
Definition approved_store : InMemoryApprovalStore.t :=
  foldl (fun s o => Approvals.step o s) InMemoryApprovalStore.init
    [OpCreate read_approval; OpDecide 2000 (approval_id read_approval) ApprovalStatus.APPROVED (Some "ops")].

Definition sample_execute (policy : PolicyContext) :=
  @execute_tool_call guard_state InMemoryApprovalStore.t unit _ read_registry (sample_chain no_limits) policy
    (fun _ => "hash") (fun _ _ _ _ => "preview") (fun n => 5000 + Z.of_nat n)
    (fun _ => "00000000-0000-4000-8000-00000000000b")
    (fun _ _ _ _ => Ok (mkToolResult true None None None None None)) None.

Example first_time_waits :
  let w' := (sample_execute approval_ctx read_call sample_tool_context None (sample_world InMemoryApprovalStore.init)).2 in
  w_runs w' = [] /\ length (InMemoryApprovalStore.approvals (w_approvals w')) = 1%nat.
Proof. vm_compute. done. Qed.
Example approved_runs :
  w_runs (sample_execute approval_ctx read_call sample_tool_context None (sample_world approved_store)).2 =
    [("fs.read_text", [("path", JStr "a.txt")])].
Proof. vm_compute. done. Qed.

Lemma enforcement_safe_witness :
  let w := sample_world approved_store in
  let e := sample_execute approval_ctx read_call sample_tool_context None w in
  w_runs e.2 = (tool_name read_call, args read_call) :: w_runs w /\
  cleared read_registry (sample_chain no_limits) approval_ctx (fun n => 5000 + Z.of_nat n) None read_call w
    (fun spec parsed w1 => exists a w2,
       obtained (fun _ => "hash") read_call w1 a w2 /\
       released (sample_chain no_limits) approval_ctx (fun n => 5000 + Z.of_nat n) None read_call spec parsed a w2).
Proof.
  intros w e.
  destruct (enforcement_safe read_registry (sample_chain no_limits) approval_ctx (fun _ => "hash") (fun _ _ _ _ => "preview")
    (fun n => 5000 + Z.of_nat n) (fun _ => "00000000-0000-4000-8000-00000000000b")
    (fun _ _ _ _ => Ok (mkToolResult true None None None None None)) None read_call sample_tool_context None w e.1 e.2)
    as [[Hr _]|[[Hr _] Hc]].
  - exact I.
  - exact (surjective_pairing e).
  - exfalso. vm_compute in Hr. discriminate Hr.
  - split; [exact Hr|exact Hc].
Defined.

Lemma enforcement_exact_witness :
  let w := sample_world InMemoryApprovalStore.init in
  let e := sample_execute approval_ctx read_call sample_tool_context None w in
  w_runs e.2 = w_runs w /\
  ~ cleared read_registry (sample_chain no_limits) approval_ctx (fun n => 5000 + Z.of_nat n) None read_call w
      (found_approved (sample_chain no_limits) approval_ctx (fun _ => "hash") (fun n => 5000 + Z.of_nat n) None read_call).
Proof.
  intros w e. assert (w_runs e.2 = w_runs w) as Hq by (vm_compute; reflexivity). split; [exact Hq|]. intros Hc.
  destruct (enforcement_exact read_registry (sample_chain no_limits) approval_ctx (fun _ => "hash") (fun _ _ _ _ => "preview")
    (fun n => 5000 + Z.of_nat n) (fun _ => "00000000-0000-4000-8000-00000000000b")
    (fun _ _ _ _ => Ok (mkToolResult true None None None None None)) None read_call sample_tool_context None w e.1 e.2)
    as [_ H].
  - vm_compute. reflexivity.
  - intros tc spec parsed ast m w0 g w1 E. unfold evaluate_guards in E.
    apply st_bind_Ok in E as (n & w2 & _ & E). unfold on_guards in E.
    destruct (chain_check _ _ _ _ _ _) as [q s'] eqn:Ec in E. injection E as -> _. exact (default_chain_gd_ok _ _ _ _ _ _ _ _ _ Ec).
  - exact I.
  - exact I.
  - exact (surjective_pairing e).
  - apply H in Hc. rewrite Hq in Hc. discriminate Hc.
Defined.
