(* ===== verification/Rows.v ===== *)
(** * Rows of the database: [infra/db/models.py], [infra/db/mappers.py]

    The rows of tool calls, tasks and approvals, with statuses as text and the
    tool call of a task by reference, and the mappers between rows and domain
    models. A JSON column gives back the value it was given. The result: what
    is written is what is read. *)

From Stdlib Require Import ZArith Lia.
From S2P Require Import Prelude Uuid Models Lifecycle.

(** ** Statuses as text *)
Definition all_task_statuses : list TaskStatus.t :=
  [TaskStatus.PENDING; TaskStatus.QUEUED; TaskStatus.WAITING_APPROVAL; TaskStatus.RUNNING; TaskStatus.SUCCEEDED;
   TaskStatus.FAILED; TaskStatus.CANCELED; TaskStatus.ARCHIVED].
Definition all_tool_call_statuses : list ToolCallStatus.t :=
  [ToolCallStatus.PENDING; ToolCallStatus.RUNNING; ToolCallStatus.SUCCEEDED; ToolCallStatus.FAILED;
   ToolCallStatus.DENIED; ToolCallStatus.CANCELED].
Definition all_approval_statuses : list ApprovalStatus.t :=
  [ApprovalStatus.PENDING; ApprovalStatus.APPROVED; ApprovalStatus.DENIED; ApprovalStatus.EXPIRED; ApprovalStatus.CANCELED].

(** An enumeration field validated from text. *)
Definition parse_status {S} (value : S -> string) (all : list S) (text : string) : res S :=
  match find (fun s => (value s =? text)%string) all with
  | Some s => Ok s
  | None => Raise (ValidationError [("status", ValueError "enum")])
  end.

(** ** Rows *)
Record ToolCallRow := mkToolCallRow {
  tcr_tool_call_id : string;
  tcr_tool_name : string;
  tcr_args : list (string * json);
  tcr_permission_scope : string;
  tcr_idempotency_key : string;
  tcr_status : string;
  tcr_created_at_ms : Z;
  tcr_started_at_ms : option Z;
  tcr_completed_at_ms : option Z;
  tcr_result_ref : option string;
}.

Record TaskRow := mkTaskRow {
  tr_task_id : string;
  tr_run_id : string;
  tr_name : string;
  tr_status : string;
  tr_tool_call_id : option string;
  tr_attempts : Z;
  tr_max_attempts : Z;
  tr_timeout_s : Z;
  tr_depends_on : list string;
  tr_created_at_ms : Z;
  tr_started_at_ms : option Z;
  tr_completed_at_ms : option Z;
  tr_labels : list string;
  tr_metadata_json : list (string * json);
}.

Record ApprovalRow := mkApprovalRow {
  ar_approval_id : string;
  ar_run_id : string;
  ar_task_id : string;
  ar_tool_call_id : string;
  ar_status : string;
  ar_created_at_ms : Z;
  ar_decided_at_ms : option Z;
  ar_decided_by : option string;
  ar_payload_hash : option string;
  ar_preview : option string;
}.

(** ** Mappers *)
Definition tool_call_to_row_dict (c : ToolCall) : ToolCallRow :=
  mkToolCallRow (tool_call_id c) (tool_name c) (args c) (permission_scope c) (idempotency_key c)
    (ToolCallStatus.value (tc_status c)) (tc_created_at_ms c) (tc_started_at_ms c) (tc_completed_at_ms c) (result_ref c).

Definition tool_call_from_row_dict (r : ToolCallRow) : res ToolCall :=
  s ← parse_status ToolCallStatus.value all_tool_call_statuses (tcr_status r);
  ToolCall_model_validate
    (mkToolCall (tcr_tool_call_id r) (tcr_tool_name r) (tcr_args r) (tcr_permission_scope r) (tcr_idempotency_key r)
       s (tcr_created_at_ms r) (tcr_started_at_ms r) (tcr_completed_at_ms r) (tcr_result_ref r)).

Definition task_to_row_dict (t : Task) : TaskRow :=
  mkTaskRow (task_id t) (run_id t) (name t) (TaskStatus.value (status t)) (option_map tool_call_id (tool_call t))
    (attempts t) (max_attempts t) (timeout_s t) (depends_on t) (created_at_ms t) (started_at_ms t) (completed_at_ms t)
    (labels t) (metadata t).

(** The tool call a task row refers to. *)
Definition joined_tool_call (r : TaskRow) (tool_call_row : option ToolCallRow) : res (option ToolCall) :=
  match tr_tool_call_id r with
  | None => raise_if (is_set tool_call_row)
              (ValueError "tool_call_row must be omitted when task row has no tool_call_id");; Ok None
  | Some expected =>
      raise_if (is_empty (strip expected)) (ValueError "tool_call_id must be non-empty when provided");;
      match tool_call_row with
      | None => Raise (ValueError "tool_call_row is required when task row references tool_call_id")
      | Some cr =>
          c ← tool_call_from_row_dict cr;
          raise_if (negb (tool_call_id c =? strip expected)%string)
            (ValueError "tool_call_row.tool_call_id must match task.tool_call_id");;
          Ok (Some c)
      end
  end.

Definition task_from_row_dict (r : TaskRow) (tool_call_row : option ToolCallRow) : res Task :=
  c ← joined_tool_call r tool_call_row;
  s ← parse_status TaskStatus.value all_task_statuses (tr_status r);
  Task_model_validate
    (mkTask (tr_task_id r) (tr_run_id r) (tr_name r) s c (tr_attempts r) (tr_max_attempts r) (tr_timeout_s r)
       (tr_depends_on r) (tr_created_at_ms r) (tr_started_at_ms r) (tr_completed_at_ms r) (tr_labels r)
       (tr_metadata_json r)).

Definition approval_to_row_dict (a : Approval) : ApprovalRow :=
  mkApprovalRow (approval_id a) (ap_run_id a) (ap_task_id a) (ap_tool_call_id a) (ApprovalStatus.value (ap_status a))
    (ap_created_at_ms a) (decided_at_ms a) (decided_by a) (payload_hash a) (preview a).

Definition approval_from_row_dict (r : ApprovalRow) : res Approval :=
  s ← parse_status ApprovalStatus.value all_approval_statuses (ar_status r);
  Approval_model_validate
    (mkApproval (ar_approval_id r) (ar_run_id r) (ar_task_id r) (ar_tool_call_id r) s (ar_created_at_ms r)
       (ar_decided_at_ms r) (ar_decided_by r) (ar_payload_hash r) (ar_preview r)).

(** ** Round trips *)
Lemma parse_task_status s : parse_status TaskStatus.value all_task_statuses (TaskStatus.value s) = Ok s.
Proof. by destruct s. Qed.
Lemma parse_tool_call_status s : parse_status ToolCallStatus.value all_tool_call_statuses (ToolCallStatus.value s) = Ok s.
Proof. by destruct s. Qed.
Lemma parse_approval_status s : parse_status ApprovalStatus.value all_approval_statuses (ApprovalStatus.value s) = Ok s.
Proof. by destruct s. Qed.

Lemma tool_call_row_roundtrip c : valid_tool_call c -> tool_call_from_row_dict (tool_call_to_row_dict c) = Ok c.
Proof.
  intros Hc. unfold tool_call_from_row_dict, tool_call_to_row_dict. cbn [tcr_status]. rewrite parse_tool_call_status.
  cbn [mbind res_bind]. destruct c. by apply ToolCall_model_validate_fix.
Qed.

Lemma joined_tool_call_roundtrip t : valid_task t ->
  joined_tool_call (task_to_row_dict t) (option_map tool_call_to_row_dict (tool_call t)) = Ok (tool_call t).
Proof.
  intros Ht. unfold joined_tool_call, task_to_row_dict. cbn [tr_tool_call_id].
  destruct (tool_call t) as [c|] eqn:E; [|done]. cbn [option_map].
  pose proof (vt_tool_call t Ht c E) as Hc. destruct (strip_uuid4_str _ (vtc_id c Hc)) as [Hs He].
  rewrite Hs, He. cbn [raise_if mbind res_bind]. rewrite tool_call_row_roundtrip by done. cbn [mbind res_bind].
  by rewrite String.eqb_refl.
Qed.

Lemma task_row_roundtrip t : valid_task t ->
  task_from_row_dict (task_to_row_dict t) (option_map tool_call_to_row_dict (tool_call t)) = Ok t.
Proof.
  intros Ht. unfold task_from_row_dict. rewrite joined_tool_call_roundtrip by done. cbn [mbind res_bind].
  unfold task_to_row_dict. cbn [tr_status]. rewrite parse_task_status. cbn [mbind res_bind]. destruct t.
  by apply Task_model_validate_fix.
Qed.

Lemma approval_row_roundtrip a : Approval_model_validate a = Ok a -> approval_from_row_dict (approval_to_row_dict a) = Ok a.
Proof.
  intros Ha. unfold approval_from_row_dict, approval_to_row_dict. cbn [ar_status]. rewrite parse_approval_status.
  cbn [mbind res_bind]. by destruct a.
Qed.

(** the database gives back what it was given. A validated task written as
    a task row and the row of its tool call is read back unchanged, joined with
    its tool call; so is a tool call on its own, and an approval that
    validation leaves as it is. *)
Theorem rows_roundtrip t c a : valid_task t -> valid_tool_call c -> Approval_model_validate a = Ok a ->
  task_from_row_dict (task_to_row_dict t) (option_map tool_call_to_row_dict (tool_call t)) = Ok t /\
  tool_call_from_row_dict (tool_call_to_row_dict c) = Ok c /\
  approval_from_row_dict (approval_to_row_dict a) = Ok a.
Proof. auto using task_row_roundtrip, tool_call_row_roundtrip, approval_row_roundtrip. Qed.

Lemma rows_roundtrip_witness :
  task_from_row_dict (task_to_row_dict sample_task) (option_map tool_call_to_row_dict (tool_call sample_task)) = Ok sample_task /\
  approval_from_row_dict (approval_to_row_dict sample_approval) = Ok sample_approval.
Proof.
  assert (valid_tool_call sample_call) as Hc by (apply (ToolCall_model_validate_valid sample_call); vm_compute; reflexivity).
  destruct (rows_roundtrip sample_task sample_call sample_approval sample_task_valid Hc) as (H1 & _ & H3).
  - vm_compute. reflexivity.
  - split; [exact H1|exact H3].
Defined.
