(* ===== verification/Repos.v ===== *)
(** * Repositories: [infra/db/repos/]

    The tables of tasks, tool calls, approvals and the idempotency ledger, by
    primary key, and the repositories over them: [SqlAlchemyTaskRepo],
    [SqlAlchemyToolCallRepo], [SqlAlchemyApprovalRepo] and
    [SqlAlchemyIdempotencyLedger], with the checks they make before they write.
    A statement of a session sees what the session wrote before; a unit of work
    ([unit_of_work] of Approvals) keeps its writes only when its body returns.
    The results: what a reader finds after an update, that a decision in the
    database is final, and that the ledger never loses a success. *)

From Stdlib Require Import ZArith Lia.
From S2P Require Import Prelude PyFloat PyText Uuid Models Lifecycle Decision Approvals Tools Rows.

(** ** Tables *)
Record LedgerRow := mkLedgerRow {
  lr_tool_name : string;
  lr_status : string;
  lr_result : json;
  lr_created_at_ms : Z;
  lr_updated_at_ms : Z;
  lr_expires_at_ms : option Z;
}.

Record tables := mkTables {
  runs : list string;
  task_rows : list (string * TaskRow);
  tool_call_rows : list (string * ToolCallRow);
  approval_rows : list (string * ApprovalRow);
  ledger_rows : list (string * LedgerRow);
}.

Definition set_task_rows (rows : list (string * TaskRow)) (d : tables) : tables :=
  mkTables (runs d) rows (tool_call_rows d) (approval_rows d) (ledger_rows d).
Definition set_tool_call_rows (rows : list (string * ToolCallRow)) (d : tables) : tables :=
  mkTables (runs d) (task_rows d) rows (approval_rows d) (ledger_rows d).
Definition set_approval_rows (rows : list (string * ApprovalRow)) (d : tables) : tables :=
  mkTables (runs d) (task_rows d) (tool_call_rows d) rows (ledger_rows d).
Definition set_ledger_rows (rows : list (string * LedgerRow)) (d : tables) : tables :=
  mkTables (runs d) (task_rows d) (tool_call_rows d) (approval_rows d) rows.

(** An [INSERT]; the database refuses a second row with the same key. *)
Definition insert_row {R} (key : string) (row : R) (rows : list (string * R)) : res (list (string * R)) :=
  if is_set (aget key rows) then Raise (OtherError "IntegrityError" "UNIQUE constraint failed")
  else Ok (rows ++ [(key, row)])%list.

(** ** [_common.py] *)
Definition validate_limit_offset (limit offset : Z) : res unit :=
  raise_if (limit <? 0) (ValueError "limit must be >= 0");; raise_if (offset <? 0) (ValueError "offset must be >= 0").

Definition required_key (what id : string) : res string :=
  raise_if (is_empty (strip id)) (ValueError (what +:+ " must be non-empty"));; Ok (strip id).

(** ** [tool_calls.py] *)
Module ToolCallRepo.

Definition create (c : ToolCall) : st tables ToolCall := fun d =>
  match insert_row (tool_call_id c) (tool_call_to_row_dict c) (tool_call_rows d) with
  | Ok rows => (Ok c, set_tool_call_rows rows d)
  | Raise e => (Raise e, d)
  end.

Definition get (tool_call_id : string) : st tables (option ToolCall) := fun d =>
  (k ← required_key "tool_call_id" tool_call_id;
   match aget k (tool_call_rows d) with
   | None => Ok None
   | Some r => c ← tool_call_from_row_dict r; Ok (Some c)
   end, d).

(** [_immutable_tool_call_fields_changed]; dictionaries are compared as values. *)
Definition immutable_fields_changed (args_eq : list (string * json) -> list (string * json) -> bool)
    (current incoming : ToolCall) : list string :=
  (if (tool_name current =? tool_name incoming)%string then [] else ["tool_name"]) ++
  (if args_eq (args current) (args incoming) then [] else ["args"]) ++
  (if (permission_scope current =? permission_scope incoming)%string then [] else ["permission_scope"]) ++
  (if (idempotency_key current =? idempotency_key incoming)%string then [] else ["idempotency_key"]) ++
  (if tc_created_at_ms current =? tc_created_at_ms incoming then [] else ["created_at_ms"]).

Definition row_update (c : ToolCall) (r : ToolCallRow) : ToolCallRow :=
  mkToolCallRow (tcr_tool_call_id r) (tcr_tool_name r) (tcr_args r) (tcr_permission_scope r) (tcr_idempotency_key r)
    (ToolCallStatus.value (tc_status c)) (tcr_created_at_ms r) (tc_started_at_ms c) (tc_completed_at_ms c) (result_ref c).

Section update.
Variable args_eq : list (string * json) -> list (string * json) -> bool.

Definition update (c : ToolCall) : st tables ToolCall := fun d =>
  match required_key "tool_call_id" (tool_call_id c) with
  | Raise e => (Raise e, d)
  | Ok k =>
      match aget k (tool_call_rows d) with
      | None => (Raise (KeyError ("unknown tool_call_id: " +:+ py_repr k)), d)
      | Some r =>
          match tool_call_from_row_dict r with
          | Raise e => (Raise e, d)
          | Ok current =>
              match immutable_fields_changed args_eq current c with
              | [] => let r' := row_update c r in
                      (tool_call_from_row_dict r', set_tool_call_rows (aset k r' (tool_call_rows d)) d)
              | changed => (Raise (ValueError ("tool_call update changed immutable fields: " +:+
                                               String.concat ", " changed)), d)
              end
          end
      end
  end.
End update.
End ToolCallRepo.

(** ** [tasks.py] *)
Module TaskRepo.

(** The outer join of a task row with its tool call row. *)
Definition task_of_row (d : tables) (r : TaskRow) : res Task :=
  task_from_row_dict r (match tr_tool_call_id r with Some k => aget k (tool_call_rows d) | None => None end).

Definition get (task_id : string) : st tables (option Task) := fun d =>
  (k ← required_key "task_id" task_id;
   match aget k (task_rows d) with
   | None => Ok None
   | Some r => t ← task_of_row d r; Ok (Some t)
   end, d).

(** [ORDER BY created_at_ms, task_id] *)
Definition row_key (r : TaskRow) : Z * string := (tr_created_at_ms r, tr_task_id r).
Fixpoint insert_by_key (r : TaskRow) (l : list TaskRow) : list TaskRow :=
  match l with
  | [] => [r]
  | r' :: l' => if ple (row_key r) (row_key r') then r :: l else r' :: insert_by_key r l'
  end.
Definition rows_of_run (run_id : string) (d : tables) : list TaskRow :=
  foldr insert_by_key [] (filter (fun r => tr_run_id r = run_id) (task_rows d).*2).

Fixpoint map_res {A B} (f : A -> res B) (l : list A) : res (list B) :=
  match l with [] => Ok [] | x :: l' => y ← f x; ys ← map_res f l'; Ok (y :: ys) end.

Definition list_by_run (run_id : string) : st tables (list Task) := fun d =>
  (k ← required_key "run_id" run_id; map_res (task_of_row d) (rows_of_run k d), d).

Definition row_update (t : Task) (r : TaskRow) : TaskRow :=
  mkTaskRow (tr_task_id r) (tr_run_id r) (name t) (TaskStatus.value (status t)) (tr_tool_call_id r) (attempts t)
    (max_attempts t) (timeout_s t) (depends_on t) (tr_created_at_ms r) (started_at_ms t) (completed_at_ms t) (labels t)
    (metadata t).

Section update.
Variable args_eq : list (string * json) -> list (string * json) -> bool.

(** [_sync_task_tool_call] *)
Definition sync_task_tool_call (c : option ToolCall) (expected : option string) : st tables unit := fun d =>
  match c with
  | None => (raise_if (is_set expected) (ValueError "task.tool_call cannot be cleared once set"), d)
  | Some c =>
      if negb (bool_decide (Some (tool_call_id c) = expected))
      then (Raise (ValueError "task.tool_call_id cannot be changed"), d)
      else match aget (tool_call_id c) (tool_call_rows d) with
      | None => (Raise (KeyError ("unknown tool_call_id: " +:+ py_repr (tool_call_id c))), d)
      | Some r =>
          match tool_call_from_row_dict r with
          | Raise e => (Raise e, d)
          | Ok current =>
              match ToolCallRepo.immutable_fields_changed args_eq current c with
              | [] => (Ok tt, set_tool_call_rows (aset (tool_call_id c) (ToolCallRepo.row_update c r) (tool_call_rows d)) d)
              | changed => (Raise (ValueError ("task.tool_call update changed immutable fields: " +:+
                                               String.concat ", " changed)), d)
              end
          end
      end
  end.

Definition update (t : Task) : st tables Task := fun d =>
  match required_key "task_id" (task_id t) with
  | Raise e => (Raise e, d)
  | Ok k =>
      match aget k (task_rows d) with
      | None => (Raise (KeyError ("unknown task_id: " +:+ py_repr k)), d)
      | Some r =>
          if negb (run_id t =? tr_run_id r)%string then (Raise (ValueError "task.run_id cannot be changed"), d)
          else if negb (created_at_ms t =? tr_created_at_ms r)
          then (Raise (ValueError "task.created_at_ms cannot be changed"), d)
          else match sync_task_tool_call (tool_call t) (tr_tool_call_id r) d with
          | (Raise e, d') => (Raise e, d')
          | (Ok _, d') =>
              let r' := row_update t r in
              let d'' := set_task_rows (aset k r' (task_rows d')) d' in
              (task_of_row d'' r', d'')
          end
      end
  end.
End update.

(** [_create_tool_call_if_missing] and [create] *)
Section create.
Variable tool_call_eq : ToolCall -> ToolCall -> bool.

Definition create_tool_call_if_missing (c : ToolCall) : st tables unit := fun d =>
  match aget (tool_call_id c) (tool_call_rows d) with
  | None => (Ok tt, set_tool_call_rows (tool_call_rows d ++ [(tool_call_id c, tool_call_to_row_dict c)])%list d)
  | Some r =>
      match tool_call_from_row_dict r with
      | Raise e => (Raise e, d)
      | Ok existing =>
          (raise_if (negb (tool_call_eq existing c)) (ValueError "tool_call_id already exists with different fields"), d)
      end
  end.

Definition insert_task (t : Task) : st tables Task := fun d =>
  match insert_row (task_id t) (task_to_row_dict t) (task_rows d) with
  | Ok rows => (Ok t, set_task_rows rows d)
  | Raise e => (Raise e, d)
  end.

Definition create (t : Task) : st tables Task := fun d =>
  if negb (bool_decide (run_id t ∈ runs d)) then (Raise (KeyError ("unknown run_id: " +:+ py_repr (run_id t))), d)
  else (match tool_call t with Some c => create_tool_call_if_missing c | None => mret tt end;; insert_task t) d.
End create.

Definition update_status (task_id : string) (s : TaskStatus.t) : st tables Task := fun d =>
  match required_key "task_id" task_id with
  | Raise e => (Raise e, d)
  | Ok k =>
      match aget k (task_rows d) with
      | None => (Raise (KeyError ("unknown task_id: " +:+ py_repr k)), d)
      | Some r =>
          let r' := mkTaskRow (tr_task_id r) (tr_run_id r) (tr_name r) (TaskStatus.value s) (tr_tool_call_id r) (tr_attempts r)
            (tr_max_attempts r) (tr_timeout_s r) (tr_depends_on r) (tr_created_at_ms r) (tr_started_at_ms r)
            (tr_completed_at_ms r) (tr_labels r) (tr_metadata_json r) in
          let d' := set_task_rows (aset k r' (task_rows d)) d in
          (task_of_row d' r', d')
      end
  end.
End TaskRepo.

(** ** [approvals.py] *)
Module ApprovalRepo.

Definition is_supported (s : ApprovalStatus.t) : bool :=
  bool_decide (s ∈ [ApprovalStatus.PENDING; ApprovalStatus.APPROVED; ApprovalStatus.DENIED]).

(** The rows an approval refers to must exist and agree with it. *)
Definition check_references (a : Approval) (d : tables) : res unit :=
  raise_if (negb (bool_decide (ap_run_id a ∈ runs d))) (KeyError ("unknown run_id: " +:+ py_repr (ap_run_id a)));;
  match aget (ap_task_id a) (task_rows d) with
  | None => Raise (KeyError ("unknown task_id: " +:+ py_repr (ap_task_id a)))
  | Some tr =>
      raise_if (negb (is_set (aget (ap_tool_call_id a) (tool_call_rows d))))
        (KeyError ("unknown tool_call_id: " +:+ py_repr (ap_tool_call_id a)));;
      raise_if (negb (tr_run_id tr =? ap_run_id a)%string) (ValueError "task.run_id must match approval.run_id");;
      raise_if (negb (bool_decide (tr_tool_call_id tr = Some (ap_tool_call_id a))))
        (ValueError "task.tool_call_id must match approval.tool_call_id")
  end.

Definition create (a : Approval) : st tables Approval := fun d =>
  match (check_references a d;; insert_row (approval_id a) (approval_to_row_dict a) (approval_rows d)) with
  | Ok rows => (Ok a, set_approval_rows rows d)
  | Raise e => (Raise e, d)
  end.

Definition get (approval_id : string) : st tables (option Approval) := fun d =>
  (k ← required_key "approval_id" approval_id;
   match aget k (approval_rows d) with
   | None => Ok None
   | Some r => a ← approval_from_row_dict r; Ok (Some a)
   end, d).

(** [ORDER BY created_at_ms, approval_id] *)
Definition row_key (r : ApprovalRow) : Z * string := (ar_created_at_ms r, ar_approval_id r).
Section order.
Context {K : Type} `{PyOrd K} (key : ApprovalRow -> K).
Fixpoint insert_by_key (r : ApprovalRow) (l : list ApprovalRow) : list ApprovalRow :=
  match l with
  | [] => [r]
  | r' :: l' => if ple (key r) (key r') then r :: l else r' :: insert_by_key r l'
  end.
Definition order_by (l : list ApprovalRow) : list ApprovalRow := foldr insert_by_key [] l.
End order.

Definition get_by_tool_call (tool_call_id : string) : st tables (option Approval) := fun d =>
  (k ← required_key "tool_call_id" tool_call_id;
   match order_by row_key (filter (fun r => ar_tool_call_id r = k) (approval_rows d).*2) with
   | [] => Ok None
   | r :: _ => a ← approval_from_row_dict r; Ok (Some a)
   end, d).

(** [update_status]; the [UPDATE] matches a row that is still pending. *)
Definition update_status (now_ms : Z) (approval_id : string) (s : ApprovalStatus.t) (at_ms : option Z)
    (by_ : option string) : st tables Approval := fun d =>
  if negb (is_supported s) then (Raise (ValueError "unsupported approval status"), d)
  else match required_key "approval_id" approval_id with
  | Raise e => (Raise e, d)
  | Ok k =>
      let decided_at := if bool_decide (s = ApprovalStatus.PENDING) then None else Some (default now_ms at_ms) in
      let decided_by := if bool_decide (s = ApprovalStatus.PENDING) then None else by_ ≫= strip_or_none in
      match aget k (approval_rows d) with
      | None => (Raise (KeyError ("unknown approval_id: " +:+ py_repr k)), d)
      | Some r =>
          if (ar_status r =? ApprovalStatus.value ApprovalStatus.PENDING)%string then
            let r' := mkApprovalRow (ar_approval_id r) (ar_run_id r) (ar_task_id r) (ar_tool_call_id r)
              (ApprovalStatus.value s) (ar_created_at_ms r) decided_at decided_by (ar_payload_hash r) (ar_preview r) in
            (approval_from_row_dict r', set_approval_rows (aset k r' (approval_rows d)) d)
          else
            (current ← approval_from_row_dict r;
             if bool_decide (ap_status current = s) then Ok current
             else Raise (ValueError ("approval has already been decided as " +:+ ApprovalStatus.value (ap_status current))), d)
      end
  end.

(** Pending approvals first when no status is asked for. *)
Definition pending_first (r : ApprovalRow) : Z * (Z * string) :=
  (if (ar_status r =? ApprovalStatus.value ApprovalStatus.PENDING)%string then 0 else 1, row_key r).

Definition selected (s : option ApprovalStatus.t) (run : option string) (d : tables) : res (list ApprovalRow) :=
  raise_if (match s with Some s => negb (is_supported s) | None => false end) (ValueError "unsupported approval status");;
  run ← match run with
        | None => Ok None
        | Some r => match strip_or_none r with
                    | None => Raise (ValueError "run_id must be non-empty when provided")
                    | Some r => Ok (Some r)
                    end
        end;
  Ok (List.filter (fun r => match s with Some s => (ar_status r =? ApprovalStatus.value s)%string | None => true end &&
                            match run with Some k => (ar_run_id r =? k)%string | None => true end) (approval_rows d).*2).

Definition list_approvals (limit offset : Z) (s : option ApprovalStatus.t) (run : option string)
  : st tables (list Approval) := fun d =>
  (validate_limit_offset limit offset;;
   if limit =? 0 then Ok []
   else
     rows ← selected s run d;
     let ordered := match s with None => order_by pending_first rows | Some _ => order_by row_key rows end in
     TaskRepo.map_res approval_from_row_dict (take (Z.to_nat limit) (drop (Z.to_nat offset) ordered)), d).

Definition count (s : option ApprovalStatus.t) (run : option string) : st tables Z := fun d =>
  (rows ← selected s run d; Ok (Z.of_nat (length rows)), d).
End ApprovalRepo.

(** The repository interface of the database approval store. The clock of
    [update_status] is an argument. *)
Definition approval_repo (now_ms : Z) : Approvals.ApprovalRepo tables := {|
  repo_get := ApprovalRepo.get;
  repo_get_by_tool_call := ApprovalRepo.get_by_tool_call;
  repo_create := ApprovalRepo.create;
  repo_list limit offset s := ApprovalRepo.list_approvals limit offset s None;
  repo_update_status id s by_ := ApprovalRepo.update_status now_ms id s None by_;
|}.

(** ** [idempotency.py] *)
Module Ledger.

Inductive LedgerStatus := SUCCEEDED | FAILED_TRANSIENT | FAILED_PERMANENT.
Definition status_value (s : LedgerStatus) : string :=
  match s with
  | SUCCEEDED => "succeeded" | FAILED_TRANSIENT => "failed_transient" | FAILED_PERMANENT => "failed_permanent"
  end.

Record CachedOutcome := mkCachedOutcome {
  co_idempotency_key : string;
  co_tool_name : string;
  co_result : ToolResult;
  co_created_at_ms : Z;
  co_updated_at_ms : Z;
  co_expires_at_ms : option Z;
}.

(** [CachedOutcome(...)]: its validators. *)
Definition CachedOutcome_validate (c : CachedOutcome) : res CachedOutcome :=
  run (after (fun c =>
      raise_if (co_updated_at_ms c <? co_created_at_ms c) (ValueError "updated_at_ms must be >= created_at_ms");;
      raise_if (match co_expires_at_ms c with Some e => e <? co_created_at_ms c | None => false end)
        (ValueError "expires_at_ms must be >= created_at_ms"))
    (VOk mkCachedOutcome
     <*> field "idempotency_key" (non_empty "idempotency_key" (co_idempotency_key c))
     <*> field "tool_name" (non_empty "tool_name" (co_tool_name c))
     <*> VOk (co_result c)
     <*> field "created_at_ms" (non_negative_int "created_at_ms" (co_created_at_ms c))
     <*> field "updated_at_ms" (non_negative_int "updated_at_ms" (co_updated_at_ms c))
     <*> field "expires_at_ms"
           (raise_if (match co_expires_at_ms c with Some e => e <? 0 | None => false end)
              (ValueError "expires_at_ms must be >= 0");; Ok (co_expires_at_ms c))))%py.

Record OutcomeToCache := mkOutcomeToCache { o_tool_name : string; o_result : ToolResult; o_expires_at_ms : option Z }.

Definition OutcomeToCache_new (tool_name : string) (result : ToolResult) (expires_at_ms : option Z) : res OutcomeToCache :=
  run (VOk mkOutcomeToCache <*> field "tool_name" (non_empty "tool_name" tool_name) <*> VOk result
       <*> field "expires_at_ms"
             (raise_if (match expires_at_ms with Some e => e <? 0 | None => false end)
                (ValueError "expires_at_ms must be >= 0");; Ok expires_at_ms))%py.

Definition is_expired (r : LedgerRow) (now_ms : Z) : bool :=
  match lr_expires_at_ms r with Some e => e <=? now_ms | None => false end.

(** [result.model_dump(mode="json")] *)
Definition opt_json {A} (f : A -> json) (o : option A) : json := match o with Some a => f a | None => JNull end.
Definition ToolResult_model_dump (r : ToolResult) : json :=
  JObj [("ok", JBool (ok r)); ("data", opt_json id (data r)); ("error_code", opt_json JStr (error_code r));
        ("error_message", opt_json JStr (error_message r)); ("debug", opt_json JObj (debug r));
        ("produced_artifacts", opt_json id (produced_artifacts r))].

(** [ToolResult.model_validate(v)]: unknown keys are refused, [ok] is required
    and read the way a boolean field reads its input. *)
Definition result_fields : list string := ["ok"; "data"; "error_code"; "error_message"; "debug"; "produced_artifacts"].
Definition entry (k : string) (l : list (string * json)) : option json :=
  match aget k l with Some JNull => None | o => o end.
Definition as_bool (v : json) : res bool :=
  match v with
  | JBool b => Ok b
  | JInt 0 => Ok false
  | JInt 1 => Ok true
  | JFloat f => if feq f fzero then Ok false else if feq f (of_Z 1) then Ok true else Raise (ValueError "bool_parsing")
  | JStr s => if bool_decide (lower s ∈ ["0"; "off"; "f"; "false"; "n"; "no"]) then Ok false
              else if bool_decide (lower s ∈ ["1"; "on"; "t"; "true"; "y"; "yes"]) then Ok true
              else Raise (ValueError "bool_parsing")
  | _ => Raise (ValueError "bool_type")
  end.
Definition ToolResult_model_validate (v : json) : res ToolResult :=
  match v with
  | JObj l =>
      run (after ToolResult_invariants (VOk (fun _ => mkToolResult)
        <*> field "extra" (raise_if (negb (forallb (fun k => bool_decide (k ∈ result_fields)) (keys l))) (ValueError "extra_forbidden"))
        <*> field "ok" (match aget "ok" l with Some b => as_bool b | None => Raise (ValueError "missing") end)
        <*> field "data" (require_json_serializable "data" (entry "data" l))
        <*> field "error_code" (c ← map_option as_str (entry "error_code" l); normalize_error_str "error_code" c)
        <*> field "error_message" (m ← map_option as_str (entry "error_message" l); normalize_error_str "error_message" m)
        <*> field "debug" (d ← map_option as_dict (entry "debug" l); optional_dict "debug" d)
        <*> field "produced_artifacts" (a ← map_option as_artifacts (entry "produced_artifacts" l);
              require_json_serializable "produced_artifacts" a)))%py
  | _ => Raise (ValidationError [("", ValueError "model_type")])
  end.

Definition get_success (now_ms : Z) (key : string) : st tables (option CachedOutcome) := fun d =>
  (k ← required_key "key" key;
   match aget k (ledger_rows d) with
   | None => Ok None
   | Some r =>
       if negb (lr_status r =? status_value SUCCEEDED)%string then Ok None
       else if is_expired r now_ms then Ok None
       else
         cached_result ← ToolResult_model_validate (lr_result r);
         c ← CachedOutcome_validate (mkCachedOutcome k (lr_tool_name r) cached_result (lr_created_at_ms r)
               (lr_updated_at_ms r) (lr_expires_at_ms r));
         Ok (Some c)
   end, d).

(** [_should_write_existing] *)
Definition should_write_existing (r : LedgerRow) (o : OutcomeToCache) (allow_overwrite : bool) (now_ms : Z) : bool :=
  if negb (lr_tool_name r =? o_tool_name o)%string
  then negb ((lr_status r =? status_value SUCCEEDED)%string && negb (is_expired r now_ms))
  else allow_overwrite || negb (lr_status r =? status_value SUCCEEDED)%string.

Section ledger.
(** [sanitize_tool_output] with the settings of the ledger. *)
Variable sanitize : json -> json.

(** [_upsert]; an insert that meets no row does not conflict. *)
Definition upsert (now_ms : Z) (key : string) (o : OutcomeToCache) (s : LedgerStatus) (allow_overwrite : bool)
  : st tables unit := fun d =>
  match required_key "key" key with
  | Raise e => (Raise e, d)
  | Ok k =>
      match sanitize (ToolResult_model_dump (o_result o)) with
      | JObj l =>
          match aget k (ledger_rows d) with
          | Some r =>
              if should_write_existing r o allow_overwrite now_ms
              then (Ok tt, set_ledger_rows (aset k (mkLedgerRow (o_tool_name o) (status_value s) (JObj l) (lr_created_at_ms r)
                                                      now_ms (o_expires_at_ms o)) (ledger_rows d)) d)
              else (Ok tt, d)
          | None => (Ok tt, set_ledger_rows (aset k (mkLedgerRow (o_tool_name o) (status_value s) (JObj l) now_ms now_ms
                                                       (o_expires_at_ms o)) (ledger_rows d)) d)
          end
      | _ => (Raise (ValueError "sanitized tool result must be a JSON object"), d)
      end
  end.

Definition record_success (now_ms : Z) (key : string) (o : OutcomeToCache) : st tables unit :=
  if negb (ok (o_result o)) then throw (ValueError "record_success requires an ok ToolResult")
  else upsert now_ms key o SUCCEEDED true.

Definition record_failure (now_ms : Z) (key : string) (o : OutcomeToCache) (transient : bool) : st tables unit :=
  if ok (o_result o) then throw (ValueError "record_failure requires ok=false ToolResult")
  else upsert now_ms key o (if transient then FAILED_TRANSIENT else FAILED_PERMANENT) false.
End ledger.
End Ledger.

(** ** The store of approvals over these tables *)
#[export] Instance approval_repo_laws now_ms : @ApprovalRepoLaws tables (approval_repo now_ms).
Proof.
  split.
  - by intros tc d r d' [= _ <-].
  - intros a d b d'. cbn. unfold ApprovalRepo.create. destruct (_ ≫= _); by intros [= <- _].
Qed.

(** ** Tasks and tool calls that are stored *)
Lemma required_key_uuid what s : is_uuid4_str s = true -> required_key what s = Ok s.
Proof. intros Hs. unfold required_key. destruct (strip_uuid4_str s Hs) as [-> ->]. done. Qed.

Record same_call (c0 c : ToolCall) : Prop := {
  sc_id : tool_call_id c = tool_call_id c0;
  sc_name : tool_name c = tool_name c0;
  sc_args : args c = args c0;
  sc_scope : permission_scope c = permission_scope c0;
  sc_key : idempotency_key c = idempotency_key c0;
  sc_created : tc_created_at_ms c = tc_created_at_ms c0;
}.

(** The fields of a task that an update may not change. *)
Record same_task (t0 t : Task) : Prop := {
  st_id : task_id t = task_id t0;
  st_run : run_id t = run_id t0;
  st_created : created_at_ms t = created_at_ms t0;
  st_call : option_relation same_call (fun _ => False) (fun _ => False) (tool_call t0) (tool_call t);
}.

Definition call_stored (d : tables) (c : ToolCall) : Prop :=
  valid_tool_call c /\ aget (tool_call_id c) (tool_call_rows d) = Some (tool_call_to_row_dict c).

(** The database holds the task and its tool call. *)
Record task_stored (d : tables) (t : Task) : Prop := {
  ts_valid : valid_task t;
  ts_row : aget (task_id t) (task_rows d) = Some (task_to_row_dict t);
  ts_call : forall c, tool_call t = Some c -> call_stored d c;
}.

Lemma task_of_stored_row d t : task_stored d t -> TaskRepo.task_of_row d (task_to_row_dict t) = Ok t.
Proof.
  intros [Hv _ Hc]. rewrite <- (task_row_roundtrip t Hv). unfold TaskRepo.task_of_row. f_equal.
  unfold task_to_row_dict. cbn [tr_tool_call_id]. destruct (tool_call t) as [c|]; [|done]. cbn [option_map]. by destruct (Hc c eq_refl).
Qed.

Lemma get_stored d t : task_stored d t -> TaskRepo.get (task_id t) d = (Ok (Some t), d).
Proof.
  intros Ht. unfold TaskRepo.get. rewrite required_key_uuid by apply Ht. cbn [mbind res_bind].
  rewrite (ts_row d t Ht), (task_of_stored_row d t Ht). done.
Qed.

Lemma row_update_call c0 c : same_call c0 c -> ToolCallRepo.row_update c (tool_call_to_row_dict c0) = tool_call_to_row_dict c.
Proof. intros []. unfold ToolCallRepo.row_update, tool_call_to_row_dict. cbn. congruence. Qed.

Lemma same_call_id t0 t : same_task t0 t -> option_map tool_call_id (tool_call t) = option_map tool_call_id (tool_call t0).
Proof. intros [_ _ _ H]. destruct (tool_call t0), (tool_call t); cbn in *; try done. f_equal. apply H. Qed.

Lemma row_update_task t0 t : same_task t0 t -> TaskRepo.row_update t (task_to_row_dict t0) = task_to_row_dict t.
Proof.
  intros H. pose proof (same_call_id _ _ H). destruct H. unfold TaskRepo.row_update, task_to_row_dict. cbn. congruence.
Qed.

Section updates.
Variable args_eq : list (string * json) -> list (string * json) -> bool.
Hypothesis args_eq_refl : forall a, args_eq a a = true.

Lemma no_fields_changed c0 c : same_call c0 c -> ToolCallRepo.immutable_fields_changed args_eq c0 c = [].
Proof.
  intros []. unfold ToolCallRepo.immutable_fields_changed. rewrite sc_name0, sc_args0, sc_scope0, sc_key0, sc_created0.
  by rewrite !String.eqb_refl, args_eq_refl, Z.eqb_refl.
Qed.

Lemma fields_unchanged c0 c : ToolCallRepo.immutable_fields_changed args_eq c0 c = [] ->
  tool_name c = tool_name c0 /\ args_eq (args c0) (args c) = true /\ permission_scope c = permission_scope c0 /\
  idempotency_key c = idempotency_key c0 /\ tc_created_at_ms c = tc_created_at_ms c0.
Proof.
  unfold ToolCallRepo.immutable_fields_changed.
  destruct (String.eqb_spec (tool_name c0) (tool_name c)); [|done]. destruct (args_eq _ _) eqn:E; [|done].
  destruct (String.eqb_spec (permission_scope c0) (permission_scope c)); [|done].
  destruct (String.eqb_spec (idempotency_key c0) (idempotency_key c)); [|done].
  destruct (Z.eqb_spec (tc_created_at_ms c0) (tc_created_at_ms c)); [|done]. done.
Qed.

Lemma tool_call_update_stored d c0 c : call_stored d c0 -> valid_tool_call c -> same_call c0 c ->
  ToolCallRepo.update args_eq c d =
    (Ok c, set_tool_call_rows (aset (tool_call_id c) (tool_call_to_row_dict c) (tool_call_rows d)) d).
Proof.
  intros [Hv0 Hr] Hv Hs. unfold ToolCallRepo.update. rewrite required_key_uuid by apply Hv.
  rewrite (sc_id c0 c Hs), Hr, tool_call_row_roundtrip by done. rewrite no_fields_changed by done.
  rewrite row_update_call by done. by rewrite tool_call_row_roundtrip.
Qed.

(** The tables after a task and its tool call were written. *)
Definition write_call (c : ToolCall) (d : tables) : tables :=
  set_tool_call_rows (aset (tool_call_id c) (tool_call_to_row_dict c) (tool_call_rows d)) d.
Definition write_task (t : Task) (d : tables) : tables :=
  let d' := match tool_call t with Some c => write_call c d | None => d end in
  set_task_rows (aset (task_id t) (task_to_row_dict t) (task_rows d')) d'.

Lemma write_task_stored t d : valid_task t -> task_stored (write_task t d) t.
Proof.
  intros Hv. split; [done|cbn; by rewrite aget_aset, decide_True|]. intros c Hc. split; [by apply (vt_tool_call t Hv)|].
  unfold write_task. rewrite Hc. cbn. by rewrite aget_aset, decide_True.
Qed.

Lemma task_update_stored d t0 t : task_stored d t0 -> valid_task t -> same_task t0 t ->
  TaskRepo.update args_eq t d = (Ok t, write_task t d).
Proof.
  intros H0 Hv Hs. unfold TaskRepo.update. rewrite required_key_uuid by apply Hv.
  rewrite (st_id t0 t Hs), (ts_row d t0 H0). unfold task_to_row_dict at 1 2 3. cbn [tr_run_id tr_created_at_ms tr_tool_call_id].
  rewrite (st_run t0 t Hs), String.eqb_refl, (st_created t0 t Hs), Z.eqb_refl. cbn [negb].
  assert (TaskRepo.sync_task_tool_call args_eq (tool_call t) (option_map tool_call_id (tool_call t0)) d =
    (Ok tt, match tool_call t with Some c => write_call c d | None => d end)) as ->.
  { pose proof (st_call t0 t Hs) as Hc. unfold TaskRepo.sync_task_tool_call.
    destruct (tool_call t0) as [c0|] eqn:E0, (tool_call t) as [c|] eqn:E; cbn in Hc; try done. cbn [option_map].
    rewrite bool_decide_true by (f_equal; apply Hc). cbn [negb]. destruct (ts_call d t0 H0 c0 E0) as [V0 R0].
    unfold write_call. rewrite (sc_id c0 c Hc), R0, tool_call_row_roundtrip, no_fields_changed, row_update_call by done. done. }
  rewrite row_update_task by done. rewrite <- (st_id t0 t Hs).
  fold (write_task t d). by rewrite (task_of_stored_row (write_task t d) t (write_task_stored t d Hv)).
Qed.

(** An update that returns kept what identifies the task. *)
Lemma task_update_identity d t0 t t' d' : task_stored d t0 -> task_id t = task_id t0 ->
  TaskRepo.update args_eq t d = (Ok t', d') ->
  run_id t = run_id t0 /\ created_at_ms t = created_at_ms t0 /\
  option_map tool_call_id (tool_call t) = option_map tool_call_id (tool_call t0) /\
  forall c0 c, tool_call t0 = Some c0 -> tool_call t = Some c ->
    tool_name c = tool_name c0 /\ args_eq (args c0) (args c) = true /\ permission_scope c = permission_scope c0 /\
    idempotency_key c = idempotency_key c0 /\ tc_created_at_ms c = tc_created_at_ms c0.
Proof.
  intros H0 Hid. unfold TaskRepo.update. rewrite Hid, required_key_uuid by apply H0. rewrite (ts_row d t0 H0).
  unfold task_to_row_dict at 1 2 3. cbn [tr_run_id tr_created_at_ms tr_tool_call_id].
  destruct (String.eqb_spec (run_id t) (run_id t0)); [|done]. destruct (Z.eqb_spec (created_at_ms t) (created_at_ms t0)); [|done].
  cbn [negb]. destruct (TaskRepo.sync_task_tool_call _ _ _ _) as [[[]|e'] d1] eqn:E; [|done]. intros _. do 2 (split; [done|]).
  unfold TaskRepo.sync_task_tool_call in E. destruct (tool_call t) as [c|], (tool_call t0) as [c0|] eqn:E0; try done.
  case_bool_decide as Hc; [|done]. cbn [negb] in E. injection Hc as Hc. split; [cbn; congruence|].
  intros c0' c' [= <-] [= <-]. destruct (ts_call d t0 H0 c0 E0) as [V0 R0]. rewrite Hc, R0, tool_call_row_roundtrip in E by done.
  destruct (ToolCallRepo.immutable_fields_changed args_eq c0 c) eqn:Ef; [|done]. by apply fields_unchanged.
Qed.

(** a task update is what a reader finds, and cannot change what a task is.
    For a task the database holds, writing a valid new version of it that keeps
    its identity (id, run, creation time, and of its tool call the id, name,
    arguments, scope, key and creation time) returns that version, a reader
    then finds exactly it, and no other task, tool call, approval or ledger
    entry changed; and any update that returns at all kept that identity, with
    arguments compared by value. *)
Theorem task_update_spec d t0 : task_stored d t0 ->
  (forall t, valid_task t -> same_task t0 t ->
     let d' := write_task t d in
     TaskRepo.update args_eq t d = (Ok t, d') /\ TaskRepo.get (task_id t) d' = (Ok (Some t), d') /\
     (forall id, id <> task_id t -> aget id (task_rows d') = aget id (task_rows d)) /\
     (forall id, Some id <> option_map tool_call_id (tool_call t) ->
        aget id (tool_call_rows d') = aget id (tool_call_rows d)) /\
     runs d' = runs d /\ approval_rows d' = approval_rows d /\ ledger_rows d' = ledger_rows d) /\
  (forall t t' d', task_id t = task_id t0 -> TaskRepo.update args_eq t d = (Ok t', d') ->
     run_id t = run_id t0 /\ created_at_ms t = created_at_ms t0 /\
     option_map tool_call_id (tool_call t) = option_map tool_call_id (tool_call t0) /\
     forall c0 c, tool_call t0 = Some c0 -> tool_call t = Some c ->
       tool_name c = tool_name c0 /\ args_eq (args c0) (args c) = true /\ permission_scope c = permission_scope c0 /\
       idempotency_key c = idempotency_key c0 /\ tc_created_at_ms c = tc_created_at_ms c0).
Proof.
  intros H0. split; [|intros t t' d'; by apply task_update_identity].
  intros t Hv Hs d'. split; [by eapply task_update_stored|]. split; [by apply get_stored, write_task_stored|].
  unfold d', write_task. destruct (tool_call t) as [c|]; cbn; split_and!; try done; intros id Hid; rewrite aget_aset, ?decide_False;
    congruence.
Qed.
End updates.

(** ** Task rows

    Every row is stored under its own id. *)
Definition rows_ok (rows : list (string * TaskRow)) : Prop :=
  NoDup (keys rows) /\ forall k r, (k, r) ∈ rows -> tr_task_id r = k /\ is_uuid4_str k = true.

Definition has_status (rows : list (string * TaskRow)) (k : string) (s : TaskStatus.t) : Prop :=
  exists r, aget k rows = Some r /\ tr_status r = TaskStatus.value s.

Lemma has_status_unique rows k s1 s2 : has_status rows k s1 -> has_status rows k s2 -> s1 = s2.
Proof. intros (r1 & E1 & H1) (r2 & E2 & H2). assert (r1 = r2) as -> by congruence. rewrite H1 in H2. by destruct s1, s2. Qed.

Lemma task_validate_id t t' : is_uuid4_str (task_id t) = true -> Task_model_validate t = Ok t' ->
  task_id t' = task_id t /\ status t' = status t.
Proof.
  intros Hid E. unfold Task_model_validate, Task_fields in E. vld_inv. cbn [task_id status]. split; [|done].
  match goal with H : validate_generated_id "task_id" _ _ = Ok _ |- _ => rename H into Hv end.
  pose proof (proj1 (is_uuid4_str_validate "task_id" _) Hid) as Hr. unfold validate_generated_id in Hv. cbn in Hv, Hr. congruence.
Qed.

Lemma parse_status_spec {S} (value : S -> string) all text s : parse_status value all text = Ok s -> value s = text.
Proof.
  unfold parse_status. destruct (List.find _ all) as [s'|] eqn:E; [|done]. intros [= <-].
  apply find_some in E as [_ E]. by apply String.eqb_eq in E.
Qed.

Lemma task_of_row_spec d r t : is_uuid4_str (tr_task_id r) = true -> TaskRepo.task_of_row d r = Ok t ->
  valid_task t /\ task_id t = tr_task_id r /\ tr_status r = TaskStatus.value (status t).
Proof.
  intros Hid E. unfold TaskRepo.task_of_row, task_from_row_dict in E. apply res_bind_Ok in E as (c & _ & E).
  apply res_bind_Ok in E as (s & Es & E). pose proof (Task_model_validate_valid _ _ E).
  apply task_validate_id in E as [E1 E2]; [|done]. cbn in E1, E2. rewrite E2. apply parse_status_spec in Es. done.
Qed.

Lemma aget_rows rows k r : rows_ok rows -> aget k rows = Some r -> tr_task_id r = k /\ is_uuid4_str (tr_task_id r) = true.
Proof. intros [_ Hr] E%aget_Some_elem%Hr. destruct E as [-> ?]. done. Qed.

Lemma get_spec k d t d' : rows_ok (task_rows d) -> TaskRepo.get k d = (Ok (Some t), d') ->
  d' = d /\ valid_task t /\ task_id t = strip k /\ has_status (task_rows d) (strip k) (status t).
Proof.
  intros Hr. unfold TaskRepo.get. intros [= E <-]. split; [done|]. apply res_bind_Ok in E as (k' & Ek & E).
  assert (k' = strip k) as -> by (unfold required_key in Ek; by apply res_bind_Ok in Ek as (_ & _ & [= ->])).
  destruct (aget (strip k) (task_rows d)) as [r|] eqn:Er; [|done]. apply res_bind_Ok in E as (t' & E & [= <-]).
  destruct (aget_rows _ _ _ Hr Er) as [Hk Hid]. apply task_of_row_spec in E as (H1 & H2 & H3); [|done].
  split; [done|]. split; [congruence|]. by exists r.
Qed.

Lemma map_res_elem {A B} (f : A -> res B) l l' y : TaskRepo.map_res f l = Ok l' -> y ∈ l' -> exists x, x ∈ l /\ f x = Ok y.
Proof.
  revert l'. induction l as [|x l IH]; intros l'; cbn.
  - by intros [= <-] ?%elem_of_nil.
  - intros (y' & E & (l1 & E1 & [= <-])%res_bind_Ok)%res_bind_Ok [-> |Hy]%elem_of_cons.
    + exists x. split; [by left|done].
    + destruct (IH _ E1 Hy) as (x' & Hx & Ex). exists x'. split; [by right|done].
Qed.

Lemma insert_by_key_perm r l : TaskRepo.insert_by_key r l ≡ₚ r :: l.
Proof. induction l as [|r' l IH]; cbn; [done|]. destruct (ple _ _); [done|]. rewrite IH. apply perm_swap. Qed.
Lemma rows_of_run_elem run d r : r ∈ TaskRepo.rows_of_run run d -> r ∈ (task_rows d).*2.
Proof.
  unfold TaskRepo.rows_of_run. intros Hr. assert (forall l, r ∈ foldr TaskRepo.insert_by_key [] l -> r ∈ l) as Hf.
  { induction l as [|x l IH]; cbn; [done|]. rewrite insert_by_key_perm. set_solver. }
  by apply Hf, list_elem_of_filter in Hr as [_ Hr].
Qed.

Lemma list_spec run d l d' : rows_ok (task_rows d) -> TaskRepo.list_by_run run d = (Ok l, d') ->
  d' = d /\ forall t, t ∈ l -> valid_task t /\ has_status (task_rows d) (task_id t) (status t).
Proof.
  intros [Hn Hr]. unfold TaskRepo.list_by_run. intros [= E <-]. split; [done|]. intros t Ht.
  apply res_bind_Ok in E as (k & _ & E). destruct (map_res_elem _ _ _ _ E Ht) as (r & Hin & Er).
  apply rows_of_run_elem, list_elem_of_fmap in Hin as ([k' r'] & -> & Hin). destruct (Hr _ _ Hin) as [Hk Hid]. cbn in *.
  rewrite <- Hk in Hid. apply task_of_row_spec in Er as (H1 & H2 & H3); [|done]. split; [done|].
  exists r'. split; [|done]. apply elem_aget; [done|]. by rewrite H2, Hk.
Qed.

Lemma rows_ok_aset rows k r r' : rows_ok rows -> aget k rows = Some r -> tr_task_id r' = tr_task_id r -> rows_ok (aset k r' rows).
Proof.
  intros Hrows Ek Hid. destruct (aget_rows _ _ _ Hrows Ek) as [Hk Hu]. destruct Hrows as [Hn Hr].
  pose proof (NoDup_keys_aset k r' rows Hn) as Hn'. split; [done|]. intros k0 r0 Hin. apply elem_aget in Hin; [|done].
  rewrite aget_aset in Hin. case_decide; [injection Hin as <-; subst k0; split; congruence|].
  by apply aget_Some_elem, Hr in Hin.
Qed.

Lemma tool_call_update_rows args_eq c d r d' : ToolCallRepo.update args_eq c d = (r, d') -> task_rows d' = task_rows d.
Proof.
  unfold ToolCallRepo.update. destruct (required_key _ _); [|by intros [= _ <-]].
  destruct (aget _ _); [|by intros [= _ <-]]. destruct (tool_call_from_row_dict _); [|by intros [= _ <-]].
  destruct (ToolCallRepo.immutable_fields_changed _ _ _); by intros [= _ <-].
Qed.

Lemma sync_rows args_eq c e d r d' : TaskRepo.sync_task_tool_call args_eq c e d = (r, d') -> task_rows d' = task_rows d.
Proof.
  unfold TaskRepo.sync_task_tool_call. destruct c as [c|]; [|by intros [= _ <-]]. destruct (negb _); [by intros [= _ <-]|].
  destruct (aget _ _); [|by intros [= _ <-]]. destruct (tool_call_from_row_dict _); [|by intros [= _ <-]].
  destruct (ToolCallRepo.immutable_fields_changed _ _ _); by intros [= _ <-].
Qed.

Lemma task_update_rows args_eq t d r d' : rows_ok (task_rows d) -> TaskRepo.update args_eq t d = (r, d') ->
  rows_ok (task_rows d') /\ (forall k, k <> strip (task_id t) -> aget k (task_rows d') = aget k (task_rows d)) /\
  (is_ok r = true -> has_status (task_rows d') (strip (task_id t)) (status t)).
Proof.
  intros Hr. assert (forall e, rows_ok (task_rows d) /\ (forall k, k <> strip (task_id t) -> aget k (task_rows d) = aget k (task_rows d)) /\
    (is_ok (@Raise Task e) = true -> has_status (task_rows d) (strip (task_id t)) (status t))) as Hsame by done.
  unfold TaskRepo.update. destruct (required_key "task_id" (task_id t)) as [k|e] eqn:Ek; [|intros [= <- <-]; apply Hsame].
  assert (k = strip (task_id t)) as -> by (unfold required_key in Ek; by apply res_bind_Ok in Ek as (_ & _ & [= ->])).
  destruct (aget (strip (task_id t)) (task_rows d)) as [row|] eqn:Erow; [|intros [= <- <-]; apply Hsame].
  destruct (negb _); [intros [= <- <-]; apply Hsame|]. destruct (negb _); [intros [= <- <-]; apply Hsame|].
  destruct (TaskRepo.sync_task_tool_call _ _ _ _) as [[u|e] d1] eqn:Es; apply sync_rows in Es; cycle 1.
  { intros [= <- <-]. rewrite Es. apply Hsame with (e := e). }
  intros [= _ <-]. cbn [task_rows set_task_rows]. rewrite Es. split; [by eapply rows_ok_aset|]. split.
  - intros k Hk. by rewrite aget_aset, decide_False.
  - intros _. eexists. rewrite aget_aset, decide_True by done. done.
Qed.

(** ** Decisions in the database *)
Inductive approval_op :=
| DbCreate (a : Approval)
| DbUpdate (now_ms : Z) (id : string) (s : ApprovalStatus.t) (at_ms : option Z) (by_ : option string).
Definition approval_step (o : approval_op) (d : tables) : tables :=
  match o with
  | DbCreate a => (ApprovalRepo.create a d).2
  | DbUpdate now_ms id s at_ms by_ => (ApprovalRepo.update_status now_ms id s at_ms by_ d).2
  end.

Definition row_decided (r : ApprovalRow) : Prop := ar_status r <> ApprovalStatus.value ApprovalStatus.PENDING.

Lemma insert_row_keeps {R} k (r : R) rows rows' : insert_row k r rows = Ok rows' ->
  forall k' v, aget k' rows = Some v -> aget k' rows' = Some v.
Proof.
  unfold insert_row. destruct (is_set _); [done|]. intros [= <-] k' v Hv. by rewrite aget_app, Hv.
Qed.

Lemma approval_step_keeps o d id r : aget id (approval_rows d) = Some r -> row_decided r ->
  aget id (approval_rows (approval_step o d)) = Some r.
Proof.
  intros Hr Hd. destruct o as [a|now_ms id' s at_ms by_]; cbn.
  - unfold ApprovalRepo.create. destruct (_ ≫= _) as [rows|e] eqn:E; [|done]. cbn.
    apply res_bind_Ok in E as (u & _ & E). by eapply insert_row_keeps.
  - unfold ApprovalRepo.update_status. destruct (negb _); [done|]. destruct (required_key _ _) as [k|e]; [|done].
    destruct (aget k (approval_rows d)) as [r'|] eqn:E; [|done].
    destruct (String.eqb_spec (ar_status r') (ApprovalStatus.value ApprovalStatus.PENDING)); [|done]. cbn.
    rewrite aget_aset. case_decide; [|done]. subst. congruence.
Qed.

Lemma approval_steps_keep os d d' id r : steps approval_step d os d' ->
  aget id (approval_rows d) = Some r -> row_decided r -> aget id (approval_rows d') = Some r.
Proof. intros H. induction H as [|d o d1 os d2 -> _ IH]; eauto using approval_step_keeps. Qed.

(** a decision in the database is final. Once an approval row is decided,
    no sequence of creations and status updates changes or removes it; asking
    for the same decision again answers with the stored approval, and asking
    for another one is refused with the decision in the message. *)
Theorem db_decision_final d os d' a now_ms s at_ms by_ :
  steps approval_step d os d' ->
  Approval_model_validate a = Ok a -> is_uuid4_str (approval_id a) = true -> ap_status a <> ApprovalStatus.PENDING ->
  aget (approval_id a) (approval_rows d) = Some (approval_to_row_dict a) -> ApprovalRepo.is_supported s = true ->
  ApprovalRepo.get (approval_id a) d' = (Ok (Some a), d') /\
  ApprovalRepo.update_status now_ms (approval_id a) s at_ms by_ d' =
    (if bool_decide (ap_status a = s) then Ok a
     else Raise (ValueError ("approval has already been decided as " +:+ ApprovalStatus.value (ap_status a))), d').
Proof.
  intros Hs Hv Hid Hp Hr Hsup.
  assert (row_decided (approval_to_row_dict a)) as Hd by (unfold row_decided; cbn; by destruct (ap_status a)).
  pose proof (approval_steps_keep _ _ _ _ _ Hs Hr Hd) as Hr'. split.
  - unfold ApprovalRepo.get. rewrite required_key_uuid by done. cbn [mbind res_bind]. rewrite Hr'.
    rewrite approval_row_roundtrip by done. done.
  - unfold ApprovalRepo.update_status. rewrite Hsup. cbn [negb]. rewrite required_key_uuid, Hr' by done.
    destruct (String.eqb_spec (ar_status (approval_to_row_dict a)) (ApprovalStatus.value ApprovalStatus.PENDING)); [done|].
    rewrite approval_row_roundtrip by done. cbn [mbind res_bind]. done.
Qed.

(** ** The ledger *)
Section ledger.
Import Ledger.
Variable sanitize : json -> json.

Inductive ledger_op :=
| RecordSuccess (now_ms : Z) (key : string) (o : OutcomeToCache)
| RecordFailure (now_ms : Z) (key : string) (o : OutcomeToCache) (transient : bool).
Definition ledger_step (op : ledger_op) (d : tables) : tables :=
  match op with
  | RecordSuccess now_ms key o => (record_success sanitize now_ms key o d).2
  | RecordFailure now_ms key o transient => (record_failure sanitize now_ms key o transient d).2
  end.
Definition op_outcome (op : ledger_op) : OutcomeToCache :=
  match op with RecordSuccess _ _ o => o | RecordFailure _ _ o _ => o end.
Definition op_key (op : ledger_op) : string := match op with RecordSuccess _ k _ => k | RecordFailure _ k _ _ => k end.

(** The executor's outcomes do not expire. *)
Definition lasting (op : ledger_op) : Prop := o_expires_at_ms (op_outcome op) = None.
(** A success of tool [n] under key [k] *)
Definition is_success_of (k n : string) (op : ledger_op) : Prop :=
  match op with RecordSuccess _ key o => strip key = k /\ o_tool_name o = n | RecordFailure _ _ _ _ => False end.

Definition lasting_success (n : string) (r : LedgerRow) : Prop :=
  lr_tool_name r = n /\ lr_status r = status_value SUCCEEDED /\ lr_expires_at_ms r = None.

Lemma upsert_cases now_ms key o s ow d r d' : upsert sanitize now_ms key o s ow d = (r, d') ->
  d' = d \/ exists l,
    sanitize (ToolResult_model_dump (o_result o)) = JObj l /\
    match aget (strip key) (ledger_rows d) with
    | Some row => should_write_existing row o ow now_ms = true /\
        d' = set_ledger_rows (aset (strip key) (mkLedgerRow (o_tool_name o) (status_value s) (JObj l) (lr_created_at_ms row)
               now_ms (o_expires_at_ms o)) (ledger_rows d)) d
    | None => d' = set_ledger_rows (aset (strip key) (mkLedgerRow (o_tool_name o) (status_value s) (JObj l) now_ms
               now_ms (o_expires_at_ms o)) (ledger_rows d)) d
    end.
Proof.
  unfold upsert. destruct (required_key "key" key) as [k|e] eqn:Ek; [|intros [= _ <-]; by left].
  assert (k = strip key) as ->.
  { unfold required_key in Ek. apply res_bind_Ok in Ek as (_ & _ & [= ->]). done. }
  destruct (sanitize _) as [| | | | | |l|]; try (intros [= _ <-]; by left).
  destruct (aget (strip key) (ledger_rows d)) as [row|] eqn:Er.
  - destruct (should_write_existing row o ow now_ms) eqn:Ew; intros [= _ <-]; [|by left]. right. by exists l.
  - intros [= _ <-]. right. by exists l.
Qed.

Lemma ledger_step_keeps op d k n r : lasting op -> aget k (ledger_rows d) = Some r -> lasting_success n r ->
  exists r', aget k (ledger_rows (ledger_step op d)) = Some r' /\ lasting_success n r' /\
    (~ is_success_of k n op -> r' = r).
Proof.
  intros Hl Hr (H1 & H2 & H3).
  assert (exists r', aget k (ledger_rows d) = Some r' /\ lasting_success n r' /\ (~ is_success_of k n op -> r' = r)) as Hsame
    by (exists r; split_and!; done).
  destruct op as [now_ms key o|now_ms key o transient]; cbn [ledger_step is_success_of].
  - unfold record_success. destruct (negb (ok (o_result o))); [done|].
    destruct (upsert _ _ _ _ _ _ _) as [q d'] eqn:E. cbn [snd].
    apply upsert_cases in E as [->|(l & _ & E)]; [done|]. destruct (decide (strip key = k)) as [Hk|Hk].
    + subst k. rewrite Hr in E. destruct E as [Ew ->]. cbn [ledger_rows set_ledger_rows]. rewrite aget_aset, decide_True by done.
      unfold should_write_existing in Ew. destruct (String.eqb_spec (lr_tool_name r) (o_tool_name o)) as [En|En]; cbn [negb] in Ew.
      * eexists. split; [done|]. split; [split_and!; cbn; [congruence|done|exact Hl]|]. intros Hn. destruct Hn. split; congruence.
      * rewrite H2 in Ew. cbn in Ew. unfold is_expired in Ew. rewrite H3 in Ew. done.
    + exists r. split; [|split_and!; done].
      destruct (aget (strip key) (ledger_rows d)); [destruct E as [_ ->]|subst d']; cbn; by rewrite aget_aset, decide_False.
  - unfold record_failure. destruct (ok (o_result o)); [done|].
    destruct (upsert _ _ _ _ _ _ _) as [q d'] eqn:E. cbn [snd].
    apply upsert_cases in E as [->|(l & _ & E)]; [done|]. destruct (decide (strip key = k)) as [Hk|Hk].
    + subst k. rewrite Hr in E. destruct E as [Ew ->]. unfold should_write_existing, is_expired in Ew. rewrite H2, H3 in Ew.
      by destruct (negb _).
    + exists r. split; [|split_and!; done].
      destruct (aget (strip key) (ledger_rows d)); [destruct E as [_ ->]|subst d']; cbn; by rewrite aget_aset, decide_False.
Qed.

Lemma ledger_steps_keep os d d' k n r : steps ledger_step d os d' -> Forall lasting os ->
  aget k (ledger_rows d) = Some r -> lasting_success n r ->
  exists r', aget k (ledger_rows d') = Some r' /\ lasting_success n r' /\ (Forall (fun op => ~ is_success_of k n op) os -> r' = r).
Proof.
  intros H. revert r. induction H as [d|d op d1 os d2 -> _ IH]; intros r Hl Hr Hs; [by exists r|].
  apply Forall_cons in Hl as [Hl1 Hl2]. destruct (ledger_step_keeps op d k n r Hl1 Hr Hs) as (r1 & R1 & S1 & E1).
  destruct (IH r1 Hl2 R1 S1) as (r2 & R2 & S2 & E2). exists r2. split_and!; [done..|].
  intros [Hn1 Hn2]%Forall_cons. rewrite (E2 Hn2). by apply E1.
Qed.

(** C24: the ledger never loses a success. Once a key holds a success of a tool
    that does not expire, every later sequence of outcomes recorded under any
    keys by any tools, successes and failures, at whatever clock readings,
    leaves a success of the same tool there; the entry only changes when that
    tool succeeds again under that key, so failures and other tools never
    touch it. *)
Theorem ledger_keeps_success os d d' k n r : steps ledger_step d os d' -> Forall lasting os ->
  aget k (ledger_rows d) = Some r -> lasting_success n r ->
  exists r', aget k (ledger_rows d') = Some r' /\ lasting_success n r' /\
    (Forall (fun op => ~ is_success_of k n op) os -> r' = r).
Proof. apply ledger_steps_keep. Qed.
End ledger.

(** ** A database with the sample task *)
Definition running_call_sample : ToolCall := call_running sample_call 1005.
Definition running_task_sample : Task := task_running sample_task running_call_sample 1005.
Definition approved_sample : Approval :=
  mkApproval (sample_uuid "d") (run_id sample_task) (task_id sample_task) (tool_call_id sample_call) ApprovalStatus.APPROVED
    1000 (Some 2000) (Some "ops") None None.

Definition sample_db : tables :=
  mkTables [run_id sample_task] [(task_id sample_task, task_to_row_dict sample_task)]
    [(tool_call_id sample_call, tool_call_to_row_dict sample_call)]
    [(approval_id approved_sample, approval_to_row_dict approved_sample)] [].

Lemma sample_db_stored : task_stored sample_db sample_task.
Proof.
  split; [apply sample_task_valid|by vm_compute|]. intros c [= <-]. split; [apply sample_call_valid|by vm_compute].
Qed.

Lemma running_sample_valid : valid_task running_task_sample.
Proof. apply (Task_model_validate_valid running_task_sample). by vm_compute. Qed.

Lemma task_update_spec_witness :
  let d' := write_task running_task_sample sample_db in
  TaskRepo.update (fun _ _ => true) running_task_sample sample_db = (Ok running_task_sample, d') /\
  TaskRepo.get (task_id sample_task) d' = (Ok (Some running_task_sample), d').
Proof.
  intros d'. destruct (task_update_spec (fun _ _ => true) (fun _ => eq_refl) sample_db sample_task sample_db_stored) as [H _].
  destruct (H running_task_sample running_sample_valid) as (H1 & H2 & _).
  - split; [reflexivity..|]. cbn. split; reflexivity.
  - split; [exact H1|exact H2].
Defined.

Lemma db_decision_final_witness :
  let d' := approval_step (DbUpdate 3000 (approval_id approved_sample) ApprovalStatus.DENIED None (Some "other")) sample_db in
  ApprovalRepo.get (approval_id approved_sample) d' = (Ok (Some approved_sample), d') /\
  ApprovalRepo.update_status 4000 (approval_id approved_sample) ApprovalStatus.DENIED None None d' =
    (Raise (ValueError "approval has already been decided as approved"), d').
Proof.
  intros d'. apply (db_decision_final sample_db [DbUpdate 3000 (approval_id approved_sample) ApprovalStatus.DENIED None (Some "other")]
    d' approved_sample 4000 ApprovalStatus.DENIED None None).
  - apply (steps_foldl approval_step sample_db [DbUpdate 3000 (approval_id approved_sample) ApprovalStatus.DENIED None (Some "other")]).
  - vm_compute. reflexivity.
  - vm_compute. reflexivity.
  - discriminate.
  - vm_compute. reflexivity.
  - vm_compute. reflexivity.
Defined.

Definition ok_outcome (tool : string) : Ledger.OutcomeToCache :=
  Ledger.mkOutcomeToCache tool (mkToolResult true (Some (JStr "done")) None None None None) None.
Definition failed_outcome (tool : string) : Ledger.OutcomeToCache :=
  Ledger.mkOutcomeToCache tool (mkToolResult false None (Some "TIMEOUT") (Some "slow") None None) None.

Lemma ledger_keeps_success_witness :
  let d := ledger_step id (RecordSuccess 10 "key-1" (ok_outcome "fs.write")) sample_db in
  let d' := ledger_step id (RecordFailure 20 "key-1" (failed_outcome "fs.write") true) d in
  exists r', aget "key-1" (ledger_rows d') = Some r' /\ lasting_success "fs.write" r' /\
    Some r' = aget "key-1" (ledger_rows d).
Proof.
  intros d d'. destruct (aget "key-1" (ledger_rows d)) as [r|] eqn:Er; [|vm_compute in Er; discriminate Er].
  destruct (ledger_keeps_success id [RecordFailure 20 "key-1" (failed_outcome "fs.write") true] d d' "key-1" "fs.write" r)
    as (r' & R & S & E).
  - apply (steps_foldl (ledger_step id) d [RecordFailure 20 "key-1" (failed_outcome "fs.write") true]).
  - constructor; [reflexivity|constructor].
  - exact Er.
  - vm_compute in Er. injection Er as <-. split; [reflexivity|split; reflexivity].
  - exists r'. split; [exact R|split; [exact S|]]. rewrite E; [reflexivity|]. constructor; [|constructor]. intros [].
Defined.
