(* ===== verification/PacketStore.v ===== *)
(** * Stored run packets: [infra/db/repos/run_packets.py]

    [RunPacket.model_validate] of a JSON dictionary, and the repository of run
    packets, which sanitises a packet before it is stored and again when it is
    read. How pydantic converts a value that is no [int] to one is a parameter.
    The results: a dumped packet is read back, and what the repository answers
    after it stored a packet. *)

From Stdlib Require Import ZArith SpecFloat Lia.
From S2P Require Import Prelude PyFloat PyText Uuid Models Lifecycle Serialization Truncation Redaction Events Plans RunPackets AuditSanitize Approvals EventStore Rows Repos.

#[local] Notation dict := (list (string * json)).

(** Looking up a literal key in a literal dictionary. *)
Lemma aget_cons_eq {A} (k : string) (v : A) l : aget k ((k, v) :: l) = Some v.
Proof. cbn. by rewrite decide_True. Qed.
Lemma aget_cons_ne {A} (k k' : string) (v : A) l : k <> k' -> aget k ((k', v) :: l) = aget k l.
Proof. intros. cbn. by rewrite decide_False. Qed.
Ltac lookups := repeat first [rewrite aget_cons_eq | rewrite aget_cons_ne by discriminate].

Section decode.
Variable float_repr : spec_float -> string.
(** [int(...)] of a value of another kind, as the pydantic core does it *)
Variable lax_int : json -> res Z.
(** the [uuid4] of a record at a location, and [time.time() * 1000] *)
Variable fresh : string -> string.
Variable now_ms : Z.

(** ** Fields of a dictionary *)
Definition required {A} (f : json -> res A) (key : string) (d : dict) : res A :=
  match aget key d with None => Raise (ValueError "Field required") | Some v => f v end.
Definition defaulted {A} (f : json -> res A) (dflt : A) (key : string) (d : dict) : res A :=
  match aget key d with None => Ok dflt | Some v => f v end.
Definition nullable {A} (f : json -> res A) (v : json) : res (option A) :=
  match v with JNull => Ok None | v => a ← f v; Ok (Some a) end.

Definition of_int (v : json) : res Z := match v with JInt n => Ok n | v => lax_int v end.
Definition of_str (v : json) : res string := match v with JStr s => Ok s | _ => Raise (ValueError "Input should be a valid string") end.
Definition of_dict (v : json) : res dict := match v with JObj d => Ok d | _ => Raise (ValueError "Input should be a valid dictionary") end.
Definition of_status {S} (value : S -> string) (all : list S) (v : json) : res S := s ← of_str v; parse_status value all s.
(** The elements of a list, with their index in the location of an error. *)
Fixpoint of_items {A} (f : string -> json -> res A) (idx : nat) (l : list json) : vld (list A) :=
  match l with
  | [] => VOk []
  | v :: l => let loc := str_of_Z (Z.of_nat idx) in (VOk cons <*> field loc (f loc v) <*> of_items f (S idx) l)%py
  end.
Definition of_list {A} (f : string -> json -> res A) (v : json) : res (list A) :=
  match v with JArr l => run (of_items f 0 l) | _ => Raise (ValueError "Input should be a valid list") end.

(** Identifiers: validators that run before pydantic's own. *)
Definition id_of (field_name : string) (v : json) : res id_input :=
  match v with
  | JNull => Ok IdNone
  | JStr s => Ok (IdStr s)
  | _ => Raise (TypeError (field_name +:+ " must be a UUID or UUID string"))
  end.
Definition generated_id (field_name loc : string) (d : dict) : res string :=
  match aget field_name d with
  | None => Ok (fresh loc)
  | Some v => i ← id_of field_name v; validate_generated_id field_name (fresh loc) i
  end.
Definition required_id (field_name : string) (d : dict) : res string :=
  required (fun v => i ← id_of field_name v; validate_required_id field_name i) field_name d.

(** ** The models *)
Definition ToolCall_of_dict (loc : string) (d : dict) : res ToolCall :=
  run (after ToolCall_validate_timestamps (VOk mkToolCall
    <*> field "tool_call_id" (generated_id "tool_call_id" loc d)
    <*> field "tool_name" (s ← required of_str "tool_name" d; non_empty "tool_name" s)
    <*> field "args" (a ← defaulted of_dict [] "args" d; ensure_jsonable "args" a)
    <*> field "permission_scope" (s ← required of_str "permission_scope" d; non_empty "permission_scope" s)
    <*> field "idempotency_key" (s ← required of_str "idempotency_key" d; non_empty "idempotency_key" s)
    <*> field "status" (defaulted (of_status ToolCallStatus.value all_tool_call_statuses) ToolCallStatus.PENDING "status" d)
    <*> field "created_at_ms" (defaulted of_int now_ms "created_at_ms" d)
    <*> field "started_at_ms" (defaulted (nullable of_int) None "started_at_ms" d)
    <*> field "completed_at_ms" (defaulted (nullable of_int) None "completed_at_ms" d)
    <*> field "result_ref" (r ← defaulted (nullable of_str) None "result_ref" d; normalize_optional r))%py).
Definition Task_of_dict (loc : string) (d : dict) : res Task :=
  run (after Task_validate_timestamps (after Task_validate_attempt_limits (VOk mkTask
    <*> field "task_id" (generated_id "task_id" loc d)
    <*> field "run_id" (required_id "run_id" d)
    <*> field "name" (s ← required of_str "name" d; non_empty "name" s)
    <*> field "status" (defaulted (of_status TaskStatus.value all_task_statuses) TaskStatus.PENDING "status" d)
    <*> field "tool_call" (defaulted (nullable (fun v => c ← of_dict v; ToolCall_of_dict (loc +:+ ".tool_call") c)) None "tool_call" d)
    <*> field "attempts" (n ← defaulted of_int 0 "attempts" d; non_negative_int "attempts" n)
    <*> field "max_attempts" (n ← defaulted of_int 1 "max_attempts" d; positive_int "max_attempts" n)
    <*> field "timeout_s" (n ← defaulted of_int 60 "timeout_s" d; positive_int "timeout_s" n)
    <*> field "depends_on" (l ← defaulted (of_list (fun _ => of_str)) [] "depends_on" d; non_empty_entries "depends_on" l)
    <*> field "created_at_ms" (defaulted of_int now_ms "created_at_ms" d)
    <*> field "started_at_ms" (defaulted (nullable of_int) None "started_at_ms" d)
    <*> field "completed_at_ms" (defaulted (nullable of_int) None "completed_at_ms" d)
    <*> field "labels" (l ← defaulted (of_list (fun _ => of_str)) [] "labels" d; non_empty_entries "labels" l)
    <*> field "metadata" (a ← defaulted of_dict [] "metadata" d; ensure_jsonable "metadata" a))%py)).
Definition Event_of_dict (loc : string) (d : dict) : res Event :=
  run (VOk mkEvent
    <*> field "event_id" (generated_id "event_id" loc d)
    <*> field "type" (s ← required of_str "type" d; non_empty "type" s)
    <*> field "source" (s ← required of_str "source" d; non_empty "source" s)
    <*> field "received_at_ms" (required of_int "received_at_ms" d)
    <*> field "payload" (p ← required of_dict "payload" d; validate_payload float_repr None p)
    <*> field "dedupe_key" (k ← defaulted (nullable of_str) None "dedupe_key" d; normalize_optional k))%py.

(** [RunPacket.model_validate] *)
Definition RunPacket_of_dict (d : dict) : res RunPacket :=
  run (after (validate_total_size float_repr) (after packet_timestamps (after validate_parent_linkage (after validate_task_run_ids (VOk mkRunPacket
    <*> field "run_id" (required_id "run_id" d)
    <*> field "parent_run_id" (defaulted (nullable (fun v => i ← id_of "parent_run_id" v; validate_required_id "parent_run_id" i)) None
          "parent_run_id" d)
    <*> field "event" (required (fun v => e ← of_dict v; Event_of_dict "event" e) "event" d)
    <*> field "reflex_decision" (v ← defaulted of_dict [] "reflex_decision" d; validate_reflex_decision float_repr v)
    <*> field "plan" (v ← defaulted of_dict [] "plan" d; validate_plan float_repr v)
    <*> field "tasks" (l ← defaulted (of_list (fun idx v => t ← of_dict v; Task_of_dict ("tasks." +:+ idx) t)) [] "tasks" d; validate_tasks l)
    <*> field "tool_results" (l ← defaulted (of_list (fun _ => of_dict)) [] "tool_results" d; validate_tool_results float_repr l)
    <*> field "policy_decisions" (l ← defaulted (of_list (fun _ => of_dict)) [] "policy_decisions" d; validate_policy_decisions float_repr l)
    <*> field "created_at_ms" (defaulted of_int now_ms "created_at_ms" d)
    <*> field "started_at_ms" (defaulted (nullable of_int) None "started_at_ms" d)
    <*> field "completed_at_ms" (defaulted (nullable of_int) None "completed_at_ms" d))%py)))).

(** ** Reading back *)
Lemma nullable_json {A} (f : json -> res A) (g : A -> json) o : (forall a, f (g a) = Ok a) -> (forall a, g a <> JNull) ->
  nullable f (json_of g o) = Ok o.
Proof. intros Hf Hg. destruct o as [a|]; [|done]. cbn. generalize (Hf a) (Hg a). destruct (g a); intros E1 E2; [by destruct E2|..]; cbn [nullable]; by rewrite E1. Qed.
Lemma nullable_int o : nullable of_int (json_of JInt o) = Ok o.
Proof. by apply nullable_json. Qed.
Lemma nullable_str o : nullable of_str (json_of JStr o) = Ok o.
Proof. by apply nullable_json. Qed.
Lemma of_task_status s : of_status TaskStatus.value all_task_statuses (JStr (TaskStatus.value s)) = Ok s.
Proof. by destruct s. Qed.
Lemma of_tool_call_status s : of_status ToolCallStatus.value all_tool_call_statuses (JStr (ToolCallStatus.value s)) = Ok s.
Proof. by destruct s. Qed.
Lemma of_items_map {A B} (f : string -> json -> res A) (g : B -> json) (h : B -> A) idx l :
  (forall loc b, b ∈ l -> f loc (g b) = Ok (h b)) -> of_items f idx (map g l) = VOk (map h l).
Proof.
  revert idx. induction l as [|b l IH]; intros idx Hf; cbn [map of_items]; [done|]. rewrite (Hf _ b) by left.
  rewrite IH; [done|]. intros. apply Hf. by right.
Qed.
Lemma of_strs l : of_list (fun _ => of_str) (JArr (map JStr l)) = Ok l.
Proof. unfold of_list. rewrite (of_items_map _ _ id) by done. by rewrite map_id. Qed.
Lemma of_dicts l : of_list (fun _ => of_dict) (JArr (map JObj l)) = Ok l.
Proof. unfold of_list. rewrite (of_items_map _ _ id) by done. by rewrite map_id. Qed.

Lemma ToolCall_of_dump loc c : (d ← of_dict (ToolCall_dump c); ToolCall_of_dict loc d) = ToolCall_model_validate c.
Proof.
  unfold ToolCall_dump, of_dict. cbn [mbind res_bind]. unfold ToolCall_of_dict, ToolCall_model_validate, ToolCall_fields, generated_id, required, defaulted.
  lookups. rewrite !nullable_int, nullable_str, of_tool_call_status. cbn [of_str of_int of_dict id_of mbind res_bind field]. done.
Qed.
Lemma Task_of_dump loc t : (d ← of_dict (Task_dump t); Task_of_dict loc d) = Task_model_validate t.
Proof.
  unfold Task_dump. cbn [of_dict mbind res_bind]. unfold Task_of_dict, Task_model_validate, Task_fields, generated_id, required_id, required, defaulted.
  lookups. rewrite !nullable_int, of_task_status, !of_strs. cbn [of_str of_int of_dict id_of mbind res_bind].
  assert (nullable (fun v => c ← of_dict v; ToolCall_of_dict (loc +:+ ".tool_call") c) (json_of ToolCall_dump (tool_call t)) = Task_validate_tool_call (tool_call t)) as ->; [|done].
  destruct (tool_call t) as [c|]; [|done]. cbn [json_of nullable Task_validate_tool_call].
  pose proof (ToolCall_of_dump (loc +:+ ".tool_call") c) as E. unfold ToolCall_dump in *. cbn [nullable]. rewrite E.
  by destruct (ToolCall_model_validate c).
Qed.
Lemma Event_of_dump loc e : (d ← of_dict (Event_dump e); Event_of_dict loc d) = Event_validate float_repr None "" (event_dict e).
Proof.
  unfold Event_dump, of_dict. cbn [mbind res_bind]. unfold Event_of_dict, Event_validate, event_dict, generated_id, required, defaulted.
  lookups. rewrite nullable_str. done.
Qed.

(** C28: a run packet survives its dump: what a packet dumps is read back as that
    packet, with its event and tasks. *)
Theorem run_packet_roundtrip p : packet_ok float_repr p -> valid_event float_repr DEFAULT_MAX_PAYLOAD_BYTES (pk_event p) ->
  Forall valid_task (pk_tasks p) -> RunPacket_of_dict (RunPacket_dump p) = Ok p.
Proof.
  intros Hp He Ht. rewrite <- (build_fix float_repr p Hp). unfold RunPacket_of_dict, RunPacket_build, RunPacket_fields, RunPacket_dump, required_id,
    required, defaulted. lookups. rewrite !nullable_int. rewrite !of_dicts.
  rewrite Event_of_dump, Event_validate_fix by done. cbn [id_of of_dict of_int mbind res_bind].
  unfold of_list at 1. rewrite (of_items_map _ _ id).
  - rewrite map_id. cbn [run mbind res_bind field].
    assert (nullable (fun v => i ← id_of "parent_run_id" v; validate_required_id "parent_run_id" i) (json_of JStr (parent_run_id p)) =
      validate_optional (fun r => validate_required_id "parent_run_id" (IdStr r)) (parent_run_id p)) as ->; [by destruct (parent_run_id p)|].
    done.
  - intros loc t Hin. rewrite Task_of_dump. apply Task_model_validate_fix.
    rewrite Forall_forall in Ht. by apply Ht.
Qed.
End decode.

(** ** The database: [infra/db/models.py] *)

(** [RunRecord] of [storage/ports.py]; [RunRow] has the same columns. *)
Record RunRecord := mkRunRecord {
  rr_run_id : string;
  rr_parent_run_id : option string;
  rr_created_at_ms : Z;
  rr_started_at_ms : option Z;
  rr_completed_at_ms : option Z;
}.
Record RunPacketRow := mkRunPacketRow {
  pr_packet_version : Z;
  pr_created_at_ms : Z;
  pr_packet : dict;
}.
(** [content] and [tags] are JSON columns; the primary key is [memory_id], and
    [run_id] is unique. *)
Record MemoryItemRow := mkMemoryItemRow {
  mr_memory_id : string;
  mr_run_id : string;
  mr_event_id : option string;
  mr_kind : string;
  mr_event_type : option string;
  mr_event_source : option string;
  mr_summary : string;
  mr_content : dict;
  mr_tags : list string;
  mr_created_at_ms : Z;
  mr_updated_at_ms : Z;
}.
(** The tables of events, of tasks, calls, approvals and results, of runs, of
    run packets by run, and of memory items; [runs] of [tables] is the primary
    key of the table of runs. *)
Record store := mkStore {
  s_events : event_tables;
  s_tables : tables;
  s_run_rows : list (string * RunRecord);
  s_packets : list (string * RunPacketRow);
  s_memory : list MemoryItemRow;
}.
Definition set_events (e : event_tables) (s : store) : store := mkStore e (s_tables s) (s_run_rows s) (s_packets s) (s_memory s).
Definition set_tables (t : tables) (s : store) : store := mkStore (s_events s) t (s_run_rows s) (s_packets s) (s_memory s).
Definition set_run_rows (l : list (string * RunRecord)) (s : store) : store := mkStore (s_events s) (s_tables s) l (s_packets s) (s_memory s).
Definition set_packets (l : list (string * RunPacketRow)) (s : store) : store := mkStore (s_events s) (s_tables s) (s_run_rows s) l (s_memory s).
Definition set_memory (l : list MemoryItemRow) (s : store) : store :=
  mkStore (s_events s) (s_tables s) (s_run_rows s) (s_packets s) l.

(** A step on some of the tables. *)
Definition on_events {A} (f : st event_tables A) : st store A := fun s => let '(r, e) := f (s_events s) in (r, set_events e s).
Definition on_tables {A} (f : st tables A) : st store A := fun s => let '(r, t) := f (s_tables s) in (r, set_tables t s).

(** ** [infra/db/repos/runs/core.py] *)
Module RunRepo.
Definition create (r : RunRecord) : st store RunRecord := fun s =>
  match insert_row (rr_run_id r) r (s_run_rows s) with
  | Ok rows =>
      let t := s_tables s in
      (Ok r, set_run_rows rows (set_tables (mkTables (runs t ++ [rr_run_id r])%list (task_rows t) (tool_call_rows t) (approval_rows t)
        (ledger_rows t)) s))
  | Raise e => (Raise e, s)
  end.
Definition get (run_id : string) : st store (option RunRecord) := fun s =>
  (k ← required_key "run_id" run_id; Ok (aget k (s_run_rows s)), s).
Definition update_timestamps (run_id : string) (started_at_ms completed_at_ms : option Z) : st store RunRecord := fun s =>
  match required_key "run_id" run_id with
  | Raise e => (Raise e, s)
  | Ok k =>
      match aget k (s_run_rows s) with
      | None => (Raise (KeyError ("unknown run_id: " +:+ py_repr k)), s)
      | Some r =>
          let keep (new old : option Z) := match new with Some n => Some n | None => old end in
          let r' := mkRunRecord (rr_run_id r) (rr_parent_run_id r) (rr_created_at_ms r) (keep started_at_ms (rr_started_at_ms r))
            (keep completed_at_ms (rr_completed_at_ms r)) in
          (Ok r', set_run_rows (aset k r' (s_run_rows s)) s)
      end
  end.
End RunRepo.

(** ** [infra/db/repos/run_packets.py] *)
Module RunPacketRepo.
Definition RUN_PACKET_VERSION : Z := 1.

Section repo.
Variable float_repr : spec_float -> string.
Variable redact_text : string -> string.
Variable settings : audit_settings.
Variable lax_int : json -> res Z.
Variable fresh : string -> string.
Variable now_ms : Z.
(** [memory_item_from_run_packet] and [upsert] of the memory repository, if there is one *)
Variable remember : option (RunPacket -> st store unit).

(** The columns of the row in the place of what sanitising left of them. *)
Definition row_columns (run_id : string) (created_at_ms version : Z) (packet : dict) : dict :=
  aset "packet_version" (JInt version) (aset "created_at_ms" (JInt created_at_ms) (aset "run_id" (JStr run_id) packet)).
Definition validated (d : dict) : res RunPacket := RunPacket_of_dict float_repr lax_int fresh now_ms d.

Definition remember_packet (stored : RunPacket) : st store unit :=
  match remember with
  | None => mret tt
  | Some upsert =>
      s ← Prelude.get;
      match aget (event_id (pk_event stored)) (event_rows (s_events s)) with
      | None => throw (KeyError ("unknown event_id: " +:+ py_repr (event_id (pk_event stored))))
      | Some _ => upsert stored
      end
  end.
Definition create (p : RunPacket) : st store RunPacket := fun s =>
  if negb (is_set (aget (pk_run_id p) (s_run_rows s))) then (Raise (KeyError ("unknown run_id: " +:+ py_repr (pk_run_id p))), s)
  else
    match (sanitized ← sanitize_for_audit float_repr redact_text settings (RunPacket_dump p);
           let sanitized := row_columns (pk_run_id p) (pk_created_at_ms p) RUN_PACKET_VERSION sanitized in
           stored ← validated sanitized;
           Ok (sanitized, stored)) with
    | Raise e => (Raise e, s)
    | Ok (sanitized, stored) =>
        (remember_packet stored;; mret stored)
          (set_packets (aset (pk_run_id p) (mkRunPacketRow RUN_PACKET_VERSION (pk_created_at_ms p) sanitized) (s_packets s)) s)
    end.

(** [_row_to_packet] *)
Definition row_to_packet (run_id : string) (r : RunPacketRow) : res RunPacket :=
  sanitized ← sanitize_for_audit float_repr redact_text settings (pr_packet r);
  validated (row_columns run_id (pr_created_at_ms r) (pr_packet_version r) sanitized).
Definition get (run_id : string) : st store (option RunPacket) := fun s =>
  (k ← required_key "run_id" run_id;
   match aget k (s_packets s) with None => Ok None | Some r => p ← row_to_packet k r; Ok (Some p) end, s).

(** Rows in order of creation, then of the run. *)
Definition row_key (p : string * RunPacketRow) : Z * string := (pr_created_at_ms p.2, p.1).
Fixpoint insert_by_key (p : string * RunPacketRow) (l : list (string * RunPacketRow)) : list (string * RunPacketRow) :=
  match l with
  | [] => [p]
  | q :: l' => if ple (row_key p) (row_key q) then p :: l else q :: insert_by_key p l'
  end.
Definition order_by (l : list (string * RunPacketRow)) : list (string * RunPacketRow) := foldr insert_by_key [] l.
Definition page {A} (limit offset : Z) (l : list A) : list A := take (Z.to_nat limit) (drop (Z.to_nat offset) l).
Definition packets_of (l : list (string * RunPacketRow)) : res (list RunPacket) := sequence (map (fun p => row_to_packet p.1 p.2) l).
Definition list_recent (limit offset : Z) : st store (list RunPacket) := fun s =>
  (validate_limit_offset limit offset;; packets_of (page limit offset (rev (order_by (s_packets s)))), s).
Definition list_before (created_before_ms limit offset : Z) : st store (list RunPacket) := fun s =>
  (validate_limit_offset limit offset;;
   packets_of (page limit offset (order_by (filter (fun p => pr_created_at_ms p.2 < created_before_ms) (s_packets s)))), s).
(** What the join with the memory items keeps: packets of no item, or of an
    item of another version; a run has at most one item. *)
Definition needs_refresh (memory_version : string) (memory : list MemoryItemRow) (p : string * RunPacketRow) : bool :=
  match List.find (fun m => (mr_run_id m =? p.1)%string) memory with
  | None => true
  | Some m => match get_str "memory_version" (mr_content m) with None => true | Some v => negb (v =? memory_version)%string end
  end.
Definition for_memory_refresh (created_before_ms : Z) (memory_version : string) (s : store) : list (string * RunPacketRow) :=
  order_by (filter (fun p => pr_created_at_ms p.2 < created_before_ms /\ needs_refresh memory_version (s_memory s) p = true) (s_packets s)).
Definition list_for_memory_refresh_before (created_before_ms : Z) (memory_version : string) (limit offset : Z) : st store (list RunPacket) :=
  fun s => (validate_limit_offset limit offset;;
    if limit =? 0 then Ok []
    else
      raise_if (is_empty (strip memory_version)) (ValueError "memory_version must be non-empty");;
      packets_of (page limit offset (for_memory_refresh created_before_ms (strip memory_version) s)), s).

(** The run of the first packet of an event. *)
Definition get_run_id_for_event (event_id : string) : st store (option string) := fun s =>
  (k ← required_key "event_id" event_id;
   Ok (head (map fst (order_by (filter (fun p => (event ← get_dict "event" (pr_packet p.2); get_str "event_id" event) = Some k)
     (s_packets s))))), s).
End repo.
End RunPacketRepo.

(** ** What is stored is identified *)
Section stored.
Variable float_repr : spec_float -> string.
Variable redact_text : string -> string.
Variable settings : audit_settings.
Variable lax_int : json -> res Z.
Variable fresh : string -> string.
Variable now_ms : Z.

Lemma of_items_Ok {A} (f : string -> json -> res A) idx l r : of_items f idx l = VOk r -> Forall2 (fun v a => exists loc, f loc v = Ok a) l r.
Proof.
  revert idx r. induction l as [|v l IH]; intros idx r; cbn [of_items]; [intros [= <-]; constructor|]. intros H. vld_inv.
  constructor; [eauto|]. by eapply IH.
Qed.
Lemma of_list_Ok {A} (f : string -> json -> res A) v r : of_list f v = Ok r ->
  exists l, v = JArr l /\ Forall2 (fun v a => exists loc, f loc v = Ok a) l r.
Proof. destruct v as [| | | | |l| |]; try done. intros H%run_Ok. exists l. split; [done|]. by eapply of_items_Ok. Qed.

Lemma get_str_aget k d s : get_str k d = Some s -> aget k d = Some (JStr s).
Proof. unfold get_str. destruct (aget k d) as [[]|]; naive_solver. Qed.
Lemma get_dict_aget k d l : get_dict k d = Some l -> aget k d = Some (JObj l).
Proof. unfold get_dict. destruct (aget k d) as [[]|]; naive_solver. Qed.

Lemma generated_id_str f loc d s : get_str f d = Some s -> generated_id fresh f loc d = validate_required_id f (IdStr s).
Proof. intros E%get_str_aget. unfold generated_id. by rewrite E. Qed.
Lemma Event_of_dict_id loc d e id : Event_of_dict float_repr lax_int fresh loc d = Ok e -> get_str "event_id" d = Some id ->
  validate_required_id "event_id" (IdStr id) = Ok (event_id e).
Proof. unfold Event_of_dict. intros H Hid. vld_inv. cbn [event_id]. by rewrite <- (generated_id_str _ loc d id). Qed.
Lemma Task_of_dict_id loc d t id : Task_of_dict lax_int fresh now_ms loc d = Ok t -> get_str "task_id" d = Some id ->
  validate_required_id "task_id" (IdStr id) = Ok (task_id t).
Proof. unfold Task_of_dict. intros H Hid. vld_inv. cbn [task_id]. by rewrite <- (generated_id_str _ loc d id). Qed.

(** The packet read from a dictionary has the identifiers found there. *)
Lemma RunPacket_of_dict_ids d p : RunPacket_of_dict float_repr lax_int fresh now_ms d = Ok p ->
  (forall id, get_str "run_id" d = Some id -> validate_required_id "run_id" (IdStr id) = Ok (pk_run_id p)) /\
  (forall id, (event ← get_dict "event" d; get_str "event_id" event) = Some id ->
     validate_required_id "event_id" (IdStr id) = Ok (event_id (pk_event p))) /\
  (forall id, id ∈ task_ids d -> exists t, t ∈ pk_tasks p /\ validate_required_id "task_id" (IdStr id) = Ok (task_id t)).
Proof.
  unfold RunPacket_of_dict. intros H. vld_inv. cbn [pk_run_id pk_event pk_tasks].
  split_and!.
  - intros id Hid%get_str_aget. match goal with H : required_id "run_id" d = Ok _ |- _ => revert H end.
    unfold required_id, required. by rewrite Hid.
  - intros id Hid. destruct (get_dict "event" d) as [e|] eqn:Ee; [|done]. cbn in Hid. apply get_dict_aget in Ee.
    match goal with H : required _ "event" d = Ok _ |- _ => revert H end. unfold required. rewrite Ee. cbn [of_dict mbind res_bind].
    intros He. by eapply Event_of_dict_id.
  - intros id Hid. match goal with H : (_ ← _; validate_tasks _) = Ok _ |- _ => apply res_bind_Ok in H as (l & Hl & [-> _]%validate_tasks_Ok) end.
    unfold task_ids in Hid. apply list_elem_of_omap in Hid as (v & Hv & Hid). unfold get_list in Hv. unfold defaulted in Hl.
    destruct (aget "tasks" d) as [[| | | | |items| |]|]; try (by inversion Hv). apply of_list_Ok in Hl as (items' & [= <-] & Hl).
    cbn [default] in Hv. apply list_elem_of_lookup in Hv as (i & Hi). destruct (Forall2_lookup_l _ _ _ _ _ Hl Hi) as (t & Ht & loc & Hlt).
    exists t. split; [by eapply list_elem_of_lookup_2|]. destruct v as [| | | | | |task|]; try done. cbn in Hid, Hlt. by eapply Task_of_dict_id.
Qed.

Lemma dump_anchors p : extract_audit_anchors (RunPacket_dump p) =
  mkAnchors (Some (pk_run_id p)) (Some (event_id (pk_event p))) (map (fun t => (task_id t, tool_call_id <$> tool_call t)) (pk_tasks p))
    (omap (get_str "tool_call_id") (tool_results p)).
Proof.
  unfold extract_audit_anchors, RunPacket_dump, get_str at 1, get_dict at 1, get_list. lookups. cbn [mbind option_bind default].
  unfold id. f_equal.
  - induction (pk_tasks p) as [|t l IH]; [done|]. cbn [map omap list_omap].
    assert (task_anchor (Task_dump t) = Some (task_id t, tool_call_id <$> tool_call t)) as ->; [|by rewrite IH].
    unfold task_anchor, Task_dump. cbn [as_dict mbind option_bind]. unfold get_str at 1, get_dict. lookups. cbn [mbind option_bind].
    destruct (tool_call t) as [c|]; [|done]. cbn [json_of]. unfold ToolCall_dump. cbn. unfold get_str. by lookups.
  - induction (tool_results p) as [|r l IH]; [done|]. cbn [map omap list_omap]. unfold result_anchor at 1. cbn [as_dict mbind option_bind].
    by rewrite IH.
Qed.

Lemma row_columns_keeps run created version d k : k ∉ ["run_id"; "created_at_ms"; "packet_version"] ->
  aget k (RunPacketRepo.row_columns run created version d) = aget k d.
Proof. intros Hk. unfold RunPacketRepo.row_columns. rewrite !aget_aset, !decide_False by set_solver. done. Qed.

Lemma insert_packet_by_key_perm q l : RunPacketRepo.insert_by_key q l ≡ₚ q :: l.
Proof. induction l as [|q' l IH]; cbn; [done|]. destruct (ple _ _); [done|]. rewrite IH. constructor. Qed.
Lemma order_by_perm l : RunPacketRepo.order_by l ≡ₚ l.
Proof. unfold RunPacketRepo.order_by. induction l as [|q l IH]; cbn; [done|]. by rewrite insert_packet_by_key_perm, IH. Qed.

(** what is stored of a run can be found again. Whatever sanitising did to
    the packet, when it is stored it is the packet of a known run, and the one
    that is stored has the run id, the event id and every task id of the one
    that was given; and then the event leads to a run. *)
Theorem stored_packet_identifies remember p s stored s' :
  0 < max_event_payload_bytes settings /\ 0 < max_tool_output_bytes settings /\ 0 < max_run_packet_bytes settings ->
  is_uuid4_str (pk_run_id p) = true -> is_uuid4_str (event_id (pk_event p)) = true ->
  Forall (fun t => is_uuid4_str (task_id t) = true) (pk_tasks p) ->
  estimate_size_bytes float_repr 8 200 (JObj (build_minimal_audit_packet (extract_audit_anchors (RunPacket_dump p)))) <= max_run_packet_bytes settings ->
  RunPacketRepo.create float_repr redact_text settings lax_int fresh now_ms remember p s = (Ok stored, s') ->
  is_set (aget (pk_run_id p) (s_run_rows s)) = true /\ pk_run_id stored = pk_run_id p /\ event_id (pk_event stored) = event_id (pk_event p) /\
  (forall t, t ∈ pk_tasks p -> exists t', t' ∈ pk_tasks stored /\ task_id t' = task_id t) /\
  (remember = None -> exists run, (RunPacketRepo.get_run_id_for_event (event_id (pk_event p)) s').1 = Ok (Some run)).
Proof.
  intros Hcaps Hrun Hev Htasks Hsize. unfold RunPacketRepo.create. destruct (is_set (aget (pk_run_id p) (s_run_rows s))); [|done]. cbn [negb].
  destruct (sanitize_anchored float_repr redact_text settings Hcaps (RunPacket_dump p)) as (d & -> & Hd). destruct (Hd Hsize) as [Ha _]. clear Hd.
  cbn [mbind res_bind]. set (row := RunPacketRepo.row_columns _ _ _ d). unfold RunPacketRepo.validated.
  destruct (RunPacket_of_dict float_repr lax_int fresh now_ms row) as [q|] eqn:Eq; [|done]. cbn [mbind res_bind]. intros Hs.
  assert (stored = q) as -> by (unfold mbind, st_bind in Hs; destruct (RunPacketRepo.remember_packet _ _ _) as [[]]; [by injection Hs|done]).
  destruct (RunPacket_of_dict_ids _ _ Eq) as (R1 & R2 & R3). rewrite dump_anchors in Ha. destruct Ha as [A1 A2 A3 _ _].
  cbn [an_run_id an_event_id an_tasks] in *.
  assert (forall k, k ∉ ["run_id"; "created_at_ms"; "packet_version"] -> aget k row = aget k d) as Hk by (intros; by apply row_columns_keeps).
  assert ((event ← get_dict "event" row; get_str "event_id" event) = Some (event_id (pk_event p))) as Hevent.
  { unfold get_dict. rewrite Hk by set_solver. by apply A2. }
  split; [done|]. split; [|split; [|split]].
  - assert (get_str "run_id" row = Some (pk_run_id p)) as Hr.
    { unfold get_str, row, RunPacketRepo.row_columns. rewrite !aget_aset, !decide_False, decide_True by done. done. }
    specialize (R1 _ Hr). rewrite (proj1 (is_uuid4_str_validate _ _)) in R1 by done. by injection R1.
  - specialize (R2 _ Hevent). rewrite (proj1 (is_uuid4_str_validate _ _)) in R2 by done. by injection R2.
  - intros t Ht. destruct (R3 (task_id t)) as (t' & Ht' & E).
    { unfold task_ids, get_list. rewrite Hk by set_solver. apply (A3 (task_id t, tool_call_id <$> tool_call t)).
      by apply (list_elem_of_fmap_2 (fun t => (task_id t, tool_call_id <$> tool_call t))). }
    exists t'. split; [done|]. rewrite Forall_forall in Htasks. rewrite (proj1 (is_uuid4_str_validate _ _)) in E by (by apply Htasks). by injection E.
  - intros ->. cbn in Hs. injection Hs as <-. unfold RunPacketRepo.get_run_id_for_event. cbn [fst s_packets set_packets].
    rewrite required_key_uuid by done. cbn [mbind res_bind].
    set (l := filter _ _). assert (l <> []) as Hl.
    { intros Hn. assert ((pk_run_id p, mkRunPacketRow RunPacketRepo.RUN_PACKET_VERSION (pk_created_at_ms p) row) ∈ l) as Hin; [|rewrite Hn in Hin; by inversion Hin].
      apply list_elem_of_filter. split; [done|]. apply aget_Some_elem. by rewrite aget_aset, decide_True. }
    pose proof (order_by_perm l) as Hp. destruct (RunPacketRepo.order_by l) as [|[run r] l'] eqn:El; [|by exists run].
    destruct l; [done|]. by apply Permutation_nil_cons in Hp.
Qed.
End stored.

(** ** A run of more than 200 tasks cannot be stored *)
Section many.
Variable float_repr : spec_float -> string.
Variable redact_text : string -> string.
Variable settings : audit_settings.
Variable lax_int : json -> res Z.
Variable fresh : string -> string.
Variable now_ms : Z.

(** The dictionaries of a list. *)
Definition few_dicts (n : nat) (v : json) : Prop := forall l, v = JArr l -> (length (omap as_dict l) <= n)%nat.
Lemma few_dicts_mark n m remaining (items : list json) : (length (omap as_dict items) <= n)%nat ->
  few_dicts n (JArr (mark_array m remaining items)).
Proof. intros H l [= <-]. unfold mark_array. rewrite omap_app. cbn. by rewrite app_nil_r. Qed.
Lemma few_dicts_keep n (items : list json) : (length (omap as_dict items) <= n)%nat -> few_dicts n (JArr items).
Proof. by intros H l [= <-]. Qed.

Lemma array_items_few d i m f total rest idx remaining items : (length (omap as_dict items) <= Nat.min idx i)%nat ->
  few_dicts i (array_items float_repr d i m f total rest idx remaining items).1.1.
Proof.
  assert (forall remaining (items : list json), (length (omap as_dict items) <= i)%nat -> few_dicts i (end_array m total remaining items).1.1) as Hend.
  { intros n l Hl. unfold end_array. destruct (_ && _); cbn [fst]; [by apply few_dicts_mark|by apply few_dicts_keep]. }
  revert idx remaining items. induction rest as [|v rest IH]; intros idx remaining items Hi; cbn [array_items]; [apply Hend; lia|].
  destruct (Nat.leb_spec i idx); [cbn [fst]; destruct (0 <? remaining); [apply few_dicts_mark|apply few_dicts_keep]; lia|].
  cbv zeta. destruct (_ <=? 0); [apply Hend; lia|]. destruct (_ <? _); [apply Hend; lia|]. apply IH. rewrite omap_app, length_app.
  cbn [omap list_omap]. destruct (as_dict _); cbn [length]; lia.
Qed.
Lemma truncate_few d i m room v b : few_dicts i (truncate_with_budget float_repr d i m room v b).1.1.
Proof.
  destruct room as [|room]; destruct v as [|x|n|f|s|l|l|s]; cbn [truncate_with_budget]; unfold truncate_scalar, replaced;
    repeat (case_match; try (intros ? [=]; fail)); cbn [fst emptied]; try (intros ? [=]; fail); try (intros ? [= <-]; cbn; lia).
  - apply array_items_few. cbn. lia.
  - intros l' E. match goal with H : context [object_items ?a ?b ?c ?e ?g ?h ?j ?k ?o ?q] |- _ => destruct (object_items_object a b c e g h j k o q) as [? E'] end.
    congruence.
Qed.
Lemma object_values_few d i m f total rest idx remaining result l : (forall v b, few_dicts i (f v b)) ->
  Forall (fun p => few_dicts i p.2) result ->
  (object_items float_repr d i m f total rest idx remaining result).1.1 = JObj l -> Forall (fun p => few_dicts i p.2) l.
Proof.
  intros Hf. assert (forall r (result : dict), Forall (fun p => few_dicts i p.2) result -> Forall (fun p => few_dicts i p.2) (mark_object m r result)) as Hmark.
  { intros r res Hres. unfold mark_object. destruct (is_empty _); [done|]. apply Forall_aset_entry; [by intros ? [=]|done]. }
  assert (forall r (result : dict), Forall (fun p => few_dicts i p.2) result -> (end_object m total r result).1.1 = JObj l ->
    Forall (fun p => few_dicts i p.2) l) as Hend.
  { intros r res Hres. unfold end_object. destruct (_ && _); cbn [fst]; intros [= <-]; [by apply Hmark|done]. }
  revert idx remaining result. induction rest as [|[k v] rest IH]; intros idx remaining result Hr; cbn [object_items]; [by apply Hend|].
  destruct (_ <=? _)%nat; [cbn [fst]; intros [= <-]; destruct (0 <? remaining); [by apply Hmark|done]|].
  cbv zeta. destruct (_ || _); [by apply Hend|]. destruct (_ <? _); [by apply Hend|]. apply IH. apply Forall_aset_entry; [apply Hf|done].
Qed.
Lemma truncated_tasks_few d i m l n o : 0 < n -> truncate_collection float_repr (S d) i m (JObj l) n = Ok (JObj o) ->
  (length (omap as_dict (default [] (get_list "tasks" o))) <= i)%nat.
Proof.
  intros Hn. unfold truncate_collection. rewrite (proj2 (Z.ltb_ge _ _)) by lia. cbn [raise_if mbind res_bind truncate_with_budget].
  rewrite (proj2 (Z.leb_gt _ _)) by lia. intros [= E]. apply object_values_few in E; [|intros v b; apply truncate_few|constructor].
  unfold get_list. destruct (aget "tasks" o) as [[| | | | |l'| |]|] eqn:Et; try (cbn; lia). cbn [default].
  apply aget_Some_elem in Et. rewrite Forall_forall in E. by apply (E _ Et).
Qed.

(** A task of which only the identifiers are left. *)
Definition only_ids (d : dict) : Prop := exists t, JObj (task_min t) ∈ default [] (get_list "tasks" d).
Lemma anchored_only_ids existing l : (length (omap as_dict existing) < length l)%nat -> NoDup l.*1 ->
  exists t, task_min t ∈ anchored_tasks existing l.
Proof.
  intros Hlen Hn. unfold anchored_tasks. set (ts := omap as_dict existing) in *. set (present := omap (get_str "task_id") ts).
  assert (exists t, t ∈ l /\ t.1 ∉ present) as (t & Ht & Hp).
  { destruct (decide (Forall (fun t => t.1 ∈ present) l)) as [Hl|Hl].
    - exfalso. assert (l.*1 ⊆+ present) as Hsub.
      { apply NoDup_submseteq; [done|]. intros x (t & -> & Ht)%list_elem_of_fmap. rewrite Forall_forall in Hl. by apply Hl. }
      apply submseteq_length in Hsub. rewrite length_fmap in Hsub.
      assert (length present <= length ts)%nat; [|lia]. unfold present. clear. induction ts as [|d ts IH]; cbn [omap list_omap]; [done|].
      destruct (get_str _ d); cbn [length]; lia.
    - apply not_Forall_Exists in Hl; [|apply _]. apply Exists_exists in Hl as (t & Ht & Hp). eauto. }
  exists t. clearbody ts present. clear -Ht Hp. revert ts. induction l as [|t' l IH]; intros ts; [by inversion Ht|]. cbn [foldl].
  apply elem_of_cons in Ht as [->|Ht]; [|by apply IH].
  assert (task_min t' ∈ anchor_task present ts t') as Hin.
  { unfold anchor_task. rewrite bool_decide_false by done. apply elem_of_app. right. left. }
  revert Hin. generalize (anchor_task present ts t') as us. clear IH. induction l as [|u l IH]; intros us Hin; cbn [foldl]; [done|]. apply IH.
  unfold anchor_task. case_bool_decide as Hu; [|by apply elem_of_app; left]. destruct (u.2) as [id|]; [|done].
  apply anchor_first_others; [done|]. destruct t' as [x [o|]]; cbn; intros [= ->]; done.
Qed.

Hypothesis caps : 0 < max_event_payload_bytes settings /\ 0 < max_tool_output_bytes settings /\ 0 < max_run_packet_bytes settings.

Lemma applied_only_ids a d : an_tasks a <> [] -> (length (omap as_dict (default [] (get_list "tasks" d))) < length (an_tasks a))%nat ->
  NoDup (an_tasks a).*1 -> only_ids (apply_anchors d a).
Proof.
  intros Ha Hlen Hn. unfold only_ids, apply_anchors. set (p1 := match an_run_id a with Some id => aset "run_id" (JStr id) d | None => d end).
  set (p2 := match an_event_id a with Some id => aset "event" _ p1 | None => p1 end).
  assert (get_list "tasks" p2 = get_list "tasks" d) as E2.
  { unfold p2, p1. destruct (an_event_id a), (an_run_id a); by rewrite ?get_list_aset. }
  destruct (an_tasks a) as [|t0 l]; [done|]. set (p3 := aset "tasks" _ p2).
  assert (forall p4, p4 = p3 \/ (exists v, p4 = aset "tool_results" v p3) -> exists t, JObj (task_min t) ∈ default [] (get_list "tasks" (order_packet_keys p4))) as H.
  { intros p4 Hp4. unfold order_packet_keys. rewrite get_list_order_keys. assert (get_list "tasks" p4 = get_list "tasks" p3) as ->
      by (destruct Hp4 as [->|[v ->]]; [done|by rewrite get_list_aset]).
    unfold p3. rewrite get_list_aset, decide_True by done. cbn [default]. rewrite E2.
    destruct (anchored_only_ids (default [] (get_list "tasks" d)) (t0 :: l) Hlen Hn) as [t Ht]. exists t. by apply (list_elem_of_fmap_2 JObj). }
  destruct (an_tool_call_ids a); apply H; [by left|right; by eexists].
Qed.

Lemma sanitized_only_ids packet d : let a := extract_audit_anchors packet in
  (200 < length (an_tasks a))%nat -> NoDup (an_tasks a).*1 ->
  estimate_size_bytes float_repr 8 200 (JObj (build_minimal_audit_packet a)) <= max_run_packet_bytes settings ->
  sanitize_for_audit float_repr redact_text settings packet = Ok d -> only_ids d.
Proof.
  cbv zeta. set (a := extract_audit_anchors packet). intros Hlen Hn Hsize. destruct caps as (H1 & H2 & H3).
  assert (an_tasks a <> []) as Ha by (intros E; rewrite E in Hlen; cbn in Hlen; lia).
  assert (only_ids (with_truncation_marker (build_minimal_audit_packet a))) as Hmin.
  { unfold only_ids, with_truncation_marker. destruct a as [run event [|t l] calls]; [done|]. exists t.
    unfold build_minimal_audit_packet. cbn [an_run_id an_event_id an_tasks an_tool_call_ids].
    destruct (is_set _); rewrite ?get_list_aset; destruct run, event; cbn; left. }
  unfold sanitize_for_audit. fold a. rewrite (proj2 (Z.ltb_ge _ _)) by done.
  intros (prepared & _ & E)%res_bind_Ok. apply res_bind_Ok in E as (s & Es & E).
  destruct s as [| | | | | |o|]; try (by injection E as <-).
  assert (length (omap as_dict (default [] (get_list "tasks" o))) <= 200)%nat as Ho
    by (unfold redact in Es; cbn [redact_value rd_max_depth default_redactor] in Es; by apply truncated_tasks_few in Es).
  destruct (_ <=? _); [injection E as <-; apply applied_only_ids; [done|lia|done]|].
  unfold reanchor in E. apply res_bind_Ok in E as (v & Ev & E). destruct v as [| | | | | |o'|]; try (by injection E as <-).
  apply truncated_tasks_few in Ev; [|done]. change (rd_max_items default_redactor) with 200%nat in Ev. destruct (_ <=? _); injection E as <-; [|done]. apply applied_only_ids; [done|lia|done].
Qed.

Lemma only_ids_invalid d p : only_ids d -> RunPacket_of_dict float_repr lax_int fresh now_ms d <> Ok p.
Proof.
  intros [t Ht] E. unfold RunPacket_of_dict in E. vld_inv.
  match goal with H : (_ ← _; validate_tasks _) = Ok _ |- _ => apply res_bind_Ok in H as (l & Hl & _) end.
  unfold defaulted in Hl. unfold get_list in Ht. destruct (aget "tasks" d) as [v|]; [|by inversion Ht].
  apply of_list_Ok in Hl as (items & -> & Hl). cbn [default] in Ht. apply list_elem_of_lookup in Ht as (i & Hi).
  destruct (Forall2_lookup_l _ _ _ _ _ Hl Hi) as (b & _ & loc & Hb). cbn [of_dict mbind res_bind] in Hb. unfold Task_of_dict in Hb. vld_inv.
  match goal with H : required_id "run_id" _ = Ok _ |- _ => revert H end. unfold required_id, required. by destruct t as [x [o|]].
Qed.

(** a run of more than 200 tasks cannot be stored. A packet may have up to
    500 tasks, but sanitising keeps 200 items of a list and puts the identifiers of
    the others back, which are no valid tasks: whatever the sizes, the repository
    refuses every packet of more than 200 tasks, and writes nothing. *)
Theorem many_tasks_never_stored remember p s : (200 < length (pk_tasks p))%nat -> NoDup (task_id <$> pk_tasks p) ->
  estimate_size_bytes float_repr 8 200 (JObj (build_minimal_audit_packet (extract_audit_anchors (RunPacket_dump p)))) <= max_run_packet_bytes settings ->
  exists e, RunPacketRepo.create float_repr redact_text settings lax_int fresh now_ms remember p s = (Raise e, s).
Proof.
  intros Hlen Hn Hsize. unfold RunPacketRepo.create. destruct (is_set _); [cbn [negb]|by eexists].
  destruct (sanitize_for_audit float_repr redact_text settings (RunPacket_dump p)) as [d|e] eqn:Ed; [cbn [mbind res_bind]|by eexists].
  apply sanitized_only_ids in Ed as [t Ht]; [|by rewrite dump_anchors; cbn [an_tasks]; rewrite length_map|..|done].
  - unfold RunPacketRepo.validated. destruct (RunPacket_of_dict _ _ _ _ _) as [q|e] eqn:Eq; [|by eexists].
    apply only_ids_invalid in Eq; [done|]. exists t. unfold get_list in *. by rewrite row_columns_keeps by set_solver.
  - rewrite dump_anchors. cbn [an_tasks]. rewrite <- list_fmap_compose. by apply Hn.
Qed.
End many.
(** ** A concrete packet *)
Definition sample_packet_of (tasks : list Task) : RunPacket :=
  mkRunPacket (sample_uuid "c") None (sample_event 7 [("token", JStr "t-1"); ("note", JStr "n")]) [("action", JStr "fast_tasks")] []
    tasks [] [] 1000 None None.
Definition one_task : RunPacket := sample_packet_of [sample_task].
Definition default_settings : audit_settings := mkAuditSettings 64000 64000 512000.
Definition sample_store : store :=
  mkStore (mkEventTables [] []) (mkTables [sample_uuid "c"] [] [] [] []) [(sample_uuid "c", mkRunRecord (sample_uuid "c") None 1000 None None)] [] [].

Lemma sized_of float_repr cap v n : json_bytes float_repr v = Ok n -> n <=? cap = true -> sized float_repr cap v.
Proof. intros E H. exists n. split; [done|]. by apply Z.leb_le. Qed.
Lemma one_task_ok : packet_ok (fun _ => "") one_task.
Proof.
  split; [reflexivity|discriminate| | |discriminate|by repeat constructor|constructor|constructor|done|];
    (eapply sized_of; vm_compute; reflexivity).
Qed.
Lemma one_task_event_ok : valid_event (fun _ => "") DEFAULT_MAX_PAYLOAD_BYTES (pk_event one_task).
Proof.
  split; try (by vm_compute); try (by split; vm_compute); try done.
  eexists. split; [vm_compute; reflexivity|vm_compute; discriminate].
Qed.

Lemma run_packet_roundtrip_witness : RunPacket_of_dict (fun _ => "") (fun _ => Raise AssertionError) (fun _ => "") 0 (RunPacket_dump one_task) = Ok one_task.
Proof.
  apply (run_packet_roundtrip (fun _ => "") (fun _ => Raise AssertionError) (fun _ => "") 0 one_task).
  - apply one_task_ok.
  - apply one_task_event_ok.
  - apply Forall_cons_2; [apply sample_task_valid|apply Forall_nil_2].
Defined.

Definition sample_create (p : RunPacket) : res RunPacket * store :=
  RunPacketRepo.create (fun _ => "") id default_settings (fun _ => Raise AssertionError) (fun _ => "") 0 None p sample_store.
Lemma stored_packet_identifies_witness : exists stored s', sample_create one_task = (Ok stored, s') /\
  pk_run_id stored = sample_uuid "c" /\ ev_payload (pk_event stored) = [("token", JStr "<redacted>"); ("note", JStr "n")] /\
  (exists t, t ∈ pk_tasks stored /\ task_id t = task_id sample_task).
Proof.
  destruct (sample_create one_task) as [[stored|e] s'] eqn:E; [|vm_compute in E; discriminate].
  destruct (stored_packet_identifies (fun _ => "") id default_settings (fun _ => Raise AssertionError) (fun _ => "") 0 None one_task sample_store stored s')
    as (_ & Hrun & _ & Ht & _).
  - split; [reflexivity|split; reflexivity].
  - vm_compute. reflexivity.
  - vm_compute. reflexivity.
  - apply Forall_cons_2; [vm_compute; reflexivity|apply Forall_nil_2].
  - vm_compute. discriminate.
  - exact E.
  - exists stored, s'. split; [reflexivity|]. split; [exact Hrun|]. split; [|exact (Ht sample_task ltac:(left))].
    vm_compute in E. injection E as <- _. reflexivity.
Defined.


(** 201 tasks, which the packet itself allows. *)
Definition many_tasks : list Task :=
  map (fun i => mkTask (str_of_Z (Z.of_nat i)) (sample_uuid "c") "t" TaskStatus.PENDING None 0 1 60 [] 1000 None None [] []) (seq 0 201).
Lemma many_tasks_never_stored_witness : is_ok (RunPacket_new (fun _ => "") (sample_packet_of many_tasks)) = true /\
  exists e, sample_create (sample_packet_of many_tasks) = (Raise e, sample_store).
Proof.
  split; [vm_compute; reflexivity|].
  apply (many_tasks_never_stored (fun _ => "") id default_settings (fun _ => Raise AssertionError) (fun _ => "") 0).
  - split; [reflexivity|split; reflexivity].
  - vm_compute. repeat constructor.
  - apply (bool_decide_unpack _). vm_compute. exact I.
  - vm_compute. discriminate.
Defined.
