(* ===== verification/Outcomes.v ===== *)
(** * What an execution means for its task: [executor/service/outcomes.py],
    [state_transitions.py]

    The disposition of an outcome and the state transition it asks for. The
    results: which transitions are possible from a consistent task and tool
    call, what they make of them, and the two situations the lifecycle does not
    allow, a retry and a pending task that turn out to need an approval. *)

From Stdlib Require Import ZArith SpecFloat Lia.
From S2P Require Import Prelude PyFloat Uuid Models Lifecycle Decision Approvals Retries Enforcement.

Module ExecutionDisposition.
Inductive t := CACHED | SUCCEEDED | FAILED_TRANSIENT | FAILED_PERMANENT | WAITING_APPROVAL | DENIED | CANCELED.

#[global] Instance eq_dec : EqDecision t.
Proof. solve_decision. Defined.

Definition value (d : t) : string :=
  match d with
  | CACHED => "cached" | SUCCEEDED => "succeeded" | FAILED_TRANSIENT => "failed_transient"
  | FAILED_PERMANENT => "failed_permanent" | WAITING_APPROVAL => "waiting_approval" | DENIED => "denied"
  | CANCELED => "canceled"
  end.
End ExecutionDisposition.

Definition did_attempt_tool_run (o : ToolExecutionOutcome) : bool :=
  match pd_action (oc_decision o) with
  | PolicyAction.ALLOW => true
  | PolicyAction.REQUIRE_APPROVAL => bool_decide (oc_approval_status o = Some ApprovalStatus.APPROVED)
  | PolicyAction.DENY => false
  end.

(** [log2] is that of [exponential_backoff_s]. *)
Definition classify_outcome (log2 : spec_float -> spec_float) (task : Task) (o : ToolExecutionOutcome)
    (policy : RetryPolicy) : res (ExecutionDisposition.t * option spec_float) :=
  if bool_decide (status task = TaskStatus.CANCELED) then Ok (ExecutionDisposition.CANCELED, None)
  else if bool_decide (oc_approval_status o = Some ApprovalStatus.DENIED) then Ok (ExecutionDisposition.DENIED, None)
  else if bool_decide (pd_action (oc_decision o) = PolicyAction.DENY) then Ok (ExecutionDisposition.DENIED, None)
  else if ok (oc_result o) then Ok (ExecutionDisposition.SUCCEEDED, None)
  else match classify policy (oc_result o) with
  | APPROVAL_REQUIRED => Ok (ExecutionDisposition.WAITING_APPROVAL, None)
  | TRANSIENT =>
      retry_after_s ← exponential_backoff_s log2 (Z.max 1 (attempts task)) (base_delay_s policy) (max_delay_s policy);
      Ok (ExecutionDisposition.FAILED_TRANSIENT, Some retry_after_s)
  | PERMANENT => Ok (ExecutionDisposition.FAILED_PERMANENT, None)
  end.

(** [start_execution] unless both run already. *)
Definition ensure_started (task : Task) (c : ToolCall) (now_ms : Z) : res ExecutionState :=
  if bool_decide (status task <> TaskStatus.RUNNING) || bool_decide (tc_status c <> ToolCallStatus.RUNNING)
  then start_execution task c now_ms
  else Ok (mkExecutionState task c).

Definition apply_state_transition (task : Task) (c : ToolCall) (d : ExecutionDisposition.t) (now_ms : Z)
  : res ExecutionState :=
  match d with
  | ExecutionDisposition.WAITING_APPROVAL => mark_waiting_approval task c
  | ExecutionDisposition.DENIED =>
      if bool_decide (tc_status c = ToolCallStatus.PENDING) then complete_denied task c now_ms
      else complete_canceled task c now_ms
  | ExecutionDisposition.CANCELED => complete_canceled task c now_ms
  | ExecutionDisposition.SUCCEEDED =>
      s ← ensure_started task c now_ms; complete_succeeded (es_task s) (es_tool_call s) now_ms
  | ExecutionDisposition.FAILED_TRANSIENT | ExecutionDisposition.FAILED_PERMANENT =>
      s ← ensure_started task c now_ms; complete_failed (es_task s) (es_tool_call s) now_ms
  | ExecutionDisposition.CACHED => Raise (ValueError "unhandled disposition: cached")
  end.

(** ** What the transitions make of a task *)
Definition target_status (d : ExecutionDisposition.t) : TaskStatus.t :=
  match d with
  | ExecutionDisposition.CACHED | ExecutionDisposition.SUCCEEDED => TaskStatus.SUCCEEDED
  | ExecutionDisposition.FAILED_TRANSIENT | ExecutionDisposition.FAILED_PERMANENT => TaskStatus.FAILED
  | ExecutionDisposition.WAITING_APPROVAL => TaskStatus.WAITING_APPROVAL
  | ExecutionDisposition.DENIED | ExecutionDisposition.CANCELED => TaskStatus.CANCELED
  end.

Lemma complete_with_status ts tk t c now s' : complete_with ts tk t c now = Ok s' ->
  tk <> TaskStatus.RUNNING -> status (es_task s') = tk.
Proof.
  unfold complete_with. intros (c' & _ & (t' & Ht & [= <-])%res_bind_Ok)%res_bind_Ok Hk. cbn.
  unfold transition_task in Ht. res_inv. unfold starts_attempt in *. rewrite bool_decide_false in * by done. cbn [andb] in *.
  simplify_eq. match goal with H : Task_model_validate _ = Ok _ |- _ => unfold Task_model_validate, Task_fields in H end.
  vld_inv. done.
Qed.

Lemma transition_task_status t s t' : transition_task t s = Ok t' -> status t' = s.
Proof.
  unfold transition_task. intros Ht. res_inv.
  match goal with H : (if _ then _ else _) = Ok ?u |- _ => assert (status u = s) as Hu
    by (destruct (starts_attempt _ _); res_inv; done) end.
  match goal with H : Task_model_validate _ = Ok _ |- _ => unfold Task_model_validate, Task_fields in H end.
  vld_inv. done.
Qed.

Lemma apply_status t c d now s' : apply_state_transition t c d now = Ok s' -> status (es_task s') = target_status d.
Proof.
  assert (forall tt c0, mark_waiting_approval tt c0 = Ok s' -> status (es_task s') = TaskStatus.WAITING_APPROVAL) as Hw.
  { intros tt c0 (t' & Ht & [= <-])%res_bind_Ok. by eapply transition_task_status. }
  destruct d; cbn [apply_state_transition target_status]; intros E; [done|..].
  1-3: apply res_bind_Ok in E as (s & _ & E); by apply complete_with_status in E.
  - by eapply Hw.
  - destruct (bool_decide _); by apply complete_with_status in E.
  - by apply complete_with_status in E.
Qed.

Lemma transition_task_valid t s t' : transition_task t s = Ok t' -> valid_task t'.
Proof. unfold transition_task. intros Ht. res_inv. by eapply Task_model_validate_valid. Qed.
Lemma complete_with_valid ts tk t c now s' : complete_with ts tk t c now = Ok s' -> valid_task (es_task s').
Proof. unfold complete_with. intros (c' & _ & (t' & Ht & [= <-])%res_bind_Ok)%res_bind_Ok. by eapply transition_task_valid. Qed.

Lemma apply_valid t c d now s' : apply_state_transition t c d now = Ok s' -> valid_task (es_task s').
Proof.
  destruct d; cbn [apply_state_transition]; intros E; [done|..].
  1-3: apply res_bind_Ok in E as (s & _ & E); by apply complete_with_valid in E.
  - apply res_bind_Ok in E as (t' & Ht & [= <-]). by eapply transition_task_valid.
  - destruct (bool_decide _); by apply complete_with_valid in E.
  - by apply complete_with_valid in E.
Qed.

(** A task that can be started at [now]. *)
Definition startable (t : Task) (c : ToolCall) (now : Z) : Prop :=
  status t ∈ [TaskStatus.PENDING; TaskStatus.QUEUED; TaskStatus.FAILED] /\
  tc_status c ∈ [ToolCallStatus.PENDING; ToolCallStatus.FAILED] /\
  attempts t < max_attempts t /\ created_at_ms t <= now /\ tc_created_at_ms c <= now.

(** A task that runs and whose clock readings [now] does not precede. *)
Definition running_since (t : Task) (c : ToolCall) (now : Z) : Prop :=
  status t = TaskStatus.RUNNING /\ not_before (started_at_ms t) now /\ not_before (tc_started_at_ms c) now.

Definition cancelable (t : Task) (c : ToolCall) (now : Z) : Prop :=
  TaskStatus.CANCELED ∈ TASK_ALLOWED_TRANSITIONS (status t) /\
  tc_status c ∈ [ToolCallStatus.PENDING; ToolCallStatus.RUNNING; ToolCallStatus.FAILED] /\
  timestamps_ok (tc_created_at_ms c) (tc_started_at_ms c) (Some now) /\
  timestamps_ok (created_at_ms t) (started_at_ms t) (Some now).

Definition transition_possible (d : ExecutionDisposition.t) (t : Task) (c : ToolCall) (now : Z) : Prop :=
  match d with
  | ExecutionDisposition.CACHED => False
  | ExecutionDisposition.SUCCEEDED | ExecutionDisposition.FAILED_TRANSIENT | ExecutionDisposition.FAILED_PERMANENT =>
      startable t c now \/ running_since t c now
  | ExecutionDisposition.WAITING_APPROVAL => status t ∈ [TaskStatus.QUEUED; TaskStatus.RUNNING]
  | ExecutionDisposition.DENIED | ExecutionDisposition.CANCELED => cancelable t c now
  end.

Section possible.
Variables (s : ExecutionState) (now : Z).
Hypothesis Hs : exec_ok s.
Let t := es_task s.
Let c := es_tool_call s.

Lemma finish_iff (good : bool) :
  (exists s', (s1 ← ensure_started t c now;
     (if good then complete_succeeded else complete_failed) (es_task s1) (es_tool_call s1) now) = Ok s') <->
  startable t c now \/ running_since t c now.
Proof.
  pose proof (exec_ok_call _ Hs) as Hc. pose proof (ok_task _ Hs) as Ht.
  assert (forall s1, (if good then complete_succeeded else complete_failed) (es_task s1) (es_tool_call s1) now =
    complete_with (if good then ToolCallStatus.SUCCEEDED else ToolCallStatus.FAILED)
      (if good then TaskStatus.SUCCEEDED else TaskStatus.FAILED) (es_task s1) (es_tool_call s1) now) as Hf by by destruct good.
  unfold ensure_started. destruct (decide (status t = TaskStatus.RUNNING)) as [Hr|Hr].
  - destruct (running_call s Hs Hr) as [Hcr _].
    rewrite !bool_decide_false by (intros Hn; by apply Hn). cbn [orb mbind res_bind]. split.
    + intros [s' E]. rewrite Hf in E. apply (complete_running_iff good s now s' Hs) in E as (_ & H1 & H2 & _).
      right. by split_and!.
    + intros [(Hin & _)|(_ & H1 & H2)]; [unfold t in *; rewrite Hr in Hin; set_solver|].
      eexists. rewrite Hf. apply (complete_running_iff good s now _ Hs). by split_and!.
  - rewrite bool_decide_true by done. cbn [orb]. split.
    + intros [s' (s1 & E1 & _)%res_bind_Ok]. left. by apply start_execution_iff in E1 as [E1 _].
    + intros [Hst|[? _]]; [|done].
      assert (start_execution t c now = Ok (mkExecutionState (task_running t (call_running c now) now) (call_running c now))) as E1
        by by apply start_execution_iff.
      rewrite E1. cbn [mbind res_bind]. pose proof (start_execution_ok _ _ _ Hs E1) as Hs1.
      eexists. rewrite Hf. apply (complete_running_iff good _ now _ Hs1). cbn.
      split; [done|]. split; [by intros v [= <-]|]. split; [by intros v [= <-]|done].
Qed.

Lemma cancel_iff (deny : bool) : (deny = true -> tc_status c = ToolCallStatus.PENDING) ->
  (exists s', (if deny then complete_denied else complete_canceled) t c now = Ok s') <-> cancelable t c now.
Proof.
  intros Hd. pose proof (exec_ok_call _ Hs) as Hc. pose proof (ok_task _ Hs) as Ht.
  pose proof (ok_call_consistent _ Hs) as Hcc. fold c in Hcc, Hc. fold t in Ht.
  assert ((if deny then complete_denied else complete_canceled) t c now =
    complete_with (if deny then ToolCallStatus.DENIED else ToolCallStatus.CANCELED) TaskStatus.CANCELED t c now) as ->
    by by destruct deny.
  setoid_rewrite complete_with_iff; [|done|done|by destruct deny|done]. unfold cancelable. split.
  - intros (s' & (H1 & H2 & H3 & H4 & _) & _). split_and!; try done.
    destruct deny, (tc_status c); cbn in H1; set_solver.
  - intros (H1 & H2 & H3 & H4). eexists. split; [|done]. split_and!; try done.
    + destruct deny; [rewrite Hd by done; cbn; set_solver|]. destruct (tc_status c); cbn; set_solver.
    + unfold tool_call_consistent in *. destruct deny; cbn; [|done]. rewrite Hd in Hcc by done. by split; [apply Hcc|].
    + unfold task_consistent, if_call. cbn. split; [done|]. destruct deny; set_solver.
Qed.

Lemma wait_iff : (exists s', mark_waiting_approval t c = Ok s') <-> status t ∈ [TaskStatus.QUEUED; TaskStatus.RUNNING].
Proof.
  pose proof (exec_ok_call _ Hs) as Hc. pose proof (ok_task _ Hs) as Ht. pose proof (ok_call_consistent _ Hs) as Hcc.
  pose proof (ok_task_consistent _ Hs) as Htc. pose proof (ok_link _ Hs) as Hl. fold t c in Hc, Ht, Hcc, Htc, Hl.
  unfold mark_waiting_approval. split.
  - intros [s' (t' & E & _)%res_bind_Ok]. apply transition_task_iff in E as (Hin & _); [|auto with py]. cbn in Hin.
    destruct (status t); cbn in Hin; set_solver.
  - intros Hst. eexists. apply res_bind_Ok. eexists. split; [|done].
    apply transition_task_iff; [auto with py|].
    rewrite not_running_updated, not_running_no_attempt by done. cbn [status task_set_tool_call].
    split; [destruct (status t); cbn; set_solver|]. split; [done|]. split; [done|]. split.
    + destruct Ht. split; cbn; try done. by intros ? [= <-].
    + unfold task_consistent, tool_call_consistent, with_call, was_attempted in *. rewrite Hl in *. cbn.
      assert (status t = TaskStatus.QUEUED \/ status t = TaskStatus.RUNNING) as [E|E] by (clear -Hst; set_solver);
        rewrite E in Htc; destruct Htc as (Hc1 & H1 & H2); rewrite Hc1 in Hcc; destruct Hcc as [Hcc1 Hcc2].
      * split; [done|]. split; [done|]. by left.
      * split; [done|]. split; [done|]. by right.
Qed.

Lemma transition_iff d : (exists s', apply_state_transition t c d now = Ok s') <-> transition_possible d t c now.
Proof.
  destruct d; cbn [apply_state_transition transition_possible].
  - split; [by intros [s' E]|done].
  - apply (finish_iff true).
  - apply (finish_iff false).
  - apply (finish_iff false).
  - apply wait_iff.
  - case_bool_decide; [apply (cancel_iff true)|apply (cancel_iff false)]; done.
  - apply (cancel_iff false). done.
Qed.

Lemma transition_ok d s' : apply_state_transition t c d now = Ok s' -> exec_ok s'.
Proof.
  destruct d; cbn [apply_state_transition]; try done.
  1-3: intros (s1 & E1 & E)%res_bind_Ok.
  1-3: assert (exec_ok s1) as Hs1 by (unfold ensure_started in E1; destruct (_ || _) in E1;
    [by eapply start_execution_ok|injection E1 as <-; by destruct s]).
  1-3: by apply (complete_with_ok _ _ _ _ _ Hs1 E).
  - intros E. apply (exec_run_ok OpWait s); [done|]. by destruct s.
  - case_bool_decide; apply (complete_with_ok _ _ _ _ _ Hs).
  - apply (complete_with_ok _ _ _ _ _ Hs).
Qed.
End possible.

(** ** Properties *)

(** which dispositions a task can take, exactly. On a consistent task and
    tool call the transition succeeds if and only if: for a success or a
    failure, the pair can be started now or runs since before now; for a wait,
    the task is queued or running; for a denial or a cancellation, the task is
    not final and its tool call not complete. Whenever it succeeds the pair is
    consistent again and the task has the status of the disposition; and a
    CACHED disposition is never applied. *)
Theorem outcome_transition_spec s d now : exec_ok s ->
  ((exists s', apply_state_transition (es_task s) (es_tool_call s) d now = Ok s') <->
   transition_possible d (es_task s) (es_tool_call s) now) /\
  (forall s', apply_state_transition (es_task s) (es_tool_call s) d now = Ok s' ->
     exec_ok s' /\ status (es_task s') = target_status d).
Proof.
  intros Hs. split; [by apply transition_iff|]. intros s' E. split; [by eapply transition_ok|by eapply apply_status].
Qed.

(** A running task whose tool call failed before, and the sample task run once. *)
Definition failed_once : ExecutionState := exec_all [OpStart 1005; OpFail 1010] sample_state.

Lemma failed_once_ok : exec_ok failed_once.
Proof. apply exec_all_ok, sample_state_ok. Qed.

Lemma outcome_transition_spec_witness : exists s',
  apply_state_transition (es_task failed_once) (es_tool_call failed_once) ExecutionDisposition.SUCCEEDED 1020 = Ok s' /\
  status (es_task s') = TaskStatus.SUCCEEDED.
Proof.
  destruct (outcome_transition_spec failed_once ExecutionDisposition.SUCCEEDED 1020 failed_once_ok) as [H1 H2].
  destruct (proj2 H1) as [s' E].
  - left. vm_compute. split; [right; right; left|split; [right; left|]]. split; [reflexivity|]. split; discriminate.
  - exists s'. split; [exact E|]. apply H2. exact E.
Defined.

(** a retry cannot wait for an approval. When a failed task is executed
    again and policy now asks for an approval (the classification of an
    outcome with [error_code] "approval_required"), the transition raises
    whatever the clock says, so the outcome is not persisted. *)
Theorem retry_cannot_wait log2 policy s o now d : exec_ok s -> status (es_task s) = TaskStatus.FAILED ->
  ok (oc_result o) = false -> error_code (oc_result o) = Some "approval_required" ->
  pd_action (oc_decision o) = PolicyAction.REQUIRE_APPROVAL -> oc_approval_status o = Some ApprovalStatus.PENDING ->
  classify_outcome log2 (es_task s) o policy = Ok d ->
  d = (ExecutionDisposition.WAITING_APPROVAL, None) /\
  is_ok (apply_state_transition (es_task s) (es_tool_call s) d.1 now) = false.
Proof.
  intros Hs Hf Ho Hc Ha Hp. unfold classify_outcome. rewrite Hf, Hp, Ha, Ho. cbn. unfold classify. rewrite Ho, Hc.
  cbn. intros [= <-]. split; [done|]. cbn [fst].
  destruct (apply_state_transition _ _ _ _) as [s'|e] eqn:E; [|done].
  assert (transition_possible ExecutionDisposition.WAITING_APPROVAL (es_task s) (es_tool_call s) now) as H
    by (apply transition_iff; [done|by exists s']).
  cbn in H. rewrite Hf in H. set_solver.
Qed.

Definition waiting_outcome (s : ExecutionState) : ToolExecutionOutcome :=
  mkOutcome (tool_call_id (es_tool_call s)) (tool_name (es_tool_call s))
    (mkPolicyDecision PolicyAction.REQUIRE_APPROVAL "approval_required" None None [])
    (mkToolResult false None (Some "approval_required") (Some "approval required") None None) None
    (Some (sample_uuid "d")) (Some ApprovalStatus.PENDING).

Lemma retry_cannot_wait_witness : forall policy,
  is_ok (apply_state_transition (es_task failed_once) (es_tool_call failed_once) ExecutionDisposition.WAITING_APPROVAL 1020) = false
  /\ classify_outcome (fun x => x) (es_task failed_once) (waiting_outcome failed_once) policy =
     Ok (ExecutionDisposition.WAITING_APPROVAL, None).
Proof.
  intros policy. split; [|vm_compute; reflexivity].
  apply (retry_cannot_wait (fun x => x) policy failed_once (waiting_outcome failed_once) 1020
    (ExecutionDisposition.WAITING_APPROVAL, None) failed_once_ok); vm_compute; reflexivity.
Defined.
