(* ===== verification/Executor.v ===== *)
(** * The executor: [executor/service/]

    [ExecutorService]: a leased task is loaded, checked, executed through the
    enforcement boundary, and its outcome is persisted before the lease is
    acknowledged or sent back. The state is the world of Enforcement whose
    store of approvals lives in the same database as the tasks, with the queue
    and the executor's own counters as its client. Units of work that raise are
    undone. The run packets of the audit trail are the database's own
    ([Database]); spans, metrics and the concurrency limiter do not change what
    is computed for one task. The results: a lease is settled exactly once and
    only by a call that returns, a tool runs at most once per lease and only
    for an attempt that was counted, and the report agrees with the database. *)

From Stdlib Require Import ZArith SpecFloat Lia.
From S2P Require Import Prelude PyFloat PyText Uuid Models Lifecycle Envelope QueueSpec RateLimit CircuitBreaker Decision.
From S2P Require Import Policy Guards Retries Dependencies Approvals Tools Enforcement Outcomes Rows Repos TaskQueue.

(** ** [types.py] *)
Record ExecutionReport := mkReport {
  rp_task_id : string;
  rp_run_id : string;
  rp_tool_call_id : string;
  rp_tool_name : string;
  rp_idempotency_key : string;
  rp_disposition : ExecutionDisposition.t;
  rp_used_cached_result : bool;
  rp_retry_after_s : option spec_float;
  rp_decision : option PolicyDecision;
  rp_result : ToolResult;
  rp_approval_id : option string;
  rp_approval_status : option ApprovalStatus.t;
}.

(** What [append_audit] is told. *)
Record audit_entry := mkAuditEntry {
  au_task : Task;
  au_tool_call : ToolCall;
  au_decision : PolicyDecision;
  au_result : ToolResult;
  au_disposition : ExecutionDisposition.t;
  au_retry_after_s : option spec_float;
  au_will_retry : bool;
  au_approval_id : option string;
  au_approval_status : option ApprovalStatus.t;
  au_guard_decision : option GuardDecision;
  au_now_ms : Z;
}.

(** The database: the tables, and the run packets beside them. *)
Class Database (D : Type) := {
  db_tables : D -> tables;
  with_tables : tables -> D -> D;
  append_audit : audit_entry -> st D unit;
  upsert_task_snapshots : Task -> list Task -> Z -> st D unit;
}.

(** The tables are one part of the database, and the run packets another. *)
Class DatabaseLaws (D : Type) `{Database D} : Prop := {
  tables_with : forall t d, db_tables (with_tables t d) = t;
  with_same_tables : forall d, with_tables (db_tables d) d = d;
  audit_keeps_tables : forall e d r d', append_audit e d = (r, d') -> db_tables d' = db_tables d;
  snapshots_keep_tables : forall t ts n d r d', upsert_task_snapshots t ts n d = (r, d') -> db_tables d' = db_tables d;
}.

(** An approval store in this database leaves the rows of tasks alone. *)
Class ApprovalsKeepTasks (D : Type) `{Database D} `{ApprovalStore D} : Prop := {
  lookup_keeps_tasks : forall id d r d', get_by_tool_call id d = (r, d') -> task_rows (db_tables d') = task_rows (db_tables d);
  request_keeps_tasks : forall a d r d', create_pending a d = (r, d') -> task_rows (db_tables d') = task_rows (db_tables d);
  get_keeps_tasks : forall id d r d', get_approval id d = (r, d') -> task_rows (db_tables d') = task_rows (db_tables d);
}.

(** What the service did with a lease. *)
Inductive settlement :=
| Acked (l : Lease)
| Nacked (l : Lease) (delay_s : spec_float) (reason : string).

Record client (Q : Type) := mkClient {
  x_queue : Q;
  x_clock_reads : nat;
  x_queue_calls : nat;
  x_task : option (Task * ToolCall);
  x_settled : list settlement;
}.
Arguments mkClient {Q}.
Arguments x_queue {Q}.
Arguments x_clock_reads {Q}.
Arguments x_queue_calls {Q}.
Arguments x_task {Q}.
Arguments x_settled {Q}.

Section executor.
Context {G D Q : Type} `{Database D} `{ApprovalStore D} `{QueueOps Q}.
Notation world := (world G D (client Q)).

(** What the service is built from. *)
Variable registry : ToolRegistry.t.
Variable guard_chain : list (guard G).
Variable rules : list (string * rule).
Variable policy_ctx : PolicyContext.

Variable retry_policy : RetryPolicy.
(** [int(time.time() * 1000)], the executor's clock and the queue's clock *)
Variables wall_clock clock queue_clock : nat -> Z.
Variable uuid4 : nat -> string.
Variable build_payload_hash_for_args : list (string * json) -> string.
Variable build_preview : ToolCall -> ToolSpec -> parsed_args -> PolicyDecision -> string.
Variable run_tool : list (string * list (string * json)) -> string -> list (string * json) -> ToolContext -> res ToolResult.
(** [record_result] of the circuit breaker, when there is one, and the host name
    the key is made with *)
Variable breaker : option (CircuitBreaker.CircuitBreakerKey -> bool -> spec_float -> st G unit).
Variable destination : list (string * json) -> option string.
(** equality of arguments as dictionaries; [sanitize_tool_output] of the ledger *)
Variable args_eq : list (string * json) -> list (string * json) -> bool.
Variable sanitize : json -> json.
(** [math.log2], [float(text)] *)
Variable log2 : spec_float -> spec_float.
Variable float_of_text : string -> option spec_float.
(** the event id and the trace carrier of the context *)
Variable event_id : option string.
Variable otel : list (string * json).

(** ** Parts of the world *)
Definition set_approvals (d : D) (w : world) : world :=
  mkWorld (w_guards w) d (w_client w) (w_ticks w) (w_drawn w) (w_runs w).
Definition set_client (x : client Q) (w : world) : world :=
  mkWorld (w_guards w) (w_approvals w) x (w_ticks w) (w_drawn w) (w_runs w).

Definition on_db {B} (m : st D B) : st world B := on_approvals m.
Definition on_tables {B} (m : st tables B) : st world B :=
  on_db (fun d => let '(r, t) := m (db_tables d) in (r, with_tables t d)).

(** [async with uow]: what the body did to the database is undone when it raises. *)
Definition uow {B} (body : st world B) : st world B := fun w =>
  match body w with
  | (Ok b, w') => (Ok b, w')
  | (Raise e, w') => (Raise e, set_approvals (w_approvals w) w')
  end.

(** [try: m except Exception: k] *)
Definition catch {B} (m : st world B) (k : exn -> st world B) : st world B := fun w =>
  match m w with (Ok b, w') => (Ok b, w') | (Raise e, w') => k e w' end.

Definition now_ms : st world Z := fun w =>
  let x := w_client w in
  (Ok (clock (x_clock_reads x)),
   set_client (mkClient (x_queue x) (S (x_clock_reads x)) (x_queue_calls x) (x_task x) (x_settled x)) w).
Definition set_task (p : option (Task * ToolCall)) : st world unit := fun w =>
  let x := w_client w in
  (Ok tt, set_client (mkClient (x_queue x) (x_clock_reads x) (x_queue_calls x) p (x_settled x)) w).
Definition get_task (t : Task) (c : ToolCall) : st world (Task * ToolCall) := fun w =>
  (Ok (default (t, c) (x_task (w_client w))), w).

(** A queue operation at the queue's clock. *)
Definition on_queue {B} (m : Z -> st Q B) : st world B := fun w =>
  let x := w_client w in
  let '(r, q) := m (queue_clock (x_queue_calls x)) (x_queue x) in
  (r, set_client (mkClient q (x_clock_reads x) (S (x_queue_calls x)) (x_task x) (x_settled x)) w).
Definition settle (s : settlement) : st world unit := fun w =>
  let x := w_client w in
  (Ok tt, set_client (mkClient (x_queue x) (x_clock_reads x) (x_queue_calls x) (x_task x) (s :: x_settled x)) w).
Definition ack (l : Lease) : st world unit := on_queue (fun now => q_ack now l);; settle (Acked l).
Definition nack (l : Lease) (delay_s : spec_float) (reason : string) : st world unit :=
  on_queue (fun now => q_nack now l (Some delay_s));; settle (Nacked l delay_s reason).

(** ** [loading.py] *)
Definition load_task_and_tool_call (task_id : string) : st world (Task * ToolCall) :=
  uow (
    found ← on_tables (TaskRepo.get task_id);
    match found with
    | None => throw (TaskNotFound task_id)
    | Some t => match tool_call t with
                | None => throw (ToolCallMissing (Models.task_id t))
                | Some c => mret (t, c)
                end
    end).

Definition load_approval_status (tool_call_id : string) : st world (option string * option ApprovalStatus.t) :=
  uow (
    found ← on_tables (ApprovalRepo.get_by_tool_call tool_call_id);
    mret (match found with None => (None, None) | Some a => (Some (approval_id a), Some (ap_status a)) end)).

Definition list_run_tasks (run_id : string) : st world (list Task) := on_tables (TaskRepo.list_by_run run_id).

(** ** [persistence.py]: storing *)
Definition update_both (s : ExecutionState) : st world unit :=
  on_tables (ToolCallRepo.update args_eq (es_tool_call s));; on_tables (TaskRepo.update args_eq (es_task s));; mret tt.

Definition persist_started (t : Task) (c : ToolCall) : st world ExecutionState :=
  now ← now_ms;
  s ← lift (start_execution t c now);
  uow (update_both s);;
  mret s.

Definition persist_approval (id : string) : st world unit :=
  existing ← on_tables (ApprovalRepo.get id);
  match existing with
  | Some _ => mret tt
  | None =>
      found ← on_db (get_approval id);
      match found with
      | None => throw (ApprovalPersistError id)
      | Some a => on_tables (ApprovalRepo.create a);; mret tt
      end
  end.

Definition record_ledger (c : ToolCall) (r : ToolResult) (d : ExecutionDisposition.t) : st world unit :=
  outcome ← lift (Ledger.OutcomeToCache_new (tool_name c) r None);
  wall ← now wall_clock;
  if ok r then on_tables (Ledger.record_success sanitize wall (idempotency_key c) outcome)
  else on_tables (Ledger.record_failure sanitize wall (idempotency_key c) outcome
                    (bool_decide (d = ExecutionDisposition.FAILED_TRANSIENT))).

Definition is_tool_idempotent (name : string) : bool :=
  match ToolRegistry.get name registry with Ok tool => mf_idempotent (manifest tool) | Raise _ => false end.

(** ** [persistence.py]: the dependents of a task that succeeded *)
Definition persist_dependent_task_state (t : Task) (now : Z) : st world unit :=
  uow (on_tables (TaskRepo.update args_eq t);; on_db (upsert_task_snapshots t [t] now)).

(** A raise of the queue puts the dependent's row back. *)
Definition enqueue_ready_dependent (upstream_task_id : string) (now : Z) (t : Task) : st world unit :=
  queued ← lift (transition_task t TaskStatus.QUEUED);
  persist_dependent_task_state queued now;;
  fresh ← draw uuid4;
  envelope ← lift (dependency_ready_envelope event_id otel fresh queued now upstream_task_id);
  catch (on_queue (fun at_ms => q_enqueue at_ms envelope)) (fun _ =>
    persist_dependent_task_state t now;; throw (DependentEnqueueError (task_id t) upstream_task_id)).

Fixpoint for_each {A} (body : A -> st world unit) (l : list A) : st world unit :=
  match l with [] => mret tt | x :: l' => body x;; for_each body l' end.

Definition queue_ready_dependents_after_success (t : Task) (ready : option (list Task)) (at_ms : option Z) : st world unit :=
  now ← match at_ms with Some n => mret n | None => now_ms end;
  dependents ← match ready with
    | Some l => mret l
    | None => all ← uow (list_run_tasks (run_id t)); mret (ready_dependents_after_success t all)
    end;
  for_each (enqueue_ready_dependent (task_id t) now) dependents.

(** Cancels a blocked dependent that has a tool call; what was canceled. *)
Fixpoint cancel_dependents (now : Z) (blocked : list Task) : st world (list Task) :=
  match blocked with
  | [] => mret []
  | t :: rest =>
      match tool_call t with
      | None => cancel_dependents now rest
      | Some c =>
          s ← lift (complete_canceled t c now);
          update_both s;;
          canceled ← cancel_dependents now rest;
          mret (es_task s :: canceled)
      end
  end.

(** The search always ends ([blocked_dependents_spec]). *)
Definition blocked_dependents (t : Task) (all : list Task) : list Task :=
  default [] (blocked_dependents_after_failure t all).

(** ** [persistence.py]: the outcome *)

(** What becomes of the dependents, inside the unit of work; the ready ones. *)
Definition follow_up (t : Task) (will_retry : bool) (now : Z) : st world (list Task) :=
  all ← list_run_tasks (run_id t);
  if bool_decide (status t = TaskStatus.SUCCEEDED) then mret (ready_dependents_after_success t all)
  else if bool_decide (status t ∈ [TaskStatus.CANCELED; TaskStatus.FAILED]) && negb will_retry then
    canceled ← cancel_dependents now (blocked_dependents t all);
    match canceled with
    | [] => mret []
    | _ => on_db (upsert_task_snapshots t canceled now);; mret []
    end
  else mret [].

(** The unit of work of [persist_outcome]. *)
Definition store_outcome (name : string) (o : ToolExecutionOutcome) (s : ExecutionState) (d : ExecutionDisposition.t)
    (retry_after_s : option spec_float) (will_retry : bool) (now : Z) : st world (list Task) :=
  match oc_approval_id o with Some id => persist_approval id | None => mret tt end;;
  update_both s;;
  on_db (append_audit (mkAuditEntry (es_task s) (es_tool_call s) (oc_decision o) (oc_result o) d retry_after_s
    will_retry (oc_approval_id o) (oc_approval_status o) (oc_guard_decision o) now));;
  (if is_tool_idempotent name && did_attempt_tool_run o
   then record_ledger (es_tool_call s) (oc_result o) d else mret tt);;
  follow_up (es_task s) will_retry now.

Definition persist_outcome (t : Task) (c : ToolCall) (o : ToolExecutionOutcome) : st world ExecutionReport :=
  classified ← lift (classify_outcome log2 t o retry_policy);
  let '(disposition, retry_after_s) := classified in
  now ← now_ms;
  s ← lift (apply_state_transition t c disposition now);
  let will_retry := bool_decide (disposition = ExecutionDisposition.FAILED_TRANSIENT) &&
                    (attempts (es_task s) <? max_attempts (es_task s)) in
  ready ← uow (store_outcome (tool_name c) o s disposition retry_after_s will_retry now);
  (match ready with
   | [] => mret tt
   | _ => if bool_decide (status (es_task s) = TaskStatus.SUCCEEDED)
          then queue_ready_dependents_after_success (es_task s) (Some ready) (Some now) else mret tt
   end);;
  mret (mkReport (task_id (es_task s)) (run_id (es_task s)) (tool_call_id (es_tool_call s)) (tool_name (es_tool_call s))
    (idempotency_key (es_tool_call s)) disposition false retry_after_s (Some (oc_decision o)) (oc_result o)
    (oc_approval_id o) (oc_approval_status o)).

(** ** [circuit_breaker.py] *)
Definition record_circuit_breaker_result (c : ToolCall) (o : ToolExecutionOutcome) : st world unit :=
  match breaker with
  | None => mret tt
  | Some record_result =>
      if bool_decide (error_code (oc_result o) = Some EXECUTION_DELAYED_ERROR_CODE) then mret tt
      else if negb (did_attempt_tool_run o) then mret tt
      else
        key ← lift (CircuitBreaker.key_for_tool_call (tool_name c) (destination (args c)));
        now ← now_ms;
        now_s ← lift (seconds_of_ms now);
        catch (on_guards (record_result key (ok (oc_result o)) now_s)) (fun _ => mret tt)
  end.

(** ** [cache.py] *)
Definition report_of (t : Task) (c : ToolCall) (d : ExecutionDisposition.t) (used_cached : bool)
    (retry_after_s : option spec_float) (decision : option PolicyDecision) (result : ToolResult)
    (approval_id : option string) (approval_status : option ApprovalStatus.t) : ExecutionReport :=
  mkReport (task_id t) (run_id t) (tool_call_id c) (tool_name c) (idempotency_key c) d used_cached retry_after_s decision
    result approval_id approval_status.

Definition can_reuse_cached_success (t : Task) (tool : Tool) (c : ToolCall) : st world bool :=
  match ArgsModel tool (args c) with
  | Invalid _ => mret false
  | Valid parsed =>
      let spec := tool_spec_from_tool tool in
      d ← lift (gate_evaluate rules c spec parsed policy_ctx);
      if bool_decide (pd_action d <> PolicyAction.ALLOW) then mret false
      else
        g ← evaluate_guards guard_chain policy_ctx wall_clock (strip_or_none (run_id t)) c spec parsed None false;
        mret (bool_decide (gd_action g = GuardAction.ALLOW))
  end.

Definition cached_report (t : Task) (c : ToolCall) (cached : Ledger.CachedOutcome) : st world (option ExecutionReport) :=
  now ← now_ms;
  started ← lift (start_execution t c now);
  completed ← lift (complete_succeeded (es_task started) (es_tool_call started) now);
  update_both completed;;
  decision ← lift (PolicyDecision_allow "idempotency_cache" (Some "used cached successful outcome")
    (Some "executor.idempotency_ledger") [("idempotency_key", JStr (idempotency_key c))]);
  on_db (append_audit (mkAuditEntry (es_task completed) (es_tool_call completed) decision (Ledger.co_result cached)
    ExecutionDisposition.CACHED None false None None None now));;
  mret (Some (report_of t c ExecutionDisposition.CACHED true None (Some decision) (Ledger.co_result cached) None None)).

Definition maybe_use_cached_success (t : Task) (c : ToolCall) : st world (option ExecutionReport) :=
  match ToolRegistry.get (tool_name c) registry with
  | Raise (KeyError _) => mret None
  | Raise e => throw e
  | Ok tool =>
      if negb (mf_idempotent (manifest tool)) then mret None
      else uow (
        wall ← now wall_clock;
        cached ← on_tables (Ledger.get_success wall (idempotency_key c));
        match cached with
        | None => mret None
        | Some outcome =>
            if negb (Ledger.co_tool_name outcome =? tool_name c)%string then mret None
            else
              reusable ← can_reuse_cached_success t tool c;
              if (reusable : bool) then cached_report t c outcome else mret None
        end)
  end.

(** ** [core.py] *)

(** [tool_context_from_settings] in the correlation context of the task *)
Definition tool_context (t : Task) (c : ToolCall) : res ToolContext :=
  timeout ← float_of_int (timeout_s t);
  raise_if (negb (isfinite timeout)) (ValueError "timeout_s must be finite");;
  raise_if (fle timeout fzero) (ValueError "timeout_s must be > 0");;
  Ok (mkToolContext (workspace_root policy_ctx) (dry_run policy_ctx) timeout
        [("event_id", event_id); ("run_id", strip_or_none (run_id t)); ("task_id", strip_or_none (task_id t));
         ("tool_call_id", strip_or_none (tool_call_id c))]).

(** The callback: what it stores becomes the task and tool call of the caller. *)
Definition on_before_execute (t : Task) (c : ToolCall) : st world unit :=
  if bool_decide (status t = TaskStatus.RUNNING) && bool_decide (tc_status c = ToolCallStatus.RUNNING) then mret tt
  else
    started ← persist_started t c;
    set_task (Some (es_task started, es_tool_call started)).

(** The [delay_s] of a delayed execution. *)
Definition parse_delay (debug : option (list (string * json))) : res spec_float :=
  let bounded (o : option spec_float) : spec_float :=
    match o with Some x => if isfinite x then fmax fzero x else fzero | None => fzero end in
  match aget "delay_s" (default [] debug) with
  | Some (JInt n) => x ← float_of_int n; Ok (bounded (Some x))
  | Some (JBool b) => Ok (bounded (Some (of_Z (if b then 1 else 0))))
  | Some (JFloat x) => Ok (bounded (Some x))
  | Some (JStr s) => Ok (bounded (float_of_text s))
  | _ => Ok fzero
  end.

Definition delayed_report (t : Task) (c : ToolCall) (o : ToolExecutionOutcome) : st world ExecutionReport :=
  delay_s ← lift (parse_delay (debug (oc_result o)));
  uow (
    match oc_approval_id o with Some id => persist_approval id | None => mret tt end;;
    now ← now_ms;
    on_db (append_audit (mkAuditEntry t c (oc_decision o) (oc_result o) ExecutionDisposition.FAILED_TRANSIENT (Some delay_s)
      (attempts t <? max_attempts t) (oc_approval_id o) (oc_approval_status o) (oc_guard_decision o) now)));;
  mret (report_of t c ExecutionDisposition.FAILED_TRANSIENT false (Some delay_s) (Some (oc_decision o)) (oc_result o)
          (oc_approval_id o) (oc_approval_status o)).

Definition skipped (t : Task) (c : ToolCall) (d : ExecutionDisposition.t) (code msg : string) (data : option json)
    (debug : option (list (string * json))) (retry_after_s : option spec_float)
    (approval : option string * option ApprovalStatus.t) : st world ExecutionReport :=
  result ← lift (refusal code msg data debug);
  mret (report_of t c d false retry_after_s None result approval.1 approval.2).

Definition execute_call (t : Task) (c : ToolCall) (ctx : ToolContext) : st world ToolExecutionOutcome :=
  execute_tool_call registry guard_chain policy_ctx build_payload_hash_for_args build_preview wall_clock uuid4 run_tool
    (strip_or_none (run_id t)) c ctx (Some (on_before_execute t c)).

Definition execute_task (task_id : string) : st world ExecutionReport :=
  raise_if_empty ← lift (raise_if (is_empty (strip task_id)) (ValueError "task_id must be non-empty"));
  loaded ← load_task_and_tool_call (strip task_id);
  let '(t, c) := loaded in
  if bool_decide (status t = TaskStatus.CANCELED)
  then skipped t c ExecutionDisposition.CANCELED "TASK_CANCELED" "task is canceled; skipping execution" None None None (None, None)
  else
    cached ← maybe_use_cached_success t c;
    match cached with
    | Some report => mret report
    | None =>
        ctx ← lift (tool_context t c);
        set_task None;;
        outcome ← execute_call t c ctx;
        current ← get_task t c;
        record_circuit_breaker_result current.2 outcome;;
        if bool_decide (error_code (oc_result outcome) = Some EXECUTION_DELAYED_ERROR_CODE)
        then delayed_report current.1 current.2 outcome
        else persist_outcome current.1 current.2 outcome
    end.

Definition waiting_data (approval_id : option string) : option json :=
  match approval_id with None => None | Some id => Some (JObj [("approval_id", JStr id)]) end.

(** After the checks that need no execution. *)
Definition execute_and_settle (lease : Lease) (task_id : string) : st world ExecutionReport :=
  report ← execute_task task_id;
  (if bool_decide (rp_disposition report = ExecutionDisposition.FAILED_TRANSIENT) then
     refreshed ← load_task_and_tool_call task_id;
     if attempts refreshed.1 <? max_attempts refreshed.1
     then nack lease (default fzero (rp_retry_after_s report))
            ("transient_failure:" +:+ default "" (error_code (rp_result report)))
     else ack lease
   else ack lease);;
  mret report.

Definition process_lease (lease : Lease) : st world ExecutionReport :=
  let task_id := env_task_id (lease_envelope lease) in
  loaded ← load_task_and_tool_call task_id;
  let '(t, c) := loaded in
  run_tasks ← uow (list_run_tasks (run_id t));
  if bool_decide (status t ∈ [TaskStatus.PENDING; TaskStatus.QUEUED]) && has_unmet_dependencies t run_tasks then
    nack lease (of_Z 1) "dependencies_unmet";;
    skipped t c ExecutionDisposition.FAILED_TRANSIENT "DEPENDENCIES_UNMET" "task dependencies are not yet satisfied"
      None None (Some (of_Z 1)) (None, None)
  else if bool_decide (status t = TaskStatus.SUCCEEDED) then
    queue_ready_dependents_after_success t None None;;
    ack lease;;
    result ← lift (ToolResult_validate (mkToolResult true (Some (JObj [("status", JStr "already_succeeded")])) None None None None));
    mret (report_of t c ExecutionDisposition.SUCCEEDED false None None result None None)
  else if bool_decide (status t = TaskStatus.WAITING_APPROVAL) then
    approval ← load_approval_status (tool_call_id c);
    ack lease;;
    skipped t c ExecutionDisposition.WAITING_APPROVAL "APPROVAL_REQUIRED" "task is waiting for approval; skipping execution"
      (waiting_data approval.1) None None approval
  else if bool_decide (status t = TaskStatus.CANCELED) then
    ack lease;;
    skipped t c ExecutionDisposition.CANCELED "TASK_CANCELED" "task is canceled; skipping execution" None None None (None, None)
  else if (max_attempts t <=? attempts t) &&
          bool_decide (status t ∈ [TaskStatus.PENDING; TaskStatus.QUEUED; TaskStatus.FAILED]) then
    ack lease;;
    skipped t c ExecutionDisposition.FAILED_PERMANENT "MAX_ATTEMPTS_EXHAUSTED"
      "task has exhausted max_attempts; skipping execution" None
      (Some [("attempts", JInt (attempts t)); ("max_attempts", JInt (max_attempts t))]) None (None, None)
  else execute_and_settle lease task_id.

(** ** What the operations leave alone *)
Notation keeps := (@keeps G D (client Q)).

(** A unit of work that raises leaves the database as it found it. *)
Definition undoable (R : world -> world -> Prop) : Prop :=
  forall w w', R w w' -> R w (set_approvals (w_approvals w) w').

Lemma keeps_uow {B} R (m : st world B) : undoable R -> keeps R m -> keeps R (uow m).
Proof.
  intros HR Hm w r w'. unfold uow. destruct (m w) as [[b|e] w1] eqn:E; intros [= _ <-]; [|apply HR]; by eapply Hm.
Qed.
Lemma keeps_catch {B} R `{!PreOrder R} (m : st world B) k : keeps R m -> (forall e, keeps R (k e)) -> keeps R (catch m k).
Proof.
  intros Hm Hk w r w'. unfold catch. destruct (m w) as [[b|e] w1] eqn:E.
  - intros [= _ <-]. by eapply Hm.
  - intros E2%Hk. etrans; [by eapply Hm|done].
Qed.
Lemma keeps_throw {B} R `{!PreOrder R} e : keeps R (@throw world B e).
Proof. by intros w r w' [= _ <-]. Qed.
Lemma keeps_for_each {A} R `{!PreOrder R} (body : A -> st world unit) l : (forall x, x ∈ l -> keeps R (body x)) -> keeps R (for_each body l).
Proof.
  induction l as [|x l IH]; intros Hb; cbn [for_each]; [by apply keeps_ret|].
  apply keeps_bind; [done|apply Hb; by left|]. intros _. apply IH. intros y Hy. apply Hb. by right.
Qed.

Create HintDb keeps.
(** Walk through a computation: binds, branches, and what is known. *)
Ltac walk := repeat first
  [ done
  | apply keeps_lift; apply _ | apply keeps_ret; apply _ | apply keeps_throw; apply _
  | solve [auto with keeps]
  | apply keeps_bind; [apply _| |intros ?]
  | apply keeps_catch; [apply _| |intros ?]
  | apply keeps_uow; [solve [auto with keeps]|]
  | apply keeps_for_each; [apply _|intros ? ?]
  | match goal with |- keeps _ (match ?x with _ => _ end) => destruct x eqn:? end
  | match goal with |- keeps _ ((match ?x with _ => _ end) ≫= _) => destruct x eqn:? end ].

(** *** Runs and settlements: only an execution runs a tool, only [ack] and
    [nack] settle. *)
Definition settled_same (w w' : world) : Prop := x_settled (w_client w') = x_settled (w_client w).
Definition calm (w w' : world) : Prop := settled_same w w' /\ w_runs w' = w_runs w.

#[local] Instance settled_preorder : PreOrder settled_same.
Proof. split; [done|]. intros a b c. unfold settled_same. congruence. Qed.
#[local] Instance calm_preorder : PreOrder calm.
Proof. split; [done|]. intros a b c [] []. split; [by etrans|congruence]. Qed.
Lemma calm_undoable : undoable calm.
Proof. by intros w w' []. Qed.

Lemma calm_db {B} (m : st D B) : keeps calm (on_db m).
Proof. intros w r w'. unfold on_db, on_approvals. destruct (m _). by intros [= _ <-]. Qed.
Lemma calm_tables {B} (m : st tables B) : keeps calm (on_tables m).
Proof. apply calm_db. Qed.
Lemma calm_guards {B} (m : st G B) : keeps calm (on_guards m).
Proof. intros w r w'. unfold on_guards. destruct (m _). by intros [= _ <-]. Qed.
Lemma calm_now c : keeps calm (now c).
Proof. by intros w r w' [= _ <-]. Qed.
Lemma calm_draw u : keeps calm (draw u).
Proof. by intros w r w' [= _ <-]. Qed.
Lemma calm_now_ms : keeps calm now_ms.
Proof. by intros w r w' [= _ <-]. Qed.
Lemma calm_set_task p : keeps calm (set_task p).
Proof. by intros w r w' [= _ <-]. Qed.
Lemma calm_get_task t c : keeps calm (get_task t c).
Proof. by intros w r w' [= _ <-]. Qed.
Lemma calm_queue {B} (m : Z -> st Q B) : keeps calm (on_queue m).
Proof. intros w r w'. unfold on_queue. destruct (m _ _). by intros [= _ <-]. Qed.
#[local] Hint Resolve calm_undoable calm_db calm_tables calm_guards calm_now calm_draw calm_now_ms calm_set_task calm_get_task
  calm_queue : keeps.

Lemma calm_load id : keeps calm (load_task_and_tool_call id).
Proof. unfold load_task_and_tool_call. walk. Qed.
Lemma calm_load_approval id : keeps calm (load_approval_status id).
Proof. unfold load_approval_status. walk. Qed.
Lemma calm_list id : keeps calm (list_run_tasks id).
Proof. unfold list_run_tasks. walk. Qed.
Lemma calm_update s : keeps calm (update_both s).
Proof. unfold update_both. walk. Qed.
#[local] Hint Resolve calm_load calm_load_approval calm_list calm_update : keeps.
Lemma calm_started t c : keeps calm (persist_started t c).
Proof. unfold persist_started. walk. Qed.
Lemma calm_approval id : keeps calm (persist_approval id).
Proof. unfold persist_approval. walk. Qed.
Lemma calm_ledger c r d : keeps calm (record_ledger c r d).
Proof. unfold record_ledger. walk. Qed.
Lemma calm_dependent_state t n : keeps calm (persist_dependent_task_state t n).
Proof. unfold persist_dependent_task_state. walk. Qed.
#[local] Hint Resolve calm_started calm_approval calm_ledger calm_dependent_state : keeps.
Lemma calm_enqueue u n t : keeps calm (enqueue_ready_dependent u n t).
Proof. unfold enqueue_ready_dependent. walk. Qed.
#[local] Hint Resolve calm_enqueue : keeps.
Lemma calm_ready t l n : keeps calm (queue_ready_dependents_after_success t l n).
Proof. unfold queue_ready_dependents_after_success. walk. Qed.
Lemma calm_cancel n l : keeps calm (cancel_dependents n l).
Proof. induction l; cbn [cancel_dependents]; walk. Qed.
#[local] Hint Resolve calm_ready calm_cancel : keeps.
Lemma calm_persist t c o : keeps calm (persist_outcome t c o).
Proof. unfold persist_outcome, store_outcome, follow_up. walk. Qed.
Lemma calm_record_breaker c o : keeps calm (record_circuit_breaker_result c o).
Proof. unfold record_circuit_breaker_result. walk. Qed.
Lemma calm_cached t c : keeps calm (maybe_use_cached_success t c).
Proof. unfold maybe_use_cached_success, can_reuse_cached_success, cached_report, evaluate_guards. walk. Qed.
Lemma calm_delayed t c o : keeps calm (delayed_report t c o).
Proof. unfold delayed_report. walk. Qed.
Lemma calm_before t c : keeps calm (on_before_execute t c).
Proof. unfold on_before_execute. walk. Qed.
Lemma calm_skipped t c d code msg dat dbg r a : keeps calm (skipped t c d code msg dat dbg r a).
Proof. unfold skipped. walk. Qed.
#[local] Hint Resolve calm_persist calm_record_breaker calm_cached calm_delayed calm_before calm_skipped : keeps.

(** *** An execution settles nothing and runs at most its tool *)
Lemma settled_of_calm {B} (m : st world B) : keeps calm m -> keeps settled_same m.
Proof. intros Hm w r w' E. by apply Hm in E as [? _]. Qed.

Lemma settled_undoable : undoable settled_same.
Proof. by intros w w'. Qed.

Lemma settled_run name a ctx : keeps settled_same (run run_tool name a ctx).
Proof. by intros w r w' [= _ <-]. Qed.

Lemma settled_execute_call t c ctx : keeps settled_same (execute_call t c ctx).
Proof.
  unfold execute_call. apply execute_keeps; [apply _|..].
  - intros B m. apply settled_of_calm, calm_guards.
  - apply settled_of_calm, calm_db.
  - intros a. apply settled_of_calm, calm_db.
  - apply settled_of_calm, calm_now.
  - apply settled_of_calm, calm_draw.
  - intros mk. apply keeps_bind; [apply _|apply settled_of_calm, calm_before|intros _].
    apply keeps_bind; [apply _|apply settled_run|intros ?]. apply keeps_ret, _.
Qed.

#[local] Hint Resolve settled_of_calm settled_execute_call : keeps.

Lemma settled_execute_task id : keeps settled_same (execute_task id).
Proof. unfold execute_task. walk. Qed.

(** ** Settling a lease *)
Lemma refusal_returns code msg dat dbg : strip code <> "" -> strip msg <> "" ->
  match dat with Some v => jsonable v = true | None => True end -> jsonable (JObj (default [] dbg)) = true ->
  exists r, refusal code msg dat dbg = Ok r /\ ok r = false.
Proof.
  intros Hc Hm Hd Hb. unfold refusal, ToolResult_validate.
  cbn [ok data error_code error_message Decision.debug produced_artifacts normalize_error_str].
  destruct (is_empty (strip code)) eqn:E1; [by apply is_empty_spec in E1|].
  destruct (is_empty (strip msg)) eqn:E2; [by apply is_empty_spec in E2|].
  assert (require_json_serializable "data" dat = Ok dat) as -> by (destruct dat as [v|]; [cbn; by rewrite Hd|done]).
  assert (optional_dict "debug" dbg = Ok dbg) as -> by (destruct dbg as [v|]; unfold optional_dict; [|done];
    change (jsonable (JObj v) = true) in Hb; by rewrite Hb).
  cbn. by eexists.
Qed.

Lemma skipped_returns t c d code msg dat dbg r a w : strip code <> "" -> strip msg <> "" ->
  match dat with Some v => jsonable v = true | None => True end -> jsonable (JObj (default [] dbg)) = true ->
  exists rep, skipped t c d code msg dat dbg r a w = (Ok rep, w) /\ rp_disposition rep = d /\ rp_retry_after_s rep = r /\
    rp_task_id rep = task_id t.
Proof.
  intros Hc Hm Hd Hb. destruct (refusal_returns code msg dat dbg Hc Hm Hd Hb) as (res & E & _).
  unfold skipped, lift, mbind, st_bind. rewrite E. by eexists.
Qed.

Context `{!DatabaseLaws D}.

(** The task the database gives for an id. *)
Definition stored_task (w : world) (id : string) (t : Task) : Prop :=
  (TaskRepo.get id (db_tables (w_approvals w))).1 = Ok (Some t).

Lemma load_returns id w t c w' : load_task_and_tool_call id w = (Ok (t, c), w') ->
  stored_task w id t /\ tool_call t = Some c /\ w' = w.
Proof.
  unfold load_task_and_tool_call, uow, on_tables, on_db, on_approvals, stored_task, mbind, st_bind, TaskRepo.get.
  set (r := (_ ≫= _)). rewrite with_same_tables.
  destruct r as [[t'|]|e]; cbn; try done. unfold throw, mret, st_ret. destruct (tool_call t') eqn:Et; [|done].
  intros [= <- <- <-]. split; [done|]. split; [done|]. by destruct w.
Qed.

(** What settles [lease]: acknowledged, unless the task failed for now and the
    database has an attempt left for it. *)
Definition settles_well (lease : Lease) (rep : ExecutionReport) (w' : world) (s : settlement) : Prop :=
  match s with
  | Acked l => l = lease /\ (rp_disposition rep = ExecutionDisposition.FAILED_TRANSIENT ->
      exists t, stored_task w' (env_task_id (lease_envelope lease)) t /\ max_attempts t <= attempts t)
  | Nacked l delay_s _ => l = lease /\ rp_disposition rep = ExecutionDisposition.FAILED_TRANSIENT /\
      delay_s = default fzero (rp_retry_after_s rep)
  end.

Definition settles (lease : Lease) (m : st world ExecutionReport) : Prop := forall w r w', m w = (r, w') ->
  match r with
  | Ok rep => exists s, x_settled (w_client w') = s :: x_settled (w_client w) /\ settles_well lease rep w' s
  | Raise _ => settled_same w w'
  end.

Lemma settles_bind {B} lease (m : st world B) k : keeps settled_same m -> (forall b, settles lease (k b)) -> settles lease (m ≫= k).
Proof.
  intros Hm Hk w r w'. unfold mbind, st_bind. destruct (m w) as [[b|e] w1] eqn:E.
  - apply Hm in E. intros E2%Hk. unfold settled_same in *. destruct r; by rewrite <- E.
  - intros [= <- <-]. by eapply Hm.
Qed.

Lemma ack_returns lease w u w1 : ack lease w = (Ok u, w1) ->
  x_settled (w_client w1) = Acked lease :: x_settled (w_client w) /\ w_approvals w1 = w_approvals w.
Proof.
  unfold ack, on_queue, settle, mbind, st_bind. destruct (q_ack _ _ _) as [[v|e] q]; [|done]. by intros [= _ <-].
Qed.
Lemma nack_returns lease d reason w u w1 : nack lease d reason w = (Ok u, w1) ->
  x_settled (w_client w1) = Nacked lease d reason :: x_settled (w_client w).
Proof. unfold nack, on_queue, settle, mbind, st_bind. destruct (q_nack _ _ _) as [[v|e] q]; [|done]. by intros [= _ <-]. Qed.
Lemma ack_raises lease w e w1 : ack lease w = (Raise e, w1) -> settled_same w w1.
Proof.
  unfold ack, on_queue, settle, mbind, st_bind. destruct (q_ack _ _ _) as [[v|e'] q]; [done|]. by intros [= _ <-].
Qed.
Lemma nack_raises lease d reason w e w1 : nack lease d reason w = (Raise e, w1) -> settled_same w w1.
Proof. unfold nack, on_queue, settle, mbind, st_bind. destruct (q_nack _ _ _) as [[v|e'] q]; [done|]. by intros [= _ <-]. Qed.

Lemma settles_ack lease (tail : st world ExecutionReport) (D0 : ExecutionDisposition.t) :
  D0 <> ExecutionDisposition.FAILED_TRANSIENT ->
  (forall w, exists rep, tail w = (Ok rep, w) /\ rp_disposition rep = D0) -> settles lease (ack lease;; tail).
Proof.
  intros HD Ht w r w'. unfold mbind, st_bind. destruct (ack lease w) as [[u|e] w1] eqn:E.
  - destruct (Ht w1) as (rep & -> & Hr). intros [= <- <-]. exists (Acked lease). split; [by apply ack_returns in E as [? _]|].
    split; [done|]. congruence.
  - intros [= <- <-]. by eapply ack_raises.
Qed.
Lemma settles_nack lease d reason (tail : st world ExecutionReport) :
  (forall w, exists rep, tail w = (Ok rep, w) /\ rp_disposition rep = ExecutionDisposition.FAILED_TRANSIENT /\
     rp_retry_after_s rep = Some d) -> settles lease (nack lease d reason;; tail).
Proof.
  intros Ht w r w'. unfold mbind, st_bind. destruct (nack lease d reason w) as [[u|e] w1] eqn:E.
  - destruct (Ht w1) as (rep & -> & Hr & Hd). intros [= <- <-]. exists (Nacked lease d reason). split; [by eapply nack_returns|].
    split; [done|]. split; [done|]. by rewrite Hd.
  - intros [= <- <-]. by eapply nack_raises.
Qed.

Lemma settles_executed lease : settles lease (execute_and_settle lease (env_task_id (lease_envelope lease))).
Proof.
  unfold execute_and_settle. set (id := env_task_id (lease_envelope lease)).
  apply settles_bind; [apply settled_execute_task|]. intros rep w r w'. case_bool_decide as Hd.
  - unfold mbind, st_bind. destruct (load_task_and_tool_call id w) as [[[t c]|e] w1] eqn:E; cycle 1.
    { intros [= <- <-]. by apply (settled_of_calm _ (calm_load id)) in E. }
    apply load_returns in E as (Hs & _ & ->). cbn [fst]. destruct (Z.ltb_spec (attempts t) (max_attempts t)).
    + destruct (nack _ _ _ w) as [[u|e] w1] eqn:E; intros [= <- <-]; [|by eapply nack_raises].
      eexists. split; [by eapply nack_returns|]. done.
    + destruct (ack _ w) as [[u|e] w1] eqn:E; intros [= <- <-]; [|by eapply ack_raises].
      apply ack_returns in E as [E1 E2]. eexists. split; [done|]. split; [done|]. intros _. exists t. split; [|lia].
      unfold stored_task. by rewrite E2.
  - unfold mbind, st_bind. destruct (ack _ w) as [[u|e] w1] eqn:E; intros [= <- <-]; [|by eapply ack_raises].
    apply ack_returns in E as [E1 E2]. eexists. split; [done|]. by split.
Qed.

Lemma waiting_data_ok id : match waiting_data id with Some v => jsonable v = true | None => True end.
Proof. by destruct id. Qed.

Lemma process_settles lease : settles lease (process_lease lease).
Proof.
  unfold process_lease. apply settles_bind; [apply settled_of_calm, calm_load|]. intros [t c].
  apply settles_bind; [apply settled_of_calm; walk|]. intros run_tasks.
  destruct (_ && has_unmet_dependencies _ _).
  { apply settles_nack. intros w. destruct (skipped_returns t c ExecutionDisposition.FAILED_TRANSIENT "DEPENDENCIES_UNMET"
      "task dependencies are not yet satisfied" None None (Some (of_Z 1)) (None, None) w) as (rep & ? & ? & ? & _); [done..|].
    by exists rep. }
  case_bool_decide as C1.
  { apply settles_bind; [apply settled_of_calm, calm_ready|]. intros _. eapply (settles_ack _ _ ExecutionDisposition.SUCCEEDED); [done|].
    intros w. by eexists. }
  case_bool_decide as C2.
  { apply settles_bind; [apply settled_of_calm, calm_load_approval|]. intros a.
    apply (settles_ack _ _ ExecutionDisposition.WAITING_APPROVAL); [done|]. intros w.
    destruct (skipped_returns t c ExecutionDisposition.WAITING_APPROVAL "APPROVAL_REQUIRED"
      "task is waiting for approval; skipping execution" (waiting_data a.1) None None a w) as (rep & ? & ? & _);
      [done|done|apply waiting_data_ok|done|]. by exists rep. }
  case_bool_decide as C3.
  { apply (settles_ack _ _ ExecutionDisposition.CANCELED); [done|]. intros w.
    destruct (skipped_returns t c ExecutionDisposition.CANCELED "TASK_CANCELED" "task is canceled; skipping execution" None None None
      (None, None) w) as (rep & ? & ? & _); [done..|]. by exists rep. }
  destruct (_ && _).
  { apply (settles_ack _ _ ExecutionDisposition.FAILED_PERMANENT); [done|]. intros w.
    destruct (skipped_returns t c ExecutionDisposition.FAILED_PERMANENT "MAX_ATTEMPTS_EXHAUSTED"
      "task has exhausted max_attempts; skipping execution" None
      (Some [("attempts", JInt (attempts t)); ("max_attempts", JInt (max_attempts t))]) None (None, None) w) as (rep & ? & ? & _);
      [done..|]. by exists rep. }
  apply settles_executed.
Qed.

(** ** The report and the database *)
Context `{!ApprovalsKeepTasks D}.

Definition tasks_of (w : world) : list (string * TaskRow) := task_rows (db_tables (w_approvals w)).

(** The rows stay in order, and the row of [k] stays as it is. *)
Definition same_row (k : string) (w w' : world) : Prop :=
  rows_ok (tasks_of w) -> rows_ok (tasks_of w') /\ aget k (tasks_of w') = aget k (tasks_of w).
(** All rows stay as they are. *)
Definition same_tasks (w w' : world) : Prop := tasks_of w' = tasks_of w.

#[local] Instance same_row_preorder k : PreOrder (same_row k).
Proof.
  split; [by intros w Hw|]. intros a b c H1' H2' Ha. destruct (H1' Ha) as [Hb E1]. destruct (H2' Hb) as [Hc E2].
  split; [done|congruence].
Qed.
#[local] Instance same_tasks_preorder : PreOrder same_tasks.
Proof. split; [done|]. intros a b c. unfold same_tasks. congruence. Qed.
Lemma same_row_undoable k : undoable (same_row k).
Proof. by intros w w' _ Hw. Qed.
Lemma same_tasks_undoable : undoable same_tasks.
Proof. by intros w w' _. Qed.
Lemma row_of_tasks {B} k (m : st world B) : keeps same_tasks m -> keeps (same_row k) m.
Proof. intros Hm w r w' E%Hm Hw. unfold same_tasks in E. by rewrite E. Qed.

Lemma tasks_on_db {B} (m : st D B) : (forall d r d', m d = (r, d') -> task_rows (db_tables d') = task_rows (db_tables d)) ->
  keeps same_tasks (on_db m).
Proof.
  intros Hm w r w'. unfold on_db, on_approvals. destruct (m (w_approvals w)) as [q d] eqn:E. intros [= _ <-].
  unfold same_tasks, tasks_of. cbn. by eapply Hm.
Qed.
Lemma tasks_on_tables {B} (m : st tables B) : (forall d r d', m d = (r, d') -> task_rows d' = task_rows d) ->
  keeps same_tasks (on_tables m).
Proof.
  intros Hm. apply tasks_on_db. intros d r d'. destruct (m (db_tables d)) as [q t] eqn:E. intros [= _ <-].
  rewrite tables_with. by eapply Hm.
Qed.
Lemma tasks_elsewhere {B} (m : st world B) : (forall w r w', m w = (r, w') -> w_approvals w' = w_approvals w) -> keeps same_tasks m.
Proof. intros Hm w r w' E%Hm. unfold same_tasks, tasks_of. by rewrite E. Qed.

Lemma tasks_guards {B} (m : st G B) : keeps same_tasks (on_guards m).
Proof. apply tasks_elsewhere. intros w r w'. unfold on_guards. destruct (m _). by intros [= _ <-]. Qed.
Lemma tasks_now c : keeps same_tasks (now c).
Proof. apply tasks_elsewhere. by intros w r w' [= _ <-]. Qed.
Lemma tasks_draw u : keeps same_tasks (draw u).
Proof. apply tasks_elsewhere. by intros w r w' [= _ <-]. Qed.
Lemma tasks_now_ms : keeps same_tasks now_ms.
Proof. apply tasks_elsewhere. by intros w r w' [= _ <-]. Qed.
Lemma tasks_set_task p : keeps same_tasks (set_task p).
Proof. apply tasks_elsewhere. by intros w r w' [= _ <-]. Qed.
Lemma tasks_queue {B} (m : Z -> st Q B) : keeps same_tasks (on_queue m).
Proof. apply tasks_elsewhere. intros w r w'. unfold on_queue. destruct (m _ _). by intros [= _ <-]. Qed.
Lemma tasks_audit e : keeps same_tasks (on_db (append_audit e)).
Proof. apply tasks_on_db. intros d r d' E. by rewrite (audit_keeps_tables _ _ _ _ E). Qed.
Lemma tasks_snapshots t l n : keeps same_tasks (on_db (upsert_task_snapshots t l n)).
Proof. apply tasks_on_db. intros d r d' E. by rewrite (snapshots_keep_tables _ _ _ _ _ _ E). Qed.
Lemma tasks_get_approval id : keeps same_tasks (on_tables (ApprovalRepo.get id)).
Proof. apply tasks_on_tables. by intros d r d' [= _ <-]. Qed.
Lemma tasks_create_approval a : keeps same_tasks (on_tables (ApprovalRepo.create a)).
Proof. apply tasks_on_tables. intros d r d'. unfold ApprovalRepo.create. destruct (_ ≫= _); by intros [= _ <-]. Qed.
Lemma tasks_list run : keeps same_tasks (list_run_tasks run).
Proof. apply tasks_on_tables. by intros d r d' [= _ <-]. Qed.
Lemma tasks_call c : keeps same_tasks (on_tables (ToolCallRepo.update args_eq c)).
Proof. apply tasks_on_tables. intros d r d' E. by eapply tool_call_update_rows. Qed.
Lemma tasks_store_get id : keeps same_tasks (on_db (get_approval id)).
Proof. apply tasks_on_db. intros d r d' E. by eapply get_keeps_tasks. Qed.

Lemma tasks_upsert n k o s ow : keeps same_tasks (on_tables (Ledger.upsert sanitize n k o s ow)).
Proof.
  apply tasks_on_tables. intros d r d' E. apply upsert_cases in E as [->|(l & _ & E)]; [done|].
  destruct (aget (strip k) (ledger_rows d)); [destruct E as [_ ->]|subst d']; done.
Qed.
Lemma tasks_success n k o : keeps same_tasks (on_tables (Ledger.record_success sanitize n k o)).
Proof. unfold Ledger.record_success. destruct (negb _); [|apply tasks_upsert]. apply tasks_on_tables. by intros d r d' [= _ <-]. Qed.
Lemma tasks_failure n k o b : keeps same_tasks (on_tables (Ledger.record_failure sanitize n k o b)).
Proof. unfold Ledger.record_failure. destruct (ok _); [|apply tasks_upsert]. apply tasks_on_tables. by intros d r d' [= _ <-]. Qed.
#[local] Hint Resolve same_row_undoable same_tasks_undoable tasks_guards tasks_now tasks_draw tasks_now_ms tasks_set_task
  tasks_queue tasks_audit tasks_snapshots tasks_get_approval tasks_create_approval tasks_list tasks_call tasks_store_get
  tasks_success tasks_failure row_of_tasks : keeps.

Lemma tasks_persist_approval id : keeps same_tasks (persist_approval id).
Proof. unfold persist_approval. walk. Qed.
Lemma tasks_record_ledger c r d : keeps same_tasks (record_ledger c r d).
Proof. unfold record_ledger. walk. Qed.
#[local] Hint Resolve tasks_persist_approval tasks_record_ledger : keeps.

(** Writing another task. *)
Lemma row_task_update k t : strip (task_id t) <> k -> keeps (same_row k) (on_tables (TaskRepo.update args_eq t)).
Proof.
  intros Hk w r w'. unfold on_tables, on_db, on_approvals, same_row, tasks_of.
  destruct (TaskRepo.update args_eq t (db_tables (w_approvals w))) as [q d] eqn:E. intros [= _ <-] Hw. cbn. rewrite tables_with.
  apply task_update_rows in E as (H1' & H2' & _); [|done]. split; [done|]. by apply H2'.
Qed.
Lemma row_update_both k s : strip (task_id (es_task s)) <> k -> keeps (same_row k) (update_both s).
Proof.
  intros Hk. unfold update_both. apply keeps_bind; [apply _|auto with keeps|intros _].
  apply keeps_bind; [apply _|by apply row_task_update|intros _]. by apply keeps_ret, _.
Qed.

Lemma transition_task_id t s t' : is_uuid4_str (task_id t) = true -> transition_task t s = Ok t' -> task_id t' = task_id t.
Proof.
  unfold transition_task. intros Hid Ht. res_inv.
  match goal with H : (if _ then _ else _) = Ok ?u |- _ => assert (task_id u = task_id t) as Hu
    by (destruct (starts_attempt _ _); res_inv; done) end.
  match goal with H : Task_model_validate _ = Ok _ |- _ => apply task_validate_id in H as [-> _]; congruence end.
Qed.
Lemma complete_with_id ts tk t c n s' : is_uuid4_str (task_id t) = true -> complete_with ts tk t c n = Ok s' ->
  task_id (es_task s') = task_id t.
Proof.
  unfold complete_with. intros Hid (c' & _ & (t' & Ht & [= <-])%res_bind_Ok)%res_bind_Ok. by apply transition_task_id in Ht.
Qed.

Lemma row_enqueue k u n t : valid_task t -> task_id t <> k -> keeps (same_row k) (enqueue_ready_dependent u n t).
Proof.
  intros Hv Hk. assert (forall t', task_id t' = task_id t -> keeps (same_row k) (persist_dependent_task_state t' n)) as Hp.
  { intros t' E. unfold persist_dependent_task_state. apply keeps_uow; [auto with keeps|]. apply keeps_bind; [apply _| |intros _; auto with keeps].
    apply row_task_update. rewrite E. by rewrite (proj1 (strip_uuid4_str _ (vt_id t Hv))). }
  intros w r w'. unfold enqueue_ready_dependent. unfold mbind at 1, st_bind at 1, lift at 1.
  destruct (transition_task t TaskStatus.QUEUED) as [q|e] eqn:E; [|by intros [= _ <-]].
  apply transition_task_id in E; [|apply Hv]. revert w r w'. apply keeps_bind; [apply _|by apply Hp|intros _].
  specialize (Hp t eq_refl). walk.
Qed.

Lemma row_cancel k n l : (forall t, t ∈ l -> valid_task t /\ task_id t <> k) -> keeps (same_row k) (cancel_dependents n l).
Proof.
  induction l as [|t l IH]; intros Hl; cbn [cancel_dependents]; [by apply keeps_ret, _|].
  assert (keeps (same_row k) (cancel_dependents n l)) as Hrest by (apply IH; intros t' Ht'; apply Hl; by right).
  destruct (Hl t) as [Hv Hk]; [by left|]. destruct (tool_call t) as [c|] eqn:Ec; [|done].
  intros w r w'. unfold mbind at 1, st_bind at 1, lift at 1.
  destruct (complete_canceled t c n) as [s|e] eqn:E; [|by intros [= _ <-]].
  apply complete_with_iff in E as [_ ->]; [|done|by apply (vt_tool_call t Hv)|done..]. revert w r w'.
  apply keeps_bind; [apply _| |intros _; walk]. apply row_update_both. cbn [es_task]. change (strip (task_id t) <> k).
  by rewrite (proj1 (strip_uuid4_str _ (vt_id t Hv))).
Qed.

(** The database says that task [k] has status [s]. *)
Definition recorded (w : world) (k : string) (s : TaskStatus.t) : Prop :=
  rows_ok (tasks_of w) /\ has_status (tasks_of w) k s.

Lemma recorded_row w w' k s : same_row k w w' -> recorded w k s -> recorded w' k s.
Proof. intros HR [Hw (r & Er & Hr)]. destruct (HR Hw) as [Hw' E]. split; [done|]. exists r. by rewrite E. Qed.

(** [m], when it returns, leaves task [k] with status [s]. *)
Definition records {B} (k : string) (s : TaskStatus.t) (m : st world B) : Prop := forall w b w',
  rows_ok (tasks_of w) -> m w = (Ok b, w') -> recorded w' k s.

Lemma update_both_records s : is_uuid4_str (task_id (es_task s)) = true ->
  records (task_id (es_task s)) (status (es_task s)) (update_both s).
Proof.
  intros Hid w u w' Hw. unfold update_both. intros (c & w1 & E1 & E)%st_bind_Ok. apply st_bind_Ok in E as (t & w2 & E2 & [= _ <-]).
  apply (tasks_call (es_tool_call s)) in E1. unfold same_tasks in E1. rewrite <- E1 in Hw.
  unfold on_tables, on_db, on_approvals in E2. unfold recorded, tasks_of in *.
  destruct (TaskRepo.update args_eq (es_task s) (db_tables (w_approvals w1))) as [q d] eqn:E. injection E2 as -> <-.
  apply task_update_rows in E as (R1 & _ & R2); [|done]. cbn. rewrite tables_with. split; [done|].
  rewrite <- (proj1 (strip_uuid4_str _ Hid)) at 1. by apply R2.
Qed.

Lemma list_run_spec run w l w' : rows_ok (tasks_of w) -> list_run_tasks run w = (Ok l, w') ->
  tasks_of w' = tasks_of w /\ forall t, t ∈ l -> valid_task t /\ has_status (tasks_of w) (task_id t) (status t).
Proof.
  intros Hw E. pose proof (tasks_list _ _ _ _ E) as Hs. split; [done|].
  unfold list_run_tasks, on_tables, on_db, on_approvals in E.
  destruct (TaskRepo.list_by_run run (db_tables (w_approvals w))) as [q d] eqn:El. injection E as -> _.
  by apply list_spec in El as [_ H'].
Qed.

(** The task of a run that is ready or blocked is another one. *)
Lemma ready_other w t all k s d : recorded w k s -> s <> TaskStatus.PENDING ->
  (forall u, u ∈ all -> valid_task u /\ has_status (tasks_of w) (task_id u) (status u)) ->
  d ∈ ready_dependents_after_success t all -> valid_task d /\ task_id d <> k.
Proof.
  intros [_ Hk] Hs Hall Hd. unfold ready_dependents_after_success in Hd. apply list_elem_of_filter in Hd as [[Hp _] Hd].
  destruct (Hall d Hd) as [Hv Hst]. split; [done|]. intros <-. rewrite Hp in Hst. apply Hs. by eapply has_status_unique.
Qed.
Lemma blocked_other t all d : (forall u, u ∈ all -> valid_task u) -> d ∈ blocked_dependents t all ->
  valid_task d /\ task_id d <> task_id t.
Proof.
  intros Hall. unfold blocked_dependents, blocked_dependents_after_failure.
  destruct (search_ok (task_id t) (pending_tasks all)) as (bl & -> & _ & Hb); [apply pending_tasks_ok|]. cbn.
  intros [Hd%blocked_pending Hne]%Hb. apply pending_tasks_ok in Hd as [Hd _]. auto.
Qed.

Lemma row_queue_ready k t l n : (forall d, d ∈ l -> valid_task d /\ task_id d <> k) ->
  keeps (same_row k) (queue_ready_dependents_after_success t (Some l) (Some n)).
Proof.
  intros Hl w r w' E. change (for_each (enqueue_ready_dependent (task_id t) n) l w = (r, w')) in E. revert w r w' E.
  apply keeps_for_each; [apply _|]. intros d Hd. destruct (Hl d Hd). by apply row_enqueue.
Qed.

Lemma follow_up_records t s wr n w l w' : status t = s -> s <> TaskStatus.PENDING -> recorded w (task_id t) s ->
  follow_up t wr n w = (Ok l, w') ->
  recorded w' (task_id t) s /\ forall d, d ∈ l -> valid_task d /\ task_id d <> task_id t.
Proof.
  intros Hst Hs Hr. unfold follow_up. intros (all & w1 & E1 & E)%st_bind_Ok.
  destruct (list_run_spec _ _ _ _ (proj1 Hr) E1) as [Et Hall].
  assert (recorded w1 (task_id t) s) as Hr1 by (by unfold recorded; rewrite Et).
  repeat case_bool_decide; cbn [andb] in E.
  - injection E as <- <-. split; [done|]. intros d Hd. by eapply (ready_other w t all _ s).
  - destruct (negb wr); [|injection E as <- <-; by split; [|intros ? ?%elem_of_nil]].
    assert (keeps (same_row (task_id t)) (cancel_dependents n (blocked_dependents t all))) as Hc.
    { apply row_cancel. intros d Hd. eapply blocked_other; [|exact Hd]. intros u Hu. by apply Hall. }
    apply st_bind_Ok in E as (canceled & w2 & E2 & E). apply Hc in E2. eapply recorded_row in E2; [|exact Hr1].
    destruct canceled; [injection E as <- <-|apply st_bind_Ok in E as (u & w3 & E3 & E); injection E as <- <-].
    + split; [done|by intros ? ?%elem_of_nil].
    + split; [|by intros ? ?%elem_of_nil]. eapply recorded_row; [|exact E2]. by apply (row_of_tasks (task_id t) _ (tasks_snapshots _ _ _)) in E3.
  - injection E as <- <-. by split; [|intros ? ?%elem_of_nil].
Qed.

Lemma store_outcome_records name o s d ra wr n w l w' : valid_task (es_task s) -> status (es_task s) <> TaskStatus.PENDING ->
  rows_ok (tasks_of w) -> store_outcome name o s d ra wr n w = (Ok l, w') ->
  recorded w' (task_id (es_task s)) (status (es_task s)) /\ forall d, d ∈ l -> valid_task d /\ task_id d <> task_id (es_task s).
Proof.
  intros Hv Hs Hw. unfold store_outcome. intros (u1 & w1 & E1 & E)%st_bind_Ok.
  assert (rows_ok (tasks_of w1)) as Hw1.
  { assert (same_tasks w w1) as Ht; [|by rewrite Ht]. destruct (oc_approval_id o); [by eapply tasks_persist_approval|by injection E1 as _ <-]. }
  apply st_bind_Ok in E as (u2 & w2 & E2 & E). apply update_both_records in E2; [|by apply Hv|done].
  apply st_bind_Ok in E as (u3 & w3 & E3 & E). apply (row_of_tasks (task_id (es_task s)) _ (tasks_audit _)) in E3.
  apply (recorded_row _ _ _ _ E3) in E2.
  apply st_bind_Ok in E as (u4 & w4 & E4 & E). assert (recorded w4 (task_id (es_task s)) (status (es_task s))) as H4.
  { destruct (_ && _); [|by injection E4 as _ <-].
    apply (row_of_tasks (task_id (es_task s)) _ (tasks_record_ledger _ _ _)) in E4. by eapply recorded_row. }
  by eapply follow_up_records.
Qed.

Lemma persist_records t c o w rep w' : rows_ok (tasks_of w) -> persist_outcome t c o w = (Ok rep, w') ->
  recorded w' (rp_task_id rep) (target_status (rp_disposition rep)).
Proof.
  intros Hw. unfold persist_outcome. intros ([d ra] & w0 & E0 & E)%st_bind_Ok. apply lift_Ok in E0 as [_ ->].
  apply st_bind_Ok in E as (n & w1 & E1 & E). apply tasks_now_ms in E1. unfold same_tasks in E1. rewrite <- E1 in Hw. clear E1.
  apply st_bind_Ok in E as (s & w2 & E2 & E). apply lift_Ok in E2 as [E2 ->].
  pose proof (apply_status _ _ _ _ _ E2) as Hst. pose proof (apply_valid _ _ _ _ _ E2) as Hv.
  apply st_bind_Ok in E as (ready & w3 & E3 & E).
  assert (status (es_task s) <> TaskStatus.PENDING) as Hp by (rewrite Hst; by destruct d).
  unfold uow in E3. destruct (store_outcome _ _ _ _ _ _ _ w1) as [[l|e] w4] eqn:Es; [|done]. injection E3 as -> ->.
  apply store_outcome_records in Es as [Hr Hl]; [|done..].
  apply st_bind_Ok in E as (u & w5 & E5 & [= <- <-]). cbn [rp_task_id rp_disposition]. rewrite <- Hst.
  destruct ready as [|d0 ready]; [by injection E5 as _ <-|]. case_bool_decide; [|by injection E5 as _ <-].
  apply (row_queue_ready (task_id (es_task s))) in E5; [|done]. by eapply recorded_row.
Qed.

(** The rows stay in order. *)
Definition ok_rows (w w' : world) : Prop := rows_ok (tasks_of w) -> rows_ok (tasks_of w').
#[local] Instance ok_rows_preorder : PreOrder ok_rows.
Proof. split; [intros w; unfold ok_rows; auto|]. intros a b c. unfold ok_rows. auto. Qed.
Lemma ok_rows_undoable : undoable ok_rows.
Proof. intros w w' _ Hw. exact Hw. Qed.
Lemma ok_of_tasks {B} (m : st world B) : keeps same_tasks m -> keeps ok_rows m.
Proof. intros Hm w r w' E%Hm Hw. unfold same_tasks in E. by rewrite E. Qed.
#[local] Hint Resolve ok_rows_undoable ok_of_tasks : keeps.

Lemma ok_update_both s : keeps ok_rows (update_both s).
Proof.
  unfold update_both. apply keeps_bind; [apply _|auto with keeps|intros _].
  apply keeps_bind; [apply _| |intros _; by apply keeps_ret, _].
  intros w r w'. unfold on_tables, on_db, on_approvals, ok_rows, tasks_of.
  destruct (TaskRepo.update args_eq (es_task s) (db_tables (w_approvals w))) as [q d] eqn:E. intros [= _ <-] Hw. cbn. rewrite tables_with.
  by apply task_update_rows in E as [? _].
Qed.
#[local] Hint Resolve ok_update_both : keeps.

Lemma ok_before t c : keeps ok_rows (on_before_execute t c).
Proof. unfold on_before_execute, persist_started. walk. Qed.
Lemma ok_run name a ctx : keeps ok_rows (run run_tool name a ctx).
Proof. apply ok_of_tasks, tasks_elsewhere. by intros w r w' [= _ <-]. Qed.
#[local] Hint Resolve ok_before ok_run : keeps.

Lemma ok_execute_call t c ctx : keeps ok_rows (execute_call t c ctx).
Proof.
  unfold execute_call. apply execute_keeps; [apply _|..].
  - intros B m. auto with keeps.
  - apply ok_of_tasks, tasks_on_db. intros d r d' E. by eapply lookup_keeps_tasks.
  - intros a. apply ok_of_tasks, tasks_on_db. intros d r d' E. by eapply request_keeps_tasks.
  - auto with keeps.
  - auto with keeps.
  - intros mk. walk.
Qed.

Lemma tasks_get_success n k : keeps same_tasks (on_tables (Ledger.get_success n k)).
Proof. apply tasks_on_tables. by intros d r d' [= _ <-]. Qed.
Lemma tasks_reuse t tool c : keeps same_tasks (can_reuse_cached_success t tool c).
Proof. unfold can_reuse_cached_success, evaluate_guards. walk. Qed.
Lemma tasks_breaker c o : keeps same_tasks (record_circuit_breaker_result c o).
Proof. unfold record_circuit_breaker_result. walk. Qed.
Lemma tasks_delayed t c o : keeps same_tasks (delayed_report t c o).
Proof. unfold delayed_report. walk. Qed.
#[local] Hint Resolve tasks_get_success tasks_reuse tasks_breaker tasks_delayed : keeps.

Lemma cached_report_records t c o w orep w' : valid_task t -> valid_tool_call c -> rows_ok (tasks_of w) -> cached_report t c o w = (Ok orep, w') ->
  exists rep, orep = Some rep /\ rp_disposition rep = ExecutionDisposition.CACHED /\ recorded w' (rp_task_id rep) TaskStatus.SUCCEEDED.
Proof.
  intros Ht Hc Hw. unfold cached_report. intros (n & w1 & E1 & E)%st_bind_Ok. apply tasks_now_ms in E1. unfold same_tasks in E1.
  rewrite <- E1 in Hw. clear E1.
  apply st_bind_Ok in E as (s1 & w2 & E2 & E). apply lift_Ok in E2 as [E2 ->].
  apply st_bind_Ok in E as (s & w2 & E3 & E). apply lift_Ok in E3 as [E3 ->].
  assert (task_id (es_task s) = task_id t) as Hid.
  { apply start_execution_iff in E2 as [_ ->]; [|done..]. apply complete_with_id in E3; [done|apply Ht]. }
  pose proof (complete_with_valid _ _ _ _ _ _ E3) as Hv. pose proof (complete_with_status _ _ _ _ _ _ E3) as Hst.
  apply st_bind_Ok in E as (u & w3 & E4 & E). apply update_both_records in E4; [|apply Hv|done].
  rewrite Hid, Hst in E4 by done.
  apply st_bind_Ok in E as (dec & w4 & E5 & E). apply lift_Ok in E5 as [_ ->].
  apply st_bind_Ok in E as (u2 & w4 & E6 & [= <- <-]). eexists. split; [done|]. split; [done|]. cbn [rp_task_id report_of].
  apply (row_of_tasks (task_id t) _ (tasks_audit _)) in E6. by eapply recorded_row.
Qed.

(** What is read before anything is executed. *)
Lemma stored_task_ok w id t : rows_ok (tasks_of w) -> stored_task w id t ->
  valid_task t /\ task_id t = strip id /\ recorded w (strip id) (status t).
Proof.
  intros Hw Hs. unfold stored_task in Hs. destruct (TaskRepo.get id (db_tables (w_approvals w))) as [q d] eqn:E. cbn in Hs. subst q.
  apply get_spec in E as (_ & H1' & H2' & H3'); [|done]. done.
Qed.

(** The cache is used, and the task recorded, or it is not. *)
Lemma cached_cases t c w orep w' : valid_task t -> valid_tool_call c -> rows_ok (tasks_of w) ->
  maybe_use_cached_success t c w = (Ok orep, w') ->
  rows_ok (tasks_of w') /\
  forall rep, orep = Some rep -> rp_disposition rep = ExecutionDisposition.CACHED /\ recorded w' (rp_task_id rep) TaskStatus.SUCCEEDED.
Proof.
  intros Ht Hc Hw. assert (forall w1 o1, (Ok None, w) = (@Ok (option ExecutionReport) o1, w1) -> rows_ok (tasks_of w1) /\
    forall rep, o1 = Some rep -> rp_disposition rep = ExecutionDisposition.CACHED /\ recorded w1 (rp_task_id rep) TaskStatus.SUCCEEDED)
    as Hnone by by intros w1 o1 [= <- <-].
  unfold maybe_use_cached_success. destruct (ToolRegistry.get (tool_name c) registry) as [tool|e]; [|destruct e; first [done|apply Hnone]].
  destruct (negb (mf_idempotent (manifest tool))); [apply Hnone|]. clear Hnone. unfold uow.
  match goal with |- (match ?m w with _ => _ end = _ -> _) => destruct (m w) as [[o|e] w1] eqn:E end; [|done]. intros [= <- <-].
  apply st_bind_Ok in E as (n & w2 & E1 & E). apply tasks_now in E1. unfold same_tasks in E1. rewrite <- E1 in Hw. clear E1.
  apply st_bind_Ok in E as (hit & w3 & E2 & E). apply (tasks_get_success n _) in E2. unfold same_tasks in E2. rewrite <- E2 in Hw.
  destruct hit as [hit|]; [|by injection E as <- <-]. destruct (negb _); [by injection E as <- <-|].
  apply st_bind_Ok in E as (b & w4 & E3 & E). apply (tasks_reuse t tool c) in E3. unfold same_tasks in E3. rewrite <- E3 in Hw.
  destruct b; [|by injection E as <- <-].
  apply cached_report_records in E as (rep & -> & Hd & Hr); [|done..]. split; [apply Hr|]. by intros rep' [= <-].
Qed.

Lemma execute_task_records id w rep w' : rows_ok (tasks_of w) -> execute_task id w = (Ok rep, w') ->
  rp_disposition rep = ExecutionDisposition.FAILED_TRANSIENT /\ error_code (rp_result rep) = Some EXECUTION_DELAYED_ERROR_CODE \/
  recorded w' (rp_task_id rep) (target_status (rp_disposition rep)).
Proof.
  intros Hw. unfold execute_task. intros (u & w0 & E0 & E)%st_bind_Ok. apply lift_Ok in E0 as [_ ->].
  apply st_bind_Ok in E as ([t c] & w1 & E1 & E). apply load_returns in E1 as (Hs & Hc & ->).
  destruct (stored_task_ok _ _ _ Hw Hs) as (Hv & Hid & Hr). pose proof (vt_tool_call t Hv c Hc) as Hvc.
  case_bool_decide as Hcan.
  { right. unfold skipped in E. apply st_bind_Ok in E as (r & w1 & E1 & [= <- <-]). apply lift_Ok in E1 as [_ ->].
    cbn [rp_task_id rp_disposition report_of target_status]. rewrite Hid. by rewrite <- Hcan. }
  apply st_bind_Ok in E as (orep & w1 & E1 & E). apply cached_cases in E1 as [Hw1 Hrep]; [|done..].
  destruct orep as [rep'|].
  { injection E as <- <-. right. destruct (Hrep rep' eq_refl) as [-> H']. exact H'. }
  apply st_bind_Ok in E as (ctx & w2 & E2 & E). apply lift_Ok in E2 as [_ ->].
  apply st_bind_Ok in E as (u2 & w3 & E3 & E). apply tasks_set_task in E3. unfold same_tasks in E3. rewrite <- E3 in Hw1.
  apply st_bind_Ok in E as (o & w4 & E4 & E). apply ok_execute_call in E4. apply E4 in Hw1.
  apply st_bind_Ok in E as (cur & w5 & [= <- <-] & E).
  apply st_bind_Ok in E as (u3 & w6 & E6 & E). apply (tasks_breaker _ o) in E6. unfold same_tasks in E6. rewrite <- E6 in Hw1.
  case_bool_decide as Hdel.
  - left. unfold delayed_report in E. apply st_bind_Ok in E as (dl & w7 & E7 & E). apply st_bind_Ok in E as (u4 & w8 & E8 & [= <- <-]).
    done.
  - right. by eapply persist_records.
Qed.

(** ** A tool runs only for an attempt *)

(** The task runs already, or can be started. *)
Definition may_run (t : Task) (c : ToolCall) : Prop :=
  status t = TaskStatus.RUNNING /\ tc_status c = ToolCallStatus.RUNNING \/
  status t ∈ [TaskStatus.PENDING; TaskStatus.QUEUED; TaskStatus.FAILED] /\
  tc_status c ∈ [ToolCallStatus.PENDING; ToolCallStatus.FAILED] /\ attempts t < max_attempts t.

Lemma may_run_dec t c : may_run t c \/ ~ may_run t c.
Proof.
  unfold may_run. destruct (decide (status t = TaskStatus.RUNNING /\ tc_status c = ToolCallStatus.RUNNING)); [tauto|].
  destruct (decide (status t ∈ [TaskStatus.PENDING; TaskStatus.QUEUED; TaskStatus.FAILED])); [|tauto].
  destruct (decide (tc_status c ∈ [ToolCallStatus.PENDING; ToolCallStatus.FAILED])); [|tauto].
  destruct (decide (attempts t < max_attempts t)); tauto.
Qed.

Lemma before_refuses t c w b w' : valid_task t -> valid_tool_call c -> ~ may_run t c -> on_before_execute t c w <> (Ok b, w').
Proof.
  intros Ht Hc Hn. unfold on_before_execute. destruct (_ && _) eqn:E.
  - apply andb_prop in E as [E1 E2]. apply bool_decide_eq_true_1 in E1, E2. intros _. apply Hn. by left.
  - intros (s & w1 & E1 & _)%st_bind_Ok. unfold persist_started in E1. apply st_bind_Ok in E1 as (n & w2 & _ & E1).
    apply st_bind_Ok in E1 as (s1 & w3 & E3 & _). apply lift_Ok in E3 as [E3 _].
    apply start_execution_iff in E3 as [(H1' & H2' & H3' & _) _]; [|done..]. apply Hn. by right.
Qed.

Definition runs_same (w w' : world) : Prop := w_runs w' = w_runs w.
#[local] Instance runs_preorder : PreOrder runs_same.
Proof. split; [done|]. intros a b c. unfold runs_same. congruence. Qed.
Lemma runs_of_calm {B} (m : st world B) : keeps calm m -> keeps runs_same m.
Proof. intros Hm w r w' E. by apply Hm in E as [_ ?]. Qed.

Lemma execute_call_refuses t c ctx : valid_task t -> valid_tool_call c -> ~ may_run t c -> keeps runs_same (execute_call t c ctx).
Proof.
  intros Ht Hc Hn. unfold execute_call. apply execute_keeps; [apply _|..].
  - intros B m. apply runs_of_calm, calm_guards.
  - apply runs_of_calm, calm_db.
  - intros a. apply runs_of_calm, calm_db.
  - apply runs_of_calm, calm_now.
  - apply runs_of_calm, calm_draw.
  - intros mk w r w'. unfold mbind at 1, st_bind at 1. destruct (on_before_execute t c w) as [[b|e] w1] eqn:E.
    + by apply before_refuses in E.
    + intros [= _ <-]. by apply (runs_of_calm _ (calm_before t c)) in E.
Qed.

(** The runs of an execution: none, or one of the task's tool. *)
Definition one_run (P : Task -> ToolCall -> Prop) (id : string) (w w' : world) : Prop :=
  w_runs w' = w_runs w \/
  exists t c, stored_task w id t /\ tool_call t = Some c /\ P t c /\ w_runs w' = (tool_name c, args c) :: w_runs w.

Lemma execute_call_runs t c ctx w r w' : valid_task t -> valid_tool_call c -> execute_call t c ctx w = (r, w') ->
  w_runs w' = w_runs w \/ may_run t c /\ w_runs w' = (tool_name c, args c) :: w_runs w.
Proof.
  intros Ht Hc E. destruct (may_run_dec t c) as [Hm|Hn]; [|left; by eapply execute_call_refuses].
  unfold execute_call in E. apply execute_runs in E as [[E _]|[[E _] _]]; [by left|by right|].
  cbn. intros w1 r1 w1' E1. by apply (runs_of_calm _ (calm_before t c)) in E1.
Qed.

Lemma execute_task_runs id w r w' : rows_ok (tasks_of w) -> execute_task id w = (r, w') ->
  one_run (fun t c => may_run t c) (strip id) w w'.
Proof.
  intros Hw. unfold execute_task, mbind at 1, st_bind at 1, lift at 1. destruct (raise_if _ _); [|intros [= _ <-]; by left].
  unfold mbind at 1, st_bind at 1. destruct (load_task_and_tool_call (strip id) w) as [[[t c]|e] w1] eqn:E1; cycle 1.
  { intros [= _ <-]. left. by apply (runs_of_calm _ (calm_load _)) in E1. }
  apply load_returns in E1 as (Hs & Hc & ->). destruct (stored_task_ok _ _ _ Hw Hs) as (Hv & Hid & Hr).
  pose proof (vt_tool_call t Hv c Hc) as Hvc. case_bool_decide.
  { intros E. left. by apply (runs_of_calm _ (calm_skipped _ _ _ _ _ _ _ _ _)) in E. }
  unfold mbind at 1, st_bind at 1. destruct (maybe_use_cached_success t c w) as [[o|e] w1] eqn:E1; 
    apply (runs_of_calm _ (calm_cached _ _)) in E1; cycle 1.
  { intros [= _ <-]. by left. }
  destruct o as [rep|]; [intros [= _ <-]; by left|].
  unfold mbind at 1, st_bind at 1, lift at 1. destruct (tool_context t c) as [ctx|e]; [|intros [= _ <-]; by left].
  unfold mbind at 1, st_bind at 1, set_task at 1. set (w2 := set_client _ w1).
  unfold mbind at 1, st_bind at 1. destruct (execute_call t c ctx w2) as [q w3] eqn:E3.
  intros E. unfold one_run. assert (w_runs w' = w_runs w3) as ->.
  { destruct q as [out|e]; [|by injection E as _ <-]. revert E. generalize w3. clear. intros w3 E.
    match type of E with ?m w3 = _ => assert (keeps runs_same m) as Hk; [apply runs_of_calm; walk|by apply Hk in E] end. }
  apply execute_call_runs in E3 as [E3|[Hm E3]]; [| |done..].
  - left. rewrite E3. exact E1.
  - right. exists t, c. split_and!; [done..|]. rewrite E3. change (w_runs w2) with (w_runs w1). by rewrite E1.
Qed.

Lemma list_run_world run w r w' : list_run_tasks run w = (r, w') ->
  r = (TaskRepo.list_by_run run (db_tables (w_approvals w))).1 /\ w' = w.
Proof.
  unfold list_run_tasks, on_tables, on_db, on_approvals, TaskRepo.list_by_run. set (q := (_ ≫= _)).
  rewrite with_same_tables. intros [= <- <-]. split; [done|]. by destruct w.
Qed.

(** What a queued task waits for has succeeded. *)
Definition dependencies_met (w : world) (t : Task) : Prop := status t ∈ [TaskStatus.PENDING; TaskStatus.QUEUED] ->
  exists all, (TaskRepo.list_by_run (run_id t) (db_tables (w_approvals w))).1 = Ok all /\ has_unmet_dependencies t all = false.

Lemma no_run {B} P id (m : st world B) w r w' : keeps calm m -> m w = (r, w') -> one_run P id w w'.
Proof. intros Hm E. left. by apply (runs_of_calm _ Hm) in E. Qed.

Lemma calm_ack l : keeps runs_same (ack l).
Proof.
  unfold ack. apply keeps_bind; [apply _|apply runs_of_calm, calm_queue|intros _]. by intros w r w' [= _ <-].
Qed.
Lemma calm_nack l d reason : keeps runs_same (nack l d reason).
Proof. unfold nack. apply keeps_bind; [apply _|apply runs_of_calm, calm_queue|intros _]. by intros w r w' [= _ <-]. Qed.
#[local] Hint Resolve runs_of_calm calm_ack calm_nack : keeps.

(** The computation of [E] runs nothing. *)
Ltac runless E :=
  match type of E with ?m _ = _ => assert (keeps runs_same m) as Hk by walk; by apply Hk in E end.

Lemma process_runs lease w r w' : rows_ok (tasks_of w) -> process_lease lease w = (r, w') ->
  one_run (fun t c => may_run t c /\ dependencies_met w t) (env_task_id (lease_envelope lease)) w w'.
Proof.
  intros Hw. unfold process_lease. set (id := env_task_id (lease_envelope lease)).
  unfold mbind at 1, st_bind at 1. destruct (load_task_and_tool_call id w) as [[[t c]|e] w1] eqn:E1; cycle 1.
  { intros [= _ <-]. left. by apply (runs_of_calm _ (calm_load _)) in E1. }
  apply load_returns in E1 as (Hs & Hc & ->). unfold mbind at 1, st_bind at 1.
  destruct (uow (list_run_tasks (run_id t)) w) as [q w1] eqn:E1.
  assert (q = (TaskRepo.list_by_run (run_id t) (db_tables (w_approvals w))).1 /\ w1 = w) as [Hq ->].
  { unfold uow in E1. destruct (list_run_tasks (run_id t) w) as [q0 w0] eqn:E0. apply list_run_world in E0 as [-> ->].
    destruct (TaskRepo.list_by_run _ _).1; split; [congruence|inversion E1; by destruct w|congruence|inversion E1; by destruct w]. }
  clear E1. destruct q as [all|e]; [|intros [= _ <-]; by left].
  destruct (_ && has_unmet_dependencies _ _) eqn:Hdep; [intros E; left; runless E|].
  destruct (bool_decide (status t = TaskStatus.SUCCEEDED)); [intros E; left; runless E|].
  destruct (bool_decide (status t = TaskStatus.WAITING_APPROVAL)); [intros E; left; runless E|].
  destruct (bool_decide (status t = TaskStatus.CANCELED)); [intros E; left; runless E|].
  destruct ((max_attempts t <=? attempts t) && _); [intros E; left; runless E|].
  intros E. unfold execute_and_settle, mbind at 1, st_bind at 1 in E. destruct (execute_task id w) as [q w1] eqn:E1.
  assert (w_runs w' = w_runs w1) as Hr.
  { destruct q as [rep|e]; [|by injection E as _ <-]. revert E. generalize w1. clear. intros w1 E.
    runless E. }
  apply execute_task_runs in E1; [|done]. destruct E1 as [E1|(t' & c' & Hs' & Hc' & Hm & E1)]; [left; by rewrite Hr|]. right.
  exists t', c'. assert (stored_task w id t') as Hs2.
  { unfold stored_task, TaskRepo.get, required_key in *. by rewrite strip_idemp in Hs'. }
  split_and!; [done..| |by rewrite Hr]. intros Hq2. assert (t' = t) as -> by (unfold stored_task in *; congruence).
  exists all. split; [done|]. rewrite bool_decide_true in Hdep by done. done.
Qed.

(** *** The rows stay in order, whatever becomes of the lease. *)
Lemma ok_task_update t : keeps ok_rows (on_tables (TaskRepo.update args_eq t)).
Proof.
  intros w r w'. unfold on_tables, on_db, on_approvals, ok_rows, tasks_of.
  destruct (TaskRepo.update args_eq t (db_tables (w_approvals w))) as [q d] eqn:E. intros [= _ <-] Hw. cbn. rewrite tables_with.
  by apply task_update_rows in E as [? _].
Qed.
#[local] Hint Resolve ok_task_update ok_execute_call : keeps.
Lemma ok_dependent_state t n : keeps ok_rows (persist_dependent_task_state t n).
Proof. unfold persist_dependent_task_state. walk. Qed.
#[local] Hint Resolve ok_dependent_state : keeps.
Lemma ok_enqueue u n t : keeps ok_rows (enqueue_ready_dependent u n t).
Proof. unfold enqueue_ready_dependent. walk. Qed.
#[local] Hint Resolve ok_enqueue : keeps.
Lemma ok_ready t l n : keeps ok_rows (queue_ready_dependents_after_success t l n).
Proof. unfold queue_ready_dependents_after_success. walk. Qed.
Lemma ok_cancel n l : keeps ok_rows (cancel_dependents n l).
Proof. induction l; cbn [cancel_dependents]; walk. Qed.
#[local] Hint Resolve ok_ready ok_cancel : keeps.
Lemma ok_persist t c o : keeps ok_rows (persist_outcome t c o).
Proof. unfold persist_outcome, store_outcome, follow_up. walk. Qed.
Lemma ok_cached t c : keeps ok_rows (maybe_use_cached_success t c).
Proof. unfold maybe_use_cached_success, cached_report. walk. Qed.
Lemma ok_load id : keeps ok_rows (load_task_and_tool_call id).
Proof.
  assert (keeps same_tasks (on_tables (TaskRepo.get id))) by (apply tasks_on_tables; by intros d r d' [= _ <-]).
  unfold load_task_and_tool_call. walk.
Qed.
Lemma ok_load_approval id : keeps ok_rows (load_approval_status id).
Proof.
  assert (keeps same_tasks (on_tables (ApprovalRepo.get_by_tool_call id))) by (apply tasks_on_tables; by intros d r d' [= _ <-]).
  unfold load_approval_status. walk.
Qed.
#[local] Hint Resolve ok_persist ok_cached ok_load ok_load_approval : keeps.
Lemma ok_execute_task id : keeps ok_rows (execute_task id).
Proof.
  assert (forall t c, keeps same_tasks (get_task t c)) by (intros t c; apply tasks_elsewhere; by intros w r w' [= _ <-]).
  unfold execute_task, skipped. walk.
Qed.
Lemma ok_settle s : keeps ok_rows (settle s).
Proof. apply ok_of_tasks, tasks_elsewhere. by intros w r w' [= _ <-]. Qed.
#[local] Hint Resolve ok_execute_task ok_settle : keeps.
Lemma process_rows lease : keeps ok_rows (process_lease lease).
Proof. unfold process_lease, execute_and_settle, ack, nack, skipped. walk. Qed.

(** ** Properties *)

(** C7: a lease is settled exactly once, and only by a call that returns.
    Processing a lease either returns a report after acknowledging or sending
    back this lease, one of the two and once; or raises and does neither, so
    that the queue delivers it again. It is sent back only with a report of a
    transient failure and the delay of that report; and a transient failure is
    acknowledged only when the database says that the task has no attempt left. *)
Theorem lease_settled_once lease w r w' : process_lease lease w = (r, w') ->
  match r with
  | Ok rep => exists s, x_settled (w_client w') = s :: x_settled (w_client w) /\ settles_well lease rep w' s
  | Raise _ => x_settled (w_client w') = x_settled (w_client w)
  end.
Proof. apply process_settles. Qed.

(** C1: one lease, at most one run, for a counted attempt. Processing a lease
    runs no tool, or exactly the tool of the task the lease names, once, with
    the stored arguments; and then the database held that task either running
    already with its tool call, or pending, queued or failed with an attempt
    left and, if pending or queued, all its dependencies succeeded. So no
    finished, canceled, waiting or exhausted task runs. *)
Theorem lease_runs_once lease w r w' : rows_ok (tasks_of w) -> process_lease lease w = (r, w') ->
  one_run (fun t c => may_run t c /\ dependencies_met w t) (env_task_id (lease_envelope lease)) w w'.
Proof. apply process_runs. Qed.

(** C23: the report of an execution is what the database says. When
    [execute_task] returns, the task of the report has in the database the
    status its disposition stands for (succeeded for SUCCEEDED and CACHED,
    failed for both failures, waiting for approval, canceled for DENIED and
    CANCELED), whatever became of its dependents; the only exception is an
    execution that a guard delayed, which is reported as a transient failure
    with the error code [execution_delayed]. *)
Theorem report_matches_database id w rep w' : rows_ok (tasks_of w) -> execute_task id w = (Ok rep, w') ->
  rp_disposition rep = ExecutionDisposition.FAILED_TRANSIENT /\ error_code (rp_result rep) = Some EXECUTION_DELAYED_ERROR_CODE \/
  recorded w' (rp_task_id rep) (target_status (rp_disposition rep)).
Proof. apply execute_task_records. Qed.
End executor.

(** ** A deployment: the tables, the audit entries, and approvals in the tables *)

(** The audit trail as the list of what it was told. *)
#[export] Instance logged_database : Database (tables * list audit_entry) := {|
  db_tables d := d.1;
  with_tables t d := (t, d.2);
  append_audit e d := (Ok tt, (d.1, d.2 ++ [e]));
  upsert_task_snapshots _ _ _ d := (Ok tt, d);
|}%list.

#[export] Instance logged_database_laws : DatabaseLaws (tables * list audit_entry).
Proof. split; [done|by intros []|by intros e d r d' [= _ <-]|by intros t ts n d r d' [= _ <-]]. Qed.

(** An operation on the tables. *)
Definition in_tables {A} (m : st tables A) : st (tables * list audit_entry) A := fun d =>
  let '(r, t) := m d.1 in (r, (t, d.2)).

(** [DbApprovalStore] in the same database; decisions read the clock. *)
#[export] Instance logged_approvals : ApprovalStore (tables * list audit_entry) :=
  let S := @DbApprovalStore tables (approval_repo 0) in {|
    create_pending a := in_tables (create_pending a);
    get_approval id := in_tables (get_approval id);
    get_by_tool_call id := in_tables (get_by_tool_call id);
    list_pending limit offset := in_tables (list_pending limit offset);
    decide_approval now_ms id s by_ := in_tables (@decide_approval _ (@DbApprovalStore tables (approval_repo now_ms)) now_ms id s by_);
  |}.

Lemma in_tables_keeps {A} (m : st tables A) : (forall d r d', m d = (r, d') -> task_rows d' = task_rows d) ->
  forall d r d', in_tables m d = (r, d') -> task_rows (db_tables d') = task_rows (db_tables d).
Proof. intros Hm d r d'. unfold in_tables. destruct (m d.1) as [q t] eqn:E. intros [= _ <-]. by eapply Hm. Qed.

Lemma unit_of_work_keeps {A} (m : st tables A) : (forall d r d', m d = (r, d') -> task_rows d' = task_rows d) ->
  forall d r d', unit_of_work m d = (r, d') -> task_rows d' = task_rows d.
Proof.
  intros Hm d r d'. unfold unit_of_work. destruct (m d) as [[a|e] d1] eqn:E; intros [= _ <-]; [|done]. by eapply Hm.
Qed.

#[export] Instance logged_approvals_keep : ApprovalsKeepTasks (tables * list audit_entry).
Proof.
  split.
  - intros id. apply in_tables_keeps, unit_of_work_keeps. by intros d r d' [= _ <-].
  - intros a. apply in_tables_keeps. cbn. unfold db_create_pending.
    destruct (bool_decide _); [by intros d r d' [= _ <-]|]. apply unit_of_work_keeps. intros d r d'.
    unfold mbind, st_bind.
    destruct (@repo_get_by_tool_call tables (approval_repo 0) (ap_tool_call_id a) d) as [q d1] eqn:E1. injection E1 as _ <-.
    destruct q as [[b|]|e]; [by intros [= _ <-]| |by intros [= _ <-]].
    cbn. unfold ApprovalRepo.create. destruct (_ ≫= _); by intros [= _ <-].
  - intros id. apply in_tables_keeps, unit_of_work_keeps. by intros d r d' [= _ <-].
Qed.

#[export] Existing Instance TaskQueue.TaskQueue.ops.

(** A run of two reads, the second after the first. *)
Definition read_run_id : string := sample_uuid "c".
Definition first_read : Task :=
  mkTask (sample_uuid "b") read_run_id "first" TaskStatus.QUEUED (Some read_call) 0 2 60 [] 0 None None [] [].
Definition second_call : ToolCall :=
  mkToolCall (sample_uuid "2") "fs.read_text" [("path", JStr "b.txt")] "fs.read" "k2" ToolCallStatus.PENDING 0 None None None.
Definition second_read : Task :=
  mkTask (sample_uuid "d") read_run_id "second" TaskStatus.PENDING (Some second_call) 0 2 60 [sample_uuid "b"] 0 None None [] [].

Definition read_tables (ledger : list (string * LedgerRow)) : tables :=
  mkTables [read_run_id] [(task_id first_read, task_to_row_dict first_read); (task_id second_read, task_to_row_dict second_read)]
    [(tool_call_id read_call, tool_call_to_row_dict read_call); (tool_call_id second_call, tool_call_to_row_dict second_call)]
    [] ledger.

(** The service over them, with the in-memory heap queue: reads are allowed
    without approval, and a tool answers with the path it was given. *)
Notation sample_state_type := (world guard_state (tables * list audit_entry) (client TaskQueue.t)).
Definition sample_retries : RetryPolicy := mkRetryPolicy 3 (of_Z 1) (of_Z 60) fzero {["TIMEOUT"]} ∅.
Definition answer_path (_ : list (string * list (string * json))) (_ : string) (args : list (string * json)) (_ : ToolContext)
  : res ToolResult := Ok (mkToolResult true (aget "path" args) None None None None).
Notation db_state := (tables * list audit_entry)%type.
Notation deployed f := (f guard_state db_state TaskQueue.t logged_database logged_approvals TaskQueue.ops
  read_registry (sample_chain no_limits) (@build_default_policy_rules sample_checks) sample_ctx sample_retries
  (fun n => 5000 + Z.of_nat n) (fun n => 5000 + Z.of_nat n) (fun n => 5000 + Z.of_nat n)
  (fun n => uuid_str (4 * 16 ^ 19 + 8 * 16 ^ 15 + 2000 + Z.of_nat n)) (fun _ => "hash") (fun _ _ _ _ => "preview")
  answer_path None (fun _ => None) (fun _ _ => true) (fun v => v) (fun x => x) (fun _ => None) None [])
  (only parsing).
Definition sample_execute_task : string -> st sample_state_type ExecutionReport := deployed (@execute_task).
Definition sample_process_lease : Lease -> st sample_state_type ExecutionReport := deployed (@process_lease).

(** The queue has delivered the first read. *)
Definition read_envelope : TaskEnvelope :=
  mkTaskEnvelope (uuid_str (4 * 16 ^ 19 + 8 * 16 ^ 15 + 1)) (task_id first_read) read_run_id 0 1000 1000 None None None None.
Definition delivered : option (Lease * TaskQueue.t) :=
  match TaskQueue.dequeue (sample_lease_id 1) 1000 None (TaskQueue.enqueue 1000 read_envelope empty_queue).2 with
  | (Ok (Some l), q) => Some (l, q)
  | _ => None
  end.
Definition first_lease : Lease := match delivered with Some (l, _) => l | None => mkLease "" read_envelope 0 fzero 0 end.
Definition delivered_queue : TaskQueue.t := match delivered with Some (_, q) => q | None => empty_queue end.

Definition first_world (ledger : list (string * LedgerRow)) : sample_state_type :=
  mkWorld fresh_state (read_tables ledger, []) (mkClient delivered_queue 0 0 None []) 0 0 [].

(** What a reader sees of a world. *)
Definition statuses (w : sample_state_type) : list string := (fun p => tr_status p.2) <$> tasks_of w.
Definition queued_tasks (w : sample_state_type) : list string :=
  (fun p => env_task_id (it_env p.2)) <$> map_to_list (q_view (x_queue (w_client w))).

Lemma read_tables_rows ledger : rows_ok (task_rows (read_tables ledger)).
Proof.
  unfold read_tables. cbn [task_rows]. split.
  - apply NoDup_cons. split; [|apply NoDup_singleton]. intros E%list_elem_of_singleton. by vm_compute in E.
  - intros k r Hin. apply elem_of_cons in Hin as [[= -> ->]|Hin%list_elem_of_singleton]; [by split; vm_compute|].
    injection Hin as -> ->. by split; vm_compute.
Qed.
Lemma first_world_rows ledger : rows_ok (tasks_of (first_world ledger)).
Proof. exact (read_tables_rows ledger). Qed.

Definition processed (ledger : list (string * LedgerRow)) : res ExecutionReport * sample_state_type :=
  sample_process_lease first_lease (first_world ledger).

(** The first read runs, succeeds, and its dependent is queued. *)
Example first_read_succeeds :
  (rp_disposition <$> (processed []).1) = Ok ExecutionDisposition.SUCCEEDED /\
  w_runs (processed []).2 = [("fs.read_text", [("path", JStr "a.txt")])] /\
  statuses (processed []).2 = ["succeeded"; "queued"] /\ queued_tasks (processed []).2 = [task_id second_read].
Proof. by vm_compute. Qed.

Lemma lease_settled_once_witness : exists rep s,
  (processed []).1 = Ok rep /\ x_settled (w_client (processed []).2) = [s] /\ settles_well first_lease rep (processed []).2 s.
Proof.
  pose proof ((deployed (@lease_settled_once)) first_lease (first_world [])
    (processed []).1 (processed []).2 (surjective_pairing (processed []))) as H.
  destruct (processed []).1 as [rep|e] eqn:E.
  - destruct H as (s & H1 & H2). exists rep, s. split; [reflexivity|]. split; [exact H1|exact H2].
  - exfalso. vm_compute in E. discriminate E.
Defined.

Lemma lease_runs_once_witness : exists t c,
  stored_task (first_world []) (task_id first_read) t /\ tool_call t = Some c /\ may_run t c /\
  w_runs (processed []).2 = [(tool_name c, args c)].
Proof.
  destruct ((deployed (@lease_runs_once)) first_lease (first_world [])
    (processed []).1 (processed []).2 (first_world_rows []) (surjective_pairing (processed []))) as [H|(t & c & H1 & H2 & [H3 _] & H4)].
  - exfalso. vm_compute in H. discriminate H.
  - exists t, c. split; [exact H1|split; [exact H2|split; [exact H3|exact H4]]].
Defined.

Definition executed : res ExecutionReport * sample_state_type :=
  sample_execute_task (task_id first_read) (first_world []).

Definition executed_report : ExecutionReport :=
  match executed.1 with
  | Ok rep => rep
  | Raise _ => report_of first_read read_call ExecutionDisposition.CANCELED false None None (mkToolResult true None None None None None) None None
  end.

Lemma report_matches_database_witness :
  recorded executed.2 (rp_task_id executed_report) (target_status (rp_disposition executed_report)) /\
  rp_disposition executed_report = ExecutionDisposition.SUCCEEDED.
Proof.
  split; [|vm_compute; reflexivity].
  destruct ((deployed (@report_matches_database)) (task_id first_read) (first_world [])
    executed_report executed.2 (first_world_rows [])) as [[Hd _]|Hr].
  - vm_compute. reflexivity.
  - exfalso. vm_compute in Hd. discriminate Hd.
  - exact Hr.
Defined.

(** a cached success strands the dependents of its task. With a success for
    the idempotency key in the ledger, the lease of the first read is
    acknowledged with a CACHED report, its task is succeeded and nothing ran;
    but its dependent, all of whose dependencies have now succeeded, is still
    pending and nothing is queued for it, while the same lease processed
    without the cache queues it. *)
Theorem cached_success_strands_dependents :
  let hit := [("k", mkLedgerRow "fs.read_text" "succeeded"
                (Ledger.ToolResult_model_dump (mkToolResult true (Some (JStr "a")) None None None None)) 10 10 None)] in
  let w := (processed hit).2 in
  (rp_disposition <$> (processed hit).1) = Ok ExecutionDisposition.CACHED /\ x_settled (w_client w) = [Acked first_lease] /\
  w_runs w = [] /\ statuses w = ["succeeded"; "pending"] /\ queued_tasks w = [] /\
  queued_tasks (processed []).2 = [task_id second_read].
Proof. vm_compute. repeat split. Qed.
