(* ===== verification/AuditTrail.v ===== *)
(** * The audit trail of an execution: [executor/service/audit.py]

    After every execution the executor adds the outcome to the packet of the run:
    it loads the packet (or starts one), puts the task in, adds the result and the
    decision, and stores it. With the tables of PacketStore this is the [Database]
    the executor is proved against. The results: the tables of tasks are never
    touched, what a successful append stored, and that a full packet refuses every
    further outcome. *)

From Stdlib Require Import ZArith SpecFloat Lia.
From S2P Require Import Prelude PyFloat PyText Uuid Models Lifecycle Serialization Truncation Redaction Events Plans RunPackets AuditSanitize Decision Enforcement Outcomes EventStore Rows Repos PacketStore Executor.

#[local] Notation dict := (list (string * json)).

Definition DEFAULT_MAX_EXECUTION_RESULT_SUMMARY_BYTES : Z := 8000.
Definition TERMINAL_TASK_STATUSES : list TaskStatus.t := [TaskStatus.SUCCEEDED; TaskStatus.FAILED; TaskStatus.CANCELED].

Definition guard_action_value (a : GuardAction.t) : string :=
  match a with
  | GuardAction.ALLOW => "allow" | GuardAction.DENY => "deny" | GuardAction.DELAY => "delay"
  | GuardAction.REQUIRE_APPROVAL => "require_approval"
  end.
(** [model_dump(mode="json")] *)
Definition GuardDecision_dump (d : GuardDecision) : dict :=
  [("action", JStr (guard_action_value (gd_action d))); ("reason_code", JStr (gd_reason_code d)); ("message", json_of JStr (gd_message d));
   ("guard_id", json_of JStr (gd_guard_id d)); ("metadata", JObj (gd_metadata d))].
Definition PolicyDecision_dump (d : PolicyDecision) : dict :=
  [("action", JStr (PolicyAction.value (pd_action d))); ("reason_code", JStr (pd_reason_code d)); ("message", json_of JStr (pd_message d));
   ("rule_id", json_of JStr (pd_rule_id d)); ("metadata", JObj (pd_metadata d))].

Section audit.
Variable float_repr : spec_float -> string.
Variable redact_text : string -> string.
Variable settings : audit_settings.
Variable lax_int : json -> res Z.
Variable fresh : string -> string.
Variable wall_ms : Z.
Variable remember : option (RunPacket -> st store unit).
(** [str(uuid4())] of a new event, by the task it is for *)
Variable fresh_event : string -> string.

(** [PolicyDecision.to_audit_dict] *)
Definition to_audit_dict (d : PolicyDecision) : res dict :=
  let payload := PolicyDecision_dump d in
  redacted ← redact default_redactor float_repr redact_text (JObj payload) None;
  let out := match redacted with JObj l => l | _ => payload end in
  compact_json float_repr (JObj out);; Ok out.

(** [new_fallback_packet] *)
Definition new_fallback_packet (t : Task) (now_ms : Z) : res RunPacket :=
  let earliest (m : Z) (o : option Z) : Z := match o with Some n => Z.min m n | None => m end in
  let packet_created_at_ms := earliest (earliest (Z.min now_ms (created_at_ms t)) (started_at_ms t)) (completed_at_ms t) in
  event ← Event_validate float_repr None "" (mkEventInput (IdStr (fresh_event (task_id t))) "executor.task" "executor" now_ms
            [("task_id", JStr (task_id t)); ("run_id", JStr (run_id t))] None);
  RunPacket_new float_repr (mkRunPacket (run_id t) None event [] [] [t] [] [] packet_created_at_ms None None).

Definition load_packet (t : Task) (now_ms : Z) : st store RunPacket :=
  found ← RunPacketRepo.get float_repr redact_text settings lax_int fresh wall_ms (run_id t);
  match found with None => lift (new_fallback_packet t now_ms) | Some p => mret p end.

(** [_apply_task_updates] *)
Definition set_started (at_ms : option Z) (p : RunPacket) : RunPacket :=
  mkRunPacket (pk_run_id p) (parent_run_id p) (pk_event p) (reflex_decision p) (plan p) (pk_tasks p) (tool_results p) (policy_decisions p)
    (pk_created_at_ms p) at_ms (pk_completed_at_ms p).
Definition set_completed (at_ms : option Z) (p : RunPacket) : RunPacket :=
  mkRunPacket (pk_run_id p) (parent_run_id p) (pk_event p) (reflex_decision p) (plan p) (pk_tasks p) (tool_results p) (policy_decisions p)
    (pk_created_at_ms p) (pk_started_at_ms p) at_ms.
Fixpoint upsert_all (tasks : list Task) (updated : RunPacket) : res RunPacket :=
  match tasks with
  | [] => Ok updated
  | t :: tasks =>
      updated ← with_task_upserted float_repr t updated;
      let updated :=
        match pk_started_at_ms updated, started_at_ms t with
        | None, Some n => set_started (Some n) updated
        | _, _ => updated
        end in
      upsert_all tasks updated
  end.
Definition all_tasks_terminal (p : RunPacket) : bool :=
  negb (is_nil (pk_tasks p)) && forallb (fun t => bool_decide (status t ∈ TERMINAL_TASK_STATUSES)) (pk_tasks p).
Definition apply_task_updates (p : RunPacket) (tasks : list Task) (now_ms : Z) : res RunPacket :=
  updated ← upsert_all tasks p;
  Ok (set_completed (if all_tasks_terminal updated then Some now_ms else None) updated).

(** [_persist_packet] *)
Definition persist_packet (p : RunPacket) : st store unit := fun s =>
  match RunPacketRepo.create float_repr redact_text settings lax_int fresh wall_ms remember p s with
  | (Ok _, s') => (Ok tt, s')
  | (Raise _, s') => (Raise RunPacketPersistError, s')
  end.

(** The entries of [append_audit] *)
Definition result_summary (r : ToolResult) : res json :=
  let summary_budget := Z.min (max_tool_output_bytes settings) DEFAULT_MAX_EXECUTION_RESULT_SUMMARY_BYTES in
  sanitize_tool_output float_repr redact_text (max_run_packet_bytes settings) summary_budget (Ledger.ToolResult_model_dump r).
Definition tool_result_entry (e : audit_entry) : res dict :=
  summary ← result_summary (au_result e);
  Ok ([("task_id", JStr (task_id (au_task e))); ("tool_call_id", JStr (tool_call_id (au_tool_call e)));
       ("tool_name", JStr (tool_name (au_tool_call e))); ("status", JStr (ExecutionDisposition.value (au_disposition e)));
       ("error_code", json_of JStr (error_code (au_result e)));
       ("retry", JObj [("will_retry", JBool (au_will_retry e)); ("retry_after_s", json_of JFloat (au_retry_after_s e));
                       ("attempt", JInt (attempts (au_task e))); ("max_attempts", JInt (max_attempts (au_task e)))]);
       ("policy_decision", JObj [("action", JStr (PolicyAction.value (pd_action (au_decision e))));
                                 ("reason_code", JStr (pd_reason_code (au_decision e)));
                                 ("rule_id", json_of JStr (pd_rule_id (au_decision e)))]);
       ("result_summary", summary); ("approval_id", json_of JStr (au_approval_id e));
       ("approval_status", json_of (fun s => JStr (ApprovalStatus.value s)) (au_approval_status e));
       ("recorded_at_ms", JInt (au_now_ms e))] ++
      match au_guard_decision e with None => [] | Some d => [("guard_decision", JObj (GuardDecision_dump d))] end)%list.
(** [{"task_id": ..., "tool_call_id": ..., **decision.to_audit_dict()}] *)
Definition decision_entry (e : audit_entry) : res dict :=
  d ← to_audit_dict (au_decision e);
  Ok (foldl (fun o p => aset p.1 p.2 o)
    [("task_id", JStr (task_id (au_task e))); ("tool_call_id", JStr (tool_call_id (au_tool_call e)))] d).

(** The packet with the outcome *)
Definition audited (e : audit_entry) (p : RunPacket) : res RunPacket :=
  result ← tool_result_entry e;
  decision ← decision_entry e;
  updated ← apply_task_updates p [au_task e] (au_now_ms e);
  updated ← with_tool_result_added float_repr result updated;
  with_policy_decision_added float_repr decision updated.
Definition append_audit (e : audit_entry) : st store unit :=
  p ← load_packet (au_task e) (au_now_ms e);
  updated ← lift (audited e p);
  persist_packet updated.

Definition upsert_task_snapshots (anchor_task : Task) (tasks : list Task) (now_ms : Z) : st store unit :=
  p ← load_packet anchor_task now_ms;
  updated ← lift (apply_task_updates p tasks now_ms);
  persist_packet updated.

(** The database of the executor *)
Definition store_database : Database store := {|
  db_tables := s_tables;
  with_tables := set_tables;
  Executor.append_audit := append_audit;
  Executor.upsert_task_snapshots := upsert_task_snapshots;
|}.
End audit.

(** ** Sizes of the parts of a JSON value *)
Section sizes.
Variable float_repr : spec_float -> string.
#[local] Notation json_bytes := (json_bytes float_repr).

Lemma join_bytes l : zsum (map bytes l) <= bytes (join "," l).
Proof.
  induction l as [|s l IH]; cbn [map join]; [done|]. rewrite zsum_cons. destruct l as [|t l]; [cbn; lia|]. rewrite !bytes_app.
  pose proof (bytes_nonneg ","). lia.
Qed.
Lemma bytes_wrap a b s : bytes s <= Z.of_nat (String.length (a +:+ s +:+ b)).
Proof. fold (bytes (a +:+ s +:+ b)). rewrite !bytes_app. pose proof (bytes_nonneg a). pose proof (bytes_nonneg b). lia. Qed.
Lemma compact_array l n : json_bytes (JArr l) = Ok n ->
  exists ns, Forall2 (fun v m => json_bytes v = Ok m) l ns /\ zsum ns <= n.
Proof.
  unfold RunPackets.json_bytes at 1. cbn [compact_json]. intros (s & (items & Hi%sequence_Ok & [= <-])%res_bind_Ok & [= <-])%res_bind_Ok.
  exists (map bytes items). split.
  - induction Hi as [|v s l items Hv Hi IH]; cbn [map]; constructor; [|done]. unfold RunPackets.json_bytes. by rewrite Hv.
  - etransitivity; [apply join_bytes|apply (bytes_wrap "[" "]")].
Qed.
Lemma bytes_elem (l : list string) s : s ∈ l -> bytes s <= zsum (map bytes l).
Proof.
  induction 1 as [s l|s t l Hs IH]; cbn [map]; rewrite zsum_cons; [|pose proof (bytes_nonneg t); lia].
  assert (0 <= zsum (map bytes l)); [|lia]. apply zsum_nonneg, Forall_map, Forall_true. apply bytes_nonneg.
Qed.
Lemma compact_member l n k v : json_bytes (JObj l) = Ok n -> (k, v) ∈ l -> exists m, json_bytes v = Ok m /\ m <= n.
Proof.
  unfold RunPackets.json_bytes at 1. cbn [compact_json]. intros (s & (items & Hi%sequence_Ok & [= <-])%res_bind_Ok & [= <-])%res_bind_Ok Hin.
  apply list_elem_of_lookup in Hin as (i & Hin). destruct (Forall2_lookup_l _ _ _ _ _ Hi Hin) as (t & Ht & Hm).
  unfold member in Hm. cbn [fst snd] in Hm. apply res_bind_Ok in Hm as (s & Hs & [= Es]). exists (bytes s).
  split; [unfold RunPackets.json_bytes; by rewrite Hs|].
  pose proof (join_bytes items). etransitivity; [|apply (bytes_wrap "{" "}" (join "," items))].
  assert (bytes s <= bytes t) by (subst t; rewrite !bytes_app; pose proof (bytes_nonneg (json_str k)); pose proof (bytes_nonneg ":"); lia).
  pose proof (bytes_elem items t ltac:(by eapply list_elem_of_lookup_2)). lia.
Qed.

(** The results of a packet take at least their own bytes. *)
Lemma packet_results_bytes p n : json_bytes (JObj (RunPacket_dump p)) = Ok n ->
  exists ns, Forall2 (fun r m => json_bytes (JObj r) = Ok m) (tool_results p) ns /\ zsum ns <= n.
Proof.
  intros Hn. destruct (compact_member _ _ "tool_results" (JArr (map JObj (tool_results p))) Hn) as (m & Hm & Hle).
  { unfold RunPacket_dump. set_solver. }
  apply compact_array in Hm as (ns & Hns & Hs). exists ns. split; [|lia].
  revert Hns. generalize ns. induction (tool_results p) as [|r l IH]; intros [|m' ms] H; inversion H; subst; constructor; auto.
Qed.
End sizes.

Section facts.
Variable float_repr : spec_float -> string.
Variable redact_text : string -> string.
Variable settings : audit_settings.
Variable lax_int : json -> res Z.
Variable fresh : string -> string.
Variable wall_ms : Z.
Variable remember : option (RunPacket -> st store unit).
Variable fresh_event : string -> string.
#[local] Notation append_audit := (append_audit float_repr redact_text settings lax_int fresh wall_ms remember fresh_event).
#[local] Notation upsert_task_snapshots := (upsert_task_snapshots float_repr redact_text settings lax_int fresh wall_ms remember fresh_event).
#[local] Notation load_packet := (load_packet float_repr redact_text settings lax_int fresh wall_ms fresh_event).
#[local] Notation persist_packet := (persist_packet float_repr redact_text settings lax_int fresh wall_ms remember).
#[local] Notation audited := (audited float_repr redact_text settings).

(** *** The tables of tasks are not touched *)

(** The memory of past runs is a table of its own. *)
Hypothesis remember_keeps : forall upsert p s r s', remember = Some upsert -> upsert p s = (r, s') -> s_tables s' = s_tables s.

Lemma load_packet_keeps t now s : (load_packet t now s).2 = s.
Proof.
  unfold AuditTrail.load_packet, mbind, st_bind. destruct (RunPacketRepo.get _ _ _ _ _ _ _ s) as [r s'] eqn:E.
  assert (s' = s) as -> by (unfold RunPacketRepo.get in E; congruence). by destruct r as [[p|]|e].
Qed.
Lemma create_keeps p s : s_tables (RunPacketRepo.create float_repr redact_text settings lax_int fresh wall_ms remember p s).2 = s_tables s.
Proof.
  unfold RunPacketRepo.create. destruct (negb _); [done|]. destruct (mbind _ _) as [[sanitized stored]|e]; [|done].
  set (s1 := set_packets _ s). assert (s_tables s1 = s_tables s) as <- by done. unfold RunPacketRepo.remember_packet.
  destruct remember as [upsert|] eqn:E; [|done]. unfold mbind, st_bind. cbn [Prelude.get]. destruct (aget _ _); [|done].
  destruct (upsert stored s1) as [r s2] eqn:Eu. apply (remember_keeps _ _ _ _ _ eq_refl) in Eu. by destruct r.
Qed.
Lemma persist_keeps p s : s_tables (persist_packet p s).2 = s_tables s.
Proof. pose proof (create_keeps p s) as H. unfold AuditTrail.persist_packet. by destruct (RunPacketRepo.create _ _ _ _ _ _ _ _ _) as [[]]. Qed.
Lemma recorded_keeps {A} (m : st store A) (f : A -> res RunPacket) s : (m s).2 = s ->
  s_tables ((p ← m; u ← lift (f p); persist_packet u) s).2 = s_tables s.
Proof.
  intros Hm. unfold mbind, st_bind. destruct (m s) as [[p|e] s']; cbn in Hm; subst; [|done]. unfold lift.
  destruct (f p) as [u|e]; [apply persist_keeps|done].
Qed.

Lemma store_database_laws :
  @DatabaseLaws store (store_database float_repr redact_text settings lax_int fresh wall_ms remember fresh_event).
Proof.
  split; cbn.
  - by intros t [].
  - by intros [].
  - intros e d r d' E. pose proof (recorded_keeps (load_packet (au_task e) (au_now_ms e)) (audited e) d (load_packet_keeps _ _ _)) as H.
    unfold AuditTrail.append_audit in E. by rewrite E in H.
  - intros t ts n d r d' E. pose proof (recorded_keeps (load_packet t n) (fun p => apply_task_updates float_repr p ts n) d (load_packet_keeps _ _ _)) as H.
    unfold AuditTrail.upsert_task_snapshots in E. cbv beta in H. by rewrite E in H.
Qed.

(** *** What is stored *)
Lemma dumped_tasks_Ok idx l l' : dumped_tasks idx l = VOk l' -> Forall2 (fun t t' => Task_model_validate t = Ok t') l l'.
Proof.
  revert idx l'. induction l as [|t l IH]; intros idx l'; cbn [dumped_tasks]; [intros [= <-]; constructor|]. intros H. vld_inv.
  constructor; [done|]. by eapply IH.
Qed.
Lemma upserted_elem t l : t ∈ upserted t l.
Proof.
  unfold upserted. destruct (existsb _ l) eqn:E; [|apply elem_of_app; right; left]. apply existsb_exists in E as (t' & Ht%list_elem_of_In & Ei).
  apply list_elem_of_fmap. exists t'. by rewrite Ei.
Qed.

(** The packet with the outcome: the old one with its entries. *)
Record recorded (e : audit_entry) (p u : RunPacket) : Prop := {
  rec_ok : packet_ok float_repr u;
  rec_result : exists r, tool_result_entry float_repr redact_text settings e = Ok r /\ tool_results u = (tool_results p ++ [r])%list;
  rec_decision : exists d, decision_entry float_repr redact_text e = Ok d /\ policy_decisions u = (policy_decisions p ++ [d])%list;
  rec_task : valid_task (au_task e) -> au_task e ∈ pk_tasks u;
  rec_event : valid_event float_repr DEFAULT_MAX_PAYLOAD_BYTES (pk_event p) -> pk_event u = pk_event p;
  rec_completed : pk_completed_at_ms u = Some (au_now_ms e) \/ pk_completed_at_ms u = None;
}.

(** What one [with_*] operation gives. *)
Record extended (p u : RunPacket) : Prop := {
  ex_ok : packet_ok float_repr u;
  ex_event : valid_event float_repr DEFAULT_MAX_PAYLOAD_BYTES (pk_event p) -> pk_event u = pk_event p;
  ex_completed : pk_completed_at_ms u = pk_completed_at_ms p;
}.
Lemma build_extended tasks p q u : pk_completed_at_ms q = pk_completed_at_ms p ->
  RunPacket_build float_repr (dumped_event float_repr (pk_event p)) tasks q = Ok u -> extended p u.
Proof.
  intros Hc (Hok & He & _ & E & _)%build_Ok. split; [done| |by rewrite E, <- Hc]. intros Hv. rewrite dumped_event_fix in He by done. by injection He.
Qed.
Lemma result_added r p u : with_tool_result_added float_repr r p = Ok u ->
  extended p u /\ tool_results u = (tool_results p ++ [r])%list /\ policy_decisions u = policy_decisions p /\
  Forall2 (fun t t' => Task_model_validate t = Ok t') (pk_tasks p) (pk_tasks u).
Proof.
  intros H. split; [exact (build_extended _ p (set_tool_results (tool_results p ++ [r]) p) u eq_refl H)|]. unfold with_tool_result_added in H. apply build_Ok in H as (_ & _ & Ht & E & _). apply dumped_tasks_Ok in Ht. by rewrite E.
Qed.
Lemma decision_added r p u : with_policy_decision_added float_repr r p = Ok u ->
  extended p u /\ tool_results u = tool_results p /\ policy_decisions u = (policy_decisions p ++ [r])%list /\
  Forall2 (fun t t' => Task_model_validate t = Ok t') (pk_tasks p) (pk_tasks u).
Proof.
  intros H. split; [exact (build_extended _ p (set_policy_decisions (policy_decisions p ++ [r]) p) u eq_refl H)|]. unfold with_policy_decision_added in H. apply build_Ok in H as (_ & _ & Ht & E & _). apply dumped_tasks_Ok in Ht. by rewrite E.
Qed.
Lemma task_upserted t p u : with_task_upserted float_repr t p = Ok u ->
  extended p u /\ tool_results u = tool_results p /\ policy_decisions u = policy_decisions p /\ pk_tasks u = upserted t (pk_tasks p).
Proof. intros H. split; [exact (build_extended _ p (set_tasks (upserted t (pk_tasks p)) p) u eq_refl H)|]. unfold with_task_upserted in H. apply build_Ok in H as (_ & _ & [= Ht] & E & _). by rewrite E. Qed.

Lemma validated_elem t l l' : valid_task t -> t ∈ l -> Forall2 (fun t t' => Task_model_validate t = Ok t') l l' -> t ∈ l'.
Proof.
  intros Hv (i & Hi)%list_elem_of_lookup Hl. destruct (Forall2_lookup_l _ _ _ _ _ Hl Hi) as (t' & Ht' & E).
  rewrite Task_model_validate_fix in E by done. injection E as <-. by eapply list_elem_of_lookup_2.
Qed.

Lemma audited_recorded e p u : audited e p = Ok u -> recorded e p u.
Proof.
  unfold AuditTrail.audited. intros (r & Er & (d & Ed & H)%res_bind_Ok)%res_bind_Ok. apply res_bind_Ok in H as (p3 & H3 & H).
  apply res_bind_Ok in H as (p4 & H4 & H5). unfold apply_task_updates in H3. apply res_bind_Ok in H3 as (p2 & H2 & [= <-]).
  cbn [upsert_all] in H2. apply res_bind_Ok in H2 as (p1 & H1 & [= E2]).
  apply task_upserted in H1 as (X1 & R1 & D1 & T1). apply result_added in H4 as (X4 & R4 & D4 & T4). apply decision_added in H5 as (X5 & R5 & D5 & T5).
  assert (pk_event p2 = pk_event p1 /\ tool_results p2 = tool_results p1 /\ policy_decisions p2 = policy_decisions p1 /\ pk_tasks p2 = pk_tasks p1)
    as (Ee & Eres & Edec & Etask) by (subst p2; destruct (pk_started_at_ms p1), (started_at_ms (au_task e)); split_and!; reflexivity).
  destruct X1 as [_ V1 _], X4 as [_ V4 C4], X5 as [Hok V5 C5].
  cbn [pk_event set_completed tool_results policy_decisions pk_tasks pk_completed_at_ms] in *. rewrite Ee in V4. split.
  - done.
  - exists r. split; [done|]. congruence.
  - exists d. split; [done|]. congruence.
  - intros Hv. apply (validated_elem _ (pk_tasks p4)); [done| |done]. apply (validated_elem _ (pk_tasks p2)); [done| |done].
    rewrite Etask, T1. apply upserted_elem.
  - intros Hv. specialize (V1 Hv). rewrite <- V1 in Hv. specialize (V4 Hv). rewrite <- V4 in Hv. specialize (V5 Hv). congruence.
  - rewrite C5, C4. destruct (all_tasks_terminal p2); auto.
Qed.

(** the audit trail only grows. Appending an outcome never touches the tables
    of tasks, calls, approvals and results. When it returns, the packet that was
    handed to the repository is the one loaded (or started) with exactly one
    result and one decision more, the task as it stands now, and the same event,
    within every cap; and it was stored. *)
Theorem audit_appends e s :
  match append_audit e s with
  | (Ok _, s') => s_tables s' = s_tables s /\ exists p u stored, load_packet (au_task e) (au_now_ms e) s = (Ok p, s) /\ recorded e p u /\
      RunPacketRepo.create float_repr redact_text settings lax_int fresh wall_ms remember u s = (Ok stored, s')
  | (Raise _, s') => s_tables s' = s_tables s
  end.
Proof.
  pose proof (recorded_keeps (load_packet (au_task e) (au_now_ms e)) (audited e) s (load_packet_keeps _ _ _)) as Hk.
  change (s_tables (append_audit e s).2 = s_tables s) in Hk. destruct (append_audit e s) as [[[]|err] s'] eqn:E; [|done]. split; [done|].
  unfold AuditTrail.append_audit in E. apply st_bind_Ok in E as (p & s1 & Ep & E). pose proof (load_packet_keeps (au_task e) (au_now_ms e) s) as Hs. rewrite Ep in Hs. cbn in Hs. subst s1.
  apply st_bind_Ok in E as (u & s1 & [= Eu <-] & E). apply audited_recorded in Eu. unfold AuditTrail.persist_packet in E.
  destruct (RunPacketRepo.create _ _ _ _ _ _ _ u s) as [[stored|]] eqn:Ec; [|done]. injection E as <-. by exists p, u, stored.
Qed.

(** a full packet refuses every further outcome. When the results that a
    packet has and the entry of the next one take more than the cap of a packet,
    appending raises and changes nothing: the executor cannot record the outcome
    of the tool that ran, gives up its unit of work and does not settle the lease. *)
Theorem full_packet_refuses_audit e p ns r n :
  Forall2 (fun r m => json_bytes float_repr (JObj r) = Ok m) (tool_results p) ns ->
  tool_result_entry float_repr redact_text settings e = Ok r -> json_bytes float_repr (JObj r) = Ok n ->
  DEFAULT_MAX_PACKET_BYTES < zsum ns + n ->
  exists err, forall s, load_packet (au_task e) (au_now_ms e) s = (Ok p, s) -> append_audit e s = (Raise err, s).
Proof.
  intros Hns Er En Hfull. destruct (audited e p) as [u|err] eqn:Eu;
    [exfalso|exists err; intros s Ep; unfold AuditTrail.append_audit; unfold mbind at 1, st_bind at 1; rewrite Ep; unfold mbind, st_bind, lift; by rewrite Eu]. apply audited_recorded in Eu as [Hok (r' & Er' & Hr) _ _ _ _].
  assert (r' = r) as -> by congruence. destruct Hok as [_ _ _ _ _ _ _ _ _ (m & Em & Hm)]. apply packet_results_bytes in Em as (ms & Hms & Hle).
  rewrite Hr in Hms. apply Forall2_app_inv_l in Hms as (ms1 & ms2 & H1 & H2 & ->). apply Forall2_cons_inv_l in H2 as (m2 & ms3 & E2 & H3 & ->).
  apply Forall2_nil_inv_l in H3 as ->. rewrite En in E2. injection E2 as <-. assert (ms1 = ns) as ->.
  { clear -H1 Hns. revert ms1 H1. induction Hns as [|a b l l' Ha Hl IH]; intros ms1 H1; inversion H1; subst; [done|]. f_equal; [congruence|auto]. }
  rewrite zsum_app in Hle. cbn in Hle. lia.
Qed.
End facts.

(** ** A concrete outcome *)
Definition sample_decision : PolicyDecision := mkPolicyDecision PolicyAction.ALLOW "allowed" None (Some "scope") [].
Definition sample_outcome (data : json) : audit_entry :=
  mkAuditEntry sample_task sample_call sample_decision (mkToolResult true (Some data) None None None None) ExecutionDisposition.SUCCEEDED
    None false None None None 2000.
Definition no_int : json -> res Z := fun _ => Raise AssertionError.
Definition stored_store : store := (sample_create one_task).2.

Definition sample_append : res unit * store :=
  append_audit (fun _ => "1.5") id default_settings no_int (fun _ => "") 0 None (fun _ => "") (sample_outcome (JStr "done")) stored_store.
Definition sample_load : res RunPacket * store :=
  load_packet (fun _ => "1.5") id default_settings no_int (fun _ => "") 0 (fun _ => "") sample_task 2000 stored_store.
Lemma sample_append_ok : is_ok sample_append.1 = true.
Proof. vm_compute. reflexivity. Qed.

Lemma audit_appends_witness : exists s' p u r, sample_append = (Ok tt, s') /\ sample_load = (Ok p, stored_store) /\
  tool_results u = (tool_results p ++ [r])%list /\ s_tables s' = s_tables stored_store.
Proof.
  pose proof (audit_appends (fun _ => "1.5") id default_settings no_int (fun _ => "") 0 None (fun _ => "")
    ltac:(discriminate) (sample_outcome (JStr "done")) stored_store : match sample_append with
      | (Ok _, s') => s_tables s' = s_tables stored_store /\ exists p u stored, sample_load = (Ok p, stored_store) /\
          recorded (fun _ => "1.5") id default_settings (sample_outcome (JStr "done")) p u /\
          RunPacketRepo.create (fun _ => "1.5") id default_settings no_int (fun _ => "") 0 None u stored_store = (Ok stored, s')
      | (Raise _, s') => s_tables s' = s_tables stored_store end) as H.
  pose proof sample_append_ok as Hok. destruct sample_append as [[[]|err] s'] eqn:E; [|discriminate Hok].
  destruct H as (Ht & p & u & stored & Hp & [_ (r & _ & Hr) _ _ _ _] & _). exists s', p, u, r.
  exact (conj eq_refl (conj Hp (conj Hr Ht))).
Defined.

(** Eight results of 63,000 bytes leave no room for one of 7,000. *)
Definition large_result : list (string * json) := [("x", JArr (repeat (JStr (xs 1000)) 63))].
Definition large_packet : RunPacket := set_tool_results (repeat large_result 8) one_task.
Definition large_outcome : audit_entry := sample_outcome (JArr (repeat (JStr (xs 1000)) 7)).
Definition large_entry : list (string * json) :=
  match tool_result_entry (fun _ => "1.5") id default_settings large_outcome with Ok r => r | Raise _ => [] end.
Lemma large_entry_ok : tool_result_entry (fun _ => "1.5") id default_settings large_outcome = Ok large_entry.
Proof. vm_compute. reflexivity. Qed.
Lemma large_result_bytes : json_bytes (fun _ => "1.5") (JObj large_result) = Ok 63196.
Proof. vm_compute. reflexivity. Qed.
Lemma large_entry_bytes : json_bytes (fun _ => "1.5") (JObj large_entry) = Ok 7525.
Proof. vm_compute. reflexivity. Qed.

Lemma full_packet_refuses_audit_witness : exists err, forall s,
  load_packet (fun _ => "1.5") id default_settings no_int (fun _ => "") 0 (fun _ => "") (au_task large_outcome) (au_now_ms large_outcome) s =
    (Ok large_packet, s) ->
  append_audit (fun _ => "1.5") id default_settings no_int (fun _ => "") 0 None (fun _ => "") large_outcome s = (Raise err, s).
Proof.
  apply (full_packet_refuses_audit (fun _ => "1.5") id default_settings no_int (fun _ => "") 0 None (fun _ => "")
    large_outcome large_packet (repeat 63196 8) large_entry 7525).
  - change (tool_results large_packet) with (repeat large_result 8). cbn [repeat].
    repeat (apply Forall2_cons_2; [exact large_result_bytes|]). apply Forall2_nil_2.
  - exact large_entry_ok.
  - exact large_entry_bytes.
  - vm_compute. reflexivity.
Defined.
