(* ===== verification/Persistence.v ===== *)
(** * What the engine stores: [orchestrator/persistence.py]

    The three stages in which a run is stored: the event with its run, the tool
    calls with the tasks, and the run packet with the tasks that were put on the
    queue. Each stage is one unit of work over the tables of PacketStore. The
    results: what a stage stored when it returned, and that the last stage sets
    the tasks to queued whatever became of them since they were put on the
    queue. *)

From Stdlib Require Import ZArith SpecFloat Lia.
From S2P Require Import Prelude PyFloat PyText Uuid Models Lifecycle Serialization Truncation Redaction Events Plans RunPackets AuditSanitize Approvals EventStore Rows Repos PacketStore.

(** ** Statements that run a loop, and what computations leave alone *)
Fixpoint each {S A} (body : A -> st S unit) (l : list A) : st S unit :=
  match l with [] => mret tt | x :: l => body x;; each body l end.

(** The computation relates the state it finds with the state it leaves by [R],
    whether it returns or raises. *)
Definition moves {S A} (R : S -> S -> Prop) (m : st S A) : Prop := forall s r s', m s = (r, s') -> R s s'.

Section moves.
Context {S : Type} (R : S -> S -> Prop) `{!PreOrder R}.

Lemma moves_ret {A} (a : A) : moves R (mret a : st S A).
Proof. by intros s r s' [= _ <-]. Qed.
Lemma moves_lift {A} (x : res A) : moves R (lift x : st S A).
Proof. by intros s r s' [= _ <-]. Qed.
Lemma moves_throw {A} e : moves R (throw e : st S A).
Proof. by intros s r s' [= _ <-]. Qed.
Lemma moves_get : moves R Prelude.get.
Proof. by intros s r s' [= _ <-]. Qed.
Lemma moves_modify f : (forall s, R s (f s)) -> moves R (modify f).
Proof. by intros Hf s r s' [= _ <-]. Qed.
Lemma moves_bind {A B} (m : st S A) (f : A -> st S B) : moves R m -> (forall a, moves R (f a)) -> moves R (m ≫= f).
Proof.
  intros Hm Hf s r s'. unfold mbind, st_bind. destruct (m s) as [[a|e] s1] eqn:E.
  - intros H%Hf. etrans; [by eapply Hm|done].
  - intros [= _ <-]. by eapply Hm.
Qed.
Lemma moves_each {A} (body : A -> st S unit) l : (forall x, x ∈ l -> moves R (body x)) -> moves R (each body l).
Proof.
  induction l as [|x l IH]; intros Hb; cbn [each]; [apply moves_ret|].
  apply moves_bind; [apply Hb; by left|]. intros _. apply IH. intros y Hy. apply Hb. by right.
Qed.
Lemma moves_unit_of_work {A} (m : st S A) : moves R m -> moves R (unit_of_work m).
Proof. intros Hm s r s'. unfold unit_of_work. destruct (m s) as [[a|e] s1] eqn:E; intros [= _ <-]; [by eapply Hm|done]. Qed.
End moves.

Create HintDb moves.
#[export] Hint Resolve moves_ret moves_lift moves_throw moves_get : moves.
(** Walk through a computation: binds, branches, and what is known. *)
Ltac walk_moves := repeat first
  [ done
  | solve [auto with moves typeclass_instances]
  | apply moves_bind; [apply _| |intros ?]
  | apply moves_each; [apply _|intros ? ?]
  | apply moves_unit_of_work; [apply _|]
  | match goal with |- moves _ (match ?x with _ => _ end) => destruct x eqn:? end
  | match goal with |- moves _ ((match ?x with _ => _ end) ≫= _) => destruct x eqn:? end ].

(** A unit of work that raises changes nothing. *)
Lemma unit_of_work_raises {S A} (m : st S A) s e s' : unit_of_work m s = (Raise e, s') -> s' = s.
Proof. unfold unit_of_work. destruct (m s) as [[] ?]; by intros [=]. Qed.
Lemma unit_of_work_Ok {S A} (m : st S A) s a s' : unit_of_work m s = (Ok a, s') -> m s = (Ok a, s').
Proof. unfold unit_of_work. destruct (m s) as [[] ?]; congruence. Qed.
Lemma unit_of_work_returns {S A} (m : st S A) s a s' : m s = (Ok a, s') -> unit_of_work m s = (Ok a, s').
Proof. unfold unit_of_work. by intros ->. Qed.

(** ** The stages *)
Record OrchestratorPersistence := mkPersistence {
  queued_status : TaskStatus.t;
  event_dedupe_window_ms : option Z;
}.

Section persistence.
Variable float_repr : spec_float -> string.
Variable redact_text : string -> string.
Variable settings : audit_settings.
Variable lax_int : json -> res Z.
Variable fresh : string -> string.
Variable remember : option (RunPacket -> st store unit).
(** equality of tool calls, and of their dumps *)
Variables tool_call_eq dump_eq : ToolCall -> ToolCall -> bool.
Variable self : OrchestratorPersistence.
(** [time.time] *)
Variable wall_ms : Z.

Definition persist_event_and_run (e : Event) (run_record : RunRecord) : st store (Event * bool) := unit_of_work (
  stored ← match dedupe_key e with
           | Some key =>
               on_events (create_or_get_by_dedupe float_repr wall_ms (ev_source e) key e (event_dedupe_window_ms self)
                            (Some (rr_created_at_ms run_record)))
           | None => stored_event ← on_events (EventStore.create e); mret (stored_event, true)
           end;
  (if stored.2 : bool then RunRepo.create run_record;; mret tt else mret tt);;
  mret stored).

Definition get_run_id_for_event (event_id : string) : st store (option string) :=
  unit_of_work (RunPacketRepo.get_run_id_for_event event_id).

(** [_collect_tool_calls] *)
Fixpoint collect_tool_calls (tasks : list Task) (tool_calls_by_id : list (string * ToolCall)) : res (list ToolCall) :=
  match tasks with
  | [] => Ok tool_calls_by_id.*2
  | t :: tasks =>
      match tool_call t with
      | None => collect_tool_calls tasks tool_calls_by_id
      | Some c =>
          match aget (tool_call_id c) tool_calls_by_id with
          | None => collect_tool_calls tasks (aset (tool_call_id c) c tool_calls_by_id)
          | Some existing =>
              if dump_eq existing c then collect_tool_calls tasks tool_calls_by_id
              else Raise (ValueError ("conflicting tool_call definitions for tool_call_id=" +:+ py_repr (tool_call_id c)))
          end
      end
  end.

Definition persist_tasks_and_tool_calls (tasks : list Task) : st store unit :=
  match tasks with
  | [] => mret tt
  | _ => unit_of_work (
      calls ← lift (collect_tool_calls tasks []);
      each (fun c => on_tables (ToolCallRepo.create c);; mret tt) calls;;
      each (fun t => on_tables (TaskRepo.create tool_call_eq t);; mret tt) tasks)
  end.

Definition finalize_run (packet : RunPacket) (enqueued_task_ids : list string) : st store unit := unit_of_work (
  each (fun id => on_tables (TaskRepo.update_status id (queued_status self));; mret tt) enqueued_task_ids;;
  RunPacketRepo.create float_repr redact_text settings lax_int fresh wall_ms remember packet;;
  mret tt).
End persistence.

(** ** What the stages store *)

(** No row of a task or a tool call is changed or removed, and no run removed. *)
Record grown (d d' : tables) : Prop := {
  gr_tasks : forall k r, aget k (task_rows d) = Some r -> aget k (task_rows d') = Some r;
  gr_calls : forall k r, aget k (tool_call_rows d) = Some r -> aget k (tool_call_rows d') = Some r;
  gr_runs : runs d ⊆ runs d';
}.
#[export] Instance grown_preorder : PreOrder grown.
Proof. split; [by split|]. intros d1 d2 d3 [A1 B1 C1] [A2 B2 C2]. split; [auto|auto|set_solver]. Qed.
Definition store_grown (s s' : store) : Prop := grown (s_tables s) (s_tables s').
#[export] Instance store_grown_preorder : PreOrder store_grown.
Proof. split; [by intros s|]. intros s1 s2 s3 H1 H2. unfold store_grown in *. by etrans. Qed.

(** The same computation on the tables, in the store. *)
Lemma on_tables_inv {A} (m : st tables A) s r s' : on_tables m s = (r, s') -> exists d, m (s_tables s) = (r, d) /\ s' = set_tables d s.
Proof. unfold on_tables. destruct (m (s_tables s)) as [r0 d]. intros [= <- <-]. by exists d. Qed.
Lemma on_events_inv {A} (m : st event_tables A) s r s' : on_events m s = (r, s') -> exists e, m (s_events s) = (r, e) /\ s' = set_events e s.
Proof. unfold on_events. destruct (m (s_events s)) as [r0 e]. intros [= <- <-]. by exists e. Qed.
Lemma moves_on_tables {A} (m : st tables A) : moves grown m -> moves store_grown (on_tables m).
Proof. intros Hm s r s' (d & E & ->)%on_tables_inv. by eapply Hm. Qed.

Lemma create_call_inv c d r d' : ToolCallRepo.create c d = (r, d') ->
  match r with
  | Ok c' => c' = c /\ aget (tool_call_id c) (tool_call_rows d) = None /\
      d' = set_tool_call_rows (tool_call_rows d ++ [(tool_call_id c, tool_call_to_row_dict c)])%list d
  | Raise _ => d' = d
  end.
Proof. unfold ToolCallRepo.create, insert_row. destruct (aget _ _) eqn:E; cbn; by intros [= <- <-]. Qed.
Lemma aget_snoc {A} (k : string) (v : A) l : aget k l = None -> aget k (l ++ [(k, v)])%list = Some v.
Proof. intros E. rewrite aget_app, E. cbn. by rewrite decide_True. Qed.
Lemma moves_create_call c : moves grown (ToolCallRepo.create c).
Proof.
  intros d r d' H%create_call_inv. destruct r; [|by subst]. destruct H as (_ & _ & ->). split; cbn; [done| |done].
  intros k r Hr. by rewrite aget_app, Hr.
Qed.

#[export] Hint Resolve moves_on_tables moves_create_call : moves.

Section tasks.
Variable tool_call_eq : ToolCall -> ToolCall -> bool.
#[local] Notation create_task := (TaskRepo.create tool_call_eq).

Lemma moves_create_task t : moves grown (create_task t).
Proof.
  intros d r d'. unfold TaskRepo.create. destruct (negb _); [by intros [= _ <-]|]. revert d r d'.
  change (moves grown ((match tool_call t with Some c => TaskRepo.create_tool_call_if_missing tool_call_eq c | None => mret tt end);; TaskRepo.insert_task t)).
  apply moves_bind; [apply _| |intros _].
  - destruct (tool_call t) as [c|]; [|apply moves_ret, _]. intros d r d'. unfold TaskRepo.create_tool_call_if_missing.
    destruct (aget _ _) as [row|] eqn:E.
    + destruct (tool_call_from_row_dict row); by intros [= _ <-].
    + intros [= _ <-]. split; cbn; [done| |done]. intros k r' Hr. by rewrite aget_app, Hr.
  - intros d r d'. unfold TaskRepo.insert_task. destruct (insert_row _ _ _) as [rows|] eqn:E; intros [= _ <-]; [|done].
    split; cbn; [|done|done]. by eapply insert_row_keeps.
Qed.

#[local] Hint Resolve moves_create_task : moves.

(** The row of a task that was created, and the one of its tool call. *)
Record task_created (t : Task) (d : tables) : Prop := {
  cr_run : run_id t ∈ runs d;
  cr_row : aget (task_id t) (task_rows d) = Some (task_to_row_dict t);
  cr_call : forall c, tool_call t = Some c -> exists r, aget (tool_call_id c) (tool_call_rows d) = Some r /\
    (r = tool_call_to_row_dict c \/ exists existing, tool_call_from_row_dict r = Ok existing /\ tool_call_eq existing c = true);
}.
Lemma task_created_grown t d d' : grown d d' -> task_created t d -> task_created t d'.
Proof. intros [A B C] [H1 H2 H3]. split; [by apply C|by apply A|]. intros c (r & Hr & H)%H3. exists r. split; [by apply B|done]. Qed.

Lemma create_task_Ok t d t' d' : create_task t d = (Ok t', d') -> task_created t d'.
Proof.
  intros E0. pose proof (moves_create_task t d _ d' E0) as [_ _ Hruns]. revert E0. unfold TaskRepo.create.
  case_bool_decide as Hr; [|done]. cbn [negb]. intros ([] & d1 & H1 & H2)%st_bind_Ok.
  unfold TaskRepo.insert_task in H2. destruct (insert_row _ _ _) as [rows|] eqn:Er; [|done]. injection H2 as _ <-.
  unfold insert_row in Er. destruct (aget (task_id t) (task_rows d1)) eqn:Et; [done|]. injection Er as <-. split; [by apply Hruns|by apply aget_snoc|].
  intros c Hc. rewrite Hc in H1. unfold TaskRepo.create_tool_call_if_missing in H1. cbn.
  destruct (aget (tool_call_id c) (tool_call_rows d)) as [r|] eqn:Ec.
  - destruct (tool_call_from_row_dict r) as [existing|] eqn:Ex; [|done]. destruct (tool_call_eq existing c) eqn:Eq; [|done].
    injection H1 as <-. exists r. eauto.
  - injection H1 as <-. eexists. split; [by apply aget_snoc|auto].
Qed.
Lemma create_tasks_Ok tasks s s' : each (fun t => on_tables (create_task t);; mret tt) tasks s = (Ok tt, s') ->
  forall t, t ∈ tasks -> task_created t (s_tables s').
Proof.
  revert s. induction tasks as [|t tasks IH]; intros s; cbn [each]; [set_solver|].
  intros ([] & s1 & (t' & s2 & (d & H1%create_task_Ok & ->)%on_tables_inv & [= <-])%st_bind_Ok & H2)%st_bind_Ok x [->|Hx]%elem_of_cons; [|by eapply IH].
  eapply task_created_grown; [|exact H1].
  assert (moves store_grown (each (fun t => on_tables (create_task t);; mret tt) tasks)) as Hm by walk_moves.
  apply (Hm _ _ _ H2).
Qed.
End tasks.
#[export] Hint Resolve moves_create_task : moves.

(** A loop whose body returns as long as an invariant of what was done holds. *)
Lemma each_returns {S A} (body : A -> st S unit) (I : list A -> S -> Prop) l s :
  (forall l1 x l2 s, l = (l1 ++ x :: l2)%list -> I l1 s -> exists s', body x s = (Ok tt, s') /\ I (l1 ++ [x])%list s') ->
  I [] s -> exists s', each body l s = (Ok tt, s') /\ I l s'.
Proof.
  intros Hb Hi. assert (forall l2 l1 s, l = (l1 ++ l2)%list -> I l1 s -> exists s', each body l2 s = (Ok tt, s') /\ I l s') as H.
  { induction l2 as [|x l2 IH]; intros l1 s1 El H1; cbn [each].
    - rewrite app_nil_r in El. subst. by exists s1.
    - destruct (Hb l1 x l2 s1 El H1) as (s2 & E & H2). destruct (IH (l1 ++ [x])%list s2) as (s' & E' & H'); [by rewrite El, <- app_assoc|done|].
      exists s'. split; [|done]. unfold mbind, st_bind. by rewrite E. }
  by apply (H l []).
Qed.

Section stage2.
Variables tool_call_eq dump_eq : ToolCall -> ToolCall -> bool.
#[local] Notation persist := (persist_tasks_and_tool_calls tool_call_eq dump_eq).

Definition calls_of (tasks : list Task) : list ToolCall := omap tool_call tasks.

Lemma keys_of_calls (l : list ToolCall) : keys (map (fun c => (tool_call_id c, c)) l) = map tool_call_id l.
Proof. unfold keys. by rewrite map_map. Qed.
Lemma collect_distinct tasks l : NoDup (map tool_call_id (l ++ calls_of tasks)) ->
  collect_tool_calls dump_eq tasks (map (fun c => (tool_call_id c, c)) l) = Ok (l ++ calls_of tasks)%list.
Proof.
  revert l. induction tasks as [|t tasks IH]; intros l Hd; cbn [collect_tool_calls calls_of omap list_omap].
  - rewrite app_nil_r. f_equal. clear. by induction l as [|c l IH]; cbn; [|f_equal].
  - unfold calls_of in *. cbn in Hd. destruct (tool_call t) as [c|]; [|by apply IH].
    assert (tool_call_id c ∉ map tool_call_id l) as Hc.
    { rewrite map_app in Hd. apply NoDup_app in Hd as (_ & Hd & _). intros H%Hd. apply H. by left. }
    rewrite (proj2 (aget_None _ _)) by (by rewrite keys_of_calls). rewrite aset_absent by (by rewrite keys_of_calls).
    replace (map _ l ++ _)%list with (map (fun c => (tool_call_id c, c)) (l ++ [c])) by (by rewrite map_app).
    rewrite IH by (by rewrite <- app_assoc). by rewrite <- app_assoc.
Qed.

(** Tasks of known runs, new like their tool calls. *)
Record storable (tasks : list Task) (d : tables) : Prop := {
  so_runs : forall t, t ∈ tasks -> run_id t ∈ runs d;
  so_ids : NoDup (map task_id tasks);
  so_new : forall t, t ∈ tasks -> aget (task_id t) (task_rows d) = None;
  so_call_ids : NoDup (map tool_call_id (calls_of tasks));
  so_call_new : forall c, c ∈ calls_of tasks -> aget (tool_call_id c) (tool_call_rows d) = None;
  so_call_valid : forall c, c ∈ calls_of tasks -> valid_tool_call c;
}.

Lemma NoDup_last {A B} (f : A -> B) (l1 l2 : list A) (x : A) : NoDup (map f (l1 ++ x :: l2)) -> f x ∉ map f l1.
Proof. rewrite map_app. intros (_ & Hd & _)%NoDup_app Hx%Hd. apply Hx. by left. Qed.
Lemma aget_new {A} (k : string) (rows : list (string * A)) more : aget k rows = None -> k ∉ keys more -> aget k (rows ++ more)%list = None.
Proof. intros E Hk. rewrite aget_app, E. by apply aget_None. Qed.

(** The calls first: their rows follow the ones that were there. *)
Lemma store_calls calls s : NoDup (map tool_call_id calls) -> (forall c, c ∈ calls -> aget (tool_call_id c) (tool_call_rows (s_tables s)) = None) ->
  exists s', each (fun c => on_tables (ToolCallRepo.create c);; mret tt) calls s = (Ok tt, s') /\
    s_tables s' = set_tool_call_rows (tool_call_rows (s_tables s) ++ map (fun c => (tool_call_id c, tool_call_to_row_dict c)) calls)%list (s_tables s).
Proof.
  intros Hd Hn. apply (each_returns _ (fun l s' => s_tables s' =
    set_tool_call_rows (tool_call_rows (s_tables s) ++ map (fun c => (tool_call_id c, tool_call_to_row_dict c)) l)%list (s_tables s))).
  - intros l1 c l2 s1 -> E1. unfold mbind, st_bind, on_tables, ToolCallRepo.create, insert_row. rewrite E1. cbn [tool_call_rows set_tool_call_rows].
    rewrite aget_new; [|apply Hn; set_solver|].
    + eexists. split; [reflexivity|]. cbn. by rewrite map_app, <- app_assoc.
    + unfold keys. rewrite map_map. cbn. by apply NoDup_last in Hd.
  - cbn. rewrite app_nil_r. by destruct (s_tables s).
Qed.

(** Then the tasks, whose calls are there by now. *)
Lemma store_tasks tasks s : (forall c, tool_call_eq c c = true) -> (forall t, t ∈ tasks -> run_id t ∈ runs (s_tables s)) -> NoDup (map task_id tasks) ->
  (forall t, t ∈ tasks -> aget (task_id t) (task_rows (s_tables s)) = None) ->
  (forall t c, t ∈ tasks -> tool_call t = Some c ->
     valid_tool_call c /\ aget (tool_call_id c) (tool_call_rows (s_tables s)) = Some (tool_call_to_row_dict c)) ->
  exists s', each (fun t => on_tables (TaskRepo.create tool_call_eq t);; mret tt) tasks s = (Ok tt, s') /\
    s_tables s' = set_task_rows (task_rows (s_tables s) ++ map (fun t => (task_id t, task_to_row_dict t)) tasks)%list (s_tables s).
Proof.
  intros Hrefl Hr Hd Hn Hc. apply (each_returns _ (fun l s' => s_tables s' =
    set_task_rows (task_rows (s_tables s) ++ map (fun t => (task_id t, task_to_row_dict t)) l)%list (s_tables s))).
  - intros l1 t l2 s1 -> E1. unfold mbind, st_bind, on_tables, TaskRepo.create. rewrite E1. cbn [runs set_task_rows].
    rewrite bool_decide_eq_true_2 by (apply Hr; set_solver). cbn [negb].
    set (d1 := set_task_rows _ _).
    assert ((match tool_call t with Some c => TaskRepo.create_tool_call_if_missing tool_call_eq c | None => mret tt end) d1 = (Ok tt, d1)) as Ec.
    { destruct (tool_call t) as [c|] eqn:Ec; [|done]. destruct (Hc t c ltac:(set_solver) Ec) as [Hv Hrow].
      unfold TaskRepo.create_tool_call_if_missing, d1. cbn [tool_call_rows set_task_rows]. by rewrite Hrow, tool_call_row_roundtrip, Hrefl. }
    unfold mbind, st_bind. rewrite Ec. unfold TaskRepo.insert_task, insert_row, d1. cbn [task_rows set_task_rows].
    rewrite aget_new; [|apply Hn; set_solver|].
    + eexists. split; [reflexivity|]. cbn. by rewrite map_app, <- app_assoc.
    + unfold keys. rewrite map_map. cbn. by apply NoDup_last in Hd.
  - cbn. rewrite app_nil_r. by destruct (s_tables s).
Qed.

Lemma aget_row_of {A R} (key : A -> string) (row : A -> R) l x rows : NoDup (map key l) -> x ∈ l -> aget (key x) rows = None ->
  aget (key x) (rows ++ map (fun x => (key x, row x)) l)%list = Some (row x).
Proof.
  intros Hd Hx E. rewrite aget_app, E. apply elem_aget; [unfold keys; rewrite map_map; exact Hd|]. by apply (list_elem_of_fmap_2 (fun x => (key x, row x))).
Qed.

Lemma persist_returns tasks s : (forall c, tool_call_eq c c = true) -> storable tasks (s_tables s) -> exists s', persist tasks s = (Ok tt, s').
Proof.
  intros Hrefl [H1 H2 H3 H4 H5 H6]. unfold persist_tasks_and_tool_calls. destruct tasks as [|t0 tasks0]; [by exists s|].
  remember (t0 :: tasks0) as tasks. clear Heqtasks t0 tasks0.
  pose proof (collect_distinct tasks [] H4) as Ec. cbn in Ec. destruct (store_calls (calls_of tasks) s H4 H5) as (s1 & E1 & T1).
  assert (forall c, c ∈ calls_of tasks -> aget (tool_call_id c) (tool_call_rows (s_tables s1)) = Some (tool_call_to_row_dict c)) as Hrows.
  { intros c Hc. rewrite T1. cbn. apply (aget_row_of tool_call_id); auto. }
  destruct (store_tasks tasks s1) as (s2 & E2 & T2); [done|rewrite T1; exact H1|done|rewrite T1; exact H3| |].
  { intros t c Ht Htc. assert (c ∈ calls_of tasks) as Hc by (apply list_elem_of_omap; eauto). auto. }
  exists s2. apply unit_of_work_returns, st_bind_Ok. exists (calls_of tasks), s. split; [unfold lift; by rewrite Ec|].
  apply st_bind_Ok. by exists tt, s1.
Qed.

Lemma moves_persist tasks : moves store_grown (persist tasks).
Proof.
  unfold persist_tasks_and_tool_calls. destruct tasks; [apply moves_ret, _|]. walk_moves. Qed.
Lemma persist_created tasks s s' : persist tasks s = (Ok tt, s') -> forall t, t ∈ tasks -> task_created tool_call_eq t (s_tables s').
Proof.
  unfold persist_tasks_and_tool_calls. destruct tasks as [|t0 tasks0]; [set_solver|].
  intros E%unit_of_work_Ok. apply st_bind_Ok in E as (calls & s1 & _ & ([] & s2 & _ & E)%st_bind_Ok). by eapply create_tasks_Ok.
Qed.

(** the second stage stores all tasks or none. When it returns, every task has
    its row, in a known run, with the row of its tool call (an equal one if the
    call was there already), and no row that was there has changed; when it
    raises, nothing has. And it does return for new tasks of known runs with new
    tool calls. *)
Theorem tasks_persisted tasks s :
  match persist tasks s with
  | (Ok _, s') => (forall t, t ∈ tasks -> task_created tool_call_eq t (s_tables s')) /\ store_grown s s'
  | (Raise _, s') => s' = s
  end /\
  ((forall c, tool_call_eq c c = true) -> storable tasks (s_tables s) -> exists s', persist tasks s = (Ok tt, s')).
Proof.
  split; [|apply persist_returns]. destruct (persist tasks s) as [[[]|e] s'] eqn:E.
  - split; [by eapply persist_created|by eapply moves_persist].
  - unfold persist_tasks_and_tool_calls in E. destruct tasks; [by injection E|]. by apply unit_of_work_raises in E.
Qed.
End stage2.

Section stage3.
Variable float_repr : spec_float -> string.
Variable redact_text : string -> string.
Variable settings : audit_settings.
Variable lax_int : json -> res Z.
Variable fresh : string -> string.
Variable remember : option (RunPacket -> st store unit).
Variable self : OrchestratorPersistence.
Variable wall_ms : Z.
(** The memory of past runs is a table of its own. *)
Hypothesis remember_keeps : forall upsert p s r s', remember = Some upsert -> upsert p s = (r, s') -> exists l, s' = set_memory l s.
#[local] Notation create_packet := (RunPacketRepo.create float_repr redact_text settings lax_int fresh wall_ms remember).
#[local] Notation finalize := (finalize_run float_repr redact_text settings lax_int fresh remember self wall_ms).

Definition row_with_status (status : TaskStatus.t) (r : TaskRow) : TaskRow :=
  mkTaskRow (tr_task_id r) (tr_run_id r) (tr_name r) (TaskStatus.value status) (tr_tool_call_id r) (tr_attempts r) (tr_max_attempts r)
    (tr_timeout_s r) (tr_depends_on r) (tr_created_at_ms r) (tr_started_at_ms r) (tr_completed_at_ms r) (tr_labels r) (tr_metadata_json r).
Lemma row_with_status_idemp x r : row_with_status x (row_with_status x r) = row_with_status x r.
Proof. done. Qed.

Lemma update_status_inv id x d t d' : is_uuid4_str id = true -> TaskRepo.update_status id x d = (Ok t, d') ->
  exists r, aget id (task_rows d) = Some r /\ d' = set_task_rows (aset id (row_with_status x r) (task_rows d)) d.
Proof.
  intros Hid. unfold TaskRepo.update_status. rewrite required_key_uuid by done. destruct (aget id (task_rows d)) as [r|]; [|done].
  intros [= _ <-]. by exists r.
Qed.

(** What the loop over the enqueued tasks does to the rows. *)
Lemma mark_rows ids s s' : Forall (fun id => is_uuid4_str id = true) ids ->
  each (fun id => on_tables (TaskRepo.update_status id (queued_status self));; mret tt) ids s = (Ok tt, s') ->
  (forall k, aget k (task_rows (s_tables s')) =
    if decide (k ∈ ids) then row_with_status (queued_status self) <$> aget k (task_rows (s_tables s)) else aget k (task_rows (s_tables s))) /\
  (forall k, k ∈ ids -> is_Some (aget k (task_rows (s_tables s)))) /\
  s' = set_tables (set_task_rows (task_rows (s_tables s')) (s_tables s)) s.
Proof.
  revert s. induction ids as [|id ids IH]; intros s; cbn [each].
  - intros _ [= <-]. split_and!; [done|set_solver|by destruct s as [? [] ? ? ?]].
  - intros [Hid Hids]%Forall_cons_1 E. apply st_bind_Ok in E as ([] & s1 & H1 & H2).
    apply st_bind_Ok in H1 as (t & s2 & (d & Hu & ->)%on_tables_inv & [= <-]). apply update_status_inv in Hu as (r & Hr & ->); [|done].
    apply IH in H2 as (Hk & Hs & Es); [|done]. cbn [s_tables set_tables task_rows set_task_rows] in Hk, Hs, Es.
    split_and!; [| |rewrite Es; by destruct s as [? [] ? ? ?]].
    + intros k. rewrite Hk, aget_aset. destruct (decide (k = id)) as [->|].
      * rewrite Hr, (decide_True (P := id ∈ id :: ids)) by set_solver. by case_decide.
      * repeat case_decide; try done; set_solver.
    + intros k [->|Hk']%elem_of_cons; [by rewrite Hr|]. destruct (decide (k = id)) as [->|]; [by rewrite Hr|].
      specialize (Hs k Hk'). by rewrite aget_aset, decide_False in Hs.
Qed.

Lemma create_packet_inv p s stored s' : create_packet p s = (Ok stored, s') -> exists sanitized memory,
  sanitize_for_audit float_repr redact_text settings (RunPacket_dump p) = Ok sanitized /\
  s' = set_memory memory (set_packets (aset (pk_run_id p) (mkRunPacketRow RunPacketRepo.RUN_PACKET_VERSION (pk_created_at_ms p)
         (RunPacketRepo.row_columns (pk_run_id p) (pk_created_at_ms p) RunPacketRepo.RUN_PACKET_VERSION sanitized)) (s_packets s)) s).
Proof.
  unfold RunPacketRepo.create. destruct (negb _); [done|]. destruct (mbind _ _) as [[z q]|e] eqn:E; [|done].
  apply res_bind_Ok in E as (sanitized & Hs & (q' & _ & [= <- <-])%res_bind_Ok). intros Hq. exists sanitized.
  apply st_bind_Ok in Hq as (u & s1 & Hr & [= <- <-]). unfold RunPacketRepo.remember_packet in Hr.
  destruct remember as [upsert|] eqn:Eu; [|injection Hr as <- <-; by exists (s_memory s)]. apply st_bind_Ok in Hr as (s2 & s3 & [= <- <-] & Hr).
  destruct (aget _ _); [|done]. eapply remember_keeps in Hr as (l & ->); [|done]. by exists l.
Qed.

(** the last stage writes over what happened since the tasks were put on the
    queue. When it returns, every enqueued task is queued, whatever its status
    was, with all its other columns as they are; the packet of the run is the
    sanitised packet of the engine, whatever packet was there (the outcomes a
    worker appended to it are gone); no other task changes. *)
Theorem finalize_overwrites p ids s s' : Forall (fun id => is_uuid4_str id = true) ids -> finalize p ids s = (Ok tt, s') ->
  (forall k, k ∈ ids -> exists r, aget k (task_rows (s_tables s)) = Some r /\
    aget k (task_rows (s_tables s')) = Some (row_with_status (queued_status self) r)) /\
  (forall k, k ∉ ids -> aget k (task_rows (s_tables s')) = aget k (task_rows (s_tables s))) /\
  (exists sanitized, sanitize_for_audit float_repr redact_text settings (RunPacket_dump p) = Ok sanitized /\
    aget (pk_run_id p) (s_packets s') = Some (mkRunPacketRow RunPacketRepo.RUN_PACKET_VERSION (pk_created_at_ms p)
      (RunPacketRepo.row_columns (pk_run_id p) (pk_created_at_ms p) RunPacketRepo.RUN_PACKET_VERSION sanitized))).
Proof.
  intros Hids E%unit_of_work_Ok. apply st_bind_Ok in E as ([] & s1 & H1 & (stored & s2 & (z & l & Hz & ->)%create_packet_inv & [= <-])%st_bind_Ok).
  apply mark_rows in H1 as (Hk & Hs & Es); [|done]. cbn [s_tables set_packets s_packets set_memory]. split_and!.
  - intros k Hin. destruct (Hs k Hin) as (r & Hr). exists r. split; [done|]. by rewrite Hk, Hr, decide_True.
  - intros k Hin. by rewrite Hk, decide_False.
  - exists z. split; [done|]. by rewrite aget_aset, decide_True.
Qed.
End stage3.

(** ** A task that was done before its run was finalized *)
Definition same_dump (a b : ToolCall) : bool := (tool_call_id a =? tool_call_id b)%string.
Definition persisted_store : store :=
  (persist_tasks_and_tool_calls same_dump same_dump [sample_task] sample_store).2.
Lemma tasks_persisted_witness : exists s', persist_tasks_and_tool_calls same_dump same_dump [sample_task] sample_store = (Ok tt, s') /\
  task_created same_dump sample_task (s_tables s').
Proof.
  destruct (tasks_persisted same_dump same_dump [sample_task] sample_store) as [H1 H2]. destruct H2 as (s' & E).
  - intros c. unfold same_dump. apply String.eqb_refl.
  - split.
    + intros t ->%list_elem_of_singleton. vm_compute. left.
    + apply NoDup_singleton.
    + intros t ->%list_elem_of_singleton. reflexivity.
    + apply (bool_decide_unpack _). vm_compute. exact I.
    + intros c _. reflexivity.
    + intros c (t & ->%list_elem_of_singleton & Hc)%list_elem_of_omap. by apply (vt_tool_call _ sample_task_valid).
  - exists s'. rewrite E in H1. split; [exact E|]. apply H1. left.
Defined.

(** A worker has run the task: its row says so. *)
Definition worker_done : store :=
  set_tables (set_task_rows (aset (task_id sample_task) (row_with_status TaskStatus.SUCCEEDED (task_to_row_dict sample_task))
    (task_rows (s_tables persisted_store))) (s_tables persisted_store)) persisted_store.
Definition sample_persistence : OrchestratorPersistence := mkPersistence TaskStatus.QUEUED None.
Definition sample_finalize (s : store) : res unit * store :=
  finalize_run (fun _ => "") id default_settings (fun _ => Raise AssertionError) (fun _ => "") None sample_persistence 0 one_task
    [task_id sample_task] s.
Lemma finalize_overwrites_witness : exists s' r, sample_finalize worker_done = (Ok tt, s') /\
  tr_status <$> aget (task_id sample_task) (task_rows (s_tables worker_done)) = Some "succeeded" /\
  aget (task_id sample_task) (task_rows (s_tables s')) = Some (row_with_status TaskStatus.QUEUED r).
Proof.
  destruct (sample_finalize worker_done) as [[[]|e] s'] eqn:E; [|vm_compute in E; discriminate].
  destruct (finalize_overwrites (fun _ => "") id default_settings (fun _ => Raise AssertionError) (fun _ => "") None sample_persistence 0
    ltac:(discriminate) one_task [task_id sample_task] worker_done s' ltac:(apply Forall_cons_2; [vm_compute; reflexivity|apply Forall_nil_2]) E)
    as (Hk & _). destruct (Hk (task_id sample_task) ltac:(left)) as (r & Hr & Hr').
  exists s', r. split; [reflexivity|]. split; [vm_compute; reflexivity|exact Hr'].
Defined.
