(* ===== verification/Triggers.v ===== *)
(** * When to plan: [orchestrator/triggers.py]

    The debouncer, which turns a burst of triggers into one planning cycle, and
    the ticker, which plans at intervals. Each is an object with a coroutine; a
    step is what the coroutine does between two awaits, and all its readings of
    the clock in one step are one reading. The results: a callback never starts
    before the last trigger is [debounce_s] ago, every trigger is followed by a
    callback, and two ticks are an interval apart. *)

From Stdlib Require Import ZArith SpecFloat Lia.
From S2P Require Import Prelude PyFloat Models Envelope.

(** [int(seconds * 1000)] *)
#[local] Notation ms := ms_of_s.

Module DebouncedTrigger.
(** Where the coroutine [_run_loop] stands: not created, waiting for a trigger,
    waiting until the deadline for another one, in the callback, over. *)
Inductive loop := NotStarted | Waiting | Debouncing (due_ms : Z) | Calling | Over.
Record t := mk {
  closed : bool;
  trigger_event : bool;
  last_trigger : option Z;
  task : loop;
}.
Definition new (debounce_s : spec_float) : res t :=
  raise_if (fle debounce_s fzero) (ValueError "debounce_s must be > 0");; Ok (mk false false None NotStarted).

Definition start (d : t) : t :=
  match task d with NotStarted => mk (closed d) (trigger_event d) (last_trigger d) Waiting | _ => d end.
Definition trigger (now : Z) (d : t) : t := if closed d then d else mk (closed d) true (Some now) (task d).
(** [aclose]: the coroutine is cancelled wherever it stands. *)
Definition aclose (d : t) : t :=
  if closed d then d
  else mk true true (last_trigger d) (match task d with NotStarted => NotStarted | _ => Over end).

Section run.
(** [int(self._debounce_s * 1000)] *)
Variable debounce_ms : Z.

Definition due (now : Z) (d : t) : Z := default now (last_trigger d) + debounce_ms.
(** The inner loop at its head, with the deadline [due_ms]. *)
Definition poll (now due_ms : Z) (d : t) : t :=
  if closed d then mk (closed d) (trigger_event d) (last_trigger d) Over
  else if due_ms <=? now then
    if trigger_event d then
      let due_ms := due now d in
      mk (closed d) false (last_trigger d) (if due_ms <=? now then Calling else Debouncing due_ms)
    else mk (closed d) (trigger_event d) (last_trigger d) Calling
  else mk (closed d) (trigger_event d) (last_trigger d) (Debouncing due_ms).
(** The coroutine runs on, when what it waits for has come. *)
Definition resume (now : Z) (d : t) : t :=
  match task d with
  | Waiting =>
      if trigger_event d then
        if closed d then mk (closed d) (trigger_event d) (last_trigger d) Over
        else poll now (due now d) (mk (closed d) false (last_trigger d) Waiting)
      else d
  | Debouncing due_ms =>
      if trigger_event d then
        if closed d then mk (closed d) (trigger_event d) (last_trigger d) Over
        else poll now (due now d) (mk (closed d) false (last_trigger d) (task d))
      else if due_ms <=? now then poll now due_ms d else d
  | _ => d
  end.
(** The callback returns or raises; either way the loop goes on. *)
Definition callback_done (d : t) : t :=
  match task d with Calling => mk (closed d) (trigger_event d) (last_trigger d) Waiting | _ => d end.

Inductive op := Start | Trigger (now : Z) | Close | Resume (now : Z) | CallbackDone.
Definition perform (o : op) (d : t) : t :=
  match o with
  | Start => start d | Trigger now => trigger now d | Close => aclose d | Resume now => resume now d
  | CallbackDone => callback_done d
  end.
Definition op_now (last : Z) (o : op) : Z := match o with Trigger now | Resume now => now | _ => last end.
(** The history of an object: operations in the order of the clock. [last] is the
    reading of the last one. *)
Inductive reaches : t -> Z -> Prop :=
| reaches_new d debounce_s : new debounce_s = Ok d -> ms debounce_s = Ok debounce_ms -> forall now, reaches d now
| reaches_op d last o : reaches d last -> last <= op_now last o -> reaches (perform o d) (op_now last o).

(** A trigger has come and no callback has started since. *)
Definition pending (d : t) : Prop := trigger_event d = true \/ exists due_ms, task d = Debouncing due_ms.
Record consistent (d : t) (last : Z) : Prop := {
  co_last : forall n, last_trigger d = Some n -> n <= last;
  co_set : trigger_event d = true -> closed d = false -> is_Some (last_trigger d);
  co_due : forall due_ms, task d = Debouncing due_ms -> closed d = false /\
    exists n, last_trigger d = Some n /\ (trigger_event d = false -> due_ms = n + debounce_ms);
  co_closed : closed d = true -> task d <> Calling;
}.

(** What the loop does once it has taken note of all triggers. *)
Lemma poll_spec now due_ms d : trigger_event d = false -> closed d = false ->
  poll now due_ms d = mk false false (last_trigger d) (if due_ms <=? now then Calling else Debouncing due_ms).
Proof. intros He Hc. unfold poll. rewrite Hc, He. by destruct (due_ms <=? now). Qed.
Lemma consistent_noted n now last : n <= last -> last <= now ->
  consistent (mk false false (Some n) (if n + debounce_ms <=? now then Calling else Debouncing (n + debounce_ms))) now.
Proof.
  intros Hn Hl. split; cbn; try done.
  - intros m [= <-]. lia.
  - destruct (_ <=? now); intros d [= <-]. eauto.
Qed.

(** One step of the coroutine, from a consistent state. *)
Lemma resume_spec now last d : consistent d last -> last <= now ->
  resume now d = d \/
  (closed d = true /\ task (resume now d) = Over /\ last_trigger (resume now d) = last_trigger d /\ closed (resume now d) = true) \/
  (closed d = false /\ pending d /\ exists n, last_trigger d = Some n /\ n <= last /\
    resume now d = mk false false (Some n) (if n + debounce_ms <=? now then Calling else Debouncing (n + debounce_ms))).
Proof.
  intros [H1 H2 H3 H4] Hl. unfold resume. destruct (task d) as [| |due_ms| |] eqn:Et; auto.
  - destruct (trigger_event d) eqn:Ee; [|auto]. destruct (closed d) eqn:Ec; [by right; left|]. right; right.
    destruct (H2 eq_refl eq_refl) as [n En]. split_and!; [done|by left|]. exists n. split_and!; [done|by apply H1|].
    rewrite poll_spec by done. unfold due. cbn. by rewrite En.
  - destruct (H3 _ eq_refl) as (Ec & n & En & Hd). rewrite Ec. destruct (trigger_event d) eqn:Ee.
    + right; right. split_and!; [done|by left|]. exists n. split_and!; [done|by apply H1|]. rewrite poll_spec by done. unfold due. cbn. by rewrite En.
    + destruct (due_ms <=? now) eqn:El; [|auto]. right; right. split_and!; [done|right; eauto|]. exists n. split_and!; [done|by apply H1|].
      rewrite poll_spec, En by done. by rewrite (Hd eq_refl) in *.
Qed.

Lemma consistent_op o d last : consistent d last -> last <= op_now last o -> consistent (perform o d) (op_now last o).
Proof.
  intros Hc Hl. destruct o as [|now| |now|]; cbn [perform op_now] in *.
  - destruct Hc as [H1 H2 H3 H4]. unfold start. destruct (task d) eqn:Et; split; cbn; try done; by rewrite ?Et in *.
  - destruct Hc as [H1 H2 H3 H4]. unfold trigger. destruct (closed d) eqn:Ec; split; cbn; rewrite ?Ec; try done.
    + intros n Hn. specialize (H1 n Hn). lia.
    + intros n [= <-]. lia.
    + intros due_ms Ed. split; [done|]. by exists now.
  - destruct Hc as [H1 H2 H3 H4]. unfold aclose. destruct (closed d) eqn:Ec; split; cbn; rewrite ?Ec; try done; by destruct (task d).
  - destruct (resume_spec now last d Hc Hl) as [E|[(Ec & Et & En & Ec')|(Ec & _ & n & En & Hn & ->)]]; [| |by apply consistent_noted with last].
    + rewrite E. destruct Hc as [H1 H2 H3 H4]. split; try done. intros n Hn. specialize (H1 n Hn). lia.
    + destruct Hc as [H1 H2 H3 H4]. split; rewrite ?Et, ?En, ?Ec'; try done. intros n Hn. specialize (H1 n Hn). lia.
  - destruct Hc as [H1 H2 H3 H4]. unfold callback_done. destruct (task d) eqn:Et; split; cbn; try done; by rewrite ?Et in *.
Qed.
Lemma reaches_consistent d last : reaches d last -> consistent d last.
Proof.
  induction 1 as [d debounce_s Hd _ now|d last o _ IH Hl]; [|by apply consistent_op].
  unfold new in Hd. apply res_bind_Ok in Hd as (u & _ & [= <-]). by split.
Qed.

(** a burst of triggers is one callback, at the right time. In every history
    of a debouncer: a callback starts only when a trigger is pending, it takes
    care of all of them, and the last one is at least [debounce_s] ago; once it
    is that long ago, the next step of the coroutine starts the callback; and a
    pending trigger stays pending until then, unless the debouncer is closed. *)
Theorem debounced d last now : reaches d last -> last <= now ->
  (task d <> Calling -> task (resume now d) = Calling ->
     closed d = false /\ pending d /\ ~ pending (resume now d) /\ exists n, last_trigger d = Some n /\ n + debounce_ms <= now) /\
  (pending d -> closed d = false -> task d <> NotStarted -> task d <> Calling ->
     forall n, last_trigger d = Some n -> n + debounce_ms <= now -> task d <> Over -> task (resume now d) = Calling) /\
  (forall o, last <= op_now last o -> pending d -> o <> Close -> pending (perform o d) \/ closed d = true \/ task (perform o d) = Calling).
Proof.
  intros Hr%reaches_consistent Hl. pose proof (resume_spec now last d Hr Hl) as Hs. split_and!.
  - intros Hn Hc. destruct Hs as [E|[(_ & Et & _)|(Ec & Hp & n & En & _ & E)]]; [congruence|congruence|].
    rewrite E in Hc |- *. cbn in Hc. destruct (n + debounce_ms <=? now) eqn:El; [|done]. split_and!; [done|done| |exists n; split; [done|lia]].
    by intros [?|(? & ?)].
  - intros Hp Hc H1 H2 n En Hn H3. destruct Hs as [E|[(Ec & _)|(_ & _ & n' & En' & _ & ->)]]; [|congruence|].
    + exfalso. revert E. destruct Hp as [He|(due_ms & Ed)].
      * unfold resume. destruct (task d) eqn:Et; try done; rewrite He, Hc, poll_spec by done; intros E; by rewrite <- E in He.
      * destruct (co_due _ _ Hr _ Ed) as (_ & n' & En' & Hd). unfold resume. rewrite Ed. destruct (trigger_event d) eqn:He.
        -- rewrite Hc, poll_spec by done. intros E. by rewrite <- E in He.
        -- rewrite (Hd eq_refl). replace n' with n by congruence. rewrite (proj2 (Z.leb_le _ _) Hn), poll_spec, (proj2 (Z.leb_le _ _) Hn) by done.
           intros E. by rewrite <- E in Ed.
    + cbn. replace n' with n by congruence. by rewrite (proj2 (Z.leb_le _ _) Hn).
  - intros o Ho Hp Hc. destruct (closed d) eqn:Ec; [auto|]. destruct o as [|now'| |now'|]; cbn [perform] in *; [| |done| |].
    + left. unfold start. destruct (task d) eqn:Et; try exact Hp. destruct Hp as [?|(? & ?)]; [by left|congruence].
    + left. unfold trigger. rewrite Ec. by left.
    + destruct (resume_spec now' last d Hr Ho) as [->|[(? & _)|(_ & _ & n & En & _ & ->)]]; [auto|congruence|].
      cbn. destruct (_ <=? now'); [auto|]. left. right. eauto.
    + left. unfold callback_done. destruct (task d) eqn:Et; try exact Hp. destruct Hp as [?|(? & ?)]; [by left|congruence].
Qed.
End run.
End DebouncedTrigger.

Module PeriodicTicker.
Inductive loop := NotStarted | Sleeping | Calling | Over.
Record t := mk {
  closed : bool;
  next_tick : option Z;
  task : loop;
}.
Definition new (planner_interval_s : spec_float) : res t :=
  raise_if (fle planner_interval_s fzero) (ValueError "planner_interval_s must be > 0");; Ok (mk false None NotStarted).
Definition aclose (d : t) : t :=
  if closed d then d else mk true (next_tick d) (match task d with NotStarted => NotStarted | _ => Over end).

Section run.
(** [int(self._planner_interval_s * 1000)] *)
Variable interval_ms : Z.

Definition start (now : Z) (d : t) : t :=
  match task d with
  | NotStarted => mk (closed d) (match next_tick d with None => Some (now + interval_ms) | n => n end) Sleeping
  | _ => d
  end.
(** [self._next_tick_monotonic_ms or (...)]: zero is no time of a tick. *)
Definition next (now : Z) (d : t) : Z :=
  match next_tick d with Some n => if n =? 0 then now + interval_ms else n | None => now + interval_ms end.
(** The coroutine at the head of its loop. *)
Definition resume (now : Z) (d : t) : t :=
  match task d with
  | Sleeping =>
      if closed d then mk (closed d) (next_tick d) Over
      else if 0 <? next now d - now then d else mk (closed d) (next_tick d) Calling
  | _ => d
  end.
Definition callback_done (now : Z) (d : t) : t :=
  match task d with Calling => mk (closed d) (Some (now + interval_ms)) Sleeping | _ => d end.

(** The history of a ticker that was started; [base] is when it was started, or
    when its last callback was over. *)
Inductive ticking : t -> Z -> Prop :=
| ticking_start d planner_interval_s now : new planner_interval_s = Ok d -> ticking (start now d) now
| ticking_again d base now : ticking d base -> ticking (start now d) base
| ticking_resume d base now : ticking d base -> ticking (resume now d) base
| ticking_done d base now : ticking d base -> task d = Calling -> ticking (callback_done now d) now
| ticking_close d base : ticking d base -> ticking (aclose d) base.

Lemma ticking_next d base : ticking d base -> next_tick d = Some (base + interval_ms) /\ task d <> NotStarted.
Proof.
  induction 1 as [d s now Hd|d base now _ [IH1 IH2]|d base now _ [IH1 IH2]|d base now _ _ Ht|d base _ [IH1 IH2]].
  - unfold new in Hd. by apply res_bind_Ok in Hd as (u & _ & [= <-]).
  - unfold start. by destruct (task d) eqn:Et; rewrite ?Et.
  - unfold resume. destruct (task d) eqn:Et; try (by rewrite Et). destruct (closed d); [done|]. destruct (0 <? _); [by rewrite Et|done].
  - unfold callback_done. by rewrite Ht.
  - unfold aclose. destruct (closed d); [done|]. cbn. by destruct (task d).
Qed.

(** ticks are an interval apart. A ticker that is not closed starts its
    callback at the first step of its coroutine that is at least an interval
    after it was started or after its last callback was over, and never before;
    when it is closed it starts none. *)
Theorem ticks_apart d base now : ticking d base -> 0 < base + interval_ms ->
  (task d = Sleeping -> task (resume now d) = Calling <-> closed d = false /\ base + interval_ms <= now) /\
  (closed d = true -> task (resume now d) = Calling -> task d = Calling).
Proof.
  intros [Hn Ht]%ticking_next Hb. unfold resume, next. rewrite Hn, (proj2 (Z.eqb_neq _ _)) by lia. split.
  - intros Es. rewrite Es. destruct (closed d) eqn:Ec; [split; [done|by intros []]|]. destruct (0 <? _) eqn:El.
    + rewrite Es. split; [done|]. intros [_ H]. lia.
    + cbn. split; [intros _; split; [done|lia]|done].
  - intros Ec. rewrite Ec. by destruct (task d) eqn:Et; rewrite ?Et.
Qed.
End run.
End PeriodicTicker.

(** ** A burst and a tick *)
Definition quarter : spec_float := S754_finite false 4503599627370496 (-54).
Definition burst : DebouncedTrigger.t :=
  foldl (fun d o => DebouncedTrigger.perform 250 o d) (DebouncedTrigger.mk false false None DebouncedTrigger.NotStarted)
    [DebouncedTrigger.Start; DebouncedTrigger.Trigger 1000; DebouncedTrigger.Resume 1000; DebouncedTrigger.Trigger 1200;
     DebouncedTrigger.Resume 1201].
Lemma burst_reached : DebouncedTrigger.reaches 250 burst 1201.
Proof.
  unfold burst. cbn [foldl].
  apply (DebouncedTrigger.reaches_op 250 _ 1200 (DebouncedTrigger.Resume 1201)); [|done].
  apply (DebouncedTrigger.reaches_op 250 _ 1000 (DebouncedTrigger.Trigger 1200)); [|done].
  apply (DebouncedTrigger.reaches_op 250 _ 1000 (DebouncedTrigger.Resume 1000)); [|done].
  apply (DebouncedTrigger.reaches_op 250 _ 1000 (DebouncedTrigger.Trigger 1000)); [|done].
  apply (DebouncedTrigger.reaches_op 250 _ 1000 DebouncedTrigger.Start); [|done].
  by apply DebouncedTrigger.reaches_new with quarter.
Qed.
Lemma debounced_witness : DebouncedTrigger.task (DebouncedTrigger.resume 250 1449 burst) = DebouncedTrigger.Debouncing 1450 /\
  DebouncedTrigger.task (DebouncedTrigger.resume 250 1450 burst) = DebouncedTrigger.Calling.
Proof.
  split; [reflexivity|]. destruct (DebouncedTrigger.debounced 250 burst 1201 1450 burst_reached ltac:(lia)) as (_ & H & _).
  apply (H (or_intror (ex_intro _ 1450 eq_refl)) eq_refl ltac:(discriminate) ltac:(discriminate) 1200 eq_refl ltac:(lia) ltac:(discriminate)).
Defined.

Definition started_ticker : PeriodicTicker.t := PeriodicTicker.start 30000 1000 (PeriodicTicker.mk false None PeriodicTicker.NotStarted).
Lemma ticks_apart_witness : PeriodicTicker.task (PeriodicTicker.resume 30000 31000 started_ticker) = PeriodicTicker.Calling /\
  PeriodicTicker.task (PeriodicTicker.resume 30000 30999 started_ticker) <> PeriodicTicker.Calling.
Proof.
  assert (PeriodicTicker.ticking 30000 started_ticker 1000) as H by (by apply PeriodicTicker.ticking_start with (of_Z 30)).
  destruct (PeriodicTicker.ticks_apart 30000 started_ticker 1000 31000 H ltac:(lia)) as [H1 _].
  destruct (PeriodicTicker.ticks_apart 30000 started_ticker 1000 30999 H ltac:(lia)) as [H2 _].
  split; [apply (H1 eq_refl); split; [reflexivity|lia]|]. intros E. apply (H2 eq_refl) in E. lia.
Defined.
