(* ===== verification/Engine.v ===== *)
(** * The engine: [orchestrator/engine/]

    An event is stored, routed, and either answered with tasks, put on the
    backlog for planning, dropped or flagged; a planning cycle shows the backlog
    to the planner and turns its plan into tasks. Tasks are validated, stored and
    put on the queue, and every run ends with its packet.

    Everything is over one world: the backlog, the debouncer, the store, the queue
    and the rest of the world. The coroutine is suspended at every call of the
    store, the queue and a lock; what others do to the world in the meantime is a
    function [others], of which the theorems assume only what the code's own
    operations do. Router, planner, suppressor and sink act on the world too. *)

From Stdlib Require Import ZArith SpecFloat Lia.
From S2P Require Import Prelude PyFloat PyText Uuid Models Lifecycle Serialization Truncation Redaction Events Plans RunPackets AuditSanitize Envelope Budgets Suppression QueueSpec TaskQueue Decision Approvals Tools PlanValidation EventStore Rows Repos PacketStore Persistence Triggers.

#[local] Notation dict := (list (string * json)).

(** What is given: printing of floats, patterns of the redactor, SHA-256, settings,
    the conversions and comparisons of pydantic, the memory of past runs, the
    recursion limit, the trace context. *)
Record runtime := mkRuntime {
  float_repr : spec_float -> string;
  redact_text : string -> string;
  sha256_hex : string -> string;
  rt_settings : audit_settings;
  lax_int : json -> res Z;
  fresh_default : string -> string;
  remember : option (RunPacket -> st store unit);
  tool_call_eq : ToolCall -> ToolCall -> bool;
  dump_eq : ToolCall -> ToolCall -> bool;
  recursion_limit : nat;
  otel_carrier : dict;
}.

Record EventHandleOutcome := mkOutcome {
  oc_event_id : string;
  oc_run_id : option string;
  oc_duplicate : bool;
}.

(** The clock of the engine. *)
Class Clock (X : Type) := {
  now_ms : X -> Z * X;
  monotonic_ms : X -> Z * X;
}.

Section world.
Context {Q X : Type}.

Record world := mkWorld {
  w_backlog : list Event;
  w_debouncer : DebouncedTrigger.t;
  w_store : store;
  w_queue : Q;
  w_env : X;
}.
Definition set_backlog (l : list Event) (w : world) : world := mkWorld l (w_debouncer w) (w_store w) (w_queue w) (w_env w).
Definition set_debouncer (d : DebouncedTrigger.t) (w : world) : world := mkWorld (w_backlog w) d (w_store w) (w_queue w) (w_env w).
Definition set_store (s : store) (w : world) : world := mkWorld (w_backlog w) (w_debouncer w) s (w_queue w) (w_env w).
Definition set_queue (q : Q) (w : world) : world := mkWorld (w_backlog w) (w_debouncer w) (w_store w) q (w_env w).
Definition set_env (x : X) (w : world) : world := mkWorld (w_backlog w) (w_debouncer w) (w_store w) (w_queue w) x.
Definition on_store {A} (m : st store A) : st world A := fun w => let '(r, s) := m (w_store w) in (r, set_store s w).
Definition on_queue {A} (m : st Q A) : st world A := fun w => let '(r, q) := m (w_queue w) in (r, set_queue q w).
Definition on_env {A} (m : st X A) : st world A := fun w => let '(r, x) := m (w_env w) in (r, set_env x w).
Definition read {A} (f : X -> A * X) : st world A := on_env (fun x => let '(a, x') := f x in (Ok a, x')).

(** [OrchestratorEngine]: its parts and its configuration *)
Record OrchestratorEngine := mkEngine {
  reflex_router : Event -> PlanningInput -> st world ReflexDecision;
  planner : PlanningInput -> st world Plan;
  tool_registry : ToolRegistry.t;
  run_sink : RunPacket -> st world unit;
  persistence : option OrchestratorPersistence;
  event_suppressor : option (Event -> st world (bool * EventSuppressionRecord));
  limits : BudgetLimits;
  enabled_scopes : list string;
  approval_required_scopes : list string;
}.
End world.
Arguments world : clear implicits.
Arguments OrchestratorEngine : clear implicits.

#[export] Hint Mode Entropy ! : typeclass_instances.
#[export] Instance world_entropy {Q X} `{Entropy X} : Entropy (world Q X) := {|
  fresh_uuid := on_env fresh_uuid;
  wall_ms := on_env wall_ms;
|}.

(** ** [observability/context.py] *)
Definition normalize_optional_str (o : option string) : option string := match o with None => None | Some s => strip_or_none s end.
(** [get_correlation_ids()] inside [correlation_context(event_id, run_id)] and
    [correlation_context(task_id, tool_call_id)] *)
Definition correlation_ids_of (event_id run_id task_id tool_call_id : string) : list (string * option string) :=
  [("event_id", normalize_optional_str (Some event_id)); ("run_id", normalize_optional_str (Some run_id));
   ("task_id", normalize_optional_str (Some task_id)); ("tool_call_id", normalize_optional_str (Some tool_call_id))].

(** ** [queueing.py] *)
Definition task_priority (t : Task) : option Z :=
  match aget "planner" (metadata t) with
  | Some (JObj planner_metadata) =>
      match aget "priority" planner_metadata with
      | Some (JInt priority) => if priority <? 0 then None else Some priority
      | _ => None
      end
  | _ => None
  end.

Definition mark_enqueued_tasks (tasks : list Task) (enqueued_task_ids : list string) : list Task :=
  map (fun t => if bool_decide (task_id t ∈ enqueued_task_ids) then task_set_status TaskStatus.QUEUED t else t) tasks.

Definition ready_tasks (tasks : list Task) : list Task := filter (fun t => depends_on t = []) tasks.

(** ** [planning.py]: what a plan asserts of its budget *)
Definition exceeds (asserted configured : option Z) : bool :=
  match asserted, configured with Some a, Some c => c <? a | _, _ => false end.
Definition plan_budget_exceeded (name what asserted configured : string) (a c : json) : exn :=
  budget_exceeded ("planner budget assertion exceeds configured " +:+ name) what [(asserted, a); (configured, c)].
Definition validate_plan_budget_assertions (l : BudgetLimits) (p : Plan) : res unit :=
  let assertions := budget_assertions p in
  raise_if (exceeds (ba_max_tasks assertions) (max_tasks_per_run l))
    (plan_budget_exceeded "max_tasks_per_run" "max_tasks_per_run" "asserted_max_tasks" "configured_max_tasks_per_run"
      (json_of JInt (ba_max_tasks assertions)) (json_of JInt (max_tasks_per_run l)));;
  raise_if (exceeds (Some (ba_max_tool_calls assertions)) (max_tool_calls_per_run l))
    (plan_budget_exceeded "max_tool_calls_per_run" "max_tool_calls_per_run" "asserted_max_tool_calls" "configured_max_tool_calls_per_run"
      (JInt (ba_max_tool_calls assertions)) (json_of JInt (max_tool_calls_per_run l)));;
  raise_if (exceeds (Some (ba_max_tokens assertions)) (max_tokens_per_run l))
    (plan_budget_exceeded "max_tokens_per_run" "max_tokens_per_run" "asserted_max_tokens" "configured_max_tokens_per_run"
      (JInt (ba_max_tokens assertions)) (json_of JInt (max_tokens_per_run l)));;
  raise_if (match max_wall_time_s l with Some s => flt s (ba_max_runtime_s assertions) | None => false end)
    (plan_budget_exceeded "max_run_wall_time_s" "max_run_wall_time_s" "asserted_max_runtime_s" "configured_max_run_wall_time_s"
      (JFloat (ba_max_runtime_s assertions)) (json_of JFloat (max_wall_time_s l))).

Section engine.
Context {Q X : Type} `{QO : QueueOps Q} `{EN : Entropy X} `{CL : Clock X}.
#[local] Notation world := (world Q X).
Variable rt : runtime.
Variable self : OrchestratorEngine Q X.
(** What the other coroutines do while this one is suspended. *)
Variable others : world -> world.
(** [clock.monotonic_ms()] as the tracker of this run reads it *)
Variable tracker_clock : nat -> Z.

Definition suspend : st world unit := modify others.
Definition new_uuid : st world string := fresh_uuid.
Definition wall_time_ms : st world Z := wall_ms.

(** ** [backlog.py] *)
Definition enqueue_backlog_event (e : Event) : st world unit :=
  suspend;;
  w ← Prelude.get;
  let current := Z.of_nat (length (w_backlog w)) in
  match max_backlog_events (limits self) with
  | Some limit =>
      if limit <? current + 1 then
        throw (budget_exceeded "backlog budget exceeded" "max_backlog_events"
          [("limit", JInt limit); ("current", JInt current); ("would_be", JInt (current + 1)); ("event_id", JStr (event_id e));
           ("event_type", JStr (ev_type e)); ("event_source", JStr (ev_source e))])
      else put (set_backlog (w_backlog w ++ [e])%list w)
  | None => put (set_backlog (w_backlog w ++ [e])%list w)
  end.

Definition drain_backlog (max_items : option Z) : st world (list Event) :=
  suspend;;
  w ← Prelude.get;
  match max_items with
  | None => put (set_backlog [] w);; mret (w_backlog w)
  | Some n =>
      if n <=? 0 then mret []
      else put (set_backlog (drop (Z.to_nat n) (w_backlog w)) w);; mret (take (Z.to_nat n) (w_backlog w))
  end.

(** [_remove_selected_backlog_events] *)
Definition remove_selected_backlog_events (count : nat) : st world unit :=
  match count with
  | O => mret tt
  | _ => suspend;; modify (fun w => set_backlog (drop count (w_backlog w)) w)
  end.

(** [debouncer.trigger()] *)
Definition trigger_planning : st world unit :=
  now ← read monotonic_ms; modify (fun w => set_debouncer (DebouncedTrigger.trigger now (w_debouncer w)) w).

(** *** Stages of the persistence; nothing without one *)
Definition persist_event_and_run (p : OrchestratorPersistence) (e : Event) (r : RunRecord) : st world (Event * bool) :=
  suspend;; now ← wall_time_ms; on_store (Persistence.persist_event_and_run (float_repr rt) p now e r).
Definition get_run_id_for_event (id : string) : st world (option string) := suspend;; on_store (Persistence.get_run_id_for_event id).
Definition persist_tasks_and_tool_calls (tasks : list Task) : st world unit :=
  match persistence self with
  | None => mret tt
  | Some _ => suspend;; on_store (Persistence.persist_tasks_and_tool_calls (tool_call_eq rt) (dump_eq rt) tasks)
  end.
Definition finalize_run (packet : RunPacket) (enqueued_task_ids : list string) : st world unit :=
  match persistence self with
  | None => mret tt
  | Some p =>
      suspend;; now ← wall_time_ms;
      on_store (Persistence.finalize_run (float_repr rt) (redact_text rt) (rt_settings rt) (lax_int rt) (fresh_default rt) (remember rt) p now
                  packet enqueued_task_ids)
  end.

(** ** [enqueue_tasks] *)
Definition envelope_of (e_id : string) (now : Z) (event_id run reason source : string) (trigger : option PlanningTrigger) (t : Task)
    (c : ToolCall) (wall : Z) : res TaskEnvelope :=
  TaskEnvelope_validate e_id wall {|
    in_envelope_id := IdNone; in_task_id := IdStr (task_id t); in_run_id := IdStr (run_id t); in_attempt := attempts t;
    in_created_at_ms := Some now; in_available_at_ms := Some now; in_priority := task_priority t;
    in_correlation_ids := Some (correlation_ids_of event_id run (task_id t) (tool_call_id c));
    in_trace := Some ([("reason", JStr reason); ("source", JStr source); ("trigger", json_of (fun t => JStr (trigger_value t)) trigger)] ++
                      match otel_carrier rt with [] => [] | o => [("otel", JObj o)] end)%list;
    in_payload := Some [("tool_call_id", JStr (tool_call_id c)); ("tool_name", JStr (tool_name c));
                        ("permission_scope", JStr (permission_scope c)); ("idempotency_key", JStr (idempotency_key c))] |}.

(** [queue.enqueue]: any error of the queue is a [TaskEnqueueError] with what was
    put on the queue before. *)
Definition try_enqueue (now : Z) (envelope : TaskEnvelope) (failure : exn) : st world unit := fun w =>
  match on_queue (q_enqueue now envelope) w with
  | (Ok _, w') => (Ok tt, w')
  | (Raise _, w') => (Raise failure, w')
  end.
Definition enqueue_one (envelope : TaskEnvelope) (enqueued : list string) (t : Task) (c : ToolCall) : st world unit :=
  suspend;; now ← wall_time_ms; try_enqueue now envelope (TaskEnqueueError enqueued (task_id t) (Some (tool_call_id c))).
Fixpoint enqueue_ready (now : Z) (event_id run reason source : string) (trigger : option PlanningTrigger) (ready : list Task)
    (enqueued : list string) : st world (list string) :=
  match ready with
  | [] => mret enqueued
  | t :: ready =>
      match tool_call t with
      | None => throw (PlanValidationError "task.tool_call is required for queueing")
      | Some c =>
          id ← new_uuid; wall ← wall_time_ms;
          envelope ← lift (envelope_of id now event_id run reason source trigger t c wall);
          enqueue_one envelope enqueued t c;;
          enqueue_ready now event_id run reason source trigger ready (enqueued ++ [task_id t])%list
      end
  end.
Definition enqueue_tasks (event_id run : string) (tasks : list Task) (reason source : string) (trigger : option PlanningTrigger)
  : st world (list string) :=
  now ← read now_ms;
  enqueue_ready now event_id run reason source trigger (ready_tasks tasks) [].

(** ** One run: the local variables of [handle_event] and [run_planning_once] *)
Record frame := mkFrame {
  f_world : world;
  f_tracker : BudgetTracker.t;
  f_reflex_decision : dict;
  f_plan : dict;
  f_tasks : list Task;
  f_policy_decisions : list dict;
  f_enqueued_task_ids : list string;
}.
Definition new_frame (tracker : BudgetTracker.t) (w : world) : frame := mkFrame w tracker [] [] [] [] [].
Definition on_world {A} (m : st world A) : st frame A := fun f =>
  let '(r, w) := m (f_world f) in
  (r, mkFrame w (f_tracker f) (f_reflex_decision f) (f_plan f) (f_tasks f) (f_policy_decisions f) (f_enqueued_task_ids f)).
Definition on_tracker {A} (m : st BudgetTracker.t A) : st frame A := fun f =>
  let '(r, b) := m (f_tracker f) in
  (r, mkFrame (f_world f) b (f_reflex_decision f) (f_plan f) (f_tasks f) (f_policy_decisions f) (f_enqueued_task_ids f)).
Definition set_reflex_decision (d : dict) : st frame unit := modify (fun f =>
  mkFrame (f_world f) (f_tracker f) d (f_plan f) (f_tasks f) (f_policy_decisions f) (f_enqueued_task_ids f)).
Definition set_plan (d : dict) : st frame unit := modify (fun f =>
  mkFrame (f_world f) (f_tracker f) (f_reflex_decision f) d (f_tasks f) (f_policy_decisions f) (f_enqueued_task_ids f)).
Definition set_tasks (l : list Task) : st frame unit := modify (fun f =>
  mkFrame (f_world f) (f_tracker f) (f_reflex_decision f) (f_plan f) l (f_policy_decisions f) (f_enqueued_task_ids f)).
Definition add_policy_decision (d : dict) : st frame unit := modify (fun f =>
  mkFrame (f_world f) (f_tracker f) (f_reflex_decision f) (f_plan f) (f_tasks f) (f_policy_decisions f ++ [d])%list (f_enqueued_task_ids f)).
(** [enqueued_task_ids = ids; tasks = mark_enqueued_tasks(tasks, ids)] *)
Definition set_enqueued (ids : list string) : st frame unit := modify (fun f =>
  mkFrame (f_world f) (f_tracker f) (f_reflex_decision f) (f_plan f) (mark_enqueued_tasks (f_tasks f) ids) (f_policy_decisions f) ids).
(** [try: body except Exception as exc: handler(exc)] *)
Definition guarded (body : st frame unit) (handler : exn -> st frame unit) : st frame unit := fun f =>
  match body f with (Ok _, f') => (Ok tt, f') | (Raise e, f') => handler e f' end.

Definition failure (kind message : string) : dict := [("type", JStr kind); ("message", JStr message)].
Definition enqueue_failure (ids : list string) (failed_task_id : string) : st frame unit :=
  set_enqueued ids;;
  add_policy_decision (failure "queue_enqueue_error" "task enqueue failed" ++ [("failed_task_id", JStr failed_task_id)])%list.

(** Tasks are granted, built, stored and put on the queue. *)
Definition accept_and_enqueue (event_id run : string) (proposed : list ProposedTask) (seed_source : TaskSeedSource)
    (seed_event : option string) (reason source : string) (trigger : PlanningTrigger) : st frame unit :=
  tasks ← on_world (build_tasks (float_repr rt) (sha256_hex rt) (tool_registry self) (enabled_scopes self) (approval_required_scopes self)
                      (recursion_limit rt) proposed run seed_source seed_event);
  set_tasks tasks;;
  on_world (persist_tasks_and_tool_calls tasks);;
  ids ← on_world (enqueue_tasks event_id run tasks reason source (Some trigger));
  set_enqueued ids.
Definition accept_counts (proposed : list ProposedTask) (source : string) : st frame unit :=
  on_tracker (BudgetTracker.accept tracker_clock BudgetTracker.TASKS (Z.of_nat (length proposed)) (Some source));;
  on_tracker (BudgetTracker.accept tracker_clock BudgetTracker.TOOL_CALLS (Z.of_nat (length proposed)) (Some source)).

(** ** [reflex.py] *)
Definition suppressed_decision (r : EventSuppressionRecord) : dict :=
  [("action", JStr "suppressed"); ("reason", JStr "event_suppression_threshold_exceeded");
   ("suppression", JObj [
      ("signature_hash", JStr (signature_hash r)); ("signature", JObj (signature r)); ("count", JInt (count r));
      ("threshold", JInt (es_threshold r)); ("window_ms", JInt (es_window_ms r)); ("window_start_ms", JInt (window_start_ms r));
      ("suppressed_until_ms", json_of JInt (suppressed_until_ms r)); ("expires_at_ms", JInt (expires_at_ms r));
      ("resume_required", JBool (resume_required r))])].
Definition is_suppressed (e : Event) : st frame bool :=
  match event_suppressor self with
  | None => mret false
  | Some observe =>
      suppression ← on_world (observe e);
      if suppression.1 : bool then set_reflex_decision (suppressed_decision suppression.2);; mret true else mret false
  end.
Definition follow_decision (e : Event) (run : string) (decision : ReflexDecision) : st frame unit :=
  match rd_action decision with
  | ReflexAction.FAST_TASKS =>
      accept_counts (proposed_tasks decision) "reflex";;
      accept_and_enqueue (event_id e) run (proposed_tasks decision) SeedReflex (Some (event_id e)) (rd_reason decision) "reflex" OnEvent
  | ReflexAction.NEEDS_PLANNING => on_world (enqueue_backlog_event e);; on_world trigger_planning
  | ReflexAction.DROP => mret tt
  | ReflexAction.FLAG =>
      add_policy_decision [("type", JStr "flagged_event"); ("reason", JStr (rd_reason decision));
                           ("flag", JObj (default [] (rd_flag decision)))]
  end.
Definition consult_router (e : Event) : st frame ReflexDecision :=
  now ← on_world (read now_ms);
  planning_input ← lift (PlanningInput_validate (mkPlanningInput OnEvent [e] (mkLimitsSnapshot None None None None) now));
  decision ← on_world (reflex_router self e planning_input);
  on_tracker (BudgetTracker.check_wall_time tracker_clock);;
  mret decision.
Definition route_event (e : Event) (run : string) : st frame unit :=
  suppressed ← is_suppressed e;
  if suppressed : bool then mret tt
  else
    decision ← consult_router e;
    set_reflex_decision (ReflexDecision_dump decision);;
    follow_decision e run decision.
(** The [except] clauses *)
Definition reflex_failed (e : exn) : st frame unit :=
  match e with
  | BudgetExceeded message _ context => add_policy_decision (budget_exceeded_to_audit_dict message context)
  | TemplateValidationError m | TemplateResolutionError m => add_policy_decision (failure "template_resolution_error" m)
  | PlanValidationError m => add_policy_decision (failure "plan_validation_error" m)
  | TaskEnqueueError ids failed _ => enqueue_failure ids failed
  | _ => add_policy_decision (failure "reflex_error" "unexpected reflex error")
  end.

Definition run_body (body : st frame unit) (tracker : BudgetTracker.t) : st world frame := fun w =>
  let '(r, f) := body (new_frame tracker w) in (match r with Ok _ => Ok f | Raise e => Raise e end, f_world f).
(** The [try] statement of [handle_event]: the local variables after it *)
Definition reflex_cycle (e : Event) (run : string) (tracker : BudgetTracker.t) : st world frame :=
  run_body (guarded (route_event e run) reflex_failed) tracker.

(** The packet of the run, to the sink and to the store. *)
Definition report_run (run : string) (e : Event) (created_at_ms : Z) (f : frame) : st world unit :=
  packet ← lift (RunPacket_new (float_repr rt) (mkRunPacket run None e (f_reflex_decision f) (f_plan f) (f_tasks f) [] (f_policy_decisions f)
                   created_at_ms None None));
  run_sink self packet;;
  finalize_run packet (f_enqueued_task_ids f).
Definition reflex_run (e : Event) (run : string) (created_at_ms : Z) : st world EventHandleOutcome :=
  tracker ← lift (BudgetTracker.new tracker_clock (limits self) 0);
  f ← reflex_cycle e run tracker;
  report_run run e created_at_ms f;;
  mret (mkOutcome (event_id e) (Some run) false).

(** [submit_event] *)
Definition submit_event (e : Event) : st world EventHandleOutcome :=
  run ← new_uuid;
  created_at_ms ← read now_ms;
  match persistence self with
  | None => reflex_run e run created_at_ms
  | Some p =>
      persisted ← persist_event_and_run p e (mkRunRecord run None created_at_ms None None);
      if persisted.2 : bool then reflex_run persisted.1 run created_at_ms
      else
        existing ← get_run_id_for_event (event_id persisted.1);
        mret (mkOutcome (event_id persisted.1) existing true)
  end.
(** [OrchestratorEngine.handle_event] *)
Definition handle_event (e : Event) : st world string :=
  outcome ← submit_event e;
  match oc_run_id outcome with
  | None => throw (RuntimeError "event was deduplicated before the original run packet was available")
  | Some run => mret run
  end.

(** ** [planning.py] *)
Definition selection (w : world) : list Event :=
  match max_events_per_planning_cycle (limits self) with
  | None => w_backlog w
  | Some n => take (Z.to_nat n) (w_backlog w)
  end.
Definition effective_trigger (trigger : PlanningTrigger) (selected : list Event) : PlanningTrigger :=
  match trigger, selected with OnEvent, [] => Tick | t, _ => t end.
(** Up to the tasks that the planner proposes, and are granted. *)
Definition consult_planner (trigger : PlanningTrigger) (selected : list Event) (now : Z) : st frame Plan :=
  snapshot ← lift (LimitsSnapshot_validate (mkLimitsSnapshot (max_tasks_per_run (limits self)) (max_tool_calls_per_run (limits self))
                     (max_tokens_per_run (limits self)) (max_wall_time_s (limits self))));
  planning_input ← lift (PlanningInput_validate (mkPlanningInput trigger selected snapshot now));
  plan ← on_world (planner self planning_input);
  on_tracker (BudgetTracker.check_wall_time tracker_clock);;
  lift (validate_plan_budget_assertions (limits self) plan);;
  set_plan (Plan_dump plan);;
  (match selected with
   | [] => mret tt
   | _ => on_tracker (BudgetTracker.accept tracker_clock BudgetTracker.PLANNING_EVENTS (Z.of_nat (length selected)) (Some "planner"))
   end);;
  (match plan_tasks plan with [] => mret tt | proposed => accept_counts proposed "planner" end);;
  mret plan.
Definition plan_events (trigger : PlanningTrigger) (selected : list Event) (event_id run : string) (now : Z) : st frame unit :=
  let trigger := effective_trigger trigger selected in
  plan ← consult_planner trigger selected now;
  accept_and_enqueue event_id run (plan_tasks plan) SeedPlanning None (summary plan) "planner" trigger;;
  on_world (remove_selected_backlog_events (length selected)).
Definition planning_failed (selected : list Event) (e : exn) : st frame unit :=
  match e with
  | BudgetExceeded message _ context => add_policy_decision (budget_exceeded_to_audit_dict message context)
  | PlanValidationError m => add_policy_decision (failure "plan_validation_error" m)
  | TaskEnqueueError ids failed _ =>
      enqueue_failure ids failed;;
      match ids with [] => mret tt | _ => on_world (remove_selected_backlog_events (length selected)) end
  | PlannerMemoryLoadError m => add_policy_decision (failure "planning_memory_error" m)
  | PlannerRequestError m => add_policy_decision (failure "planning_backend_error" m)
  | PlannerResponseError m => add_policy_decision (failure "planning_response_error" m)
  | _ => add_policy_decision (failure "planning_error" "unexpected planning error")
  end.
Definition planning_cycle (trigger : PlanningTrigger) (selected : list Event) (event_id run : string) (now : Z) (tracker : BudgetTracker.t)
  : st world frame := run_body (guarded (plan_events trigger selected event_id run now) (planning_failed selected)) tracker.
Definition planning_event (trigger : PlanningTrigger) (selected backlog_before : nat) (now : Z) : st world Event :=
  id ← new_uuid;
  lift (Event_validate (float_repr rt) None id (mkEventInput IdNone "planning_cycle" "orchestrator" now
    [("trigger", JStr (trigger_value trigger)); ("selected_events", JInt (Z.of_nat selected)); ("backlog_before", JInt (Z.of_nat backlog_before))]
    None)).
Definition planning_run (trigger : PlanningTrigger) (run : string) (tracker : BudgetTracker.t) : st world string :=
  suspend;; (* the locks *)
  w ← Prelude.get;
  let selected := selection w in
  now ← read now_ms;
  e ← planning_event trigger (length selected) (length (w_backlog w)) now;
  persisted ← match persistence self with
              | None => mret e
              | Some p => persisted ← persist_event_and_run p e (mkRunRecord run None now None None); mret persisted.1
              end;
  f ← planning_cycle trigger selected (event_id persisted) run now tracker;
  report_run run persisted now f;;
  mret run.
Definition run_planning_once (trigger : PlanningTrigger) : st world string :=
  run ← new_uuid;
  tracker ← lift (BudgetTracker.new tracker_clock (limits self) 0);
  planning_run trigger run tracker.

(** ** What a run respects *)

(** The relation on the worlds of two frames. *)
Definition in_world (R : world -> world -> Prop) (f f' : frame) : Prop := R (f_world f) (f_world f').
#[local] Instance in_world_preorder R `{!PreOrder R} : PreOrder (in_world R).
Proof. split; [intros f; unfold in_world; reflexivity|intros f1 f2 f3; unfold in_world; by etrans]. Qed.

Lemma moves_on_world {A} R (m : st world A) : moves R m -> moves (in_world R) (on_world m).
Proof. intros Hm f r f'. unfold on_world. destruct (m (f_world f)) as [r0 w] eqn:E. intros [= _ <-]. unfold in_world. cbn. by eapply Hm. Qed.
Lemma moves_on_tracker {A} R `{!PreOrder R} (m : st BudgetTracker.t A) : moves (in_world R) (on_tracker m).
Proof. intros f r f'. unfold on_tracker. destruct (m (f_tracker f)) as [r0 b]. intros [= _ <-]. unfold in_world. by cbn. Qed.
Lemma moves_set_reflex_decision R `{!PreOrder R} d : moves (in_world R) (set_reflex_decision d).
Proof. apply moves_modify. intros f. unfold in_world. by cbn. Qed.
Lemma moves_set_plan R `{!PreOrder R} d : moves (in_world R) (set_plan d).
Proof. apply moves_modify. intros f. unfold in_world. by cbn. Qed.
Lemma moves_set_tasks R `{!PreOrder R} l : moves (in_world R) (set_tasks l).
Proof. apply moves_modify. intros f. unfold in_world. by cbn. Qed.
Lemma moves_add_policy R `{!PreOrder R} d : moves (in_world R) (add_policy_decision d).
Proof. apply moves_modify. intros f. unfold in_world. by cbn. Qed.
Lemma moves_set_enqueued R `{!PreOrder R} ids : moves (in_world R) (set_enqueued ids).
Proof. apply moves_modify. intros f. unfold in_world. by cbn. Qed.
Lemma moves_guarded R `{!PreOrder R} body handler : moves (in_world R) body -> (forall e, moves (in_world R) (handler e)) ->
  moves (in_world R) (guarded body handler).
Proof.
  intros Hb Hh f r f'. unfold guarded. destruct (body f) as [[u|e] f1] eqn:E.
  - intros [= _ <-]. by eapply Hb.
  - intros Eh. etrans; [by eapply Hb|by eapply Hh].
Qed.
Lemma moves_run_body R `{!PreOrder R} body tracker : moves (in_world R) body -> moves R (run_body body tracker).
Proof.
  intros Hb w r w'. unfold run_body. destruct (body (new_frame tracker w)) as [r0 f] eqn:E. intros [= _ <-]. apply (Hb _ _ _ E).
Qed.

(** What the environment does stays in [R]: the other coroutines, the parts of the
    engine, the clock, the generator of identifiers and the debouncer. *)
Record respects (R : world -> world -> Prop) : Prop := {
  re_env : forall w x, R w (set_env x w);
  re_debouncer : forall w d, R w (set_debouncer d w);
  re_others : forall w, R w (others w);
  re_router : forall e i, moves R (reflex_router self e i);
  re_planner : forall i, moves R (planner self i);
  re_sink : forall p, moves R (run_sink self p);
  re_suppressor : forall observe e, event_suppressor self = Some observe -> moves R (observe e);
}.
(** What the engine does itself stays in [R]. *)
Record operations (R : world -> world -> Prop) : Prop := {
  op_append : forall e, moves R (enqueue_backlog_event e);
  op_remove : forall n, moves R (remove_selected_backlog_events n);
  op_event : forall p e r, moves R (persist_event_and_run p e r);
  op_accept : forall ev run l seed sev reason source tr, moves (in_world R) (accept_and_enqueue ev run l seed sev reason source tr);
  op_finalize : forall p ids, moves R (finalize_run p ids);
}.

Section respected.
Variable R : world -> world -> Prop.
Context `{!PreOrder R} (HR : respects R).

Lemma moves_on_env {A} (m : st X A) : moves R (on_env m).
Proof. intros w r w'. unfold on_env. destruct (m (w_env w)) as [r0 x]. intros [= _ <-]. apply (re_env R HR). Qed.
Lemma moves_suspend : moves R suspend.
Proof. apply moves_modify, (re_others R HR). Qed.
Lemma moves_get_run_id id : moves R (get_run_id_for_event id).
Proof.
  unfold get_run_id_for_event. apply moves_bind; [done|apply moves_suspend|]. intros _ w r w'. unfold on_store.
  unfold Persistence.get_run_id_for_event, unit_of_work, RunPacketRepo.get_run_id_for_event.
  assert (set_store (w_store w) w = w) as Hw by (by destruct w). destruct (mbind _ _); rewrite Hw; by intros [= _ <-].
Qed.
Lemma moves_trigger : moves R trigger_planning.
Proof.
  unfold trigger_planning, read. apply moves_bind; [done|apply moves_on_env|]. intros now. apply moves_modify. intros w. apply (re_debouncer R HR).
Qed.
#[local] Hint Resolve moves_on_env moves_suspend moves_get_run_id moves_trigger moves_on_world moves_on_tracker moves_set_reflex_decision
  moves_set_plan moves_set_tasks moves_add_policy moves_set_enqueued : moves.
#[local] Hint Resolve re_router re_planner re_sink : moves.

Lemma moves_new_uuid : moves R new_uuid.
Proof. apply moves_on_env. Qed.
Lemma moves_wall : moves R wall_time_ms.
Proof. apply moves_on_env. Qed.
Lemma moves_read {A} (f : X -> A * X) : moves R (read f).
Proof. apply moves_on_env. Qed.
#[local] Hint Resolve moves_new_uuid moves_wall moves_read : moves.

Lemma moves_build_task l t run source ev : moves R (build_task (float_repr rt) (sha256_hex rt) l (enabled_scopes self) (approval_required_scopes self) t run source ev).
Proof. unfold build_task, new_tool_call, new_task. walk_moves; apply moves_on_env. Qed.
Lemma moves_build_tasks limit l ts run source ev :
  moves R (build_tasks (float_repr rt) (sha256_hex rt) l (enabled_scopes self) (approval_required_scopes self) limit ts run source ev).
Proof.
  unfold build_tasks. walk_moves. induction ts as [|t ts IH]; cbn [build_all]; walk_moves; apply moves_build_task.
Qed.

Context (HO : operations R).
#[local] Hint Resolve op_append op_remove op_event op_accept op_finalize : moves.

Lemma moves_accept_counts l source : moves (in_world R) (accept_counts l source).
Proof. unfold accept_counts. walk_moves. Qed.
#[local] Hint Resolve moves_accept_counts : moves.
Lemma moves_route_event e run : moves (in_world R) (route_event e run).
Proof.
  unfold route_event, consult_router, is_suppressed, follow_decision. walk_moves.
  all: try (apply moves_on_world; by eapply re_suppressor).
Qed.
Lemma moves_reflex_failed e : moves (in_world R) (reflex_failed e).
Proof. unfold reflex_failed, enqueue_failure. walk_moves. Qed.
Lemma moves_report_run run e created f : moves R (report_run run e created f).
Proof. unfold report_run. walk_moves. Qed.
Lemma moves_plan_events trigger selected ev run now : moves (in_world R) (plan_events trigger selected ev run now).
Proof. unfold plan_events, consult_planner. walk_moves. Qed.
Lemma moves_planning_failed selected e : moves (in_world R) (planning_failed selected e).
Proof. unfold planning_failed, enqueue_failure. walk_moves. Qed.

(** A run stays in [R] when its environment and its own operations do. *)
Lemma moves_submit e : moves R (submit_event e).
Proof.
  unfold submit_event, reflex_run, reflex_cycle. walk_moves.
  all: try apply moves_report_run. all: apply moves_run_body; [done|]; apply moves_guarded; [done|apply moves_route_event|apply moves_reflex_failed].
Qed.
Lemma moves_planning trigger : moves R (run_planning_once trigger).
Proof.
  unfold run_planning_once, planning_run, planning_event, planning_cycle. walk_moves.
  all: try apply moves_report_run. all: apply moves_run_body; [done|]; apply moves_guarded; [done|apply moves_plan_events|apply moves_planning_failed].
Qed.
End respected.

(** *** Relations of the backlogs alone *)
Section backlog_only.
Variable R : world -> world -> Prop.
Context `{!PreOrder R} (HR : respects R) (Hsame : forall w w', w_backlog w' = w_backlog w -> R w w').

Lemma moves_on_store {A} (m : st store A) : moves R (on_store m).
Proof. intros w r w'. unfold on_store. destruct (m (w_store w)) as [r0 s]. intros [= _ <-]. by apply Hsame. Qed.
Lemma moves_try_enqueue now e x : moves R (try_enqueue now e x).
Proof.
  intros w r w'. unfold try_enqueue, on_queue. destruct (q_enqueue now e (w_queue w)) as [[u|err] q]; intros [= _ <-]; by apply Hsame.
Qed.
#[local] Hint Resolve moves_on_store moves_try_enqueue moves_suspend moves_new_uuid moves_wall moves_read moves_on_world moves_set_tasks
  moves_set_enqueued moves_build_tasks : moves.
Lemma moves_enqueue_ready now ev run reason source tr ready enq : moves R (enqueue_ready now ev run reason source tr ready enq).
Proof. revert enq. induction ready as [|t ready IH]; intros enq; cbn [enqueue_ready]; [apply moves_ret, _|]. unfold enqueue_one. walk_moves. Qed.
#[local] Hint Resolve moves_enqueue_ready : moves.

Lemma backlog_only_operations : (forall e, moves R (enqueue_backlog_event e)) -> (forall n, moves R (remove_selected_backlog_events n)) -> operations R.
Proof.
  intros H1' H2'. split; [done|done| | |].
  - intros p e r. unfold persist_event_and_run. walk_moves.
  - intros. unfold accept_and_enqueue, enqueue_tasks, persist_tasks_and_tool_calls. walk_moves.
    all: apply moves_on_world; walk_moves.
  - intros p ids. unfold finalize_run. walk_moves.
Qed.
End backlog_only.

Definition backlog_within (w w' : world) : Prop := forall n, max_backlog_events (limits self) = Some n ->
  Z.of_nat (length (w_backlog w)) <= n -> Z.of_nat (length (w_backlog w')) <= n.
#[export] Instance backlog_within_preorder : PreOrder backlog_within.
Proof. split; [by intros w n _|]. intros w1 w2 w3 H1' H2' n Hn Hl. auto. Qed.
Lemma within_append e : respects backlog_within -> moves backlog_within (enqueue_backlog_event e).
Proof.
  intros HR. unfold enqueue_backlog_event. apply moves_bind; [apply _|by apply moves_suspend|]. intros _ w r w'.
  unfold mbind, st_bind, Prelude.get, put. destruct (max_backlog_events (limits self)) as [n|] eqn:En; [|intros [= _ <-] n; congruence].
  destruct (Z.ltb_spec n (Z.of_nat (length (w_backlog w)) + 1)); intros [= _ <-]; [done|]. intros m Em _. cbn. rewrite length_app. cbn. replace m with n by congruence. lia.
Qed.
Lemma within_remove n : respects backlog_within -> moves backlog_within (remove_selected_backlog_events n).
Proof.
  intros HR. unfold remove_selected_backlog_events. destruct n; [apply moves_ret, _|]. apply moves_bind; [apply _|by apply moves_suspend|]. intros _.
  apply moves_modify. intros w m _ Hm. cbn [w_backlog set_backlog]. rewrite length_drop. lia.
Qed.

(** the backlog stays within its limit, whatever is submitted and planned, as
    long as the rest of the program only uses the engine's own operations on it. *)
Theorem backlog_bounded e trigger : respects backlog_within ->
  moves backlog_within (submit_event e) /\ moves backlog_within (run_planning_once trigger) /\
  (forall e, moves backlog_within (enqueue_backlog_event e)) /\ (forall n, moves backlog_within (drain_backlog n)).
Proof.
  intros HR. assert (operations backlog_within) as HO.
  { apply backlog_only_operations; [apply _|done| | |].
    - intros w w' E n _ Hl. by rewrite E.
    - intros e'. by apply within_append.
    - intros n. by apply within_remove. }
  split; [exact (moves_submit backlog_within HR HO e)|]. split; [exact (moves_planning backlog_within HR HO trigger)|].
  split; [intros; by apply within_append|].
  intros n. unfold drain_backlog. apply moves_bind; [apply _|by apply moves_suspend|]. intros _ w r w'.
  unfold mbind, st_bind, Prelude.get, put. destruct n as [n|]; [destruct (n <=? 0)|]; intros [= _ <-]; [done| |].
  - intros m _ Hm. cbn [w_backlog set_backlog]. rewrite length_drop. lia.
  - intros m _ Hm. cbn. lia.
Qed.

(** ** Tasks on the queue *)
Section queueing.
Context {QL : QueueLaws Q}.

(** The same envelope up to when it is available. *)
Definition same_envelope (e e' : TaskEnvelope) : Prop := env_set_available 0 e = env_set_available 0 e'.
#[local] Instance same_envelope_equiv : Equivalence same_envelope.
Proof. split; [by intros e|by intros e e' ?|]. intros e1 e2 e3. unfold same_envelope. congruence. Qed.
Lemma same_envelope_expire now it : same_envelope (it_env (expire_item now it)) (it_env it).
Proof. unfold expire_item. destruct (it_lease it) as [[l d]|]; [|done]. by destruct (d <=? now). Qed.
Lemma same_envelope_task e e' : same_envelope e e' -> env_task_id e = env_task_id e'.
Proof. by intros [=]. Qed.

(** A queue that has the envelopes of another, and some more. *)
Record enqueued_in (q q' : Q) (envs : list TaskEnvelope) : Prop := {
  ei_open : q_ok q' /\ q_closed q' = false;
  ei_ids : forall id, is_Some (q_view q' !! id) <-> is_Some (q_view q !! id) \/ id ∈ map envelope_id envs;
  ei_new : forall e, e ∈ envs -> q_view q !! envelope_id e = None /\
    exists it, q_view q' !! envelope_id e = Some it /\ same_envelope (it_env it) e;
  ei_old : forall id it, q_view q !! id = Some it -> exists it', q_view q' !! id = Some it' /\ same_envelope (it_env it') (it_env it);
  ei_distinct : NoDup (map envelope_id envs);
}.
Lemma enqueued_in_nil q : q_ok q -> q_closed q = false -> enqueued_in q q [].
Proof. split; [done|set_solver|set_solver| |constructor]. intros id it E. by exists it. Qed.
Lemma enqueued_in_trans q1 q2 q3 l1 l2 : enqueued_in q1 q2 l1 -> enqueued_in q2 q3 l2 -> enqueued_in q1 q3 (l1 ++ l2).
Proof.
  intros [O1 I1 N1 P1 D1] [O2 I2 N2 P2 D2]. split; [done| | | |].
  - intros id. rewrite I2, I1, map_app, elem_of_app. tauto.
  - intros e [He|He]%elem_of_app.
    + destruct (N1 e He) as (E & it & E' & S). split; [done|]. destruct (P2 _ _ E') as (it' & E2 & S2). exists it'. split; [done|]. by etrans.
    + destruct (N2 e He) as (E & it & E' & S). split; [|by exists it]. destruct (q_view q1 !! envelope_id e) eqn:Eq; [|done].
      destruct (proj2 (I1 (envelope_id e))) as [x Hx]; [left; by rewrite Eq|congruence].
  - intros id it E. destruct (P1 _ _ E) as (it1 & E1 & S1). destruct (P2 _ _ E1) as (it2 & E2 & S2). exists it2. split; [done|]. by etrans.
  - rewrite map_app. apply NoDup_app. split_and!; [done| |done]. intros id H1' H2'.
    apply list_elem_of_fmap in H2' as (e & -> & He). destruct (N2 e He) as (E & _). destruct (proj2 (I1 (envelope_id e))) as [x Hx]; [by right|congruence].
Qed.
(** What the laws say of one [enqueue], in these terms. *)
Lemma observe_lookup now q id : observe now q !! id = expire_item now <$> (q_view q !! id).
Proof. unfold observe. by rewrite lookup_fmap. Qed.
Lemma enqueue_view now e q : q_ok q -> q_closed q = false -> 0 <= attempt e ->
  match q_enqueue now e q with
  | (Ok _, q') => enqueued_in q q' [e]
  | (Raise _, q') => enqueued_in q q' [] /\ is_Some (q_view q !! envelope_id e)
  end.
Proof.
  intros Ho Hc Ha. pose proof (law_enqueue q now e Ho Hc Ha) as Hl. destruct (q_enqueue now e q) as [r q']. destruct Hl as (Ho' & Hc' & Hl).
  assert (forall id it, observe now q' !! id = observe now q !! id -> q_view q !! id = Some it ->
    exists it', q_view q' !! id = Some it' /\ same_envelope (it_env it') (it_env it)) as Hold.
  { intros id it E Hit. rewrite !observe_lookup, Hit in E. cbn in E. destruct (q_view q' !! id) as [it'|] eqn:E'; [|done]. exists it'. split; [done|].
    injection E as E. rewrite <- (same_envelope_expire now it'), E. apply same_envelope_expire. }
  assert (forall id, observe now q' !! id = observe now q !! id -> is_Some (q_view q' !! id) <-> is_Some (q_view q !! id)) as Hids.
  { intros id E. rewrite !observe_lookup in E. rewrite <- (fmap_is_Some (expire_item now) (q_view q' !! id)), E. apply fmap_is_Some. }
  rewrite observe_lookup in Hl. destruct (q_view q !! envelope_id e) as [it|] eqn:Eq; cbn [fmap option_fmap option_map] in Hl.
  - destruct Hl as [-> Hobs]. split; [|by eexists]. split; [done| |set_solver| |constructor].
    + intros id. rewrite Hids by (by rewrite Hobs). cbn. set_solver.
    + intros id it' E. apply Hold; [by rewrite Hobs|done].
  - destruct Hl as [-> Hobs].
    assert (forall id, id <> envelope_id e -> observe now q' !! id = observe now q !! id) as Hne.
    { intros id Hn. rewrite Hobs. unfold spec_enqueue. by rewrite lookup_insert_ne. }
    assert (exists it', q_view q' !! envelope_id e = Some it' /\ same_envelope (it_env it') e) as (it' & E' & S').
    { assert (observe now q' !! envelope_id e = Some (mkItem e (attempt e) None)) as E by (rewrite Hobs; unfold spec_enqueue; by rewrite lookup_insert_eq).
      rewrite observe_lookup in E. destruct (q_view q' !! envelope_id e) as [it'|]; [|done]. exists it'. split; [done|]. injection E as E.
      rewrite <- (same_envelope_expire now it'), E. done. }
    split; [done| | | |apply NoDup_singleton].
    + intros id. cbn [map]. destruct (decide (id = envelope_id e)) as [->|Hn]; [rewrite E'; split; [intros _; right; left|by eexists]|].
      rewrite Hids by auto. set_solver.
    + intros e' ->%list_elem_of_singleton. eauto.
    + intros id it2 E2. apply Hold; [|done]. apply Hne. intros ->. congruence.
Qed.

(** The envelope of a task: what the worker reads of it. *)
Record envelope_for (now : Z) (t : Task) (e : TaskEnvelope) : Prop := {
  ef_task : env_task_id e = task_id t;
  ef_run : env_run_id e = run_id t;
  ef_attempt : attempt e = attempts t;
  ef_created : env_created_at_ms e = now;
  ef_available : env_available_at_ms e = now;
  ef_priority : priority e = task_priority t;
  ef_payload : exists c, tool_call t = Some c /\ payload e = Some [("tool_call_id", JStr (tool_call_id c)); ("tool_name", JStr (tool_name c));
    ("permission_scope", JStr (permission_scope c)); ("idempotency_key", JStr (idempotency_key c))];
}.
Lemma uuid_required f s v : is_uuid4_str s = true -> validate_required_id f (IdStr s) = Ok v -> v = s.
Proof. intros Hs E. rewrite (proj1 (is_uuid4_str_validate f s)) in E by done. by injection E. Qed.
Lemma envelope_of_Ok id now ev run reason source tr t c wall e : is_uuid4_str (task_id t) = true -> is_uuid4_str (run_id t) = true ->
  tool_call t = Some c -> envelope_of id now ev run reason source tr t c wall = Ok e -> envelope_for now t e.
Proof.
  intros Ht Hr Hc. unfold envelope_of, TaskEnvelope_validate, populate_default_timestamps. cbn [default in_created_at_ms in_available_at_ms].
  intros E. vld_inv. cbn [in_envelope_id in_task_id in_run_id in_attempt in_priority in_correlation_ids in_trace in_payload] in *.
  repeat match goal with
  | H : validate_required_id _ (IdStr (task_id t)) = Ok _ |- _ => apply uuid_required in H as ->; [|done]
  | H : validate_required_id _ (IdStr (run_id t)) = Ok _ |- _ => apply uuid_required in H as ->; [|done]
  | H : non_negative_int _ _ = Ok _ |- _ => apply non_negative_int_Ok in H as [-> ?]
  end.
  split; cbn [env_task_id env_run_id attempt env_created_at_ms env_available_at_ms priority payload]; try done.
  - match goal with H : validate_priority (task_priority t) = Ok ?p |- _ => revert H end. unfold validate_priority.
    destruct (task_priority t) as [p|]; [destruct (p <? 0)|]; congruence.
  - exists c. split; [done|]. match goal with H : validate_optional_json_dict "payload" _ = Ok ?p |- _ => revert H end.
    unfold validate_optional_json_dict. destruct (jsonable _); congruence.
Qed.

(** *** What a run puts on the queue

    A step of a run, with the envelope that the run put on the queue, if any. Own
    steps leave the queue as it is; whatever else is done to the queue is done by
    the other coroutines and the given parts. *)
Inductive step : option TaskEnvelope -> world -> world -> Prop :=
| step_own w w' : w_queue w' = w_queue w -> step None w w'
| step_others w : step None w (others w)
| step_router e i w r w' : reflex_router self e i w = (r, w') -> step None w w'
| step_planner i w r w' : planner self i w = (r, w') -> step None w w'
| step_sink p w r w' : run_sink self p w = (r, w') -> step None w w'
| step_suppressor observe e w r w' : event_suppressor self = Some observe -> observe e w = (r, w') -> step None w w'
| step_refused now e x w q : 0 <= attempt e -> q_enqueue now e (w_queue w) = (Raise x, q) -> step None w (set_queue q w)
| step_enqueued now e u w q : 0 <= attempt e -> q_enqueue now e (w_queue w) = (Ok u, q) -> step (Some e) w (set_queue q w).

(** From [w] to [w'] the run put these envelopes on the queue, in this order. *)
Inductive queued (w : world) : list TaskEnvelope -> world -> Prop :=
| queued_start : queued w [] w
| queued_step envs w1 o w2 : queued w envs w1 -> step o w1 w2 -> queued w (envs ++ option_list o) w2.
Lemma queued_app w1 l1 w2 l2 w3 : queued w1 l1 w2 -> queued w2 l2 w3 -> queued w1 (l1 ++ l2) w3.
Proof. intros H1'. induction 1 as [|envs w4 o w5 _ IH Hs]; [by rewrite app_nil_r|]. rewrite app_assoc. by econstructor. Qed.
Lemma queued_one o w w' : step o w w' -> queued w (option_list o) w'.
Proof. intros Hs. exact (queued_step w [] w o w' (queued_start w) Hs). Qed.

(** Nothing is put on the queue. *)
Definition quiet (w w' : world) : Prop := queued w [] w'.
#[local] Instance quiet_preorder : PreOrder quiet.
Proof. split; [by intros w; constructor|]. intros w1 w2 w3 H1' H2'. exact (queued_app _ _ _ _ _ H1' H2'). Qed.
Lemma quiet_step w w' : step None w w' -> quiet w w'.
Proof. exact (queued_one None w w'). Qed.
Lemma quiet_own w w' : w_queue w' = w_queue w -> quiet w w'.
Proof. intros E. by apply quiet_step, step_own. Qed.
Lemma quiet_respects : respects quiet.
Proof.
  split; intros; [by apply quiet_own|by apply quiet_own|apply quiet_step, step_others|..]; intros w r w' E; apply quiet_step.
  - by eapply step_router.
  - by eapply step_planner.
  - by eapply step_sink.
  - by eapply step_suppressor.
Qed.
Lemma quiet_on_store {A} (m : st store A) : moves quiet (on_store m).
Proof. intros w r w'. unfold on_store. destruct (m (w_store w)) as [r0 s]. intros [= _ <-]. by apply quiet_own. Qed.

(** The queue is open, and what is on it stays there. *)
Definition queue_open (w : world) : Prop := q_ok (w_queue w) /\ q_closed (w_queue w) = false.
Definition queue_kept (w w' : world) : Prop := queue_open w -> queue_open w' /\
  forall id it, q_view (w_queue w) !! id = Some it -> exists it', q_view (w_queue w') !! id = Some it' /\ same_envelope (it_env it') (it_env it).
#[export] Instance queue_kept_preorder : PreOrder queue_kept.
Proof.
  split; [intros w Ho; split; [done|]; intros id it E; by exists it|]. intros w1 w2 w3 H1' H2' Ho.
  destruct (H1' Ho) as [O2 K2]. destruct (H2' O2) as [O3 K3]. split; [done|]. intros id it E. destruct (K2 _ _ E) as (it2 & E2 & S2).
  destruct (K3 _ _ E2) as (it3 & E3 & S3). exists it3. split; [done|]. by etrans.
Qed.
(** A task of which the queue has an envelope. *)
Definition waiting (w : world) (id : string) : Prop := exists k it, q_view (w_queue w) !! k = Some it /\ env_task_id (it_env it) = id.
Lemma waiting_kept w w' id : queue_kept w w' -> queue_open w -> waiting w id -> waiting w' id.
Proof.
  intros Hk Ho (k & it & E & <-). destruct (Hk Ho) as [_ K]. destruct (K _ _ E) as (it' & E' & S). exists k, it'. split; [done|]. by apply same_envelope_task.
Qed.
Lemma enqueue_kept now e w r q : 0 <= attempt e -> queue_open w -> q_enqueue now e (w_queue w) = (r, q) ->
  queue_kept w (set_queue q w) /\ (is_ok r = true -> waiting (set_queue q w) (env_task_id e)).
Proof.
  intros Ha [Ho Hc] E. pose proof (enqueue_view now e (w_queue w) Ho Hc Ha) as Hv. rewrite E in Hv. destruct r as [u|x].
  - split; [intros _; split; [apply Hv|apply Hv]|]. intros _. destruct (ei_new _ _ _ Hv e) as (_ & it & Ei & S); [left|].
    exists (envelope_id e), it. split; [done|]. by apply same_envelope_task.
  - split; [|done]. intros _. split; apply (proj1 Hv).
Qed.
(** When nobody takes it off again, what a run put on the queue is there at its end. *)
Lemma queued_waiting w envs w' : respects queue_kept -> queue_open w -> queued w envs w' ->
  queue_kept w w' /\ Forall (fun e => waiting w' (env_task_id e)) envs.
Proof.
  intros HR Ho. induction 1 as [|envs w1 o w2 _ [K1 F1] Hs]; [by split|].
  assert (queue_kept w1 w2 /\ Forall (fun e => waiting w2 (env_task_id e)) (option_list o)) as [K2 F2].
  { destruct (K1 Ho) as [Ho1 _]. destruct Hs as [w1 w2 E|w1|e i w1 r w2 E|i w1 r w2 E|p w1 r w2 E|observe e w1 r w2 Hob E|now e x w1 q Ha E|now e u w1 q Ha E].
    - split; [|constructor]. unfold queue_kept, queue_open. rewrite E. intros O. split; [done|]. intros id it Hit. by exists it.
    - split; [by apply (re_others _ HR)|constructor].
    - split; [by apply (re_router _ HR _ _ _ _ _ E)|constructor].
    - split; [by apply (re_planner _ HR _ _ _ _ E)|constructor].
    - split; [by apply (re_sink _ HR _ _ _ _ E)|constructor].
    - split; [by apply (re_suppressor _ HR _ _ Hob _ _ _ E)|constructor].
    - split; [|constructor]. by apply (enqueue_kept _ _ _ _ _ Ha Ho1 E).
    - destruct (enqueue_kept _ _ _ _ _ Ha Ho1 E) as [K W]. split; [done|]. apply Forall_singleton. by apply W. }
  split; [by etrans|]. apply Forall_app. split; [|done]. eapply Forall_impl; [exact F1|]. intros e. cbn. apply waiting_kept; [done|by apply K1].
Qed.

(** The tasks of [ts] were put on the queue in their order, one envelope each, and
    nothing else was. *)
Definition queued_tasks (w : world) (ts : list Task) (w' : world) : Prop :=
  exists now envs, Forall2 (envelope_for now) ts envs /\ queued w envs w'.
Lemma queued_nothing w w' : quiet w w' -> queued_tasks w [] w'.
Proof. intros H'. exists 0, []. by split; [constructor|]. Qed.
Lemma queued_tasks_after w1 w2 ts w3 : quiet w1 w2 -> queued_tasks w2 ts w3 -> queued_tasks w1 ts w3.
Proof. intros H' (now & envs & F & T). exists now, envs. split; [done|]. exact (queued_app _ [] _ _ _ H' T). Qed.
Lemma queued_tasks_before w1 ts w2 w3 : queued_tasks w1 ts w2 -> quiet w2 w3 -> queued_tasks w1 ts w3.
Proof. intros (now & envs & F & T) H'. exists now, envs. split; [done|]. rewrite <- (app_nil_r envs). exact (queued_app _ _ _ _ _ T H'). Qed.
Lemma queued_tasks_waiting w ts w' : respects queue_kept -> queue_open w -> queued_tasks w ts w' -> Forall (fun t => waiting w' (task_id t)) ts.
Proof.
  intros HR Ho (now & envs & F & T). destruct (queued_waiting _ _ _ HR Ho T) as [_ W]. clear T. induction F as [|t e ts envs He F IH]; [done|].
  apply Forall_cons_1 in W as [We W]. apply Forall_cons_2; [by rewrite <- (ef_task _ _ _ He)|by apply IH].
Qed.

(** The identifiers an error of queueing carries. *)
Definition error_ids (e : exn) : list string := match e with TaskEnqueueError ids _ _ => ids | _ => [] end.
(** Of [ts] the first ones were put on the queue when the error ended the run, and
    the error names them; or it came before anything was put on the queue, or it
    names no task (an envelope was not valid), or drawing an identifier or the
    time raised it. *)
Definition queued_until (w : world) (ts : list Task) (x : exn) (w' : world) : Prop :=
  exists k, queued_tasks w (take k ts) w' /\
    (error_ids x = map task_id (take k ts) \/ take k ts = [] \/ error_ids x = [] \/
     exists w1 w2, (new_uuid w1).1 = Raise x \/ (wall_time_ms w2).1 = Raise x).
Lemma queued_until_none w ts x w' : quiet w w' -> queued_until w ts x w'.
Proof. intros H'. exists 0%nat. split; [by apply queued_nothing|]. right. by left. Qed.
Lemma queued_until_after w1 w2 ts x w3 : quiet w1 w2 -> queued_until w2 ts x w3 -> queued_until w1 ts x w3.
Proof. intros H' (k & T & E). exists k. split; [by eapply queued_tasks_after|done]. Qed.
Lemma queued_until_before w1 ts x w2 w3 : queued_until w1 ts x w2 -> quiet w2 w3 -> queued_until w1 ts x w3.
Proof. intros (k & T & E) H'. exists k. split; [by eapply queued_tasks_before|done]. Qed.

(** A task to be put on the queue: its identifiers are canonical, and nothing was
    attempted yet. *)
Definition fresh_task (t : Task) : Prop := is_uuid4_str (task_id t) = true /\ is_uuid4_str (run_id t) = true /\ attempts t = 0.

(** Validators raise no error of queueing. *)
Definition names_none {A} (r : res A) : Prop := forall x, r = Raise x -> error_ids x = [].
Definition aborts_none {A} (v : vld A) : Prop := forall x, v = VAbort x -> error_ids x = [].
Lemma aborts_vap {A B} (f : vld (A -> B)) v : aborts_none f -> aborts_none v -> aborts_none (f <*> v)%py.
Proof. intros Hf Hv x. destruct f, v; cbn; try done; intros [= <-]; first [by apply Hf|by apply Hv]. Qed.
Lemma aborts_field {A} loc (r : res A) : names_none r -> aborts_none (field loc r).
Proof. intros Hr x. destruct r as [a|y]; [done|]. specialize (Hr y eq_refl). destruct y; cbn; try done; by intros [= <-]. Qed.
Lemma aborts_after {A} (check : A -> res unit) v : (forall a, names_none (check a)) -> aborts_none v -> aborts_none (after check v).
Proof. intros Hc Hv. destruct v; [|done|exact Hv]. apply aborts_vap; [done|]. by apply aborts_field. Qed.
Lemma names_run {A} (v : vld A) : aborts_none v -> names_none (Models.run v).
Proof. intros Hv x. destruct v; cbn; [done|by intros [= <-]|intros [= <-]; by apply Hv]. Qed.
Lemma envelope_of_error id now ev run reason source tr t c wall : names_none (envelope_of id now ev run reason source tr t c wall).
Proof.
  assert (forall f i, names_none (parse_id f i)) as Hp.
  { intros f i x. unfold parse_id. unfold require_version4. repeat case_match; by intros [= <-]. }
  unfold envelope_of, TaskEnvelope_validate. destruct (populate_default_timestamps _ _ _) as [created available]. apply names_run, aborts_after.
  { intros e x. unfold validate_timestamp_order, raise_if. destruct (_ <? _); [by intros [= <-]|done]. }
  repeat apply aborts_vap; try (apply aborts_field; first [done|apply Hp|intros x]); [done|..].
  - unfold non_negative_int. case_match; by intros [= <-].
  - unfold non_negative_int. case_match; by intros [= <-].
  - unfold non_negative_int. case_match; by intros [= <-].
  - unfold validate_priority. repeat case_match; by intros [= <-].
  - unfold validate_optional_json_dict. repeat case_match; by intros [= <-].
Qed.
Lemma queued_ready now ev run reason source tr ready enq w r w' : Forall fresh_task ready ->
  enqueue_ready now ev run reason source tr ready enq w = (r, w') ->
  exists k envs, Forall2 (envelope_for now) (take k ready) envs /\ queued w envs w' /\
    match r with
    | Ok _ => (length ready <= k)%nat
    | Raise x => error_ids x = (enq ++ map task_id (take k ready))%list \/ error_ids x = [] \/
        exists w1 w2, (new_uuid w1).1 = Raise x \/ (wall_time_ms w2).1 = Raise x
    end.
Proof.
  revert enq w. induction ready as [|t ready IH]; intros enq w Hv; cbn [enqueue_ready].
  - intros [= <- <-]. exists 0%nat, []. split_and!; [constructor|constructor|done].
  - apply Forall_cons_1 in Hv as [(Hid & Hrun & Ha) Hv].
    assert (forall x w', quiet w w' -> (error_ids x = enq \/ error_ids x = [] \/ exists w1 w2, (new_uuid w1).1 = Raise x \/ (wall_time_ms w2).1 = Raise x) ->
      exists k envs, Forall2 (envelope_for now) (take k (t :: ready)) envs /\ queued w envs w' /\
        (error_ids x = (enq ++ map task_id (take k (t :: ready)))%list \/ error_ids x = [] \/
         exists w1 w2, (new_uuid w1).1 = Raise x \/ (wall_time_ms w2).1 = Raise x)) as Hstop.
    { intros x w1 Hq Hx. exists 0%nat, []. split_and!; [constructor|done|]. cbn [take map]. by rewrite app_nil_r. }
    destruct (tool_call t) as [c|] eqn:Et; [|intros [= <- <-]; apply Hstop; [done|auto]].
    unfold mbind at 1, st_bind at 1. destruct (new_uuid w) as [[id|x] w1] eqn:E1; pose proof (moves_new_uuid quiet quiet_respects _ _ _ E1) as B1.
    2: { intros [= <- <-]. apply Hstop; [done|]. right. right. exists w, w. left. by rewrite E1. }
    unfold mbind at 1, st_bind at 1. destruct (wall_time_ms w1) as [[wl|x] w2] eqn:E2; pose proof (moves_wall quiet quiet_respects _ _ _ E2) as B2.
    2: { intros [= <- <-]. apply Hstop; [by etrans|]. right. right. exists w, w1. right. by rewrite E2. }
    unfold mbind at 1, st_bind at 1, lift. destruct (envelope_of id now ev run reason source tr t c wl) as [e|x] eqn:Ee.
    2: { intros [= <- <-]. apply Hstop; [by etrans|]. right. left. by apply (envelope_of_error _ _ _ _ _ _ _ _ _ _ _ Ee). }
    pose proof (envelope_of_Ok _ _ _ _ _ _ _ _ _ _ _ Hid Hrun Et Ee) as He. unfold mbind at 1, st_bind at 1, enqueue_one.
    unfold mbind at 1, st_bind at 1, suspend, modify. pose proof (re_others _ quiet_respects w2) as B3. set (w3 := others w2) in *.
    unfold mbind at 1, st_bind at 1. destruct (wall_time_ms w3) as [[n|x] w4] eqn:E4; pose proof (moves_wall quiet quiet_respects _ _ _ E4) as B4.
    2: { intros [= <- <-]. apply Hstop; [by do 3 (etrans; [eassumption|])|]. right. right. exists w, w3. right. by rewrite E4. }
    assert (quiet w w4) as B by (do 3 (etrans; [eassumption|]); done). assert (0 <= attempt e) as Hat by (rewrite (ef_attempt _ _ _ He); lia).
    unfold try_enqueue, on_queue. destruct (q_enqueue n e (w_queue w4)) as [[u|x] q] eqn:Eq.
    + intros E6. destruct (IH _ _ Hv E6) as (k & envs & F & T & Hr). exists (S k), (e :: envs). split_and!; [by constructor| |].
      * apply (queued_app _ [] _ _ _ B). exact (queued_app _ [e] _ _ _ (queued_one _ _ _ (step_enqueued _ _ _ _ _ Hat Eq)) T).
      * destruct r; [cbn; lia|]. cbn [take map]. rewrite <- app_assoc in Hr. exact Hr.
    + intros [= <- <-]. apply Hstop; [|by left]. etrans; [exact B|]. by eapply quiet_step, step_refused.
Qed.

Lemma build_tasks_ids limit l run source ev (w : world) ts w' :
  build_tasks (float_repr rt) (sha256_hex rt) (tool_registry self) (enabled_scopes self) (approval_required_scopes self) limit l run source ev w =
    (Ok ts, w') ->
  Forall fresh_task ts.
Proof.
  unfold build_tasks. intros (g & w1 & _ & (built & w2 & Hb%build_all_Ok & ([] & w3 & _ & [= Er%sequence_Ok ->])%st_bind_Ok)%st_bind_Ok)%st_bind_Ok.
  apply Forall_forall. intros t (i & Hi)%list_elem_of_lookup. destruct (Forall2_lookup_r _ _ _ _ _ Er Hi) as ([n b] & Hn & E).
  destruct (Forall2_lookup_r _ _ _ _ _ Hb Hn) as (p & _ & _ & [Hv _ _ _ Ha _] & _). cbn [fst snd] in *.
  unfold resolve_task in E. apply res_bind_Ok in E as (ids & _ & [= <-]). cbn. split_and!; [apply Hv|apply Hv|apply Ha].
Qed.

(** The task [t] is what becomes of [p] in the run: its name, and a call of its
    tool in an enabled scope. *)
Record made_of (run : string) (p : ProposedTask) (t : Task) : Prop := {
  mo_name : name t = strip (pt_name p);
  mo_run : validate_required_id "run_id" (IdStr run) = Ok (run_id t);
  mo_attempts : max_attempts t = pt_max_attempts p;
  mo_call : exists c tool, tool_call t = Some c /\ ToolRegistry.get (pt_tool_name p) (tool_registry self) = Ok tool /\
    tool_name c = strip (mf_name (manifest tool)) /\ permission_scope c ∈ enabled_scopes self;
}.
Lemma build_tasks_made limit l run source ev (w : world) ts w' :
  build_tasks (float_repr rt) (sha256_hex rt) (tool_registry self) (enabled_scopes self) (approval_required_scopes self) limit l run source ev w =
    (Ok ts, w') ->
  Forall2 (made_of run) l ts.
Proof.
  unfold build_tasks. intros (g & w1 & _ & (built & w2 & Hb%build_all_Ok & ([] & w3 & _ & [= Er%sequence_Ok ->])%st_bind_Ok)%st_bind_Ok)%st_bind_Ok.
  eapply Forall2_trans; [|exact Hb|exact Er]. intros p [n b] t (_ & [_ Hn Hr _ [_ Ha] (c & Hc & [(tool & ? & ? & Ht & _ & _ & Htn & Hs & _) He _])] & _) E.
  cbn [fst snd] in *. unfold resolve_task in E. apply res_bind_Ok in E as (ids & _ & [= <-]). split; try done. by exists c, tool.
Qed.
Lemma made_of_mark run l tasks ids : Forall2 (made_of run) l tasks -> Forall2 (made_of run) l (mark_enqueued_tasks tasks ids).
Proof.
  intros F. unfold mark_enqueued_tasks. apply Forall2_fmap_r. eapply Forall2_impl; [exact F|]. intros p t [? ? ? ?]. unfold compose. case_bool_decide; by split.
Qed.

(** ** What becomes of events and tasks *)

(** The backlog only gets longer at its end. *)
Definition backlog_extends (w w' : world) : Prop := exists later, w_backlog w' = (w_backlog w ++ later)%list.
#[export] Instance backlog_extends_preorder : PreOrder backlog_extends.
Proof.
  split; [intros w; exists []; by rewrite app_nil_r|]. intros w1 w2 w3 [l1 E1] [l2 E2]. exists (l1 ++ l2)%list. by rewrite E2, E1, app_assoc.
Qed.
Lemma extends_same w w' : w_backlog w' = w_backlog w -> backlog_extends w w'.
Proof. intros E. exists []. by rewrite E, app_nil_r. Qed.

(** What the packet will say of errors and of enqueued tasks is as it was. *)
Definition same_report (f f' : frame) : Prop :=
  f_policy_decisions f' = f_policy_decisions f /\ f_enqueued_task_ids f' = f_enqueued_task_ids f.
#[local] Instance same_report_preorder : PreOrder same_report.
Proof. split; [by split|]. intros f1 f2 f3 [A1 B1] [A2 B2]. split; congruence. Qed.
Lemma report_on_world {A} (m : st world A) : moves same_report (on_world m).
Proof. intros f r f'. unfold on_world. destruct (m (f_world f)). by intros [= _ <-]. Qed.
Lemma report_on_tracker {A} (m : st BudgetTracker.t A) : moves same_report (on_tracker m).
Proof. intros f r f'. unfold on_tracker. destruct (m (f_tracker f)). by intros [= _ <-]. Qed.
Lemma report_set_reflex_decision d : moves same_report (set_reflex_decision d).
Proof. by intros f r f' [= _ <-]. Qed.
Lemma report_set_plan d : moves same_report (set_plan d).
Proof. by intros f r f' [= _ <-]. Qed.
Lemma report_set_tasks l : moves same_report (set_tasks l).
Proof. by intros f r f' [= _ <-]. Qed.
#[local] Hint Resolve report_on_world report_on_tracker report_set_reflex_decision report_set_plan report_set_tasks : moves.
Lemma report_accept_counts l source : moves same_report (accept_counts l source).
Proof. unfold accept_counts. walk_moves. Qed.
#[local] Hint Resolve report_accept_counts : moves.
Lemma report_consult trigger selected now : moves same_report (consult_planner trigger selected now).
Proof. unfold consult_planner. walk_moves. Qed.
#[local] Hint Resolve report_consult : moves.

(** An error leaves the report as it was. *)
Definition raises_clean {A} (m : st frame A) : Prop := forall f e f', m f = (Raise e, f') -> same_report f f'.
Lemma clean_moves {A} (m : st frame A) : moves same_report m -> raises_clean m.
Proof. intros Hm f e f'. apply Hm. Qed.
Lemma clean_bind {A B} (m : st frame A) (k : A -> st frame B) : moves same_report m -> (forall a, raises_clean (k a)) -> raises_clean (m ≫= k).
Proof.
  intros Hm Hk f e f'. unfold mbind, st_bind. destruct (m f) as [[a|e0] f1] eqn:E.
  - intros E2%Hk. etrans; [by eapply Hm|done].
  - intros [= _ <-]. by eapply Hm.
Qed.
Lemma clean_accept ev run l seed sev reason source tr : raises_clean (accept_and_enqueue ev run l seed sev reason source tr).
Proof.
  unfold accept_and_enqueue. apply clean_bind; [auto with moves|intros ts]. apply clean_bind; [auto with moves|intros _].
  apply clean_bind; [auto with moves|intros _]. apply clean_bind; [auto with moves|intros ids]. by intros f e f' [=].
Qed.

(** The queue takes the ready tasks in their order, when it takes them all. *)
Lemma enqueue_ready_Ok now ev run reason source tr ready enq w ids w' :
  enqueue_ready now ev run reason source tr ready enq w = (Ok ids, w') -> ids = (enq ++ map task_id ready)%list.
Proof.
  revert enq w. induction ready as [|t ready IH]; intros enq w; cbn [enqueue_ready map].
  - intros [= <- _]. by rewrite app_nil_r.
  - destruct (tool_call t) as [c|]; [|done]. intros (id & w1 & _ & E)%st_bind_Ok. apply st_bind_Ok in E as (wl & w2 & _ & E).
    apply st_bind_Ok in E as (en & w3 & _ & (u & w4 & _ & E)%st_bind_Ok). apply IH in E. by rewrite E, <- app_assoc.
Qed.
Lemma mark_ready tasks ids : map task_id (ready_tasks (mark_enqueued_tasks tasks ids)) = map task_id (ready_tasks tasks).
Proof.
  unfold ready_tasks, mark_enqueued_tasks. induction tasks as [|t tasks IH]; [done|]. cbn [map].
  set (t' := if bool_decide _ then _ else t). assert (depends_on t' = depends_on t /\ task_id t' = task_id t) as [Hd Hi] by (subst t'; by destruct (bool_decide _)).
  rewrite !filter_cons, Hd. case_decide; [|done]. cbn. by rewrite Hi, IH.
Qed.
(** Every task that waits for nothing is on the queue. *)
Definition all_enqueued (f : frame) : Prop := f_enqueued_task_ids f = map task_id (ready_tasks (f_tasks f)).
Lemma accept_Ok ev run l seed sev reason source tr f f' : accept_and_enqueue ev run l seed sev reason source tr f = (Ok tt, f') ->
  all_enqueued f' /\ f_policy_decisions f' = f_policy_decisions f /\ Forall2 (made_of run) l (f_tasks f') /\ f_plan f' = f_plan f.
Proof.
  unfold accept_and_enqueue. intros (ts & f1 & H1 & ([] & f2 & [= <-] & E)%st_bind_Ok)%st_bind_Ok.
  apply st_bind_Ok in E as (u & f3 & H3 & (ids & f4 & H4 & [= <-])%st_bind_Ok).
  assert (Forall2 (made_of run) l ts /\ f_plan f1 = f_plan f) as [Hm Q1].
  { unfold on_world in H1. destruct (build_tasks _ _ _ _ _ _ _ _ _ _ _) as [rb w1] eqn:Eb. injection H1 as -> <-. split; [by eapply build_tasks_made|done]. }
  pose proof (report_on_world _ _ _ _ H1) as [P1 _]. pose proof (report_on_world _ _ _ _ H3) as [P3 _]. pose proof (report_on_world _ _ _ _ H4) as [P4 _].
  assert (f_tasks f3 = ts /\ f_plan f3 = f_plan f1) as [T3 Q3]
    by (unfold on_world in H3; cbn in H3; destruct (persist_tasks_and_tool_calls _ _); by injection H3 as _ <-).
  unfold on_world in H4. destruct (enqueue_tasks _ _ _ _ _ _ (f_world f3)) as [r w4] eqn:E4. injection H4 as -> <-.
  cbn [f_policy_decisions f_enqueued_task_ids f_tasks f_world f_tracker f_reflex_decision f_plan] in *.
  unfold enqueue_tasks in E4. apply st_bind_Ok in E4 as (now & w5 & _ & E4%enqueue_ready_Ok).
  split; [|split; [congruence|]]; [unfold all_enqueued; cbn [f_enqueued_task_ids f_tasks]; by rewrite mark_ready, T3, E4|].
  split; [rewrite T3; by apply made_of_mark|congruence].
Qed.

(** The envelopes are for the tasks that the run reports: the ones that wait for
    nothing, marked as enqueued or not. *)
Lemma envelope_for_mark now (b : bool) t e : envelope_for now t e -> envelope_for now (if b then task_set_status TaskStatus.QUEUED t else t) e.
Proof. intros [? ? ? ? ? ? ?]. by destruct b. Qed.
Lemma ready_mark tasks ids : ready_tasks (mark_enqueued_tasks tasks ids) = mark_enqueued_tasks (ready_tasks tasks) ids.
Proof.
  unfold ready_tasks, mark_enqueued_tasks. induction tasks as [|t tasks IH]; [done|]. cbn [map].
  set (t' := if bool_decide _ then _ else t). assert (depends_on t' = depends_on t) as Hd by (subst t'; by destruct (bool_decide _)).
  rewrite !filter_cons, Hd. case_decide; [|done]. cbn [map]. by rewrite IH.
Qed.
Lemma queued_mark w tasks ids w' : queued_tasks w tasks w' -> queued_tasks w (mark_enqueued_tasks tasks ids) w'.
Proof.
  intros (now & envs & F & T). exists now, envs. split; [|done]. clear T. unfold mark_enqueued_tasks.
  induction F; cbn [map]; [constructor|]. constructor; [by apply envelope_for_mark|done].
Qed.
Lemma mark_map tasks ids : map task_id (mark_enqueued_tasks tasks ids) = map task_id tasks.
Proof.
  unfold mark_enqueued_tasks. rewrite map_map. apply map_ext. intros t. by destruct (bool_decide _).
Qed.
Lemma queued_until_mark w tasks ids x w' : queued_until w (ready_tasks tasks) x w' -> queued_until w (ready_tasks (mark_enqueued_tasks tasks ids)) x w'.
Proof.
  intros (k & T & E). exists k. assert (take k (ready_tasks (mark_enqueued_tasks tasks ids)) = mark_enqueued_tasks (take k (ready_tasks tasks)) ids) as ->.
  { rewrite ready_mark. unfold mark_enqueued_tasks. symmetry. apply fmap_take. }
  split; [by apply queued_mark|]. rewrite mark_map. destruct E as [E|[->|E]]; [by left|right; by left|right; by right].
Qed.

(** Granted tasks are put on the queue, all that wait for nothing, or up to the
    error. *)
Lemma accept_queued ev run l seed sev reason source tr f r f' : accept_and_enqueue ev run l seed sev reason source tr f = (r, f') ->
  match r with
  | Ok _ => queued_tasks (f_world f) (ready_tasks (f_tasks f')) (f_world f')
  | Raise x => queued_until (f_world f) (ready_tasks (f_tasks f')) x (f_world f')
  end.
Proof.
  unfold accept_and_enqueue. unfold mbind at 1, st_bind at 1, on_world at 1.
  destruct (build_tasks _ _ _ _ _ _ _ _ _ _ (f_world f)) as [rb w1] eqn:Eb. pose proof (moves_build_tasks quiet quiet_respects _ _ _ _ _ _ _ _ _ Eb) as B1.
  destruct rb as [ts|x]; [|intros [= <- <-]; by apply queued_until_none]. apply build_tasks_ids in Eb as Hids.
  unfold mbind at 1, st_bind at 1, set_tasks, modify. cbn [f_world f_tracker f_reflex_decision f_plan f_tasks f_policy_decisions f_enqueued_task_ids].
  unfold mbind at 1, st_bind at 1, on_world at 1. cbn [f_world].
  assert (moves quiet (persist_tasks_and_tool_calls ts)) as Hp.
  { unfold persist_tasks_and_tool_calls. destruct (persistence self); [|apply moves_ret, _].
    apply moves_bind; [apply _|apply moves_suspend, quiet_respects|intros _; apply quiet_on_store]. }
  destruct (persist_tasks_and_tool_calls ts w1) as [rp w2] eqn:Ep. apply Hp in Ep.
  assert (quiet (f_world f) w2) as B2 by (by etrans). destruct rp as [u|x]; [|intros [= <- <-]; by apply queued_until_none].
  unfold mbind at 1, st_bind at 1, on_world at 1. cbn [f_world f_tracker f_reflex_decision f_plan f_tasks f_policy_decisions f_enqueued_task_ids].
  unfold enqueue_tasks. unfold mbind at 1, st_bind at 1.
  destruct (read now_ms w2) as [[now|x] w3] eqn:En; pose proof (moves_read quiet quiet_respects _ _ _ _ En) as B3;
    [|intros [= <- <-]; apply queued_until_none; cbn [f_world]; by etrans].
  assert (quiet (f_world f) w3) as B by (by etrans).
  destruct (enqueue_ready now ev run reason source (Some tr) (ready_tasks ts) [] w3) as [re w4] eqn:Ee. apply queued_ready in Ee as (k & envs & F & T & Hr).
  2: { apply Forall_forall. intros t [_ Ht]%list_elem_of_filter. by apply (proj1 (Forall_forall _ _) Hids). }
  destruct re as [ids|x]; intros [= <- <-]; cbn [f_world f_tasks].
  - rewrite take_ge in F by done. rewrite ready_mark. apply queued_mark. eapply queued_tasks_after; [exact B|]. by exists now, envs.
  - eapply queued_until_after; [exact B|]. exists k. split; [by exists now, envs|]. destruct Hr as [->|[E|E]]; auto.
Qed.

Lemma ready_waiting w l : Forall (fun t => waiting w (task_id t)) (ready_tasks l) -> forall t, t ∈ l -> depends_on t = [] -> waiting w (task_id t).
Proof. intros F t Ht Hd. rewrite Forall_forall in F. apply F, list_elem_of_filter. done. Qed.

(** What was put on the queue before an error stays so while it is handled. *)
Definition settles (f f' : frame) : Prop := forall w x,
  queued_until w (ready_tasks (f_tasks f)) x (f_world f) -> queued_until w (ready_tasks (f_tasks f')) x (f_world f').
#[local] Instance settles_preorder : PreOrder settles.
Proof. split; [by intros f w x|]. intros f1 f2 f3 H1' H2' w x H'. by apply H2', H1'. Qed.
Lemma settles_on_world {A} (m : st world A) : moves quiet m -> moves settles (on_world m).
Proof.
  intros Hm f r f'. unfold on_world. destruct (m (f_world f)) as [r0 w1] eqn:E. intros [= _ <-] w x H'. cbn [f_world f_tasks].
  eapply queued_until_before; [exact H'|]. by apply Hm in E.
Qed.
Lemma settles_set_enqueued ids : moves settles (set_enqueued ids).
Proof. intros f r f' [= _ <-] w x H'. by apply queued_until_mark. Qed.
Lemma settles_add_policy d : moves settles (add_policy_decision d).
Proof. by intros f r f' [= _ <-] w x. Qed.
Lemma quiet_remove n : moves quiet (remove_selected_backlog_events n).
Proof.
  unfold remove_selected_backlog_events. destruct n; [apply moves_ret, _|]. apply moves_bind; [apply _|apply moves_suspend, quiet_respects|intros _].
  apply moves_modify. intros w. by apply quiet_own.
Qed.
#[local] Hint Resolve settles_set_enqueued settles_add_policy settles_on_world quiet_remove : moves.
Lemma settles_planning_failed selected e : moves settles (planning_failed selected e).
Proof. unfold planning_failed, enqueue_failure. walk_moves. Qed.
Lemma settles_reflex_failed e : moves settles (reflex_failed e).
Proof. unfold reflex_failed, enqueue_failure. walk_moves. Qed.
Lemma moves_consult R `{!PreOrder R} (HR : respects R) trigger selected now : moves (in_world R) (consult_planner trigger selected now).
Proof.
  unfold consult_planner, accept_counts. walk_moves.
  all: first [apply moves_on_tracker, _|apply moves_set_plan, _|apply moves_on_world, (re_planner _ HR)].
Qed.

Section cycles.
Context (HR : respects backlog_extends).

Lemma extends_operations_accept ev run l seed sev reason source tr :
  moves (in_world backlog_extends) (accept_and_enqueue ev run l seed sev reason source tr).
Proof.
  unfold accept_and_enqueue, enqueue_tasks, persist_tasks_and_tool_calls.
  assert (forall A (m : st store A), moves backlog_extends (on_store m)) as Hst by (intros; by apply moves_on_store, extends_same).
  assert (forall A (m : st world A), moves backlog_extends m -> moves (in_world backlog_extends) (on_world m)) as Hw by (intros; by apply moves_on_world).
  apply moves_bind; [apply _|apply Hw, moves_build_tasks; [apply _|done]|intros ts].
  apply moves_bind; [apply _|apply moves_set_tasks, _|intros _].
  apply moves_bind; [apply _|apply Hw|intros _].
  { destruct (persistence self); [|apply moves_ret, _]. apply moves_bind; [apply _|by apply moves_suspend|]. intros _. apply Hst. }
  apply moves_bind; [apply _|apply Hw|intros ids; apply moves_set_enqueued, _].
  apply moves_bind; [apply _|by apply moves_read|intros now]. apply moves_enqueue_ready; [apply _|done|by apply extends_same].
Qed.
Lemma extends_consult trigger selected now : moves (in_world backlog_extends) (consult_planner trigger selected now).
Proof. exact (moves_consult backlog_extends HR trigger selected now). Qed.
Lemma extends_remove n w r w' : remove_selected_backlog_events n w = (r, w') ->
  r = Ok tt /\ exists later, w_backlog w' = drop n (w_backlog w ++ later).
Proof.
  unfold remove_selected_backlog_events. destruct n as [|n].
  - intros [= <- <-]. split; [done|]. exists []. by rewrite app_nil_r.
  - unfold suspend, mbind, st_bind, modify. intros [= <- <-]. split; [done|]. destruct (re_others _ HR w) as [later E]. exists later. cbn. by rewrite E.
Qed.

Definition planning_entry (e : exn) : dict :=
  match e with
  | BudgetExceeded message _ context => budget_exceeded_to_audit_dict message context
  | PlanValidationError m => failure "plan_validation_error" m
  | TaskEnqueueError _ failed _ => failure "queue_enqueue_error" "task enqueue failed" ++ [("failed_task_id", JStr failed)]
  | PlannerMemoryLoadError m => failure "planning_memory_error" m
  | PlannerRequestError m => failure "planning_backend_error" m
  | PlannerResponseError m => failure "planning_response_error" m
  | _ => failure "planning_error" "unexpected planning error"
  end%list.
Lemma planning_failed_spec selected e f : f_policy_decisions f = [] -> f_enqueued_task_ids f = [] ->
  exists f', planning_failed selected e f = (Ok tt, f') /\ f_policy_decisions f' = [planning_entry e] /\ f_enqueued_task_ids f' = error_ids e /\
    match error_ids e with
    | [] => f_world f' = f_world f
    | _ => exists later, w_backlog (f_world f') = drop (length selected) (w_backlog (f_world f) ++ later)
    end.
Proof.
  intros Hp Hi. unfold planning_failed.
  assert (forall d g, f_policy_decisions g = [] -> exists g', add_policy_decision d g = (Ok tt, g') /\ f_policy_decisions g' = [d] /\
    f_enqueued_task_ids g' = f_enqueued_task_ids g /\ f_world g' = f_world g) as Hadd.
  { intros d g Hg. eexists. split; [reflexivity|]. cbn. by rewrite Hg. }
  destruct e as [ | | | | | | | | | | | | |ids failed| | | | | | | | | |]; cbn [planning_entry error_ids].
  14: { unfold enqueue_failure, set_enqueued, mbind, st_bind, modify. cbn [f_policy_decisions].
    destruct (Hadd (failure "queue_enqueue_error" "task enqueue failed" ++ [("failed_task_id", JStr failed)])%list
      (mkFrame (f_world f) (f_tracker f) (f_reflex_decision f) (f_plan f) (mark_enqueued_tasks (f_tasks f) ids) (f_policy_decisions f) ids) Hp)
      as (g & -> & Hg & Hgi & Hgw). cbn [f_enqueued_task_ids f_world] in *. destruct ids as [|i ids]; [exists g; by split_and!|].
    unfold on_world. destruct (remove_selected_backlog_events (length selected) (f_world g)) as [r w] eqn:Er.
    apply extends_remove in Er as [-> (later & Er)]. eexists. split; [reflexivity|]. cbn. split_and!; [done|done|]. exists later. by rewrite Er, Hgw. }
  all: match goal with |- context [add_policy_decision ?d] => destruct (Hadd d f Hp) as (g & -> & Hg & Hgi & Hgw) end; exists g; split_and!; congruence.
Qed.

(** The body of a planning cycle, and what it put on the queue. *)
Lemma plan_events_queued trigger selected ev run now f r f' : f_tasks f = [] -> plan_events trigger selected ev run now f = (r, f') ->
  match r with
  | Ok _ => queued_tasks (f_world f) (ready_tasks (f_tasks f')) (f_world f')
  | Raise x => queued_until (f_world f) (ready_tasks (f_tasks f')) x (f_world f')
  end.
Proof.
  intros Ht. unfold plan_events. unfold mbind at 1, st_bind at 1. destruct (consult_planner _ _ _ f) as [[p|x] f1] eqn:Ep;
    pose proof (moves_consult quiet quiet_respects _ _ _ _ _ _ Ep) as B1; [|intros [= <- <-]; by apply queued_until_none].
  unfold mbind at 1, st_bind at 1. destruct (accept_and_enqueue _ _ _ _ _ _ _ _ f1) as [[u|x] f2] eqn:Ea; apply accept_queued in Ea.
  - unfold on_world. destruct (remove_selected_backlog_events _ (f_world f2)) as [r1 w3] eqn:Er. pose proof (quiet_remove _ _ _ _ Er) as B3.
    apply extends_remove in Er as [-> _]. intros [= <- <-]. cbn [f_world f_tasks]. eapply queued_tasks_after; [exact B1|]. by eapply queued_tasks_before.
  - intros [= <- <-]. by eapply queued_until_after.
Qed.

(** What was planned: the planner answered [p] to the events. *)
Definition planner_answers (selected : list Event) (p : Plan) : Prop :=
  exists i w1 w2, pi_events i = selected /\ planner self i w1 = (Ok p, w2).
Lemma consult_Ok trigger selected now f p f' : consult_planner trigger selected now f = (Ok p, f') ->
  planner_answers selected p /\ f_plan f' = Plan_dump p.
Proof.
  unfold consult_planner. intros (sn & f1 & _ & (i & f2 & [= Ei ->] & (p0 & f3 & Hp & E)%st_bind_Ok)%st_bind_Ok)%st_bind_Ok.
  apply st_bind_Ok in E as (u1 & f4 & _ & (u2 & f5 & _ & (u3 & f6 & [= _ <-] & (u4 & f7 & H7 & (u5 & f8 & H8 & [= -> <-])%st_bind_Ok)%st_bind_Ok)%st_bind_Ok)%st_bind_Ok).
  unfold on_world in Hp. destruct (planner self i (f_world f2)) as [r w2] eqn:E. injection Hp as -> <-. split.
  - exists i, (f_world f2), w2. split; [|done]. unfold PlanningInput_validate in Ei. autorewrite with vld in Ei. naive_solver.
  - assert (forall (b : bool) (m : st frame unit) g r g', (forall g r g', m g = (r, g') -> f_plan g' = f_plan g) ->
      (if b then mret tt else m) g = (r, g') -> f_plan g' = f_plan g) as Hif by (intros [] m g r g' Hm; [by intros [= _ <-]|apply Hm]).
    assert (f_plan f7 = Plan_dump p) as <-.
    { destruct selected; [by injection H7 as _ <-|]. unfold on_tracker in H7. destruct (BudgetTracker.accept _ _ _ _ _). by injection H7 as _ <-. }
    destruct (plan_tasks p) as [|t l]; [by injection H8 as _ <-|]. unfold accept_counts in H8. apply st_bind_Ok in H8 as (u & g & H8 & H9).
    unfold on_tracker in *. destruct (BudgetTracker.accept _ _ _ _ (f_tracker f7)). injection H8 as _ <-. destruct (BudgetTracker.accept _ _ _ _ _). by injection H9 as _ <-.
Qed.

(** C9: planning loses no event that has not led to a task on the queue. Whatever
    the planner, the store and the queue do, a planning cycle ends, with at most
    one policy decision. Without an error the run put an envelope on the queue for
    each task that waits for nothing, in their order and no others; the tasks are
    those of the plan that the planner gave for these events, each with a call of
    the tool it names in an enabled scope; and the events the planner was shown are
    off the backlog; if the queue is open and nobody
    takes anything off it in the meantime, these tasks are on it at the end. With
    an error the events are still at the head of the backlog, unless the error
    names tasks that were put on the queue before: then the events are dropped,
    though the rest of the plan was not queued. Of the tasks the first ones were
    put on the queue, the ones that the error of the queue names. Events that came
    in the meantime are behind. *)
Theorem planning_keeps_events trigger selected rest ev run now tracker w : w_backlog w = (selected ++ rest)%list ->
  exists f, planning_cycle trigger selected ev run now tracker w = (Ok f, f_world f) /\
    ((f_policy_decisions f = [] /\
      (exists p, planner_answers selected p /\ f_plan f = Plan_dump p /\ Forall2 (made_of run) (plan_tasks p) (f_tasks f)) /\
      all_enqueued f /\ queued_tasks w (ready_tasks (f_tasks f)) (f_world f) /\
      (queue_open w -> respects queue_kept -> forall t, t ∈ f_tasks f -> depends_on t = [] -> waiting (f_world f) (task_id t)) /\
      exists later, w_backlog (f_world f) = (rest ++ later)%list) \/
     exists e, f_policy_decisions f = [planning_entry e] /\ f_enqueued_task_ids f = error_ids e /\
       queued_until w (ready_tasks (f_tasks f)) e (f_world f) /\
       exists later, w_backlog (f_world f) = ((if bool_decide (error_ids e = []) then selected else []) ++ rest ++ later)%list).
Proof.
  intros Hw. unfold planning_cycle, run_body, guarded. set (f0 := new_frame tracker w).
  destruct (plan_events trigger selected ev run now f0) as [[[]|e] f1] eqn:E; pose proof (plan_events_queued _ _ _ _ _ f0 _ _ eq_refl E) as Hq;
    unfold plan_events in E.
  - exists f1. split; [done|]. left. apply st_bind_Ok in E as (p & f2 & Hp & ([] & f3 & Ha & Hd)%st_bind_Ok).
    pose proof (report_consult _ _ _ _ _ _ Hp) as [P2 _]. pose proof (extends_consult _ _ _ _ _ _ Hp) as [l2 B2].
    pose proof (extends_operations_accept _ _ _ _ _ _ _ _ _ _ _ Ha) as [l3 B3]. apply accept_Ok in Ha as (Hall & P3 & M3 & Q3).
    apply consult_Ok in Hp as [Hans Q2].
    unfold on_world in Hd. destruct (remove_selected_backlog_events (length selected) (f_world f3)) as [r w4] eqn:Er. injection Hd as -> <-.
    apply extends_remove in Er as [_ (l4 & B4)]. cbn [f_policy_decisions f_world] in *.
    split_and!; [by rewrite P3, P2| |exact Hall|exact Hq|by intros Ho Hk; eapply ready_waiting, queued_tasks_waiting|].
    { exists p. split; [done|]. split; [by rewrite <- Q2|done]. }
    exists (l2 ++ l3 ++ l4)%list. unfold f0, new_frame in B2. cbn [f_world] in B2. rewrite B4, B3, B2, Hw, <- !app_assoc. by rewrite drop_app_length.
  - assert (same_report f0 f1 /\ in_world backlog_extends f0 f1) as [[P1 I1] [l1 B1]].
    { unfold mbind, st_bind in E. destruct (consult_planner _ _ _ f0) as [[p|e0] f2] eqn:Ep.
      - pose proof (report_consult _ _ _ _ _ _ Ep) as Hr2. pose proof (extends_consult _ _ _ _ _ _ Ep) as B2.
        destruct (accept_and_enqueue _ _ _ _ _ _ _ _ f2) as [[u|e1] f3] eqn:Ea.
        + unfold on_world in E. destruct (remove_selected_backlog_events (length selected) (f_world f3)) as [r w4] eqn:Er.
          apply extends_remove in Er as [-> _]. done.
        + injection E as -> <-. split; [etrans; [exact Hr2|by eapply clean_accept]|]. etrans; [exact B2|by eapply extends_operations_accept].
      - injection E as -> <-. split; [by eapply report_consult|by eapply extends_consult]. }
    cbn in P1, I1, B1. destruct (planning_failed_spec selected e f1 P1 I1) as (f2 & Ef & P2 & I2 & Hf). rewrite Ef. exists f2. split; [done|]. right.
    exists e. split; [done|]. split; [done|]. split; [by apply (settles_planning_failed _ _ _ _ _ Ef)|]. destruct (error_ids e) as [|i ids] eqn:Ei; cbn [bool_decide].
    + exists l1. by rewrite Hf, B1, Hw, <- app_assoc.
    + destruct Hf as (l2 & B2). exists (l1 ++ l2)%list. rewrite B2, B1, Hw, <- !app_assoc. by rewrite drop_app_length.
Qed.
End cycles.

(** *** Events *)
Definition reflex_entry (e : exn) : dict :=
  match e with
  | BudgetExceeded message _ context => budget_exceeded_to_audit_dict message context
  | TemplateValidationError m | TemplateResolutionError m => failure "template_resolution_error" m
  | PlanValidationError m => failure "plan_validation_error" m
  | TaskEnqueueError _ failed _ => failure "queue_enqueue_error" "task enqueue failed" ++ [("failed_task_id", JStr failed)]
  | _ => failure "reflex_error" "unexpected reflex error"
  end%list.
Lemma reflex_failed_spec e f : f_policy_decisions f = [] -> f_enqueued_task_ids f = [] ->
  exists f', reflex_failed e f = (Ok tt, f') /\ f_policy_decisions f' = [reflex_entry e] /\ f_enqueued_task_ids f' = error_ids e /\
    f_world f' = f_world f.
Proof.
  intros Hp Hi. destruct e; eexists; (split; [reflexivity|]); cbn [f_policy_decisions f_enqueued_task_ids f_world error_ids reflex_entry]; rewrite ?Hp;
    split_and!; done.
Qed.

(** What the suppressor and the router said of an event. *)
Definition suppressor_answers (e : Event) (r : EventSuppressionRecord) : Prop :=
  exists observe w1 w2, event_suppressor self = Some observe /\ observe e w1 = (Ok (true, r), w2).
Definition router_answers (e : Event) (d : ReflexDecision) : Prop := exists i w1 w2, pi_events i = [e] /\ reflex_router self e i w1 = (Ok d, w2).
Lemma router_Ok e f d f' : consult_router e f = (Ok d, f') -> router_answers e d.
Proof.
  unfold consult_router. intros (n & f1 & _ & (i & f2 & [= Ei ->] & (d0 & f3 & Hd & (u & f4 & _ & [= -> _])%st_bind_Ok)%st_bind_Ok)%st_bind_Ok)%st_bind_Ok.
  unfold on_world in Hd. destruct (reflex_router self e i (f_world f2)) as [r w2] eqn:E. injection Hd as -> <-.
  exists i, (f_world f2), w2. split; [|done]. unfold PlanningInput_validate in Ei. autorewrite with vld in Ei. naive_solver.
Qed.
(** What happened to an event: [w] is the world before, [f] what the run has to
    report. *)
Inductive event_outcome (e : Event) (run : string) (w : world) (f : frame) : Prop :=
| event_suppressed r : suppressor_answers e r -> f_reflex_decision f = suppressed_decision r -> f_tasks f = [] -> f_enqueued_task_ids f = [] ->
    f_policy_decisions f = [] -> backlog_extends w (f_world f) -> quiet w (f_world f) -> event_outcome e run w f
| event_tasks d : router_answers e d -> rd_action d = ReflexAction.FAST_TASKS -> f_reflex_decision f = ReflexDecision_dump d ->
    Forall2 (made_of run) (proposed_tasks d) (f_tasks f) -> all_enqueued f -> f_policy_decisions f = [] -> backlog_extends w (f_world f) ->
    queued_tasks w (ready_tasks (f_tasks f)) (f_world f) -> event_outcome e run w f
| event_to_plan d : router_answers e d -> rd_action d = ReflexAction.NEEDS_PLANNING -> f_reflex_decision f = ReflexDecision_dump d -> f_tasks f = [] ->
    f_enqueued_task_ids f = [] -> f_policy_decisions f = [] ->
    (exists l, w_backlog (f_world f) = (w_backlog w ++ l ++ [e])%list) -> quiet w (f_world f) -> event_outcome e run w f
| event_dropped d : router_answers e d -> rd_action d = ReflexAction.DROP -> f_reflex_decision f = ReflexDecision_dump d -> f_tasks f = [] ->
    f_enqueued_task_ids f = [] -> f_policy_decisions f = [] -> backlog_extends w (f_world f) -> quiet w (f_world f) -> event_outcome e run w f
| event_flagged d : router_answers e d -> rd_action d = ReflexAction.FLAG -> f_reflex_decision f = ReflexDecision_dump d -> f_tasks f = [] ->
    f_enqueued_task_ids f = [] ->
    f_policy_decisions f = [[("type", JStr "flagged_event"); ("reason", JStr (rd_reason d)); ("flag", JObj (default [] (rd_flag d)))]] ->
    backlog_extends w (f_world f) -> quiet w (f_world f) -> event_outcome e run w f
| event_failed x : f_policy_decisions f = [reflex_entry x] -> f_enqueued_task_ids f = error_ids x -> backlog_extends w (f_world f) ->
    queued_until w (ready_tasks (f_tasks f)) x (f_world f) -> event_outcome e run w f.

(** Until the decision is followed, no task is there. *)
Definition no_tasks (f f' : frame) : Prop := f_tasks f' = f_tasks f.
#[local] Instance no_tasks_preorder : PreOrder no_tasks.
Proof. split; [done|]. intros f1 f2 f3. unfold no_tasks. congruence. Qed.
Lemma tasks_on_world {A} (m : st world A) : moves no_tasks (on_world m).
Proof. intros f r f'. unfold on_world. destruct (m (f_world f)). by intros [= _ <-]. Qed.
Lemma tasks_on_tracker {A} (m : st BudgetTracker.t A) : moves no_tasks (on_tracker m).
Proof. intros f r f'. unfold on_tracker. destruct (m (f_tracker f)). by intros [= _ <-]. Qed.
Lemma tasks_set_reflex_decision d : moves no_tasks (set_reflex_decision d).
Proof. by intros f r f' [= _ <-]. Qed.

(** The decision is not changed while it is followed. *)
Definition same_decision (f f' : frame) : Prop := f_reflex_decision f' = f_reflex_decision f.
#[export] Instance same_decision_preorder : PreOrder same_decision.
Proof. split; [done|]. intros f1 f2 f3. unfold same_decision. congruence. Qed.
Lemma decision_on_world {A} (m : st world A) : moves same_decision (on_world m).
Proof. intros f r f'. unfold on_world. destruct (m (f_world f)). by intros [= _ <-]. Qed.
Lemma decision_on_tracker {A} (m : st BudgetTracker.t A) : moves same_decision (on_tracker m).
Proof. intros f r f'. unfold on_tracker. destruct (m (f_tracker f)). by intros [= _ <-]. Qed.
#[local] Hint Resolve decision_on_world decision_on_tracker : moves.
Lemma decision_counts l source : moves same_decision (accept_counts l source).
Proof. unfold accept_counts. walk_moves. Qed.
Lemma decision_accept ev run l seed sev reason source tr : moves same_decision (accept_and_enqueue ev run l seed sev reason source tr).
Proof. unfold accept_and_enqueue. walk_moves; by intros f r f' [= _ <-]. Qed.

Section events.
Context (HR : respects backlog_extends).

(** Backlog, queue, report and tasks, at once. *)
Definition silent (w w' : world) : Prop := backlog_extends w w' /\ quiet w w'.
#[local] Instance silent_preorder : PreOrder silent.
Proof. split; [by intros w|]. intros w1 w2 w3 [A1 B1] [A2 B2]. split; by etrans. Qed.
Lemma silent_respects : respects silent.
Proof.
  split; intros; repeat first [split|intros ?]; try (first [apply HR|apply quiet_respects]).
  all: match goal with H : _ = (_, _) |- _ => first [by apply (re_router _ HR) in H|by apply (re_router _ quiet_respects) in H
    |by apply (re_planner _ HR) in H|by apply (re_planner _ quiet_respects) in H|by apply (re_sink _ HR) in H|by apply (re_sink _ quiet_respects) in H
    |by eapply (re_suppressor _ HR) in H|by eapply (re_suppressor _ quiet_respects) in H] end.
Qed.
Definition routing (f f' : frame) : Prop := in_world silent f f' /\ same_report f f' /\ no_tasks f f'.
#[local] Instance routing_preorder : PreOrder routing.
Proof.
  split; [intros f; repeat split; unfold in_world; reflexivity|].
  intros f1 f2 f3 (A1 & B1 & C1) (A2 & B2 & C2). split_and!; [by etrans|by etrans|by etrans].
Qed.
Lemma routing_on_world {A} (m : st world A) : moves silent m -> moves routing (on_world m).
Proof. intros Hm f r f' E. split_and!; [by eapply moves_on_world|by eapply report_on_world|by eapply tasks_on_world]. Qed.
Lemma routing_on_tracker {A} (m : st BudgetTracker.t A) : moves routing (on_tracker m).
Proof. intros f r f' E. split_and!; [by eapply (moves_on_tracker silent)|by eapply report_on_tracker|by eapply tasks_on_tracker]. Qed.
Lemma routing_set_reflex_decision d : moves routing (set_reflex_decision d).
Proof. intros f r f' E. split_and!; [by eapply (moves_set_reflex_decision silent)|by eapply report_set_reflex_decision|by eapply tasks_set_reflex_decision]. Qed.
#[local] Hint Resolve routing_on_tracker routing_set_reflex_decision : moves.
Lemma routing_suppressed e : moves routing (is_suppressed e).
Proof. unfold is_suppressed. walk_moves. apply routing_on_world. by eapply (re_suppressor _ silent_respects). Qed.
Lemma routing_accept_counts l source : moves routing (accept_counts l source).
Proof. unfold accept_counts. walk_moves. Qed.

Lemma routing_consult e : moves routing (consult_router e).
Proof. unfold consult_router. walk_moves; apply routing_on_world; [apply (moves_read silent silent_respects)|apply (re_router _ silent_respects)]. Qed.

Lemma extends_append e w r w' : enqueue_backlog_event e w = (r, w') ->
  match r with Ok _ => exists l, w_backlog w' = (w_backlog w ++ l ++ [e])%list | Raise _ => backlog_extends w w' end.
Proof.
  unfold enqueue_backlog_event, suspend, mbind, st_bind, modify, Prelude.get, put. destruct (re_others _ HR w) as [l E].
  destruct (max_backlog_events (limits self)) as [n|]; [destruct (n <? _)|]; intros [= <- <-]; [by exists l| |]; exists l; cbn; by rewrite E, <- app_assoc.
Qed.

Lemma quiet_append e : moves quiet (enqueue_backlog_event e).
Proof.
  unfold enqueue_backlog_event. apply moves_bind; [apply _|apply moves_suspend, quiet_respects|]. intros _ w r w'. unfold mbind, st_bind, Prelude.get, put.
  destruct (max_backlog_events (limits self)) as [n|]; [destruct (n <? _)|]; intros [= _ <-]; by apply quiet_own.
Qed.

(** What follows the decision, from a frame without tasks and errors. *)
Lemma follow_spec e run d f r f' : router_answers e d -> f_tasks f = [] -> f_enqueued_task_ids f = [] -> f_policy_decisions f = [] ->
  f_reflex_decision f = ReflexDecision_dump d -> follow_decision e run d f = (r, f') ->
  match r with
  | Ok _ => event_outcome e run (f_world f) f'
  | Raise x => same_report f f' /\ in_world backlog_extends f f' /\ queued_until (f_world f) (ready_tasks (f_tasks f')) x (f_world f')
  end.
Proof.
  intros Hans Ht Hi Hp Hd. unfold follow_decision. destruct (rd_action d) eqn:Ea.
  - intros E. assert (in_world backlog_extends f f') as Hb.
    { revert E. apply moves_bind; [apply _| |intros _; apply (extends_operations_accept HR)]. intros g rg g' Hg. by apply (routing_accept_counts _ _ _ _ _ Hg). }
    assert (raises_clean (accept_counts (proposed_tasks d) "reflex";;
      accept_and_enqueue (event_id e) run (proposed_tasks d) SeedReflex (Some (event_id e)) (rd_reason d) "reflex" OnEvent)) as Hclean.
    { apply clean_bind; [intros g rg g' Hg; by apply (routing_accept_counts _ _ _ _ _ Hg)|]. intros _. apply clean_accept. }
    specialize (Hclean f). revert E Hclean. unfold mbind, st_bind.
    destruct (accept_counts _ _ f) as [[[]|x] f1] eqn:H1; pose proof (routing_accept_counts _ _ _ _ _ H1) as ([_ Q1] & [P1 _] & _); intros E Hclean.
    2: { injection E as <- <-. split; [by eapply Hclean|]. split; [done|by apply queued_until_none]. }
    pose proof (accept_queued _ _ _ _ _ _ _ _ _ _ _ E) as Hq. destruct r as [[]|x].
    + assert (f_reflex_decision f' = ReflexDecision_dump d) as Hd'.
      { rewrite <- Hd. etrans; [exact (decision_accept _ _ _ _ _ _ _ _ _ _ _ E)|exact (decision_counts _ _ _ _ _ H1)]. }
      apply accept_Ok in E as (Hall & P2 & M2 & _). apply event_tasks with d; try done; [by rewrite P2, P1|by eapply queued_tasks_after].
    + split; [by eapply Hclean|]. split; [done|by eapply queued_until_after].
  - intros E. unfold mbind, st_bind, on_world in E. destruct (enqueue_backlog_event e (f_world f)) as [[u|x] w1] eqn:Eb;
      pose proof (quiet_append _ _ _ _ Eb) as Q1; apply extends_append in Eb.
    + cbn [f_world] in E. pose proof (moves_trigger quiet quiet_respects w1) as Q2. unfold trigger_planning, read, mbind, st_bind, on_env, modify in *.
      destruct (monotonic_ms _) as [n x]. cbn in E, Q2. injection E as <- <-. specialize (Q2 _ _ eq_refl).
      apply event_to_plan with d; try done. by etrans.
    + injection E as <- <-. split; [done|]. split; [exact Eb|by apply queued_until_none].
  - intros [= <- <-]. by apply event_dropped with d.
  - intros [= <- <-]. apply event_flagged with d; cbn [f_reflex_decision f_tasks f_enqueued_task_ids f_policy_decisions f_world]; try done. by rewrite Hp.
Qed.
Lemma event_outcome_later e run w w1 f : silent w w1 -> event_outcome e run w1 f -> event_outcome e run w f.
Proof.
  intros [Hb Hq] [r|d|d|d|d|x].
  - apply event_suppressed with r; try done; by etrans.
  - apply event_tasks with d; try done; [by etrans|by eapply queued_tasks_after].
  - destruct Hb as [l1 E1]. match goal with H : exists l, _ |- _ => destruct H as [l2 E2] end. apply event_to_plan with d; try done; [|by etrans].
    exists (l1 ++ l2)%list. by rewrite E2, E1, <- !app_assoc.
  - apply event_dropped with d; try done; by etrans.
  - apply event_flagged with d; try done; by etrans.
  - apply event_failed with x; try done; [by etrans|by eapply queued_until_after].
Qed.

Lemma route_event_spec e run f r f1 : f_tasks f = [] -> f_enqueued_task_ids f = [] -> f_policy_decisions f = [] -> route_event e run f = (r, f1) ->
  match r with
  | Ok _ => event_outcome e run (f_world f) f1
  | Raise x => same_report f f1 /\ in_world backlog_extends f f1 /\ queued_until (f_world f) (ready_tasks (f_tasks f1)) x (f_world f1)
  end.
Proof.
  intros Ht Hi Hp. unfold route_event. unfold mbind at 1, st_bind at 1. destruct (is_suppressed e f) as [[[]|x] f2] eqn:Es;
    pose proof (routing_suppressed _ _ _ _ Es) as ([B2 Q2] & [P2 I2] & T2); unfold no_tasks in *.
  - intros [= <- <-]. unfold is_suppressed in Es.
    destruct (event_suppressor self) as [observe|] eqn:Eo; [|done]. apply st_bind_Ok in Es as ([b rec] & g & Hb & Es). cbn [fst snd] in Es. destruct b; [|done].
    assert (suppressor_answers e rec) as Hans.
    { unfold on_world in Hb. destruct (observe e (f_world f)) as [r w2] eqn:E. injection Hb as -> _. by exists observe, (f_world f), w2. }
    unfold set_reflex_decision, mbind, st_bind, modify in Es. injection Es as <-. apply event_suppressed with rec; try done; cbn in *; congruence.
  - intros E'. unfold mbind at 1, st_bind at 1 in E'.
    destruct (consult_router e f2) as [[d|x] f3] eqn:Ep; pose proof (routing_consult _ _ _ _ Ep) as ([B3 Q3] & [P3 I3] & T3); unfold no_tasks in *.
    + assert (silent (f_world f) (f_world f3)) as S by (split; by etrans).
      unfold mbind at 1, st_bind at 1 in E'. cbn [set_reflex_decision modify] in E'.
      apply follow_spec in E'; [|by eapply router_Ok|cbn [f_tasks f_enqueued_task_ids f_policy_decisions]; congruence..|done]. cbn [f_world] in E'. destruct r as [u|x].
      * by eapply event_outcome_later.
      * destruct E' as ([P4 I4] & B4 & Q4). split; [split; cbn in *; congruence|]. split; [etrans; [apply S|exact B4]|eapply queued_until_after; [apply S|exact Q4]].
    + injection E' as <- <-. split; [split; congruence|]. split; [by etrans|apply queued_until_none; by etrans].
  - intros [= <- <-]. split; [by split|]. split; [done|by apply queued_until_none].
Qed.
Lemma reflex_cycle_ends e run tracker w : exists f, reflex_cycle e run tracker w = (Ok f, f_world f) /\ event_outcome e run w f.
Proof.
  unfold reflex_cycle, run_body, guarded. destruct (route_event e run (new_frame tracker w)) as [[[]|x] f1] eqn:E; apply route_event_spec in E; try done.
  - by exists f1.
  - destruct E as ([P1 I1] & B1 & Q1). cbn in P1, I1. destruct (reflex_failed_spec x f1 P1 I1) as (f2 & Ef & P2 & I2 & W2). rewrite Ef. exists f2. split; [done|].
    apply event_failed with x; try done; [rewrite W2; exact B1|]. by apply (settles_reflex_failed _ _ _ _ Ef).
Qed.

(** C20: an event always comes to one of six ends. Whatever suppressor, router,
    store and queue do, the run is not lost to an error: the event is suppressed;
    or it is answered with the tasks of the router's decision, each with a call of
    the tool it names in an enabled scope, and the run put an envelope on the queue
    for each one that waits for nothing, in their order; or it is the last event of the
    backlog; or it is dropped; or flagged; or the run has one policy decision,
    which names the error, and of the tasks the first ones were put on the queue,
    the ones that the error of the queue names. Nothing else is put on the queue.
    If the queue is open and nobody takes anything off it in the meantime, the
    tasks that an event was answered with are on it at the end. The events on the
    backlog stay there in order. *)
Theorem event_cycle_total e run tracker w : exists f, reflex_cycle e run tracker w = (Ok f, f_world f) /\ event_outcome e run w f /\
  (f_policy_decisions f = [] -> queue_open w -> respects queue_kept -> forall t, t ∈ f_tasks f -> depends_on t = [] -> waiting (f_world f) (task_id t)).
Proof.
  destruct (reflex_cycle_ends e run tracker w) as (f & E & Ho). exists f. split; [done|]. split; [done|]. intros Hp Hop Hk.
  destruct Ho as [r _ _ Hi|d _ _ _ _ _ _ _ T|d _ _ _ Hi|d _ _ _ Hi|d _ _ _ Hi|x Hx]; [| |..|congruence].
  2: exact (ready_waiting _ _ (queued_tasks_waiting _ _ _ Hk Hop T)).
  all: intros t Ht; rewrite Hi in Ht; by apply elem_of_nil in Ht.
Qed.
End events.

(** Only the queue and the rest of the world. *)
Definition queue_step (w w' : world) : Prop := w_backlog w' = w_backlog w /\ w_store w' = w_store w /\ w_debouncer w' = w_debouncer w.
Lemma on_env_step {A} (m : st X A) w r w' : on_env m w = (r, w') -> queue_step w w' /\ w_queue w' = w_queue w.
Proof. unfold on_env. destruct (m (w_env w)). by intros [= _ <-]. Qed.

(** Why a task was not put on the queue: the queue refused it, or the envelope is
    not valid (the clock is negative, the trace context is no JSON). *)
Definition refused (enq : list string) (t : Task) (x : exn) : Prop :=
  (exists c, tool_call t = Some c /\ x = TaskEnqueueError enq (task_id t) (Some (tool_call_id c))) \/
  (exists id now ev run reason source tr c wall, envelope_of id now ev run reason source tr t c wall = Raise x).

Section enqueue.
(** Nothing else runs, and identifiers and readings of the clock can be had. *)
Hypothesis alone : forall w, others w = w.
Hypothesis uuid_returns : forall x : X, is_ok (fresh_uuid x).1 = true.
Hypothesis wall_returns : forall x : X, is_ok (wall_ms x).1 = true.

Lemma new_uuid_step w : exists id w', new_uuid w = (Ok id, w') /\ queue_step w w' /\ w_queue w' = w_queue w.
Proof.
  destruct (new_uuid w) as [r w'] eqn:E. pose proof (on_env_step _ _ _ _ E) as Hs. unfold new_uuid, fresh_uuid, world_entropy, on_env in E.
  pose proof (uuid_returns (w_env w)) as Hx. destruct (fresh_uuid (w_env w)) as [[id|x] x']; [|done]. injection E as <- <-. eauto.
Qed.
Lemma wall_step w : exists n w', wall_time_ms w = (Ok n, w') /\ queue_step w w' /\ w_queue w' = w_queue w.
Proof.
  destruct (wall_time_ms w) as [r w'] eqn:E. pose proof (on_env_step _ _ _ _ E) as Hs. unfold wall_time_ms, wall_ms, world_entropy, on_env in E.
  pose proof (wall_returns (w_env w)) as Hx. destruct (wall_ms (w_env w)) as [[n|x] x']; [|done]. injection E as <- <-. eauto.
Qed.
#[local] Instance queue_step_preorder : PreOrder queue_step.
Proof. split; [done|]. intros w1 w2 w3 (A1 & B1 & C1) (A2 & B2 & C2). unfold queue_step. split_and!; congruence. Qed.

(** One task, on an open queue. *)
Lemma enqueue_one_spec e enq t c w : q_ok (w_queue w) -> q_closed (w_queue w) = false -> 0 <= attempt e ->
  exists r w', enqueue_one e enq t c w = (r, w') /\ queue_step w w' /\
    ((r = Ok tt /\ enqueued_in (w_queue w) (w_queue w') [e]) \/
     (r = Raise (TaskEnqueueError enq (task_id t) (Some (tool_call_id c))) /\ enqueued_in (w_queue w) (w_queue w') [])).
Proof.
  intros Ho Hc Ha. unfold enqueue_one, suspend. unfold mbind at 1, st_bind at 1, modify. rewrite alone. destruct (wall_step w) as (n & w1 & E1 & S1 & Q1).
  unfold mbind at 1, st_bind at 1. rewrite E1. unfold try_enqueue, on_queue. rewrite Q1. pose proof (enqueue_view n e (w_queue w) Ho Hc Ha) as Hv.
  destruct (q_enqueue n e (w_queue w)) as [[u|x] q]; (eexists; eexists; split; [reflexivity|]); (split; [exact S1|]); cbn [w_queue set_queue]; [left|right]; [done|].
  by destruct Hv.
Qed.

Lemma enqueue_ready_spec now ev run reason source tr ready enq w r w' :
  Forall (fun t => valid_task t /\ is_Some (tool_call t)) ready -> q_ok (w_queue w) -> q_closed (w_queue w) = false ->
  enqueue_ready now ev run reason source tr ready enq w = (r, w') ->
  queue_step w w' /\ exists k envs, Forall2 (envelope_for now) (take k ready) envs /\ enqueued_in (w_queue w) (w_queue w') envs /\
    match r with
    | Ok ids => ids = (enq ++ map task_id ready)%list /\ (length ready <= k)%nat
    | Raise x => exists t, ready !! k = Some t /\ refused (enq ++ map task_id (take k ready)) t x
    end.
Proof.
  revert enq w. induction ready as [|t ready IH]; intros enq w Hv Ho Hc; cbn [enqueue_ready].
  - intros [= <- <-]. split; [done|]. exists 0%nat, []. split_and!; [constructor|by apply enqueued_in_nil|by rewrite app_nil_r|done].
  - apply Forall_cons_1 in Hv as [[Ht [c Et]] Hv]. rewrite Et. destruct (new_uuid_step w) as (id & w1 & E1 & S1 & Q1).
    unfold mbind at 1, st_bind at 1. rewrite E1. destruct (wall_step w1) as (wl & w2 & E2 & S2 & Q2). unfold mbind at 1, st_bind at 1. rewrite E2.
    unfold mbind at 1, st_bind at 1, lift. destruct (envelope_of id now ev run reason source tr t c wl) as [e|x] eqn:Ee.
    + pose proof (envelope_of_Ok _ _ _ _ _ _ _ _ _ _ _ (vt_id _ Ht) (vt_run_id _ Ht) Et Ee) as He.
      destruct (enqueue_one_spec e enq t c w2) as (r1 & w3 & E3 & S3 & Hr); [by rewrite Q2, Q1|by rewrite Q2, Q1|rewrite (ef_attempt _ _ _ He); apply Ht|].
      unfold mbind at 1, st_bind at 1. rewrite E3. rewrite Q2, Q1 in Hr. destruct Hr as [[-> Hi]|[-> Hi]].
      * intros Hrest. destruct (IH _ _ Hv (proj1 (ei_open _ _ _ Hi)) (proj2 (ei_open _ _ _ Hi)) Hrest) as (S4 & k & envs & Hf & Hi2 & Hres).
        split; [etrans; [exact S1|]; etrans; [exact S2|]; by etrans|]. exists (S k), (e :: envs). split_and!.
        -- by constructor.
        -- exact (enqueued_in_trans _ _ _ [e] envs Hi Hi2).
        -- destruct r as [ids|x]; [destruct Hres as [-> Hk]; split; [by rewrite <- app_assoc|cbn; lia]|]. cbn. by rewrite <- app_assoc in Hres.
      * intros [= <- <-]. split; [etrans; [exact S1|]; by etrans|]. exists 0%nat, []. split_and!; [constructor|done|].
        exists t. split; [done|]. left. exists c. split; [done|]. by rewrite app_nil_r.
    + intros [= <- <-]. split; [by etrans|]. exists 0%nat, []. rewrite Q2, Q1. split_and!; [constructor|by apply enqueued_in_nil|].
      exists t. split; [done|]. right. by exists id, now, ev, run, reason, source, tr, c, wl.
Qed.

(** C21: tasks that wait for nothing are put on the queue, in their order, one
    envelope each, and the others are not. The envelope names the task, its run
    and its attempt, is available at once, and carries the priority and the call.
    At the first task that the queue refuses the engine stops, and the error
    lists exactly the tasks that were put on the queue. What was on the queue is
    still there, and neither store nor backlog change. *)
Theorem enqueue_tasks_spec ev run tasks reason source tr w r w' :
  let ready := filter (fun t : Task => depends_on t = []) tasks in
  Forall (fun t => valid_task t /\ is_Some (tool_call t)) tasks -> q_ok (w_queue w) -> q_closed (w_queue w) = false ->
  enqueue_tasks ev run tasks reason source tr w = (r, w') ->
  queue_step w w' /\ exists now k envs, Forall2 (envelope_for now) (take k ready) envs /\
    enqueued_in (w_queue w) (w_queue w') envs /\
    match r with
    | Ok ids => ids = map task_id ready /\ (length ready <= k)%nat
    | Raise x => exists t, ready !! k = Some t /\ refused (map task_id (take k ready)) t x
    end.
Proof.
  intros ready Hv Ho Hc. change (filter _ tasks) with (ready_tasks tasks) in ready. unfold enqueue_tasks, read, on_env. unfold mbind at 1, st_bind at 1. destruct (now_ms (w_env w)) as [now x]. intros E.
  apply enqueue_ready_spec in E as (S & k & envs & H1' & H2' & H3'); [| |done|done].
  2: { apply Forall_forall. intros t [_ Ht]%list_elem_of_filter. by apply (proj1 (Forall_forall _ _) Hv). }
  split; [exact S|]. by exists now, k, envs.
Qed.
End enqueue.

(** *** Every task on the queue is in the store *)
Definition task_known (w : world) (id : string) : Prop := is_Some (aget id (task_rows (s_tables (w_store w)))).
Definition queue_backed (w : world) : Prop :=
  q_ok (w_queue w) /\ q_closed (w_queue w) = false /\
  forall id it, q_view (w_queue w) !! id = Some it -> task_known w (env_task_id (it_env it)).
(** Known tasks stay known, and the queue stays open and backed. *)
Definition backed_step (w w' : world) : Prop := (forall id, task_known w id -> task_known w' id) /\ (queue_backed w -> queue_backed w').
#[export] Instance backed_step_preorder : PreOrder backed_step.
Proof. split; [by split|]. intros w1 w2 w3 [A1 B1] [A2 B2]. split; auto. Qed.
Lemma backed_known w w' : w_queue w' = w_queue w -> (forall id, task_known w id -> task_known w' id) -> backed_step w w'.
Proof. intros Eq Hk. split; [done|]. intros (Ho & Hc & Hb). unfold queue_backed. rewrite Eq. split_and!; [done|done|]. intros id it Hit. eauto. Qed.

Section backed.
Context (HR : respects backed_step).
(** The memory of past runs is a table of its own. *)
Hypothesis remember_keeps : forall upsert p s r s', remember rt = Some upsert -> upsert p s = (r, s') -> exists l, s' = set_memory l s.
Hypothesis stored : is_Some (persistence self).

Lemma backed_on_store {A} (m : st store A) :
  (forall s r s', m s = (r, s') -> forall id, is_Some (aget id (task_rows (s_tables s))) -> is_Some (aget id (task_rows (s_tables s')))) ->
  moves backed_step (on_store m).
Proof.
  intros Hm w r w'. unfold on_store. destruct (m (w_store w)) as [r0 s] eqn:E. intros [= _ <-]. apply backed_known; [done|].
  intros id. unfold task_known. cbn [w_store set_store]. by apply (Hm _ _ _ E).
Qed.

(** A task that the store knows can be put on the queue. *)
Lemma backed_try now e x w r w' : task_known w (env_task_id e) -> 0 <= attempt e -> try_enqueue now e x w = (r, w') -> backed_step w w'.
Proof.
  intros Hk Ha. unfold try_enqueue, on_queue. destruct (q_enqueue now e (w_queue w)) as [r0 q] eqn:E. intros Hw.
  assert (w' = set_queue q w) as -> by (destruct r0; by injection Hw). split; [done|]. intros (Ho & Hc & Hb).
  assert (exists envs, enqueued_in (w_queue w) q envs /\ forall e', e' ∈ envs -> e' = e) as (envs & Hi & He).
  { pose proof (enqueue_view now e (w_queue w) Ho Hc Ha) as Hv. rewrite E in Hv. destruct r0.
    - exists [e]. split; [done|]. by intros e' ->%list_elem_of_singleton.
    - exists []. split; [apply Hv|set_solver]. }
  split; [apply (ei_open _ _ _ Hi)|]. split; [apply (ei_open _ _ _ Hi)|]. cbn [w_queue set_queue]. intros id it Hit.
  change (task_known w (env_task_id (it_env it))). destruct (proj1 (ei_ids _ _ _ Hi id) ltac:(by exists it)) as [[it0 E0]|Hin].
  - destruct (ei_old _ _ _ Hi _ _ E0) as (it' & E' & S). replace it with it' by congruence. rewrite (same_envelope_task _ _ S). by eapply Hb.
  - apply list_elem_of_fmap in Hin as (e' & -> & Hin). destruct (ei_new _ _ _ Hi _ Hin) as (_ & it' & E' & S). replace it with it' by congruence.
    rewrite (same_envelope_task _ _ S). by rewrite (He _ Hin).
Qed.
Lemma backed_ready now ev run reason source tr ready enq w r w' :
  Forall fresh_task ready ->
  (forall t, t ∈ ready -> task_known w (task_id t)) ->
  enqueue_ready now ev run reason source tr ready enq w = (r, w') -> backed_step w w'.
Proof.
  revert enq w. induction ready as [|t ready IH]; intros enq w Hv Hk; cbn [enqueue_ready]; [by intros [= _ <-]|].
  apply Forall_cons_1 in Hv as [(Hid & Hrun & Ha) Hv]. destruct (tool_call t) as [c|] eqn:Et; [|by intros [= _ <-]].
  unfold mbind at 1, st_bind at 1.
  destruct (new_uuid w) as [[id|x] w1] eqn:E1; pose proof (moves_new_uuid backed_step HR _ _ _ E1) as B1; [|by intros [= _ <-]].
  unfold mbind at 1, st_bind at 1. destruct (wall_time_ms w1) as [[wl|x] w2] eqn:E2; pose proof (moves_wall backed_step HR _ _ _ E2) as B2;
    [|intros [= _ <-]; by etrans].
  unfold mbind at 1, st_bind at 1, lift. destruct (envelope_of id now ev run reason source tr t c wl) as [e|x] eqn:Ee;
    [|intros [= _ <-]; by etrans].
  pose proof (envelope_of_Ok _ _ _ _ _ _ _ _ _ _ _ Hid Hrun Et Ee) as He. unfold mbind at 1, st_bind at 1, enqueue_one.
  unfold mbind at 1, st_bind at 1, suspend, modify. pose proof (re_others _ HR w2) as B3. set (w3 := others w2) in *.
  unfold mbind at 1, st_bind at 1. destruct (wall_time_ms w3) as [[n|x] w4] eqn:E4; pose proof (moves_wall backed_step HR _ _ _ E4) as B4.
  - assert (backed_step w w4) as B by (do 3 (etrans; [eassumption|]); done).
    destruct (try_enqueue _ e _ w4) as [r5 w5] eqn:E5. apply backed_try in E5; [|rewrite (ef_task _ _ _ He); apply B, Hk; left|rewrite (ef_attempt _ _ _ He); lia].
    destruct r5 as [u|x]; [|intros [= _ <-]; by etrans]. intros E6. etrans; [exact B|]. etrans; [exact E5|].
    eapply IH; [done| |exact E6]. intros t' Ht'. apply E5, B, Hk. by right.
  - intros [= _ <-]. do 3 (etrans; [eassumption|]). done.
Qed.

Definition rows_known (s s' : store) : Prop :=
  forall id, is_Some (aget id (task_rows (s_tables s))) -> is_Some (aget id (task_rows (s_tables s'))).
#[local] Instance rows_known_preorder : PreOrder rows_known.
Proof. split; [by intros s id|intros s1 s2 s3 A B id; auto]. Qed.
(** The stages of the store know the tasks they knew, and the second one all
    tasks it is given. *)
Lemma known_event p now e rr : moves backed_step (on_store (Persistence.persist_event_and_run (float_repr rt) p now e rr)).
Proof.
  apply backed_on_store. change (moves rows_known (Persistence.persist_event_and_run (float_repr rt) p now e rr)).
  assert (forall A (f : st event_tables A), moves rows_known (on_events f)) as Hev.
  { intros A f s r s' (d & _ & ->)%on_events_inv. by intros id. }
  unfold Persistence.persist_event_and_run. apply moves_unit_of_work; [apply _|]. apply moves_bind; [apply _| |intros st0].
  - destruct (dedupe_key e); [apply Hev|]. apply moves_bind; [apply _|apply Hev|intros ?; apply moves_ret, _].
  - apply moves_bind; [apply _| |intros _; apply moves_ret, _]. destruct (st0.2); [|apply moves_ret, _].
    apply moves_bind; [apply _| |intros _; apply moves_ret, _]. intros s r s'. unfold RunRepo.create. destruct (insert_row _ _ _); intros [= _ <-]; by intros id.
Qed.
Lemma known_persist ts : moves backed_step (on_store (Persistence.persist_tasks_and_tool_calls (tool_call_eq rt) (dump_eq rt) ts)).
Proof.
  apply backed_on_store. intros s r s' E id [row Hrow]. exists row. by apply (moves_persist _ _ _ _ _ _ E).
Qed.
Lemma known_finalize p now packet ids :
  moves backed_step (on_store (Persistence.finalize_run (float_repr rt) (redact_text rt) (rt_settings rt) (lax_int rt) (fresh_default rt)
    (remember rt) p now packet ids)).
Proof.
  apply backed_on_store. change (moves rows_known (Persistence.finalize_run (float_repr rt)
    (redact_text rt) (rt_settings rt) (lax_int rt) (fresh_default rt) (remember rt) p now packet ids)).
  unfold Persistence.finalize_run. apply moves_unit_of_work; [apply _|]. apply moves_bind; [apply _| |intros _; apply moves_bind; [apply _| |intros _; apply moves_ret, _]].
  - apply moves_each; [apply _|]. intros id _. apply moves_bind; [apply _| |intros _; apply moves_ret, _]. intros s r s' (d & E & ->)%on_tables_inv k Hk. cbn [s_tables set_tables].
    unfold TaskRepo.update_status in E. destruct (required_key _ _) as [k0|]; [|by injection E as _ <-]. destruct (aget k0 _); [|by injection E as _ <-].
    injection E as _ <-. cbn [task_rows set_task_rows]. rewrite aget_aset. by case_decide.
  - intros s r s' E k Hk. unfold RunPacketRepo.create in E. destruct (negb _); [by injection E as _ <-|]. destruct (mbind _ _) as [[z q]|x]; [|by injection E as _ <-].
    unfold RunPacketRepo.remember_packet in E. destruct (remember rt) as [upsert|] eqn:Er; [|by injection E as _ <-].
    unfold mbind, st_bind, Prelude.get in E. destruct (aget _ _); [|by injection E as _ <-]. destruct (upsert q _) as [r0 s1] eqn:Eu.
    apply (remember_keeps _ _ _ _ _ eq_refl) in Eu as (l & ->). by destruct r0; injection E as _ <-.
Qed.

Lemma backed_accept ev run l seed sev reason source tr : moves (in_world backed_step) (accept_and_enqueue ev run l seed sev reason source tr).
Proof.
  intros f r f'. unfold accept_and_enqueue. unfold mbind at 1, st_bind at 1, on_world at 1.
  destruct (build_tasks _ _ _ _ _ _ _ _ _ _ (f_world f)) as [rb w1] eqn:Eb. pose proof (moves_build_tasks backed_step HR _ _ _ _ _ _ _ _ _ Eb) as B1.
  destruct rb as [ts|x]; [|intros [= _ <-]; exact B1]. apply build_tasks_ids in Eb as Hids.
  unfold mbind at 1, st_bind at 1, set_tasks, modify. cbn [f_world f_tracker f_reflex_decision f_plan f_tasks f_policy_decisions f_enqueued_task_ids].
  unfold mbind at 1, st_bind at 1, on_world at 1. cbn [f_world]. destruct stored as [p Ep]. unfold persist_tasks_and_tool_calls. rewrite Ep.
  destruct ((suspend;; _) w1) as [rp w2] eqn:Ew.
  assert (backed_step w1 w2) as B2.
  { revert Ew. apply moves_bind; [apply _|by apply moves_suspend|]. intros _. apply known_persist. }
  destruct rp as [u|x]; [|intros [= _ <-]; unfold in_world; cbn [f_world]; by etrans].
  assert (forall t, t ∈ ts -> task_known w2 (task_id t)) as Hk.
  { unfold suspend, mbind, st_bind, modify, on_store in Ew. destruct (Persistence.persist_tasks_and_tool_calls _ _ _ _) as [[[]|x] s] eqn:Es; [|done].
    injection Ew as _ <-. intros t Ht. eexists. exact (cr_row _ _ _ (persist_created _ _ _ _ _ Es t Ht)). }
  unfold mbind at 1, st_bind at 1, on_world at 1. cbn [f_world f_tracker f_reflex_decision f_plan f_tasks f_policy_decisions f_enqueued_task_ids].
  destruct (enqueue_tasks ev run ts reason source (Some tr) w2) as [re w3] eqn:Ee. assert (backed_step w2 w3) as B3.
  { unfold enqueue_tasks in Ee. unfold mbind, st_bind in Ee. destruct (read now_ms w2) as [[now|x] w4] eqn:En; pose proof (moves_read backed_step HR _ _ _ _ En) as B4;
      [|by injection Ee as _ <-]. etrans; [exact B4|]. apply backed_ready in Ee; [done| |].
    - apply Forall_forall. intros t [_ Ht]%list_elem_of_filter. by apply (proj1 (Forall_forall _ _) Hids).
    - intros t [_ Ht]%list_elem_of_filter. apply B4. by apply Hk. }
  assert (backed_step (f_world f) w3) as B by (etrans; [exact B1|by etrans]). by destruct re as [ids|x]; intros [= _ <-].
Qed.

(** C8: no task is on the queue that is not in the store. Take any state in which
    the open queue holds only tasks with a row, and anything else that runs and
    keeps it so. Then submitting an event and planning keep it so, at every point
    at which a worker could look: tasks are stored before they are put on the
    queue, and no stage of the store loses one. *)
Theorem queue_always_backed e trigger : moves backed_step (submit_event e) /\ moves backed_step (run_planning_once trigger).
Proof.
  assert (operations backed_step) as HO.
  { split.
    - intros ev w r w'. revert w r w'. change (moves backed_step (enqueue_backlog_event ev)). unfold enqueue_backlog_event.
      apply moves_bind; [apply _|by apply moves_suspend|]. intros _ w r w'. unfold mbind, st_bind, Prelude.get, put.
      destruct (max_backlog_events (limits self)) as [n|]; [destruct (n <? _)|]; intros [= _ <-]; by apply backed_known.
    - intros n. unfold remove_selected_backlog_events. destruct n; [apply moves_ret, _|]. apply moves_bind; [apply _|by apply moves_suspend|].
      intros _. apply moves_modify. intros w. by apply backed_known.
    - intros p ev rr. unfold persist_event_and_run. apply moves_bind; [apply _|by apply moves_suspend|]. intros _.
      apply moves_bind; [apply _|by apply moves_wall|]. intros now. apply known_event.
    - intros. apply backed_accept.
    - intros packet ids. unfold finalize_run. destruct (persistence self); [|apply moves_ret, _]. apply moves_bind; [apply _|by apply moves_suspend|]. intros _.
      apply moves_bind; [apply _|by apply moves_wall|]. intros now. apply known_finalize. }
  split; [exact (moves_submit backed_step HR HO e)|exact (moves_planning backed_step HR HO trigger)].
Qed.
End backed.
End queueing.

(** ** Events that are not reported *)
Section unreported.
Context (HR : respects backlog_extends).
(** The clock reads no negative time, and there is no wall-time limit. *)
Hypothesis clock_ok : forall x : X, 0 <= (now_ms x).1.
Hypothesis no_deadline : max_wall_time_s (limits self) = None.

Lemma decision_follow e run d : moves same_decision (follow_decision e run d).
Proof.
  unfold follow_decision. destruct (rd_action d).
  - apply moves_bind; [apply _|apply decision_counts|intros _; apply decision_accept].
  - apply moves_bind; [apply _|apply decision_on_world|intros _; apply decision_on_world].
  - apply moves_ret, _.
  - by intros f r f' [= _ <-].
Qed.
Lemma decision_failed x : moves same_decision (reflex_failed x).
Proof.
  destruct x; by intros f r f' [= _ <-].
Qed.

(** Without a suppressor, the decision of the run is the one of the router. *)
Lemma decision_kept e run d f f' : event_suppressor self = None -> (forall i w, reflex_router self e i w = (Ok d, w)) ->
  BudgetTracker.deadline_monotonic_ms (f_tracker f) = None -> guarded (route_event e run) reflex_failed f = (Ok tt, f') ->
  f_reflex_decision f' = ReflexDecision_dump d.
Proof.
  intros Hs Hrouter Hdl Hg. unfold guarded, route_event, is_suppressed in Hg. rewrite Hs in Hg. unfold mbind at 1, st_bind at 1 in Hg. cbn [mret st_ret] in Hg.
  unfold mbind at 1, st_bind at 1 in Hg.
  assert (exists f1, consult_router e f = (Ok d, f1)) as (f1 & Ec).
  { unfold consult_router, on_world, read, on_env, on_tracker, BudgetTracker.check_wall_time, lift, mbind, st_bind.
    pose proof (clock_ok (w_env (f_world f))) as Hn. destruct (now_ms (w_env (f_world f))) as [n x]. cbn in Hn.
    replace (PlanningInput_validate _) with (Ok (mkPlanningInput OnEvent [e] (mkLimitsSnapshot None None None None) n)).
    - rewrite Hrouter. cbn [f_tracker]. rewrite Hdl. by eexists.
    - unfold PlanningInput_validate. cbn [pi_now_ms]. rewrite (proj2 (non_negative_int_Ok "now_ms" n n)) by done. done. }
  rewrite Ec in Hg. unfold mbind at 1, st_bind at 1 in Hg. cbn [set_reflex_decision modify] in Hg.
  destruct (follow_decision _ _ _ _) as [r f2] eqn:Ef. pose proof (decision_follow _ _ _ _ _ _ Ef) as D. unfold same_decision in D. cbn in D.
  destruct r as [u|x]; [by injection Hg as <-|]. apply decision_failed in Hg. unfold same_decision in Hg. congruence.
Qed.

(** an event with a large answer is acted upon and never reported. When the
    decision of the router takes more than 32,000 bytes, the run follows it (tasks
    are stored and put on the queue as for any other) and then cannot build its
    packet: the handler raises, nothing is given to the sink, and what the run
    did stays. *)
Theorem large_decision_unreported e d n run created w : event_suppressor self = None -> (forall i w, reflex_router self e i w = (Ok d, w)) ->
  json_bytes (float_repr rt) (JObj (ReflexDecision_dump d)) = Ok n -> DEFAULT_MAX_REFLEX_DECISION_BYTES < n ->
  exists f x, event_outcome e run w f /\ f_reflex_decision f = ReflexDecision_dump d /\ reflex_run e run created w = (Raise x, f_world f).
Proof.
  intros Hs Hrouter Hn Hlarge. unfold reflex_run. unfold mbind at 1, st_bind at 1, lift.
  assert (exists tracker, BudgetTracker.new tracker_clock (limits self) 0 = Ok tracker /\ BudgetTracker.deadline_monotonic_ms tracker = None) as (tracker & -> & Hdl).
  { unfold BudgetTracker.new, BudgetTracker.compute_deadline_ms. rewrite no_deadline. by eexists. }
  destruct (reflex_cycle_ends HR e run tracker w) as (f & Ec & Ho). unfold mbind at 1, st_bind at 1. rewrite Ec.
  assert (f_reflex_decision f = ReflexDecision_dump d) as Hd.
  { unfold reflex_cycle, run_body in Ec. destruct (guarded (route_event e run) reflex_failed (new_frame tracker w)) as [[[]|x] f'] eqn:Eg; [|done].
    assert (f' = f) as -> by congruence. exact (decision_kept e run d (new_frame tracker w) f Hs Hrouter Hdl Eg). }
  unfold report_run. unfold mbind at 1, st_bind at 1. unfold mbind at 1, st_bind at 1, lift.
  destruct (RunPacket_new _ _) as [packet|x] eqn:Ep; [|by exists f, x]. exfalso.
  unfold RunPacket_new in Ep. apply build_Ok in Ep as (Hok & _ & _ & E & _). rewrite E in Hok. destruct (po_reflex _ _ Hok) as (m & Em & Hm). cbn [reflex_decision] in Em.
  rewrite Hd, Hn in Em. injection Em as ->. lia.
Qed.
End unreported.

(** ** Events that come again *)
Section duplicates.
Hypothesis alone : forall w, others w = w.
Hypothesis uuid_returns : forall x : X, is_ok (fresh_uuid x).1 = true.
Hypothesis wall_returns : forall x : X, is_ok (wall_ms x).1 = true.
Variable p : OrchestratorPersistence.
Hypothesis stored : persistence self = Some p.
Hypothesis window_ok : forall n, event_dedupe_window_ms p = Some n -> 0 < n.

Lemma resubmit_found now e key found anchor d : strip (ev_source e) <> "" -> strip key <> "" ->
  EventStore.get_by_dedupe (float_repr rt) (ev_source e) key (Some anchor) d = (Ok (Some found), d) ->
  create_or_get_by_dedupe (float_repr rt) now (ev_source e) key e (event_dedupe_window_ms p) (Some anchor) d = (Ok (found, false), d).
Proof.
  intros Hs Hk Hg. unfold create_or_get_by_dedupe. unfold mbind at 1, st_bind at 1, lift. rewrite required_text_fix by done.
  unfold mbind at 1, st_bind at 1. rewrite required_text_fix by done. unfold mbind at 1, st_bind at 1. cbn [default]. change (id anchor) with anchor.
  rewrite (proj2 (Z.leb_gt (default DEFAULT_DEDUPE_WINDOW_MS (event_dedupe_window_ms p)) 0)).
  2: { destruct (event_dedupe_window_ms p) as [n|] eqn:En; [by apply window_ok|done]. }
  cbn [raise_if]. unfold mbind at 1, st_bind at 1.
  assert (get_by_dedupe (float_repr rt) (strip (ev_source e)) (strip key) (Some anchor) d = (Ok (Some found), d)) as ->; [|done].
  rewrite <- Hg. unfold get_by_dedupe. by rewrite !required_text_fix, !strip_idemp by (by rewrite ?strip_idemp).
Qed.

(** an event that comes again does nothing. While the store holds an event
    with its source and key whose window is open, submitting it changes nothing
    but the clock and the identifiers that were drawn, and the answer names the
    first event and its run. If that run has no packet (its handler raised, or the
    process died between the stages), [handle_event] raises, and the event is not
    handled until its window is over. *)
Theorem duplicate_event e key found w : dedupe_key e = Some key -> strip (ev_source e) <> "" -> strip key <> "" ->
  let now := (now_ms (fresh_uuid (w_env w)).2).1 in
  EventStore.get_by_dedupe (float_repr rt) (ev_source e) key (Some now) (s_events (w_store w)) = (Ok (Some found), s_events (w_store w)) ->
  exists x, let w' := set_env x w in
    match (RunPacketRepo.get_run_id_for_event (event_id found) (w_store w)).1 with
    | Ok run => submit_event e w = (Ok (mkOutcome (event_id found) run true), w') /\
        match run with
        | Some run => handle_event e w = (Ok run, w')
        | None => handle_event e w = (Raise (RuntimeError "event was deduplicated before the original run packet was available"), w')
        end
    | Raise err => submit_event e w = (Raise err, w')
    end.
Proof.
  intros Hkey Hs Hk now Hg.
  assert (exists x, submit_event e w =
    (existing ← on_store (Persistence.get_run_id_for_event (event_id found)); mret (mkOutcome (event_id found) existing true)) (set_env x w)) as (x & Hx).
  { unfold submit_event. unfold mbind at 1, st_bind at 1. unfold new_uuid, fresh_uuid, world_entropy, on_env.
    pose proof (uuid_returns (w_env w)) as Hu. destruct (fresh_uuid (w_env w)) as [[id|x0] x1]; [|done]. unfold read, on_env.
    unfold mbind at 1, st_bind at 1. cbn [w_env set_env]. cbn [snd] in now. destruct (now_ms x1) as [n x2]. cbn [fst] in now. subst now.
    rewrite stored. unfold mbind at 1, st_bind at 1, persist_event_and_run. unfold mbind at 1, st_bind at 1, suspend, modify. rewrite alone.
    unfold mbind at 1, st_bind at 1, wall_time_ms, wall_ms, world_entropy, on_env. cbn [w_env set_env].
    pose proof (wall_returns x2) as Hw. destruct (wall_ms x2) as [[wl|x0] x3]; [|done]. exists x3.
    unfold on_store at 1. cbn [w_store set_env].
    assert (Persistence.persist_event_and_run (float_repr rt) p wl e (mkRunRecord id None n None None) (w_store w) = (Ok (found, false), w_store w)) as ->.
    { unfold Persistence.persist_event_and_run. apply unit_of_work_returns. rewrite Hkey. unfold mbind at 1, st_bind at 1, on_events at 1. cbn [rr_created_at_ms].
      rewrite (resubmit_found wl e key found n) by done. cbn. by destruct (w_store w). }
    cbn [fst snd]. unfold mbind at 1, st_bind at 1, get_run_id_for_event. unfold mbind at 1, st_bind at 1, suspend, modify. rewrite alone.
    by destruct w. }
  exists x. cbv zeta. assert (forall r, (r, set_store (w_store (set_env x w)) (set_env x w)) = (r, set_env x w) :> res (option string) * world) as Hsame by (by destruct w).
  unfold mbind, st_bind, on_store, Persistence.get_run_id_for_event, unit_of_work in Hx. cbn [w_store set_env] in Hx.
  assert (forall s, RunPacketRepo.get_run_id_for_event (event_id found) s = ((RunPacketRepo.get_run_id_for_event (event_id found) s).1, s)) as Hpure by done.
  rewrite Hpure in Hx. destruct (RunPacketRepo.get_run_id_for_event (event_id found) (w_store w)).1 as [run|err].
  - assert (submit_event e w = (Ok (mkOutcome (event_id found) run true), set_env x w)) as Hsub by (rewrite Hx; by destruct w). split; [done|].
    unfold handle_event. unfold mbind, st_bind. rewrite Hsub. by destruct run.
  - rewrite Hx. by destruct w.
Qed.
End duplicates.
End engine.

(** ** [interfaces.py]: the planner and the router that do nothing *)
Section stubs.
Context {Q X : Type} `{Entropy X}.

Definition or_one (o : option Z) : Z := match o with Some n => if n =? 0 then 1 else n | None => 1 end.
Definition NoOpPlanner (input : PlanningInput) : st (world Q X) Plan :=
  assertions ← lift (BudgetAssertions_validate (mkBudgetAssertions (or_one (ls_max_tool_calls (pi_limits input)))
    (match ls_max_runtime_s (pi_limits input) with Some s => if feq s fzero then of_Z 1 else s | None => of_Z 1 end)
    (or_one (ls_max_tokens (pi_limits input))) None));
  id ← fresh_uuid;
  lift (Plan_validate id IdNone (mkPlan "" "noop" [] None [] assertions None [] [])).
Definition NeedsPlanningRouter (e : Event) (ctx : PlanningInput) : st (world Q X) ReflexDecision :=
  lift (ReflexDecision_validate (mkReflexDecision ReflexAction.NEEDS_PLANNING "stub" [] None)).
Definition NoopRunPacketSink (packet : RunPacket) : st (world Q X) unit := mret tt.
End stubs.

(** ** A deployment: the stubs, an in-memory queue, identifiers and a clock that count *)
#[export] Instance counting_clock : Clock Z := {| now_ms := fun n => (Z.abs n, n); monotonic_ms := fun n => (n, n) |}.
Definition no_lax_int : json -> res Z := fun _ => Raise AssertionError.
Definition sample_runtime : runtime :=
  mkRuntime sample_float_repr id (fun s => s) default_settings no_lax_int (fun _ => "") None same_dump same_dump 100 [].
Definition sample_limits : BudgetLimits := mkBudgetLimits (Some 5) (Some 5) (Some 100) None (Some 2) (Some 2).
Definition stub_engine : OrchestratorEngine TaskQueue.t Z :=
  mkEngine NeedsPlanningRouter NoOpPlanner read_registry NoopRunPacketSink (Some sample_persistence) None sample_limits ["fs.read"] [].

#[local] Existing Instances TaskQueue.ops TaskQueue.laws.
Definition empty_store : store := mkStore (mkEventTables [] []) (mkTables [] [] [] [] []) [] [] [].
Definition idle_debouncer : DebouncedTrigger.t := DebouncedTrigger.mk false false None DebouncedTrigger.Waiting.
Definition world_with (backlog : list Event) : world TaskQueue.t Z := mkWorld backlog idle_debouncer empty_store empty_queue 5000.
Definition keyed_event : Event := mkEvent (sample_uuid "e") "page" "web" 5 [("a", JInt 1)] (Some "k").

Lemma stub_respects R `{!PreOrder R} : (forall w x, R w (set_env x w)) -> (forall w d, R w (set_debouncer d w)) -> respects stub_engine id R.
Proof.
  intros He Hd. split; [done|done|done| | | |done].
  - intros e i w r w' [= _ <-]. done.
  - intros i. cbn [planner stub_engine]. unfold NoOpPlanner. apply moves_bind; [done|by apply moves_lift|intros a].
    apply moves_bind; [done| |intros u; by apply moves_lift]. intros w r w' [= _ <-]. apply He.
  - intros p w r w' [= _ <-]. done.
Qed.

#[local] Notation stub f := (f sample_runtime stub_engine id (fun _ => 0)).
Lemma backlog_bounded_witness : Z.of_nat (length (w_backlog (stub submit_event keyed_event (world_with [sample_small; sample_small])).2)) <= 2.
Proof.
  destruct (backlog_bounded sample_runtime stub_engine id (fun _ => 0) keyed_event Tick) as [H _].
  - apply stub_respects; [apply _|..]; intros w x n Hn Hl; exact Hl.
  - destruct (stub submit_event keyed_event (world_with [sample_small; sample_small])) as [r w'] eqn:E. cbn [snd].
    apply (H _ _ _ E 2 eq_refl). reflexivity.
Defined.

Lemma stub_extends : respects stub_engine id backlog_extends.
Proof. apply stub_respects; [apply _|..]; intros w x; apply extends_same; reflexivity. Qed.

(** The planner plans the two reads of PlanValidation, the second of which waits
    for the first; the router answers an event with them. *)
Definition reads_plan : Plan :=
  mkPlan (sample_uuid "a") "two reads" sample_plan_tasks None [] (mkBudgetAssertions 2 (of_Z 30) 100 (Some 2)) None [] [].
Definition reads_decision : ReflexDecision := mkReflexDecision ReflexAction.FAST_TASKS "two reads" sample_plan_tasks None.
Definition reads_engine : OrchestratorEngine TaskQueue.t Z :=
  mkEngine (fun _ _ => mret reads_decision) (fun _ => mret reads_plan) read_registry NoopRunPacketSink (Some sample_persistence) None sample_limits
    ["fs.read"] [].
Lemma reads_respects R `{!PreOrder R} : (forall w x, R w (set_env x w)) -> (forall w d, R w (set_debouncer d w)) -> respects reads_engine id R.
Proof.
  intros He Hd. split; try done.
  - intros e i w r w' [= _ <-]. done.
  - intros i w r w' [= _ <-]. done.
  - intros p w r w' [= _ <-]. done.
Qed.
Lemma reads_extends : respects reads_engine id backlog_extends.
Proof. apply reads_respects; [apply _|..]; intros w x; apply extends_same; reflexivity. Qed.
Lemma reads_kept : respects reads_engine id queue_kept.
Proof. apply reads_respects; [apply _|..]; intros w x Ho; (split; [exact Ho|]); intros id it E; exists it; split; [exact E|reflexivity|exact E|reflexivity]. Qed.
Definition stored_run : store := mkStore (mkEventTables [] []) (mkTables [sample_run_id] [] [] [] []) [] [] [].
Definition run_world : world TaskQueue.t Z := mkWorld [] idle_debouncer stored_run empty_queue 5000.
Lemma run_world_open l : queue_open (set_backlog l run_world).
Proof. split; [exact empty_queue_ok|reflexivity]. Qed.

Definition planned : res frame * world TaskQueue.t Z :=
  planning_cycle sample_runtime reads_engine id (fun _ => 0) OnEvent [keyed_event] (sample_uuid "e") sample_run_id 1000
    (BudgetTracker.mk sample_limits 0 0 0 0 0 None 0) (set_backlog [keyed_event; sample_small] run_world).
Lemma planning_keeps_events_witness : exists f, planned = (Ok f, f_world f) /\ w_backlog (f_world f) = [sample_small] /\
  length (f_tasks f) = 2%nat /\ length (ready_tasks (f_tasks f)) = 1%nat /\ forall t, t ∈ f_tasks f -> depends_on t = [] -> waiting (f_world f) (task_id t).
Proof.
  destruct (planning_keeps_events sample_runtime reads_engine id (fun _ => 0) reads_extends OnEvent [keyed_event] [sample_small] (sample_uuid "e")
    sample_run_id 1000 (BudgetTracker.mk sample_limits 0 0 0 0 0 None 0) (set_backlog [keyed_event; sample_small] run_world) eq_refl)
    as (f & E & [(_ & _ & _ & _ & Hw & _)|(e & He & _)]); exists f; (split; [exact E|]); vm_compute in E; injection E as <-; [|discriminate He].
  split; [reflexivity|]. split; [reflexivity|]. split; [reflexivity|]. exact (Hw (run_world_open _) reads_kept).
Defined.

Definition cycled : res frame * world TaskQueue.t Z :=
  reflex_cycle sample_runtime reads_engine id (fun _ => 0) keyed_event sample_run_id (BudgetTracker.mk sample_limits 0 0 0 0 0 None 0) run_world.
Lemma event_cycle_total_witness : exists f, cycled = (Ok f, f_world f) /\ event_outcome reads_engine id keyed_event sample_run_id run_world f /\
  length (f_tasks f) = 2%nat /\ length (f_enqueued_task_ids f) = 1%nat /\ forall t, t ∈ f_tasks f -> depends_on t = [] -> waiting (f_world f) (task_id t).
Proof.
  destruct (event_cycle_total sample_runtime reads_engine id (fun _ => 0) reads_extends keyed_event sample_run_id
    (BudgetTracker.mk sample_limits 0 0 0 0 0 None 0) run_world) as (f & E & Ho & Hw).
  exists f. split; [exact E|]. split; [exact Ho|]. vm_compute in E. injection E as <-. split; [reflexivity|]. split; [reflexivity|].
  exact (Hw eq_refl (run_world_open []) reads_kept).
Defined.

Lemma empty_backed : queue_backed (world_with []).
Proof. split; [exact empty_queue_ok|]. split; [reflexivity|]. intros i it E.
  assert (q_view empty_queue = ∅) as Ev by (vm_compute; reflexivity). change (q_view empty_queue !! i = Some it) in E. by rewrite Ev in E. Qed.
Lemma queue_always_backed_witness : queue_backed (stub submit_event keyed_event (world_with [])).2.
Proof.
  destruct (queue_always_backed sample_runtime stub_engine id (fun _ => 0)) with (e := keyed_event) (trigger := Tick) as [H _].
  - apply stub_respects; [apply _|..]; intros w x; apply backed_known; done.
  - discriminate.
  - eexists. reflexivity.
  - destruct (stub submit_event keyed_event (world_with [])) as [r w'] eqn:E. exact (proj2 (H _ _ _ E) empty_backed).
Defined.

Lemma uuid_always (x : Z) : is_ok (fresh_uuid x).1 = true.
Proof. reflexivity. Qed.
Lemma wall_always (x : Z) : is_ok (wall_ms x).1 = true.
Proof. reflexivity. Qed.

(** The two reads of PlanValidation: the second waits for the first. *)
Definition built_reads : list Task := match sample_build.1 with Ok ts => ts | Raise _ => [] end.
Lemma built_reads_valid : Forall (fun t => valid_task t /\ is_Some (tool_call t)) built_reads.
Proof.
  assert (map (fun t => (Task_model_validate t, is_set (tool_call t))) built_reads = map (fun t => (Ok t, true)) built_reads) as E
    by (vm_compute; reflexivity).
  revert E. generalize built_reads. induction l as [|t l IH]; cbn [map]; [intros _; apply Forall_nil_2|]. intros [= E1 E2 E3].
  apply Forall_cons_2; [|by apply IH]. split; [by eapply Task_model_validate_valid|]. by destruct (tool_call t).
Qed.
Definition enqueued_reads : res (list string) * world TaskQueue.t Z :=
  enqueue_tasks sample_runtime id (sample_uuid "e") sample_run_id built_reads "r" "planner" (Some Tick) (world_with []).
Lemma enqueue_tasks_spec_witness : exists now envs, enqueued_reads.1 = Ok (map task_id (ready_tasks built_reads)) /\
  Forall2 (envelope_for now) (ready_tasks built_reads) envs /\ length (ready_tasks built_reads) = 1%nat /\
  enqueued_in empty_queue (w_queue enqueued_reads.2) envs.
Proof.
  assert (exists ids w', enqueued_reads = (Ok ids, w')) as (ids & w' & E) by (eexists; eexists; vm_compute; reflexivity).
  destruct (enqueue_tasks_spec (QO := TaskQueue.ops) (QL := TaskQueue.laws) (EN := counting_entropy) sample_runtime id (fun w => eq_refl) uuid_always wall_always (sample_uuid "e") sample_run_id built_reads "r" "planner"
    (Some Tick) (world_with []) (Ok ids) w' built_reads_valid empty_queue_ok eq_refl E) as (_ & now & k & envs & Hf & Hi & -> & Hk).
  rewrite E. cbn [fst snd]. rewrite take_ge in Hf by exact Hk. exists now, envs. split; [reflexivity|]. split; [exact Hf|]. split; [vm_compute; reflexivity|exact Hi].
Defined.

(** A decision whose one task has 40,000 bytes of arguments. *)
Definition large_decision : ReflexDecision :=
  mkReflexDecision ReflexAction.FAST_TASKS "r"
    [mkProposedTask "read" "fs.read_text" [("path", JStr "a"); ("note", JArr (repeat (JStr (xs 1000)) 40))] [] 60 false 2 (Some 1) None None None None None]
    None.
Definition large_engine : OrchestratorEngine TaskQueue.t Z :=
  mkEngine (fun _ _ => mret large_decision) NoOpPlanner read_registry NoopRunPacketSink (Some sample_persistence) None sample_limits ["fs.read"] [].
Lemma large_extends : respects large_engine id backlog_extends.
Proof.
  split; try (intros; apply extends_same; reflexivity); [| | |discriminate].
  - intros e i w r w' [= _ <-]. reflexivity.
  - exact (re_planner stub_engine id _ stub_extends).
  - intros p w r w' [= _ <-]. reflexivity.
Qed.
Lemma large_decision_bytes : json_bytes sample_float_repr (JObj (ReflexDecision_dump large_decision)) = Ok 40454.
Proof. vm_compute. reflexivity. Qed.
Definition large_run : res EventHandleOutcome * world TaskQueue.t Z :=
  reflex_run sample_runtime large_engine id (fun _ => 0) keyed_event sample_run_id 1000 run_world.
Lemma large_decision_unreported_witness : (exists x, large_run.1 = Raise x) /\
  map (fun p => tr_status p.2) (task_rows (s_tables (w_store large_run.2))) = ["pending"] /\ size (q_view (w_queue large_run.2)) = 1%nat.
Proof.
  destruct (large_decision_unreported sample_runtime large_engine id (fun _ => 0)) with (e := keyed_event) (d := large_decision) (n := 40454)
    (run := sample_run_id) (created := 1000) (w := run_world) as (f & x & _ & _ & E).
  - exact large_extends.
  - intros y. apply Z.abs_nonneg.
  - reflexivity.
  - reflexivity.
  - intros i w. reflexivity.
  - exact large_decision_bytes.
  - reflexivity.
  - split; [|vm_compute; split; reflexivity]. exists x. unfold large_run. rewrite E. reflexivity.
Defined.

(** The same event, before the packet of its run is stored, and after. *)
Definition first_stage : world TaskQueue.t Z :=
  mkWorld [] idle_debouncer
    (Persistence.persist_event_and_run sample_float_repr sample_persistence 5000 keyed_event (mkRunRecord sample_run_id None 5000 None None) empty_store).2
    empty_queue 5000.
Lemma duplicate_event_witness : exists x, let w' := set_env x first_stage in
  stub submit_event keyed_event first_stage = (Ok (mkOutcome (sample_uuid "e") None true), w') /\
  stub handle_event keyed_event first_stage = (Raise (RuntimeError "event was deduplicated before the original run packet was available"), w').
Proof.
  destruct (duplicate_event sample_runtime stub_engine id (fun _ => 0) (fun w => eq_refl) uuid_always wall_always sample_persistence eq_refl
    ltac:(discriminate) keyed_event "k" keyed_event first_stage eq_refl ltac:(discriminate) ltac:(discriminate)) as (x & H).
  - vm_compute. reflexivity.
  - exists x. vm_compute (RunPacketRepo.get_run_id_for_event _ _).1 in H. exact H.
Defined.
