(* ===== verification/ApprovalsService.v ===== *)
(** * Approvals by operators: [application/approvals_service.py]

    An operator approves or denies what a task waits for. The decision, the new
    status of the task and of its tool call are one unit of work; the envelope of
    an approved task goes on the queue after it, and what others do in between is
    the function [others]. When the queue refuses the envelope a second unit of
    work makes the task wait again.

    The results: an approved task is on the queue or waits again, its database
    then the one it was but for the decision; approving or denying once more
    changes nothing, and the opposite decision is refused. *)

From Stdlib Require Import ZArith Lia.
From S2P Require Import Prelude PyFloat PyText Uuid Models Lifecycle Envelope QueueSpec TaskQueue Decision Approvals PlanValidation Rows Repos Persistence Engine.

#[local] Notation dict := (list (string * json)).

Section world.
Context {Q X : Type}.

Record service_world := mkServiceWorld { s_db : tables; s_queue : Q; s_env : X }.
Definition set_db (d : tables) (w : service_world) : service_world := mkServiceWorld d (s_queue w) (s_env w).
Definition in_db {A} (m : st tables A) : st service_world A := fun w => let '(r, d) := m (s_db w) in (r, set_db d w).
Definition in_queue {A} (m : st Q A) : st service_world A := fun w => let '(r, q) := m (s_queue w) in (r, mkServiceWorld (s_db w) q (s_env w)).
Definition in_env {A} (m : st X A) : st service_world A := fun w => let '(r, x) := m (s_env w) in (r, mkServiceWorld (s_db w) (s_queue w) x).
(** [async with uow: ...] *)
Definition in_uow {A} (body : st service_world A) : st service_world A := fun w =>
  match body w with (Ok a, w') => (Ok a, w') | (Raise e, w') => (Raise e, set_db (s_db w) w') end.
End world.
Arguments service_world : clear implicits.

Definition ApprovalEnqueueError (approval_id task_id : string) : exn :=
  OtherError "ApprovalEnqueueError" ("failed to enqueue approved task " +:+ py_repr task_id +:+ " for approval " +:+ py_repr approval_id).

Section service.
Context {Q X : Type} `{QO : QueueOps Q} `{EN : Entropy X} `{CL : Clock X}.
#[local] Notation world := (service_world Q X).
Variable args_eq : dict -> dict -> bool.
(** the trace context and the event of the caller *)
Variable otel : dict.
Variable context_event_id : option string.
Variable others : world -> world.

Definition list_approvals (limit offset : Z) (s : option ApprovalStatus.t) (run : option string) : st world (list Approval * Z) :=
  in_uow (total ← in_db (ApprovalRepo.count s run); items ← in_db (ApprovalRepo.list_approvals limit offset s run); mret (items, total)).

(** The approval, decided as [s]. *)
Definition decide_approval (id : string) (s : ApprovalStatus.t) (refusal : string) (by_ : option string) : st world Approval :=
  found ← in_db (ApprovalRepo.get id);
  match found with
  | None => throw (KeyError ("unknown approval_id: " +:+ py_repr id))
  | Some a =>
      if bool_decide (ap_status a = ApprovalStatus.PENDING) then
        now ← in_env wall_ms; in_db (ApprovalRepo.update_status now (approval_id a) s None by_)
      else if bool_decide (ap_status a = s) then mret a
      else throw (ValueError refusal)
  end.
Definition task_of_approval (a : Approval) : st world Task :=
  found ← in_db (TaskRepo.get (ap_task_id a));
  match found with None => throw (KeyError ("unknown task_id: " +:+ py_repr (ap_task_id a))) | Some t => mret t end.

Definition requeue_envelope (id : string) (now wall : Z) (a : Approval) (t : Task) (c : ToolCall) : res TaskEnvelope :=
  TaskEnvelope_validate id wall {|
    in_envelope_id := IdNone; in_task_id := IdStr (task_id t); in_run_id := IdStr (run_id t); in_attempt := attempts t;
    in_created_at_ms := Some now; in_available_at_ms := Some now; in_priority := None;
    in_correlation_ids := Some [
      ("event_id", context_event_id); ("run_id", normalize_optional_str (Some (run_id t)));
      ("task_id", normalize_optional_str (Some (task_id t))); ("tool_call_id", normalize_optional_str (Some (tool_call_id c)))];
    in_trace := Some ([("reason", JStr "approval_approved"); ("source", JStr "approvals")] ++
                      match otel with [] => [] | o => [("otel", JObj o)] end)%list;
    in_payload := Some [("tool_call_id", JStr (tool_call_id c)); ("tool_name", JStr (tool_name c));
                        ("permission_scope", JStr (permission_scope c)); ("idempotency_key", JStr (idempotency_key c));
                        ("approval_id", JStr (approval_id a))] |}.

(** A waiting task is queued; its envelope. *)
Definition requeue (a : Approval) (t : Task) : st world (option TaskEnvelope) :=
  if bool_decide (status t = TaskStatus.WAITING_APPROVAL) then
    match tool_call t with
    | None => throw (ValueError "waiting approval task must have tool_call")
    | Some c =>
        if negb (bool_decide (tc_status c = ToolCallStatus.PENDING))
        then throw (ValueError "waiting approval requeue requires pending tool_call")
        else
          queued ← lift (transition_task (task_set_tool_call (Some c) t) TaskStatus.QUEUED);
          in_db (TaskRepo.update args_eq queued);;
          now ← in_env (fun x => let '(n, x') := now_ms x in (Ok n, x'));
          id ← in_env fresh_uuid; wall ← in_env wall_ms;
          envelope ← lift (requeue_envelope id now wall a queued c);
          mret (Some envelope)
    end
  else mret None.

Definition record_approval (id : string) (by_ : option string) : st world (Approval * option TaskEnvelope) :=
  in_uow (
    a ← decide_approval id ApprovalStatus.APPROVED "denied approval cannot be approved" by_;
    t ← task_of_approval a;
    envelope ← requeue a t;
    mret (a, envelope)).

(** [_restore_waiting_approval_task] *)
Definition restore_waiting_approval_task (id task_id : string) : st world unit :=
  in_uow (
    a ← in_db (ApprovalRepo.get id);
    if negb (bool_decide (option_map ap_status a = Some ApprovalStatus.APPROVED)) then mret tt
    else
      t ← in_db (TaskRepo.get task_id);
      match t with
      | None => mret tt
      | Some t =>
          if negb (bool_decide (status t = TaskStatus.QUEUED)) then mret tt
          else if negb (bool_decide (option_map tc_status (tool_call t) = Some ToolCallStatus.PENDING)) then mret tt
          else
            waiting ← lift (transition_task t TaskStatus.WAITING_APPROVAL);
            in_db (TaskRepo.update args_eq waiting);;
            mret tt
      end).

Definition suspended : st world unit := modify others.
(** [queue.enqueue], and what to do when it fails *)
Definition try_or_restore (now : Z) (a : Approval) (envelope : TaskEnvelope) : st world unit := fun w =>
  match in_queue (q_enqueue now envelope) w with
  | (Ok _, w') => (Ok tt, w')
  | (Raise _, w') =>
      (suspended;; restore_waiting_approval_task (approval_id a) (env_task_id envelope);;
       throw (ApprovalEnqueueError (approval_id a) (env_task_id envelope))) w'
  end.

Definition approve (id : string) (by_ : option string) : st world Approval :=
  recorded ← record_approval id by_;
  let '(a, envelope) := recorded in
  match envelope with
  | None => mret a
  | Some envelope => suspended;; now ← in_env wall_ms; try_or_restore now a envelope;; mret a
  end.

Definition cancels (s : TaskStatus.t) : bool :=
  bool_decide (s ∈ [TaskStatus.WAITING_APPROVAL; TaskStatus.QUEUED; TaskStatus.PENDING]).
Definition deny (id : string) (by_ : option string) : st world Approval :=
  in_uow (
    a ← decide_approval id ApprovalStatus.DENIED "approved approval cannot be denied" by_;
    t ← task_of_approval a;
    match tool_call t with
    | None => throw (ValueError "task must have tool_call")
    | Some c =>
        (if cancels (status t) then
           now ← in_env (fun x => let '(n, x') := now_ms x in (Ok n, x'));
           state ← lift (if bool_decide (tc_status c = ToolCallStatus.PENDING) then complete_denied t c now else complete_canceled t c now);
           in_db (ToolCallRepo.update args_eq (es_tool_call state));;
           in_db (TaskRepo.update args_eq (es_task state));;
           mret tt
         else mret tt);;
        mret a
    end).

(** ** Decisions *)

(** The database holds the approval. *)
Record approval_seen (d : tables) (a : Approval) : Prop := {
  as_id : is_uuid4_str (approval_id a) = true;
  as_row : exists r, aget (approval_id a) (approval_rows d) = Some r /\ ar_status r = ApprovalStatus.value (ap_status a) /\
    approval_from_row_dict r = Ok a;
}.
(** The same approval, up to what a decision sets. *)
Record same_approval (a a' : Approval) : Prop := {
  sa_id : approval_id a' = approval_id a;
  sa_run : ap_run_id a' = ap_run_id a;
  sa_task : ap_task_id a' = ap_task_id a;
  sa_call : ap_tool_call_id a' = ap_tool_call_id a;
}.
Lemma row_ids r r' a a' : approval_from_row_dict r = Ok a -> approval_from_row_dict r' = Ok a' ->
  ar_approval_id r' = ar_approval_id r -> ar_run_id r' = ar_run_id r -> ar_task_id r' = ar_task_id r ->
  ar_tool_call_id r' = ar_tool_call_id r -> same_approval a a'.
Proof.
  unfold approval_from_row_dict, Approval_model_validate, Approval_fields. intros H H' E1 E2 E3 E4. res_inv. vld_inv.
  cbn [approval_id ap_run_id ap_task_id ap_tool_call_id] in *. rewrite E1, E2, E3, E4 in *. split; cbn [approval_id ap_run_id ap_task_id ap_tool_call_id]; congruence.
Qed.
Lemma row_status r a : approval_from_row_dict r = Ok a -> ar_status r = ApprovalStatus.value (ap_status a).
Proof.
  unfold approval_from_row_dict. intros (s & Hs & Hv)%res_bind_Ok. apply parse_status_spec in Hs.
  apply Approval_validate_decided in Hv as (E & _). cbn in E. congruence.
Qed.
Lemma get_seen d a : approval_seen d a -> ApprovalRepo.get (approval_id a) d = (Ok (Some a), d).
Proof.
  intros [Hid (r & Hr & _ & Hv)]. unfold ApprovalRepo.get. rewrite required_key_uuid by done. cbn [mbind res_bind]. by rewrite Hr, Hv.
Qed.

Lemma update_status_seen now d a s by_ r d' : approval_seen d a -> ap_status a = ApprovalStatus.PENDING -> ApprovalRepo.is_supported s = true ->
  ApprovalRepo.update_status now (approval_id a) s None by_ d = (r, d') ->
  exists row, d' = set_approval_rows (aset (approval_id a) row (approval_rows d)) d /\
  match r with
  | Ok a' => same_approval a a' /\ ap_status a' = s /\ approval_seen d' a'
  | Raise _ => True
  end.
Proof.
  intros [Hid (row & Hr & Hs & Hv)] Hp Hsup. unfold ApprovalRepo.update_status. rewrite Hsup, required_key_uuid, Hr, Hs, Hp, String.eqb_refl by done.
  cbn [negb]. intros [= <- <-]. eexists. split; [done|]. match goal with |- context [approval_from_row_dict ?x] => destruct (approval_from_row_dict x) as [a'|] eqn:E; [|done] end.
  pose proof (row_ids _ _ _ _ Hv E eq_refl eq_refl eq_refl eq_refl) as Hsame. pose proof (row_status _ _ E) as Hst. cbn in Hst.
  assert (ap_status a' = s) as Es by (revert Hst Hsup; by destruct s, (ap_status a')).
  split; [done|]. split; [done|]. split; [by rewrite (sa_id _ _ Hsame)|]. rewrite (sa_id _ _ Hsame). eexists. split_and!; [cbn; by rewrite aget_aset, decide_True| |exact E].
  cbn. by rewrite Es.
Qed.

Lemma decide_approval_spec id s refusal by_ w a r w' : approval_seen (s_db w) a -> id = approval_id a -> ApprovalRepo.is_supported s = true ->
  decide_approval id s refusal by_ w = (r, w') ->
  s_queue w' = s_queue w /\ (exists rows, s_db w' = set_approval_rows rows (s_db w)) /\
  match r with
  | Ok a' => same_approval a a' /\ ap_status a' = s /\ approval_seen (s_db w') a' /\ (ap_status a = ApprovalStatus.PENDING \/ ap_status a = s /\ a' = a /\ w' = w)
  | Raise e => ap_status a = ApprovalStatus.PENDING \/ ap_status a <> s /\ e = ValueError refusal /\ w' = w
  end.
Proof.
  intros Ha -> Hs. unfold decide_approval. unfold mbind at 1, st_bind at 1, in_db at 1. rewrite (get_seen _ _ Ha).
  assert (set_db (s_db w) w = w) as -> by (by destruct w).
  assert (s_db w = set_approval_rows (approval_rows (s_db w)) (s_db w)) as Hsame by (by destruct (s_db w)).
  case_bool_decide as Hp.
  - unfold mbind, st_bind, in_env. destruct (wall_ms (s_env w)) as [[now|e] x]; [|intros [= <- <-]; cbn; split; [done|]; split; [by eexists|by left]].
    unfold in_db. cbn [s_db]. destruct (ApprovalRepo.update_status _ _ _ _ _ _) as [r0 d'] eqn:E. intros [= <- <-].
    eapply update_status_seen in E as (row & -> & E); [|done..]. cbn [s_queue s_db set_db]. split; [done|]. split; [by eexists|].
    destruct r0; [|by left]. destruct E as (A & B & C). split_and!; try done. by left.
  - case_bool_decide as Hq; intros [= <- <-]; (split; [done|]); (split; [by eexists|]).
    + split; [done|]. split; [done|]. split; [done|]. by right.
    + by right.
Qed.

(** ** What waits *)

(** The task waits for the decision, its tool call was not started. *)
Record waits (t : Task) (c : ToolCall) : Prop := {
  wt_valid : valid_task t;
  wt_consistent : task_consistent t;
  wt_status : status t = TaskStatus.WAITING_APPROVAL;
  wt_call : tool_call t = Some c;
  wt_pending : tc_status c = ToolCallStatus.PENDING;
}.
Definition queued (t : Task) : Task := task_set_status TaskStatus.QUEUED t.

Lemma valid_set_status s t : valid_task t -> valid_task (task_set_status s t).
Proof. by intros []. Qed.
Lemma set_own_call t c : tool_call t = Some c -> task_set_tool_call (Some c) t = t.
Proof. destruct t. cbn. by intros ->. Qed.
Lemma waits_queued t c : waits t c -> transition_task t TaskStatus.QUEUED = Ok (queued t) /\ valid_task (queued t).
Proof.
  intros [Hv Hc Hs Ht Hp]. pose proof (valid_set_status TaskStatus.QUEUED t Hv) as Hq. split; [|done].
  apply transition_task_iff; [auto with py|]. rewrite Hs. split; [set_solver|]. split; [done|]. rewrite not_running_updated by done. split; [done|]. split; [done|].
  revert Hc. unfold task_consistent, with_call. rewrite Hs. cbn. rewrite Ht. intros (Hd & _ & [(_ & _ & Hst)|(Hr & _)]); [done|congruence].
Qed.
Lemma queued_waits t c : waits t c -> tool_call_consistent c -> transition_task (queued t) TaskStatus.WAITING_APPROVAL = Ok t.
Proof.
  intros [Hv Hc Hs Ht Hp] Hcc. assert (task_set_status TaskStatus.WAITING_APPROVAL (queued t) = t) as E by (revert Hs; destruct t; cbn; by intros ->).
  apply transition_task_iff; [pose proof (valid_set_status TaskStatus.QUEUED t Hv); auto with py|]. cbn [status queued task_set_status].
  split; [set_solver|]. split; [done|]. rewrite not_running_updated by done. by rewrite E.
Qed.
Lemma same_task_status s t : same_task t (task_set_status s t).
Proof. split; try done. cbn. destruct (tool_call t); constructor; done. Qed.

(** ** The environment: the clock is not before the request, ids are fresh, the
    trace context is JSON. *)
Record environment (created : Z) : Prop := {
  en_wall : forall x : X, exists n x', wall_ms x = (Ok n, x') /\ created <= n;
  en_now : forall x : X, 0 <= (now_ms x).1;
  en_uuid : forall x : X, exists id x', fresh_uuid x = (Ok id, x');
  en_otel : jsonable (JObj otel) = true;
}.

(** The envelope of an approved task, at the time [now]. *)
Record requeues (now : Z) (a : Approval) (t : Task) (c : ToolCall) (e : TaskEnvelope) : Prop := {
  rq_task : env_task_id e = task_id t;
  rq_run : env_run_id e = run_id t;
  rq_attempt : attempt e = attempts t;
  rq_created : env_created_at_ms e = now;
  rq_due : env_available_at_ms e = now;
  rq_payload : payload e = Some [
    ("tool_call_id", JStr (tool_call_id c)); ("tool_name", JStr (tool_name c)); ("permission_scope", JStr (permission_scope c));
    ("idempotency_key", JStr (idempotency_key c)); ("approval_id", JStr (approval_id a))];
}.
Lemma requeue_envelope_total id now wall a t c : valid_task t -> 0 <= now -> jsonable (JObj otel) = true ->
  exists e, requeue_envelope id now wall a t c = Ok e /\ requeues now a t c e.
Proof.
  intros Hv Hn Hj. unfold requeue_envelope, TaskEnvelope_validate, populate_default_timestamps.
  cbn [default from_option Datatypes.id in_envelope_id in_task_id in_run_id in_attempt in_created_at_ms in_available_at_ms in_priority in_correlation_ids in_trace in_payload].
  rewrite !(proj1 (is_uuid4_str_validate _ _)) by apply Hv. unfold non_negative_int.
  rewrite (proj2 (Z.ltb_ge (attempts t) 0)) by apply Hv. rewrite !(proj2 (Z.ltb_ge now 0)) by done.
  assert (jsonable (JObj ([("reason", JStr "approval_approved"); ("source", JStr "approvals")] ++ match otel with [] => [] | o => [("otel", JObj o)] end)%list) = true) as Ht.
  { destruct otel as [|p l] eqn:E; [done|]. cbn [app]. rewrite <- E in *. clear E. by cbn in *; rewrite Hj. }
  unfold validate_optional_json_dict. rewrite Ht. set (ids := validate_correlation_ids _).
  assert (exists l, ids = Ok l) as [l ->] by (eexists; unfold ids; reflexivity).
  eexists. split; [cbn [validate_generated_id validate_priority field vap after jsonable forallb snd andb run]; unfold validate_timestamp_order; cbn [env_available_at_ms env_created_at_ms];
    rewrite Z.ltb_irrefl; reflexivity|].
  by split.
Qed.

Lemma elem_of_list_two {A} (x a b : A) : x ∈ [a; b] -> x = a \/ x = b.
Proof. clear. set_solver. Qed.

(** A pending approval that is in the database can be decided from its creation on. *)
Lemma decided_row_valid r a s now by_ : approval_from_row_dict r = Ok a -> s ∈ [ApprovalStatus.APPROVED; ApprovalStatus.DENIED] ->
  ap_created_at_ms a <= now -> exists a', approval_from_row_dict
    (mkApprovalRow (ar_approval_id r) (ar_run_id r) (ar_task_id r) (ar_tool_call_id r) (ApprovalStatus.value s) (ar_created_at_ms r) (Some now) by_
      (ar_payload_hash r) (ar_preview r)) = Ok a'.
Proof.
  unfold approval_from_row_dict. cbn [ar_status]. rewrite parse_approval_status. cbn [mbind res_bind ar_approval_id ar_run_id ar_task_id ar_tool_call_id
    ar_created_at_ms ar_decided_at_ms ar_decided_by ar_payload_hash ar_preview]. unfold Approval_model_validate, Approval_fields. intros H Hs Hn. res_inv. vld_inv.
  cbn [approval_id ap_run_id ap_task_id ap_tool_call_id ap_created_at_ms preview payload_hash ap_status decided_at_ms decided_by] in *.
  repeat match goal with E : _ = Ok _ |- _ => rewrite E; clear E end.
  apply elem_of_list_two in Hs. assert (validate_approval_status s = Ok s) as -> by (by destruct Hs as [-> | ->]). assert (exists b, normalize_optional by_ = Ok b) as [b ->] by (destruct by_; by eexists).
  eexists. cbn [field vap after]. unfold Approval_validate_decision_fields. cbn [decided_at_ms ap_created_at_ms ap_status].
  rewrite (proj2 (Z.ltb_ge now _)) by done. cbn [raise_if mbind res_bind]. by destruct Hs as [-> | ->].
Qed.
Lemma decide_approval_total s refusal by_ w a : environment (ap_created_at_ms a) -> approval_seen (s_db w) a ->
  s ∈ [ApprovalStatus.APPROVED; ApprovalStatus.DENIED] -> ap_status a = ApprovalStatus.PENDING \/ ap_status a = s ->
  exists a' w', decide_approval (approval_id a) s refusal by_ w = (Ok a', w').
Proof.
  clear args_eq others context_event_id. intros He Ha Hs Hp. destruct (decide_approval (approval_id a) s refusal by_ w) as [[a'|e] w'] eqn:E; [by do 2 eexists|exfalso]. revert E.
  unfold decide_approval. unfold mbind at 1, st_bind at 1, in_db at 1. rewrite (get_seen _ _ Ha). assert (set_db (s_db w) w = w) as -> by (by destruct w).
  case_bool_decide as Hq; [|case_bool_decide; [done|naive_solver]]. unfold mbind, st_bind, in_env. destruct (en_wall _ He (s_env w)) as (n & x & -> & Hn).
  destruct Ha as [Hid (r & Hr & Hst & Hv)]. unfold in_db. cbn [s_db]. unfold ApprovalRepo.update_status.
  pose proof (elem_of_list_two _ _ _ Hs) as Hs2. assert (ApprovalRepo.is_supported s = true) as -> by (by destruct Hs2 as [-> | ->]). rewrite required_key_uuid, Hr, Hst, Hq, String.eqb_refl by done. cbn [negb].
  rewrite bool_decide_false by (by destruct Hs2 as [-> | ->]). cbn [default from_option].
  match goal with |- context [approval_from_row_dict (mkApprovalRow _ _ _ _ _ _ _ ?b _ _)] => destruct (decided_row_valid r a s n b Hv Hs Hn) as [a' E] end.
  unfold Datatypes.id. by rewrite E.
Qed.

(** ** Approving *)
Context (args_eq_refl : forall d, args_eq d d = true).

Lemma task_of_approval_spec w a t : task_stored (s_db w) t -> ap_task_id a = task_id t -> task_of_approval a w = (Ok t, w).
Proof.
  intros Ht E. unfold task_of_approval, mbind, st_bind, in_db. rewrite E, (get_stored _ _ Ht). by destruct w.
Qed.
Lemma requeue_total created a t c w : environment created -> waits t c -> task_stored (s_db w) t ->
  exists e x, requeue a t w = (Ok (Some e), mkServiceWorld (write_task (queued t) (s_db w)) (s_queue w) x) /\ requeues (now_ms (s_env w)).1 a t c e.
Proof.
  intros He Hw Ht. destruct (waits_queued t c Hw) as [Hq Hv]. unfold requeue. rewrite bool_decide_true by apply Hw. rewrite (wt_call _ _ Hw).
  rewrite (bool_decide_true (tc_status c = _)) by apply Hw. cbn [negb]. rewrite (set_own_call t c (wt_call _ _ Hw)), Hq.
  unfold mbind, st_bind, lift, in_db. rewrite (task_update_stored args_eq args_eq_refl (s_db w) t (queued t) Ht Hv (same_task_status _ t)).
  unfold in_env. cbn [s_db s_queue s_env set_db]. pose proof (en_now _ He (s_env w)) as Hn. destruct (now_ms (s_env w)) as [n x1]. cbn [fst s_env s_db s_queue] in *.
  destruct (en_uuid _ He x1) as (id & x2 & ->). cbn [s_env s_db s_queue]. destruct (en_wall _ He x2) as (wall & x3 & -> & _). cbn [s_env s_db s_queue].
  destruct (requeue_envelope_total id n wall a (queued t) c Hv Hn (en_otel _ He)) as (e & -> & Hreq). exists e, x3. split; [done|]. by destruct Hreq.
Qed.

(** The state of the clock after the decision: deciding reads it once. *)
Definition decided_env (a : Approval) (w : world) : X :=
  if bool_decide (ap_status a = ApprovalStatus.PENDING) then (wall_ms (s_env w)).2 else s_env w.
Lemma decide_approval_env s refusal by_ w a a' w' : approval_seen (s_db w) a -> decide_approval (approval_id a) s refusal by_ w = (Ok a', w') ->
  s_env w' = decided_env a w.
Proof.
  intros Ha. unfold decide_approval, decided_env. unfold mbind at 1, st_bind at 1, in_db at 1. rewrite (get_seen _ _ Ha).
  assert (set_db (s_db w) w = w) as -> by (by destruct w). case_bool_decide as Hp; [|case_bool_decide; by intros [= _ <-]].
  unfold mbind, st_bind, in_env. destruct (wall_ms (s_env w)) as [[now|e] x]; [|done].
  unfold in_db. destruct (ApprovalRepo.update_status _ _ _ _ _ _) as [r0 d']. by intros [= _ <-].
Qed.

(** The first unit of work: the decision and the queued task. *)
Lemma record_approval_spec w a t c by_ : environment (ap_created_at_ms a) -> approval_seen (s_db w) a ->
  ap_status a = ApprovalStatus.PENDING \/ ap_status a = ApprovalStatus.APPROVED ->
  waits t c -> task_stored (s_db w) t -> ap_task_id a = task_id t ->
  exists a' e w', record_approval (approval_id a) by_ w = (Ok (a', Some e), w') /\ same_approval a a' /\ ap_status a' = ApprovalStatus.APPROVED /\
    approval_seen (s_db w') a' /\ task_stored (s_db w') (queued t) /\ requeues (now_ms (decided_env a w)).1 a' t c e /\ s_queue w' = s_queue w.
Proof.
  intros He Ha Hp Hw Ht Hid. set (refusal := "denied approval cannot be approved").
  destruct (decide_approval_total ApprovalStatus.APPROVED refusal by_ w a He Ha) as (a' & w1 & E1); [set_solver|done|].
  pose proof (decide_approval_spec (approval_id a) ApprovalStatus.APPROVED refusal by_ w a _ _ Ha eq_refl eq_refl E1) as (Q1 & [rows D1] & Hsame & Hst & Hseen & _).
  assert (task_stored (s_db w1) t) as Ht1 by (rewrite D1; by destruct Ht).
  destruct (requeue_total _ a' t c w1 He Hw Ht1) as (e & x & E2 & Hreq). rewrite (decide_approval_env _ _ _ _ _ _ _ Ha E1) in Hreq.
  exists a', e. eexists. split.
  - unfold record_approval, in_uow. fold refusal. unfold mbind, st_bind. rewrite E1, (task_of_approval_spec w1 a' t Ht1) by (rewrite (sa_task _ _ Hsame); done).
    rewrite E2. reflexivity.
  - cbn [s_db s_queue]. split_and!; try done.
    + destruct Hseen as [H (r & Hr & H')]. split; [done|]. exists r. split; [|done]. rewrite <- Hr. unfold write_task. by destruct (tool_call (queued t)).
    + apply write_task_stored. by apply (waits_queued t c).
Qed.

(** The compensation: the task waits again. *)
Lemma restore_spec w a t c : approval_seen (s_db w) a -> ap_status a = ApprovalStatus.APPROVED -> waits t c -> tool_call_consistent c ->
  task_stored (s_db w) (queued t) ->
  restore_waiting_approval_task (approval_id a) (task_id t) w = (Ok tt, set_db (write_task t (s_db w)) w).
Proof.
  intros Ha Hst Hw Hc Ht. pose proof (queued_waits t c Hw Hc) as Hq. unfold restore_waiting_approval_task, in_uow.
  unfold mbind, st_bind, in_db. rewrite (get_seen _ _ Ha). cbn [option_map]. rewrite Hst. cbn [bool_decide negb s_db set_db].
  rewrite bool_decide_true by done. cbn [negb s_db set_db]. pose proof (get_stored _ _ Ht) as Hg. change (task_id (queued t)) with (task_id t) in Hg. rewrite Hg. cbn [s_db set_db].
  rewrite (bool_decide_true (status (queued t) = _)) by done. cbn [negb]. change (tool_call (queued t)) with (tool_call t). rewrite (wt_call _ _ Hw). cbn [option_map].
  rewrite (bool_decide_true (Some (tc_status c) = _)) by (by rewrite (wt_pending _ _ Hw)). cbn [negb]. unfold lift. rewrite Hq. cbn [s_db set_db].
  rewrite (task_update_stored args_eq args_eq_refl (s_db w) (queued t) t Ht (wt_valid _ _ Hw)); [done|].
  split; try done. cbn. destruct (tool_call t); constructor; done.
Qed.

Lemma in_uow_raises {A} (m : st world A) w e w' : in_uow m w = (Raise e, w') -> s_db w' = s_db w.
Proof. unfold in_uow. destruct (m w) as [[] w1]; [done|]. by intros [= _ <-]. Qed.

(** What the others leave alone: the rows of the approval, the task and its call. *)
Record untouched (a : Approval) (t : Task) (d d' : tables) : Prop := {
  un_approval : aget (approval_id a) (approval_rows d') = aget (approval_id a) (approval_rows d);
  un_task : aget (task_id t) (task_rows d') = aget (task_id t) (task_rows d);
  un_call : forall c, tool_call t = Some c -> aget (tool_call_id c) (tool_call_rows d') = aget (tool_call_id c) (tool_call_rows d);
}.
Lemma untouched_seen a t d d' : untouched a t d d' -> approval_seen d a -> approval_seen d' a.
Proof. intros [E _ _] [Hid Hr]. split; [done|]. by rewrite E. Qed.
Lemma untouched_stored a t d d' : untouched a t d d' -> task_stored d t -> task_stored d' t.
Proof.
  intros [_ E F] [Hv Hr Hc]. split; [done|by rewrite E|]. intros c Ec. destruct (Hc c Ec) as [Hvc Hrc]. split; [done|]. by rewrite F.
Qed.

(** Recording does not touch the queue. *)
Definition same_queue (w w' : world) : Prop := s_queue w' = s_queue w.
#[local] Instance same_queue_preorder : PreOrder same_queue.
Proof. split; [done|]. intros w1 w2 w3. unfold same_queue. congruence. Qed.
Lemma queue_in_db {A} (m : st tables A) : moves same_queue (in_db m).
Proof. intros w r w'. unfold in_db. destruct (m (s_db w)). by intros [= _ <-]. Qed.
Lemma queue_in_env {A} (m : st X A) : moves same_queue (in_env m).
Proof. intros w r w'. unfold in_env. destruct (m (s_env w)). by intros [= _ <-]. Qed.
#[local] Hint Resolve queue_in_db queue_in_env : moves.
Lemma record_queue id by_ w r w' : record_approval id by_ w = (r, w') -> s_queue w' = s_queue w.
Proof.
  unfold record_approval, in_uow. match goal with |- match ?m w with _ => _ end = _ -> _ => assert (moves same_queue m) as Hm end.
  { unfold decide_approval, task_of_approval, requeue. walk_moves. }
  match goal with |- match ?p with _ => _ end = _ -> _ => destruct p as [[x|e] w1] eqn:E end; apply Hm in E; by intros [= _ <-].
Qed.

(** An error that is not the queue's leaves database and queue as they were. *)
Lemma approve_error created id by_ w x w' : environment created -> approve id by_ w = (Raise x, w') ->
  (s_db w' = s_db w /\ s_queue w' = s_queue w) \/
  exists a e w1 now, record_approval id by_ w = (Ok (a, Some e), w1) /\ is_ok (q_enqueue now e (s_queue (others w1))).1 = false.
Proof.
  intros He. unfold approve. unfold mbind at 1, st_bind at 1. destruct (record_approval id by_ w) as [[[a o]|y] w1] eqn:E.
  - destruct o as [e|]; [|done]. intros E'. right. unfold suspended, modify in E'. unfold mbind at 1, st_bind at 1 in E'.
    unfold mbind at 1, st_bind at 1, in_env in E'. destruct (en_wall _ He (s_env (others w1))) as (now & x1 & Ew & _). rewrite Ew in E'.
    exists a, e, w1, now. split; [done|]. unfold mbind, st_bind, try_or_restore, in_queue in E'. cbn [s_queue] in E'.
    by destruct (q_enqueue now e (s_queue (others w1))) as [[u|err] q'].
  - intros [= <- <-]. left. split; [by apply in_uow_raises in E|by eapply record_queue].
Qed.

(** C30: an approved task is queued or waits again. Approving what a task waits for
    records the decision and the queued task, then offers the queue one envelope
    for it, with its attempts, that names call and approval and is due from the
    reading of the clock at the decision. When the queue takes it, [approve]
    returns the approval, and the task is on the queue; when the queue refuses,
    [approve] raises the documented error and the task waits as before, so that it
    can be approved again. Decision and task are one unit of work: whatever
    approval is named and whatever the database holds, an error leaves both the
    database and the queue as they were, unless all of it was recorded and the
    queue then refused the envelope. *)
Theorem approve_spec `{!QueueLaws Q} w a t c by_ : environment (ap_created_at_ms a) -> (forall w, untouched a t (s_db w) (s_db (others w))) ->
  approval_seen (s_db w) a -> ap_status a = ApprovalStatus.PENDING \/ ap_status a = ApprovalStatus.APPROVED ->
  waits t c -> tool_call_consistent c -> task_stored (s_db w) t -> ap_task_id a = task_id t ->
  (exists a' e w1 now r w', approve (approval_id a) by_ w = (r, w') /\ same_approval a a' /\ ap_status a' = ApprovalStatus.APPROVED /\
    approval_seen (s_db w') a' /\ requeues (now_ms (decided_env a w)).1 a' t c e /\ s_queue w1 = s_queue w /\
    approval_seen (s_db w1) a' /\ task_stored (s_db w1) (queued t) /\
    let q := s_queue (others w1) in
    match q_enqueue now e q with
    | (Ok _, q') => r = Ok a' /\ task_stored (s_db w') (queued t) /\ s_queue w' = q' /\ (q_ok q -> q_closed q = false -> enqueued_in q q' [e])
    | (Raise _, q') => r = Raise (ApprovalEnqueueError (approval_id a) (task_id t)) /\ task_stored (s_db w') t
    end) /\
  forall id by_ w x w', approve id by_ w = (Raise x, w') ->
    (s_db w' = s_db w /\ s_queue w' = s_queue w) \/
    exists a e w1 now, record_approval id by_ w = (Ok (a, Some e), w1) /\ is_ok (q_enqueue now e (s_queue (others w1))).1 = false.
Proof.
  intros He Ho Ha Hp Hw Hc Ht Hid. split; [|intros id by' w0 x w0'; by eapply approve_error].
  destruct (record_approval_spec w a t c by_ He Ha Hp Hw Ht Hid) as (a' & e & w1 & E1 & Hsame & Hst & Hseen & Hq & Hreq & Q1).
  assert (forall w, untouched a' (queued t) (s_db w) (s_db (others w))) as Ho'.
  { intros w0. destruct (Ho w0). split; [by rewrite (sa_id _ _ Hsame)|done|done]. }
  pose proof (untouched_seen _ _ _ _ (Ho' w1) Hseen) as Hseen1. pose proof (untouched_stored _ _ _ _ (Ho' w1) Hq) as Hq1.
  destruct (en_wall _ He (s_env (others w1))) as (now & x & E2 & _). exists a', e, w1, now.
  unfold approve. unfold mbind at 1, st_bind at 1. rewrite E1. unfold suspended, modify. unfold mbind at 1, st_bind at 1.
  unfold mbind at 1, st_bind at 1, in_env. rewrite E2. unfold mbind at 1, st_bind at 1, try_or_restore, in_queue. cbn [s_queue s_db s_env].
  pose proof (enqueue_view now e (s_queue (others w1))) as Hview. destruct (q_enqueue now e (s_queue (others w1))) as [[u|err] q'] eqn:Eq.
  - do 2 eexists. split; [done|]. cbn [s_db s_queue]. split_and!; try done. intros H1 H2. apply Hview; [done..|]. rewrite (rq_attempt _ _ _ _ _ Hreq). apply (wt_valid _ _ Hw).
  - unfold mbind, st_bind, suspended, modify. set (w2 := others _). pose proof (Ho' (mkServiceWorld (s_db (others w1)) q' x)) as Ho2. fold w2 in Ho2. cbn [s_db] in Ho2.
    pose proof (untouched_seen _ _ _ _ Ho2 Hseen1) as Hseen2. pose proof (untouched_stored _ _ _ _ Ho2 Hq1) as Hq2.
    rewrite (rq_task _ _ _ _ _ Hreq), (restore_spec w2 a' t c Hseen2 Hst Hw Hc Hq2). unfold throw. do 2 eexists. split; [done|].
    cbn [s_db set_db]. split_and!; try done.
    + destruct Hseen2 as [H (r & Hr & H')]. split; [done|]. exists r. split; [|done]. rewrite <- Hr. unfold write_task. by destruct (tool_call t).
    + by rewrite (sa_id _ _ Hsame).
    + by apply write_task_stored, (wt_valid _ _ Hw).
Qed.

(** a decision is not taken twice. Once an approval is approved and its task no
    longer waits, approving again answers with the approval and changes nothing,
    in particular nothing goes on the queue, and denying is refused; once it is
    denied, approving is refused, and denying again, when the task is neither
    waiting nor to run, answers with the approval. The database and the queue stay
    what they were in all four cases. *)
Theorem decided_once w a t c by_ : approval_seen (s_db w) a -> task_stored (s_db w) t -> ap_task_id a = task_id t -> tool_call t = Some c ->
  (ap_status a = ApprovalStatus.APPROVED ->
    (status t <> TaskStatus.WAITING_APPROVAL -> approve (approval_id a) by_ w = (Ok a, w)) /\
    deny (approval_id a) by_ w = (Raise (ValueError "approved approval cannot be denied"), w)) /\
  (ap_status a = ApprovalStatus.DENIED ->
    approve (approval_id a) by_ w = (Raise (ValueError "denied approval cannot be approved"), w) /\
    (cancels (status t) = false -> deny (approval_id a) by_ w = (Ok a, w))).
Proof.
  intros Ha Ht Hid Hc. assert (forall w : world, set_db (s_db w) w = w) as Hw by (by intros []).
  assert (forall s refusal, ap_status a <> ApprovalStatus.PENDING ->
    decide_approval (approval_id a) s refusal by_ w = (if bool_decide (ap_status a = s) then Ok a else Raise (ValueError refusal), w)) as Hd.
  { intros s refusal Hp. unfold decide_approval, mbind, st_bind, in_db. rewrite (get_seen _ _ Ha), Hw, bool_decide_false by done. by case_bool_decide. }
  split; intros Hs; (split; [try intros Hn|try intros Hn]); unfold approve, record_approval, deny, in_uow; unfold mbind, st_bind;
    rewrite Hd by congruence; rewrite Hs; cbn [bool_decide]; rewrite ?bool_decide_true, ?bool_decide_false by done; try by rewrite Hw.
  - rewrite (task_of_approval_spec w a t Ht Hid). unfold requeue. by rewrite bool_decide_false.
  - rewrite (task_of_approval_spec w a t Ht Hid), Hc. by rewrite Hn.
Qed.

(** ** Denying *)
Definition denied_status (c : ToolCall) : ToolCallStatus.t :=
  if bool_decide (tc_status c = ToolCallStatus.PENDING) then ToolCallStatus.DENIED else ToolCallStatus.CANCELED.
Definition denied_call (c : ToolCall) (now : Z) : ToolCall := call_completed c (denied_status c) now.
Definition denied_task (t : Task) (c : ToolCall) (now : Z) : Task := task_completed t (denied_call c now) TaskStatus.CANCELED now.

(** The task was not begun, its tool call can be canceled, now is not before either. *)
Record cancelable (t : Task) (c : ToolCall) (now : Z) : Prop := {
  cn_ok : exec_ok (mkExecutionState t c);
  cn_status : cancels (status t) = true;
  cn_call : ToolCallStatus.CANCELED ∈ TOOL_CALL_ALLOWED_TRANSITIONS (tc_status c);
  cn_time : timestamps_ok (created_at_ms t) (started_at_ms t) (Some now);
  cn_call_time : timestamps_ok (tc_created_at_ms c) (tc_started_at_ms c) (Some now);
}.
Lemma denied_state t c now : cancelable t c now ->
  (if bool_decide (tc_status c = ToolCallStatus.PENDING) then complete_denied t c now else complete_canceled t c now) =
    Ok (mkExecutionState (denied_task t c now) (denied_call c now)).
Proof.
  clear args_eq args_eq_refl others context_event_id otel. intros [[Hv Hl Ht Hc] Hs Hcall Htt Htc]. cbn [es_task es_tool_call] in *. unfold denied_task, denied_call, denied_status.
  assert (TaskStatus.CANCELED ∈ TASK_ALLOWED_TRANSITIONS (status t)) as Hin.
  { unfold cancels in Hs. case_bool_decide as H; [|done]. by destruct (status t); set_solver. }
  assert (valid_tool_call c) as Hvc by by eapply vt_tool_call.
  case_bool_decide as Hp; unfold complete_denied, complete_canceled; apply complete_with_iff; try done; split; try done; rewrite ?Hp;
    (split; [first [set_solver|exact Hcall]|]); split_and!; try done.
  - unfold tool_call_consistent in Hc. rewrite Hp in Hc. cbn. by destruct Hc.
  - unfold task_consistent, if_call. cbn. split; [done|set_solver].
  - unfold task_consistent, if_call. cbn. split; [done|set_solver].
Qed.

(** a denied task is never run. Denying a pending approval, of a task that waits or
    was not begun, records the decision and, in the same unit of work, the task as
    canceled now and its tool call as denied, or as canceled when it had begun;
    the queue and all other tasks, also those that depend on it, are left as they
    were. The error paths leave the database as it was. *)
Theorem deny_spec w a t c by_ : environment (ap_created_at_ms a) -> (forall x, cancelable t c (now_ms x).1) ->
  approval_seen (s_db w) a -> ap_status a = ApprovalStatus.PENDING -> task_stored (s_db w) t -> ap_task_id a = task_id t ->
  (exists a' now w', deny (approval_id a) by_ w = (Ok a', w') /\ same_approval a a' /\ ap_status a' = ApprovalStatus.DENIED /\
    approval_seen (s_db w') a' /\ task_stored (s_db w') (denied_task t c now) /\ tool_call (denied_task t c now) = Some (denied_call c now) /\
    (forall id, id <> task_id t -> aget id (task_rows (s_db w')) = aget id (task_rows (s_db w))) /\ s_queue w' = s_queue w) /\
  forall id e w', deny id by_ w = (Raise e, w') -> s_db w' = s_db w.
Proof.
  clear others context_event_id. intros He Hcn Ha Hp Ht Hid. split; [|intros id e w'; apply in_uow_raises].
  set (refusal := "approved approval cannot be denied").
  destruct (decide_approval_total ApprovalStatus.DENIED refusal by_ w a He Ha) as (a' & w1 & E1); [set_solver|by left|].
  pose proof (decide_approval_spec (approval_id a) ApprovalStatus.DENIED refusal by_ w a _ _ Ha eq_refl eq_refl E1) as (Q1 & [rows D1] & Hsame & Hst & Hseen & _).
  assert (task_stored (s_db w1) t) as Ht1 by (rewrite D1; by destruct Ht). pose proof (Hcn (s_env w1)) as Hn.
  destruct (now_ms (s_env w1)) as [now x] eqn:En. cbn [fst] in Hn. pose proof (denied_state _ _ _ Hn) as Hstate.
  destruct Hn as [[Hv Hl Htc Hcc] Hcs Hcall Htt Htcc]. cbn [es_task es_tool_call] in *.
  assert (valid_tool_call c) as Hvc by by eapply vt_tool_call. assert (valid_tool_call (denied_call c now)) as Hvd by by apply valid_call_completed.
  assert (valid_task (denied_task t c now)) as Hvt by by apply valid_task_completed.
  set (d1 := write_call (denied_call c now) (s_db w1)).
  assert (ToolCallRepo.update args_eq (denied_call c now) (s_db w1) = (Ok (denied_call c now), d1)) as E2.
  { unfold d1, write_call. apply (tool_call_update_stored args_eq args_eq_refl (s_db w1) c); [by apply (ts_call _ _ Ht1)|done|done]. }
  set (t1 := task_set_tool_call (Some (denied_call c now)) t).
  assert (task_stored d1 t1) as Ht2.
  { destruct Ht1 as [_ Hr _]. split; [destruct Hv; split; try done; by intros ? [= <-]| |].
    - unfold d1. cbn. rewrite Hr. unfold task_to_row_dict. cbn. by rewrite Hl.
    - intros c' [= <-]. split; [done|]. cbn. by rewrite aget_aset, decide_True. }
  assert (TaskRepo.update args_eq (denied_task t c now) d1 = (Ok (denied_task t c now), write_task (denied_task t c now) d1)) as E3.
  { apply (task_update_stored args_eq args_eq_refl d1 t1); done. }
  exists a', now. eexists. split.
  - unfold deny, in_uow. fold refusal. unfold mbind, st_bind. rewrite E1, (task_of_approval_spec w1 a' t Ht1) by (rewrite (sa_task _ _ Hsame); done).
    rewrite Hl, Hcs. unfold in_env. rewrite En. unfold lift. cbn [s_db s_queue s_env]. rewrite Hstate. unfold in_db. cbn [s_db s_queue s_env es_tool_call es_task].
    rewrite E2. cbn [s_db set_db]. rewrite E3. reflexivity.
  - cbn [s_db s_queue]. split_and!; try done; [|by apply write_task_stored|].
    + destruct Hseen as [H (r & Hr & H')]. split; [done|]. by exists r.
    + intros id Hne. unfold write_task. cbn [tool_call denied_task task_completed task_set_status task_set_tool_call task_set_completed]. cbn.
      rewrite aget_aset, decide_False by done. by rewrite D1.
Qed.
End service.

(** ** A deployment: the in-memory queue, a clock that does not move *)
#[export] Instance steady_entropy : Entropy unit := {| fresh_uuid := fun x => (Ok (sample_uuid "e"), x); wall_ms := fun x => (Ok 3000, x) |}.
#[export] Instance steady_clock : Clock unit := {| now_ms := fun x => (3000, x); monotonic_ms := fun x => (3000, x) |}.
#[local] Existing Instances TaskQueue.ops TaskQueue.laws.
Definition waiting_task : Task := task_set_status TaskStatus.WAITING_APPROVAL sample_task.
Definition pending_approval : Approval :=
  mkApproval (sample_uuid "d") (run_id sample_task) (task_id sample_task) (tool_call_id sample_call) ApprovalStatus.PENDING 1000 None None None None.
Definition service_with (a : Approval) (t : Task) : service_world TaskQueue.t unit :=
  mkServiceWorld (mkTables [run_id t] [(task_id t, task_to_row_dict t)] [(tool_call_id sample_call, tool_call_to_row_dict sample_call)]
    [(approval_id a, approval_to_row_dict a)] []) empty_queue tt.
Lemma steady_environment : environment (X := unit) [] 1000.
Proof. split; [intros x; by exists 3000, x|done|intros x; by exists (sample_uuid "e"), x|done]. Qed.
Lemma seen_sample a t : is_uuid4_str (approval_id a) = true -> approval_from_row_dict (approval_to_row_dict a) = Ok a -> approval_seen (s_db (service_with a t)) a.
Proof. intros Hid Hv. split; [done|]. eexists. split_and!; [cbn; by rewrite decide_True|done|done]. Qed.
Lemma stored_sample a s : valid_task (task_set_status s sample_task) -> task_stored (s_db (service_with a (task_set_status s sample_task))) (task_set_status s sample_task).
Proof. intros Hv. split; [done|by vm_compute|]. intros c [= <-]. split; [apply sample_call_valid|by vm_compute]. Qed.
Lemma waiting_valid : valid_task waiting_task.
Proof. exact (valid_set_status _ sample_task sample_task_valid). Qed.
Lemma waiting_waits : waits waiting_task sample_call.
Proof.
  split; try done; [apply waiting_valid|]. unfold task_consistent, with_call. cbn. split; [done|]. split; [done|]. by left.
Qed.

#[local] Notation approved_by by_ := (approve (fun _ _ => true) [] None id (approval_id pending_approval) by_ (service_with pending_approval waiting_task)).
Lemma approve_spec_witness : exists a' e w', approved_by (Some "ops") = (Ok a', w') /\ ap_status a' = ApprovalStatus.APPROVED /\
  task_stored (s_db w') (queued waiting_task) /\ enqueued_in empty_queue (s_queue w') [e].
Proof.
  destruct (approve_spec (fun _ _ => true) [] None id (fun _ => eq_refl) (service_with pending_approval waiting_task) pending_approval waiting_task
    sample_call (Some "ops") steady_environment) as [(a' & e & w1 & now & r & w' & E & _ & Hs & _ & _ & Q1 & _ & _ & H) _].
  - intros w. split; reflexivity.
  - apply seen_sample; vm_compute; reflexivity.
  - left. reflexivity.
  - exact waiting_waits.
  - split; reflexivity.
  - apply stored_sample. exact waiting_valid.
  - reflexivity.
  - exists a', e, w'. cbn [id] in H. destruct (q_enqueue now e (s_queue w1)) as [[u|x] q'] eqn:Eq.
    + destruct H as (-> & Ht & -> & Hin). rewrite E. rewrite Q1 in Hin. split; [reflexivity|]. split; [exact Hs|]. split; [exact Ht|].
      apply Hin; [exact empty_queue_ok|reflexivity].
    + exfalso. destruct H as [-> _]. vm_compute in E. discriminate E.
Defined.

Lemma decided_once_witness : let w := service_with approved_sample sample_task in
  approve (fun _ _ => true) [] None id (approval_id approved_sample) None w = (Ok approved_sample, w) /\
  deny (fun _ _ => true) (approval_id approved_sample) None w = (Raise (ValueError "approved approval cannot be denied"), w).
Proof.
  intros w. destruct (decided_once (fun _ _ => true) [] None id w approved_sample sample_task sample_call None) as [H _].
  - apply seen_sample; vm_compute; reflexivity.
  - exact (stored_sample approved_sample TaskStatus.QUEUED sample_task_valid).
  - reflexivity.
  - reflexivity.
  - destruct (H eq_refl) as [H1' H2']. split; [apply H1'; discriminate|exact H2'].
Defined.

Lemma deny_spec_witness : let w := service_with pending_approval waiting_task in
  exists a' w', deny (fun _ _ => true) (approval_id pending_approval) None w = (Ok a', w') /\ ap_status a' = ApprovalStatus.DENIED /\
    s_queue w' = s_queue w.
Proof.
  intros w. destruct (deny_spec (fun _ _ => true) [] (fun _ => eq_refl) w pending_approval waiting_task sample_call None steady_environment)
    as ((a' & now & w' & E & _ & Hs & _ & _ & _ & _ & Hq) & _).
  - intros x. split; [|reflexivity|vm_compute; repeat constructor| |]; [|cbn; split_and!; intros; simplify_eq; lia..].
    split; [exact waiting_valid|reflexivity|apply waiting_waits|split; reflexivity].
  - apply seen_sample; vm_compute; reflexivity.
  - reflexivity.
  - apply stored_sample. exact waiting_valid.
  - reflexivity.
  - exists a', w'. split; [exact E|]. split; [exact Hs|exact Hq].
Defined.
