(* ===== verification/FsSafety.v ===== *)
(** * Files of the workspace: [security/fs_safety.py]

    A file system is a map from locations (the names on the way from the root,
    without links) to files, directories and symbolic links. The calls of the
    operating system that the code makes walk a path through it. The results: what
    is read lies in the workspace, after any links; a write replaces one file of
    the workspace as a whole or changes no file at all, also when writing fails
    half-way; and what a path with [..] behind a missing directory does. *)

From Stdlib Require Import ZArith Lia.
From S2P Require Import Prelude PyText.

(** ** Paths and the file system *)
#[local] Notation location := (list string) (only parsing).

(** A [pathlib.Path]: its parts are without empty names and [.]; a link target too. *)
Record path := mkPath { p_absolute : bool; p_parts : list string }.

Inductive node :=
| File (data : string) (mode : Z)
| Dir (mode : Z)
| Link (target : path).
#[local] Notation fs := (gmap (list string) node) (only parsing).

Definition parent (l : location) : location := removelast l.
Definition name_of (l : location) : string := List.last l "".
Definition path_str (l : location) : string := "/" +:+ String.concat "/" l.
Definition is_dir_at (d : fs) (l : location) : bool :=
  match l with [] => true | _ => match d !! l with Some (Dir _) => true | _ => false end end.

Definition FileNotFoundError : exn := OtherError "FileNotFoundError" "[Errno 2] No such file or directory".
Definition FileExistsError : exn := OtherError "FileExistsError" "[Errno 17] File exists".
Definition NotADirectoryError : exn := OtherError "NotADirectoryError" "[Errno 20] Not a directory".
Definition IsADirectoryError : exn := OtherError "IsADirectoryError" "[Errno 21] Is a directory".
Definition LoopError : exn := OtherError "OSError" "[Errno 40] Too many levels of symbolic links".
Definition is_class (c : string) (e : exn) : bool := match e with OtherError n _ => (n =? c)%string | _ => false end.

(** ** Walking a path: [follow] tells whether a link at the end is followed. With the
    location comes how many links may still be followed. *)
Section walk.
Variable d : fs.
Variable follow : bool.
Fixpoint walk (links : nat) : location -> list string -> res (location * nat) :=
  fix go (at_ : location) (todo : list string) : res (location * nat) :=
    match todo with
    | [] => Ok (at_, links)
    | c :: rest =>
        if negb (is_dir_at d at_) then Raise NotADirectoryError
        else if (c =? "..")%string then go (parent at_) rest
        else match d !! (at_ ++ [c])%list with
        | None => Raise FileNotFoundError
        | Some (Link target) =>
            if negb follow && bool_decide (rest = []) then Ok ((at_ ++ [c])%list, links)
            else match links with
            | O => Raise LoopError
            | S links => walk links (if p_absolute target then [] else at_) (p_parts target ++ rest)%list
            end
        | Some _ => go (at_ ++ [c])%list rest
        end
    end.
End walk.

Section os.
(** the limit on links, and [os.path.expanduser] of the first name of a path *)
Variable max_links : nat.
Variable expanduser_name : string -> option path.

Definition lstat (d : fs) (l : list string) : res location := r ← walk d false max_links [] l; Ok r.1.
Definition stat (d : fs) (l : list string) : res location := r ← walk d true max_links [] l; Ok r.1.
Definition exists_at (d : fs) (l : list string) : bool := is_ok (stat d l).
Definition is_dir (d : fs) (l : list string) : bool := match stat d l with Ok k => is_dir_at d k | Raise _ => false end.

(** [Path.resolve(strict=True)] *)
Definition resolve_strict (d : fs) (l : list string) : res location := stat d l.
(** [Path.resolve(strict=False)]: what does not exist is kept as it is written *)
Fixpoint resolve_lax (d : fs) (links : nat) : location -> list string -> res location :=
  fix go (at_ : location) (todo : list string) : res location :=
    match todo with
    | [] => Ok at_
    | c :: rest =>
        if (c =? "..")%string then go (parent at_) rest
        else match (if is_dir_at d at_ then d !! (at_ ++ [c])%list else None) with
        | Some (Link target) =>
            match links with
            | O => Raise (RuntimeError "Symlink loop")
            | S links => resolve_lax d links (if p_absolute target then [] else at_) (p_parts target ++ rest)%list
            end
        | _ => go (at_ ++ [c])%list rest
        end
    end.

(** [Path.expanduser()] *)
Definition expanduser (p : path) : res path :=
  match p_absolute p, p_parts p with
  | false, name :: rest =>
      if (String.substring 0 1 name =? "~")%string then
        match expanduser_name name with
        | None => Raise (RuntimeError "Could not determine home directory.")
        | Some home => Ok (mkPath (p_absolute home) (p_parts home ++ rest)%list)
        end
      else Ok p
  | _, _ => Ok p
  end.

(** ** Resolving *)
Definition normalize_workspace_root (d : fs) (root : path) : res location :=
  expanded ← expanduser root;
  raise_if (negb (p_absolute expanded)) (ValueError "workspace_root must be an absolute path");;
  resolve_lax d max_links [] (p_parts expanded).

(** The longest beginning of the path that exists. *)
Fixpoint closest_existing (d : fs) (fuel : nat) (l : list string) : res (option (list string)) :=
  match lstat d l with
  | Ok _ => Ok (Some l)
  | Raise e =>
      if is_class "FileNotFoundError" e then
        match fuel, l with
        | S fuel, _ :: _ => closest_existing d fuel (parent l)
        | _, _ => Ok None
        end
      else Raise e
  end.
Definition closest_existing_path (d : fs) (l : list string) : res (option (list string)) := closest_existing d (length l) l.

Definition path_repr (p : path) : string :=
  "PosixPath(" +:+ py_repr ((if p_absolute p then "/" else "") +:+ String.concat "/" (p_parts p)) +:+ ")".
Definition failed_to_resolve (p : path) : exn := ValueError ("failed to resolve path within workspace: " +:+ path_repr p).
Definition is_os_error (e : exn) : bool :=
  match e with OtherError n _ => bool_decide (n ∈ ["FileNotFoundError"; "FileExistsError"; "NotADirectoryError"; "IsADirectoryError"; "PermissionError"; "OSError"]) | _ => false end.

Definition resolve_candidate_path (d : fs) (candidate : list string) (original_path : path) (must_exist : bool) : res location :=
  if must_exist then
    match resolve_strict d candidate with
    | Ok r => Ok r
    | Raise e => Raise (if negb (is_class "FileNotFoundError" e) && is_os_error e then failed_to_resolve original_path else e)
    end
  else
    existing_ancestor ← closest_existing_path d candidate;
    match existing_ancestor with
    | None => Ok candidate
    | Some ancestor =>
        match resolve_strict d ancestor with
        | Ok resolved_ancestor => Ok (resolved_ancestor ++ drop (length ancestor) candidate)%list
        | Raise e => Raise (if is_os_error e then failed_to_resolve original_path else e)
        end
    end.

Definition candidate_of (base : location) (p : path) : list string :=
  if p_absolute p then p_parts p else (base ++ p_parts p)%list.
(** [Path.is_relative_to], by the names *)
Definition is_relative_to (l base : location) : bool := bool_decide (base `prefix_of` l).

Definition resolve_path_in_workspace (d : fs) (p workspace_root : path) (must_exist : bool) : res location :=
  base ← normalize_workspace_root d workspace_root;
  expanded ← expanduser p;
  resolved ← resolve_candidate_path d (candidate_of base expanded) p must_exist;
  raise_if (negb (is_relative_to resolved base)) (ValueError ("path escapes workspace root: " +:+ path_repr p));;
  Ok resolved.

(** ** Reading *)
(** [open("rb").read(n)] *)
Definition open_read (d : fs) (l : list string) (n : nat) : res string :=
  k ← stat d l;
  match d !! k with
  | Some (File data _) => Ok (String.substring 0 n data)
  | _ => Raise IsADirectoryError
  end.
Definition read_bytes_limited (d : fs) (p workspace_root : path) (max_bytes : Z) : res string :=
  raise_if (max_bytes <? 0) (ValueError "max_bytes must be >= 0");;
  resolved ← resolve_path_in_workspace d p workspace_root true;
  data ← open_read d resolved (Z.to_nat (max_bytes + 1));
  raise_if (max_bytes <? Z.of_nat (String.length data))
    (ValueError ("file exceeds max_bytes=" +:+ str_of_Z max_bytes +:+ ": " +:+ path_str resolved));;
  Ok data.

(** ** Writing *)
Definition DEFAULT_NEW_FILE_MODE : Z := 384. (* 0o600 *)
Variable dir_mode : Z.

(** [os.mkdir] *)
Definition os_mkdir (l : list string) : st fs unit := fun d =>
  match l with
  | [] => (Raise FileExistsError, d)
  | _ =>
      match stat d (parent l) with
      | Raise e => (Raise e, d)
      | Ok k =>
          if negb (is_dir_at d k) then (Raise NotADirectoryError, d)
          else if (name_of l =? "..")%string then (Raise FileExistsError, d)
          else match d !! (k ++ [name_of l])%list with
          | Some _ => (Raise FileExistsError, d)
          | None => (Ok tt, <[(k ++ [name_of l])%list := Dir dir_mode]> d)
          end
      end
  end.
(** [Path.mkdir(parents, exist_ok=True)]; the calls of itself are for the parent, and
    once more without [parents]. *)
Definition exist_ok (l : list string) (e : exn) : st fs unit := fun d => (if is_dir d l then Ok tt else Raise e, d).
Definition mkdir_once (l : list string) : st fs unit := fun d =>
  match os_mkdir l d with
  | (Ok _, d') => (Ok tt, d')
  | (Raise e, d') => if is_class "FileNotFoundError" e then (Raise e, d') else exist_ok l e d'
  end.
Fixpoint mkdir_parents (fuel : nat) (l : list string) : st fs unit := fun d =>
  match os_mkdir l d with
  | (Ok _, d') => (Ok tt, d')
  | (Raise e, d') =>
      if is_class "FileNotFoundError" e then
        match fuel, l with
        | S fuel, _ :: _ => (mkdir_parents fuel (parent l);; mkdir_once l) d'
        | _, _ => (Raise e, d')
        end
      else exist_ok l e d'
  end.
Definition mkdir (l : list string) : st fs unit := mkdir_parents (length l) l.

Definition prepare_atomic_write_parent (l : list string) (workspace_root : path) (create_parents : bool) : st fs location :=
  (if create_parents then mkdir l else mret tt);;
  d ← Prelude.get; lift (resolve_path_in_workspace d (mkPath true l) workspace_root true).

(** [_open_directory_fd]: the descriptor is the location. *)
Definition open_directory_fd (l : list string) : st fs location := fun d =>
  (k ← lstat d l; if is_dir_at d k then Ok k else Raise NotADirectoryError, d).
Definition atomic_temp_name (target_name hex : string) : string := "." +:+ target_name +:+ "." +:+ hex +:+ ".tmp".
Definition node_mode (n : node) : Z := match n with File _ m => m | Dir m => m | Link _ => 511 end.
Definition resolve_target_mode (d : fs) (fd : location) (target_name : string) (explicit : option Z) : Z :=
  match explicit with
  | Some m => m
  | None =>
      match d !! (fd ++ [target_name])%list with
      | None => DEFAULT_NEW_FILE_MODE
      | Some n => if node_mode n =? 0 then DEFAULT_NEW_FILE_MODE else node_mode n
      end
  end.

(** [os.open(O_CREAT | O_EXCL)], [os.replace] and [os.unlink] at a directory *)
Definition os_create (fd : location) (name : string) : st fs unit := fun d =>
  match d !! (fd ++ [name])%list with
  | Some _ => (Raise FileExistsError, d)
  | None => (Ok tt, <[(fd ++ [name])%list := File "" DEFAULT_NEW_FILE_MODE]> d)
  end.
Definition os_replace (fd : location) (src dst : string) : st fs unit := fun d =>
  match d !! (fd ++ [src])%list, d !! (fd ++ [dst])%list with
  | None, _ => (Raise FileNotFoundError, d)
  | Some _, Some (Dir _) => (Raise IsADirectoryError, d)
  | Some n, _ =>
      if (dst =? "..")%string then (Raise (OtherError "OSError" "[Errno 16] Device or resource busy"), d)
      else if (dst =? "")%string then (Raise FileNotFoundError, d)
      else (Ok tt, <[(fd ++ [dst])%list := n]> (delete (fd ++ [src])%list d))
  end.
Definition os_unlink (fd : location) (name : string) : st fs unit := fun d =>
  match d !! (fd ++ [name])%list with
  | None => (Raise FileNotFoundError, d)
  | Some (Dir _) => (Raise IsADirectoryError, d)
  | Some _ => (Ok tt, delete (fd ++ [name])%list d)
  end.

(** Writing, flushing, [fsync] and [fchmod] of the temporary file: all of it, or an
    error after a part of it *)
Inductive write_outcome := Written | FailedAfter (written : string) (e : exn).
Definition write_temp (fd : location) (name data : string) (target_mode : Z) (o : write_outcome) : st fs unit := fun d =>
  match o with
  | Written => (Ok tt, <[(fd ++ [name])%list := File data target_mode]> d)
  | FailedAfter part e => (Raise e, <[(fd ++ [name])%list := File part DEFAULT_NEW_FILE_MODE]> d)
  end.

(** The [try] statement, from the point where the temporary file is there: whatever
    fails, it is removed. *)
Definition or_unlink (fd : location) (name : string) (m : st fs unit) : st fs unit := fun d =>
  match m d with
  | (Ok _, d') => (Ok tt, d')
  | (Raise e, d') => let '(_, d'') := os_unlink fd name d' in (Raise e, d'')
  end.
(** An [os.open] that fails leaves the name set: what is there under it is removed too. *)
Definition write_and_replace (fd : location) (target_name tmp_name data : string) (target_mode : Z) (o : write_outcome) : st fs unit :=
  or_unlink fd tmp_name (
    os_create fd tmp_name;;
    write_temp fd tmp_name data target_mode o;;
    os_replace fd tmp_name target_name).

Definition atomic_write_bytes (hex : string) (o : write_outcome) (p : path) (data : string) (workspace_root : path) (max_bytes : option Z)
    (create_parents : bool) (mode : option Z) : st fs location :=
  lift (raise_if (match max_bytes with Some m => m <? 0 | None => false end) (ValueError "max_bytes must be >= 0"));;
  lift (raise_if (match max_bytes with Some m => m <? Z.of_nat (String.length data) | None => false end)
    (ValueError ("data exceeds max_bytes=" +:+ str_of_Z (default 0 max_bytes))));;
  d ← Prelude.get; resolved ← lift (resolve_path_in_workspace d p workspace_root false);
  parent ← prepare_atomic_write_parent (parent resolved) workspace_root create_parents;
  fd ← open_directory_fd parent;
  d ← Prelude.get;
  let target_mode := resolve_target_mode d fd (name_of resolved) mode in
  write_and_replace fd (name_of resolved) (atomic_temp_name (name_of resolved) hex) data target_mode o;;
  mret resolved.

(** The text functions; [decode] and [encode] are those of the codec. *)
Definition read_text_limited (decode : string -> res string) (d : fs) (p workspace_root : path) (max_bytes : Z) : res string :=
  data ← read_bytes_limited d p workspace_root max_bytes; decode data.
Definition atomic_write_text (encode : string -> res string) (hex : string) (o : write_outcome) (p : path) (text : string) (workspace_root : path)
    (max_bytes : option Z) (create_parents : bool) (mode : option Z) : st fs location :=
  data ← lift (encode text); atomic_write_bytes hex o p data workspace_root max_bytes create_parents mode.
End os.

(** ** Walks *)

(** The names on the way are directories, and no link is left. *)
Definition is_link (n : node) : bool := match n with Link _ => true | _ => false end.
Record canonical (d : fs) (l : location) : Prop := {
  ca_names : ".." ∉ l;
  ca_dirs : forall q, q `prefix_of` l -> q <> l -> is_dir_at d q = true;
  ca_end : l = [] \/ exists n, d !! l = Some n /\ is_link n = false;
}.
Lemma canonical_root d : canonical d [].
Proof. split; [set_solver| |by left]. intros q [k Hk] Hq. by destruct q. Qed.
Lemma parent_snoc (l : location) c : parent (l ++ [c]) = l.
Proof. apply removelast_last. Qed.
Lemma parent_name (l : location) : l <> [] -> (parent l ++ [name_of l])%list = l.
Proof. intros Hl. symmetry. by apply app_removelast_last. Qed.
Lemma parent_length (l : location) : l <> [] -> length l = S (length (parent l)).
Proof. intros Hl. rewrite <- (parent_name l Hl) at 1. rewrite length_app. cbn. lia. Qed.
Lemma is_dir_lookup d l : is_dir_at d l = true -> l = [] \/ exists m, d !! l = Some (Dir m).
Proof. unfold is_dir_at. destruct l; [by left|]. destruct (d !! _) as [[]|]; try done. right. by eexists. Qed.
Lemma lookup_is_dir d l m : d !! l = Some (Dir m) -> is_dir_at d l = true.
Proof. unfold is_dir_at. destruct l; [done|]. by intros ->. Qed.
Lemma prefix_snoc (q l : location) c : q `prefix_of` l ++ [c] -> q = (l ++ [c])%list \/ q `prefix_of` l.
Proof.
  intros [k Hk]. destruct k as [|x k _] using rev_ind; [left; by rewrite app_nil_r in Hk|]. right. rewrite app_assoc in Hk. apply app_inj_tail in Hk as [-> _]. by eexists.
Qed.
Lemma canonical_parent d l : canonical d l -> canonical d (parent l).
Proof.
  destruct l as [|c l _] using rev_ind; [done|]. rewrite parent_snoc. intros [Hn Hd He]. split; [set_solver| |].
  - intros q Hq Hne. apply Hd; [by apply prefix_app_r|]. intros ->. apply prefix_length in Hq. rewrite length_app in Hq. cbn in Hq. lia.
  - destruct (is_dir_lookup d l) as [->|[m Hm]]; [|by left|right; by eexists]. apply Hd; [by eexists|]. intros E. apply (f_equal length) in E. rewrite length_app in E. cbn in E. lia.
Qed.
Lemma canonical_snoc d l c n : canonical d l -> is_dir_at d l = true -> c <> ".." -> d !! (l ++ [c])%list = Some n -> is_link n = false -> canonical d (l ++ [c]).
Proof.
  intros [Hn Hd He] Hl Hc Hlk Hlink. split; [set_solver| |right; by eexists].
  intros q Hq Hne. apply prefix_snoc in Hq as [->|Hq]; [done|]. destruct (decide (q = l)) as [->|]; [done|by apply Hd].
Qed.

Lemma walk_cons d f links at_ c rest : walk d f links at_ (c :: rest) =
  if negb (is_dir_at d at_) then Raise NotADirectoryError
  else if (c =? "..")%string then walk d f links (parent at_) rest
  else match d !! (at_ ++ [c])%list with
  | None => Raise FileNotFoundError
  | Some (Link target) =>
      if negb f && bool_decide (rest = []) then Ok ((at_ ++ [c])%list, links)
      else match links with
      | O => Raise LoopError
      | S links => walk d f links (if p_absolute target then [] else at_) (p_parts target ++ rest)%list
      end
  | Some _ => walk d f links (at_ ++ [c])%list rest
  end.
Proof. by destruct links. Qed.
Lemma walk_nil d f links at_ : walk d f links at_ [] = Ok (at_, links).
Proof. by destruct links. Qed.

(** What a walk that follows links reaches has no links. *)
Lemma walk_canonical d links at_ todo k n : canonical d at_ -> walk d true links at_ todo = Ok (k, n) -> canonical d k.
Proof.
  revert at_ todo. induction links as [|links IHl]; intros at_ todo; revert at_; induction todo as [|c rest IH]; intros at_ Ha;
    try (rewrite walk_nil; by intros [= <- _]); rewrite walk_cons; destruct (is_dir_at d at_) eqn:Ed; try done; cbn [negb andb];
    (destruct (String.eqb_spec c ".."); [by apply IH, canonical_parent|]); destruct (d !! (at_ ++ [c])%list) as [[]|] eqn:E; try done;
    try (apply IH; by eapply canonical_snoc).
  apply IHl. destruct (p_absolute target); [apply canonical_root|done].
Qed.
Lemma walk_app d f links at_ a b : b <> [] -> walk d f links at_ (a ++ b) = (r ← walk d true links at_ a; walk d f r.2 r.1 b).
Proof.
  intros Hb. revert at_ a. induction links as [|links IHl]; intros at_ a; revert at_; induction a as [|c rest IH]; intros at_;
    try (by rewrite walk_nil); cbn [app]; rewrite !walk_cons; destruct (is_dir_at d at_); try done; cbn [negb andb];
    (destruct (c =? "..")%string; [apply IH|]); destruct (d !! (at_ ++ [c])%list) as [[]|]; try done; try apply IH.
  - by rewrite (bool_decide_false (rest ++ b = [])), andb_false_r by (by destruct rest).
  - rewrite (bool_decide_false (rest ++ b = [])), andb_false_r by (by destruct rest). by rewrite app_assoc, IHl.
Qed.
Lemma walk_fixed d f links at_ s : canonical d (at_ ++ s) -> walk d f links at_ s = Ok ((at_ ++ s)%list, links).
Proof.
  revert at_. induction s as [|c s IH]; intros at_ Hc; [by rewrite walk_nil, app_nil_r|]. rewrite walk_cons.
  assert (at_ <> (at_ ++ c :: s)%list) as Hne by (intros E; apply (f_equal length) in E; rewrite length_app in E; cbn in E; lia).
  rewrite (ca_dirs _ _ Hc at_) by (done || by eexists). cbn [negb]. destruct (String.eqb_spec c "..") as [->|_]; [destruct Hc; set_solver|].
  assert (exists n, d !! (at_ ++ [c])%list = Some n /\ is_link n = false) as (n & En & Hl).
  { destruct (decide (s = [])) as [->|Hs]; [destruct (ca_end _ _ Hc) as [E|H]; [by destruct at_|done]|].
    destruct (is_dir_lookup d (at_ ++ [c])) as [E|[m Hm]]; [|by destruct at_|by eexists].
    apply (ca_dirs _ _ Hc); [exists s; by rewrite <- app_assoc|]. intros E. apply app_inv_head in E. by destruct s. }
  rewrite En. replace (at_ ++ c :: s)%list with ((at_ ++ [c]) ++ s)%list in * by (by rewrite <- app_assoc). destruct n; [by apply IH..|done].
Qed.

(** ** Resolving *)
Section resolving.
Variable max_links : nat.
Variable expanduser_name : string -> option path.
#[local] Notation resolve := (resolve_path_in_workspace max_links expanduser_name).
#[local] Notation stat := (stat max_links).
#[local] Notation lstat := (lstat max_links).

Lemma stat_canonical d l k : stat d l = Ok k -> canonical d k.
Proof. unfold FsSafety.stat. intros ([k' n] & E & [= <-])%res_bind_Ok. eapply walk_canonical; [apply canonical_root|done]. Qed.
Lemma stat_fixed d l : canonical d l -> stat d l = Ok l.
Proof. intros Hc. unfold FsSafety.stat. by rewrite (walk_fixed d true max_links [] l). Qed.
Lemma lstat_fixed d l : canonical d l -> lstat d l = Ok l.
Proof. intros Hc. unfold FsSafety.lstat. by rewrite (walk_fixed d false max_links [] l). Qed.

Lemma closest_existing_spec d fuel l anc : (length l <= fuel)%nat -> closest_existing max_links d fuel l = Ok (Some anc) ->
  exists s, l = (anc ++ s)%list /\ is_ok (lstat d anc) = true /\
    forall c rest, s = c :: rest -> exists e, lstat d (anc ++ [c]) = Raise e /\ is_class "FileNotFoundError" e = true.
Proof.
  revert l. induction fuel as [|fuel IH]; intros l Hl; cbn [closest_existing]; destruct (lstat d l) as [k|e] eqn:E.
  - intros [= <-]. exists []. rewrite app_nil_r, E. by split_and!.
  - by destruct (is_class _ e).
  - intros [= <-]. exists []. rewrite app_nil_r, E. by split_and!.
  - destruct (is_class "FileNotFoundError" e) eqn:Ec; [|done]. destruct l as [|c0 l0] eqn:El; [done|]. rewrite <- El in *. assert (l <> []) as Hne by (by rewrite El).
    clear El c0 l0. intros H. rewrite <- (parent_name l Hne) in Hl. rewrite length_app in Hl. cbn in Hl.
    destruct (IH (parent l) ltac:(lia) H) as (s & Hs & Hok & Hf). exists (s ++ [name_of l])%list.
    split; [by rewrite app_assoc, <- Hs, (parent_name l Hne)|]. split; [done|]. intros c rest. destruct s as [|c' s].
    + intros [= <- <-]. rewrite app_nil_r in Hs. rewrite <- Hs, (parent_name l Hne). by exists e.
    + intros [= <- _]. by eapply Hf.
Qed.

(** What [resolve] gives for a path that need not exist: a location without links,
    and what is missing below it. *)
Definition rooted (d : fs) (k : location) (s : list string) : Prop :=
  canonical d k /\ forall c rest, s = c :: rest -> is_dir_at d k = true /\ c <> ".." /\ d !! (k ++ [c])%list = None.
Lemma resolve_rooted d p root r : resolve d p root false = Ok r -> exists k s, r = (k ++ s)%list /\ rooted d k s.
Proof.
  unfold resolve_path_in_workspace. intros (base & _ & (q & _ & (r' & Hr & ([] & _ & [= <-])%res_bind_Ok)%res_bind_Ok)%res_bind_Ok)%res_bind_Ok.
  unfold resolve_candidate_path in Hr. apply res_bind_Ok in Hr as (anc & Ha & Hr). destruct anc as [anc|].
  2:{ injection Hr as <-. unfold closest_existing_path in Ha. exists [], []. exfalso. revert Ha. generalize (candidate_of base q). intros l.
      assert (forall fuel l, (length l <= fuel)%nat -> closest_existing max_links d fuel l <> Ok None) as H; [|by apply H].
      clear. induction fuel as [|fuel IH]; intros l Hl; cbn [closest_existing].
      - destruct l; [|cbn in Hl; lia]. unfold FsSafety.lstat. by rewrite walk_nil.
      - destruct (lstat d l) eqn:E; [done|]. destruct (is_class _ e); [|done]. destruct l as [|c l]; [unfold FsSafety.lstat in E; by rewrite walk_nil in E|].
        apply IH. pose proof (parent_length (c :: l) ltac:(done)). lia. }
  destruct (resolve_strict max_links d anc) as [k|e] eqn:Ek; [|by destruct (is_os_error e)]. injection Hr as <-.
  apply closest_existing_spec in Ha as (s & Hs & _ & Hf); [|done]. rewrite Hs, drop_app_length. exists k, s. split; [done|].
  unfold resolve_strict in Ek. split; [by eapply stat_canonical|]. intros c rest E. destruct (Hf c rest E) as (e & He & Hcl).
  unfold FsSafety.stat in Ek. apply res_bind_Ok in Ek as ([k' n] & Ek & [= <-]). cbn [fst].
  unfold FsSafety.lstat in He. rewrite (walk_app d false max_links [] anc [c]), Ek in He by done. cbn [mbind res_bind fst snd] in He. rewrite walk_cons in He.
  destruct (is_dir_at d k'); cbn [negb] in He; [|by injection He as <-]. destruct (String.eqb_spec c ".."); [by rewrite walk_nil in He|].
  split_and!; try done. destruct (d !! (k' ++ [c])%list) as [[]|]; try done; by rewrite ?walk_nil in He.
Qed.
Lemma resolve_within d p root must_exist r : resolve d p root must_exist = Ok r ->
  exists base, normalize_workspace_root max_links expanduser_name d root = Ok base /\ base `prefix_of` r.
Proof.
  unfold resolve_path_in_workspace. intros (base & Hb & (q & _ & (r' & _ & ([] & Hp & [= <-])%res_bind_Ok)%res_bind_Ok)%res_bind_Ok)%res_bind_Ok.
  exists base. split; [done|]. apply raise_if_Ok in Hp. unfold is_relative_to in Hp. by case_bool_decide.
Qed.
Lemma resolve_existing d p root r : resolve d p root true = Ok r -> canonical d r.
Proof.
  unfold resolve_path_in_workspace. intros (base & Hb & (q & _ & (r' & Hr & ([] & _ & [= <-])%res_bind_Ok)%res_bind_Ok)%res_bind_Ok)%res_bind_Ok.
  unfold resolve_candidate_path, resolve_strict in Hr. destruct (stat d _) as [k|e] eqn:E; [|by destruct (negb _ && _)]. injection Hr as <-. by eapply stat_canonical.
Qed.

Lemma length_substring n m s : String.length (String.substring n m s) = Nat.min m (String.length s - n).
Proof. revert n m. induction s as [|c s IH]; intros [|n] [|m]; cbn; rewrite ?IH, ?Nat.sub_0_r; try done; lia. Qed.
Lemma substring_whole n s : (String.length s <= n)%nat -> String.substring 0 n s = s.
Proof. revert n. induction s as [|c s IH]; intros [|n] Hn; cbn in *; try done; [lia|]. by rewrite IH by lia. Qed.

(** what is read lies in the workspace. When [read_bytes_limited] returns, the
    bytes are the whole of one file, at most [max_bytes] long, and that file lies
    under the resolved workspace root, on a way that is directories all along: no
    link of the path, of the workspace or of [..] leads out. *)
Theorem read_confined d p root max_bytes data : read_bytes_limited max_links expanduser_name d p root max_bytes = Ok data ->
  exists base k mode, normalize_workspace_root max_links expanduser_name d root = Ok base /\ base `prefix_of` k /\ canonical d k /\
    d !! k = Some (File data mode) /\ Z.of_nat (String.length data) <= max_bytes.
Proof.
  unfold read_bytes_limited. intros ([] & Hm & (k & Hk & (dat & Hd & ([] & Hl & [= <-])%res_bind_Ok)%res_bind_Ok)%res_bind_Ok)%res_bind_Ok.
  apply raise_if_Ok in Hm, Hl. bool_to_prop. pose proof (resolve_existing _ _ _ _ Hk) as Hc. destruct (resolve_within _ _ _ _ _ Hk) as (base & Hb & Hp).
  unfold open_read in Hd. rewrite (stat_fixed d k Hc) in Hd. cbn [mbind res_bind] in Hd. destruct (d !! k) as [[content m| |]|] eqn:E; try done. injection Hd as <-.
  rewrite length_substring, Nat.sub_0_r in Hl. rewrite substring_whole in * by lia. exists base, k, m. split_and!; try done. lia.
Qed.
End resolving.

(** ** Making directories *)

(** A file system: every entry has a directory above it. *)
Definition well_formed (d : fs) : Prop := forall l n, d !! l = Some n -> l <> [] /\ is_dir_at d (parent l) = true.
Lemma missing_below d l s : well_formed d -> l <> [] -> d !! l = None -> d !! (l ++ s)%list = None.
Proof.
  intros Hw Hl Hm. induction s as [|c s IH] using rev_ind; [by rewrite app_nil_r|]. destruct (d !! (l ++ s ++ [c])%list) as [n|] eqn:E; [|done].
  apply Hw in E as [_ E]. rewrite app_assoc, parent_snoc in E. apply is_dir_lookup in E as [E|[m E]]; [by destruct l|congruence].
Qed.

Section making.
Variable max_links : nat.
Variable dir_mode : Z.
#[local] Notation stat := (stat max_links).
#[local] Notation os_mkdir := (os_mkdir max_links dir_mode).

(** The directories [k ++ s] down from [k]. *)
Fixpoint make_dirs (k : location) (s : list string) (d : fs) : fs :=
  match s with [] => d | c :: s => make_dirs (k ++ [c]) s (<[(k ++ [c])%list := Dir dir_mode]> d) end.
Lemma make_dirs_snoc k s c d : make_dirs k (s ++ [c]) d = <[(k ++ s ++ [c])%list := Dir dir_mode]> (make_dirs k s d).
Proof.
  revert k d. induction s as [|c' s IH]; intros k d; cbn [make_dirs app]; [done|]. rewrite IH, <- app_assoc. done.
Qed.
Lemma make_dirs_lookup k s d l : make_dirs k s d !! l = d !! l \/
  make_dirs k s d !! l = Some (Dir dir_mode) /\ exists s1, l = (k ++ s1)%list /\ s1 <> [] /\ s1 `prefix_of` s.
Proof.
  induction s as [|c s IH] using rev_ind; [by left|]. rewrite make_dirs_snoc. destruct (decide (l = (k ++ s ++ [c])%list)) as [->|Hne].
  - right. rewrite lookup_insert_eq. split; [done|]. exists (s ++ [c])%list. split_and!; [done|by destruct s|done].
  - rewrite lookup_insert_ne by done. destruct IH as [E|(E & s1 & -> & H1 & H2)]; [by left|]. right. split; [done|]. exists s1. split_and!; try done.
    by apply prefix_app_r.
Qed.
Lemma make_dirs_made k s s1 d : s1 <> [] -> s1 `prefix_of` s -> make_dirs k s d !! (k ++ s1)%list = Some (Dir dir_mode).
Proof.
  intros H1. induction s as [|c s IH] using rev_ind; [intros [x E]; by destruct s1|]. rewrite make_dirs_snoc. intros H2.
  destruct (prefix_snoc _ _ _ H2) as [->|H3]; [by rewrite lookup_insert_eq|]. rewrite lookup_insert_ne; [by apply IH|].
  intros E. apply app_inv_head in E. subst s1. apply prefix_length in H3. rewrite length_app in H3. cbn in H3. lia.
Qed.
Lemma make_dirs_keeps k s d l n : (forall s1, s1 <> [] -> s1 `prefix_of` s -> d !! (k ++ s1)%list = None) -> d !! l = Some n -> make_dirs k s d !! l = Some n.
Proof.
  intros Hm Hl. destruct (make_dirs_lookup k s d l) as [->|(_ & s1 & -> & H1 & H2)]; [done|]. rewrite Hm in Hl; done.
Qed.
Lemma make_dirs_dir k s d l : is_dir_at d l = true -> is_dir_at (make_dirs k s d) l = true.
Proof.
  intros [->|[m Hm]]%is_dir_lookup; [done|]. destruct (make_dirs_lookup k s d l) as [E|[E _]]; eapply lookup_is_dir; by rewrite E.
Qed.

(** What is missing below [k] *)
Lemma rooted_missing d k c s s1 : well_formed d -> rooted d k (c :: s) -> s1 <> [] -> s1 `prefix_of` c :: s -> d !! (k ++ s1)%list = None.
Proof.
  intros Hw [_ Hr] H1 [x Hx]. destruct s1 as [|c1 s1]; [done|]. injection Hx as <- ->. destruct (Hr c (s1 ++ x)%list eq_refl) as (_ & _ & Hn).
  replace (k ++ c :: s1)%list with ((k ++ [c]) ++ s1)%list by (by rewrite <- app_assoc). apply missing_below; [done|by destruct k|done].
Qed.
Lemma canonical_made d k s : well_formed d -> rooted d k s -> ".." ∉ s -> canonical (make_dirs k s d) (k ++ s).
Proof.
  intros Hw [Hc Hr] Hs. destruct s as [|c s]; [by rewrite app_nil_r|]. destruct (Hr c s eq_refl) as (Hk & _ & _).
  split.
  - destruct Hc. set_solver.
  - intros q Hq Hne. destruct (decide (k `prefix_of` q)) as [[s1 ->]|Hn].
    + destruct s1 as [|c1 s1]; [rewrite app_nil_r; by apply make_dirs_dir|]. eapply lookup_is_dir, make_dirs_made; [done|]. destruct Hq as [x Hx]. exists x.
      rewrite <- app_assoc in Hx. by apply app_inv_head in Hx.
    + apply make_dirs_dir. destruct (prefix_weak_total q k (k ++ c :: s) Hq ltac:(by eexists)) as [H|H]; [|done].
      destruct (decide (q = k)) as [->|]; [done|]. by apply (ca_dirs _ _ Hc).
  - right. exists (Dir dir_mode). split; [by apply make_dirs_made|done].
Qed.

Lemma os_mkdir_missing d k s c : well_formed d -> rooted d k (s ++ [c]) -> ".." ∉ (s ++ [c])%list ->
  os_mkdir (k ++ s ++ [c]) d = if bool_decide (s = []) then (Ok tt, <[(k ++ [c])%list := Dir dir_mode]> d) else (Raise FileNotFoundError, d).
Proof.
  intros Hw [Hc Hr] Hs. unfold FsSafety.os_mkdir. destruct (k ++ s ++ [c])%list eqn:E; [by destruct k, s|]. rewrite <- E. clear E.
  rewrite app_assoc, parent_snoc. unfold name_of. rewrite last_last. destruct s as [|c1 s]; cbn [app] in *.
  - rewrite app_nil_r, (stat_fixed max_links d k Hc). destruct (Hr c [] eq_refl) as (-> & Hne & Hm). cbn [negb].
    destruct (String.eqb_spec c ".."); [done|]. by rewrite Hm.
  - rewrite bool_decide_false by done. destruct (Hr c1 (s ++ [c])%list eq_refl) as (Hk & Hne & Hm). unfold FsSafety.stat.
    rewrite (walk_app d true max_links [] k (c1 :: s)), (walk_fixed d true max_links [] k Hc) by done. cbn [mbind res_bind fst snd app].
    rewrite walk_cons, Hk. cbn [negb]. destruct (String.eqb_spec c1 ".."); [done|]. by rewrite Hm.
Qed.
Lemma os_mkdir_made d k s c : well_formed d -> rooted d k (s ++ [c]) -> ".." ∉ (s ++ [c])%list -> s <> [] ->
  os_mkdir (k ++ s ++ [c]) (make_dirs k s d) = (Ok tt, make_dirs k (s ++ [c]) d).
Proof.
  intros Hw Hr Hs Hne. assert (rooted d k s) as Hr0.
  { destruct Hr as [Hc Hr]. split; [done|]. intros c1 rest ->. by apply (Hr c1 (rest ++ [c])%list). }
  assert (canonical (make_dirs k s d) (k ++ s)) as Hc by (apply canonical_made; [done|done|set_solver]).
  unfold FsSafety.os_mkdir. destruct (k ++ s ++ [c])%list eqn:E; [by destruct k, s|]. rewrite <- E. clear E.
  rewrite app_assoc, parent_snoc, (stat_fixed max_links _ _ Hc). unfold name_of. rewrite last_last.
  rewrite (lookup_is_dir _ (k ++ s) dir_mode) by (by apply make_dirs_made). cbn [negb]. destruct (String.eqb_spec c ".."); [set_solver|].
  rewrite make_dirs_snoc, <- app_assoc. destruct (make_dirs_lookup k s d (k ++ s ++ [c])) as [->|(_ & s1 & E & _ & Hp)].
  - destruct s as [|c1 s]; [done|]. cbn [app]. by rewrite (rooted_missing d k c1 (s ++ [c]) (c1 :: s ++ [c])).
  - apply app_inv_head in E. subst s1. apply prefix_length in Hp. rewrite length_app in Hp. cbn in Hp. lia.
Qed.
Lemma mkdir_makes fuel d k s : well_formed d -> rooted d k s -> ".." ∉ s -> s <> [] -> (length s <= fuel)%nat ->
  mkdir_parents max_links dir_mode fuel (k ++ s) d = (Ok tt, make_dirs k s d).
Proof.
  intros Hw. revert s. induction fuel as [|fuel IH]; intros s Hr Hs Hne Hl; [destruct s; cbn in Hl; [done|lia]|].
  destruct s as [|c s _] using rev_ind; [done|]. cbn [mkdir_parents]. rewrite (os_mkdir_missing d k s c) by done. case_bool_decide as Hs0; [by subst s|].
  cbn [is_class FileNotFoundError]. rewrite String.eqb_refl. destruct (k ++ s ++ [c])%list eqn:E; [by destruct k, s|]. rewrite <- E. clear E.
  rewrite app_assoc, parent_snoc, <- app_assoc. unfold mbind, st_bind. rewrite length_app in Hl. cbn in Hl.
  rewrite IH; [|destruct Hr as [Hc Hr]; split; [done|intros c1 rest ->; by apply (Hr c1 (rest ++ [c])%list)]|set_solver|done|lia].
  unfold mkdir_once. by rewrite (os_mkdir_made d k s c).
Qed.
Lemma mkdir_existing fuel d k : canonical d k -> is_dir_at d k = true -> mkdir_parents max_links dir_mode fuel k d = (Ok tt, d).
Proof.
  intros Hc Hk. assert (exist_ok max_links k FileExistsError d = (Ok tt, d)) as He by (unfold exist_ok, is_dir; by rewrite stat_fixed, Hk).
  assert (os_mkdir k d = (Raise FileExistsError, d)) as Hm.
  { unfold FsSafety.os_mkdir. destruct k as [|c0 k0] eqn:Ek; [done|]. rewrite <- Ek in *. assert (k <> []) as Hne by (by rewrite Ek). clear Ek c0 k0.
    rewrite (stat_fixed max_links d (parent k)) by (by apply canonical_parent). assert (is_dir_at d (parent k) = true) as ->.
    { apply (ca_dirs _ _ Hc); [exists [name_of k]; symmetry; by apply parent_name|]. intros E. pose proof (parent_length k Hne). rewrite E in *. lia. }
    cbn [negb]. destruct (_ =? _)%string; [done|]. rewrite (parent_name k Hne). destruct (is_dir_lookup d k Hk) as [|[m ->]]; done. }
  destruct fuel; cbn [mkdir_parents]; rewrite Hm; exact He.
Qed.
End making.

(** ** Writing *)
Section writing.
Variable max_links : nat.
Variable expanduser_name : string -> option path.
Variable dir_mode : Z.
#[local] Notation resolve := (resolve_path_in_workspace max_links expanduser_name).

(** Nothing but directories on the way to [r] is new. *)
Definition new_dirs (d d1 : fs) (r : location) : Prop := forall l,
  d1 !! l = d !! l \/ d !! l = None /\ d1 !! l = Some (Dir dir_mode) /\ l `prefix_of` r /\ l <> r.
Lemma new_dirs_refl d r : new_dirs d d r.
Proof. by left. Qed.
Lemma snoc_not_parent (l : location) : l <> [] -> parent l <> l.
Proof. intros Hl E. pose proof (parent_length l Hl). rewrite E in *. lia. Qed.

Lemma mkdir_new_dirs d k s : well_formed d -> rooted d k s -> ".." ∉ (k ++ s)%list ->
  exists d1, mkdir max_links dir_mode (parent (k ++ s)) d = (Ok tt, d1) /\ new_dirs d d1 (k ++ s) /\
    canonical d1 (parent (k ++ s)) /\ is_dir_at d1 (parent (k ++ s)) = true.
Proof.
  intros Hw Hr Hn. pose proof (proj1 Hr) as Hc. destruct s as [|c s _] using rev_ind.
  - rewrite app_nil_r. exists d. assert (is_dir_at d (parent k) = true) as Hd.
    { destruct (decide (k = [])) as [->|Hk]; [done|]. apply (ca_dirs _ _ Hc); [|by apply snoc_not_parent]. exists [name_of k]. symmetry. by apply parent_name. }
    split_and!; [|apply new_dirs_refl|by apply canonical_parent|done]. apply mkdir_existing; [by apply canonical_parent|done].
  - rewrite app_assoc, parent_snoc. assert (rooted d k s) as Hr0 by (split; [done|intros c1 rest ->; by apply ((proj2 Hr) c1 (rest ++ [c])%list)]).
    destruct (decide (s = [])) as [->|Hs].
    + rewrite app_nil_r. destruct (proj2 Hr c [] eq_refl) as (Hk & _). exists d. split_and!; [by apply mkdir_existing|apply new_dirs_refl|done|done].
    + exists (make_dirs dir_mode k s d). assert (".." ∉ s) as Hn0 by set_solver. split_and!.
      * unfold mkdir. apply mkdir_makes; try done. rewrite length_app. lia.
      * intros l. destruct (make_dirs_lookup dir_mode k s d l) as [E|(E & s1 & -> & H1 & H2)]; [by left|]. right. split_and!; [|done| |].
        -- destruct s as [|c1 s]; [done|]. by eapply rooted_missing.
        -- destruct H2 as [z ->]. exists (z ++ [c])%list. by rewrite <- !app_assoc.
        -- intros E'. rewrite <- app_assoc in E'. apply app_inv_head in E'. subst s1. apply prefix_length in H2. rewrite length_app in H2. cbn in H2. lia.
      * by apply canonical_made.
      * destruct s as [|c1 s]; [done|]. eapply lookup_is_dir. by apply make_dirs_made.
Qed.

Lemma resolve_canonical d q root x : canonical d q -> resolve d (mkPath true q) root true = Ok x -> x = q.
Proof.
  intros Hc. unfold resolve_path_in_workspace. intros (base & _ & (e & He & (r & Hr & ([] & _ & [= <-])%res_bind_Ok)%res_bind_Ok)%res_bind_Ok)%res_bind_Ok.
  assert (e = mkPath true q) as -> by (unfold expanduser in He; cbn in He; by injection He as <-).
  unfold resolve_candidate_path, candidate_of, resolve_strict in Hr. cbn [p_absolute p_parts] in Hr. rewrite (stat_fixed max_links d q Hc) in Hr. by injection Hr as <-.
Qed.
Lemma resolve_missing d k s root x : rooted d k s -> s <> [] -> resolve d (mkPath true (k ++ s)) root true <> Ok x.
Proof.
  intros [Hc Hr] Hs. unfold resolve_path_in_workspace. intros (base & _ & (e & He & (r & Hr' & _)%res_bind_Ok)%res_bind_Ok)%res_bind_Ok.
  assert (e = mkPath true (k ++ s)%list) as -> by (unfold expanduser in He; cbn in He; by injection He as <-).
  unfold resolve_candidate_path, candidate_of, resolve_strict, stat in Hr'. cbn [p_absolute p_parts] in Hr'. destruct s as [|c s]; [done|].
  destruct (Hr c s eq_refl) as (Hk & Hne & Hm). rewrite (walk_app d true max_links [] k (c :: s)), (walk_fixed d true max_links [] k Hc) in Hr' by done.
  cbn [mbind res_bind fst snd app] in Hr'. rewrite walk_cons, Hk in Hr'. cbn [negb] in Hr'. destruct (String.eqb_spec c ".."); [done|].
  by rewrite Hm in Hr'.
Qed.

(** The directory of the target, after it was made. *)
Lemma prepare_spec d k s root create x d1 : well_formed d -> rooted d k s -> ".." ∉ (k ++ s)%list ->
  prepare_atomic_write_parent max_links expanduser_name dir_mode (parent (k ++ s)) root create d = (x, d1) ->
  new_dirs d d1 (k ++ s) /\ forall q, x = Ok q -> q = parent (k ++ s) /\ canonical d1 q.
Proof.
  intros Hw Hr Hn. unfold prepare_atomic_write_parent. destruct create.
  - destruct (mkdir_new_dirs d k s Hw Hr Hn) as (d2 & Hm & Hnew & Hc & Hd). unfold mbind, st_bind. rewrite Hm. unfold Prelude.get, lift. intros [= <- <-].
    split; [done|]. intros q Hq. apply resolve_canonical in Hq; [|done]. by subst q.
  - unfold mbind, st_bind, mret, st_ret, Prelude.get, lift. intros [= <- <-]. split; [apply new_dirs_refl|]. intros q Hq.
    pose proof (resolve_existing max_links expanduser_name _ _ _ _ Hq) as Hc. split; [|done]. destruct s as [|c s _] using rev_ind.
    + rewrite app_nil_r in *. apply resolve_canonical in Hq; [done|]. apply canonical_parent, Hr.
    + rewrite app_assoc, parent_snoc in *. destruct (decide (s = [])) as [->|Hs]; [rewrite app_nil_r in *; by apply resolve_canonical in Hq; [|apply Hr]|].
      apply resolve_missing in Hq; [done| |done]. destruct Hr as [Hc' Hr]. split; [done|]. intros c1 rest ->. by apply (Hr c1 (rest ++ [c])%list).
Qed.

Lemma temp_name_differs n hex : atomic_temp_name n hex <> n.
Proof.
  intros E. apply (f_equal String.length) in E. unfold atomic_temp_name in E. rewrite !str_app_length in E. cbn in E. lia.
Qed.

(** Replaced as a whole, or as it was. *)
Lemma write_and_replace_spec fd n tmp data m o d x d2 : tmp <> n -> d !! (fd ++ [tmp])%list = None ->
  write_and_replace fd n tmp data m o d = (x, d2) ->
  match x with
  | Ok _ => o = Written /\ n <> "" /\ d2 = <[(fd ++ [n])%list := File data m]> d
  | Raise _ => d2 = d
  end.
Proof.
  intros Hne Hf. unfold write_and_replace, or_unlink, os_create, write_temp, os_replace, os_unlink. unfold mbind, st_bind. rewrite Hf.
  assert (fd ++ [tmp] <> fd ++ [n])%list as Hne' by (intros E; apply app_inv_head in E; congruence).
  destruct o as [|part e].
  - rewrite insert_insert_eq, lookup_insert_eq, lookup_insert_ne by done.
    assert (delete (fd ++ [tmp])%list (<[(fd ++ [tmp])%list := File data m]> d) = d) as Hdel by (by rewrite delete_insert_id).
    destruct (d !! (fd ++ [n])%list) as [[c0 m0|m0|t0]|]; try destruct (String.eqb_spec n ".."); try destruct (String.eqb_spec n "");
      rewrite ?lookup_insert_eq; intros [= <- <-]; by rewrite ?Hdel.
  - rewrite insert_insert_eq, lookup_insert_eq. intros [= <- <-]. by rewrite delete_insert_id.
Qed.

(** a write replaces one file of the workspace as a whole, or no file. Let the
    path resolve to [r], without [..], and the name of the temporary file be new.
    Then [r] lies under the resolved workspace root, and whatever happens while
    writing, all that is new besides are directories on the way to [r]: when
    [atomic_write_bytes] returns, the file at [r] has exactly the data, within the
    limit, and the given mode, and every other file, link and directory is as it
    was; when it raises, no file was changed, none is new, and the temporary file is
    gone. *)
Theorem atomic_write_whole d p root hex o data max_bytes create mode r x d2 : well_formed d ->
  resolve d p root false = Ok r -> ".." ∉ r -> (forall l, d !! (l ++ [atomic_temp_name (name_of r) hex])%list = None) ->
  atomic_write_bytes max_links expanduser_name dir_mode hex o p data root max_bytes create mode d = (x, d2) ->
  exists base d1, normalize_workspace_root max_links expanduser_name d root = Ok base /\ base `prefix_of` r /\ new_dirs d d1 r /\
  match x with
  | Ok r' => r' = r /\ o = Written /\ (forall n, max_bytes = Some n -> Z.of_nat (String.length data) <= n) /\
      exists m, d2 = <[r := File data m]> d1 /\ forall m', mode = Some m' -> m = m'
  | Raise _ => d2 = d1
  end.
Proof.
  intros Hw Hr Hn Hf. destruct (resolve_within _ _ _ _ _ _ _ Hr) as (base & Hb & Hp). destruct (resolve_rooted _ _ _ _ _ _ Hr) as (k & s & -> & Hk).
  unfold atomic_write_bytes. unfold lift at 1 2. unfold mbind at 1, st_bind at 1. destruct (raise_if _ _) as [[]|e1] eqn:E1; [|intros [= <- <-]; exists base, d; by split_and!; [..|apply new_dirs_refl|]].
  unfold mbind at 1, st_bind at 1. destruct (raise_if (match max_bytes with Some m => m <? Z.of_nat _ | None => false end) _) as [[]|e2] eqn:E2;
    [|intros [= <- <-]; exists base, d; by split_and!; [..|apply new_dirs_refl|]].
  unfold mbind at 1, st_bind at 1, Prelude.get. unfold mbind at 1, st_bind at 1, lift at 1. rewrite Hr.
  unfold mbind at 1, st_bind at 1. destruct (prepare_atomic_write_parent _ _ _ _ _ _ d) as [y d1] eqn:Ep. apply prepare_spec in Ep as [Hnew Hq]; [|done..].
  destruct y as [q|e3]; [|intros [= <- <-]; by exists base, d1]. destruct (Hq q eq_refl) as [-> Hcq]. unfold mbind at 1, st_bind at 1, open_directory_fd.
  rewrite (lstat_fixed max_links d1 _ Hcq). cbn [mbind res_bind]. destruct (is_dir_at d1 (parent (k ++ s))) eqn:Ed; [|intros [= <- <-]; by exists base, d1].
  unfold mbind at 1, st_bind at 1, Prelude.get. unfold mbind at 1, st_bind at 1.
  destruct (write_and_replace _ _ _ _ _ _ d1) as [z d3] eqn:Ew. assert (d1 !! (parent (k ++ s) ++ [atomic_temp_name (name_of (k ++ s)) hex])%list = None) as Hfresh.
  { destruct (Hnew (parent (k ++ s) ++ [atomic_temp_name (name_of (k ++ s)) hex])%list) as [->|(_ & _ & Hpre & Hne)]; [apply Hf|]. exfalso. apply Hne.
    destruct (decide (k ++ s = [])%list) as [Ek|Ek]; [rewrite Ek in Hpre; destruct Hpre as [z0 Hz]; by destruct (parent _)|].
    destruct Hpre as [z0 Hz]. pose proof (f_equal length Hz) as Hl. rewrite !length_app in Hl. cbn in Hl. pose proof (parent_length _ Ek) as Hl'.
    rewrite length_app in Hl'. destruct z0; [by rewrite app_nil_r in Hz|cbn in Hl; lia]. }
  apply write_and_replace_spec in Ew; [|apply temp_name_differs|done]. destruct z as [[]|e4]; [|intros [= <- <-]; by exists base, d1].
  destruct Ew as (Ho & Hname & ->). intros [= <- <-]. exists base, d1. split_and!; try done.
  - intros n ->. apply raise_if_Ok in E2. bool_to_prop. lia.
  - destruct (decide (k ++ s = [])%list) as [Ek|Ek]; [by rewrite Ek in Hname|]. rewrite (parent_name _ Ek). eexists. split; [done|].
    intros m' ->. unfold resolve_target_mode. done.
Qed.
End writing.

(** ** A workspace *)
Definition sample_fs : gmap (list string) node := list_to_map [
  (["srv"], Dir 493); (["srv"; "work"], Dir 493); (["srv"; "work"; "a.txt"], File "old" 420); (["srv"; "secret"], File "key" 384);
  (["srv"; "work"; "out"], Link (mkPath false [".."; "secret"])); (["srv"; "work"; "in"], Link (mkPath false ["a.txt"]))].
Definition sample_root : path := mkPath true ["srv"; "work"].
Definition no_home : string -> option path := fun _ => None.
Lemma sample_entries (P : list string -> node -> Prop) :
  P ["srv"] (Dir 493) -> P ["srv"; "work"] (Dir 493) -> P ["srv"; "work"; "a.txt"] (File "old" 420) -> P ["srv"; "secret"] (File "key" 384) ->
  P ["srv"; "work"; "out"] (Link (mkPath false [".."; "secret"])) -> P ["srv"; "work"; "in"] (Link (mkPath false ["a.txt"])) ->
  forall l n, sample_fs !! l = Some n -> P l n.
Proof.
  intros P1 P2 P3 P4 P5 P6 l n Hl. apply elem_of_list_to_map_2 in Hl.
  repeat (apply elem_of_cons in Hl as [[= -> ->]|Hl]; [assumption|]). by apply not_elem_of_nil in Hl.
Qed.
Lemma sample_well_formed : well_formed sample_fs.
Proof.
  refine (sample_entries (fun l _ => l <> [] /\ is_dir_at sample_fs (parent l) = true) _ _ _ _ _ _); (split; [discriminate|vm_compute; reflexivity]).
Qed.

Example links_are_followed :
  read_bytes_limited 40 no_home sample_fs (mkPath false ["in"]) sample_root 10 = Ok "old" /\
  read_bytes_limited 40 no_home sample_fs (mkPath false ["out"]) sample_root 10 =
    Raise (ValueError "path escapes workspace root: PosixPath('out')") /\
  read_bytes_limited 40 no_home sample_fs (mkPath false [".."; "secret"]) sample_root 10 =
    Raise (ValueError "path escapes workspace root: PosixPath('../secret')").
Proof. repeat split; vm_compute; reflexivity. Qed.

Lemma read_confined_witness : exists k mode, canonical sample_fs k /\ sample_fs !! k = Some (File "old" mode).
Proof.
  destruct (read_confined 40 no_home sample_fs (mkPath false ["in"]) sample_root 10 "old") as (base & k & mode & _ & _ & Hc & Hk & _).
  - vm_compute. reflexivity.
  - exists k, mode. split; [exact Hc|exact Hk].
Defined.

Definition sample_write (o : write_outcome) : res (list string) * gmap (list string) node :=
  atomic_write_bytes 40 no_home 493 "5e" o (mkPath false ["new"; "b.txt"]) "text" sample_root (Some 10) true (Some 384) sample_fs.
Lemma atomic_write_whole_witness : exists d1, new_dirs 493 sample_fs d1 ["srv"; "work"; "new"; "b.txt"] /\
  (sample_write Written).2 = <[["srv"; "work"; "new"; "b.txt"] := File "text" 384]> d1.
Proof.
  destruct (sample_write Written) as [x d2] eqn:E.
  destruct (atomic_write_whole 40 no_home 493 sample_fs (mkPath false ["new"; "b.txt"]) sample_root "5e" Written "text" (Some 10) true (Some 384)
    ["srv"; "work"; "new"; "b.txt"] x d2 sample_well_formed) as (base & d1 & _ & _ & Hnew & H).
  - vm_compute. reflexivity.
  - apply (bool_decide_unpack _). vm_compute. exact I.
  - intros l. destruct (sample_fs !! (l ++ [atomic_temp_name "b.txt" "5e"])%list) as [n|] eqn:En; [|exact En]. exfalso.
    assert (forall l n, sample_fs !! l = Some n -> List.last l "" <> atomic_temp_name "b.txt" "5e") as Hall
      by (refine (sample_entries (fun l _ => List.last l "" <> atomic_temp_name "b.txt" "5e") _ _ _ _ _ _); discriminate).
    apply (Hall _ _ En). apply last_last.
  - exact E.
  - exists d1. split; [exact Hnew|]. destruct x as [r'|e].
    + destruct H as (_ & _ & _ & m & -> & Hm). rewrite (Hm 384 eq_refl). reflexivity.
    + exfalso. assert (is_ok (sample_write Written).1 = true) as Hok by (vm_compute; reflexivity). rewrite E in Hok. discriminate Hok.
Defined.

(** a write can make directories outside the workspace. With [..] behind a name
    that does not exist, the check of [atomic_write_bytes] passes by the names
    alone; the parents are then made one by one, outside too, and only after that the
    write is refused as an escape: [/srv/evil] is there. *)
Theorem mkdir_escapes :
  let '(r, d2) := atomic_write_bytes 40 no_home 493 "5e" Written (mkPath false ["x"; ".."; ".."; "evil"; "f"]) "text" sample_root None true None
    sample_fs in
  r = Raise (ValueError "path escapes workspace root: PosixPath('/srv/work/x/../../evil')") /\
  sample_fs !! ["srv"; "evil"] = None /\ d2 !! ["srv"; "evil"] = Some (Dir 493).
Proof.
  destruct (atomic_write_bytes _ _ _ _ _ _ _ _ _ _ _ sample_fs) as [r d2] eqn:E.
  split; [change r with (r, d2).1; rewrite <- E; vm_compute; reflexivity|]. split; [vm_compute; reflexivity|].
  change d2 with (r, d2).2. rewrite <- E. vm_compute. reflexivity.
Qed.
