(* ===== verification/Urls.v ===== *)
(** * URLs and IP addresses: what is used of [urllib.parse] and [ipaddress]

    [urlsplit], its properties and [urlunsplit] for text that may have any
    characters; [ip_address] with the networks that [is_global] consults. Two
    tables of the Unicode database are parameters of those who use them: the check
    of a network location with characters above 127, and the encoding of such a host
    name. The result that others build on: what [urlunsplit] makes of the parts of
    a URL is split into the same parts. *)

From Stdlib Require Import ZArith Lia Ascii NArith Decimal DecimalString DecimalZ.
From S2P Require Import Prelude PyText Uuid.

(** ** Cutting text *)
Fixpoint partition (c : ascii) (s : string) : string * option string :=
  match s with
  | EmptyString => ("", None)
  | String x s => if (x =? c)%char then ("", Some s) else let '(a, b) := partition c s in (String x a, b)
  end.
(** [s.rpartition(c)]: [None] when there is none *)
Fixpoint rpartition (c : ascii) (s : string) : option string * string :=
  match s with
  | EmptyString => (None, "")
  | String x s =>
      match rpartition c s with
      | (Some a, b) => (Some (String x a), b)
      | (None, b) => if (x =? c)%char then (Some "", b) else (None, String x b)
      end
  end.
(** The longest beginning without characters of [p], and the rest. *)
Fixpoint break_at (p : ascii -> bool) (s : string) : string * string :=
  match s with
  | EmptyString => ("", "")
  | String x s' => if p x then ("", s) else let '(a, b) := break_at p s' in (String x a, b)
  end.
Fixpoint split_on (c : ascii) (s : string) : list string :=
  match s with
  | EmptyString => [""]
  | String x s =>
      if (x =? c)%char then "" :: split_on c s
      else match split_on c s with a :: l => String x a :: l | [] => [String x ""] end
  end.
Fixpoint filter_chars (p : ascii -> bool) (s : string) : string :=
  match s with EmptyString => "" | String x s => if p x then String x (filter_chars p s) else filter_chars p s end.
Definition one_of (l : string) (c : ascii) : bool := has_char c l.
Definition no_char (c : ascii) (s : string) : bool := negb (has_char c s).
Definition or_empty (o : option string) : string := default "" o.

Definition in_range (lo hi : N) (c : ascii) : bool := let n := N_of_ascii c in ((lo <=? n) && (n <=? hi))%N.
Definition is_digit : ascii -> bool := in_range 48 57.
Definition is_alpha (c : ascii) : bool := in_range 65 90 c || in_range 97 122 c.
Definition is_ascii (c : ascii) : bool := in_range 0 127 c.
Definition scheme_char (c : ascii) : bool := is_alpha c || is_digit c || one_of "+-." c.
Definition c0_or_space : ascii -> bool := in_range 0 32.
Definition unsafe_byte (c : ascii) : bool := in_range 9 10 c || in_range 13 13 c. (* tab, newline, return *)
Definition clean (c : ascii) : bool := negb (unsafe_byte c).

(** Decimal digits, at least one *)
Definition parse_dec (s : string) : option Z := option_map Z.of_uint (NilZero.uint_of_string s).
Fixpoint hex_val (s : string) (acc : Z) : option Z :=
  match s with
  | EmptyString => Some acc
  | String c s => match hex_value c with Some d => hex_val s (16 * acc + d) | None => None end
  end.

(** ** [ipaddress] *)
Inductive ip_addr := IPv4 (n : Z) | IPv6 (n : Z) (scope_id : option string).

Definition parse_octet (s : string) : option Z :=
  match parse_dec s with
  | Some n => if (3 <? String.length s)%nat then None
              else if negb (s =? "0")%string && String.prefix "0" s then None
              else if 255 <? n then None else Some n
  | None => None
  end.
Fixpoint join_numbers (width : Z) (l : list (option Z)) (acc : Z) : option Z :=
  match l with
  | [] => Some acc
  | Some n :: l => join_numbers width l (Z.lor (Z.shiftl acc width) n)
  | None :: _ => None
  end.
Definition parse_ipv4 (s : string) : option Z :=
  let octets := split_on "."%char s in
  if (length octets =? 4)%nat then join_numbers 8 (map parse_octet octets) 0 else None.

Definition parse_hextet (s : string) : option Z :=
  if is_empty s || (4 <? String.length s)%nat then None else hex_val s 0.
(** The last part may be an IPv4 address: two hextets *)
Definition hextets_of (parts : list string) : option (list (string * option Z)) :=
  let last := List.last parts "" in
  if has_char "."%char last then
    match parse_ipv4 last with
    | Some n => Some (map (fun p => (p, parse_hextet p)) (removelast parts) ++
                      [("x", Some (Z.land (Z.shiftr n 16) 65535)); ("x", Some (Z.land n 65535))])%list
    | None => None
    end
  else Some (map (fun p => (p, parse_hextet p)) parts).
(** The positions of the empty parts, the first and the last left out *)
Fixpoint empty_positions (i : nat) (l : list (string * option Z)) : list nat :=
  match l with
  | [] => []
  | [_] => []
  | (p, _) :: l => if is_empty p && (0 <? i)%nat then i :: empty_positions (S i) l else empty_positions (S i) l
  end.
Definition parse_ipv6_int (s : string) : option Z :=
  let parts := split_on ":"%char s in
  if (length parts <? 3)%nat then None
  else match hextets_of parts with
  | None => None
  | Some l =>
      if (9 <? length l)%nat then None
      else
        let first := is_empty (default ("", None) (head l)).1 in
        let last := is_empty (List.last l ("", None)).1 in
        match empty_positions 0 l with
        | [] => if negb (length l =? 8)%nat || first || last then None else join_numbers 16 (map snd l) 0
        | [k] =>
            let hi := if first then (k - 1)%nat else k in
            let lo := if last then (length l - k - 2)%nat else (length l - k - 1)%nat in
            if first && negb (hi =? 0)%nat || last && negb (lo =? 0)%nat || (8 <=? hi + lo)%nat then None
            else
              join_numbers 16 (map snd (take hi l) ++ repeat (Some 0) (8 - (hi + lo)) ++ map snd (drop (length l - lo) l)) 0
        | _ => None
        end
  end.
Definition parse_ipv6 (s : string) : option ip_addr :=
  if has_char "/"%char s then None
  else match partition "%"%char s with
  | (a, None) => option_map (fun n => IPv6 n None) (parse_ipv6_int a)
  | (a, Some z) => if is_empty z || has_char "%"%char z then None else option_map (fun n => IPv6 n (Some z)) (parse_ipv6_int a)
  end.
(** [ip_address(text)]; [None] for its [ValueError] *)
Definition ip_address (s : string) : option ip_addr :=
  match (if has_char "/"%char s then None else parse_ipv4 s) with
  | Some n => Some (IPv4 n)
  | None => parse_ipv6 s
  end.

(** A network: the bits of an address and how many of them count *)
Definition in_network (bits : Z) (n : Z) (net : Z * Z) : bool := Z.shiftr n (bits - net.2) =? Z.shiftr net.1 (bits - net.2).
Definition v4 (a b c d : Z) : Z := ((a * 256 + b) * 256 + c) * 256 + d.
Definition v6 (l : list Z) : Z := fold_left (fun acc h => acc * 65536 + h) l 0 * 65536 ^ (8 - Z.of_nat (length l)).
Definition private_v4 : list (Z * Z) :=
  [(v4 0 0 0 0, 8); (v4 10 0 0 0, 8); (v4 127 0 0 0, 8); (v4 169 254 0 0, 16); (v4 172 16 0 0, 12); (v4 192 0 0 0, 24);
   (v4 192 0 0 170, 31); (v4 192 0 2 0, 24); (v4 192 168 0 0, 16); (v4 198 18 0 0, 15); (v4 198 51 100 0, 24); (v4 203 0 113 0, 24);
   (v4 240 0 0 0, 4); (v4 255 255 255 255, 32)].
Definition private_v4_exceptions : list (Z * Z) := [(v4 192 0 0 9, 32); (v4 192 0 0 10, 32)].
Definition private_v6 : list (Z * Z) :=
  [(1, 128); (0, 128); (v6 [0; 0; 0; 0; 0; 65535], 96); (v6 [100; 65435; 1], 48); (v6 [256], 64); (v6 [8193], 23); (v6 [8193; 3512], 32);
   (v6 [8194], 16); (v6 [64512], 7); (v6 [65152], 10)].
Definition private_v6_exceptions : list (Z * Z) :=
  [(v6 [8193; 1; 0; 0; 0; 0; 0; 1], 128); (v6 [8193; 1; 0; 0; 0; 0; 0; 2], 128); (v6 [8193; 3], 32); (v6 [8193; 4; 274], 48);
   (v6 [8193; 32], 28); (v6 [8193; 48], 28)].
Definition is_private_v4 (n : Z) : bool := existsb (in_network 32 n) private_v4 && negb (existsb (in_network 32 n) private_v4_exceptions).
Definition is_private_v6 (n : Z) : bool := existsb (in_network 128 n) private_v6 && negb (existsb (in_network 128 n) private_v6_exceptions).
Definition is_global_v4 (n : Z) : bool := negb (in_network 32 n (v4 100 64 0 0, 10)) && negb (is_private_v4 n).
Definition ipv4_mapped (n : Z) : option Z := if Z.shiftr n 32 =? 65535 then Some (Z.land n (2 ^ 32 - 1)) else None.
Definition is_global (ip : ip_addr) : bool :=
  match ip with
  | IPv4 n => is_global_v4 n
  | IPv6 n _ => match ipv4_mapped n with Some m => is_global_v4 m | None => negb (is_private_v6 n) end
  end.

Example addresses :
  ip_address "169.254.169.254" = Some (IPv4 2852039166) /\ ip_address "01.2.3.4" = None /\ ip_address "2130706433" = None /\
  ip_address "::1" = Some (IPv6 1 None) /\ ip_address "1:2:3:4:5:6:7:8" = Some (IPv6 5192455318486707404433266433261576 None) /\
  ip_address "::ffff:1.2.3.4" = Some (IPv6 281470698652420 None) /\ ip_address "1::2::3" = None /\ ip_address "fe80::1%en0" = Some (IPv6 338288524927261089654018896841347694593 (Some "en0")) /\
  ip_address "::" = Some (IPv6 0 None) /\ ip_address "1::" = Some (IPv6 5192296858534827628530496329220096 None) /\ ip_address ":1:2:3:4:5:6:7" = None /\
  is_global (IPv4 2852039166) = false /\ is_global (IPv6 281473533782526 None) = false /\ is_global (IPv4 (v4 8 8 8 8)) = true /\
  is_global (IPv4 (v4 100 64 1 1)) = false /\ is_global (IPv6 1 None) = false /\ is_global (IPv6 (v6 [9734; 18176]) None) = true.
Proof. vm_compute. repeat split. Qed.

(** ** [urlsplit] *)
Record SplitResult := mkSplit { scheme : string; netloc : string; url_path : string; url_query : string; fragment : string }.

Section urlsplit.
(** [_checknetloc], for a network location with characters above 127 *)
Variable checknetloc : string -> bool.

Definition check_bracketed_host (h : string) : res unit :=
  if String.prefix "v" h then
    let '(version, rest) := partition "."%char (sdrop 1 h) in
    raise_if (negb (negb (is_empty version) && is_set (hex_val version 0) && negb (is_empty (or_empty rest))))
      (ValueError "IPvFuture address is invalid")
  else match ip_address h with
  | None => Raise (ValueError (py_repr h +:+ " does not appear to be an IPv4 or IPv6 address"))
  | Some (IPv4 _) => Raise (ValueError "An IPv4 address cannot be in brackets")
  | Some (IPv6 _ _) => Ok tt
  end.
Definition check_bracketed_netloc (netloc : string) : res unit :=
  let info := (rpartition "@"%char netloc).2 in
  match partition "["%char info with
  | (before, Some bracketed) =>
      raise_if (negb (is_empty before)) (ValueError "Invalid IPv6 URL");;
      let '(h, after) := partition "]"%char bracketed in
      raise_if (negb (is_empty (or_empty after)) && negb (String.prefix ":" (or_empty after))) (ValueError "Invalid IPv6 URL");;
      check_bracketed_host h
  | (_, None) => check_bracketed_host (partition ":"%char info).1
  end.
Definition check_netloc (netloc : string) : res unit :=
  let opened := has_char "["%char netloc in
  let closed := has_char "]"%char netloc in
  raise_if (xorb opened closed) (ValueError "Invalid IPv6 URL");;
  (if opened then check_bracketed_netloc netloc else Ok tt).

Definition split_scheme (url : string) : string * string :=
  match partition ":"%char url with
  | (String c s, Some rest) =>
      if is_alpha c && all_chars scheme_char (String c s) then (lower (String c s), rest) else ("", url)
  | _ => ("", url)
  end.
Definition split_netloc (url : string) : string * string :=
  match url with
  | String a (String b rest) => if (a =? "/")%char && (b =? "/")%char then break_at (one_of "/?#") rest else ("", url)
  | _ => ("", url)
  end.
Definition urlsplit (text : string) : res SplitResult :=
  let url := filter_chars clean (lstrip_by c0_or_space text) in
  let '(scheme, url) := split_scheme url in
  let '(netloc, url) := split_netloc url in
  check_netloc netloc;;
  let '(url, fragment) := partition "#"%char url in
  let '(path, query) := partition "?"%char url in
  raise_if (negb (all_chars is_ascii netloc) && negb (checknetloc netloc))
    (ValueError ("netloc " +:+ netloc +:+ " contains invalid characters under NFKC normalization"));;
  Ok (mkSplit scheme netloc path (or_empty query) (or_empty fragment)).
End urlsplit.

(** The properties of the result: [username is not None], [hostname], [port] *)
Definition has_userinfo (s : SplitResult) : bool := has_char "@"%char (netloc s).
Definition hostinfo (s : SplitResult) : string * option string :=
  let info := (rpartition "@"%char (netloc s)).2 in
  match partition "["%char info with
  | (_, Some bracketed) =>
      let '(h, rest) := partition "]"%char bracketed in (h, (partition ":"%char (or_empty rest)).2)
  | (_, None) => partition ":"%char info
  end.
Definition hostname (s : SplitResult) : option string :=
  let h := (hostinfo s).1 in
  if is_empty h then None
  else let '(a, zone) := partition "%"%char h in
       Some (lower a +:+ match zone with None => "" | Some z => "%" +:+ z end).
Definition port (s : SplitResult) : res (option Z) :=
  match (hostinfo s).2 with
  | None | Some EmptyString => Ok None
  | Some p =>
      match parse_dec p with
      | None => Raise (ValueError ("Port could not be cast to integer value as " +:+ py_repr p))
      | Some n => if 65535 <? n then Raise (ValueError "Port out of range 0-65535") else Ok (Some n)
      end
  end.
(** [urlunsplit], with a scheme and a network location *)
Definition urlunsplit (s : SplitResult) : string :=
  let path := url_path s in
  let path := if is_empty path || String.prefix "/" path then path else "/" +:+ path in
  scheme s +:+ "://" +:+ netloc s +:+ path +:+
  (if is_empty (url_query s) then "" else "?" +:+ url_query s) +:+ (if is_empty (fragment s) then "" else "#" +:+ fragment s).

Example splits : urlsplit (fun _ => true) " HTTPS://Ex.com:8443/a?b#c" = Ok (mkSplit "https" "Ex.com:8443" "/a" "b" "c") /\
  hostname (mkSplit "https" "u@[FE80::1%En]:80" "" "" "") = Some "fe80::1%En" /\ port (mkSplit "https" "u@[FE80::1%En]:80" "" "" "") = Ok (Some 80) /\
  urlunsplit (mkSplit "https" "ex.com" "/a" "" "c") = "https://ex.com/a#c".
Proof. vm_compute. repeat split. Qed.

(** ** Cutting and joining *)
Lemma all_chars_impl (p q : ascii -> bool) s : (forall c, p c = true -> q c = true) -> all_chars p s = true -> all_chars q s = true.
Proof. intros H. induction s as [|c s IH]; cbn; [done|]. intros [Hc Hs]%andb_prop. by rewrite H, IH. Qed.
Lemma has_char_app c a b : has_char c (a +:+ b) = has_char c a || has_char c b.
Proof. induction a as [|x a IH]; [done|]. change (String x a +:+ b) with (String x (a +:+ b)). cbn. by rewrite IH, orb_assoc. Qed.
Lemma no_char_all c s : has_char c s = false <-> all_chars (fun x => negb (x =? c)%char) s = true.
Proof.
  induction s as [|x s IH]; cbn; [done|]. rewrite orb_false_iff, IH, andb_true_iff, negb_true_iff. by rewrite Ascii.eqb_sym.
Qed.
Lemma partition_none c s : has_char c s = false -> partition c s = (s, None).
Proof.
  induction s as [|x s IH]; cbn; [done|]. intros [Hx Hs]%orb_false_iff. rewrite IH by done. by rewrite Ascii.eqb_sym, Hx.
Qed.
Lemma partition_app c a b : has_char c a = false -> partition c (a +:+ String c b) = (a, Some b).
Proof.
  induction a as [|x a IH]; intros Ha.
  - change ("" +:+ String c b) with (String c b). cbn. by rewrite Ascii.eqb_refl.
  - change (String x a +:+ String c b) with (String x (a +:+ String c b)). cbn in *. apply orb_false_iff in Ha as [Hx Ha]. by rewrite Ascii.eqb_sym, Hx, IH.
Qed.
Lemma rpartition_none c s : has_char c s = false -> rpartition c s = (None, s).
Proof.
  induction s as [|x s IH]; cbn; [done|]. intros [Hx Hs]%orb_false_iff. rewrite IH by done. by rewrite Ascii.eqb_sym, Hx.
Qed.
Lemma partition_spec c s a b : partition c s = (a, b) -> has_char c a = false /\ s = a +:+ match b with Some b => String c b | None => "" end.
Proof.
  revert a b. induction s as [|x s IH]; intros a b; cbn; [by intros [= <- <-]|]. destruct (Ascii.eqb_spec x c) as [->|Hne]; [by intros [= <- <-]|].
  destruct (partition c s) as [a' b'] eqn:E. intros [= <- <-]. destruct (IH a' b' eq_refl) as [H1 ->]. split; [|done]. cbn. rewrite H1.
  by destruct (Ascii.eqb_spec c x).
Qed.
Lemma break_at_spec p s a b : break_at p s = (a, b) -> s = a +:+ b /\ all_chars (fun c => negb (p c)) a = true /\
  (b = "" \/ exists c r, b = String c r /\ p c = true).
Proof.
  revert a b. induction s as [|x s IH]; intros a b; cbn; [intros [= <- <-]; split_and!; [done|done|by left]|].
  destruct (p x) eqn:Ex; [intros [= <- <-]; split_and!; [done|done|right; by do 2 eexists]|].
  destruct (break_at p s) as [a' b'] eqn:E. intros [= <- <-]. destruct (IH a' b' eq_refl) as (-> & H1 & H2). split_and!; [done| |done].
  cbn. by rewrite Ex.
Qed.
Lemma break_at_app p a b : all_chars (fun c => negb (p c)) a = true -> (b = "" \/ exists c r, b = String c r /\ p c = true) ->
  break_at p (a +:+ b) = (a, b).
Proof.
  intros Ha Hb. induction a as [|x a IH].
  - change ("" +:+ b) with b. destruct Hb as [->|(c & r & -> & Hc)]; [done|]. cbn. by rewrite Hc.
  - change (String x a +:+ b) with (String x (a +:+ b)). cbn in *. apply andb_prop in Ha as [Hx%negb_true_iff Ha]. by rewrite Hx, IH.
Qed.
Lemma filter_chars_id p s : all_chars p s = true -> filter_chars p s = s.
Proof. induction s as [|x s IH]; cbn; [done|]. intros [-> Hs]%andb_prop. by rewrite IH. Qed.
Lemma filter_chars_all p s : all_chars p (filter_chars p s) = true.
Proof. induction s as [|x s IH]; cbn; [done|]. destruct (p x) eqn:E; [|done]. cbn. by rewrite E. Qed.

(** ** The parts of a URL

    Parts that [urlsplit] can give for a scheme and a network location without
    user information and brackets. *)
Record plain_parts (s : SplitResult) : Prop := {
  pp_scheme : scheme s = "http" \/ scheme s = "https";
  pp_netloc : netloc s <> "" /\ all_chars (fun c => negb (one_of "/?#@[]" c)) (netloc s) = true /\ all_chars is_ascii (netloc s) = true;
  pp_path : (url_path s = "" \/ String.prefix "/" (url_path s) = true) /\ has_char "?"%char (url_path s) = false /\ has_char "#"%char (url_path s) = false;
  pp_query : has_char "#"%char (url_query s) = false;
  pp_clean : all_chars clean (netloc s) = true /\ all_chars clean (url_path s) = true /\ all_chars clean (url_query s) = true /\
    all_chars clean (fragment s) = true;
}.
Lemma all_no_char p c s : p c = true -> all_chars (fun x => negb (p x)) s = true -> has_char c s = false.
Proof.
  intros Hp Hs. apply no_char_all. eapply all_chars_impl; [|exact Hs]. intros x Hx. cbn in Hx. apply negb_true_iff. destruct (Ascii.eqb_spec x c) as [->|]; [|done].
  by rewrite Hp in Hx.
Qed.
Lemma check_netloc_plain n : has_char "["%char n = false -> has_char "]"%char n = false -> check_netloc n = Ok tt.
Proof. intros H1 H2. unfold check_netloc. by rewrite H1, H2. Qed.
Definition query_text (q : string) : string := if is_empty q then "" else "?" +:+ q.
Definition fragment_text (f : string) : string := if is_empty f then "" else "#" +:+ f.

Lemma partition_fragment a f : has_char "#"%char a = false -> partition "#"%char (a +:+ fragment_text f) = (a, if is_empty f then None else Some f).
Proof.
  intros Ha. unfold fragment_text. destruct f as [|c f]; cbn [is_empty]; [|by apply partition_app].
  assert (a +:+ "" = a) as -> by (clear; induction a as [|x a IH]; [done|exact (f_equal (String x) IH)]). by apply partition_none.
Qed.
Lemma partition_query a q : has_char "?"%char a = false -> partition "?"%char (a +:+ query_text q) = (a, if is_empty q then None else Some q).
Proof.
  intros Ha. unfold query_text. destruct q as [|c q]; cbn [is_empty]; [|by apply partition_app].
  assert (a +:+ "" = a) as -> by (clear; induction a as [|x a IH]; [done|exact (f_equal (String x) IH)]). by apply partition_none.
Qed.
Lemma url_delimiter c : one_of "/?#" c = true -> c = "/"%char \/ c = "?"%char \/ c = "#"%char.
Proof.
  unfold one_of, has_char. destruct (Ascii.eqb_spec c "/"%char); [by left|]. destruct (Ascii.eqb_spec c "?"%char); [by right; left|].
  destruct (Ascii.eqb_spec c "#"%char); [by right; right|done].
Qed.
Lemma rest_delimited path q f : path = "" \/ String.prefix "/" path = true ->
  path +:+ query_text q +:+ fragment_text f = "" \/ exists c r, path +:+ query_text q +:+ fragment_text f = String c r /\ one_of "/?#" c = true.
Proof.
  intros [->|Hp].
  - unfold query_text, fragment_text. destruct q as [|c q]; [destruct f as [|c f]; [by left|right; by do 2 eexists]|right; by do 2 eexists].
  - right. apply PyText.prefix_app in Hp as [b ->]. exists "/"%char. eexists. split; reflexivity.
Qed.
Lemma str_app_assoc3 (a b c : string) : (a +:+ b) +:+ c = a +:+ b +:+ c.
Proof. induction a as [|x a IH]; [done|exact (f_equal (String x) IH)]. Qed.

(** What [urlunsplit] joins, [urlsplit] takes apart. *)
Lemma urlsplit_urlunsplit ck s : plain_parts s -> urlsplit ck (urlunsplit s) = Ok s.
Proof.
  intros [Hs (Hn & Hn1 & Hn2) (Hp & Hp1 & Hp2) Hq (C1 & C2 & C3 & C4)]. destruct s as [sch net path q f]. cbn [scheme netloc url_path url_query fragment] in *.
  assert (urlunsplit (mkSplit sch net path q f) = sch +:+ ":" +:+ "//" +:+ net +:+ path +:+ query_text q +:+ fragment_text f) as ->.
  { unfold urlunsplit. cbn. destruct Hp as [->|Hp]; [done|]. rewrite Hp, orb_true_r. done. }
  set (rest := path +:+ query_text q +:+ fragment_text f). unfold urlsplit.
  assert (all_chars clean rest = true) as Cr.
  { unfold rest, query_text, fragment_text. rewrite !all_chars_app, C2. destruct (is_empty q), (is_empty f); by rewrite ?all_chars_app, ?C3, ?C4. }
  rewrite lstrip_id by (by destruct Hs as [-> | ->]). 
  assert (all_chars clean (sch +:+ ":" +:+ "//" +:+ net +:+ rest) = true) as Cu by (rewrite !all_chars_app, C1, Cr; by destruct Hs as [-> | ->]).
  rewrite (filter_chars_id _ _ Cu).
  assert (split_scheme (sch +:+ ":" +:+ "//" +:+ net +:+ rest) = (sch, "//" +:+ net +:+ rest)) as ->.
  { unfold split_scheme. change (":" +:+ "//" +:+ net +:+ rest) with (String ":"%char ("//" +:+ net +:+ rest)).
    rewrite partition_app by (by destruct Hs as [-> | ->]). by destruct Hs as [-> | ->]. }
  assert (split_netloc ("//" +:+ net +:+ rest) = (net, rest)) as ->.
  { change (split_netloc ("//" +:+ net +:+ rest)) with (break_at (one_of "/?#") (net +:+ rest)). apply break_at_app; [|by apply rest_delimited]. eapply all_chars_impl; [|exact Hn1]. intros c. unfold one_of. cbn.
    rewrite !negb_orb, !andb_true_iff. tauto. }
  rewrite check_netloc_plain by (eapply (all_no_char (one_of "/?#@[]")); [|exact Hn1]; done). cbn [mbind res_bind].
  unfold rest. rewrite <- str_app_assoc3, partition_fragment.
  2:{ rewrite has_char_app, Hp2. unfold query_text. destruct (is_empty q); [done|]. by rewrite has_char_app, Hq. }
  rewrite partition_query, Hn2 by done. cbn. destruct q, f; done.
Qed.

(** What [urlsplit] gives has plain parts, when the network location has neither
    user information nor brackets. *)
Lemma all_chars_partition p c s a b : partition c s = (a, b) -> all_chars p s = true -> all_chars p a = true /\ all_chars p (or_empty b) = true.
Proof.
  intros H%partition_spec. destruct H as [_ ->]. rewrite all_chars_app. intros [H1 H2]%andb_prop. split; [done|]. destruct b as [b|]; [|done]. cbn in H2.
  by apply andb_prop in H2 as [_ H2].
Qed.
Lemma urlsplit_plain ck text s : urlsplit ck text = Ok s -> scheme s = "http" \/ scheme s = "https" -> netloc s <> "" ->
  has_char "["%char (netloc s) = false -> has_char "]"%char (netloc s) = false -> has_userinfo s = false -> all_chars is_ascii (netloc s) = true ->
  plain_parts s.
Proof.
  unfold urlsplit. set (url := filter_chars _ _). assert (all_chars clean url = true) as C by apply filter_chars_all.
  destruct (split_scheme url) as [sch url1] eqn:E1. assert (all_chars clean url1 = true) as C1.
  { revert E1. unfold split_scheme. destruct (partition ":"%char url) as [a [b|]] eqn:Ep; [|destruct a; by intros [= _ <-]].
    pose proof (all_chars_partition _ _ _ _ _ Ep C) as [_ Hb]. destruct a; [by intros [= _ <-]|]. destruct (_ && _); by intros [= _ <-]. }
  destruct (split_netloc url1) as [net url2] eqn:E2. destruct (check_netloc net) as [[]|]; [|done]. cbn [mbind res_bind].
  destruct (partition "#"%char url2) as [url3 f] eqn:E3. destruct (partition "?"%char url3) as [path q] eqn:E4.
  destruct (raise_if _ _) as [[]|]; [|done]. cbn [mbind res_bind]. intros [= <-] Hs Hn B1 B2 Hu Ha. unfold has_userinfo in Hu. cbn in *.
  assert (exists r, url1 = "//" +:+ r /\ break_at (one_of "/?#") r = (net, url2)) as (r & -> & Eb).
  { revert E2. unfold split_netloc. destruct url1 as [|c1 [|c2 url1]]; try (intros [= <- _]; done).
    destruct (Ascii.eqb_spec c1 "/"); [|intros [= <- _]; done]. destruct (Ascii.eqb_spec c2 "/"); [|intros [= <- _]; done]. subst. cbn. eauto. }
  apply break_at_spec in Eb as (-> & Hnet & Hend). rewrite !all_chars_app in C1. apply andb_prop in C1 as [_ [Cn C2]%andb_prop].
  pose proof (all_chars_partition _ _ _ _ _ E3 C2) as [C3 C4]. pose proof (all_chars_partition _ _ _ _ _ E4 C3) as [C5 C6].
  apply partition_spec in E3 as [F3 ->]. apply partition_spec in E4 as [F4 ->]. rewrite has_char_app in F3. apply orb_false_iff in F3 as [F3 F5].
  split; cbn; try done.
  - split_and!; [done| |done]. clear -Hnet B1 B2 Hu. induction net as [|c net IH]; [done|]. cbn in *. apply andb_prop in Hnet as [H1 H2].
    apply orb_false_iff in B1 as [X1 Y1], B2 as [X2 Y2], Hu as [X3 Y3]. rewrite IH by done. rewrite andb_true_r. unfold one_of in *. cbn in *.
    revert H1. rewrite !negb_true_iff, !orb_false_iff. intros (A1 & A2 & A3 & _). rewrite (Ascii.eqb_sym c "@"), (Ascii.eqb_sym c "["), (Ascii.eqb_sym c "]"). by split_and!.
  - split_and!; [|done|done]. destruct path as [|c path]; [by left|]. right. destruct Hend as [Hend|(c' & r & Hend & Hc)]; [by destruct q|].
    assert (c = c') as -> by (destruct q, f; by injection Hend). apply url_delimiter in Hc as [-> | [-> | ->]]; [by destruct path|discriminate F4|discriminate F3].
  - destruct q as [q|]; done.
Qed.

(** ** Numbers in text *)
Lemma uint_digits d : all_chars is_digit (NilEmpty.string_of_uint d) = true.
Proof. induction d; cbn; rewrite ?IHd; reflexivity. Qed.
Lemma to_int_nonneg n : 0 <= n -> exists d, Z.to_int n = Pos d /\ d <> Nil.
Proof.
  intros Hn. destruct n as [|p|p]; [by exists (D0 Nil)| |lia]. exists (Pos.to_uint p). split; [done|]. apply DecimalPos.Unsigned.to_uint_nonnil.
Qed.
Lemma str_of_Z_digits n : 0 <= n -> all_chars is_digit (str_of_Z n) = true /\ str_of_Z n <> "".
Proof.
  intros Hn. unfold str_of_Z, NilZero.string_of_int. destruct (to_int_nonneg n Hn) as (d & -> & Hd). unfold NilZero.string_of_uint. destruct d; (split; [first [reflexivity|apply uint_digits]|done]).
Qed.
Lemma parse_dec_str n : 0 <= n -> parse_dec (str_of_Z n) = Some n.
Proof.
  intros Hn. unfold str_of_Z, NilZero.string_of_int, parse_dec. destruct (to_int_nonneg n Hn) as (d & E & Hd). rewrite E. rewrite NilZero.usu by done. cbn [option_map].
  f_equal. rewrite <- (DecimalZ.of_to n), E. done.
Qed.

Lemma parse_dec_nonneg s n : parse_dec s = Some n -> 0 <= n.
Proof. unfold parse_dec. destruct (NilZero.uint_of_string s) as [u|]; [|done]. intros [= <-]. unfold Z.of_uint. lia. Qed.

(** ** Closure properties *)
Lemma all_chars_lstrip p q s : all_chars q s = true -> all_chars q (lstrip_by p s) = true.
Proof. induction s as [|c s IH]; cbn; [done|]. intros [Hc Hs]%andb_prop. destruct (p c); [by apply IH|]. cbn. by rewrite Hc, Hs. Qed.
Lemma all_chars_rstrip p q s : all_chars q s = true -> all_chars q (rstrip_by p s) = true.
Proof.
  induction s as [|c s IH]; cbn; [done|]. intros [Hc Hs]%andb_prop. specialize (IH Hs). destruct (rstrip_by p s); [destruct (p c); cbn; by rewrite ?Hc|].
  cbn in *. by rewrite Hc, IH.
Qed.
Lemma all_chars_strip p q s : all_chars q s = true -> all_chars q (strip_by p s) = true.
Proof. intros H. by apply all_chars_rstrip, all_chars_lstrip. Qed.
Lemma all_chars_map (f : ascii -> ascii) q s : (forall c, q c = true -> q (f c) = true) -> all_chars q s = true -> all_chars q (map_ascii f s) = true.
Proof. intros Hf. induction s as [|c s IH]; cbn; [done|]. intros [Hc Hs]%andb_prop. by rewrite Hf, IH. Qed.
Lemma all_chars_filter p q s : all_chars q s = true -> all_chars q (filter_chars p s) = true.
Proof. induction s as [|c s IH]; cbn; [done|]. intros [Hc Hs]%andb_prop. destruct (p c); [|by apply IH]. cbn. by rewrite Hc, IH. Qed.
Lemma all_chars_and p q s : all_chars p s = true -> all_chars q s = true -> all_chars (fun c => p c && q c) s = true.
Proof. induction s as [|c s IH]; cbn; [done|]. intros [-> Hp]%andb_prop [-> Hq]%andb_prop. by rewrite IH. Qed.
Lemma map_ascii_id f s : all_chars (fun c => (f c =? c)%char) s = true -> map_ascii f s = s.
Proof. induction s as [|c s IH]; cbn; [done|]. intros [->%Ascii.eqb_eq Hs]%andb_prop. by rewrite IH. Qed.
Lemma lower_fixed c : (lower_ascii (lower_ascii c) =? lower_ascii c)%char = true.
Proof. destruct c as [[] [] [] [] [] [] [] []]; reflexivity. Qed.
Lemma all_chars_lowered s : all_chars (fun c => (lower_ascii c =? c)%char) (lower s) = true.
Proof. unfold lower. induction s as [|c s IH]; cbn; [done|]. by rewrite lower_fixed, IH. Qed.
Lemma lower_lower s : lower (lower s) = lower s.
Proof. apply map_ascii_id, all_chars_lowered. Qed.

(** What [urlsplit] takes from the text *)
Lemma urlsplit_chars ck p text s : urlsplit ck text = Ok s -> all_chars p text = true -> all_chars p (netloc s) = true.
Proof.
  unfold urlsplit. intros H Hp. assert (all_chars p (filter_chars clean (lstrip_by c0_or_space text)) = true) as Hu by by apply all_chars_filter, all_chars_lstrip.
  destruct (split_scheme _) as [sch url1] eqn:E1. destruct (split_netloc url1) as [net url2] eqn:E2. destruct (check_netloc net) as [[]|]; [|done].
  cbn [mbind res_bind] in H. destruct (partition "#"%char url2) as [url3 f]. destruct (partition "?"%char url3) as [path q]. destruct (raise_if _ _) as [[]|]; [|done].
  injection H as <-. cbn [netloc]. assert (all_chars p url1 = true) as H1.
  { revert E1. unfold split_scheme. destruct (partition ":"%char _) as [a [b|]] eqn:Ep; [|destruct a; by intros [= _ <-]].
    pose proof (all_chars_partition _ _ _ _ _ Ep Hu) as [_ Hb]. destruct a; [by intros [= _ <-]|]. destruct (_ && _); by intros [= _ <-]. }
  revert E2. unfold split_netloc. destruct url1 as [|c1 [|c2 url1]]; try (by intros [= <- _]). destruct (_ && _); [|by intros [= <- _]].
  intros E2. apply break_at_spec in E2 as (-> & _ & _). cbn in H1. rewrite all_chars_app in H1. by apply andb_prop in H1 as [_ [_ [H1 _]%andb_prop]%andb_prop].
Qed.
Lemma urlsplit_scheme ck text s : urlsplit ck text = Ok s -> lower (scheme s) = scheme s.
Proof.
  unfold urlsplit. destruct (split_scheme _) as [sch url1] eqn:E1. destruct (split_netloc url1) as [net url2]. destruct (check_netloc net) as [[]|]; [|done].
  cbn [mbind res_bind]. destruct (partition "#"%char url2) as [url3 f]. destruct (partition "?"%char url3) as [path q]. destruct (raise_if _ _) as [[]|]; [|done].
  intros [= <-]. cbn [scheme]. revert E1. unfold split_scheme. destruct (partition ":"%char _) as [[|c a] [b|]]; try (by intros [= <- _]).
  destruct (_ && _); [|by intros [= <- _]]. intros [= <- _]. exact (lower_lower (String c a)).
Qed.
Lemma urlsplit_brackets ck text s : urlsplit ck text = Ok s -> has_char "["%char (netloc s) = false -> has_char "]"%char (netloc s) = false.
Proof.
  unfold urlsplit. destruct (split_scheme _) as [sch url1]. destruct (split_netloc url1) as [net url2]. unfold check_netloc. intros H Hb.
  destruct (has_char "["%char net) eqn:Eo.
  - cbn in H. destruct (has_char "]"%char net); [|done]. cbn in H. destruct (check_bracketed_netloc net); [|done]. cbn in H.
    destruct (partition "#"%char url2) as [url3 f]. destruct (partition "?"%char url3) as [path q]. destruct (raise_if _ _) as [[]|]; [|done]. injection H as <-. cbn in Hb. congruence.
  - destruct (has_char "]"%char net) eqn:Ec; [done|]. cbn in H. destruct (partition "#"%char url2) as [url3 f]. destruct (partition "?"%char url3) as [path q].
    destruct (raise_if _ _) as [[]|]; [|done]. by injection H as <-.
Qed.
