(* ===== verification/NetSafety.v ===== *)
(** * Network addresses a tool may use: [security/net_safety.py]

    Host names are normalised, a URL is checked and rewritten, its host compared
    with an allow list, and the addresses its name resolves to are checked. The
    results: a client that takes the accepted URL apart finds the scheme, host, port
    and path that were checked, when the host is not in brackets; what becomes of a
    host in brackets; and what the DNS check and the webhook allow list accept. *)

From Stdlib Require Import ZArith SpecFloat Lia Ascii.
From S2P Require Import Prelude PyFloat PyText Uuid Urls.

Section net_safety.
(** Of the Unicode database: the check of a network location, and the IDNA encoding
    of a host with characters above 127 *)
Variable checknetloc : string -> bool.
Variable to_ascii : string -> res string.
#[local] Notation urlsplit := (urlsplit checknetloc).

Definition is_metadata_ip (n : Z) : bool := n =? v4 169 254 169 254.
Definition DISALLOWED_HOSTNAMES : list string := ["localhost"].

(** [text.encode("idna")] *)
Definition label_ok (l : string) : bool := (0 <? String.length l)%nat && (String.length l <? 64)%nat.
Definition encode_idna (s : string) : res string :=
  if all_chars is_ascii s then
    let labels := split_on "."%char s in
    if negb (forallb label_ok (removelast labels)) then Raise (ValueError "label empty or too long")
    else if (64 <=? String.length (List.last labels ""))%nat then Raise (ValueError "label too long")
    else Ok s
  else to_ascii s.
Definition dot (c : ascii) : bool := (c =? ".")%char.
Definition normalize_hostname (hostname : string) : res string :=
  let normalized := rstrip_by dot (lower (strip hostname)) in
  raise_if (is_empty normalized) (ValueError "hostname must be non-empty");;
  raise_if (negb (all_chars (fun c => negb (is_space c)) normalized)) (ValueError "hostname must not contain whitespace");;
  match encode_idna normalized with
  | Raise (ValueError _) => Raise (ValueError "hostname must be valid IDNA")
  | r => r
  end.

Definition normalize_allow_domain (value : string) : res string :=
  let text := rstrip_by dot (lower (strip value)) in
  if is_empty text then Ok ""
  else if String.prefix "*." text then base ← normalize_hostname (sdrop 2 text); Ok ("*." +:+ base)
  else normalize_hostname text.
Fixpoint normalize_allowlist (l : list string) : res (list string) :=
  match l with [] => Ok [] | d :: l => d ← normalize_allow_domain d; l ← normalize_allowlist l; Ok (d :: l) end.

Definition name_ends_with (suffix s : string) : bool :=
  (String.length suffix <=? String.length s)%nat && (sdrop (String.length s - String.length suffix) s =? suffix)%string.
Definition entry_matches (hostname entry : string) : bool :=
  if is_empty entry then false
  else if String.prefix "*." entry then
    negb (hostname =? sdrop 2 entry)%string && name_ends_with ("." +:+ sdrop 2 entry) hostname
  else (hostname =? entry)%string.
Definition hostname_in_allowlist (hostname : string) (allowlist : list string) : bool := existsb (entry_matches hostname) allowlist.

Definition validate_ip_address (ip : ip_addr) (allow_private allow_metadata : bool) : res unit :=
  raise_if (match ip with IPv4 n => is_metadata_ip n && negb allow_metadata | _ => false end)
    (ValueError "metadata endpoints are blocked by default");;
  if allow_private then Ok tt
  else raise_if (negb (is_global ip)) (ValueError "non-global IP addresses are blocked by default").

Definition is_default_port (scheme : string) (port : Z) : bool :=
  (scheme =? "https")%string && (port =? 443) || (scheme =? "http")%string && (port =? 80).
Definition default_port_for_scheme (scheme : string) : Z := if (scheme =? "https")%string then 443 else 80.
Definition split_port_or_error (s : SplitResult) (context : string) : res (option Z) :=
  match port s with Ok p => Ok p | Raise _ => Raise (ValueError (context +:+ " has invalid port")) end.

(** The options of [validate_and_normalize_url] *)
Record url_options := mkUrlOptions {
  allowed_domains : option (list string);
  require_https : bool;
  allow_ip_literals : bool;
  allow_private_ips : bool;
  allow_metadata : bool;
}.
Definition default_options (allowed : option (list string)) : url_options := mkUrlOptions allowed true false false false.

Definition check_scheme (o : url_options) (scheme : string) : res unit :=
  if require_https o then raise_if (negb (scheme =? "https")%string) (ValueError "url must use https")
  else raise_if (negb (bool_decide (scheme ∈ ["http"; "https"]))) (ValueError "url must use http(s)").
Definition check_host (o : url_options) (host : string) : res unit :=
  raise_if (bool_decide (host ∈ DISALLOWED_HOSTNAMES)) (ValueError ("hostname is not allowed: " +:+ py_repr host));;
  allowlist ← match allowed_domains o with None => Ok None | Some l => l ← normalize_allowlist l; Ok (Some l) end;
  match ip_address host with
  | Some ip =>
      raise_if (negb (allow_ip_literals o)) (ValueError "IP literals are not allowed in URLs");;
      raise_if (is_set allowlist) (ValueError "IP literals are not allowed when allowed_domains is configured");;
      validate_ip_address ip (allow_private_ips o) (allow_metadata o)
  | None =>
      raise_if (match allowlist with Some l => negb (hostname_in_allowlist host l) | None => false end)
        (ValueError ("hostname is not in allowed_domains: " +:+ py_repr host))
  end.
Definition netloc_of (scheme host : string) (port : option Z) : string :=
  match port with
  | Some p => if is_default_port scheme p then host else host +:+ ":" +:+ str_of_Z p
  | None => host
  end.
Definition validate_and_normalize_url (o : url_options) (url : string) : res string :=
  split ← urlsplit (strip url);
  let scheme := lower (scheme split) in
  check_scheme o scheme;;
  match hostname split with
  | None => Raise (ValueError "url must include a host")
  | Some h =>
      raise_if (has_userinfo split) (ValueError "url must not include credentials");;
      host ← normalize_hostname h;
      check_host o host;;
      port ← split_port_or_error split "url";
      Ok (urlunsplit (mkSplit scheme (netloc_of scheme host port) (url_path split) (url_query split) (fragment split)))
  end.

Definition hostname_matches_allowlist (hostname : string) (allowlist : list string) : res bool :=
  host ← normalize_hostname hostname; l ← normalize_allowlist allowlist; Ok (hostname_in_allowlist host l).

(** ** Webhook targets *)
Record webhook_target := mkTarget { tg_scheme : string; tg_host : string; tg_port : Z; tg_path : string; tg_query : string; tg_fragment : string }.
Fixpoint count_char (c : ascii) (s : string) : nat :=
  match s with EmptyString => 0 | String x s => (if (x =? c)%char then 1 else 0) + count_char c s end.
Definition target_host (raw_host : string) : res string :=
  if has_char "*"%char raw_host then
    raise_if (negb (count_char "*"%char raw_host =? 1)%nat || negb (String.prefix "*." raw_host))
      (ValueError "webhook target wildcard must use a leading '*.' prefix");;
    base ← normalize_hostname (sdrop 2 raw_host);
    raise_if (no_char "."%char base) (ValueError "wildcard webhook targets must include at least two labels");;
    Ok ("*." +:+ base)
  else
    host ← normalize_hostname raw_host;
    raise_if (is_set (ip_address host)) (ValueError "IP literals are not allowed in webhook target allowlists");;
    Ok host.
Definition normalize_webhook_target (target : string) : res webhook_target :=
  split ← urlsplit (strip target);
  let scheme := lower (scheme split) in
  raise_if (negb (scheme =? "https")%string) (ValueError "webhook target must use https");;
  match hostname split with
  | None => Raise (ValueError "webhook target must include a host")
  | Some h =>
      raise_if (has_userinfo split) (ValueError "webhook target must not include credentials");;
      raise_if (negb (is_empty (fragment split))) (ValueError "webhook target must not include a fragment");;
      host ← target_host h;
      port ← split_port_or_error split "webhook target";
      Ok (mkTarget scheme host (default (default_port_for_scheme scheme) port) (url_path split) (url_query split) (fragment split))
  end.
Definition target_matches (scheme host : string) (port : Z) (s : SplitResult) (t : webhook_target) : bool :=
  (tg_scheme t =? scheme)%string && (tg_port t =? port) && (tg_path t =? url_path s)%string && (tg_query t =? url_query s)%string &&
  (tg_fragment t =? fragment s)%string && hostname_in_allowlist host [tg_host t].
Fixpoint matches_some (scheme host : string) (port : Z) (s : SplitResult) (allowlist : list string) : res bool :=
  match allowlist with
  | [] => Ok false
  | raw_target :: rest =>
      match normalize_webhook_target raw_target with
      | Raise (ValueError _) => matches_some scheme host port s rest
      | Raise e => Raise e
      | Ok t => if target_matches scheme host port s t then Ok true else matches_some scheme host port s rest
      end
  end.
Definition webhook_target_matches_allowlist (url : string) (allowlist : list string) : res bool :=
  match validate_and_normalize_url (default_options None) url with
  | Raise (ValueError _) => Ok false
  | Raise e => Raise e
  | Ok normalized_url =>
      split ← urlsplit normalized_url;
      match hostname split with
      | None => Ok false
      | Some h =>
          if negb (is_empty (fragment split)) then Ok false
          else
            let scheme := lower (scheme split) in
            host ← normalize_hostname h;
            port ← split_port_or_error split "url";
            matches_some scheme host (default (default_port_for_scheme scheme) port) split allowlist
      end
  end.

(** ** Resolution: what the resolver gives within the time limit; [None] when it does not *)
Fixpoint parse_ips (seen : list string) (texts : list string) : list ip_addr :=
  match texts with
  | [] => []
  | raw :: rest =>
      let text := (partition "%"%char (strip raw)).1 in
      if is_empty (strip raw) || bool_decide (text ∈ seen) then parse_ips seen rest
      else match ip_address text with
           | Some ip => ip :: parse_ips (text :: seen) rest
           | None => parse_ips (text :: seen) rest
           end
  end.
Definition resolve_host_ips (answer : option (res (list string))) : res (list ip_addr) :=
  match answer with
  | None => Raise (ValueError "dns resolution timed out")
  | Some r => texts ← r; Ok (parse_ips [] texts)
  end.
Fixpoint validate_all (ips : list ip_addr) (allow_private allow_metadata : bool) : res unit :=
  match ips with
  | [] => Ok tt
  | ip :: ips => validate_ip_address ip allow_private allow_metadata;; validate_all ips allow_private allow_metadata
  end.
Definition validate_dns_resolution (answer : option (res (list string))) (allow_private allow_metadata : bool) : res unit :=
  resolved ← resolve_host_ips answer;
  match resolved with
  | [] => Raise (ValueError "dns resolution returned no IP addresses")
  | _ => validate_all resolved allow_private allow_metadata
  end.
(** [resolver host port] is the answer of the resolver, or of [getaddrinfo]. *)
Definition validate_and_normalize_url_async (resolver : string -> Z -> option (res (list string))) (o : url_options) (resolve_dns : bool)
    (dns_timeout_s : spec_float) (url : string) : res string :=
  normalized ← validate_and_normalize_url o url;
  if negb resolve_dns then Ok normalized
  else
    raise_if (negb (isfinite dns_timeout_s)) (ValueError "dns_timeout_s must be finite");;
    raise_if (fle dns_timeout_s fzero) (ValueError "dns_timeout_s must be > 0");;
    split ← urlsplit normalized;
    match hostname split with
    | None => Raise (ValueError "url must include a host")
    | Some h =>
        host ← normalize_hostname h;
        if is_set (ip_address host) then Ok normalized
        else
          p ← port split;
          validate_dns_resolution (resolver host (default (if (lower (scheme split) =? "https")%string then 443 else 80) p))
            (allow_private_ips o) (allow_metadata o);;
          Ok normalized
    end.
End net_safety.

(** ** Concrete checks *)
Definition no_unicode : string -> res string := fun _ => Raise (ValueError "not modelled").
#[local] Notation validate o := (validate_and_normalize_url (fun _ => true) no_unicode o).
Definition lenient : url_options := mkUrlOptions None false true true false.
Example urls_checked :
  validate (default_options None) " HTTPS://Example.COM:443/a b?q#f " = Ok "https://example.com/a b?q#f" /\
  validate (default_options (Some ["*.example.com"])) "https://api.example.com/x" = Ok "https://api.example.com/x" /\
  validate (default_options (Some ["*.example.com"])) "https://example.com/x" =
    Raise (ValueError "hostname is not in allowed_domains: 'example.com'") /\
  validate (default_options None) "https://127.0.0.1/" = Raise (ValueError "IP literals are not allowed in URLs") /\
  validate (default_options None) "https://user@example.com/" = Raise (ValueError "url must not include credentials") /\
  validate lenient "http://169.254.169.254/" = Raise (ValueError "metadata endpoints are blocked by default").
Proof. vm_compute. repeat split. Qed.

(** ** Hosts *)
Section guard.
Variable checknetloc : string -> bool.
Variable to_ascii : string -> res string.
#[local] Notation validate := (validate_and_normalize_url checknetloc to_ascii).
#[local] Notation normalize := (normalize_hostname to_ascii).

(** Characters that a host keeps apart from the other parts of a URL *)
Definition host_char (c : ascii) : bool := is_ascii c && negb (one_of "/?#@[]:" c) && clean c.
Lemma host_char_lower c : host_char c = true -> host_char (lower_ascii c) = true.
Proof. destruct c as [[] [] [] [] [] [] [] []]; vm_compute; congruence. Qed.
Lemma host_char_netloc c : host_char c = true -> negb (one_of "/?#@[]" c) = true.
Proof. destruct c as [[] [] [] [] [] [] [] []]; vm_compute; congruence. Qed.
Lemma netloc_char_host c : is_ascii c && negb (one_of "/?#@[]" c) && clean c = true -> (c =? ":")%char = false -> host_char c = true.
Proof. destruct c as [[] [] [] [] [] [] [] []]; vm_compute; congruence. Qed.
Lemma digit_host_char c : is_digit c = true -> host_char c = true.
Proof. destruct c as [[] [] [] [] [] [] [] []]; vm_compute; congruence. Qed.

(** A host as [normalize_hostname] gives it *)
Record normal_host (h : string) : Prop := {
  nh_some : h <> "";
  nh_chars : all_chars host_char h = true;
  nh_lower : lower h = h;
  nh_space : all_chars (fun c => negb (is_space c)) h = true;
  nh_dot : rstrip_by dot h = h;
  nh_labels : encode_idna to_ascii h = Ok h;
}.
Lemma normalize_normal h h' : all_chars host_char h = true -> normalize h = Ok h' -> normal_host h'.
Proof.
  intros Hc. unfold normalize_hostname. set (n := rstrip_by dot (lower (strip h))).
  assert (all_chars host_char n = true) as Hn.
  { apply all_chars_rstrip, all_chars_map; [apply host_char_lower|]. by apply all_chars_strip. }
  intros ([] & H1 & ([] & H2 & H3)%res_bind_Ok)%res_bind_Ok. apply raise_if_Ok in H1, H2. apply negb_false_iff in H2.
  assert (all_chars is_ascii n = true) as Ha by (eapply all_chars_impl; [|exact Hn]; intros c Hh; unfold host_char in Hh; by bool_to_prop).
  assert (h' = n) as ->. { destruct (encode_idna to_ascii n) as [a|[]] eqn:E; try done. injection H3 as <-. unfold encode_idna in E. rewrite Ha in E. by repeat case_match; simplify_eq. }
  split; try done.
  - intros E. by rewrite E in H1.
  - apply map_ascii_id, all_chars_rstrip, all_chars_lowered.
  - apply rstrip_idemp.
  - destruct (encode_idna to_ascii n) as [a|[]]; congruence.
Qed.
Lemma normal_normalize h : normal_host h -> normalize h = Ok h.
Proof.
  intros [H1 H2 H3 H4 H5 H6]. unfold normalize_hostname, strip. rewrite (strip_by_id _ h H4), H3, H5. destruct (is_empty h) eqn:E; [by apply is_empty_spec in E|].
  cbn. by rewrite H4, H6.
Qed.
Lemma lower_zone h : lower h = h -> let '(a, zone) := partition "%"%char h in lower a +:+ match zone with None => "" | Some z => "%" +:+ z end = h.
Proof.
  intros Hl. destruct (partition "%"%char h) as [a z] eqn:E. apply partition_spec in E as [_ ->].
  assert (forall x y, lower (x +:+ y) = lower x +:+ lower y) as Happ by (intros x y; induction x as [|c x IH]; [done|exact (f_equal (String (lower_ascii c)) IH)]).
  rewrite Happ in Hl. assert (lower a = a) as ->; [|by destruct z]. clear -Hl. revert Hl.
  generalize (match z with Some b => String "%" b | None => "" end). intros b. generalize (lower b). revert b.
  induction a as [|c a IH]; [done|]. intros b y Hl. injection Hl as Hc Hl. cbn. rewrite Hc. f_equal. by eapply IH.
Qed.

(** The parts of the URL that is accepted: what a client finds in it *)
Section parts.
Variables (sch h path q f : string) (p : option Z).
Hypothesis (Hs : sch = "http" \/ sch = "https") (Hh : normal_host h) (Hp : forall n, p = Some n -> 0 <= n <= 65535).
#[local] Notation s := (mkSplit sch (netloc_of sch h p) path q f).
Lemma host_no_char c : one_of "/?#@[]:" c = true -> has_char c h = false.
Proof.
  intros Hc. apply (all_no_char (one_of "/?#@[]:")); [done|]. eapply all_chars_impl; [|apply (nh_chars _ Hh)]. intros x Hx. by apply andb_prop in Hx as [[_ Hx]%andb_prop _].
Qed.
Lemma netloc_shape : netloc_of sch h p = h \/ exists n, p = Some n /\ is_default_port sch n = false /\ netloc_of sch h p = h +:+ String ":" (str_of_Z n).
Proof. unfold netloc_of. destruct p as [n|]; [|by left]. destruct (is_default_port sch n) eqn:E; [by left|right; by exists n]. Qed.
Lemma netloc_no_char c : one_of "@[]" c = true -> has_char c (netloc_of sch h p) = false.
Proof.
  intros Hc. assert (has_char c h = false) as Hn by (apply host_no_char; revert Hc; destruct c as [[] [] [] [] [] [] [] []]; vm_compute; congruence).
  destruct netloc_shape as [-> |(n & Hpn & _ & ->)]; [done|]. rewrite has_char_app, Hn. cbn [has_char orb].
  destruct (str_of_Z_digits n) as [Hd _]; [by destruct (Hp n Hpn)|]. rewrite (all_no_char (one_of "@[]") c (str_of_Z n) Hc), orb_false_r.
  - revert Hc. destruct c as [[] [] [] [] [] [] [] []]; vm_compute; congruence.
  - eapply all_chars_impl; [|exact Hd]. intros x. destruct x as [[] [] [] [] [] [] [] []]; vm_compute; congruence.
Qed.
Lemma netloc_all P : (forall c, host_char c = true -> P c = true) -> P ":"%char = true -> all_chars P (netloc_of sch h p) = true.
Proof.
  intros HP Hc. assert (all_chars P h = true) as H1 by (eapply all_chars_impl; [exact HP|apply (nh_chars _ Hh)]).
  destruct netloc_shape as [-> |(n & Hpn & _ & ->)]; [done|]. rewrite all_chars_app, H1. cbn. rewrite Hc. cbn.
  destruct (str_of_Z_digits n) as [Hd _]; [by destruct (Hp n Hpn)|]. eapply all_chars_impl; [|exact Hd]. intros c Hd'. by apply HP, digit_host_char.
Qed.
Lemma parts_hostinfo : hostinfo s = (h, match p with Some n => if is_default_port sch n then None else Some (str_of_Z n) | None => None end).
Proof.
  unfold hostinfo. cbn [netloc]. rewrite rpartition_none by (by apply netloc_no_char). cbn [snd]. rewrite partition_none by (by apply netloc_no_char).
  unfold netloc_of. destruct p as [n|]; [destruct (is_default_port sch n)|]; try (by rewrite partition_none by (by apply host_no_char)).
  change (":" +:+ str_of_Z n) with (String ":" (str_of_Z n)). by rewrite partition_app by (by apply host_no_char).
Qed.
Lemma parts_hostname : hostname s = Some h.
Proof.
  unfold hostname. rewrite parts_hostinfo. cbn [fst]. destruct (is_empty h) eqn:E; [by apply is_empty_spec in E; destruct (nh_some _ Hh)|].
  pose proof (lower_zone h (nh_lower _ Hh)) as Hz. destruct (partition _ h). by rewrite Hz.
Qed.
Lemma parts_port : port s = Ok (match p with Some n => if is_default_port sch n then None else Some n | None => None end).
Proof.
  unfold port. rewrite parts_hostinfo. cbn [snd]. destruct p as [n|]; [|done]. destruct (is_default_port sch n); [done|].
  destruct (Hp n eq_refl). destruct (str_of_Z_digits n) as [_ Hne]; [done|]. destruct (str_of_Z n) eqn:E; [done|]. rewrite <- E, parse_dec_str by done.
  by rewrite (proj2 (Z.ltb_ge 65535 n)).
Qed.
Lemma parts_userinfo : has_userinfo s = false.
Proof. by apply netloc_no_char. Qed.
End parts.

(** ** What the allow list and the check of addresses accept *)
Definition listed (h e : string) : Prop := h = e \/ exists base pre, e = "*." +:+ base /\ h = pre +:+ "." +:+ base /\ pre +:+ "." <> "".
Lemma name_ends_with_spec x s : name_ends_with x s = true -> exists pre, s = pre +:+ x.
Proof.
  unfold name_ends_with. intros [Hl Hx]%andb_prop. apply Nat.leb_le in Hl. apply String.eqb_eq in Hx. exists (stake (String.length s - String.length x) s).
  rewrite <- Hx at 2. clear. generalize (String.length s - String.length x)%nat. intros n. revert n. induction s as [|c s IH]; intros [|n]; cbn; try done.
  exact (f_equal (String c) (IH n)).
Qed.
Lemma entry_matches_listed h e : entry_matches h e = true -> e <> "" /\ listed h e.
Proof.
  unfold entry_matches. destruct (is_empty e) eqn:Ee; [done|]. intros H. split; [by intros ->|]. destruct (String.prefix "*." e) eqn:Ep.
  - apply PyText.prefix_app in Ep as [base ->]. change (sdrop 2 ("*." +:+ base)) with base in H. right. apply andb_prop in H as [_ H]. apply name_ends_with_spec in H as [pre ->].
    exists base, pre. split_and!; try done. by destruct pre.
  - left. by apply String.eqb_eq.
Qed.
Lemma allowlist_spec l ns : normalize_allowlist to_ascii l = Ok ns -> forall e, e ∈ ns -> exists d, d ∈ l /\ normalize_allow_domain to_ascii d = Ok e.
Proof.
  revert ns. induction l as [|d l IH]; intros ns; cbn [normalize_allowlist]; [by intros [= <-] e He%not_elem_of_nil|].
  intros (e0 & Hd & (l' & Hl & [= <-])%res_bind_Ok)%res_bind_Ok e [->|He]%elem_of_cons; [exists d; split; [left|done]|].
  destruct (IH _ Hl e He) as (d' & Hin & Hd'). exists d'. split; [by right|done].
Qed.

(** A host that may be used, under the options *)
Definition address_allowed (allow_private allow_metadata : bool) (ip : ip_addr) : Prop :=
  (allow_private = true \/ is_global ip = true) /\ (allow_metadata = true \/ ip <> IPv4 (v4 169 254 169 254)).
Lemma validate_ip_spec ip ap am : validate_ip_address ip ap am = Ok tt <-> address_allowed ap am ip.
Proof.
  unfold validate_ip_address, address_allowed. set (b := match ip with IPv4 n => is_metadata_ip n && negb am | _ => false end).
  assert (b = true <-> am = false /\ ip = IPv4 (v4 169 254 169 254)) as Hb.
  { unfold b, is_metadata_ip. destruct ip as [n|n z]; [|naive_solver]. rewrite andb_true_iff, negb_true_iff, Z.eqb_eq. naive_solver. }
  destruct b; cbn [raise_if mbind res_bind].
  - split; [done|]. intros [_ H]. destruct (proj1 Hb eq_refl) as [-> ->]. naive_solver.
  - assert (am = true \/ ip <> IPv4 (v4 169 254 169 254)) as Hm by (destruct am; [by left|right; intros ->; discriminate (proj2 Hb (conj eq_refl eq_refl))]).
    destruct ap; [naive_solver|]. destruct (is_global ip); cbn; naive_solver.
Qed.
Record host_allowed (o : url_options) (h : string) : Prop := {
  ha_name : h <> "localhost";
  ha_address : forall ip, ip_address h = Some ip -> allow_ip_literals o = true /\ allowed_domains o = None /\
    address_allowed (allow_private_ips o) (allow_metadata o) ip;
  ha_listed : ip_address h = None -> forall l, allowed_domains o = Some l ->
    exists d e, d ∈ l /\ normalize_allow_domain to_ascii d = Ok e /\ e <> "" /\ listed h e;
}.
Lemma check_host_allowed o h : check_host to_ascii o h = Ok tt -> host_allowed o h.
Proof.
  unfold check_host. intros ([] & H1 & (l & Hl & H)%res_bind_Ok)%res_bind_Ok. apply raise_if_Ok in H1. case_bool_decide as Hin; [done|].
  split; [intros ->; apply Hin; left| |].
  - intros ip E. rewrite E in H. apply res_bind_Ok in H as ([] & H2 & ([] & H3 & H4)%res_bind_Ok). apply raise_if_Ok in H2, H3. apply negb_false_iff in H2.
    split; [done|]. split; [|by apply validate_ip_spec]. destruct (allowed_domains o); [|done]. by apply res_bind_Ok in Hl as (? & _ & [= <-]).
  - intros E l0 El. rewrite E in H. rewrite El in Hl. apply res_bind_Ok in Hl as (ns & Hns & [= <-]). apply raise_if_Ok in H. apply negb_false_iff in H.
    unfold hostname_in_allowlist in H. apply existsb_exists in H as (e & He & Hm). apply list_elem_of_In in He. apply entry_matches_listed in Hm as [Hne Hm].
    destruct (allowlist_spec _ _ Hns e He) as (d & Hd & Hde). by exists d, e.
Qed.

Lemma port_bounds s p n : port s = Ok p -> p = Some n -> 0 <= n <= 65535.
Proof.
  unfold port. destruct (hostinfo s).2 as [[|c t]|]; try (by intros [= <-]). destruct (parse_dec _) as [m|] eqn:E; [|done]. destruct (Z.ltb_spec 65535 m); [done|].
  intros [= <-] [= <-]. split; [|done]. by eapply parse_dec_nonneg.
Qed.

(** The accepted URL, from the parts of the given one *)
Lemma validate_parts o url u : all_chars is_ascii url = true -> has_char "["%char url = false -> validate o url = Ok u ->
  exists sch h p path q f, u = urlunsplit (mkSplit sch (netloc_of sch h p) path q f) /\ (sch = "http" \/ sch = "https") /\
    check_scheme o sch = Ok tt /\ normal_host h /\ (forall n, p = Some n -> 0 <= n <= 65535) /\ check_host to_ascii o h = Ok tt /\
    plain_parts (mkSplit sch (netloc_of sch h p) path q f).
Proof.
  intros Ha Hb. unfold validate_and_normalize_url. intros (s & Hs & H)%res_bind_Ok. apply res_bind_Ok in H as ([] & Hsch & H).
  rewrite (urlsplit_scheme _ _ _ Hs) in *. destruct (hostname s) as [h0|] eqn:Eh; [|done]. apply res_bind_Ok in H as ([] & Hu & H). apply raise_if_Ok in Hu.
  apply res_bind_Ok in H as (h & Hh & H). apply res_bind_Ok in H as ([] & Hc & H). apply res_bind_Ok in H as (p & Hp & [= <-]).
  assert (all_chars is_ascii (netloc s) = true) as Hna by (eapply urlsplit_chars; [done|]; by apply all_chars_strip).
  assert (has_char "["%char (netloc s) = false) as Hnb.
  { apply no_char_all. eapply urlsplit_chars; [done|]. apply all_chars_strip. by apply no_char_all. }
  pose proof (urlsplit_brackets _ _ _ Hs Hnb) as Hnb'.
  assert (scheme s = "http" \/ scheme s = "https") as Hss.
  { unfold check_scheme in Hsch. destruct (require_https o); apply raise_if_Ok in Hsch; apply negb_false_iff in Hsch; [right; by apply String.eqb_eq|].
    apply bool_decide_eq_true in Hsch. set_solver. }
  assert (netloc s <> "") as Hne by (intros E; unfold hostname, hostinfo in Eh; rewrite E in Eh; done).
  pose proof (urlsplit_plain _ _ _ Hs Hss Hne Hnb Hnb' Hu Hna) as Hplain.
  assert (all_chars host_char h0 = true) as Hh0.
  { unfold has_userinfo in Hu. unfold hostname, hostinfo in Eh. rewrite (rpartition_none _ _ Hu) in Eh. cbn [snd] in Eh. rewrite (partition_none _ _ Hnb) in Eh.
    destruct (partition ":"%char (netloc s)) as [a rest] eqn:Ep. cbn [fst] in Eh. destruct (is_empty a); [done|].
    assert (all_chars host_char a = true) as Hchars.
    { assert (all_chars (fun c => is_ascii c && negb (one_of "/?#@[]" c) && clean c) (netloc s) = true) as Hn.
      { apply all_chars_and; [apply all_chars_and; [done|apply Hplain]|apply Hplain]. }
      pose proof (all_chars_partition _ _ _ _ _ Ep Hn) as [Hn1 _]. apply partition_spec in Ep as [Hcolon _]. apply no_char_all in Hcolon.
      pose proof (all_chars_and _ _ _ Hn1 Hcolon) as Hn2. eapply all_chars_impl; [|exact Hn2]. intros c [Hc1 Hc2%negb_true_iff]%andb_prop. by apply netloc_char_host. }
    destruct (partition "%"%char a) as [b z] eqn:Ez. injection Eh as <-. pose proof (all_chars_partition _ _ _ _ _ Ez Hchars) as [Hb1 Hz1].
    rewrite all_chars_app. unfold lower. rewrite (all_chars_map _ _ _ host_char_lower Hb1). destruct z as [z|]; [|done]. by rewrite all_chars_app. }
  pose proof (normalize_normal _ _ Hh0 Hh) as Hnh. assert (port s = Ok p) as Hps by (unfold split_port_or_error in Hp; by destruct (port s); simplify_eq).
  assert (forall n, p = Some n -> 0 <= n <= 65535) as Hpb by (intros n; by apply port_bounds with s).
  exists (scheme s), h, p, (url_path s), (url_query s), (fragment s). split_and!; try done.
  destruct Hplain as [P1 _ P3 P4 (_ & C2 & C3 & C4)]. split; cbn [scheme netloc url_path url_query fragment]; try done.
  - split_and!.
    + intros E. destruct (netloc_shape (scheme s) h p Hpb) as [E'|(n & _ & _ & E')]; rewrite E in E'; [by destruct (nh_some _ Hnh)|by destruct h].
    + apply netloc_all; try done. apply host_char_netloc.
    + apply netloc_all; try done. intros c Hx. by apply andb_prop in Hx as [[Hx _]%andb_prop _].
  - split_and!; try done. apply netloc_all; try done. intros c Hx. by apply andb_prop in Hx as [_ Hx].
Qed.

(** What was accepted is accepted as it is. *)
Lemma accepted_parts o sch h path q f p : (sch = "http" \/ sch = "https") -> normal_host h -> (forall n, p = Some n -> 0 <= n <= 65535) ->
  check_scheme o sch = Ok tt -> check_host to_ascii o h = Ok tt -> plain_parts (mkSplit sch (netloc_of sch h p) path q f) ->
  let u := urlunsplit (mkSplit sch (netloc_of sch h p) path q f) in strip u = u -> validate o u = Ok u.
Proof.
  intros Hs Hh Hp Hsch Hc Hplain u Hst. pose proof (urlsplit_urlunsplit checknetloc _ Hplain) as E. unfold validate_and_normalize_url.
  rewrite Hst. unfold u at 1. rewrite E. cbn [mbind res_bind scheme]. assert (lower sch = sch) as -> by (by destruct Hs as [-> | ->]).
  rewrite Hsch. cbn [mbind res_bind]. rewrite (parts_hostname sch h path q f p Hh Hp), (parts_userinfo sch h path q f p Hh Hp). cbn [raise_if mbind res_bind].
  rewrite (normal_normalize h Hh). cbn [mbind res_bind]. rewrite Hc. cbn [mbind res_bind]. unfold split_port_or_error.
  rewrite (parts_port sch h path q f p Hh Hp). cbn [mbind res_bind url_path url_query fragment]. unfold u. do 3 f_equal. unfold netloc_of.
  destruct p as [n|]; [|done]. by destruct (is_default_port sch n) eqn:Ed; rewrite ?Ed.
Qed.

(** C31: a client that takes the accepted URL apart goes where the guard looked, when
    the given URL is ASCII text without an opening bracket ([brackets_lost] shows
    that this is needed). If such a URL is accepted, [urlsplit] of the result gives
    the scheme that was asked for, no credentials, a valid port, and a host in
    normal form that may be used: not localhost; as an address, only when addresses
    are allowed and no domains are listed, a global one unless private ones are
    allowed, and not the IPv4 metadata address unless that is allowed; as a name,
    equal to a listed domain or below a listed wildcard. If the result has no white
    space at its end, it is accepted as it is. *)
Theorem url_guard o url u : all_chars is_ascii url = true -> has_char "["%char url = false -> validate o url = Ok u ->
  exists s h, urlsplit checknetloc u = Ok s /\ hostname s = Some h /\ normalize h = Ok h /\ has_userinfo s = false /\ is_ok (port s) = true /\
    (scheme s = "https" \/ require_https o = false /\ scheme s = "http") /\ host_allowed o h /\
    (strip u = u -> validate o u = Ok u).
Proof.
  intros Ha Hb H. destruct (validate_parts o url u Ha Hb H) as (sch & h & p & path & q & f & -> & Hs & Hsch & Hh & Hp & Hc & Hplain).
  pose proof (urlsplit_urlunsplit checknetloc _ Hplain) as E.
  pose proof (parts_hostname sch h path q f p Hh Hp) as E1. pose proof (parts_port sch h path q f p Hh Hp) as E2.
  pose proof (parts_userinfo sch h path q f p Hh Hp) as E3. pose proof (normal_normalize h Hh) as E4.
  eexists _, h. split; [exact E|]. split_and!; try done.
  - by rewrite E2.
  - cbn [scheme]. unfold check_scheme in Hsch. destruct (require_https o); apply raise_if_Ok in Hsch; apply negb_false_iff in Hsch; [left; by apply String.eqb_eq|].
    destruct Hs as [->| ->]; [by right|by left].
  - by apply check_host_allowed.
  - intros Hst. by apply accepted_parts.
Qed.

(** ** Resolution *)
(** The text of an answer, as it is parsed *)
Definition answer_text (raw : string) : string := (partition "%"%char (strip raw)).1.
Lemma parse_ips_all seen texts raw ip : raw ∈ texts -> is_empty (strip raw) = false -> ip_address (answer_text raw) = Some ip ->
  answer_text raw ∈ seen \/ ip ∈ parse_ips seen texts.
Proof.
  intros Hin Hne Hip. revert seen. induction texts as [|r texts IH]; intros seen; [by apply not_elem_of_nil in Hin|].
  cbn [parse_ips]. fold (answer_text r). apply elem_of_cons in Hin as [->|Hin].
  - rewrite Hne. cbn [orb]. case_bool_decide; [by left|]. rewrite Hip. right. left.
  - specialize (IH Hin). destruct (is_empty (strip r) || bool_decide (answer_text r ∈ seen)); [apply IH|].
    destruct (IH (answer_text r :: seen)) as [[E|H]%elem_of_cons|H].
    + rewrite <- E, Hip. right. left.
    + by left.
    + destruct (ip_address (answer_text r)); right; [by right|done].
Qed.
Lemma validate_all_spec ips ap am : validate_all ips ap am = Ok tt -> forall ip, ip ∈ ips -> address_allowed ap am ip.
Proof.
  induction ips as [|i ips IH]; cbn [validate_all]; [by intros _ ip H%not_elem_of_nil|]. intros ([] & H1 & H2)%res_bind_Ok ip [->|H]%elem_of_cons; [|by apply IH].
  by apply validate_ip_spec.
Qed.

(** with DNS resolution, a name is accepted only when all its addresses are
    allowed. When the asynchronous check returns for a host that is a name, the
    resolver, asked for that host and the port of the URL, answered in time; at
    least one text of the answer is an address, and every one that is an address is
    allowed under the options. *)
Theorem resolution_guard resolver o timeout url u : all_chars is_ascii url = true -> has_char "["%char url = false ->
  validate_and_normalize_url_async checknetloc to_ascii resolver o true timeout url = Ok u ->
  validate o url = Ok u /\ exists s h p, urlsplit checknetloc u = Ok s /\ hostname s = Some h /\ port s = Ok p /\
    (ip_address h = None -> exists texts ip,
      resolver h (default (default_port_for_scheme (scheme s)) p) = Some (Ok texts) /\ ip ∈ parse_ips [] texts /\
      forall raw ip, raw ∈ texts -> is_empty (strip raw) = false -> ip_address (answer_text raw) = Some ip ->
        address_allowed (allow_private_ips o) (allow_metadata o) ip).
Proof.
  intros Ha Hb. unfold validate_and_normalize_url_async. intros (u' & Hu & H)%res_bind_Ok.
  destruct (validate_parts o url u' Ha Hb Hu) as (sch & h & p & path & q & f & -> & Hs & _ & Hh & Hp & _ & Hplain).
  pose proof (urlsplit_urlunsplit checknetloc _ Hplain) as E. rewrite E in H. cbn [negb] in H.
  apply res_bind_Ok in H as ([] & _ & ([] & _ & H)%res_bind_Ok). cbn [mbind res_bind] in H.
  rewrite (parts_hostname sch h path q f p Hh Hp), (parts_port sch h path q f p Hh Hp) in H. rewrite (normal_normalize h Hh) in H. cbn [mbind res_bind] in H.
  assert (forall x, (if is_set (ip_address h) then Ok (urlunsplit x) else
    validate_dns_resolution (resolver h (default (if (lower (scheme (mkSplit sch (netloc_of sch h p) path q f)) =? "https")%string then 443 else 80)
      (match p with Some n => if is_default_port sch n then None else Some n | None => None end))) (allow_private_ips o) (allow_metadata o);; Ok (urlunsplit x)) = Ok u ->
    u = urlunsplit x) as Heq.
  { intros x. destruct (is_set _); [by intros [= <-]|]. by intros ([] & _ & [= <-])%res_bind_Ok. }
  rewrite (Heq _ H). split; [done|]. eexists _, h, _. split; [exact E|]. split; [apply parts_hostname; done|]. split; [apply parts_port; done|].
  intros Hn. rewrite Hn in H. cbn [is_set] in H. apply res_bind_Ok in H as ([] & H & _). cbn [scheme] in *.
  assert (lower sch = sch) as Hl by (by destruct Hs as [-> | ->]). rewrite Hl in H. fold (default_port_for_scheme sch) in H.
  unfold validate_dns_resolution, resolve_host_ips in H. destruct (resolver h _) as [[texts|e]|]; try done. cbn [mbind res_bind] in H.
  destruct (parse_ips [] texts) as [|ip ips] eqn:Ei; [done|]. exists texts, ip. split; [done|]. rewrite Ei. split; [left|]. intros raw ip' Hr Hne Hip.
  rewrite <- Ei in H. destruct (parse_ips_all [] texts raw ip' Hr Hne Hip) as [Hx|Hx]; [by apply not_elem_of_nil in Hx|]. by eapply validate_all_spec.
Qed.

(** ** Webhooks *)
Lemma matches_some_spec sch h p s l b : matches_some checknetloc to_ascii sch h p s l = Ok b -> b = true ->
  exists raw t, raw ∈ l /\ normalize_webhook_target checknetloc to_ascii raw = Ok t /\ target_matches sch h p s t = true.
Proof.
  induction l as [|raw l IH]; cbn [matches_some]; [by intros [= <-]|]. destruct (normalize_webhook_target _ _ raw) as [t|[]] eqn:E; try done.
  - destruct (target_matches sch h p s t) eqn:Em; [intros _ _; exists raw, t; split; [left|done]|].
    intros H Hb. destruct (IH H Hb) as (r & t' & Hr & H'). exists r, t'. split; [by right|done].
  - intros H Hb. destruct (IH H Hb) as (r & t' & Hr & H'). exists r, t'. split; [by right|done].
Qed.

(** a webhook goes only to a listed target. When [webhook_target_matches_allowlist]
    says yes, the URL is one the guard accepts with its defaults, and it agrees with
    a valid entry of the list in scheme (https), port, path and query, has no
    fragment, and its host is the host of that entry or lies below its wildcard. *)
Theorem webhook_listed url l : all_chars is_ascii url = true -> has_char "["%char url = false ->
  webhook_target_matches_allowlist checknetloc to_ascii url l = Ok true ->
  exists u s h p raw t, validate (default_options None) url = Ok u /\ urlsplit checknetloc u = Ok s /\ hostname s = Some h /\ port s = Ok p /\
    raw ∈ l /\ normalize_webhook_target checknetloc to_ascii raw = Ok t /\ tg_scheme t = scheme s /\ scheme s = "https" /\
    tg_port t = default 443 p /\ tg_path t = url_path s /\ tg_query t = url_query s /\ fragment s = "" /\ listed h (tg_host t).
Proof.
  intros Ha Hb. unfold webhook_target_matches_allowlist. destruct (validate (default_options None) url) as [u|[]] eqn:Hu; try done.
  destruct (validate_parts _ url u Ha Hb Hu) as (sch & h & p & path & q & f & -> & Hs & Hsch & Hh & Hp & _ & Hplain).
  pose proof (urlsplit_urlunsplit checknetloc _ Hplain) as E. rewrite E. cbn [mbind res_bind]. rewrite (parts_hostname sch h path q f p Hh Hp).
  assert (sch = "https") as -> by (unfold check_scheme in Hsch; cbn in Hsch; apply raise_if_Ok in Hsch; apply negb_false_iff in Hsch; by apply String.eqb_eq).
  cbn [fragment]. destruct (is_empty f) eqn:Ef; [|done]. cbn [negb]. rewrite (normal_normalize h Hh). cbn [mbind res_bind]. unfold split_port_or_error.
  rewrite (parts_port "https" h path q f p Hh Hp). cbn [mbind res_bind]. intros H. apply matches_some_spec in H as (raw & t & Hr & Ht & Hm); [|done].
  unfold target_matches in Hm. cbn [scheme url_path url_query fragment] in Hm. repeat apply andb_prop in Hm as [Hm ?]. bool_to_prop.
  eexists _, _, h, _, raw, t. split; [done|]. split; [exact E|]. split; [by apply parts_hostname|]. split; [by apply parts_port|].
  cbn [scheme url_path url_query fragment]. apply is_empty_spec in Ef. subst f.
  match goal with Hx : hostname_in_allowlist h _ = true |- _ => unfold hostname_in_allowlist in Hx; cbn [existsb] in Hx; rewrite orb_false_r in Hx; apply entry_matches_listed in Hx as [_ Hx] end.
  split_and!; try done; by apply String.eqb_eq.
Qed.
(** ** Hosts in brackets *)
Section brackets.
Variables (o : url_options) (a b path : string).
#[local] Notation h := (a +:+ String ":" b).
Definition name_char (c : ascii) : bool := host_char c && negb (is_space c) && (lower_ascii c =? c)%char.
Definition bracket_char (c : ascii) : bool := name_char c || (c =? ":")%char.
(** A host in brackets: as the library takes it, with a colon, in normal form *)
Hypothesis (Ha : a <> "") (Hac : all_chars (fun c => name_char c && negb (c =? "%")%char) a = true) (Hbc : all_chars bracket_char b = true).
Hypothesis (Hbracket : check_bracketed_host h = Ok tt) (Hn : normalize h = Ok h).
Hypothesis (Hpath : path = "" \/ String.prefix "/" path = true)
  (Hpc : all_chars (fun c => negb (one_of "?#" c) && clean c && negb (is_space c)) path = true).

Lemma bracket_no_char c : one_of "/?#@[]" c = true -> has_char c h = false.
Proof.
  intros Hc. rewrite has_char_app. cbn [has_char].
  assert (bracket_char c = false) as Hx by (revert Hc; destruct c as [[] [] [] [] [] [] [] []]; vm_compute; congruence).
  assert (forall x, all_chars bracket_char x = true -> has_char c x = false) as H.
  { intros x Hb. apply (all_no_char (fun y => negb (bracket_char y))); [by rewrite Hx|]. eapply all_chars_impl; [|exact Hb]. intros y Hy. by rewrite negb_involutive. }
  rewrite (H b Hbc), H; [|eapply all_chars_impl; [|exact Hac]; intros x Hxx; unfold bracket_char; by apply andb_prop in Hxx as [-> _]].
  revert Hc. destruct c as [[] [] [] [] [] [] [] []]; vm_compute; congruence.
Qed.
Lemma bracket_all P : (forall c, name_char c = true -> P c = true) -> P ":"%char = true -> all_chars P h = true.
Proof.
  intros HP Hc. rewrite all_chars_app. cbn [all_chars]. rewrite Hc.
  rewrite (all_chars_impl (fun c => name_char c && negb (c =? "%")%char) P a); [|intros c [Hx _]%andb_prop; by apply HP|exact Hac].
  apply (all_chars_impl bracket_char); [|exact Hbc]. intros c [Hx|Hx]%orb_prop; [by apply HP|by apply Ascii.eqb_eq in Hx as ->].
Qed.
Lemma name_host c : name_char c = true -> host_char c = true.
Proof. by intros [[H _]%andb_prop _]%andb_prop. Qed.
Lemma path_no_char c : one_of "?#" c = true -> has_char c path = false.
Proof.
  intros Hc. apply (all_no_char (one_of "?#")); [done|]. eapply all_chars_impl; [|exact Hpc]. intros x Hx. by apply andb_prop in Hx as [[Hx _]%andb_prop _].
Qed.
Lemma path_clean : all_chars clean path = true.
Proof. eapply all_chars_impl; [|exact Hpc]. intros x Hx. by apply andb_prop in Hx as [[_ Hx]%andb_prop _]. Qed.
Lemma host_clean : all_chars clean h = true.
Proof. apply bracket_all; [|done]. intros c Hc%name_host. by apply andb_prop in Hc as [_ Hc]. Qed.
Lemma host_ascii : all_chars is_ascii h = true.
Proof. apply bracket_all; [|done]. intros c Hc%name_host. by apply andb_prop in Hc as [[Hc _]%andb_prop _]. Qed.

#[local] Notation net := ("[" +:+ h +:+ "]").
Lemma append_nil x : x +:+ "" = x.
Proof. clear. induction x as [|c x IH]; [done|exact (f_equal (String c) IH)]. Qed.
Lemma all_bracketed P x : P "["%char = true -> P "]"%char = true -> all_chars P x = true -> all_chars P ("[" +:+ x +:+ "]") = true.
Proof. intros H1 H2 H3. rewrite !all_chars_app, H3. cbn. by rewrite H1, H2. Qed.
Lemma check_netloc_brackets : check_netloc net = Ok tt.
Proof.
  assert (forall x, has_char "]" ("[" +:+ x +:+ "]") = true) as Hclosed by (intros x; rewrite !has_char_app; apply orb_true_r).
  assert (forall x, has_char "@" x = false -> has_char "@" ("[" +:+ x +:+ "]") = false) as Hat by (intros x Hx; by rewrite !has_char_app, Hx).
  unfold check_netloc, check_bracketed_netloc. rewrite Hclosed. change (has_char "[" net) with true. cbn [xorb raise_if mbind res_bind].
  rewrite rpartition_none by (by apply Hat, bracket_no_char). cbn [snd].
  change net with ("" +:+ String "[" (h +:+ String "]" "")). rewrite partition_app by done. cbn [is_empty negb raise_if mbind res_bind].
  rewrite partition_app by (by apply bracket_no_char). exact Hbracket.
Qed.
Lemma urlsplit_brackets_in : urlsplit checknetloc ("https://" +:+ net +:+ path) = Ok (mkSplit "https" net path "" "").
Proof.
  change ("https://" +:+ net +:+ path) with ("https" +:+ String ":" ("//" +:+ net +:+ path)). unfold urlsplit. rewrite lstrip_id by done.
  assert (all_chars clean net = true) as Cn by (by apply all_bracketed, host_clean).
  rewrite filter_chars_id by (rewrite all_chars_app; cbn [all_chars]; rewrite all_chars_app; by rewrite (all_chars_app _ net), Cn, path_clean).
  assert (split_scheme ("https" +:+ String ":" ("//" +:+ net +:+ path)) = ("https", "//" +:+ net +:+ path)) as ->.
  { unfold split_scheme. by rewrite partition_app. }
  assert (split_netloc ("//" +:+ net +:+ path) = (net, path)) as ->.
  { change (split_netloc ("//" +:+ net +:+ path)) with (break_at (one_of "/?#") (net +:+ path)). apply break_at_app.
    - apply all_bracketed; [done|done|]. apply bracket_all; [|done]. intros c Hc%name_host. revert Hc. destruct c as [[] [] [] [] [] [] [] []]; vm_compute; congruence.
    - destruct Hpath as [->|Hp]; [by left|right]. apply PyText.prefix_app in Hp as [p ->]. exists "/"%char. eexists. split; reflexivity. }
  rewrite check_netloc_brackets. cbn [mbind res_bind]. rewrite (partition_none "#"%char path), (partition_none "?"%char path) by (by apply path_no_char).
  assert (all_chars is_ascii net = true) as -> by (by apply all_bracketed, host_ascii). done.
Qed.
Lemma net_userinfo : has_char "@" net = false.
Proof. rewrite has_char_app, (has_char_app _ h). by rewrite bracket_no_char. Qed.
Lemma bracket_hostinfo : hostinfo (mkSplit "https" net path "" "") = (h, None).
Proof.
  unfold hostinfo. cbn [netloc]. rewrite rpartition_none by apply net_userinfo. cbn [snd].
  change net with ("" +:+ String "[" (h +:+ String "]" "")). rewrite partition_app by done. by rewrite partition_app by (by apply bracket_no_char).
Qed.
Lemma bracket_hostname : hostname (mkSplit "https" net path "" "") = Some h.
Proof.
  unfold hostname. rewrite bracket_hostinfo. cbn [fst]. destruct (is_empty h) eqn:E; [apply is_empty_spec in E; by destruct a|].
  assert (lower h = h) as Hl by (apply map_ascii_id, bracket_all; [by intros c [_ Hx]%andb_prop|done]).
  pose proof (lower_zone h Hl) as Hz. destruct (partition _ h). by rewrite Hz.
Qed.
Lemma plain_without_brackets : plain_parts (mkSplit "https" h path "" "").
Proof.
  split; cbn [scheme netloc url_path url_query fragment]; [by right| | |done|].
  - split_and!; [by destruct a| |by apply host_ascii]. apply bracket_all; [|done]. intros c Hc%name_host. by apply host_char_netloc.
  - split_and!; [done|by apply path_no_char|by apply path_no_char].
  - split_and!; [apply host_clean|apply path_clean|done|done].
Qed.

End brackets.
End guard.

(** ** Gaps *)
(** Further gaps. An IPv6 URL that is accepted as an address loses its brackets too:
    a client finds the host [2606] and no valid port in it. With private addresses
    allowed no IPv6 address is refused, also not the metadata address written as an
    IPv4-mapped one, which the code blocks as IPv4 even then. A host that is one
    number, which resolvers read as an IPv4 address (here 127.0.0.1), passes the
    default check as a name. *)
Example guard_gaps :
  (exists s, validate (mkUrlOptions None true true false false) "https://[2606:4700::1111]/x" = Ok "https://2606:4700::1111/x" /\
     urlsplit (fun _ => true) "https://2606:4700::1111/x" = Ok s /\ hostname s = Some "2606" /\ is_ok (port s) = false) /\
  (forall n zone am, validate_ip_address (IPv6 n zone) true am = Ok tt) /\
  (exists zone, ip_address "::ffff:169.254.169.254" = Some (IPv6 (65535 * 2 ^ 32 + v4 169 254 169 254) zone)) /\
  validate_ip_address (IPv4 (v4 169 254 169 254)) true false = Raise (ValueError "metadata endpoints are blocked by default") /\
  v4 127 0 0 1 = 2130706433 /\ validate (default_options None) "https://2130706433/x" = Ok "https://2130706433/x".
Proof.
  split; [eexists; split_and!; vm_compute; reflexivity|]. split; [done|]. split; [eexists; vm_compute; reflexivity|]. split_and!; vm_compute; reflexivity.
Qed.

Definition api_options : url_options := default_options (Some ["*.example.com"]).
Lemma url_guard_witness : exists s h, urlsplit (fun _ => true) "https://api.example.com/x" = Ok s /\ hostname s = Some h /\ host_allowed no_unicode api_options h.
Proof.
  destruct (url_guard (fun _ => true) no_unicode api_options " HTTPS://API.example.com:443/x" "https://api.example.com/x") as (s & h & H1 & H2 & _ & _ & _ & _ & H3 & _).
  - vm_compute. reflexivity.
  - vm_compute. reflexivity.
  - vm_compute. reflexivity.
  - exists s, h. split; [exact H1|]. split; [exact H2|exact H3].
Defined.
Definition sample_resolver : string -> Z -> option (res (list string)) := fun _ _ => Some (Ok ["8.8.8.8"; " 2606:4700::1111%0 "; "junk"]).
Lemma resolution_guard_witness : exists s h, urlsplit (fun _ => true) "https://api.example.com/x" = Ok s /\ hostname s = Some h.
Proof.
  destruct (resolution_guard (fun _ => true) no_unicode sample_resolver api_options (of_Z 1) "https://api.example.com/x" "https://api.example.com/x")
    as (_ & s & h & p & H1 & H2 & _).
  - vm_compute. reflexivity.
  - vm_compute. reflexivity.
  - vm_compute. reflexivity.
  - exists s, h. split; [exact H1|exact H2].
Defined.
Lemma webhook_listed_witness : exists raw, raw ∈ ["https://*.example.com/hook?a"] /\
  webhook_target_matches_allowlist (fun _ => true) no_unicode "https://x.example.com/hook?b" ["https://*.example.com/hook?a"] = Ok false.
Proof.
  destruct (webhook_listed (fun _ => true) no_unicode "https://X.example.com/hook?a" ["https://*.example.com/hook?a"])
    as (u & s & h & p & raw & t & _ & _ & _ & _ & Hr & _).
  - vm_compute. reflexivity.
  - vm_compute. reflexivity.
  - vm_compute. reflexivity.
  - exists raw. split; [exact Hr|vm_compute; reflexivity].
Defined.
