(* ===== verification/HttpTool.v ===== *)
(** * The tool [net.http]: [tools/impl/http.py]

    Arguments are validated, the URL goes through the guard of [NetSafety.v], and a
    loop sends the request and follows redirects that the guard accepts and that
    stay on one origin. The HTTP client is a parameter; the exchanges with it are
    kept in a log. The results: what is sent, to whom, and how often; that headers
    carry no line breaks; and how much of an answer is read. *)

From Stdlib Require Import ZArith SpecFloat Lia Ascii.
From S2P Require Import Prelude PyFloat PyText Models Serialization Truncation Urls NetSafety Decision Policy Tools.

(** ** [urllib.parse]: [urlparse], [urlunsplit] of any parts and [urljoin] *)
Definition uses_relative : list string :=
  [""; "ftp"; "http"; "gopher"; "nntp"; "imap"; "wais"; "file"; "https"; "shttp"; "mms"; "prospero"; "rtsp"; "rtspu"; "sftp"; "svn"; "svn+ssh"; "ws"; "wss"].
Definition uses_netloc : list string :=
  [""; "ftp"; "http"; "gopher"; "nntp"; "telnet"; "imap"; "wais"; "file"; "mms"; "https"; "shttp"; "snews"; "prospero"; "rtsp"; "rtspu"; "rsync";
   "svn"; "svn+ssh"; "sftp"; "nfs"; "git"; "git+ssh"; "ws"; "wss"].
Definition uses_params : list string :=
  [""; "ftp"; "hdl"; "prospero"; "http"; "imap"; "https"; "shttp"; "rtsp"; "rtspu"; "sip"; "sips"; "mms"; "sftp"; "tel"].

Definition urlunsplit_any (s : SplitResult) : string :=
  let url := url_path s in
  let url := if negb (is_empty (netloc s)) || negb (is_empty (scheme s)) && bool_decide (scheme s ∈ uses_netloc) && negb (String.prefix "//" url)
             then "//" +:+ netloc s +:+ (if is_empty url || String.prefix "/" url then url else "/" +:+ url) else url in
  let url := if is_empty (scheme s) then url else scheme s +:+ ":" +:+ url in
  let url := if is_empty (url_query s) then url else url +:+ "?" +:+ url_query s in
  if is_empty (fragment s) then url else url +:+ "#" +:+ fragment s.

(** The path, and its parameters when the last segment has some *)
Definition split_params (scheme path : string) : string * string :=
  if bool_decide (scheme ∈ uses_params) then
    match rpartition "/"%char path with
    | (Some before, last) => let '(a, p) := partition ";"%char last in (before +:+ "/" +:+ a, or_empty p)
    | (None, last) => let '(a, p) := partition ";"%char last in (a, or_empty p)
    end
  else (path, "").
Definition with_params (path params : string) : string := if is_empty params then path else path +:+ ";" +:+ params.

Definition drop_empty_inside (l : list string) : list string :=
  match l with
  | a :: b :: rest => a :: (List.filter (fun s => negb (is_empty s)) (removelast (b :: rest)) ++ [List.last (b :: rest) ""])%list
  | l => l
  end.
Definition join_segment (resolved : list string) (seg : string) : list string :=
  if (seg =? "..")%string then removelast resolved else if (seg =? ".")%string then resolved else (resolved ++ [seg])%list.
Definition join_path (base path : string) : string :=
  let base_parts := split_on "/"%char base in
  let base_parts := if is_empty (List.last base_parts "") then base_parts else removelast base_parts in
  let segments := if String.prefix "/" path then split_on "/"%char path else drop_empty_inside (base_parts ++ split_on "/"%char path)%list in
  let resolved := fold_left join_segment segments [] in
  let resolved := if bool_decide (List.last segments "" ∈ ["."; ".."]) then (resolved ++ [""])%list else resolved in
  let path := String.concat "/" resolved in
  if is_empty path then "/" else path.
Definition urljoin (checknetloc : string -> bool) (base url : string) : res string :=
  if is_empty base then Ok url
  else if is_empty url then Ok base
  else
    b ← urlsplit checknetloc base;
    u ← urlsplit checknetloc url;
    let sch := if is_empty (scheme u) then scheme b else scheme u in
    let '(bpath, bparams) := split_params (scheme b) (url_path b) in
    let '(path, params) := split_params sch (url_path u) in
    if negb (sch =? scheme b)%string || negb (bool_decide (sch ∈ uses_relative)) then Ok url
    else if negb (is_empty (netloc u)) then Ok (urlunsplit_any (mkSplit sch (netloc u) (with_params path params) (url_query u) (fragment u)))
    else if is_empty path && is_empty params
    then Ok (urlunsplit_any (mkSplit sch (netloc b) (with_params bpath bparams) (if is_empty (url_query u) then url_query b else url_query u) (fragment u)))
    else Ok (urlunsplit_any (mkSplit sch (netloc b) (with_params (join_path bpath path) params) (url_query u) (fragment u))).

Example joins : let join := urljoin (fun _ => true) "https://a.b/c/d;p?q" in
  map join ["g"; "./g/"; "/g"; "//g"; "?y"; "#s"; ";x"; ".."; "../../../g"; "g;x=1/../y"; "http://x/y"; "."; ""; "g//h"] =
  map Ok ["https://a.b/c/g"; "https://a.b/c/g/"; "https://a.b/g"; "https://g"; "https://a.b/c/d;p?y"; "https://a.b/c/d;p?q#s"; "https://a.b/c/;x"; "https://a.b/";
   "https://a.b/g"; "https://a.b/c/y"; "http://x/y"; "https://a.b/c/"; "https://a.b/c/d;p?q"; "https://a.b/c/g/h"].
Proof. vm_compute. reflexivity. Qed.

(** ** Text as bytes: [value.encode("utf-8")] *)
Fixpoint utf8 (s : string) : string :=
  match s with
  | EmptyString => ""
  | String c s =>
      let n := N_of_ascii c in
      if (n <? 128)%N then String c (utf8 s)
      else String (ascii_of_N (192 + n / 64)) (String (ascii_of_N (128 + n mod 64)) (utf8 s))
  end.
Definition byte_length (s : string) : Z := Z.of_nat (String.length s).
Definition utf8_len (value : string) : Z := byte_length (utf8 value).

(** ** Arguments *)
Definition DISALLOWED_REQUEST_HEADERS : list string :=
  ["connection"; "content-length"; "host"; "keep-alive"; "proxy-authenticate"; "proxy-authorization"; "te"; "trailer"; "transfer-encoding"; "upgrade"].
Definition MAX_HEADER_COUNT : nat := 50.
Definition MAX_HEADER_NAME_BYTES : Z := 256.
Definition MAX_HEADER_VALUE_BYTES : Z := 4096.
Definition MAX_TOTAL_HEADER_BYTES : Z := 8192.
Definition MAX_REDIRECTS : nat := 5.

Inductive http_method := GET | POST.
#[export] Instance http_method_eq_dec : EqDecision http_method.
Proof. solve_decision. Defined.
Definition method_str (m : http_method) : string := match m with GET => "GET" | POST => "POST" end.

Definition newline : ascii := ascii_of_N 10.
Definition return_char : ascii := ascii_of_N 13.
Definition has_newline (s : string) : bool := has_char newline s || has_char return_char s.

(** [type(value).__name__] of a JSON value *)
Definition json_type_name (v : json) : string :=
  match v with
  | JNull => "NoneType" | JBool _ => "bool" | JInt _ => "int" | JFloat _ => "float" | JStr _ => "str" | JArr _ => "list" | JObj _ => "dict"
  | JOpaque _ => "object"
  end.

Definition header_name (raw_name : string) : res string :=
  let name := strip raw_name in
  raise_if (is_empty name) (ValueError "header names must be non-empty");;
  raise_if (bool_decide (lower name ∈ DISALLOWED_REQUEST_HEADERS)) (ValueError ("header is not allowed: " +:+ py_repr name));;
  raise_if (has_newline name) (ValueError "header names must not contain newlines");;
  Ok name.
Definition header_value (raw_value : json) : res string :=
  match raw_value with
  | JStr s => raise_if (has_newline (strip s)) (ValueError "header values must not contain newlines");; Ok (strip s)
  | v => Raise (TypeError ("header values must be strings (got " +:+ json_type_name v +:+ ")"))
  end.
Fixpoint collect_headers (total_bytes : Z) (normalized : list (string * string)) (value : list (string * json)) : res (list (string * string)) :=
  match value with
  | [] => Ok normalized
  | (raw_name, raw_value) :: rest =>
      name ← header_name raw_name;
      value_str ← header_value raw_value;
      raise_if (MAX_HEADER_NAME_BYTES <? utf8_len name) (ValueError ("header name too long: " +:+ py_repr name));;
      raise_if (MAX_HEADER_VALUE_BYTES <? utf8_len value_str) (ValueError ("header value too long for " +:+ py_repr name));;
      let total_bytes := total_bytes + (utf8_len name + utf8_len value_str) in
      raise_if (MAX_TOTAL_HEADER_BYTES <? total_bytes) (ValueError "headers total size is too large");;
      collect_headers total_bytes (aset name value_str normalized) rest
  end.
Definition validate_headers (value : option (list (string * json))) : res (list (string * string)) :=
  match value with
  | None => Ok []
  | Some value =>
      raise_if (MAX_HEADER_COUNT <? length value)%nat (ValueError "headers may contain at most 50 entries");;
      collect_headers 0 [] value
  end.

Definition param_value (name : string) (raw_value : json) : res json :=
  match raw_value with
  | JFloat f => raise_if (negb (isfinite f)) (ValueError ("params value for " +:+ py_repr name +:+ " must be finite"));; Ok raw_value
  | JBool _ | JStr _ | JInt _ => Ok raw_value
  | v => Raise (TypeError ("params values must be str|int|float|bool (got " +:+ json_type_name v +:+ ")"))
  end.
Fixpoint collect_params (normalized : list (string * json)) (value : list (string * json)) : res (list (string * json)) :=
  match value with
  | [] => Ok normalized
  | (raw_name, raw_value) :: rest =>
      let name := strip raw_name in
      raise_if (is_empty name) (ValueError "params keys must be non-empty");;
      v ← param_value name raw_value;
      collect_params (aset name v normalized) rest
  end.
Definition validate_params (value : option (list (string * json))) : res (list (string * json)) := collect_params [] (default [] value).

Definition normalize_method (value : string) : res http_method :=
  let m := upper (strip value) in
  if (m =? "GET")%string then Ok GET else if (m =? "POST")%string then Ok POST else Raise (ValueError "Input should be 'GET' or 'POST'").

(** [json_body] is [JNull] when there is none. *)
Record HttpRequestArgs := mkHttpRequestArgs {
  a_method : http_method;
  a_url : string;
  a_headers : list (string * string);
  a_params : list (string * json);
  a_json_body : json;
  a_body : option string;
  a_follow_redirects : bool;
}.
Definition is_null (v : json) : bool := match v with JNull => true | _ => false end.

Section http.
Variable checknetloc : string -> bool.
Variable to_ascii : string -> res string.
(** What a resolver answers in time, and [float.__repr__] *)
Variable resolver : string -> Z -> option (res (list string)).
Variable float_repr : spec_float -> string.

Definition validate_json_body (value : json) : res json :=
  if is_null value then Ok value
  else match compact_json float_repr value with
  | Ok _ => Ok value
  | Raise _ => Raise (ValueError "json body must be JSON-serializable")
  end.
Definition validate_body_constraints (a : HttpRequestArgs) : res unit :=
  raise_if (negb (is_null (a_json_body a)) && is_set (a_body a)) (ValueError "only one of 'json' or 'body' may be set");;
  raise_if (bool_decide (a_method a = GET) && (negb (is_null (a_json_body a)) || is_set (a_body a)))
    (ValueError "GET requests must not include 'json' or 'body'").
Definition HttpRequestArgs_validate (method url : string) (headers params : option (list (string * json))) (json_body : json)
    (body : option string) (follow_redirects : bool) : res HttpRequestArgs :=
  Models.run (after validate_body_constraints (VOk mkHttpRequestArgs
    <*> field "method" (normalize_method method)
    <*> field "url" (non_empty "url" url)
    <*> field "headers" (validate_headers headers)
    <*> field "params" (validate_params params)
    <*> field "json" (validate_json_body json_body)
    <*> VOk body
    <*> VOk follow_redirects))%py.

(** ** URLs *)
Definition URL_ARGS_INVALID_MESSAGES : list string :=
  ["url must use https"; "url must include a host"; "url must not include credentials"; "url has invalid port"].
Definition classify_url_validation_error (message : string) : string :=
  if contains "allowed_domains" message then "DOMAIN_NOT_ALLOWLISTED"
  else if bool_decide (message ∈ URL_ARGS_INVALID_MESSAGES) then "INVALID_ARGS"
  else "SSRF_BLOCKED".
Definition fragmentless_url (url : string) : res string :=
  split ← urlsplit checknetloc url;
  if is_empty (fragment split) then Ok url
  else Ok (urlunsplit_any (mkSplit (scheme split) (netloc split) (url_path split) (url_query split) "")).
Definition origin (url : string) : res (string * string * Z) :=
  split ← urlsplit checknetloc url;
  match hostname split with
  | None => Raise (ValueError "url must include a host")
  | Some h =>
      let scheme := lower (scheme split) in
      p ← port split;
      Ok (scheme, lower_host h, default (if (scheme =? "https")%string then 443 else 80) p)
  end.
Definition same_origin (left right : string) : res bool := l ← origin left; r ← origin right; Ok (bool_decide (l = r)).

(** ** The client *)
Record http_request := mkHttpRequest {
  rq_method : http_method;
  rq_url : string;
  rq_headers : list (string * string);
  rq_params : list (string * json);
  rq_content : option string;
}.
(** The headers as [dict(response.headers)] gives them: names in lower case. The
    body comes in chunks, after which reading may fail. *)
Record http_response := mkHttpResponse {
  rs_status : Z;
  rs_url : string;
  rs_headers : list (string * string);
  rs_chunks : list string;
  rs_broken : option exn;
}.

(** [_read_response_bytes] *)
Fixpoint read_chunks (max_bytes : Z) (body : string) (chunks : list string) (broken : option exn) : res (string * bool) :=
  match chunks with
  | [] => match broken with Some e => Raise e | None => Ok (body, false) end
  | chunk :: rest =>
      if is_empty chunk then read_chunks max_bytes body rest broken
      else
        let remaining := max_bytes - byte_length body in
        if remaining <=? 0 then Ok (body, true)
        else if remaining <? byte_length chunk then Ok (body +:+ stake (Z.to_nat remaining) chunk, true)
        else read_chunks max_bytes (body +:+ chunk) rest broken
  end.
Definition read_response_bytes (r : http_response) (max_bytes : Z) : res (string * bool) :=
  if max_bytes <=? 0 then Ok ("", true) else read_chunks max_bytes "" (rs_chunks r) (rs_broken r).

Record http_settings := mkHttpSettings {
  http_allowed_domains : list string;
  max_event_payload_bytes : Z;
  max_tool_output_bytes : Z;
  net_safety_resolve_dns : bool;
  net_safety_dns_timeout_s : spec_float;
}.
Definition manifest_max_output_bytes : Z := 64000.

(** The classes of [httpx] errors: [TimeoutException] and [RequestError] *)
Definition TIMEOUT_CLASSES : list string := ["TimeoutException"; "ConnectTimeout"; "ReadTimeout"; "WriteTimeout"; "PoolTimeout"].
Definition REQUEST_CLASSES : list string :=
  ["RequestError"; "TransportError"; "NetworkError"; "ConnectError"; "ReadError"; "WriteError"; "CloseError"; "ProxyError"; "UnsupportedProtocol";
   "ProtocolError"; "LocalProtocolError"; "RemoteProtocolError"; "DecodingError"; "TooManyRedirects"].
Definition in_classes (l : list string) (e : exn) : bool := match e with OtherError n _ => bool_decide (n ∈ l) | _ => false end.

Section client.
Context {W : Type}.
(** [client.stream(...)] up to the response, and UTF-8 decoding with replacement *)
Variable client : http_request -> W -> res http_response * W.
Variable decode_replace : string -> string.
Variable settings : http_settings.

(** The exchanges so far, and the world *)
#[local] Notation world := (list (http_request * res http_response) * W)%type (only parsing).
Definition stream (q : http_request) : st world http_response := fun w =>
  let '(r, w2) := client q w.2 in (r, ((w.1 ++ [(q, r)])%list, w2)).

Definition validate_url (url : string) : res string :=
  validate_and_normalize_url_async checknetloc to_ascii resolver (default_options (Some (http_allowed_domains settings)))
    (net_safety_resolve_dns settings) (net_safety_dns_timeout_s settings) url.

Definition REDIRECTS : list Z := [301; 302; 303; 307; 308].
Definition redirect_location (follow_redirects : bool) (r : http_response) : option string :=
  if follow_redirects && bool_decide (rs_status r ∈ REDIRECTS) then
    match aget "location" (rs_headers r) with Some l => if is_empty l then None else Some l | None => None end
  else None.
Definition becomes_get (r : http_response) (m : http_method) : bool := bool_decide (rs_status r ∈ [301; 302; 303]) && bool_decide (m = POST).
Definition response_headers (r : http_response) : list (string * string) :=
  if (50 <? length (rs_headers r))%nat then take 50 (sort_items (rs_headers r)) else rs_headers r.
Definition str_dict (d : list (string * string)) : json := JObj (map (fun p => (p.1, JStr p.2)) d).

(** [_HttpToolValidationError], or the response information *)
Inductive outcome :=
| Refused (error_code message : string)
| Answered (response_info : list (string * json)).

Definition response_info (r : http_response) (max_response_bytes : Z) (redirect_chain : list json) : res (list (string * json)) :=
  '(body_bytes, truncated) ← read_response_bytes r max_response_bytes;
  Ok [("response", JObj
        [("url", JStr (rs_url r)); ("status_code", JInt (rs_status r)); ("headers", str_dict (response_headers r));
         ("body", JStr (decode_replace body_bytes)); ("body_bytes", JInt (byte_length body_bytes)); ("truncated", JBool truncated)]);
      ("redirects", JArr redirect_chain)].

(** [_execute_with_redirects]; [fuel] is what is left of the range *)
Fixpoint execute_with_redirects (fuel : nat) (headers : list (string * string)) (follow_redirects : bool) (max_response_bytes : Z)
    (current_method : http_method) (current_url : string) (current_content : option string) (params : list (string * json))
    (redirect_chain : list json) : st world outcome :=
  match fuel with
  | O => throw (OtherError "TooManyRedirects" "too many redirects")
  | S fuel =>
      r ← stream (mkHttpRequest current_method current_url headers params current_content);
      match redirect_location follow_redirects r with
      | Some location =>
          joined ← lift (urljoin checknetloc (rs_url r) location);
          next_url ← lift (fragmentless_url joined);
          match validate_url next_url with
          | Raise (ValueError message) => mret (Refused (classify_url_validation_error message) message)
          | Raise e => throw e
          | Ok normalized_next =>
              same ← lift (same_origin (rs_url r) normalized_next);
              if negb same then mret (Refused "SSRF_BLOCKED" "cross-origin redirects are blocked")
              else
                let entry := JObj [("status_code", JInt (rs_status r)); ("from_url", JStr (rs_url r)); ("to_url", JStr normalized_next)] in
                execute_with_redirects fuel headers follow_redirects max_response_bytes
                  (if becomes_get r current_method then GET else current_method) normalized_next
                  (if becomes_get r current_method then None else current_content) [] (redirect_chain ++ [entry])%list
          end
      | None => info ← lift (response_info r max_response_bytes redirect_chain); mret (Answered info)
      end
  end.

(** ** [HttpTool.run] *)
Definition maybe_add_default_content_type (headers : list (string * string)) (content_type : string) : list (string * string) :=
  if existsb (fun p => (lower p.1 =? "content-type")%string) headers then headers else aset "Content-Type" content_type headers.

Definition debug_type (e : exn) : option (list (string * json)) := Some [("exception_type", JStr (exn_name e))].
(** What is sent: the content and the headers; or why it is refused *)
Definition request_body (a : HttpRequestArgs) : (option string * list (string * string)) + res ToolResult :=
  let max_request_bytes := max_event_payload_bytes settings in
  let too_large (what : string) (n : Z) :=
    inr (failure "BODY_TOO_LARGE" (what +:+ " too large (" +:+ str_of_Z n +:+ " bytes)") (Some [("max_body_bytes", JInt max_request_bytes)])) in
  let with_text (content : option string) (headers : list (string * string)) :=
    match a_body a with
    | None => inl (content, headers)
    | Some body =>
        if max_request_bytes <? utf8_len body then too_large "body" (utf8_len body)
        else inl (Some (utf8 body), maybe_add_default_content_type headers "text/plain; charset=utf-8")
    end in
  if is_null (a_json_body a) then with_text None (a_headers a)
  else match compact_json float_repr (a_json_body a) with
  | Raise e => inr (failure "INVALID_ARGS" "json body must be JSON-serializable" (debug_type e))
  | Ok text =>
      if max_request_bytes <? utf8_len text then too_large "json body" (utf8_len text)
      else with_text (Some (utf8 text)) (maybe_add_default_content_type (a_headers a) "application/json")
  end.

(** [str(v)] of the value of a parameter *)
Definition param_str (v : json) : string :=
  match v with
  | JBool b => if b then "True" else "False" | JInt n => str_of_Z n | JFloat f => float_repr f | JStr s => s | _ => ""
  end.
Definition request_summary (a : HttpRequestArgs) (url : string) (headers : list (string * string)) (content : option string) : json :=
  JObj [("method", JStr (method_str (a_method a))); ("url", JStr url); ("follow_redirects", JBool (a_follow_redirects a));
        ("headers", JArr (map (fun p => JStr p.1) (sort_items headers)));
        ("params", JObj (map (fun p => (p.1, JStr (param_str p.2))) (a_params a)));
        ("body_bytes", match content with None => JNull | Some c => JInt (byte_length c) end)].
Definition success (data : list (string * json)) : res ToolResult := ToolResult_validate (mkToolResult true (Some (JObj data)) None None None None).

Definition request_error (e : exn) : res ToolResult :=
  if in_classes TIMEOUT_CLASSES e then failure "TIMEOUT" "http request timed out" (debug_type e)
  else if in_classes REQUEST_CLASSES e then failure "TOOL_ERROR" ("http request failed: " +:+ exn_name e) (debug_type e)
  else Raise e.
Definition send (a : HttpRequestArgs) (url : string) (headers : list (string * string)) (content : option string) : st world ToolResult := fun w =>
  let max_response_bytes := Z.min (max_tool_output_bytes settings) manifest_max_output_bytes in
  match execute_with_redirects (MAX_REDIRECTS + 1) headers (a_follow_redirects a) max_response_bytes (a_method a) url content (a_params a) [] w with
  | (Raise e, w) => (request_error e, w)
  | (Ok (Refused code message), w) => (failure code message None, w)
  | (Ok (Answered info), w) =>
      (success ([("dry_run", JBool false); ("request", request_summary a url headers content)] ++ info)%list, w)
  end.
Definition run (a : HttpRequestArgs) (ctx : ToolContext) : st world ToolResult :=
  split ← lift (urlsplit checknetloc (a_url a));
  if negb (is_empty (fragment split)) then lift (failure "INVALID_ARGS" "url fragments are not supported" None)
  else match validate_url (a_url a) with
  | Raise (ValueError message) => lift (failure (classify_url_validation_error message) message None)
  | Raise e => throw e
  | Ok normalized_url =>
      match request_body a with
      | inr result => lift result
      | inl (content, headers) =>
          if ctx_dry_run ctx
          then lift (success [("dry_run", JBool true); ("request", request_summary a normalized_url headers content)])
          else send a normalized_url headers content
      end
  end.
End client.
End http.

(** ** Headers *)
Definition header_sizes (l : list (string * string)) : Z := foldr (fun p n => utf8_len p.1 + utf8_len p.2 + n) 0 l.
Record header_ok (p : string * string) : Prop := {
  hk_name : strip p.1 = p.1 /\ p.1 <> "";
  hk_allowed : lower p.1 ∉ DISALLOWED_REQUEST_HEADERS;
  hk_lines : has_newline p.1 = false /\ has_newline p.2 = false;
  hk_sizes : utf8_len p.1 <= MAX_HEADER_NAME_BYTES /\ utf8_len p.2 <= MAX_HEADER_VALUE_BYTES;
}.
Lemma utf8_len_nonneg s : 0 <= utf8_len s.
Proof. unfold utf8_len, byte_length. lia. Qed.
Lemma header_sizes_aset k v l : header_sizes (aset k v l) <= utf8_len k + utf8_len v + header_sizes l.
Proof.
  induction l as [|[k' v'] l IH]; cbn; [lia|]. pose proof (utf8_len_nonneg k'). pose proof (utf8_len_nonneg v').
  unfold header_sizes in *. case_decide as E; cbn; [subst; lia|lia].
Qed.
Lemma header_Forall_aset (P : string * string -> Prop) k v l : P (k, v) -> Forall P l -> Forall P (aset k v l).
Proof. intros Hp. induction 1 as [|[k' v'] l Hx Hl IH]; cbn; [by constructor|]. case_decide; constructor; auto. Qed.
Lemma header_name_ok raw name : header_name raw = Ok name -> strip name = name /\ name <> "" /\ lower name ∉ DISALLOWED_REQUEST_HEADERS /\ has_newline name = false.
Proof.
  unfold header_name. intros H. res_inv. split; [apply strip_idemp|]. split; [|done]. intros E.
  by match goal with Hx : is_empty _ = false |- _ => rewrite E in Hx end.
Qed.
Lemma header_value_ok raw value : header_value raw = Ok value -> has_newline value = false.
Proof. unfold header_value. destruct raw; try done. intros H. by res_inv. Qed.
Lemma collect_headers_spec value total l out : collect_headers total l value = Ok out ->
  header_sizes l <= total <= MAX_TOTAL_HEADER_BYTES -> NoDup (keys l) -> Forall header_ok l ->
  header_sizes out <= MAX_TOTAL_HEADER_BYTES /\ NoDup (keys out) /\ Forall header_ok out /\ (length out <= length l + length value)%nat.
Proof.
  revert total l. induction value as [|[rn rv] value IH]; intros total l; cbn [collect_headers].
  - intros [= <-] Ht Hn Hf. split_and!; [lia|done|done|cbn; lia].
  - intros (name & Hname & (v & Hv & ([] & H1 & ([] & H2 & ([] & H3 & H)%res_bind_Ok)%res_bind_Ok)%res_bind_Ok)%res_bind_Ok)%res_bind_Ok Ht Hn Hf. bool_to_prop.
    apply header_name_ok in Hname as (N1 & N2 & N3 & N4). apply header_value_ok in Hv. pose proof (header_sizes_aset name v l).
    apply IH in H as (R1 & R2 & R3 & R4).
    + split_and!; try done. pose proof (length_aset_le name v l). cbn. lia.
    + lia.
    + by apply NoDup_keys_aset.
    + by apply header_Forall_aset.
Qed.

(** headers that the tool accepts are safe to send. Each name is trimmed, not
    empty, none of the names the client manages itself, and neither a name nor a
    value has a line break; no name comes twice; each fits its limit, all together
    8192 bytes, and there are at most 50. *)
Theorem headers_safe value headers : validate_headers value = Ok headers ->
  Forall header_ok headers /\ NoDup (keys headers) /\ header_sizes headers <= MAX_TOTAL_HEADER_BYTES /\ (length headers <= MAX_HEADER_COUNT)%nat.
Proof.
  unfold validate_headers. destruct value as [l|]; [|intros [= <-]; split_and!; [done|constructor|done|cbn; lia]].
  intros ([] & H1 & H)%res_bind_Ok. apply raise_if_Ok, Nat.ltb_ge in H1. apply collect_headers_spec in H as (R1 & R2 & R3 & R4); try done.
  - split_and!; try done. cbn in R4. lia.
  - constructor.
Qed.

(** ** Reading *)
Lemma byte_length_app a b : byte_length (a +:+ b) = byte_length a + byte_length b.
Proof. unfold byte_length. rewrite str_app_length. lia. Qed.
Lemma stake_app_le n a b : (String.length a <= n)%nat -> stake n (a +:+ b) = a +:+ stake (n - String.length a) b.
Proof. revert n. induction a as [|c a IH]; intros n Hn; cbn in *; [by rewrite Nat.sub_0_r|]. destruct n as [|n]; [lia|]. exact (f_equal (String c) (IH n ltac:(lia))). Qed.
Lemma stake_short n a : (String.length a <= n)%nat -> stake n a = a.
Proof. revert n. induction a as [|c a IH]; intros [|n] Hn; cbn in *; try done; try lia. f_equal. apply IH. lia. Qed.
Lemma stake_app_l n a b : (n <= String.length a)%nat -> stake n (a +:+ b) = stake n a.
Proof. revert n. induction a as [|c a IH]; intros [|n] Hn; cbn in *; try done; try lia; exact (f_equal (String c) (IH n ltac:(lia))). Qed.

(** What there is to read, cut *)
Definition capped (max_bytes : Z) (text : string) (broken : option exn) : res (string * bool) :=
  if max_bytes <? byte_length text then Ok (stake (Z.to_nat max_bytes) text, true)
  else match broken with Some e => Raise e | None => Ok (text, false) end.
Lemma read_chunks_spec max_bytes body chunks broken : byte_length body <= max_bytes ->
  read_chunks max_bytes body chunks broken = capped max_bytes (body +:+ String.concat "" chunks) broken.
Proof.
  revert body. induction chunks as [|c chunks IH]; intros body Hb; cbn [read_chunks].
  - cbn. rewrite str_app_nil. unfold capped. by destruct (Z.ltb_spec max_bytes (byte_length body)); [lia|].
  - assert (String.concat "" (c :: chunks) = c +:+ String.concat "" chunks) as -> by (destruct chunks; [cbn; by rewrite str_app_nil|done]).
    destruct (is_empty c) eqn:Ec; [apply is_empty_spec in Ec; subst c; by apply IH|].
    assert (0 < byte_length c) as Hc by (unfold byte_length; destruct c; [done|cbn; lia]).
    pose proof (byte_length_app c (String.concat "" chunks)) as Hl. pose proof (byte_length_app body (c +:+ String.concat "" chunks)) as Hl2.
    assert (0 <= byte_length (String.concat "" chunks)) by (unfold byte_length; lia).
    destruct (Z.leb_spec (max_bytes - byte_length body) 0).
    + unfold capped. destruct (Z.ltb_spec max_bytes (byte_length (body +:+ (c +:+ String.concat "" chunks)))); [|lia]. do 2 f_equal.
      rewrite stake_app_l by (unfold byte_length in *; lia). rewrite stake_short by (unfold byte_length in *; lia). done.
    + destruct (Z.ltb_spec (max_bytes - byte_length body) (byte_length c)).
      * unfold capped. destruct (Z.ltb_spec max_bytes (byte_length (body +:+ (c +:+ String.concat "" chunks)))); [|lia]. do 2 f_equal.
        rewrite stake_app_le by (unfold byte_length in *; lia). f_equal. rewrite stake_app_l by (unfold byte_length in *; lia). f_equal. unfold byte_length in *. lia.
      * rewrite IH by (rewrite byte_length_app; lia). by rewrite <- str_app_assoc.
Qed.

(** reading in pieces is reading at once, cut. Whatever pieces an answer comes
    in, the body that is kept is its beginning, at most [max_bytes] bytes, marked as
    truncated exactly if there was more; an error on the way is raised only when it
    comes before the limit. *)
Theorem read_capped r max_bytes : 0 < max_bytes ->
  read_response_bytes r max_bytes = capped max_bytes (String.concat "" (rs_chunks r)) (rs_broken r) /\
  forall body truncated, read_response_bytes r max_bytes = Ok (body, truncated) -> byte_length body <= max_bytes.
Proof.
  intros Hm. unfold read_response_bytes. destruct (Z.leb_spec max_bytes 0); [lia|].
  assert (read_chunks max_bytes "" (rs_chunks r) (rs_broken r) = capped max_bytes (String.concat "" (rs_chunks r)) (rs_broken r)) as ->.
  { apply (read_chunks_spec max_bytes ""). unfold byte_length. cbn. lia. }
  split; [done|]. unfold capped. intros body truncated. destruct (Z.ltb_spec max_bytes (byte_length (String.concat "" (rs_chunks r)))).
  - intros [= <- _]. unfold byte_length. pose proof (length_stake (Z.to_nat max_bytes) (String.concat "" (rs_chunks r))). lia.
  - destruct (rs_broken r); [done|]. by intros [= <- _].
Qed.

(** ** What is sent *)
Section sent.
Variable checknetloc : string -> bool.
Variable to_ascii : string -> res string.
Variable resolver : string -> Z -> option (res (list string)).
Variable float_repr : spec_float -> string.
Context {W : Type}.
Variable client : http_request -> W -> res http_response * W.
Variable decode_replace : string -> string.
Variable settings : http_settings.
#[local] Notation validate_url := (validate_url checknetloc to_ascii resolver settings).
#[local] Notation execute := (execute_with_redirects checknetloc to_ascii resolver client decode_replace settings).
#[local] Notation exchange := (http_request * res http_response)%type (only parsing).

(** The request that follows a redirect *)
Record follows (q : http_request) (r : http_response) (q' : http_request) : Prop := {
  fl_status : rs_status r ∈ [301; 302; 303; 307; 308];
  fl_location : exists location joined text, aget "location" (rs_headers r) = Some location /\ urljoin checknetloc (rs_url r) location = Ok joined /\
    fragmentless_url checknetloc joined = Ok text /\ validate_url text = Ok (rq_url q');
  fl_origin : exists l, origin checknetloc (rs_url r) = Ok l /\ origin checknetloc (rq_url q') = Ok l;
  fl_get : rs_status r ∈ [301; 302; 303] -> rq_method q = POST -> rq_method q' = GET /\ rq_content q' = None;
  fl_kept : rs_status r ∈ [307; 308] \/ rq_method q = GET -> rq_method q' = rq_method q /\ rq_content q' = rq_content q;
  fl_headers : rq_headers q' = rq_headers q;
  fl_params : rq_params q' = [];
}.
(** The exchanges of one run: from the first request, each the redirect of the last *)
Inductive exchanges : http_request -> list exchange -> Prop :=
| exchanges_last q x : exchanges q [(q, x)]
| exchanges_more q r q' rest : follows q r q' -> exchanges q' rest -> exchanges q ((q, Ok r) :: rest).

Lemma redirect_location_spec b r l : redirect_location b r = Some l -> b = true /\ rs_status r ∈ REDIRECTS /\ aget "location" (rs_headers r) = Some l.
Proof.
  unfold redirect_location. destruct b; [|done]. case_bool_decide; [|done]. cbn [andb]. destruct (aget _ _) as [x|]; [|done].
  destruct (is_empty x); [done|]. by intros [= <-].
Qed.
Lemma execute_exchanges fuel headers follow max_bytes m url content params chain log w o log' w' :
  execute (S fuel) headers follow max_bytes m url content params chain (log, w) = (o, (log', w')) ->
  exists new, log' = (log ++ new)%list /\ (length new <= S fuel)%nat /\ exchanges (mkHttpRequest m url headers params content) new.
Proof.
  revert m url content params chain log w o log' w'. induction fuel as [fuel IH] using (well_founded_induction lt_wf).
  intros m url content params chain log w o log' w' H. set (q := mkHttpRequest m url headers params content).
  assert (forall x, exists new, (log ++ [(q, x)])%list = (log ++ new)%list /\ (length new <= S fuel)%nat /\ exchanges q new) as Hone.
  { intros x. exists [(q, x)]. split; [done|]. split; [cbn; lia|constructor]. }
  cbn [execute_with_redirects] in H. unfold mbind, st_bind, stream, lift, throw, mret, st_ret in H. fold q in H. cbn [fst snd] in H.
  destruct (client q w) as [[r|e] w1]; [|by injection H as <- <- <-].
  destruct (redirect_location follow r) as [location|] eqn:El; [|destruct (response_info _ _ _ _); by injection H as <- <- <-].
  destruct (urljoin checknetloc (rs_url r) location) as [joined|e] eqn:Ej; [|by injection H as <- <- <-].
  destruct (fragmentless_url checknetloc joined) as [text|e] eqn:Ef; [|by injection H as <- <- <-].
  destruct (validate_url text) as [next|e] eqn:Ev; [|destruct e; by injection H as <- <- <-].
  destruct (same_origin checknetloc (rs_url r) next) as [[]|e] eqn:Es; cbn [negb] in H; [|by injection H as <- <- <-..].
  destruct fuel as [|fuel]; [cbn in H; by injection H as <- <- <-|].
  apply IH in H as (new & -> & Hl & Hx); [|lia]. exists ((q, Ok r) :: new). split; [by rewrite <- app_assoc|]. split; [cbn; lia|].
  apply redirect_location_spec in El as (_ & Hst & Hloc). econstructor; [|exact Hx]. split; try done; [by exists location, joined, text| |intros H1 H2|intros H1].
  - unfold same_origin in Es. apply res_bind_Ok in Es as (l1 & H1 & (l2 & H2 & [= Hb])%res_bind_Ok). apply bool_decide_eq_true in Hb as ->. by exists l2.
  - unfold becomes_get. rewrite !bool_decide_true by done. done.
  - assert (becomes_get r m = false) as ->; [|done]. unfold becomes_get. destruct H1 as [H1|H1].
    + rewrite bool_decide_false; [done|]. clear -H1. set_solver by lia.
    + cbn in H1. by rewrite H1, andb_comm.
Qed.

Lemma exchanges_all (P : http_request -> Prop) q l : exchanges q l -> P q -> (forall q r q', P q -> follows q r q' -> P q') ->
  forall x, x ∈ l -> P x.1.
Proof.
  intros Hx. induction Hx as [q x|q r q' l Hf Hx IH]; intros Hq Hstep y.
  - by intros ->%list_elem_of_singleton.
  - intros [->|Hy]%elem_of_cons; [done|]. by apply IH; [eapply Hstep|..].
Qed.
Lemma exchanges_answers q l : exchanges q l -> forall P : http_request -> http_response -> Prop,
  (forall q r, (q, Ok r) ∈ l -> P q r) -> forall Q : http_request -> Prop, Q q -> (forall q r q', Q q -> P q r -> follows q r q' -> Q q') -> forall x, x ∈ l -> Q x.1.
Proof.
  intros Hx P. induction Hx as [q x|q r q' l Hf Hx IH]; intros HP Q Hq Hstep y.
  - by intros ->%list_elem_of_singleton.
  - intros [->|Hy]%elem_of_cons; [done|]. apply IH; [|eapply Hstep; [exact Hq| |exact Hf]; apply HP; left|done|done]. intros q0 r0 Hin. apply HP. by right.
Qed.

(** A host the guard accepts, of a URL a client takes apart *)
Definition to_allowed_host (url : string) : Prop :=
  exists s h, urlsplit checknetloc url = Ok s /\ scheme s = "https" /\ hostname s = Some h /\
    host_allowed to_ascii (default_options (Some (http_allowed_domains settings))) h.
Lemma validate_url_allowed text u : all_chars is_ascii text = true -> has_char "["%char text = false -> validate_url text = Ok u -> to_allowed_host u.
Proof.
  intros Ha Hb. unfold HttpTool.validate_url, validate_and_normalize_url_async. intros (u' & Hu & H)%res_bind_Ok.
  assert (u = u') as ->.
  { destruct (negb (net_safety_resolve_dns settings)); [by simplify_eq|]. res_inv. destruct (hostname _); [|done]. res_inv. destruct (is_set _); [by simplify_eq|]. by res_inv. }
  destruct (validate_parts _ _ _ _ _ Ha Hb Hu) as (sch & h & p & path & q & f & -> & Hs & Hsch & Hh & Hp & Hc & Hplain).
  eexists _, h. split; [by apply urlsplit_urlunsplit|]. split; [|split; [by apply (parts_hostname to_ascii)|by apply check_host_allowed in Hc]].
  unfold check_scheme in Hsch. cbn in Hsch. apply raise_if_Ok, negb_false_iff, String.eqb_eq in Hsch. done.
Qed.

(** C18: what [net.http] sends. A run sends nothing, or it is no dry run, the guard
    accepted the URL and the first request has the method, URL, headers, parameters
    and content that were checked. There are at most six requests, all with these
    headers, each to a URL the guard accepted for some text: when that is ASCII
    without an opening bracket, a URL of an allowed host by https. Each further
    request follows a redirect: its URL is what the guard accepted for the location
    that was given, of the origin of the URL that the client reports for the answer.
    A POST that was redirected by 301, 302 or 303 goes on as a GET without content,
    by 307 or 308 as a POST with the same content. So all requests go to the origin
    of the first, if the URL a client reports for an answer is always of the origin
    it was asked for. *)
Theorem requests_guarded a ctx w r sent w' : HttpTool.run checknetloc to_ascii resolver float_repr client decode_replace settings a ctx ([], w) = (r, (sent, w')) ->
  sent = [] \/
  exists u content headers, ctx_dry_run ctx = false /\ validate_url (a_url a) = Ok u /\ request_body float_repr settings a = inl (content, headers) /\
    exchanges (mkHttpRequest (a_method a) u headers (a_params a) content) sent /\ (length sent <= 6)%nat /\
    (forall x, x ∈ sent -> rq_headers x.1 = headers /\
      exists text, validate_url text = Ok (rq_url x.1) /\ (all_chars is_ascii text = true -> has_char "["%char text = false -> to_allowed_host (rq_url x.1))) /\
    ((forall q r, (q, Ok r) ∈ sent -> origin checknetloc (rs_url r) = origin checknetloc (rq_url q)) ->
      forall x, x ∈ sent -> origin checknetloc (rq_url x.1) = origin checknetloc u).
Proof.
  unfold HttpTool.run, lift, throw. unfold mbind, st_bind. destruct (urlsplit checknetloc (a_url a)) as [s|e]; [|intros [= _ <- _]; by left].
  destruct (negb (is_empty (fragment s))); [intros [= _ <- _]; by left|].
  destruct (validate_url (a_url a)) as [u|e] eqn:Eu; [|destruct e; intros [= _ <- _]; by left].
  destruct (request_body float_repr settings a) as [[content headers]|x] eqn:Eb; [|intros [= _ <- _]; by left].
  destruct (ctx_dry_run ctx) eqn:Ed; [intros [= _ <- _]; by left|]. unfold send.
  destruct (execute _ _ _ _ _ _ _ _ _ ([], w)) as [o [log1 w1]] eqn:Ex. intros H.
  assert (log1 = sent) as -> by (destruct o as [[]|]; by injection H). clear H. apply execute_exchanges in Ex as (new & -> & Hl & Hx). cbn [app] in *.
  right. exists u, content, headers. split_and!; try done.
  - apply (exchanges_all (fun q => rq_headers q = headers /\ exists text, validate_url text = Ok (rq_url q) /\
      (all_chars is_ascii text = true -> has_char "["%char text = false -> to_allowed_host (rq_url q))) _ _ Hx).
    + split; [done|]. exists (a_url a). split; [done|]. intros Ha Hb. by eapply validate_url_allowed.
    + intros q r0 q' [Hh _] [_ (location & joined & text & _ & _ & _ & Hv) _ _ _ Hh' _]. split; [congruence|]. exists text. split; [done|].
      intros Ha Hb. by eapply validate_url_allowed.
  - intros Hown. apply (exchanges_answers _ _ Hx (fun q r => origin checknetloc (rs_url r) = origin checknetloc (rq_url q)) Hown
      (fun q => origin checknetloc (rq_url q) = origin checknetloc u)); [done|].
    intros q r0 q' Hq Ho [_ _ (l & H1 & H2) _ _ _ _]. congruence.
Qed.
End sent.

(** ** Concrete runs *)
Definition any_netloc : string -> bool := fun _ => true.
Definition api_settings : http_settings := mkHttpSettings ["api.example.com"] 1000 64000 false (of_Z 1).
Definition live : ToolContext := mkToolContext "/ws" false (of_Z 60) [].
Definition dry : ToolContext := mkToolContext "/ws" true (of_Z 60) [].
Definition answer (status : Z) (url : string) (headers : list (string * string)) (chunks : list string) : http_response :=
  mkHttpResponse status url headers chunks None.
(** A server that redirects [/a] to [/b], [/loop] to itself and [/away] to another host *)
Definition server (q : http_request) (n : nat) : res http_response * nat :=
  (Ok (if (rq_url q =? "https://api.example.com/a")%string then answer 302 (rq_url q) [("location", "b?x#top")] []
       else if (rq_url q =? "https://api.example.com/loop")%string then answer 301 (rq_url q) [("location", "/loop")] []
       else if (rq_url q =? "https://api.example.com/away")%string then answer 307 (rq_url q) [("location", "https://evil.example.com/")] []
       else if (rq_url q =? "https://api.example.com/bad")%string then answer 302 (rq_url q) [("location", "https://[x/")] []
       else answer 200 (rq_url q) [] ["he"; ""; "llo"]), S n).
Definition post (url : string) : HttpRequestArgs := mkHttpRequestArgs POST url [] [] (JObj [("k", JInt 1)]) None true.
#[local] Notation run_http a ctx := (HttpTool.run any_netloc no_unicode (fun _ _ => None) (fun _ => "") server id api_settings a ctx ([], 0%nat)).
Definition urls_sent (x : res ToolResult * (list (http_request * res http_response) * nat)) : list (http_method * string) :=
  map (fun p => (rq_method p.1, rq_url p.1)) x.2.1.
Definition error_of (x : res ToolResult * (list (http_request * res http_response) * nat)) : option string :=
  match x.1 with Ok r => error_code r | Raise e => Some (exn_name e) end.

Example redirected : urls_sent (run_http (post "https://API.example.com:443/a") live) =
  [(POST, "https://api.example.com/a"); (GET, "https://api.example.com/b?x")] /\ error_of (run_http (post "https://API.example.com:443/a") live) = None.
Proof. vm_compute. by split. Qed.
Example refused : error_of (run_http (post "https://api.example.com/away") live) = Some "DOMAIN_NOT_ALLOWLISTED" /\
  error_of (run_http (post "https://api.example.com/loop") live) = Some "TOOL_ERROR" /\ length (urls_sent (run_http (post "https://api.example.com/loop") live)) = 6%nat /\
  urls_sent (run_http (post "https://api.example.com/a") dry) = [].
Proof. vm_compute. by split_and!. Qed.

(** malformed URLs leave the tool as exceptions. A URL with an unclosed bracket
    in its host, given as an argument or as the location of a redirect, raises the
    [ValueError] of [urlsplit] out of [run], where every other URL the guard refuses
    becomes a result with an error code. *)
Theorem malformed_urls_escape :
  (run_http (post "https://[x/") live).1 = Raise (ValueError "Invalid IPv6 URL") /\
  (run_http (post "https://api.example.com/bad") live).1 = Raise (ValueError "Invalid IPv6 URL") /\
  error_of (run_http (post "https://user@api.example.com/") live) = Some "INVALID_ARGS".
Proof. vm_compute. by split_and!. Qed.

Lemma headers_safe_witness : exists headers, validate_headers (Some [(" X-A ", JStr " v ")]) = Ok headers /\ headers = [("X-A", "v")] /\ Forall header_ok headers.
Proof.
  exists [("X-A", "v")]. split; [vm_compute; reflexivity|]. split; [reflexivity|].
  apply (headers_safe (Some [(" X-A ", JStr " v ")]) [("X-A", "v")]). vm_compute. reflexivity.
Defined.
Lemma read_capped_witness : read_response_bytes (answer 200 "" [] ["ab"; "cd"]) 3 = Ok ("abc", true).
Proof. destruct (read_capped (answer 200 "" [] ["ab"; "cd"]) 3) as [-> _]; [reflexivity|]. vm_compute. reflexivity. Defined.
Lemma requests_guarded_witness : exists u, validate_url any_netloc no_unicode (fun _ _ => None) api_settings "https://API.example.com:443/a" = Ok u /\
  forall x, x ∈ (run_http (post "https://API.example.com:443/a") live).2.1 -> exists text,
    validate_url any_netloc no_unicode (fun _ _ => None) api_settings text = Ok (rq_url x.1).
Proof.
  destruct (requests_guarded any_netloc no_unicode (fun _ _ => None) (fun _ => "") server id api_settings (post "https://API.example.com:443/a") live 0%nat
    (run_http (post "https://API.example.com:443/a") live).1 (run_http (post "https://API.example.com:443/a") live).2.1 (run_http (post "https://API.example.com:443/a") live).2.2)
    as [H|(u & c & hs & _ & Hu & _ & _ & _ & H & _)].
  - vm_compute. reflexivity.
  - exfalso. vm_compute in H. discriminate H.
  - exists u. split; [exact Hu|]. intros x Hx. destruct (H x Hx) as [_ (text & Ht & _)]. exists text. exact Ht.
Defined.
