(* ===== verification/Webhook.v ===== *)
(** * The tool [webhook.emit]: [tools/impl/webhook.py], with [security/secrets.py]

    A JSON payload is posted to a listed target, with an idempotency key and,
    optionally, an HMAC of the payload under a secret that is resolved at the time
    of the call. The results: what is posted, to whom, and under which conditions;
    and that the secret is not in the result. *)

From Stdlib Require Import ZArith SpecFloat Lia Ascii.
From S2P Require Import Prelude PyFloat PyText Models Serialization Urls NetSafety Decision Policy Tools HttpTool.

(** ** [security/secrets.py] *)
Record SecretRef := mkSecretRef { sr_provider : string; sr_key : string; sr_version : option string }.
Definition has_space (s : string) : bool := negb (all_chars (fun c => negb (is_space c)) s).
Definition normalize_secret_text (field_name value : string) : res string :=
  raise_if (is_empty value) (ValueError (field_name +:+ " must be non-empty"));;
  raise_if (has_space value) (ValueError (field_name +:+ " must not contain whitespace"));;
  Ok value.
Definition SecretRef_validate (r : SecretRef) : res SecretRef :=
  Models.run (VOk mkSecretRef
    <*> field "provider" (normalize_secret_text "provider" (lower (strip (sr_provider r))))
    <*> field "key" (normalize_secret_text "key" (strip (sr_key r)))
    <*> VOk (v ← sr_version r; strip_or_none v))%py.
Definition validate_resolved_secret (secret : string) : res string :=
  raise_if (is_empty (strip secret)) (ValueError "resolved secret must be non-empty");; Ok secret.
(** [EnvSecretsProvider.resolve] *)
Definition env_resolve (environ : list (string * string)) (ref : SecretRef) : res string :=
  raise_if (negb (sr_provider ref =? "env")%string)
    (ValueError ("EnvSecretsProvider cannot resolve provider " +:+ py_repr (sr_provider ref) +:+ " (expected 'env')"));;
  match aget (sr_key ref) environ with
  | Some v => validate_resolved_secret v
  | None => Raise (KeyError ("missing environment variable for secret key: " +:+ py_repr (sr_key ref)))
  end.

(** ** Arguments *)
Definition MANAGED_HEADER_NAMES : list string := ["content-type"; "idempotency-key"].
Definition validate_header_name (name field_name : string) : res string :=
  let normalized := strip name in
  raise_if (is_empty normalized) (ValueError (field_name +:+ " must be non-empty"));;
  raise_if (has_space normalized) (ValueError (field_name +:+ " must not contain whitespace"));;
  raise_if (MAX_HEADER_NAME_BYTES <? utf8_len normalized) (ValueError (field_name +:+ " is too long: " +:+ py_repr normalized));;
  Ok normalized.
Definition same_header (name : string) (p : string * string) : bool := (lower p.1 =? lower name)%string.
Definition lookup_header_case_insensitive (headers : list (string * string)) (name : string) : option (string * string) :=
  List.find (same_header name) headers.

Record WebhookSignatureArgs := mkSignature { sg_secret_ref : SecretRef; sg_header_name : string }.
Definition signature_header_name (value : string) : res string :=
  name ← validate_header_name value "header_name";
  raise_if (bool_decide (lower name ∈ DISALLOWED_REQUEST_HEADERS)) (ValueError ("header is not allowed: " +:+ py_repr name));;
  raise_if (bool_decide (lower name ∈ MANAGED_HEADER_NAMES)) (ValueError ("header is reserved: " +:+ py_repr name));;
  Ok name.
Definition WebhookSignatureArgs_validate (a : WebhookSignatureArgs) : res WebhookSignatureArgs :=
  Models.run (VOk mkSignature
    <*> field "secret_ref" (SecretRef_validate (sg_secret_ref a))
    <*> field "header_name" (signature_header_name (sg_header_name a)))%py.

Definition webhook_header_name (normalized : list (string * string)) (raw_name : string) : res string :=
  name ← validate_header_name raw_name "header names";
  raise_if (bool_decide (lower name ∈ DISALLOWED_REQUEST_HEADERS)) (ValueError ("header is not allowed: " +:+ py_repr name));;
  raise_if (existsb (same_header name) normalized) (ValueError "headers contain duplicate names after normalization");;
  Ok name.
Fixpoint collect_webhook_headers (total_bytes : Z) (normalized : list (string * string)) (value : list (string * json)) : res (list (string * string)) :=
  match value with
  | [] => Ok normalized
  | (raw_name, raw_value) :: rest =>
      name ← webhook_header_name normalized raw_name;
      value_str ← header_value raw_value;
      raise_if (MAX_HEADER_VALUE_BYTES <? utf8_len value_str) (ValueError ("header value too long for " +:+ py_repr name));;
      let total_bytes := total_bytes + (utf8_len name + utf8_len value_str) in
      raise_if (MAX_TOTAL_HEADER_BYTES <? total_bytes) (ValueError "headers total size is too large");;
      collect_webhook_headers total_bytes (aset name value_str normalized) rest
  end.
Definition validate_webhook_headers (value : option (list (string * json))) : res (list (string * string)) :=
  match value with
  | None => Ok []
  | Some value =>
      raise_if (MAX_HEADER_COUNT <? length value)%nat (ValueError "headers may contain at most 50 entries");;
      collect_webhook_headers 0 [] value
  end.
Definition validate_timeout_s (value : option spec_float) : res (option spec_float) :=
  match value with
  | None => Ok None
  | Some t =>
      raise_if (negb (isfinite t)) (ValueError "timeout must be finite");;
      raise_if (fle t fzero) (ValueError "timeout must be > 0");;
      Ok (Some t)
  end.

Record WebhookEmitArgs := mkWebhookEmitArgs {
  w_url : string;
  w_payload : list (string * json);
  w_headers : list (string * string);
  w_signature : option WebhookSignatureArgs;
  w_timeout_s : option spec_float;
  w_idempotency_key : option string;
}.
(** The header and the key agree *)
Definition conflicts (headers : list (string * string)) (key : string) : bool :=
  match lookup_header_case_insensitive headers "Idempotency-Key" with Some (_, v) => negb (v =? key)%string | None => false end.
Definition idempotency_conflict : exn := ValueError "idempotency_key conflicts with Idempotency-Key header".
Definition validate_header_collisions (a : WebhookEmitArgs) : res unit :=
  raise_if (match w_signature a with Some s => is_set (lookup_header_case_insensitive (w_headers a) (sg_header_name s)) | None => false end)
    (ValueError "signature.header_name must not duplicate a request header");;
  raise_if (match w_idempotency_key a with Some key => conflicts (w_headers a) key | None => false end) idempotency_conflict.
Definition optional_signature (s : option WebhookSignatureArgs) : res (option WebhookSignatureArgs) :=
  match s with None => Ok None | Some s => s ← WebhookSignatureArgs_validate s; Ok (Some s) end.
Definition WebhookEmitArgs_validate (url : string) (payload : list (string * json)) (headers : option (list (string * json)))
    (signature : option WebhookSignatureArgs) (timeout_s : option spec_float) (idempotency_key : option string) : res WebhookEmitArgs :=
  Models.run (after validate_header_collisions (VOk mkWebhookEmitArgs
    <*> field "url" (non_empty "url" url)
    <*> VOk payload
    <*> field "headers" (validate_webhook_headers headers)
    <*> field "signature" (optional_signature signature)
    <*> field "timeout" (validate_timeout_s timeout_s)
    <*> field "idempotency_key" (normalize_optional idempotency_key)))%py.

(** ** Headers of the request *)
Definition default_headers (headers : list (string * string)) : list (string * string) :=
  if existsb (same_header "content-type") headers then headers else aset "Content-Type" "application/json" headers.
Definition resolve_idempotency_header (headers : list (string * string)) (key : option string) : res (list (string * string) * option string) :=
  match lookup_header_case_insensitive headers "Idempotency-Key" with
  | Some (_, v) =>
      raise_if (match key with Some k => negb (v =? k)%string | None => false end) idempotency_conflict;;
      Ok (headers, Some v)
  | None => match key with None => Ok (headers, None) | Some k => Ok (aset "Idempotency-Key" k headers, Some k) end
  end.

Record webhook_request := mkWebhookRequest {
  wq_url : string;
  wq_headers : list (string * string);
  wq_content : string;
  wq_timeout : spec_float;
}.
Record webhook_settings := mkWebhookSettings {
  webhook_allowed_targets : list string;
  wb_max_event_payload_bytes : Z;
  wb_max_tool_output_bytes : Z;
  wb_resolve_dns : bool;
  wb_dns_timeout_s : spec_float;
}.
Definition webhook_max_output_bytes : Z := 8000.
Definition classify_webhook_error (message : string) : string :=
  if bool_decide (message ∈ URL_ARGS_INVALID_MESSAGES) then "INVALID_ARGS" else "SSRF_BLOCKED".

(** [_drain_limited], for [remaining] > 0 *)
Fixpoint drain (remaining : Z) (chunks : list string) (broken : option exn) : res unit :=
  match chunks with
  | [] => match broken with Some e => Raise e | None => Ok tt end
  | chunk :: rest =>
      if is_empty chunk then drain remaining rest broken
      else if remaining - byte_length chunk <=? 0 then Ok tt
      else drain (remaining - byte_length chunk) rest broken
  end.
Definition drain_limited (r : http_response) (max_bytes : Z) : res unit :=
  if max_bytes <=? 0 then Ok tt else drain max_bytes (rs_chunks r) (rs_broken r).

Section webhook.
Variable checknetloc : string -> bool.
Variable to_ascii : string -> res string.
Variable resolver : string -> Z -> option (res (list string)).
Variable float_repr : spec_float -> string.
(** [sha256(data).hexdigest()] and [hmac.new(secret, data, sha256).hexdigest()] *)
Variable sha256_hex : string -> string.
Variable hmac_sha256_hex : string -> string -> string.
Context {W : Type}.
Variable client : webhook_request -> W -> res http_response * W.
Variable settings : webhook_settings.
(** [ctx.secrets_provider] *)
Variable secrets_provider : option (SecretRef -> res string).

Definition validate_webhook_url (url : string) : res string :=
  validate_and_normalize_url_async checknetloc to_ascii resolver (default_options None) (wb_resolve_dns settings) (wb_dns_timeout_s settings) url.

Definition hmac_sha256 (secret payload_bytes : string) : string := "sha256=" +:+ hmac_sha256_hex (utf8 secret) payload_bytes.
(** The headers with the signature, and the name of its header; or the failure *)
Definition sign (a : WebhookEmitArgs) (payload_bytes : string) (headers : list (string * string))
  : (list (string * string) * option string) + res ToolResult :=
  match w_signature a with
  | None => inl (headers, None)
  | Some s =>
      match secrets_provider with
      | None => inr (failure "MISSING_SECRETS_PROVIDER" "secrets provider is required for signature" None)
      | Some resolve =>
          let ref := sg_secret_ref s in
          match (secret ← resolve ref; validate_resolved_secret secret) with
          | Raise e => inr (failure "SECRET_RESOLVE_FAILED" "failed to resolve secret"
              (Some [("exception_type", JStr (exn_name e)); ("provider", JStr (sr_provider ref)); ("key", JStr (sr_key ref))]))
          | Ok secret => inl (aset (sg_header_name s) (hmac_sha256 secret payload_bytes) headers, Some (sg_header_name s))
          end
      end
  end.

Definition opt_str (o : option string) : json := match o with Some s => JStr s | None => JNull end.
Definition base_result (url payload_bytes : string) (signature_header idempotency_key : option string) (headers : list (string * string))
  : list (string * json) :=
  [("url", JStr url); ("payload_sha256", JStr (sha256_hex payload_bytes)); ("payload_bytes", JInt (byte_length payload_bytes));
   ("signed", JBool (is_set signature_header)); ("signature_header", opt_str signature_header); ("idempotency_key", opt_str idempotency_key);
   ("headers", JArr (map (fun p => JStr p.1) (sort_items headers)))].
Definition timeout_limit (a : WebhookEmitArgs) (ctx : ToolContext) : spec_float :=
  match w_timeout_s a with None => ctx_timeout_s ctx | Some t => fmin (ctx_timeout_s ctx) t end.

#[local] Notation world := (list (webhook_request * res http_response) * W)%type (only parsing).
Definition webhook_stream (q : webhook_request) : st world http_response := fun w =>
  let '(r, w2) := client q w.2 in (r, ((w.1 ++ [(q, r)])%list, w2)).
Definition webhook_request_error (e : exn) : res ToolResult :=
  if in_classes TIMEOUT_CLASSES e then failure "TIMEOUT" "webhook request timed out" (debug_type e)
  else if in_classes REQUEST_CLASSES e then failure "TOOL_ERROR" ("webhook request failed: " +:+ exn_name e) (debug_type e)
  else Raise e.
Definition emit (q : webhook_request) (base : list (string * json)) : st world ToolResult := fun w =>
  match (r ← webhook_stream q; lift (drain_limited r (Z.min (wb_max_tool_output_bytes settings) webhook_max_output_bytes));; mret r) w with
  | (Raise e, w) => (webhook_request_error e, w)
  | (Ok r, w) => (success ([("dry_run", JBool false)] ++ base ++ [("response", JObj [("status_code", JInt (rs_status r))])])%list, w)
  end.

(** The request that is to be sent, what the result tells about it; or a failure *)
Definition prepare (a : WebhookEmitArgs) (ctx : ToolContext) (url : string) : (webhook_request * list (string * json)) + res ToolResult :=
  match compact_json float_repr (JObj (w_payload a)) with
  | Raise e => inr (failure "INVALID_PAYLOAD" "payload must be JSON-serializable" (debug_type e))
  | Ok text =>
      let payload_bytes := utf8 text in
      if wb_max_event_payload_bytes settings <? byte_length payload_bytes then
        inr (failure "PAYLOAD_TOO_LARGE" ("payload is too large (" +:+ str_of_Z (byte_length payload_bytes) +:+ " bytes)")
          (Some [("max_payload_bytes", JInt (wb_max_event_payload_bytes settings))]))
      else match resolve_idempotency_header (default_headers (w_headers a)) (w_idempotency_key a) with
      | Raise (ValueError message) => inr (failure "INVALID_ARGS" message None)
      | Raise e => inr (Raise e)
      | Ok (headers, key) =>
          match sign a payload_bytes headers with
          | inr result => inr result
          | inl (headers, signature_header) =>
              inl (mkWebhookRequest url headers payload_bytes (timeout_limit a ctx), base_result url payload_bytes signature_header key headers)
          end
      end
  end.
(** [WebhookEmitTool.run] *)
Definition emit_webhook (a : WebhookEmitArgs) (ctx : ToolContext) : st world ToolResult :=
  split ← lift (urlsplit checknetloc (w_url a));
  if negb (is_empty (fragment split)) then lift (failure "INVALID_ARGS" "url fragments are not supported" None)
  else match validate_webhook_url (w_url a) with
  | Raise (ValueError message) => lift (failure (classify_webhook_error message) message None)
  | Raise e => throw e
  | Ok normalized_url =>
      listed ← lift (NetSafety.webhook_target_matches_allowlist checknetloc to_ascii normalized_url (webhook_allowed_targets settings));
      if negb listed then lift (failure "TARGET_NOT_ALLOWLISTED" "webhook target is not allowlisted" (Some [("url", JStr normalized_url)]))
      else match prepare a ctx normalized_url with
      | inr result => lift result
      | inl (request, base) =>
          if ctx_dry_run ctx then lift (success ([("dry_run", JBool true)] ++ base)%list) else emit request base
      end
  end.
End webhook.

(** ** Lookup of headers *)
Lemma lookup_aset_other n k v l : (lower k =? lower n)%string = false ->
  lookup_header_case_insensitive (aset k v l) n = lookup_header_case_insensitive l n.
Proof.
  intros Hk. unfold lookup_header_case_insensitive. induction l as [|[k' v'] l IH]; cbn; unfold same_header; cbn; [by rewrite Hk|].
  case_decide; cbn; [subst; by rewrite Hk|]. by destruct (lower k' =? lower n)%string.
Qed.
Lemma lookup_aset_new n k v l : lookup_header_case_insensitive l n = None -> (lower k =? lower n)%string = true ->
  lookup_header_case_insensitive (aset k v l) n = Some (k, v).
Proof.
  intros Hl Hk. unfold lookup_header_case_insensitive in *. induction l as [|[k' v'] l IH]; cbn in *; unfold same_header in *; cbn in *; [by rewrite Hk|].
  destruct (lower k' =? lower n)%string eqn:E; [done|]. case_decide; [subst; congruence|]. cbn. rewrite E. by apply IH.
Qed.
Lemma existsb_aset n k v l : existsb (same_header n) l = true -> existsb (same_header n) (aset k v l) = true.
Proof.
  induction l as [|[k' v'] l IH]; cbn; [done|]. case_decide as E; cbn; unfold same_header in *; cbn in *; [by subst|].
  intros [->|H]%orb_true_iff; [done|]. by rewrite IH, orb_true_r.
Qed.
Lemma existsb_aset_new n k v l : (lower k =? lower n)%string = true -> existsb (same_header n) (aset k v l) = true.
Proof. intros Hk. induction l as [|[k' v'] l IH]; cbn; unfold same_header in *; cbn; [by rewrite Hk|]. case_decide; cbn; [by rewrite Hk|]. by rewrite IH, orb_true_r. Qed.
Lemma lookup_none n k l : lookup_header_case_insensitive l n = None -> (lower k =? lower n)%string = true -> aget k l = None.
Proof.
  unfold lookup_header_case_insensitive. intros Hl Hk. induction l as [|[k' v'] l IH]; cbn in *; [done|]. unfold same_header in *. cbn in *.
  case_decide; [subst; by rewrite Hk in Hl|]. apply IH. by destruct (lower k' =? lower n)%string.
Qed.
Lemma existsb_none n l : existsb (same_header n) l = false -> lookup_header_case_insensitive l n = None.
Proof. unfold lookup_header_case_insensitive. induction l as [|p l IH]; cbn; [done|]. intros [-> H]%orb_false_elim. by apply IH. Qed.

Lemma default_headers_keep l n v : aget n l = Some v -> aget n (default_headers l) = Some v.
Proof.
  unfold default_headers. destruct (existsb _ l) eqn:E; [done|]. intros H. rewrite aget_aset. case_decide as Hn; [|done]. subst n.
  rewrite (lookup_none "content-type" "Content-Type" l) in H; [done|by apply existsb_none|done].
Qed.
Lemma default_headers_typed l : existsb (same_header "content-type") (default_headers l) = true.
Proof. unfold default_headers. destruct (existsb _ l) eqn:E; [done|]. by apply existsb_aset_new. Qed.
Lemma idempotency_header_spec l key l' k' : resolve_idempotency_header l key = Ok (l', k') ->
  (forall n v, aget n l = Some v -> aget n l' = Some v) /\ (existsb (same_header "content-type") l = true -> existsb (same_header "content-type") l' = true) /\
  forall k, key = Some k -> exists name, lookup_header_case_insensitive l' "Idempotency-Key" = Some (name, k).
Proof.
  unfold resolve_idempotency_header. destruct (lookup_header_case_insensitive l "Idempotency-Key") as [[name v]|] eqn:El.
  - intros ([] & H & [= <- <-])%res_bind_Ok. split_and!; try done. intros k ->. apply raise_if_Ok, negb_false_iff, String.eqb_eq in H. subst v. by exists name.
  - destruct key as [k|]; intros [= <- <-]; [|by split_and!]. split_and!.
    + intros n v H. rewrite aget_aset. case_decide; [|done]. subst n. by rewrite (lookup_none "Idempotency-Key" "Idempotency-Key" l) in H.
    + apply existsb_aset.
    + intros k0 [= <-]. exists "Idempotency-Key". by apply lookup_aset_new.
Qed.

(** ** What is posted *)
Section posted.
Variable checknetloc : string -> bool.
Variable to_ascii : string -> res string.
Variable resolver : string -> Z -> option (res (list string)).
Variable float_repr : spec_float -> string.
Variable sha256_hex : string -> string.
Variable hmac_sha256_hex : string -> string -> string.
Context {W : Type}.
Variable client : webhook_request -> W -> res http_response * W.
Variable settings : webhook_settings.
#[local] Notation run_with provider := (emit_webhook checknetloc to_ascii resolver float_repr sha256_hex hmac_sha256_hex client settings provider).
#[local] Notation validate_url := (validate_webhook_url checknetloc to_ascii resolver settings).

(** The arguments went through their model: a signature is under a name of its own. *)
Definition signature_separate (a : WebhookEmitArgs) : Prop := forall s, w_signature a = Some s ->
  lookup_header_case_insensitive (w_headers a) (sg_header_name s) = None /\ lower (sg_header_name s) ∉ MANAGED_HEADER_NAMES.
Lemma signature_validated s0 s : WebhookSignatureArgs_validate s0 = Ok s -> lower (sg_header_name s) ∉ MANAGED_HEADER_NAMES.
Proof.
  unfold WebhookSignatureArgs_validate. intros H%run_Ok. apply vap_VOk in H as (g & name & H & Hn%field_VOk & <-).
  apply vap_VOk in H as (g' & r & [= <-] & _ & <-). cbn [sg_header_name]. unfold signature_header_name in Hn. by res_inv.
Qed.
Lemma validated_separate url payload headers signature timeout key a :
  WebhookEmitArgs_validate url payload headers signature timeout key = Ok a -> signature_separate a.
Proof.
  unfold WebhookEmitArgs_validate. intros H%run_Ok s Hs. apply after_VOk in H as [H Hc]. unfold validate_header_collisions in Hc.
  rewrite Hs in Hc. apply res_bind_Ok in Hc as ([] & Hc & _). apply raise_if_Ok in Hc. split; [by destruct (lookup_header_case_insensitive _ _)|].
  apply vap_VOk in H as (? & ? & H & _ & <-). apply vap_VOk in H as (? & ? & H & _ & <-). apply vap_VOk in H as (? & sig & H & Hsig%field_VOk & <-).
  repeat (apply vap_VOk in H as (? & ? & H & _ & <-)). injection H as <-. cbn [w_signature] in Hs. subst sig.
  unfold optional_signature in Hsig. destruct signature as [s0|]; [|done]. apply res_bind_Ok in Hsig as (s1 & Hs1 & [= <-]). by eapply signature_validated.
Qed.

(** The headers of the request, from those of the arguments *)
Record sent_headers (provider : option (SecretRef -> res string)) (a : WebhookEmitArgs) (content : string) (headers : list (string * string)) : Prop := {
  sh_kept : forall n v, aget n (w_headers a) = Some v -> aget n headers = Some v;
  sh_typed : existsb (same_header "content-type") headers = true;
  sh_key : forall k, w_idempotency_key a = Some k -> exists name, lookup_header_case_insensitive headers "Idempotency-Key" = Some (name, k);
  sh_signed : forall s, w_signature a = Some s -> exists resolve secret, provider = Some resolve /\ resolve (sg_secret_ref s) = Ok secret /\
    strip secret <> "" /\ aget (sg_header_name s) headers = Some (hmac_sha256 hmac_sha256_hex secret content);
}.
Lemma webhook_prepared provider a ctx url q base : signature_separate a ->
  prepare float_repr sha256_hex hmac_sha256_hex settings provider a ctx url = inl (q, base) ->
  exists text, compact_json float_repr (JObj (w_payload a)) = Ok text /\ q = mkWebhookRequest url (wq_headers q) (utf8 text) (timeout_limit a ctx) /\
    byte_length (utf8 text) <= wb_max_event_payload_bytes settings /\ sent_headers provider a (utf8 text) (wq_headers q).
Proof.
  intros Hsep. unfold prepare. destruct (compact_json _ _) as [text|e]; [|done]. destruct (Z.ltb_spec (wb_max_event_payload_bytes settings) (byte_length (utf8 text))); [done|].
  destruct (resolve_idempotency_header _ _) as [[h key]|[]] eqn:Eh; try done. apply idempotency_header_spec in Eh as (K1 & K2 & K3). specialize (K2 (default_headers_typed _)).
  unfold sign. destruct (w_signature a) as [s|] eqn:Es.
  - destruct provider as [resolve|]; [|done]. destruct (secret ← resolve (sg_secret_ref s); validate_resolved_secret secret) as [secret|e] eqn:Ev; [|done].
    intros [= <- <-]. exists text. split_and!; try done. apply res_bind_Ok in Ev as (x & Hr & Hx). unfold validate_resolved_secret in Hx.
    apply res_bind_Ok in Hx as ([] & Hb & [= ->]). apply raise_if_Ok in Hb. destruct (Hsep s Es) as [Hl Hm]. cbn [wq_headers]. split.
    + intros n v H0. rewrite aget_aset. case_decide as Hn; [|by apply K1, default_headers_keep]. subst n.
      rewrite (lookup_none (sg_header_name s) (sg_header_name s) (w_headers a)) in H0; [done|done|]. by apply String.eqb_eq.
    + by apply existsb_aset.
    + intros k Hk. destruct (K3 k Hk) as (name & Hn). exists name. rewrite lookup_aset_other; [done|]. apply String.eqb_neq. intros E. apply Hm. rewrite E. right. left.
    + intros s' Hs'. rewrite Es in Hs'. injection Hs' as <-. exists resolve, secret. split_and!; try done; [intros E; by rewrite E in Hb|]. rewrite aget_aset. by rewrite decide_True.
  - intros [= <- <-]. exists text. split_and!; try done. split; cbn [wq_headers]; try done; [|by rewrite Es]. intros n v H0. by apply K1, default_headers_keep.
Qed.

(** C19: what [webhook.emit] posts. A run with validated arguments posts nothing, or
    it is no dry run and there is one request: to the URL as the guard returned it,
    which is on the list of targets; the content is the compact JSON of the payload,
    within the size limit; the headers are the given ones, a content type, the
    idempotency key when there is one, and, when a signature is asked for, the HMAC
    of just this content under the secret that the provider gave for the reference,
    which is not blank. *)
Theorem webhook_posts raw_url payload headers signature timeout key a provider ctx w r sent w' :
  WebhookEmitArgs_validate raw_url payload headers signature timeout key = Ok a ->
  run_with provider a ctx ([], w) = (r, (sent, w')) ->
  sent = [] \/
  exists q x text, sent = [(q, x)] /\ ctx_dry_run ctx = false /\ validate_url (w_url a) = Ok (wq_url q) /\
    NetSafety.webhook_target_matches_allowlist checknetloc to_ascii (wq_url q) (webhook_allowed_targets settings) = Ok true /\
    compact_json float_repr (JObj (w_payload a)) = Ok text /\ wq_content q = utf8 text /\ byte_length (wq_content q) <= wb_max_event_payload_bytes settings /\
    sent_headers provider a (wq_content q) (wq_headers q).
Proof.
  intros Hv%validated_separate. unfold emit_webhook, lift, throw. unfold mbind at 1, st_bind at 1. destruct (urlsplit checknetloc (w_url a)) as [s|e]; [|intros [= _ <- _]; by left].
  destruct (negb (is_empty (fragment s))); [intros [= _ <- _]; by left|].
  destruct (validate_url (w_url a)) as [u|e] eqn:Eu; [|destruct e; intros [= _ <- _]; by left]. unfold mbind at 1, st_bind at 1.
  destruct (NetSafety.webhook_target_matches_allowlist checknetloc to_ascii u (webhook_allowed_targets settings)) as [[]|e] eqn:El; [|intros [= _ <- _]; by left..].
  cbn [negb]. destruct (prepare _ _ _ _ _ _ _ _) as [[q base]|x] eqn:Ep; [|intros [= _ <- _]; by left].
  destruct (ctx_dry_run ctx) eqn:Ed; [intros [= _ <- _]; by left|]. apply webhook_prepared in Ep as (text & Ht & Hq & Hm & Hh); [|done].
  unfold emit, webhook_stream, lift, mbind, st_bind. cbn [fst snd]. destruct (client q w) as [x w1] eqn:Ec. intros H. right. exists q, x, text.
  assert (sent = [(q, x)]) as -> by (destruct x as [x|e]; [destruct (drain_limited _ _)|]; cbn in H; congruence). rewrite Hq. by split_and!.
Qed.
End posted.

(** ** The secret is not in the result *)
Definition same_names (l l' : list (string * string)) : Prop := Forall2 (fun p q => p.1 = q.1) l l'.
Lemma same_names_refl l : same_names l l.
Proof. induction l; by constructor. Qed.
Lemma same_names_aset k v v' l : same_names (aset k v l) (aset k v' l).
Proof. induction l as [|[k0 v0] l IH]; cbn; [by repeat constructor|]. case_decide; constructor; try done. apply same_names_refl. Qed.
Lemma same_names_insert (p p' : string * string) l l' : p.1 = p'.1 -> same_names l l' -> same_names (insert_item p l) (insert_item p' l').
Proof.
  intros Hp. induction 1 as [|q q' l l' Hq Hl IH]; cbn; [by repeat constructor|]. rewrite Hp, Hq. destruct (ple _ _); repeat constructor; try done.
Qed.
Lemma same_names_sorted l l' : same_names l l' -> map (fun p => JStr p.1) (sort_items l) = map (fun p => JStr p.1) (sort_items l').
Proof.
  intros H. assert (same_names (sort_items l) (sort_items l')) as Hs.
  { unfold sort_items. induction H as [|q q' l l' Hq Hl IH]; cbn; [constructor|]. by apply same_names_insert. }
  clear H. induction Hs as [|p q l1 l2 Hp Hl IH]; cbn; [done|]. by rewrite Hp, IH.
Qed.

(** Two providers that differ in the secrets they give, at most *)
Definition secrets_alike (p1 p2 : SecretRef -> res string) : Prop := forall ref,
  match p1 ref, p2 ref with
  | Ok s1, Ok s2 => strip s1 <> "" /\ strip s2 <> ""
  | Raise e1, Raise e2 => exn_name e1 = exn_name e2
  | _, _ => False
  end.
(** Two requests that differ in the values of headers, at most *)
Definition requests_alike (q1 q2 : webhook_request) : Prop :=
  wq_url q1 = wq_url q2 /\ wq_content q1 = wq_content q2 /\ wq_timeout q1 = wq_timeout q2 /\ same_names (wq_headers q1) (wq_headers q2).

Section hidden.
Variable checknetloc : string -> bool.
Variable to_ascii : string -> res string.
Variable resolver : string -> Z -> option (res (list string)).
Variable float_repr : spec_float -> string.
Variable sha256_hex : string -> string.
Variable hmac_sha256_hex : string -> string -> string.
Context {W : Type}.
Variable client : webhook_request -> W -> res http_response * W.
Variable settings : webhook_settings.
#[local] Notation run_with provider := (emit_webhook checknetloc to_ascii resolver float_repr sha256_hex hmac_sha256_hex client settings provider).

Lemma sign_alike p1 p2 a content headers : secrets_alike p1 p2 ->
  match sign hmac_sha256_hex (Some p1) a content headers, sign hmac_sha256_hex (Some p2) a content headers with
  | inl (h1, n1), inl (h2, n2) => same_names h1 h2 /\ n1 = n2
  | inr r1, inr r2 => r1 = r2
  | _, _ => False
  end.
Proof.
  intros Hp. unfold sign. destruct (w_signature a) as [s|]; [|split; [apply same_names_refl|done]]. specialize (Hp (sg_secret_ref s)).
  destruct (p1 (sg_secret_ref s)) as [s1|e1], (p2 (sg_secret_ref s)) as [s2|e2]; cbn [mbind res_bind]; try done; [|by rewrite Hp].
  destruct Hp as [H1 H2]. unfold validate_resolved_secret. destruct (is_empty (strip s1)) eqn:E1; [by apply is_empty_spec in E1|].
  destruct (is_empty (strip s2)) eqn:E2; [by apply is_empty_spec in E2|]. cbn. split; [apply same_names_aset|done].
Qed.
Lemma prepare_alike p1 p2 a ctx url : secrets_alike p1 p2 ->
  match prepare float_repr sha256_hex hmac_sha256_hex settings (Some p1) a ctx url, prepare float_repr sha256_hex hmac_sha256_hex settings (Some p2) a ctx url with
  | inl (q1, b1), inl (q2, b2) => requests_alike q1 q2 /\ b1 = b2
  | inr r1, inr r2 => r1 = r2
  | _, _ => False
  end.
Proof.
  intros Hp. unfold prepare. destruct (compact_json _ _) as [text|e]; [|done]. destruct (_ <? _); [done|].
  destruct (resolve_idempotency_header _ _) as [[h key]|[]]; try done. pose proof (sign_alike p1 p2 a (utf8 text) h Hp) as Hs.
  destruct (sign _ (Some p1) _ _ _) as [[h1 n1]|r1], (sign _ (Some p2) _ _ _) as [[h2 n2]|r2]; try done. destruct Hs as [Hn ->].
  split; [by split_and!|]. unfold base_result. by rewrite (same_names_sorted _ _ Hn).
Qed.

(** the secret stays out of the result. Two providers that answer the same
    references, each with some secret that is not blank, or fail alike, cannot be
    told apart by what the tool returns, when the receiver's answer does not depend on
    the values of headers; and in a dry run not at all. *)
Theorem secret_hidden p1 p2 a ctx log w : secrets_alike p1 p2 ->
  (ctx_dry_run ctx = true \/ forall q1 q2 w, requests_alike q1 q2 -> client q1 w = client q2 w) ->
  (run_with (Some p1) a ctx (log, w)).1 = (run_with (Some p2) a ctx (log, w)).1.
Proof.
  intros Hp Hc. unfold emit_webhook, lift, throw, mbind, st_bind. destruct (urlsplit checknetloc (w_url a)) as [s|e]; [|done].
  destruct (negb (is_empty (fragment s))); [done|].
  destruct (validate_webhook_url checknetloc to_ascii resolver settings (w_url a)) as [u|e]; [|by destruct e].
  destruct (NetSafety.webhook_target_matches_allowlist checknetloc to_ascii u (webhook_allowed_targets settings)) as [[]|e]; [|done..].
  cbn [negb]. pose proof (prepare_alike p1 p2 a ctx u Hp) as Ha.
  destruct (prepare _ _ _ _ (Some p1) _ _ _) as [[q1 b1]|x1], (prepare _ _ _ _ (Some p2) _ _ _) as [[q2 b2]|x2]; try done.
  destruct Ha as [Hq ->]. destruct (ctx_dry_run ctx) eqn:Ed; [done|]. destruct Hc as [?|Hc]; [done|]. specialize (Hc q1 q2 w Hq).
  unfold emit, webhook_stream, lift, mbind, st_bind. cbn [fst snd]. rewrite Hc. destruct (client q2 w) as [[x|e] w1]; [|done].
  by destruct (drain_limited _ _).
Qed.
End hidden.

(** ** Concrete runs *)
Definition hook_settings : webhook_settings := mkWebhookSettings ["https://hooks.example.com/in?x=1"] 1000 64000 false (of_Z 1).
Definition hook_ref : SecretRef := mkSecretRef "env" "HOOK" None.
Definition hook_args : WebhookEmitArgs :=
  mkWebhookEmitArgs "https://Hooks.example.com/in?x=1" [("k", JInt 1)] [("X-Trace", "t")] (Some (mkSignature hook_ref "X-Reflexor-Signature")) None (Some "key-1").
Definition hook_server (q : webhook_request) (n : nat) : res http_response * nat := (Ok (answer 204 (wq_url q) [] []), S n).
(** Stands for the HMAC: the secret and the content *)
Definition visible_hmac (secret content : string) : string := secret +:+ "|" +:+ content.
#[local] Notation run_hook provider ctx :=
  (emit_webhook any_netloc no_unicode (fun _ _ => None) (fun _ => "") (fun _ => "digest") visible_hmac hook_server hook_settings (Some provider) hook_args ctx ([], 0%nat)).
Example hook_validated : WebhookEmitArgs_validate " https://Hooks.example.com/in?x=1" [("k", JInt 1)] (Some [("X-Trace ", JStr "t")])
  (Some (mkSignature (mkSecretRef " ENV " "HOOK" None) "X-Reflexor-Signature")) None (Some " key-1 ") = Ok hook_args.
Proof. vm_compute. reflexivity. Qed.
Example hook_sent : map (fun x => (wq_url x.1, wq_headers x.1)) (run_hook (env_resolve [("HOOK", "s3")]) live).2.1 =
  [("https://hooks.example.com/in?x=1", [("X-Trace", "t"); ("Content-Type", "application/json"); ("Idempotency-Key", "key-1");
    ("X-Reflexor-Signature", "sha256=s3|{" +:+ json_str "k" +:+ ":1}")])] /\
  (run_hook (env_resolve [("HOOK", "s3")]) dry).2.1 = [] /\ error_code <$> (run_hook (env_resolve []) live).1 = Ok (Some "SECRET_RESOLVE_FAILED").
Proof. vm_compute. by split_and!. Qed.

Lemma webhook_posts_witness : exists q x, (run_hook (env_resolve [("HOOK", "s3")]) live).2.1 = [(q, x)] /\
  aget "X-Reflexor-Signature" (wq_headers q) = Some (hmac_sha256 visible_hmac "s3" (wq_content q)).
Proof.
  destruct (webhook_posts any_netloc no_unicode (fun _ _ => None) (fun _ => "") (fun _ => "digest") visible_hmac hook_server hook_settings
    " https://Hooks.example.com/in?x=1" [("k", JInt 1)] (Some [("X-Trace ", JStr "t")])
    (Some (mkSignature (mkSecretRef " ENV " "HOOK" None) "X-Reflexor-Signature")) None (Some " key-1 ") hook_args (Some (env_resolve [("HOOK", "s3")])) live 0%nat
    (run_hook (env_resolve [("HOOK", "s3")]) live).1 (run_hook (env_resolve [("HOOK", "s3")]) live).2.1 (run_hook (env_resolve [("HOOK", "s3")]) live).2.2)
    as [H|(q & x & text & H & _ & _ & _ & _ & _ & _ & Hh)].
  - vm_compute. reflexivity.
  - vm_compute. reflexivity.
  - exfalso. vm_compute in H. discriminate H.
  - exists q, x. split; [exact H|]. destruct (sh_signed _ _ _ _ _ Hh (mkSignature hook_ref "X-Reflexor-Signature") eq_refl) as (resolve & secret & Hr & Hs & _ & Ha).
    injection Hr as <-. vm_compute in Hs. injection Hs as <-. exact Ha.
Defined.
Lemma secret_hidden_witness : (run_hook (env_resolve [("HOOK", "s3")]) live).1 = (run_hook (fun ref => match env_resolve [("HOOK", "s3")] ref with Ok _ => Ok "other" | r => r end) live).1.
Proof.
  apply (secret_hidden any_netloc no_unicode (fun _ _ => None) (fun _ => "") (fun _ => "digest") visible_hmac hook_server hook_settings
    (env_resolve [("HOOK", "s3")]) (fun ref => match env_resolve [("HOOK", "s3")] ref with Ok _ => Ok "other" | r => r end) hook_args live [] 0%nat).
  - intros ref. unfold env_resolve. destruct (sr_provider ref =? "env")%string; [|reflexivity]. cbn [negb raise_if mbind res_bind].
    destruct (aget (sr_key ref) [("HOOK", "s3")]) as [v|] eqn:E; [|reflexivity]. cbn [aget] in E. destruct (decide _); [|discriminate E].
    injection E as <-. split; intros E; vm_compute in E; discriminate E.
  - right. intros q1 q2 w (H1 & _ & _ & _). unfold hook_server. rewrite H1. reflexivity.
Defined.
