(* ===== verification/FsTools.v ===== *)
(** * The file tools: [tools/impl/fs.py]

    [fs.read_text], [fs.write_text] and [fs.list_dir] over the file system of
    [FsSafety.v]. Text is kept as UTF-8, as in [Truncation.v]; the codecs are
    parameters. The results: what is read and listed lies in the workspace, a write
    changes one file of the workspace as a whole, and a dry run changes nothing. *)

From Stdlib Require Import ZArith SpecFloat Lia Ascii.
From S2P Require Import Prelude PyFloat PyText Models Serialization Truncation Urls Decision Policy Tools FsSafety.
#[local] Notation fs := (gmap (list string) node) (only parsing).

(** [Path(text)] *)
Definition path_of (text : string) : path :=
  mkPath (String.prefix "/" text) (List.filter (fun c => negb (is_empty c) && negb (c =? ".")%string) (split_on "/"%char text)).
(** [_display_path] *)
Definition display_path (resolved : list string) (workspace_root : path) : string :=
  if p_absolute workspace_root && bool_decide (p_parts workspace_root `prefix_of` resolved) then
    match drop (length (p_parts workspace_root)) resolved with [] => "." | l => String.concat "/" l end
  else path_str resolved.

Definition path_error_code (message : string) : string := if contains "workspace" message then "WORKSPACE_VIOLATION" else "INVALID_PATH".
Definition type_debug (e : exn) (extra : list (string * json)) : option (list (string * json)) :=
  Some (("exception_type", JStr (exn_name e)) :: extra).
Definition succeed (data : list (string * json)) : res ToolResult := ToolResult_validate (mkToolResult true (Some (JObj data)) None None None None).

(** ** Arguments *)
Inductive decode_errors := strict | replace | ignore.
Record FsReadTextArgs := mkFsReadTextArgs { rd_path : path; rd_encoding : string; rd_errors : decode_errors }.
Record FsWriteTextArgs := mkFsWriteTextArgs {
  wr_path : path; wr_text : string; wr_encoding : string; wr_errors : decode_errors; wr_create_parents : bool }.
Record FsListDirArgs := mkFsListDirArgs { ls_path : path; ls_include_hidden : bool; ls_max_entries : Z }.
Definition MAX_LIST_ENTRIES_CAP : Z := 1000.

Definition path_field (value : string) : res path := p ← non_empty "path" value; Ok (path_of p).
Definition max_entries_field (value : Z) : res Z :=
  raise_if (value <=? 0) (ValueError "max_entries must be > 0");;
  raise_if (MAX_LIST_ENTRIES_CAP <? value) (ValueError "max_entries must be <= 1000");;
  Ok value.
Definition FsReadTextArgs_validate (p encoding : string) (errors : decode_errors) : res FsReadTextArgs :=
  Models.run (VOk mkFsReadTextArgs <*> field "path" (path_field p) <*> field "encoding" (non_empty "encoding" encoding) <*> VOk errors)%py.
Definition FsWriteTextArgs_validate (p text encoding : string) (errors : decode_errors) (create_parents : bool) : res FsWriteTextArgs :=
  Models.run (VOk mkFsWriteTextArgs <*> field "path" (path_field p) <*> VOk text <*> field "encoding" (non_empty "encoding" encoding) <*>
    VOk errors <*> VOk create_parents)%py.
Definition FsListDirArgs_validate (p : string) (include_hidden : bool) (max_entries : Z) : res FsListDirArgs :=
  Models.run (VOk mkFsListDirArgs <*> field "path" (path_field p) <*> VOk include_hidden <*> field "max_entries" (max_entries_field max_entries))%py.

Section tools.
Variable max_links : nat.
Variable expanduser_name : string -> option path.
Variable dir_mode : Z.
(** [decode encoding errors final raw]: the incremental decoder; [encode encoding errors text] *)
Variable decode : string -> decode_errors -> bool -> string -> res string.
Variable encode : string -> decode_errors -> string -> res string.
Variable sha256_hex : string -> string.
#[local] Notation resolve d p root := (resolve_path_in_workspace max_links expanduser_name d p root false).

Definition is_file (d : fs) (l : list string) : bool :=
  match stat max_links d l with Ok k => match d !! k with Some (File _ _) => true | _ => false end | Raise _ => false end.
Definition violation (message : string) : res ToolResult := failure "WORKSPACE_VIOLATION" message None.
Definition tool_error (message : string) (e : exn) : res ToolResult := failure "TOOL_ERROR" message (type_debug e []).
Definition codec_debug (e : exn) (encoding : string) : option (list (string * json)) := type_debug e [("encoding", JStr encoding)].

(** ** [fs.read_text] *)
Definition decode_text_bytes (raw encoding : string) (errors : decode_errors) (truncated : bool) : res string :=
  text ← decode encoding errors (negb truncated) raw;
  if truncated then Ok text else rest ← decode encoding errors true ""; Ok (text +:+ rest).
Definition file_size (d : fs) (l : list string) : json :=
  match stat max_links d l with
  | Ok k => match d !! k with Some (File data _) => JInt (bytes data) | _ => JInt 0 end
  | Raise _ => JNull
  end.
(** What is done with the bytes that were read *)
Definition read_result (d : fs) (a : FsReadTextArgs) (root : path) (max_output_bytes : Z) (resolved : list string) (raw : string) : res ToolResult :=
  let truncated := max_output_bytes <? bytes raw in
  match decode_text_bytes (if truncated then stake (Z.to_nat max_output_bytes) raw else raw) (rd_encoding a) (rd_errors a) truncated with
  | Raise e =>
      if is_class "LookupError" e then failure "ENCODING_ERROR" "unknown text encoding" (codec_debug e (rd_encoding a))
      else if is_class "UnicodeDecodeError" e then failure "DECODE_ERROR" "failed to decode file" (codec_debug e (rd_encoding a))
      else Raise e
  | Ok text =>
      text ← (if truncated then truncate_str (text +:+ TRUNCATION_MARKER) max_output_bytes TRUNCATION_MARKER else Ok text);
      succeed [("path", JStr (display_path resolved root)); ("truncated", JBool truncated); ("file_bytes", file_size d resolved);
               ("encoding", JStr (rd_encoding a)); ("text", JStr text)]
  end.
Definition read_text (settings_max_output_bytes : Z) (a : FsReadTextArgs) (root : path) (d : fs) : res ToolResult :=
  let max_output_bytes := Z.min settings_max_output_bytes 64000 in
  match resolve d (rd_path a) root with
  | Raise (ValueError message) => violation message
  | Raise e => Raise e
  | Ok resolved =>
      if negb (exists_at max_links d resolved) then failure "NOT_FOUND" "path not found" None
      else if negb (is_file d resolved) then failure "NOT_A_FILE" "path is not a file" None
      else match open_read max_links d resolved (Z.to_nat (max_output_bytes + 1)) with
      | Raise e => tool_error "failed to read file" e
      | Ok raw => read_result d a root max_output_bytes resolved raw
      end
  end.

(** ** [fs.write_text] *)
Definition write_summary (d : fs) (a : FsWriteTextArgs) (root : path) (resolved : list string) (data : string) : list (string * json) :=
  [("path", JStr (display_path resolved root)); ("bytes", JInt (bytes data)); ("sha256", JStr (sha256_hex data));
   ("existed_before", JBool (exists_at max_links d resolved)); ("encoding", JStr (wr_encoding a))].
Definition write_file (hex : string) (o : write_outcome) (max_bytes : Z) (a : FsWriteTextArgs) (root : path) (summary : list (string * json)) : st fs ToolResult :=
  fun d =>
  match atomic_write_text max_links expanduser_name dir_mode (encode (wr_encoding a) (wr_errors a)) hex o (wr_path a) (wr_text a) root (Some max_bytes)
          (wr_create_parents a) None d with
  | (Ok _, d) => (succeed (("dry_run", JBool false) :: summary), d)
  | (Raise (ValueError message), d) => (failure (path_error_code message) message None, d)
  | (Raise e, d) => (if is_os_error e then tool_error "failed to write file" e else Raise e, d)
  end.
Definition write_text (max_bytes : Z) (hex : string) (o : write_outcome) (a : FsWriteTextArgs) (root : path) (dry_run : bool) : st fs ToolResult := fun d =>
  match resolve d (wr_path a) root with
  | Raise (ValueError message) => (violation message, d)
  | Raise e => (Raise e, d)
  | Ok resolved =>
      match encode (wr_encoding a) (wr_errors a) (wr_text a) with
      | Raise e =>
          (if is_class "LookupError" e then failure "ENCODING_ERROR" "unknown text encoding" (codec_debug e (wr_encoding a))
           else if is_class "UnicodeEncodeError" e then failure "ENCODE_ERROR" "failed to encode text" (codec_debug e (wr_encoding a))
           else Raise e, d)
      | Ok data =>
          if max_bytes <? bytes data then
            (failure "BODY_TOO_LARGE" ("text exceeds max bytes (" +:+ str_of_Z (bytes data) +:+ " > " +:+ str_of_Z max_bytes +:+ ")")
               (Some [("max_bytes", JInt max_bytes)]), d)
          else if dry_run then (succeed (("dry_run", JBool true) :: write_summary d a root resolved data), d)
          else write_file hex o max_bytes a root (write_summary d a root resolved data) d
      end
  end.

(** ** [fs.list_dir] *)
Definition dir_entry_kind (n : node) : string := match n with Dir _ => "dir" | File _ _ => "file" | Link _ => "other" end.
Definition hidden (name : string) : bool := String.prefix "." name.
(** [os.scandir]: the entries of a directory, in some order *)
Definition child_of (k : list string) (p : list string * node) : bool := bool_decide (p.1 <> [] /\ parent p.1 = k).
Definition scandir (d : fs) (l : list string) : res (list (string * node)) :=
  k ← stat max_links d l;
  if is_dir_at d k then Ok (map (fun p => (name_of p.1, p.2)) (List.filter (child_of k) (map_to_list d))) else Raise NotADirectoryError.
(** [heapq.nsmallest(n, entries, key=name)] *)
Definition nsmallest {A} (n : nat) (entries : list (string * A)) : list (string * A) := take n (sort_items entries).
Definition list_dir (a : FsListDirArgs) (root : path) (d : fs) : res ToolResult :=
  match resolve d (ls_path a) root with
  | Raise (ValueError message) => violation message
  | Raise e => Raise e
  | Ok resolved =>
      if negb (exists_at max_links d resolved) then failure "NOT_FOUND" "path not found" None
      else if negb (is_dir max_links d resolved) then failure "NOT_A_DIRECTORY" "path is not a directory" None
      else match scandir d resolved with
      | Raise e => tool_error "failed to list directory" e
      | Ok found =>
          let entries := nsmallest (Z.to_nat (ls_max_entries a + 1)) (List.filter (fun p => ls_include_hidden a || negb (hidden p.1)) found) in
          succeed [("path", JStr (display_path resolved root)); ("truncated", JBool (ls_max_entries a <? Z.of_nat (length entries)));
                   ("items", JArr (map (fun p => JObj [("name", JStr p.1); ("type", JStr (dir_entry_kind p.2))]) (take (Z.to_nat (ls_max_entries a)) entries)))]
      end
  end.
End tools.

(** ** Reading and listing *)
Section confined.
Variable max_links : nat.
Variable expanduser_name : string -> option path.
Variable decode : string -> decode_errors -> bool -> string -> res string.
#[local] Notation root_of d root := (normalize_workspace_root max_links expanduser_name d root).
#[local] Notation resolve d p root := (resolve_path_in_workspace max_links expanduser_name d p root false).

(** A path that resolves and exists is where it resolves to. *)
Lemma stat_rooted d k s k' : rooted d k s -> stat max_links d (k ++ s) = Ok k' -> s = [] /\ k' = k.
Proof.
  intros [Hc Hr] Hs. destruct s as [|c s].
  - rewrite app_nil_r, (stat_fixed max_links d k Hc) in Hs. by injection Hs as <-.
  - exfalso. destruct (Hr c s eq_refl) as (Hk & Hne & Hm). unfold stat in Hs.
    rewrite (walk_app d true max_links [] k (c :: s)), (walk_fixed d true max_links [] k Hc) in Hs by done. cbn [mbind res_bind fst snd app] in Hs.
    rewrite walk_cons, Hk in Hs. cbn [negb] in Hs. destruct (String.eqb_spec c ".."); [done|]. by rewrite Hm in Hs.
Qed.
Lemma resolved_exists d p root r : resolve d p root = Ok r -> exists_at max_links d r = true ->
  canonical d r /\ stat max_links d r = Ok r /\ exists base, root_of d root = Ok base /\ base `prefix_of` r.
Proof.
  intros Hr He. destruct (resolve_within _ _ _ _ _ _ _ Hr) as (base & Hb & Hp). destruct (resolve_rooted _ _ _ _ _ _ Hr) as (k & s & -> & Hk).
  unfold exists_at in He. destruct (stat max_links d (k ++ s)) as [k'|e] eqn:Es; [|done]. destruct (stat_rooted d k s k' Hk Es) as [-> ->].
  rewrite app_nil_r in *. split; [apply Hk|]. split; [done|]. by exists base.
Qed.
Lemma failure_not_ok code msg debug r : failure code msg debug = Ok r -> ok r = true -> False.
Proof. intros H%failure_ok. destruct H as (_ & -> & _). done. Qed.
Lemma succeed_ok l r : succeed l = Ok r -> ok r = true /\ data r = Some (JObj l).
Proof.
  unfold succeed, ToolResult_validate. cbn [ok data error_code error_message Decision.debug produced_artifacts]. intros H%run_Ok. apply after_VOk in H as [H _].
  repeat (apply vap_VOk in H as (? & ? & H & ?Hf & <-)). injection H as <-. cbn [ok data].
  repeat match goal with Hf : field _ _ = VOk _ |- _ => apply field_VOk in Hf end. repeat match goal with Hf : VOk _ = VOk _ |- _ => injection Hf as <- end.
  split; [done|]. match goal with Hf : require_json_serializable "data" _ = Ok _ |- _ => unfold require_json_serializable in Hf; destruct (jsonable (JObj l)); [by injection Hf as <-|discriminate Hf] end.
Qed.

(** The text of a result, from the content of the file: the whole of it decoded, or
    its beginning, marked and cut to the limit *)
Definition decoded_as (a : FsReadTextArgs) (max_bytes : Z) (content text : string) : Prop :=
  if max_bytes <? bytes content
  then exists t, decode (rd_encoding a) (rd_errors a) false (stake (Z.to_nat max_bytes) content) = Ok t /\
    text = truncate_text (t +:+ TRUNCATION_MARKER) max_bytes TRUNCATION_MARKER /\ bytes text <= max_bytes
  else exists t rest, decode (rd_encoding a) (rd_errors a) true content = Ok t /\ decode (rd_encoding a) (rd_errors a) true "" = Ok rest /\ text = t +:+ rest.

Lemma stake_substring n m s : (n <= m)%nat -> stake n (String.substring 0 m s) = stake n s.
Proof. revert n m. induction s as [|c s IH]; intros [|n] [|m] Hn; cbn; try done; try lia. f_equal. apply IH. lia. Qed.
Lemma read_result_spec d a root max resolved content r : 0 <= max -> read_result max_links decode d a root max resolved (String.substring 0 (Z.to_nat (max + 1)) content) = Ok r ->
  ok r = true -> exists text, decoded_as a max content text /\
    data r = Some (JObj [("path", JStr (display_path resolved root)); ("truncated", JBool (max <? bytes content)); ("file_bytes", file_size max_links d resolved);
                         ("encoding", JStr (rd_encoding a)); ("text", JStr text)]).
Proof.
  intros Hm. unfold read_result. set (raw := String.substring 0 (Z.to_nat (max + 1)) content).
  assert (max <? bytes raw = (max <? bytes content)) as ->.
  { unfold raw, bytes. rewrite length_substring, Nat.sub_0_r. destruct (Z.ltb_spec max (Z.of_nat (String.length content))); [apply Z.ltb_lt|apply Z.ltb_ge]; lia. }
  destruct (decode_text_bytes _ _ _ _ _) as [text|e] eqn:Ed.
  2:{ intros H Hok. exfalso. destruct (is_class "LookupError" e); [by eapply failure_not_ok|]. destruct (is_class "UnicodeDecodeError" e); [by eapply failure_not_ok|done]. }
  intros (t & Ht & [Hok Hd]%succeed_ok)%res_bind_Ok _. exists t. split; [|exact Hd]. unfold decoded_as. unfold decode_text_bytes in Ed.
  destruct (Z.ltb_spec max (bytes content)).
  - apply res_bind_Ok in Ed as (t0 & Et & [= <-]). unfold truncate_str in Ht. apply res_bind_Ok in Ht as ([] & _ & [= <-]). exists t0.
    split; [|split; [done|by apply truncate_text_bytes]]. rewrite <- Et. cbn [negb]. f_equal. unfold raw. rewrite stake_substring; [done|lia].
  - apply res_bind_Ok in Ed as (t0 & Et & (rest & Er & [= <-])%res_bind_Ok). injection Ht as <-. exists t0, rest. split_and!; try done. rewrite <- Et. cbn [negb].
    unfold raw. rewrite substring_whole; [done|]. unfold bytes in *. lia.
Qed.

(** C33: what [fs.read_text] returns lies in the workspace. A result that says [ok]
    is made of one file under the resolved workspace root, on a way of directories
    without links: it tells the size of the file and its text, decoded as a whole
    when it fits the limit, else the beginning of it, marked, within the limit, with
    [truncated] set. *)
Theorem read_tool_confined limit a root d r : 0 <= limit -> read_text max_links expanduser_name decode limit a root d = Ok r -> ok r = true ->
  exists base k content mode text, root_of d root = Ok base /\ base `prefix_of` k /\ canonical d k /\ d !! k = Some (File content mode) /\
    decoded_as a (Z.min limit 64000) content text /\
    data r = Some (JObj [("path", JStr (display_path k root)); ("truncated", JBool (Z.min limit 64000 <? bytes content)); ("file_bytes", JInt (bytes content));
                         ("encoding", JStr (rd_encoding a)); ("text", JStr text)]).
Proof.
  intros Hm. unfold read_text. destruct (resolve d (rd_path a) root) as [k|e] eqn:Er; [|intros H Hok; exfalso; destruct e; try done; by eapply failure_not_ok].
  destruct (exists_at max_links d k) eqn:Ee; cbn [negb]; [|intros H Hok; exfalso; by eapply failure_not_ok].
  destruct (resolved_exists d _ root k Er Ee) as (Hc & Hs & base & Hb & Hp). unfold is_file. rewrite Hs.
  destruct (d !! k) as [[content mode| |]|] eqn:Ek; cbn [negb]; try (intros H Hok; exfalso; by eapply failure_not_ok).
  unfold open_read. rewrite Hs. cbn [mbind res_bind]. rewrite Ek. intros H Hok. apply read_result_spec in H as (text & Ht & Hd); [|lia|done].
  exists base, k, content, mode, text. split_and!; try done. rewrite Hd. unfold file_size. by rewrite Hs, Ek.
Qed.

(** ** Listing *)
(** The visible entries of the directory [k] *)
Definition visible (d : fs) (k : list string) (include_hidden : bool) (p : string * node) : Prop :=
  d !! (k ++ [p.1])%list = Some p.2 /\ (include_hidden = true \/ hidden p.1 = false).
Lemma scandir_spec d k l : well_formed d -> stat max_links d k = Ok k -> scandir max_links d k = Ok l ->
  is_dir_at d k = true /\ NoDup l.*1 /\ forall p, p ∈ l <-> d !! (k ++ [p.1])%list = Some p.2.
Proof.
  intros Hw Hs. unfold scandir. rewrite Hs. cbn [mbind res_bind]. destruct (is_dir_at d k) eqn:Ed; [|done]. intros [= <-]. split; [done|].
  assert (forall q, q ∈ List.filter (child_of k) (map_to_list d) -> q.1 <> [] /\ parent q.1 = k /\ d !! q.1 = Some q.2) as Hf.
  { intros [q n] [Hq Hc]%list_elem_of_In%filter_In. apply list_elem_of_In, elem_of_map_to_list in Hq. apply bool_decide_eq_true in Hc as [Hc1 Hc2]. by split_and!. }
  split.
  - assert (map fst (map (fun p : list string * node => (name_of p.1, p.2)) (List.filter (child_of k) (map_to_list d))) =
            map name_of (map fst (List.filter (child_of k) (map_to_list d)))) as E by (rewrite !map_map; done). change (NoDup (map fst (map (fun p : list string * node => (name_of p.1, p.2)) (List.filter (child_of k) (map_to_list d))))). rewrite E. clear E.
    assert (NoDup (map fst (List.filter (child_of k) (map_to_list d)))) as Hn.
    { pose proof (NoDup_fst_map_to_list d) as Hn. change ((map_to_list d).*1) with (map fst (map_to_list d)) in Hn. revert Hn. generalize (map_to_list d). clear. intros l.
      induction l as [|p l IH]; cbn; [done|]. inversion 1 as [|? ? Hp Hl]; subst. destruct (child_of k p); [|by apply IH]. cbn. constructor; [|by apply IH].
      intros Hin. apply Hp. apply list_elem_of_In, in_map_iff in Hin as (q & <- & [Hq _]%filter_In). apply list_elem_of_In, in_map_iff. by exists q. }
    assert (forall q, q ∈ map fst (List.filter (child_of k) (map_to_list d)) -> q = (k ++ [name_of q])%list) as Hk.
    { intros q (x & <- & Hx)%list_elem_of_In%in_map_iff. apply list_elem_of_In, Hf in Hx as (Hne & Hpx & _). rewrite <- Hpx. by rewrite parent_name. }
    revert Hn Hk. generalize (map fst (List.filter (child_of k) (map_to_list d))). clear. intros l. induction 1 as [|q l Hq Hl IH]; cbn; [constructor|].
    intros Hk. constructor; [|apply IH; intros x Hx; apply Hk; by right]. intros Hin. apply Hq. apply list_elem_of_In, in_map_iff in Hin as (x & Hx & Hi). apply list_elem_of_In in Hi.
    rewrite (Hk q ltac:(left)), <- Hx, <- (Hk x ltac:(by right)). done.
  - intros [c n]. rewrite list_elem_of_In, in_map_iff. cbn [fst snd]. split.
    + intros (q & [= <- <-] & Hq). apply list_elem_of_In, Hf in Hq as (Hne & <- & Hd). by rewrite parent_name.
    + intros Hd. exists ((k ++ [c])%list, n). cbn [fst snd]. split; [unfold name_of; by rewrite last_last|]. apply filter_In.
      split; [apply list_elem_of_In; by apply elem_of_map_to_list|]. unfold child_of. cbn [fst]. apply bool_decide_eq_true. split; [by destruct k|apply parent_snoc].
Qed.
Lemma items_sorted_app (l1 l2 : list (string * node)) : items_sorted (l1 ++ l2) -> items_sorted l1 /\ forall p q, p ∈ l1 -> q ∈ l2 -> ple p.1 q.1 = true.
Proof.
  unfold items_sorted. induction l1 as [|p l1 IH]; cbn; [split; [constructor|by intros p q Hp%not_elem_of_nil]|]. inversion 1 as [|? ? Hs Hall]; subst.
  destruct (IH Hs) as [H1 H2]. rewrite List.Forall_forall in Hall. split.
  - constructor; [done|]. apply List.Forall_forall. intros x Hx. apply Hall, in_app_iff. by left.
  - intros x q [->|Hx]%elem_of_cons Hq; [|by apply H2]. apply Hall, in_app_iff. right. by apply list_elem_of_In.
Qed.

(** what [fs.list_dir] returns is the beginning of one directory of the
    workspace. A result that says [ok] lists a directory under the resolved
    workspace root: entries that are there, with what they are, each once, sorted by
    name, hidden ones only when asked for, at most [max_entries]; every entry that is
    left out comes after all that are listed, and none is left out unless
    [truncated] is set. *)
Theorem list_tool_confined a root d r : well_formed d -> 0 <= ls_max_entries a -> list_dir max_links expanduser_name a root d = Ok r -> ok r = true ->
  exists base k entries truncated, root_of d root = Ok base /\ base `prefix_of` k /\ canonical d k /\ is_dir_at d k = true /\
    data r = Some (JObj [("path", JStr (display_path k root)); ("truncated", JBool truncated);
                         ("items", JArr (map (fun p => JObj [("name", JStr p.1); ("type", JStr (dir_entry_kind p.2))]) entries))]) /\
    items_sorted entries /\ NoDup entries.*1 /\ Z.of_nat (length entries) <= ls_max_entries a /\
    (forall p, p ∈ entries -> visible d k (ls_include_hidden a) p) /\
    forall p, visible d k (ls_include_hidden a) p -> p ∈ entries \/ truncated = true /\ forall q, q ∈ entries -> ple q.1 p.1 = true.
Proof.
  intros Hw Hm. unfold list_dir. destruct (resolve d (ls_path a) root) as [k|e] eqn:Er; [|intros H Hok; exfalso; destruct e; try done; by eapply failure_not_ok].
  destruct (exists_at max_links d k) eqn:Ee; cbn [negb]; [|intros H Hok; exfalso; by eapply failure_not_ok].
  destruct (resolved_exists d _ root k Er Ee) as (Hc & Hs & base & Hb & Hp). destruct (is_dir max_links d k); cbn [negb]; [|intros H Hok; exfalso; by eapply failure_not_ok].
  destruct (scandir max_links d k) as [found|e] eqn:Ef; [|intros H Hok; exfalso; by eapply failure_not_ok].
  destruct (scandir_spec d k found Hw Hs Ef) as (Hd & Hn & Hin). unfold nsmallest. rewrite take_take, length_take.
  set (all := sort_items (List.filter (fun p => ls_include_hidden a || negb (hidden p.1)) found)).
  replace (Z.to_nat (ls_max_entries a) `min` Z.to_nat (ls_max_entries a + 1))%nat with (Z.to_nat (ls_max_entries a)) by lia.
  set (n := Z.to_nat (ls_max_entries a)). intros [_ Hdata]%succeed_ok _.
  assert (forall p, p ∈ all <-> visible d k (ls_include_hidden a) p) as Hall.
  { intros p. unfold all. rewrite sort_items_perm, list_elem_of_In, filter_In, <- list_elem_of_In, Hin, orb_true_iff, negb_true_iff. done. }
  assert (items_sorted all) as Hsort by apply sort_items_sorted. pose proof (take_drop n all) as Htd. rewrite <- Htd in Hsort. apply items_sorted_app in Hsort as [Hs1 Hs2].
  assert (NoDup all.*1) as Hnd.
  { unfold all. rewrite (sort_items_perm (List.filter _ found)). revert Hn. clear. induction found as [|p l IH]; cbn; [done|]. inversion 1 as [|? ? Hp Hl]; subst.
    destruct (_ || _); [|by apply IH]. cbn. constructor; [|by apply IH]. intros Hi. apply Hp. apply list_elem_of_fmap in Hi as (q & -> & Hq). apply list_elem_of_fmap.
    exists q. split; [done|]. apply list_elem_of_In. apply list_elem_of_In, filter_In in Hq. by destruct Hq. }
  eexists base, k, (take n all), _. split_and!; [done|done|done|done|exact Hdata|done| | | |].
  - rewrite <- Htd, fmap_app in Hnd. by apply NoDup_app in Hnd as [? _].
  - rewrite length_take. lia.
  - intros p Hp'. apply Hall. rewrite <- Htd. by apply elem_of_app; left.
  - intros p Hv. apply Hall in Hv. rewrite <- Htd in Hv. apply elem_of_app in Hv as [Hv|Hv]; [by left|right]. split; [|intros q Hq; by apply Hs2].
    apply Z.ltb_lt. assert (0 < length (drop n all))%nat as Hl by (destruct (drop n all); [by apply not_elem_of_nil in Hv|cbn; lia]). rewrite length_drop in Hl. lia.
Qed.
End confined.

(** ** Writing *)
Section whole.
Variable max_links : nat.
Variable expanduser_name : string -> option path.
Variable dir_mode : Z.
Variable encode : string -> decode_errors -> string -> res string.
Variable sha256_hex : string -> string.
#[local] Notation root_of d root := (normalize_workspace_root max_links expanduser_name d root).
#[local] Notation resolve d p root := (resolve_path_in_workspace max_links expanduser_name d p root false).
#[local] Notation write := (write_text max_links expanduser_name dir_mode encode sha256_hex).

Lemma succeed_returns l : jsonable (JObj l) = true -> exists r, succeed l = Ok r /\ ok r = true.
Proof.
  intros Hj. destruct (succeed l) as [r|e] eqn:E; [exists r; split; [done|]; by destruct (succeed_ok _ _ E)|]. exfalso.
  unfold succeed, ToolResult_validate in E. cbn [ok data error_code error_message Decision.debug produced_artifacts require_json_serializable] in E. by rewrite Hj in E.
Qed.

(** C17: [fs.write_text] replaces one file of the workspace as a whole, or changes no
    file, and says which. Let the path resolve to [r], without [..], and the name of
    the temporary file be new. Then [r] lies under the resolved workspace root, and
    all that is new besides are directories on the way to [r]. A result that says
    [ok] means that the file at [r] is the encoded text, within the limit; or, in a
    dry run, that nothing changed at all. Any other result, and an exception, means
    that no file was changed and no temporary file is left, also when writing failed
    half-way. *)
Theorem write_tool_whole max_bytes hex o a root dry_run d r x d2 : well_formed d -> resolve d (wr_path a) root = Ok r -> ".." ∉ r ->
  (forall l, d !! (l ++ [atomic_temp_name (name_of r) hex])%list = None) ->
  write max_bytes hex o a root dry_run d = (x, d2) ->
  exists base d1, root_of d root = Ok base /\ base `prefix_of` r /\ new_dirs dir_mode d d1 r /\ (dry_run = true -> d2 = d) /\
  match x with
  | Ok result =>
      if ok result then dry_run = true \/
        exists data m, encode (wr_encoding a) (wr_errors a) (wr_text a) = Ok data /\ o = Written /\ bytes data <= max_bytes /\ d2 = <[r := File data m]> d1
      else d2 = d1
  | Raise _ => d2 = d1
  end.
Proof.
  intros Hw Hr Hn Hf. destruct (resolve_within _ _ _ _ _ _ _ Hr) as (base & Hb & Hp). unfold write_text. rewrite Hr.
  assert (forall y : res ToolResult, (forall result, y = Ok result -> ok result = true -> dry_run = true) -> (y, d) = (x, d2) ->
    exists base d1, root_of d root = Ok base /\ base `prefix_of` r /\ new_dirs dir_mode d d1 r /\ (dry_run = true -> d2 = d) /\
    match x with
    | Ok result => if ok result then dry_run = true \/ exists data m, encode (wr_encoding a) (wr_errors a) (wr_text a) = Ok data /\ o = Written /\
        bytes data <= max_bytes /\ d2 = <[r := File data m]> d1 else d2 = d1
    | Raise _ => d2 = d1
    end) as Hsame.
  { intros y Hy [= -> <-]. exists base, d. split_and!; try done; [apply new_dirs_refl|]. destruct x as [result|]; [|done]. destruct (ok result) eqn:Eo; [|done]. left. by eapply Hy. }
  destruct (encode _ _ _) as [data|e] eqn:Ee.
  2:{ apply Hsame. intros result H Hok. exfalso. destruct (is_class "LookupError" e); [by eapply failure_not_ok|].
      destruct (is_class "UnicodeEncodeError" e); [by eapply failure_not_ok|done]. }
  destruct (Z.ltb_spec max_bytes (bytes data)); [apply Hsame; intros result H' Hok; exfalso; by eapply failure_not_ok|].
  destruct dry_run eqn:Edry; [by apply Hsame|]. clear Hsame. unfold write_file, atomic_write_text. unfold mbind at 1, st_bind at 1, lift at 1. rewrite Ee.
  destruct (atomic_write_bytes _ _ _ _ _ _ _ _ _ _ _ d) as [y d3] eqn:Ew. apply (atomic_write_whole max_links expanduser_name dir_mode d _ root hex o data _ _ _ r) in Ew; try done.
  destruct Ew as (base' & d1 & Hb' & Hp' & Hnew & Hx). intros Hres. exists base', d1. split_and!; try done. destruct y as [r'|e].
  - destruct Hx as (_ & Ho & _ & m & -> & _).
    destruct (succeed_returns (("dry_run", JBool false) :: write_summary max_links sha256_hex d a root r data)) as (result & Es & Hok); [done|].
    rewrite Es in Hres. injection Hres as <- <-. rewrite Hok. right. by exists data, m.
  - subst d3. destruct e as [m| | | | | | | | | | | | | | | | | | | | | | |]; try (injection Hres as <- <-; cbn [is_os_error]; done).
    + injection Hres as <- <-. destruct (failure _ _ _) as [result|] eqn:Efl; [|done]. by apply failure_ok in Efl as (_ & -> & _).
    + injection Hres as <- <-. destruct (bool_decide _); [|done]. unfold tool_error. destruct (failure _ _ _) as [result|] eqn:Efl; [|done].
      by apply failure_ok in Efl as (_ & -> & _).
Qed.
End whole.

(** ** The sample workspace *)
Definition latin_decode (encoding : string) (errors : decode_errors) (final : bool) (raw : string) : res string :=
  if (encoding =? "utf-8")%string then Ok raw else Raise (OtherError "LookupError" "unknown encoding").
Definition latin_encode (encoding : string) (errors : decode_errors) (text : string) : res string := latin_decode encoding errors true text.
Definition read_in : FsReadTextArgs := mkFsReadTextArgs (path_of "./in") "utf-8" replace.
Definition write_new : FsWriteTextArgs := mkFsWriteTextArgs (path_of "new//b.txt") "text" "utf-8" strict true.
Definition list_all : FsListDirArgs := mkFsListDirArgs (path_of ".") false 2.
#[local] Notation sample_run o dry := (write_text 40 no_home 493 latin_encode (fun _ => "digest") 10 "5e" o write_new sample_root dry sample_fs).
Example file_tools :
  data <$> read_text 40 no_home latin_decode 1000 read_in sample_root sample_fs =
    Ok (Some (JObj [("path", JStr "a.txt"); ("truncated", JBool false); ("file_bytes", JInt 3); ("encoding", JStr "utf-8"); ("text", JStr "old")])) /\
  data <$> list_dir 40 no_home list_all sample_root sample_fs =
    Ok (Some (JObj [("path", JStr "."); ("truncated", JBool true);
      ("items", JArr [JObj [("name", JStr "a.txt"); ("type", JStr "file")]; JObj [("name", JStr "in"); ("type", JStr "other")]])])) /\
  error_code <$> read_text 40 no_home latin_decode 1000 (mkFsReadTextArgs (path_of "out") "utf-8" replace) sample_root sample_fs = Ok (Some "WORKSPACE_VIOLATION") /\
  error_code <$> (sample_run (FailedAfter "te" (OtherError "OSError" "disk full")) false).1 = Ok (Some "TOOL_ERROR") /\
  path_of "/a/./b//c" = mkPath true ["a"; "b"; "c"].
Proof. vm_compute. by split_and!. Qed.

Lemma read_tool_confined_witness : exists k content mode, canonical sample_fs k /\ sample_fs !! k = Some (File content mode).
Proof.
  destruct (read_text 40 no_home latin_decode 1000 read_in sample_root sample_fs) as [r|e] eqn:E.
  - destruct (read_tool_confined 40 no_home latin_decode 1000 read_in sample_root sample_fs r) as (base & k & content & mode & text & _ & _ & Hc & Hk & _).
    + lia.
    + exact E.
    + assert (ok <$> read_text 40 no_home latin_decode 1000 read_in sample_root sample_fs = Ok true) as H by (vm_compute; reflexivity). rewrite E in H. injection H as H. exact H.
    + exists k, content, mode. split; [exact Hc|exact Hk].
  - exfalso. assert (is_ok (read_text 40 no_home latin_decode 1000 read_in sample_root sample_fs) = true) as H by (vm_compute; reflexivity). rewrite E in H. discriminate H.
Defined.
Lemma list_tool_confined_witness : exists k entries, canonical sample_fs k /\ items_sorted entries /\ forall p, p ∈ entries -> visible sample_fs k false p.
Proof.
  destruct (list_dir 40 no_home list_all sample_root sample_fs) as [r|e] eqn:E.
  - destruct (list_tool_confined 40 no_home list_all sample_root sample_fs r sample_well_formed) as (base & k & entries & t & _ & _ & Hc & _ & _ & Hs & _ & _ & Hv & _).
    + discriminate.
    + exact E.
    + assert (ok <$> list_dir 40 no_home list_all sample_root sample_fs = Ok true) as H by (vm_compute; reflexivity). rewrite E in H. injection H as H. exact H.
    + exists k, entries. split; [exact Hc|]. split; [exact Hs|exact Hv].
  - exfalso. assert (is_ok (list_dir 40 no_home list_all sample_root sample_fs) = true) as H by (vm_compute; reflexivity). rewrite E in H. discriminate H.
Defined.
Lemma temp_name_fresh l : sample_fs !! (l ++ [atomic_temp_name "b.txt" "5e"])%list = None.
Proof.
  destruct (sample_fs !! (l ++ [atomic_temp_name "b.txt" "5e"])%list) as [n|] eqn:En; [|reflexivity]. exfalso.
  assert (forall l n, sample_fs !! l = Some n -> List.last l "" <> atomic_temp_name "b.txt" "5e") as Hall
    by (refine (sample_entries (fun l _ => List.last l "" <> atomic_temp_name "b.txt" "5e") _ _ _ _ _ _); discriminate).
  apply (Hall _ _ En). apply last_last.
Qed.
Lemma write_tool_whole_witness : exists d1 m, new_dirs 493 sample_fs d1 ["srv"; "work"; "new"; "b.txt"] /\
  (sample_run Written false).2 = <[["srv"; "work"; "new"; "b.txt"] := File "text" m]> d1.
Proof.
  destruct (sample_run Written false) as [x d2] eqn:E.
  destruct (write_tool_whole 40 no_home 493 latin_encode (fun _ => "digest") 10 "5e" Written write_new sample_root false sample_fs
    ["srv"; "work"; "new"; "b.txt"] x d2 sample_well_formed) as (base & d1 & _ & _ & Hnew & _ & H).
  - vm_compute. reflexivity.
  - apply (bool_decide_unpack _). vm_compute. exact I.
  - apply temp_name_fresh.
  - exact E.
  - assert (ok <$> (sample_run Written false).1 = Ok true) as Hok by (vm_compute; reflexivity). rewrite E in Hok. cbn [fst] in Hok.
    destruct x as [result|e]; [|discriminate Hok]. injection Hok as Hok. rewrite Hok in H. destruct H as [H|(data & m & Hd & _ & _ & ->)]; [discriminate H|].
    injection Hd as <-. exists d1, m. split; [exact Hnew|reflexivity].
Defined.
