(* ===== verification/Safeguards.v ===== *)
(** * The policy gate over the real checks

    [Policy.v] and [Tools.v] use what [net_safety] and [fs_safety] promise through
    the class [Checks]; here is its instance from [NetSafety.v] and [FsSafety.v]. The
    result: what the default gate allows goes to an allowed host by https, or to a
    listed webhook target, when the URL has no host in brackets, and touches only
    paths of the workspace. *)

From Stdlib Require Import ZArith Lia Ascii.
From S2P Require Import Prelude PyText Models Urls NetSafety Decision Policy FsSafety FsTools.

Section safeguards.
Variable checknetloc : string -> bool.
Variable to_ascii : string -> res string.
Variable max_links : nat.
Variable expanduser_name : string -> option path.
Variable d : gmap (list string) node.
(** [json.dumps(parsed_args.model_dump(mode="json"), ensure_ascii=False)] *)
Variable dump : parsed_args -> string.

#[local] Instance safeguards : Checks := {|
  url_hostname := fun url => s ← urlsplit checknetloc url; Ok (hostname s);
  url_fragment := fun url => s ← urlsplit checknetloc url; Ok (fragment s);
  Policy.validate_and_normalize_url := fun url allowed => NetSafety.validate_and_normalize_url checknetloc to_ascii (default_options allowed) url;
  Policy.hostname_matches_allowlist := NetSafety.hostname_matches_allowlist to_ascii;
  Policy.webhook_target_matches_allowlist := NetSafety.webhook_target_matches_allowlist checknetloc to_ascii;
  Policy.resolve_path_in_workspace := fun p root =>
    r ← FsSafety.resolve_path_in_workspace max_links expanduser_name d (path_of p) (path_of root) false; Ok (path_str r);
  dump_text := dump;
|}.

(** Where a client goes with the URL, under a list of domains, or of targets *)
Record destination (u h : string) (allowed : option (list string)) (targets : list string) : Prop := {
  de_split : exists s, urlsplit checknetloc u = Ok s /\ scheme s = "https" /\ hostname s = Some h /\ has_userinfo s = false;
  de_host : host_allowed to_ascii (default_options allowed) h;
  de_target : allowed = None -> strip u = u -> exists raw t, raw ∈ targets /\ normalize_webhook_target checknetloc to_ascii raw = Ok t /\ listed h (tg_host t);
}.
(** A path of the workspace: what of it exists lies under the resolved root, without links. *)
Definition inside (root p : string) : Prop :=
  exists base k s, normalize_workspace_root max_links expanduser_name d (path_of root) = Ok base /\ base `prefix_of` (k ++ s)%list /\ rooted d k s.

Lemma accepted_destination url u allowed targets : all_chars is_ascii url = true -> has_char "["%char url = false ->
  NetSafety.validate_and_normalize_url checknetloc to_ascii (default_options allowed) url = Ok u ->
  (allowed = None -> NetSafety.webhook_target_matches_allowlist checknetloc to_ascii u targets = Ok true) ->
  exists h, destination u h allowed targets.
Proof.
  intros Ha Hb Hv Ht. destruct (validate_parts _ _ _ _ _ Ha Hb Hv) as (sch & h & p & path & q & f & -> & Hs & Hsch & Hh & Hp & Hc & Hplain).
  assert (sch = "https") as -> by (unfold check_scheme in Hsch; cbn in Hsch; by apply raise_if_Ok, negb_false_iff, String.eqb_eq in Hsch).
  pose proof (urlsplit_urlunsplit checknetloc _ Hplain) as E. exists h. split.
  - eexists. split; [exact E|]. split; [done|]. split; [by apply (parts_hostname to_ascii)|by apply (parts_userinfo to_ascii)].
  - by apply check_host_allowed.
  - intros -> Hst. specialize (Ht eq_refl). pose proof (accepted_parts checknetloc to_ascii _ _ _ _ _ _ _ Hs Hh Hp Hsch Hc Hplain Hst) as Hu.
    unfold NetSafety.webhook_target_matches_allowlist in Ht. rewrite Hu, E in Ht. cbn [mbind res_bind] in Ht.
    rewrite (parts_hostname to_ascii _ _ _ _ _ _ Hh Hp) in Ht. destruct (negb _); [done|]. rewrite (normal_normalize _ _ Hh) in Ht. cbn [mbind res_bind] in Ht.
    apply res_bind_Ok in Ht as (p' & _ & Ht). apply matches_some_spec in Ht as (raw & t & Hr & Hn & Hm); [|done]. exists raw, t. split; [done|]. split; [done|].
    unfold target_matches in Hm. apply andb_prop in Hm as [_ Hm]. unfold hostname_in_allowlist in Hm. cbn [existsb] in Hm. rewrite orb_false_r in Hm.
    by apply entry_matches_listed in Hm as [_ Hm].
Qed.

End safeguards.

(** ** Concrete calls *)
Definition net_manifest (scope : string) : ToolManifest := mkToolManifest "1.0" "t" "1" "A tool" scope false false 30 64000 [] None None.
Definition net_call (scope : string) : ToolCall :=
  {| tool_call_id := "00000000-0000-4000-8000-000000000001"; tool_name := "t"; Models.args := [];
     permission_scope := scope; idempotency_key := "k"; tc_status := ToolCallStatus.PENDING;
     tc_created_at_ms := 0; tc_started_at_ms := None; tc_completed_at_ms := None; result_ref := None |}.
Definition net_ctx : PolicyContext := mkPolicyContext "dev" false [Scope.NET_HTTP; Scope.FS_READ; Scope.WEBHOOK_EMIT] [] [] [] ["*.example.com"]
  ["https://hooks.example.com/in"] "/srv/work".
Definition gate_run (scope : string) (args : parsed_args) : res PolicyDecision :=
  @gate_evaluate (@build_default_policy_rules (safeguards (fun _ => true) no_unicode 40 no_home sample_fs (fun _ => "")))
    (net_call scope) (mkToolSpec "t" (net_manifest scope)) args net_ctx.
Example gate_decisions :
  pd_action <$> gate_run Scope.NET_HTTP [("url", AStr "https://api.example.com/x")] = Ok PolicyAction.ALLOW /\
  pd_action <$> gate_run Scope.NET_HTTP [("url", AStr "https://example.org/x")] = Ok PolicyAction.DENY /\
  pd_action <$> gate_run Scope.WEBHOOK_EMIT [("url", AStr "https://Hooks.example.com:443/in")] = Ok PolicyAction.ALLOW /\
  pd_action <$> gate_run Scope.FS_READ [("path", APath "in")] = Ok PolicyAction.ALLOW /\
  pd_action <$> gate_run Scope.FS_READ [("path", APath "out")] = Ok PolicyAction.DENY /\
  pd_action <$> gate_run Scope.NET_HTTP [("url", AStr "https://[v1.evil.com:80.example.com]/x")] = Ok PolicyAction.ALLOW.
Proof. vm_compute. by split_and!. Qed.
