(* ===== verification/Memory.v ===== *)
(** * Memory of past runs: [memory/models.py], [memory/summary.py], [infra/db/repos/memory.py]

    What a planner is told about past runs: the item a run packet is summarised
    into, its validation, and the table of items with one item for each run. The
    results: the summary of a valid packet is a valid item that counts what the
    packet holds; an item that is stored is the one that is read, and no other
    run's item changes; the escaped pattern of a search finds exactly the items in
    whose summary, or in the JSON text of whose content or tags, the database finds
    the words, and what that means for the items themselves. *)

From Stdlib Require Import ZArith SpecFloat Lia Ascii Sorted.
From S2P Require Import Prelude PyFloat PyText Uuid Models Lifecycle Serialization Events Plans RunPackets EventStore Rows Repos PacketStore Persistence.

#[local] Notation dict := (list (string * json)).

(** ** [MemoryItem] *)
Record MemoryItem := mkMemoryItem {
  memory_id : string;
  mem_run_id : string;
  mem_event_id : option string;
  kind : string;
  event_type : option string;
  event_source : option string;
  mem_summary : string;
  content : dict;
  tags : list string;
  mem_created_at_ms : Z;
  mem_updated_at_ms : Z;
}.

(** What the constructor is called with; [None] is an identifier that is not given. *)
Record memory_input := mkMemoryInput {
  in_memory_id : option id_input;
  in_mem_run_id : id_input;
  in_mem_event_id : id_input;
  in_kind : string;
  in_mem_event_type : option string;
  in_mem_event_source : option string;
  in_summary : string;
  in_content : dict;
  in_tags : list string;
  in_created_at_ms : json;
  in_updated_at_ms : json;
}.

Section item.

(** [_validate_uuid_fields], then pydantic's own check of a field that is not optional. *)
Definition validate_uuid_field (field_name : string) (v : id_input) : res (option string) :=
  match v with IdNone => Ok None | _ => s ← parse_id field_name v; Ok (Some s) end.
Definition a_string (o : option string) : res string :=
  match o with Some s => Ok s | None => Raise (ValueError "Input should be a valid string") end.

Definition normalize_optional_strings (field_name : string) (v : option string) : res (option string) :=
  match v with None => Ok None | Some v => t ← non_empty field_name v; Ok (Some t) end.

Definition validate_content_json (v : dict) : res dict :=
  if jsonable (JObj v) then Ok v else Raise (ValueError "content must be JSON-serializable").

(** [_validate_tags]: trimmed, each once, in the order of the first occurrence. *)
Fixpoint validate_tags (seen : list string) (value : list string) : res (list string) :=
  match value with
  | [] => Ok []
  | item :: rest =>
      let trimmed := strip item in
      if is_empty trimmed then Raise (ValueError "tags entries must be non-empty")
      else if bool_decide (trimmed ∈ seen) then validate_tags seen rest
      else normalized ← validate_tags (trimmed :: seen) rest; Ok (trimmed :: normalized)
  end.

(** [int(text)] of trimmed ASCII text: digits, single underscores between them, a sign. *)
Definition digit_of (c : ascii) : option Z :=
  let n := Z.of_N (N_of_ascii c) in if (48 <=? n) && (n <=? 57) then Some (n - 48) else None.
Fixpoint int_digits (after_digit : bool) (acc : Z) (s : string) : option Z :=
  match s with
  | EmptyString => if after_digit then Some acc else None
  | String c s' =>
      match digit_of c with
      | Some d => int_digits true (10 * acc + d) s'
      | None => if (c =? "_")%char && after_digit then int_digits false acc s' else None
      end
  end.
Definition int_of_text (s : string) : option Z :=
  match s with
  | String "-" s' => Z.opp <$> int_digits false 0 s'
  | String "+" s' => int_digits false 0 s'
  | _ => int_digits false 0 s
  end.

(** [_validate_timestamp_ms] *)
Definition validate_timestamp_ms (field_name : string) (v : json) : res Z :=
  let bad := field_name +:+ " must be an integer timestamp" in
  parsed ← match v with
           | JInt n => Ok n
           | JFloat f =>
               if negb (isfinite f) then Raise (ValueError (field_name +:+ " must be finite"))
               else if negb (feq (of_Z (ftrunc f)) f) then Raise (ValueError bad)
               else Ok (ftrunc f)
           | JStr s =>
               if is_empty (strip s) then Raise (ValueError (field_name +:+ " must be non-empty"))
               else match int_of_text (strip s) with Some n => Ok n | None => Raise (ValueError bad) end
           | _ => Raise (TypeError bad)
           end;
  raise_if (parsed <? 0) (ValueError (field_name +:+ " must be >= 0"));;
  Ok parsed.

Definition validate_timestamp_order (m : MemoryItem) : res unit :=
  raise_if (mem_updated_at_ms m <? mem_created_at_ms m) (ValueError "updated_at_ms must be >= created_at_ms").

(** [MemoryItem(...)]; [fresh] is what [str(uuid4())] returns. *)
Definition MemoryItem_validate (fresh : string) (i : memory_input) : res MemoryItem :=
  run (after validate_timestamp_order (VOk mkMemoryItem
    <*> field "memory_id" (match in_memory_id i with
                           | None => Ok fresh
                           | Some v => o ← validate_uuid_field "memory_id" v; a_string o
                           end)
    <*> field "run_id" (o ← validate_uuid_field "run_id" (in_mem_run_id i); a_string o)
    <*> field "event_id" (validate_uuid_field "event_id" (in_mem_event_id i))
    <*> field "kind" (non_empty "kind" (in_kind i))
    <*> field "event_type" (normalize_optional_strings "event_type" (in_mem_event_type i))
    <*> field "event_source" (normalize_optional_strings "event_source" (in_mem_event_source i))
    <*> field "summary" (non_empty "summary" (in_summary i))
    <*> field "content" (validate_content_json (in_content i))
    <*> field "tags" (validate_tags [] (in_tags i))
    <*> field "created_at_ms" (validate_timestamp_ms "created_at_ms" (in_created_at_ms i))
    <*> field "updated_at_ms" (validate_timestamp_ms "updated_at_ms" (in_updated_at_ms i)))%py).

Definition to_planning_dict (m : MemoryItem) : dict := [
  ("memory_id", JStr (memory_id m)); ("run_id", JStr (mem_run_id m)); ("event_id", json_of JStr (mem_event_id m));
  ("kind", JStr (kind m)); ("event_type", json_of JStr (event_type m)); ("event_source", json_of JStr (event_source m));
  ("summary", JStr (mem_summary m)); ("content", JObj (content m)); ("tags", JArr (map JStr (tags m)));
  ("updated_at_ms", JInt (mem_updated_at_ms m))].
End item.

Example int_texts : map int_of_text ["12"; "-1_0"; "+7"; "1__0"; "_1"; "1_"; ""; "1.0"] = [Some 12; Some (-10); Some 7; None; None; None; None; None].
Proof. by vm_compute. Qed.

(** ** [memory_item_from_run_packet] *)
Definition MEMORY_SUMMARY_VERSION : string := "1".

Definition tool_names (l : list Task) : list string := omap (fun t => tool_name <$> tool_call t) l.
Definition with_status (s : TaskStatus.t) (l : list Task) : Z := Z.of_nat (length (filter (fun t => status t = s) l)).
Definition task_summary (t : Task) : json := JObj [
  ("task_id", JStr (task_id t)); ("name", JStr (name t)); ("status", JStr (TaskStatus.value (status t)));
  ("tool_name", json_of JStr (tool_name <$> tool_call t)); ("depends_on", JArr (map JStr (depends_on t)))].

(** The tags: trimmed, each once, without the empty ones. *)
Fixpoint distinct_tags (seen : list string) (candidates : list string) : list string :=
  match candidates with
  | [] => []
  | c :: rest =>
      let trimmed := strip c in
      if is_empty trimmed || bool_decide (trimmed ∈ seen) then distinct_tags seen rest
      else trimmed :: distinct_tags (trimmed :: seen) rest
  end.

Definition counts (p : RunPacket) : dict := [
  ("tasks_total", JInt (Z.of_nat (length (pk_tasks p))));
  ("tasks_succeeded", JInt (with_status TaskStatus.SUCCEEDED (pk_tasks p)));
  ("tasks_failed", JInt (with_status TaskStatus.FAILED (pk_tasks p)));
  ("tasks_canceled", JInt (with_status TaskStatus.CANCELED (pk_tasks p)));
  ("tool_results_total", JInt (Z.of_nat (length (tool_results p))));
  ("policy_decisions_total", JInt (Z.of_nat (length (policy_decisions p))))].

Definition summary_text (p : RunPacket) : string :=
  ev_type (pk_event p) +:+ " from " +:+ ev_source (pk_event p) +:+
  " with " +:+ str_of_Z (Z.of_nat (length (pk_tasks p))) +:+ " task(s), " +:+
  str_of_Z (with_status TaskStatus.SUCCEEDED (pk_tasks p)) +:+ " succeeded, " +:+
  str_of_Z (with_status TaskStatus.FAILED (pk_tasks p)) +:+ " failed, " +:+
  str_of_Z (Z.of_nat (length (tool_results p))) +:+ " tool result(s), " +:+
  "and " +:+ str_of_Z (Z.of_nat (length (policy_decisions p))) +:+ " policy decision(s)".

Definition summary_content (p : RunPacket) : dict := [
  ("memory_version", JStr MEMORY_SUMMARY_VERSION);
  ("event", JObj [
    ("event_id", JStr (event_id (pk_event p))); ("type", JStr (ev_type (pk_event p))); ("source", JStr (ev_source (pk_event p)));
    ("payload_keys", JArr (map (fun q => JStr q.1) (sort_items (ev_payload (pk_event p)))))]);
  ("counts", JObj (counts p));
  ("plan", JObj (plan p));
  ("reflex_decision", JObj (reflex_decision p));
  ("tasks", JArr (map task_summary (pk_tasks p)))].

(** The times of the results that are an [int]; a [bool] is one. *)
Definition as_number (v : json) : option Z :=
  match v with JInt n => Some n | JBool b => Some (if b then 1 else 0) | _ => None end.
Definition result_times (p : RunPacket) : list json :=
  omap (fun r => v ← aget "recorded_at_ms" r; if is_set (as_number v) then Some v else None) (tool_results p).
(** [max(...)]: the first of the largest. *)
Definition py_max (first : json) (rest : list json) : json :=
  foldl (fun best v => if default 0 (as_number best) <? default 0 (as_number v) then v else best) first rest.
(** [packet.completed_at_ms or packet.created_at_ms] *)
Definition completed_or_created (p : RunPacket) : Z :=
  match pk_completed_at_ms p with Some c => if c =? 0 then pk_created_at_ms p else c | None => pk_created_at_ms p end.

Definition memory_item_from_run_packet (fresh : string) (p : RunPacket) : res MemoryItem :=
  let e := pk_event p in
  MemoryItem_validate fresh (mkMemoryInput None (IdStr (pk_run_id p)) (IdStr (event_id e)) "run_summary" (Some (ev_type e))
    (Some (ev_source e)) (summary_text p) (summary_content p) (distinct_tags [] (ev_type e :: ev_source e :: tool_names (pk_tasks p)))
    (JInt (pk_created_at_ms p))
    (py_max (JInt (pk_created_at_ms p)) (JInt (completed_or_created p) :: result_times p))).

(** ** Rows: [memory_item_to_row_dict], [memory_item_from_row_dict] *)
Definition memory_item_to_row_dict (m : MemoryItem) : MemoryItemRow :=
  mkMemoryItemRow (memory_id m) (mem_run_id m) (mem_event_id m) (kind m) (event_type m) (event_source m) (mem_summary m)
    (content m) (tags m) (mem_created_at_ms m) (mem_updated_at_ms m).
Definition id_column (v : option string) : id_input := match v with Some s => IdStr s | None => IdNone end.
Definition memory_item_from_row_dict (r : MemoryItemRow) : res MemoryItem :=
  MemoryItem_validate "" (mkMemoryInput (Some (IdStr (mr_memory_id r))) (IdStr (mr_run_id r)) (id_column (mr_event_id r)) (mr_kind r)
    (mr_event_type r) (mr_event_source r) (mr_summary r) (mr_content r) (mr_tags r) (JInt (mr_created_at_ms r)) (JInt (mr_updated_at_ms r))).

(** ** [SqlAlchemyMemoryRepo] *)
Module MemoryRepo.

(** An [ORDER BY]: insertion of the rows, by their keys. *)
Fixpoint insert_by {A} (key : A -> Z * string) (x : A) (l : list A) : list A :=
  match l with
  | [] => [x]
  | y :: l' => if ple (key x) (key y) then x :: l else y :: insert_by key x l'
  end.
Definition order_by {A} (key : A -> Z * string) (l : list A) : list A := foldr (insert_by key) [] l.
Definition age (r : MemoryItemRow) : Z * string := (mr_updated_at_ms r, mr_memory_id r).

Definition of_run (run_id : string) (rows : list MemoryItemRow) : option MemoryItemRow :=
  List.find (fun r => (mr_run_id r =? run_id)%string) rows.

(** What the flush writes: the row of the run is replaced, or the row is added. *)
Definition write_row (row : MemoryItemRow) (rows : list MemoryItemRow) : list MemoryItemRow :=
  match of_run (mr_run_id row) rows with
  | Some _ => map (fun r => if (mr_run_id r =? mr_run_id row)%string then row else r) rows
  | None => (rows ++ [row])%list
  end.
(** What the database refuses: the key of another row, and an event it does not know. *)
Definition constraints (row : MemoryItemRow) (s : store) : res unit :=
  raise_if (existsb (fun r => negb (mr_run_id r =? mr_run_id row)%string && (mr_memory_id r =? mr_memory_id row)%string) (s_memory s))
    (OtherError "IntegrityError" "UNIQUE constraint failed");;
  raise_if (match mr_event_id row with Some e => negb (is_set (aget e (event_rows (s_events s)))) | None => false end)
    (OtherError "IntegrityError" "FOREIGN KEY constraint failed").

Definition upsert (item : MemoryItem) : st store MemoryItem := fun s =>
  if negb (is_set (aget (mem_run_id item) (s_run_rows s))) then (Raise (KeyError ("unknown run_id: " +:+ py_repr (mem_run_id item))), s)
  else
    let row := memory_item_to_row_dict item in
    match constraints row s with
    | Raise e => (Raise e, s)
    | Ok _ =>
        let rows := write_row row (s_memory s) in
        (match of_run (mem_run_id item) rows with
         | Some refreshed => memory_item_from_row_dict refreshed
         | None => Raise (OtherError "NoResultFound" "")
         end, set_memory rows s)
    end.

Definition get_by_run (run_id : string) : st store (option MemoryItem) := fun s =>
  (match strip_or_none run_id with
   | None => Raise (ValueError "run_id must be non-empty")
   | Some k => match of_run k (s_memory s) with
               | None => Ok None
               | Some r => m ← memory_item_from_row_dict r; Ok (Some m)
               end
   end, s).

(** The filters by type and source, which an empty text does not set. *)
Definition normalize_optional_str (v : option string) : option string := v ≫= strip_or_none.
Definition column_is (wanted column : option string) : bool :=
  match wanted with None => true | Some w => match column with Some c => (c =? w)%string | None => false end end.
Definition selected (event_type event_source : option string) (r : MemoryItemRow) : bool :=
  column_is (normalize_optional_str event_type) (mr_event_type r) && column_is (normalize_optional_str event_source) (mr_event_source r).
Definition newest_first (limit offset : Z) (rows : list MemoryItemRow) : res (list MemoryItem) :=
  sequence (map memory_item_from_row_dict (RunPacketRepo.page limit offset (rev (order_by age rows)))).

Definition list_recent (limit offset : Z) (event_type event_source : option string) : st store (list MemoryItem) := fun s =>
  (validate_limit_offset limit offset;;
   if limit =? 0 then Ok []
   else newest_first limit offset (filter (fun r => selected event_type event_source r = true) (s_memory s)), s).

(** [text.replace(c, with_)] for one character. *)
Fixpoint replace_char (c : ascii) (with_ s : string) : string :=
  match s with
  | EmptyString => ""
  | String d s' => (if (d =? c)%char then with_ else String d "") +:+ replace_char c with_ s'
  end.
Definition percent : ascii := "%"%char.
Definition underscore : ascii := "_"%char.

Section search.
(** [str.lower], which folds the letters of all of Unicode; [lower] of the database,
    which may fold fewer; [CAST(... AS VARCHAR)] of a JSON column; and
    [text LIKE pattern ESCAPE '\'] *)
Variable str_lower : string -> string.
Variable sql_lower : string -> string.
Variable json_text : json -> string.
Variable like : string -> string -> bool.

Definition like_pattern (normalized_query : string) : string :=
  let escaped_query :=
    replace_char underscore (String backslash (String underscore ""))
      (replace_char percent (String backslash (String percent ""))
        (replace_char backslash (String backslash (String backslash "")) (str_lower normalized_query))) in
  String percent "" +:+ escaped_query +:+ String percent "".
(** The searched columns of a row. *)
Definition searched (r : MemoryItemRow) : list string :=
  [sql_lower (mr_summary r); sql_lower (json_text (JObj (mr_content r))); sql_lower (json_text (JArr (map JStr (mr_tags r))))].
Definition search (query : string) (limit offset : Z) (event_type event_source : option string) : st store (list MemoryItem) := fun s =>
  (match strip_or_none query with
   | None => Raise (ValueError "query must be non-empty")
   | Some normalized_query =>
       validate_limit_offset limit offset;;
       if limit =? 0 then Ok []
       else newest_first limit offset (filter (fun r =>
              existsb (like (like_pattern normalized_query)) (searched r) && selected event_type event_source r = true) (s_memory s))
   end, s).
End search.

Definition delete_older_than (updated_before_ms limit : Z) : st store Z := fun s =>
  match validate_limit_offset limit 0 with
  | Raise e => (Raise e, s)
  | Ok _ =>
      let expired := filter (fun r => mr_updated_at_ms r < updated_before_ms) (s_memory s) in
      let memory_ids := take (Z.to_nat limit) (map mr_memory_id (order_by age expired)) in
      (Ok (Z.of_nat (length memory_ids)), set_memory (filter (fun r => mr_memory_id r ∉ memory_ids) (s_memory s)) s)
  end.
End MemoryRepo.

(** [create] of the repository of run packets when it has a memory repository. *)
Definition remember (fresh : string) (p : RunPacket) : st store unit :=
  item ← lift (memory_item_from_run_packet fresh p); MemoryRepo.upsert item;; mret tt.

(** ** Valid items *)
Record valid_memory (m : MemoryItem) : Prop := {
  vm_id : is_uuid4_str (memory_id m) = true;
  vm_run : is_uuid4_str (mem_run_id m) = true;
  vm_event : forall e, mem_event_id m = Some e -> is_uuid4_str e = true;
  vm_kind : is_trimmed (kind m);
  vm_type : forall t, event_type m = Some t -> is_trimmed t;
  vm_source : forall t, event_source m = Some t -> is_trimmed t;
  vm_summary : is_trimmed (mem_summary m);
  vm_content : jsonable (JObj (content m)) = true;
  vm_tags : Forall is_trimmed (tags m) /\ NoDup (tags m);
  vm_times : 0 <= mem_created_at_ms m <= mem_updated_at_ms m;
}.

Lemma uuid_field_fix f s : is_uuid4_str s = true -> validate_uuid_field f (IdStr s) = Ok (Some s).
Proof. intros H%(is_uuid4_str_validate f). unfold validate_uuid_field. change (parse_id f (IdStr s)) with (validate_required_id f (IdStr s)). by rewrite H. Qed.
Lemma normal_text_fix f o : (forall t, o = Some t -> is_trimmed t) -> normalize_optional_strings f o = Ok o.
Proof. destruct o as [t|]; [|done]. intros H. cbn. by rewrite non_empty_fix by auto. Qed.
Lemma time_fix f n : 0 <= n -> validate_timestamp_ms f (JInt n) = Ok n.
Proof. intros. unfold validate_timestamp_ms. cbn. by rewrite (proj2 (Z.ltb_ge _ _)). Qed.
Lemma tags_fix seen l : Forall is_trimmed l -> NoDup l -> (forall t, t ∈ l -> t ∉ seen) -> validate_tags seen l = Ok l.
Proof.
  revert seen. induction l as [|t l IH]; intros seen; [done|]. intros [[Hs He] Hl]%Forall_cons_1 [Hn Hd]%NoDup_cons Hseen. cbn [validate_tags].
  rewrite Hs. destruct (is_empty t) eqn:E; [by apply is_empty_spec in E|]. rewrite bool_decide_eq_false_2 by (apply Hseen; by left).
  rewrite IH; [done..|]. intros u Hu [->|Hin]%elem_of_cons; [done|]. eapply Hseen; [right|]; done.
Qed.

(** Valid fields are taken as they are, whatever the item is built from. *)
Lemma MemoryItem_validate_fix fresh i m : valid_memory m ->
  (in_memory_id i = None /\ memory_id m = fresh \/ in_memory_id i = Some (IdStr (memory_id m))) ->
  in_mem_run_id i = IdStr (mem_run_id m) -> in_mem_event_id i = id_column (mem_event_id m) -> in_kind i = kind m ->
  in_mem_event_type i = event_type m -> in_mem_event_source i = event_source m -> in_summary i = mem_summary m -> in_content i = content m ->
  in_tags i = tags m -> in_created_at_ms i = JInt (mem_created_at_ms m) -> in_updated_at_ms i = JInt (mem_updated_at_ms m) ->
  MemoryItem_validate fresh i = Ok m.
Proof.
  destruct i. cbn [in_memory_id in_mem_run_id in_mem_event_id in_kind in_mem_event_type in_mem_event_source in_summary in_content in_tags
    in_created_at_ms in_updated_at_ms]. intros [] Hid -> -> -> -> -> -> -> -> -> ->. apply run_Ok, after_VOk.
  split; [|unfold validate_timestamp_order; by rewrite (proj2 (Z.ltb_ge _ _)) by lia].
  cbn [in_memory_id in_mem_run_id in_mem_event_id in_kind in_mem_event_type in_mem_event_source in_summary in_content in_tags
    in_created_at_ms in_updated_at_ms].
  assert (match in_memory_id0 with None => Ok fresh | Some v => o ← validate_uuid_field "memory_id" v; a_string o end = Ok (memory_id m)) as ->.
  { destruct Hid as [[-> ->]| ->]; [done|]. by rewrite uuid_field_fix. }
  rewrite uuid_field_fix, !non_empty_fix, !normal_text_fix by done.
  assert (validate_uuid_field "event_id" (id_column (mem_event_id m)) = Ok (mem_event_id m)) as ->.
  { destruct (mem_event_id m) as [e|]; [|done]. cbn [id_column]. rewrite uuid_field_fix; auto. }
  unfold validate_content_json. rewrite vm_content0, tags_fix, !time_fix by (lia || apply vm_tags0 || set_solver). by destruct m.
Qed.
Lemma row_roundtrip m : valid_memory m -> memory_item_from_row_dict (memory_item_to_row_dict m) = Ok m.
Proof. intros V. apply MemoryItem_validate_fix; try done. by right. Qed.

(** ** What a packet is summarised into *)
Lemma distinct_tags_spec seen l : Forall is_trimmed (distinct_tags seen l) /\ NoDup (distinct_tags seen l) /\
  forall t, t ∈ distinct_tags seen l <-> t <> "" /\ t ∉ seen /\ exists c, c ∈ l /\ strip c = t.
Proof.
  revert seen. induction l as [|c l IH]; intros seen; cbn [distinct_tags].
  - split_and!; [constructor|constructor|]. intros t. split; [by intros ?%not_elem_of_nil|]. by intros (_ & _ & c & ?%not_elem_of_nil & _).
  - destruct (is_empty (strip c)) eqn:E; cbn [orb].
    + apply is_empty_spec in E. destruct (IH seen) as (A & B & C). split_and!; [done..|]. intros t. rewrite C. split.
      * intros (Ht & Hn & d & Hd & Ed). split_and!; [done..|]. exists d. split; [by right|done].
      * intros (Ht & Hn & d & [->|Hd]%elem_of_cons & Ed); [congruence|]. eauto.
    + assert (strip c <> "") as Hc by (intros H%is_empty_spec; congruence). case_bool_decide as Hin.
      * destruct (IH seen) as (A & B & C). split_and!; [done..|]. intros t. rewrite C. split.
        -- intros (Ht & Hn & d & Hd & Ed). split_and!; [done..|]. exists d. split; [by right|done].
        -- intros (Ht & Hn & d & [->|Hd]%elem_of_cons & Ed); [by subst|]. eauto.
      * destruct (IH (strip c :: seen)) as (A & B & C). split_and!.
        -- constructor; [by apply strip_trimmed|done].
        -- constructor; [|done]. rewrite C. intros (_ & Hn & _). apply Hn. by left.
        -- intros t. rewrite elem_of_cons, C. split.
           ++ intros [->|(Ht & Hn & d & Hd & Ed)]; [split_and!; [done..|]; exists c; split; [by left|done]|].
              split_and!; [done|by intros ?; apply Hn; right|]. exists d. split; [by right|done].
           ++ intros (Ht & Hn & d & Hd & Ed). destruct (decide (t = strip c)) as [->|Hne]; [by left|right].
              apply elem_of_cons in Hd as [->|Hd]; [congruence|]. split_and!; [done|set_solver|eauto].
Qed.

Lemma rstrip_app_end p a b : rstrip_by p b = b -> b <> "" -> rstrip_by p (a +:+ b) = a +:+ b.
Proof.
  intros Hb Hn. induction a as [|c a IH]; [done|]. change (String c a +:+ b) with (String c (a +:+ b)). cbn. rewrite IH.
  destruct (a +:+ b) eqn:E; [|done]. destruct a; [|done]. change ("" +:+ b) with b in E. congruence.
Qed.
Definition solid_end (s : string) : Prop := rstrip_by is_space s = s /\ s <> "".
Lemma solid_end_app a b : solid_end b -> solid_end (a +:+ b).
Proof. intros [Hb Hn]. split; [by apply rstrip_app_end|]. destruct a; [exact Hn|done]. Qed.
Lemma trimmed_app_end a b : is_trimmed a -> solid_end b -> is_trimmed (a +:+ b).
Proof.
  intros [Ha Hn] Hb%(solid_end_app a). destruct Hb as [Hb Hn']. split; [|done]. unfold strip, strip_by. rewrite lstrip_id; [done|].
  destruct a as [|c a]; [done|]. change (starts_solid is_space (String c a) = true). rewrite <- Ha. apply rstrip_starts_solid, lstrip_solid.
Qed.

Lemma py_max_spec first rest : is_Some (as_number first) -> Forall (fun v => is_Some (as_number v)) rest ->
  py_max first rest ∈ first :: rest /\
  forall v, v ∈ first :: rest -> default 0 (as_number v) <= default 0 (as_number (py_max first rest)).
Proof.
  unfold py_max. revert first. induction rest as [|v rest IH]; intros first Hf Hr; cbn [foldl].
  - split; [by left|]. by intros v ->%list_elem_of_singleton.
  - apply Forall_cons_1 in Hr as [Hv Hr]. set (best := if _ <? _ then v else first).
    assert (best = v \/ best = first) as Hb by (unfold best; case_match; auto).
    assert (default 0 (as_number v) <= default 0 (as_number best) /\ default 0 (as_number first) <= default 0 (as_number best)) as Hle.
    { unfold best. destruct (Z.ltb_spec (default 0 (as_number first)) (default 0 (as_number v))); lia. }
    clearbody best. destruct (IH best) as [A B]; [by destruct Hb as [-> | ->]|done|]. split.
    { apply elem_of_cons in A as [->|A]; [destruct Hb as [-> | ->]; set_solver|set_solver]. }
    intros w [->|[->|Hw]%elem_of_cons]%elem_of_cons; [etrans; [apply Hle|apply B; by left]|etrans; [apply Hle|apply B; by left]|].
    apply B. by right.
Qed.

Section summary.
Variable float_repr : spec_float -> string.

Lemma sized_jsonable cap v : sized float_repr cap v -> jsonable v = true.
Proof. intros (n & E & _). by apply (payload_bytes_jsonable float_repr) in E. Qed.
Lemma json_strings_ok {A} (f : A -> string) l : jsonable (JArr (map (fun x => JStr (f x)) l)) = true.
Proof. induction l as [|x l IH]; [done|exact IH]. Qed.
Lemma summary_jsonable p : packet_ok float_repr p -> jsonable (JObj (summary_content p)) = true.
Proof.
  intros [_ _ Hr%sized_jsonable Hp%sized_jsonable _ _ _ _ _ _].
  assert (jsonable (JArr (map task_summary (pk_tasks p))) = true) as Ht.
  { induction (pk_tasks p) as [|t l IH]; [done|]. cbn [map]. change (jsonable (task_summary t) && jsonable (JArr (map task_summary l)) = true).
    rewrite IH, andb_true_r. unfold task_summary. cbn [jsonable forallb snd andb].
    replace (jsonable (json_of JStr _)) with true by (by destruct (tool_call t)). cbn [andb]. rewrite andb_true_r. apply (json_strings_ok id). }
  change (jsonable (JArr (map (fun q => JStr q.1) (sort_items (ev_payload (pk_event p))))) && true && (jsonable (JObj (plan p)) &&
    (jsonable (JObj (reflex_decision p)) && (jsonable (JArr (map task_summary (pk_tasks p))) && true))) = true).
  by rewrite (json_strings_ok fst), Hp, Hr, Ht.
Qed.

Lemma summary_trimmed p : valid_event float_repr DEFAULT_MAX_PAYLOAD_BYTES (pk_event p) -> is_trimmed (summary_text p).
Proof.
  intros V. apply trimmed_app_end; [apply V|]. do 13 apply solid_end_app. by split.
Qed.

(** What the summary of a packet promises. *)
Record summarises (p : RunPacket) (m : MemoryItem) : Prop := {
  su_valid : valid_memory m;
  su_run : mem_run_id m = pk_run_id p;
  su_event : mem_event_id m = Some (event_id (pk_event p)) /\ event_type m = Some (ev_type (pk_event p)) /\
    event_source m = Some (ev_source (pk_event p));
  su_content : content m = summary_content p;
  su_tags : forall t, t ∈ tags m <-> t <> "" /\
    exists c, c ∈ ev_type (pk_event p) :: ev_source (pk_event p) :: tool_names (pk_tasks p) /\ strip c = t;
  su_created : mem_created_at_ms m = pk_created_at_ms p;
  su_latest : forall c, pk_completed_at_ms p = Some c -> c <= mem_updated_at_ms m;
  su_results : forall r n, r ∈ tool_results p -> aget "recorded_at_ms" r = Some (JInt n) -> n <= mem_updated_at_ms m;
}.

(** the summary of a run packet. A packet within its caps, with a valid event,
    created after 1970 and with no boolean for the time of a result, always has
    one: the item of its run and event, valid, with the counts and the tasks of
    the packet for content, with exactly the trimmed type, source and tools of
    the run for tags, each once, and not older than anything recorded in the
    packet. *)
Theorem packet_remembered fresh p : packet_ok float_repr p -> valid_event float_repr DEFAULT_MAX_PAYLOAD_BYTES (pk_event p) ->
  is_uuid4_str fresh = true -> 0 <= pk_created_at_ms p ->
  (forall r b, r ∈ tool_results p -> aget "recorded_at_ms" r <> Some (JBool b)) ->
  exists m, memory_item_from_run_packet fresh p = Ok m /\ memory_id m = fresh /\ summarises p m.
Proof.
  intros Hp He Hf Hc Hb. assert (Forall (fun v => exists n, v = JInt n) (result_times p)) as Hint.
  { apply Forall_forall. intros v (r & Hr & Ev)%list_elem_of_omap. destruct (aget _ r) as [u|] eqn:E; [|done]. cbn in Ev.
    destruct u; try done; [by apply Hb in E|]. injection Ev as <-. eauto. }
  destruct (py_max_spec (JInt (pk_created_at_ms p)) (JInt (completed_or_created p) :: result_times p)) as [Hin Hmax]; [done| |].
  { constructor; [done|]. eapply Forall_impl; [exact Hint|]. by intros v (n & ->). }
  assert (exists n, py_max (JInt (pk_created_at_ms p)) (JInt (completed_or_created p) :: result_times p) = JInt n) as (n & En).
  { apply elem_of_cons in Hin as [E|Hin]; [by eauto|]. apply elem_of_cons in Hin as [E|Hin]; [by eauto|].
    by apply (proj1 (Forall_forall _ _) Hint) in Hin. }
  rewrite En in Hmax. cbn [as_number default] in Hmax.
  assert (pk_created_at_ms p <= n) as Hn by (apply (Hmax (JInt _)); by left).
  destruct (distinct_tags_spec [] (ev_type (pk_event p) :: ev_source (pk_event p) :: tool_names (pk_tasks p))) as (T1 & T2 & T3).
  set (m := mkMemoryItem fresh (pk_run_id p) (Some (event_id (pk_event p))) "run_summary" (Some (ev_type (pk_event p)))
    (Some (ev_source (pk_event p))) (summary_text p) (summary_content p) (distinct_tags [] (ev_type (pk_event p) :: ev_source (pk_event p) ::
    tool_names (pk_tasks p))) (pk_created_at_ms p) n).
  assert (valid_memory m) as V.
  { split; cbn; try done; [apply Hp|by intros ? [= <-]; apply He|by intros ? [= <-]; apply He|by intros ? [= <-]; apply He
      |by apply summary_trimmed|by apply summary_jsonable]. }
  exists m. split_and!; [|done|split; try done].
  - apply MemoryItem_validate_fix; try done. by left.
  - intros t. cbn [tags m]. rewrite T3. set_solver.
  - intros c Ec. cbn. pose proof (Hmax (JInt (completed_or_created p)) ltac:(right; by left)) as Hle. cbn in Hle.
    unfold completed_or_created in Hle. rewrite Ec in Hle. destruct (Z.eqb_spec c 0); lia.
  - intros r k Hr Ek. apply (Hmax (JInt k)). do 2 right. apply list_elem_of_omap. exists r. by rewrite Ek.
Qed.
End summary.

(** ** The table of items *)
Record table_ok (l : list MemoryItemRow) : Prop := {
  tk_runs : NoDup (map mr_run_id l);
  tk_ids : NoDup (map mr_memory_id l);
}.
#[local] Notation of_run := MemoryRepo.of_run.

Lemma of_run_Some k l r : of_run k l = Some r -> r ∈ l /\ mr_run_id r = k.
Proof. intros [H1 H2]%List.find_some. split; [by apply list_elem_of_In|by apply String.eqb_eq]. Qed.
Lemma of_run_None k l : of_run k l = None <-> k ∉ map mr_run_id l.
Proof.
  induction l as [|r l IH]; cbn; [set_solver|]. destruct (String.eqb_spec (mr_run_id r) k) as [->|Hne]; [set_solver|].
  rewrite IH, not_elem_of_cons. naive_solver.
Qed.
Lemma of_run_elem l r : NoDup (map mr_run_id l) -> r ∈ l -> of_run (mr_run_id r) l = Some r.
Proof.
  induction l as [|r0 l IH]; cbn; [by intros _ ?%not_elem_of_nil|]. intros [Hn Hd]%NoDup_cons [->|Hr]%elem_of_cons.
  - by rewrite String.eqb_refl.
  - destruct (String.eqb_spec (mr_run_id r0) (mr_run_id r)) as [E|]; [|by apply IH]. destruct Hn. rewrite E. by apply list_elem_of_fmap_2.
Qed.

(** Replacing the row of a run by another of the same run. *)
Definition put_row (row r : MemoryItemRow) : MemoryItemRow := if (mr_run_id r =? mr_run_id row)%string then row else r.
Lemma put_row_run row r : mr_run_id (put_row row r) = mr_run_id r.
Proof. unfold put_row. by destruct (String.eqb_spec (mr_run_id r) (mr_run_id row)). Qed.
Lemma of_run_put k row l : of_run k (map (put_row row) l) =
  if decide (k = mr_run_id row) then (fun _ => row) <$> of_run k l else of_run k l.
Proof.
  induction l as [|r l IH]; [by case_decide|]. change (map (put_row row) (r :: l)) with (put_row row r :: map (put_row row) l).
  unfold MemoryRepo.of_run in *. cbn [List.find]. rewrite put_row_run. destruct (String.eqb_spec (mr_run_id r) k) as [<-|Hne]; [|exact IH].
  unfold put_row. destruct (String.eqb_spec (mr_run_id r) (mr_run_id row)); case_decide; done.
Qed.
Lemma of_run_app k l row : of_run k (l ++ [row]) = match of_run k l with Some r => Some r | None => if decide (k = mr_run_id row) then Some row else None end.
Proof.
  induction l as [|r l IH]; cbn.
  - destruct (String.eqb_spec (mr_run_id row) k); case_decide; congruence.
  - by destruct (String.eqb_spec (mr_run_id r) k).
Qed.
Lemma of_run_write k row l : of_run k (MemoryRepo.write_row row l) = if decide (k = mr_run_id row) then Some row else of_run k l.
Proof.
  unfold MemoryRepo.write_row. change (fun r => if (mr_run_id r =? mr_run_id row)%string then row else r) with (put_row row).
  destruct (of_run (mr_run_id row) l) as [r|] eqn:E.
  - rewrite of_run_put. case_decide as H; [|done]. by rewrite H, E.
  - rewrite of_run_app. case_decide as H; [by rewrite H, E|by destruct (of_run k l)].
Qed.

Lemma ids_put row l : NoDup (map mr_run_id l) -> NoDup (map mr_memory_id l) ->
  (forall r, r ∈ l -> mr_run_id r <> mr_run_id row -> mr_memory_id r <> mr_memory_id row) -> NoDup (map mr_memory_id (map (put_row row) l)).
Proof.
  intros Hr Hm Ho. rewrite map_map. induction l as [|r l IH]; [constructor|]. cbn [map] in *.
  apply NoDup_cons in Hr as [Hr0 Hr], Hm as [Hm0 Hm]. constructor; [|apply IH; [done..|intros ? ?; apply Ho; by right]].
  intros (r' & E & Hin)%list_elem_of_fmap. assert (mr_run_id r' <> mr_run_id r) as Hne.
  { intros Eq. apply Hr0. rewrite <- Eq. by apply list_elem_of_fmap_2. }
  unfold put_row in E. destruct (String.eqb_spec (mr_run_id r) (mr_run_id row)) as [E1|E1];
    destruct (String.eqb_spec (mr_run_id r') (mr_run_id row)) as [E2|E2]; try congruence.
  - symmetry in E. revert E. apply Ho; [by right|done].
  - revert E. apply Ho; [by left|done].
  - apply Hm0. rewrite E. by apply list_elem_of_fmap_2.
Qed.
Lemma write_ok row l : table_ok l -> (forall r, r ∈ l -> mr_run_id r <> mr_run_id row -> mr_memory_id r <> mr_memory_id row) ->
  table_ok (MemoryRepo.write_row row l).
Proof.
  intros [Hr Hm] Ho. unfold MemoryRepo.write_row. change (fun r => if (mr_run_id r =? mr_run_id row)%string then row else r) with (put_row row).
  destruct (of_run (mr_run_id row) l) as [r|] eqn:E.
  - split; [|by apply ids_put]. rewrite map_map. by rewrite (map_ext _ mr_run_id) by apply put_row_run.
  - apply of_run_None in E. split; rewrite map_app; apply NoDup_app; (split_and!; [done| |apply NoDup_singleton]).
    + by intros k Hk ->%list_elem_of_singleton.
    + intros k (r & -> & Hin)%list_elem_of_fmap E'%list_elem_of_singleton. revert E'. apply Ho; [done|]. intros E'. apply E. rewrite <- E'.
      by apply list_elem_of_fmap_2.
Qed.

Lemma constraints_Ok row s : MemoryRepo.constraints row s = Ok tt <->
  (forall r, r ∈ s_memory s -> mr_run_id r <> mr_run_id row -> mr_memory_id r <> mr_memory_id row) /\
  (forall e, mr_event_id row = Some e -> is_Some (aget e (event_rows (s_events s)))).
Proof.
  unfold MemoryRepo.constraints.
  assert (forall a b : bool, forall x y, (raise_if a x;; raise_if b y) = Ok tt <-> a = false /\ b = false) as H by (intros [] [] x y; cbn; naive_solver).
  rewrite H. assert (forall l, existsb (fun r => negb (mr_run_id r =? mr_run_id row)%string && (mr_memory_id r =? mr_memory_id row)%string) l = false <->
    (forall r, r ∈ l -> mr_run_id r <> mr_run_id row -> mr_memory_id r <> mr_memory_id row)) as ->.
  { induction l as [|r l IH]; cbn; [split; [set_solver|done]|]. rewrite orb_false_iff, IH. setoid_rewrite elem_of_cons.
    destruct (String.eqb_spec (mr_run_id r) (mr_run_id row)), (String.eqb_spec (mr_memory_id r) (mr_memory_id row)); cbn; naive_solver. }
  destruct (mr_event_id row) as [e|]; [|naive_solver]. destruct (aget e _) as [er|] eqn:E; cbn.
  - split; [|naive_solver]. intros [A _]. split; [done|]. intros ? [= <-]. by rewrite E.
  - split; [by intros [_ ?]|]. intros [_ B]. destruct (B e eq_refl) as [? ?]. congruence.
Qed.

(** An item that can be written. *)
Record writable (m : MemoryItem) (s : store) : Prop := {
  wr_valid : valid_memory m;
  wr_run : is_Some (aget (mem_run_id m) (s_run_rows s));
  wr_ids : forall r, r ∈ s_memory s -> mr_run_id r <> mem_run_id m -> mr_memory_id r <> memory_id m;
  wr_event : forall e, mem_event_id m = Some e -> is_Some (aget e (event_rows (s_events s)));
}.
Lemma upsert_writes m s : writable m s ->
  MemoryRepo.upsert m s = (Ok m, set_memory (MemoryRepo.write_row (memory_item_to_row_dict m) (s_memory s)) s).
Proof.
  intros [V [r Hr] Hi He]. unfold MemoryRepo.upsert. rewrite Hr. cbn [is_set negb].
  rewrite (proj2 (constraints_Ok (memory_item_to_row_dict m) s)) by done.
  pose proof (of_run_write (mem_run_id m) (memory_item_to_row_dict m) (s_memory s)) as E. rewrite decide_True in E by done.
  by rewrite E, row_roundtrip.
Qed.
Lemma upsert_frame m s r s' : MemoryRepo.upsert m s = (r, s') -> exists l, s' = set_memory l s.
Proof.
  unfold MemoryRepo.upsert. destruct (negb _); [intros [= _ <-]; exists (s_memory s); by destruct s|].
  destruct (MemoryRepo.constraints _ _); intros [= _ <-]; [by eexists|exists (s_memory s); by destruct s].
Qed.

(** The hypothesis that the engine, the audit trail and the stages of the store
    make of a memory repository. *)
Lemma remember_frame fresh p s r s' : remember fresh p s = (r, s') -> exists l, s' = set_memory l s.
Proof.
  unfold remember, mbind, st_bind, lift. destruct (memory_item_from_run_packet fresh p) as [m|x];
    [|intros [= _ <-]; exists (s_memory s); by destruct s].
  destruct (MemoryRepo.upsert m s) as [[m'|x] s1] eqn:E; apply upsert_frame in E; by intros [= _ <-].
Qed.

(** C40: an item of memory that is stored is the item that is read. Writing a valid
    item of a known run and event, with an identifier no other run's item has,
    returns it, keeps one item for each run and different identifiers, makes it
    what is read for its run, whatever was stored for that run, and changes the
    item of no other run; a write that is refused changes nothing. *)
Theorem memory_upserted m s : table_ok (s_memory s) ->
  (writable m s -> exists s', MemoryRepo.upsert m s = (Ok m, s') /\ table_ok (s_memory s') /\
    MemoryRepo.get_by_run (mem_run_id m) s' = (Ok (Some m), s') /\
    (forall k, k <> mem_run_id m -> of_run k (s_memory s') = of_run k (s_memory s))) /\
  (valid_memory m -> ~ writable m s -> exists x, MemoryRepo.upsert m s = (Raise x, s)).
Proof.
  intros Ht. split.
  - intros W. eexists. split; [by apply upsert_writes|]. cbn [s_memory set_memory]. destruct W as [V Hr Hi He]. split_and!.
    + by apply write_ok.
    + unfold MemoryRepo.get_by_run. destruct (strip_uuid4_str _ (vm_run _ V)) as [E1 E2]. unfold strip_or_none. rewrite E1, E2.
      cbn [s_memory set_memory]. pose proof (of_run_write (mem_run_id m) (memory_item_to_row_dict m) (s_memory s)) as E.
      rewrite decide_True in E by done. rewrite E. by rewrite row_roundtrip.
    + intros k Hk. by rewrite of_run_write, decide_False.
  - intros V Hn. unfold MemoryRepo.upsert. destruct (aget (mem_run_id m) (s_run_rows s)) as [r|] eqn:Er; [|by eexists]. cbn [is_set negb].
    destruct (MemoryRepo.constraints _ _) as [[]|x] eqn:Ec; [|by eexists]. apply constraints_Ok in Ec as [A B]. destruct Hn. split; [done|by rewrite Er|exact A|exact B].
Qed.

(** ** Searching *)
(** [LIKE] with a backslash for escape, for patterns in which no [_] stands for
    a character: [%] is any text, and everything else is itself. *)
Fixpoint no_single (p : string) : bool :=
  match p with
  | EmptyString => true
  | String c p' => if (c =? backslash)%char then match p' with String _ p'' => no_single p'' | EmptyString => false end
                   else negb (c =? MemoryRepo.underscore)%char && no_single p'
  end.
Inductive like_matches : string -> string -> Prop :=
| like_end : like_matches "" ""
| like_any p a t : like_matches p t -> like_matches (String MemoryRepo.percent p) (a +:+ t)
| like_escaped c p t : like_matches p t -> like_matches (String backslash (String c p)) (String c t)
| like_char c p t : c <> MemoryRepo.percent -> c <> backslash -> like_matches p t -> like_matches (String c p) (String c t).

Definition mentions (words text : string) : bool := is_set (find words text).
Lemma mentions_spec words text : mentions words text = true <-> exists a b, text = a +:+ words +:+ b.
Proof.
  unfold mentions. split.
  - destruct (find words text) as [i|] eqn:E; [|done]. intros _. destruct (decide (words = "")) as [->|Hn]; [by exists "", text|].
    apply find_Some in E as (a & b & E & _); [|done]. eauto.
  - intros (a & b & ->). induction a as [|c a IH].
    + change ("" +:+ words +:+ b) with (words +:+ b). assert (String.prefix words (words +:+ b) = true) as E.
      { induction words as [|c w IH]; [by destruct b|]. change (String c w +:+ b) with (String c (w +:+ b)). cbn. by destruct (ascii_dec c c). }
      destruct (words +:+ b); cbn [find]; by rewrite E.
    + change (String c a +:+ words +:+ b) with (String c (a +:+ words +:+ b)). cbn [find]. destruct (String.prefix _ _); [done|].
      by destruct (find words (a +:+ words +:+ b)).
Qed.

Definition special (c : ascii) : bool := (c =? backslash)%char || (c =? MemoryRepo.percent)%char || (c =? MemoryRepo.underscore)%char.
Fixpoint escaped (s : string) : string :=
  match s with
  | EmptyString => ""
  | String c s' => if special c then String backslash (String c (escaped s')) else String c (escaped s')
  end.
Lemma replace_same c a b s : MemoryRepo.replace_char c (String a (String b "")) (String c s) =
  String a (String b (MemoryRepo.replace_char c (String a (String b "")) s)).
Proof. cbn [MemoryRepo.replace_char]. by rewrite Ascii.eqb_refl. Qed.
Lemma replace_other c w d s : d <> c -> MemoryRepo.replace_char c w (String d s) = String d (MemoryRepo.replace_char c w s).
Proof. intros H. cbn [MemoryRepo.replace_char]. by rewrite (proj2 (Ascii.eqb_neq _ _) H). Qed.
Lemma like_pattern_eq f q : MemoryRepo.like_pattern f q = String MemoryRepo.percent (escaped (f q) +:+ String MemoryRepo.percent "").
Proof.
  unfold MemoryRepo.like_pattern. change (String MemoryRepo.percent "" +:+ ?x) with (String MemoryRepo.percent x). do 2 f_equal.
  induction (f q) as [|c s IH]; [done|]. cbn [escaped]. unfold special.
  destruct (Ascii.eqb_spec c backslash) as [->|H1]; cbn [orb].
  { rewrite replace_same. do 2 rewrite (replace_other MemoryRepo.percent) by done. do 2 rewrite (replace_other MemoryRepo.underscore) by done. by rewrite IH. }
  rewrite (replace_other backslash) by done. destruct (Ascii.eqb_spec c MemoryRepo.percent) as [->|H2]; cbn [orb].
  { rewrite replace_same. do 2 rewrite (replace_other MemoryRepo.underscore) by done. by rewrite IH. }
  rewrite (replace_other MemoryRepo.percent) by done. destruct (Ascii.eqb_spec c MemoryRepo.underscore) as [->|H3].
  - by rewrite replace_same, IH.
  - by rewrite replace_other, IH.
Qed.

Lemma escaped_matches s t : like_matches (escaped s +:+ String MemoryRepo.percent "") t <-> exists b, t = s +:+ b.
Proof.
  revert t. induction s as [|c s IH]; intros t; cbn [escaped].
  - change ("" +:+ ?x) with x. split; [by exists t|]. intros _. rewrite <- (str_app_nil t). apply like_any, like_end.
  - assert (like_matches ((if special c then String backslash (String c (escaped s)) else String c (escaped s)) +:+ String MemoryRepo.percent "") t <->
      exists t', t = String c t' /\ like_matches (escaped s +:+ String MemoryRepo.percent "") t') as ->.
    + unfold special. destruct (Ascii.eqb_spec c backslash) as [E1|H1]; [|destruct (Ascii.eqb_spec c MemoryRepo.percent) as [E2|H2]]; cbn [orb].
      3: destruct (Ascii.eqb_spec c MemoryRepo.underscore) as [E3|H3].
      1-3: change (String ?x (String ?y ?z) +:+ ?w) with (String x (String y (z +:+ w))); split;
        [inversion 1; subst; [eauto|done]|intros (t' & -> & H); by constructor].
      change (String c ?z +:+ ?w) with (String c (z +:+ w)). split; [inversion 1; subst; [done..|eauto]|intros (t' & -> & H); by constructor].
    + setoid_rewrite IH. split; [intros (t' & -> & b & ->); by exists b|intros (b & ->); by exists (s +:+ b); eauto].
Qed.
Lemma pattern_matches f q t : like_matches (MemoryRepo.like_pattern f q) t <-> mentions (f q) t = true.
Proof.
  rewrite like_pattern_eq, mentions_spec. split.
  - inversion 1 as [|p a t' Ht| |]; subst; [|done]. apply escaped_matches in Ht as (b & ->). eauto.
  - intros (a & b & ->). apply like_any, escaped_matches. eauto.
Qed.

Lemma lower_ascii_idemp c : lower_ascii (lower_ascii c) = lower_ascii c.
Proof. destruct c as [[] [] [] [] [] [] [] []]; reflexivity. Qed.
Lemma lower_idemp s : lower (lower s) = lower s.
Proof. induction s as [|c s IH]; [done|]. unfold lower in *. cbn [map_ascii]. by rewrite lower_ascii_idemp, IH. Qed.
Lemma pattern_shape s : no_single (escaped s +:+ String MemoryRepo.percent "") = true /\
  (lower s = s -> lower (escaped s +:+ String MemoryRepo.percent "") = escaped s +:+ String MemoryRepo.percent "").
Proof.
  induction s as [|c s [IH1 IH2]]; [done|]. cbn [escaped]. destruct (special c) eqn:E.
  - change (String ?x (String ?y ?z) +:+ ?w) with (String x (String y (z +:+ w))). split; [done|]. unfold lower in *. cbn [map_ascii].
    intros [= Hc Hs]. by rewrite IH2, Hc by done.
  - change (String c ?z +:+ ?w) with (String c (z +:+ w)). unfold special in E. apply orb_false_iff in E as [[E1 E2]%orb_false_iff E3]. split.
    + cbn [no_single]. by rewrite E1, E3, IH1.
    + unfold lower in *. cbn [map_ascii]. intros [= Hc Hs]. by rewrite IH2, Hc by done.
Qed.
Lemma like_pattern_shape f q : lower (f q) = f q ->
  no_single (MemoryRepo.like_pattern f q) = true /\ lower (MemoryRepo.like_pattern f q) = MemoryRepo.like_pattern f q.
Proof.
  intros Hf. rewrite like_pattern_eq. destruct (pattern_shape (f q)) as [A B]. split; [exact A|]. specialize (B Hf).
  unfold lower in *. cbn [map_ascii]. by rewrite B.
Qed.

(** *** Words in JSON text *)
Definition ascii_text (s : string) : bool := all_chars (fun c => (N_of_ascii c <? 128)%N) s.
(** A character that JSON writes as it is *)
Definition plain_char (c : ascii) : bool := negb (c =? dquote)%char && negb (c =? backslash)%char && negb (N_of_ascii c <? 32)%N.
Definition plain (s : string) : bool := all_chars plain_char s.
Lemma plain_escape s : plain s = true -> escape s = s.
Proof.
  unfold plain. induction s as [|c s IH]; [done|]. cbn [all_chars escape]. intros [Hc Hs]%andb_prop. rewrite IH by done.
  assert (escape_char c = String c "") as ->; [|done]. revert Hc. clear. destruct c as [[] [] [] [] [] [] [] []]; vm_compute; congruence.
Qed.
Lemma plain_lower s : plain (lower s) = plain s.
Proof.
  unfold plain, lower. induction s as [|c s IH]; [done|]. cbn [map_ascii all_chars]. rewrite IH. f_equal.
  destruct c as [[] [] [] [] [] [] [] []]; reflexivity.
Qed.
Lemma escape_app a b : escape (a +:+ b) = escape a +:+ escape b.
Proof.
  induction a as [|c a IH]; [done|]. change (escape (String c (a +:+ b)) = (escape_char c +:+ escape a) +:+ escape b).
  cbn [escape]. by rewrite IH, str_app_assoc.
Qed.
Lemma lower_app a b : lower (a +:+ b) = lower a +:+ lower b.
Proof. unfold lower. induction a as [|c a IH]; [done|]. exact (f_equal (String (lower_ascii c)) IH). Qed.
Lemma lower_split s x y : lower s = x +:+ y -> exists a b, s = a +:+ b /\ lower a = x /\ lower b = y.
Proof.
  revert s. induction x as [|c x IH]; intros s E; [by exists "", s|]. destruct s as [|d s]; [done|].
  change (String (lower_ascii d) (lower s) = String c (x +:+ y)) in E. injection E as E1 E2. destruct (IH s E2) as (a & b & -> & Ha & Hb).
  exists (String d a), b. split; [done|]. split; [|done]. change (String (lower_ascii d) (lower a) = String c x). by rewrite E1, Ha.
Qed.
Lemma mentions_within w x a b : mentions w x = true -> mentions w (a +:+ x +:+ b) = true.
Proof.
  rewrite !mentions_spec. intros (p & q & ->). exists (a +:+ p), (q +:+ b). by rewrite !str_app_assoc.
Qed.
(** Plain words of a string are in its JSON text. *)
Lemma mentions_json_str w v : plain w = true -> mentions (lower w) (lower v) = true -> mentions (lower w) (lower (json_str v)) = true.
Proof.
  intros Hw (x & y & E)%mentions_spec. apply lower_split in E as (a & r & -> & Ha & E). apply lower_split in E as (w' & b & -> & Hw' & Hb).
  assert (escape w' = w') as Ew by (apply plain_escape; by rewrite <- plain_lower, Hw', plain_lower).
  assert (json_str (a +:+ w' +:+ b) = (String dquote (escape a)) +:+ w' +:+ (escape b +:+ String dquote "")) as ->.
  { unfold json_str. rewrite !escape_app, Ew, !str_app_assoc. done. }
  rewrite !lower_app, Hw'. apply mentions_within. apply mentions_spec. exists "", "". by rewrite str_app_nil.
Qed.

(** Words without the character [c] are on one side of it. *)
Lemma mentions_nil t : mentions "" t = true.
Proof. apply mentions_spec. by exists "", t. Qed.
Lemma prefix_cut c w b x y : all_chars (fun d => negb (d =? c)%char) w = true -> w +:+ b = x +:+ String c y -> exists r, x = w +:+ r.
Proof.
  revert x. induction w as [|d w IH]; intros x Hw E; [by exists x|]. cbn [all_chars] in Hw. apply andb_prop in Hw as [Hd Hw].
  destruct x as [|e x].
  - change (String d (w +:+ b) = String c y) in E. injection E as -> _. by rewrite Ascii.eqb_refl in Hd.
  - change (String d (w +:+ b) = String e (x +:+ String c y)) in E. injection E as -> E. destruct (IH x Hw E) as [r ->]. by exists r.
Qed.
Lemma mentions_cut c w x y : all_chars (fun d => negb (d =? c)%char) w = true -> mentions w (x +:+ String c y) = true -> mentions w x = true \/ mentions w y = true.
Proof.
  intros Hw (a & b & E)%mentions_spec. revert x E. induction a as [|d a IH]; intros x E.
  - left. change ("" +:+ w +:+ b) with (w +:+ b) in E. symmetry in E. apply prefix_cut in E as [r ->]; [|done]. apply mentions_spec. by exists "", r.
  - destruct x as [|e x].
    + change (String c y = String d (a +:+ w +:+ b)) in E. injection E as _ ->. right. apply mentions_spec. by exists a, b.
    + change (String e (x +:+ String c y) = String d (a +:+ w +:+ b)) in E. injection E as _ E. destruct (IH x E) as [H|H]; [left|by right].
      apply mentions_spec in H as (a' & b' & ->). apply mentions_spec. by exists (String e a'), b'.
Qed.
(** What follows the first quote of the text of a list of strings. *)
Fixpoint list_tail (l : list string) : string :=
  match l with [] => "]" | t :: l => ", " +:+ String dquote (escape t +:+ String dquote (list_tail l)) end.
Lemma list_text t l : "[" +:+ join ", " (map json_str (t :: l)) +:+ "]" = "[" +:+ String dquote (escape t +:+ String dquote (list_tail l)).
Proof.
  assert (forall t, join ", " (map json_str (t :: l)) +:+ "]" = String dquote (escape t +:+ String dquote (list_tail l))) as H; [|by rewrite H].
  induction l as [|u l IH]; intros x.
  - cbn [map join list_tail]. unfold json_str. change (String dquote ?z +:+ ?w) with (String dquote (z +:+ w)). by rewrite str_app_assoc.
  - change (join ", " (map json_str (x :: u :: l))) with (json_str x +:+ ", " +:+ join ", " (map json_str (u :: l))).
    rewrite !str_app_assoc, IH. unfold json_str. change (String dquote ?z +:+ ?w) with (String dquote (z +:+ w)). by rewrite str_app_assoc.
Qed.
Definition punctuation (w : string) : bool := mentions w "[]" || mentions w ", ".
Lemma mentions_list w l : plain w = true -> punctuation w = false -> Forall (fun t => plain t = true) l ->
  mentions w ("[" +:+ join ", " (map json_str l) +:+ "]") = true -> exists t, t ∈ l /\ mentions w t = true.
Proof.
  unfold punctuation. intros Hw [P1 P2]%orb_false_iff Hl.
  assert (all_chars (fun d => negb (d =? dquote)%char) w = true) as Hq.
  { clear -Hw. unfold plain in Hw. induction w as [|c w IH]; [done|]. cbn [all_chars] in *. apply andb_prop in Hw as [[[H _]%andb_prop _]%andb_prop Hw]. by rewrite H, IH. }
  assert (forall x, mentions w x = true -> mentions w "[]" = false -> forall a b, "[]" = a +:+ x +:+ b -> False) as Hb.
  { intros x Hx Hn a b E. rewrite E, mentions_within in Hn; done. }
  assert (mentions w "]" = false) as P3 by (destruct (mentions w "]") eqn:E; [exfalso; exact (Hb "]" E P1 "[" "" eq_refl)|done]).
  assert (mentions w "[" = false) as P4 by (destruct (mentions w "[") eqn:E; [exfalso; exact (Hb "[" E P1 "" "]" eq_refl)|done]).
  destruct l as [|t l]; [change ("[" +:+ join ", " (map json_str []) +:+ "]") with "[]"; congruence|]. rewrite list_text. intros H.
  apply (mentions_cut dquote) in H as [H|H]; [congruence| |done]. revert t Hl H. induction l as [|u l IH]; intros t [Ht Hl]%Forall_cons H;
    (apply (mentions_cut dquote) in H as [H|H]; [rewrite plain_escape in H by done; exists t; split; [left|done]| |done]).
  - cbn [list_tail] in H. congruence.
  - cbn [list_tail] in H. apply (mentions_cut dquote) in H as [H|H]; [congruence| |done]. destruct (IH u Hl H) as (t' & Hin & Ht'). exists t'. split; [by right|done].
Qed.

(** A string somewhere in a value *)
Inductive string_in (v : string) : json -> Prop :=
| string_here : string_in v (JStr v)
| string_item l j : j ∈ l -> string_in v j -> string_in v (JArr l)
| string_member d k j : (k, j) ∈ d -> string_in v j -> string_in v (JObj d).

Section search.
Variable str_lower : string -> string.
Variable sql_lower : string -> string.
Variable json_text : json -> string.
Variable like : string -> string -> bool.
(** Neither leaves a capital ASCII letter, and both fold just these in ASCII text. *)
Hypothesis str_lower_small : forall t, lower (str_lower t) = str_lower t.
Hypothesis sql_lower_small : forall t, lower (sql_lower t) = sql_lower t.
Hypothesis str_lower_ascii : forall t, ascii_text t = true -> str_lower t = lower t.
Hypothesis sql_lower_ascii : forall t, ascii_text t = true -> sql_lower t = lower t.
(** On text in small letters, [LIKE] matches as it is documented. Some databases fold
    the letters of both sides, others do not. *)
Hypothesis like_spec : forall p t, no_single p = true -> lower p = p -> lower t = t -> (like p t = true <-> like_matches p t).
(** The text of a JSON column: a string of ASCII text is written as a JSON string, and
    the items of a list between commas with a space. *)
Hypothesis json_text_string : forall v j, string_in v j -> ascii_text v = true -> exists a b, json_text j = a +:+ json_str v +:+ b.
Hypothesis json_text_strings : forall l, Forall (fun t => ascii_text t = true) l ->
  json_text (JArr (map JStr l)) = "[" +:+ join ", " (map json_str l) +:+ "]".

(** The database finds the words in one of the searched texts. *)
Definition found (words : string) (r : MemoryItemRow) : bool :=
  existsb (mentions (str_lower words)) (MemoryRepo.searched sql_lower json_text r).

Lemma ascii_app a b : ascii_text (a +:+ b) = ascii_text a && ascii_text b.
Proof. unfold ascii_text. induction a as [|c a IH]; [done|]. change (String c a +:+ b) with (String c (a +:+ b)). cbn [all_chars]. by rewrite IH, andb_assoc. Qed.
Lemma ascii_escape s : ascii_text s = true -> ascii_text (escape s) = true.
Proof.
  unfold ascii_text at 1. induction s as [|c s IH]; [done|]. cbn [all_chars escape]. intros [Hc Hs]%andb_prop. rewrite ascii_app, IH by done. rewrite andb_true_r.
  revert Hc. clear. destruct c as [[] [] [] [] [] [] [] []]; vm_compute; congruence.
Qed.
Lemma ascii_json_str s : ascii_text s = true -> ascii_text (json_str s) = true.
Proof. intros Hs. unfold json_str. change (String dquote ?z) with ((String dquote "") +:+ z). by rewrite !ascii_app, ascii_escape. Qed.
Lemma ascii_strings l : Forall (fun t => ascii_text t = true) l -> ascii_text ("[" +:+ join ", " (map json_str l) +:+ "]") = true.
Proof.
  intros Hl. rewrite !ascii_app. assert (ascii_text (join ", " (map json_str l)) = true) as ->; [|done].
  induction Hl as [|t l Ht Hl IH]; [done|]. destruct l as [|u l]; [by apply ascii_json_str|].
  change (join ", " (map json_str (t :: u :: l))) with (json_str t +:+ ", " +:+ join ", " (map json_str (u :: l))). by rewrite !ascii_app, ascii_json_str, IH.
Qed.
Lemma lower_strings l : Forall (fun t => plain t = true) l ->
  lower ("[" +:+ join ", " (map json_str l) +:+ "]") = "[" +:+ join ", " (map json_str (map lower l)) +:+ "]".
Proof.
  intros Hl. rewrite !lower_app. do 2 f_equal.
  assert (forall t, plain t = true -> lower (json_str t) = json_str (lower t)) as Hs.
  { intros t Ht. unfold json_str. rewrite !plain_escape by (by rewrite ?plain_lower). change (String dquote ?z) with ((String dquote "") +:+ z). by rewrite !lower_app. }
  induction Hl as [|t l Ht Hl IH]; [done|]. destruct l as [|u l]; [by apply Hs|].
  change (join ", " (map json_str (t :: u :: l))) with (json_str t +:+ ", " +:+ join ", " (map json_str (u :: l))). by rewrite !lower_app, IH, Hs.
Qed.

(** C39: what a search finds. Words of spaces are refused; otherwise the answer is
    the page, newest first, of the items of the wanted type and source in which the
    database finds the words in small letters, wildcards and backslashes standing for
    themselves: in the summary, or in the JSON text of the content or of the tags.
    For words of ASCII letters, digits and the like, with no quote or backslash, that
    is so, up to the case of letters, for every ASCII summary that contains them, for
    every tag that does, and, when the text of the content is ASCII, for every string
    in the content; and unless the words are punctuation of a list, an item with
    such a summary and such tags is found only by its summary, a tag, or its
    content. *)
Theorem search_finds_mentions query limit offset type source s :
  MemoryRepo.search str_lower sql_lower json_text like query limit offset type source s =
  (match strip_or_none query with
   | None => Raise (ValueError "query must be non-empty")
   | Some words =>
       validate_limit_offset limit offset;;
       if limit =? 0 then Ok []
       else MemoryRepo.newest_first limit offset (filter (fun r => found words r && MemoryRepo.selected type source r = true) (s_memory s))
   end, s) /\
  forall words r, ascii_text words = true -> plain words = true ->
    let contains text := mentions (lower words) (lower text) in
    (ascii_text (mr_summary r) = true -> contains (mr_summary r) = true -> found words r = true) /\
    (Forall (fun t => ascii_text t = true) (mr_tags r) -> existsb contains (mr_tags r) = true -> found words r = true) /\
    (forall v, ascii_text (json_text (JObj (mr_content r))) = true -> string_in v (JObj (mr_content r)) -> ascii_text v = true ->
       contains v = true -> found words r = true) /\
    (punctuation (lower words) = false -> ascii_text (mr_summary r) = true ->
     Forall (fun t => ascii_text t = true /\ plain t = true) (mr_tags r) -> found words r = true ->
     contains (mr_summary r) = true \/ existsb contains (mr_tags r) = true \/
     mentions (lower words) (sql_lower (json_text (JObj (mr_content r)))) = true).
Proof.
  split.
  { unfold MemoryRepo.search. destruct (strip_or_none query) as [words|]; [|done].
    assert (forall text, like (MemoryRepo.like_pattern str_lower words) (sql_lower text) = mentions (str_lower words) (sql_lower text)) as E.
    { intros text. apply eq_true_iff_eq. destruct (like_pattern_shape str_lower words) as [A B]; [apply str_lower_small|].
      rewrite <- pattern_matches. by apply like_spec. }
    rewrite (list_filter_iff _ (fun r => found words r && MemoryRepo.selected type source r = true)); [done|].
    intros r. unfold found. cbn [existsb MemoryRepo.searched]. by rewrite !E. }
  intros words r Hw Hp contains. unfold found, MemoryRepo.searched. cbn [existsb]. rewrite str_lower_ascii, orb_false_r by done. split_and!.
  - intros Hs H. rewrite sql_lower_ascii by done. fold (contains (mr_summary r)). by rewrite H.
  - intros Ht (t & Hin%list_elem_of_In & H)%existsb_exists. rewrite json_text_strings, (sql_lower_ascii ("[" +:+ _)) by (done || by apply ascii_strings).
    assert (mentions (lower words) (lower ("[" +:+ join ", " (map json_str (mr_tags r)) +:+ "]")) = true) as ->; [|by rewrite !orb_true_r].
    apply list_elem_of_split in Hin as (l1 & l2 & ->). clear -H Hp.
    assert (exists a b, "[" +:+ join ", " (map json_str (l1 ++ t :: l2)) +:+ "]" = a +:+ json_str t +:+ b) as (a & b & ->).
    { assert (exists b, join ", " (map json_str (t :: l2)) +:+ "]" = json_str t +:+ b) as [b E].
      { destruct l2 as [|u l2]; [by eexists|]. change (join ", " (map json_str (t :: u :: l2))) with (json_str t +:+ ", " +:+ join ", " (map json_str (u :: l2))).
        rewrite !str_app_assoc. by eexists. }
      assert (exists a, join ", " (map json_str (l1 ++ t :: l2)) +:+ "]" = a +:+ json_str t +:+ b) as [a Ea].
      { induction l1 as [|x l1 [a IH]]; [by exists ""|].
        assert (join ", " (map json_str ((x :: l1) ++ t :: l2)) = json_str x +:+ ", " +:+ join ", " (map json_str (l1 ++ t :: l2))) as -> by (by destruct l1).
        exists (json_str x +:+ ", " +:+ a). by rewrite !str_app_assoc, IH. }
      exists ("[" +:+ a), b. by rewrite Ea, !str_app_assoc. }
    rewrite !lower_app. apply mentions_within. by apply mentions_json_str.
  - intros v Hj Hin Hv H. rewrite (sql_lower_ascii (json_text (JObj _))) by done. destruct (json_text_string v _ Hin Hv) as (a & b & ->).
    rewrite !lower_app, (mentions_within _ (lower (json_str v))) by (by apply mentions_json_str). by rewrite orb_true_r.
  - intros Hpu Hs Ht. rewrite sql_lower_ascii, json_text_strings by (done || (eapply Forall_impl; [exact Ht|]; by intros ? [])).
    rewrite (sql_lower_ascii ("[" +:+ _)) by (apply ascii_strings; eapply Forall_impl; [exact Ht|]; by intros ? []).
    rewrite !orb_true_iff. intros [H|[H|H]]; [by left|by right; right|]. right. left.
    rewrite lower_strings in H by (eapply Forall_impl; [exact Ht|]; by intros ? []).
    apply mentions_list in H as (t & Hin & H); [|by rewrite plain_lower|done|].
    + apply list_elem_of_fmap in Hin as (t' & -> & Hin). apply existsb_exists. exists t'. split; [by apply list_elem_of_In|done].
    + apply Forall_map. eapply Forall_impl; [exact Ht|]. intros t [_ Hpl]. by rewrite plain_lower.
Qed.
End search.

(** ** Pruning *)
Lemma insert_by_perm {A} key (x : A) l : MemoryRepo.insert_by key x l ≡ₚ x :: l.
Proof. induction l as [|y l IH]; cbn; [done|]. destruct (ple _ _); [done|]. rewrite IH. by constructor. Qed.
Lemma order_rows_perm {A} key (l : list A) : MemoryRepo.order_by key l ≡ₚ l.
Proof. induction l as [|x l IH]; [done|]. cbn. rewrite insert_by_perm. by constructor. Qed.
Lemma insert_by_sorted {A} key (x : A) l : StronglySorted (fun a b => ple (key a) (key b) = true) l ->
  StronglySorted (fun a b => ple (key a) (key b) = true) (MemoryRepo.insert_by key x l).
Proof.
  induction 1 as [|y l Hs IH Hy]; cbn; [repeat constructor|]. destruct (ple (key x) (key y)) eqn:E.
  - constructor; [by constructor|]. constructor; [done|]. eapply Forall_impl; [exact Hy|]. intros z Hz. by eapply ple_trans.
  - constructor; [done|]. rewrite insert_by_perm. constructor; [by apply ple_false|done].
Qed.
Lemma order_by_sorted {A} key (l : list A) : StronglySorted (fun a b => ple (key a) (key b) = true) (MemoryRepo.order_by key l).
Proof. induction l as [|x l IH]; [constructor|]. by apply insert_by_sorted. Qed.

(** ** An example *)
Fixpoint sample_like (p : string) : string -> bool :=
  match p with
  | EmptyString => is_empty
  | String c p' =>
      if (c =? MemoryRepo.percent)%char
      then fix any t := sample_like p' t || match t with EmptyString => false | String _ t' => any t' end
      else if (c =? backslash)%char
      then match p' with
           | String d p'' => fun t => match t with EmptyString => false | String e t' => (e =? d)%char && sample_like p'' t' end
           | EmptyString => fun _ => false
           end
      else fun t => match t with EmptyString => false | String e t' => (e =? c)%char && sample_like p' t' end
  end.
Lemma sample_like_any p t : sample_like (String MemoryRepo.percent p) t = true <-> exists a t', t = a +:+ t' /\ sample_like p t' = true.
Proof.
  induction t as [|e t IH].
  - change (sample_like p "" || false = true <-> exists a t', "" = a +:+ t' /\ sample_like p t' = true). rewrite orb_false_r. split.
    + intros H. by exists "", "".
    + by intros ([|? ?] & [|? ?] & E & H).
  - change (sample_like p (String e t) || sample_like (String MemoryRepo.percent p) t = true <->
      exists a t', String e t = a +:+ t' /\ sample_like p t' = true). rewrite orb_true_iff, IH. split.
    + intros [H|(a & t' & -> & H)]; [by exists "", (String e t)|by exists (String e a), t'].
    + intros ([|e' a] & t' & E & H); [change ("" +:+ t') with t' in E; subst; by left|].
      change (String e' a +:+ t') with (String e' (a +:+ t')) in E. injection E as -> ->. right. eauto.
Qed.
Lemma sample_like_spec p t : sample_like p t = true <-> like_matches p t.
Proof.
  enough (forall n p t, (String.length p <= n)%nat -> sample_like p t = true <-> like_matches p t) as H by (by eapply H).
  clear p t. induction n as [|n IH]; intros [|c p] t Hn; cbn in Hn; try lia.
  1,2: cbn; rewrite is_empty_spec; split; [intros ->; constructor|by inversion 1].
  destruct (Ascii.eqb_spec c MemoryRepo.percent) as [->|H1].
  { rewrite sample_like_any. split.
    - intros (a & t' & -> & H). constructor. apply IH; [lia|done].
    - inversion 1 as [|p' a t' H'| |]; subst; [|done]. exists a, t'. split; [done|]. apply IH; [lia|done]. }
  destruct (Ascii.eqb_spec c backslash) as [->|H2].
  - destruct p as [|d p]; [split; [done|by inversion 1]|]. cbn in Hn. destruct t as [|e t]; [split; [done|by inversion 1]|].
    change ((e =? d)%char && sample_like p t = true <-> like_matches (String backslash (String d p)) (String e t)).
    rewrite andb_true_iff, IH by lia. split.
    + intros [->%Ascii.eqb_eq H]. by constructor.
    + inversion 1; subst; [|done]. by rewrite Ascii.eqb_refl.
  - assert (sample_like (String c p) t = match t with EmptyString => false | String e t' => (e =? c)%char && sample_like p t' end) as ->.
    { cbn [sample_like]. by rewrite (proj2 (Ascii.eqb_neq _ _) H1), (proj2 (Ascii.eqb_neq _ _) H2). }
    destruct t as [|e t]; [split; [done|by inversion 1]|]. rewrite andb_true_iff, IH by lia. split.
    + intros [->%Ascii.eqb_eq H]. by constructor.
    + inversion 1; subst; [done..|]. by rewrite Ascii.eqb_refl.
Qed.

Definition sample_item (n : string) (summary : string) (at_ms : Z) : MemoryItem :=
  mkMemoryItem (sample_uuid n) (sample_uuid n) None "run_summary" None None summary [] ["t"] at_ms at_ms.
Definition memory_store : store :=
  mkStore (mkEventTables [] []) (mkTables [] [] [] [] []) (map (fun n => (sample_uuid n, mkRunRecord (sample_uuid n) None 1000 None None)) ["a"; "b"])
    [] (map memory_item_to_row_dict [sample_item "a" "50% done" 10; sample_item "b" "500 DONE" 20]).
(** JSON text with spaces after commas and colons, as the database may write it *)
Fixpoint spaced_json (v : json) : string :=
  match v with
  | JNull => "null"
  | JBool b => if b then "true" else "false"
  | JInt n => str_of_Z n
  | JFloat _ => "0.5"
  | JStr s => json_str s
  | JArr l => "[" +:+ join ", " (map spaced_json l) +:+ "]"
  | JObj d => "{" +:+ join ", " (map (fun p => json_str p.1 +:+ ": " +:+ spaced_json p.2) d) +:+ "}"
  | JOpaque _ => ""
  end.
Lemma join_member sep l x : x ∈ l -> exists a b, join sep l = a +:+ x +:+ b.
Proof.
  induction l as [|y l IHl]; [by intros ?%not_elem_of_nil|]. intros [->|Hin]%elem_of_cons; [|destruct (IHl Hin) as (a & b & IH)].
  - destruct l as [|z l]; [exists "", ""|exists "", (sep +:+ join sep (z :: l))]; cbn [join]; by rewrite ?str_app_nil.
  - destruct l as [|z l]; [by apply not_elem_of_nil in Hin|]. change (join sep (y :: z :: l)) with (y +:+ sep +:+ join sep (z :: l)).
    exists (y +:+ sep +:+ a), b. by rewrite IH, !str_app_assoc.
Qed.
Lemma spaced_string v j : string_in v j -> ascii_text v = true -> exists a b, spaced_json j = a +:+ json_str v +:+ b.
Proof.
  intros Hin _. induction Hin as [|l j Hin _ (a & b & IH)|d k j Hin _ (a & b & IH)].
  - exists "", "". by rewrite str_app_nil.
  - destruct (join_member ", " (map spaced_json l) (spaced_json j)) as (p & q & E); [apply list_elem_of_fmap; by exists j|].
    exists ("[" +:+ p +:+ a), (b +:+ q +:+ "]"). cbn [spaced_json]. by rewrite E, IH, !str_app_assoc.
  - destruct (join_member ", " (map (fun p => json_str p.1 +:+ ": " +:+ spaced_json p.2) d) (json_str k +:+ ": " +:+ spaced_json j)) as (p & q & E);
      [apply list_elem_of_fmap; by exists (k, j)|].
    exists ("{" +:+ p +:+ json_str k +:+ ": " +:+ a), (b +:+ q +:+ "}"). cbn [spaced_json]. by rewrite E, IH, !str_app_assoc.
Qed.
Lemma spaced_strings l : Forall (fun t => ascii_text t = true) l ->
  spaced_json (JArr (map JStr l)) = "[" +:+ join ", " (map json_str l) +:+ "]".
Proof. intros _. cbn [spaced_json]. by rewrite map_map. Qed.

#[local] Notation searched_for q s := (fst (MemoryRepo.search lower lower spaced_json sample_like q 10 0 None None s)).
Example searches : map (fun q => searched_for q memory_store) ["50%"; "done"; " "] =
  [Ok [sample_item "a" "50% done" 10]; Ok [sample_item "b" "500 DONE" 20; sample_item "a" "50% done" 10]; Raise (ValueError "query must be non-empty")].
Proof. by vm_compute. Qed.
(** What the JSON text hides and what it adds: a tag with a quote is not found by
    itself, its JSON escape is, and a bracket finds every item. *)
Definition quoted_tag_store : store := set_memory
  [memory_item_to_row_dict (mkMemoryItem (sample_uuid "a") (sample_uuid "a") None "run_summary" None None "done" [] ["a" +:+ String dquote "b"] 10 10)] memory_store.
Example search_of_json_text :
  searched_for ("a" +:+ String dquote "b") quoted_tag_store = Ok [] /\
  map (fun r => map memory_id (match r with Ok l => l | Raise _ => [] end)) (map (fun q => searched_for q quoted_tag_store) ["a" +:+ String backslash (String dquote "b"); "]"; "tag"]) =
    [[sample_uuid "a"]; [sample_uuid "a"]; []].
Proof. by vm_compute. Qed.
Lemma search_finds_mentions_witness : searched_for "50%" memory_store = Ok [sample_item "a" "50% done" 10] /\
  found lower lower spaced_json "T" (memory_item_to_row_dict (sample_item "a" "50% done" 10)) = true.
Proof.
  destruct (search_finds_mentions lower lower spaced_json sample_like lower_idemp lower_idemp (fun _ _ => eq_refl) (fun _ _ => eq_refl)
    (fun p t _ _ _ => sample_like_spec p t) spaced_string spaced_strings "50%" 10 0 None None memory_store) as [E H].
  rewrite E. split; [vm_compute; reflexivity|].
  destruct (H "T" (memory_item_to_row_dict (sample_item "a" "50% done" 10)) eq_refl eq_refl) as (_ & H2 & _).
  apply H2; [repeat constructor|reflexivity].
Defined.

Lemma packet_remembered_witness : exists m, memory_item_from_run_packet (sample_uuid "e") one_task = Ok m /\ tags m = ["page.created"; "feed"; "fs.write"] /\
  summarises one_task m.
Proof.
  destruct (packet_remembered (fun _ => "") (sample_uuid "e") one_task one_task_ok one_task_event_ok ltac:(reflexivity) ltac:(vm_compute; discriminate))
    as (m & E & _ & H).
  - intros r b ?%not_elem_of_nil. contradiction.
  - exists m. split; [exact E|]. split; [|exact H]. vm_compute in E. injection E as <-. vm_compute. reflexivity.
Defined.

Lemma sample_item_valid : valid_memory (sample_item "a" "done" 30).
Proof.
  assert (forall t : string, strip t = t -> t <> "" -> is_trimmed t) as T by (intros; by split).
  split.
  - reflexivity.
  - reflexivity.
  - discriminate.
  - by apply T.
  - discriminate.
  - discriminate.
  - by apply T.
  - reflexivity.
  - split; [|apply NoDup_singleton]. constructor; [by apply T|constructor].
  - cbn. lia.
Qed.
Lemma sample_item_writable : writable (sample_item "a" "done" 30) memory_store.
Proof.
  split; [exact sample_item_valid|by eexists| |discriminate].
  intros r [->|[->|?%not_elem_of_nil]%elem_of_cons]%elem_of_cons; [intros E; by destruct E|intros _; discriminate|done].
Qed.
Lemma memory_upserted_witness : exists s', MemoryRepo.upsert (sample_item "a" "done" 30) memory_store = (Ok (sample_item "a" "done" 30), s') /\
  MemoryRepo.get_by_run (sample_uuid "a") s' = (Ok (Some (sample_item "a" "done" 30)), s').
Proof.
  destruct (memory_upserted (sample_item "a" "done" 30) memory_store) as [H _].
  - split; apply (bool_decide_unpack _); vm_compute; exact I.
  - destruct (H sample_item_writable) as (s' & E & _ & G & _). exists s'. split; [exact E|exact G].
Defined.
