(* ===== verification/Maintenance.v ===== *)
(** * Periodic clean-up: [application/maintenance_service.py]

    One pass of maintenance is four units of work: the memory items that old run
    packets lack are written, memory items past their retention are deleted, old
    terminal tasks are archived, and expired deduplication keys are removed, each
    at most a batch at a time. The results: passes without a retention bring the
    memory of all old packets up to date; with a retention they do not end it: a
    pass writes again what the last one deleted, and deletes it once more, so the
    other items past their retention are kept for ever; and archiving touches
    only terminal tasks that completed long enough ago. *)

From Stdlib Require Import ZArith SpecFloat Lia Ascii Sorted.
From stdpp Require Import sorting.
From S2P Require Import Prelude PyFloat PyText Uuid Models Lifecycle Serialization Truncation Redaction Events Plans RunPackets AuditSanitize Approvals EventStore Rows Repos PacketStore Persistence Memory.

#[local] Notation dict := (list (string * json)).

(** ** [archive_terminal_before] of [infra/db/repos/tasks.py] *)
Module TaskArchive.
Definition terminal_statuses : list TaskStatus.t := [TaskStatus.SUCCEEDED; TaskStatus.FAILED; TaskStatus.CANCELED].
Definition archivable (completed_before_ms : Z) (r : TaskRow) : bool :=
  existsb (fun s => (tr_status r =? TaskStatus.value s)%string) terminal_statuses &&
  match tr_completed_at_ms r with Some c => c <? completed_before_ms | None => false end.
Definition archive_key (p : string * TaskRow) : Z * string := (default 0 (tr_completed_at_ms p.2), p.1).
Definition archive_ids (ids : list string) (p : string * TaskRow) : string * TaskRow :=
  if bool_decide (p.1 ∈ ids) then (p.1, row_with_status TaskStatus.ARCHIVED p.2) else p.
Definition archive_terminal_before (completed_before_ms limit : Z) : st tables Z := fun d =>
  match validate_limit_offset limit 0 with
  | Raise e => (Raise e, d)
  | Ok _ =>
      let task_ids := take (Z.to_nat limit) (map fst (MemoryRepo.order_by archive_key
        (filter (fun p => archivable completed_before_ms p.2 = true) (task_rows d)))) in
      (Ok (Z.of_nat (length task_ids)), set_task_rows (map (archive_ids task_ids) (task_rows d)) d)
  end.
End TaskArchive.

(** ** [MaintenanceService] *)
Definition MS_PER_DAY : Z := 86400000.
(** The settings that a pass reads; validated, the batch is positive. *)
Record maintenance_settings := mkMaintenanceSettings {
  maintenance_batch_size : Z;
  memory_compaction_after_days : Z;
  memory_retention_days : option Z;
  archive_terminal_tasks_after_days : option Z;
}.
Record MaintenanceOutcome := mkMaintenanceOutcome {
  compacted_run_packets : Z;
  pruned_memory_items : Z;
  archived_tasks : Z;
  pruned_expired_dedupe_keys : Z;
}.

Section service.
Variable float_repr : spec_float -> string.
Variable redact_text : string -> string.
Variable audit : audit_settings.
Variable lax_int : json -> res Z.
Variable fresh_default : string -> string.
Variable wall_ms : Z.
Variable cfg : maintenance_settings.
(** the [uuid4] of the items that a pass writes, in turn *)
Variable uuids : nat -> string.

Fixpoint upsert_all (i : nat) (packets : list RunPacket) : st store unit :=
  match packets with
  | [] => mret tt
  | p :: packets => remember (uuids i) p;; upsert_all (S i) packets
  end.
Definition refresh_memory_from_run_packets (now_ms limit : Z) : st store Z :=
  let compact_before_ms := now_ms - memory_compaction_after_days cfg * MS_PER_DAY in
  unit_of_work (
    packets ← RunPacketRepo.list_for_memory_refresh_before float_repr redact_text audit lax_int fresh_default wall_ms
      compact_before_ms MEMORY_SUMMARY_VERSION limit 0;
    upsert_all 0 packets;;
    mret (Z.of_nat (length packets))).
Definition prune_memory (now_ms limit : Z) : st store Z :=
  match memory_retention_days cfg with
  | None => mret 0
  | Some retention_days => unit_of_work (MemoryRepo.delete_older_than (now_ms - retention_days * MS_PER_DAY) limit)
  end.
Definition archive_terminal_tasks (now_ms limit : Z) : st store Z :=
  match archive_terminal_tasks_after_days cfg with
  | None => mret 0
  | Some archive_days => unit_of_work (on_tables (TaskArchive.archive_terminal_before (now_ms - archive_days * MS_PER_DAY) limit))
  end.
Definition prune_expired_dedupe (now_ms limit : Z) : st store Z := unit_of_work (on_events (EventStore.prune_expired_dedupe now_ms limit)).

(** [run_once]; [clock_ms] is what the clock reads. *)
Definition run_once (clock_ms : Z) (now_ms : option Z) : st store MaintenanceOutcome :=
  let effective_now_ms := default clock_ms now_ms in
  let batch_size := maintenance_batch_size cfg in
  compacted ← refresh_memory_from_run_packets effective_now_ms batch_size;
  pruned ← prune_memory effective_now_ms batch_size;
  archived ← archive_terminal_tasks effective_now_ms batch_size;
  expired ← prune_expired_dedupe effective_now_ms batch_size;
  mret (mkMaintenanceOutcome compacted pruned archived expired).
End service.

(** ** What a batch writes *)
Section facts.
Variable float_repr : spec_float -> string.
Variable redact_text : string -> string.
Variable audit : audit_settings.
Variable lax_int : json -> res Z.
Variable fresh_default : string -> string.
Variable wall_ms : Z.
#[local] Notation of_run := MemoryRepo.of_run.
#[local] Notation row_to_packet := (RunPacketRepo.row_to_packet float_repr redact_text audit lax_int fresh_default wall_ms).

(** A packet whose summary can be stored: a valid packet of a known run and event. *)
Record rememberable (s : store) (p : RunPacket) : Prop := {
  rb_packet : packet_ok float_repr p;
  rb_event : valid_event float_repr DEFAULT_MAX_PAYLOAD_BYTES (pk_event p);
  rb_created : 0 <= pk_created_at_ms p;
  rb_times : forall r b, r ∈ tool_results p -> aget "recorded_at_ms" r <> Some (JBool b);
  rb_run : is_Some (aget (pk_run_id p) (s_run_rows s));
  rb_known : is_Some (aget (event_id (pk_event p)) (event_rows (s_events s)));
}.
Lemma rememberable_memory s p l : rememberable s p -> rememberable (set_memory l s) p.
Proof. intros []. by split. Qed.

(** The identifiers that a pass draws are new. *)
Record supplies (uuids : nat -> string) (i n : nat) (l : list MemoryItemRow) : Prop := {
  sp_uuid : forall j, (i <= j < n)%nat -> is_uuid4_str (uuids j) = true;
  sp_distinct : forall j k, (i <= j < n)%nat -> (i <= k < n)%nat -> uuids j = uuids k -> j = k;
  sp_new : forall j r, (i <= j < n)%nat -> r ∈ l -> mr_memory_id r <> uuids j;
}.

#[local] Notation write l m := (MemoryRepo.write_row (memory_item_to_row_dict m) l).
Lemma elem_of_write row l r : r ∈ MemoryRepo.write_row row l -> r = row \/ r ∈ l.
Proof.
  unfold MemoryRepo.write_row. destruct (of_run (mr_run_id row) l).
  - intros (r0 & -> & Hr)%list_elem_of_fmap. destruct (mr_run_id r0 =? mr_run_id row)%string; auto.
  - rewrite elem_of_app, list_elem_of_singleton. tauto.
Qed.

Lemma remember_writes fresh s p : rememberable s p -> is_uuid4_str fresh = true -> (forall r, r ∈ s_memory s -> mr_memory_id r <> fresh) ->
  exists m, memory_item_from_run_packet fresh p = Ok m /\ memory_id m = fresh /\ summarises p m /\ writable m s /\
    remember fresh p s = (Ok tt, set_memory (write (s_memory s) m) s).
Proof.
  intros [] Hf Hn. destruct (packet_remembered float_repr fresh p) as (m & E & Ei & S); [done..|]. exists m.
  assert (writable m s) as W.
  { split; [apply S| |intros r Hr _; rewrite Ei; by apply Hn|].
    - by rewrite (su_run _ _ S).
    - intros e. rewrite (proj1 (su_event _ _ S)). by intros [= <-]. }
  split_and!; [done..|]. unfold remember, mbind, st_bind, lift. rewrite E. by rewrite (upsert_writes m s W).
Qed.

Lemma upsert_all_writes uuids ps : forall i s, Forall (rememberable s) ps -> supplies uuids i (i + length ps) (s_memory s) ->
  exists ms, Forall2 summarises ps ms /\ (forall k m, ms !! k = Some m -> memory_id m = uuids (i + k)%nat) /\
    (forall k p m, ps !! k = Some p -> ms !! k = Some m -> memory_item_from_run_packet (uuids (i + k)%nat) p = Ok m) /\
    upsert_all uuids i ps s = (Ok tt, set_memory (foldl (fun l m => write l m) (s_memory s) ms) s).
Proof.
  induction ps as [|p ps IH]; intros i s Hg [Hu Hd Hn].
  - exists []. split_and!; [constructor|done|done|]. cbn. by destruct s.
  - apply Forall_cons_1 in Hg as [Hp Hg]. cbn [length] in *.
    destruct (remember_writes (uuids i) s p Hp) as (m & E & Ei & Su & W & R); [apply Hu; lia|intros r Hr; apply Hn; [lia|done]|].
    destruct (IH (S i) (set_memory (write (s_memory s) m) s)) as (ms & A & B & C & D).
    + eapply Forall_impl; [exact Hg|]. intros q. apply rememberable_memory.
    + split; [intros j Hj; apply Hu; lia|intros j k Hj Hk; apply Hd; lia|]. intros j r Hj [->|Hr]%elem_of_write.
      * cbn. rewrite Ei. intros Eq. apply Hd in Eq; lia.
      * apply Hn; [lia|done].
    + exists (m :: ms). split_and!.
      * by constructor.
      * intros [|k] m'; [intros [= <-]; by rewrite Nat.add_0_r|]. cbn. intros H. rewrite (B k m' H). f_equal. lia.
      * intros [|k] p' m'; [intros [= <-] [= <-]; by rewrite Nat.add_0_r|]. cbn. intros H1 H2. rewrite <- (C k p' m' H1 H2). do 2 f_equal. lia.
      * cbn [upsert_all]. unfold mbind at 1, st_bind at 1. rewrite R, D. done.
Qed.

(** Who has an item after the batch. *)
Lemma of_run_writes k ms l : of_run k (foldl (fun l m => write l m) l ms) =
  match last (filter (fun m => mem_run_id m = k) ms) with Some m => Some (memory_item_to_row_dict m) | None => of_run k l end.
Proof.
  induction ms as [|m ms IH] using rev_ind; [done|]. rewrite foldl_app, filter_app. cbn [foldl]. rewrite of_run_write. cbn [mr_run_id memory_item_to_row_dict].
  destruct (decide (k = mem_run_id m)) as [->|Hne].
  - rewrite filter_cons_True by done. cbn. by rewrite last_snoc.
  - rewrite filter_cons_False by congruence. cbn. by rewrite app_nil_r, IH.
Qed.
Lemma writes_ok ms : forall l, table_ok l -> NoDup (map memory_id ms) ->
  (forall m r, m ∈ ms -> r ∈ l -> mr_memory_id r <> memory_id m) -> table_ok (foldl (fun l m => write l m) l ms).
Proof.
  induction ms as [|m ms IH]; intros l Ht Hd Hn; [done|]. cbn [foldl]. apply NoDup_cons in Hd as [Hm Hd]. apply IH; [|done|].
  - apply write_ok; [done|]. intros r Hr _. apply Hn; [by left|done].
  - intros m' r Hm' [->|Hr]%elem_of_write; [|apply Hn; [by right|done]]. intros E. apply Hm. cbn in E. rewrite E. by apply list_elem_of_fmap_2.
Qed.
(** Items of runs that have none are added. *)
Lemma writes_append ms : forall l, NoDup (map mem_run_id ms) -> (forall m, m ∈ ms -> of_run (mem_run_id m) l = None) ->
  foldl (fun l m => write l m) l ms = (l ++ map memory_item_to_row_dict ms)%list.
Proof.
  induction ms as [|m ms IH]; intros l Hd Hn; cbn [foldl map]; [by rewrite app_nil_r|]. apply NoDup_cons in Hd as [Hm Hd].
  assert (write l m = (l ++ [memory_item_to_row_dict m])%list) as E.
  { unfold MemoryRepo.write_row. cbn [mr_run_id memory_item_to_row_dict]. by rewrite Hn by (by left). }
  rewrite E, IH; [by rewrite <- app_assoc|done|]. intros m' Hm'. rewrite of_run_app, Hn by (by right). cbn. rewrite decide_False; [done|].
  intros Eq. apply Hm. rewrite <- Eq. by apply list_elem_of_fmap_2.
Qed.

(** ** A batch of old packets *)
Variable cfg : maintenance_settings.
Hypothesis batch_positive : 0 < maintenance_batch_size cfg.
#[local] Notation B := (Z.to_nat (maintenance_batch_size cfg)).
#[local] Notation compact_before now := (now - memory_compaction_after_days cfg * MS_PER_DAY).
(** The old packets without current memory, oldest first, and those a pass takes. *)
Definition stale (now : Z) (s : store) : list (string * RunPacketRow) :=
  RunPacketRepo.for_memory_refresh (compact_before now) MEMORY_SUMMARY_VERSION s.
Definition batch (now : Z) (s : store) : list (string * RunPacketRow) := take B (stale now s).
Definition row_good (s : store) (q : string * RunPacketRow) : Prop :=
  exists p, row_to_packet q.1 q.2 = Ok p /\ pk_run_id p = q.1 /\ rememberable s p.

#[local] Notation refresh := (refresh_memory_from_run_packets float_repr redact_text audit lax_int fresh_default wall_ms cfg).
Lemma rows_good s l : Forall (row_good s) l -> exists ps, RunPacketRepo.packets_of float_repr redact_text audit lax_int fresh_default wall_ms l = Ok ps /\
  map pk_run_id ps = map fst l /\ Forall (rememberable s) ps /\ Forall2 (fun q p => row_to_packet q.1 q.2 = Ok p) l ps.
Proof.
  unfold RunPacketRepo.packets_of. induction 1 as [|q l (p & Hp & Hr & Hg) _ (ps & E & Er & Hgs & H2)]; [exists []; by split_and!|].
  exists (p :: ps). split_and!; [|cbn; by f_equal|by constructor|by constructor]. cbn [map sequence]. rewrite Hp. cbn. by rewrite E.
Qed.
Lemma page_batch now s : RunPacketRepo.page (maintenance_batch_size cfg) 0 (stale now s) = batch now s.
Proof. unfold RunPacketRepo.page, batch. by rewrite drop_0. Qed.

(** What a pass does to the memory before it prunes. *)
Record refreshed (uuids : nat -> string) (now : Z) (s : store) (ms : list MemoryItem) : Prop := {
  rf_runs : map mem_run_id ms = map fst (batch now s);
  rf_ids : forall k m, ms !! k = Some m -> memory_id m = uuids k;
  rf_items : Forall (fun m => exists p, summarises p m) ms;
  rf_from : forall m, m ∈ ms -> exists q p k, q ∈ batch now s /\ row_to_packet q.1 q.2 = Ok p /\ memory_item_from_run_packet (uuids k) p = Ok m;
  rf_runs_as : refresh uuids now (maintenance_batch_size cfg) s =
    (Ok (Z.of_nat (length (batch now s))), set_memory (foldl (fun l m => write l m) (s_memory s) ms) s);
}.
Lemma refresh_batch uuids now s : Forall (row_good s) (batch now s) -> supplies uuids 0 (length (batch now s)) (s_memory s) ->
  exists ms, refreshed uuids now s ms.
Proof.
  intros Hg Hs. destruct (rows_good s _ Hg) as (ps & E & Er & Hgs & H2). pose proof (Forall2_length _ _ _ H2) as El.
  destruct (upsert_all_writes uuids ps 0 s Hgs) as (ms & A & Bi & C & D); [by rewrite Nat.add_0_l, <- El|]. exists ms. split.
  - rewrite <- Er. clear -A. induction A as [|p m ps ms S _ IH]; [done|]. cbn. by rewrite (su_run _ _ S), IH.
  - intros k m Hk. by rewrite (Bi k m Hk).
  - apply Forall_forall. intros m (k & Hk)%list_elem_of_lookup. destruct (Forall2_lookup_r _ _ _ _ _ A Hk) as (p & _ & S). by exists p.
  - intros m (k & Hk)%list_elem_of_lookup. destruct (Forall2_lookup_r _ _ _ _ _ A Hk) as (p & Hp & _).
    destruct (Forall2_lookup_r _ _ _ _ _ H2 Hp) as (q & Hq & Eq). exists q, p, k. split_and!; [by eapply list_elem_of_lookup_2|done|by apply C].
  - unfold refresh_memory_from_run_packets, unit_of_work, RunPacketRepo.list_for_memory_refresh_before, mbind at 1, st_bind at 1.
    change (validate_limit_offset (maintenance_batch_size cfg) 0) with (raise_if (maintenance_batch_size cfg <? 0) (ValueError "limit must be >= 0");; Ok tt).
    rewrite (proj2 (Z.ltb_ge _ _)) by lia. rewrite (proj2 (Z.eqb_neq _ _)) by lia. cbn [raise_if mbind res_bind].
    change (strip MEMORY_SUMMARY_VERSION) with MEMORY_SUMMARY_VERSION. cbn [is_empty MEMORY_SUMMARY_VERSION raise_if mbind res_bind].
    change (RunPacketRepo.for_memory_refresh _ _ s) with (stale now s). rewrite page_batch, E. unfold mbind, st_bind. rewrite D, El. done.
Qed.

Lemma current_item m p : summarises p m -> get_str "memory_version" (mr_content (memory_item_to_row_dict m)) = Some MEMORY_SUMMARY_VERSION.
Proof. intros S. cbn [mr_content memory_item_to_row_dict]. by rewrite (su_content _ _ S). Qed.
Lemma last_filter_elem {A} (P : A -> Prop) `{!forall x, Decision (P x)} l x : x ∈ l -> P x -> exists y, last (filter P l) = Some y /\ y ∈ l /\ P y.
Proof.
  intros Hx Hp. assert (x ∈ filter P l) as Hf by (by apply list_elem_of_filter). destruct (last (filter P l)) as [y|] eqn:E.
  - exists y. split; [done|]. apply last_Some in E as (l' & E). assert (y ∈ filter P l) as Hy by (rewrite E; set_solver). by apply list_elem_of_filter in Hy as [? ?].
  - apply last_None in E. rewrite E in Hf. by apply not_elem_of_nil in Hf.
Qed.
Lemma needs_after uuids now s ms q : refreshed uuids now s ms ->
  RunPacketRepo.needs_refresh MEMORY_SUMMARY_VERSION (foldl (fun l m => write l m) (s_memory s) ms) q =
  if bool_decide (q.1 ∈ map fst (batch now s)) then false else RunPacketRepo.needs_refresh MEMORY_SUMMARY_VERSION (s_memory s) q.
Proof.
  intros [Hr _ Hi _ _]. unfold RunPacketRepo.needs_refresh. change (List.find (fun m => (mr_run_id m =? q.1)%string)) with (of_run q.1).
  rewrite of_run_writes, <- Hr. case_bool_decide as Hin.
  - apply list_elem_of_fmap in Hin as (m & Em & Hm). destruct (last_filter_elem (fun m => mem_run_id m = q.1) ms m Hm) as (y & -> & Hy & _); [done|].
    apply (proj1 (Forall_forall _ _) Hi) in Hy as (p & S). by rewrite (current_item _ _ S), String.eqb_refl.
  - destruct (last _) as [y|] eqn:E; [|done]. apply last_Some in E as (l' & E). assert (y ∈ filter (fun m => mem_run_id m = q.1) ms) as Hy by (rewrite E; set_solver).
    apply list_elem_of_filter in Hy as [Ey Hy]. destruct Hin. rewrite <- Ey. by apply list_elem_of_fmap_2.
Qed.

(** The packets left for the next pass. *)
Lemma stale_perm now s : stale now s ≡ₚ filter (fun p => pr_created_at_ms p.2 < compact_before now /\
  RunPacketRepo.needs_refresh MEMORY_SUMMARY_VERSION (s_memory s) p = true) (s_packets s).
Proof. apply order_by_perm. Qed.
Lemma stale_keys now s : NoDup (keys (s_packets s)) -> NoDup (map fst (stale now s)).
Proof.
  intros Hd. rewrite (fmap_Permutation fst _ _ (stale_perm now s)). unfold keys in Hd. clear -Hd. induction (s_packets s) as [|p l IH]; [constructor|].
  apply NoDup_cons in Hd as [Hp Hd]. destruct (decide (pr_created_at_ms p.2 < compact_before now /\
    RunPacketRepo.needs_refresh MEMORY_SUMMARY_VERSION (s_memory s) p = true)) as [H|H]; [rewrite filter_cons_True by done|rewrite filter_cons_False by done; by apply IH].
  constructor; [|by apply IH]. intros (q & E & [_ Hq]%list_elem_of_filter)%list_elem_of_fmap. apply Hp. rewrite E. by apply list_elem_of_fmap_2.
Qed.
Lemma filter_nothing {A} (P : A -> Prop) `{!forall x, Decision (P x)} l : (forall x, x ∈ l -> ~ P x) -> filter P l = [].
Proof. induction l as [|x l IH]; [done|]. intros Hno. rewrite filter_cons_False by (apply Hno; by left). apply IH. intros y Hy. apply Hno. by right. Qed.
Lemma filter_not_taken {V} n (l : list (string * V)) : NoDup (map fst l) -> filter (fun p => p.1 ∉ map fst (take n l)) l = drop n l.
Proof.
  intros Hk. transitivity (filter (fun p => p.1 ∉ map fst (take n l)) (take n l ++ drop n l)); [by rewrite take_drop|].
  rewrite <- (take_drop n l), map_app in Hk. apply NoDup_app in Hk as (_ & Hx & _). rewrite filter_app, filter_nothing, filter_all; [done| |].
  - apply Forall_forall. intros q Hq Hin. eapply Hx; [exact Hin|by apply list_elem_of_fmap_2].
  - intros q Hq Hn. apply Hn. by apply list_elem_of_fmap_2.
Qed.
Lemma stale_after uuids now s ms : NoDup (keys (s_packets s)) -> refreshed uuids now s ms ->
  stale now (set_memory (foldl (fun l m => write l m) (s_memory s) ms) s) ≡ₚ drop B (stale now s).
Proof.
  intros Hd Hr. etrans; [apply stale_perm|]. cbn [s_packets s_memory set_memory].
  rewrite (list_filter_iff _ (fun p => p.1 ∉ map fst (batch now s) /\ (pr_created_at_ms p.2 < compact_before now /\
    RunPacketRepo.needs_refresh MEMORY_SUMMARY_VERSION (s_memory s) p = true))).
  2:{ intros q. rewrite (needs_after _ _ _ _ _ Hr). case_bool_decide; naive_solver. }
  rewrite <- list_filter_filter, <- stale_perm. unfold batch. by rewrite filter_not_taken by (by apply stale_keys).
Qed.
Lemma elem_of_writes ms : forall l r, r ∈ foldl (fun l m => write l m) l ms -> r ∈ l \/ exists m, m ∈ ms /\ r = memory_item_to_row_dict m.
Proof.
  induction ms as [|m ms IH]; intros l r; cbn [foldl]; [by left|]. intros [[->|H]%elem_of_write|(m' & H & ->)]%IH; [right; exists m; split; [by left|done]|by left|].
  right. exists m'. split; [by right|done].
Qed.

(** What the rest of a pass leaves alone. *)
Record same_runs (s s' : store) : Prop := {
  sr_packets : s_packets s' = s_packets s;
  sr_rows : s_run_rows s' = s_run_rows s;
  sr_events : event_rows (s_events s') = event_rows (s_events s);
}.
#[local] Instance same_runs_preorder : PreOrder same_runs.
Proof. split; [by split|intros s1 s2 s3 [A1 A2 A3] [B1 B2 B3]; split; congruence]. Qed.
Lemma batch_limit : validate_limit_offset (maintenance_batch_size cfg) 0 = Ok tt.
Proof. unfold validate_limit_offset. destruct (Z.ltb_spec (maintenance_batch_size cfg) 0); [lia|done]. Qed.
Lemma archive_returns now s : exists n s', archive_terminal_tasks cfg now (maintenance_batch_size cfg) s = (Ok n, s') /\ same_runs s s' /\ s_memory s' = s_memory s.
Proof.
  unfold archive_terminal_tasks. destruct (archive_terminal_tasks_after_days cfg) as [d|]; [|exists 0, s; by split_and!].
  unfold unit_of_work, on_tables, TaskArchive.archive_terminal_before. rewrite batch_limit. eexists _, _. by split_and!.
Qed.
Lemma dedupe_returns now s : exists n s', prune_expired_dedupe now (maintenance_batch_size cfg) s = (Ok n, s') /\ same_runs s s' /\ s_memory s' = s_memory s.
Proof.
  unfold prune_expired_dedupe, unit_of_work, on_events, EventStore.prune_expired_dedupe. rewrite (proj2 (Z.ltb_ge _ _)) by lia. eexists _, _. by split_and!.
Qed.

#[local] Notation pass := (run_once float_repr redact_text audit lax_int fresh_default wall_ms cfg).
Lemma pass_prefix uuids now s ms np s1 : refreshed uuids now s ms ->
  prune_memory cfg now (maintenance_batch_size cfg) (set_memory (foldl (fun l m => write l m) (s_memory s) ms) s) = (Ok np, s1) ->
  exists na nd s', pass uuids now None s = (Ok (mkMaintenanceOutcome (Z.of_nat (length (batch now s))) np na nd), s') /\
    same_runs s1 s' /\ s_memory s' = s_memory s1.
Proof.
  intros R Hp. destruct (archive_returns now s1) as (na & s2 & Ha & S2 & M2). destruct (dedupe_returns now s2) as (nd & s3 & Hd & S3 & M3).
  exists na, nd, s3. split_and!; [|by etrans|congruence]. unfold run_once. cbn [default]. unfold mbind, st_bind. by rewrite (rf_runs_as _ _ _ _ R), Hp, Ha, Hd.
Qed.
Lemma row_good_same s s' q : same_runs s s' -> row_good s q -> row_good s' q.
Proof.
  intros [_ Er Ee] (p & Hp & Hr & []). exists p. split_and!; [done..|]. split; try done; [by rewrite Er|by rewrite Ee].
Qed.

(** Passes, one after the other, at the same time of the clock. *)
Fixpoint passes (n : nat) (uuids : nat -> nat -> string) (now : Z) : st store (list MaintenanceOutcome) :=
  match n with
  | O => mret []
  | S n => o ← pass (uuids 0%nat) now None; os ← passes n (fun k => uuids (S k)) now; mret (o :: os)
  end.

(** All identifiers that [n] passes draw are new and different. *)
Record draws (uuids : nat -> nat -> string) (n : nat) (s : store) : Prop := {
  dr_uuid : forall k i, (k < n)%nat -> (i < B)%nat -> is_uuid4_str (uuids k i) = true;
  dr_distinct : forall k k' i i', (k < n)%nat -> (k' < n)%nat -> (i < B)%nat -> (i' < B)%nat -> uuids k i = uuids k' i' -> k = k' /\ i = i';
  dr_new : forall k i r, (k < n)%nat -> (i < B)%nat -> r ∈ s_memory s -> mr_memory_id r <> uuids k i;
}.
Lemma draws_supplies uuids n s m : draws uuids (S n) s -> (m <= B)%nat -> supplies (uuids 0%nat) 0 m (s_memory s).
Proof.
  intros [Hu Hd Hn] Hm. split; [intros j Hj; apply Hu; lia|intros j k Hj Hk E; apply (Hd 0 0 j k)%nat in E; lia|]. intros j r Hj. apply Hn; lia.
Qed.
Lemma batch_length now s : length (batch now s) = Nat.min B (length (stale now s)).
Proof. apply length_take. Qed.

Lemma sublist_good s now : Forall (row_good s) (stale now s) -> Forall (row_good s) (batch now s).
Proof. intros H. by apply Forall_take. Qed.
Lemma refreshed_ids uuids now s ms m : refreshed uuids now s ms -> m ∈ ms -> exists i, (i < B)%nat /\ memory_id m = uuids i.
Proof.
  intros R (i & Hi)%list_elem_of_lookup. exists i. split; [|by apply (rf_ids _ _ _ _ R)]. apply lookup_lt_Some in Hi.
  assert (length ms = length (batch now s)) as El by (rewrite <- (length_map mem_run_id), (rf_runs _ _ _ _ R); apply length_map).
  rewrite batch_length in El. lia.
Qed.

Lemma backfill_passes n uuids now s : memory_retention_days cfg = None -> NoDup (keys (s_packets s)) ->
  Forall (row_good s) (stale now s) -> draws uuids n s ->
  exists os s', passes n uuids now s = (Ok os, s') /\ s_packets s' = s_packets s /\
    length (stale now s') = (length (stale now s) - n * B)%nat /\
    map compacted_run_packets os = map (fun k => Z.of_nat (Nat.min B (length (stale now s) - k * B))) (seq 0 n).
Proof.
  intros Hret. revert uuids s. induction n as [|n IH]; intros uuids s Hd Hg Hu.
  - exists [], s. split_and!; [done|done|cbn; lia|done].
  - destruct (refresh_batch (uuids 0%nat) now s) as (ms & R); [by apply sublist_good|eapply draws_supplies; [exact Hu|rewrite batch_length; lia]|].
    set (s1 := set_memory (foldl (fun l m => write l m) (s_memory s) ms) s). pose proof (stale_after _ _ _ _ Hd R) as Hs. fold s1 in Hs.
    destruct (pass_prefix (uuids 0%nat) now s ms 0 s1 R) as (na & nd & s2 & Hp & S2 & M2); [unfold prune_memory; by rewrite Hret|].
    assert (same_runs s s2) as Sr by (etrans; [|exact S2]; by split).
    assert (stale now s2 = stale now s1) as E2. { unfold stale, RunPacketRepo.for_memory_refresh. by rewrite M2, (sr_packets _ _ S2). }
    destruct (IH (fun k => uuids (S k)) s2) as (os & s' & H1 & Hq & H2 & H3).
    + by rewrite (sr_packets _ _ Sr).
    + rewrite E2, Hs. apply Forall_drop. eapply Forall_impl; [exact Hg|]. intros q. by apply row_good_same.
    + destruct Hu as [Hu Hx Hn]. split; [intros k i ? ?; apply Hu; lia|intros k k' i i' ? ? ? ? E; apply Hx in E; lia|].
      intros k i r Hk Hi. rewrite M2. intros [Hr|(m & Hm & ->)]%elem_of_writes; [apply Hn; [lia|lia|done]|]. cbn.
      destruct (refreshed_ids _ _ _ _ _ R Hm) as (j & Hj & ->). intros E. apply Hx in E; lia.
    + assert (length (stale now s2) = (length (stale now s) - B)%nat) as El by (rewrite E2, Hs; apply length_drop).
      eexists (_ :: os), s'. split_and!; [cbn [passes]; unfold mbind, st_bind; by rewrite Hp, H1|by rewrite Hq, (sr_packets _ _ Sr)|rewrite H2, El; lia|].
      cbn [map seq compacted_run_packets]. rewrite H3, batch_length, <- seq_shift, map_map. f_equal; [f_equal; lia|]. apply map_ext. intros k.
      rewrite El. f_equal. lia.
Qed.
Lemma not_stale now s k row : stale now s = [] -> (k, row) ∈ s_packets s -> pr_created_at_ms row < compact_before now ->
  exists r, of_run k (s_memory s) = Some r /\ get_str "memory_version" (mr_content r) = Some MEMORY_SUMMARY_VERSION.
Proof.
  intros E Hk Hc. pose proof (stale_perm now s) as P. rewrite E in P. symmetry in P. apply Permutation_nil_r in P.
  destruct (RunPacketRepo.needs_refresh MEMORY_SUMMARY_VERSION (s_memory s) (k, row)) eqn:En.
  - assert ((k, row) ∈ @nil (string * RunPacketRow)) as H by (rewrite <- P; by apply list_elem_of_filter). by apply not_elem_of_nil in H.
  - unfold RunPacketRepo.needs_refresh in En. change (List.find _ (s_memory s)) with (of_run k (s_memory s)) in En.
    destruct (of_run k (s_memory s)) as [r|]; [|done]. exists r. split; [done|]. destruct (get_str _ _) as [v|]; [|done].
    apply negb_false_iff, String.eqb_eq in En. by subst.
Qed.

(** C35: memory catches up. When nothing is deleted for its age, and every old packet
    without current memory can be read and summarised, each pass returns and
    takes a full batch of them while there is one; and after as many passes as
    there are batches every old packet's run has an item of the current version. *)
Theorem backfill_completes n uuids now s : memory_retention_days cfg = None -> NoDup (keys (s_packets s)) ->
  Forall (row_good s) (stale now s) -> draws uuids n s ->
  exists os s', passes n uuids now s = (Ok os, s') /\
    map compacted_run_packets os = map (fun k => Z.of_nat (Nat.min B (length (stale now s) - k * B))) (seq 0 n) /\
    ((length (stale now s) <= n * B)%nat -> forall k row, (k, row) ∈ s_packets s -> pr_created_at_ms row < compact_before now ->
      exists r, of_run k (s_memory s') = Some r /\ get_str "memory_version" (mr_content r) = Some MEMORY_SUMMARY_VERSION).
Proof.
  intros Hret Hd Hg Hu. destruct (backfill_passes n uuids now s) as (os & s' & E & Ep & El & Eo); [done..|]. exists os, s'. split_and!; [done..|].
  intros Hn k row Hk. apply (not_stale now); [apply nil_length_inv; lia|by rewrite Ep].
Qed.

(** ** With a retention *)
#[local] Notation prune_before now days := (now - days * MS_PER_DAY).
(** The items that a pass writes for its batch are old enough to be deleted,
    and older than all the items there are; the runs of the batch have none. *)
Record stalled (days now : Z) (s : store) : Prop := {
  sl_full : length (batch now s) = B;
  sl_good : Forall (row_good s) (batch now s);
  sl_keys : NoDup (map fst (batch now s));
  sl_none : forall q, q ∈ batch now s -> of_run q.1 (s_memory s) = None;
  sl_table : table_ok (s_memory s);
  sl_old : forall q p fresh m, q ∈ batch now s -> row_to_packet q.1 q.2 = Ok p -> memory_item_from_run_packet fresh p = Ok m ->
    mem_updated_at_ms m < prune_before now days /\ forall r, r ∈ s_memory s -> mem_updated_at_ms m < mr_updated_at_ms r;
}.

(** The first of a sorted list, when they come before all others. *)
Definition before (x y : Z * string) : Prop := ple x y = true.
#[local] Instance before_antisym : AntiSymm (=) before.
Proof. intros x y. apply ple_antisym. Qed.
Lemma sorted_app (l l' : list (Z * string)) : StronglySorted before l -> StronglySorted before l' ->
  (forall x y, x ∈ l -> y ∈ l' -> before x y) -> StronglySorted before (l ++ l').
Proof.
  induction 1 as [|x l Hs IH Hx]; intros Hl' Hb; [done|]. cbn. constructor.
  - apply IH; [done|]. intros y z Hy Hz. apply Hb; [by right|done].
  - apply Forall_app. split; [done|]. apply Forall_forall. intros y Hy. apply Hb; [by left|done].
Qed.
Lemma sorted_keys {A} key (l : list A) : StronglySorted before (map key (MemoryRepo.order_by key l)).
Proof.
  pose proof (order_by_sorted key l) as H. induction H as [|x l' Hs IH Hx]; [constructor|]. cbn. constructor; [done|].
  by apply Forall_map.
Qed.
Lemma take_first {A} key (l a b : list A) : l ≡ₚ a ++ b -> (forall x y, x ∈ a -> y ∈ b -> (key x).1 < (key y).1) ->
  take (length a) (map (fun x => (key x).2) (MemoryRepo.order_by key l)) ≡ₚ map (fun x => (key x).2) a.
Proof.
  intros Hp Hb. assert (map key (MemoryRepo.order_by key l) = (map key (MemoryRepo.order_by key a) ++ map key (MemoryRepo.order_by key b))%list) as E.
  { apply (StronglySorted_unique before).
    - apply sorted_keys.
    - apply sorted_app; [apply sorted_keys..|]. intros x y (u & -> & Hu)%list_elem_of_fmap (v & -> & Hv)%list_elem_of_fmap.
      rewrite order_rows_perm in Hu, Hv. specialize (Hb u v Hu Hv). destruct (key u) as [m s], (key v) as [n t]. cbn in Hb.
      unfold before, ple, pcmp, pair_PyOrd, pcmp, Z_PyOrd. cbn [fst snd]. by rewrite (proj2 (Z.compare_lt_iff _ _) Hb).
    - rewrite <- map_app. apply fmap_Permutation. by rewrite !order_rows_perm. }
  assert (forall l0 : list A, map (fun x => (key x).2) l0 = map snd (map key l0)) as Em by (intros; by rewrite map_map).
  rewrite !Em, E, map_app. rewrite take_app_length'; [|by rewrite !length_map, (Permutation_length (order_rows_perm key a))].
  apply fmap_Permutation, fmap_Permutation, order_rows_perm.
Qed.

(** Pruning takes back what the batch wrote. *)
Lemma prune_batch days now uuids s ms : memory_retention_days cfg = Some days -> stalled days now s ->
  supplies uuids 0 B (s_memory s) -> refreshed uuids now s ms ->
  prune_memory cfg now (maintenance_batch_size cfg) (set_memory (foldl (fun l m => write l m) (s_memory s) ms) s) =
    (Ok (maintenance_batch_size cfg), set_memory (s_memory s) s).
Proof.
  intros Hret [Hf Hg Hk Hn Ht Ho] Hs R. set (rows := map memory_item_to_row_dict ms).
  assert (Forall (fun m => mem_updated_at_ms m < prune_before now days /\ forall r, r ∈ s_memory s -> mem_updated_at_ms m < mr_updated_at_ms r) ms) as Hold.
  { apply Forall_forall. intros m Hm. destruct (rf_from _ _ _ _ R m Hm) as (q & p & k & Hq & Hp & E). by eapply Ho. }
  assert (length rows = B) as El by (unfold rows; by rewrite length_map, <- (length_map mem_run_id), (rf_runs _ _ _ _ R), length_map).
  rewrite (writes_append ms); [|by rewrite (rf_runs _ _ _ _ R)|].
  2:{ intros m Hm. assert (mem_run_id m ∈ map fst (batch now s)) as (q & -> & Hq)%list_elem_of_fmap; [|by apply Hn].
      rewrite <- (rf_runs _ _ _ _ R). by apply list_elem_of_fmap_2. }
  fold rows. assert (forall r, r ∈ rows -> mr_updated_at_ms r < prune_before now days /\ (forall r', r' ∈ s_memory s -> mr_updated_at_ms r < mr_updated_at_ms r') /\
    forall r', r' ∈ s_memory s -> mr_memory_id r' <> mr_memory_id r) as Hr.
  { intros r (m & -> & Hm)%list_elem_of_fmap. destruct (proj1 (Forall_forall _ _) Hold m Hm) as [A C]. split_and!; [exact A|exact C|].
    intros r' Hr'. cbn. destruct (refreshed_ids _ _ _ _ _ R Hm) as (i & Hi & ->). apply (sp_new _ _ _ _ Hs); [lia|done]. }
  unfold prune_memory. rewrite Hret. unfold unit_of_work, MemoryRepo.delete_older_than. rewrite batch_limit. cbn [s_memory set_memory].
  set (ids := take _ _). assert (ids ≡ₚ map mr_memory_id rows) as Hids.
  { unfold ids. rewrite <- El. apply (take_first MemoryRepo.age _ rows (filter (fun r => mr_updated_at_ms r < prune_before now days) (s_memory s))).
    - rewrite filter_app, (filter_all _ rows); [apply Permutation_app_comm|]. apply Forall_forall. intros r H%Hr. apply H.
    - intros x y Hx [_ Hy]%list_elem_of_filter. by apply Hr. }
  assert (filter (fun r => mr_memory_id r ∉ ids) (s_memory s ++ rows) = s_memory s) as ->.
  { rewrite filter_app, filter_all, filter_nothing; [by rewrite app_nil_r| |].
    - intros r Hin Hnot. apply Hnot. rewrite Hids. by apply list_elem_of_fmap_2.
    - apply Forall_forall. intros r Hin. rewrite Hids. intros (r' & E & Hr')%list_elem_of_fmap. by apply Hr in Hr' as (_ & _ & H); apply (H r). }
  rewrite (Permutation_length Hids), length_map, El, Z2Nat.id by lia. done.
Qed.

Lemma stalled_same days now s s' : same_runs s s' -> s_memory s' = s_memory s -> stalled days now s -> stalled days now s'.
Proof.
  intros S M [Hf Hg Hk Hn Ht Ho]. assert (batch now s' = batch now s) as E.
  { unfold batch, stale, RunPacketRepo.for_memory_refresh. by rewrite M, (sr_packets _ _ S). }
  split; rewrite ?E, ?M; try done. eapply Forall_impl; [exact Hg|]. intros q. by apply row_good_same.
Qed.

(** C36: a retention does not end the old items. When a full batch of the oldest
    packets lost their items to it, each pass writes those items again and then
    deletes exactly them, as the oldest: it reports a full batch of both, and the
    memory stays as it is however often it runs, with whatever other items in it
    are past their retention. *)
Theorem retention_stalls n uuids days now s : memory_retention_days cfg = Some days -> stalled days now s ->
  (forall k, (k < n)%nat -> supplies (uuids k) 0 B (s_memory s)) ->
  exists os s', passes n uuids now s = (Ok os, s') /\ s_memory s' = s_memory s /\ length os = n /\
    Forall (fun o => compacted_run_packets o = maintenance_batch_size cfg /\ pruned_memory_items o = maintenance_batch_size cfg) os.
Proof.
  intros Hret. revert uuids s. induction n as [|n IH]; intros uuids s Hs Hu; [by exists [], s|].
  destruct (refresh_batch (uuids 0%nat) now s) as (ms & R); [apply Hs|rewrite (sl_full _ _ _ Hs); apply Hu; lia|].
  destruct (pass_prefix _ now s ms _ _ R (prune_batch days now _ s ms Hret Hs (Hu 0%nat ltac:(lia)) R)) as (na & nd & s2 & Hp & S2 & M2).
  assert (same_runs s s2) as Sr by (etrans; [|exact S2]; by split). cbn [s_memory set_memory] in M2.
  destruct (IH (fun k => uuids (S k)) s2) as (os & s' & H1 & H2 & H3 & H4).
  - by eapply stalled_same.
  - intros k Hk. rewrite M2. apply Hu. lia.
  - eexists (_ :: os), s'. split_and!; [cbn [passes]; unfold mbind, st_bind; by rewrite Hp, H1|congruence|cbn; lia|].
    constructor; [|done]. cbn. rewrite (sl_full _ _ _ Hs). split; [lia|done].
Qed.
End facts.

(** ** Archiving *)
Lemma aget_map_values {V} (f : string * V -> string * V) k l : (forall p, (f p).1 = p.1) ->
  aget k (map f l) = (fun v => (f (k, v)).2) <$> aget k l.
Proof.
  intros Hf. induction l as [|[k0 v0] l IH]; [done|]. cbn [map]. destruct (f (k0, v0)) as [k1 v1] eqn:E.
  assert (k1 = k0) as -> by (pose proof (Hf (k0, v0)) as H; by rewrite E in H). cbn [aget]. destruct (decide (k = k0)) as [->|]; [by cbn; rewrite E|exact IH].
Qed.
(** archiving touches only what is long done. It returns, reports as many tasks
    as there are to archive up to the limit, and every row is either as it was or
    was the row of a succeeded, failed or canceled task completed before the
    given time and is archived now, with all its other columns as they were. *)
Theorem archives_only_old_terminal before limit d : 0 <= limit -> exists d',
  TaskArchive.archive_terminal_before before limit d =
    (Ok (Z.min limit (Z.of_nat (length (filter (fun p => TaskArchive.archivable before p.2 = true) (task_rows d))))), d') /\
  tool_call_rows d' = tool_call_rows d /\
  (NoDup (keys (task_rows d)) -> forall k r, aget k (task_rows d) = Some r -> exists r', aget k (task_rows d') = Some r' /\
    (r' = r \/ TaskArchive.archivable before r = true /\ r' = row_with_status TaskStatus.ARCHIVED r)).
Proof.
  intros Hl. unfold TaskArchive.archive_terminal_before. assert (validate_limit_offset limit 0 = Ok tt) as ->.
  { unfold validate_limit_offset. destruct (Z.ltb_spec limit 0); [lia|done]. }
  set (old := filter _ _). set (ids := take _ _). eexists. split_and!.
  - do 2 f_equal. unfold ids. rewrite length_take, length_map, (Permutation_length (order_rows_perm _ _)). lia.
  - done.
  - intros Hd k r Hr. cbn [task_rows set_task_rows]. rewrite aget_map_values by (intros p; unfold TaskArchive.archive_ids; by case_match).
    rewrite Hr. cbn. eexists. split; [done|]. unfold TaskArchive.archive_ids. cbn [fst snd]. case_bool_decide as Hin; [|by left]. right. split; [|done].
    assert (k ∈ map fst old) as ([k' r'] & -> & [Ha Hr']%list_elem_of_filter)%list_elem_of_fmap.
    { rewrite <- (fmap_Permutation fst _ _ (order_rows_perm TaskArchive.archive_key old)). eapply subseteq_take; exact Hin. }
    apply elem_aget in Hr'; [|done]. cbn in *. congruence.
Qed.

(** ** Examples *)
Definition old_packet : RunPacket := mkRunPacket (sample_uuid "c") None (sample_event 7 []) [] [] [] [] [] 1000 None None.
Definition old_memory : MemoryItem := sample_item "a" "done" 5000.
Definition old_store : store :=
  mkStore (mkEventTables [(event_id (pk_event old_packet), event_to_row_dict (pk_event old_packet))] []) (mkTables [] [] [] [] [])
    (map (fun n => (sample_uuid n, mkRunRecord (sample_uuid n) None 1000 None None)) ["a"; "c"])
    [(sample_uuid "c", mkRunPacketRow 1 1000 (RunPacket_dump old_packet))] [memory_item_to_row_dict old_memory].
Definition ten_days : Z := 10 * MS_PER_DAY.
Definition sample_cfg (retention : option Z) : maintenance_settings := mkMaintenanceSettings 1 1 retention None.
Definition no_int (_ : json) : res Z := Raise AssertionError.
Definition no_text (_ : spec_float) : string := "".
Definition sample_passes (retention : option Z) (n : nat) (uuids : nat -> nat -> string) : res (list MaintenanceOutcome) * store :=
  passes no_text id default_settings no_int (fun _ => "") 0 (sample_cfg retention) n uuids ten_days old_store.
Definition drawn (k i : nat) : string := match k with O => sample_uuid "d" | 1%nat => sample_uuid "e" | _ => sample_uuid "f" end.
(** Three passes with a retention of seven days: the item of the run [a] stays. *)
Example passes_run :
  (fun x => (x.1, map mr_run_id (s_memory x.2))) (sample_passes (Some 7) 3 drawn) =
    (Ok (replicate 3 (mkMaintenanceOutcome 1 1 0 0)), [sample_uuid "a"]) /\
  (fun x => (x.1, map mr_run_id (s_memory x.2))) (sample_passes None 3 drawn) =
    (Ok (map (fun n => mkMaintenanceOutcome n 0 0 0) [1; 0; 0]), [sample_uuid "a"; sample_uuid "c"]).
Proof. by vm_compute. Qed.

Lemma old_packet_ok : packet_ok no_text old_packet.
Proof.
  split; [reflexivity|discriminate| | |discriminate|constructor|constructor|constructor|done|]; (eapply sized_of; vm_compute; reflexivity).
Qed.
Lemma old_event_ok : valid_event no_text DEFAULT_MAX_PAYLOAD_BYTES (pk_event old_packet).
Proof.
  split; [reflexivity|by split|by split|discriminate|vm_compute; discriminate|reflexivity|]. exists 2. split; [by vm_compute|done].
Qed.
Lemma old_row_good : row_good no_text id default_settings no_int (fun _ => "") 0 old_store (sample_uuid "c", mkRunPacketRow 1 1000 (RunPacket_dump old_packet)).
Proof.
  exists old_packet. split_and!; [by vm_compute|done|]. split; [exact old_packet_ok|exact old_event_ok|done| |by eexists|by eexists].
  by intros r b ?%not_elem_of_nil.
Qed.
Lemma old_stale retention : stale (sample_cfg retention) ten_days old_store = [(sample_uuid "c", mkRunPacketRow 1 1000 (RunPacket_dump old_packet))].
Proof. by vm_compute. Qed.
Lemma old_draws : draws (sample_cfg None) drawn 2 old_store.
Proof.
  split.
  - intros [|[|k]] i Hk _; [reflexivity..|lia].
  - intros k k' i i' Hk Hk' Hi Hi' E. change (i < 1)%nat in Hi. change (i' < 1)%nat in Hi'.
    destruct k as [|[|k]], k' as [|[|k']]; try lia; try discriminate; split; lia.
  - intros k i r Hk _ ->%list_elem_of_singleton. destruct k as [|[|k]]; [discriminate..|lia].
Qed.
Lemma backfill_completes_witness : exists os s', sample_passes None 2 drawn = (Ok os, s') /\ map compacted_run_packets os = [1; 0] /\
  is_Some (MemoryRepo.of_run (sample_uuid "c") (s_memory s')).
Proof.
  destruct (backfill_completes no_text id default_settings no_int (fun _ => "") 0 (sample_cfg None) ltac:(reflexivity) 2 drawn ten_days old_store
    ltac:(reflexivity)) as (os & s' & E & Eo & H).
  - apply NoDup_singleton.
  - rewrite old_stale. constructor; [exact old_row_good|constructor].
  - exact old_draws.
  - exists os, s'. split; [exact E|]. split; [rewrite Eo, old_stale; reflexivity|]. rewrite old_stale in H.
    destruct (H ltac:(cbn; lia) (sample_uuid "c") (mkRunPacketRow 1 1000 (RunPacket_dump old_packet)) ltac:(left) ltac:(reflexivity)) as (r & -> & _).
    eexists. reflexivity.
Defined.

Lemma validated_updated fresh i m : MemoryItem_validate fresh i = Ok m ->
  validate_timestamp_ms "updated_at_ms" (in_updated_at_ms i) = Ok (mem_updated_at_ms m).
Proof.
  intros [H _]%run_Ok%after_VOk. apply vap_VOk in H as (g & a & Hg & Ha%field_VOk & <-). rewrite Ha. f_equal.
  repeat match goal with H : vap _ _ = VOk _ |- _ => apply vap_VOk in H as (? & ? & H & _ & <-) end. by injection Hg as <-.
Qed.
Lemma old_stalled : stalled no_text id default_settings no_int (fun _ => "") 0 (sample_cfg (Some 7)) 7 ten_days old_store.
Proof.
  split; unfold batch; rewrite ?old_stale.
  - done.
  - constructor; [exact old_row_good|constructor].
  - apply NoDup_singleton.
  - by intros q ->%list_elem_of_singleton.
  - split; apply NoDup_singleton.
  - intros q p fresh m ->%list_elem_of_singleton Hp Hm. assert (p = old_packet) as -> by (vm_compute in Hp; by injection Hp as <-).
    assert (mem_updated_at_ms m = 1000) as ->; [|split; [by vm_compute|by intros r ->%list_elem_of_singleton]].
    apply validated_updated in Hm. vm_compute in Hm. by injection Hm.
Qed.
Lemma retention_stalls_witness : exists os s', sample_passes (Some 7) 3 drawn = (Ok os, s') /\
  s_memory s' = [memory_item_to_row_dict old_memory] /\ mem_updated_at_ms old_memory < ten_days - 7 * MS_PER_DAY.
Proof.
  destruct (retention_stalls no_text id default_settings no_int (fun _ => "") 0 (sample_cfg (Some 7)) ltac:(reflexivity) 3 drawn 7 ten_days old_store
    ltac:(reflexivity) old_stalled) as (os & s' & E & M & _).
  - intros k Hk. split.
    + intros [|j] Hj; [destruct k as [|[|k]]; reflexivity|cbn in Hj; lia].
    + intros j j' Hj Hj' _. cbn in Hj, Hj'. lia.
    + intros j r _ ->%list_elem_of_singleton. destruct k as [|[|k]]; discriminate.
  - exists os, s'. split; [exact E|]. split; [exact M|reflexivity].
Defined.

Definition done_task : Task := mkTask (task_id sample_task) (run_id sample_task) "t" TaskStatus.SUCCEEDED None 1 1 60 [] 1000 (Some 1000) (Some 2000) [] [].
Lemma archives_only_old_terminal_witness : exists d',
  TaskArchive.archive_terminal_before 3000 5 (mkTables [] [(task_id done_task, task_to_row_dict done_task)] [] [] []) = (Ok 1, d') /\
  exists r', aget (task_id done_task) (task_rows d') = Some r' /\ (r' = task_to_row_dict done_task \/ tr_status r' = "archived").
Proof.
  destruct (archives_only_old_terminal 3000 5 (mkTables [] [(task_id done_task, task_to_row_dict done_task)] [] [] []) ltac:(lia)) as (d' & E & _ & H).
  exists d'. split; [exact E|]. destruct (H (NoDup_singleton _) (task_id done_task) (task_to_row_dict done_task) ltac:(reflexivity)) as (r' & Er & Hr).
  exists r'. split; [exact Er|]. destruct Hr as [->|[_ ->]]; [left; reflexivity|right; reflexivity].
Defined.
