(* ===== verification/Queries.v ===== *)
(** * Reading the store: the listings of [infra/db/repos/], [runs/summaries.py], [application/services.py]

    What an operator sees: runs with the status computed from their tasks, tasks
    with their calls, calls, events; in pages, with filters and totals. The
    results: the computed status of a run, a chain of conditions on sums, is what
    its tasks say; a listing of runs in pages of any size shows each run that
    the filters keep once, newest first, with the summary that a look at the run
    gives, and the total is their number; and archiving old tasks can turn a
    failed run into a successful one. *)

From Stdlib Require Import ZArith SpecFloat Lia Ascii Sorted Permutation.
From S2P Require Import Prelude PyFloat PyText Uuid Models Lifecycle Serialization Truncation Redaction Events Plans RunPackets AuditSanitize Approvals EventStore Rows Repos PacketStore Persistence Memory Maintenance.

#[local] Notation dict := (list (string * json)).
#[local] Notation page := RunPacketRepo.page.

(** A filter that is given must not be empty. *)
Definition given_text (field_name : string) (v : option string) : res (option string) :=
  match v with
  | None => Ok None
  | Some s => match strip_or_none s with
              | None => Raise (ValueError (field_name +:+ " must be non-empty when provided"))
              | Some k => Ok (Some k)
              end
  end.
Definition is_wanted (wanted : option string) (column : string) : bool :=
  match wanted with None => true | Some w => (column =? w)%string end.

(** [TaskStatus(text)] and its like. *)
Definition to_enum {S} (class_name : string) (value : S -> string) (all : list S) (text : string) : res S :=
  match List.find (fun s => (value s =? text)%string) all with
  | Some s => Ok s
  | None => Raise (ValueError (py_repr text +:+ " is not a valid " +:+ class_name))
  end.

(** A listing: nothing for a limit of zero, whatever the filters are. *)
Definition listed {A} (limit offset : Z) (rows : res (list A)) : res (list A) :=
  validate_limit_offset limit offset;;
  if limit =? 0 then Ok [] else l ← rows; Ok (page limit offset l).

(** ** [infra/db/repos/tool_calls.py], the rest *)
Module ToolCallQueries.
Definition key (r : ToolCallRow) : Z * string := (tcr_created_at_ms r, tcr_tool_call_id r).
Definition get_by_idempotency_key (idempotency_key : string) : st tables (option ToolCall) := fun d =>
  (k ← required_key "idempotency_key" idempotency_key;
   match head (MemoryRepo.order_by key (filter (fun r => tcr_idempotency_key r = k) (tool_call_rows d).*2)) with
   | None => Ok None
   | Some r => c ← tool_call_from_row_dict r; Ok (Some c)
   end, d).
Definition update_status (tool_call_id : string) (s : ToolCallStatus.t) : st tables ToolCall := fun d =>
  match required_key "tool_call_id" tool_call_id with
  | Raise e => (Raise e, d)
  | Ok k =>
      match aget k (tool_call_rows d) with
      | None => (Raise (KeyError ("unknown tool_call_id: " +:+ py_repr k)), d)
      | Some r =>
          let r' := mkToolCallRow (tcr_tool_call_id r) (tcr_tool_name r) (tcr_args r) (tcr_permission_scope r) (tcr_idempotency_key r)
            (ToolCallStatus.value s) (tcr_created_at_ms r) (tcr_started_at_ms r) (tcr_completed_at_ms r) (tcr_result_ref r) in
          (tool_call_from_row_dict r', set_tool_call_rows (aset k r' (tool_call_rows d)) d)
      end
  end.
Definition list_calls (limit offset : Z) (s : option ToolCallStatus.t) : st tables (list ToolCall) := fun d =>
  (rows ← listed limit offset (Ok (MemoryRepo.order_by key
     (filter (fun r => is_wanted (ToolCallStatus.value <$> s) (tcr_status r) = true) (tool_call_rows d).*2)));
   sequence (map tool_call_from_row_dict rows), d).
End ToolCallQueries.

(** ** [infra/db/repos/tasks.py], the rest *)
Module TaskQueries.
Record TaskSummary := mkTaskSummary {
  ts_task_id : string;
  ts_run_id : string;
  ts_name : string;
  ts_status : TaskStatus.t;
  ts_attempts : Z;
  ts_max_attempts : Z;
  ts_timeout_s : Z;
  ts_depends_on : list string;
  ts_created_at_ms : Z;
  ts_tool_call_id : option string;
  ts_tool_name : option string;
  ts_permission_scope : option string;
  ts_idempotency_key : option string;
  ts_tool_call_status : option ToolCallStatus.t;
}.
Definition selected (run_id : option string) (s : option TaskStatus.t) (d : tables) : res (list TaskRow) :=
  run ← given_text "run_id" run_id;
  Ok (filter (fun r => is_wanted run (tr_run_id r) && is_wanted (TaskStatus.value <$> s) (tr_status r) = true) (task_rows d).*2).
Definition call_of (d : tables) (r : TaskRow) : option ToolCallRow :=
  match tr_tool_call_id r with Some k => aget k (tool_call_rows d) | None => None end.
Definition summary_of (d : tables) (r : TaskRow) : res TaskSummary :=
  let c := call_of d r in
  call_status ← match c with
                | None => Ok None
                | Some c => s ← to_enum "ToolCallStatus" ToolCallStatus.value all_tool_call_statuses (tcr_status c); Ok (Some s)
                end;
  s ← to_enum "TaskStatus" TaskStatus.value all_task_statuses (tr_status r);
  Ok (mkTaskSummary (tr_task_id r) (tr_run_id r) (tr_name r) s (tr_attempts r) (tr_max_attempts r) (tr_timeout_s r) (tr_depends_on r)
    (tr_created_at_ms r) (tcr_tool_call_id <$> c) (tcr_tool_name <$> c) (tcr_permission_scope <$> c) (tcr_idempotency_key <$> c) call_status).
Definition list_summaries (limit offset : Z) (run_id : option string) (s : option TaskStatus.t) : st tables (list TaskSummary) := fun d =>
  (rows ← listed limit offset (l ← selected run_id s d; Ok (rev (MemoryRepo.order_by TaskRepo.row_key l)));
   sequence (map (summary_of d) rows), d).
Definition count_summaries (run_id : option string) (s : option TaskStatus.t) : st tables Z := fun d =>
  (l ← selected run_id s d; Ok (Z.of_nat (length l)), d).
Definition list_tasks (limit offset : Z) (run_id : option string) (s : option TaskStatus.t) : st tables (list Task) := fun d =>
  (rows ← listed limit offset (l ← selected run_id s d; Ok (MemoryRepo.order_by TaskRepo.row_key l));
   sequence (map (TaskRepo.task_of_row d) rows), d).
End TaskQueries.

(** ** [list] of [infra/db/repos/events.py] *)
Definition list_events (float_repr : spec_float -> string) (limit offset : Z) (event_type source : option string) : st event_tables (list Event) :=
  fun d =>
  (rows ← listed limit offset (
     type ← given_text "event_type" event_type;
     src ← given_text "source" source;
     Ok (MemoryRepo.order_by (fun r => (er_received_at_ms r, er_event_id r))
       (filter (fun r => is_wanted type (er_type r) && is_wanted src (er_source r) = true) (event_rows d).*2)));
   sequence (map (event_from_row_dict float_repr) rows), d).

(** ** [infra/db/repos/runs/summaries.py] *)
Module RunStatus.
Inductive t := CREATED | RUNNING | SUCCEEDED | FAILED | CANCELED | ARCHIVED.
#[export] Instance t_eq_dec : EqDecision t.
Proof. solve_decision. Defined.
Definition value (s : t) : string :=
  match s with
  | CREATED => "created" | RUNNING => "running" | SUCCEEDED => "succeeded" | FAILED => "failed" | CANCELED => "canceled" | ARCHIVED => "archived"
  end.
Definition all : list t := [CREATED; RUNNING; SUCCEEDED; FAILED; CANCELED; ARCHIVED].
End RunStatus.

Module RunQueries.
(** The aggregate of the tasks of a run: [count] and one [sum] for each status;
    a run without tasks has no row of it, and the [coalesce] makes that zeros. *)
Record task_agg := mkTaskAgg {
  tasks_total : Z;
  tasks_pending : Z;
  tasks_queued : Z;
  tasks_running : Z;
  tasks_succeeded : Z;
  tasks_failed : Z;
  tasks_canceled : Z;
  tasks_archived : Z;
}.
Definition sum_of (s : TaskStatus.t) (rows : list TaskRow) : Z :=
  foldr Z.add 0 (map (fun r => if (tr_status r =? TaskStatus.value s)%string then 1 else 0) rows).
Definition task_agg_of (run_id : string) (d : tables) : task_agg :=
  let rows := filter (fun r => tr_run_id r = run_id) (task_rows d).*2 in
  mkTaskAgg (Z.of_nat (length rows)) (sum_of TaskStatus.PENDING rows) (sum_of TaskStatus.QUEUED rows) (sum_of TaskStatus.RUNNING rows)
    (sum_of TaskStatus.SUCCEEDED rows) (sum_of TaskStatus.FAILED rows) (sum_of TaskStatus.CANCELED rows) (sum_of TaskStatus.ARCHIVED rows).
Definition approvals_agg_of (run_id : string) (d : tables) : Z * Z :=
  let rows := filter (fun r => ar_run_id r = run_id) (approval_rows d).*2 in
  (Z.of_nat (length rows),
   foldr Z.add 0 (map (fun r => if (ar_status r =? ApprovalStatus.value ApprovalStatus.PENDING)%string then 1 else 0) rows)).

(** [_computed_status_expr]: the first condition that holds. *)
Definition computed_status (a : task_agg) : RunStatus.t :=
  let pending_like := tasks_pending a + tasks_queued a in
  let terminal_success_like := tasks_succeeded a + tasks_archived a in
  if tasks_total a =? 0 then RunStatus.SUCCEEDED
  else if tasks_archived a =? tasks_total a then RunStatus.ARCHIVED
  else if 0 <? tasks_failed a then RunStatus.FAILED
  else if 0 <? tasks_canceled a then RunStatus.CANCELED
  else if 0 <? tasks_running a then RunStatus.RUNNING
  else if terminal_success_like =? tasks_total a then RunStatus.SUCCEEDED
  else if 0 <? terminal_success_like then RunStatus.RUNNING
  else if 0 <? pending_like then RunStatus.CREATED
  else RunStatus.RUNNING.

(** [_event_field_expr]: [trim] removes spaces, and an empty text is null. *)
Definition event_field (name : string) (packet : option RunPacketRow) : option string :=
  row ← packet;
  event ← get_dict "event" (pr_packet row);
  text ← get_str name event;
  let trimmed := strip_by (fun c => (c =? " ")%char) text in
  if is_empty trimmed then None else Some trimmed.

Record RunSummary := mkRunSummary {
  rs_run_id : string;
  rs_created_at_ms : Z;
  rs_started_at_ms : option Z;
  rs_completed_at_ms : option Z;
  rs_status : RunStatus.t;
  rs_event_type : option string;
  rs_event_source : option string;
  rs_tasks_total : Z;
  rs_tasks_pending : Z;
  rs_tasks_queued : Z;
  rs_tasks_running : Z;
  rs_tasks_succeeded : Z;
  rs_tasks_failed : Z;
  rs_tasks_canceled : Z;
  rs_approvals_total : Z;
  rs_approvals_pending : Z;
}.
(** A row of the joins, with its status as text, and the summary it is read as. *)
Definition status_text (s : store) (r : RunRecord) : string := RunStatus.value (computed_status (task_agg_of (rr_run_id r) (s_tables s))).
Definition summary_of (s : store) (r : RunRecord) : res RunSummary :=
  let a := task_agg_of (rr_run_id r) (s_tables s) in
  let '(approvals_total, approvals_pending) := approvals_agg_of (rr_run_id r) (s_tables s) in
  let packet := aget (rr_run_id r) (s_packets s) in
  status ← to_enum "RunStatus" RunStatus.value RunStatus.all (status_text s r);
  Ok (mkRunSummary (rr_run_id r) (rr_created_at_ms r) (rr_started_at_ms r) (rr_completed_at_ms r) status
    (event_field "type" packet) (event_field "source" packet) (tasks_total a) (tasks_pending a) (tasks_queued a) (tasks_running a)
    (tasks_succeeded a) (tasks_failed a) (tasks_canceled a) approvals_total approvals_pending).

Definition kept (status : option RunStatus.t) (created_after_ms created_before_ms : option Z) (s : store) (r : RunRecord) : bool :=
  is_wanted (RunStatus.value <$> status) (status_text s r) &&
  match created_after_ms with Some a => a <=? rr_created_at_ms r | None => true end &&
  match created_before_ms with Some b => rr_created_at_ms r <=? b | None => true end.
Definition selected (status : option RunStatus.t) (created_after_ms created_before_ms : option Z) (s : store) : list RunRecord :=
  filter (fun r => kept status created_after_ms created_before_ms s r = true) (s_run_rows s).*2.
Definition run_key (r : RunRecord) : Z * string := (rr_created_at_ms r, rr_run_id r).
Definition newest_first (l : list RunRecord) : list RunRecord := rev (MemoryRepo.order_by run_key l).

Definition list_run_summaries (limit offset : Z) (status : option RunStatus.t) (created_after_ms created_before_ms : option Z)
  : st store (list RunSummary) := fun s =>
  (rows ← listed limit offset (Ok (newest_first (selected status created_after_ms created_before_ms s)));
   sequence (map (summary_of s) rows), s).
Definition count_run_summaries (status : option RunStatus.t) (created_after_ms created_before_ms : option Z) : st store Z := fun s =>
  (Ok (Z.of_nat (length (selected status created_after_ms created_before_ms s))), s).
Definition get_run_summary (run_id : string) : st store (option RunSummary) := fun s =>
  (k ← required_key "run_id" run_id;
   match head (filter (fun r => rr_run_id r = k) (s_run_rows s).*2) with
   | None => Ok None
   | Some r => m ← summary_of s r; Ok (Some m)
   end, s).
(** [list_recent] of [runs/core.py] *)
Definition list_recent (limit offset : Z) : st store (list RunRecord) := fun s =>
  (listed limit offset (Ok (newest_first (s_run_rows s).*2)), s).
End RunQueries.

(** ** [application/services.py] *)
Section services.
Variable float_repr : spec_float -> string.
Variable redact_text : string -> string.
Variable audit : audit_settings.
Variable lax_int : json -> res Z.
Variable fresh_default : string -> string.
Variable wall_ms : Z.

Definition approvals_list_pending (limit offset : Z) : st store (list Approval) :=
  unit_of_work (on_tables (ApprovalRepo.list_approvals limit offset (Some ApprovalStatus.PENDING) None)).
Definition approvals_get (approval_id : string) : st store (option Approval) := unit_of_work (on_tables (ApprovalRepo.get approval_id)).
(** [now_ms] is what the clock of the repository reads. *)
Definition approvals_decide (now_ms : Z) (approval_id : string) (decision : ApprovalStatus.t) (decided_by : option string) : st store Approval :=
  unit_of_work (on_tables (ApprovalRepo.update_status now_ms approval_id decision None decided_by)).

Definition get_task (task_id : string) : st store (option Task) := unit_of_work (on_tables (TaskRepo.get task_id)).
Definition query_list_tasks (limit offset : Z) (run_id : option string) : st store (list Task) :=
  unit_of_work (on_tables (TaskQueries.list_tasks limit offset run_id None)).
Definition get_run_packet (run_id : string) : st store (option RunPacket) :=
  unit_of_work (RunPacketRepo.get float_repr redact_text audit lax_int fresh_default wall_ms run_id).
Definition list_recent_run_packets (limit offset : Z) : st store (list RunPacket) :=
  unit_of_work (RunPacketRepo.list_recent float_repr redact_text audit lax_int fresh_default wall_ms limit offset).

Definition list_runs (limit offset : Z) (status : option RunStatus.t) (since_ms : option Z) : st store (list RunQueries.RunSummary * Z) :=
  unit_of_work (
    total ← RunQueries.count_run_summaries status since_ms None;
    items ← RunQueries.list_run_summaries limit offset status since_ms None;
    mret (items, total)).
Definition service_get_run_summary (run_id : string) : st store (option RunQueries.RunSummary) := unit_of_work (RunQueries.get_run_summary run_id).
Definition service_list_tasks (limit offset : Z) (run_id : option string) (status : option TaskStatus.t) : st store (list TaskQueries.TaskSummary * Z) :=
  unit_of_work (
    total ← on_tables (TaskQueries.count_summaries run_id status);
    items ← on_tables (TaskQueries.list_summaries limit offset run_id status);
    mret (items, total)).
End services.

(** ** The status of a run *)
Section status.

Definition has (s : TaskStatus.t) (text : string) : bool := (text =? TaskStatus.value s)%string.
Definition finished (text : string) : bool := has TaskStatus.SUCCEEDED text || has TaskStatus.ARCHIVED text.
(** What the statuses of its tasks say of a run, without counting. *)
Definition run_status_of (statuses : list string) : RunStatus.t :=
  if forallb (has TaskStatus.ARCHIVED) statuses then match statuses with [] => RunStatus.SUCCEEDED | _ => RunStatus.ARCHIVED end
  else if existsb (has TaskStatus.FAILED) statuses then RunStatus.FAILED
  else if existsb (has TaskStatus.CANCELED) statuses then RunStatus.CANCELED
  else if existsb (has TaskStatus.RUNNING) statuses then RunStatus.RUNNING
  else if forallb finished statuses then RunStatus.SUCCEEDED
  else if existsb finished statuses then RunStatus.RUNNING
  else if existsb (fun t => has TaskStatus.PENDING t || has TaskStatus.QUEUED t) statuses then RunStatus.CREATED
  else RunStatus.RUNNING.

Definition sum_by (f : string -> bool) (l : list string) : Z := foldr Z.add 0 (map (fun t => if f t then 1 else 0) l).
Lemma sum_by_bounds f l : 0 <= sum_by f l <= Z.of_nat (length l).
Proof. unfold sum_by. induction l as [|t l IH]; cbn; [lia|]. destruct (f t); lia. Qed.
Lemma sum_by_pos f l : (0 <? sum_by f l) = existsb f l.
Proof.
  induction l as [|t l IH]; [done|]. pose proof (sum_by_bounds f l). change (sum_by f (t :: l)) with ((if f t then 1 else 0) + sum_by f l). cbn [existsb].
  rewrite <- IH. destruct (f t); cbn [orb]; [apply Z.ltb_lt; lia|by rewrite Z.add_0_l].
Qed.
Lemma sum_by_all f l : (sum_by f l =? Z.of_nat (length l)) = forallb f l.
Proof.
  induction l as [|t l IH]; [done|]. pose proof (sum_by_bounds f l). change (sum_by f (t :: l)) with ((if f t then 1 else 0) + sum_by f l). cbn [forallb length].
  rewrite <- IH. destruct (f t); cbn [andb]; [apply eq_true_iff_eq; rewrite !Z.eqb_eq; lia|apply Z.eqb_neq; lia].
Qed.
Lemma sum_by_or f g l : (forall t, f t = true -> g t = false) -> sum_by f l + sum_by g l = sum_by (fun t => f t || g t) l.
Proof.
  intros H. unfold sum_by. induction l as [|t l IH]; cbn; [done|]. specialize (H t). destruct (f t), (g t); cbn [orb]; (lia || discriminate (H eq_refl)).
Qed.
Lemma sum_of_by s rows : RunQueries.sum_of s rows = sum_by (has s) (map tr_status rows).
Proof. unfold RunQueries.sum_of, sum_by. by rewrite map_map. Qed.
Lemma has_other s s' t : TaskStatus.value s <> TaskStatus.value s' -> has s t = true -> has s' t = false.
Proof. unfold has. intros H ->%String.eqb_eq. by apply String.eqb_neq. Qed.

Definition statuses_of (run_id : string) (d : tables) : list string := map tr_status (filter (fun r => tr_run_id r = run_id) (task_rows d).*2).
(** C37: the status of a run is what its tasks say. The chain of conditions on
    sums that the database evaluates is: without tasks, succeeded; all archived,
    archived; else failed, canceled or running if some task is, in this order;
    succeeded if all others are finished, running if some are; created if some
    wait to start, and running if all of them wait for an approval. *)
Theorem run_status_exact run_id d : RunQueries.computed_status (RunQueries.task_agg_of run_id d) = run_status_of (statuses_of run_id d).
Proof.
  unfold RunQueries.task_agg_of, statuses_of. set (rows := filter _ _). unfold RunQueries.computed_status. cbn [RunQueries.tasks_total RunQueries.tasks_pending
    RunQueries.tasks_queued RunQueries.tasks_running RunQueries.tasks_succeeded RunQueries.tasks_failed RunQueries.tasks_canceled RunQueries.tasks_archived].
  rewrite !sum_of_by, <- (length_map tr_status rows). generalize (map tr_status rows) as l. clear rows. intros l.
  rewrite !sum_by_or by (intros t; by apply has_other). rewrite !sum_by_pos, !sum_by_all. unfold run_status_of, finished.
  destruct l as [|t l]; [done|]. replace (Z.of_nat (length (t :: l)) =? 0) with false by (symmetry; apply Z.eqb_neq; cbn; lia). done.
Qed.
End status.

(** ** Pages of runs *)
Lemma to_enum_value {S} class (value : S -> string) all s : (forall a b, value a = value b -> a = b) -> s ∈ all -> to_enum class value all (value s) = Ok s.
Proof.
  intros Hi Hs. unfold to_enum. destruct (List.find _ _) as [s'|] eqn:E.
  - apply List.find_some in E as [_ E%String.eqb_eq]. by apply Hi in E as ->.
  - eapply List.find_none in E; [|by apply list_elem_of_In]. by rewrite String.eqb_refl in E.
Qed.
Lemma run_summary s r : exists m, RunQueries.summary_of s r = Ok m /\ RunQueries.rs_run_id m = rr_run_id r /\
  RunQueries.rs_created_at_ms m = rr_created_at_ms r /\ RunStatus.value (RunQueries.rs_status m) = RunQueries.status_text s r.
Proof.
  unfold RunQueries.summary_of. destruct (RunQueries.approvals_agg_of _ _) as [a b]. unfold RunQueries.status_text at 1.
  rewrite to_enum_value; [by eexists|by intros [] []|]. unfold RunStatus.all. destruct (RunQueries.computed_status _); set_solver.
Qed.
Lemma run_summaries s l : exists ms, Forall2 (fun r m => RunQueries.summary_of s r = Ok m /\ RunQueries.rs_run_id m = rr_run_id r /\
  RunQueries.rs_created_at_ms m = rr_created_at_ms r /\ RunStatus.value (RunQueries.rs_status m) = RunQueries.status_text s r) l ms.
Proof. induction l as [|r l (ms & IH)]; [by exists []|]. destruct (run_summary s r) as (m & H). exists (m :: ms). by constructor. Qed.

Lemma listed_page {A B} (f : A -> res B) limit offset l ms : 0 <= limit -> 0 <= offset -> Forall2 (fun a b => f a = Ok b) l ms ->
  (rows ← listed limit offset (Ok l); sequence (map f rows)) = Ok (page limit offset ms).
Proof.
  intros Hl Ho H. unfold listed, validate_limit_offset. destruct (Z.ltb_spec limit 0); [lia|]. destruct (Z.ltb_spec offset 0); [lia|]. cbn [raise_if mbind res_bind].
  assert (sequence (map f (page limit offset l)) = Ok (page limit offset ms)) as E by (apply sequence_Ok, Forall2_take, Forall2_drop, H).
  destruct (Z.eqb_spec limit 0) as [->|]; [done|exact E].
Qed.

(** The table of runs, by identifier. *)
Definition runs_ok (s : store) : Prop :=
  NoDup (keys (s_run_rows s)) /\ Forall (fun p => rr_run_id p.2 = p.1 /\ is_uuid4_str p.1 = true) (s_run_rows s).
Lemma runs_nodup s : runs_ok s -> NoDup (map rr_run_id (s_run_rows s).*2).
Proof.
  intros [Hd Hf]. replace (map rr_run_id (s_run_rows s).*2) with (keys (s_run_rows s)); [done|]. unfold keys. clear Hd.
  induction Hf as [|p l [H _] _ IH]; [done|]. cbn. by rewrite H, IH.
Qed.
Lemma found_run s r : runs_ok s -> r ∈ (s_run_rows s).*2 -> required_key "run_id" (rr_run_id r) = Ok (rr_run_id r) /\
  head (filter (fun r' => rr_run_id r' = rr_run_id r) (s_run_rows s).*2) = Some r.
Proof.
  intros Hok Hr. pose proof (runs_nodup s Hok) as Hd. destruct Hok as [_ Hf]. split.
  - apply list_elem_of_fmap in Hr as (p & -> & Hp). apply (proj1 (Forall_forall _ _) Hf) in Hp as [-> Hu]. by apply required_key_uuid.
  - induction (s_run_rows s).*2 as [|r0 l IH]; [by apply not_elem_of_nil in Hr|]. cbn [map] in Hd. apply NoDup_cons in Hd as [Hn Hd].
    destruct (decide (rr_run_id r0 = rr_run_id r)) as [E|E].
    + rewrite filter_cons_True by done. cbn. f_equal. apply elem_of_cons in Hr as [->|Hr]; [done|]. destruct Hn. rewrite E. by apply list_elem_of_fmap_2.
    + rewrite filter_cons_False by done. apply IH; [by apply elem_of_cons in Hr as [->|Hr]|done].
Qed.

(** What the filters of a listing ask of a summary. *)
Definition summary_kept (status : option RunStatus.t) (after_ms before_ms : option Z) (m : RunQueries.RunSummary) : Prop :=
  (forall w, status = Some w -> RunQueries.rs_status m = w) /\ (forall a, after_ms = Some a -> a <= RunQueries.rs_created_at_ms m) /\
  (forall b, before_ms = Some b -> RunQueries.rs_created_at_ms m <= b).
Lemma kept_summary status after_ms before_ms s r m : RunQueries.rs_created_at_ms m = rr_created_at_ms r ->
  RunStatus.value (RunQueries.rs_status m) = RunQueries.status_text s r ->
  RunQueries.kept status after_ms before_ms s r = true <-> summary_kept status after_ms before_ms m.
Proof.
  intros Hc Hv. unfold RunQueries.kept, summary_kept. rewrite <- Hv, Hc, !andb_true_iff.
  assert (is_wanted (RunStatus.value <$> status) (RunStatus.value (RunQueries.rs_status m)) = true <-> (forall w, status = Some w -> RunQueries.rs_status m = w)) as ->.
  { destruct status as [w|]; [|naive_solver]. cbn. rewrite String.eqb_eq. split; [|by intros E; rewrite (E w eq_refl)]. intros E w' [= <-]. by destruct w, (RunQueries.rs_status m). }
  destruct after_ms, before_ms; rewrite ?Z.leb_le; naive_solver.
Qed.
Definition newer (m m' : RunQueries.RunSummary) : Prop :=
  ple (RunQueries.rs_created_at_ms m', RunQueries.rs_run_id m') (RunQueries.rs_created_at_ms m, RunQueries.rs_run_id m) = true.
Lemma sorted_snoc {A} (R : A -> A -> Prop) l x : StronglySorted R l -> Forall (fun y => R y x) l -> StronglySorted R (l ++ [x]).
Proof.
  induction 1 as [|y l Hs IH Hy]; intros Hx; [repeat constructor|]. apply Forall_cons_1 in Hx as [Hyx Hx]. cbn. constructor; [by apply IH|].
  apply Forall_app. split; [done|by constructor].
Qed.
Lemma sorted_rev {A} (R : A -> A -> Prop) l : StronglySorted R l -> StronglySorted (fun x y => R y x) (rev l).
Proof.
  induction 1 as [|x l Hs IH Hx]; [constructor|]. cbn. apply sorted_snoc; [done|]. apply Forall_rev. done.
Qed.
Lemma newest_sorted s l ms : Forall2 (fun r m => RunQueries.summary_of s r = Ok m /\ RunQueries.rs_run_id m = rr_run_id r /\
  RunQueries.rs_created_at_ms m = rr_created_at_ms r /\ RunStatus.value (RunQueries.rs_status m) = RunQueries.status_text s r) (RunQueries.newest_first l) ms ->
  StronglySorted newer ms.
Proof.
  intros H. pose proof (sorted_rev _ _ (order_by_sorted RunQueries.run_key l)) as Hs. change (rev _) with (RunQueries.newest_first l) in Hs.
  induction H as [|r m rs ms (_ & Hi & Hc & _) H2 IH]; [constructor|]. inversion Hs as [|? ? Hs' Hr]; subst. constructor; [by apply IH|].
  clear IH Hs Hs'. induction H2 as [|r' m' rs ms (_ & Hi' & Hc' & _) H2 IH]; [constructor|]. apply Forall_cons_1 in Hr as [Hr Hrs]. constructor; [|by apply IH].
  unfold newer. rewrite Hi, Hc, Hi', Hc'. exact Hr.
Qed.

(** Runs in pages. For any filters there is one list of summaries, newest
    first, of which every page is a part and whose length is the total; no run is
    in it twice, and in it is exactly what a look at a single run gives, for the
    runs that the filters keep. *)
Theorem runs_in_pages status after_ms before_ms s : runs_ok s -> exists ms,
  (forall limit offset, 0 <= limit -> 0 <= offset ->
    RunQueries.list_run_summaries limit offset status after_ms before_ms s = (Ok (page limit offset ms), s)) /\
  RunQueries.count_run_summaries status after_ms before_ms s = (Ok (Z.of_nat (length ms)), s) /\
  StronglySorted newer ms /\ NoDup (map RunQueries.rs_run_id ms) /\
  (forall m, m ∈ ms <-> RunQueries.get_run_summary (RunQueries.rs_run_id m) s = (Ok (Some m), s) /\ summary_kept status after_ms before_ms m).
Proof.
  intros Hok. set (rows := RunQueries.newest_first (RunQueries.selected status after_ms before_ms s)).
  destruct (run_summaries s rows) as (ms & H). exists ms.
  assert (rows ≡ₚ RunQueries.selected status after_ms before_ms s) as Hp.
  { unfold rows, RunQueries.newest_first. by rewrite <- Permutation_rev, order_rows_perm. }
  assert (map RunQueries.rs_run_id ms = map rr_run_id rows) as Hi by (clear -H; induction H as [|r m l ms (_ & E & _) _ IH]; [done|cbn; by rewrite E, IH]).
  split_and!.
  - intros limit offset Hl Ho. unfold RunQueries.list_run_summaries. fold rows. erewrite listed_page; [done..|].
    eapply Forall2_impl; [exact H|]. by intros r m (E & _).
  - unfold RunQueries.count_run_summaries. by rewrite <- (Forall2_length _ _ _ H), (Permutation_length Hp).
  - by eapply newest_sorted.
  - rewrite Hi, (fmap_Permutation rr_run_id _ _ Hp). unfold RunQueries.selected. pose proof (runs_nodup s Hok) as Hd.
    eapply sublist_NoDup; [exact Hd|]. apply (fmap_sublist rr_run_id). apply sublist_filter.
  - intros m. split.
    + intros (i & Hm)%list_elem_of_lookup. destruct (Forall2_lookup_r _ _ _ _ _ H Hm) as (r & Hr & E & Ei & Ec & Ev).
      apply list_elem_of_lookup_2 in Hr. rewrite Hp in Hr. apply list_elem_of_filter in Hr as [Hk Hr]. split; [|by eapply kept_summary].
      destruct (found_run s r Hok Hr) as [F1 F2]. unfold RunQueries.get_run_summary. rewrite Ei, F1. cbn [mbind res_bind]. by rewrite F2, E.
    + intros [Hg Hk]. unfold RunQueries.get_run_summary in Hg. destruct (required_key _ _) as [k|]; [|done]. cbn [mbind res_bind] in Hg.
      destruct (head _) as [r|] eqn:Er; [|done]. destruct (run_summary s r) as (m' & E & Ei & Ec & Ev). rewrite E in Hg. cbn in Hg. injection Hg as ->.
      assert (r ∈ rows) as Hr.
      { rewrite Hp. apply list_elem_of_filter. split; [by apply (kept_summary _ _ _ s r m)|]. apply head_Some_elem_of in Er. by apply list_elem_of_filter in Er as [_ ?]. }
      apply list_elem_of_lookup in Hr as (i & Hr). destruct (Forall2_lookup_l _ _ _ _ _ H Hr) as (m' & Hm' & E' & _).
      apply list_elem_of_lookup. exists i. congruence.
Qed.

(** ** What archiving does to the status of a run *)
Section hidden.
Variables before limit : Z.
Variable d : tables.
Hypothesis keys_unique : NoDup (keys (task_rows d)).
Hypothesis limit_large : Z.of_nat (length (filter (fun p => TaskArchive.archivable before p.2 = true) (task_rows d))) <= limit.

Definition archived_row (r : TaskRow) : TaskRow := if TaskArchive.archivable before r then row_with_status TaskStatus.ARCHIVED r else r.
Lemma archive_all : exists n d', TaskArchive.archive_terminal_before before limit d = (Ok n, d') /\
  (task_rows d').*2 = map archived_row (task_rows d).*2.
Proof.
  unfold TaskArchive.archive_terminal_before. assert (0 <= limit) as Hl by lia. assert (validate_limit_offset limit 0 = Ok tt) as ->.
  { unfold validate_limit_offset. destruct (Z.ltb_spec limit 0); [lia|done]. }
  do 2 eexists. split; [done|]. cbn [task_rows set_task_rows]. set (ids := take _ _).
  assert (forall p, p ∈ task_rows d -> p.1 ∈ ids <-> TaskArchive.archivable before p.2 = true) as Hids.
  { intros p Hp. unfold ids. rewrite take_ge by (rewrite length_map, (Permutation_length (order_rows_perm _ _)); lia).
    rewrite (fmap_Permutation fst _ _ (order_rows_perm _ _)). split.
    - intros (q & E & [Ha Hq]%list_elem_of_filter)%list_elem_of_fmap. replace p with q; [done|]. destruct p as [k v], q as [k' v']. cbn in E. subst k'.
      apply elem_aget in Hp, Hq; [|done..]. congruence.
    - intros Ha. apply list_elem_of_fmap_2. by apply list_elem_of_filter. }
  clearbody ids. clear keys_unique limit_large. induction (task_rows d) as [|p l IH]; [done|]. cbn [map fmap list_fmap]. f_equal.
  - unfold TaskArchive.archive_ids, archived_row. specialize (Hids p ltac:(by left)). case_bool_decide as Hin; [apply Hids in Hin as ->; done|].
    destruct (TaskArchive.archivable before p.2); [|done]. by destruct Hin; apply Hids.
  - apply IH. intros q Hq. apply Hids. by right.
Qed.
Lemma statuses_archived run_id d' : (task_rows d').*2 = map archived_row (task_rows d).*2 ->
  statuses_of run_id d' = map (fun r => tr_status (archived_row r)) (filter (fun r => tr_run_id r = run_id) (task_rows d).*2).
Proof.
  intros E. unfold statuses_of. rewrite E. clear E. induction (task_rows d).*2 as [|r l IH]; [done|]. cbn [map].
  assert (tr_run_id (archived_row r) = tr_run_id r) as Er by (unfold archived_row; by destruct (TaskArchive.archivable before r)).
  destruct (decide (tr_run_id r = run_id)) as [H|H].
  - rewrite !filter_cons_True by congruence. cbn [map]. by f_equal.
  - by rewrite !filter_cons_False by congruence.
Qed.

(** C38: archiving makes a failed run succeed. Take a run of which a task failed,
    long enough ago to be archived, while all its tasks that are not archived yet
    succeeded, and there are some. Its status is failed; once the old tasks of
    the store are archived it is succeeded. *)
Theorem archiving_hides_failure run_id : let rows := filter (fun r => tr_run_id r = run_id) (task_rows d).*2 in
  (exists r, r ∈ rows /\ TaskArchive.archivable before r = true /\ tr_status r = TaskStatus.value TaskStatus.FAILED) ->
  (exists r, r ∈ rows /\ TaskArchive.archivable before r = false) ->
  (forall r, r ∈ rows -> TaskArchive.archivable before r = false -> tr_status r = TaskStatus.value TaskStatus.SUCCEEDED) ->
  exists n d', TaskArchive.archive_terminal_before before limit d = (Ok n, d') /\
    RunQueries.computed_status (RunQueries.task_agg_of run_id d) = RunStatus.FAILED /\
    RunQueries.computed_status (RunQueries.task_agg_of run_id d') = RunStatus.SUCCEEDED.
Proof.
  intros rows (rf & Hf & _ & Ef) (rs & Hs & Es) Hall. destruct archive_all as (n & d' & E & Erows). exists n, d'. split; [done|].
  assert (forall s s', TaskStatus.value s <> TaskStatus.value s' -> has s' (TaskStatus.value s) = false) as Hne by (intros; by apply String.eqb_neq).
  assert (forall f (l : list string) x, x ∈ l -> f x = false -> forallb f l = false) as Hno.
  { intros f l x Hx Hfx. destruct (forallb f l) eqn:F; [|done]. eapply forallb_forall in F; [|by apply list_elem_of_In]. congruence. }
  assert (forall f (l : list string) x, x ∈ l -> f x = true -> existsb f l = true) as Hyes.
  { intros f l x Hx Hfx. apply existsb_exists. exists x. split; [by apply list_elem_of_In|done]. }
  rewrite !run_status_exact. split; unfold run_status_of.
  - assert (TaskStatus.value TaskStatus.FAILED ∈ statuses_of run_id d) as Hin by (rewrite <- Ef; by apply list_elem_of_fmap_2).
    rewrite (Hno _ _ _ Hin) by (by apply Hne). by rewrite (Hyes _ _ _ Hin) by apply String.eqb_refl.
  - rewrite (statuses_archived run_id d' Erows). fold rows. set (l := map _ rows).
    assert (forall t, t ∈ l -> t = TaskStatus.value TaskStatus.ARCHIVED \/ t = TaskStatus.value TaskStatus.SUCCEEDED) as Hl.
    { intros t (r & -> & Hr)%list_elem_of_fmap. unfold archived_row. destruct (TaskArchive.archivable before r) eqn:Ea; [by left|right; by apply Hall]. }
    assert (TaskStatus.value TaskStatus.SUCCEEDED ∈ l) as Hin.
    { apply list_elem_of_fmap. exists rs. split; [|done]. unfold archived_row. rewrite Es. symmetry. by apply Hall. }
    assert (forall f, f (TaskStatus.value TaskStatus.ARCHIVED) = false -> f (TaskStatus.value TaskStatus.SUCCEEDED) = false -> existsb f l = false) as Hnone.
    { intros f F1 F2. apply not_true_is_false. intros (t & Ht & Hft)%existsb_exists. apply list_elem_of_In in Ht. destruct (Hl t Ht) as [-> | ->]; congruence. }
    rewrite (Hno _ _ _ Hin) by (by apply Hne). rewrite !Hnone by (by apply Hne).
    replace (forallb finished l) with true; [done|]. symmetry. apply forallb_forall. intros t Ht%list_elem_of_In. by destruct (Hl t Ht) as [-> | ->].
Qed.
End hidden.

(** ** Examples *)
Definition query_task (n : string) (s : TaskStatus.t) (done_ms : Z) : string * TaskRow :=
  (sample_uuid n, mkTaskRow (sample_uuid n) (sample_uuid "a") n (TaskStatus.value s) None 1 1 60 [] 1000 (Some 1000) (Some done_ms) [] []).
Definition query_tables : tables :=
  mkTables [sample_uuid "a"; sample_uuid "b"] [query_task "1" TaskStatus.FAILED 2000; query_task "2" TaskStatus.SUCCEEDED 3000] [] [] [].
Definition query_store : store :=
  mkStore (mkEventTables [] []) query_tables
    [(sample_uuid "a", mkRunRecord (sample_uuid "a") None 1000 None None); (sample_uuid "b", mkRunRecord (sample_uuid "b") None 2000 None None)] [] [].
Example queries : (fun x => (fun m => (RunQueries.rs_run_id m, RunQueries.rs_status m)) <$> default [] (match x with (Ok l, _) => Some l | _ => None end))
  (RunQueries.list_run_summaries 10 0 None None None query_store) = [(sample_uuid "b", RunStatus.SUCCEEDED); (sample_uuid "a", RunStatus.FAILED)].
Proof. by vm_compute. Qed.

Lemma runs_in_pages_witness : exists ms, RunQueries.list_run_summaries 1 1 None None None query_store = (Ok (page 1 1 ms), query_store) /\
  RunQueries.count_run_summaries None None None query_store = (Ok (Z.of_nat (length ms)), query_store).
Proof.
  destruct (runs_in_pages None None None query_store) as (ms & Hp & Hc & _).
  - split; [apply (bool_decide_unpack _); vm_compute; exact I|]. constructor; [split; reflexivity|]. constructor; [split; reflexivity|constructor].
  - exists ms. split; [apply Hp; discriminate|exact Hc].
Defined.

Lemma archiving_hides_failure_witness : exists n d', TaskArchive.archive_terminal_before 2500 10 query_tables = (Ok n, d') /\
  RunQueries.computed_status (RunQueries.task_agg_of (sample_uuid "a") query_tables) = RunStatus.FAILED /\
  RunQueries.computed_status (RunQueries.task_agg_of (sample_uuid "a") d') = RunStatus.SUCCEEDED.
Proof.
  apply (archiving_hides_failure 2500 10 query_tables).
  - apply (bool_decide_unpack _). vm_compute. exact I.
  - vm_compute. discriminate.
  - exists (query_task "1" TaskStatus.FAILED 2000).2. split; [left|split; reflexivity].
  - exists (query_task "2" TaskStatus.SUCCEEDED 3000).2. split; [right; left|reflexivity].
  - intros r [->|[->|?%not_elem_of_nil]%elem_of_cons]%elem_of_cons; [discriminate|reflexivity|contradiction].
Defined.
