(* ===== verification/Worker.v ===== *)
(** * The worker: [worker/runner.py]

    [WorkerRunner]: a loop that takes leases from the queue and has the executor
    process them, until it is told to stop or the queue is closed. What happens
    around it, turn by turn, is the environment: when the stop event is set, and
    what other processes do to the queue and the database. The executor is used
    through what it promises for one lease ([LeaseProcessor]), which the
    executor of Executor keeps. The results: each lease the worker takes is
    settled exactly once, by the executor or, when that raises, by the worker's
    own rejection; tools run at most once for each lease taken; and a worker that
    is told to stop takes no further lease. *)

From Stdlib Require Import ZArith SpecFloat Lia.
From S2P Require Import Prelude PyFloat PyText Uuid Models Lifecycle Envelope QueueSpec Retries Decision Approvals Tools Policy CircuitBreaker Guards Enforcement Rows Repos TaskQueue Executor.

(** ** [observability/context.py] *)
Record correlation := mkCorrelation {
  cx_event_id : option string;
  cx_run_id : option string;
  cx_task_id : option string;
  cx_tool_call_id : option string;
}.
Definition normalized_id (v : option string) : option string := v ≫= strip_or_none.
(** [a or b] of texts *)
Definition or_text (v : option string) (other : string) : option string :=
  match v with Some s => if is_empty s then Some other else Some s | None => Some other end.
Definition correlation_of (e : TaskEnvelope) : correlation :=
  let ids := default [] (correlation_ids e) in
  let id name := mjoin (aget name ids) in
  mkCorrelation (normalized_id (id "event_id")) (normalized_id (or_text (id "run_id") (env_run_id e)))
    (normalized_id (or_text (id "task_id") (env_task_id e))) (normalized_id (id "tool_call_id")).

Section worker.
Context {G D Q : Type} `{Database D} `{ApprovalStore D} `{QueueOps Q}.
#[local] Notation world := (world G D (client Q)).

(** What the worker relies on, of the processing of one lease. *)
Class LeaseProcessor (process : correlation -> Lease -> st world ExecutionReport) : Prop := {
  settles_once : forall cx lease, settles lease (process cx lease);
  runs_once : forall cx lease w r w', rows_ok (tasks_of w) -> process cx lease w = (r, w') ->
    one_run may_run (env_task_id (lease_envelope lease)) w w';
  keeps_rows : forall cx lease, keeps ok_rows (process cx lease);
}.

(** ** [WorkerRunner] *)
Definition WORKER_EXCEPTION_NACK_DELAY_S : spec_float := of_Z 1.
Record WorkerRunner := mkWorkerRunner {
  wr_visibility_timeout_s : spec_float;
  wr_dequeue_wait_s : option spec_float;
  wr_close_queue_on_exit : bool;
}.
(** The worker with the world it works in, and the leases it took, newest first. *)
Record state := mkState {
  wk_world : world;
  wk_stop : bool;
  wk_taken : list Lease;
}.
(** One turn of the loop, as the environment makes it: whether the stop event is
    set before it or while it waits for a lease, the identifier of the lease, and
    what others do to the queue and the database before the queue answers. *)
Record turn := mkTurn {
  tn_stop : bool;
  tn_stop_waiting : bool;
  tn_lease_id : string;
  tn_queue : Q -> Q;
  tn_database : D -> D;
}.

Variable runner : WorkerRunner.
Variable queue_clock : nat -> Z.
Variable process : correlation -> Lease -> st world ExecutionReport.
(** [aclose] of the queue *)
Variable aclose : Q -> Q.

Definition in_world {A} (m : st world A) : st state A := fun s =>
  let '(r, w) := m (wk_world s) in (r, mkState w (wk_stop s) (wk_taken s)).
Definition set_stop (b : bool) (s : state) : state := mkState (wk_world s) (wk_stop s || b) (wk_taken s).
Definition take_lease (l : Lease) (s : state) : state := mkState (wk_world s) (wk_stop s) (l :: wk_taken s).
Definition map_queue (f : Q -> Q) (w : world) : world :=
  let x := w_client w in set_client (mkClient (f (x_queue x)) (x_clock_reads x) (x_queue_calls x) (x_task x) (x_settled x)) w.
Definition meanwhile (t : turn) (s : state) : state :=
  mkState (set_approvals (tn_database t (w_approvals (wk_world s))) (map_queue (tn_queue t) (wk_world s))) (wk_stop s) (wk_taken s).

Definition is_queue_closed (e : exn) : bool := match e with QueueClosed _ => true | _ => false end.

(** [_dequeue_or_stop] *)
Definition dequeue_or_stop (t : turn) : st state (option Lease) := fun s =>
  let s := meanwhile t s in
  if tn_stop_waiting t then (Ok None, set_stop true s)
  else
    match on_queue queue_clock (fun now => q_dequeue (tn_lease_id t) now (Some (wr_visibility_timeout_s runner))) (wk_world s) with
    | (Ok l, w) => (Ok l, mkState w (wk_stop s) (wk_taken s))
    | (Raise e, w) =>
        let s := mkState w (wk_stop s) (wk_taken s) in
        if is_queue_closed e then (Ok None, set_stop true s) else (Raise e, s)
    end.

(** [_handle_lease] *)
Definition nack_delay : spec_float := fmin WORKER_EXCEPTION_NACK_DELAY_S (wr_visibility_timeout_s runner).
Definition handle_lease (l : Lease) : st state unit := fun s =>
  match process (correlation_of (lease_envelope l)) l (wk_world s) with
  | (Ok _, w) => (Ok tt, mkState w (wk_stop s) (wk_taken s))
  | (Raise _, w) =>
      match nack queue_clock l nack_delay "worker_exception" w with
      | (Ok _, w) => (Ok tt, mkState w (wk_stop s) (wk_taken s))
      | (Raise e, w) =>
          let s := mkState w (wk_stop s) (wk_taken s) in
          if is_queue_closed e then (Ok tt, set_stop true s) else (Raise e, s)
      end
  end.

(** The loop; [false] when it goes on after the turns given. *)
Fixpoint loop (turns : list turn) : st state bool :=
  match turns with
  | [] => mret false
  | t :: turns => fun s =>
      let s := set_stop (tn_stop t) s in
      if wk_stop s then (Ok true, s)
      else
        (lease ← dequeue_or_stop t;
         match lease with
         | None => fun s => if wk_stop s then (Ok true, s) else loop turns s
         | Some l => modify (take_lease l);; handle_lease l;; loop turns
         end) s
  end.

(** [run] *)
Definition valid_runner : res unit :=
  raise_if (negb (isfinite (wr_visibility_timeout_s runner)) || fle (wr_visibility_timeout_s runner) fzero)
    (ValueError "visibility_timeout_s must be finite and > 0");;
  raise_if (match wr_dequeue_wait_s runner with Some wait_s => negb (isfinite wait_s) || flt wait_s fzero | None => false end)
    (ValueError "dequeue_wait_s must be finite and >= 0 when provided").
Definition run (turns : list turn) : st state bool := fun s =>
  match valid_runner with
  | Raise e => (Raise e, s)
  | Ok _ =>
      match loop turns s with
      | (Ok false, s) => (Ok false, s)
      | (r, s) => (r, if wr_close_queue_on_exit runner then mkState (map_queue aclose (wk_world s)) (wk_stop s) (wk_taken s) else s)
      end
  end.
Definition request_stop (s : state) : state := set_stop true s.

(** ** What became of the leases *)
#[local] Notation settled s := (x_settled (w_client (wk_world s))).
#[local] Notation runs s := (w_runs (wk_world s)).

Definition settled_by (l : Lease) (s : settlement) : Prop :=
  s = Acked l \/ exists delay_s reason, s = Nacked l delay_s reason.
(** Between two states each lease taken was settled once, in order, and ran at
    most one tool. *)
Definition accounted (s s' : state) : Prop := exists ls ss rs,
  wk_taken s' = ls ++ wk_taken s /\ settled s' = ss ++ settled s /\ runs s' = rs ++ runs s /\
  Forall2 settled_by ls ss /\ (length rs <= length ls)%nat.
(** The same, up to a last lease that is left to expire. *)
Definition cut_short (s s' : state) : Prop := exists s1 l,
  accounted s s1 /\ wk_taken s' = l :: wk_taken s1 /\ settled s' = settled s1 /\
  (length (runs s') <= 1 + length (runs s1))%nat.

#[local] Instance accounted_preorder : PreOrder accounted.
Proof.
  split; [by intros s; exists [], [], []|]. intros a b c (l1 & s1 & r1 & A1 & B1 & C1 & F1 & L1) (l2 & s2 & r2 & A2 & B2 & C2 & F2 & L2).
  exists (l2 ++ l1), (s2 ++ s1), (r2 ++ r1). rewrite A2, A1, B2, B1, C2, C1, <- !app_assoc, !length_app.
  do 3 (split; [done|]). split; [by apply Forall2_app|lia].
Qed.

Definition keeps_database (t : turn) : Prop :=
  forall d, rows_ok (task_rows (db_tables d)) -> rows_ok (task_rows (db_tables (tn_database t d))).

Lemma meanwhile_rows t s : keeps_database t -> rows_ok (tasks_of (wk_world s)) -> rows_ok (tasks_of (wk_world (meanwhile t s))).
Proof. intros Ht Hs. exact (Ht _ Hs). Qed.
Lemma on_queue_keeps {B} (m : Z -> st Q B) (w : world) r w' : on_queue queue_clock m w = (r, w') ->
  x_settled (w_client w') = x_settled (w_client w) /\ w_runs w' = w_runs w /\ tasks_of w' = tasks_of w.
Proof. unfold on_queue. destruct (m _ _). by intros [= _ <-]. Qed.

(** Waiting for a lease settles and runs nothing; no lease is an answer only to
    stop, or to wait again. *)
Lemma dequeue_spec t s r s' : keeps_database t -> dequeue_or_stop t s = (r, s') ->
  accounted s s' /\ wk_taken s' = wk_taken s /\ (rows_ok (tasks_of (wk_world s)) -> rows_ok (tasks_of (wk_world s'))).
Proof.
  intros Ht. unfold dequeue_or_stop. pose proof (meanwhile_rows t s Ht) as Hm. destruct (tn_stop_waiting t).
  { intros [= _ <-]. split; [by exists [], [], []|]. by split. }
  destruct (on_queue _ _ _) as [[l|e] w] eqn:E; apply on_queue_keeps in E as (E1 & E2 & E3).
  - intros [= _ <-]. cbn. split; [exists [], [], []; cbn; by rewrite E1, E2|]. split; [done|]. by rewrite E3.
  - assert (forall b, accounted s (mkState w b (wk_taken (meanwhile t s)))) as Ha by (intros b; exists [], [], []; cbn; by rewrite E1, E2).
    destruct (is_queue_closed e); intros [= _ <-]; cbn; (split; [apply Ha|]); (split; [done|]); by rewrite E3.
Qed.

Context `{!LeaseProcessor process}.

Lemma nack_cases (l : Lease) d why (w : world) r w' : nack queue_clock l d why w = (r, w') ->
  match r with Ok _ => x_settled (w_client w') = Nacked l d why :: x_settled (w_client w)
             | Raise _ => x_settled (w_client w') = x_settled (w_client w) end /\
  w_runs w' = w_runs w /\ tasks_of w' = tasks_of w.
Proof.
  unfold nack, mbind, st_bind. destruct (on_queue _ _ w) as [[u|e] w1] eqn:E; apply on_queue_keeps in E as (E1 & E2 & E3).
  - unfold settle. intros [= <- <-]. cbn. by rewrite E1.
  - by intros [= <- <-].
Qed.

(** A lease is accounted for, unless the worker stops. *)
Lemma handle_spec l s r s' : rows_ok (tasks_of (wk_world s)) -> handle_lease l s = (r, s') ->
  rows_ok (tasks_of (wk_world s')) /\ wk_taken s' = wk_taken s /\
  (exists rs, runs s' = rs ++ runs s /\ (length rs <= 1)%nat) /\
  ((exists x, settled s' = x :: settled s /\ settled_by l x /\ r = Ok tt) \/
   (settled s' = settled s /\ (wk_stop s' = true \/ exists e, r = Raise e))).
Proof.
  intros Hs. unfold handle_lease. destruct (process _ l _) as [q w] eqn:E.
  pose proof (keeps_rows _ l _ _ _ E Hs) as Hw. pose proof (runs_once _ l _ _ _ Hs E) as Hr.
  assert (exists rs, w_runs w = rs ++ runs s /\ (length rs <= 1)%nat) as Hruns.
  { destruct Hr as [->|(t & c & _ & _ & _ & ->)]; [exists []|eexists [_]]; split; [done|cbn; lia|done|cbn; lia]. }
  apply (settles_once _ l) in E. destruct q as [rep|e].
  - destruct E as (x & Ex & Hx). intros [= <- <-]. do 3 (split; [done|]). left. exists x. split; [done|]. split; [|done].
    destruct x; [left|right]; destruct Hx as [-> _]; eauto.
  - destruct (nack _ _ _ _ w) as [[u|e'] w1] eqn:En; apply nack_cases in En as (E1 & E2 & E3).
    + intros [= <- <-]. cbn. rewrite E2, E3. do 3 (split; [done|]). left. eexists. rewrite E1, E. split; [done|]. split; [|done]. right. eauto.
    + assert (forall b, (rows_ok (tasks_of (wk_world (mkState w1 b (wk_taken s)))) /\ wk_taken (mkState w1 b (wk_taken s)) = wk_taken s /\
        (exists rs, runs (mkState w1 b (wk_taken s)) = rs ++ runs s /\ (length rs <= 1)%nat)) /\ settled (mkState w1 b (wk_taken s)) = settled s) as Hk.
      { intros b. cbn. rewrite E1, E2, E3. auto. }
      destruct (is_queue_closed e'); intros [= <- <-].
      * destruct (Hk true) as [(? & ? & ?) ?]. do 3 (split; [done|]). right. split; [done|]. left. apply orb_true_r.
      * destruct (Hk (wk_stop s)) as [(? & ? & ?) ?]. do 3 (split; [done|]). right. split; [done|]. right. by eexists.
Qed.

Lemma accounted_handled (l : Lease) s s' : wk_taken s' = wk_taken (take_lease l s) ->
  (exists rs, runs s' = rs ++ runs s /\ (length rs <= 1)%nat) -> (exists x, settled s' = x :: settled s /\ settled_by l x) ->
  accounted s s'.
Proof. intros Ht (rs & Hr & Hl) (x & Hx & Hb). exists [l], [x], rs. do 3 (split; [done|]). split; [by constructor|done]. Qed.

Lemma cut_short_l s s1 s' : accounted s s1 -> cut_short s1 s' -> cut_short s s'.
Proof. intros Ha (s2 & l & Hb & Hc). exists s2, l. split; [by etrans|done]. Qed.

(** From a stopped state the loop takes nothing; a stop among the turns ends it. *)
Lemma loop_stopped turns s : wk_stop s = true -> (loop turns s).2 = match turns with [] => s | t :: _ => set_stop (tn_stop t) s end.
Proof. intros Hs. destruct turns; [done|]. cbn. by rewrite Hs. Qed.

Definition all_accounted (s s' : state) (r : res bool) : Prop :=
  accounted s s' \/ cut_short s s' /\ (wk_stop s' = true \/ exists e, r = Raise e).
Lemma all_accounted_l s s1 s' r : accounted s s1 -> all_accounted s1 s' r -> all_accounted s s' r.
Proof. intros Ha [Hb|[Hb ?]]; [left; by etrans|right]. split; [by eapply cut_short_l|done]. Qed.

Lemma loop_accounts turns : Forall keeps_database turns -> forall s r s', rows_ok (tasks_of (wk_world s)) ->
  loop turns s = (r, s') -> all_accounted s s' r.
Proof.
  induction 1 as [|t turns Ht _ IH]; intros s r s' Hs; [by intros [= _ <-]; left|]. cbn [loop].
  destruct (wk_stop (set_stop (tn_stop t) s)); [by intros [= _ <-]; left; exists [], [], []|].
  unfold mbind, st_bind. destruct (dequeue_or_stop t _) as [q s1] eqn:E. apply dequeue_spec in E as (Ha & Etaken & Hrows); [|done].
  specialize (Hrows Hs). assert (accounted s s1) as Hs1 by exact Ha. clear Ha.
  destruct q as [[l|]|e]; [|destruct (wk_stop s1); [by intros [= _ <-]; left|]|by intros [= _ <-]; left].
  2: { intros E. apply (all_accounted_l _ s1); [done|]. by apply IH in E. }
  intros E. apply (all_accounted_l _ s1); [done|]. clear Hs1.
  change (modify (take_lease l) s1) with (@Ok unit tt, take_lease l s1) in E. cbn iota beta in E.
  destruct (handle_lease l (take_lease l s1)) as [q s2] eqn:Eh.
  apply handle_spec in Eh as (Hw & Etaken2 & Hruns & [(x & Ex & Hx & ->)|(Esame & Hstop)]); [|..|done].
  - apply (all_accounted_l _ s2); [|by apply IH in E]. apply (accounted_handled l); [done|done|by exists x].
  - assert (cut_short s1 s2) as Hc.
    { exists s1, l. split; [done|]. do 2 (split; [done|]). destruct Hruns as (rs & -> & Hl). rewrite length_app. cbn. lia. }
    destruct q as [u|e]; [|injection E as <- <-; right; split; [done|right; by eexists]].
    destruct Hstop as [Hstop|(e & ?)]; [|done]. pose proof (loop_stopped turns s2 Hstop) as Hl. rewrite E in Hl. cbn in Hl. right.
    assert (wk_stop s' = true) as Hs' by (rewrite Hl; destruct turns; [done|cbn; by rewrite Hstop]). split; [|by left].
    destruct Hc as (s0 & l0 & Hc). exists s0, l0. by rewrite Hl; destruct turns.
Qed.

Lemma stop_loop turns : forall s r s', Exists (fun t => tn_stop t = true) turns -> loop turns s = (r, s') -> r <> Ok false.
Proof.
  induction turns as [|t turns IH]; intros s r s' He; [by inversion He|]. cbn [loop].
  destruct (wk_stop (set_stop (tn_stop t) s)) eqn:Es; [by intros [= <- _]|]. unfold mbind, st_bind.
  assert (Exists (fun t => tn_stop t = true) turns) as He'.
  { inversion He; subst; [|done]. exfalso. cbn in Es. apply orb_false_iff in Es as [_ ?]. congruence. }
  destruct (dequeue_or_stop t _) as [[[l|]|e] s1]; [|destruct (wk_stop s1); [by intros [= <- _]|by apply IH]|by intros [= <- _]].
  change (modify (take_lease l) s1) with (@Ok unit tt, take_lease l s1). cbn iota beta.
  destruct (handle_lease l _) as [[u|e] s2]; [by apply IH|by intros [= <- _]].
Qed.

(** ** Properties *)

(** C34: the worker loses no lease and stops when told. However the stop event is
    set and whatever other processes do to the queue and to the database in the
    meantime, as long as they keep the rows of tasks well formed, the leases the
    worker takes are settled one after the other, each exactly once, acknowledged or
    sent back, and at most one tool runs for each. The exception is one last lease,
    after which the worker has stopped or raised: the queue did not take its
    rejection, so it expires there. A worker that is already told to stop takes no
    lease, and one that is told to stop at some turn does not go on after it. *)
Theorem worker_accounts turns s r s' : Forall keeps_database turns -> rows_ok (tasks_of (wk_world s)) ->
  run turns s = (r, s') ->
  all_accounted s s' r /\
  (wk_stop s = true -> wk_taken s' = wk_taken s) /\
  (Exists (fun t => tn_stop t = true) turns -> r <> Ok false).
Proof.
  intros Ht Hs. unfold run. destruct valid_runner as [u|e]; [|intros [= <- <-]; split; [by left|done]].
  destruct (loop turns s) as [q s1] eqn:E. pose proof (loop_accounts turns Ht s q s1 Hs E) as Ha.
  assert (wk_stop s = true -> wk_taken s1 = wk_taken s) as Hstop.
  { intros Hb%(loop_stopped turns). rewrite E in Hb. cbn in Hb. rewrite Hb. by destruct turns. }
  pose proof (stop_loop turns s q s1) as Hl. destruct q as [[]|e].
  - intros [= <- <-]. destruct (wr_close_queue_on_exit runner); (split; [exact Ha|]; split; [exact Hstop|done]).
  - intros [= <- <-]. split; [exact Ha|]. split; [done|]. intros He. by apply Hl.
  - intros [= <- <-]. destruct (wr_close_queue_on_exit runner); (split; [exact Ha|]; split; [exact Hstop|done]).
Qed.
End worker.

(** ** The executor keeps the interface *)
Section executor_processor.
Context {G D Q : Type} `{DatabaseLaws D} `{!ApprovalStore D} `{!ApprovalsKeepTasks D} `{QueueOps Q}.
Variable registry : ToolRegistry.t.
Variable guard_chain : list (guard G).
Variable rules : list (string * rule).
Variable policy_ctx : PolicyContext.
Variable retry_policy : RetryPolicy.
Variables wall_clock clock queue_clock : nat -> Z.
Variable uuid4 : nat -> string.
Variable build_payload_hash_for_args : list (string * json) -> string.
Variable build_preview : ToolCall -> ToolSpec -> parsed_args -> PolicyDecision -> string.
Variable run_tool : list (string * list (string * json)) -> string -> list (string * json) -> ToolContext -> res ToolResult.
Variable breaker : option (CircuitBreaker.CircuitBreakerKey -> bool -> spec_float -> st G unit).
Variable destination : list (string * json) -> option string.
Variable args_eq : list (string * json) -> list (string * json) -> bool.
Variable sanitize : json -> json.
Variable log2 : spec_float -> spec_float.
Variable float_of_text : string -> option spec_float.
Variable otel : list (string * json).

(** [executor.process_lease], in the correlation context of the worker *)
Definition executor_process (cx : correlation) : Lease -> st (world G D (client Q)) ExecutionReport :=
  process_lease registry guard_chain rules policy_ctx retry_policy wall_clock clock queue_clock uuid4
    build_payload_hash_for_args build_preview run_tool breaker destination args_eq sanitize log2 float_of_text
    (cx_event_id cx) otel.

#[export] Instance executor_processes : LeaseProcessor executor_process.
Proof.
  split; unfold executor_process.
  - intros cx lease. apply process_settles; apply _.
  - intros cx lease w r w' Hw E. apply process_runs in E; [|apply _..|done]. destruct E as [E|(t & c & E1 & E2 & [E3 _] & E4)]; [by left|].
    right. by exists t, c.
  - intros cx lease. apply process_rows; apply _.
Qed.
End executor_processor.

(** ** A worker over the sample deployment of the executor *)
Definition sample_worker : WorkerRunner := mkWorkerRunner (of_Z 60) (Some (of_Z 0)) true.
Notation sample_process := (executor_process read_registry (sample_chain no_limits) (@build_default_policy_rules sample_checks) sample_ctx
  sample_retries (fun n => 5000 + Z.of_nat n) (fun n => 5000 + Z.of_nat n) (fun n => 5000 + Z.of_nat n)
  (fun n => uuid_str (4 * 16 ^ 19 + 8 * 16 ^ 15 + 2000 + Z.of_nat n)) (fun _ => "hash") (fun _ _ _ _ => "preview")
  answer_path None (fun _ => None) (fun _ _ => true) (fun v => v) (fun x => x) (fun _ => None) []).
Definition enqueued_queue : TaskQueue.t := (TaskQueue.enqueue 1000 read_envelope empty_queue).2.
Definition idle_worker : @state guard_state db_state TaskQueue.t :=
  mkState (mkWorld fresh_state (read_tables [], []) (mkClient enqueued_queue 0 0 None []) 0 0 []) false [].
Definition quiet_turn (n : Z) : @turn db_state TaskQueue.t := mkTurn false false (sample_lease_id n) (fun q => q) (fun d => d).
Definition last_turn : @turn db_state TaskQueue.t := mkTurn true false (sample_lease_id 9) (fun q => q) (fun d => d).
Definition sample_turns : list turn := [quiet_turn 1; quiet_turn 2; quiet_turn 3; last_turn].
Definition worked : res bool * @state guard_state db_state TaskQueue.t :=
  run sample_worker (fun n => 5000 + Z.of_nat n) sample_process TaskQueue.aclose sample_turns idle_worker.

(** Two tasks, the second queued when the first is done; then the stop. *)
Example worker_runs_both : worked.1 = Ok true /\ length (wk_taken worked.2) = 2%nat /\
  length (x_settled (w_client (wk_world worked.2))) = 2%nat /\
  statuses (wk_world worked.2) = ["succeeded"; "succeeded"] /\
  TaskQueue.closed (x_queue (w_client (wk_world worked.2))) = true.
Proof. by vm_compute. Qed.

Lemma sample_turns_keep : Forall keeps_database sample_turns.
Proof. unfold sample_turns. repeat (constructor; [intros d Hd; exact Hd|]). constructor. Qed.

Lemma worker_accounts_witness : all_accounted idle_worker worked.2 worked.1 /\ worked.1 <> Ok false.
Proof.
  destruct (worker_accounts sample_worker (fun n => 5000 + Z.of_nat n) sample_process TaskQueue.aclose sample_turns idle_worker
    worked.1 worked.2 sample_turns_keep (read_tables_rows []) (surjective_pairing worked)) as (H1 & _ & H2).
  split; [exact H1|]. apply H2. unfold sample_turns. do 3 apply Exists_cons_tl. by apply Exists_cons_hd.
Defined.
