(* ===== verification/Planning.v ===== *)
(** * Planners: [planning/backends.py], [service.py], [contracts.py]

    The planner behind the engine: the heuristic backend, which reads a plan out
    of the payload of an event, and the backend that asks a chat-completion
    endpoint, with its prompt and the decoding of the answer. The endpoint, the
    parser of JSON, the schemas pydantic derives and its conversions of values of
    another type are parameters. The results: a dumped plan is read back; a prompt
    is within its cap and holds only redacted text; and an event whose payload
    holds a broken plan stops all planning. *)

From Stdlib Require Import ZArith SpecFloat Lia.
From S2P Require Import Prelude PyFloat PyText Uuid Models Lifecycle Serialization Truncation Redaction Events Plans RunPackets Decision Tools Budgets Approvals Repos PlanValidation PacketStore Persistence Engine.

#[local] Notation dict := (list (string * json)).

(** ** [model_validate] of the models of [orchestrator/plans.py] *)
Section decode.
(** what the pydantic core makes of a value of another type, and the [uuid4] of a
    plan without an identifier *)
Variable lax_int : json -> res Z.
Variable lax_float : json -> res spec_float.
Variable lax_bool : json -> res bool.
Variable fresh : string.

#[local] Notation of_int := (PacketStore.of_int lax_int).
Definition of_float (v : json) : res spec_float := match v with JFloat f => Ok f | v => lax_float v end.
Definition of_bool (v : json) : res bool := match v with JBool b => Ok b | v => lax_bool v end.

(** [extra="forbid"]: an error for each key that is no field. *)
Definition forbid_extra {A} (fields : list string) (d : dict) (x : vld A) : vld A :=
  match filter (fun p => p.1 ∉ fields) d with
  | [] => x
  | extra => vap (vap (VOk (fun a (_ : unit) => a)) x) (VErr (map (fun p => (p.1, ValueError "Extra inputs are not permitted")) extra))
  end.
Definition of_model {A} (class_name : string) (f : dict -> res A) (v : json) : res A :=
  match v with JObj d => f d | _ => Raise (ValueError ("Input should be a valid dictionary or instance of " +:+ class_name)) end.

Definition ProposedTask_fields : list string := ["name"; "tool_name"; "args"; "depends_on"; "timeout_s"; "max_attempts"; "priority";
  "idempotency_seed"; "declared_permission_scope"; "approval_required"; "expected_side_effects"; "execution_class"].
Definition ProposedTask_of_dict (d : dict) : res ProposedTask :=
  run (forbid_extra ProposedTask_fields d (VOk mkProposedTask
    <*> field "name" (s ← required of_str "name" d; non_empty "name" s)
    <*> field "tool_name" (s ← required of_str "tool_name" d; non_empty "tool_name" s)
    <*> field "args" (a ← defaulted of_dict [] "args" d; json_dict "args" a)
    <*> field "depends_on" (l ← defaulted (of_list (fun _ => of_str)) [] "depends_on" d; non_empty_entries "depends_on" l)
    <*> field "timeout_s" (n ← defaulted of_int 60 "timeout_s" d; positive_int "timeout_s" n)
    <*> VOk (is_set (aget "timeout_s" d))
    <*> field "max_attempts" (n ← defaulted of_int 1 "max_attempts" d; positive_int "max_attempts" n)
    <*> field "priority" (n ← defaulted (nullable of_int) None "priority" d; validate_optional (non_negative_int "priority") n)
    <*> field "idempotency_seed" (s ← defaulted (nullable of_str) None "idempotency_seed" d; normalize_optional s)
    <*> field "declared_permission_scope" (s ← defaulted (nullable of_str) None "declared_permission_scope" d; normalize_optional s)
    <*> field "approval_required" (defaulted (nullable of_bool) None "approval_required" d)
    <*> field "expected_side_effects" (defaulted (nullable of_bool) None "expected_side_effects" d)
    <*> field "execution_class" (s ← defaulted (nullable of_str) None "execution_class" d; normalize_optional s)))%py.

Definition BudgetAssertions_of_dict (d : dict) : res BudgetAssertions :=
  run (forbid_extra ["max_tool_calls"; "max_runtime_s"; "max_tokens"; "max_tasks"] d (VOk mkBudgetAssertions
    <*> field "max_tool_calls" (n ← required of_int "max_tool_calls" d; positive_int "max_tool_calls" n)
    <*> field "max_runtime_s" (x ← required of_float "max_runtime_s" d; positive_float "max_runtime_s" x)
    <*> field "max_tokens" (n ← required of_int "max_tokens" d; positive_int "max_tokens" n)
    <*> field "max_tasks" (n ← defaulted (nullable of_int) None "max_tasks" d; validate_optional (positive_int "max_tasks") n)))%py.

Definition Plan_fields : list string := ["plan_id"; "summary"; "tasks"; "estimated_cost"; "required_approvals"; "budget_assertions";
  "planner_version"; "planning_notes"; "metadata"].
Definition Plan_of_dict (d : dict) : res Plan :=
  run (forbid_extra Plan_fields d (VOk mkPlan
    <*> field "plan_id" (generated_id (fun _ => fresh) "plan_id" "" d)
    <*> field "summary" (s ← required of_str "summary" d; non_empty "summary" s)
    <*> field "tasks" (defaulted (of_list (fun _ => of_model "ProposedTask" ProposedTask_of_dict)) [] "tasks" d)
    <*> field "estimated_cost" (x ← defaulted (nullable of_float) None "estimated_cost" d; validate_optional (non_negative_float "estimated_cost") x)
    <*> field "required_approvals" (l ← defaulted (of_list (fun _ => of_str)) [] "required_approvals" d; non_empty_entries "required_approvals" l)
    <*> field "budget_assertions" (required (of_model "BudgetAssertions" BudgetAssertions_of_dict) "budget_assertions" d)
    <*> field "planner_version" (s ← defaulted (nullable of_str) None "planner_version" d; normalize_optional s)
    <*> field "planning_notes" (l ← defaulted (of_list (fun _ => of_str)) [] "planning_notes" d; non_empty_entries "planning_notes" l)
    <*> field "metadata" (a ← defaulted of_dict [] "metadata" d; json_dict "metadata" a)))%py.
Definition Plan_model_validate (v : json) : res Plan :=
  match v with
  | JObj d => Plan_of_dict d
  | _ => Raise (ValidationError [("", ValueError "Input should be a valid dictionary or instance of Plan")])
  end.
Definition ProposedTask_model_validate (v : json) : res ProposedTask :=
  match v with
  | JObj d => ProposedTask_of_dict d
  | _ => Raise (ValidationError [("", ValueError "Input should be a valid dictionary or instance of ProposedTask")])
  end.
End decode.

(** ** [contracts.py] and [_registry_tool_specs] of [service.py] *)
Record PlannerToolSpec := mkPlannerToolSpec {
  pts_name : string;
  pts_description : string;
  pts_permission_scope : string;
  pts_side_effects : bool;
  pts_idempotent : bool;
  pts_default_timeout_s : Z;
  pts_max_output_bytes : Z;
  pts_tags : list string;
  pts_input_schema : dict;
  pts_output_schema : dict;
}.
Definition to_prompt_dict (t : PlannerToolSpec) : dict := [
  ("name", JStr (pts_name t)); ("description", JStr (pts_description t)); ("permission_scope", JStr (pts_permission_scope t));
  ("side_effects", JBool (pts_side_effects t)); ("idempotent", JBool (pts_idempotent t));
  ("default_timeout_s", JInt (pts_default_timeout_s t)); ("max_output_bytes", JInt (pts_max_output_bytes t));
  ("tags", JArr (map JStr (pts_tags t))); ("input_schema", JObj (pts_input_schema t)); ("output_schema", JObj (pts_output_schema t))].

Section specs.
(** [model_json_schema] of the arguments of a tool, and of [ToolResult] *)
Variable args_schema : Tool -> dict.
Variable result_schema : dict.
(** [schema or ...]: an empty schema counts as none. *)
Definition schema_or (schema : option dict) (other : dict) : dict := match schema with Some (p :: l) => p :: l | _ => other end.
Definition tool_spec (tool : Tool) : PlannerToolSpec :=
  let m := manifest tool in
  mkPlannerToolSpec (mf_name m) (mf_description m) (mf_permission_scope m) (mf_side_effects m) (mf_idempotent m) (mf_default_timeout_s m)
    (mf_max_output_bytes m) (mf_tags m) (schema_or (mf_input_schema m) (args_schema tool)) (schema_or (mf_output_schema m) result_schema).
Definition registry_tool_specs (r : ToolRegistry.t) : list PlannerToolSpec := map tool_spec r.*2.
End specs.

(** ** [backends.py] *)
(** [bool(v)], and [a or b] of the values of two keys. *)
Definition truthy (v : json) : bool :=
  match v with
  | JNull => false
  | JBool b => b
  | JInt n => negb (n =? 0)
  | JFloat f => negb (feq f fzero)
  | JStr s => negb (is_empty s)
  | JArr l => negb (is_nil l)
  | JObj l => negb (is_nil l)
  | JOpaque _ => true
  end.
Definition get (key : string) (d : dict) : json := default JNull (aget key d).
Definition or (a b : json) : json := if truthy a then a else b.

Definition budget_assertions_for_input (i : PlanningInput) : res BudgetAssertions :=
  let l := pi_limits i in
  match ls_max_tool_calls l, ls_max_runtime_s l, ls_max_tokens l with
  | None, _, _ => Raise (ValueError "planning_input.limits.max_tool_calls is required")
  | _, None, _ => Raise (ValueError "planning_input.limits.max_runtime_s is required")
  | _, _, None => Raise (ValueError "planning_input.limits.max_tokens is required")
  | Some calls, Some runtime_s, Some tokens => BudgetAssertions_validate (mkBudgetAssertions calls runtime_s tokens (ls_max_tasks l))
  end.
(** [plan] with the version of the backend when it names none *)
Definition with_version (version : string) (p : Plan) : Plan :=
  match planner_version p with
  | Some _ => p
  | None => mkPlan (plan_id p) (summary p) (plan_tasks p) (estimated_cost p) (required_approvals p) (budget_assertions p) (Some version)
              (planning_notes p) (plan_metadata p)
  end.

Section heuristic.
Variable lax_int : json -> res Z.
Variable lax_float : json -> res spec_float.
Variable lax_bool : json -> res bool.
Variable fresh : string.
(** [planner_version] of [HeuristicPlannerBackend] *)
Variable version : string.

Definition heuristic_plan (assertions : BudgetAssertions) (text note : string) (tasks : list ProposedTask) : res Plan :=
  Plan_validate fresh IdNone (mkPlan "" text tasks None [] assertions (Some version) [note] []).
Definition plan_of_event (tools : list PlannerToolSpec) (assertions : BudgetAssertions) (e : Event) : res (option Plan) :=
  let payload := ev_payload e in
  let tool_name := or (get "planner_tool" payload) (get "tool_name" payload) in
  let raw_args := or (or (get "planner_args" payload) (get "args" payload)) (JObj []) in
  match or (get "planner_plan" payload) (get "plan" payload), or (get "planner_tasks" payload) (get "tasks" payload) with
  | JObj raw_plan, _ => p ← Plan_of_dict lax_int lax_float lax_bool fresh raw_plan; Ok (Some (with_version version p))
  | _, JArr raw_tasks =>
      tasks ← sequence (map (ProposedTask_model_validate lax_int lax_bool) raw_tasks);
      p ← heuristic_plan assertions ("heuristic:" +:+ ev_type e) "derived from event payload tasks" tasks; Ok (Some p)
  | _, _ =>
      match tool_name, raw_args with
      | JStr name, JObj args =>
          match List.find (fun t => (pts_name t =? name)%string) tools with
          | None => Ok None
          | Some t =>
              task ← ProposedTask_validate (mkProposedTask (ev_type e +:+ ":" +:+ name) name args [] 60 false 1 None None
                       (Some (pts_permission_scope t)) None None None);
              p ← heuristic_plan assertions ("heuristic:" +:+ ev_type e) "derived from event payload tool_name/args" [task]; Ok (Some p)
          end
      | _, _ => Ok None
      end
  end.
Fixpoint first_plan (tools : list PlannerToolSpec) (assertions : BudgetAssertions) (events : list Event) : res Plan :=
  match events with
  | [] => heuristic_plan assertions "heuristic:noop" "no actionable planner hints found in events" []
  | e :: events => p ← plan_of_event tools assertions e; match p with Some p => Ok p | None => first_plan tools assertions events end
  end.
Definition heuristic (i : PlanningInput) (tools : list PlannerToolSpec) : res Plan :=
  assertions ← budget_assertions_for_input i; first_plan tools assertions (pi_events i).
End heuristic.

(** *** [OpenAICompatiblePlannerBackend] *)
Definition DEFAULT_SYSTEM_PROMPT : string :=
  "You are the Reflexor planner. Return JSON only. Use only the supplied tools. " +:+
  "Each task.depends_on entry must reference another task name from the same plan. " +:+
  "Set declared_permission_scope to the selected tool permission_scope when available. " +:+
  "Prefer small plans that satisfy the event intent within the provided limits.".
Definition PLANNER_PROMPT_MAX_BYTES : Z := 64 * 1024.
Definition PLANNER_INPUT_MAX_BYTES : Z := 20 * 1024.
Definition PLANNER_TOOLS_MAX_BYTES : Z := 20 * 1024.
Definition PLANNER_MEMORY_MAX_BYTES : Z := 12 * 1024.
Definition PLANNER_TOOL_SCHEMA_MAX_BYTES : Z := 3 * 1024.

(** [PlanningInput.model_dump(mode="json")] *)
Definition PlanningInput_dump (i : PlanningInput) : json := JObj [
  ("trigger", JStr (trigger_value (pi_trigger i))); ("events", JArr (map Event_dump (pi_events i)));
  ("limits", JObj [("max_tasks", json_of JInt (ls_max_tasks (pi_limits i))); ("max_tool_calls", json_of JInt (ls_max_tool_calls (pi_limits i)));
    ("max_tokens", json_of JInt (ls_max_tokens (pi_limits i))); ("max_runtime_s", json_of JFloat (ls_max_runtime_s (pi_limits i)))]);
  ("now_ms", JInt (pi_now_ms i))].

Section prompt.
Variable float_repr : spec_float -> string.
Variable redact_text : string -> string.

Definition sanitize_prompt_section (v : json) (max_bytes : Z) : res json := redact default_redactor float_repr redact_text v (Some max_bytes).
Definition tool_to_prompt_dict (t : PlannerToolSpec) : res json :=
  input ← sanitize_prompt_section (JObj (pts_input_schema t)) PLANNER_TOOL_SCHEMA_MAX_BYTES;
  output ← sanitize_prompt_section (JObj (pts_output_schema t)) PLANNER_TOOL_SCHEMA_MAX_BYTES;
  Ok (JObj (aset "output_schema" output (aset "input_schema" input (to_prompt_dict t)))).
Definition instructions : json := JObj [("output_must_be_valid_plan_json", JBool true); ("depends_on_references_task_names", JBool true);
  ("use_only_listed_tools", JBool true)].
Definition prompt_payload (i : PlanningInput) (tools : list PlannerToolSpec) (memory : list dict) : res dict :=
  input ← sanitize_prompt_section (PlanningInput_dump i) PLANNER_INPUT_MAX_BYTES;
  specs ← sequence (map tool_to_prompt_dict tools);
  tools ← sanitize_prompt_section (JArr specs) PLANNER_TOOLS_MAX_BYTES;
  memory ← sanitize_prompt_section (JArr (map JObj memory)) PLANNER_MEMORY_MAX_BYTES;
  Ok [("planning_input", input); ("tools", tools); ("memory", memory); ("instructions", instructions)].
Definition too_large : exn := PlannerRequestError "planner prompt exceeded safe size after sanitization".
(** The payload again, truncated as a whole, when its text is too long. *)
Definition shorten (payload : dict) (prompt : string) : res string :=
  if bytes prompt <=? PLANNER_PROMPT_MAX_BYTES then Ok prompt
  else
    truncated ← truncate_collection float_repr (rd_max_depth default_redactor) (rd_max_items default_redactor) TRUNCATION_MARKER
                  (JObj payload) (PLANNER_PROMPT_MAX_BYTES - 1024);
    match truncated with JObj d => compact_json float_repr (JObj d) | _ => Raise too_large end.
Definition build_user_prompt (i : PlanningInput) (tools : list PlannerToolSpec) (memory : list dict) : res string :=
  payload ← prompt_payload i tools memory;
  whole ← compact_json float_repr (JObj payload);
  prompt ← shorten payload whole;
  if PLANNER_PROMPT_MAX_BYTES <? bytes prompt then Raise too_large else Ok prompt.
End prompt.

(** What the endpoint answers: a body, which may not be JSON, a status that is an
    error, or no answer. *)
Record planner_request := mkPlannerRequest {
  rq_url : string;
  rq_headers : list (string * string);
  rq_body : json;
}.
Inductive planner_answer :=
| Body (parsed : res json)
| BadStatus (code : Z)
| NoAnswer.
Record OpenAICompatiblePlannerBackend := mkOpenAI {
  oa_base_url : string;
  oa_model : string;
  oa_api_key : option string;
  oa_temperature : spec_float;
  oa_planner_version : string;
}.
(** What is reported as an unusable response. *)
Definition is_response_error (e : exn) : bool := match e with TypeError _ | ValueError _ | ValidationError _ => true | _ => false end.

Section openai.
Variable lax_int : json -> res Z.
Variable lax_float : json -> res spec_float.
Variable lax_bool : json -> res bool.
Variable fresh : string.
(** the parser of JSON behind [model_validate_json] *)
Variable parse_json : string -> option json.

Definition Plan_model_validate_json (text : string) : res Plan :=
  match parse_json text with
  | None => Raise (ValidationError [("", ValueError "Invalid JSON")])
  | Some v => Plan_model_validate lax_int lax_float lax_bool fresh v
  end.
Definition text_parts (items : list json) : list string :=
  omap (fun item => match item with JObj d => match get "text" d with JStr s => Some s | _ => None end | _ => None end) items.
Definition parse_openai_plan_response (payload : json) : res Plan :=
  match payload with
  | JObj payload =>
      match get "choices" payload with
      | JArr (JObj first_choice :: _) =>
          match get "message" first_choice with
          | JObj message =>
              match get "parsed" message with
              | JObj parsed => Plan_of_dict lax_int lax_float lax_bool fresh parsed
              | _ =>
                  match get "content" message with
                  | JStr content => Plan_model_validate_json content
                  | JArr items =>
                      match text_parts items with
                      | [] => Raise (ValueError "planner response did not include JSON content")
                      | parts => Plan_model_validate_json (foldr String.append "" parts)
                      end
                  | _ => Raise (ValueError "planner response did not include JSON content")
                  end
              end
          | _ => Raise (ValueError "planner response missing message")
          end
      | JArr (_ :: _) => Raise (ValueError "planner choice must be an object")
      | _ => Raise (ValueError "planner response missing choices")
      end
  | _ => Raise (OtherError "AttributeError" "object has no attribute 'get'")
  end.

Variable float_repr : spec_float -> string.
Variable redact_text : string -> string.
(** [Plan.model_json_schema(mode="validation")] and the endpoint *)
Variable plan_schema : json.
Variable post : planner_request -> planner_answer.
Variable backend : OpenAICompatiblePlannerBackend.

Definition request (prompt : string) (system_prompt : option string) : planner_request :=
  mkPlannerRequest (oa_base_url backend +:+ "/chat/completions")
    (("Content-Type", "application/json") :: match oa_api_key backend with Some key => [("Authorization", "Bearer " +:+ key)] | None => [] end)
    (JObj [("model", JStr (oa_model backend)); ("temperature", JFloat (oa_temperature backend));
      ("messages", JArr [
        JObj [("role", JStr "system"); ("content", JStr (match system_prompt with Some s => if is_empty s then DEFAULT_SYSTEM_PROMPT else s | None => DEFAULT_SYSTEM_PROMPT end))];
        JObj [("role", JStr "user"); ("content", JStr prompt)]]);
      ("response_format", JObj [("type", JStr "json_schema");
        ("json_schema", JObj [("name", JStr "reflexor_plan"); ("schema", plan_schema)])])]).
Definition openai_plan (i : PlanningInput) (tools : list PlannerToolSpec) (memory : list dict) (system_prompt : option string) : res Plan :=
  prompt ← build_user_prompt float_repr redact_text i tools memory;
  match post (request prompt system_prompt) with
  | BadStatus code => Raise (PlannerRequestError ("planner backend returned HTTP " +:+ str_of_Z code))
  | NoAnswer => Raise (PlannerRequestError "planner backend request failed")
  | Body parsed =>
      match payload ← parsed; parse_openai_plan_response payload with
      | Ok p => Ok (with_version (oa_planner_version backend) p)
      | Raise e => if is_response_error e then Raise (PlannerResponseError "planner backend returned invalid plan response") else Raise e
      end
  end.
End openai.

(** ** [StructuredPlanner], as a planner of the engine *)
Definition is_planner_error (e : exn) : bool :=
  match e with PlannerMemoryLoadError _ | PlannerRequestError _ | PlannerResponseError _ => true | _ => false end.
Section service.
Context {Q X : Type} `{Entropy X}.
#[local] Notation world := (world Q X).
(** the backend, given the identifier of a plan that has none *)
Variable backend : string -> PlanningInput -> list PlannerToolSpec -> list dict -> option string -> res Plan.
Variable tool_specs : list PlannerToolSpec.
Variable system_prompt : option string.
Variable memory_loader : option (PlanningInput -> st world (list dict)).

Definition load_memory (i : PlanningInput) : st world (list dict) :=
  match memory_loader with
  | None => mret []
  | Some load => fun w =>
      match load i w with
      | (Ok memory, w) => (Ok memory, w)
      | (Raise e, w) => (Raise (if is_planner_error e then e else PlannerMemoryLoadError "planner memory loading failed"), w)
      end
  end.
Definition structured_plan (i : PlanningInput) : st world Plan :=
  memory ← load_memory i;
  id ← fresh_uuid;
  lift (backend id i tool_specs memory system_prompt).
End service.

(** ** Plans and their dumps *)
(** A dumped task names its timeout. *)
Definition with_timeout (t : ProposedTask) : ProposedTask :=
  mkProposedTask (pt_name t) (pt_tool_name t) (pt_args t) (pt_depends_on t) (pt_timeout_s t) true (pt_max_attempts t) (pt_priority t)
    (idempotency_seed t) (declared_permission_scope t) (approval_required t) (expected_side_effects t) (execution_class t).
Definition explicit_timeouts (p : Plan) : Plan :=
  mkPlan (plan_id p) (summary p) (map with_timeout (plan_tasks p)) (estimated_cost p) (required_approvals p) (budget_assertions p)
    (planner_version p) (planning_notes p) (plan_metadata p).
(** What validation leaves as it is. *)
Record valid_plan (p : Plan) : Prop := {
  vp_plan : Plan_validate "" (IdStr (plan_id p)) p = Ok p;
  vp_tasks : Forall (fun t => ProposedTask_validate t = Ok t) (plan_tasks p);
  vp_budget : BudgetAssertions_validate (budget_assertions p) = Ok (budget_assertions p);
}.

(** A record whose fields were validated validates again, as the same record. *)
Ltac revalidate :=
  repeat match goal with E : vap _ _ = VOk _ |- _ => apply vap_VOk in E as (? & ? & E & ? & ?) end;
  repeat match goal with E : field _ _ = VOk _ |- _ => rewrite E; clear E end; simplify_eq; done.

Section roundtrip.
Variable lax_int : json -> res Z.
Variable lax_float : json -> res spec_float.
Variable lax_bool : json -> res bool.
Variable fresh : string.

Lemma nullable_bool o : nullable (of_bool lax_bool) (json_of JBool o) = Ok o.
Proof. by destruct o. Qed.
Lemma nullable_float o : nullable (of_float lax_float) (json_of JFloat o) = Ok o.
Proof. by destruct o. Qed.

Lemma ProposedTask_of_dump t : (d ← of_dict (ProposedTask_dump t); ProposedTask_of_dict lax_int lax_bool d) = ProposedTask_validate (with_timeout t).
Proof.
  unfold ProposedTask_dump, of_dict. cbn [mbind res_bind]. unfold ProposedTask_of_dict, ProposedTask_validate, required, defaulted.
  lookups. rewrite !nullable_int, !nullable_str, !nullable_bool, of_strs. done.
Qed.
Lemma with_timeout_fix t : ProposedTask_validate t = Ok t -> ProposedTask_validate (with_timeout t) = Ok (with_timeout t).
Proof.
  unfold ProposedTask_validate. rewrite !run_Ok. cbn [pt_name pt_tool_name pt_args pt_depends_on pt_timeout_s pt_timeout_set pt_max_attempts
    pt_priority idempotency_seed declared_permission_scope approval_required expected_side_effects execution_class with_timeout].
  intros E. revalidate.
Qed.
Lemma BudgetAssertions_of_dump b : (d ← of_dict (BudgetAssertions_dump b); BudgetAssertions_of_dict lax_int lax_float d) = BudgetAssertions_validate b.
Proof.
  unfold BudgetAssertions_dump, of_dict. cbn [mbind res_bind]. unfold BudgetAssertions_of_dict, BudgetAssertions_validate, required, defaulted.
  lookups. rewrite !nullable_int. done.
Qed.

(** a plan survives its dump. What [model_dump] makes of a valid plan is read
    back by [model_validate] as this plan, with its tasks and its budget
    assertions; only that now every task names its timeout. *)
Theorem plan_roundtrip p : valid_plan p ->
  Plan_of_dict lax_int lax_float lax_bool fresh (Plan_dump p) = Ok (explicit_timeouts p).
Proof.
  intros [Hp Ht Hb]. assert (Plan_of_dict lax_int lax_float lax_bool fresh (Plan_dump p) = Plan_validate "" (IdStr (plan_id p)) (explicit_timeouts p)) as ->.
  - unfold Plan_of_dict, Plan_dump, generated_id, required, defaulted. lookups. rewrite nullable_float, !nullable_str, !of_strs.
    cbn [of_str of_dict id_of mbind res_bind]. unfold of_list at 1.
    rewrite (of_items_map _ _ with_timeout).
    + pose proof (BudgetAssertions_of_dump (budget_assertions p)) as E. unfold BudgetAssertions_dump, of_dict in E. cbn [mbind res_bind] in E.
      unfold BudgetAssertions_dump, of_model. rewrite E, Hb. done.
    + intros loc t Hin. rewrite Forall_forall in Ht. pose proof (ProposedTask_of_dump t) as E. rewrite (with_timeout_fix t (Ht t Hin)) in E.
      unfold ProposedTask_dump, of_dict in E. cbn [mbind res_bind] in E. exact E.
  - revert Hp. unfold Plan_validate. rewrite !run_Ok. cbn [plan_id summary plan_tasks estimated_cost required_approvals budget_assertions planner_version
      planning_notes plan_metadata explicit_timeouts]. intros E. revalidate.
Qed.
End roundtrip.

(** ** What a prompt holds *)
Section prompt_facts.
Variable float_repr : spec_float -> string.
Variable redact_text : string -> string.
#[local] Notation sens := (sensitive default_redactor).
#[local] Notation T := (redacted_text redact_text).
#[local] Notation R := (replaced_value default_redactor).
#[local] Notation section := (sanitize_prompt_section float_repr redact_text).

Lemma section_safe v n : 0 <= n -> exists w, section v n = Ok w /\ safe sens (cut T) (cut R) w.
Proof.
  intros Hn. unfold sanitize_prompt_section, redact, truncate_collection. rewrite (proj2 (Z.ltb_ge n 0)) by done. eexists. split; [done|].
  apply truncate_safe; [right..|by apply redact_value_safe]; apply note_elem; set_solver.
Qed.
Lemma tools_returned tools : exists specs, sequence (map (tool_to_prompt_dict float_repr redact_text) tools) = Ok specs.
Proof.
  induction tools as [|t tools [specs IH]]; [by exists []|]. cbn [map sequence].
  assert (exists v, tool_to_prompt_dict float_repr redact_text t = Ok v) as [v ->].
  { unfold tool_to_prompt_dict. destruct (section_safe (JObj (pts_input_schema t)) PLANNER_TOOL_SCHEMA_MAX_BYTES) as (w & -> & _); [done|].
    destruct (section_safe (JObj (pts_output_schema t)) PLANNER_TOOL_SCHEMA_MAX_BYTES) as (w' & -> & _); [done|]. by eexists. }
  rewrite IH. by eexists.
Qed.
Lemma payload_safe i tools memory : exists p, prompt_payload float_repr redact_text i tools memory = Ok p /\ safe sens (cut T) (cut R) (JObj p).
Proof.
  unfold prompt_payload. destruct (section_safe (PlanningInput_dump i) PLANNER_INPUT_MAX_BYTES) as (a & -> & Ha); [done|].
  destruct (tools_returned tools) as [specs ->]. cbn [mbind res_bind].
  destruct (section_safe (JArr specs) PLANNER_TOOLS_MAX_BYTES) as (b & -> & Hb); [done|].
  destruct (section_safe (JArr (map JObj memory)) PLANNER_MEMORY_MAX_BYTES) as (c & -> & Hc); [done|].
  eexists. split; [reflexivity|]. apply safe_obj.
  repeat (constructor; [split; [by intros Hk; vm_compute in Hk|intros _; first [assumption|apply safe_obj]]|]); [|constructor].
  repeat (constructor; [split; [by intros Hk; vm_compute in Hk|by intros _; apply safe_scalar]|]). constructor.
Qed.
Lemma text_of_safe (T' R' : string -> Prop) v : safe sens T' R' v -> exists s, compact_json float_repr v = Ok s.
Proof. intros Hv%safe_jsonable. pose proof (compact_ok float_repr v) as E. rewrite Hv in E. destruct (compact_json float_repr v); [by eexists|done]. Qed.

(** the prompt of a planner is bounded and redacted. Whatever the events, the
    tools and the memory are, the backend either refuses with a planner error or
    sends a prompt of at most 64 KiB: the JSON text of a value in which, at any
    depth, the value of a sensitive key is the replacement, and every text is the
    outcome of the redaction patterns, a marker of the redactor, or what
    truncation leaves of these. *)
Theorem prompt_safe i tools memory :
  match build_user_prompt float_repr redact_text i tools memory with
  | Ok prompt => bytes prompt <= PLANNER_PROMPT_MAX_BYTES /\
      exists v, compact_json float_repr v = Ok prompt /\ safe sens (cut (cut T)) (cut (cut R)) v
  | Raise e => e = too_large
  end.
Proof.
  unfold build_user_prompt. destruct (payload_safe i tools memory) as (p & -> & Hp). cbn [mbind res_bind].
  destruct (text_of_safe _ _ _ Hp) as [whole Ew]. rewrite Ew. cbn [raise_if mbind res_bind].
  assert (safe sens (cut (cut T)) (cut (cut R)) (JObj p)) as Hp2 by (eapply safe_mono, Hp; apply cut_self).
  unfold shorten. destruct (Z.leb_spec (bytes whole) PLANNER_PROMPT_MAX_BYTES) as [Hb|Hb]; cbn [raise_if mbind res_bind].
  { rewrite (proj2 (Z.ltb_ge _ _)) by done. split; [done|]. by exists (JObj p). }
  unfold truncate_collection. cbn [raise_if mbind res_bind]. change (PLANNER_PROMPT_MAX_BYTES - 1024 <? 0) with false. cbn [raise_if mbind res_bind].
  match goal with |- context [truncate_with_budget ?f ?d ?m ?k ?r ?v ?b] => pose proof (truncate_safe sens f d m (cut T) (cut R)) as Ht;
    specialize (fun H1 H2 H3 H4 => Ht H1 H2 H3 H4 r v b Hp); set (u := truncate_with_budget f d m k r v b) in * end.
  assert (safe sens (cut (cut T)) (cut (cut R)) u.1.1) as Hu.
  { apply Ht; apply cut_self; right; apply note_elem; set_solver. }
  destruct u.1.1 as [| | | | | |d|]; try done. cbn [raise_if mbind res_bind]. destruct (text_of_safe _ _ _ Hu) as [t Et]. rewrite Et. cbn [raise_if mbind res_bind].
  destruct (Z.ltb_spec PLANNER_PROMPT_MAX_BYTES (bytes t)); [done|]. split; [done|]. by exists (JObj d).
Qed.
End prompt_facts.

(** ** An event that cannot be planned *)
Lemma positive_int_error f n e : positive_int f n = Raise e -> exists m, e = ValueError m.
Proof. unfold positive_int. destruct (_ <=? _); [|done]. intros [= <-]. by eexists. Qed.
Lemma positive_float_error f x e : positive_float f x = Raise e -> exists m, e = ValueError m.
Proof. unfold positive_float. destruct (fle _ _); [|done]. intros [= <-]. by eexists. Qed.
(** The outcome of checks that raise only [ValueError]. *)
Lemma field_no_abort {A} f (r : res A) : (forall e, r = Raise e -> exists m, e = ValueError m) -> forall e, field f r <> VAbort e.
Proof. intros Hr e. destruct r as [a|e']; [done|]. by destruct (Hr e' eq_refl) as [m ->]. Qed.
Lemma vap_no_abort {A B} (f : vld (A -> B)) x : (forall e, f <> VAbort e) -> (forall e, x <> VAbort e) -> forall e, vap f x <> VAbort e.
Proof. intros Hf Hx e. destruct f, x; cbn; try done; intros [= ->]; first [by destruct (Hf e)|by destruct (Hx e)]. Qed.
Lemma run_error {A} (x : vld A) e : (forall e, x <> VAbort e) -> run x = Raise e -> is_response_error e = true.
Proof. intros Hx. destruct x as [a|l|e']; cbn; [done|by intros [= <-]|by destruct (Hx e')]. Qed.
Lemma optional_error {A} (check : A -> res A) o e : (forall a e, check a = Raise e -> exists m, e = ValueError m) ->
  validate_optional check o = Raise e -> exists m, e = ValueError m.
Proof. intros Hc. destruct o as [a|]; [|done]. cbn. destruct (check a) as [b|e'] eqn:E; [done|]. intros [= <-]. by eapply Hc. Qed.
Ltac no_abort :=
  repeat apply vap_no_abort; first [done|apply field_no_abort; intros ?; first [apply positive_int_error|apply positive_float_error|apply optional_error]];
  intros ? ?; first [apply positive_int_error|apply positive_float_error].
Lemma limits_error l e : LimitsSnapshot_validate l = Raise e -> is_response_error e = true.
Proof. apply run_error. no_abort. Qed.
Lemma budget_error i e : budget_assertions_for_input i = Raise e -> is_response_error e = true.
Proof.
  unfold budget_assertions_for_input. destruct (ls_max_tool_calls (pi_limits i)), (ls_max_runtime_s (pi_limits i)), (ls_max_tokens (pi_limits i)); try by intros [= <-].
  apply run_error. no_abort.
Qed.
Lemma input_error i e : PlanningInput_validate i = Raise e -> is_response_error e = true.
Proof.
  unfold PlanningInput_validate. assert (forall n, field "now_ms" (non_negative_int "now_ms" n) <> VAbort e) as Hn.
  { intros n. unfold non_negative_int. by destruct (_ <? _). }
  unfold after. specialize (Hn (pi_now_ms i)). destruct (field "now_ms" _) as [n|l|e']; cbn; try done.
  - unfold validate_trigger_requires_event. cbn. destruct (_ && _); cbn; [by intros [= <-]|done].
  - by intros [= <-].
  - by intros [= <-].
Qed.

Section blocked.
Context {Q X : Type} `{QO : QueueSpec.QueueOps Q} `{EN : Entropy X} `{CL : Clock X}.
Variables (rt : runtime) (self : OrchestratorEngine Q X) (others : world Q X -> world Q X) (tracker_clock : nat -> Z).
Variable lax_int : json -> res Z.
Variable lax_float : json -> res spec_float.
Variable lax_bool : json -> res bool.
Variables (version : string) (specs : list PlannerToolSpec) (system_prompt : option string).

(** [HeuristicPlannerBackend.plan] *)
Definition heuristic_backend (fresh : string) (i : PlanningInput) (tools : list PlannerToolSpec) (memory : list dict) (system_prompt : option string)
  : res Plan := heuristic lax_int lax_float lax_bool fresh version i tools.
(** The payload holds an object for a plan that is none. *)
Definition unplannable (e : Event) : Prop := exists d,
  or (get "planner_plan" (ev_payload e)) (get "plan" (ev_payload e)) = JObj d /\
  forall fresh, exists err, Plan_of_dict lax_int lax_float lax_bool fresh d = Raise err /\ is_response_error err = true.

Lemma heuristic_raises fresh i e rest tools memory prompt : unplannable e -> pi_events i = e :: rest ->
  exists err, heuristic_backend fresh i tools memory prompt = Raise err /\ is_response_error err = true.
Proof.
  intros (d & Ed & Hd) Hi. unfold heuristic_backend, heuristic. rewrite Hi. destruct (budget_assertions_for_input i) as [a|err] eqn:Ea; cbn [mbind res_bind].
  - destruct (Hd fresh) as (err & Er & Hr). exists err. split; [|done]. cbn [first_plan]. unfold plan_of_event. by rewrite Ed, Er.
  - exists err. split; [done|by eapply budget_error].
Qed.

Context (uuid_always : forall x : X, exists id x', fresh_uuid x = (Ok id, x')).
Context (planner_is : planner self = structured_plan heuristic_backend specs system_prompt None).

Lemma consult_raises e rest trigger now f : unplannable e -> exists err x,
  consult_planner self tracker_clock trigger (e :: rest) now f =
    (Raise err, mkFrame (set_env x (f_world f)) (f_tracker f) (f_reflex_decision f) (f_plan f) (f_tasks f) (f_policy_decisions f) (f_enqueued_task_ids f)) /\
  is_response_error err = true.
Proof.
  intros He. assert (set_env (w_env (f_world f)) (f_world f) = f_world f) as Hw by (by destruct (f_world f)).
  unfold consult_planner, mbind, st_bind, lift. destruct (LimitsSnapshot_validate _) as [l|err] eqn:El.
  2: { apply limits_error in El. exists err, (w_env (f_world f)). rewrite Hw. by destruct f. }
  destruct (PlanningInput_validate _) as [i|err] eqn:Ei.
  2: { apply input_error in Ei. exists err, (w_env (f_world f)). rewrite Hw. by destruct f. }
  assert (pi_events i = e :: rest) as Hi.
  { unfold PlanningInput_validate in Ei. autorewrite with vld in Ei. naive_solver. }
  rewrite planner_is. unfold on_world, structured_plan, load_memory, mbind, st_bind, mret, st_ret. cbn [f_world].
  unfold fresh_uuid, world_entropy, on_env. destruct (uuid_always (w_env (f_world f))) as (id & x & ->).
  destruct (heuristic_raises id i e rest specs [] system_prompt He Hi) as (err & Er & Hr). unfold lift. rewrite Er. by exists err, x.
Qed.

(** one event stops all planning. With the heuristic planner, when the first
    event of the backlog carries under plan an object that is no plan, as a webhook
    of any service may, every planning cycle fails with an unexpected error,
    whatever the events behind it ask for: nothing is built or put on the queue,
    and the backlog, the queue and the store stay as they are, so that the next
    cycle meets the same event at the head again. *)
Theorem unplannable_event_blocks e rest trigger ev run now tracker w : unplannable e -> exists f x,
  planning_cycle rt self others tracker_clock trigger (e :: rest) ev run now tracker w = (Ok f, set_env x w) /\
  f_policy_decisions f = [failure "planning_error" "unexpected planning error"] /\ f_tasks f = [] /\ f_enqueued_task_ids f = [].
Proof.
  intros He. unfold planning_cycle, run_body, guarded, plan_events, mbind at 1, st_bind at 1.
  destruct (consult_raises e rest (effective_trigger trigger (e :: rest)) now (new_frame tracker w) He) as (err & x & -> & Hr).
  exists (mkFrame (set_env x w) tracker [] [] [] [failure "planning_error" "unexpected planning error"] []), x.
  split; [|done]. destruct err; done.
Qed.
End blocked.

(** ** Samples *)
Definition any_int : json -> res Z := fun _ => Raise (ValueError "Input should be a valid integer").
Definition any_float : json -> res spec_float := fun _ => Raise (ValueError "Input should be a valid number").
Definition any_bool : json -> res bool := fun _ => Raise (ValueError "Input should be a valid boolean").
Definition read_specs : list PlannerToolSpec := registry_tool_specs (fun _ => [("type", JStr "object")]) [("type", JStr "object")] read_registry.
Definition heuristic_engine : OrchestratorEngine TaskQueue.TaskQueue.t Z :=
  mkEngine NeedsPlanningRouter (structured_plan (heuristic_backend any_int any_float any_bool "heuristic.v1") read_specs None None)
    read_registry NoopRunPacketSink None None
    (mkBudgetLimits (Some 5) (Some 5) (Some 100) (Some (of_Z 30)) (Some 2) (Some 2)) ["fs.read"] [].
Definition read_event : Event := mkEvent (sample_uuid "f") "page" "web" 5 [("tool_name", JStr "fs.read_text"); ("args", JObj [("path", JStr "a.txt")])] None.
Definition gold_event : Event := mkEvent (sample_uuid "e") "subscription" "billing" 5 [("plan", JObj [("id", JStr "gold")])] None.
Definition heuristic_cycle (selected : list Event) : res frame * world TaskQueue.TaskQueue.t Z :=
  planning_cycle (QO := TaskQueue.TaskQueue.ops) sample_runtime heuristic_engine id (fun _ => 0) OnEvent selected (sample_uuid "e") sample_run_id 1000
    (BudgetTracker.mk (limits heuristic_engine) 0 0 0 0 0 None 0) (world_with selected).

(** Alone the read is planned and put on the queue. *)
Example read_is_planned :
  ((fun f => length (f_enqueued_task_ids f)) <$> (heuristic_cycle [read_event]).1) = Ok 1%nat /\ w_backlog (heuristic_cycle [read_event]).2 = [].
Proof. by vm_compute. Qed.

Lemma gold_unplannable : unplannable any_int any_float any_bool gold_event.
Proof. exists [("id", JStr "gold")]. split; [reflexivity|]. intros fresh. eexists. split; reflexivity. Qed.
Lemma counting_uuid (x : Z) : exists id x', fresh_uuid x = (Ok id, x').
Proof. eexists _, _. reflexivity. Qed.
Lemma unplannable_event_blocks_witness : exists f x, heuristic_cycle [gold_event; read_event] = (Ok f, set_env x (world_with [gold_event; read_event])) /\
  f_policy_decisions f = [failure "planning_error" "unexpected planning error"] /\ f_tasks f = [] /\ f_enqueued_task_ids f = [].
Proof.
  exact (unplannable_event_blocks (QO := TaskQueue.TaskQueue.ops) sample_runtime heuristic_engine id (fun _ => 0) any_int any_float any_bool
    "heuristic.v1" read_specs None counting_uuid eq_refl gold_event [read_event] OnEvent (sample_uuid "e") sample_run_id 1000
    (BudgetTracker.mk (limits heuristic_engine) 0 0 0 0 0 None 0) (world_with [gold_event; read_event]) gold_unplannable).
Defined.

(** A plan of two reads, the second after the first. *)
Definition sample_plan : Plan :=
  mkPlan (sample_uuid "a") "two reads" (map with_timeout sample_plan_tasks) (Some fzero) ["fs"] (mkBudgetAssertions 2 (of_Z 30) 100 (Some 2)) (Some "v1") ["n"]
    [("k", JInt 1)].
Lemma plan_roundtrip_witness : Plan_of_dict any_int any_float any_bool "" (Plan_dump sample_plan) = Ok sample_plan.
Proof.
  refine (plan_roundtrip any_int any_float any_bool "" sample_plan _). split.
  - reflexivity.
  - repeat (constructor; [vm_compute; reflexivity|]). constructor.
  - reflexivity.
Defined.

(** A backend that is sent an array instead of an object. *)
Definition sample_backend : OpenAICompatiblePlannerBackend := mkOpenAI "https://llm.example" "m" None fzero "openai_compatible.v1".
Definition answered (body : json) : res Plan :=
  openai_plan any_int any_float any_bool (sample_uuid "a") (fun _ => None) sample_float_repr (fun s => s) JNull (fun _ => Body (Ok body)) sample_backend
    (mkPlanningInput OnEvent [read_event] (mkLimitsSnapshot (Some 5) (Some 5) (Some 100) (Some (of_Z 30))) 1000) read_specs [] None.
Example plan_answered :
  (plan_id <$> answered (JObj [("choices", JArr [JObj [("message", JObj [("parsed", JObj (Plan_dump sample_plan))])]])])) = Ok (sample_uuid "a") /\
  answered (JObj [("choices", JArr [])]) = Raise (PlannerResponseError "planner backend returned invalid plan response") /\
  answered (JArr []) = Raise (OtherError "AttributeError" "object has no attribute 'get'").
Proof. by vm_compute. Qed.
